(* ===== verification/_CoqProject ===== *)
-Q . S2P
Prelude.v
Effects.v
EnumSet.v
DispatchTypes.v
StateMachine.v
StateMachineLaws.v
StateMachineInv.v
Recorder.v
StateMachineStream.v
StateMachineSeq.v
StateMachineReturns.v
StateMachineString.v
Utils.v
ColorTable.v
Base64.v
Geometry.v
Bitset.v
Bitmap.v
LineRendition.v
Viewport.v
ViewportSpec.v
InputEvents.v
TerminalInput.v
InputEngine.v
InputRoundTrip.v
InputKeys.v
InputMouse.v
InputModes.v
TermDispatch.v
OutputEngine.v
OutputEngineLaws.v
TermRecorder.v
OutputEngineSpec.v
TextColor.v
TextAttribute.v
SgrStack.v
AdaptGraphics.v
MacroBuffer.v
MacroText.v
Rle.v
RleLaws.v
RleSpec.v
Row.v
RowLayout.v
RowSpec.v
RowTheorems.v
Charsets.v
TerminalOutput.v
TerminalOutputSpec.v
CodepointWidth.v
OutputCells.v
RowWrite.v
OutputText.v
Cursor.v
Hash.v
TextBuffer.v
TextBufferSpec.v
TextBufferRing.v
TextBufferPage.v
TextBufferRefine.v
FontBuffer.v
RenderSettings.v
TerminalApi.v
AdaptDispatch.v
AdaptScreen.v
AdaptCursor.v
AdaptPrint.v
AdaptScroll.v
AdaptOps.v
AdaptCopy.v
AdaptModes.v
AdaptModesSpec.v
VtRenderer.v
TerminalCore.v
AdaptStrings.v
AdaptTerminal.v
TerminalCoreLaws.v
VtRendererSpec.v
TerminalRun.v
