(* ===== verification/Prelude.v ===== *)
(** * Verification of the virtual-terminal core of Windows Terminal

    Windows Terminal and the console host turn a stream of UTF-16 text with embedded control
    sequences into operations on a text buffer, what the user does into sequences that go the
    other way, and, in a pseudoconsole, what is on the screen into sequences again.  This
    library models the code of these paths and proves it correct:

    - a state machine cuts a stream into actions ([StateMachine], file
      src/src/terminal/parser/stateMachine.cpp);
    - an engine, behind the interface [IStateMachineEngine], interprets the actions; the one
      for output is [OutputStateMachineEngine], which turns sequences into calls of the
      interface [ITermDispatch], the one for input is [InputStateMachineEngine], which turns
      sequences into key and mouse events for an [IInteractDispatch];
    - the adapter, [AdaptDispatch], carries the calls out: on the text buffer, on the state it
      keeps (modes, margins, tab stops, saved cursors, character sets, soft fonts, macros),
      and on a terminal behind the interface [ITerminalApi];
    - the terminal core of the applications ([Terminal]) implements that interface with two
      text buffers and a viewport that follows the cursor;
    - the text buffer is a ring of rows ([TextBuffer]) with a cursor ([Cursor]); rows keep text
      in a packed form ([ROW]), attributes in run-length vectors ([til::rle]);
    - a terminal encodes keys and mouse events as sequences ([TerminalInput]);
    - the VT renderer ([VtEngine], [XtermEngine], [Xterm256Engine]) tracks what is invalid in a
      [til::bitmap] and draws it by writing sequences to another terminal;
    - utilities used on the way: identifiers and parameters of sequences, points, rectangles
      and viewports, base64 for the clipboard, colour names and palettes, colours and
      attributes, glyph widths, hashes.

    ** How the code is translated

    A method that only computes is a function; a method that changes an object or may throw is
    a computation [M S A := S -> S * Result A] ([Effects.v]), whose outcome is a value, a C++
    exception, undefined behaviour or exhausted fuel; a function that may fail without a state
    returns a [Result].  A [HRESULT] is a value.  [wchar_t] is a 16-bit [Z]; integers that may
    wrap are wrapped explicitly ([wrapu], [wraps]); the arithmetic of points, sizes and
    rectangles throws on overflow as the source does, that of viewports is in [Z]
    ([viewport_fits] shows when it fits).  Interfaces of the source are type classes:
    [IStateMachineEngine], [ITermDispatch], [IInteractDispatch], [ITerminalApi], [EnumPos]; the
    Windows function [MultiByteToWideChar] is a member of the class [Win32], the keyboard
    layout of the system is the class [Keyboard], and the width of a glyph the class
    [GlyphWidth].  What one component promises another is a
    class of laws ([FramedEngine], [TransparentEngine], [WfCallback], [SyncCallback],
    [TerminatingEngine], [ReturningEngine], [FramedDispatch], [TransparentDispatch],
    [ReturningDispatch], [ApiLaws], [FeedLaws]); the recorders ([Recorder.v],
    [TermRecorder.v], [InteractRecorder] of [InputRoundTrip.v]) are concrete instances that
    honour them and are used to evaluate the model; the output engine, the adapter and the
    terminal core discharge the laws they are held to.  Memory that the source leaves
    uninitialised is an argument; [std::copy_n] within one buffer of characters is a
    [memmove], as in the library the code is built with.  Names are those of the source.

    Code outside of the sources is an argument: the perceptual adjustment of colours
    ([GetPerceivableColor], floating point), [ColorFromHLS], the search for patterns in a
    buffer ([GetPatterns]), the callbacks of the terminal core, the nested run of a macro
    ([run_macro]), the connection to another terminal ([write_terminal]), the pipe
    ([WriteFile]), the conversion to UTF-8 of the renderer ([u16u8]), and the identifier of
    the process.

    ** Files

    - [Prelude.v]: machine integers, wide strings, tactics, shared lemmas.
    - [Effects.v]: the state and error monad with its frame, weakest-precondition and
      simulation rules.
    - [EnumSet.v]: [til::enumset] (inc/til/enumset.h).
    - [DispatchTypes.v]: [VTID], [VTIDBuilder], [VTParameter], [VTParameters]
      (terminal/adapter/DispatchTypes.hpp).
    - [StateMachine.v]: every state, event, action and the two drivers [ProcessCharacter] and
      [ProcessString] of the parser, with the engine interface
      (terminal/parser/stateMachine.{hpp,cpp}, IStateMachineEngine.hpp, ascii.hpp).
    - [StateMachineLaws.v]: the contracts of engines.
    - [StateMachineInv.v], [Recorder.v]: the invariant of the parser, kept by every string; the
      recording engine.
    - [StateMachineStream.v]: [ProcessString], which hands runs of printable characters to the
      engine, refines [ProcessCharacter] applied to each character; consequently a stream may
      be cut into strings anywhere.
    - [StateMachineSeq.v]: what the text of a CSI, OSC or DCS sequence is dispatched as.
    - [StateMachineReturns.v]: termination, and normal return for engines that return.
    - [StateMachineString.v]: a CSI or SS3 sequence that arrives as one string, as the input
      engine gets them.
    - [Utils.v]: [StringToUint], [SplitString], [FilterStringForPaste], the X11 colour
      specifications (types/utils.cpp, inc/til/color.h).
    - [ColorTable.v]: palettes and colour names (types/colorTable.cpp, inc/til/static_map.h).
    - [Base64.v]: the clipboard decoder (terminal/parser/base64.cpp, inc/til/u8u16convert.h).
    - [Geometry.v]: points, sizes, rectangles (inc/til/point.h, size.h, rect.h, operators.h).
    - [Bitset.v], [Bitmap.v]: sets of bits in blocks (oss/dynamic_bitset/dynamic_bitset.hpp)
      and the bitmaps of invalid cells made of them (inc/til/bitmap.h).
    - [LineRendition.v]: columns of double-width lines (buffer/out/LineRendition.hpp).
    - [Viewport.v], [ViewportSpec.v]: viewports and walks over their cells (types/viewport.cpp).
    - [InputEvents.v]: key and mouse events (types/inc/IInputEvent.hpp, types/KeyEvent.cpp),
      and numbers in decimal.
    - [TerminalInput.v]: the encoding of keys and mouse
      (terminal/input/terminalInput.{hpp,cpp}, mouseInput.cpp, mouseInputState.cpp).
    - [InputEngine.v]: the input engine (terminal/parser/InputStateMachineEngine.{hpp,cpp},
      terminal/adapter/IInteractDispatch.hpp).
    - [InputRoundTrip.v], [InputKeys.v], [InputMouse.v], [InputModes.v]: the contracts of the
      input engine, the encoder and the decoder composed, the invariant of the encoder.
    - [TermDispatch.v], [OutputEngine.v]: the dispatch interface and the output engine
      (terminal/adapter/ITermDispatch.hpp, terminal/parser/OutputStateMachineEngine.{hpp,cpp}).
    - [OutputEngineLaws.v], [TermRecorder.v], [OutputEngineSpec.v]: the output engine honours
      the contracts of the parser, if the dispatcher honours its own; REP, OSC 52 and
      hyperlinks.
    - [TextColor.v], [TextAttribute.v]: colours and attributes of cells, their legacy 16-bit
      form (buffer/out/TextColor.{h,cpp}, buffer/out/TextAttribute.{hpp,cpp},
      inc/conattrs.hpp).
    - [SgrStack.v]: the ring stack of saved renditions (types/sgrStack.cpp), a refinement of a
      stack that keeps the last ten pushes.
    - [AdaptGraphics.v]: SGR, DECSCA, XTPUSHSGR, XTPOPSGR on the attributes
      (terminal/adapter/adaptDispatchGraphics.cpp).
    - [MacroBuffer.v], [MacroText.v]: macros, their definition and invocation
      (terminal/adapter/MacroBuffer.{hpp,cpp}).
    - [Rle.v], [RleLaws.v], [RleSpec.v]: run-length vectors and their iterators
      (inc/til/rle.h).
    - [Row.v], [RowLayout.v], [RowSpec.v], [RowTheorems.v]: the rows of the text buffer
      (buffer/out/Row.{hpp,cpp}), against rows as lists of glyphs.
    - [Charsets.v], [TerminalOutput.v], [TerminalOutputSpec.v]: character sets and their
      translation (terminal/adapter/charsets.hpp, terminalOutput.{hpp,cpp}).
    - [CodepointWidth.v]: widths of glyphs, code points of UTF-16
      (types/CodepointWidthDetector.cpp, types/GlyphWidth.cpp, inc/til/unicode.h).
    - [OutputCells.v], [RowWrite.v], [OutputText.v]: cells on their way to a row
      (buffer/out/OutputCellIterator.{hpp,cpp}, OutputCell.cpp, OutputCellView.cpp, and
      [ROW::WriteCells]), and the same as writing glyphs.
    - [Cursor.v]: the cursor and the redraws it asks for (buffer/out/cursor.{h,cpp}).
    - [Hash.v]: [til::hasher] (inc/til/hash.h).
    - [TextBuffer.v]: the text buffer and the iterator over its cells
      (buffer/out/textBuffer.{hpp,cpp}, textBufferCellIterator.{hpp,cpp}); [TextBufferSpec.v],
      [TextBufferRing.v], [TextBufferPage.v], [TextBufferRefine.v]: the buffer refines a page
      of lines, with a cursor.
    - [FontBuffer.v]: soft fonts (terminal/adapter/FontBuffer.{hpp,cpp}).
    - [RenderSettings.v]: colour tables, aliases and the colours of attributes
      (renderer/base/RenderSettings.cpp).
    - [TerminalApi.v]: the interface of the adapter to a terminal, with its laws
      (terminal/adapter/ITerminalApi.hpp).
    - [AdaptDispatch.v], [AdaptOps.v], [AdaptModes.v], [AdaptStrings.v]: the adapter
      (terminal/adapter/adaptDispatch.{hpp,cpp}, adaptDispatchGraphics.cpp): printing, cursor,
      scrolling; erasing and rectangles; modes, margins, tabs, reports, resets, colours; the
      actions of strings.
    - [AdaptScreen.v], [AdaptCursor.v], [AdaptPrint.v], [AdaptScroll.v], [AdaptCopy.v],
      [AdaptModesSpec.v]: what the adapter does on a screen, over any terminal that satisfies
      the laws.
    - [TerminalCore.v], [TerminalCoreLaws.v]: the terminal core
      (cascadia/TerminalCore/Terminal.{hpp,cpp}, TerminalApi.cpp) and its laws.
    - [AdaptTerminal.v]: the adapter as the dispatcher of the output engine.
    - [VtRenderer.v], [VtRendererSpec.v]: the VT renderer (renderer/vt/VtSequences.cpp,
      state.cpp, paint.cpp, invalidate.cpp, math.cpp, XtermEngine.cpp, Xterm256Engine.cpp) and
      its composition with the machine that reads what it writes.
    - [TerminalRun.v]: a new terminal, and the witnesses that run the whole.

    ** What the theorems show

    Parser: an invariant of bounds (at most 32 parameters, each omitted or at most 65535,
    identifiers of 64 bits), kept whatever the input; independence of how the output is cut
    into strings; exact dispatch of the three kinds of sequence; termination and normal return;
    return to the ground state after every input string.  Identifiers: the builder agrees with
    the packed literals and nothing else matches.  Output engine: the repeat sequence repeats
    what was printed last and nothing else.  Input: what the terminal encodes the console decodes, for
    Win32 keys, for the cursor, editing and function keys with and without modifiers, and for
    mouse buttons; VT input is passed on unchanged; the console handles every input to the
    end; the modes of the encoder exclude each other.

    Adapter: printing a text is printing its glyphs one by one on a screen, with pending
    wraps, wide glyphs and line feeds; cursor movements are steps between the margins;
    scrolling moves the lines between the margins and erases what it uncovers; the insertion
    and deletion of characters and the copy of a rectangle, which the code does cell by cell
    in a direction it chooses, move whole cells at once, on lines whose glyphs take one
    column; a saved cursor is restored; DECRQM reports of a mode that is a flag what was set,
    and of no other mode anything new.  These hold
    over any terminal that satisfies the laws, and the terminal core does.  Character sets:
    the cached views are what the designations and shifts determine, whatever the history.

    Buffer: from a new buffer every history of its operations shows the page of lines it
    should; turning the ring drops the oldest line and the hyperlinks only it used; the cursor
    stays in its line.  Rows: the packed operations act as the operations on glyphs, writing
    text replaces the columns it covers, and no history leaves the buffers.  Run-length
    vectors: [replace] is a splice, the iterator an index.  Geometry: differences partition
    and walks visit each cell once.  Bitmaps: a set of cells under every operation, read as maximal runs.

    Renderer: the attributes the VT renderer writes reach the terminal that reads them, its
    cursor movements bring the cursor of that terminal where it means to write, and both stay
    in step.

    Macros: the space in use stays what is stored under definitions, invocations, deletions
    and resets, invocations are bounded.  Utilities: exact
    characterisation of the colour specifications accepted, inversion of base64 encoding,
    equivalence of the paste filter with a filter by character, of the binary with the linear
    search and of the vectorised with the plain search, of the cached widths and colours with
    computed ones.  Attributes: the round trip of legacy attributes after any history of
    defaults, what SGR changes and what it never does, and the refinement of the stack of
    saved renditions.  Examples and a few theorems state behaviour that contradicts what the
    code means to do, for the reader to judge.

    ** Fuel

    [ProcessCharacter] recurses once, for C1 controls, and has fuel 2.  The loop of
    [ProcessString] has fuel [2 * length + 2]: each iteration advances or switches to
    individual processing ([ProcessString_terminates]).  The loop of SGR has as much fuel as
    there are parameters, of which every option consumes one at least ([sgr_total]).  Macros
    nest at most 16 deep, the limit of the code, and have that much fuel.  The loops over the
    offsets of a row have fuel for each offset and one more, those of the run iterators for
    each run and one more, the iteration of a rectangle for its area and one more, the copy of
    a viewport for its cells, the digits of a number for its bits, the writing of cells for
    each column, the iteration of UTF-16 for its length, the writing of lines for each line,
    the printing of a text for (rows + 2) turns per code unit, which is enough because each
    turn consumes text or moves to another line ([text_printed_glyph_by_glyph]), the search
    for a tab stop for each column, hashes for the length of the data, the runs of a bitmap
    for each bit of a row and their collection for the area and one more; the theorems about
    them are about results, which only a loop that ends gives.  Loops that advance by one at
    each turn are structural.

    ** What is not modelled

    Tracing and telemetry.  Of the text buffer word and glyph navigation, the retrieval of
    text, HTML and RTF, and the reflow on a resize; of the terminal core settings, selection,
    key events and the resize by the user; of UTF-8 conversion the part that keeps partial
    sequences.  The other renderers, the console host, the interactivity, the applications
    and their settings, connections and property sheets are operating system calls, graphics
    or user interface. *)

From Stdlib Require Export ZArith Lia List Bool.
From stdpp Require Export base list numbers option decidable.
From Stdlib Require Ascii String.
Export ListNotations.
Export String.StringSyntax.

(** ** Machine types

    [wchar] is C++'s [wchar_t] on Windows, a 16-bit UTF-16 code unit, kept as a
    [Z]; a [wstring] (also a [std::wstring_view]) is a list of code units. *)
Abbreviation wchar := Z (only parsing).
Abbreviation wstring := (list Z) (only parsing).

Definition is_wchar (c : Z) : Prop := (0 <= c < 2 ^ 16)%Z.

Definition is_byte (c : Z) : Prop := (0 <= c < 256)%Z.

(** Unsigned wrap-around at a width of [w] bits. *)
Definition wrapu (w z : Z) : Z := (z mod 2 ^ w)%Z.

Abbreviation u8 := (wrapu 8) (only parsing).
Abbreviation u16 := (wrapu 16) (only parsing).
Abbreviation u32 := (wrapu 32) (only parsing).
Abbreviation u64 := (wrapu 64) (only parsing).

(** Two's complement wrap-around at a width of [w] bits. *)
Definition wraps (w z : Z) : Z :=
  ((z + 2 ^ (w - 1)) mod 2 ^ w - 2 ^ (w - 1))%Z.

Abbreviation i32 := (wraps 32) (only parsing).

(** ** Automation *)

Create HintDb vt discriminated.

(** [bool_prop] turns the boolean tests of the code into propositions [lia]
    understands. *)
Ltac bool_prop :=
  repeat match goal with
  | H : _ && _ = true |- _ => apply andb_true_iff in H; destruct H
  | H : _ || _ = false |- _ => apply orb_false_iff in H; destruct H
  | H : _ && _ = false |- _ => apply andb_false_iff in H
  | H : _ || _ = true |- _ => apply orb_true_iff in H
  | H : negb _ = true |- _ => apply negb_true_iff in H
  | H : negb _ = false |- _ => apply negb_false_iff in H
  | H : (_ =? _)%Z = true |- _ => apply Z.eqb_eq in H
  | H : (_ =? _)%Z = false |- _ => apply Z.eqb_neq in H
  | H : (_ <=? _)%Z = true |- _ => apply Z.leb_le in H
  | H : (_ <=? _)%Z = false |- _ => apply Z.leb_gt in H
  | H : (_ <? _)%Z = true |- _ => apply Z.ltb_lt in H
  | H : (_ <? _)%Z = false |- _ => apply Z.ltb_ge in H
  end.

(** [case_if] splits on the first [if] of the goal and keeps the equation. *)
Ltac case_if :=
  match goal with
  | |- context [if ?b then _ else _] => destruct b eqn:?
  end.

(** [eval_ground] evaluates the shifts and the powers of literals in the goal and
    the hypotheses. *)
Ltac is_literal v :=
  lazymatch v with
  | Z0 => idtac
  | Zpos _ => idtac
  | Zneg _ => idtac
  end.

Ltac eval_ground :=
  repeat match goal with
  | |- context [Z.shiftr ?x ?y] =>
      let v := eval vm_compute in (Z.shiftr x y) in is_literal v; change (Z.shiftr x y) with v
  | |- context [Z.pow ?x ?y] =>
      let v := eval vm_compute in (Z.pow x y) in is_literal v; change (Z.pow x y) with v
  | H : context [Z.pow ?x ?y] |- _ =>
      let v := eval vm_compute in (Z.pow x y) in is_literal v; change (Z.pow x y) with v in H
  end.

(** ** Machine integers *)

Lemma wrapu_range w z : (0 <= w)%Z -> (0 <= wrapu w z < 2 ^ w)%Z.
Proof. intros. apply Z.mod_pos_bound. lia. Qed.

Lemma wrapu_small w z : (0 <= z < 2 ^ w)%Z -> wrapu w z = z.
Proof. apply Z.mod_small. Qed.

Lemma wraps_small w z :
  (0 < w)%Z -> (- 2 ^ (w - 1) <= z < 2 ^ (w - 1))%Z -> wraps w z = z.
Proof.
  intros Hw Hz. unfold wraps.
  assert (2 ^ w = 2 * 2 ^ (w - 1))%Z.
  { rewrite <- Z.pow_succ_r by lia. f_equal. lia. }
  rewrite Z.mod_small; lia.
Qed.

(** Bits above the [w]-th and a value that fits below it. *)
Lemma land_low_bits a n w :
  (0 <= w)%Z -> (0 <= n < 2 ^ w)%Z -> Z.land (a * 2 ^ w) n = 0%Z.
Proof.
  intros Hw Hn. apply Z.bits_inj'. intros i Hi. rewrite Z.land_spec, Z.testbit_0_l.
  destruct (Z.ltb_spec i w); [by rewrite Z.mul_pow2_bits_low by lia|].
  rewrite <- (Z.mod_small n (2 ^ w)), Z.mod_pow2_bits_high, andb_false_r by lia. done.
Qed.

Lemma lor_low_bits a n w :
  (0 <= w)%Z -> (0 <= n < 2 ^ w)%Z -> Z.lor (a * 2 ^ w) n = (a * 2 ^ w + n)%Z.
Proof.
  intros Hw Hn. pose proof (land_low_bits a n w Hw Hn) as Hland.
  rewrite <- Z.lxor_lor, Z.add_nocarry_lxor by done. done.
Qed.

Lemma lor_lt_pow2 a b w :
  (0 <= w)%Z -> (0 <= a)%Z -> (0 <= b)%Z ->
  (Z.lor a b < 2 ^ w <-> a < 2 ^ w /\ b < 2 ^ w)%Z.
Proof.
  intros Hw Ha Hb. assert (Hp : (0 < 2 ^ w)%Z) by lia.
  destruct (Z.eq_dec a 0%Z) as [->|]; [rewrite Z.lor_0_l; lia|].
  destruct (Z.eq_dec b 0%Z) as [->|]; [rewrite Z.lor_0_r; lia|].
  assert (Z.lor a b <> 0%Z) by (rewrite Z.lor_eq_0_iff; lia).
  assert (0 <= Z.lor a b)%Z by (apply Z.lor_nonneg; lia).
  rewrite !Z.log2_lt_pow2, Z.log2_lor by lia. lia.
Qed.

(** A decidable property of the numbers below a bound, by evaluation. *)
Lemma below_forall (n : nat) (P : Z -> Prop) `{Hdec : forall z, Decision (P z)} :
  forallb (fun k => bool_decide (P (Z.of_nat k))) (seq 0 n) = true ->
  forall z, (0 <= z < Z.of_nat n)%Z -> P z.
Proof.
  intros Hall z Hz. rewrite List.forallb_forall in Hall.
  specialize (Hall (Z.to_nat z)). rewrite bool_decide_eq_true, Z2Nat.id in Hall by lia.
  apply Hall, in_seq. lia.
Qed.

(** ** Strings *)

(** A wide string literal, [L"..."]. *)
Definition L (s : String.string) : wstring :=
  map (fun a => Z.of_nat (Ascii.nat_of_ascii a)) (String.list_ascii_of_string s).
Arguments L s%_string_scope.

(** [std::wstring_view::substr(offset, count)]: [None] is [std::out_of_range];
    a count past the end is cut at the end, and [npos], which is [size_t(-1)] and
    the size of no string, is past every end. *)
Definition npos : Z := (-1)%Z.

Definition substr (s : wstring) (offset count : Z) : option wstring :=
  if (Z.of_nat (length s) <? offset)%Z then None
  else
    let tail := drop (Z.to_nat offset) s in
    Some (if (count =? npos)%Z then tail else take (Z.to_nat count) tail).

Lemma substr_npos s k :
  k <= length s -> substr s (Z.of_nat k) npos = Some (drop k s).
Proof.
  intros Hk. unfold substr. rewrite Z.eqb_refl, Nat2Z.id.
  destruct (Z.ltb_spec (Z.of_nat (length s)) (Z.of_nat k)); [lia|done].
Qed.

Lemma substr_take s k n :
  k <= length s ->
  substr s (Z.of_nat k) (Z.of_nat n) = Some (take n (drop k s)).
Proof.
  intros Hk. unfold substr, npos. rewrite !Nat2Z.id.
  destruct (Z.ltb_spec (Z.of_nat (length s)) (Z.of_nat k)); [lia|].
  destruct (Z.eqb_spec (Z.of_nat n) (-1)); [lia|done].
Qed.

(** ** Lists *)

Lemma lookup_repeat {A} (x : A) n i : i < n -> repeat x n !! i = Some x.
Proof. revert i; induction n as [|n IH]; intros [|i] Hi; cbn; auto with lia. Qed.

(** The middle of three parts. *)
Lemma take_drop_middle_app {A} (a x b : list A) i n :
  i = length a -> n = length x -> take n (drop i (a ++ x ++ b)) = x.
Proof. intros -> ->. by rewrite drop_app_length, take_app_length. Qed.

(** The length of a string as an integer. *)
Definition len (s : wstring) : Z := Z.of_nat (length s).

Lemma len_nonneg s : (0 <= len s)%Z.
Proof. unfold len. lia. Qed.

Lemma len_nil : len [] = 0%Z.
Proof. done. Qed.

Lemma len_single c : len [c] = 1%Z.
Proof. done. Qed.

Lemma len_app s1 s2 : len (s1 ++ s2) = (len s1 + len s2)%Z.
Proof. unfold len. rewrite length_app. lia. Qed.
