(* ===== verification/Effects.v ===== *)
(** * State and error monad

    C++ code that mutates an object and may throw is a computation
    [M S A := S -> S * Result A]: the state survives an exception, as the members
    of a C++ object do.  The file also has the reasoning principles the
    components share: [keeps], a frame property of a computation, [wp], its weakest
    precondition, and [sim], the lifting of a relation on states to computations,
    with the lemmas that push each through the monad's operators. *)

From S2P Require Import Prelude.

(** Outcomes of a computation: a value, a C++ exception, undefined behaviour
    (the dereference of an end iterator), or not enough fuel for a loop. *)
Inductive exn :=
| ShutdownException
| StdException.

Inductive Result (A : Type) :=
| Ok (a : A)
| Throw (e : exn)
| Undefined
| OutOfFuel.
Arguments Ok {A} a.
Arguments Throw {A} e.
Arguments Undefined {A}.
Arguments OutOfFuel {A}.

(** Values that may fail, without a state. *)
Definition mapR {A B} (f : A -> B) (x : Result A) : Result B :=
  match x with Ok a => Ok (f a) | Throw e => Throw e | Undefined => Undefined | OutOfFuel => OutOfFuel end.

Definition bindR {A B} (x : Result A) (k : A -> Result B) : Result B :=
  match x with Ok a => k a | Throw e => Throw e | Undefined => Undefined | OutOfFuel => OutOfFuel end.

Definition M (S A : Type) : Type := S -> S * Result A.

Section Operators.
Context {S : Type}.

Definition ret {A} (a : A) : M S A := fun s => (s, Ok a).

Definition bind {A B} (m : M S A) (k : A -> M S B) : M S B := fun s =>
  match m s with
  | (s', Ok a) => k a s'
  | (s', Throw e) => (s', Throw e)
  | (s', Undefined) => (s', Undefined)
  | (s', OutOfFuel) => (s', OutOfFuel)
  end.

Definition throw {A} (e : exn) : M S A := fun s => (s, Throw e).

Definition undefined {A} : M S A := fun s => (s, Undefined).

Definition outOfFuel {A} : M S A := fun s => (s, OutOfFuel).

Definition get {A} (f : S -> A) : M S A := fun s => (s, Ok (f s)).

Definition modify (f : S -> S) : M S unit := fun s => (f s, Ok tt).

Fixpoint iterM {A} (f : A -> M S unit) (l : list A) : M S unit :=
  match l with
  | [] => ret tt
  | a :: l => bind (f a) (fun _ => iterM f l)
  end.

End Operators.

Declare Scope eff_scope.
Delimit Scope eff_scope with eff.
Notation "x <- m ;; k" := (bind m (fun x => k))
  (at level 100, m at next level, right associativity) : eff_scope.
Notation "m ;; k" := (bind m (fun _ => k))
  (at level 100, right associativity) : eff_scope.

Notation "'let?' x := m 'in' k" := (bindR m (fun x => k))
  (at level 200, x name, m at level 100, k at level 200) : eff_scope.

Open Scope eff_scope.

Section Laws.
Context {S : Type}.

Lemma bind_ret_l {A B} (a : A) (k : A -> M S B) s : bind (ret a) k s = k a s.
Proof. reflexivity. Qed.

Lemma bind_Ok {A B} (m : M S A) (k : A -> M S B) s s' a :
  m s = (s', Ok a) -> bind m k s = k a s'.
Proof. intros Hm. unfold bind. by rewrite Hm. Qed.

Lemma bind_assoc {A B D} (m : M S A) (k : A -> M S B) (h : B -> M S D) s :
  bind (bind m k) h s = bind m (fun a => bind (k a) h) s.
Proof. unfold bind. destruct (m s) as [s' []]; reflexivity. Qed.

Lemma bind_ret_r (m : M S unit) s : bind m (fun _ => ret tt) s = m s.
Proof. unfold bind. by destruct (m s) as [s' [[]| | |]]. Qed.

Lemma bind_ext {A B} (m1 m2 : M S A) (k1 k2 : A -> M S B) s :
  m1 s = m2 s -> (forall a s', k1 a s' = k2 a s') -> bind m1 k1 s = bind m2 k2 s.
Proof. intros E1 E2. unfold bind. rewrite E1. destruct (m2 s) as [s' []]; auto. Qed.

Lemma iterM_app {A} (f : A -> M S unit) l1 l2 s :
  iterM f (l1 ++ l2) s = (iterM f l1 ;; iterM f l2) s.
Proof.
  revert s; induction l1 as [|a l1 IH]; intros s; [done|].
  cbn [iterM app]. rewrite bind_assoc. apply bind_ext; auto.
Qed.

End Laws.

(** ** Frame properties

    [keeps R m]: the computation ends, by whatever outcome, in a state related to
    the first by [R]. *)
Section Keeps.
Context {S : Type} (R : S -> S -> Prop) `{!PreOrder R}.

Definition keeps {A} (m : M S A) : Prop := forall s, R s (m s).1.

Lemma keeps_ret {A} (a : A) : keeps (ret a).
Proof. intros s. reflexivity. Qed.

Lemma keeps_throw {A} e : keeps (@throw S A e).
Proof. intros s. reflexivity. Qed.

Lemma keeps_undefined {A} : keeps (@undefined S A).
Proof. intros s. reflexivity. Qed.

Lemma keeps_get {A} (f : S -> A) : keeps (get f).
Proof. intros s. reflexivity. Qed.

Lemma keeps_modify f : (forall s, R s (f s)) -> keeps (modify f).
Proof. auto. Qed.

Lemma keeps_bind {A B} (m : M S A) (k : A -> M S B) :
  keeps m -> (forall a, keeps (k a)) -> keeps (bind m k).
Proof.
  intros Hm Hk s. unfold bind. specialize (Hm s).
  destruct (m s) as [s' []]; cbn in *; [etrans; [exact Hm|apply Hk]|done..].
Qed.

Lemma keeps_if {A} (b : bool) (m1 m2 : M S A) :
  keeps m1 -> keeps m2 -> keeps (if b then m1 else m2).
Proof. by destruct b. Qed.

Lemma keeps_iterM {A} (f : A -> M S unit) l :
  (forall a, keeps (f a)) -> keeps (iterM f l).
Proof.
  intros Hf. induction l as [|a l IH]; cbn; [apply keeps_ret|by apply keeps_bind].
Qed.

End Keeps.

Lemma keeps_mono {S A} (R1 R2 : S -> S -> Prop) (m : M S A) :
  (forall s s', R1 s s' -> R2 s s') -> keeps R1 m -> keeps R2 m.
Proof. intros HR Hm s. auto. Qed.

(** ** Weakest preconditions

    [wp m Q s]: run from [s], the computation ends in a state and with an outcome
    that satisfy [Q].  The lemmas execute a computation symbolically. *)
Section Wp.
Context {S : Type}.

Definition wp {A} (m : M S A) (Q : S -> Result A -> Prop) (s : S) : Prop :=
  Q (m s).1 (m s).2.

Lemma wp_ret {A} (a : A) Q s : Q s (Ok a) -> wp (ret a) Q s.
Proof. done. Qed.

Lemma wp_throw {A} e (Q : S -> Result A -> Prop) s : Q s (Throw e) -> wp (throw e) Q s.
Proof. done. Qed.

Lemma wp_get {A} (f : S -> A) Q s : Q s (Ok (f s)) -> wp (get f) Q s.
Proof. done. Qed.

Lemma wp_modify f Q s : Q (f s) (Ok tt) -> wp (modify f) Q s.
Proof. done. Qed.

Lemma wp_bind {A B} (m : M S A) (k : A -> M S B) Q s :
  wp m (fun s' r => match r with
                    | Ok a => wp (k a) Q s'
                    | Throw e => Q s' (Throw e)
                    | Undefined => Q s' Undefined
                    | OutOfFuel => Q s' OutOfFuel
                    end) s ->
  wp (bind m k) Q s.
Proof. unfold wp, bind. destruct (m s) as [s' []]; auto. Qed.

Lemma wp_mono {A} (m : M S A) (Q1 Q2 : S -> Result A -> Prop) s :
  wp m Q1 s -> (forall s' r, Q1 s' r -> Q2 s' r) -> wp m Q2 s.
Proof. unfold wp. auto. Qed.

Lemma wp_keeps {A} (R : S -> S -> Prop) (m : M S A) Q s :
  keeps R m -> (forall s' r, R s s' -> Q s' r) -> wp m Q s.
Proof. unfold wp. auto. Qed.

End Wp.

(** ** Simulation

    Two computations are similar for a relation on states when, from related
    states, they end in related states with the same outcome. *)
Section Sim.
Context {S : Type} (R : S -> S -> Prop).

Definition sim {A} (m1 m2 : M S A) : Prop :=
  forall s1 s2, R s1 s2 -> R (m1 s1).1 (m2 s2).1 /\ (m1 s1).2 = (m2 s2).2.

Lemma sim_ret {A} (a : A) : sim (ret a) (ret a).
Proof. intros s1 s2 Hs. done. Qed.

Lemma sim_throw {A} e : sim (@throw S A e) (throw e).
Proof. intros s1 s2 Hs. done. Qed.

Lemma sim_undefined {A} : sim (@undefined S A) undefined.
Proof. intros s1 s2 Hs. done. Qed.

Lemma sim_get {A} (f : S -> A) :
  (forall s1 s2, R s1 s2 -> f s1 = f s2) -> sim (get f) (get f).
Proof. intros Hf s1 s2 Hs. split; [done|]. cbn. by rewrite (Hf s1 s2 Hs). Qed.

Lemma sim_modify f1 f2 :
  (forall s1 s2, R s1 s2 -> R (f1 s1) (f2 s2)) -> sim (modify f1) (modify f2).
Proof. intros Hf s1 s2 Hs. split; [by apply Hf|done]. Qed.

Lemma sim_bind {A B} (m1 m2 : M S A) (k1 k2 : A -> M S B) :
  sim m1 m2 -> (forall a, sim (k1 a) (k2 a)) -> sim (bind m1 k1) (bind m2 k2).
Proof.
  intros Hm Hk s1 s2 Hs. specialize (Hm s1 s2 Hs). unfold bind.
  destruct (m1 s1) as [s1' r1], (m2 s2) as [s2' r2]; cbn in *.
  destruct Hm as [Hs' <-]. destruct r1; [by apply Hk|done..].
Qed.

(** A value the relation does not determine, read for later use. *)
Lemma sim_get_any {A B} (f : S -> A) (k1 k2 : A -> M S B) :
  (forall a1 a2, sim (k1 a1) (k2 a2)) -> sim (bind (get f) k1) (bind (get f) k2).
Proof. intros Hk s1 s2 Hs. by apply Hk. Qed.

Lemma sim_if {A} (b : bool) (m1 m2 n1 n2 : M S A) :
  sim m1 n1 -> sim m2 n2 -> sim (if b then m1 else m2) (if b then n1 else n2).
Proof. by destruct b. Qed.

Lemma sim_iterM {A} (f1 f2 : A -> M S unit) l :
  (forall a, sim (f1 a) (f2 a)) -> sim (iterM f1 l) (iterM f2 l).
Proof.
  intros Hf. induction l as [|a l IH]; cbn; [apply sim_ret|by apply sim_bind].
Qed.

Lemma sim_trans `{!Transitive R} `{!Reflexive R} {A} (m1 m2 m3 : M S A) :
  sim m1 m2 -> sim m2 m3 -> sim m1 m3.
Proof.
  intros H12 H23 s1 s2 Hs. destruct (H12 s1 s2 Hs) as [HR12 E12].
  destruct (H23 s2 s2 ltac:(reflexivity)) as [HR23 E23].
  split; [by etrans|congruence].
Qed.

End Sim.

#[export] Hint Resolve keeps_ret keeps_throw keeps_undefined keeps_get keeps_bind
  keeps_if keeps_iterM : vt.
#[export] Hint Resolve sim_ret sim_throw sim_undefined sim_bind sim_if sim_iterM : vt.
