(* ===== verification/EnumSet.v ===== *)
(** * Sets of enumerators

    Models [src/src/inc/til/enumset.h] with its default underlying type, a 64-bit
    [uintptr_t]: the parser keeps its modes in such a set, the stack of saved
    renditions the parts it has saved.

    The theorem says that each operation is the set operation it is named after,
    as long as the positions are bits of the underlying type. *)

From S2P Require Import Prelude.

Local Open Scope Z_scope.

(** The value of an enumerator, which is its position in the set. *)
Class EnumPos (T : Type) := position : T -> Z.

Abbreviation enumset := Z (only parsing).

Section Operations.
Context {T : Type} `{EnumPos T}.

Definition to_underlying (positions : list T) : Z :=
  foldr (fun p mask => Z.lor (u64 (Z.shiftl 1 (position p))) mask) 0 positions.

Definition enumset_new (positions : list T) : enumset := to_underlying positions.

Definition enumset_test (data : enumset) (pos : T) : bool :=
  let mask := to_underlying [pos] in
  negb (Z.land data mask =? 0).

Definition enumset_any (data : enumset) (positions : list T) : bool :=
  let mask := to_underlying positions in
  negb (Z.land data mask =? 0).

Definition enumset_all (data : enumset) (positions : list T) : bool :=
  let mask := to_underlying positions in
  Z.land data mask =? mask.

Definition enumset_set (data : enumset) (positions : list T) : enumset :=
  Z.lor data (to_underlying positions).

(** [-val] is 0 or, all bits set, -1. *)
Definition enumset_set_to (data : enumset) (pos : T) (val : bool) : enumset :=
  let mask := to_underlying [pos] in
  Z.lor (Z.land data (Z.lnot mask)) (Z.land (if val then -1 else 0) mask).

Definition enumset_reset (data : enumset) (positions : list T) : enumset :=
  Z.land data (Z.lnot (to_underlying positions)).

Definition enumset_flip (data : enumset) (positions : list T) : enumset :=
  Z.lxor data (to_underlying positions).

End Operations.

(** The members without arguments: [bits], [any] and [all] of every position. *)
Definition enumset_bits (data : enumset) : Z := data.
Definition enumset_any_bit (data : enumset) : bool := negb (data =? 0).
Definition enumset_all_bits (data : enumset) : bool := data =? 2 ^ 64 - 1.

(** ** Bits *)

(** A number and a power of two have a common bit exactly if that bit is set. *)
Lemma land_pow2_test x k : 0 <= k -> negb (Z.land x (2 ^ k) =? 0) = Z.testbit x k.
Proof.
  intros Hk. destruct (Z.testbit x k) eqn:E.
  - rewrite negb_true_iff, Z.eqb_neq. intros H0.
    assert (Hb : Z.testbit (Z.land x (2 ^ k)) k = false) by (rewrite H0; apply Z.testbit_0_l).
    rewrite Z.land_spec, E, Z.pow2_bits_true in Hb by lia. done.
  - rewrite negb_false_iff, Z.eqb_eq. apply Z.bits_inj'. intros i Hi.
    rewrite Z.land_spec, Z.pow2_bits_eqb, Z.testbit_0_l by lia.
    destruct (Z.eqb_spec k i) as [->|]; [by rewrite E|by rewrite andb_false_r].
Qed.

Section Laws.
Context {T : Type} `{EnumPos T}.

(** The enumerators that have a bit of their own. *)
Definition fits (p : T) : Prop := 0 <= position p < 64.

Definition member (q : T) (positions : list T) : bool :=
  existsb (fun p => position p =? position q) positions.

Lemma to_underlying_single p : fits p -> to_underlying [p] = 2 ^ position p.
Proof.
  intros Hp. unfold fits in Hp. cbn [to_underlying foldr]. rewrite Z.lor_0_r, Z.shiftl_1_l.
  apply wrapu_small. split; [lia|]. apply Z.pow_lt_mono_r; lia.
Qed.

Lemma to_underlying_bit positions q :
  Forall fits positions -> fits q ->
  Z.testbit (to_underlying positions) (position q) = member q positions.
Proof.
  intros Hps Hq. unfold fits in Hq. induction Hps as [|p ps Hp _ IH]; [apply Z.testbit_0_l|].
  cbn [member existsb]. fold (member q ps). rewrite <- IH.
  pose proof (to_underlying_single p Hp) as E. cbn [to_underlying foldr] in *. rewrite Z.lor_0_r in E.
  unfold fits in Hp. rewrite E, Z.lor_spec, Z.pow2_bits_eqb by lia. done.
Qed.

Lemma enumset_test_bit data p : fits p -> enumset_test data p = Z.testbit data (position p).
Proof.
  intros Hp. unfold enumset_test. rewrite to_underlying_single by done.
  apply land_pow2_test. unfold fits in Hp. lia.
Qed.

Lemma enumset_test_set data ps q :
  Forall fits ps -> fits q ->
  enumset_test (enumset_set data ps) q = enumset_test data q || member q ps.
Proof.
  intros Hps Hq. rewrite !enumset_test_bit by done. unfold enumset_set.
  by rewrite Z.lor_spec, to_underlying_bit.
Qed.

(** On enumerators below 64 the operations of [enumset] are those of a set:
    membership after building, adding, assigning, removing and flipping is as the
    names say, for one or several positions. *)
Theorem enumset_operations (data : enumset) (ps : list T) (p q : T) (val : bool) :
  Forall fits ps -> fits p -> fits q ->
  enumset_test (enumset_new ps) q = member q ps /\
  enumset_test (enumset_set data ps) q = enumset_test data q || member q ps /\
  enumset_test (enumset_set_to data p val) q =
    (if position p =? position q then val else enumset_test data q) /\
  enumset_test (enumset_reset data ps) q = enumset_test data q && negb (member q ps) /\
  enumset_test (enumset_flip data ps) q = xorb (enumset_test data q) (member q ps).
Proof.
  intros Hps Hp Hq. rewrite !enumset_test_bit by done.
  unfold enumset_new, enumset_set, enumset_set_to, enumset_reset, enumset_flip.
  assert (0 <= position q) by (unfold fits in Hq; lia).
  assert (Hsingle : Forall fits [p]) by (by constructor; [|constructor]).
  rewrite Z.lxor_spec, !Z.lor_spec, !Z.land_spec, !Z.lnot_spec, !to_underlying_bit by done.
  cbn [member existsb]. rewrite orb_false_r. repeat split.
  destruct val; rewrite ?Z.bits_m1, ?Z.testbit_0_l by done; cbn [andb];
    destruct (position p =? position q), (Z.testbit data (position q)); done.
Qed.

Lemma enumset_test_set_to (data : enumset) (p q : T) (val : bool) : fits p -> fits q ->
  enumset_test (enumset_set_to data p val) q = if position p =? position q then val else enumset_test data q.
Proof. intros Hp Hq. by destruct (enumset_operations data [] p q val (Forall_nil _) Hp Hq) as (_ & _ & E & _). Qed.

Lemma enumset_test_reset (data : enumset) (ps : list T) (q : T) : Forall fits ps -> fits q ->
  enumset_test (enumset_reset data ps) q = enumset_test data q && negb (member q ps).
Proof. intros Hps Hq. by destruct (enumset_operations data ps q q true Hps Hq Hq) as (_ & _ & _ & E & _). Qed.

End Laws.

#[local] Instance Z_EnumPos : EnumPos Z := fun z => z.

Lemma enumset_operations_witness :
  enumset_test (enumset_flip (enumset_new [1; 5]) [5; 40]) 40 = true.
Proof.
  destruct (enumset_operations (enumset_new [1; 5]) [5; 40] 0 40 true) as (_ & _ & _ & _ & E);
    [|unfold fits, position, Z_EnumPos; lia..|].
  - repeat constructor; unfold fits, position, Z_EnumPos; lia.
  - rewrite E. reflexivity.
Defined.
