(* ===== verification/DispatchTypes.v ===== *)
(** * Identifiers and parameters of control sequences

    Models [src/src/terminal/adapter/DispatchTypes.hpp]: [VTID], the 64-bit
    packed identifier of a sequence, [VTIDBuilder], which packs the intermediate
    and final characters as they arrive, and [VTParameter]/[VTParameters].

    The theorems show that the builder and the compile-time packing of
    identifier literals agree, that packing is injective on 8-bit characters and
    that an identifier with too many intermediates matches no literal; and they
    exhibit the aliasing a 16-bit final character causes. *)

From S2P Require Import Prelude Effects.

Local Open Scope Z_scope.

(** [using VTInt = int32_t] *)
Abbreviation VTInt := Z (only parsing).

(** ** [VTID] *)

Definition CHAR_BIT : Z := 8.

(** A [VTID] is its [uint64_t _value]. *)
Abbreviation VTID := Z (only parsing).

Definition VTID_FromString (s : list Z) : VTID :=
  foldr (fun c value => u64 (Z.shiftl value CHAR_BIT + c)) 0 s.

Definition VTID_SubSequence (id : VTID) (offset : Z) : VTID :=
  Z.shiftr id (CHAR_BIT * offset).

Definition VTID_at (id : VTID) (offset : Z) : Z :=
  Z.land (VTID_SubSequence id offset) 255.

(** ** [VTIDBuilder] *)

Record VTIDBuilder := mkBuilder {
  _idAccumulator : Z;
  _idShift : Z
}.

Definition VTIDBuilder_Clear : VTIDBuilder := mkBuilder 0 0.

Definition AddIntermediate (b : VTIDBuilder) (intermediateChar : wchar) : VTIDBuilder :=
  if 8 * CHAR_BIT <=? _idShift b + CHAR_BIT then mkBuilder 0 (_idShift b)
  else mkBuilder
         (u64 (_idAccumulator b + u64 (Z.shiftl intermediateChar (_idShift b))))
         (_idShift b + CHAR_BIT).

Definition Finalize (b : VTIDBuilder) (finalChar : wchar) : VTID :=
  u64 (_idAccumulator b + u64 (Z.shiftl finalChar (_idShift b))).

(** ** [VTParameter] *)

(** A [VTParameter] is its [VTInt _value]; a negative value means "omitted". *)
Abbreviation VTParameter := Z (only parsing).

Definition VTParameter_default : VTParameter := -1.

Definition has_value (p : VTParameter) : bool := 0 <=? p.

Definition value_or (p : VTParameter) (defaultValue : VTInt) : VTInt :=
  if p <? 0 then defaultValue else p.

(** The conversion to an enumeration: omitted values default to 0. *)
Definition param_enum (p : VTParameter) : VTInt := value_or p 0.

(** The conversion to [VTInt]: 0 and omitted values default to 1. *)
Definition param_int (p : VTParameter) : VTInt := if p <=? 0 then 1 else p.

(** ** [VTParameters] *)

Abbreviation VTParameters := (list Z) (only parsing).

Definition params_at (ps : VTParameters) (index : nat) : VTParameter :=
  default VTParameter_default (ps !! index).

Definition params_size (ps : VTParameters) : Z :=
  Z.max (Z.of_nat (length ps)) 1.

(** [subspan] requires an offset within the span; past its end it is undefined. *)
Definition params_subspan (ps : VTParameters) (offset : nat) : option VTParameters :=
  if (offset <=? length ps)%nat then Some (drop offset ps) else None.

(** [for_each] calls the predicate on every parameter, whatever the earlier calls
    returned, and on a default parameter if there is none. *)
Fixpoint for_each_loop {S : Type} (predicate : VTParameter -> M S bool) (values : list VTParameter)
    (success : bool) : M S bool :=
  match values with
  | [] => ret success
  | v :: values => r <- predicate v ;; for_each_loop predicate values (r && success)
  end.

Definition params_for_each {S : Type} (predicate : VTParameter -> M S bool)
    (ps : VTParameters) : M S bool :=
  for_each_loop predicate (match ps with [] => [VTParameter_default] | _ => ps end) true.

(** [FlaggedEnumValue] of a parameter: its number, 1 if it is omitted or 0, with
    the flag of its category. *)
Definition FlaggedEnumValue (flag : Z) (value : VTInt) : VTInt := Z.lor value flag.

(** ** Facts about the packing *)

(** The value of a list of digits in base 256, least significant first. *)
Fixpoint le256 (l : list Z) : Z :=
  match l with
  | [] => 0
  | c :: l => c + 256 * le256 l
  end.

Abbreviation pow256 n := (2 ^ (8 * Z.of_nat n)).

Lemma pow256_S n : pow256 (S n) = 256 * pow256 n.
Proof.
  replace (8 * Z.of_nat (S n)) with (8 + 8 * Z.of_nat n) by lia.
  rewrite Z.pow_add_r by lia. reflexivity.
Qed.

Lemma le256_range l :
  Forall is_byte l -> 0 <= le256 l < pow256 (length l).
Proof.
  induction 1 as [|c l Hc _ IH]; [simpl; lia|].
  cbn [le256 length]. rewrite pow256_S. unfold is_byte in Hc. lia.
Qed.

Lemma pow256_mono n m : (n <= m)%nat -> pow256 n <= pow256 m.
Proof. intros. apply Z.pow_le_mono_r; lia. Qed.

Lemma le256_range_u64 l :
  Forall is_byte l -> (length l <= 8)%nat -> 0 <= le256 l < 2 ^ 64.
Proof.
  intros Hl Hlen. pose proof (le256_range l Hl).
  pose proof (pow256_mono _ _ Hlen). change (pow256 8) with (2 ^ 64) in *. lia.
Qed.

Lemma FromString_le256 l :
  Forall is_byte l -> (length l <= 8)%nat -> VTID_FromString l = le256 l.
Proof.
  induction 1 as [|c l Hc Hl IH]; intros Hlen; [done|].
  cbn [VTID_FromString foldr] in *. fold (VTID_FromString l) in *.
  rewrite IH by (simpl in Hlen; lia).
  rewrite Z.shiftl_mul_pow2 by (unfold CHAR_BIT; lia).
  assert (Hr : Forall is_byte (c :: l)) by (by constructor).
  pose proof (le256_range_u64 _ Hr Hlen) as Hb. cbn [le256] in *.
  rewrite wrapu_small; change (2 ^ CHAR_BIT) with 256; lia.
Qed.

Lemma le256_app l1 l2 :
  le256 (l1 ++ l2) = le256 l1 + pow256 (length l1) * le256 l2.
Proof.
  induction l1 as [|c l1 IH]; [simpl; lia|].
  cbn [le256 app length]. rewrite IH, pow256_S. lia.
Qed.

Lemma le256_inj l1 l2 :
  Forall is_byte l1 -> Forall is_byte l2 -> length l1 = length l2 ->
  le256 l1 = le256 l2 -> l1 = l2.
Proof.
  intros H1; revert l2; induction H1 as [|c l1 Hc H1 IH]; intros [|d l2] H2 Hlen He;
    simplify_eq/=; [done|].
  inversion_clear H2 as [|? ? Hd H2']. unfold is_byte in *.
  assert (c = d) by lia. subst d. f_equal. apply IH; auto. lia.
Qed.

(** The builder after the intermediates [ims], starting from [Clear]. *)
Definition build (ims : list wchar) : VTIDBuilder :=
  foldl AddIntermediate VTIDBuilder_Clear ims.

Lemma AddIntermediate_fits acc n c :
  (n < 7)%nat -> 0 <= acc < pow256 n -> is_byte c ->
  AddIntermediate (mkBuilder acc (8 * Z.of_nat n)) c =
  mkBuilder (acc + pow256 n * c) (8 * Z.of_nat (S n)).
Proof.
  intros Hn Hacc Hc. unfold AddIntermediate; cbn [_idShift _idAccumulator].
  destruct (Z.leb_spec (8 * CHAR_BIT) (8 * Z.of_nat n + CHAR_BIT)) as [H|H];
    unfold CHAR_BIT in *; [lia|].
  rewrite Z.shiftl_mul_pow2 by lia.
  pose proof (pow256_mono (S n) 7 ltac:(lia)) as Hm. rewrite pow256_S in Hm.
  change (pow256 7) with (2 ^ 56) in Hm. unfold is_byte in Hc.
  assert (2 ^ 64 = 256 * 2 ^ 56) by reflexivity.
  rewrite (wrapu_small 64 (c * _)) by nia.
  rewrite wrapu_small by nia. f_equal; lia.
Qed.

Lemma build_fits ims :
  Forall is_byte ims -> (length ims <= 7)%nat ->
  build ims = mkBuilder (le256 ims) (8 * Z.of_nat (length ims)).
Proof.
  induction ims as [|c ims IH] using rev_ind; intros Hb Hlen; [done|].
  rewrite Forall_app in Hb. destruct Hb as [Hb Hc].
  rewrite Forall_singleton in Hc. rewrite length_app in Hlen; simpl in Hlen.
  unfold build in *. rewrite foldl_app. cbn [foldl]. rewrite IH by (auto; lia).
  pose proof (le256_range ims Hb).
  rewrite AddIntermediate_fits by (auto; lia).
  rewrite le256_app. cbn [le256]. rewrite length_app. simpl.
  f_equal; lia.
Qed.

(** Once the accumulator is full, every further intermediate zeroes it. *)
Lemma build_overflow ims :
  Forall is_byte ims -> (7 < length ims)%nat -> build ims = mkBuilder 0 56.
Proof.
  induction ims as [|c ims IH] using rev_ind; intros Hb Hlen; [simpl in Hlen; lia|].
  rewrite Forall_app in Hb. destruct Hb as [Hb Hc].
  rewrite length_app in Hlen; simpl in Hlen.
  unfold build in *. rewrite foldl_app. cbn [foldl].
  destruct (decide (length ims = 7)%nat) as [E|].
  - pose proof (build_fits ims Hb ltac:(lia)) as Hf. unfold build in Hf.
    rewrite Hf, E. reflexivity.
  - rewrite IH by (auto; lia). reflexivity.
Qed.

Lemma Finalize_fits ims f :
  Forall is_byte ims -> (length ims <= 7)%nat -> is_byte f ->
  Finalize (build ims) f = le256 (ims ++ [f]).
Proof.
  intros Hb Hlen Hf. rewrite build_fits by auto.
  unfold Finalize; cbn [_idShift _idAccumulator].
  rewrite Z.shiftl_mul_pow2 by lia.
  assert (Hall : Forall is_byte (ims ++ [f])).
  { apply Forall_app. split; [done|by constructor]. }
  pose proof (le256_range_u64 _ Hall) as Hr. rewrite length_app in Hr; simpl in Hr.
  specialize (Hr ltac:(lia)). rewrite le256_app in Hr |- *. cbn [le256] in *.
  pose proof (le256_range ims Hb). unfold is_byte in Hf.
  rewrite (wrapu_small 64 (f * _)) by nia. rewrite wrapu_small by nia. nia.
Qed.

(** ** Properties *)

(** A character an identifier literal is made of. *)
Definition is_id_char (c : Z) : Prop := 0 < c < 256.

Lemma is_id_char_byte l : Forall is_id_char l -> Forall is_byte l.
Proof. apply Forall_impl. unfold is_id_char, is_byte. intros. lia. Qed.

Lemma le256_pos l : Forall is_id_char l -> l <> [] -> 0 < le256 l.
Proof.
  intros Hl. destruct Hl as [|c l Hc Hl]; [done|]. intros _. cbn [le256].
  pose proof (le256_range l (is_id_char_byte _ Hl)). unfold is_id_char in Hc. lia.
Qed.

Lemma le256_id_inj l1 l2 :
  Forall is_id_char l1 -> Forall is_id_char l2 -> le256 l1 = le256 l2 -> l1 = l2.
Proof.
  intros H1; revert l2. induction H1 as [|c l1 Hc H1 IH]; intros l2 H2 He.
  - destruct l2 as [|d l2]; [done|]. pose proof (le256_pos _ H2 ltac:(done)).
    cbn in *. lia.
  - destruct H2 as [|d l2 Hd H2].
    + pose proof (le256_pos (c :: l1) ltac:(by constructor) ltac:(done)). cbn in *. lia.
    + cbn [le256] in He. unfold is_id_char in *. assert (c = d) by lia. subst d.
      f_equal. apply IH; [done|]. lia.
Qed.

(** The identifier the parser builds from up to seven intermediates and an
    8-bit final character is the one the compiler packs from a literal exactly
    when the characters are the same. *)
Theorem Finalize_matches_literal (ims : list wchar) (f : wchar) (literal : list Z) :
  Forall is_id_char (ims ++ [f]) -> (length ims <= 7)%nat ->
  Forall is_id_char literal -> (length literal <= 8)%nat ->
  Finalize (build ims) f = VTID_FromString literal <-> literal = ims ++ [f].
Proof.
  intros Hi Hl Hlit Hll. pose proof Hi as Hi'. rewrite Forall_app, Forall_singleton in Hi'.
  destruct Hi' as [Hims Hf].
  rewrite Finalize_fits; [|by apply is_id_char_byte|done|unfold is_id_char, is_byte in *; lia].
  rewrite FromString_le256 by (done || by apply is_id_char_byte).
  split; [|by intros ->]. intros He. symmetry. by apply le256_id_inj.
Qed.

Lemma Finalize_matches_literal_witness :
  Finalize (build [0x3F; 0x24]) 0x70 = VTID_FromString [0x3F; 0x24; 0x70] <->
  [0x3F; 0x24; 0x70] = [0x3F; 0x24] ++ [0x70].
Proof.
  apply Finalize_matches_literal; cbn; try lia; repeat constructor; unfold is_id_char; lia.
Defined.

(** With more than seven intermediates the identifier matches no literal, as
    the comment in [AddIntermediate] promises. *)
Theorem too_many_intermediates_match_nothing
    (ims : list wchar) (f : wchar) (literal : list Z) :
  Forall is_byte ims -> (7 < length ims)%nat -> is_wchar f ->
  Forall is_id_char literal -> literal <> [] -> (length literal <= 8)%nat ->
  Finalize (build ims) f <> VTID_FromString literal.
Proof.
  intros Hims Hlen Hf Hlit Hne Hll. rewrite build_overflow by done.
  rewrite FromString_le256 by (done || by apply is_id_char_byte).
  unfold Finalize, wrapu; cbn [_idAccumulator _idShift]. rewrite Z.add_0_l, Zmod_mod.
  rewrite Z.shiftl_mul_pow2 by lia. change (2 ^ 64) with (256 * 2 ^ 56).
  rewrite Z.mul_mod_distr_r by lia.
  destruct Hlit as [|c literal Hc Hlit]; [done|]. cbn [le256]. unfold is_id_char in Hc.
  pose proof (Z.mod_pos_bound f 256 ltac:(lia)). change (2 ^ 56) with (256 * 2 ^ 48). lia.
Qed.

Lemma too_many_intermediates_match_nothing_witness :
  Finalize (build [0x20; 0x20; 0x20; 0x20; 0x20; 0x20; 0x20; 0x20]) 0x70 <>
  VTID_FromString [0x70].
Proof.
  apply too_many_intermediates_match_nothing; cbn; try lia; try discriminate;
    repeat constructor; unfold is_byte, is_id_char, is_wchar; lia.
Defined.

(** A final character of more than 8 bits spills into the next byte of the
    identifier: it is read as two characters, the low byte and the high one. *)
Theorem wide_final_aliases (ims : list wchar) (lo hi : Z) :
  Forall is_byte ims -> (length ims <= 6)%nat -> is_byte lo -> is_byte hi ->
  Finalize (build ims) (lo + 256 * hi) = VTID_FromString (ims ++ [lo; hi]).
Proof.
  intros Hims Hlen Hlo Hhi.
  assert (Hall : Forall is_byte (ims ++ [lo; hi])).
  { apply Forall_app; split; [done|]. constructor; [done|]. constructor; [done|constructor]. }
  rewrite FromString_le256 by (done || rewrite length_app; cbn; lia).
  rewrite build_fits by (done || lia). unfold Finalize; cbn [_idAccumulator _idShift].
  rewrite Z.shiftl_mul_pow2 by lia.
  pose proof (le256_range_u64 _ Hall ltac:(rewrite length_app; cbn; lia)) as Hr.
  rewrite le256_app in Hr |- *. cbn [le256] in *.
  pose proof (le256_range ims Hims). unfold is_byte in *.
  rewrite (wrapu_small 64 (_ * _)) by nia. rewrite wrapu_small by nia. nia.
Qed.

(** U+6D3F as the final character of a CSI sequence is taken for [? m]. *)
Lemma wide_final_aliases_witness :
  Finalize (build []) (0x3F + 256 * 0x6D) = VTID_FromString ([] ++ [0x3F; 0x6D]).
Proof. apply wide_final_aliases; cbn; repeat constructor; unfold is_byte; lia. Defined.
