(* ===== verification/StateMachine.v ===== *)
(** * The virtual-terminal state machine

    Models [src/src/terminal/parser/stateMachine.{hpp,cpp}] and [ascii.hpp]: the
    DEC/ANSI parser that turns a stream of UTF-16 code units into actions of an
    [IStateMachineEngine].

    The machine is a record with the source's members; its methods are
    computations of the state and error monad [M] of [Effects.v].  The engine is a type class:
    its methods are computations over the whole machine, because an engine may
    call back into the machine that drives it ([FlushToTerminal],
    [OnCsiComplete], [SetParserMode]).  The closures the machine stores (the DCS
    string handler and the CSI completion callback) are values of the types [H]
    and [C], applied by [StringHandler_call] and [Callback_call].

    Tracing ([_trace]) and telemetry leave no mark on the machine and are left
    out. *)

From S2P Require Import Prelude Effects EnumSet DispatchTypes.

Local Open Scope Z_scope.

(** ** [ascii.hpp] *)

Module AsciiChars.
Definition NUL : wchar := 0x00.
Definition BEL : wchar := 0x07.
Definition BS : wchar := 0x08.
Definition TAB : wchar := 0x09.
Definition LF : wchar := 0x0A.
Definition VT : wchar := 0x0B.
Definition FF : wchar := 0x0C.
Definition CR : wchar := 0x0D.
Definition SO : wchar := 0x0E.
Definition SI : wchar := 0x0F.
Definition ETB : wchar := 0x17.
Definition CAN : wchar := 0x18.
Definition EM : wchar := 0x19.
Definition SUB : wchar := 0x1A.
Definition ESC : wchar := 0x1B.
Definition FS : wchar := 0x1C.
Definition US : wchar := 0x1F.
Definition SPC : wchar := 0x20.
Definition DEL : wchar := 0x7F.
End AsciiChars.

(** ** Character classes *)

Definition MAX_PARAMETER_VALUE : VTInt := 65535.
Definition MAX_PARAMETER_COUNT : nat := 32.

Definition _isNumericParamValue (wch : wchar) : bool := (0x30 <=? wch) && (wch <=? 0x39).

Definition _isC0Code (wch : wchar) : bool :=
  ((AsciiChars.NUL <=? wch) && (wch <=? AsciiChars.ETB))
  || (wch =? AsciiChars.EM)
  || ((AsciiChars.FS <=? wch) && (wch <=? AsciiChars.US)).

Definition _isC1ControlCharacter (wch : wchar) : bool := (0x80 <=? wch) && (wch <=? 0x9F).

Definition _c1To7Bit (wch : wchar) : wchar := u16 (wch - 0x40).

Definition _isIntermediate (wch : wchar) : bool := (0x20 <=? wch) && (wch <=? 0x2F).

Definition _isDelete (wch : wchar) : bool := wch =? AsciiChars.DEL.

Definition _isEscape (wch : wchar) : bool := wch =? AsciiChars.ESC.

Definition _isParameterDelimiter (wch : wchar) : bool := wch =? 0x3B.

Definition _isCsiIndicator (wch : wchar) : bool := wch =? 0x5B.

Definition _isCsiPrivateMarker (wch : wchar) : bool :=
  (wch =? 0x3C) || (wch =? 0x3D) || (wch =? 0x3E) || (wch =? 0x3F).

Definition _isCsiInvalid (wch : wchar) : bool := wch =? 0x3A.

Definition _isIntermediateInvalid (wch : wchar) : bool :=
  _isNumericParamValue wch || _isCsiInvalid wch || _isParameterDelimiter wch
  || _isCsiPrivateMarker wch.

Definition _isParameterInvalid (wch : wchar) : bool :=
  _isCsiInvalid wch || _isCsiPrivateMarker wch.

Definition _isStringTerminatorIndicator (wch : wchar) : bool := wch =? 0x5C.

Definition _isSs3Indicator (wch : wchar) : bool := wch =? 0x4F.

Definition _isVt52CursorAddress (wch : wchar) : bool := wch =? 0x59.

Definition _isOscIndicator (wch : wchar) : bool := wch =? 0x5D.

Definition _isOscDelimiter (wch : wchar) : bool := wch =? 0x3B.

Definition _isOscInvalid (wch : wchar) : bool :=
  (wch <=? 0x17) || (wch =? 0x19) || ((0x1C <=? wch) && (wch <=? 0x1F)).

Definition _isOscTerminator (wch : wchar) : bool := wch =? AsciiChars.BEL.

Definition _isDcsIndicator (wch : wchar) : bool := wch =? 0x50.

Definition _isDcsPassThroughValid (wch : wchar) : bool :=
  (AsciiChars.SPC <=? wch) && (wch <? AsciiChars.DEL).

Definition _isSosIndicator (wch : wchar) : bool := wch =? 0x58.

Definition _isPmIndicator (wch : wchar) : bool := wch =? 0x5E.

Definition _isApcIndicator (wch : wchar) : bool := wch =? 0x5F.

Definition _isActionableFromGround (wch : wchar) : bool :=
  (wch <=? AsciiChars.US) || _isC1ControlCharacter wch || _isDelete wch.

(** ** The machine *)

Inductive VTStates :=
| Ground
| Escape
| EscapeIntermediate
| CsiEntry
| CsiIntermediate
| CsiIgnore
| CsiParam
| OscParam
| OscString
| OscTermination
| Ss3Entry
| Ss3Param
| Vt52Param
| DcsEntry
| DcsIgnore
| DcsIntermediate
| DcsParam
| DcsPassThrough
| SosPmApcString.

#[export] Instance VTStates_eq_dec : EqDecision VTStates.
Proof. solve_decision. Defined.

Definition is_state (a b : VTStates) : bool := bool_decide (a = b).

Inductive Mode := AcceptC1 | AlwaysAcceptC1 | Ansi.

(** The modes are kept in a [til::enumset<Mode>]. *)
#[export] Instance Mode_position : EnumPos Mode := fun m =>
  match m with AcceptC1 => 0 | AlwaysAcceptC1 => 1 | Ansi => 2 end.

Record StateMachine (E H C : Type) := mkSM {
  _engine : E;
  _isEngineForInput : bool;
  _state : VTStates;
  _parserMode : Z;
  _currentString : wstring;
  _runOffset : Z;
  _runSize : Z;
  _identifier : VTIDBuilder;
  _parameters : list VTParameter;
  _parameterLimitReached : bool;
  _oscString : wstring;
  _oscParameter : VTInt;
  _dcsStringHandler : option H;
  _cachedSequence : option wstring;
  _processingIndividually : bool;
  _processingLastCharacter : bool;
  _onCsiCompleteCallback : option C
}.
Arguments mkSM {E H C}.
Arguments _engine {E H C}.
Arguments _isEngineForInput {E H C}.
Arguments _state {E H C}.
Arguments _parserMode {E H C}.
Arguments _currentString {E H C}.
Arguments _runOffset {E H C}.
Arguments _runSize {E H C}.
Arguments _identifier {E H C}.
Arguments _parameters {E H C}.
Arguments _parameterLimitReached {E H C}.
Arguments _oscString {E H C}.
Arguments _oscParameter {E H C}.
Arguments _dcsStringHandler {E H C}.
Arguments _cachedSequence {E H C}.
Arguments _processingIndividually {E H C}.
Arguments _processingLastCharacter {E H C}.
Arguments _onCsiCompleteCallback {E H C}.

(** Assignment to a member. *)
Section Setters.
Context {E H C : Type}.

Definition set_engine (x : E) (s : StateMachine E H C) : StateMachine E H C :=
  mkSM x (_isEngineForInput s) (_state s) (_parserMode s) (_currentString s)
    (_runOffset s) (_runSize s) (_identifier s) (_parameters s)
    (_parameterLimitReached s) (_oscString s) (_oscParameter s) (_dcsStringHandler s)
    (_cachedSequence s) (_processingIndividually s) (_processingLastCharacter s)
    (_onCsiCompleteCallback s).
Definition set_state (x : VTStates) (s : StateMachine E H C) : StateMachine E H C :=
  mkSM (_engine s) (_isEngineForInput s) x (_parserMode s) (_currentString s)
    (_runOffset s) (_runSize s) (_identifier s) (_parameters s)
    (_parameterLimitReached s) (_oscString s) (_oscParameter s) (_dcsStringHandler s)
    (_cachedSequence s) (_processingIndividually s) (_processingLastCharacter s)
    (_onCsiCompleteCallback s).
Definition set_parserMode (x : Z) (s : StateMachine E H C) : StateMachine E H C :=
  mkSM (_engine s) (_isEngineForInput s) (_state s) x (_currentString s)
    (_runOffset s) (_runSize s) (_identifier s) (_parameters s)
    (_parameterLimitReached s) (_oscString s) (_oscParameter s) (_dcsStringHandler s)
    (_cachedSequence s) (_processingIndividually s) (_processingLastCharacter s)
    (_onCsiCompleteCallback s).
Definition set_currentString (x : wstring) (s : StateMachine E H C) : StateMachine E H C :=
  mkSM (_engine s) (_isEngineForInput s) (_state s) (_parserMode s) x (_runOffset s)
    (_runSize s) (_identifier s) (_parameters s) (_parameterLimitReached s)
    (_oscString s) (_oscParameter s) (_dcsStringHandler s) (_cachedSequence s)
    (_processingIndividually s) (_processingLastCharacter s)
    (_onCsiCompleteCallback s).
Definition set_runOffset (x : Z) (s : StateMachine E H C) : StateMachine E H C :=
  mkSM (_engine s) (_isEngineForInput s) (_state s) (_parserMode s)
    (_currentString s) x (_runSize s) (_identifier s) (_parameters s)
    (_parameterLimitReached s) (_oscString s) (_oscParameter s) (_dcsStringHandler s)
    (_cachedSequence s) (_processingIndividually s) (_processingLastCharacter s)
    (_onCsiCompleteCallback s).
Definition set_runSize (x : Z) (s : StateMachine E H C) : StateMachine E H C :=
  mkSM (_engine s) (_isEngineForInput s) (_state s) (_parserMode s) (_currentString s)
    (_runOffset s) x (_identifier s) (_parameters s) (_parameterLimitReached s)
    (_oscString s) (_oscParameter s) (_dcsStringHandler s) (_cachedSequence s)
    (_processingIndividually s) (_processingLastCharacter s)
    (_onCsiCompleteCallback s).
Definition set_identifier (x : VTIDBuilder) (s : StateMachine E H C) : StateMachine E H C :=
  mkSM (_engine s) (_isEngineForInput s) (_state s) (_parserMode s) (_currentString s)
    (_runOffset s) (_runSize s) x (_parameters s) (_parameterLimitReached s)
    (_oscString s) (_oscParameter s) (_dcsStringHandler s) (_cachedSequence s)
    (_processingIndividually s) (_processingLastCharacter s)
    (_onCsiCompleteCallback s).
Definition set_parameters (x : list VTParameter) (s : StateMachine E H C) : StateMachine E H C :=
  mkSM (_engine s) (_isEngineForInput s) (_state s) (_parserMode s) (_currentString s)
    (_runOffset s) (_runSize s) (_identifier s) x (_parameterLimitReached s)
    (_oscString s) (_oscParameter s) (_dcsStringHandler s) (_cachedSequence s)
    (_processingIndividually s) (_processingLastCharacter s)
    (_onCsiCompleteCallback s).
Definition set_parameterLimitReached (x : bool) (s : StateMachine E H C) : StateMachine E H C :=
  mkSM (_engine s) (_isEngineForInput s) (_state s) (_parserMode s) (_currentString s)
    (_runOffset s) (_runSize s) (_identifier s) (_parameters s) x (_oscString s)
    (_oscParameter s) (_dcsStringHandler s) (_cachedSequence s)
    (_processingIndividually s) (_processingLastCharacter s)
    (_onCsiCompleteCallback s).
Definition set_oscString (x : wstring) (s : StateMachine E H C) : StateMachine E H C :=
  mkSM (_engine s) (_isEngineForInput s) (_state s) (_parserMode s) (_currentString s)
    (_runOffset s) (_runSize s) (_identifier s) (_parameters s)
    (_parameterLimitReached s) x (_oscParameter s) (_dcsStringHandler s)
    (_cachedSequence s) (_processingIndividually s) (_processingLastCharacter s)
    (_onCsiCompleteCallback s).
Definition set_oscParameter (x : VTInt) (s : StateMachine E H C) : StateMachine E H C :=
  mkSM (_engine s) (_isEngineForInput s) (_state s) (_parserMode s) (_currentString s)
    (_runOffset s) (_runSize s) (_identifier s) (_parameters s)
    (_parameterLimitReached s) (_oscString s) x (_dcsStringHandler s)
    (_cachedSequence s) (_processingIndividually s) (_processingLastCharacter s)
    (_onCsiCompleteCallback s).
Definition set_dcsStringHandler (x : option H) (s : StateMachine E H C) : StateMachine E H C :=
  mkSM (_engine s) (_isEngineForInput s) (_state s) (_parserMode s) (_currentString s)
    (_runOffset s) (_runSize s) (_identifier s) (_parameters s)
    (_parameterLimitReached s) (_oscString s) (_oscParameter s) x (_cachedSequence s)
    (_processingIndividually s) (_processingLastCharacter s)
    (_onCsiCompleteCallback s).
Definition set_cachedSequence (x : option wstring) (s : StateMachine E H C) : StateMachine E H C :=
  mkSM (_engine s) (_isEngineForInput s) (_state s) (_parserMode s) (_currentString s)
    (_runOffset s) (_runSize s) (_identifier s) (_parameters s)
    (_parameterLimitReached s) (_oscString s) (_oscParameter s)
    (_dcsStringHandler s) x (_processingIndividually s) (_processingLastCharacter s)
    (_onCsiCompleteCallback s).
Definition set_processingIndividually (x : bool) (s : StateMachine E H C) : StateMachine E H C :=
  mkSM (_engine s) (_isEngineForInput s) (_state s) (_parserMode s) (_currentString s)
    (_runOffset s) (_runSize s) (_identifier s) (_parameters s)
    (_parameterLimitReached s) (_oscString s) (_oscParameter s) (_dcsStringHandler s)
    (_cachedSequence s) x (_processingLastCharacter s) (_onCsiCompleteCallback s).
Definition set_processingLastCharacter (x : bool) (s : StateMachine E H C) : StateMachine E H C :=
  mkSM (_engine s) (_isEngineForInput s) (_state s) (_parserMode s) (_currentString s)
    (_runOffset s) (_runSize s) (_identifier s) (_parameters s)
    (_parameterLimitReached s) (_oscString s) (_oscParameter s) (_dcsStringHandler s)
    (_cachedSequence s) (_processingIndividually s) x (_onCsiCompleteCallback s).
Definition set_onCsiCompleteCallback (x : option C) (s : StateMachine E H C) : StateMachine E H C :=
  mkSM (_engine s) (_isEngineForInput s) (_state s) (_parserMode s) (_currentString s)
    (_runOffset s) (_runSize s) (_identifier s) (_parameters s)
    (_parameterLimitReached s) (_oscString s) (_oscParameter s) (_dcsStringHandler s)
    (_cachedSequence s) (_processingIndividually s) (_processingLastCharacter s) x.

End Setters.

(** ** The engine interface

    [IStateMachineEngine.hpp].  [StringHandler_call] applies a DCS string handler
    ([std::function<bool(wchar_t)>]) and [Callback_call] a CSI completion
    callback ([std::function<void()>]). *)
Class IStateMachineEngine (E H C : Type) := {
  ActionExecute : wchar -> M (StateMachine E H C) bool;
  ActionExecuteFromEscape : wchar -> M (StateMachine E H C) bool;
  ActionPrint : wchar -> M (StateMachine E H C) bool;
  ActionPrintString : wstring -> M (StateMachine E H C) bool;
  ActionPassThroughString : wstring -> M (StateMachine E H C) bool;
  ActionEscDispatch : VTID -> M (StateMachine E H C) bool;
  ActionVt52EscDispatch : VTID -> VTParameters -> M (StateMachine E H C) bool;
  ActionCsiDispatch : VTID -> VTParameters -> M (StateMachine E H C) bool;
  ActionDcsDispatch : VTID -> VTParameters -> M (StateMachine E H C) (option H);
  ActionClear : M (StateMachine E H C) bool;
  ActionIgnore : M (StateMachine E H C) bool;
  ActionOscDispatch : wchar -> Z -> wstring -> M (StateMachine E H C) bool;
  ActionSs3Dispatch : wchar -> VTParameters -> M (StateMachine E H C) bool;
  StringHandler_call : H -> wchar -> M (StateMachine E H C) bool;
  Callback_call : C -> M (StateMachine E H C) unit
}.

(** ** Methods *)

Section Methods.
Context {E H C : Type} `{!IStateMachineEngine E H C}.

#[local] Abbreviation SM := (StateMachine E H C).
#[local] Abbreviation M := (M (StateMachine E H C)).

Definition SetParserMode (mode : Mode) (enabled : bool) : M unit :=
  modify (fun s => set_parserMode (enumset_set_to (_parserMode s) mode enabled) s).

Definition GetParserMode (mode : Mode) : M bool :=
  get (fun s => enumset_test (_parserMode s) mode).

Definition _CurrentRun : M wstring := fun s =>
  match substr (_currentString s) (_runOffset s) (_runSize s) with
  | Some run => (s, Ok run)
  | None => (s, Throw StdException)
  end.

(** [_SafeExecute]: every exception but [ShutdownException] becomes [false]. *)
Definition _SafeExecute (lambda : M bool) : M bool := fun s =>
  match lambda s with
  | (s', Throw StdException) => (s', Ok false)
  | r => r
  end.

(** The telemetry of a failure aside, [_SafeExecute]. *)
Definition _SafeExecuteWithLog (wch : wchar) (lambda : M bool) : M bool :=
  _SafeExecute lambda.

(** *** Actions *)

Definition _ActionExecute (wch : wchar) : M unit :=
  _ <- _SafeExecute (ActionExecute wch) ;; ret tt.

Definition _ActionExecuteFromEscape (wch : wchar) : M unit :=
  _ <- _SafeExecute (ActionExecuteFromEscape wch) ;; ret tt.

Definition _ActionPrint (wch : wchar) : M unit :=
  _ <- _SafeExecute (ActionPrint wch) ;; ret tt.

Definition _ActionPrintString (string : wstring) : M unit :=
  _ <- _SafeExecute (ActionPrintString string) ;; ret tt.

Definition _ActionEscDispatch (wch : wchar) : M unit :=
  _ <- _SafeExecuteWithLog wch
         (identifier <- get _identifier ;;
          ActionEscDispatch (Finalize identifier wch)) ;;
  ret tt.

Definition _ActionVt52EscDispatch (wch : wchar) : M unit :=
  _ <- _SafeExecuteWithLog wch
         (identifier <- get _identifier ;;
          parameters <- get _parameters ;;
          ActionVt52EscDispatch (Finalize identifier wch) parameters) ;;
  ret tt.

Definition _ActionCsiDispatch (wch : wchar) : M unit :=
  _ <- _SafeExecuteWithLog wch
         (identifier <- get _identifier ;;
          parameters <- get _parameters ;;
          ActionCsiDispatch (Finalize identifier wch) parameters) ;;
  ret tt.

Definition _ActionCollect (wch : wchar) : M unit :=
  modify (fun s => set_identifier (AddIntermediate (_identifier s) wch) s).

(** [wch - L'0'] is an [int]; the arithmetic is that of a 32-bit [VTInt]. *)
Definition _AccumulateTo (wch : wchar) (value : VTInt) : VTInt :=
  let digit := wch - 0x30 in
  let value := i32 (i32 (value * 10) + digit) in
  if MAX_PARAMETER_VALUE <? value then MAX_PARAMETER_VALUE else value.

(** The last element of a non-empty vector, [back()], and its assignment. *)
Definition set_back (x : VTParameter) (l : list VTParameter) : list VTParameter :=
  removelast l ++ [x].

Definition _ActionParam (wch : wchar) : M unit :=
  modify (fun s =>
    if _parameterLimitReached s then s
    else
      let s := match _parameters s with
               | [] => set_parameters [VTParameter_default] s
               | _ => s
               end in
      if _isParameterDelimiter wch then
        if (MAX_PARAMETER_COUNT <=? length (_parameters s))%nat
        then set_parameterLimitReached true s
        else set_parameters (_parameters s ++ [VTParameter_default]) s
      else
        let currentParameter :=
          value_or (List.last (_parameters s) VTParameter_default) 0 in
        set_parameters
          (set_back (_AccumulateTo wch currentParameter) (_parameters s)) s).

Definition _ActionClear : M unit :=
  modify (set_identifier VTIDBuilder_Clear) ;;
  modify (set_parameters []) ;;
  modify (set_parameterLimitReached false) ;;
  modify (set_oscString []) ;;
  modify (set_oscParameter 0) ;;
  modify (set_dcsStringHandler None) ;;
  _ <- ActionClear ;;
  ret tt.

Definition _ActionIgnore : M unit := ret tt.

(** A call of the stored handler; an empty [std::function] throws
    [std::bad_function_call]. *)
Definition call_dcsStringHandler (wch : wchar) : M bool :=
  handler <- get _dcsStringHandler ;;
  match handler with
  | Some h => StringHandler_call h wch
  | None => throw StdException
  end.

Definition _ActionInterrupt : M unit :=
  state <- get _state ;;
  if is_state state DcsPassThrough then
    _ <- call_dcsStringHandler AsciiChars.ESC ;;
    modify (set_dcsStringHandler None)
  else ret tt.

Definition _ActionOscParam (wch : wchar) : M unit :=
  modify (fun s => set_oscParameter (_AccumulateTo wch (_oscParameter s)) s).

Definition _ActionOscPut (wch : wchar) : M unit :=
  modify (fun s => set_oscString (_oscString s ++ [wch]) s).

Definition _ActionOscDispatch (wch : wchar) : M unit :=
  _ <- _SafeExecuteWithLog wch
         (oscParameter <- get _oscParameter ;;
          oscString <- get _oscString ;;
          ActionOscDispatch wch oscParameter oscString) ;;
  ret tt.

Definition _ActionSs3Dispatch (wch : wchar) : M unit :=
  _ <- _SafeExecuteWithLog wch
         (parameters <- get _parameters ;;
          ActionSs3Dispatch wch parameters) ;;
  ret tt.

(** *** State entry *)

Definition _EnterGround : M unit :=
  modify (set_state Ground) ;;
  modify (set_cachedSequence None).

Definition _EnterEscape : M unit :=
  modify (set_state Escape) ;;
  _ActionClear.

Definition _EnterEscapeIntermediate : M unit := modify (set_state EscapeIntermediate).

Definition _EnterCsiEntry : M unit :=
  modify (set_state CsiEntry) ;;
  _ActionClear.

Definition _EnterCsiParam : M unit := modify (set_state CsiParam).

Definition _EnterCsiIgnore : M unit := modify (set_state CsiIgnore).

Definition _EnterCsiIntermediate : M unit := modify (set_state CsiIntermediate).

Definition _EnterOscParam : M unit := modify (set_state OscParam).

Definition _EnterOscString : M unit := modify (set_state OscString).

Definition _EnterOscTermination : M unit := modify (set_state OscTermination).

Definition _EnterSs3Entry : M unit :=
  modify (set_state Ss3Entry) ;;
  _ActionClear.

Definition _EnterSs3Param : M unit := modify (set_state Ss3Param).

Definition _EnterVt52Param : M unit := modify (set_state Vt52Param).

Definition _EnterDcsEntry : M unit :=
  modify (set_state DcsEntry) ;;
  _ActionClear.

Definition _EnterDcsParam : M unit := modify (set_state DcsParam).

Definition _EnterDcsIgnore : M unit :=
  modify (set_state DcsIgnore) ;;
  modify (set_cachedSequence None).

Definition _EnterDcsIntermediate : M unit := modify (set_state DcsIntermediate).

Definition _EnterDcsPassThrough : M unit :=
  modify (set_state DcsPassThrough) ;;
  modify (set_cachedSequence None).

Definition _EnterSosPmApcString : M unit :=
  modify (set_state SosPmApcString) ;;
  modify (set_cachedSequence None).

Definition _ActionDcsDispatch (wch : wchar) : M unit :=
  success <- _SafeExecuteWithLog wch
    (identifier <- get _identifier ;;
     parameters <- get _parameters ;;
     handler <- ActionDcsDispatch (Finalize identifier wch) parameters ;;
     modify (set_dcsStringHandler handler) ;;
     ret (match handler with Some _ => true | None => false end)) ;;
  if success then _EnterDcsPassThrough else _EnterDcsIgnore.

Definition _ExecuteCsiCompleteCallback : M unit :=
  onCsiCompleteCallback <- get _onCsiCompleteCallback ;;
  match onCsiCompleteCallback with
  | None => ret tt
  | Some callback =>
      savedCurrentString <- get _currentString ;;
      savedRunOffset <- get _runOffset ;;
      savedRunSize <- get _runSize ;;
      modify (set_onCsiCompleteCallback None) ;;
      Callback_call callback ;;
      modify (set_currentString savedCurrentString) ;;
      modify (set_runOffset savedRunOffset) ;;
      modify (set_runSize savedRunSize)
  end.

(** *** Events *)

Definition _EventGround (wch : wchar) : M unit :=
  if _isC0Code wch || _isDelete wch then _ActionExecute wch else _ActionPrint wch.

Definition _EventEscape (wch : wchar) : M unit :=
  isEngineForInput <- get _isEngineForInput ;;
  parserMode <- get _parserMode ;;
  if _isC0Code wch then
    if isEngineForInput : bool then _ActionExecuteFromEscape wch ;; _EnterGround
    else _ActionExecute wch
  else if _isDelete wch then _ActionIgnore
  else if _isIntermediate wch then
    if isEngineForInput : bool then _ActionEscDispatch wch ;; _EnterGround
    else _ActionCollect wch ;; _EnterEscapeIntermediate
  else if enumset_test parserMode Ansi then
    if _isCsiIndicator wch then _EnterCsiEntry
    else if _isOscIndicator wch then _EnterOscParam
    else if _isSs3Indicator wch && isEngineForInput then _EnterSs3Entry
    else if _isDcsIndicator wch then _EnterDcsEntry
    else if _isSosIndicator wch || _isPmIndicator wch || _isApcIndicator wch
    then _EnterSosPmApcString
    else _ActionEscDispatch wch ;; _EnterGround
  else if _isVt52CursorAddress wch then _EnterVt52Param
  else _ActionVt52EscDispatch wch ;; _EnterGround.

Definition _EventEscapeIntermediate (wch : wchar) : M unit :=
  parserMode <- get _parserMode ;;
  if _isC0Code wch then _ActionExecute wch
  else if _isIntermediate wch then _ActionCollect wch
  else if _isDelete wch then _ActionIgnore
  else if enumset_test parserMode Ansi then _ActionEscDispatch wch ;; _EnterGround
  else if _isVt52CursorAddress wch then _EnterVt52Param
  else _ActionVt52EscDispatch wch ;; _EnterGround.

Definition _EventCsiEntry (wch : wchar) : M unit :=
  if _isC0Code wch then _ActionExecute wch
  else if _isDelete wch then _ActionIgnore
  else if _isIntermediate wch then _ActionCollect wch ;; _EnterCsiIntermediate
  else if _isCsiInvalid wch then _EnterCsiIgnore
  else if _isNumericParamValue wch || _isParameterDelimiter wch
  then _ActionParam wch ;; _EnterCsiParam
  else if _isCsiPrivateMarker wch then _ActionCollect wch ;; _EnterCsiParam
  else _ActionCsiDispatch wch ;; _EnterGround ;; _ExecuteCsiCompleteCallback.

Definition _EventCsiIntermediate (wch : wchar) : M unit :=
  if _isC0Code wch then _ActionExecute wch
  else if _isIntermediate wch then _ActionCollect wch
  else if _isDelete wch then _ActionIgnore
  else if _isIntermediateInvalid wch then _EnterCsiIgnore
  else _ActionCsiDispatch wch ;; _EnterGround ;; _ExecuteCsiCompleteCallback.

Definition _EventCsiIgnore (wch : wchar) : M unit :=
  if _isC0Code wch then _ActionExecute wch
  else if _isDelete wch then _ActionIgnore
  else if _isIntermediate wch then _ActionIgnore
  else if _isIntermediateInvalid wch then _ActionIgnore
  else _EnterGround.

Definition _EventCsiParam (wch : wchar) : M unit :=
  if _isC0Code wch then _ActionExecute wch
  else if _isDelete wch then _ActionIgnore
  else if _isNumericParamValue wch || _isParameterDelimiter wch then _ActionParam wch
  else if _isIntermediate wch then _ActionCollect wch ;; _EnterCsiIntermediate
  else if _isParameterInvalid wch then _EnterCsiIgnore
  else _ActionCsiDispatch wch ;; _EnterGround ;; _ExecuteCsiCompleteCallback.

Definition _EventOscParam (wch : wchar) : M unit :=
  if _isOscTerminator wch then _EnterGround
  else if _isNumericParamValue wch then _ActionOscParam wch
  else if _isOscDelimiter wch then _EnterOscString
  else _ActionIgnore.

Definition _EventOscString (wch : wchar) : M unit :=
  if _isOscTerminator wch then _ActionOscDispatch wch ;; _EnterGround
  else if _isEscape wch then _EnterOscTermination
  else if _isOscInvalid wch then _ActionIgnore
  else _ActionOscPut wch.

Definition _EventOscTermination (wch : wchar) : M unit :=
  if _isStringTerminatorIndicator wch then _ActionOscDispatch wch ;; _EnterGround
  else _EnterEscape ;; _EventEscape wch.

Definition _EventSs3Entry (wch : wchar) : M unit :=
  if _isC0Code wch then _ActionExecute wch
  else if _isDelete wch then _ActionIgnore
  else if _isCsiInvalid wch then _EnterCsiIgnore
  else if _isNumericParamValue wch || _isParameterDelimiter wch
  then _ActionParam wch ;; _EnterSs3Param
  else _ActionSs3Dispatch wch ;; _EnterGround.

Definition _EventSs3Param (wch : wchar) : M unit :=
  if _isC0Code wch then _ActionExecute wch
  else if _isDelete wch then _ActionIgnore
  else if _isNumericParamValue wch || _isParameterDelimiter wch then _ActionParam wch
  else if _isParameterInvalid wch then _EnterCsiIgnore
  else _ActionSs3Dispatch wch ;; _EnterGround.

Definition _EventVt52Param (wch : wchar) : M unit :=
  if _isC0Code wch then _ActionExecute wch
  else if _isDelete wch then _ActionIgnore
  else
    modify (fun s => set_parameters (_parameters s ++ [wch]) s) ;;
    parameters <- get _parameters ;;
    if (length parameters =? 2)%nat then _ActionVt52EscDispatch 0x59 ;; _EnterGround
    else ret tt.

Definition _EventDcsEntry (wch : wchar) : M unit :=
  if _isC0Code wch then _ActionIgnore
  else if _isDelete wch then _ActionIgnore
  else if _isCsiInvalid wch then _EnterDcsIgnore
  else if _isNumericParamValue wch || _isParameterDelimiter wch
  then _ActionParam wch ;; _EnterDcsParam
  else if _isIntermediate wch then _ActionCollect wch ;; _EnterDcsIntermediate
  else _ActionDcsDispatch wch.

Definition _EventDcsIgnore : M unit := _ActionIgnore.

Definition _EventDcsIntermediate (wch : wchar) : M unit :=
  if _isC0Code wch then _ActionIgnore
  else if _isDelete wch then _ActionIgnore
  else if _isIntermediate wch then _ActionCollect wch
  else if _isIntermediateInvalid wch then _EnterDcsIgnore
  else _ActionDcsDispatch wch.

(** The first two tests of [_EventDcsParam] are a statement of their own: the
    third [if] is not their [else]. *)
Definition _EventDcsParam (wch : wchar) : M unit :=
  (if _isC0Code wch then _ActionIgnore
   else if _isDelete wch then _ActionIgnore
   else ret tt) ;;
  if _isNumericParamValue wch || _isParameterDelimiter wch then _ActionParam wch
  else if _isIntermediate wch then _ActionCollect wch ;; _EnterDcsIntermediate
  else if _isParameterInvalid wch then _EnterDcsIgnore
  else _ActionDcsDispatch wch.

Definition _EventDcsPassThrough (wch : wchar) : M unit :=
  if _isC0Code wch || _isDcsPassThroughValid wch then
    r <- call_dcsStringHandler wch ;;
    if r : bool then ret tt else _EnterDcsIgnore
  else _ActionIgnore.

Definition _EventSosPmApcString (wch : wchar) : M unit := _ActionIgnore.

(** The [switch] of [ProcessCharacter]. *)
Definition dispatch_event (wch : wchar) (state : VTStates) : M unit :=
  match state with
  | Ground => _EventGround wch
  | Escape => _EventEscape wch
  | EscapeIntermediate => _EventEscapeIntermediate wch
  | CsiEntry => _EventCsiEntry wch
  | CsiIntermediate => _EventCsiIntermediate wch
  | CsiIgnore => _EventCsiIgnore wch
  | CsiParam => _EventCsiParam wch
  | OscParam => _EventOscParam wch
  | OscString => _EventOscString wch
  | OscTermination => _EventOscTermination wch
  | Ss3Entry => _EventSs3Entry wch
  | Ss3Param => _EventSs3Param wch
  | Vt52Param => _EventVt52Param wch
  | DcsEntry => _EventDcsEntry wch
  | DcsIgnore => _EventDcsIgnore
  | DcsIntermediate => _EventDcsIntermediate wch
  | DcsParam => _EventDcsParam wch
  | DcsPassThrough => _EventDcsPassThrough wch
  | SosPmApcString => _EventSosPmApcString wch
  end.

(** *** Character processing *)

(** One call of [ProcessCharacter], with its recursive calls to [rec]. *)
Definition ProcessCharacter_body (rec : wchar -> M unit) (wch : wchar) : M unit :=
  state <- get _state ;;
  isEngineForInput <- get _isEngineForInput ;;
  parserMode <- get _parserMode ;;
  let isFromAnywhereChar := (wch =? AsciiChars.CAN) || (wch =? AsciiChars.SUB) in
  if isFromAnywhereChar && negb (is_state state Escape && isEngineForInput) then
    _ActionInterrupt ;; _ActionExecute wch ;; _EnterGround
  else if _isC1ControlCharacter wch then
    if enumset_any parserMode [AcceptC1; AlwaysAcceptC1] then
      rec AsciiChars.ESC ;; rec (_c1To7Bit wch)
    else ret tt
  else if _isEscape wch && negb (is_state state OscString) then
    _ActionInterrupt ;; _EnterEscape
  else dispatch_event wch state.

(** The recursion is two calls deep at most: the calls are for [ESC] and for a
    7-bit character, and neither is a C1 control. *)
Fixpoint ProcessCharacter_fuel (fuel : nat) (wch : wchar) : M unit :=
  match fuel with
  | O => outOfFuel
  | S fuel => ProcessCharacter_body (ProcessCharacter_fuel fuel) wch
  end.

Definition ProcessCharacter : wchar -> M unit := ProcessCharacter_fuel 2.

(** [FlushToTerminal] with the engine's [ActionPassThroughString] as an argument:
    an engine may call it from its own methods. *)
Definition FlushToTerminal_with (passThrough : wstring -> M bool) : M bool :=
  cachedSequence <- get _cachedSequence ;;
  success <- match cachedSequence with
             | Some seq =>
                 success <- _SafeExecute (passThrough seq) ;;
                 modify (set_cachedSequence None) ;;
                 ret success
             | None => ret true
             end ;;
  if success : bool then
    _SafeExecute (run <- _CurrentRun ;; passThrough run)
  else ret success.

Definition FlushToTerminal : M bool := FlushToTerminal_with ActionPassThroughString.

Definition ResetState : M unit := _EnterGround.

Definition IsProcessingLastCharacter : M bool := get _processingLastCharacter.

Definition OnCsiComplete (callback : C) : M unit :=
  modify (set_onCsiCompleteCallback (Some callback)).

(** The [while] loop of [ProcessString]; it returns the final [start]. *)
Fixpoint ProcessString_loop (fuel : nat) (string : wstring) (start current : nat) : M nat :=
  match fuel with
  | O => outOfFuel
  | S fuel =>
      match string !! current with
      | None => ret start
      | Some wch =>
          modify (set_runOffset (Z.of_nat start)) ;;
          modify (set_runSize (Z.of_nat current - Z.of_nat start + 1)) ;;
          processingIndividually <- get _processingIndividually ;;
          if processingIndividually : bool then
            modify (set_processingLastCharacter (length string <=? current + 1)%nat) ;;
            ProcessCharacter wch ;;
            let current := S current in
            state <- get _state ;;
            if is_state state Ground then
              modify (set_processingIndividually false) ;;
              ProcessString_loop fuel string current current
            else ProcessString_loop fuel string start current
          else if _isActionableFromGround wch then
            runSize <- get _runSize ;;
            (if 0 <? runSize then
               modify (set_runSize (runSize - 1)) ;;
               run <- _CurrentRun ;;
               _ActionPrintString run
             else ret tt) ;;
            modify (set_processingIndividually true) ;;
            ProcessString_loop fuel string current current
          else ProcessString_loop fuel string start (S current)
      end
  end.

(** The dispatch of the last character of an unfinished input sequence. *)
Definition dispatch_last (wch : wchar) (state : VTStates) : M unit :=
  match state with
  | Ground => _ActionExecute wch
  | Escape | EscapeIntermediate => _ActionEscDispatch wch
  | CsiEntry | CsiIntermediate | CsiIgnore | CsiParam => _ActionCsiDispatch wch
  | OscParam | OscString | OscTermination => _ActionOscDispatch wch
  | Ss3Entry | Ss3Param => _ActionSs3Dispatch wch
  | _ => ret tt
  end.

(** The block that replays an unfinished sequence of the input engine. *)
Definition flush_input_run (run : wstring) : M unit :=
  ResetState ;;
  modify (set_processingLastCharacter false) ;;
  match list.last run with
  | None => undefined
  | Some wch =>
      iterM ProcessCharacter (removelast run) ;;
      modify (set_processingLastCharacter true) ;;
      state <- get _state ;;
      dispatch_last wch state ;;
      _EnterGround
  end.

(** What follows the loop of [ProcessString]. *)
Definition ProcessString_finish (string : wstring) (start : nat) : M unit :=
  (if (start <? length string)%nat then
     modify (set_runOffset (Z.of_nat start)) ;;
     modify (set_runSize npos)
   else modify (set_runSize 0)) ;;
  run <- _CurrentRun ;;
  processingIndividually <- get _processingIndividually ;;
  isEngineForInput <- get _isEngineForInput ;;
  state <- get _state ;;
  if negb processingIndividually && negb (bool_decide (run = [])) then
    _ActionPrintString run
  else if processingIndividually : bool then
    if isEngineForInput : bool then flush_input_run run
    else if negb (is_state state SosPmApcString) && negb (is_state state DcsPassThrough)
            && negb (is_state state DcsIgnore) then
      modify (fun s => set_cachedSequence
                         (Some (default [] (_cachedSequence s) ++ run)) s)
    else ret tt
  else ret tt.

(** Every iteration of the loop advances [current] or sets
    [_processingIndividually], so twice the length and one are enough. *)
Definition ProcessString (string : wstring) : M unit :=
  modify (set_currentString string) ;;
  modify (set_runOffset 0) ;;
  modify (set_runSize 0) ;;
  start <- ProcessString_loop (2 * length string + 2) string 0 0 ;;
  ProcessString_finish string start.

(** The constructor; the members it leaves uninitialised are arguments. *)
Definition StateMachine_new (engine : E) (isEngineForInput : bool)
    (runOffset runSize : Z) (processingLastCharacter : bool) : SM * Result unit :=
  _ActionClear
    (mkSM engine isEngineForInput Ground (enumset_new [Ansi]) [] runOffset runSize
       VTIDBuilder_Clear [] false [] 0 None None false processingLastCharacter None).

End Methods.

Arguments ProcessCharacter : simpl never.
