(* ===== verification/StateMachineLaws.v ===== *)
(** * What the state machine expects of an engine

    The contract between [StateMachine] and its [IStateMachineEngine], as type
    classes: a [FramedEngine] leaves the parser's own members alone, a
    [TransparentEngine] does not observe how its input was cut into strings.  The
    facts about the machine are proved against these classes. *)

From S2P Require Import Prelude Effects DispatchTypes StateMachine.

Local Open Scope Z_scope.

(** ** Frame *)

(** The members an engine may change are its own state, [_parserMode],
    [_cachedSequence] and [_onCsiCompleteCallback] (through [SetParserMode],
    [FlushToTerminal] and [OnCsiComplete]); the frame is all the others. *)
Record frame {E H C} (s s' : StateMachine E H C) : Prop := {
  fr_isEngineForInput : _isEngineForInput s' = _isEngineForInput s;
  fr_state : _state s' = _state s;
  fr_currentString : _currentString s' = _currentString s;
  fr_runOffset : _runOffset s' = _runOffset s;
  fr_runSize : _runSize s' = _runSize s;
  fr_identifier : _identifier s' = _identifier s;
  fr_parameters : _parameters s' = _parameters s;
  fr_parameterLimitReached : _parameterLimitReached s' = _parameterLimitReached s;
  fr_oscString : _oscString s' = _oscString s;
  fr_oscParameter : _oscParameter s' = _oscParameter s;
  fr_dcsStringHandler : _dcsStringHandler s' = _dcsStringHandler s;
  fr_processingIndividually : _processingIndividually s' = _processingIndividually s;
  fr_processingLastCharacter : _processingLastCharacter s' = _processingLastCharacter s
}.

#[export] Instance frame_preorder {E H C} : PreOrder (@frame E H C).
Proof.
  split.
  - intros s. by split.
  - intros s1 s2 s3 [] []. split; congruence.
Qed.

Class FramedEngine (E H C : Type) `{!IStateMachineEngine E H C} : Prop := {
  ActionExecute_frame c : keeps frame (ActionExecute c);
  ActionExecuteFromEscape_frame c : keeps frame (ActionExecuteFromEscape c);
  ActionPrint_frame c : keeps frame (ActionPrint c);
  ActionPrintString_frame str : keeps frame (ActionPrintString str);
  ActionPassThroughString_frame str : keeps frame (ActionPassThroughString str);
  ActionEscDispatch_frame id : keeps frame (ActionEscDispatch id);
  ActionVt52EscDispatch_frame id ps : keeps frame (ActionVt52EscDispatch id ps);
  ActionCsiDispatch_frame id ps : keeps frame (ActionCsiDispatch id ps);
  ActionDcsDispatch_frame id ps : keeps frame (ActionDcsDispatch id ps);
  ActionClear_frame : keeps frame ActionClear;
  ActionOscDispatch_frame c p str : keeps frame (ActionOscDispatch c p str);
  ActionSs3Dispatch_frame c ps : keeps frame (ActionSs3Dispatch c ps);
  StringHandler_frame h c : keeps frame (StringHandler_call h c)
}.

#[export] Hint Resolve ActionExecute_frame ActionExecuteFromEscape_frame
  ActionPrint_frame ActionPrintString_frame ActionPassThroughString_frame
  ActionEscDispatch_frame ActionVt52EscDispatch_frame ActionCsiDispatch_frame
  ActionDcsDispatch_frame ActionClear_frame ActionOscDispatch_frame
  ActionSs3Dispatch_frame StringHandler_frame : vt.

Section Frame.
Context {E H C : Type} `{!IStateMachineEngine E H C} `{!FramedEngine E H C}.

#[local] Abbreviation SM := (StateMachine E H C).

Lemma keeps_SafeExecute (R : SM -> SM -> Prop) m : keeps R m -> keeps R (_SafeExecute m).
Proof.
  intros Hm s. specialize (Hm s). unfold _SafeExecute.
  destruct (m s) as [s' [|[]| |]]; exact Hm.
Qed.

Lemma keeps_CurrentRun (R : SM -> SM -> Prop) `{!Reflexive R} : keeps R _CurrentRun.
Proof. intros s. unfold _CurrentRun. destruct (substr _ _ _); reflexivity. Qed.

#[local] Hint Resolve keeps_SafeExecute keeps_CurrentRun : vt.
#[local] Hint Extern 1 (PreOrder _) => exact _ : vt.

Ltac frame_auto := intros; unfold _SafeExecuteWithLog; eauto 12 with vt typeclass_instances.

Lemma _ActionExecute_frame c : keeps frame (_ActionExecute c).
Proof. unfold _ActionExecute; frame_auto. Qed.
Lemma _ActionExecuteFromEscape_frame c : keeps frame (_ActionExecuteFromEscape c).
Proof. unfold _ActionExecuteFromEscape; frame_auto. Qed.
Lemma _ActionPrint_frame c : keeps frame (_ActionPrint c).
Proof. unfold _ActionPrint; frame_auto. Qed.
Lemma _ActionPrintString_frame str : keeps frame (_ActionPrintString str).
Proof. unfold _ActionPrintString; frame_auto. Qed.
Lemma _ActionEscDispatch_frame c : keeps frame (_ActionEscDispatch c).
Proof. unfold _ActionEscDispatch; frame_auto. Qed.
Lemma _ActionVt52EscDispatch_frame c : keeps frame (_ActionVt52EscDispatch c).
Proof. unfold _ActionVt52EscDispatch; frame_auto. Qed.
Lemma _ActionCsiDispatch_frame c : keeps frame (_ActionCsiDispatch c).
Proof. unfold _ActionCsiDispatch; frame_auto. Qed.
Lemma _ActionOscDispatch_frame c : keeps frame (_ActionOscDispatch c).
Proof. unfold _ActionOscDispatch; frame_auto. Qed.
Lemma _ActionSs3Dispatch_frame c : keeps frame (_ActionSs3Dispatch c).
Proof. unfold _ActionSs3Dispatch; frame_auto. Qed.

Lemma call_dcsStringHandler_frame c : keeps frame (call_dcsStringHandler c).
Proof.
  unfold call_dcsStringHandler. apply keeps_bind; [exact _|apply keeps_get; exact _|].
  intros [h|]; [apply StringHandler_frame|apply keeps_throw; exact _].
Qed.

End Frame.

#[export] Hint Resolve _ActionExecute_frame _ActionExecuteFromEscape_frame
  _ActionPrint_frame _ActionPrintString_frame _ActionEscDispatch_frame
  _ActionVt52EscDispatch_frame _ActionCsiDispatch_frame _ActionOscDispatch_frame
  _ActionSs3Dispatch_frame call_dcsStringHandler_frame : vt.

(** ** Transparency *)

(** Two machines that differ at most in how their input was cut into strings:
    in the members that track the current string and the partial sequence. *)
Record same_parse {E H C} (s1 s2 : StateMachine E H C) : Prop := {
  sp_engine : _engine s1 = _engine s2;
  sp_isEngineForInput : _isEngineForInput s1 = _isEngineForInput s2;
  sp_state : _state s1 = _state s2;
  sp_parserMode : _parserMode s1 = _parserMode s2;
  sp_identifier : _identifier s1 = _identifier s2;
  sp_parameters : _parameters s1 = _parameters s2;
  sp_parameterLimitReached : _parameterLimitReached s1 = _parameterLimitReached s2;
  sp_oscString : _oscString s1 = _oscString s2;
  sp_oscParameter : _oscParameter s1 = _oscParameter s2;
  sp_dcsStringHandler : _dcsStringHandler s1 = _dcsStringHandler s2;
  sp_onCsiCompleteCallback : _onCsiCompleteCallback s1 = _onCsiCompleteCallback s2
}.

#[export] Instance same_parse_equivalence {E H C} : Equivalence (@same_parse E H C).
Proof.
  split.
  - intros s. by split.
  - intros s1 s2 []. by split.
  - intros s1 s2 s3 [] []. split; congruence.
Qed.

(** A machine that does not process characters individually is in the ground
    state; [ProcessString] relies on it to find runs of printable characters. *)
Definition sync {E H C} (s : StateMachine E H C) : Prop :=
  _processingIndividually s = false -> _state s = Ground.

(** Completion callbacks leave the machine in step. *)
Class SyncCallback (E H C : Type) `{!IStateMachineEngine E H C} : Prop := {
  Callback_sync (cb : C) s :
    sync s -> sync (Callback_call cb s).1 /\
    _isEngineForInput (Callback_call cb s).1 = _isEngineForInput s
}.

(** An engine that does not see the current string, and for which printing a run
    of printable characters is printing them one after the other. *)
Class TransparentEngine (E H C : Type) `{!IStateMachineEngine E H C} : Prop := {
  ActionExecute_sim c : sim same_parse (ActionExecute c) (ActionExecute c);
  ActionExecuteFromEscape_sim c :
    sim same_parse (ActionExecuteFromEscape c) (ActionExecuteFromEscape c);
  ActionPrint_sim c : sim same_parse (ActionPrint c) (ActionPrint c);
  ActionEscDispatch_sim id : sim same_parse (ActionEscDispatch id) (ActionEscDispatch id);
  ActionVt52EscDispatch_sim id ps :
    sim same_parse (ActionVt52EscDispatch id ps) (ActionVt52EscDispatch id ps);
  ActionCsiDispatch_sim id ps :
    sim same_parse (ActionCsiDispatch id ps) (ActionCsiDispatch id ps);
  ActionDcsDispatch_sim id ps :
    sim same_parse (ActionDcsDispatch id ps) (ActionDcsDispatch id ps);
  ActionClear_sim : sim same_parse ActionClear ActionClear;
  ActionOscDispatch_sim c p str :
    sim same_parse (ActionOscDispatch c p str) (ActionOscDispatch c p str);
  ActionSs3Dispatch_sim c ps :
    sim same_parse (ActionSs3Dispatch c ps) (ActionSs3Dispatch c ps);
  StringHandler_sim h c :
    sim same_parse (StringHandler_call h c) (StringHandler_call h c);
  Callback_sim cb : sim same_parse (Callback_call cb) (Callback_call cb);
  print_nil : sim same_parse (_ActionPrintString []) (ret tt);
  print_cons c str :
    Forall (fun c => _isActionableFromGround c = false) (c :: str) ->
    sim same_parse (_ActionPrintString (c :: str))
      (_ActionPrint c ;; _ActionPrintString str)
}.

#[export] Hint Resolve ActionExecute_sim ActionExecuteFromEscape_sim ActionPrint_sim
  ActionEscDispatch_sim ActionVt52EscDispatch_sim ActionCsiDispatch_sim
  ActionDcsDispatch_sim ActionClear_sim ActionOscDispatch_sim ActionSs3Dispatch_sim
  StringHandler_sim Callback_sim : vt.

(** Both engines of the program answer [ActionClear] by doing nothing. *)
Class QuietClear (E H C : Type) `{!IStateMachineEngine E H C} : Prop := {
  ActionClear_quiet (s : StateMachine E H C) : ActionClear s = (s, Ok true)
}.
