(* ===== verification/StateMachineInv.v ===== *)
(** * Well-formedness of the state machine

    The invariant of [StateMachine]: parameters and identifiers stay within their
    machine types, the VT52 and escape states hold as many parameters as they
    should, and a DCS data string always has a handler to go to.  Every
    character and every string preserves it. *)

From S2P Require Import Prelude Effects DispatchTypes StateMachine StateMachineLaws.

Local Open Scope Z_scope.

(** ** Symbolic execution *)

(** One step of the execution of a machine method: the monad's operators by
    their rules, an engine call by its frame. *)
Ltac wp_step :=
  match goal with
  | |- wp (bind _ _) _ _ => apply wp_bind
  | |- wp (ret _) _ _ => apply wp_ret
  | |- wp (get _) _ _ => apply wp_get
  | |- wp (modify _) _ _ => apply wp_modify
  | |- wp (throw _) _ _ => apply wp_throw
  | |- wp (if ?b then _ else _) _ _ => destruct b eqn:?
  | |- wp (match ?x with _ => _ end) _ _ => destruct x eqn:?
  | |- wp _ _ _ =>
      eapply wp_keeps; [solve [eauto with vt]|];
      let s' := fresh "s" in let r := fresh "r" in let Hfr := fresh "Hfr" in
      intros s' r Hfr; destruct r
  end; cbv beta iota zeta.

Ltac wp_run := repeat wp_step.

(** ** The invariant *)

Definition is_param (p : VTParameter) : Prop := -1 <= p <= MAX_PARAMETER_VALUE.

Definition builder_ok (b : VTIDBuilder) : Prop :=
  exists n, (n <= 7)%nat /\ _idShift b = 8 * Z.of_nat n /\
            0 <= _idAccumulator b < pow256 n.

(** What holds of the collected data whatever happens. *)
Record bounded {E H C} (s : StateMachine E H C) : Prop := {
  bd_count : (length (_parameters s) <= MAX_PARAMETER_COUNT)%nat;
  bd_values : Forall is_param (_parameters s);
  bd_osc : 0 <= _oscParameter s <= MAX_PARAMETER_VALUE;
  bd_identifier : builder_ok (_identifier s)
}.

(** What holds between two characters. *)
Record wf {E H C} (s : StateMachine E H C) : Prop := {
  wf_bounded : bounded s;
  wf_limit : _parameterLimitReached s = true ->
             length (_parameters s) = MAX_PARAMETER_COUNT;
  wf_escape : _state s = Escape \/ _state s = EscapeIntermediate -> _parameters s = [];
  wf_vt52 : _state s = Vt52Param -> (length (_parameters s) <= 1)%nat;
  wf_dcs : _state s = DcsPassThrough -> is_Some (_dcsStringHandler s);
  wf_string : Forall is_wchar (_currentString s)
}.

(** The postcondition of a method: bounded after any outcome, well-formed after
    a normal return. *)
Definition wf_post {E H C A} (s : StateMachine E H C) (r : Result A) : Prop :=
  bounded s /\ match r with Ok _ => wf s | _ => True end.

(** ** The pure part: collecting characters *)

Lemma builder_ok_clear : builder_ok VTIDBuilder_Clear.
Proof. exists O. split; [lia|]. by split. Qed.

Lemma AddIntermediate_ok b c : builder_ok b -> is_byte c -> builder_ok (AddIntermediate b c).
Proof.
  destruct b as [acc sh]; intros (n & Hn & Hsh & Hacc) Hc; cbn in *; subst sh.
  destruct (decide (n = 7)%nat) as [->|].
  - exists 7%nat. split; [lia|]. by split.
  - rewrite AddIntermediate_fits by (auto; lia). exists (S n).
    cbn [_idShift _idAccumulator]. rewrite pow256_S. unfold is_byte in Hc. nia.
Qed.

Lemma is_byte_intermediate c :
  _isIntermediate c = true \/ _isCsiPrivateMarker c = true -> is_byte c.
Proof.
  unfold _isIntermediate, _isCsiPrivateMarker, is_byte. intros [Hc|Hc]; bool_prop; [lia|].
  repeat (destruct Hc as [Hc|Hc]; [bool_prop|]); bool_prop; lia.
Qed.

(** Accumulation never overflows a [VTInt] and saturates at the maximum. *)
Lemma AccumulateTo_spec c v :
  _isNumericParamValue c = true -> 0 <= v <= MAX_PARAMETER_VALUE ->
  _AccumulateTo c v = Z.min (v * 10 + (c - 0x30)) MAX_PARAMETER_VALUE.
Proof.
  unfold _isNumericParamValue, _AccumulateTo, MAX_PARAMETER_VALUE. intros Hc Hv. bool_prop.
  rewrite (wraps_small 32 (v * 10)) by lia. rewrite wraps_small by lia.
  case_if; bool_prop; lia.
Qed.

(** [_ActionParam] as a function of the collected parameters. *)
Definition param_step (wch : wchar) (ps : list VTParameter) (limit : bool)
    : list VTParameter * bool :=
  if limit then (ps, limit)
  else
    let ps := match ps with [] => [VTParameter_default] | _ => ps end in
    if _isParameterDelimiter wch then
      if (MAX_PARAMETER_COUNT <=? length ps)%nat then (ps, true)
      else (ps ++ [VTParameter_default], false)
    else (set_back (_AccumulateTo wch (value_or (List.last ps VTParameter_default) 0)) ps,
          false).

Lemma ActionParam_step {E H C} wch (s : StateMachine E H C) :
  _ActionParam wch s =
  (set_parameterLimitReached (param_step wch (_parameters s) (_parameterLimitReached s)).2
     (set_parameters (param_step wch (_parameters s) (_parameterLimitReached s)).1 s),
   Ok tt).
Proof.
  unfold _ActionParam, modify, param_step.
  destruct s as [? ? ? ? ? ? ? ? ps limit]; cbn.
  destruct limit; [done|].
  destruct ps; cbn; repeat case_if; cbn; done.
Qed.

Lemma set_back_length x l : l <> [] -> length (set_back x l) = length l.
Proof.
  intros Hl. unfold set_back.
  rewrite (app_removelast_last x Hl) at 2. rewrite !length_app. done.
Qed.

Lemma Forall_removelast {A} (P : A -> Prop) l : Forall P l -> Forall P (removelast l).
Proof.
  induction 1 as [|x l Hx Hl IH]; [constructor|].
  destruct l; [constructor|]. by constructor.
Qed.

Lemma value_or_range p : is_param p -> 0 <= value_or p 0 <= MAX_PARAMETER_VALUE.
Proof. unfold is_param, value_or, MAX_PARAMETER_VALUE. intros. case_if; bool_prop; lia. Qed.

Lemma last_param l : Forall is_param l -> is_param (List.last l VTParameter_default).
Proof.
  induction 1 as [|x l Hx Hl IH]; [cbn; unfold is_param, VTParameter_default, MAX_PARAMETER_VALUE; lia|].
  by destruct l.
Qed.

Lemma param_step_ok wch ps limit :
  _isNumericParamValue wch || _isParameterDelimiter wch = true ->
  (length ps <= MAX_PARAMETER_COUNT)%nat -> Forall is_param ps ->
  (limit = true -> length ps = MAX_PARAMETER_COUNT) ->
  let '(ps', limit') := param_step wch ps limit in
  (length ps' <= MAX_PARAMETER_COUNT)%nat /\ Forall is_param ps' /\
  (limit' = true -> length ps' = MAX_PARAMETER_COUNT).
Proof.
  intros Hc Hlen Hps Hl. unfold param_step. destruct limit; [auto|].
  assert (Hd : is_param VTParameter_default) by (cbn; unfold is_param, VTParameter_default, MAX_PARAMETER_VALUE; lia).
  set (ps1 := match ps with [] => [VTParameter_default] | _ => ps end).
  assert (ps1 <> [] /\ (length ps1 <= MAX_PARAMETER_COUNT)%nat /\ Forall is_param ps1)
    as (Hne & Hlen1 & Hps1).
  { destruct ps; unfold MAX_PARAMETER_COUNT in *; cbn in *; repeat split; try done;
      try lia; by repeat constructor. }
  destruct (_isParameterDelimiter wch) eqn:Hdel.
  - destruct (Nat.leb_spec MAX_PARAMETER_COUNT (length ps1)).
    + repeat split; auto. lia.
    + rewrite length_app. cbn. split; [lia|]. split; [|done].
      apply Forall_app; split; [done|by constructor].
  - rewrite orb_false_r in Hc. rewrite set_back_length by done.
    split; [done|]. split; [|done]. unfold set_back. apply Forall_app; split.
    + by apply Forall_removelast.
    + constructor; [|done]. pose proof (value_or_range _ (last_param _ Hps1)).
      rewrite AccumulateTo_spec by auto. unfold is_param, _isNumericParamValue in *.
      bool_prop. unfold MAX_PARAMETER_VALUE in *. lia.
Qed.

(** ** Preservation *)

(** A completion callback leaves the machine well-formed: it may only drive the
    machine through its public methods. *)
Class WfCallback (E H C : Type) `{!IStateMachineEngine E H C} : Prop := {
  Callback_wf (c : C) s : wf s -> wp (Callback_call c) wf_post s
}.

Section Preservation.
Context {E H C : Type} `{!IStateMachineEngine E H C}.
Context `{!FramedEngine E H C} `{!WfCallback E H C}.

#[local] Abbreviation SM := (StateMachine E H C).

(** Well-formedness is about seven members only. *)
Lemma wf_ext (s s' : SM) :
  _state s' = _state s -> _identifier s' = _identifier s ->
  _parameters s' = _parameters s ->
  _parameterLimitReached s' = _parameterLimitReached s ->
  _oscParameter s' = _oscParameter s ->
  _dcsStringHandler s' = _dcsStringHandler s ->
  _currentString s' = _currentString s ->
  wf s -> wf s'.
Proof.
  intros E1 E2 E3 E4 E5 E6 E7 [[] Hl He Hv Hd Hs].
  split; [split|..]; rewrite ?E1, ?E2, ?E3, ?E4, ?E5, ?E6, ?E7; auto.
Qed.

Lemma frame_wf (s s' : SM) : frame s s' -> wf s -> wf s'.
Proof. intros []. by apply wf_ext. Qed.

Lemma wf_post_ok {A} (s : SM) (r : Result A) : wf s -> wf_post s r.
Proof. intros Hw. split; [apply Hw|by destruct r]. Qed.

Lemma wp_framed {A} (m : M SM A) s : keeps frame m -> wf s -> wp m wf_post s.
Proof. intros Hm Hw. apply wf_post_ok. eapply frame_wf; eauto. Qed.

(** The machine after the assignments of [_ActionClear]. *)
Definition cleared (s : SM) : SM :=
  set_dcsStringHandler None (set_oscParameter 0 (set_oscString []
    (set_parameterLimitReached false (set_parameters []
       (set_identifier VTIDBuilder_Clear s))))).

Lemma cleared_wf (s : SM) :
  _state s <> DcsPassThrough -> Forall is_wchar (_currentString s) -> wf (cleared s).
Proof.
  intros Hs Hstr. split; [split|..]; unfold MAX_PARAMETER_VALUE, MAX_PARAMETER_COUNT; cbn;
    auto using builder_ok_clear; try lia; done.
Qed.

Lemma ActionClear_frame_spec (s : SM) :
  wp _ActionClear (fun s' _ => frame (cleared s) s') s.
Proof. unfold _ActionClear. wp_run; done. Qed.

(** Entering a state by [_ActionClear] makes the machine well-formed, provided
    the state is not one with a handler. *)
Lemma enter_clear_wf st (s : SM) :
  st <> DcsPassThrough -> Forall is_wchar (_currentString s) ->
  wp (modify (set_state st) ;; _ActionClear) wf_post s.
Proof.
  intros Hst Hstr. apply wp_bind, wp_modify. eapply wp_mono; [apply ActionClear_frame_spec|].
  intros s' r Hf. apply wf_post_ok. eapply frame_wf; [exact Hf|]. by apply cleared_wf.
Qed.

Lemma ActionParam_wf wch (s : SM) :
  _isNumericParamValue wch || _isParameterDelimiter wch = true ->
  (_state s <> Escape /\ _state s <> EscapeIntermediate /\ _state s <> Vt52Param) ->
  wf s -> wp (_ActionParam wch)
            (fun s' r => wf_post s' r /\ _state s' = _state s /\
                         _dcsStringHandler s' = _dcsStringHandler s) s.
Proof.
  intros Hc Hst Hw. unfold wp. rewrite ActionParam_step. cbn [fst snd].
  destruct Hw as [[Hlen Hval ? ?] Hlim ? ? ?].
  pose proof (param_step_ok wch _ _ Hc Hlen Hval Hlim) as Hok.
  destruct (param_step _ _ _) as [ps' l']. destruct Hok as (? & ? & ?). cbn.
  split; [|done]. apply wf_post_ok. split; [split|..]; cbn; auto; intros; intuition congruence.
Qed.

Lemma ExecuteCsiCompleteCallback_wf s : wf s -> wp _ExecuteCsiCompleteCallback wf_post s.
Proof.
  intros Hw. unfold _ExecuteCsiCompleteCallback. apply wp_bind, wp_get.
  destruct (_onCsiCompleteCallback s) as [cb|]; [|by apply wp_ret, wf_post_ok].
  do 3 apply wp_bind, wp_get. apply wp_bind, wp_modify.
  assert (Hw' : wf (set_onCsiCompleteCallback None s)) by (by eapply wf_ext; [..|exact Hw]).
  apply wp_bind. eapply wp_mono; [exact (Callback_wf cb _ Hw')|].
  intros s' r [Hb Hp]. destruct r; try (by split).
  wp_run. apply wf_post_ok. destruct Hp as [[] ? ? ? ? ?], Hw.
  split; [by split|..]; auto.
Qed.

Lemma seq_wf {A B} (m : M SM A) (k : A -> M SM B) s :
  wp m wf_post s -> (forall a s', wf s' -> wp (k a) wf_post s') -> wp (bind m k) wf_post s.
Proof.
  intros Hm Hk. apply wp_bind. eapply wp_mono; [exact Hm|].
  intros s' r [Hb Hw]. destruct r; [by apply Hk|by split..].
Qed.

(** Moving to a state that puts no condition on the collected data. *)
Definition plain_state (st : VTStates) : bool :=
  match st with
  | Escape | EscapeIntermediate | Vt52Param | DcsPassThrough => false
  | _ => true
  end.

(** The part of the invariant that does not look at the state. *)
Definition wf_data (s : SM) : Prop :=
  bounded s /\
  (_parameterLimitReached s = true -> length (_parameters s) = MAX_PARAMETER_COUNT) /\
  Forall is_wchar (_currentString s).

Lemma wf_wf_data (s : SM) : wf s -> wf_data s.
Proof. by intros []. Qed.

Lemma wf_data_ext (s s' : SM) :
  _identifier s' = _identifier s -> _parameters s' = _parameters s ->
  _parameterLimitReached s' = _parameterLimitReached s ->
  _oscParameter s' = _oscParameter s -> _currentString s' = _currentString s ->
  wf_data s -> wf_data s'.
Proof.
  intros E1 E2 E3 E4 E5 [[] [Hl Hs]].
  split; [split|split]; rewrite ?E1, ?E2, ?E3, ?E4, ?E5; auto.
Qed.

Lemma frame_wf_data (s s' : SM) : frame s s' -> wf_data s -> wf_data s'.
Proof. intros []. by apply wf_data_ext. Qed.

Lemma wf_data_set_state st (s : SM) :
  plain_state st = true -> wf_data s -> wf (set_state st s).
Proof.
  intros Hst [[] [Hl Hs]]. split; [by split|..]; cbn; auto; intros Hq; subst; try done.
  by destruct Hq; subst.
Qed.

Lemma enter_wf st (s : SM) :
  plain_state st = true -> wf_data s -> wp (modify (set_state st)) wf_post s.
Proof. intros. wp_run. by apply wf_post_ok, wf_data_set_state. Qed.

Lemma enter_reset_wf st (s : SM) :
  plain_state st = true -> wf_data s ->
  wp (modify (set_state st) ;; modify (set_cachedSequence None)) wf_post s.
Proof.
  intros Hst Hw. wp_run. apply wf_post_ok.
  by eapply wf_ext; [..|exact (wf_data_set_state st s Hst Hw)].
Qed.

Lemma ground_wf (s : SM) : wf s -> wp _EnterGround wf_post s.
Proof. intros. apply enter_reset_wf; auto using wf_wf_data. Qed.

Lemma collect_wf wch (s : SM) :
  _isIntermediate wch = true \/ _isCsiPrivateMarker wch = true ->
  wf s -> wp (_ActionCollect wch) wf_post s.
Proof.
  intros Hc [[] ? ? ? ? ?]. unfold _ActionCollect. wp_run. apply wf_post_ok.
  split; [split|..]; cbn; auto using AddIntermediate_ok, is_byte_intermediate.
Qed.

Lemma param_enter_wf wch st (s : SM) :
  _isNumericParamValue wch || _isParameterDelimiter wch = true ->
  plain_state (_state s) = true -> plain_state st = true -> wf s ->
  wp (_ActionParam wch ;; modify (set_state st)) wf_post s.
Proof.
  intros Hc Hs Hst Hw. apply wp_bind. eapply wp_mono.
  - apply ActionParam_wf; auto. repeat split; intros Hq; by rewrite Hq in Hs.
  - cbn. intros s' r [[Hb Hp] _]. destruct r; [by apply enter_wf; auto using wf_wf_data|by split..].
Qed.

Lemma param_wf wch (s : SM) :
  _isNumericParamValue wch || _isParameterDelimiter wch = true ->
  plain_state (_state s) = true -> wf s -> wp (_ActionParam wch) wf_post s.
Proof.
  intros Hc Hs Hw. eapply wp_mono.
  - apply ActionParam_wf; auto. repeat split; intros Hq; by rewrite Hq in Hs.
  - by intros s' r [Hp _].
Qed.

Lemma ActionDcsDispatch_wf wch (s : SM) : wf s -> wp (_ActionDcsDispatch wch) wf_post s.
Proof.
  intros Hw. unfold _ActionDcsDispatch, _SafeExecuteWithLog.
  apply wp_bind. unfold wp, _SafeExecute, bind, get. cbn [fst snd].
  set (m := ActionDcsDispatch _ _).
  assert (Hf : keeps frame m) by (apply ActionDcsDispatch_frame).
  specialize (Hf s). destruct (m s) as [s1 r1]. cbn [fst snd] in Hf.
  pose proof (frame_wf _ _ Hf Hw) as Hw1. pose proof (wf_wf_data _ Hw1) as [[] [? ?]].
  destruct r1 as [h|[]| |]; cbn; try (by apply wf_post_ok);
    try (by apply enter_reset_wf; auto using wf_wf_data).
  destruct h as [h|]; cbn.
  - apply wf_post_ok. split; [by split|..]; cbn; try done; by intros [|].
  - by apply enter_reset_wf.
Qed.

(** An interrupted data string: the handler goes, the collected data stay. *)
Lemma ActionInterrupt_data (s : SM) :
  wf_data s ->
  wp _ActionInterrupt (fun s' _ => wf_data s') s.
Proof.
  intros Hd. unfold _ActionInterrupt. wp_run; try done;
    pose proof (frame_wf_data _ _ Hfr Hd) as Hd'; try done.
  by eapply wf_data_ext; [..|exact Hd'].
Qed.

Lemma cancel_wf wch (s : SM) :
  wf_data s -> wp (_ActionInterrupt ;; _ActionExecute wch ;; _EnterGround) wf_post s.
Proof.
  intros Hd. apply wp_bind. eapply wp_mono; [by apply ActionInterrupt_data|].
  intros s1 r1 Hd1. destruct r1; [|by split; [apply Hd1|]..].
  apply wp_bind. eapply wp_keeps; [eauto with vt|]. intros s2 r2 Hf.
  pose proof (frame_wf_data _ _ Hf Hd1) as Hd2.
  destruct r2; [|by split; [apply Hd2|]..]. by apply enter_reset_wf.
Qed.

Lemma escape_wf (s : SM) :
  wf_data s -> wp (_ActionInterrupt ;; _EnterEscape) wf_post s.
Proof.
  intros Hd. apply wp_bind. eapply wp_mono; [by apply ActionInterrupt_data|].
  intros s1 r1 Hd1. destruct r1; [|by split; [apply Hd1|]..].
  apply enter_clear_wf; [done|apply Hd1].
Qed.

(** *** Events *)

Lemma escape_intermediate_wf wch (s : SM) :
  _isIntermediate wch = true -> _parameters s = [] -> wf s ->
  wp (_ActionCollect wch ;; _EnterEscapeIntermediate) wf_post s.
Proof.
  intros Hc Hp [[] ? ? ? ? ?]. unfold _ActionCollect, _EnterEscapeIntermediate. wp_run.
  apply wf_post_ok. split; [split|..]; cbn; auto; try done.
  auto using AddIntermediate_ok, is_byte_intermediate.
Qed.

Lemma enter_vt52_wf (s : SM) :
  _parameters s = [] -> wf s -> wp _EnterVt52Param wf_post s.
Proof.
  intros Hp [[] ? ? ? ? ?]. unfold _EnterVt52Param. wp_run. apply wf_post_ok.
  split; [by split|..]; cbn; auto; try done. intros _. rewrite Hp. cbn. lia.
Qed.

(** Cases on the tests of an event handler, then closes each branch. *)
Ltac event_wf :=
  repeat match goal with
  | |- wp (if ?b then _ else _) _ _ => destruct b eqn:?
  | |- wp (bind (get _) _) _ _ => apply wp_bind, wp_get; cbv beta
  end;
  repeat first
    [ by apply wp_ret, wf_post_ok
    | by apply wp_framed; [eauto with vt|]
    | by apply ground_wf
    | by apply ExecuteCsiCompleteCallback_wf
    | by apply ActionDcsDispatch_wf
    | by apply enter_wf; [|by apply wf_wf_data]
    | by apply enter_reset_wf; [|by apply wf_wf_data]
    | by apply enter_clear_wf; [|eapply wf_string; eassumption]
    | by apply collect_wf; auto
    | by apply param_wf
    | by apply param_enter_wf
    | by apply escape_intermediate_wf
    | by apply enter_vt52_wf
    | apply seq_wf; [|intros ? ? ?] ].

Lemma EventEscape_wf wch (s : SM) :
  wf s -> _state s = Escape -> wp (_EventEscape wch) wf_post s.
Proof.
  intros Hw Hs. assert (Hp : _parameters s = []) by (apply Hw; auto).
  unfold _EventEscape. event_wf.
Qed.

Lemma EventEscapeIntermediate_wf wch (s : SM) :
  wf s -> _state s = EscapeIntermediate -> wp (_EventEscapeIntermediate wch) wf_post s.
Proof.
  intros Hw Hs. assert (Hp : _parameters s = []) by (apply Hw; auto).
  unfold _EventEscapeIntermediate. event_wf.
Qed.

(** The events of the CSI, SS3 and DCS states, which collect by the same rules. *)
Lemma EventSequence_wf wch (s : SM) :
  wf s -> plain_state (_state s) = true ->
  wp (_EventCsiEntry wch) wf_post s /\ wp (_EventCsiIntermediate wch) wf_post s /\
  wp (_EventCsiIgnore wch) wf_post s /\ wp (_EventCsiParam wch) wf_post s /\
  wp (_EventSs3Entry wch) wf_post s /\ wp (_EventSs3Param wch) wf_post s /\
  wp (_EventDcsEntry wch) wf_post s /\ wp (_EventDcsIntermediate wch) wf_post s /\
  wp (_EventGround wch) wf_post s.
Proof.
  intros Hw Hs.
  unfold _EventCsiEntry, _EventCsiIntermediate, _EventCsiIgnore, _EventCsiParam,
    _EventSs3Entry, _EventSs3Param, _EventDcsEntry, _EventDcsIntermediate, _EventGround.
  split_and!; event_wf.
Qed.

Lemma EventDcsParam_wf wch (s : SM) :
  wf s -> plain_state (_state s) = true -> wp (_EventDcsParam wch) wf_post s.
Proof.
  intros Hw Hs. unfold _EventDcsParam. apply wp_bind.
  destruct (_isC0Code wch); [|destruct (_isDelete wch)]; apply wp_ret; event_wf.
Qed.

Lemma ActionOscParam_wf wch (s : SM) :
  _isNumericParamValue wch = true -> wf s -> wp (_ActionOscParam wch) wf_post s.
Proof.
  intros Hc [[] ? ? ? ? ?]. unfold _ActionOscParam. wp_run. apply wf_post_ok.
  split; [split|..]; cbn; auto. rewrite AccumulateTo_spec by auto.
  unfold _isNumericParamValue, MAX_PARAMETER_VALUE in *. bool_prop. lia.
Qed.

Lemma ActionOscPut_wf wch (s : SM) : wf s -> wp (_ActionOscPut wch) wf_post s.
Proof. intros Hw. apply wf_post_ok. by eapply wf_ext; [..|exact Hw]. Qed.

Lemma EventOsc_wf wch (s : SM) :
  wf s ->
  wp (_EventOscParam wch) wf_post s /\ wp (_EventOscString wch) wf_post s.
Proof.
  intros Hw. unfold _EventOscParam, _EventOscString.
  split; event_wf; auto using ActionOscParam_wf, ActionOscPut_wf.
Qed.

Lemma EventOscTermination_wf wch (s : SM) :
  wf s -> wp (_EventOscTermination wch) wf_post s.
Proof.
  intros Hw. unfold _EventOscTermination, _EnterEscape. case_if; [event_wf|].
  apply wp_bind, wp_bind, wp_modify. eapply wp_mono; [apply ActionClear_frame_spec|].
  cbn. intros s' r Hf.
  assert (Hw' : wf s').
  { eapply frame_wf; [exact Hf|]. apply cleared_wf; [done|apply Hw]. }
  destruct r; [|by apply wf_post_ok..]. apply EventEscape_wf; [done|].
  by rewrite (fr_state _ _ Hf).
Qed.

Lemma is_param_wchar wch : is_wchar wch -> is_param wch.
Proof. unfold is_wchar, is_param, MAX_PARAMETER_VALUE. lia. Qed.

Lemma EventVt52Param_wf wch (s : SM) :
  is_wchar wch -> wf s -> _state s = Vt52Param -> wp (_EventVt52Param wch) wf_post s.
Proof.
  intros Hc Hw Hs. pose proof (wf_vt52 _ Hw Hs) as Hlen.
  assert (Hd : wf_data (set_parameters (_parameters s ++ [wch]) s)).
  { destruct Hw as [[] ? ? ? ? ?]. split; [split|split]; cbn; auto.
    - rewrite length_app. unfold MAX_PARAMETER_COUNT. cbn. lia.
    - apply Forall_app; split; [done|]. constructor; [by apply is_param_wchar|done].
    - intros Hl. rewrite (wf_limit0 Hl) in Hlen. unfold MAX_PARAMETER_COUNT in Hlen. lia. }
  unfold _EventVt52Param. do 2 (case_if; [event_wf|]).
  apply wp_bind, wp_modify, wp_bind, wp_get. case_if.
  - apply wp_bind. eapply wp_keeps; [eauto with vt|]. intros s' r Hf.
    pose proof (frame_wf_data _ _ Hf Hd) as Hd'.
    destruct r; [|by split; [apply Hd'|]..]. by apply enter_reset_wf.
  - apply wp_ret, wf_post_ok. destruct Hd as [Hb [Hl Hstr]]. split; auto; cbn in *.
    + rewrite Hs. by intros [|].
    + intros _. apply Nat.eqb_neq in Heqb1. rewrite length_app in *. cbn in *. lia.
    + by rewrite Hs.
Qed.

Lemma EventDcsPassThrough_wf wch (s : SM) :
  wf s -> wp (_EventDcsPassThrough wch) wf_post s.
Proof.
  intros Hw. unfold _EventDcsPassThrough. case_if; [|event_wf].
  apply seq_wf; [apply wp_framed; eauto with vt|]. intros a s' Hw'. event_wf.
Qed.

Lemma dispatch_event_wf wch (s : SM) :
  is_wchar wch -> wf s -> wp (dispatch_event wch (_state s)) wf_post s.
Proof.
  intros Hc Hw. pose proof (EventSequence_wf wch s Hw) as Hseq.
  pose proof (EventOsc_wf wch s Hw) as [? ?].
  destruct (_state s) eqn:Hs; cbn [dispatch_event];
    try (destruct (Hseq eq_refl) as (?&?&?&?&?&?&?&?&?); done);
    auto using EventEscape_wf, EventEscapeIntermediate_wf, EventOscTermination_wf,
      EventVt52Param_wf, EventDcsPassThrough_wf; try (by apply wf_post_ok).
  apply EventDcsParam_wf; [done|]. by rewrite Hs.
Qed.

(** *** Characters and strings *)

Lemma c1To7Bit_range wch : _isC1ControlCharacter wch = true -> 0x40 <= _c1To7Bit wch <= 0x5F.
Proof.
  unfold _isC1ControlCharacter, _c1To7Bit. intros Hc. bool_prop.
  rewrite wrapu_small; lia.
Qed.

Lemma ProcessCharacter_body_wf rec wch (s : SM) :
  is_wchar wch ->
  (forall c s', is_wchar c -> wf s' -> wp (rec c) wf_post s') ->
  wf s -> wp (ProcessCharacter_body rec wch) wf_post s.
Proof.
  intros Hc Hrec Hw. unfold ProcessCharacter_body.
  do 3 (apply wp_bind, wp_get). cbv zeta.
  case_if; [apply cancel_wf; by apply wf_wf_data|].
  case_if.
  { case_if; [|by apply wp_ret, wf_post_ok].
    apply seq_wf; [apply Hrec; [by unfold is_wchar|done]|]. intros _ s' Hw'.
    apply Hrec; [|done]. pose proof (c1To7Bit_range wch ltac:(done)).
    unfold is_wchar. lia. }
  case_if; [apply escape_wf; by apply wf_wf_data|]. by apply dispatch_event_wf.
Qed.

Lemma ProcessCharacter_fuel_wf fuel wch (s : SM) :
  is_wchar wch -> wf s -> wp (ProcessCharacter_fuel fuel wch) wf_post s.
Proof.
  revert wch s. induction fuel as [|fuel IH]; intros wch s Hc Hw; cbn.
  - by apply wf_post_ok.
  - by apply ProcessCharacter_body_wf.
Qed.

Lemma ProcessCharacter_wf wch (s : SM) :
  is_wchar wch -> wf s -> wp (ProcessCharacter wch) wf_post s.
Proof. apply ProcessCharacter_fuel_wf. Qed.

Lemma iter_ProcessCharacter_wf str (s : SM) :
  Forall is_wchar str -> wf s -> wp (iterM ProcessCharacter str) wf_post s.
Proof.
  intros Hstr; revert s. induction Hstr as [|c str Hc Hstr IH]; intros s Hw; cbn [iterM].
  - by apply wp_ret, wf_post_ok.
  - apply seq_wf; [by apply ProcessCharacter_wf|]. auto.
Qed.

(** Assignments to the members that track the current string. *)
Lemma wp_assign_wf {B} (f : SM -> SM) (k : unit -> M SM B) (s : SM) :
  (wf s -> wf (f s)) -> wf s -> (wf (f s) -> wp (k tt) wf_post (f s)) ->
  wp (bind (modify f) k) wf_post s.
Proof. intros Hf Hw Hk. apply wp_bind, wp_modify. auto. Qed.

Ltac assign_wf :=
  repeat (apply wp_assign_wf; [intros ?; by eapply wf_ext; [..|eassumption]|done|];
          let Hw := fresh "Hw" in intros Hw).

Lemma CurrentRun_wf {B} (k : wstring -> M SM B) (s : SM) :
  wf s -> (forall run, Forall is_wchar run -> wp (k run) wf_post s) ->
  wp (bind _CurrentRun k) wf_post s.
Proof.
  intros Hw Hk. apply wp_bind. unfold _CurrentRun, wp, substr. case_if; cbn.
  - by apply wf_post_ok.
  - apply Hk. pose proof (wf_string _ Hw). case_if; auto using Forall_take, Forall_drop.
Qed.

Lemma ProcessString_loop_wf fuel str start current (s : SM) :
  Forall is_wchar str -> wf s ->
  wp (ProcessString_loop fuel str start current) wf_post s.
Proof.
  intros Hstr. revert start current s.
  induction fuel as [|fuel IH]; intros start current s Hw;
    cbn [ProcessString_loop]; [by apply wf_post_ok|].
  destruct (str !! current) as [c|] eqn:Hc; [|by apply wp_ret, wf_post_ok].
  assert (Hcw : is_wchar c) by (eapply Forall_lookup_1; eauto).
  assign_wf. apply wp_bind, wp_get. case_if.
  - assign_wf. apply seq_wf; [by apply ProcessCharacter_wf|]. intros _ s1 Hs1.
    apply wp_bind, wp_get. case_if; [assign_wf|]; auto.
  - case_if; [|auto]. apply wp_bind, wp_get.
    apply seq_wf; [|intros _ s1 Hs1; assign_wf; auto].
    case_if; [|by apply wp_ret, wf_post_ok]. assign_wf.
    apply CurrentRun_wf; [done|]. intros run _. apply wp_framed; eauto with vt.
Qed.

Lemma flush_input_run_wf run (s : SM) :
  Forall is_wchar run -> wf s -> wp (flush_input_run run) wf_post s.
Proof.
  intros Hrun Hw. unfold flush_input_run, ResetState.
  apply seq_wf; [by apply ground_wf|]. intros _ s1 Hw1. assign_wf.
  destruct (list.last run); [|by apply wf_post_ok].
  apply seq_wf; [by apply iter_ProcessCharacter_wf; [apply Forall_removelast|]|].
  intros _ s2 Hw2. assign_wf. apply wp_bind, wp_get.
  apply seq_wf; [|intros; by apply ground_wf].
  destruct (_state _); cbn [dispatch_last];
    first [by apply wp_framed; [eauto with vt|] | by apply wp_ret, wf_post_ok].
Qed.

Lemma ProcessString_finish_wf str start (s : SM) :
  wf s -> wp (ProcessString_finish str start) wf_post s.
Proof.
  intros Hw. unfold ProcessString_finish.
  apply seq_wf.
  { case_if; assign_wf; apply wp_modify, wf_post_ok; by eapply wf_ext; [..|eassumption]. }
  intros _ s1 Hw1. apply CurrentRun_wf; [done|]. intros run Hrun.
  do 3 (apply wp_bind, wp_get). repeat case_if;
    first [ by apply wp_framed; [eauto with vt|]
          | by apply flush_input_run_wf
          | by apply wp_ret, wf_post_ok
          | apply wp_modify, wf_post_ok; by eapply wf_ext; [..|eassumption] ].
Qed.

Lemma ProcessString_wf_aux str (s : SM) :
  Forall is_wchar str -> wf s -> wp (ProcessString str) wf_post s.
Proof.
  intros Hstr Hw. unfold ProcessString.
  apply wp_assign_wf; [|done|].
  { intros [[] ? ? ? ? ?]. split; [by split|..]; auto. }
  intros Hw1. assign_wf.
  apply seq_wf; [by apply ProcessString_loop_wf|]. intros. by apply ProcessString_finish_wf.
Qed.

End Preservation.
