(* ===== verification/Recorder.v ===== *)
(** * An engine that records its calls

    A small concrete [IStateMachineEngine], used to run the state machine on
    concrete input: its state is the list of the calls it received, latest last.
    Printing a string is recorded as printing its characters.  It refuses DCS
    sequences with the final character [x], gives up on a data string at [!], and
    answers the sequence [CSI * z] by registering a completion callback.  It
    honours every contract of [StateMachineLaws.v]. *)

From S2P Require Import Prelude Effects DispatchTypes StateMachine StateMachineLaws.
From S2P Require Import StateMachineInv.

Local Open Scope Z_scope.

Module Recorder.

Inductive Action :=
| Execute (c : wchar)
| ExecuteFromEscape (c : wchar)
| Print (c : wchar)
| PassThrough (str : wstring)
| Esc (id : VTID)
| Vt52 (id : VTID) (ps : VTParameters)
| Csi (id : VTID) (ps : VTParameters)
| Dcs (id : VTID) (ps : VTParameters)
| DcsChar (id : VTID) (c : wchar)
| Osc (c : wchar) (p : Z) (str : wstring)
| Ss3 (c : wchar) (ps : VTParameters)
| Completed (n : Z).

Abbreviation SM := (StateMachine (list Action) VTID Z).

Definition record (l : list Action) : M SM unit :=
  modify (fun s => set_engine (_engine s ++ l) s).

Definition id_DECINVM : VTID := VTID_FromString [0x2A; 0x7A].

#[global] Instance engine : IStateMachineEngine (list Action) VTID Z := {
  ActionExecute c := record [Execute c] ;; ret true;
  ActionExecuteFromEscape c := record [ExecuteFromEscape c] ;; ret true;
  ActionPrint c := record [Print c] ;; ret true;
  ActionPrintString str := record (Print <$> str) ;; ret true;
  ActionPassThroughString str := record [PassThrough str] ;; ret true;
  ActionEscDispatch id := record [Esc id] ;; ret true;
  ActionVt52EscDispatch id ps := record [Vt52 id ps] ;; ret true;
  ActionCsiDispatch id ps :=
    record [Csi id ps] ;;
    (if id =? id_DECINVM then modify (set_onCsiCompleteCallback (Some (params_at ps 0)))
     else ret tt) ;;
    ret true;
  ActionDcsDispatch id ps :=
    record [Dcs id ps] ;; ret (if id =? 0x78 then None else Some id);
  ActionClear := ret true;
  ActionIgnore := ret true;
  ActionOscDispatch c p str := record [Osc c p str] ;; ret true;
  ActionSs3Dispatch c ps := record [Ss3 c ps] ;; ret true;
  StringHandler_call h c := record [DcsChar h c] ;; ret (negb (c =? 0x21));
  Callback_call n := record [Completed n]
}.

Lemma record_frame l : keeps frame (record l).
Proof. intros s. by split. Qed.

#[local] Hint Resolve record_frame : vt.

#[global] Instance engine_framed : FramedEngine (list Action) VTID Z.
Proof.
  split; intros; cbn; try (apply keeps_bind; [exact _|eauto with vt|intros _]);
    try (apply keeps_ret; exact _).
  apply keeps_bind; [exact _| |intros _; apply keeps_ret; exact _].
  case_if; [|apply keeps_ret; exact _]. intros s. by split.
Qed.

#[global] Instance engine_wf : WfCallback (list Action) VTID Z.
Proof. split. intros n s Hw. by apply wp_framed; [apply record_frame|]. Qed.

Lemma record_sim l : sim same_parse (record l) (record l).
Proof. apply sim_modify. intros s1 s2 []. split; cbn; congruence. Qed.

#[local] Hint Resolve record_sim : vt.

#[global] Instance engine_transparent : TransparentEngine (list Action) VTID Z.
Proof.
  split; intros; cbn; try apply sim_ret;
    try (apply sim_bind; [apply record_sim|intros _; apply sim_ret]).
  - apply sim_bind; [apply record_sim|intros _].
    apply sim_bind; [|intros _; apply sim_ret].
    case_if; [|apply sim_ret]. apply sim_modify. intros s1 s2 []. split; cbn; congruence.
  - apply record_sim.
  - intros s1 s2 Hs. cbn. split; [|done]. rewrite app_nil_r.
    etrans; [|exact Hs]. by split.
  - intros s1 s2 Hs. cbn. split; [|done].
    destruct Hs; split; cbn; try congruence. rewrite <- app_assoc. cbn. congruence.
Qed.

#[global] Instance engine_sync : SyncCallback (list Action) VTID Z.
Proof. by split. Qed.

#[global] Instance engine_quiet : QuietClear (list Action) VTID Z.
Proof. by split. Qed.

(** A new machine, and what the engine has received after a string. *)
Definition machine (isEngineForInput : bool) : SM :=
  (StateMachine_new [] isEngineForInput 0 0 false).1.

Definition calls (isEngineForInput : bool) (str : wstring) : list Action * Result unit :=
  let '(s, r) := ProcessString str (machine isEngineForInput) in (_engine s, r).

(** [ESC [ ? 2 5 h]: one CSI dispatch, identifier ["?h"], parameter 25. *)
Example calls_decset :
  calls false [0x1B; 0x5B; 0x3F; 0x32; 0x35; 0x68] =
  ([Csi (VTID_FromString [0x3F; 0x68]) [25]], Ok tt).
Proof. vm_compute. reflexivity. Qed.

Lemma machine_wf b : wf (machine b).
Proof.
  repeat split; cbn; try done; try lia; unfold MAX_PARAMETER_VALUE; try lia.
  apply builder_ok_clear.
Qed.

End Recorder.

(** C6. Strings preserve the invariant of the machine, whatever the characters:
    never more than 32 parameters, each omitted or between 0 and 65535, an OSC
    number in that range too, and an identifier that fits 64 bits; and after a
    normal return a DCS data string always has the handler it will be sent to. *)
Theorem ProcessString_wf {E H C : Type}
    `{!IStateMachineEngine E H C, !FramedEngine E H C, !WfCallback E H C}
    (str : wstring) (s : StateMachine E H C) :
  Forall is_wchar str -> wf s ->
  bounded (ProcessString str s).1 /\
  ((ProcessString str s).2 = Ok tt -> wf (ProcessString str s).1).
Proof.
  intros Hstr Hw. destruct (ProcessString_wf_aux str s Hstr Hw) as [Hb Hp].
  split; [done|]. intros Hr. by rewrite Hr in Hp.
Qed.

Lemma ProcessString_wf_witness :
  let s := Recorder.machine false in
  let str := [0x1B; 0x50; 0x31; 0x3B; 0x32; 0x71; 0x61] in
  bounded (ProcessString str s).1 /\
  ((ProcessString str s).2 = Ok tt -> wf (ProcessString str s).1).
Proof.
  apply ProcessString_wf; [|apply Recorder.machine_wf].
  repeat constructor; unfold is_wchar; lia.
Defined.
