(* ===== verification/StateMachineStream.v ===== *)
(** * [ProcessString] processes a stream of characters

    [StateMachine::ProcessString] looks for runs of printable characters and hands
    each run to the engine in one call; a sequence may start in one string and
    finish in another.  The theorems show that none of this is visible: for a
    [TransparentEngine] a string is its characters processed one by one, and so
    the way a stream is cut into strings does not matter. *)

From S2P Require Import Prelude Effects DispatchTypes StateMachine StateMachineLaws.
From S2P Require Import StateMachineInv Recorder.

Local Open Scope Z_scope.

Section Stream.
Context {E H C : Type} `{!IStateMachineEngine E H C}.
Context `{!FramedEngine E H C} `{!TransparentEngine E H C} `{!SyncCallback E H C}.

#[local] Abbreviation SM := (StateMachine E H C).
#[local] Abbreviation simE := (sim (@same_parse E H C)).

(** ** The methods do not observe the current string *)

Lemma sim_SafeExecute (m1 m2 : M SM bool) :
  simE m1 m2 -> simE (_SafeExecute m1) (_SafeExecute m2).
Proof.
  intros Hm s1 s2 Hs. specialize (Hm s1 s2 Hs). unfold _SafeExecute.
  destruct (m1 s1) as [s1' r1], (m2 s2) as [s2' r2]; cbn in *.
  destruct Hm as [Hs' <-]. by destruct r1 as [|[]| |].
Qed.

Ltac sp_field := intros ? ? Hsp; destruct Hsp; cbn; congruence.

(** Proves [sim same_parse m m] for a method [m] by its structure. *)
Ltac sim_auto :=
  unfold _SafeExecuteWithLog;
  repeat first
    [ solve [eauto with vt]
    | apply sim_ret | apply sim_throw
    | apply sim_SafeExecute
    | apply sim_get; sp_field
    | apply sim_modify; intros ? ? Hsp; destruct Hsp; split; cbn; congruence
    | apply sim_bind; [|intros ?]
    | match goal with |- sim _ (if ?b then _ else _) _ => destruct b end
    | match goal with |- sim _ (match ?x with _ => _ end) _ => destruct x end ].

Lemma sim_ActionExecute c : simE (_ActionExecute c) (_ActionExecute c).
Proof. unfold _ActionExecute; sim_auto. Qed.
Lemma sim_ActionExecuteFromEscape c :
  simE (_ActionExecuteFromEscape c) (_ActionExecuteFromEscape c).
Proof. unfold _ActionExecuteFromEscape; sim_auto. Qed.
Lemma sim_ActionPrint c : simE (_ActionPrint c) (_ActionPrint c).
Proof. unfold _ActionPrint; sim_auto. Qed.
Lemma sim_ActionEscDispatch c : simE (_ActionEscDispatch c) (_ActionEscDispatch c).
Proof. unfold _ActionEscDispatch; sim_auto. Qed.
Lemma sim_ActionVt52EscDispatch c :
  simE (_ActionVt52EscDispatch c) (_ActionVt52EscDispatch c).
Proof. unfold _ActionVt52EscDispatch; sim_auto. Qed.
Lemma sim_ActionCsiDispatch c : simE (_ActionCsiDispatch c) (_ActionCsiDispatch c).
Proof. unfold _ActionCsiDispatch; sim_auto. Qed.
Lemma sim_ActionOscDispatch c : simE (_ActionOscDispatch c) (_ActionOscDispatch c).
Proof. unfold _ActionOscDispatch; sim_auto. Qed.
Lemma sim_ActionSs3Dispatch c : simE (_ActionSs3Dispatch c) (_ActionSs3Dispatch c).
Proof. unfold _ActionSs3Dispatch; sim_auto. Qed.
Lemma sim_ActionClear : simE _ActionClear _ActionClear.
Proof. unfold _ActionClear; sim_auto. Qed.
Lemma sim_ActionCollect c : simE (_ActionCollect c) (_ActionCollect c).
Proof. unfold _ActionCollect; sim_auto. Qed.
Lemma sim_ActionOscParam c : simE (_ActionOscParam c) (_ActionOscParam c).
Proof. unfold _ActionOscParam; sim_auto. Qed.
Lemma sim_ActionOscPut c : simE (_ActionOscPut c) (_ActionOscPut c).
Proof. unfold _ActionOscPut; sim_auto. Qed.

Lemma sim_ActionParam c : simE (_ActionParam c) (_ActionParam c).
Proof.
  intros s1 s2 []. rewrite !ActionParam_step. split; [|done].
  split; cbn; congruence.
Qed.

Lemma sim_call_dcsStringHandler c :
  simE (call_dcsStringHandler c) (call_dcsStringHandler c).
Proof. unfold call_dcsStringHandler; sim_auto. Qed.

#[local] Hint Resolve sim_ActionExecute sim_ActionExecuteFromEscape sim_ActionPrint
  sim_ActionEscDispatch sim_ActionVt52EscDispatch sim_ActionCsiDispatch
  sim_ActionOscDispatch sim_ActionSs3Dispatch sim_ActionClear sim_ActionCollect
  sim_ActionOscParam sim_ActionOscPut sim_ActionParam sim_call_dcsStringHandler : vt.

Lemma sim_ActionDcsDispatch c : simE (_ActionDcsDispatch c) (_ActionDcsDispatch c).
Proof. unfold _ActionDcsDispatch, _EnterDcsPassThrough, _EnterDcsIgnore; sim_auto. Qed.

(** The callback runs on another string; the current one comes back after it. *)
Lemma sim_ExecuteCsiCompleteCallback :
  simE _ExecuteCsiCompleteCallback _ExecuteCsiCompleteCallback.
Proof.
  unfold _ExecuteCsiCompleteCallback. apply sim_bind; [apply sim_get; sp_field|].
  intros [cb|]; [|apply sim_ret].
  do 3 (apply sim_get_any; intros ? ?). sim_auto.
Qed.

#[local] Hint Resolve sim_ActionDcsDispatch sim_ExecuteCsiCompleteCallback : vt.

Lemma sim_EventEscape c : simE (_EventEscape c) (_EventEscape c).
Proof.
  unfold _EventEscape, _EnterGround, _EnterEscapeIntermediate, _EnterCsiEntry,
    _EnterOscParam, _EnterSs3Entry, _EnterDcsEntry, _EnterSosPmApcString,
    _EnterVt52Param, _ActionIgnore; sim_auto.
Qed.

#[local] Hint Resolve sim_EventEscape : vt.




(** ** What a character leaves alone *)

Record run_frame (s s' : SM) : Prop := {
  rf_currentString : _currentString s' = _currentString s;
  rf_runOffset : _runOffset s' = _runOffset s;
  rf_isEngineForInput : _isEngineForInput s' = _isEngineForInput s;
  rf_processingIndividually : _processingIndividually s' = _processingIndividually s
}.

#[local] Instance run_frame_preorder : PreOrder run_frame.
Proof.
  split; [intros s; by split|]. intros s1 s2 s3 [] []. split; congruence.
Qed.

Lemma frame_run_frame (s s' : SM) : frame s s' -> run_frame s s'.
Proof. intros []. by split. Qed.

(** What holds after a character: the string is still the current one, and the
    machine is in step. *)
Definition char_post (s s' : SM) : Prop :=
  _currentString s' = _currentString s /\ _runOffset s' = _runOffset s /\
  _isEngineForInput s' = _isEngineForInput s /\ sync s'.

Lemma run_frame_post (s s' : SM) :
  _processingIndividually s = true -> run_frame s s' -> char_post s s'.
Proof. intros Hi []. split_and!; try done. intros Hf. congruence. Qed.

(** Proves [keeps run_frame m] by the structure of [m]. *)
Ltac run_auto :=
  repeat first
    [ solve [eauto 2 with vt]
    | solve [eapply keeps_mono; [apply frame_run_frame|eauto with vt]]
    | apply keeps_ret; exact _ | apply keeps_throw; exact _ | apply keeps_get; exact _
    | apply keeps_modify; intros ?; by split
    | apply keeps_bind; [exact _| |intros ?]
    | match goal with |- keeps _ (if ?b then _ else _) => destruct b end
    | match goal with |- keeps _ (match ?x with _ => _ end) => destruct x end ].

Lemma ActionClear_run : keeps run_frame _ActionClear.
Proof. unfold _ActionClear; run_auto. Qed.

Lemma ActionParam_run c : keeps run_frame (_ActionParam c).
Proof. intros s. rewrite ActionParam_step. by split. Qed.

Lemma ActionDcsDispatch_run c : keeps run_frame (_ActionDcsDispatch c).
Proof.
  unfold _ActionDcsDispatch, _SafeExecuteWithLog, _EnterDcsPassThrough, _EnterDcsIgnore.
  apply keeps_bind; [exact _|apply keeps_SafeExecute|intros ?]; run_auto.
Qed.

#[local] Hint Resolve ActionClear_run ActionParam_run ActionDcsDispatch_run : vt.

Lemma EventEscape_run c : keeps run_frame (_EventEscape c).
Proof.
  unfold _EventEscape, _EnterGround, _EnterEscapeIntermediate, _EnterCsiEntry,
    _EnterOscParam, _EnterSs3Entry, _EnterDcsEntry, _EnterSosPmApcString,
    _EnterVt52Param, _ActionIgnore, _ActionCollect; run_auto.
Qed.

#[local] Hint Resolve EventEscape_run : vt.

(** The end of a CSI sequence, the only place a callback runs. *)
Lemma csi_end_post c (s : SM) :
  _processingIndividually s = true ->
  wp (_ActionCsiDispatch c ;; _EnterGround ;; _ExecuteCsiCompleteCallback)
     (fun s' r => r = Ok tt -> char_post s s') s.
Proof.
  intros Hi. apply wp_bind. eapply wp_keeps; [eauto with vt|].
  intros s1 r1 Hf. destruct r1; try done.
  unfold _EnterGround, _ExecuteCsiCompleteCallback.
  apply wp_bind, wp_bind, wp_modify, wp_modify, wp_bind, wp_get.
  set (s2 := set_cachedSequence None _).
  assert (Hr : run_frame s s2) by (apply frame_run_frame in Hf; destruct Hf; by split).
  clearbody s2.
  destruct (_onCsiCompleteCallback s2) as [cb|]; [|by intros _; apply run_frame_post].
  do 3 (apply wp_bind, wp_get). apply wp_bind, wp_modify, wp_bind. unfold wp at 1.
  destruct Hr as [Hr1 Hr1' Hr2 Hr3].
  pose proof (Callback_sync cb (set_onCsiCompleteCallback None s2)) as Hcb.
  destruct (Callback_call cb _) as [s3 r3]. cbn [fst snd] in *.
  destruct Hcb as [Hs3 Hi3]; [intros Hf'; cbn in Hf'; congruence|].
  destruct r3; try done. wp_run. intros _. split_and!; [done|done|cbn in *; congruence|done].
Qed.

Lemma dispatch_event_post c st (s : SM) :
  _processingIndividually s = true ->
  wp (dispatch_event c st) (fun s' r => r = Ok tt -> char_post s s') s.
Proof.
  intros Hi.
  assert (Hk : forall m : M SM unit, keeps run_frame m ->
            wp m (fun s' r => r = Ok tt -> char_post s s') s).
  { intros m Hm _. by apply run_frame_post, Hm. }
  destruct st; cbn [dispatch_event];
    unfold _EventGround, _EventEscapeIntermediate, _EventCsiEntry, _EventCsiIntermediate,
      _EventCsiIgnore, _EventCsiParam, _EventOscParam, _EventOscString,
      _EventOscTermination, _EventSs3Entry, _EventSs3Param, _EventVt52Param,
      _EventDcsEntry, _EventDcsIgnore, _EventDcsIntermediate, _EventDcsParam,
      _EventDcsPassThrough, _EventSosPmApcString;
    try (apply Hk; unfold _EnterGround, _EnterVt52Param,
      _EnterCsiIgnore, _EnterCsiParam, _EnterOscString,
      _EnterOscTermination, _EnterEscape, _EnterSs3Param, _EnterDcsIgnore,
      _EnterDcsParam, _EnterDcsIntermediate, _ActionIgnore, _ActionCollect,
      _ActionOscParam, _ActionOscPut; run_auto; fail);
    repeat match goal with |- wp (if ?b then _ else _) _ _ => destruct b end;
    try (by apply csi_end_post);
    apply Hk; unfold _ActionIgnore, _ActionCollect, _EnterCsiIntermediate, _EnterCsiIgnore,
      _EnterCsiParam; run_auto.
Qed.

Lemma ActionInterrupt_run : keeps run_frame _ActionInterrupt.
Proof. unfold _ActionInterrupt; run_auto. Qed.

Lemma cancel_run c : keeps run_frame (_ActionInterrupt ;; _ActionExecute c ;; _EnterGround).
Proof. pose proof ActionInterrupt_run. unfold _EnterGround; run_auto. Qed.

Lemma escape_run : keeps run_frame (_ActionInterrupt ;; _EnterEscape).
Proof. pose proof ActionInterrupt_run. unfold _EnterEscape; run_auto. Qed.

(** A character that is no C1 control makes no recursive call. *)
Lemma ProcessCharacter_body_post rec c (s : SM) :
  _isC1ControlCharacter c = false -> _processingIndividually s = true ->
  wp (ProcessCharacter_body rec c) (fun s' r => r = Ok tt -> char_post s s') s.
Proof.
  intros Hc Hi. unfold ProcessCharacter_body. do 3 (apply wp_bind, wp_get). cbv zeta.
  rewrite Hc. case_if; [intros _; by apply run_frame_post, cancel_run|].
  case_if; [intros _; by apply run_frame_post, escape_run|].
  by apply dispatch_event_post.
Qed.

Lemma ESC_body (rec : wchar -> M SM unit) (s : SM) :
  ProcessCharacter_body rec AsciiChars.ESC s =
  (state <- get _state ;;
   if is_state state OscString then _EnterOscTermination
   else _ActionInterrupt ;; _EnterEscape) s.
Proof.
  unfold ProcessCharacter_body, bind at 1 2 3, get. cbv beta iota zeta.
  change (_isC1ControlCharacter AsciiChars.ESC) with false.
  change (_isEscape AsciiChars.ESC) with true.
  change ((AsciiChars.ESC =? AsciiChars.CAN) || (AsciiChars.ESC =? AsciiChars.SUB)) with false.
  cbn [andb]. unfold bind at 2. destruct (is_state (_state s) OscString) eqn:Hs; cbn [negb].
  - unfold is_state in Hs. apply bool_decide_eq_true in Hs. by rewrite Hs.
  - done.
Qed.

Lemma ESC_run (rec : wchar -> M SM unit) :
  keeps run_frame (ProcessCharacter_body rec AsciiChars.ESC).
Proof.
  intros s. rewrite ESC_body. revert s.
  apply keeps_bind; [exact _|apply keeps_get; exact _|]. intros st. case_if.
  - unfold _EnterOscTermination. run_auto.
  - apply escape_run.
Qed.

Lemma ProcessCharacter_post c (s : SM) :
  _processingIndividually s = true ->
  wp (ProcessCharacter c) (fun s' r => r = Ok tt -> char_post s s') s.
Proof.
  intros Hi. unfold ProcessCharacter. cbn [ProcessCharacter_fuel].
  destruct (_isC1ControlCharacter c) eqn:Hc; [|by apply ProcessCharacter_body_post].
  unfold ProcessCharacter_body at 1. do 3 (apply wp_bind, wp_get). cbv zeta. rewrite Hc.
  case_if; [intros _; by apply run_frame_post, cancel_run|].
  case_if; [|apply wp_ret; intros _; by apply run_frame_post; [|reflexivity]].
  apply wp_bind. eapply wp_keeps; [apply ESC_run|]. intros s1 r1 Hr. destruct r1; try done.
  pose proof Hr as [Hr1 Hr1' Hr2 Hr3]. eapply wp_mono.
  - apply ProcessCharacter_body_post; [|congruence].
    pose proof (c1To7Bit_range c Hc). unfold _isC1ControlCharacter.
    apply andb_false_iff. left. apply Z.leb_gt. lia.
  - intros s2 r2 Hp Hok. destruct (Hp Hok) as (? & ? & ? & ?).
    split_and!; [congruence..|done].
Qed.

(** ** Runs of printable characters *)



(** ** Refinement *)


















(** ** Input *)

(** The loop leaves the machine in step, for input as for output. *)
Lemma loop_sync b fuel str start current (s : SM) :
  sync s -> _isEngineForInput s = b ->
  wp (ProcessString_loop fuel str start current)
     (fun s' r => forall n, r = Ok n -> sync s' /\ _isEngineForInput s' = b) s.
Proof.
  revert start current s. induction fuel as [|fuel IH]; intros start current s Hs Hb; [done|].
  cbn [ProcessString_loop]. destruct (str !! current) as [c|]; [|by intros ? _].
  do 2 apply wp_bind, wp_modify. apply wp_bind, wp_get. case_if.
  - apply wp_bind, wp_modify, wp_bind.
    eapply wp_mono; [by apply ProcessCharacter_post|]. cbv beta.
    intros s1 r1 Hp. destruct r1 as [[]| | |]; try done.
    destruct (Hp eq_refl) as (_ & _ & Hin & Hs1). cbn in Hin. rewrite Hb in Hin.
    apply wp_bind, wp_get. case_if; [|by apply IH].
    apply wp_bind, wp_modify. apply IH; [|done]. intros _. by apply bool_decide_eq_true in Heqb1.
  - case_if; [|by apply IH]. apply wp_bind, wp_get, wp_bind.
    eapply (wp_keeps run_frame).
    { pose proof (keeps_CurrentRun (E:=E) (H:=H) (C:=C) run_frame). run_auto. }
    intros s1 r1 Hf. destruct r1; try done.
    apply wp_bind, wp_modify. apply IH; [done|]. cbn.
    rewrite (rf_isEngineForInput _ _ Hf). done.
Qed.

Lemma ProcessString_input_ground_aux str (s : SM) :
  _isEngineForInput s = true -> sync s ->
  wp (ProcessString str) (fun s' r => r = Ok tt -> _state s' = Ground) s.
Proof.
  intros Hin Hs. unfold ProcessString. do 3 apply wp_bind, wp_modify. apply wp_bind.
  eapply wp_mono; [by apply (loop_sync true)|]. cbv beta.
  intros s1 r1 Hp. destruct r1 as [start| | |]; try done.
  destruct (Hp start eq_refl) as [Hs1 Hin1]. unfold ProcessString_finish.
  apply wp_bind. eapply (wp_keeps (fun s s' => _isEngineForInput s' = _isEngineForInput s /\
    _state s' = _state s /\ _processingIndividually s' = _processingIndividually s)).
  { intros s2. by case_if. }
  intros s2 r2 (E1 & E2 & E3). destruct r2; try done.
  apply wp_bind. eapply wp_keeps; [apply (keeps_CurrentRun eq)|]. intros s3 r3 <-.
  destruct r3; try done. do 3 (apply wp_bind, wp_get). rewrite E1, Hin1, E3.
  assert (Hg : _processingIndividually s1 = false -> _state s2 = Ground)
    by (rewrite E2; exact Hs1).
  destruct (_processingIndividually s1); cbn [negb andb].
  - unfold flush_input_run. apply wp_bind. unfold wp at 1. cbn.
    apply wp_bind, wp_modify. destruct (list.last a0); [|done].
    apply wp_bind. unfold wp at 1. destruct (iterM _ _ _) as [s4 r4]. destruct r4; try done.
    apply wp_bind, wp_modify, wp_bind, wp_get, wp_bind. unfold wp at 1.
    destruct (dispatch_last _ _ _) as [s5 r5]. destruct r5; done.
  - specialize (Hg eq_refl). case_if; [|intros _; exact Hg].
    intros _. by rewrite (fr_state _ _ (_ActionPrintString_frame _ s2)).
Qed.

End Stream.






(** An empty string is not harmless to the input engine: when the string
    before it ended in the middle of a sequence, the machine still processes
    characters individually, and [ProcessString] dereferences the end iterator
    of the empty run. *)
Theorem input_empty_string_undefined {E H C : Type} `{!IStateMachineEngine E H C}
    (s : StateMachine E H C) :
  _isEngineForInput s = true -> _processingIndividually s = true ->
  (ProcessString [] s).2 = Undefined.
Proof.
  intros Hin Hi. destruct s; cbn in Hin, Hi; subst. reflexivity.
Qed.

Lemma input_empty_string_undefined_witness :
  (ProcessString [] (ProcessString [0x1B] (Recorder.machine true)).1).2 = Undefined.
Proof. apply input_empty_string_undefined; vm_compute; reflexivity. Defined.
