(* ===== verification/StateMachineSeq.v ===== *)
(** * Control sequences, from text to dispatch

    For each kind of control sequence, what the machine hands to its engine when
    it reads the sequence's text, from whatever state it reads it. *)

From S2P Require Import Prelude Effects EnumSet DispatchTypes StateMachine StateMachineLaws.
From S2P Require Import StateMachineInv Recorder.

Local Open Scope Z_scope.

(** ** Characters *)

(** A character the machine passes to the current state: no CAN or SUB, no ESC,
    no C1 control. *)
Definition is_ordinary (c : wchar) : Prop :=
  c <> AsciiChars.CAN /\ c <> AsciiChars.SUB /\ c <> AsciiChars.ESC /\
  _isC1ControlCharacter c = false.

(** The graphic characters of ASCII, which the sequences are made of. *)
Definition is_plain (c : wchar) : Prop := 0x20 <= c < 0x80.

Lemma plain_ordinary c : is_plain c -> is_ordinary c.
Proof.
  unfold is_plain, is_ordinary, AsciiChars.CAN, AsciiChars.SUB, AsciiChars.ESC.
  intros Hc. split_and!; try lia. unfold _isC1ControlCharacter.
  apply andb_false_iff. left. apply Z.leb_gt. lia.
Qed.

Section Characters.
Context {E H C : Type} `{!IStateMachineEngine E H C}.

#[local] Abbreviation SM := (StateMachine E H C).

Lemma ProcessCharacter_ordinary c (s : SM) :
  is_ordinary c -> ProcessCharacter c s = dispatch_event c (_state s) s.
Proof.
  intros (H1 & H2 & H3 & H4). unfold ProcessCharacter. cbn [ProcessCharacter_fuel].
  unfold ProcessCharacter_body at 1. unfold bind at 1 2 3, get. rewrite H4.
  unfold _isEscape. apply Z.eqb_neq in H1, H2, H3. by rewrite H1, H2, H3.
Qed.

Lemma ProcessCharacter_plain c (s : SM) :
  is_plain c -> ProcessCharacter c s = dispatch_event c (_state s) s.
Proof. intros Hc. by apply ProcessCharacter_ordinary, plain_ordinary. Qed.

Lemma ProcessCharacter_ESC (s : SM) :
  ProcessCharacter AsciiChars.ESC s =
  (if is_state (_state s) OscString then _EnterOscTermination
   else _ActionInterrupt ;; _EnterEscape) s.
Proof.
  unfold ProcessCharacter. cbn [ProcessCharacter_fuel].
  unfold ProcessCharacter_body at 1. unfold bind at 1 2 3, get.
  cbn [orb andb negb Z.eqb _isC1ControlCharacter].
  destruct (_state s); reflexivity.
Qed.

End Characters.

(** Evaluates the character tests of a handler for a character [c] whose range is
    known: every comparison with a constant is decided by [lia]. *)
Ltac eval_tests c :=
  repeat match goal with
  | |- context [(?k <=? c)] =>
      first [ replace (k <=? c) with true by (symmetry; apply Z.leb_le; lia)
            | replace (k <=? c) with false by (symmetry; apply Z.leb_gt; lia) ]
  | |- context [(c <=? ?k)] =>
      first [ replace (c <=? k) with true by (symmetry; apply Z.leb_le; lia)
            | replace (c <=? k) with false by (symmetry; apply Z.leb_gt; lia) ]
  | |- context [(c =? ?k)] =>
      first [ replace (c =? k) with true by (symmetry; apply Z.eqb_eq; lia)
            | replace (c =? k) with false by (symmetry; apply Z.eqb_neq; lia) ]
  end; cbn [andb orb negb].

Ltac unfold_tests :=
  unfold _isC0Code, _isDelete, _isIntermediate, _isCsiInvalid, _isNumericParamValue,
    _isParameterDelimiter, _isCsiPrivateMarker, _isIntermediateInvalid,
    _isParameterInvalid, _isNumericParamValue, _isCsiInvalid, _isParameterDelimiter,
    _isCsiPrivateMarker, AsciiChars.NUL, AsciiChars.ETB, AsciiChars.EM, AsciiChars.FS,
    AsciiChars.US, AsciiChars.DEL.

(** ** Parameters *)

(** The digits of one parameter; no digit is an omitted parameter. *)
Abbreviation digits := (list Z) (only parsing).

Definition is_digit (c : wchar) : Prop := 0x30 <= c <= 0x39.

Definition decimal (ds : digits) : Z := foldl (fun v c => v * 10 + (c - 0x30)) 0 ds.

(** What a parameter's text stands for: values past the maximum saturate. *)
Definition param_of (ds : digits) : VTParameter :=
  match ds with
  | [] => VTParameter_default
  | _ => Z.min (decimal ds) MAX_PARAMETER_VALUE
  end.

(** The text of a list of parameters, separated by semicolons. *)
Fixpoint params_text (pss : list digits) : wstring :=
  match pss with
  | [] => []
  | [ds] => ds
  | ds :: pss => ds ++ 0x3B :: params_text pss
  end.

(** What the text stands for: no text is no parameter, and parameters past the
    32nd are dropped. *)
Definition params_of (pss : list digits) : VTParameters :=
  if bool_decide (params_text pss = []) then []
  else take MAX_PARAMETER_COUNT (param_of <$> pss).

(** The parameters collected from a text. *)
Definition collect (text : wstring) (acc : list VTParameter * bool)
    : list VTParameter * bool :=
  foldl (fun '(ps, l) c => param_step c ps l) acc text.

Lemma collect_app t1 t2 acc : collect (t1 ++ t2) acc = collect t2 (collect t1 acc).
Proof. apply foldl_app. Qed.

Lemma collect_limit t ps : collect t (ps, true) = (ps, true).
Proof. induction t as [|c t IH]; [done|]. exact IH. Qed.

Lemma decimal_app ds c : decimal (ds ++ [c]) = decimal ds * 10 + (c - 0x30).
Proof. unfold decimal. by rewrite foldl_app. Qed.

Lemma decimal_nonneg ds : Forall is_digit ds -> 0 <= decimal ds.
Proof.
  induction ds as [|c ds IH] using rev_ind; [done|].
  rewrite Forall_app, Forall_singleton, decimal_app. unfold is_digit. intros [? ?].
  specialize (IH ltac:(done)). lia.
Qed.

(** A digit extends the parameter being collected. *)
Lemma param_step_digit c ps ds :
  Forall is_digit ds -> is_digit c ->
  param_step c (ps ++ [param_of ds]) false = (ps ++ [param_of (ds ++ [c])], false).
Proof.
  intros Hds Hc. pose proof (decimal_nonneg _ Hds) as Hd.
  assert (Hne : forall p, match ps ++ [p] with
                | [] => [VTParameter_default] | _ => ps ++ [p] end = ps ++ [p])
    by (by destruct ps).
  unfold param_step. rewrite Hne. unfold _isParameterDelimiter.
  unfold is_digit in Hc. destruct (Z.eqb_spec c 59); [lia|].
  unfold set_back. rewrite removelast_last, last_last. do 3 f_equal.
  assert (Hnum : _isNumericParamValue c = true)
    by (unfold _isNumericParamValue; apply andb_true_iff; rewrite !Z.leb_le; lia).
  assert (Hparam : param_of (ds ++ [c]) = Z.min (decimal (ds ++ [c])) MAX_PARAMETER_VALUE)
    by (by destruct ds).
  rewrite Hparam, decimal_app.
  destruct ds as [|d ds]; cbn [param_of]; unfold value_or, VTParameter_default.
  - rewrite AccumulateTo_spec; [done|done|unfold MAX_PARAMETER_VALUE; cbn; lia].
  - unfold MAX_PARAMETER_VALUE in *. case_if; bool_prop; [lia|].
    rewrite AccumulateTo_spec; unfold MAX_PARAMETER_VALUE; [lia|done|lia].
Qed.

Lemma collect_digits ds' ps ds :
  Forall is_digit ds -> Forall is_digit ds' ->
  collect ds' (ps ++ [param_of ds], false) = (ps ++ [param_of (ds ++ ds')], false).
Proof.
  intros Hds Hds'; revert ds Hds. induction Hds' as [|c ds' Hc _ IH]; intros ds Hds.
  - by rewrite app_nil_r.
  - unfold collect. cbn [foldl]. rewrite param_step_digit by done.
    fold (collect ds' (ps ++ [param_of (ds ++ [c])], false)). rewrite IH.
    + by rewrite <- app_assoc.
    + apply Forall_app; split; [done|by constructor].
Qed.

Lemma param_step_delimiter p ps :
  param_step 0x3B (ps ++ [p]) false =
  if (MAX_PARAMETER_COUNT <=? S (length ps))%nat then (ps ++ [p], true)
  else ((ps ++ [p]) ++ [VTParameter_default], false).
Proof.
  unfold param_step.
  replace (match ps ++ [p] with [] => [VTParameter_default] | _ => ps ++ [p] end)
    with (ps ++ [p]) by (by destruct ps).
  change (_isParameterDelimiter 0x3B) with true. cbv iota.
  rewrite length_app, Nat.add_1_r. done.
Qed.

Lemma collect_params_text pss ps :
  pss <> [] -> Forall (Forall is_digit) pss -> (length ps < MAX_PARAMETER_COUNT)%nat ->
  collect (params_text pss) (ps ++ [VTParameter_default], false) =
  (take MAX_PARAMETER_COUNT (ps ++ (param_of <$> pss)),
   (MAX_PARAMETER_COUNT <? length ps + length pss)%nat).
Proof.
  intros Hne Hpss. revert ps. induction Hpss as [|ds pss Hds Hpss IH]; [done|].
  intros ps Hlen. change VTParameter_default with (param_of []).
  destruct pss as [|ds2 pss].
  - cbn [params_text fmap list_fmap length]. rewrite collect_digits by (by auto).
    cbn [app]. rewrite take_ge by (rewrite length_app; cbn; lia).
    f_equal. symmetry. apply Nat.ltb_ge. lia.
  - change (params_text (ds :: ds2 :: pss)) with (ds ++ 0x3B :: params_text (ds2 :: pss)).
    rewrite collect_app, collect_digits by (by auto). cbn [app].
    change (collect (0x3B :: ?t) (?a, false)) with (collect t (param_step 0x3B a false)).
    rewrite param_step_delimiter.
    destruct (Nat.leb_spec MAX_PARAMETER_COUNT (S (length ps))) as [Hl|Hl].
    + rewrite collect_limit. f_equal.
      * change (param_of <$> ds :: ds2 :: pss) with ([param_of ds] ++ (param_of <$> ds2 :: pss)).
        rewrite app_assoc, take_app_le by (rewrite length_app; cbn; lia).
        rewrite take_ge; [done|rewrite length_app; cbn; lia].
      * symmetry. apply Nat.ltb_lt. cbn [length]. lia.
    + rewrite IH; [|done|rewrite length_app; cbn; lia].
      rewrite <- app_assoc. cbn [app fmap list_fmap]. f_equal.
      rewrite length_app. cbn [length]. f_equal. lia.
Qed.

Lemma collect_text pss :
  Forall (Forall is_digit) pss -> params_text pss <> [] ->
  collect (params_text pss) ([], false) =
  (params_of pss, (MAX_PARAMETER_COUNT <? length pss)%nat).
Proof.
  intros Hpss Hne. unfold params_of. rewrite bool_decide_false by done.
  pose proof (collect_params_text pss []) as Hc. cbn [app length Nat.add] in Hc.
  rewrite <- Hc; [|by destruct pss|done|unfold MAX_PARAMETER_COUNT; lia].
  by destruct (params_text pss).
Qed.

(** The characters of a parameter text. *)
Definition is_param_char (c : wchar) : Prop := is_digit c \/ c = 0x3B.

Lemma params_text_chars pss :
  Forall (Forall is_digit) pss -> Forall is_param_char (params_text pss).
Proof.
  assert (Hd : forall ds, Forall is_digit ds -> Forall is_param_char ds)
    by (intros ds; apply Forall_impl; by left).
  induction 1 as [|ds pss Hds Hpss IH]; [constructor|].
  destruct pss; cbn [params_text]; [auto|]. apply Forall_app; split; [auto|].
  constructor; [by right|done].
Qed.

(** ** Collecting a sequence *)

Section Sequences.
Context {E H C : Type} `{!IStateMachineEngine E H C}.

#[local] Abbreviation SM := (StateMachine E H C).

(** The machine [s] in the state [st] with this much of a sequence collected. *)
Definition load (st : VTStates) (b : VTIDBuilder) (pl : list VTParameter * bool) (s : SM) : SM :=
  set_state st (set_identifier b (set_parameters pl.1 (set_parameterLimitReached pl.2 s))).

Lemma load_id (s : SM) :
  s = load (_state s) (_identifier s) (_parameters s, _parameterLimitReached s) s.
Proof. by destruct s. Qed.

(** States in which a CSI (or DCS) sequence may still take parameters. *)
Definition csi_open (st : VTStates) : bool :=
  match st with CsiEntry | CsiParam => true | _ => false end.

Lemma csi_param_char c st b pl (s : SM) :
  is_param_char c -> csi_open st = true ->
  ProcessCharacter c (load st b pl s) = (load CsiParam b (param_step c pl.1 pl.2) s, Ok tt).
Proof.
  intros Hc Hst.
  assert (Hp : is_plain c) by (unfold is_plain, is_param_char, is_digit in *; lia).
  rewrite ProcessCharacter_plain by done.
  assert (Hn : _isNumericParamValue c || _isParameterDelimiter c = true).
  { unfold _isNumericParamValue, _isParameterDelimiter. apply orb_true_iff.
    rewrite andb_true_iff, !Z.leb_le, Z.eqb_eq. unfold is_param_char, is_digit in Hc. lia. }
  assert (Ht : _isC0Code c = false /\ _isDelete c = false /\ _isIntermediate c = false /\
               _isCsiInvalid c = false).
  { unfold is_plain, is_param_char, is_digit in *. unfold_tests.
    split_and!; destruct Hc; eval_tests c; done. }
  destruct Ht as (H0 & H1 & H2 & H3).
  destruct st; try done; cbn [dispatch_event _state load set_state];
    unfold _EventCsiEntry, _EventCsiParam; rewrite H0, H1, ?H2, ?H3, Hn.
  - unfold bind. rewrite ActionParam_step. done.
  - rewrite ActionParam_step. done.
Qed.

Lemma csi_param_text t st b pl (s : SM) :
  Forall is_param_char t -> csi_open st = true ->
  iterM ProcessCharacter t (load st b pl s) =
  (load (if bool_decide (t = []) then st else CsiParam) b (collect t pl) s, Ok tt).
Proof.
  intros Ht; revert st pl. induction Ht as [|c t Hc Ht IH]; intros st pl Hst.
  - by destruct pl.
  - cbn [iterM]. rewrite (bind_Ok _ _ _ _ _ (csi_param_char c st b pl s Hc Hst)).
    rewrite IH by done. destruct pl as [ps l]. f_equal. f_equal. by case_bool_decide.
Qed.

(** States in which a CSI sequence may still take intermediates. *)
Definition csi_unfinished (st : VTStates) : bool :=
  match st with CsiEntry | CsiParam | CsiIntermediate => true | _ => false end.

Definition is_intermediate (c : wchar) : Prop := 0x20 <= c <= 0x2F.

Definition is_marker (c : wchar) : Prop := 0x3C <= c <= 0x3F.

Definition is_final (c : wchar) : Prop := 0x40 <= c < 0x7F.

Lemma csi_intermediate c st b pl (s : SM) :
  is_intermediate c -> csi_unfinished st = true ->
  ProcessCharacter c (load st b pl s) = (load CsiIntermediate (AddIntermediate b c) pl s, Ok tt).
Proof.
  intros Hc Hst. unfold is_intermediate in Hc.
  rewrite ProcessCharacter_plain by (unfold is_plain; lia).
  destruct st; try done; cbn [dispatch_event _state load set_state];
    unfold _EventCsiEntry, _EventCsiParam, _EventCsiIntermediate; unfold_tests;
    eval_tests c; done.
Qed.

Lemma csi_intermediates ims st b pl (s : SM) :
  Forall is_intermediate ims -> csi_unfinished st = true ->
  iterM ProcessCharacter ims (load st b pl s) =
  (load (if bool_decide (ims = []) then st else CsiIntermediate)
        (foldl AddIntermediate b ims) pl s, Ok tt).
Proof.
  intros Hims; revert st b. induction Hims as [|c ims Hc _ IH]; intros st b Hst; [done|].
  cbn [iterM]. rewrite (bind_Ok _ _ _ _ _ (csi_intermediate c st b pl s Hc Hst)).
  rewrite IH by done. f_equal. f_equal. by case_bool_decide.
Qed.

Lemma csi_marker_char c b pl (s : SM) :
  is_marker c ->
  ProcessCharacter c (load CsiEntry b pl s) = (load CsiParam (AddIntermediate b c) pl s, Ok tt).
Proof.
  intros Hc. unfold is_marker in Hc. rewrite ProcessCharacter_plain by (unfold is_plain; lia).
  cbn [dispatch_event _state load set_state]. unfold _EventCsiEntry. unfold_tests.
  assert (c = 60 \/ c = 61 \/ c = 62 \/ c = 63) as [->|[->|[->| ->]]] by lia; done.
Qed.

Lemma csi_final_char c (s : SM) :
  is_final c -> csi_unfinished (_state s) = true ->
  ProcessCharacter c s =
  (_ActionCsiDispatch c ;; _EnterGround ;; _ExecuteCsiCompleteCallback) s.
Proof.
  intros Hc Hst. unfold is_final in Hc. rewrite ProcessCharacter_plain by (unfold is_plain; lia).
  destruct (_state s); try done; cbn [dispatch_event];
    unfold _EventCsiEntry, _EventCsiParam, _EventCsiIntermediate; unfold_tests;
    eval_tests c; done.
Qed.

(** ** The start of a sequence *)

Context `{!QuietClear E H C}.

(** The machine with everything it had collected forgotten. *)
Definition forget (s : SM) : SM :=
  set_dcsStringHandler None (set_oscParameter 0 (set_oscString [] s)).

Lemma enter_cleared st (s : SM) :
  (modify (set_state st) ;; _ActionClear) s =
  (load st VTIDBuilder_Clear ([], false) (forget s), Ok tt).
Proof. unfold _ActionClear, bind, modify. rewrite ActionClear_quiet. done. Qed.

(** ESC starts afresh from every state but a DCS data string, which it ends. *)
Lemma escape_start c (s : SM) :
  is_plain c -> c <> 0x5C -> _state s <> DcsPassThrough ->
  iterM ProcessCharacter [AsciiChars.ESC; c] s =
  (_EventEscape c ;; ret tt) (load Escape VTIDBuilder_Clear ([], false) (forget s)).
Proof.
  intros Hc Hnst Hs. cbn [iterM].
  destruct (decide (_state s = OscString)) as [Ho|Ho].
  - assert (He : ProcessCharacter AsciiChars.ESC s = (set_state OscTermination s, Ok tt)).
    { rewrite ProcessCharacter_ESC. unfold is_state. by rewrite bool_decide_true. }
    rewrite (bind_Ok _ _ _ _ _ He). unfold bind at 1.
    rewrite ProcessCharacter_plain by done. cbn [dispatch_event _state set_state].
    unfold _EventOscTermination, _isStringTerminatorIndicator.
    destruct (Z.eqb_spec c 92); [done|].
    unfold _EnterEscape. rewrite (bind_Ok _ _ _ _ _ (enter_cleared Escape _)). done.
  - assert (He : ProcessCharacter AsciiChars.ESC s =
                 (load Escape VTIDBuilder_Clear ([], false) (forget s), Ok tt)).
    { rewrite ProcessCharacter_ESC. unfold is_state. rewrite bool_decide_false by done.
      unfold _ActionInterrupt, bind at 1 2, get, is_state.
      rewrite bool_decide_false by done. apply enter_cleared. }
    rewrite (bind_Ok _ _ _ _ _ He). unfold bind at 1.
    by rewrite ProcessCharacter_plain by done.
Qed.

Lemma csi_start (s : SM) :
  enumset_test (_parserMode s) Ansi = true -> _state s <> DcsPassThrough ->
  iterM ProcessCharacter [AsciiChars.ESC; 0x5B] s =
  (load CsiEntry VTIDBuilder_Clear ([], false) (forget s), Ok tt).
Proof.
  intros Hm Hs. rewrite escape_start by (done || unfold is_plain; lia).
  unfold _EventEscape, bind at 2 3, get. unfold bind at 1.
  change (_isC0Code 91) with false. change (_isDelete 91) with false.
  change (_isIntermediate 91) with false. cbn [_parserMode load set_state forget].
  change (enumset_test _ Ansi) with (enumset_test (_parserMode s) Ansi). rewrite Hm.
  change (_isCsiIndicator 91) with true. unfold _EnterCsiEntry. rewrite enter_cleared. done.
Qed.

Lemma osc_start (s : SM) :
  enumset_test (_parserMode s) Ansi = true -> _state s <> DcsPassThrough ->
  iterM ProcessCharacter [AsciiChars.ESC; 0x5D] s =
  (load OscParam VTIDBuilder_Clear ([], false) (forget s), Ok tt).
Proof.
  intros Hm Hs. rewrite escape_start by (done || unfold is_plain; lia).
  unfold _EventEscape, bind at 2 3, get. unfold bind at 1.
  change (_isC0Code 93) with false. change (_isDelete 93) with false.
  change (_isIntermediate 93) with false. cbn [_parserMode load set_state forget].
  change (enumset_test _ Ansi) with (enumset_test (_parserMode s) Ansi). rewrite Hm.
  done.
Qed.

End Sequences.

(** ** CSI sequences *)

(** A CSI sequence: at most one private marker, parameters, intermediates and a
    final character. *)
Record csi := mkCsi {
  csi_marker : option wchar;
  csi_params : list digits;
  csi_intermediates_of : list wchar;
  csi_final : wchar
}.

Definition csi_prefix (q : csi) : list wchar :=
  match csi_marker q with Some m => [m] | None => [] end.

Record csi_valid (q : csi) : Prop := {
  cv_marker : Forall is_marker (csi_prefix q);
  cv_params : Forall (Forall is_digit) (csi_params q);
  cv_intermediates : Forall is_intermediate (csi_intermediates_of q);
  cv_length : (length (csi_prefix q ++ csi_intermediates_of q) <= 7)%nat;
  cv_final : is_final (csi_final q)
}.

Definition csi_text (q : csi) : wstring :=
  [AsciiChars.ESC; 0x5B] ++ csi_prefix q ++ params_text (csi_params q) ++
  csi_intermediates_of q ++ [csi_final q].

Definition csi_id (q : csi) : VTID :=
  VTID_FromString (csi_prefix q ++ csi_intermediates_of q ++ [csi_final q]).

(** The state in which the sequence is dispatched. *)
Definition csi_state (q : csi) : VTStates :=
  if bool_decide (csi_intermediates_of q = []) then
    if bool_decide (csi_prefix q ++ params_text (csi_params q) = []) then CsiEntry
    else CsiParam
  else CsiIntermediate.

(** The machine that has read the sequence up to its final character. *)
Definition csi_collected {E H C} (q : csi) (s : StateMachine E H C) : StateMachine E H C :=
  load (csi_state q) (build (csi_prefix q ++ csi_intermediates_of q))
    (params_of (csi_params q), (MAX_PARAMETER_COUNT <? length (csi_params q))%nat)
    (forget s).

Lemma collect_params_of pss :
  Forall (Forall is_digit) pss ->
  collect (params_text pss) ([], false) =
  (params_of pss, (MAX_PARAMETER_COUNT <? length pss)%nat).
Proof.
  intros Hpss. destruct (decide (params_text pss = [])) as [He|]; [|by apply collect_text].
  unfold params_of. rewrite bool_decide_true by done. rewrite He.
  destruct pss as [|ds [|]]; [done|done|]. cbn in He. by destruct ds.
Qed.

Section CsiDispatch.
Context {E H C : Type} `{!IStateMachineEngine E H C} `{!QuietClear E H C}.

#[local] Abbreviation SM := (StateMachine E H C).

Lemma csi_prefix_step q (s : SM) :
  Forall is_marker (csi_prefix q) ->
  iterM ProcessCharacter (csi_prefix q) (load CsiEntry VTIDBuilder_Clear ([], false) s) =
  (load (if bool_decide (csi_prefix q = []) then CsiEntry else CsiParam)
     (build (csi_prefix q)) ([], false) s, Ok tt).
Proof.
  unfold csi_prefix. intros Hm. destruct (csi_marker q) as [m|]; [|done].
  inversion_clear Hm as [|? ? Hm' _]. cbn [iterM].
  by rewrite (bind_Ok _ _ _ _ _ (csi_marker_char m _ _ s Hm')).
Qed.

Lemma csi_collect q (s : SM) :
  csi_valid q -> enumset_test (_parserMode s) Ansi = true -> _state s <> DcsPassThrough ->
  iterM ProcessCharacter
    ([AsciiChars.ESC; 0x5B] ++ csi_prefix q ++ params_text (csi_params q) ++
     csi_intermediates_of q) s = (csi_collected q s, Ok tt).
Proof.
  intros [Hm Hp Hi _ _] Hmode Hst.
  rewrite iterM_app, (bind_Ok _ _ _ _ _ (csi_start s Hmode Hst)).
  rewrite iterM_app, (bind_Ok _ _ _ _ _ (csi_prefix_step q _ Hm)).
  rewrite iterM_app. erewrite bind_Ok by (apply csi_param_text;
    [by apply params_text_chars|by case_bool_decide]).
  rewrite csi_intermediates by (done || by repeat case_bool_decide).
  rewrite collect_params_of by done. unfold csi_collected, csi_state, build.
  rewrite foldl_app. do 2 f_equal. unfold csi_prefix.
  destruct (csi_marker q); repeat case_bool_decide; try done; naive_solver.
Qed.

(** The identifier and parameters the machine dispatches. *)
Lemma csi_dispatched q (s : SM) :
  csi_valid q ->
  _ActionCsiDispatch (csi_final q) (csi_collected q s) =
  (_ <- _SafeExecute (ActionCsiDispatch (csi_id q) (params_of (csi_params q))) ;;
   ret tt) (csi_collected q s).
Proof.
  intros [Hm Hp Hi Hl Hf].
  assert (Hb : Forall is_byte (csi_prefix q ++ csi_intermediates_of q)).
  { apply Forall_app; split; [revert Hm|revert Hi]; apply Forall_impl;
      intros c; unfold is_marker, is_intermediate, is_byte; lia. }
  assert (Hfb : is_byte (csi_final q)) by (unfold is_final, is_byte in *; lia).
  assert (Hid : Finalize (build (csi_prefix q ++ csi_intermediates_of q)) (csi_final q) = csi_id q).
  { rewrite Finalize_fits by done. unfold csi_id. rewrite app_assoc, FromString_le256; [done| |].
    - apply Forall_app; split; [done|by constructor].
    - rewrite length_app. cbn. lia. }
  unfold _ActionCsiDispatch, _SafeExecuteWithLog. apply bind_ext; [|done].
  unfold _SafeExecute, bind, get. by rewrite <- Hid.
Qed.

Lemma csi_text_dispatch q (s : SM) :
  csi_valid q -> enumset_test (_parserMode s) Ansi = true -> _state s <> DcsPassThrough ->
  iterM ProcessCharacter (csi_text q) s =
  (_ <- _SafeExecute (ActionCsiDispatch (csi_id q) (params_of (csi_params q))) ;;
   _EnterGround ;; _ExecuteCsiCompleteCallback) (csi_collected q s).
Proof.
  intros Hq Hmode Hst. unfold csi_text.
  assert (Hsplit : [AsciiChars.ESC; 0x5B] ++ csi_prefix q ++ params_text (csi_params q) ++
            csi_intermediates_of q ++ [csi_final q] =
            ([AsciiChars.ESC; 0x5B] ++ csi_prefix q ++ params_text (csi_params q) ++
             csi_intermediates_of q) ++ [csi_final q]) by (by rewrite <- !app_assoc).
  rewrite Hsplit, iterM_app, (bind_Ok _ _ _ _ _ (csi_collect q s Hq Hmode Hst)).
  cbn [iterM]. rewrite bind_ret_r, csi_final_char;
    [|apply Hq|unfold csi_collected, csi_state; cbn; by repeat case_bool_decide].
  unfold bind at 1. rewrite csi_dispatched by done. unfold bind at 1 3.
  by destruct (_SafeExecute _ _) as [s1 []].
Qed.

End CsiDispatch.

(** ** OSC sequences *)

(** An OSC sequence ends in BEL or in ESC and a backslash. *)
Inductive osc_terminator := OscBel | OscST.

Definition osc_terminator_text (t : osc_terminator) : wstring :=
  match t with OscBel => [AsciiChars.BEL] | OscST => [AsciiChars.ESC; 0x5C] end.

(** The character that triggers the dispatch. *)
Definition osc_trigger (t : osc_terminator) : wchar :=
  match t with OscBel => AsciiChars.BEL | OscST => 0x5C end.

Definition osc_text (ds : digits) (str : wstring) (t : osc_terminator) : wstring :=
  [AsciiChars.ESC; 0x5D] ++ ds ++ [0x3B] ++ str ++ osc_terminator_text t.

(** A character the data of an OSC sequence may have. *)
Definition is_osc_char (c : wchar) : Prop := is_ordinary c /\ c <> AsciiChars.BEL.

(** The data the machine keeps: control characters are dropped. *)
Definition osc_data (str : wstring) : wstring :=
  filter (fun c => _isOscInvalid c = false) str.

Definition osc_parameter (ds : digits) : Z := Z.min (decimal ds) MAX_PARAMETER_VALUE.

Definition osc_collected {E H C} (ds : digits) (str : wstring) (t : osc_terminator)
    (s : StateMachine E H C) : StateMachine E H C :=
  load (match t with OscBel => OscString | OscST => OscTermination end)
    VTIDBuilder_Clear ([], false)
    (set_oscString (osc_data str) (set_oscParameter (osc_parameter ds) (forget s))).

Section OscDispatch.
Context {E H C : Type} `{!IStateMachineEngine E H C} `{!QuietClear E H C}.

#[local] Abbreviation SM := (StateMachine E H C).

Lemma osc_digits ds' ds (s : SM) :
  Forall is_digit ds -> Forall is_digit ds' -> _state s = OscParam ->
  _oscParameter s = osc_parameter ds ->
  iterM ProcessCharacter ds' s = (set_oscParameter (osc_parameter (ds ++ ds')) s, Ok tt).
Proof.
  intros Hds Hds'; revert ds Hds s. induction Hds' as [|c ds' Hc _ IH]; intros ds Hds s Hs Hp.
  - rewrite app_nil_r, <- Hp. by destruct s.
  - cbn [iterM]. unfold is_digit in Hc.
    assert (Hstep : ProcessCharacter c s = (set_oscParameter (osc_parameter (ds ++ [c])) s, Ok tt)).
    { rewrite ProcessCharacter_plain by (unfold is_plain; lia). rewrite Hs.
      cbn [dispatch_event]. unfold _EventOscParam, _isOscTerminator, AsciiChars.BEL.
      assert (Hn : _isNumericParamValue c = true)
        by (unfold _isNumericParamValue; eval_tests c; done).
      rewrite Hn. eval_tests c. unfold _ActionOscParam, modify. rewrite Hp.
      pose proof (decimal_nonneg _ Hds).
      rewrite AccumulateTo_spec by (done || unfold osc_parameter, MAX_PARAMETER_VALUE; lia).
      unfold osc_parameter. rewrite decimal_app. unfold MAX_PARAMETER_VALUE. do 2 f_equal. lia. }
    rewrite (bind_Ok _ _ _ _ _ Hstep).
    rewrite (IH (ds ++ [c])); [by rewrite <- app_assoc| |done|done].
    apply Forall_app; split; [done|by constructor].
Qed.

Lemma osc_chars str (s : SM) :
  Forall is_osc_char str -> _state s = OscString ->
  iterM ProcessCharacter str s = (set_oscString (_oscString s ++ osc_data str) s, Ok tt).
Proof.
  intros Hstr; revert s. induction Hstr as [|c str [Hc Hbel] _ IH]; intros s Hs.
  - cbn. rewrite app_nil_r. by destruct s.
  - cbn [iterM].
    assert (Hstep : ProcessCharacter c s = (set_oscString (_oscString s ++ osc_data [c]) s, Ok tt)).
    { rewrite ProcessCharacter_ordinary by done. rewrite Hs. cbn [dispatch_event].
      unfold _EventOscString, _isOscTerminator, _isEscape, osc_data.
      destruct Hc as (_ & _ & He & _). apply Z.eqb_neq in He, Hbel. rewrite Hbel, He.
      rewrite filter_cons, filter_nil. destruct (_isOscInvalid c); cbn; [|done].
      rewrite app_nil_r. by destruct s. }
    rewrite (bind_Ok _ _ _ _ _ Hstep), IH by done. cbn [_oscString set_oscString].
    assert (Hd : osc_data (c :: str) = osc_data [c] ++ osc_data str)
      by (unfold osc_data; by rewrite <- list.filter_app).
    by rewrite Hd, app_assoc.
Qed.

Lemma osc_dispatched c (s : SM) :
  (_ActionOscDispatch c ;; _EnterGround) s =
  (_ <- _SafeExecute (ActionOscDispatch c (_oscParameter s) (_oscString s)) ;;
   _EnterGround) s.
Proof.
  unfold _ActionOscDispatch, _SafeExecuteWithLog. rewrite bind_assoc.
  apply bind_ext; done.
Qed.

Lemma osc_text_dispatch ds str t (s : SM) :
  Forall is_digit ds -> Forall is_osc_char str ->
  enumset_test (_parserMode s) Ansi = true -> _state s <> DcsPassThrough ->
  iterM ProcessCharacter (osc_text ds str t) s =
  (_ <- _SafeExecute (ActionOscDispatch (osc_trigger t) (osc_parameter ds) (osc_data str)) ;;
   _EnterGround) (osc_collected ds str t s).
Proof.
  intros Hds Hstr Hmode Hst. unfold osc_text.
  rewrite iterM_app, (bind_Ok _ _ _ _ _ (osc_start s Hmode Hst)).
  rewrite iterM_app. erewrite bind_Ok by (by apply (osc_digits ds [])).
  rewrite iterM_app. erewrite bind_Ok by reflexivity.
  rewrite iterM_app. erewrite bind_Ok by (by apply osc_chars).
  set (s1 := set_oscString _ _).
  assert (Hs1 : _state s1 = OscString) by done.
  destruct t; cbn [osc_terminator_text iterM].
  - rewrite bind_ret_r, ProcessCharacter_ordinary by (by split_and!).
    rewrite Hs1. exact (osc_dispatched AsciiChars.BEL s1).
  - assert (He : ProcessCharacter AsciiChars.ESC s1 = (set_state OscTermination s1, Ok tt))
      by (rewrite ProcessCharacter_ESC; by rewrite Hs1).
    rewrite (bind_Ok _ _ _ _ _ He), bind_ret_r, ProcessCharacter_plain
      by (unfold is_plain; lia).
    exact (osc_dispatched 0x5C (set_state OscTermination s1)).
Qed.

End OscDispatch.

(** ** DCS data strings *)

(** A character of a DCS data string: a C0 control that does not end the string,
    or a graphic character. *)
Definition is_dcs_char (c : wchar) : Prop :=
  is_ordinary c /\ _isC0Code c || _isDcsPassThroughValid c = true.

Section DcsData.
Context {E H C : Type} `{!IStateMachineEngine E H C} `{!FramedEngine E H C}.

#[local] Abbreviation SM := (StateMachine E H C).

(** The data go to the handler one by one until it gives up; the result says
    whether it still listens. *)
Fixpoint dcs_feed (h : H) (data : wstring) : M SM bool :=
  match data with
  | [] => ret true
  | c :: data =>
      r <- StringHandler_call h c ;;
      if r : bool then dcs_feed h data else _EnterDcsIgnore ;; ret false
  end.

Lemma dcs_ignored data (s : SM) :
  Forall is_dcs_char data -> _state s = DcsIgnore ->
  iterM ProcessCharacter data s = (s, Ok tt).
Proof.
  intros Hd; revert s. induction Hd as [|c data [Hc _] _ IH]; intros s Hs; [done|].
  cbn [iterM]. unfold bind. rewrite ProcessCharacter_ordinary, Hs by done. by apply IH.
Qed.

Lemma dcs_pass_char c h (s : SM) :
  is_dcs_char c -> _state s = DcsPassThrough -> _dcsStringHandler s = Some h ->
  ProcessCharacter c s =
  (r <- StringHandler_call h c ;; if r : bool then ret tt else _EnterDcsIgnore) s.
Proof.
  intros [Hc Hv] Hs Hh. rewrite ProcessCharacter_ordinary, Hs by done.
  cbn [dispatch_event]. unfold _EventDcsPassThrough. rewrite Hv.
  unfold call_dcsStringHandler, bind, get. by rewrite Hh.
Qed.

Lemma dcs_data_end data h (s : SM) :
  Forall is_dcs_char data -> _state s = DcsPassThrough -> _dcsStringHandler s = Some h ->
  iterM ProcessCharacter (data ++ [AsciiChars.ESC]) s =
  (listening <- dcs_feed h data ;;
   (if listening : bool then
      _ <- StringHandler_call h AsciiChars.ESC ;; modify (set_dcsStringHandler None)
    else ret tt) ;;
   _EnterEscape) s.
Proof.
  intros Hd; revert s. induction Hd as [|c data Hc Hd IH]; intros s Hs Hh.
  - cbn [app iterM dcs_feed]. rewrite bind_ret_r, ProcessCharacter_ESC, Hs.
    change (is_state DcsPassThrough OscString) with false. rewrite bind_ret_l.
    unfold _ActionInterrupt, call_dcsStringHandler, bind, get. rewrite Hs.
    change (is_state DcsPassThrough DcsPassThrough) with true. cbv beta iota.
    rewrite Hh. by destruct (StringHandler_call h _ s) as [? []].
  - cbn [app iterM dcs_feed]. unfold bind at 1. rewrite (dcs_pass_char c h) by done.
    pose proof (StringHandler_frame h c s) as Hf. unfold bind at 1 2 3.
    destruct (StringHandler_call h c s) as [s1 r1]. cbn [fst] in Hf.
    destruct r1 as [[]| | |]; try done.
    + apply IH; [by rewrite (fr_state _ _ Hf)|by rewrite (fr_dcsStringHandler _ _ Hf)].
    + set (s2 := set_cachedSequence None (set_state DcsIgnore s1)).
      change (iterM ProcessCharacter (data ++ [AsciiChars.ESC]) s2 = _EnterEscape s2).
      rewrite iterM_app, (bind_Ok _ _ _ _ _ (dcs_ignored data s2 Hd eq_refl)).
      cbn [iterM]. rewrite bind_ret_r, ProcessCharacter_ESC.
      change (is_state (_state s2) OscString) with false. cbv iota.
      assert (Hi : _ActionInterrupt s2 = (s2, Ok tt)) by reflexivity.
      by rewrite (bind_Ok _ _ _ _ _ Hi).
Qed.

(** *** The states before the data string *)

Lemma C0_in_DcsParam c (s : SM) :
  is_ordinary c -> _isC0Code c = true -> _state s = DcsParam ->
  ProcessCharacter c s = _ActionDcsDispatch c s.
Proof.
  intros Hc H0 Hs. rewrite ProcessCharacter_ordinary, Hs by done. cbn [dispatch_event].
  unfold _EventDcsParam. rewrite H0. unfold bind at 1. cbn.
  assert (Hr : 0 <= c <= 0x1F).
  { unfold _isC0Code, AsciiChars.NUL, AsciiChars.ETB, AsciiChars.EM, AsciiChars.FS,
      AsciiChars.US in H0. bool_prop. repeat destruct_or?; bool_prop; lia. }
  unfold_tests. by eval_tests c.
Qed.

End DcsData.

(** ** Properties *)

(** C3. The text of a CSI sequence is dispatched once, with its identifier and
    its parameters, from every state but a DCS data string: an omitted
    parameter is [-1], a value past 65535 is 65535, parameters past the 32nd
    are dropped, and what the machine had collected before is forgotten. *)
Theorem csi_sequence_dispatch {E H C : Type}
    `{!IStateMachineEngine E H C, !QuietClear E H C} (q : csi) (s : StateMachine E H C) :
  csi_valid q -> enumset_test (_parserMode s) Ansi = true -> _state s <> DcsPassThrough ->
  iterM ProcessCharacter (csi_text q) s =
  (_ <- _SafeExecute (ActionCsiDispatch (csi_id q) (params_of (csi_params q))) ;;
   _EnterGround ;; _ExecuteCsiCompleteCallback) (csi_collected q s).
Proof. apply csi_text_dispatch. Qed.

(** [ESC [ ? 1 ; ; 9 9 9 9 9 $ p] *)
Lemma csi_sequence_dispatch_witness :
  let q := mkCsi (Some 0x3F) [[0x31]; []; [0x39; 0x39; 0x39; 0x39; 0x39]] [0x24] 0x70 in
  let s := Recorder.machine false in
  iterM ProcessCharacter (csi_text q) s =
  (_ <- _SafeExecute (ActionCsiDispatch (csi_id q) (params_of (csi_params q))) ;;
   _EnterGround ;; _ExecuteCsiCompleteCallback) (csi_collected q s) /\
  params_of (csi_params q) = [1; -1; 65535].
Proof.
  intros q s. split; [|vm_compute; reflexivity].
  apply csi_sequence_dispatch; [|reflexivity|discriminate].
  split; cbn; repeat constructor; unfold is_marker, is_digit, is_intermediate, is_final; lia.
Defined.

(** C4. The text of an OSC sequence is dispatched once, by BEL or by the string
    terminator, with its number (saturated) and its data less the control
    characters. *)
Theorem osc_sequence_dispatch {E H C : Type}
    `{!IStateMachineEngine E H C, !QuietClear E H C}
    (ds : digits) (str : wstring) (t : osc_terminator) (s : StateMachine E H C) :
  Forall is_digit ds -> Forall is_osc_char str ->
  enumset_test (_parserMode s) Ansi = true -> _state s <> DcsPassThrough ->
  iterM ProcessCharacter (osc_text ds str t) s =
  (_ <- _SafeExecute (ActionOscDispatch (osc_trigger t) (osc_parameter ds) (osc_data str)) ;;
   _EnterGround) (osc_collected ds str t s).
Proof. apply osc_text_dispatch. Qed.

Lemma osc_sequence_dispatch_witness :
  let s := Recorder.machine false in
  let str := [0x68; 0x0A; 0x69] in
  iterM ProcessCharacter (osc_text [0x30] str OscST) s =
  (_ <- _SafeExecute (ActionOscDispatch (osc_trigger OscST) (osc_parameter [0x30]) (osc_data str)) ;;
   _EnterGround) (osc_collected [0x30] str OscST s).
Proof.
  intros s str. apply osc_sequence_dispatch; [| |reflexivity|discriminate].
  - repeat constructor; unfold is_digit; lia.
  - repeat constructor; discriminate.
Defined.

(** Every character of a DCS data string reaches the handler of the sequence
    exactly once and in order, then ESC tells it that the string is over; a
    handler that gives up is not called again. *)
Theorem dcs_data_delivery {E H C : Type}
    `{!IStateMachineEngine E H C, !FramedEngine E H C}
    (data : wstring) (h : H) (s : StateMachine E H C) :
  Forall is_dcs_char data -> _state s = DcsPassThrough -> _dcsStringHandler s = Some h ->
  iterM ProcessCharacter (data ++ [AsciiChars.ESC]) s =
  (listening <- dcs_feed h data ;;
   (if listening : bool then
      _ <- StringHandler_call h AsciiChars.ESC ;; modify (set_dcsStringHandler None)
    else ret tt) ;;
   _EnterEscape) s.
Proof. apply dcs_data_end. Qed.

Lemma dcs_data_delivery_witness :
  let s := (ProcessString [0x1B; 0x50; 0x71] (Recorder.machine false)).1 in
  let data := [0x61; 0x21; 0x62] in
  iterM ProcessCharacter (data ++ [AsciiChars.ESC]) s =
  (listening <- dcs_feed 0x71 data ;;
   (if listening : bool then
      _ <- StringHandler_call 0x71 AsciiChars.ESC ;; modify (set_dcsStringHandler None)
    else ret tt) ;;
   _EnterEscape) s.
Proof.
  intros s data. apply dcs_data_delivery; [|vm_compute; reflexivity..].
  repeat constructor; discriminate.
Defined.

(** In the [DcsParam] state a C0 control is not ignored, as it is in the
    other states before a data string: it is taken for the final character of
    the sequence and dispatched. *)
Theorem DcsParam_dispatches_C0 {E H C : Type} `{!IStateMachineEngine E H C}
    (c : wchar) (s : StateMachine E H C) :
  is_ordinary c -> _isC0Code c = true -> _state s = DcsParam ->
  ProcessCharacter c s = _ActionDcsDispatch c s.
Proof. apply C0_in_DcsParam. Qed.

(** [ESC P 1 LF q]: the line feed is dispatched, and [q] is its data. *)
Lemma DcsParam_dispatches_C0_witness :
  let s := (ProcessString [0x1B; 0x50; 0x31] (Recorder.machine false)).1 in
  ProcessCharacter 0x0A s = _ActionDcsDispatch 0x0A s /\
  (Recorder.calls false [0x1B; 0x50; 0x31; 0x0A; 0x71]).1 =
  [Recorder.Dcs 0x0A [1]; Recorder.DcsChar 0x0A 0x71].
Proof.
  intros s. split; [|vm_compute; reflexivity].
  apply DcsParam_dispatches_C0; [repeat split; discriminate|reflexivity|vm_compute; reflexivity].
Defined.
