(* ===== verification/StateMachineReturns.v ===== *)
(** * Termination

    [ProcessCharacter] calls itself for C1 controls and [ProcessString] has a loop
    with an iteration that does not advance.  For an engine whose own methods
    terminate both always come to an end. *)

From S2P Require Import Prelude Effects EnumSet DispatchTypes StateMachine StateMachineLaws StateMachineInv Recorder StateMachineStream.

Local Open Scope Z_scope.

(** A computation that never runs out of fuel. *)
Definition ends {S A} (m : M S A) : Prop := forall s, (m s).2 <> OutOfFuel.

Section Ends.
Context {S : Type}.

Lemma ends_ret {A} (a : A) : ends (@ret S A a).
Proof. by intros s. Qed.
Lemma ends_throw {A} e : ends (@throw S A e).
Proof. by intros s. Qed.
Lemma ends_get {A} (f : S -> A) : ends (get f).
Proof. by intros s. Qed.
Lemma ends_modify (f : S -> S) : ends (modify f).
Proof. by intros s. Qed.

Lemma ends_bind {A B} (m : M S A) (k : A -> M S B) :
  ends m -> (forall a, ends (k a)) -> ends (bind m k).
Proof.
  intros Hm Hk s. specialize (Hm s). unfold bind.
  destruct (m s) as [s' []]; [apply Hk|done..].
Qed.

Lemma ends_iterM {A} (f : A -> M S unit) l : (forall a, ends (f a)) -> ends (iterM f l).
Proof. intros Hf. induction l; cbn; [apply ends_ret|by apply ends_bind]. Qed.

End Ends.

#[export] Hint Resolve ends_ret ends_throw ends_get ends_modify ends_iterM : vt.

(** An engine whose methods terminate. *)
Class TerminatingEngine (E H C : Type) `{!IStateMachineEngine E H C} : Prop := {
  ActionExecute_ends c : ends (ActionExecute c);
  ActionExecuteFromEscape_ends c : ends (ActionExecuteFromEscape c);
  ActionPrint_ends c : ends (ActionPrint c);
  ActionPrintString_ends str : ends (ActionPrintString str);
  ActionPassThroughString_ends str : ends (ActionPassThroughString str);
  ActionEscDispatch_ends id : ends (ActionEscDispatch id);
  ActionVt52EscDispatch_ends id ps : ends (ActionVt52EscDispatch id ps);
  ActionCsiDispatch_ends id ps : ends (ActionCsiDispatch id ps);
  ActionDcsDispatch_ends id ps : ends (ActionDcsDispatch id ps);
  ActionClear_ends : ends ActionClear;
  ActionOscDispatch_ends c p str : ends (ActionOscDispatch c p str);
  ActionSs3Dispatch_ends c ps : ends (ActionSs3Dispatch c ps);
  StringHandler_ends h c : ends (StringHandler_call h c);
  Callback_ends cb : ends (Callback_call cb)
}.

#[export] Hint Resolve ActionExecute_ends ActionExecuteFromEscape_ends ActionPrint_ends
  ActionPrintString_ends ActionPassThroughString_ends ActionEscDispatch_ends
  ActionVt52EscDispatch_ends ActionCsiDispatch_ends ActionDcsDispatch_ends
  ActionClear_ends ActionOscDispatch_ends ActionSs3Dispatch_ends StringHandler_ends
  Callback_ends : vt.

Section Total.
Context {E H C : Type} `{!IStateMachineEngine E H C} `{!TerminatingEngine E H C}.

#[local] Abbreviation SM := (StateMachine E H C).

Lemma ends_SafeExecute (m : M SM bool) : ends m -> ends (_SafeExecute m).
Proof.
  intros Hm s. specialize (Hm s). unfold _SafeExecute.
  by destruct (m s) as [s' [|[]| |]].
Qed.

Lemma ends_CurrentRun : ends (_CurrentRun : M SM _).
Proof. intros s. unfold _CurrentRun. by destruct (substr _ _ _). Qed.

#[local] Hint Resolve ends_SafeExecute ends_CurrentRun : vt.

(** Proves [ends m] by the structure of [m]. *)
Ltac ends_auto :=
  repeat first
    [ solve [eauto 2 with vt]
    | apply ends_bind; [|intros ?]
    | match goal with |- ends (if ?b then _ else _) => destruct b end
    | match goal with |- ends (match ?x with _ => _ end) => destruct x end
    | apply ends_SafeExecute ].

Lemma dispatch_event_ends c st : ends (dispatch_event c st : M SM _).
Proof.
  destruct st; cbn [dispatch_event];
    unfold _EventGround, _EventEscape, _EventEscapeIntermediate, _EventCsiEntry,
      _EventCsiIntermediate, _EventCsiIgnore, _EventCsiParam, _EventOscParam,
      _EventOscString, _EventOscTermination, _EventEscape, _EventSs3Entry,
      _EventSs3Param, _EventVt52Param, _EventDcsEntry, _EventDcsIgnore,
      _EventDcsIntermediate, _EventDcsParam, _EventDcsPassThrough,
      _EventSosPmApcString, call_dcsStringHandler;
    ends_auto.
Qed.

Lemma cancel_ends c :
  ends (_ActionInterrupt ;; _ActionExecute c ;; _EnterGround : M SM _).
Proof. unfold _ActionInterrupt, call_dcsStringHandler. ends_auto. Qed.

Lemma escape_ends : ends (_ActionInterrupt ;; _EnterEscape : M SM _).
Proof. unfold _ActionInterrupt, call_dcsStringHandler. ends_auto. Qed.

Lemma ProcessCharacter_ends c : ends (ProcessCharacter c : M SM _).
Proof.
  pose proof dispatch_event_ends. pose proof cancel_ends. pose proof escape_ends.
  assert (Hbody : forall rec c, _isC1ControlCharacter c = false ->
            ends (ProcessCharacter_body rec c : M SM _)).
  { intros rec c' Hc'. unfold ProcessCharacter_body. do 3 (apply ends_bind; [auto with vt|intros ?]).
    rewrite Hc'. repeat case_if; auto. }
  unfold ProcessCharacter. cbn [ProcessCharacter_fuel].
  unfold ProcessCharacter_body at 1. do 3 (apply ends_bind; [auto with vt|intros ?]).
  case_if; [auto|]. case_if; [|case_if; auto]. case_if; [|auto with vt].
  apply ends_bind; [by apply Hbody|intros _]. apply Hbody.
  pose proof (c1To7Bit_range c ltac:(done)). unfold _isC1ControlCharacter.
  apply andb_false_iff. left. apply Z.leb_gt. lia.
Qed.

#[local] Hint Resolve ProcessCharacter_ends : vt.

(** The loop needs two units of fuel for every character that is left, and one
    more to switch to individual processing. *)
Lemma ProcessString_loop_ends fuel str start current (s : SM) :
  (2 * (length str - current) + (if _processingIndividually s then 1 else 2) <= fuel)%nat ->
  (ProcessString_loop fuel str start current s).2 <> OutOfFuel.
Proof.
  revert start current s.
  induction fuel as [|fuel IH]; intros start current s Hfuel; [destruct (_processingIndividually s); lia|].
  cbn [ProcessString_loop]. destruct (str !! current) as [c|] eqn:Hc; [|done].
  apply lookup_lt_Some in Hc. unfold bind at 1 2 3, modify at 1 2, get at 1. cbv beta iota.
  cbn [_processingIndividually set_runSize set_runOffset].
  destruct (_processingIndividually s) eqn:Hi.
  - unfold bind at 1 2, modify at 1.
    match goal with |- context [ProcessCharacter c ?x] =>
      pose proof (ProcessCharacter_ends c x) as Hpc;
      destruct (ProcessCharacter c x) as [s1 r1] end.
    destruct r1; try done. unfold bind at 1, get at 1. cbv beta iota zeta.
    case_if; apply IH; [|destruct (_processingIndividually s1)];
      cbn [_processingIndividually set_processingIndividually]; lia.
  - case_if; [|apply IH; cbn [_processingIndividually set_runSize set_runOffset];
               rewrite Hi; lia].
    unfold bind at 1, get at 1. cbv beta iota.
    match goal with |- context [bind ?m _ ?x] =>
      assert (Hm : ends m) by (unfold _ActionPrintString; ends_auto);
      specialize (Hm x); unfold bind at 1; destruct (m x) as [s1 r1] end.
    destruct r1; try done. apply IH. cbn [_processingIndividually set_processingIndividually].
    lia.
Qed.

Lemma ProcessString_finish_ends str start : ends (ProcessString_finish str start : M SM _).
Proof.
  unfold ProcessString_finish, _ActionPrintString, flush_input_run, ResetState, _EnterGround.
  apply ends_bind; [ends_auto|intros _]. apply ends_bind; [ends_auto|intros run].
  do 3 (apply ends_bind; [ends_auto|intros ?]). repeat case_if; auto with vt.
  - ends_auto.
  - apply ends_bind; [ends_auto|intros _]. apply ends_bind; [ends_auto|intros _].
    destruct (list.last run); [|by intros s].
    apply ends_bind; [ends_auto|intros _]. apply ends_bind; [ends_auto|intros _].
    apply ends_bind; [ends_auto|intros st]. apply ends_bind; [|intros _; ends_auto].
    destruct st; cbn [dispatch_last];
      unfold _ActionExecute, _ActionEscDispatch, _ActionCsiDispatch, _ActionOscDispatch,
        _ActionSs3Dispatch, _SafeExecuteWithLog; ends_auto.
Qed.

Lemma ProcessString_ends_aux str : ends (ProcessString str : M SM _).
Proof.
  unfold ProcessString. do 3 (apply ends_bind; [auto with vt|intros _]).
  apply ends_bind; [|intros start; apply ProcessString_finish_ends].
  intros s. apply ProcessString_loop_ends. case_if; lia.
Qed.

End Total.

#[export] Instance Recorder_terminating : TerminatingEngine (list Recorder.Action) VTID Z.
Proof.
  split; intros; cbn; intros s; try done. unfold bind, Recorder.record, modify, ret. by case_if.
Qed.

(** [ProcessString] terminates on every string, from every state, for every
    engine whose methods do: the loop advances or switches to individual
    processing in each iteration, and C1 controls recurse once. *)
Theorem ProcessString_terminates {E H C : Type}
    `{!IStateMachineEngine E H C, !TerminatingEngine E H C} (str : wstring)
    (s : StateMachine E H C) :
  (ProcessString str s).2 <> OutOfFuel.
Proof. apply ProcessString_ends_aux. Qed.

Lemma ProcessString_terminates_witness :
  (ProcessString [0x61; 0x1B; 0x5B; 0x9B; 0x41] (Recorder.machine false)).2 <> OutOfFuel.
Proof. apply ProcessString_terminates. Defined.

(** * Normal returns

    For an engine whose methods return, the state machine returns too: no string
    makes it throw, because the run it tracks stays inside the current string and
    a data string always has its handler, and none makes it read past an end,
    except an empty one for the input engine.  Together with the invariant this
    is the total correctness of [ProcessString]. *)

(** A computation that always returns a value. *)
Definition returns {S A} (m : M S A) : Prop := forall s, exists a, (m s).2 = Ok a.

Section Returns.
Context {S : Type}.

Lemma returns_ret {A} (a : A) : returns (@ret S A a).
Proof. intros s. by exists a. Qed.
Lemma returns_get {A} (f : S -> A) : returns (get f).
Proof. intros s. by eexists. Qed.
Lemma returns_modify (f : S -> S) : returns (modify f).
Proof. intros s. by eexists. Qed.

Lemma returns_bind {A B} (m : M S A) (k : A -> M S B) :
  returns m -> (forall a, returns (k a)) -> returns (bind m k).
Proof.
  intros Hm Hk s. destruct (Hm s) as [a Ha]. unfold bind. destruct (m s) as [s' r]; cbn in Ha.
  subst r. apply Hk.
Qed.

(** A sequence that returns from a state, by the outcome of its first part. *)
Lemma bind_returns_at {A B} (m : M S A) (k : A -> M S B) s :
  wp m (fun s' r => exists a, r = Ok a /\ exists b, (k a s').2 = Ok b) s ->
  exists b, (bind m k s).2 = Ok b.
Proof.
  unfold wp, bind. destruct (m s) as [s' r]; cbn. intros (a & -> & Hk). exact Hk.
Qed.

End Returns.

#[export] Hint Resolve returns_ret returns_get returns_modify : vt.

(** An engine whose methods return. *)
Class ReturningEngine (E H C : Type) `{!IStateMachineEngine E H C} : Prop := {
  ActionExecute_returns c : returns (ActionExecute c);
  ActionExecuteFromEscape_returns c : returns (ActionExecuteFromEscape c);
  ActionPrint_returns c : returns (ActionPrint c);
  ActionPrintString_returns str : returns (ActionPrintString str);
  ActionPassThroughString_returns str : returns (ActionPassThroughString str);
  ActionEscDispatch_returns id : returns (ActionEscDispatch id);
  ActionVt52EscDispatch_returns id ps : returns (ActionVt52EscDispatch id ps);
  ActionCsiDispatch_returns id ps : returns (ActionCsiDispatch id ps);
  ActionDcsDispatch_returns id ps : returns (ActionDcsDispatch id ps);
  ActionClear_returns : returns ActionClear;
  ActionOscDispatch_returns c p str : returns (ActionOscDispatch c p str);
  ActionSs3Dispatch_returns c ps : returns (ActionSs3Dispatch c ps);
  StringHandler_returns h c : returns (StringHandler_call h c);
  Callback_returns cb : returns (Callback_call cb)
}.

#[export] Hint Resolve ActionExecute_returns ActionExecuteFromEscape_returns ActionPrint_returns
  ActionPrintString_returns ActionPassThroughString_returns ActionEscDispatch_returns
  ActionVt52EscDispatch_returns ActionCsiDispatch_returns ActionDcsDispatch_returns
  ActionClear_returns ActionOscDispatch_returns ActionSs3Dispatch_returns StringHandler_returns
  Callback_returns : vt.

Section Machine.
Context {E H C : Type} `{!IStateMachineEngine E H C} `{!ReturningEngine E H C}.
Context `{!FramedEngine E H C} `{!WfCallback E H C} `{!SyncCallback E H C}.

#[local] Abbreviation SM := (StateMachine E H C).

Lemma returns_SafeExecute (m : M SM bool) : returns m -> returns (_SafeExecute m).
Proof.
  intros Hm s. destruct (Hm s) as [a Ha]. unfold _SafeExecute.
  destruct (m s) as [s' r]; cbn in Ha. subst r. by exists a.
Qed.

(** Proves [returns m] by the structure of [m]. *)
Ltac returns_auto :=
  repeat first
    [ solve [eauto 2 with vt]
    | apply returns_bind; [|intros ?]
    | match goal with |- returns (if ?b then _ else _) => destruct b end
    | match goal with |- returns (match ?x with _ => _ end) => destruct x end
    | apply returns_SafeExecute ].

Lemma dispatch_event_returns c st :
  st <> DcsPassThrough -> returns (dispatch_event c st : M SM _).
Proof.
  intros Hst. destruct st; try done; cbn [dispatch_event];
    unfold _EventGround, _EventEscape, _EventEscapeIntermediate, _EventCsiEntry,
      _EventCsiIntermediate, _EventCsiIgnore, _EventCsiParam, _EventOscParam,
      _EventOscString, _EventOscTermination, _EventEscape, _EventSs3Entry,
      _EventSs3Param, _EventVt52Param, _EventDcsEntry, _EventDcsIgnore,
      _EventDcsIntermediate, _EventDcsParam, _EventSosPmApcString;
    returns_auto.
Qed.

(** With a handler, a call of it is a call of the engine. *)
Lemma call_handler_returns c (s : SM) :
  is_Some (_dcsStringHandler s) -> exists b, (call_dcsStringHandler c s).2 = Ok b.
Proof.
  intros [h Hh]. unfold call_dcsStringHandler, bind, get. rewrite Hh. apply StringHandler_returns.
Qed.

Lemma dispatch_event_returns_wf c (s : SM) :
  wf s -> exists u, (dispatch_event c (_state s) s).2 = Ok u.
Proof.
  intros Hw. destruct (decide (_state s = DcsPassThrough)) as [Hs|]; [|by apply dispatch_event_returns].
  rewrite Hs. cbn [dispatch_event]. unfold _EventDcsPassThrough. case_if; [|by exists tt].
  destruct (call_handler_returns c s (wf_dcs _ Hw Hs)) as [b Hb].
  unfold bind. destruct (call_dcsStringHandler c s) as [s' r]; cbn in Hb. subst r.
  destruct b; by eexists.
Qed.

Lemma ActionInterrupt_returns (s : SM) : wf s -> (_ActionInterrupt s).2 = Ok tt.
Proof.
  intros Hw. unfold _ActionInterrupt. unfold bind at 1, get. unfold is_state.
  case_bool_decide as Hs; [|done].
  destruct (call_handler_returns AsciiChars.ESC s (wf_dcs _ Hw Hs)) as [b Hb].
  unfold bind. destruct (call_dcsStringHandler AsciiChars.ESC s) as [s' r]; cbn in Hb. by subst r.
Qed.

Lemma interrupt_then_returns {A} (k : M SM A) (s : SM) :
  wf s -> returns k -> exists a, ((_ActionInterrupt ;; k) s).2 = Ok a.
Proof.
  intros Hw Hk. pose proof (ActionInterrupt_returns s Hw) as Hi. unfold bind.
  destruct (_ActionInterrupt s) as [s' r]; cbn in Hi. subst r. apply Hk.
Qed.

Lemma body_returns rec c (s : SM) :
  _isC1ControlCharacter c = false -> wf s ->
  exists u, (ProcessCharacter_body rec c s).2 = Ok u.
Proof.
  intros Hc Hw. unfold ProcessCharacter_body. unfold bind at 1 2 3, get. cbv beta iota zeta. rewrite Hc.
  case_if; [apply interrupt_then_returns; [done|]; returns_auto|].
  case_if; [apply interrupt_then_returns; [done|]; returns_auto|].
  by apply dispatch_event_returns_wf.
Qed.

Lemma ProcessCharacter_returns c (s : SM) :
  is_wchar c -> wf s -> (ProcessCharacter c s).2 = Ok tt.
Proof.
  intros Hcw Hw. assert (Hu : exists u, (ProcessCharacter c s).2 = Ok u);
    [|by destruct Hu as [[] ->]].
  unfold ProcessCharacter. cbn [ProcessCharacter_fuel].
  destruct (_isC1ControlCharacter c) eqn:Hc; [|by apply body_returns].
  unfold ProcessCharacter_body at 1. unfold bind at 1 2 3, get. cbv beta iota zeta. rewrite Hc.
  case_if; [apply interrupt_then_returns; [done|]; returns_auto|].
  case_if; [|by exists tt]. apply bind_returns_at.
  set (rec := fun _ : wchar => outOfFuel).
  assert (Hesc : is_wchar AsciiChars.ESC) by (unfold is_wchar, AsciiChars.ESC; lia).
  destruct (ProcessCharacter_fuel_wf 1 AsciiChars.ESC s Hesc Hw) as [_ Hw'].
  destruct (body_returns rec AsciiChars.ESC s eq_refl Hw) as [u Hu].
  cbn [ProcessCharacter_fuel] in Hw'. fold rec in Hw'. unfold wp. rewrite Hu in Hw' |- *.
  exists u. split; [done|]. apply body_returns; [|exact Hw'].
  pose proof (c1To7Bit_range c Hc). unfold _isC1ControlCharacter.
  apply andb_false_iff. left. apply Z.leb_gt. lia.
Qed.

Lemma ProcessCharacter_total c (s : SM) :
  is_wchar c -> wf s -> _processingIndividually s = true ->
  exists s', ProcessCharacter c s = (s', Ok tt) /\ wf s' /\ char_post s s'.
Proof.
  intros Hc Hw Hi. pose proof (ProcessCharacter_returns c s Hc Hw) as Hr.
  destruct (ProcessCharacter_wf c s Hc Hw) as [_ Hw'].
  pose proof (ProcessCharacter_post c s Hi) as Hp. unfold wp in Hp. specialize (Hp Hr).
  rewrite Hr in Hw'. destruct (ProcessCharacter c s) as [s' r]; cbn in *. subst r. by exists s'.
Qed.

(** ** Strings *)

(** What holds between two iterations of the loop. *)
Record run_inv (str : wstring) (start current : nat) (s : SM) : Prop := {
  ri_wf : wf s;
  ri_string : _currentString s = str;
  ri_offset : 0 <= _runOffset s <= Z.of_nat (length str);
  ri_start : (start <= current)%nat;
  ri_current : (current <= length str)%nat;
  ri_pending : _processingIndividually s = true -> str <> [] -> (start < length str)%nat;
  ri_input : _isEngineForInput s = true -> str <> []
}.

Lemma CurrentRun_returns (s : SM) :
  0 <= _runOffset s <= Z.of_nat (length (_currentString s)) ->
  exists run, _CurrentRun s = (s, Ok run) /\
    (Forall is_wchar (_currentString s) -> Forall is_wchar run) /\
    (_runSize s = npos -> run = drop (Z.to_nat (_runOffset s)) (_currentString s)).
Proof.
  intros Ho. unfold _CurrentRun, substr.
  destruct (Z.ltb_spec (Z.of_nat (length (_currentString s))) (_runOffset s)); [lia|].
  eexists; split; [done|]. split; [|intros ->; by rewrite Z.eqb_refl].
  intros Hc. case_if; auto using Forall_take, Forall_drop.
Qed.

Lemma loop_returns fuel str start current (s : SM) :
  Forall is_wchar str -> run_inv str start current s ->
  wp (ProcessString_loop fuel str start current)
    (fun s' r => match r with
                 | Ok start' => run_inv str start' (length str) s'
                 | OutOfFuel => True
                 | _ => False
                 end) s.
Proof.
  intros Hstr. revert start current s.
  induction fuel as [|fuel IH]; intros start current s Hinv; [done|].
  cbn [ProcessString_loop]. destruct Hinv as [Hw Hs Ho Hsc Hcl Hp Hin].
  destruct (str !! current) as [c|] eqn:Hc.
  2: { apply wp_ret. apply lookup_ge_None in Hc. split; try done; lia. }
  assert (Hcw : is_wchar c) by (eapply Forall_lookup_1; eauto). apply lookup_lt_Some in Hc.
  do 2 apply wp_bind, wp_modify. apply wp_bind, wp_get. case_if.
  - apply wp_bind, wp_modify, wp_bind.
    set (s0 := set_processingLastCharacter _ _).
    destruct (ProcessCharacter_total c s0) as (s1 & E1 & Hw1 & Hs1 & Ho1 & Hi1 & _);
      [done|by eapply wf_ext; [..|exact Hw]|done|].
    unfold wp. rewrite E1. cbn [fst snd]. apply wp_bind, wp_get. cbn in Hs1, Ho1, Hi1.
    case_if; [apply wp_bind, wp_modify|]; apply IH; split; cbn; try done; try lia; try congruence;
      try (intros; apply Hin; congruence).
    by eapply wf_ext; [..|exact Hw1].
  - case_if; [|apply IH; split; cbn; try done; try lia; by eapply wf_ext; [..|exact Hw]].
    apply wp_bind, wp_get, wp_bind. cbn [_runSize set_runSize].
    destruct (Z.ltb_spec 0 (Z.of_nat current - Z.of_nat start + 1)); [|lia].
    apply wp_bind, wp_modify, wp_bind.
    match goal with |- wp _CurrentRun _ ?x => set (s1 := x) end.
    destruct (CurrentRun_returns s1) as (run & E1 & _ & _); [cbn; rewrite Hs; lia|].
    unfold wp at 1. rewrite E1. cbn [fst snd].
    assert (Hret : returns (_ActionPrintString run : M SM _))
      by (unfold _ActionPrintString; returns_auto).
    destruct (Hret s1) as [u Hu]. pose proof (_ActionPrintString_frame run s1) as Hf.
    unfold wp at 1. destruct (_ActionPrintString run s1) as [s2 r2]; cbn in Hu, Hf. subst r2. cbn [fst snd].
    apply wp_bind, wp_modify. apply IH.
    assert (Hw1 : wf s1) by (by eapply wf_ext; [..|exact Hw]).
    pose proof (frame_wf _ _ Hf Hw1) as Hw2. split; cbn; try lia.
    + by eapply wf_ext; [..|exact Hw2].
    + by rewrite (fr_currentString _ _ Hf).
    + rewrite (fr_runOffset _ _ Hf). cbn. lia.
    + by rewrite (fr_isEngineForInput _ _ Hf).
Qed.

Lemma iter_returns str (s : SM) :
  Forall is_wchar str -> wf s -> (iterM ProcessCharacter str s).2 = Ok tt.
Proof.
  intros Hstr; revert s; induction Hstr as [|c str Hc _ IH]; intros s Hw; [done|].
  cbn [iterM]. pose proof (ProcessCharacter_returns c s Hc Hw) as Hr.
  destruct (ProcessCharacter_wf c s Hc Hw) as [_ Hw']. rewrite Hr in Hw'.
  unfold bind. destruct (ProcessCharacter c s) as [s' r]; cbn in *. subst r. by apply IH.
Qed.

(** A method that returns, in the middle of a sequence. *)
Lemma wp_returns {A} (m : M SM A) Q (s : SM) :
  returns m -> (forall a s', m s = (s', Ok a) -> Q s' (Ok a)) -> wp m Q s.
Proof.
  intros Hm HQ. destruct (Hm s) as [a Ha]. unfold wp. rewrite Ha. apply HQ.
  destruct (m s) as [s' r]; cbn in *. by subst r.
Qed.

Lemma flush_returns run (s : SM) :
  run <> [] -> Forall is_wchar run -> wf s -> wp (flush_input_run run) (fun _ r => r = Ok tt) s.
Proof.
  intros Hne Hrun Hw. unfold flush_input_run, ResetState.
  destruct (list.last run) as [c|] eqn:Hlast; [|by apply last_None in Hlast].
  apply wp_bind, wp_bind, wp_modify, wp_modify, wp_bind, wp_modify, wp_bind.
  match goal with |- wp _ _ ?x => set (s1 := x) end.
  assert (Hw1 : wf s1).
  { apply (wf_ext (set_state Ground s)); try done. by apply wf_data_set_state, wf_wf_data. }
  pose proof (iter_returns (removelast run) s1 (Forall_removelast _ _ Hrun) Hw1) as Hr.
  unfold wp at 1. rewrite Hr. apply wp_bind, wp_modify, wp_bind, wp_get, wp_bind.
  apply wp_returns; [|done].
  destruct (_state _); cbn [dispatch_last];
    unfold _ActionExecute, _ActionEscDispatch, _ActionCsiDispatch, _ActionOscDispatch,
      _ActionSs3Dispatch, _SafeExecuteWithLog; returns_auto.
Qed.

Lemma finish_returns str start (s : SM) :
  Forall is_wchar str -> run_inv str start (length str) s ->
  wp (ProcessString_finish str start) (fun _ r => r = Ok tt) s.
Proof.
  intros Hstr [Hw Hs Ho Hsc Hcl Hp Hin]. unfold ProcessString_finish. apply wp_bind.
  set (Q := fun (s' : SM) (r : Result unit) => r = Ok tt /\ wf s' /\ _currentString s' = str /\
    0 <= _runOffset s' <= Z.of_nat (length str) /\
    _isEngineForInput s' = _isEngineForInput s /\
    _processingIndividually s' = _processingIndividually s /\
    ((start < length str)%nat -> _runOffset s' = Z.of_nat start /\ _runSize s' = npos)).
  eapply (wp_mono _ Q); unfold Q.
  { case_if; [apply wp_bind, wp_modify, wp_modify|apply wp_modify];
      (split; [done|]; split; [by eapply wf_ext; [..|exact Hw]|]); cbn.
    - apply Nat.ltb_lt in Heqb. split_and!; try done; lia.
    - apply Nat.ltb_ge in Heqb. split_and!; try done; lia. }
  intros s1 r1 (-> & Hw1 & Hs1 & Ho1 & Hi1 & Hp1 & Hrun1). apply wp_bind.
  destruct (CurrentRun_returns s1) as (run & E1 & Hrw & Hrun); [by rewrite Hs1|].
  rewrite Hs1 in Hrw. specialize (Hrw Hstr).
  unfold wp at 1. rewrite E1. cbn [fst snd]. do 3 (apply wp_bind, wp_get).
  rewrite Hp1, Hi1. destruct (_processingIndividually s) eqn:Hpi; cbn [negb andb]; cbv beta.
  - destruct (_isEngineForInput s); [|by case_if].
    apply flush_returns; [|done|done]. specialize (Hp eq_refl (Hin eq_refl)).
    destruct (Hrun1 Hp) as [Hoff Hsize]. rewrite (Hrun Hsize), Hs1, Hoff, Nat2Z.id.
    intros Hd. apply (f_equal length) in Hd. rewrite length_drop in Hd. cbn in Hd. lia.
  - case_if; [|done]. apply wp_returns; [|by intros []].
    unfold _ActionPrintString; returns_auto.
Qed.

Lemma ReturningEngine_terminating : TerminatingEngine E H C.
Proof.
  assert (Hre : forall A (m : M SM A), returns m -> ends m).
  { intros A m Hm s He. destruct (Hm s) as [a Ha]. congruence. }
  split; intros; apply Hre; auto with vt.
Qed.

Lemma ProcessString_returns_aux str (s : SM) :
  Forall is_wchar str -> wf s -> (_isEngineForInput s = true -> str <> []) ->
  (ProcessString str s).2 = Ok tt.
Proof.
  intros Hstr Hw Hin. change (wp (ProcessString str) (fun _ r => r = Ok tt) s).
  unfold ProcessString. do 3 apply wp_bind, wp_modify.
  match goal with |- wp _ _ ?x => set (s0 := x) end.
  assert (Hinv : run_inv str 0 0 s0).
  { split; cbn; try done; try lia; [|destruct str; cbn; [done|lia]].
    destruct Hw as [[] ? ? ? ? ?]. split; [by split|..]; auto. }
  pose proof (loop_returns (2 * length str + 2) str 0 0 s0 Hstr Hinv) as Hl.
  pose proof ReturningEngine_terminating as Hte.
  assert (He : (ProcessString_loop (2 * length str + 2) str 0 0 s0).2 <> OutOfFuel).
  { apply ProcessString_loop_ends. case_if; lia. }
  apply wp_bind. unfold wp in Hl |- * at 1.
  destruct (ProcessString_loop _ str 0 0 s0) as [s1 r1]; cbn [fst snd] in *.
  destruct r1; try done. by apply finish_returns.
Qed.

End Machine.

#[export] Instance Recorder_returning : ReturningEngine (list Recorder.Action) VTID Z.
Proof.
  split; intros; cbn; intros s; try (by eexists). unfold bind, Recorder.record, modify, ret.
  case_if; by eexists.
Qed.

(** C5. For an engine whose methods return, [ProcessString] returns on every string
    from every well-formed state, without an exception and without reading past
    the end of anything, and leaves the machine well-formed.  Only an empty string
    is excepted, and that only for the input engine. *)
Theorem ProcessString_returns {E H C : Type}
    `{!IStateMachineEngine E H C, !ReturningEngine E H C, !FramedEngine E H C,
      !WfCallback E H C, !SyncCallback E H C}
    (str : wstring) (s : StateMachine E H C) :
  Forall is_wchar str -> wf s -> (_isEngineForInput s = true -> str <> []) ->
  exists s', ProcessString str s = (s', Ok tt) /\ wf s'.
Proof.
  intros Hstr Hw Hin. pose proof (ProcessString_returns_aux str s Hstr Hw Hin) as Hr.
  destruct (ProcessString_wf_aux str s Hstr Hw) as [_ Hw']. rewrite Hr in Hw'.
  exists (ProcessString str s).1. split; [|done]. rewrite <- Hr. by destruct (ProcessString str s).
Qed.

Lemma ProcessString_returns_witness :
  exists s', ProcessString [0x1B; 0x50; 0x71; 0x61; 0x9C; 0x1B] (Recorder.machine false) = (s', Ok tt)
             /\ wf s'.
Proof.
  apply ProcessString_returns; [|apply Recorder.machine_wf|done].
  repeat constructor; unfold is_wchar; lia.
Defined.

(** Input comes one keystroke per string, so whatever the input engine has
    read at the end of a string is dispatched: the call returns with the machine
    well-formed and back in the ground state, and a partial sequence never leaks
    into the next keystroke. *)
Theorem input_returns_to_ground {E H C : Type}
    `{!IStateMachineEngine E H C, !ReturningEngine E H C, !FramedEngine E H C,
      !WfCallback E H C, !SyncCallback E H C}
    (str : wstring) (s : StateMachine E H C) :
  _isEngineForInput s = true -> sync s -> wf s -> Forall is_wchar str -> str <> [] ->
  exists s', ProcessString str s = (s', Ok tt) /\ wf s' /\ _state s' = Ground.
Proof.
  intros Hin Hs Hw Hstr Hne. pose proof (ProcessString_returns_aux str s Hstr Hw (fun _ => Hne)) as Hr.
  destruct (ProcessString_wf_aux str s Hstr Hw) as [_ Hw']. rewrite Hr in Hw'.
  pose proof (ProcessString_input_ground_aux str s Hin Hs Hr) as Hg.
  exists (ProcessString str s).1. split; [|done]. rewrite <- Hr. by destruct (ProcessString str s).
Qed.

(** Alt and the left bracket, a keystroke that looks like the start of a CSI
    sequence: it is dispatched as [ESC [], whose identifier is the bracket. *)
Lemma input_returns_to_ground_witness :
  exists s', ProcessString [0x1B; 0x5B] (Recorder.machine true) = (s', Ok tt) /\
    wf s' /\ _state s' = Ground /\ _engine s' = [Recorder.Esc 0x5B].
Proof.
  destruct (input_returns_to_ground [0x1B; 0x5B] (Recorder.machine true)) as (s' & E & Hw & Hg);
    [reflexivity|by intros Hf|apply Recorder.machine_wf| |discriminate|].
  - repeat constructor; unfold is_wchar; lia.
  - exists s'. split; [exact E|]. split; [exact Hw|]. split; [exact Hg|].
    replace s' with (ProcessString [0x1B; 0x5B] (Recorder.machine true)).1 by (by rewrite E).
    vm_compute. reflexivity.
Defined.
