(* ===== verification/StateMachineString.v ===== *)
(** * A sequence that arrives as one string

    The input engine is given one keystroke per string.  When that string is a whole
    control sequence, [StateMachine::ProcessString] hands it to the engine at its last
    character, with the run that [FlushToTerminal] would send being the whole string.
    The lemmas hold for every engine without completion callbacks that leaves the
    parser's members alone and does nothing on an empty string. *)

From S2P Require Import Prelude Effects EnumSet DispatchTypes StateMachine StateMachineLaws.
From S2P Require Import StateMachineInv StateMachineSeq.

Local Open Scope Z_scope.

Section Strings.
Context {E H : Type} `{!IStateMachineEngine E H Empty_set}.
Context `{!FramedEngine E H Empty_set} `{!QuietClear E H Empty_set}.

#[local] Abbreviation SM := (StateMachine E H Empty_set).

Hypothesis print_nothing : forall s : SM, _ActionPrintString [] s = (s, Ok tt).

(** The members that follow the current string. *)
Definition track (str : wstring) (n : Z) (last : bool) (s : SM) : SM :=
  set_processingLastCharacter last (set_runSize n (set_runOffset 0 (set_currentString str s))).

(** A text that takes the machine from [s1] to [s2] inside a sequence, without a call
    of the engine: the same from whatever place in a string it is read. *)
Inductive collects : wstring -> SM -> SM -> Prop :=
| collects_nil s : collects [] s s
| collects_cons c text s1 s2 s3 :
    (forall str n last, ProcessCharacter c (track str n last s1) = (track str n last s2, Ok tt)) ->
    _state s2 <> Ground -> _processingIndividually s2 = _processingIndividually s1 ->
    collects text s2 s3 -> collects (c :: text) s1 s3.

Lemma collects_app t1 t2 s1 s2 s3 :
  collects t1 s1 s2 -> collects t2 s2 s3 -> collects (t1 ++ t2) s1 s3.
Proof. induction 1; intros; [done|]. cbn. econstructor; eauto. Qed.

Lemma collects_one c s1 s2 :
  (forall str n last, ProcessCharacter c (track str n last s1) = (track str n last s2, Ok tt)) ->
  _state s2 <> Ground -> _processingIndividually s2 = _processingIndividually s1 ->
  collects [c] s1 s2.
Proof. intros. econstructor; eauto using collects_nil. Qed.

Lemma collects_individually text s1 s2 :
  collects text s1 s2 -> _processingIndividually s2 = _processingIndividually s1.
Proof. induction 1; congruence. Qed.

Lemma track_load str n last st b pl (s : SM) :
  track str n last (load st b pl s) = load st b pl (track str n last s).
Proof. done. Qed.

(** ** The loop *)

Lemma loop_collects text s1 s2 :
  collects text s1 s2 -> _processingIndividually s1 = true ->
  forall str pre post fuel n last, str = pre ++ text ++ post ->
  exists n' last',
    ProcessString_loop (length text + fuel) str 0 (length pre) (track str n last s1) =
    ProcessString_loop fuel str 0 (length pre + length text) (track str n' last' s2).
Proof.
  induction 1 as [s|c text s1 s2 s3 Hc Hg Hi _ IH]; intros Hs str pre post fuel n last ->.
  - exists n, last. by rewrite Nat.add_0_r.
  - cbn [length]. set (str := pre ++ (c :: text) ++ post).
    assert (Hk : str !! length pre = Some c)
      by (unfold str; rewrite lookup_app_r, Nat.sub_diag by lia; done).
    destruct (IH ltac:(congruence) str (pre ++ [c]) post fuel
                (Z.of_nat (length pre) - Z.of_nat 0 + 1) (length str <=? length pre + 1)%nat)
      as (n' & last' & E').
    { unfold str. by rewrite <- app_assoc. }
    exists n', last'. rewrite length_app in E'. cbn [length] in E'.
    replace (length pre + S (length text))%nat with (length pre + 1 + length text)%nat by lia.
    rewrite <- E'. clear IH E'. cbn [Nat.add ProcessString_loop]. rewrite Hk. unfold bind at 1 2 3, modify, get.
    cbv beta iota. cbn [_processingIndividually track set_processingLastCharacter set_runSize set_runOffset
                          set_currentString].
    rewrite Hs. unfold bind at 1. cbv beta iota.
    match goal with |- bind (ProcessCharacter c) _ ?x = _ =>
      change x with (track str (Z.of_nat (length pre) - Z.of_nat 0 + 1) (length str <=? length pre + 1)%nat s1) end.
    rewrite (bind_Ok _ _ _ _ _ (Hc _ _ _)). unfold bind at 1. cbv beta iota. unfold is_state.
    rewrite bool_decide_false by done. by rewrite Nat.add_1_r.
Qed.

(** What is left of the bookkeeping once a string is read. *)
Definition settle (s : SM) : SM := set_runSize 0 (set_processingIndividually false s).

(** The machine that has read the string up to its last character. *)
Definition at_last (str : wstring) (s : SM) : SM :=
  track str (Z.of_nat (length str)) true (set_processingIndividually true s).

Lemma empty_run (str : wstring) : substr str 0 0 = Some [].
Proof. unfold substr. destruct (Z.ltb_spec (Z.of_nat (length str)) 0); [lia|]. by destruct str. Qed.

Lemma track_start str n o (s : SM) :
  _processingIndividually s = false ->
  exists n' last',
    forall fuel, str !! 0%nat = Some AsciiChars.ESC ->
    ProcessString_loop (S fuel) str 0 0 (set_runSize n (set_runOffset o (set_currentString str s))) =
    ProcessString_loop fuel str 0 0 (track str n' last' (set_processingIndividually true s)).
Proof.
  intros Hi. exists 0, (_processingLastCharacter s). intros fuel Hc. cbn [ProcessString_loop]. rewrite Hc.
  unfold bind at 1 2 3, modify, get. cbv beta iota. cbn [_processingIndividually set_runSize set_runOffset set_currentString].
  rewrite Hi. change (_isActionableFromGround AsciiChars.ESC) with true. cbv iota.
  unfold bind at 1. cbv beta iota. cbn [_runSize set_runSize]. change (0 <? Z.of_nat 0 - Z.of_nat 0 + 1) with true.
  cbv iota. rewrite bind_assoc. unfold bind at 1. cbv beta iota. rewrite bind_assoc.
  match goal with |- bind _CurrentRun _ ?t = _ => set (t0 := t) end.
  assert (Hr : _CurrentRun t0 = (t0, Ok [])).
  { unfold _CurrentRun. change (substr _ _ _) with (substr str 0 0). by rewrite empty_run. }
  rewrite (bind_Ok _ _ _ _ _ Hr), (bind_Ok _ _ _ _ _ (print_nothing t0)). unfold bind at 1. cbv beta iota.
  done.
Qed.

Lemma finish_nothing str (s : SM) :
  _currentString s = str -> _runOffset s = 0 -> _processingIndividually s = false ->
  ProcessString_finish str (length str) s = (set_runSize 0 s, Ok tt).
Proof.
  intros Hs Ho Hi. unfold ProcessString_finish. rewrite Nat.ltb_irrefl. unfold bind at 1, modify. cbv beta iota.
  assert (Hr : _CurrentRun (set_runSize 0 s) = (set_runSize 0 s, Ok [])).
  { unfold _CurrentRun. cbn [_currentString _runOffset _runSize set_runSize]. by rewrite Ho, empty_run. }
  rewrite (bind_Ok _ _ _ _ _ Hr). unfold bind at 1 2 3, get. cbv beta iota. cbn [_processingIndividually set_runSize].
  by rewrite Hi.
Qed.

(** A string that collects a sequence and ends it with a character that brings the
    machine back to the ground state. *)
Lemma string_dispatch text c (s s2 s3 : SM) :
  collects text (set_processingIndividually true s) s2 -> text !! 0%nat = Some AsciiChars.ESC ->
  _processingIndividually s = false ->
  ProcessCharacter c (track (text ++ [c]) (Z.of_nat (length (text ++ [c]))) true s2) = (s3, Ok tt) ->
  _state s3 = Ground -> _currentString s3 = text ++ [c] -> _runOffset s3 = 0 ->
  ProcessString (text ++ [c]) s = (settle s3, Ok tt).
Proof.
  intros Hcol Hesc Hi Hc Hg Hs Ho. set (str := text ++ [c]) in *.
  assert (Hlen : length str = S (length text)) by (unfold str; rewrite length_app; cbn; lia).
  unfold ProcessString. unfold bind at 1 2 3, modify. cbv beta iota.
  assert (Hl : ProcessString_loop (2 * length str + 2) str 0 0
                 (set_runSize 0 (set_runOffset 0 (set_currentString str s))) =
               (set_processingIndividually false s3, Ok (length str))).
  { destruct (track_start str 0 0 s Hi) as (n0 & last0 & E0).
    replace (2 * length str + 2)%nat with (S (length text + S (S (length text + 1))))%nat by lia.
    rewrite E0 by (unfold str; rewrite lookup_app_l; [done|by apply lookup_lt_Some in Hesc]).
    destruct (loop_collects text _ _ Hcol eq_refl str [] [c] (S (S (length text + 1))) n0 last0 eq_refl)
      as (n1 & last1 & E1).
    cbn [length Nat.add] in E1. rewrite E1. clear E0 E1.
    assert (Hk : str !! length text = Some c)
      by (unfold str; rewrite lookup_app_r, Nat.sub_diag by lia; done).
    cbn [ProcessString_loop]. rewrite Hk. unfold bind at 1 2 3, modify, get. cbv beta iota.
    pose proof (collects_individually _ _ _ Hcol) as Hi2. cbn in Hi2.
    cbn [_processingIndividually track set_processingLastCharacter set_runSize set_runOffset set_currentString].
    rewrite Hi2. unfold bind at 1. cbv beta iota.
    match goal with |- bind (ProcessCharacter c) _ ?t = _ =>
      replace t with (track str (Z.of_nat (length str)) true s2) end.
    2: { rewrite Hlen. unfold track. cbn [_isEngineForInput _state].
         replace (Z.of_nat (length text) - Z.of_nat 0 + 1) with (Z.of_nat (S (length text))) by lia.
         replace (S (length text) <=? length text + 1)%nat with true by (symmetry; apply Nat.leb_le; lia).
         done. }
    rewrite (bind_Ok _ _ _ _ _ Hc). unfold bind at 1. cbv beta iota. rewrite Hg. cbv iota beta.
    change (is_state Ground Ground) with true. cbv iota. unfold bind at 1. cbv beta iota.
    rewrite lookup_ge_None_2 by lia. by rewrite Hlen. }
  rewrite (bind_Ok _ _ _ _ _ Hl). by apply finish_nothing.
Qed.

(** ** Control sequences *)

(** ESC from the ground state. *)
Lemma collects_ESC (s : SM) :
  _state s = Ground ->
  collects [AsciiChars.ESC] s (load Escape VTIDBuilder_Clear ([], false) (forget s)).
Proof.
  intros Hs. apply collects_one; [|done|done]. intros str n last.
  rewrite ProcessCharacter_ESC. cbn [_state track set_processingLastCharacter set_runSize set_runOffset set_currentString].
  rewrite Hs. change (is_state Ground OscString) with false. cbv iota.
  assert (Hint : _ActionInterrupt (track str n last s) = (track str n last s, Ok tt)).
  { unfold _ActionInterrupt, bind, get, is_state. cbn. by rewrite Hs. }
  rewrite (bind_Ok _ _ _ _ _ Hint). unfold _EnterEscape. by rewrite enter_cleared.
Qed.

Lemma collects_csi_start (s : SM) :
  enumset_test (_parserMode s) Ansi = true -> _state s = Ground ->
  collects [AsciiChars.ESC; 0x5B] s (load CsiEntry VTIDBuilder_Clear ([], false) (forget s)).
Proof.
  intros Hm Hs. apply (collects_app [_] [_] _ _ _ (collects_ESC s Hs)).
  apply collects_one; [|done|done]. intros str n last.
  rewrite ProcessCharacter_plain by (unfold is_plain; lia). cbn [dispatch_event _state].
  change (_state (track str n last (load Escape VTIDBuilder_Clear ([], false) (forget s)))) with Escape.
  cbn [dispatch_event]. unfold _EventEscape, bind at 1 2, get. cbv beta.
  change (_isC0Code 91) with false. change (_isDelete 91) with false. change (_isIntermediate 91) with false.
  change (_parserMode (track str n last _)) with (_parserMode s). rewrite Hm.
  change (_isCsiIndicator 91) with true. cbv iota. unfold _EnterCsiEntry. rewrite enter_cleared.
  by destruct s.
Qed.

Lemma collects_params t st b pl (s : SM) :
  Forall is_param_char t -> csi_open st = true ->
  collects t (load st b pl s) (load (if bool_decide (t = []) then st else CsiParam) b (collect t pl) s).
Proof.
  intros Ht; revert st pl. induction Ht as [|c t Hc Ht IH]; intros st pl Hst.
  - destruct pl. apply collects_nil.
  - specialize (IH CsiParam (param_step c pl.1 pl.2) eq_refl).
    assert (E1 : (if bool_decide (t = []) then CsiParam else CsiParam) = CsiParam) by (by case_bool_decide).
    rewrite E1 in IH. rewrite bool_decide_false by done.
    replace (collect (c :: t) pl) with (collect t (param_step c pl.1 pl.2)) by (by destruct pl).
    refine (collects_cons _ _ _ _ _ _ _ _ IH); [|done|done]. intros str n last.
    rewrite track_load, csi_param_char by done. done.
Qed.

Lemma collects_intermediates ims st b pl (s : SM) :
  Forall is_intermediate ims -> csi_unfinished st = true ->
  collects ims (load st b pl s)
    (load (if bool_decide (ims = []) then st else CsiIntermediate) (foldl AddIntermediate b ims) pl s).
Proof.
  intros Hims; revert st b. induction Hims as [|c ims Hc _ IH]; intros st b Hst; [apply collects_nil|].
  specialize (IH CsiIntermediate (AddIntermediate b c) eq_refl).
  assert (E1 : (if bool_decide (ims = []) then CsiIntermediate else CsiIntermediate) = CsiIntermediate)
    by (by case_bool_decide).
  rewrite E1 in IH. rewrite bool_decide_false by done.
  refine (collects_cons _ _ _ _ _ _ _ _ IH); [|done|done]. intros str n last.
  rewrite track_load, csi_intermediate by done. done.
Qed.

Lemma collects_prefix q (s : SM) :
  Forall is_marker (csi_prefix q) ->
  collects (csi_prefix q) (load CsiEntry VTIDBuilder_Clear ([], false) s)
    (load (if bool_decide (csi_prefix q = []) then CsiEntry else CsiParam) (build (csi_prefix q)) ([], false) s).
Proof.
  unfold csi_prefix. intros Hm. destruct (csi_marker q) as [m|]; [|apply collects_nil].
  inversion_clear Hm as [|? ? Hm' _]. apply collects_one; [|done|done].
  intros str n last. by rewrite track_load, csi_marker_char.
Qed.

Lemma collects_csi q (s : SM) :
  csi_valid q -> enumset_test (_parserMode s) Ansi = true -> _state s = Ground ->
  collects ([AsciiChars.ESC; 0x5B] ++ csi_prefix q ++ params_text (csi_params q) ++ csi_intermediates_of q)
    s (csi_collected q s).
Proof.
  intros [Hm Hp Hi _ _] Hmode Hst.
  eapply collects_app; [by apply collects_csi_start|].
  eapply collects_app; [by apply collects_prefix|].
  eapply collects_app; [apply collects_params; [by apply params_text_chars|by case_bool_decide]|].
  eassert (E1 : csi_collected q s = load _ _ _ (forget s)).
  2: { rewrite E1. apply collects_intermediates; [done|]. by repeat case_bool_decide. }
  rewrite collect_params_of by done. unfold csi_collected, csi_state, build.
  rewrite foldl_app. f_equal. unfold csi_prefix.
  destruct (csi_marker q); repeat case_bool_decide; try done; naive_solver.
Qed.

(** The machine in which a CSI sequence that is a whole string is dispatched. *)
Definition csi_ready (q : csi) (s : SM) : SM := csi_collected q (at_last (csi_text q) s).

Lemma csi_string_dispatch q (s s' : SM) b :
  csi_valid q -> enumset_test (_parserMode s) Ansi = true ->
  _state s = Ground -> _processingIndividually s = false ->
  ActionCsiDispatch (csi_id q) (params_of (csi_params q)) (csi_ready q s) = (s', Ok b) ->
  ProcessString (csi_text q) s = (settle (set_cachedSequence None (set_state Ground s')), Ok tt).
Proof.
  intros Hq Hmode Hst Hi Hd.
  assert (Hsplit : csi_text q = ([AsciiChars.ESC; 0x5B] ++ csi_prefix q ++ params_text (csi_params q) ++
                                 csi_intermediates_of q) ++ [csi_final q])
    by (unfold csi_text; by rewrite <- !app_assoc).
  pose proof (ActionCsiDispatch_frame (csi_id q) (params_of (csi_params q)) (csi_ready q s)) as Hf.
  rewrite Hd in Hf. cbn in Hf. destruct Hf as [_ _ Hfs Hfo _ _ _ _ _ _ _ _ _].
  rewrite Hsplit. eapply string_dispatch; [by apply (collects_csi q (set_processingIndividually true s))|done|done| |done|..].
  2: { rewrite <- Hsplit. exact Hfs. }
  2: { exact Hfo. }
  rewrite <- Hsplit.
  match goal with |- ProcessCharacter _ ?t = _ => change t with (csi_ready q s) end.
  rewrite csi_final_char;
    [|apply Hq|unfold csi_ready, csi_collected, csi_state; cbn; by repeat case_bool_decide].
  unfold bind at 1. unfold csi_ready in *. rewrite csi_dispatched by done.
  unfold bind at 1, _SafeExecute. rewrite Hd. cbn.
  unfold _ExecuteCsiCompleteCallback, bind, get. cbn. by destruct (_onCsiCompleteCallback s') as [[]|].
Qed.

(** ** SS3 sequences, of the input engine *)

Definition ss3_text (c : wchar) : wstring := [AsciiChars.ESC; 0x4F; c].

Definition ss3_ready (c : wchar) (s : SM) : SM :=
  load Ss3Entry VTIDBuilder_Clear ([], false) (forget (at_last (ss3_text c) s)).

Lemma collects_ss3 (s : SM) :
  enumset_test (_parserMode s) Ansi = true -> _isEngineForInput s = true -> _state s = Ground ->
  collects [AsciiChars.ESC; 0x4F] s (load Ss3Entry VTIDBuilder_Clear ([], false) (forget s)).
Proof.
  intros Hm Hin Hs. apply (collects_app [_] [_] _ _ _ (collects_ESC s Hs)).
  apply collects_one; [|done|done]. intros str n last.
  rewrite ProcessCharacter_plain by (unfold is_plain; lia).
  change (_state (track str n last (load Escape VTIDBuilder_Clear ([], false) (forget s)))) with Escape.
  cbn [dispatch_event]. unfold _EventEscape, bind at 1 2, get. cbv beta.
  change (_isC0Code 79) with false. change (_isDelete 79) with false. change (_isIntermediate 79) with false.
  change (_parserMode (track str n last _)) with (_parserMode s).
  change (_isEngineForInput (track str n last _)) with (_isEngineForInput s). rewrite Hm, Hin.
  change (_isCsiIndicator 79) with false. change (_isOscIndicator 79) with false.
  change (_isSs3Indicator 79 && true) with true. cbv iota. unfold _EnterSs3Entry. rewrite enter_cleared.
  by destruct s.
Qed.

Lemma ss3_string_dispatch c (s s' : SM) b :
  is_final c -> enumset_test (_parserMode s) Ansi = true -> _isEngineForInput s = true ->
  _state s = Ground -> _processingIndividually s = false ->
  ActionSs3Dispatch c [] (ss3_ready c s) = (s', Ok b) ->
  ProcessString (ss3_text c) s = (settle (set_cachedSequence None (set_state Ground s')), Ok tt).
Proof.
  intros Hc Hmode Hin Hst Hi Hd.
  pose proof (ActionSs3Dispatch_frame c [] (ss3_ready c s)) as Hf.
  rewrite Hd in Hf. cbn in Hf. destruct Hf as [_ _ Hfs Hfo _ _ _ _ _ _ _ _ _].
  change (ss3_text c) with ([AsciiChars.ESC; 0x4F] ++ [c]).
  eapply string_dispatch; [by apply (collects_ss3 (set_processingIndividually true s))|done|done| |done|..].
  2: exact Hfs.
  2: exact Hfo.
  match goal with |- ProcessCharacter _ ?t = _ => change t with (ss3_ready c s) end.
  unfold is_final in Hc. rewrite ProcessCharacter_plain by (unfold is_plain; lia).
  change (_state (ss3_ready c s)) with Ss3Entry. cbn [dispatch_event]. unfold _EventSs3Entry. unfold_tests.
  eval_tests c. unfold _ActionSs3Dispatch, _SafeExecuteWithLog. unfold bind at 1 2, _SafeExecute, bind at 1, get.
  change (_parameters (ss3_ready c s)) with (@nil Z). by rewrite Hd.
Qed.

(** ** Many strings *)

(** No method makes an input machine an output machine. *)
Definition same_input (s s' : SM) : Prop := _isEngineForInput s' = _isEngineForInput s.

#[local] Instance same_input_preorder : PreOrder same_input.
Proof. split; unfold same_input; [done|congruence]. Qed.

Lemma frame_same_input (s s' : SM) : frame s s' -> same_input s s'.
Proof. apply fr_isEngineForInput. Qed.

(** Proves [keeps same_input m] by the structure of [m]. *)
Ltac input_auto :=
  repeat first
    [ solve [eauto 2 with vt]
    | solve [eapply keeps_mono; [apply frame_same_input|eauto with vt]]
    | apply keeps_ret; exact _ | apply keeps_throw; exact _ | apply keeps_undefined; exact _
    | apply keeps_get; exact _
    | apply keeps_CurrentRun; exact _
    | apply keeps_modify; intros ?; reflexivity
    | apply keeps_SafeExecute
    | apply keeps_iterM; [exact _|intros ?]
    | apply keeps_bind; [exact _| |intros ?]
    | match goal with |- keeps _ (if ?b then _ else _) => destruct b end
    | match goal with |- keeps _ (match ?x with _ => _ end) => destruct x end ].

Lemma ActionClear_input : keeps same_input _ActionClear.
Proof. unfold _ActionClear; input_auto. Qed.
Lemma ActionParam_input c : keeps same_input (_ActionParam c).
Proof. intros s. by rewrite ActionParam_step. Qed.
Lemma ExecuteCallback_input : keeps same_input _ExecuteCsiCompleteCallback.
Proof.
  unfold _ExecuteCsiCompleteCallback. apply keeps_bind; [exact _|input_auto|].
  intros [[]|]. apply keeps_ret. exact _.
Qed.

#[local] Hint Resolve ActionClear_input ActionParam_input ExecuteCallback_input : vt.

Lemma dispatch_event_input c st : keeps same_input (dispatch_event c st).
Proof.
  destruct st; cbn [dispatch_event];
    unfold _EventGround, _EventOscTermination, _EventEscape, _EventEscapeIntermediate, _EventCsiEntry,
      _EventCsiIntermediate, _EventCsiIgnore, _EventCsiParam, _EventOscParam, _EventOscString,
      _EventSs3Entry, _EventSs3Param, _EventVt52Param, _EventDcsEntry, _EventDcsIgnore, _EventDcsIntermediate,
      _EventDcsParam, _EventDcsPassThrough, _EventSosPmApcString, _EventEscape, _ActionDcsDispatch,
      _SafeExecuteWithLog, _EnterGround, _EnterEscape, _EnterEscapeIntermediate, _EnterVt52Param, _EnterCsiEntry,
      _EnterCsiIntermediate, _EnterCsiIgnore, _EnterCsiParam, _EnterOscParam, _EnterOscString, _EnterOscTermination,
      _EnterSs3Entry, _EnterSs3Param, _EnterDcsEntry, _EnterDcsIgnore, _EnterDcsParam, _EnterDcsIntermediate,
      _EnterDcsPassThrough, _EnterSosPmApcString, _ActionIgnore, _ActionCollect, _ActionOscParam, _ActionOscPut;
    input_auto.
Qed.

Lemma ProcessCharacter_input c : keeps same_input (ProcessCharacter c).
Proof.
  unfold ProcessCharacter. generalize 2%nat as fuel. intros fuel. revert c.
  induction fuel as [|fuel IH]; intros c; cbn [ProcessCharacter_fuel]; [intros s; reflexivity|].
  pose proof dispatch_event_input.
  unfold ProcessCharacter_body, _ActionInterrupt, _EnterGround, _EnterEscape; input_auto.
Qed.

Lemma ProcessString_input str : keeps same_input (ProcessString str).
Proof.
  pose proof ProcessCharacter_input.
  assert (Hloop : forall fuel start current, keeps same_input (ProcessString_loop fuel str start current)).
  { induction fuel as [|fuel IH]; intros; cbn [ProcessString_loop]; [intros s; reflexivity|]. input_auto. }
  assert (Hlast : forall c st, keeps same_input (dispatch_last c st))
    by (intros c st; unfold dispatch_last; input_auto).
  unfold ProcessString, ProcessString_finish, flush_input_run, ResetState, _EnterGround; input_auto.
Qed.

End Strings.
