(* ===== verification/Utils.v ===== *)
(** * String and colour utilities

    Models [src/src/types/utils.cpp], the parsers of numbers, lists and colour
    specifications that the dispatchers use and the filter for pasted text, and
    the colour type of [src/src/inc/til/color.h].  Out parameters with a [bool]
    result are an [option]. *)

From S2P Require Import Prelude.

Local Open Scope Z_scope.

(** ** [til::color] *)

Record color := mkColor { color_r : Z; color_g : Z; color_b : Z; color_a : Z }.

#[export] Instance color_eq_dec : EqDecision color.
Proof. solve_decision. Defined.

Definition rgb (r g b : Z) : color := mkColor r g b 255.

(** The conversion to a [COLORREF], 0x00BBGGRR; [abgr] shares its bytes with the
    four components. *)
Definition abgr (c : color) : Z :=
  Z.lor (color_r c)
    (Z.lor (Z.shiftl (color_g c) 8)
       (Z.lor (Z.shiftl (color_b c) 16) (Z.shiftl (color_a c) 24))).

Definition to_COLORREF (c : color) : Z := Z.land (abgr c) 0x00FFFFFF.

(** ** Numbers *)

Definition _isNumber (wch : wchar) : bool := (0x30 <=? wch) && (wch <=? 0x39).

Definition HexToUint (wch : wchar) : option Z :=
  if (0x30 <=? wch) && (wch <=? 0x39) then Some (wch - 0x30)
  else if (0x41 <=? wch) && (wch <=? 0x46) then Some (wch - 0x41 + 10)
  else if (0x61 <=? wch) && (wch <=? 0x66) then Some (wch - 0x61 + 10)
  else None.

(** The [while] loop of [StringToUint]; [result] is an [unsigned int]. *)
Fixpoint StringToUint_loop (wstr : wstring) (result : Z) : option Z :=
  match wstr with
  | [] => Some result
  | wch :: wstr =>
      if _isNumber wch then StringToUint_loop wstr (u32 (u32 (result * 10) + (wch - 0x30)))
      else None
  end.

Definition StringToUint (wstr : wstring) : option Z :=
  match wstr with
  | [] => None
  | _ => StringToUint_loop wstr 0
  end.

(** ** [SplitString] *)

(** [std::wstring_view::find(ch, pos)]; [None] is [npos]. *)
Fixpoint find_char (ch : wchar) (wstr : wstring) : option nat :=
  match wstr with
  | [] => None
  | c :: wstr => if c =? ch then Some 0%nat else S <$> find_char ch wstr
  end.

Definition wstring_find (wstr : wstring) (ch : wchar) (pos : nat) : option nat :=
  (fun i => (pos + i)%nat) <$> find_char ch (drop pos wstr).

(** The [while] loop of [SplitString]; [current] grows in every iteration that
    does not [break], so the length of the string and one are enough fuel. *)
Fixpoint SplitString_loop (fuel : nat) (wstr : wstring) (delimiter : wchar)
    (current : nat) (result : list wstring) : option (list wstring) :=
  match fuel with
  | O => None
  | S fuel =>
      if (current <? length wstr)%nat then
        match wstring_find wstr delimiter current with
        | None => Some (result ++ [drop current wstr])
        | Some nextDelimiter =>
            let len := (nextDelimiter - current)%nat in
            let result := result ++ [take len (drop current wstr)] in
            let current := (current + len + 1)%nat in
            let result := if (length wstr <=? current)%nat then result ++ [[]] else result in
            SplitString_loop fuel wstr delimiter current result
        end
      else Some result
  end.

Definition SplitString (wstr : wstring) (delimiter : wchar) : list wstring :=
  default [] (SplitString_loop (S (length wstr)) wstr delimiter 0 []).

(** ** Colours *)

Definition LOBYTE (x : Z) : Z := Z.land x 0xFF.

(** [towlower], used on characters from [A] to [Z] only. *)
Definition ascii_lower (x : wchar) : wchar :=
  if (0x41 <=? x) && (x <=? 0x5A) then x + 0x20 else x.

(** The inner [for] loop of [ColorFromXParseColorSpec]: reads the digits of one
    component.  The state is the index, the rest of the string, the value, the
    digit count and whether the component is complete; [None] is the early
    return. *)
Record component_state := mkComp {
  comp_curr : wstring;
  comp_parameterValue : Z;
  comp_rgbHexDigitCount : nat;
  comp_foundColor : bool
}.

Fixpoint component_loop (n i : nat) (isSharpSignFormat : bool) (component : nat)
    (st : component_state) : option component_state :=
  match n with
  | O => Some st
  | S n =>
      match comp_curr st with
      | [] => Some st
      | wch :: rest =>
          let value := u32 (comp_parameterValue st * 16) in
          match HexToUint wch with
          | None => None
          | Some intVal =>
              let value := u32 (value + intVal) in
              if isSharpSignFormat then
                if (comp_rgbHexDigitCount st <=? i)%nat
                then Some (mkComp rest value (comp_rgbHexDigitCount st) true)
                else component_loop n (S i) isSharpSignFormat component
                       (mkComp rest value (comp_rgbHexDigitCount st) true)
              else
                let count := S i in
                match rest with
                | c :: rest' =>
                    if (component <? 2)%nat && (c =? 0x2F)
                    then Some (mkComp rest' value count true)
                    else component_loop n (S i) isSharpSignFormat component
                           (mkComp rest value count (comp_foundColor st))
                | [] => Some (mkComp rest value count true)
                end
          end
      end
  end.

(** The outer [for] loop; it returns the colour values and the rest. *)
Fixpoint components_loop (n component : nat) (isSharpSignFormat : bool) (s : wstring)
    (count : nat) : option (list Z * wstring) :=
  match n with
  | O => Some ([], s)
  | S n =>
      let iteration := if isSharpSignFormat then count else 4%nat in
      match component_loop iteration 0 isSharpSignFormat component
              (mkComp s 0 count false) with
      | None => None
      | Some st =>
          if negb (comp_foundColor st) then None
          else
            let scaleMultiplier := if isSharpSignFormat then 0x10 else 0x11 in
            let scaleDivisor :=
              Z.shiftr (Z.shiftl scaleMultiplier 8)
                (4 * (4 - Z.of_nat (comp_rgbHexDigitCount st))) in
            let colorValue := u32 (comp_parameterValue st * scaleMultiplier) / scaleDivisor in
            match components_loop n (S component) isSharpSignFormat (comp_curr st)
                    (comp_rgbHexDigitCount st) with
            | None => None
            | Some (vs, rest) => Some (colorValue :: vs, rest)
            end
      end
  end.

Definition ColorFromXParseColorSpec (string : wstring) : option color :=
  let stringSize := length string in
  let isRgb := (4 <? stringSize)%nat &&
               bool_decide (map ascii_lower (take 4 string) = L"rgb:") in
  let isSharp := negb isRgb && (1 <? stringSize)%nat &&
                 bool_decide (head string = Some 0x23) in
  let finish (isSharpSignFormat : bool) (curr : wstring) (count : nat) :=
    match components_loop 3 0 isSharpSignFormat curr count with
    | Some ([v0; v1; v2], []) => Some (rgb (LOBYTE v0) (LOBYTE v1) (LOBYTE v2))
    | _ => None
    end in
  if isRgb then
    if (stringSize <? 9)%nat || (18 <? stringSize)%nat then None
    else finish false (drop 4 string) 0%nat
  else if isSharp then
    if (stringSize =? 4)%nat || (stringSize =? 7)%nat || (stringSize =? 10)%nat
       || (stringSize =? 13)%nat
    then finish true (drop 1 string) ((stringSize - 1) / 3)%nat
    else None
  else None.

(** [COLORREF INVALID_COLOR] of [conattrs.hpp]. *)
Definition INVALID_COLOR : Z := 0xFFFFFFFF.

(** [ColorFromRGB100]: the look-up table, and the colour; the arguments are
    converted to [unsigned] by the comparison with [100u]. *)
Definition scale100To255 (i : Z) : Z := u8 ((i * 255 + 50) / 100).

Definition ColorFromRGB100 (r g b : Z) : color :=
  rgb (scale100To255 (Z.min (u32 r) 100)) (scale100To255 (Z.min (u32 g) 100))
      (scale100To255 (Z.min (u32 b) 100)).

(** ** Pasted text *)

(** [FilterOption] is a set of flags. *)
Definition CarriageReturnNewline : Z := Z.shiftl 1 0.
Definition ControlCodes : Z := Z.shiftl 1 1.
Definition WI_IsFlagSet (opt flag : Z) : bool := negb (Z.land opt flag =? 0).

Definition isControlCode (c : wchar) : bool :=
  if (0x20 <=? c) && (c <? 0x7F) then false
  else if 0x9F <? c then false
  else negb (c =? 0x09) && negb (c =? 0x0A) && negb (c =? 0x0D).

Definition slice (wstr : wstring) (begin pos : nat) : wstring :=
  take (pos - begin) (drop begin wstr).

(** The [while] loop of [FilterStringForPaste]; [n] counts the characters from
    [pos] on.  It returns [filtered] and [begin]. *)
Fixpoint FilterStringForPaste_loop (n : nat) (wstr : wstring) (opt : Z)
    (pos begin : nat) (filtered : wstring) : wstring * nat :=
  match n, wstr !! pos with
  | S n, Some c =>
      if WI_IsFlagSet opt CarriageReturnNewline && (c =? 0x0A) then
        let filtered := filtered ++ slice wstr begin pos in
        let filtered :=
          if (0 <? pos)%nat && bool_decide (wstr !! (pos - 1)%nat = Some 0x0D)
          then filtered else filtered ++ [0x0D] in
        FilterStringForPaste_loop n wstr opt (S pos) (S pos) filtered
      else if WI_IsFlagSet opt ControlCodes && isControlCode c then
        FilterStringForPaste_loop n wstr opt (S pos) (S pos)
          (filtered ++ slice wstr begin pos)
      else FilterStringForPaste_loop n wstr opt (S pos) begin filtered
  | _, _ => (filtered, begin)
  end.

Definition FilterStringForPaste (wstr : wstring) (opt : Z) : wstring :=
  let '(filtered, begin) := FilterStringForPaste_loop (length wstr) wstr opt 0 0 [] in
  if (begin =? 0)%nat then wstr else filtered ++ drop begin wstr.

(** ** Lists *)

(** The parts of a string between delimiters, and their inverse. *)
Fixpoint split (d : wchar) (s : wstring) : list wstring :=
  match s with
  | [] => [[]]
  | c :: s =>
      if c =? d then [] :: split d s
      else match split d s with
           | p :: ps => (c :: p) :: ps
           | [] => [[c]]
           end
  end.

Fixpoint join (d : wchar) (ps : list wstring) : wstring :=
  match ps with
  | [] => []
  | [p] => p
  | p :: ps => p ++ d :: join d ps
  end.

Lemma find_char_None d s : find_char d s = None -> split d s = [s].
Proof.
  induction s as [|c s IH]; [done|]. cbn. destruct (c =? d); [done|].
  intros Hf. apply fmap_None in Hf. by rewrite IH.
Qed.

Lemma find_char_Some d s n :
  find_char d s = Some n ->
  (n < length s)%nat /\ split d s = take n s :: split d (drop (S n) s).
Proof.
  revert n. induction s as [|c s IH]; intros n; [done|]. cbn [find_char split].
  destruct (c =? d) eqn:Hc; [intros [= <-]; cbn; split; [lia|by rewrite drop_0]|].
  intros Hf. apply fmap_Some in Hf as (m & Hm & ->). destruct (IH m Hm) as [Hlt ->].
  cbn. split; [lia|done].
Qed.

Lemma SplitString_loop_spec fuel w d current result :
  (length w - current < fuel)%nat ->
  SplitString_loop fuel w d current result =
  Some (result ++ if (current <? length w)%nat then split d (drop current w) else []).
Proof.
  revert current result. induction fuel as [|fuel IH]; intros current result Hf; [lia|].
  cbn [SplitString_loop]. destruct (Nat.ltb_spec current (length w)) as [Hc|Hc];
    [|by rewrite app_nil_r].
  unfold wstring_find. destruct (find_char d (drop current w)) as [n|] eqn:Hn; cbn [fmap option_fmap option_map].
  - apply find_char_Some in Hn as [Hlt ->]. rewrite length_drop in Hlt.
    replace (current + n - current)%nat with n by lia. rewrite IH by lia.
    rewrite drop_drop. replace (current + S n)%nat with (current + n + 1)%nat by lia.
    destruct (Nat.leb_spec (length w) (current + n + 1)) as [Hl|Hl];
      (destruct (Nat.ltb_spec (current + n + 1) (length w)); [try lia|try lia]).
    + rewrite (drop_ge w (current + n + 1)) by lia. rewrite <- !app_assoc. done.
    + by rewrite <- app_assoc.
  - by rewrite (find_char_None _ _ Hn).
Qed.

Lemma SplitString_split w d : w <> [] -> SplitString w d = split d w.
Proof.
  intros Hw. unfold SplitString. rewrite SplitString_loop_spec by lia.
  destruct w as [|c w]; [done|]. done.
Qed.

Lemma split_nonempty d s : split d s <> [].
Proof. destruct s as [|c s]; cbn; [done|]. destruct (c =? d); [done|]. by destruct (split d s). Qed.

Lemma join_cons d p ps : ps <> [] -> join d (p :: ps) = p ++ d :: join d ps.
Proof. by destruct ps. Qed.

Lemma join_split d s : join d (split d s) = s.
Proof.
  induction s as [|c s IH]; [done|]. cbn [split]. pose proof (split_nonempty d s) as Hne.
  destruct (Z.eqb_spec c d) as [->|_].
  - rewrite join_cons by done. by rewrite IH.
  - destruct (split d s) as [|p ps] eqn:Hs; [done|]. destruct ps as [|q ps].
    + cbn in *. by rewrite IH.
    + rewrite (join_cons d (c :: p)) by done. rewrite join_cons in IH by done.
      cbn [app]. by rewrite IH.
Qed.

Lemma split_no_delimiter d s : Forall (fun p => d ∉ p) (split d s).
Proof.
  induction s as [|c s IH]; cbn; [repeat constructor; apply not_elem_of_nil|].
  destruct (Z.eqb_spec c d) as [->|Hc]; [constructor; [apply not_elem_of_nil|done]|].
  destruct (split d s) as [|p ps]; [repeat constructor; rewrite not_elem_of_cons; split; [congruence|apply not_elem_of_nil]|].
  inversion_clear IH as [|? ? Hp Hps]. constructor; [|done].
  rewrite not_elem_of_cons. split; [congruence|done].
Qed.

(** ** Numbers *)

(** The value of decimal digits. *)
Definition decimal_value (s : wstring) : Z := foldl (fun v c => v * 10 + (c - 0x30)) 0 s.

Lemma StringToUint_loop_spec s acc :
  StringToUint_loop s acc =
  if forallb _isNumber s
  then Some (match s with [] => acc | _ => u32 (foldl (fun v c => v * 10 + (c - 0x30)) acc s) end)
  else None.
Proof.
  revert acc. induction s as [|c s IH]; intros acc; [done|]. cbn [StringToUint_loop forallb].
  destruct (_isNumber c); [|done]. rewrite IH. cbn [andb].
  destruct (forallb _isNumber s); [|done]. f_equal. unfold wrapu. cbn [foldl].
  assert (Hw : forall l x y, x mod 2 ^ 32 = y mod 2 ^ 32 ->
    foldl (fun v c => v * 10 + (c - 0x30)) x l mod 2 ^ 32 =
    foldl (fun v c => v * 10 + (c - 0x30)) y l mod 2 ^ 32).
  { induction l as [|e l IHl]; intros x y Hxy; [done|]. cbn. apply IHl.
    rewrite Z.add_mod, Z.mul_mod, Hxy, <- Z.mul_mod, <- Z.add_mod by lia. done. }
  assert (He : (((acc * 10) mod 2 ^ 32 + (c - 0x30)) mod 2 ^ 32) mod 2 ^ 32 =
               (acc * 10 + (c - 0x30)) mod 2 ^ 32).
  { rewrite Z.mod_mod, Zplus_mod_idemp_l by lia. done. }
  destruct s as [|e s]; [rewrite Z.mod_mod in He by lia; exact He|]. by apply Hw.
Qed.

(** ** Pasted text *)

(** What becomes of one character of pasted text, given the one before it. *)
Definition paste_char (opt : Z) (previous : option wchar) (c : wchar) : wstring :=
  if WI_IsFlagSet opt CarriageReturnNewline && (c =? 0x0A) then
    if bool_decide (previous = Some 0x0D) then [] else [0x0D]
  else if WI_IsFlagSet opt ControlCodes && isControlCode c then []
  else [c].

Fixpoint paste_filter (opt : Z) (previous : option wchar) (s : wstring) : wstring :=
  match s with
  | [] => []
  | c :: s => paste_char opt previous c ++ paste_filter opt (Some c) s
  end.

(** The character before a position. *)
Definition char_before (w : wstring) (pos : nat) : option wchar :=
  if (0 <? pos)%nat then w !! (pos - 1)%nat else None.

Lemma slice_refl w k : slice w k k = [].
Proof. unfold slice. by rewrite Nat.sub_diag. Qed.

Lemma slice_app_drop w begin pos :
  (begin <= pos)%nat -> slice w begin pos ++ drop pos w = drop begin w.
Proof.
  intros Hle. unfold slice. rewrite <- (take_drop (pos - begin) (drop begin w)) at 2.
  rewrite drop_drop. by replace (begin + (pos - begin))%nat with pos by lia.
Qed.

Lemma slice_snoc w begin pos c :
  (begin <= pos)%nat -> w !! pos = Some c -> slice w begin (S pos) = slice w begin pos ++ [c].
Proof.
  intros Hle Hc. unfold slice. replace (S pos - begin)%nat with (S (pos - begin)) by lia.
  apply take_S_r. rewrite lookup_drop. by replace (begin + (pos - begin))%nat with pos by lia.
Qed.

Lemma FilterStringForPaste_loop_spec n w opt pos begin filtered :
  (n = length w - pos)%nat -> (begin <= pos)%nat -> (begin = 0%nat -> filtered = []) ->
  let res := FilterStringForPaste_loop n w opt pos begin filtered in
  res.1 ++ drop res.2 w =
    filtered ++ slice w begin pos ++ paste_filter opt (char_before w pos) (drop pos w) /\
  (res.2 = 0%nat -> res.1 = []).
Proof.
  revert pos begin filtered. induction n as [|n IH]; intros pos begin filtered Hn Hb Hf.
  { cbn. split; [|done]. rewrite (drop_ge w pos) by lia. cbn [paste_filter].
    rewrite app_nil_r. unfold slice. rewrite take_ge; [done|]. rewrite length_drop. lia. }
  destruct (lookup_lt_is_Some_2 w pos ltac:(lia)) as [c Hc]. cbn [FilterStringForPaste_loop].
  rewrite Hc. rewrite (drop_S _ _ _ Hc). cbn [paste_filter]. unfold paste_char.
  assert (Hprev : char_before w (S pos) = Some c).
  { unfold char_before. cbn. by rewrite Nat.sub_0_r. }
  assert (Hcr : (0 <? pos)%nat && bool_decide (w !! (pos - 1)%nat = Some 0x0D) =
                bool_decide (char_before w pos = Some 0x0D)).
  { unfold char_before. by destruct (0 <? pos)%nat. }
  rewrite Hcr. clear Hcr. case_if; [|case_if].
  - destruct (IH (S pos) (S pos)
      (if bool_decide (char_before w pos = Some 0x0D) then filtered ++ slice w begin pos
       else (filtered ++ slice w begin pos) ++ [0x0D])) as [H1 H2]; [lia|lia|lia|].
    split; [|done]. etrans; [exact H1|]. rewrite slice_refl, Hprev.
    case_if; cbn [app]; rewrite <- ?app_assoc; done.
  - destruct (IH (S pos) (S pos) (filtered ++ slice w begin pos)) as [H1 H2]; [lia|lia|lia|].
    split; [|done]. etrans; [exact H1|]. rewrite slice_refl, Hprev, <- app_assoc. done.
  - destruct (IH (S pos) begin filtered) as [H1 H2]; [lia|lia|done|].
    split; [|done]. etrans; [exact H1|].
    rewrite (slice_snoc _ _ _ c), Hprev, <- app_assoc by (done || lia). done.
Qed.

Lemma FilterStringForPaste_ref w opt :
  FilterStringForPaste w opt = paste_filter opt None w.
Proof.
  unfold FilterStringForPaste.
  destruct (FilterStringForPaste_loop_spec (length w) w opt 0 0 []) as [H1 H2];
    [lia|lia|done|].
  destruct (FilterStringForPaste_loop _ _ _ _ _ _) as [f b]; cbn [fst snd] in *.
  change (char_before w 0) with (@None Z) in H1. rewrite slice_refl, drop_0 in H1.
  destruct (Nat.eqb_spec b 0) as [->|_]; [|exact H1].
  rewrite (H2 eq_refl), drop_0 in H1. exact H1.
Qed.

Lemma paste_filter_safe opt prev w :
  WI_IsFlagSet opt ControlCodes = true ->
  Forall (fun c => isControlCode c = false /\
                   (WI_IsFlagSet opt CarriageReturnNewline = true -> c <> 0x0A))
         (paste_filter opt prev w).
Proof.
  intros Hcc. revert prev. induction w as [|c w IH]; intros prev; [constructor|].
  cbn [paste_filter]. apply Forall_app. split; [|apply IH]. unfold paste_char. rewrite Hcc.
  destruct (WI_IsFlagSet opt CarriageReturnNewline) eqn:Hf; cbn [andb];
    repeat case_if; try (apply Forall_nil; exact I); apply Forall_singleton; split; try done;
    intros _; bool_prop; done.
Qed.

(** ** Colour specifications *)

Definition is_hex (c : wchar) : Prop := is_Some (HexToUint c).

#[export] Instance is_hex_dec c : Decision (is_hex c).
Proof. unfold is_hex. apply _. Defined.

Definition hex_digit (c : wchar) : Z := default 0 (HexToUint c).

(** The value of hexadecimal digits, after those worth [v]. *)
Definition hex_value_from (v : Z) (ds : wstring) : Z :=
  foldl (fun v c => v * 16 + hex_digit c) v ds.

Lemma HexToUint_range c v : HexToUint c = Some v -> 0 <= v < 16.
Proof. unfold HexToUint. repeat case_if; intros [= <-] || done; bool_prop; lia. Qed.

Lemma hex_digit_range c : 0 <= hex_digit c < 16.
Proof.
  unfold hex_digit. destruct (HexToUint c) eqn:Hc; cbn; [by eapply HexToUint_range|lia].
Qed.

Lemma slash_not_hex c : is_hex c -> c <> 0x2F.
Proof. intros [v Hv] ->. done. Qed.

Lemma hex_value_from_range v n ds :
  0 <= v < 16 ^ Z.of_nat n -> 0 <= hex_value_from v ds < 16 ^ Z.of_nat (n + length ds).
Proof.
  revert v n. induction ds as [|d ds IH]; intros v n Hv; cbn [length]; [by rewrite Nat.add_0_r|].
  rewrite <- Nat.add_succ_comm. apply IH. pose proof (hex_digit_range d).
  rewrite Nat2Z.inj_succ, Z.pow_succ_r by lia. lia.
Qed.

(** One component of a specification: one to four hexadecimal digits. *)
Definition is_component (ds : wstring) : Prop :=
  (1 <= length ds <= 4)%nat /\ Forall is_hex ds.

(** Its value in a colour: a single digit is scaled by [m], of longer components
    the two leading digits count. *)
Definition scaled (m : Z) (ds : wstring) : Z :=
  if (length ds =? 1)%nat then m * hex_value_from 0 ds
  else hex_value_from 0 ds / 16 ^ (Z.of_nat (length ds) - 2).

(** The specifications [XParseColor] documents. *)
Inductive xcolor_spec : wstring -> color -> Prop :=
| rgb_spec p x y z :
    map ascii_lower p = L"rgb:" -> is_component x -> is_component y -> is_component z ->
    xcolor_spec (p ++ x ++ 0x2F :: y ++ 0x2F :: z) (rgb (scaled 17 x) (scaled 17 y) (scaled 17 z))
| sharp_spec x y z :
    is_component x -> is_component y -> is_component z ->
    length y = length x -> length z = length x ->
    xcolor_spec (0x23 :: x ++ y ++ z) (rgb (scaled 16 x) (scaled 16 y) (scaled 16 z)).

(** Accumulating a digit never overflows: there are at most four. *)
Lemma accumulate_digit v i c d :
  (i < 4)%nat -> 0 <= v < 16 ^ Z.of_nat i -> HexToUint c = Some d ->
  u32 (u32 (v * 16) + d) = v * 16 + hex_digit c /\
  0 <= v * 16 + hex_digit c < 16 ^ Z.of_nat (S i).
Proof.
  intros Hi Hv Hd. pose proof (hex_digit_range c) as Hc. unfold hex_digit in *.
  rewrite Hd in *. cbn [default from_option id] in *.
  assert (Hp : 16 ^ Z.of_nat i <= 16 ^ 3) by (apply Z.pow_le_mono_r; lia).
  rewrite Nat2Z.inj_succ, Z.pow_succ_r by lia.
  rewrite (wrapu_small 32 (v * 16)), wrapu_small by lia. lia.
Qed.

(** How the digits of an [rgb:] component end. *)
Definition rgb_end (component : nat) (s ds rest : wstring) : Prop :=
  (s = ds /\ rest = []) \/ ((component < 2)%nat /\ s = ds ++ 0x2F :: rest).

(** What the loop over a component of the first format reads. *)
Definition rgb_component (n i k : nat) (s : wstring) (v : Z) (st : component_state) : Prop :=
  exists ds, (1 <= length ds <= n)%nat /\ Forall is_hex ds /\
    rgb_end k s ds (comp_curr st) /\
    st = mkComp (comp_curr st) (hex_value_from v ds) (i + length ds) true.

(** The first character is a digit. *)
Lemma rgb_component_head n i k c s v st : rgb_component n i k (c :: s) v st -> is_hex c.
Proof.
  intros (ds & Hl & Hds & He & _). destruct ds as [|e ds]; [cbn in Hl; lia|].
  assert (e = c) as -> by (destruct He as [[[=] _]|[_ [=]]]; congruence).
  by inversion_clear Hds.
Qed.

(** A digit that ends the component, at the end of the string or before a slash. *)
Lemma rgb_component_last n i k c s rest v st :
  is_hex c -> (s = [] /\ rest = []) \/ ((k < 2)%nat /\ s = 0x2F :: rest) ->
  rgb_component (S n) i k (c :: s) v st <-> st = mkComp rest (hex_value_from v [c]) (S i) true.
Proof.
  intros Hc Hs. split.
  - intros (ds & Hl & Hds & He & Hst). destruct ds as [|x [|y ds]]; [cbn in Hl; lia| |].
    + rewrite Hst. cbn [length]. rewrite Nat.add_1_r.
      assert (x = c /\ comp_curr st = rest) as [-> ->]; [|done].
      destruct Hs as [[-> ->]|[Hk ->]], He as [[[=] Hr]|[_ [=]]]; by split.
    + exfalso. inversion_clear Hds as [|? ? _ Hds']. inversion_clear Hds' as [|? ? Hy _].
      destruct Hs as [[-> ->]|[Hk ->]], He as [[[=] Hr]|[_ [=]]]; subst; by apply slash_not_hex in Hy.
  - intros ->. exists [c]. cbn [length comp_curr]. rewrite Nat.add_1_r.
    split; [lia|]. split; [by repeat constructor|]. split; [|done].
    destruct Hs as [[-> ->]|[Hk ->]]; [by left|by right].
Qed.

(** A digit before another character of the component. *)
Lemma rgb_component_step n i k c d e s v st :
  HexToUint c = Some d -> ~ ((k < 2)%nat /\ e = 0x2F) ->
  rgb_component (S n) i k (c :: e :: s) v st <->
  rgb_component n (S i) k (e :: s) (hex_value_from v [c]) st.
Proof.
  intros Hd Hne. split.
  - intros (ds & Hl & Hds & He & Hst). destruct ds as [|x ds]; [cbn in Hl; lia|].
    inversion_clear Hds as [|? ? Hx Hds']. cbn [length] in *.
    assert (x = c) as -> by (destruct He as [[[=] _]|[_ [=]]]; congruence).
    assert (Hend : rgb_end k (e :: s) ds (comp_curr st)).
    { destruct He as [[[=] Hr]|[Hk [= Hs]]]; [by left|by right]. }
    exists ds. split; [|split; [done|split; [done|]]].
    + destruct ds; [|cbn in *; lia]. exfalso. by destruct Hend as [[[=] _]|[Hk [= -> _]]]; apply Hne.
    + etrans; [exact Hst|]. cbn. f_equal. lia.
  - intros (ds & Hl & Hds & He & Hst). exists (c :: ds). cbn [length].
    split; [lia|]. split; [constructor; [by exists d|done]|]. split.
    + destruct He as [[-> Hr]|[Hk Hs]]; [left; done|right; split; [done|by rewrite Hs]].
    + etrans; [exact Hst|]. cbn. f_equal. lia.
Qed.

Lemma component_loop_rgb n i k s v count st :
  (i + n <= 4)%nat -> 0 <= v < 16 ^ Z.of_nat i ->
  (component_loop n i false k (mkComp s v count false) = Some st /\
   comp_foundColor st = true) <-> rgb_component n i k s v st.
Proof.
  revert i s v count. induction n as [|n IH]; intros i s v count Hi Hv.
  { split; [intros [[= <-] Hf]; done|intros (ds & Hl & _); lia]. }
  cbn [component_loop comp_curr comp_parameterValue comp_rgbHexDigitCount comp_foundColor].
  destruct s as [|c s].
  { split; [intros [[= <-] Hf]; done|].
    intros (ds & Hl & _ & [[<- _]|[_ Hs]] & _); [cbn in Hl; lia|by destruct ds]. }
  destruct (HexToUint c) as [d|] eqn:Hd; cycle 1.
  { split; [by intros [? _]|]. intros [x Hx]%rgb_component_head. congruence. }
  assert (Hc : is_hex c) by (by exists d).
  destruct (accumulate_digit v i c d ltac:(lia) Hv Hd) as [-> Hv'].
  destruct s as [|e s]; [|destruct ((k <? 2)%nat && (e =? 0x2F)) eqn:He].
  - rewrite (rgb_component_last n i k c [] [] v st Hc) by (by left).
    split; [by intros [[= <-] _]|by intros ->].
  - bool_prop. apply Nat.ltb_lt in H. subst e.
    rewrite (rgb_component_last n i k c _ s v st Hc) by (by right).
    split; [by intros [[= <-] _]|by intros ->].
  - rewrite (IH (S i) (e :: s) _ (S i) ltac:(lia) Hv'), (rgb_component_step n i k c d) by
      (done || (intros [Hk ->]; apply andb_false_iff in He as [He|He]; [apply Nat.ltb_ge in He; lia|done])).
    done.
Qed.

Lemma component_loop_sharp n i k s v f :
  (i + n <= 4)%nat -> 0 <= v < 16 ^ Z.of_nat i -> (n <= length s)%nat ->
  component_loop n i true k (mkComp s v (i + n) f) =
  if bool_decide (Forall is_hex (take n s))
  then Some (mkComp (drop n s) (hex_value_from v (take n s)) (i + n) (f || (0 <? n)%nat))
  else None.
Proof.
  revert i s v f. induction n as [|n IH]; intros i s v f Hi Hv Hl.
  { cbn. rewrite drop_0, orb_false_r. by rewrite bool_decide_eq_true_2 by constructor. }
  destruct s as [|c s]; [cbn in Hl; lia|].
  cbn [component_loop comp_curr comp_parameterValue comp_rgbHexDigitCount comp_foundColor take drop].
  destruct (HexToUint c) as [d|] eqn:Hd; cycle 1.
  { rewrite bool_decide_eq_false_2; [done|]. intros Hf. inversion_clear Hf as [|? ? [x Hx] _].
    congruence. }
  destruct (accumulate_digit v i c d ltac:(lia) Hv Hd) as [-> Hv'].
  destruct (Nat.leb_spec (i + S n) i); [lia|].
  replace (i + S n)%nat with (S i + n)%nat by lia. rewrite IH by (done || cbn in *; lia).
  assert (Hiff : Forall is_hex (c :: take n s) <-> Forall is_hex (take n s)).
  { split; [by inversion_clear 1|]. intros Hf. constructor; [by exists d|done]. }
  rewrite (bool_decide_ext _ _ Hiff). cbn [hex_value_from foldl]. by rewrite !orb_true_r.
Qed.

(** Scaling a component of [n] digits by the code's multiplier and divisor. *)
Lemma scale_component m ds :
  is_component ds -> m = 16 \/ m = 17 ->
  LOBYTE (u32 (hex_value_from 0 ds * m) /
          Z.shiftr (Z.shiftl m 8) (4 * (4 - Z.of_nat (length ds)))) = scaled m ds.
Proof.
  intros [Hl Hh] Hm. pose proof (hex_value_from_range 0 0 ds ltac:(cbn; lia)) as Hr.
  cbn [Nat.add] in Hr. unfold scaled, LOBYTE.
  assert (Hp : 16 ^ Z.of_nat (length ds) <= 16 ^ 4) by (apply Z.pow_le_mono_r; lia).
  rewrite wrapu_small by lia. change 0xFF with (Z.ones 8). rewrite Z.land_ones by lia.
  generalize (hex_value_from 0 ds) as v, Hr, Hp. intros v Hv _.
  assert (length ds = 1 \/ length ds = 2 \/ length ds = 3 \/ length ds = 4)%nat as Hcase by lia.
  destruct Hcase as [E|[E|[E|E]]]; rewrite E in *; destruct Hm as [-> | ->];
    cbn [Nat.eqb] in *; eval_ground; Z.to_euclidean_division_equations; lia.
Qed.

(** The value the code computes for a component. *)
Definition raw_scaled (m : Z) (ds : wstring) : Z :=
  u32 (hex_value_from 0 ds * m) / Z.shiftr (Z.shiftl m 8) (4 * (4 - Z.of_nat (length ds))).

Lemma components_rgb_step n k s count v vs rest :
  components_loop (S n) k false s count = Some (v :: vs, rest) <->
  exists ds s', is_component ds /\ rgb_end k s ds s' /\ v = raw_scaled 17 ds /\
    components_loop n (S k) false s' (length ds) = Some (vs, rest).
Proof.
  cbn [components_loop].
  pose proof (fun st => component_loop_rgb 4 0 k s 0 count st ltac:(lia) ltac:(cbn; lia)) as Hc.
  split.
  - destruct (component_loop _ _ _ _ _) as [st|] eqn:Hst; [|done].
    destruct (comp_foundColor st) eqn:Hf; [|done]. cbn [negb].
    destruct (proj1 (Hc st) (conj eq_refl Hf)) as (ds & Hl & Hh & He & Hst').
    rewrite Hst'. cbn [comp_curr comp_parameterValue comp_rgbHexDigitCount Nat.add].
    destruct (components_loop n _ _ _ _) as [[vs' rest']|] eqn:Hn; [|done].
    intros [= <- <- <-]. exists ds, (comp_curr st). done.
  - intros (ds & s' & [Hl Hh] & He & -> & Hn).
    destruct (proj2 (Hc (mkComp s' (hex_value_from 0 ds) (length ds) true))) as [-> _];
      [by exists ds|]. cbn [comp_foundColor comp_curr comp_parameterValue comp_rgbHexDigitCount negb].
    by rewrite Hn.
Qed.

Lemma components_rgb s count v0 v1 v2 :
  components_loop 3 0 false s count = Some ([v0; v1; v2], []) <->
  exists x y z, is_component x /\ is_component y /\ is_component z /\
    s = x ++ 0x2F :: y ++ 0x2F :: z /\
    v0 = raw_scaled 17 x /\ v1 = raw_scaled 17 y /\ v2 = raw_scaled 17 z.
Proof.
  assert (Hne : forall k s' ds rest, is_component ds -> rgb_end k s' ds rest -> s' <> []).
  { intros k s' ds rest [Hl _] [[-> _]|[_ ->]] Hn; [by rewrite Hn in Hl; cbn in Hl; lia|by destruct ds]. }
  split.
  - intros Hc. apply components_rgb_step in Hc as (x & s1 & Hx & He1 & -> & Hc).
    apply components_rgb_step in Hc as (y & s2 & Hy & He2 & -> & Hc).
    apply components_rgb_step in Hc as (z & s3 & Hz & He3 & -> & Hend). clear Hend.
    pose proof (Hne _ _ _ _ Hy He2). pose proof (Hne _ _ _ _ Hz He3).
    destruct He1 as [[E1 F1]|[_ E1]], He2 as [[E2 F2]|[_ E2]], He3 as [[E3 _]|[? _]];
      subst; try done; try lia. by exists x, y, z.
  - intros (x & y & z & Hx & Hy & Hz & -> & -> & -> & ->).
    apply components_rgb_step. exists x, (y ++ 0x2F :: z). split_and!; [done|right; split; [lia|done]|done|].
    apply components_rgb_step. exists y, z. split_and!; [done|right; split; [lia|done]|done|].
    apply components_rgb_step. exists z, []. split_and!; [done|by left|done|done].
Qed.

Lemma components_sharp_step n k s count :
  (1 <= count <= 4)%nat -> (count <= length s)%nat ->
  components_loop (S n) k true s count =
  if bool_decide (Forall is_hex (take count s)) then
    (fun '(vs, rest) => (raw_scaled 16 (take count s) :: vs, rest)) <$>
      components_loop n (S k) true (drop count s) count
  else None.
Proof.
  intros Hc Hl. cbn [components_loop].
  pose proof (component_loop_sharp count 0 k s 0 false ltac:(lia) ltac:(cbn; lia) Hl) as Hs.
  cbn [Nat.add] in Hs. rewrite Hs. case_if; [|done].
  destruct (Nat.ltb_spec 0 count); [|lia].
  cbn [orb negb comp_foundColor comp_curr comp_parameterValue comp_rgbHexDigitCount].
  unfold raw_scaled. rewrite length_take_le by lia.
  by destruct (components_loop n _ _ _ _) as [[vs rest]|].
Qed.

Lemma components_sharp s count v0 v1 v2 :
  (1 <= count <= 4)%nat -> length s = (3 * count)%nat ->
  components_loop 3 0 true s count = Some ([v0; v1; v2], []) <->
  exists x y z, is_component x /\ is_component y /\ is_component z /\
    s = x ++ y ++ z /\ length x = count /\ length y = count /\ length z = count /\
    v0 = raw_scaled 16 x /\ v1 = raw_scaled 16 y /\ v2 = raw_scaled 16 z.
Proof.
  intros Hc Hl. assert (exists x y z, s = x ++ y ++ z /\ length x = count /\ length y = count /\
    length z = count) as (x & y & z & -> & Hx & Hy & Hz).
  { exists (take count s), (take count (drop count s)), (drop count (drop count s)).
    rewrite !take_drop. split; [done|].
    rewrite !length_take, !length_drop. lia. }
  rewrite components_sharp_step by (rewrite ?length_app; lia).
  rewrite take_app_length', drop_app_length' by done.
  rewrite components_sharp_step by (rewrite ?length_app; lia).
  rewrite take_app_length', drop_app_length' by done.
  rewrite components_sharp_step by lia. rewrite take_ge, drop_ge by lia.
  split.
  - repeat case_bool_decide; try done. intros [= <- <- <-]. exists x, y, z.
    unfold is_component. rewrite Hx, Hy, Hz. done.
  - intros (x' & y' & z' & [_ Hx'] & [_ Hy'] & [_ Hz'] & E & L1 & L2 & L3 & -> & -> & ->).
    apply app_inj_1 in E as [-> E]; [|congruence]. apply app_inj_1 in E as [-> ->]; [|congruence].
    by rewrite !bool_decide_eq_true_2 by done.
Qed.

Lemma finish_colour sharp s count c :
  match components_loop 3 0 sharp s count with
  | Some ([v0; v1; v2], []) => Some (rgb (LOBYTE v0) (LOBYTE v1) (LOBYTE v2))
  | _ => None
  end = Some c <->
  exists v0 v1 v2, components_loop 3 0 sharp s count = Some ([v0; v1; v2], []) /\
    c = rgb (LOBYTE v0) (LOBYTE v1) (LOBYTE v2).
Proof.
  split.
  - destruct (components_loop _ _ _ _ _) as [[[|v0 [|v1 [|v2 [|]]]] [|]]|]; try done.
    intros [= <-]. by exists v0, v1, v2.
  - intros (v0 & v1 & v2 & -> & ->). done.
Qed.

Lemma xcolor_rgb_prefix s c :
  (4 < length s)%nat -> map ascii_lower (take 4 s) = L"rgb:" ->
  xcolor_spec s c <->
  exists x y z, is_component x /\ is_component y /\ is_component z /\
    drop 4 s = x ++ 0x2F :: y ++ 0x2F :: z /\
    c = rgb (scaled 17 x) (scaled 17 y) (scaled 17 z).
Proof.
  intros Hl Hp. split.
  - intros Hs. destruct Hs as [p x y z Hp' Hx Hy Hz|x y z]; [|done].
    assert (length p = 4%nat) by (apply (f_equal length) in Hp'; by rewrite length_map in Hp').
    exists x, y, z. rewrite drop_app_length' by done. done.
  - intros (x & y & z & Hx & Hy & Hz & Hd & ->). rewrite <- (take_drop 4 s), Hd.
    by constructor.
Qed.

Lemma component_length ds : is_component ds -> (1 <= length ds <= 4)%nat.
Proof. by intros []. Qed.

(** The length test of the sharp sign format. *)
Definition sharp_size (n : nat) : bool :=
  (n =? 4)%nat || (n =? 7)%nat || (n =? 10)%nat || (n =? 13)%nat.

Lemma sharp_size_spec n :
  sharp_size n = true -> (1 <= (n - 1) / 3 <= 4)%nat /\ n = S (3 * ((n - 1) / 3)).
Proof.
  unfold sharp_size. intros Hn.
  assert (n = 4 \/ n = 7 \/ n = 10 \/ n = 13)%nat as [-> | [-> | [-> | ->]]].
  { rewrite !orb_true_iff, !Nat.eqb_eq in Hn. tauto. }
  all: cbn; lia.
Qed.

Lemma sharp_size_components n : (1 <= n <= 4)%nat -> sharp_size (S (n + n + n)) = true.
Proof. intros Hn. destruct n as [|[|[|[|[|]]]]]; [lia|done..|lia]. Qed.

(** The two formats, after the code has told them apart. *)
Definition finish_spec (sharp : bool) (s : wstring) (count : nat) : option color :=
  match components_loop 3 0 sharp s count with
  | Some ([v0; v1; v2], []) => Some (rgb (LOBYTE v0) (LOBYTE v1) (LOBYTE v2))
  | _ => None
  end.

Lemma rgb_case s c :
  (4 < length s)%nat -> map ascii_lower (take 4 s) = L"rgb:" ->
  (if (length s <? 9)%nat || (18 <? length s)%nat then None
   else finish_spec false (drop 4 s) 0) = Some c <-> xcolor_spec s c.
Proof.
  intros Hl Hp. rewrite xcolor_rgb_prefix by done. destruct (_ || _) eqn:Hsz.
  - split; [done|]. intros (x & y & z & Hx & Hy & Hz & Hd & _).
    apply component_length in Hx, Hy, Hz. apply (f_equal length) in Hd.
    rewrite length_drop, !length_app in Hd. cbn in Hd. rewrite length_app in Hd. cbn in Hd.
    rewrite orb_true_iff, !Nat.ltb_lt in Hsz. lia.
  - unfold finish_spec. rewrite finish_colour. setoid_rewrite components_rgb. split.
    + intros (? & ? & ? & (x & y & z & Hx & Hy & Hz & Hd & -> & -> & ->) & ->).
      exists x, y, z. unfold raw_scaled. rewrite !scale_component by auto. done.
    + intros (x & y & z & Hx & Hy & Hz & Hd & ->).
      exists (raw_scaled 17 x), (raw_scaled 17 y), (raw_scaled 17 z).
      split; [by exists x, y, z|]. unfold raw_scaled. by rewrite !scale_component by auto.
Qed.

Lemma xcolor_sharp_prefix s c :
  xcolor_spec (0x23 :: s) c <->
  exists x y z, is_component x /\ is_component y /\ is_component z /\ s = x ++ y ++ z /\
    length y = length x /\ length z = length x /\
    c = rgb (scaled 16 x) (scaled 16 y) (scaled 16 z).
Proof.
  split.
  - inversion 1 as [p x y z Hp|x y z]; subst; [|by exists x, y, z].
    destruct p as [|h p]; [done|]. by simplify_eq/=.
  - intros (x & y & z & Hx & Hy & Hz & -> & L1 & L2 & ->). by constructor.
Qed.

Lemma sharp_case s c :
  (if sharp_size (S (length s)) then finish_spec true s (length s / 3) else None) = Some c <->
  xcolor_spec (0x23 :: s) c.
Proof.
  rewrite xcolor_sharp_prefix. destruct (sharp_size _) eqn:Hsz.
  - apply sharp_size_spec in Hsz as [Hn Hl]. cbn [Nat.sub] in Hn, Hl. rewrite Nat.sub_0_r in Hn, Hl.
    unfold finish_spec. rewrite finish_colour. setoid_rewrite components_sharp; [|lia..]. split.
    + intros (? & ? & ? & (x & y & z & Hx & Hy & Hz & -> & L1 & L2 & L3 & -> & -> & ->) & ->).
      exists x, y, z. unfold raw_scaled. rewrite !scale_component by auto.
      split_and!; congruence || done.
    + intros (x & y & z & Hx & Hy & Hz & -> & L1 & L2 & ->).
      exists (raw_scaled 16 x), (raw_scaled 16 y), (raw_scaled 16 z). split.
      * exists x, y, z. rewrite !length_app in Hl |- *. split_and!; try done; lia.
      * unfold raw_scaled. by rewrite !scale_component by auto.
  - split; [done|]. intros (x & y & z & Hx & Hy & Hz & -> & L1 & L2 & _).
    apply component_length in Hx. rewrite !length_app, L1, L2, Nat.add_assoc in Hsz.
    by rewrite sharp_size_components in Hsz.
Qed.

Lemma xcolor_spec_shape s c :
  xcolor_spec s c ->
  ((4 < length s)%nat /\ map ascii_lower (take 4 s) = L"rgb:") \/
  ((1 < length s)%nat /\ head s = Some 0x23).
Proof.
  intros [p x y z Hp Hx _ _|x y z Hx _ _ _ _]; apply component_length in Hx.
  - left. assert (length p = 4%nat) by (apply (f_equal length) in Hp; by rewrite length_map in Hp).
    rewrite length_app, take_app_length', !length_app by done. split; [lia|done].
  - right. cbn. rewrite !length_app. split; [lia|done].
Qed.

(** [ColorFromXParseColorSpec] accepts exactly the specifications
    [rgb:r/g/b], with one to four hexadecimal digits for each component, and
    [#rgb], with one to four digits for each and as many for all, and yields the
    colour they name: the two leading digits of a component, or its only digit
    repeated in the first format and followed by a zero in the second. *)
Theorem ColorFromXParseColorSpec_correct (s : wstring) (c : color) :
  ColorFromXParseColorSpec s = Some c <-> xcolor_spec s c.
Proof.
  unfold ColorFromXParseColorSpec. cbv zeta. pose proof (xcolor_spec_shape s c) as Hshape.
  destruct (_ && bool_decide (map ascii_lower _ = _)) eqn:Hrgb; cbn [negb andb].
  - bool_prop. apply Nat.ltb_lt in H. apply bool_decide_eq_true in H0. by apply rgb_case.
  - destruct (_ && bool_decide (head s = _)) eqn:Hsharp.
    + bool_prop. apply bool_decide_eq_true in H0. destruct s as [|h s]; [done|].
      injection H0 as ->. rewrite <- sharp_case. cbn [length drop Nat.sub].
      by rewrite drop_0, Nat.sub_0_r.
    + split; [done|]. intros Hs. exfalso. apply andb_false_iff in Hrgb, Hsharp.
      rewrite Nat.ltb_ge, bool_decide_eq_false in Hrgb, Hsharp.
      destruct (Hshape Hs) as [[? ?]|[? ?]], Hrgb, Hsharp; done || lia.
Qed.

(** Splitting a string that is not empty at a delimiter loses nothing: the
    parts are free of the delimiter and joined with it they are the string,
    empty parts at either end included. *)
Theorem SplitString_correct (w : wstring) (d : wchar) :
  w <> [] ->
  join d (SplitString w d) = w /\ Forall (fun part => d ∉ part) (SplitString w d).
Proof.
  intros Hw. rewrite SplitString_split by done. split; [apply join_split|apply split_no_delimiter].
Qed.

Lemma SplitString_correct_witness :
  join 0x3B (SplitString (L";4;;red;") 0x3B) = L";4;;red;" /\
  Forall (fun part => 0x3B ∉ part) (SplitString (L";4;;red;") 0x3B).
Proof. apply SplitString_correct. discriminate. Defined.

(** [StringToUint] reads exactly the non-empty strings of decimal digits, and
    reads them modulo [2 ^ 32]. *)
Theorem StringToUint_correct (s : wstring) :
  StringToUint s =
  if negb (bool_decide (s = [])) && forallb _isNumber s
  then Some (decimal_value s mod 2 ^ 32) else None.
Proof.
  destruct s as [|c s]; [done|]. unfold StringToUint. rewrite StringToUint_loop_spec.
  by destruct (forallb _ _).
Qed.

(** [FilterStringForPaste], which copies runs of the text, treats each
    character by itself: with [CarriageReturnNewline] a line feed becomes a
    carriage return unless it follows one, with [ControlCodes] control characters
    other than tab, line feed and carriage return disappear, and everything else
    stays as it is. *)
Theorem FilterStringForPaste_correct (w : wstring) (opt : Z) :
  FilterStringForPaste w opt = paste_filter opt None w.
Proof. apply FilterStringForPaste_ref. Qed.

(** Pasted text filtered for control codes has none left that could start
    an escape sequence, and no line feed if those are converted. *)
Theorem FilterStringForPaste_safe (w : wstring) (opt : Z) :
  WI_IsFlagSet opt ControlCodes = true ->
  Forall (fun c => isControlCode c = false /\
                   (WI_IsFlagSet opt CarriageReturnNewline = true -> c <> 0x0A))
         (FilterStringForPaste w opt).
Proof. intros Hcc. rewrite FilterStringForPaste_ref. by apply paste_filter_safe. Qed.

Lemma FilterStringForPaste_safe_witness :
  Forall (fun c => isControlCode c = false /\
                   (WI_IsFlagSet 3 CarriageReturnNewline = true -> c <> 0x0A))
         (FilterStringForPaste [0x61; 0x1B; 0x0D; 0x0A; 0x62; 0x0A] 3).
Proof. apply FilterStringForPaste_safe. reflexivity. Defined.

Example FilterStringForPaste_lines :
  FilterStringForPaste [0x61; 0x1B; 0x0D; 0x0A; 0x62; 0x0A] 3 = [0x61; 0x0D; 0x62; 0x0D].
Proof. reflexivity. Qed.

Example ColorFromXParseColorSpec_examples :
  ColorFromXParseColorSpec (L"RGB:f/80/1234") = Some (rgb 0xFF 0x80 0x12) /\
  ColorFromXParseColorSpec (L"#f80") = Some (rgb 0xF0 0x80 0x00) /\
  ColorFromXParseColorSpec (L"#ff80") = None.
Proof. repeat split. Qed.
