(* ===== verification/ColorTable.v ===== *)
(** * Colour tables

    Models [src/src/types/colorTable.cpp], the default palette and the X11 colour
    names, and the look-up of [til::presorted_static_map] of
    [src/src/inc/til/static_map.h] that the names use.  The tables are the
    source's, entry by entry. *)

From Stdlib Require Import Sorted.
From S2P Require Import Prelude Utils.

Local Open Scope Z_scope.

(** ** [til::presorted_static_map] *)

(** [std::less] on [std::string_view]. *)
Fixpoint string_less (x y : list Z) : bool :=
  match x, y with
  | _, [] => false
  | [], _ :: _ => true
  | c :: x, d :: y => (c <? d) || ((c =? d) && string_less x y)
  end.

(** [std::partition_point]: the first of [count] elements from [first] on for
    which the predicate fails, by bisection.  [count] is halved in each
    iteration, so it is enough fuel. *)
Fixpoint partition_point {A} (fuel : nat) (pred : A -> bool) (l : list A)
    (first count : nat) : nat :=
  match fuel with
  | O => first
  | S fuel =>
      if (0 <? count)%nat then
        let half := (count / 2)%nat in
        let mid := (first + half)%nat in
        match l !! mid with
        | Some x =>
            if pred x then partition_point fuel pred l (mid + 1) (count - (half + 1))
            else partition_point fuel pred l first half
        | None => first
        end
      else first
  end.

(** [static_map::find]; [None] is [end()]. *)
Definition static_map_find {V} (array : list (list Z * V)) (key : list Z) : option V :=
  let iter :=
    partition_point (length array) (fun p => string_less p.1 key) array 0 (length array) in
  match array !! iter with
  | None => None
  | Some p => if string_less key p.1 then None else Some p.2
  end.

(** ** The tables *)

Definition standard256ColorTable : list color := [
  rgb 0x0C 0x0C 0x0C; rgb 0xC5 0x0F 0x1F; rgb 0x13 0xA1 0x0E; rgb 0xC1 0x9C 0x00;
  rgb 0x00 0x37 0xDA; rgb 0x88 0x17 0x98; rgb 0x3A 0x96 0xDD; rgb 0xCC 0xCC 0xCC;
  rgb 0x76 0x76 0x76; rgb 0xE7 0x48 0x56; rgb 0x16 0xC6 0x0C; rgb 0xF9 0xF1 0xA5;
  rgb 0x3B 0x78 0xFF; rgb 0xB4 0x00 0x9E; rgb 0x61 0xD6 0xD6; rgb 0xF2 0xF2 0xF2;
  rgb 0x00 0x00 0x00; rgb 0x00 0x00 0x5F; rgb 0x00 0x00 0x87; rgb 0x00 0x00 0xAF;
  rgb 0x00 0x00 0xD7; rgb 0x00 0x00 0xFF; rgb 0x00 0x5F 0x00; rgb 0x00 0x5F 0x5F;
  rgb 0x00 0x5F 0x87; rgb 0x00 0x5F 0xAF; rgb 0x00 0x5F 0xD7; rgb 0x00 0x5F 0xFF;
  rgb 0x00 0x87 0x00; rgb 0x00 0x87 0x5F; rgb 0x00 0x87 0x87; rgb 0x00 0x87 0xAF;
  rgb 0x00 0x87 0xD7; rgb 0x00 0x87 0xFF; rgb 0x00 0xAF 0x00; rgb 0x00 0xAF 0x5F;
  rgb 0x00 0xAF 0x87; rgb 0x00 0xAF 0xAF; rgb 0x00 0xAF 0xD7; rgb 0x00 0xAF 0xFF;
  rgb 0x00 0xD7 0x00; rgb 0x00 0xD7 0x5F; rgb 0x00 0xD7 0x87; rgb 0x00 0xD7 0xAF;
  rgb 0x00 0xD7 0xD7; rgb 0x00 0xD7 0xFF; rgb 0x00 0xFF 0x00; rgb 0x00 0xFF 0x5F;
  rgb 0x00 0xFF 0x87; rgb 0x00 0xFF 0xAF; rgb 0x00 0xFF 0xD7; rgb 0x00 0xFF 0xFF;
  rgb 0x5F 0x00 0x00; rgb 0x5F 0x00 0x5F; rgb 0x5F 0x00 0x87; rgb 0x5F 0x00 0xAF;
  rgb 0x5F 0x00 0xD7; rgb 0x5F 0x00 0xFF; rgb 0x5F 0x5F 0x00; rgb 0x5F 0x5F 0x5F;
  rgb 0x5F 0x5F 0x87; rgb 0x5F 0x5F 0xAF; rgb 0x5F 0x5F 0xD7; rgb 0x5F 0x5F 0xFF;
  rgb 0x5F 0x87 0x00; rgb 0x5F 0x87 0x5F; rgb 0x5F 0x87 0x87; rgb 0x5F 0x87 0xAF;
  rgb 0x5F 0x87 0xD7; rgb 0x5F 0x87 0xFF; rgb 0x5F 0xAF 0x00; rgb 0x5F 0xAF 0x5F;
  rgb 0x5F 0xAF 0x87; rgb 0x5F 0xAF 0xAF; rgb 0x5F 0xAF 0xD7; rgb 0x5F 0xAF 0xFF;
  rgb 0x5F 0xD7 0x00; rgb 0x5F 0xD7 0x5F; rgb 0x5F 0xD7 0x87; rgb 0x5F 0xD7 0xAF;
  rgb 0x5F 0xD7 0xD7; rgb 0x5F 0xD7 0xFF; rgb 0x5F 0xFF 0x00; rgb 0x5F 0xFF 0x5F;
  rgb 0x5F 0xFF 0x87; rgb 0x5F 0xFF 0xAF; rgb 0x5F 0xFF 0xD7; rgb 0x5F 0xFF 0xFF;
  rgb 0x87 0x00 0x00; rgb 0x87 0x00 0x5F; rgb 0x87 0x00 0x87; rgb 0x87 0x00 0xAF;
  rgb 0x87 0x00 0xD7; rgb 0x87 0x00 0xFF; rgb 0x87 0x5F 0x00; rgb 0x87 0x5F 0x5F;
  rgb 0x87 0x5F 0x87; rgb 0x87 0x5F 0xAF; rgb 0x87 0x5F 0xD7; rgb 0x87 0x5F 0xFF;
  rgb 0x87 0x87 0x00; rgb 0x87 0x87 0x5F; rgb 0x87 0x87 0x87; rgb 0x87 0x87 0xAF;
  rgb 0x87 0x87 0xD7; rgb 0x87 0x87 0xFF; rgb 0x87 0xAF 0x00; rgb 0x87 0xAF 0x5F;
  rgb 0x87 0xAF 0x87; rgb 0x87 0xAF 0xAF; rgb 0x87 0xAF 0xD7; rgb 0x87 0xAF 0xFF;
  rgb 0x87 0xD7 0x00; rgb 0x87 0xD7 0x5F; rgb 0x87 0xD7 0x87; rgb 0x87 0xD7 0xAF;
  rgb 0x87 0xD7 0xD7; rgb 0x87 0xD7 0xFF; rgb 0x87 0xFF 0x00; rgb 0x87 0xFF 0x5F;
  rgb 0x87 0xFF 0x87; rgb 0x87 0xFF 0xAF; rgb 0x87 0xFF 0xD7; rgb 0x87 0xFF 0xFF;
  rgb 0xAF 0x00 0x00; rgb 0xAF 0x00 0x5F; rgb 0xAF 0x00 0x87; rgb 0xAF 0x00 0xAF;
  rgb 0xAF 0x00 0xD7; rgb 0xAF 0x00 0xFF; rgb 0xAF 0x5F 0x00; rgb 0xAF 0x5F 0x5F;
  rgb 0xAF 0x5F 0x87; rgb 0xAF 0x5F 0xAF; rgb 0xAF 0x5F 0xD7; rgb 0xAF 0x5F 0xFF;
  rgb 0xAF 0x87 0x00; rgb 0xAF 0x87 0x5F; rgb 0xAF 0x87 0x87; rgb 0xAF 0x87 0xAF;
  rgb 0xAF 0x87 0xD7; rgb 0xAF 0x87 0xFF; rgb 0xAF 0xAF 0x00; rgb 0xAF 0xAF 0x5F;
  rgb 0xAF 0xAF 0x87; rgb 0xAF 0xAF 0xAF; rgb 0xAF 0xAF 0xD7; rgb 0xAF 0xAF 0xFF;
  rgb 0xAF 0xD7 0x00; rgb 0xAF 0xD7 0x5F; rgb 0xAF 0xD7 0x87; rgb 0xAF 0xD7 0xAF;
  rgb 0xAF 0xD7 0xD7; rgb 0xAF 0xD7 0xFF; rgb 0xAF 0xFF 0x00; rgb 0xAF 0xFF 0x5F;
  rgb 0xAF 0xFF 0x87; rgb 0xAF 0xFF 0xAF; rgb 0xAF 0xFF 0xD7; rgb 0xAF 0xFF 0xFF;
  rgb 0xD7 0x00 0x00; rgb 0xD7 0x00 0x5F; rgb 0xD7 0x00 0x87; rgb 0xD7 0x00 0xAF;
  rgb 0xD7 0x00 0xD7; rgb 0xD7 0x00 0xFF; rgb 0xD7 0x5F 0x00; rgb 0xD7 0x5F 0x5F;
  rgb 0xD7 0x5F 0x87; rgb 0xD7 0x5F 0xAF; rgb 0xD7 0x5F 0xD7; rgb 0xD7 0x5F 0xFF;
  rgb 0xD7 0x87 0x00; rgb 0xD7 0x87 0x5F; rgb 0xD7 0x87 0x87; rgb 0xD7 0x87 0xAF;
  rgb 0xD7 0x87 0xD7; rgb 0xD7 0x87 0xFF; rgb 0xD7 0xAF 0x00; rgb 0xD7 0xAF 0x5F;
  rgb 0xD7 0xAF 0x87; rgb 0xD7 0xAF 0xAF; rgb 0xD7 0xAF 0xD7; rgb 0xD7 0xAF 0xFF;
  rgb 0xD7 0xD7 0x00; rgb 0xD7 0xD7 0x5F; rgb 0xD7 0xD7 0x87; rgb 0xD7 0xD7 0xAF;
  rgb 0xD7 0xD7 0xD7; rgb 0xD7 0xD7 0xFF; rgb 0xD7 0xFF 0x00; rgb 0xD7 0xFF 0x5F;
  rgb 0xD7 0xFF 0x87; rgb 0xD7 0xFF 0xAF; rgb 0xD7 0xFF 0xD7; rgb 0xD7 0xFF 0xFF;
  rgb 0xFF 0x00 0x00; rgb 0xFF 0x00 0x5F; rgb 0xFF 0x00 0x87; rgb 0xFF 0x00 0xAF;
  rgb 0xFF 0x00 0xD7; rgb 0xFF 0x00 0xFF; rgb 0xFF 0x5F 0x00; rgb 0xFF 0x5F 0x5F;
  rgb 0xFF 0x5F 0x87; rgb 0xFF 0x5F 0xAF; rgb 0xFF 0x5F 0xD7; rgb 0xFF 0x5F 0xFF;
  rgb 0xFF 0x87 0x00; rgb 0xFF 0x87 0x5F; rgb 0xFF 0x87 0x87; rgb 0xFF 0x87 0xAF;
  rgb 0xFF 0x87 0xD7; rgb 0xFF 0x87 0xFF; rgb 0xFF 0xAF 0x00; rgb 0xFF 0xAF 0x5F;
  rgb 0xFF 0xAF 0x87; rgb 0xFF 0xAF 0xAF; rgb 0xFF 0xAF 0xD7; rgb 0xFF 0xAF 0xFF;
  rgb 0xFF 0xD7 0x00; rgb 0xFF 0xD7 0x5F; rgb 0xFF 0xD7 0x87; rgb 0xFF 0xD7 0xAF;
  rgb 0xFF 0xD7 0xD7; rgb 0xFF 0xD7 0xFF; rgb 0xFF 0xFF 0x00; rgb 0xFF 0xFF 0x5F;
  rgb 0xFF 0xFF 0x87; rgb 0xFF 0xFF 0xAF; rgb 0xFF 0xFF 0xD7; rgb 0xFF 0xFF 0xFF;
  rgb 0x08 0x08 0x08; rgb 0x12 0x12 0x12; rgb 0x1C 0x1C 0x1C; rgb 0x26 0x26 0x26;
  rgb 0x30 0x30 0x30; rgb 0x3A 0x3A 0x3A; rgb 0x44 0x44 0x44; rgb 0x4E 0x4E 0x4E;
  rgb 0x58 0x58 0x58; rgb 0x62 0x62 0x62; rgb 0x6C 0x6C 0x6C; rgb 0x76 0x76 0x76;
  rgb 0x80 0x80 0x80; rgb 0x8A 0x8A 0x8A; rgb 0x94 0x94 0x94; rgb 0x9E 0x9E 0x9E;
  rgb 0xA8 0xA8 0xA8; rgb 0xB2 0xB2 0xB2; rgb 0xBC 0xBC 0xBC; rgb 0xC6 0xC6 0xC6;
  rgb 0xD0 0xD0 0xD0; rgb 0xDA 0xDA 0xDA; rgb 0xE4 0xE4 0xE4; rgb 0xEE 0xEE 0xEE
].

Definition xorgAppVariantColorTable : list (list Z * list color) := [
  (L"antiquewhite", [rgb 250 235 215; rgb 255 239 219; rgb 238 223 204; rgb 205 192 176; rgb 139 131 120]);
  (L"aquamarine", [rgb 127 255 212; rgb 127 255 212; rgb 118 238 198; rgb 102 205 170; rgb 69 139 116]);
  (L"azure", [rgb 240 255 255; rgb 240 255 255; rgb 224 238 238; rgb 193 205 205; rgb 131 139 139]);
  (L"bisque", [rgb 255 228 196; rgb 255 228 196; rgb 238 213 183; rgb 205 183 158; rgb 139 125 107]);
  (L"blue", [rgb 0 0 255; rgb 0 0 255; rgb 0 0 238; rgb 0 0 205; rgb 0 0 139]);
  (L"brown", [rgb 165 42 42; rgb 255 64 64; rgb 238 59 59; rgb 205 51 51; rgb 139 35 35]);
  (L"burlywood", [rgb 222 184 135; rgb 255 211 155; rgb 238 197 145; rgb 205 170 125; rgb 139 115 85]);
  (L"cadetblue", [rgb 95 158 160; rgb 152 245 255; rgb 142 229 238; rgb 122 197 205; rgb 83 134 139]);
  (L"chartreuse", [rgb 127 255 0; rgb 127 255 0; rgb 118 238 0; rgb 102 205 0; rgb 69 139 0]);
  (L"chocolate", [rgb 210 105 30; rgb 255 127 36; rgb 238 118 33; rgb 205 102 29; rgb 139 69 19]);
  (L"coral", [rgb 255 127 80; rgb 255 114 86; rgb 238 106 80; rgb 205 91 69; rgb 139 62 47]);
  (L"cornsilk", [rgb 255 248 220; rgb 255 248 220; rgb 238 232 205; rgb 205 200 177; rgb 139 136 120]);
  (L"cyan", [rgb 0 255 255; rgb 0 255 255; rgb 0 238 238; rgb 0 205 205; rgb 0 139 139]);
  (L"darkgoldenrod", [rgb 184 134 11; rgb 255 185 15; rgb 238 173 14; rgb 205 149 12; rgb 139 101 8]);
  (L"darkolivegreen", [rgb 85 107 47; rgb 202 255 112; rgb 188 238 104; rgb 162 205 90; rgb 110 139 61]);
  (L"darkorange", [rgb 255 140 0; rgb 255 127 0; rgb 238 118 0; rgb 205 102 0; rgb 139 69 0]);
  (L"darkorchid", [rgb 153 50 204; rgb 191 62 255; rgb 178 58 238; rgb 154 50 205; rgb 104 34 139]);
  (L"darkseagreen", [rgb 143 188 143; rgb 193 255 193; rgb 180 238 180; rgb 155 205 155; rgb 105 139 105]);
  (L"darkslategray", [rgb 47 79 79; rgb 151 255 255; rgb 141 238 238; rgb 121 205 205; rgb 82 139 139]);
  (L"deeppink", [rgb 255 20 147; rgb 255 20 147; rgb 238 18 137; rgb 205 16 118; rgb 139 10 80]);
  (L"deepskyblue", [rgb 0 191 255; rgb 0 191 255; rgb 0 178 238; rgb 0 154 205; rgb 0 104 139]);
  (L"dodgerblue", [rgb 30 144 255; rgb 30 144 255; rgb 28 134 238; rgb 24 116 205; rgb 16 78 139]);
  (L"firebrick", [rgb 178 34 34; rgb 255 48 48; rgb 238 44 44; rgb 205 38 38; rgb 139 26 26]);
  (L"gold", [rgb 255 215 0; rgb 255 215 0; rgb 238 201 0; rgb 205 173 0; rgb 139 117 0]);
  (L"goldenrod", [rgb 218 165 32; rgb 255 193 37; rgb 238 180 34; rgb 205 155 29; rgb 139 105 20]);
  (L"green", [rgb 0 255 0; rgb 0 255 0; rgb 0 238 0; rgb 0 205 0; rgb 0 139 0]);
  (L"honeydew", [rgb 240 255 240; rgb 240 255 240; rgb 224 238 224; rgb 193 205 193; rgb 131 139 131]);
  (L"hotpink", [rgb 255 105 180; rgb 255 110 180; rgb 238 106 167; rgb 205 96 144; rgb 139 58 98]);
  (L"indianred", [rgb 205 92 92; rgb 255 106 106; rgb 238 99 99; rgb 205 85 85; rgb 139 58 58]);
  (L"ivory", [rgb 255 255 240; rgb 255 255 240; rgb 238 238 224; rgb 205 205 193; rgb 139 139 131]);
  (L"khaki", [rgb 240 230 140; rgb 255 246 143; rgb 238 230 133; rgb 205 198 115; rgb 139 134 78]);
  (L"lavenderblush", [rgb 255 240 245; rgb 255 240 245; rgb 238 224 229; rgb 205 193 197; rgb 139 131 134]);
  (L"lemonchiffon", [rgb 255 250 205; rgb 255 250 205; rgb 238 233 191; rgb 205 201 165; rgb 139 137 112]);
  (L"lightblue", [rgb 173 216 230; rgb 191 239 255; rgb 178 223 238; rgb 154 192 205; rgb 104 131 139]);
  (L"lightcyan", [rgb 224 255 255; rgb 224 255 255; rgb 209 238 238; rgb 180 205 205; rgb 122 139 139]);
  (L"lightgoldenrod", [rgb 238 221 130; rgb 255 236 139; rgb 238 220 130; rgb 205 190 112; rgb 139 129 76]);
  (L"lightpink", [rgb 255 182 193; rgb 255 174 185; rgb 238 162 173; rgb 205 140 149; rgb 139 95 101]);
  (L"lightsalmon", [rgb 255 160 122; rgb 255 160 122; rgb 238 149 114; rgb 205 129 98; rgb 139 87 66]);
  (L"lightskyblue", [rgb 135 206 250; rgb 176 226 255; rgb 164 211 238; rgb 141 182 205; rgb 96 123 139]);
  (L"lightsteelblue", [rgb 176 196 222; rgb 202 225 255; rgb 188 210 238; rgb 162 181 205; rgb 110 123 139]);
  (L"lightyellow", [rgb 255 255 224; rgb 255 255 224; rgb 238 238 209; rgb 205 205 180; rgb 139 139 122]);
  (L"magenta", [rgb 255 0 255; rgb 255 0 255; rgb 238 0 238; rgb 205 0 205; rgb 139 0 139]);
  (L"maroon", [rgb 176 48 96; rgb 255 52 179; rgb 238 48 167; rgb 205 41 144; rgb 139 28 98]);
  (L"mediumorchid", [rgb 186 85 211; rgb 224 102 255; rgb 209 95 238; rgb 180 82 205; rgb 122 55 139]);
  (L"mediumpurple", [rgb 147 112 219; rgb 171 130 255; rgb 159 121 238; rgb 137 104 205; rgb 93 71 139]);
  (L"mistyrose", [rgb 255 228 225; rgb 255 228 225; rgb 238 213 210; rgb 205 183 181; rgb 139 125 123]);
  (L"navajowhite", [rgb 255 222 173; rgb 255 222 173; rgb 238 207 161; rgb 205 179 139; rgb 139 121 94]);
  (L"olivedrab", [rgb 107 142 35; rgb 192 255 62; rgb 179 238 58; rgb 154 205 50; rgb 105 139 34]);
  (L"orange", [rgb 255 165 0; rgb 255 165 0; rgb 238 154 0; rgb 205 133 0; rgb 139 90 0]);
  (L"orangered", [rgb 255 69 0; rgb 255 69 0; rgb 238 64 0; rgb 205 55 0; rgb 139 37 0]);
  (L"orchid", [rgb 218 112 214; rgb 255 131 250; rgb 238 122 233; rgb 205 105 201; rgb 139 71 137]);
  (L"palegreen", [rgb 152 251 152; rgb 154 255 154; rgb 144 238 144; rgb 124 205 124; rgb 84 139 84]);
  (L"paleturquoise", [rgb 175 238 238; rgb 187 255 255; rgb 174 238 238; rgb 150 205 205; rgb 102 139 139]);
  (L"palevioletred", [rgb 219 112 147; rgb 255 130 171; rgb 238 121 159; rgb 205 104 137; rgb 139 71 93]);
  (L"peachpuff", [rgb 255 218 185; rgb 255 218 185; rgb 238 203 173; rgb 205 175 149; rgb 139 119 101]);
  (L"pink", [rgb 255 192 203; rgb 255 181 197; rgb 238 169 184; rgb 205 145 158; rgb 139 99 108]);
  (L"plum", [rgb 221 160 221; rgb 255 187 255; rgb 238 174 238; rgb 205 150 205; rgb 139 102 139]);
  (L"purple", [rgb 160 32 240; rgb 155 48 255; rgb 145 44 238; rgb 125 38 205; rgb 85 26 139]);
  (L"red", [rgb 255 0 0; rgb 255 0 0; rgb 238 0 0; rgb 205 0 0; rgb 139 0 0]);
  (L"rosybrown", [rgb 188 143 143; rgb 255 193 193; rgb 238 180 180; rgb 205 155 155; rgb 139 105 105]);
  (L"royalblue", [rgb 65 105 225; rgb 72 118 255; rgb 67 110 238; rgb 58 95 205; rgb 39 64 139]);
  (L"salmon", [rgb 250 128 114; rgb 255 140 105; rgb 238 130 98; rgb 205 112 84; rgb 139 76 57]);
  (L"seagreen", [rgb 46 139 87; rgb 84 255 159; rgb 78 238 148; rgb 67 205 128; rgb 46 139 87]);
  (L"seashell", [rgb 255 245 238; rgb 255 245 238; rgb 238 229 222; rgb 205 197 191; rgb 139 134 130]);
  (L"sienna", [rgb 160 82 45; rgb 255 130 71; rgb 238 121 66; rgb 205 104 57; rgb 139 71 38]);
  (L"skyblue", [rgb 135 206 235; rgb 135 206 255; rgb 126 192 238; rgb 108 166 205; rgb 74 112 139]);
  (L"slateblue", [rgb 106 90 205; rgb 131 111 255; rgb 122 103 238; rgb 105 89 205; rgb 71 60 139]);
  (L"slategray", [rgb 112 128 144; rgb 198 226 255; rgb 185 211 238; rgb 159 182 205; rgb 108 123 139]);
  (L"snow", [rgb 255 250 250; rgb 255 250 250; rgb 238 233 233; rgb 205 201 201; rgb 139 137 137]);
  (L"springgreen", [rgb 0 255 127; rgb 0 255 127; rgb 0 238 118; rgb 0 205 102; rgb 0 139 69]);
  (L"steelblue", [rgb 70 130 180; rgb 99 184 255; rgb 92 172 238; rgb 79 148 205; rgb 54 100 139]);
  (L"tan", [rgb 210 180 140; rgb 255 165 79; rgb 238 154 73; rgb 205 133 63; rgb 139 90 43]);
  (L"thistle", [rgb 216 191 216; rgb 255 225 255; rgb 238 210 238; rgb 205 181 205; rgb 139 123 139]);
  (L"tomato", [rgb 255 99 71; rgb 255 99 71; rgb 238 92 66; rgb 205 79 57; rgb 139 54 38]);
  (L"turquoise", [rgb 64 224 208; rgb 0 245 255; rgb 0 229 238; rgb 0 197 205; rgb 0 134 139]);
  (L"violetred", [rgb 208 32 144; rgb 255 62 150; rgb 238 58 140; rgb 205 50 120; rgb 139 34 82]);
  (L"wheat", [rgb 245 222 179; rgb 255 231 186; rgb 238 216 174; rgb 205 186 150; rgb 139 126 102]);
  (L"yellow", [rgb 255 255 0; rgb 255 255 0; rgb 238 238 0; rgb 205 205 0; rgb 139 139 0])
].

Definition xorgAppColorTable : list (list Z * color) := [
  (L"aliceblue", rgb 240 248 255);
  (L"aqua", rgb 0 255 255);
  (L"beige", rgb 245 245 220);
  (L"black", rgb 0 0 0);
  (L"blanchedalmond", rgb 255 235 205);
  (L"blueviolet", rgb 138 43 226);
  (L"cornflowerblue", rgb 100 149 237);
  (L"crimson", rgb 220 20 60);
  (L"darkblue", rgb 0 0 139);
  (L"darkcyan", rgb 0 139 139);
  (L"darkgray", rgb 169 169 169);
  (L"darkgreen", rgb 0 100 0);
  (L"darkgrey", rgb 169 169 169);
  (L"darkkhaki", rgb 189 183 107);
  (L"darkmagenta", rgb 139 0 139);
  (L"darkred", rgb 139 0 0);
  (L"darksalmon", rgb 233 150 122);
  (L"darkslateblue", rgb 72 61 139);
  (L"darkslategrey", rgb 47 79 79);
  (L"darkturquoise", rgb 0 206 209);
  (L"darkviolet", rgb 148 0 211);
  (L"dimgray", rgb 105 105 105);
  (L"dimgrey", rgb 105 105 105);
  (L"floralwhite", rgb 255 250 240);
  (L"forestgreen", rgb 34 139 34);
  (L"fuchsia", rgb 255 0 255);
  (L"gainsboro", rgb 220 220 220);
  (L"ghostwhite", rgb 248 248 255);
  (L"gray", rgb 190 190 190);
  (L"greenyellow", rgb 173 255 47);
  (L"grey", rgb 190 190 190);
  (L"indigo", rgb 75 0 130);
  (L"lavender", rgb 230 230 250);
  (L"lawngreen", rgb 124 252 0);
  (L"lightcoral", rgb 240 128 128);
  (L"lightgoldenrodyellow", rgb 250 250 210);
  (L"lightgray", rgb 211 211 211);
  (L"lightgreen", rgb 144 238 144);
  (L"lightgrey", rgb 211 211 211);
  (L"lightseagreen", rgb 32 178 170);
  (L"lightslateblue", rgb 132 112 255);
  (L"lightslategray", rgb 119 136 153);
  (L"lightslategrey", rgb 119 136 153);
  (L"lime", rgb 0 255 0);
  (L"limegreen", rgb 50 205 50);
  (L"linen", rgb 250 240 230);
  (L"mediumaquamarine", rgb 102 205 170);
  (L"mediumblue", rgb 0 0 205);
  (L"mediumseagreen", rgb 60 179 113);
  (L"mediumslateblue", rgb 123 104 238);
  (L"mediumspringgreen", rgb 0 250 154);
  (L"mediumturquoise", rgb 72 209 204);
  (L"mediumvioletred", rgb 199 21 133);
  (L"midnightblue", rgb 25 25 112);
  (L"mintcream", rgb 245 255 250);
  (L"moccasin", rgb 255 228 181);
  (L"navy", rgb 0 0 128);
  (L"navyblue", rgb 0 0 128);
  (L"oldlace", rgb 253 245 230);
  (L"olive", rgb 128 128 0);
  (L"palegoldenrod", rgb 238 232 170);
  (L"papayawhip", rgb 255 239 213);
  (L"peru", rgb 205 133 63);
  (L"powderblue", rgb 176 224 230);
  (L"rebeccapurple", rgb 102 51 153);
  (L"saddlebrown", rgb 139 69 19);
  (L"sandybrown", rgb 244 164 96);
  (L"silver", rgb 192 192 192);
  (L"slategrey", rgb 112 128 144);
  (L"teal", rgb 0 128 128);
  (L"violet", rgb 238 130 238);
  (L"webgray", rgb 128 128 128);
  (L"webgreen", rgb 0 128 0);
  (L"webgrey", rgb 128 128 128);
  (L"webmaroon", rgb 128 0 0);
  (L"webpurple", rgb 128 0 128);
  (L"white", rgb 255 255 255);
  (L"whitesmoke", rgb 245 245 245);
  (L"x11gray", rgb 190 190 190);
  (L"x11green", rgb 0 255 0);
  (L"x11grey", rgb 190 190 190);
  (L"x11maroon", rgb 176 48 96);
  (L"x11purple", rgb 160 32 240);
  (L"yellowgreen", rgb 154 205 50)
].

(** ** Operations *)

Definition CampbellColorTable : list color := take 16 standard256ColorTable.

(** [InitializeColorTable] fills a table of [COLORREF]s from the front. *)
Definition InitializeColorTable (table : list Z) : list Z :=
  let tableSize := Nat.min (length table) (length standard256ColorTable) in
  map to_COLORREF (take tableSize standard256ColorTable) ++ drop tableSize table.

(** [iswspace] on a character below 128. *)
Definition iswspace (c : wchar) : bool := ((0x09 <=? c) && (c <=? 0x0D)) || (c =? 0x20).

(** The loop of [ColorFromXOrgAppColorName] over the characters; [None] is the
    early return, and the state is [ss], [variantIndex] (a [size_t]) and
    [foundVariant]. *)
Fixpoint name_loop (wstr : wstring) (ss : list Z) (variantIndex : Z) (foundVariant : bool) :
    option (list Z * Z * bool) :=
  match wstr with
  | [] => Some (ss, variantIndex, foundVariant)
  | c :: wstr =>
      if 127 <? c then None
      else if (0x30 <=? c) && (c <=? 0x39) then
        name_loop wstr ss (u64 (u64 (variantIndex * 10) + (c - 0x30))) true
      else if iswspace c then name_loop wstr ss variantIndex foundVariant
      else if foundVariant then None
      else name_loop wstr (ss ++ [ascii_lower c]) variantIndex foundVariant
  end.

(** What follows the loop, with the look-up of a name as an argument. *)
Definition resolve_name
    (find : forall V, list (list Z * V) -> list Z -> option V)
    (name : list Z) (variantIndex : Z) (foundVariant : bool) : option color :=
  let variant :=
    match find _ xorgAppVariantColorTable name with
    | Some colors =>
        if variantIndex <? Z.of_nat (length colors)
        then colors !! Z.to_nat variantIndex else None
    | None => None
    end in
  match variant with
  | Some c => Some c
  | None =>
      if bool_decide (name = L"gray" \/ name = L"grey") && foundVariant then
        if 100 <? variantIndex then None
        else
          let component := Z.min 255 ((variantIndex * 255 + 50) / 100) in
          Some (rgb component component component)
      else find _ xorgAppColorTable name
  end.

Definition ColorFromXOrgAppColorName (wstr : wstring) : option color :=
  match name_loop wstr [] 0 false with
  | None => None
  | Some (name, variantIndex, foundVariant) =>
      resolve_name (@static_map_find) name variantIndex foundVariant
  end.

Definition ColorFromXTermColor (string : wstring) : option color :=
  match ColorFromXParseColorSpec string with
  | Some color => Some color
  | None => ColorFromXOrgAppColorName string
  end.

(** ** The look-up *)

Lemma string_less_irrefl x : string_less x x = false.
Proof. induction x as [|c x IH]; [done|]. cbn. by rewrite Z.ltb_irrefl, Z.eqb_refl, IH. Qed.

Lemma string_less_trans x y z :
  string_less x y = true -> string_less y z = true -> string_less x z = true.
Proof.
  revert y z. induction x as [|c x IH]; intros [|d y] [|e z]; cbn; try done.
  rewrite !orb_true_iff, !andb_true_iff, !Z.ltb_lt, !Z.eqb_eq.
  intros [?|[-> ?]] [?|[-> ?]]; [left; lia..|]. right. eauto.
Qed.

Lemma string_less_total x y :
  string_less x y = false -> string_less y x = false -> x = y.
Proof.
  revert y. induction x as [|c x IH]; intros [|d y]; cbn; try done.
  rewrite !orb_false_iff, !andb_false_iff, !Z.ltb_ge, !Z.eqb_neq.
  intros [? [?|?]] [? [?|?]]; try lia. assert (c = d) by lia. subst. f_equal. auto.
Qed.

(** The number of elements before the first one that fails a predicate. *)
Fixpoint prefix_length {A} (pred : A -> bool) (l : list A) : nat :=
  match l with
  | [] => 0
  | x :: l => if pred x then S (prefix_length pred l) else 0
  end.

Lemma partition_point_spec {A} (pred : A -> bool) (l : list A) k fuel first count :
  (forall i x, l !! i = Some x -> pred x = (i <? k)%nat) ->
  (first <= k <= first + count)%nat -> (first + count <= length l)%nat -> (count <= fuel)%nat ->
  partition_point fuel pred l first count = k.
Proof.
  intros Hpred. revert first count. induction fuel as [|fuel IH]; intros first count Hk Hl Hf.
  { cbn. lia. }
  cbn [partition_point]. destruct (Nat.ltb_spec 0 count); [|lia].
  assert (count / 2 < count)%nat by (apply Nat.div_lt; lia).
  destruct (lookup_lt_is_Some_2 l (first + count / 2) ltac:(lia)) as [x Hx].
  rewrite Hx, (Hpred _ _ Hx).
  destruct (Nat.ltb_spec (first + count / 2) k); apply IH; lia.
Qed.

Definition key_order {V} (p q : list Z * V) : Prop := string_less p.1 q.1 = true.

(** Linear search. *)
Fixpoint assoc {V} (l : list (list Z * V)) (key : list Z) : option V :=
  match l with
  | [] => None
  | p :: l => if bool_decide (p.1 = key) then Some p.2 else assoc l key
  end.

Section Sorted.
Context {V : Type} (key : list Z).

#[local] Abbreviation before := (fun p : list Z * V => string_less p.1 key).

Lemma sorted_after p (l : list (list Z * V)) :
  StronglySorted key_order (p :: l) -> before p = false ->
  Forall (fun q => string_less q.1 key = false /\ q.1 <> key) l.
Proof.
  intros Hs Hp. apply StronglySorted_inv in Hs as [_ Hall]. revert Hall. apply Forall_impl.
  cbv beta in Hp. intros q Hq. split.
  - destruct (string_less q.1 key) eqn:E; [|done].
    by rewrite (string_less_trans _ _ _ Hq E) in Hp.
  - intros <-. unfold key_order in Hq. congruence.
Qed.

Lemma sorted_pred (l : list (list Z * V)) :
  StronglySorted key_order l -> (prefix_length before l <= length l)%nat /\
  (forall i x, l !! i = Some x -> before x = (i <? prefix_length before l)%nat).
Proof.
  induction l as [|p l IH]; intros Hs; [by split|]. cbn [prefix_length length].
  destruct (IH (proj1 (StronglySorted_inv Hs))) as [Hle Hpred].
  destruct (before p) eqn:Hp.
  - split; [lia|]. intros [|i] x Hx; [by injection Hx as <-|]. by apply Hpred.
  - split; [lia|]. pose proof (sorted_after _ _ Hs Hp) as Hall.
    intros [|i] x Hx; [by injection Hx as <-|].
    by apply (proj1 (Forall_lookup _ _) Hall) in Hx as [-> _].
Qed.

Lemma assoc_none (l : list (list Z * V)) :
  Forall (fun q => string_less q.1 key = false /\ q.1 <> key) l -> assoc l key = None.
Proof.
  induction 1 as [|q l [_ Hq] _ IH]; [done|]. cbn. by rewrite bool_decide_eq_false_2.
Qed.

Lemma assoc_prefix (l : list (list Z * V)) :
  StronglySorted key_order l ->
  assoc l key =
  match l !! prefix_length before l with
  | None => None
  | Some p => if string_less key p.1 then None else Some p.2
  end.
Proof.
  induction l as [|p l IH]; intros Hs; [done|]. cbn [assoc prefix_length].
  destruct (before p) eqn:Hp.
  - rewrite bool_decide_eq_false_2.
    + apply IH, (StronglySorted_inv Hs).
    + intros Hk. rewrite Hk, string_less_irrefl in Hp. done.
  - cbn. case_bool_decide as Hk.
    + by rewrite Hk, string_less_irrefl.
    + rewrite assoc_none by (by eapply sorted_after).
      destruct (string_less key p.1) eqn:E; [done|]. by apply string_less_total in E.
Qed.

Lemma static_map_find_assoc (array : list (list Z * V)) :
  StronglySorted key_order array -> static_map_find array key = assoc array key.
Proof.
  intros Hs. destruct (sorted_pred array Hs) as [Hle Hpred]. unfold static_map_find.
  rewrite (partition_point_spec _ _ (prefix_length before array)) by (done || lia).
  by rewrite assoc_prefix.
Qed.

End Sorted.

(** The order of a table can be checked by evaluation. *)
Fixpoint ordered {V} (l : list (list Z * V)) : bool :=
  match l with
  | p :: (q :: _) as l' => string_less p.1 q.1 && ordered l'
  | _ => true
  end.

Lemma ordered_sorted {V} (l : list (list Z * V)) :
  ordered l = true -> StronglySorted key_order l.
Proof.
  intros Ho. apply Sorted_StronglySorted.
  { intros x y z. apply string_less_trans. }
  induction l as [|p l IH]; [constructor|]. destruct l as [|q l]; [repeat constructor|].
  cbn in Ho. bool_prop. constructor; [by apply IH|]. by constructor.
Qed.

Lemma variant_table_sorted : StronglySorted key_order xorgAppVariantColorTable.
Proof. apply ordered_sorted. vm_compute. reflexivity. Qed.

Lemma app_table_sorted : StronglySorted key_order xorgAppColorTable.
Proof. apply ordered_sorted. vm_compute. reflexivity. Qed.

(** ** Names *)

(** A name without its spaces and in lower case. *)
Definition normalize (s : wstring) : wstring :=
  map ascii_lower (base.filter (fun c => iswspace c = false) s).

Lemma name_loop_normalize s ss v f :
  name_loop (normalize s) ss v f = name_loop s ss v f.
Proof.
  unfold normalize. revert ss v f. induction s as [|c s IH]; intros ss v f; [done|].
  rewrite filter_cons. destruct (decide (iswspace c = false)) as [Hc|Hc].
  - cbn [map name_loop]. rewrite Hc.
    assert (Hlow : (127 <? ascii_lower c) = (127 <? c) /\
      (0x30 <=? ascii_lower c) && (ascii_lower c <=? 0x39) = (0x30 <=? c) && (c <=? 0x39) /\
      iswspace (ascii_lower c) = false /\ ascii_lower (ascii_lower c) = ascii_lower c /\
      ((0x30 <=? c) && (c <=? 0x39) = true -> ascii_lower c = c)).
    { unfold ascii_lower, iswspace in *. destruct ((0x41 <=? c) && (c <=? 0x5A)) eqn:E;
        [|rewrite E; by auto]. bool_prop.
      repeat match goal with |- context [(?x <=? ?y)%Z] => destruct (Z.leb_spec x y); try lia
                           | |- context [(?x <? ?y)%Z] => destruct (Z.ltb_spec x y); try lia
                           | |- context [(?x =? ?y)%Z] => destruct (Z.eqb_spec x y); try lia end;
      cbn; auto with lia. }
    destruct Hlow as (-> & -> & -> & -> & Hd).
    case_if; [done|]. case_if; [rewrite Hd by done; apply IH|]. case_if; [done|apply IH].
  - apply not_false_iff_true in Hc. rewrite IH. cbn [name_loop]. rewrite Hc.
    assert (Hs : (127 <? c) = false /\ (0x30 <=? c) && (c <=? 0x39) = false).
    { unfold iswspace in Hc. rewrite orb_true_iff, andb_true_iff, !Z.leb_le, Z.eqb_eq in Hc.
      rewrite andb_false_iff, Z.ltb_ge, !Z.leb_gt. lia. }
    by destruct Hs as [-> ->].
Qed.

Lemma ColorFromXOrgAppColorName_normalize s :
  ColorFromXOrgAppColorName (normalize s) = ColorFromXOrgAppColorName s.
Proof. unfold ColorFromXOrgAppColorName. by rewrite name_loop_normalize. Qed.

Definition no_digits (name : list Z) : bool :=
  forallb (fun c => negb ((0x30 <=? c) && (c <=? 0x39))) name.

(** All entries of the tables at once, by evaluation. *)
Lemma app_names_resolve :
  forallb (fun '(name, c) =>
    bool_decide (ColorFromXOrgAppColorName name = if no_digits name then Some c else None))
    xorgAppColorTable = true.
Proof. vm_compute. reflexivity. Qed.

Lemma variant_names_resolve :
  forallb (fun '(name, colors) =>
    bool_decide (ColorFromXOrgAppColorName name = head colors) &&
    forallb (fun i => bool_decide
      (ColorFromXOrgAppColorName (name ++ [0x30 + Z.of_nat i]) = colors !! i)) (seq 0 5))
    xorgAppVariantColorTable = true.
Proof. vm_compute. reflexivity. Qed.

(** The X11 colour names are found whatever their capitals and spaces: a
    plain name gives its colour, and a name with a variant digit that variant. *)
Theorem xorg_names_found (s name : wstring) (c : color) :
  (normalize s = name /\ (name, c) ∈ xorgAppColorTable /\ no_digits name = true) \/
  (exists colors, (name, colors) ∈ xorgAppVariantColorTable /\
     ((normalize s = name /\ head colors = Some c) \/
      exists i, (i < 5)%nat /\ normalize s = name ++ [0x30 + Z.of_nat i] /\ colors !! i = Some c)) ->
  ColorFromXOrgAppColorName s = Some c.
Proof.
  rewrite <- ColorFromXOrgAppColorName_normalize.
  intros [(-> & Hin & Hd)|(colors & Hin & Hcase)].
  - pose proof (proj1 (forallb_forall _ _) app_names_resolve _ (proj1 (list_elem_of_In _ _) Hin)) as Hr.
    cbv beta iota in Hr. rewrite Hd in Hr. by apply bool_decide_eq_true in Hr.
  - pose proof (proj1 (forallb_forall _ _) variant_names_resolve _
                  (proj1 (list_elem_of_In _ _) Hin)) as Hr. cbv beta iota in Hr. bool_prop.
    destruct Hcase as [[-> Hc]|(i & Hi & -> & Hc)].
    + apply bool_decide_eq_true in H. congruence.
    + pose proof (proj1 (forallb_forall _ _) H0 i ltac:(apply in_seq; lia)) as Hi'.
      apply bool_decide_eq_true in Hi'. congruence.
Qed.

Lemma xorg_names_found_witness : ColorFromXOrgAppColorName (L"Dark Olive Green 3") = Some (rgb 162 205 90).
Proof.
  apply (xorg_names_found _ (L"darkolivegreen")). right.
  exists [rgb 85 107 47; rgb 202 255 112; rgb 188 238 104; rgb 162 205 90; rgb 110 139 61].
  split; [apply (list_elem_of_lookup_2 _ 14); reflexivity|].
  right. exists 3%nat. split_and!; [lia|reflexivity|reflexivity].
Defined.

(** The entries of the table whose names start with [x11] can never be
    found: the digits are taken for a variant, and the letters after them make the
    name invalid. *)
Theorem x11_names_lost (s name : wstring) (c : color) :
  (name, c) ∈ xorgAppColorTable -> no_digits name = false -> normalize s = name ->
  ColorFromXOrgAppColorName s = None.
Proof.
  rewrite <- ColorFromXOrgAppColorName_normalize. intros Hin Hd ->.
  pose proof (proj1 (forallb_forall _ _) app_names_resolve _ (proj1 (list_elem_of_In _ _) Hin)) as Hr.
  cbv beta iota in Hr. rewrite Hd in Hr. by apply bool_decide_eq_true in Hr.
Qed.

Lemma x11_names_lost_witness :
  (L"x11gray", rgb 190 190 190) ∈ xorgAppColorTable /\
  ColorFromXOrgAppColorName (L"X11 Gray") = None.
Proof.
  assert (Hin : (L"x11gray", rgb 190 190 190) ∈ xorgAppColorTable)
    by (apply (list_elem_of_lookup_2 _ 78); reflexivity).
  split; [exact Hin|]. by apply (x11_names_lost _ _ _ Hin).
Defined.

(** Bisecting the name tables is as good as searching them through, because
    the source lists them in order. *)
Theorem ColorFromXOrgAppColorName_linear (s : wstring) :
  ColorFromXOrgAppColorName s =
  match name_loop s [] 0 false with
  | None => None
  | Some (name, variantIndex, foundVariant) =>
      resolve_name (@assoc) name variantIndex foundVariant
  end.
Proof.
  unfold ColorFromXOrgAppColorName, resolve_name.
  destruct (name_loop s [] 0 false) as [[[name v] f]|]; [|done].
  rewrite !static_map_find_assoc by apply variant_table_sorted || apply app_table_sorted. done.
Qed.

(** ** The palette *)

(** The levels of the colour cube and of the grey ramp of xterm's palette. *)
Definition cube_level (i : Z) : Z := if i =? 0 then 0 else 55 + 40 * i.

Definition xterm_color (i : Z) : color :=
  if i <? 232 then
    let j := i - 16 in
    rgb (cube_level (j / 36)) (cube_level (j / 6 mod 6)) (cube_level (j mod 6))
  else let grey := 8 + 10 * (i - 232) in rgb grey grey grey.

(** Entries 16 to 255 of the default palette are xterm's 6x6x6 colour cube
    and grey ramp. *)
Theorem standard256ColorTable_xterm (i : Z) :
  16 <= i < 256 -> standard256ColorTable !! Z.to_nat i = Some (xterm_color i).
Proof.
  intros Hi.
  assert (Hall : forallb (fun k => bool_decide
    (standard256ColorTable !! k = Some (xterm_color (Z.of_nat k)))) (seq 16 240) = true)
    by (vm_compute; reflexivity).
  pose proof (proj1 (forallb_forall _ _) Hall (Z.to_nat i) ltac:(apply in_seq; lia)) as He.
  apply bool_decide_eq_true in He. by rewrite Z2Nat.id in He by lia.
Qed.

Lemma standard256ColorTable_xterm_witness :
  standard256ColorTable !! 196%nat = Some (xterm_color 196).
Proof. apply (standard256ColorTable_xterm 196). lia. Defined.

(** [InitializeColorTable] keeps the size of the table, fills it with the
    palette as far as both go and leaves the rest alone. *)
Theorem InitializeColorTable_correct (table : list Z) (i : nat) :
  length (InitializeColorTable table) = length table /\
  InitializeColorTable table !! i =
    if (i <? length table)%nat && (i <? 256)%nat
    then to_COLORREF <$> standard256ColorTable !! i else table !! i.
Proof.
  assert (H256 : length standard256ColorTable = 256%nat) by reflexivity.
  unfold InitializeColorTable. rewrite H256.
  set (n := Nat.min (length table) 256).
  assert (Hn : length (map to_COLORREF (take n standard256ColorTable)) = n).
  { rewrite length_map, length_take, H256. lia. }
  split; [rewrite length_app, Hn, length_drop; lia|].
  destruct (Nat.ltb_spec i n).
  - rewrite lookup_app_l by lia. change (map ?f ?l) with (f <$> l).
    rewrite list_lookup_fmap, lookup_take_lt by lia.
    destruct (Nat.ltb_spec i (length table)); [|lia]. by destruct (Nat.ltb_spec i 256); [|lia].
  - rewrite lookup_app_r, Hn, lookup_drop by lia. replace (n + (i - n))%nat with i by lia.
    destruct (Nat.ltb_spec i (length table)); [|done]. by destruct (Nat.ltb_spec i 256); [lia|].
Qed.
