(* ===== verification/Base64.v ===== *)
(** * Base64

    Models [src/src/terminal/parser/base64.cpp], the decoder for clipboard data
    (OSC 52), and the conversion [til::u8u16] of
    [src/src/inc/til/u8u16convert.h] it ends with.  The conversion calls the
    operating system's [MultiByteToWideChar], which is a parameter. *)

From S2P Require Import Prelude.

Local Open Scope Z_scope.

(** ** The decoder *)

Definition decodeTable : list Z := [
  255; 255; 255; 255; 255; 255; 255; 255; 255; 255; 255; 255; 255; 255; 255; 255;
  255; 255; 255; 255; 255; 255; 255; 255; 255; 255; 255; 255; 255; 255; 255; 255;
  255; 255; 255; 255; 255; 255; 255; 255; 255; 255; 255; 62; 255; 62; 255; 63;
  52; 53; 54; 55; 56; 57; 58; 59; 60; 61; 255; 255; 255; 255; 255; 255;
  255; 0; 1; 2; 3; 4; 5; 6; 7; 8; 9; 10; 11; 12; 13; 14;
  15; 16; 17; 18; 19; 20; 21; 22; 23; 24; 25; 255; 255; 255; 255; 63;
  255; 26; 27; 28; 29; 30; 31; 32; 33; 34; 35; 36; 37; 38; 39; 40;
  41; 42; 43; 44; 45; 46; 47; 48; 49; 50; 51; 255; 255; 255; 255; 255
].

(** [r] and [error] ([uint_fast32_t] and [uint_fast16_t], both 32 bits wide). *)
Record acc := mkAcc { acc_r : Z; acc_error : Z }.

Definition accumulate (st : acc) (ch : wchar) : acc :=
  let n := default 0 (decodeTable !! Z.to_nat (Z.land ch 0x7F)) in
  mkAcc (Z.lor (u32 (Z.shiftl (acc_r st) 6)) n)
        (Z.lor (acc_error st) (Z.land (Z.lor ch n) 0xFF80)).

Definition byte_of (r shift : Z) : Z := u8 (Z.shiftr r shift).

(** The batched loop: [remaining] is [inEndBatched - in].  The characters it
    reads are there, since [inEndBatched] is five characters before the end of a
    longer string; the output has room, since it is as large as the groups of
    four. *)
Fixpoint batched_loop (fuel : nat) (remaining : Z) (in_ : wstring) (st : acc)
    (out : list Z) : wstring * acc * list Z :=
  match fuel with
  | O => (in_, st, out)
  | S fuel =>
      if 0 <? remaining then
        match in_ with
        | ch0 :: ch1 :: ch2 :: ch3 :: in_ =>
            let st := accumulate (accumulate (accumulate (accumulate st ch0) ch1) ch2) ch3 in
            batched_loop fuel (remaining - 4) in_ st
              (out ++ [byte_of (acc_r st) 16; byte_of (acc_r st) 8; byte_of (acc_r st) 0])
        | _ => (in_, st, out)
        end
      else (in_, st, out)
  end.

(** The loop over the tail, which skips [=]; [ri] is a [uint_fast8_t]. *)
Fixpoint tail_loop (in_ : wstring) (st : acc) (ri : Z) : acc * Z :=
  match in_ with
  | [] => (st, ri)
  | ch :: in_ =>
      if negb (ch =? 0x3D) then tail_loop in_ (accumulate st ch) (u8 (ri + 1))
      else tail_loop in_ st ri
  end.

(** What follows the batched loop; [None] is [ERROR_INVALID_DATA]. *)
Definition Decode_tail (in_ : wstring) (st : acc) (out : list Z) : option (list Z) :=
  let '(st, ri) := tail_loop in_ st 0 in
  let r := acc_r st in
  let '(out, error) :=
    match ri with
    | 2 => (out ++ [byte_of r 4], acc_error st)
    | 3 => (out ++ [byte_of r 10; byte_of r 2], acc_error st)
    | 4 => (out ++ [byte_of r 16; byte_of r 8; byte_of r 0], acc_error st)
    | _ => (out, Z.lor (acc_error st) ri)
    end in
  if negb (error =? 0) then None else Some out.

(** The bytes of a base64 string. *)
Definition Decode_bytes (src : wstring) : option (list Z) :=
  let size := Z.of_nat (length src) in
  let '(in_, st, out) := batched_loop (length src) (size - Z.min 5 size) src (mkAcc 0 0) [] in
  Decode_tail in_ st out.

(** ** UTF-8 to UTF-16 *)

Section Convert.

(** [MultiByteToWideChar(CP_UTF8, 0, ...)] with room for as many characters as
    there are bytes: the characters written, none when it fails. *)
Context (MultiByteToWideChar : list Z -> wstring).

Definition INT_MAX : Z := 2 ^ 31 - 1.

(** [til::u8u16]: the outcome and what it leaves in [out]. *)
Definition u8u16 (in_ : list Z) : bool * wstring :=
  match in_ with
  | [] => (true, [])
  | _ =>
      if INT_MAX <? Z.of_nat (length in_) then (false, [])
      else let out := MultiByteToWideChar in_ in (negb (bool_decide (out = [])), out)
  end.

(** [Base64::Decode]: whether it succeeded and [dst], which keeps its value when
    the string is invalid. *)
Definition Decode (src dst : wstring) : bool * wstring :=
  match Decode_bytes src with
  | None => (false, dst)
  | Some result => u8u16 result
  end.

End Convert.

(** ** The alphabets of RFC 4648 *)

(** The value of a character in base64 or base64url. *)
Definition sextet (c : wchar) : option Z :=
  if (0x41 <=? c) && (c <=? 0x5A) then Some (c - 0x41)
  else if (0x61 <=? c) && (c <=? 0x7A) then Some (c - 0x61 + 26)
  else if (0x30 <=? c) && (c <=? 0x39) then Some (c - 0x30 + 52)
  else if (c =? 0x2B) || (c =? 0x2D) then Some 62
  else if (c =? 0x2F) || (c =? 0x5F) then Some 63
  else None.

Lemma decodeTable_sextet c :
  0 <= c < 128 -> default 0 (decodeTable !! Z.to_nat c) = default 255 (sextet c).
Proof.
  intros Hc.
  assert (Hall : forallb (fun k => default 0 (decodeTable !! k) =?
                                   default 255 (sextet (Z.of_nat k))) (seq 0 128) = true)
    by (vm_compute; reflexivity).
  pose proof (proj1 (forallb_forall _ _) Hall (Z.to_nat c) ltac:(apply in_seq; lia)) as He.
  apply Z.eqb_eq in He. by rewrite Z2Nat.id in He by lia.
Qed.

Lemma sextet_range c n : sextet c = Some n -> 0 <= n < 64 /\ 0 <= c < 128.
Proof.
  unfold sextet. repeat case_if; intros [= <-] || done; bool_prop;
    try (rewrite ?Z.eqb_eq in *; lia).
Qed.

Lemma land_0x7F c : Z.land c 0x7F = c mod 128.
Proof. change 0x7F with (Z.ones 7). by rewrite Z.land_ones by lia. Qed.

(** A value without bits above the seventh is below 128. *)
Lemma land_0xFF80 x : is_wchar x -> Z.land x 0xFF80 = 0 <-> x < 128.
Proof.
  intros Hx. unfold is_wchar in Hx.
  assert (Hdec : Z.land x 0xFF80 = Z.shiftl (Z.shiftr x 7) 7).
  { apply Z.bits_inj'. intros i Hi. rewrite Z.land_spec, Z.shiftl_spec by done.
    change 0xFF80 with (Z.shiftl (Z.ones 9) 7). rewrite Z.shiftl_spec by done.
    destruct (Z.ltb_spec i 7).
    - by rewrite !(Z.testbit_neg_r _ (i - 7)), andb_false_r by lia.
    - rewrite Z.shiftr_spec by lia. replace (i - 7 + 7) with i by lia.
      destruct (Z.ltb_spec i 16).
      + rewrite Z.ones_spec_low by lia. by rewrite andb_true_r.
      + rewrite Z.ones_spec_high, andb_false_r by lia. symmetry.
        apply (Z.bits_above_log2); [lia|].
        destruct (Z.eq_dec x 0) as [->|]; [cbn; lia|].
        apply Z.log2_lt_pow2; [lia|]. pose proof (Z.pow_le_mono_r 2 16 i ltac:(lia) ltac:(lia)). lia. }
  rewrite Hdec, Z.shiftl_mul_pow2, Z.shiftr_div_pow2 by lia.
  change (2 ^ 7) with 128. Z.to_euclidean_division_equations. lia.
Qed.

(** What one character does: its value enters [r], and an invalid one is an
    error for good. *)
Lemma accumulate_valid st c n :
  sextet c = Some n -> 0 <= acc_r st ->
  accumulate st c = mkAcc (u32 (acc_r st * 64 + n)) (acc_error st).
Proof.
  intros Hs Hr. destruct (sextet_range c n Hs) as [Hn Hc]. unfold accumulate.
  rewrite land_0x7F, Z.mod_small, decodeTable_sextet, Hs by lia. cbn [default from_option id].
  assert (Hlor : Z.lor c n < 128) by (apply (lor_lt_pow2 _ _ 7); lia).
  assert (0 <= Z.lor c n) by (apply Z.lor_nonneg; lia).
  rewrite (proj2 (land_0xFF80 (Z.lor c n) ltac:(unfold is_wchar; lia))) by lia.
  rewrite Z.lor_0_r. f_equal. rewrite Z.shiftl_mul_pow2 by lia. unfold wrapu.
  change (2 ^ 32) with (2 ^ 26 * 2 ^ 6). rewrite Z.mul_mod_distr_r by lia.
  rewrite lor_low_bits by lia. change (2 ^ 6) with 64.
  Z.to_euclidean_division_equations. lia.
Qed.

Lemma accumulate_error st c :
  is_wchar c -> 0 <= acc_error st ->
  0 <= acc_error (accumulate st c) /\
  (acc_error (accumulate st c) = 0 <-> acc_error st = 0 /\ is_Some (sextet c)).
Proof.
  intros Hc He. unfold accumulate. cbn [acc_error]. rewrite land_0x7F.
  pose proof (Z.mod_pos_bound c 128 ltac:(lia)). rewrite decodeTable_sextet by lia.
  set (n := default 255 (sextet (c mod 128))).
  assert (Hn : 0 <= n < 256 /\ (n < 128 <-> is_Some (sextet (c mod 128)))).
  { unfold n. destruct (sextet (c mod 128)) as [m|] eqn:Hm; cbn.
    - apply sextet_range in Hm. split; [lia|]. split; [eauto|lia].
    - split; [lia|]. split; [lia|]. by intros [? ?]. }
  unfold is_wchar in Hc.
  assert (Hw : is_wchar (Z.lor c n)).
  { split; [apply Z.lor_nonneg|apply lor_lt_pow2]; lia. }
  split.
  { apply Z.lor_nonneg. split; [done|]. apply Z.land_nonneg. right. lia. }
  rewrite Z.lor_eq_0_iff, (land_0xFF80 _ Hw), (lor_lt_pow2 c n 7) by lia.
  change (2 ^ 7) with 128. destruct (Z.ltb_spec c 128).
  - rewrite (Z.mod_small c) in Hn by lia. tauto.
  - split; [lia|]. intros [_ [m Hm]]. apply sextet_range in Hm. lia.
Qed.

(** The RFC's encoding, in either alphabet, with the padding or without. *)
Definition char_of (url : bool) (n : Z) : wchar :=
  if n <? 26 then 0x41 + n
  else if n <? 52 then 0x61 + (n - 26)
  else if n <? 62 then 0x30 + (n - 52)
  else if n =? 62 then (if url then 0x2D else 0x2B)
  else (if url then 0x5F else 0x2F).

(** A group of bytes as the values of its characters. *)
Definition sextets3 (b0 b1 b2 : Z) : list Z :=
  [b0 / 4; b0 mod 4 * 16 + b1 / 16; b1 mod 16 * 4 + b2 / 64; b2 mod 64].
Definition sextets2 (b0 b1 : Z) : list Z :=
  [b0 / 4; b0 mod 4 * 16 + b1 / 16; b1 mod 16 * 4].
Definition sextets1 (b0 : Z) : list Z := [b0 / 4; b0 mod 4 * 16].

Fixpoint encode (url pad : bool) (bytes : list Z) : wstring :=
  match bytes with
  | [] => []
  | [b0] => map (char_of url) (sextets1 b0) ++ (if pad then [0x3D; 0x3D] else [])
  | [b0; b1] => map (char_of url) (sextets2 b0 b1) ++ (if pad then [0x3D] else [])
  | b0 :: b1 :: b2 :: bytes => map (char_of url) (sextets3 b0 b1 b2) ++ encode url pad bytes
  end.

Lemma sextet_char_of url n :
  0 <= n < 64 -> sextet (char_of url n) = Some n /\ char_of url n <> 0x3D.
Proof.
  intros Hn.
  assert (Hall : forallb (fun k => bool_decide (sextet (char_of url (Z.of_nat k)) = Some (Z.of_nat k))
                          && negb (char_of url (Z.of_nat k) =? 0x3D)) (seq 0 64) = true)
    by (destruct url; vm_compute; reflexivity).
  pose proof (proj1 (forallb_forall _ _) Hall (Z.to_nat n) ltac:(apply in_seq; lia)) as He.
  cbv beta in He. rewrite Z2Nat.id in He by lia. bool_prop. by apply bool_decide_eq_true in H.
Qed.

(** The value of a list of sextets after [r]. *)
Definition value64 (r : Z) (ns : list Z) : Z := foldl (fun r n => r * 64 + n) r ns.

Definition is_sextet (n : Z) : Prop := 0 <= n < 64.

Lemma u32_step r n : u32 (u32 r * 64 + n) = u32 (r * 64 + n).
Proof. unfold wrapu. rewrite Zplus_mod, Zmult_mod_idemp_l, <- Zplus_mod. done. Qed.

Lemma accumulate_chars url ns st :
  Forall is_sextet ns -> 0 <= acc_r st < 2 ^ 32 ->
  foldl accumulate st (map (char_of url) ns) =
  mkAcc (u32 (value64 (acc_r st) ns)) (acc_error st).
Proof.
  intros Hns. revert st. induction Hns as [|n ns Hn Hns IH]; intros st Hr.
  { cbn. rewrite wrapu_small by lia. by destruct st. }
  cbn [map foldl value64]. destruct (sextet_char_of url n Hn) as [Hs _].
  rewrite (accumulate_valid _ _ _ Hs) by lia. rewrite IH by (cbn; apply wrapu_range; lia).
  cbn [acc_r acc_error]. f_equal. clear IH Hr Hs Hn.
  unfold value64. generalize (acc_r st * 64 + n) as x. intros x.
  revert x. induction Hns as [|m ns _ _ IH]; intros x.
  - cbn. unfold wrapu. by rewrite Z.mod_mod.
  - cbn. rewrite <- (IH (u32 x * 64 + m)), <- (IH (x * 64 + m)). by rewrite u32_step.
Qed.

Lemma tail_loop_chars url ns rest st ri :
  Forall is_sextet ns -> 0 <= ri -> ri + Z.of_nat (length ns) < 256 ->
  tail_loop (map (char_of url) ns ++ rest) st ri =
  tail_loop rest (foldl accumulate st (map (char_of url) ns)) (ri + Z.of_nat (length ns)).
Proof.
  intros Hns. revert st ri. induction Hns as [|n ns Hn Hns IH]; intros st ri Hri Hlt.
  { cbn. by rewrite Z.add_0_r. }
  cbn [map app tail_loop foldl length] in *. destruct (sextet_char_of url n Hn) as [_ Hne].
  apply Z.eqb_neq in Hne. rewrite Hne. cbn [negb]. rewrite wrapu_small by lia.
  rewrite IH by lia. f_equal. lia.
Qed.

Lemma tail_loop_padding k st ri : tail_loop (repeat 0x3D k) st ri = (st, ri).
Proof. induction k as [|k IH]; [done|]. cbn. exact IH. Qed.

(** The bytes that are cut from the accumulator. *)
Lemma byte_of_u32 x s : 0 <= s <= 24 -> byte_of (u32 x) s = x / 2 ^ s mod 256.
Proof.
  intros Hs. unfold byte_of. rewrite Z.shiftr_div_pow2 by lia. unfold wrapu.
  change 256 with (2 ^ 8). rewrite <- !Z.land_ones, <- !Z.shiftr_div_pow2 by lia.
  apply Z.bits_inj'. intros i Hi. rewrite !Z.land_spec, !Z.shiftr_spec, Z.land_spec by lia.
  destruct (Z.ltb_spec i 8).
  - rewrite (Z.ones_spec_low 32) by lia. by rewrite andb_true_r.
  - by rewrite (Z.ones_spec_high 8), !andb_false_r by lia.
Qed.

Lemma sextets3_ok b0 b1 b2 :
  is_byte b0 -> is_byte b1 -> is_byte b2 -> Forall is_sextet (sextets3 b0 b1 b2).
Proof.
  unfold is_byte. intros. repeat constructor; unfold is_sextet;
    Z.to_euclidean_division_equations; lia.
Qed.

Lemma sextets2_ok b0 b1 : is_byte b0 -> is_byte b1 -> Forall is_sextet (sextets2 b0 b1).
Proof.
  unfold is_byte. intros. repeat constructor; unfold is_sextet;
    Z.to_euclidean_division_equations; lia.
Qed.

Lemma sextets1_ok b0 : is_byte b0 -> Forall is_sextet (sextets1 b0).
Proof.
  unfold is_byte. intros. repeat constructor; unfold is_sextet;
    Z.to_euclidean_division_equations; lia.
Qed.

Lemma group3 r b0 b1 b2 :
  is_byte b0 -> is_byte b1 -> is_byte b2 ->
  let x := u32 (value64 r (sextets3 b0 b1 b2)) in
  [byte_of x 16; byte_of x 8; byte_of x 0] = [b0; b1; b2].
Proof.
  unfold is_byte. intros H0 H1 H2. cbv zeta. rewrite !byte_of_u32 by lia.
  unfold value64, sextets3. cbn [foldl]. eval_ground.
  repeat f_equal; Z.to_euclidean_division_equations; lia.
Qed.

Lemma group2 r b0 b1 :
  is_byte b0 -> is_byte b1 ->
  let x := u32 (value64 r (sextets2 b0 b1)) in [byte_of x 10; byte_of x 2] = [b0; b1].
Proof.
  unfold is_byte. intros H0 H1. cbv zeta. rewrite !byte_of_u32 by lia.
  unfold value64, sextets2. cbn [foldl]. eval_ground.
  repeat f_equal; Z.to_euclidean_division_equations; lia.
Qed.

Lemma group1 r b0 :
  is_byte b0 -> let x := u32 (value64 r (sextets1 b0)) in [byte_of x 4] = [b0].
Proof.
  unfold is_byte. intros H0. cbv zeta. rewrite !byte_of_u32 by lia.
  unfold value64, sextets1. cbn [foldl]. eval_ground.
  repeat f_equal; Z.to_euclidean_division_equations; lia.
Qed.

(** The tail of an encoding: characters and padding. *)
Lemma Decode_tail_chars url ns k st out :
  Forall is_sextet ns -> (length ns < 256)%nat -> 0 <= acc_r st < 2 ^ 32 -> acc_error st = 0 ->
  Decode_tail (map (char_of url) ns ++ repeat 0x3D k) st out =
  let x := u32 (value64 (acc_r st) ns) in
  match length ns with
  | 0%nat => Some out
  | 2%nat => Some (out ++ [byte_of x 4])
  | 3%nat => Some (out ++ [byte_of x 10; byte_of x 2])
  | 4%nat => Some (out ++ [byte_of x 16; byte_of x 8; byte_of x 0])
  | _ => None
  end.
Proof.
  intros Hns Hl Hr He. unfold Decode_tail. rewrite tail_loop_chars, tail_loop_padding by (done || lia).
  rewrite accumulate_chars by done. cbn [acc_r acc_error]. rewrite He, Z.add_0_l.
  destruct (length ns) as [|[|[|[|[|n]]]]]; try reflexivity.
  destruct (Z.of_nat (S (S (S (S (S n)))))) as [|p|p] eqn:Hz; [lia| |lia].
  destruct p as [[[p|p|]|[p|p|]|]|[[p|p|]|[p|p|]|]|]; try lia; done.
Qed.

Lemma repeat_padding (pad : bool) (k : nat) :
  (if pad then repeat 0x3D k else []) = repeat 0x3D (if pad then k else 0)%nat.
Proof. by destruct pad. Qed.

(** The last group of an encoding is left to the tail. *)
Lemma decode_last url pad bytes st out :
  (length bytes <= 3)%nat -> Forall is_byte bytes -> 0 <= acc_r st < 2 ^ 32 ->
  acc_error st = 0 ->
  (length (encode url pad bytes) <= 5)%nat /\
  Decode_tail (encode url pad bytes) st out = Some (out ++ bytes).
Proof.
  intros Hl Hb Hr He. destruct bytes as [|b0 [|b1 [|b2 [|b3 bytes]]]]; [| | | |cbn in Hl; lia].
  - split; [cbn; lia|].
    pose proof (Decode_tail_chars url [] 0 st out (Forall_nil_2 _) ltac:(cbn; lia) Hr He) as Ht.
    cbn in Ht |- *. by rewrite Ht, app_nil_r.
  - inversion_clear Hb as [|? ? H0 _]. cbn [encode]. split; [destruct pad; cbn; lia|].
    change [0x3D; 0x3D] with (repeat 0x3D 2). rewrite repeat_padding.
    rewrite Decode_tail_chars by (apply sextets1_ok || cbn; done || lia).
    cbn [length sextets1]. cbv zeta. by rewrite group1.
  - inversion_clear Hb as [|? ? H0 Hb']. inversion_clear Hb' as [|? ? H1 _].
    cbn [encode]. split; [destruct pad; cbn; lia|].
    change [0x3D] with (repeat 0x3D 1). rewrite repeat_padding.
    rewrite Decode_tail_chars by (apply sextets2_ok || cbn; done || lia).
    cbn [length sextets2]. cbv zeta. by rewrite group2.
  - inversion_clear Hb as [|? ? H0 Hb']. inversion_clear Hb' as [|? ? H1 Hb].
    inversion_clear Hb as [|? ? H2 Hb']. cbn [encode]. split; [cbn; lia|].
    rewrite (Decode_tail_chars url _ 0) by (apply sextets3_ok || cbn; done || lia).
    cbn [length sextets3]. cbv zeta. by rewrite group3.
Qed.

Lemma encode_two url pad b bytes : (2 <= length (encode url pad (b :: bytes)))%nat.
Proof. destruct bytes as [|? [|? ?]]; cbn [encode]; rewrite length_app; cbn; lia. Qed.

(** The loop takes one group of four characters after the other. *)
Lemma decode_encode url pad bytes fuel st out :
  Forall is_byte bytes -> 0 <= acc_r st < 2 ^ 32 -> acc_error st = 0 ->
  (length (encode url pad bytes) <= fuel)%nat ->
  (let '(in_, st, out) :=
     batched_loop fuel (Z.of_nat (length (encode url pad bytes)) - 5)
       (encode url pad bytes) st out in
   Decode_tail in_ st out) = Some (out ++ bytes).
Proof.
  remember (length bytes) as n eqn:Hn. revert bytes fuel st out Hn.
  induction (lt_wf n) as [n _ IH]. intros bytes fuel st out -> Hb Hr He Hf.
  destruct (le_lt_dec (length bytes) 3) as [Hl|Hl].
  { destruct (decode_last url pad bytes st out Hl Hb Hr He) as [H5 Ht].
    destruct fuel; cbn [batched_loop]; [done|]. by destruct (Z.ltb_spec 0 (Z.of_nat (length (encode url pad bytes)) - 5)); [lia|]. }
  destruct bytes as [|b0 [|b1 [|b2 [|b3 bytes]]]]; cbn in Hl; try lia.
  inversion_clear Hb as [|? ? H0 Hb']. inversion_clear Hb' as [|? ? H1 Hb].
  inversion_clear Hb as [|? ? H2 Hb']. pose proof (encode_two url pad b3 bytes) as Hlen.
  remember (b3 :: bytes) as tail eqn:Htail. cbn [encode] in Hf |- *.
  rewrite length_app, length_map in Hf |- *. cbn [length sextets3] in Hf |- *.
  destruct fuel as [|fuel]; [lia|]. cbn [batched_loop].
  destruct (Z.ltb_spec 0 (Z.of_nat (4 + length (encode url pad tail)) - 5)); [|lia].
  cbn [map app sextets3].
  change (accumulate (accumulate (accumulate (accumulate st _) _) _) _) with
    (foldl accumulate st (map (char_of url) (sextets3 b0 b1 b2))).
  rewrite accumulate_chars, He by (done || by apply sextets3_ok). cbn [acc_r acc_error].
  rewrite group3 by done.
  replace (Z.of_nat _ - 5 - 4) with (Z.of_nat (length (encode url pad tail)) - 5) by lia.
  rewrite (IH (length tail)); [by rewrite <- app_assoc|cbn; lia|done|done| |done|lia].
  cbn. apply wrapu_range. lia.
Qed.

(** The loop bound of a string of five characters or fewer. *)
Lemma batched_bound fuel src st out :
  batched_loop fuel (Z.of_nat (length src) - Z.min 5 (Z.of_nat (length src))) src st out =
  batched_loop fuel (Z.of_nat (length src) - 5) src st out.
Proof.
  destruct (Z.leb_spec 5 (Z.of_nat (length src))); [by rewrite Z.min_l by lia|].
  rewrite Z.min_r by lia. destruct fuel; [done|]. cbn [batched_loop].
  destruct (Z.ltb_spec 0 (Z.of_nat (length src) - Z.of_nat (length src))); [lia|].
  by destruct (Z.ltb_spec 0 (Z.of_nat (length src) - 5)); [lia|].
Qed.

(** C34. Decoding inverts the encoding of RFC 4648 on every string of bytes, in
    the alphabets of base64 and of base64url, padded or not. *)
Theorem Decode_encode (url pad : bool) (bytes : list Z) :
  Forall is_byte bytes -> Decode_bytes (encode url pad bytes) = Some bytes.
Proof.
  intros Hb. unfold Decode_bytes. rewrite batched_bound.
  by rewrite (decode_encode url pad bytes) by (done || cbn; lia).
Qed.

Lemma Decode_encode_witness :
  Decode_bytes (encode false true [0x68; 0x65; 0x6C; 0x6C; 0x6F; 0x21; 0xFF]) =
  Some [0x68; 0x65; 0x6C; 0x6C; 0x6F; 0x21; 0xFF].
Proof. apply Decode_encode. repeat constructor; unfold is_byte; lia. Defined.

(** ** Invalid strings *)

(** Characters the decoder lets pass, and the ones that carry data. *)
Definition valid_char (c : wchar) : Prop := is_Some (sextet c) \/ c = 0x3D.

Lemma tail_loop_error in_ st ri :
  Forall is_wchar in_ -> 0 <= acc_error st ->
  0 <= acc_error (tail_loop in_ st ri).1 /\
  (acc_error (tail_loop in_ st ri).1 = 0 -> acc_error st = 0 /\ Forall valid_char in_).
Proof.
  intros Hin. revert st ri. induction Hin as [|c in_ Hc Hin IH]; intros st ri He; [by split|].
  cbn [tail_loop]. destruct (Z.eqb_spec c 0x3D) as [->|Hne]; cbn [negb].
  - destruct (IH st ri He) as [H0 H1]. split; [done|]. intros Hz. apply H1 in Hz as [? ?].
    split; [done|]. constructor; [by right|done].
  - destruct (accumulate_error st c Hc He) as [Ha Hiff].
    destruct (IH (accumulate st c) (u8 (ri + 1)) Ha) as [H0 H1]. split; [done|].
    intros Hz. apply H1 in Hz as [Hz Hv]. apply Hiff in Hz as [? ?].
    split; [done|]. constructor; [by left|done].
Qed.

Lemma tail_loop_count in_ st ri :
  0 <= ri -> ri + Z.of_nat (length in_) < 256 ->
  (tail_loop in_ st ri).2 = ri + Z.of_nat (length (base.filter (fun c => c <> 0x3D) in_)).
Proof.
  revert st ri. induction in_ as [|c in_ IH]; intros st ri Hri Hl; cbn [tail_loop length] in *.
  { cbn. lia. }
  rewrite filter_cons. destruct (Z.eqb_spec c 0x3D) as [->|Hne]; cbn [negb].
  - rewrite decide_False by tauto. apply IH; lia.
  - rewrite decide_True by done. rewrite wrapu_small by lia. rewrite IH by lia. cbn [length]. lia.
Qed.

(** What the tail accepts. *)
Lemma Decode_tail_Some in_ st out bytes :
  Forall is_wchar in_ -> (length in_ < 256)%nat -> 0 <= acc_error st ->
  Decode_tail in_ st out = Some bytes ->
  acc_error st = 0 /\ Forall valid_char in_ /\
  length (base.filter (fun c => c <> 0x3D) in_) ∈ [0; 2; 3; 4]%nat.
Proof.
  intros Hin Hl He. unfold Decode_tail.
  pose proof (tail_loop_error in_ st 0 Hin He) as [H0 H1].
  pose proof (tail_loop_count in_ st 0 ltac:(lia) ltac:(lia)) as Hri.
  destruct (tail_loop in_ st 0) as [st' ri]; cbn [fst snd] in *.
  set (n := length (base.filter (fun c => c <> 0x3D) in_)) in *.
  assert (Hcase : ri = 2 \/ ri = 3 \/ ri = 4 \/ (ri <> 2 /\ ri <> 3 /\ ri <> 4)) by lia.
  rewrite !elem_of_cons.
  destruct Hcase as [-> | [-> | [-> | (N2 & N3 & N4)]]];
    try (cbv beta iota zeta; case_if; [done|]; intros _; bool_prop;
         destruct (H1 ltac:(assumption)); split_and!; [done|done|lia]).
  assert (Hm : match ri with
     | 2 => (out ++ [byte_of (acc_r st') 4], acc_error st')
     | 3 => (out ++ [byte_of (acc_r st') 10; byte_of (acc_r st') 2], acc_error st')
     | 4 => (out ++ [byte_of (acc_r st') 16; byte_of (acc_r st') 8; byte_of (acc_r st') 0], acc_error st')
     | _ => (out, Z.lor (acc_error st') ri) end = (out, Z.lor (acc_error st') ri)).
  { destruct ri as [|p|p]; try done. destruct p as [[p|p|]|[p|[p|p|]|]|]; done. }
  rewrite Hm. case_if; [done|]. intros _. bool_prop. apply Z.lor_eq_0_iff in Heqb as [Hz Hri0].
  destruct (H1 Hz). split_and!; [done|done|lia].
Qed.

Lemma batched_loop_error fuel k in_ st out :
  Forall is_wchar in_ -> 0 <= acc_error st -> k <= Z.of_nat (length in_) - 5 \/ k <= 0 ->
  let '(in', st', out') := batched_loop fuel k in_ st out in
  Forall is_wchar in' /\ 0 <= acc_error st' /\
  exists batch, in_ = batch ++ in' /\ (length batch mod 4 = 0)%nat /\
    (acc_error st' = 0 -> acc_error st = 0 /\ Forall (fun c => is_Some (sextet c)) batch).
Proof.
  revert k in_ st out. induction fuel as [|fuel IH]; intros k in_ st out Hin He Hk; cbn [batched_loop].
  { split_and!; [done|done|]. by exists []. }
  destruct (Z.ltb_spec 0 k); [|split_and!; [done|done|]; by exists []].
  destruct in_ as [|c0 [|c1 [|c2 [|c3 in_]]]]; try (cbn in Hk; lia).
  inversion_clear Hin as [|? ? W0 Hin0]. inversion_clear Hin0 as [|? ? W1 Hin1].
  inversion_clear Hin1 as [|? ? W2 Hin2]. inversion_clear Hin2 as [|? ? W3 Hin].
  destruct (accumulate_error st c0 W0 He) as [P0 E0].
  destruct (accumulate_error _ c1 W1 P0) as [P1 E1].
  destruct (accumulate_error _ c2 W2 P1) as [P2 E2].
  destruct (accumulate_error _ c3 W3 P2) as [P3 E3]. cbv zeta.
  match goal with |- context [batched_loop fuel ?k' in_ ?s ?o] =>
    specialize (IH k' in_ s o Hin P3 ltac:(cbn in Hk; lia));
    destruct (batched_loop fuel k' in_ s o) as [[in' st'] out'] end.
  destruct IH as (H1 & H2 & batch & -> & Hm & Hz). split_and!; [done|done|].
  exists (c0 :: c1 :: c2 :: c3 :: batch). split_and!; [done| |].
  - cbn [length]. change (S (S (S (S (length batch))))) with (4 + length batch)%nat.
    rewrite Nat.Div0.add_mod, Hm. done.
  - intros Hst. apply Hz in Hst as [Hst Hb]. apply E3 in Hst as [Hst ?]. apply E2 in Hst as [Hst ?].
    apply E1 in Hst as [Hst ?]. apply E0 in Hst as [Hst ?]. split; [done|]. by repeat constructor.
Qed.

Lemma batched_loop_rest fuel in_ st out :
  (length in_ <= fuel)%nat ->
  (length (batched_loop fuel (Z.of_nat (length in_) - 5) in_ st out).1.1 <= 5)%nat.
Proof.
  revert in_ st out. induction fuel as [|fuel IH]; intros in_ st out Hf; cbn [batched_loop]; [cbn; lia|].
  destruct (Z.ltb_spec 0 (Z.of_nat (length in_) - 5)); [|cbn; lia].
  destruct in_ as [|c0 [|c1 [|c2 [|c3 in_]]]]; cbn [length] in *; try lia.
  replace (Z.of_nat (S (S (S (S (length in_))))) - 5 - 4) with (Z.of_nat (length in_) - 5) by lia.
  apply IH. lia.
Qed.

(** Whatever [Decode] accepts is a sequence of groups of four characters of
    the alphabets and at most five more characters, of which all but [=] are of
    the alphabets and number none, two, three or four: no other string yields
    clipboard contents. *)
Theorem Decode_accepts (src : wstring) (bytes : list Z) :
  Forall is_wchar src -> Decode_bytes src = Some bytes ->
  exists batch tail, src = batch ++ tail /\ (length batch mod 4 = 0)%nat /\ (length tail <= 5)%nat /\
    Forall (fun c => is_Some (sextet c)) batch /\ Forall valid_char tail /\
    length (base.filter (fun c => c <> 0x3D) tail) ∈ [0; 2; 3; 4]%nat.
Proof.
  intros Hsrc. unfold Decode_bytes. rewrite batched_bound.
  pose proof (batched_loop_error (length src) (Z.of_nat (length src) - 5) src (mkAcc 0 0) []
    Hsrc ltac:(cbn; lia) ltac:(lia)) as Hb.
  pose proof (batched_loop_rest (length src) src (mkAcc 0 0) [] ltac:(lia)) as Hl.
  destruct (batched_loop _ _ _ _ _) as [[in' st'] out']. cbn [fst snd] in Hl.
  destruct Hb as (Hin & He & batch & -> & Hm & Hz). intros Hd.
  apply Decode_tail_Some in Hd as (Hst & Hv & Hc); [|done|lia|done].
  destruct (Hz Hst) as [_ Hb]. by exists batch, in'.
Qed.

Lemma Decode_accepts_witness :
  let src := L"aGVsbG8hYQ==" in
  exists batch tail, src = batch ++ tail /\ (length batch mod 4 = 0)%nat /\ (length tail <= 5)%nat /\
    Forall (fun c => is_Some (sextet c)) batch /\ Forall valid_char tail /\
    length (base.filter (fun c => c <> 0x3D) tail) ∈ [0; 2; 3; 4]%nat.
Proof.
  apply (Decode_accepts _ [0x68; 0x65; 0x6C; 0x6C; 0x6F; 0x21; 0x61]); [|reflexivity].
  repeat constructor; unfold is_wchar; cbn; lia.
Defined.

(** The padding character is ignored anywhere among the last five characters. *)
Example Decode_inner_padding : Decode_bytes (L"Y=Q") = Some [0x61].
Proof. reflexivity. Qed.
