(* ===== verification/Geometry.v ===== *)
(** * Points, sizes and rectangles

    Models the geometry of src/src/inc/til (point.h, size.h, rect.h, operators.h).
    Coordinates are 32-bit signed integers; arithmetic the code checks
    ([base::CheckAdd] and the like, then [extract]) throws when the exact result does
    not fit.  Comparison by [memcmp] of the structures is equality.  Conversions from
    floating point and to the structures of Windows are not modelled.

    The theorems: the difference of two rectangles is a partition of the points that
    are left; indices and points of a rectangle are in bijection; an iteration visits
    every point once, row by row; scaling down to cells gives the smallest rectangle
    of cells that covers a rectangle of pixels. *)

From Stdlib Require Import ZifyBool.
From S2P Require Import Prelude Effects.

Local Open Scope Z_scope.

Definition INT_MIN : Z := - 2 ^ 31.
Definition INT_MAX : Z := 2 ^ 31 - 1.
Definition is_int (z : Z) : Prop := INT_MIN <= z <= INT_MAX.

(** A checked result: [gsl::narrowing_error] if it does not fit. *)
Definition checked (z : Z) : Result Z :=
  if (INT_MIN <=? z) && (z <=? INT_MAX) then Ok z else Throw StdException.

Definition CheckAdd (a b : Z) : Result Z := checked (a + b).
Definition CheckSub (a b : Z) : Result Z := checked (a - b).
Definition CheckMul (a b : Z) : Result Z := checked (a * b).
Definition CheckDiv (a b : Z) : Result Z :=
  if b =? 0 then Throw StdException else checked (Z.quot a b).

Lemma checked_ok z : is_int z -> checked z = Ok z.
Proof.
  unfold is_int, checked. intros [H1 H2]. by rewrite (proj2 (Z.leb_le _ _) H1), (proj2 (Z.leb_le _ _) H2).
Qed.

Lemma checked_inv z r : checked z = Ok r -> r = z /\ is_int z.
Proof.
  unfold checked, is_int. case_if; [|done]. intros [= <-]. bool_prop. done.
Qed.

(** ** Points *)

Record point := Point {
  x : Z;
  y : Z
}.

#[export] Instance point_eq_dec : EqDecision point.
Proof. solve_decision. Defined.

Definition point_bool (p : point) : bool := (0 <? x p) && (0 <? y p).

Definition point_lt (p q : point) : bool := (y p <? y q) || ((y p =? y q) && (x p <? x q)).
Definition point_le (p q : point) : bool := (y p <? y q) || ((y p =? y q) && (x p <=? x q)).
Definition point_gt (p q : point) : bool := (y q <? y p) || ((y p =? y q) && (x q <? x p)).
Definition point_ge (p q : point) : bool := (y q <? y p) || ((y p =? y q) && (x q <=? x p)).

(** The operators on both coordinates, the first before the second. *)
Definition on_both (op : Z -> Z -> Result Z) (p q : point) : Result point :=
  let? a := op (x p) (x q) in
  let? b := op (y p) (y q) in
  Ok (Point a b).

Definition point_add : point -> point -> Result point := on_both CheckAdd.
Definition point_sub : point -> point -> Result point := on_both CheckSub.
Definition point_mul : point -> point -> Result point := on_both CheckMul.
Definition point_div : point -> point -> Result point := on_both CheckDiv.
Definition point_scale (p : point) (scale : Z) : Result point := on_both CheckMul p (Point scale scale).
Definition point_unscale (p : point) (scale : Z) : Result point := on_both CheckDiv p (Point scale scale).

(** ** Sizes *)

Record size := Size {
  width : Z;
  height : Z
}.

#[export] Instance size_eq_dec : EqDecision size.
Proof. solve_decision. Defined.

Definition size_bool (s : size) : bool := (0 <? width s) && (0 <? height s).

Definition on_sizes (op : Z -> Z -> Result Z) (s t : size) : Result size :=
  let? a := op (width s) (width t) in
  let? b := op (height s) (height t) in
  Ok (Size a b).

Definition size_add : size -> size -> Result size := on_sizes CheckAdd.
Definition size_sub : size -> size -> Result size := on_sizes CheckSub.
Definition size_mul : size -> size -> Result size := on_sizes CheckMul.
Definition size_div : size -> size -> Result size := on_sizes CheckDiv.

(** [(a - 1) / b + 1], the ceiling of a quotient of numbers that are not negative. *)
Definition div_ceil (a b : Z) : Z := if negb (a =? 0) then Z.quot (a - 1) b + 1 else 0.

Definition divide_ceil (s other : size) : Result size :=
  if (width s <? 0) || (height s <? 0) || (width other <=? 0) || (height other <=? 0)
  then Throw StdException
  else Ok (Size (div_ceil (width s) (width other)) (div_ceil (height s) (height other))).

(** The product as an [int64_t], narrowed. *)
Definition area (s : size) : Result Z := checked (wraps 64 (width s * height s)).

Definition point_of_size (s : size) : point := Point (width s) (height s).
Definition point_add_size (p : point) (s : size) : Result point := point_add p (point_of_size s).
Definition point_sub_size (p : point) (s : size) : Result point := point_sub p (point_of_size s).
Definition point_mul_size (p : point) (s : size) : Result point := point_mul p (point_of_size s).
Definition point_div_size (p : point) (s : size) : Result point := point_div p (point_of_size s).

(** ** Rectangles *)

Record inclusive_rect := InclusiveRect {
  ir_left : Z;
  ir_top : Z;
  ir_right : Z;
  ir_bottom : Z
}.

Definition inclusive_bool (r : inclusive_rect) : bool :=
  (0 <=? ir_left r) && (0 <=? ir_top r) && (ir_left r <=? ir_right r) && (ir_top r <=? ir_bottom r).

Record rect := Rect {
  left : Z;
  top : Z;
  right : Z;
  bottom : Z
}.

#[export] Instance inclusive_rect_eq_dec : EqDecision inclusive_rect.
Proof. solve_decision. Defined.
#[export] Instance rect_eq_dec : EqDecision rect.
Proof. solve_decision. Defined.

Definition rect_default : rect := Rect 0 0 0 0.
Definition rect_of_points (topLeft bottomRight : point) : rect :=
  Rect (x topLeft) (y topLeft) (x bottomRight) (y bottomRight).
Definition rect_of_size (s : size) : rect := Rect 0 0 (width s) (height s).
Definition rect_at (topLeft : point) (s : size) : Result rect :=
  mapR (rect_of_points topLeft) (point_add_size topLeft s).

Definition rect_bool (r : rect) : bool :=
  (0 <=? left r) && (0 <=? top r) && (left r <? right r) && (top r <? bottom r).

Definition empty (r : rect) : bool := negb (rect_bool r).

Definition contains (r : rect) (p : point) : bool :=
  (left r <=? x p) && (x p <? right r) && (top r <=? y p) && (y p <? bottom r).

Definition contains_rect (r rc : rect) : bool :=
  (left r <=? left rc) && (top r <=? top rc) && (right rc <=? right r) && (bottom rc <=? bottom r).

Definition rect_width (r : rect) : Result Z := CheckSub (right r) (left r).
Definition rect_height (r : rect) : Result Z := CheckSub (bottom r) (top r).
Definition origin (r : rect) : point := Point (left r) (top r).

(** [operator|], [operator&] and [operator-]. *)
Definition rect_or (r other : rect) : rect :=
  let thisEmpty := empty r in
  let otherEmpty := empty other in
  if thisEmpty && otherEmpty then rect_default
  else if thisEmpty then other
  else if otherEmpty then r
  else Rect (Z.min (left r) (left other)) (Z.min (top r) (top other))
            (Z.max (right r) (right other)) (Z.max (bottom r) (bottom other)).

Definition rect_and (a other : rect) : rect :=
  let l := Z.max (left a) (left other) in
  let r := Z.min (right a) (right other) in
  if r <=? l then rect_default
  else
    let t := Z.max (top a) (top other) in
    let b := Z.min (bottom a) (bottom other) in
    if b <=? t then rect_default
    else Rect l t r b.

(** [some<rect, 4>] has room for the four pieces. *)
Definition rect_minus (a other : rect) : list rect :=
  let intersect := rect_and a other in
  if empty intersect then [a]
  else if bool_decide (a <> intersect) then
    let t := Rect (left a) (top a) (right a) (top intersect) in
    let b := Rect (left a) (bottom intersect) (right a) (bottom a) in
    let l := Rect (left a) (top intersect) (left intersect) (bottom intersect) in
    let r := Rect (right intersect) (top intersect) (right a) (bottom intersect) in
    (if rect_bool t then [t] else []) ++ (if rect_bool b then [b] else []) ++
    (if rect_bool l then [l] else []) ++ (if rect_bool r then [r] else [])
  else [].

Definition on_corners (op : Z -> Z -> Result Z) (r : rect) (h v : Z) : Result rect :=
  let? l := op (left r) h in
  let? t := op (top r) v in
  let? ri := op (right r) h in
  let? b := op (bottom r) v in
  Ok (Rect l t ri b).

Definition rect_add_point (r : rect) (p : point) : Result rect := on_corners CheckAdd r (x p) (y p).
Definition rect_sub_point (r : rect) (p : point) : Result rect := on_corners CheckSub r (x p) (y p).
Definition scale_up (r : rect) (s : size) : Result rect := on_corners CheckMul r (width s) (height s).

Definition scale_down (r : rect) (s : size) : Result rect :=
  if (left r <? 0) || (top r <? 0) || (right r <? 0) || (bottom r <? 0)
     || (width s <=? 0) || (height s <=? 0)
  then Throw StdException
  else Ok (Rect (Z.quot (left r) (width s)) (Z.quot (top r) (height s))
                (div_ceil (right r) (width s)) (div_ceil (bottom r) (height s))).

(** [THROW_HR_IF(E_INVALIDARG, ...)] throws a [wil::ResultException]. *)
Definition index_of (r : rect) (pt : point) : Result Z :=
  if negb (contains r pt) then Throw StdException
  else
    let? w := rect_width r in
    let? rows := CheckSub (y pt) (top r) in
    let? before := CheckMul rows w in
    let? at_column := CheckAdd before (x pt) in
    CheckSub at_column (left r).

(** A difference or product as a [size_t]: invalid if it is negative. *)
Definition as_size (z : Result Z) : Result Z :=
  let? n := z in if n <? 0 then Throw StdException else Ok n.

Definition point_at (r : rect) (index : Z) : Result point :=
  let? w := as_size (CheckSub (right r) (left r)) in
  let? h := CheckSub (bottom r) (top r) in
  let? area := as_size (if h <? 0 then Throw StdException else CheckMul h w) in
  if area <=? index then Throw StdException
  else
    let quot := wraps 32 (Z.quot index w) in
    let rem := wraps 32 (Z.rem index w) in
    Ok (Point (left r + rem) (top r + quot)).

Definition rect_of_inclusive (r : inclusive_rect) : rect :=
  Rect (ir_left r) (ir_top r) (ir_right r + 1) (ir_bottom r + 1).
Definition to_inclusive_rect (r : rect) : inclusive_rect :=
  InclusiveRect (left r) (top r) (right r - 1) (bottom r - 1).

(** [gsl::narrow<short>] of the four sides, and the variant that returns an error. *)
Definition narrow_short (z : Z) : Result Z :=
  if (- 2 ^ 15 <=? z) && (z <? 2 ^ 15) then Ok z else Throw StdException.

Definition unwrap_exclusive_small_rect (r : rect) : Result rect :=
  on_corners (fun z _ => narrow_short z) r 0 0.

Definition unwrap_coord (p : point) : Result point := on_both (fun z _ => narrow_short z) p p.

(** ** Iteration

    [_rectangle_const_iterator]: the corners and the current point. *)
Record rect_iterator := RectIterator {
  _topLeft : point;
  _bottomRight : point;
  _current : point
}.

#[export] Instance rect_iterator_eq_dec : EqDecision rect_iterator.
Proof. solve_decision. Defined.

Definition rect_begin (r : rect) : rect_iterator :=
  RectIterator (Point (left r) (top r)) (Point (right r) (bottom r)) (Point (left r) (top r)).

Definition rect_end (r : rect) : rect_iterator :=
  RectIterator (Point (left r) (top r)) (Point (right r) (bottom r)) (Point (left r) (bottom r)).

Definition rect_next (i : rect_iterator) : Result rect_iterator :=
  let? nextX := CheckAdd (x (_current i)) 1 in
  if x (_bottomRight i) <=? nextX then
    let? nextY := CheckAdd (y (_current i)) 1 in
    Ok (RectIterator (_topLeft i) (_bottomRight i) (Point (x (_topLeft i)) nextY))
  else
    Ok (RectIterator (_topLeft i) (_bottomRight i) (Point nextX (y (_current i)))).

(** [for (auto p : rect)]: the points visited. *)
Fixpoint visit (fuel : nat) (i last : rect_iterator) : Result (list point) :=
  match fuel with
  | O => OutOfFuel
  | S fuel =>
      if bool_decide (i = last) then Ok []
      else
        let? j := rect_next i in
        mapR (cons (_current i)) (visit fuel j last)
  end.

(** ** Membership *)

Lemma contains_spec r p :
  contains r p = true <-> left r <= x p < right r /\ top r <= y p < bottom r.
Proof. unfold contains. lia. Qed.

Lemma rect_bool_spec r :
  rect_bool r = true <-> 0 <= left r < right r /\ 0 <= top r < bottom r.
Proof. unfold rect_bool. lia. Qed.

(** How many of the rectangles contain a point. *)
Definition cover (rs : list rect) (p : point) : nat :=
  length (filter (fun r => contains r p = true) rs).

Lemma cover_app rs1 rs2 p : cover (rs1 ++ rs2) p = (cover rs1 p + cover rs2 p)%nat.
Proof. unfold cover. by rewrite list.filter_app, length_app. Qed.

Lemma cover_one r p : cover [r] p = Nat.b2n (contains r p).
Proof. unfold cover. cbn. by destruct (contains r p). Qed.

(** A piece that is left out because it is empty covers nothing. *)
Lemma cover_piece r p :
  0 <= left r -> 0 <= top r -> cover (if rect_bool r then [r] else []) p = Nat.b2n (contains r p).
Proof.
  intros Hl Ht. destruct (rect_bool r) eqn:E; [apply cover_one|].
  destruct (contains r p) eqn:Ec; [|done]. apply contains_spec in Ec.
  assert (rect_bool r = true) by (apply rect_bool_spec; lia). congruence.
Qed.

Lemma rect_and_contains a b p :
  contains (rect_and a b) p = contains a p && contains b p.
Proof.
  apply eq_true_iff_eq. rewrite andb_true_iff, !contains_spec. unfold rect_and.
  repeat case_if; cbn; lia.
Qed.

(** The intersection is no larger than the rectangle, unless it is the default. *)
Lemma rect_and_inside a b :
  empty (rect_and a b) = false ->
  left a <= left (rect_and a b) /\ right (rect_and a b) <= right a /\
  top a <= top (rect_and a b) /\ bottom (rect_and a b) <= bottom a /\
  rect_bool (rect_and a b) = true.
Proof.
  unfold empty. intros H. apply negb_false_iff in H. revert H. unfold rect_and.
  repeat case_if; cbn; intros H; [done|done|]. repeat split; try lia.
Qed.

(** An intersection that counts as empty contains no point of a rectangle without
    negative coordinates. *)
Lemma rect_and_empty a b p :
  0 <= left a -> 0 <= top a -> empty (rect_and a b) = true ->
  contains a p && contains b p = false.
Proof.
  intros Hl Ht H. rewrite <- rect_and_contains. destruct (contains (rect_and a b) p) eqn:E; [|done].
  apply contains_spec in E. revert H E. unfold empty, rect_bool, rect_and.
  repeat case_if; cbn; lia.
Qed.

Lemma rect_minus_cover a b p :
  0 <= left a -> 0 <= top a ->
  cover (rect_minus a b) p = Nat.b2n (contains a p && negb (contains b p)).
Proof.
  intros Hl Ht. unfold rect_minus. destruct (empty (rect_and a b)) eqn:E.
  - rewrite cover_one. pose proof (rect_and_empty a b p Hl Ht E) as H.
    by destruct (contains a p), (contains b p).
  - destruct (rect_and_inside a b E) as (H1 & H2 & H3 & H4 & H5). apply rect_bool_spec in H5.
    replace (contains a p && negb (contains b p)) with (contains a p && negb (contains (rect_and a b) p))
      by (rewrite rect_and_contains; by destruct (contains a p), (contains b p)).
    case_bool_decide as Hne.
    + rewrite !cover_app, !cover_piece by (cbn; lia). unfold contains; cbn [left top right bottom]. lia.
    + rewrite <- Hne. by destruct (contains a p).
Qed.

(** The difference of two rectangles is a partition of what is left: a point is in
    exactly one of the pieces if it is in the first rectangle and not in the second,
    and in none otherwise; of a rectangle that is not empty no piece is empty. *)
Theorem rect_minus_partition (a b : rect) :
  0 <= left a -> 0 <= top a ->
  (forall p, cover (rect_minus a b) p = if contains a p && negb (contains b p) then 1%nat else 0%nat) /\
  (empty a = false -> Forall (fun r => empty r = false) (rect_minus a b)) /\
  (length (rect_minus a b) <= 4)%nat.
Proof.
  intros Hl Ht. split; [intros p; rewrite rect_minus_cover by done; by destruct (_ && _)|].
  unfold rect_minus. destruct (empty (rect_and a b)); [repeat constructor; done|].
  case_bool_decide; [|repeat constructor].
  split; [|repeat case_if; cbn; lia].
  intros _. unfold empty. rewrite !Forall_app.
  repeat split; case_if; repeat constructor; by apply negb_false_iff.
Qed.

Lemma rect_minus_partition_witness :
  cover (rect_minus (Rect 0 0 10 10) (Rect 3 3 20 6)) (Point 2 4) = 1%nat /\
  cover (rect_minus (Rect 0 0 10 10) (Rect 3 3 20 6)) (Point 9 4) = 0%nat /\
  rect_minus (Rect 0 0 10 10) (Rect 3 3 20 6) = [Rect 0 0 10 3; Rect 0 6 10 10; Rect 0 3 3 6].
Proof.
  destruct (rect_minus_partition (Rect 0 0 10 10) (Rect 3 3 20 6)) as [H _]; [cbn; lia..|].
  split; [rewrite (H (Point 2 4)); reflexivity|]. split; [rewrite (H (Point 9 4)); reflexivity|reflexivity].
Defined.

(** A rectangle with negative coordinates counts as empty, so nothing is removed from
    the part of it that is there. *)
Example rect_minus_negative : rect_minus (Rect (-2) 0 3 1) (Rect (-2) 0 3 1) = [Rect (-2) 0 3 1].
Proof. reflexivity. Qed.

(** ** Indices *)

(** A rectangle with points whose indices can be computed. *)
Record measured (r : rect) : Prop := {
  me_left : INT_MIN <= left r < right r;
  me_top : INT_MIN <= top r < bottom r;
  me_right : right r <= INT_MAX;
  me_bottom : bottom r <= INT_MAX;
  me_area : (right r - left r) * (bottom r - top r) + Z.max 0 (right r) <= INT_MAX
}.

Definition rect_area (r : rect) : Z := (right r - left r) * (bottom r - top r).

(** The point with an index, in rows from left to right. *)
Definition nth_point (r : rect) (i : Z) : point :=
  Point (left r + i mod (right r - left r)) (top r + i / (right r - left r)).

Lemma nth_point_of r q c :
  0 <= c < right r - left r -> nth_point r (q * (right r - left r) + c) = Point (left r + c) (top r + q).
Proof.
  intros Hc. unfold nth_point.
  rewrite (Z.add_comm (q * (right r - left r)) c), Z.mod_add, Z.div_add, Z.mod_small, Z.div_small by lia. f_equal; lia.
Qed.

Lemma nth_point_split w i :
  0 < w -> exists q c, i = q * w + c /\ 0 <= c < w /\ q = i / w.
Proof.
  intros Hw. exists (i / w), (i mod w). split; [|split; [apply Z.mod_pos_bound; lia|done]].
  rewrite Z.mul_comm. by apply Z.div_mod; lia.
Qed.

Lemma row_below q c w h : 0 <= c < w -> 0 <= q * w + c < w * h -> 0 <= q < h.
Proof. intros Hc [H1 H2]. split; nia. Qed.

Lemma index_of_spec r q c :
  measured r -> 0 <= c < right r - left r -> 0 <= q < bottom r - top r ->
  index_of r (Point (left r + c) (top r + q)) = Ok (q * (right r - left r) + c).
Proof.
  intros [Hl Ht Hr Hb Ha] Hc Hq. unfold INT_MIN, INT_MAX in *. unfold index_of.
  replace (contains r _) with true by (symmetry; apply contains_spec; cbn; lia). cbn [negb].
  assert (0 <= q * (right r - left r) <= (right r - left r) * (bottom r - top r)) by nia.
  assert (right r - left r <= (right r - left r) * (bottom r - top r)) by nia.
  assert (bottom r - top r <= (right r - left r) * (bottom r - top r)) by nia.
  assert (q * (right r - left r) + (right r - left r) <= (right r - left r) * (bottom r - top r)) by nia.
  unfold rect_width, CheckSub, CheckMul, CheckAdd; cbn [x y].
  rewrite checked_ok by (unfold is_int, INT_MIN, INT_MAX; lia). cbn [bindR].
  replace (top r + q - top r) with q by lia.
  rewrite checked_ok by (unfold is_int, INT_MIN, INT_MAX; lia). cbn [bindR].
  rewrite checked_ok by (unfold is_int, INT_MIN, INT_MAX; lia). cbn [bindR].
  rewrite checked_ok by (unfold is_int, INT_MIN, INT_MAX; lia). cbn [bindR].
  rewrite checked_ok by (unfold is_int, INT_MIN, INT_MAX; lia). f_equal; lia.
Qed.

Lemma point_at_spec r i :
  measured r -> 0 <= i ->
  point_at r i = if rect_area r <=? i then Throw StdException else Ok (nth_point r i).
Proof.
  intros [Hl Ht Hr Hb Ha] Hi. unfold INT_MIN, INT_MAX, rect_area in *. unfold point_at, as_size.
  assert (right r - left r <= (right r - left r) * (bottom r - top r)) by nia.
  assert (bottom r - top r <= (right r - left r) * (bottom r - top r)) by nia.
  unfold CheckSub, CheckMul.
  rewrite checked_ok by (unfold is_int, INT_MIN, INT_MAX; lia). cbn [bindR].
  destruct (Z.ltb_spec (right r - left r) 0); [lia|]. cbn [bindR].
  rewrite checked_ok by (unfold is_int, INT_MIN, INT_MAX; lia). cbn [bindR].
  destruct (Z.ltb_spec (bottom r - top r) 0); [lia|]. cbn [bindR].
  rewrite checked_ok by (unfold is_int, INT_MIN, INT_MAX; lia). cbn [bindR].
  rewrite (Z.mul_comm (bottom r - top r)).
  destruct (Z.ltb_spec ((right r - left r) * (bottom r - top r)) 0); [lia|]. cbn [bindR].
  destruct (Z.leb_spec ((right r - left r) * (bottom r - top r)) i); [done|].
  unfold nth_point. rewrite Z.quot_div_nonneg, Z.rem_mod_nonneg by lia.
  pose proof (Z.mod_pos_bound i (right r - left r) ltac:(lia)).
  assert (0 <= i / (right r - left r) <= i) by (split; [apply Z.div_pos; lia|apply Z.div_le_upper_bound; nia]).
  rewrite !wraps_small by lia. done.
Qed.

(** Indices and points of a rectangle are in bijection: [point_at] inverts
    [index_of] and the other way round; a point outside has no index, an index past
    the area no point, and both are refused with an exception. *)
Theorem rect_index_bijection (r : rect) :
  measured r ->
  (forall p, contains r p = true ->
     exists i, index_of r p = Ok i /\ 0 <= i < rect_area r /\ point_at r i = Ok p) /\
  (forall i, 0 <= i < rect_area r ->
     exists p, point_at r i = Ok p /\ contains r p = true /\ index_of r p = Ok i) /\
  (forall p, contains r p = false -> index_of r p = Throw StdException) /\
  (forall i, rect_area r <= i -> point_at r i = Throw StdException).
Proof.
  intros Hm. pose proof Hm as [Hl Ht Hr Hb Ha]. unfold rect_area. split; [|split; [|split]].
  - intros [px py] Hp. apply contains_spec in Hp; cbn in Hp.
    exists ((py - top r) * (right r - left r) + (px - left r)).
    assert (Hp' : Point px py = Point (left r + (px - left r)) (top r + (py - top r))) by (f_equal; lia).
    rewrite Hp' at 1. rewrite index_of_spec by (done || lia). split; [done|]. split; [nia|].
    rewrite point_at_spec by (done || nia). unfold rect_area.
    destruct (Z.leb_spec ((right r - left r) * (bottom r - top r))
                ((py - top r) * (right r - left r) + (px - left r))); [nia|].
    rewrite nth_point_of by lia. by rewrite <- Hp'.
  - intros i Hi. destruct (nth_point_split (right r - left r) i) as (q & c & -> & Hc & _); [lia|].
    pose proof (row_below _ _ _ _ Hc Hi). exists (Point (left r + c) (top r + q)).
    rewrite point_at_spec by (done || lia). unfold rect_area.
    destruct (Z.leb_spec ((right r - left r) * (bottom r - top r)) (q * (right r - left r) + c)); [lia|].
    rewrite nth_point_of by lia. split; [done|]. split; [apply contains_spec; cbn; lia|].
    by apply index_of_spec.
  - intros p Hp. unfold index_of. by rewrite Hp.
  - intros i Hi. rewrite point_at_spec by (done || nia). unfold rect_area.
    by rewrite (proj2 (Z.leb_le _ _) Hi).
Qed.

Lemma sample_measured : measured (Rect 2 1 12 5).
Proof. split; cbn; unfold INT_MIN, INT_MAX; lia. Qed.

Lemma rect_index_bijection_witness :
  exists i, index_of (Rect 2 1 12 5) (Point 7 3) = Ok i /\ point_at (Rect 2 1 12 5) i = Ok (Point 7 3).
Proof.
  destruct (rect_index_bijection (Rect 2 1 12 5) sample_measured) as [H _].
  destruct (H (Point 7 3)) as (i & H1 & _ & H2); [reflexivity|]. by exists i.
Defined.

(** ** Iteration *)

Definition at_point (r : rect) (p : point) : rect_iterator :=
  RectIterator (Point (left r) (top r)) (Point (right r) (bottom r)) p.

Lemma rect_next_spec r q c :
  INT_MIN <= left r < right r -> right r <= INT_MAX -> INT_MIN <= top r -> bottom r <= INT_MAX ->
  0 <= c < right r - left r -> 0 <= q < bottom r - top r ->
  rect_next (at_point r (Point (left r + c) (top r + q))) =
  Ok (at_point r (if c + 1 <? right r - left r then Point (left r + (c + 1)) (top r + q)
                  else Point (left r) (top r + (q + 1)))).
Proof.
  intros Hl Hr Ht Hb Hc Hq. unfold rect_next, at_point, CheckAdd; cbn [_current _topLeft _bottomRight x y].
  rewrite checked_ok by (unfold is_int, INT_MIN, INT_MAX in *; lia). cbn [bindR].
  destruct (Z.ltb_spec (c + 1) (right r - left r)), (Z.leb_spec (right r) (left r + c + 1)); try lia.
  - by rewrite Z.add_assoc.
  - rewrite checked_ok by (unfold is_int, INT_MIN, INT_MAX in *; lia). cbn [bindR].
    by rewrite Z.add_assoc.
Qed.

Lemma rect_next_nth r i :
  INT_MIN <= left r < right r -> right r <= INT_MAX -> INT_MIN <= top r -> bottom r <= INT_MAX ->
  0 <= i < rect_area r ->
  rect_next (at_point r (nth_point r i)) = Ok (at_point r (nth_point r (i + 1))).
Proof.
  intros Hl Hr Ht Hb Hi. destruct (nth_point_split (right r - left r) i) as (q & c & -> & Hc & _); [lia|].
  pose proof (row_below _ _ _ _ Hc Hi). rewrite nth_point_of, rect_next_spec by lia. do 2 f_equal.
  destruct (Z.ltb_spec (c + 1) (right r - left r)).
  - rewrite <- Z.add_assoc, nth_point_of by lia. done.
  - replace (q * (right r - left r) + c + 1) with ((q + 1) * (right r - left r) + 0) by lia.
    rewrite nth_point_of by lia. f_equal; lia.
Qed.

Lemma visit_step fuel i last :
  visit (S fuel) i last =
  if bool_decide (i = last) then Ok []
  else let? j := rect_next i in mapR (cons (_current i)) (visit fuel j last).
Proof. done. Qed.

(** The points from an index on. *)
Definition points_from (r : rect) (i : Z) (n : nat) : list point :=
  map (fun k => nth_point r (i + Z.of_nat k)) (seq 0 n).

Lemma points_from_S r i n : points_from r i (S n) = nth_point r i :: points_from r (i + 1) n.
Proof.
  unfold points_from. cbn [seq map]. rewrite Z.add_0_r. f_equal.
  rewrite <- seq_shift, map_map. apply map_ext. intros k. f_equal. lia.
Qed.

Lemma visit_from r n : forall i,
  INT_MIN <= left r < right r -> right r <= INT_MAX -> INT_MIN <= top r < bottom r -> bottom r <= INT_MAX ->
  0 <= i -> i + Z.of_nat n = rect_area r ->
  visit (S n) (at_point r (nth_point r i)) (rect_end r) = Ok (points_from r i n).
Proof.
  assert (Hend : left r < right r -> nth_point r (rect_area r) = Point (left r) (bottom r)).
  { intros. unfold rect_area. replace (_ * _) with ((bottom r - top r) * (right r - left r) + 0) by lia.
    rewrite nth_point_of by lia. f_equal; lia. }
  induction n as [|n IH]; intros i Hl Hr Ht Hb Hi E.
  - replace i with (rect_area r) by lia. rewrite Hend by lia. cbn [visit].
    by rewrite bool_decide_eq_true_2.
  - rewrite visit_step, bool_decide_eq_false_2.
    + rewrite rect_next_nth by lia. cbn [bindR].
      rewrite (IH (i + 1)) by lia. cbn [mapR]. by rewrite points_from_S.
    + intros Heq. apply (f_equal _current) in Heq. cbn in Heq. rewrite <- Hend in Heq by lia.
      apply (f_equal y) in Heq. cbn in Heq.
      assert (i / (right r - left r) < bottom r - top r) by (apply Z.div_lt_upper_bound; unfold rect_area in E; lia).
      unfold rect_area in Heq. rewrite Z.mul_comm, Z.div_mul in Heq by lia. lia.
Qed.

(** The iteration over a rectangle with columns and rows ends after exactly as many
    steps as it has points, and visits them in the order of their indices, each
    once. *)
Theorem rect_iteration (r : rect) :
  INT_MIN <= left r < right r -> right r <= INT_MAX -> INT_MIN <= top r < bottom r -> bottom r <= INT_MAX ->
  exists ps, visit (S (Z.to_nat (rect_area r))) (rect_begin r) (rect_end r) = Ok ps /\
    length ps = Z.to_nat (rect_area r) /\ NoDup ps /\
    (forall i, 0 <= i < rect_area r -> ps !! Z.to_nat i = Some (nth_point r i)) /\
    (forall p, p ∈ ps <-> contains r p = true).
Proof.
  intros Hl Hr Ht Hb. assert (Ha : 0 <= rect_area r) by (unfold rect_area; nia).
  exists (points_from r 0 (Z.to_nat (rect_area r))).
  assert (Hin : forall p, p ∈ points_from r 0 (Z.to_nat (rect_area r)) <-> contains r p = true).
  { intros [px py]. unfold points_from. rewrite list_elem_of_In, in_map_iff. split.
    - intros (k & <- & Hk). apply in_seq in Hk. rewrite Z.add_0_l, contains_spec.
      destruct (nth_point_split (right r - left r) (Z.of_nat k)) as (q & c & E & Hc & _); [lia|].
      pose proof (row_below q c (right r - left r) (bottom r - top r) Hc) as Hrow.
      unfold rect_area in *. specialize (Hrow ltac:(lia)).
      rewrite E, nth_point_of by lia. cbn. lia.
    - intros Hp. apply contains_spec in Hp; cbn in Hp.
      exists (Z.to_nat ((py - top r) * (right r - left r) + (px - left r))).
      rewrite Z2Nat.id, Z.add_0_l, nth_point_of by nia. split; [f_equal; lia|].
      apply in_seq. unfold rect_area. nia. }
  split.
  { replace (rect_begin r) with (at_point r (nth_point r 0)).
    - apply visit_from; lia.
    - unfold rect_begin, at_point, nth_point. rewrite Z.mod_0_l, Z.div_0_l, !Z.add_0_r by lia. done. }
  split; [unfold points_from; by rewrite length_map, length_seq|].
  split; [|split; [|exact Hin]].
  - apply NoDup_fmap_2_strong; [|apply NoDup_seq].
    intros a b Ha' Hb' E. rewrite !Z.add_0_l in E. unfold nth_point in E. injection E as E1 E2.
    pose proof (Z.div_mod (Z.of_nat a) (right r - left r) ltac:(lia)).
    pose proof (Z.div_mod (Z.of_nat b) (right r - left r) ltac:(lia)).
    assert (Z.of_nat a mod (right r - left r) = Z.of_nat b mod (right r - left r)) by lia.
    assert (Z.of_nat a / (right r - left r) = Z.of_nat b / (right r - left r)) by lia. nia.
  - intros i Hi. unfold points_from. rewrite list_lookup_fmap, lookup_seq_lt by lia. cbn. do 2 f_equal. lia.
Qed.

Lemma rect_iteration_witness :
  visit 7 (rect_begin (Rect 4 1 7 3)) (rect_end (Rect 4 1 7 3)) =
    Ok [Point 4 1; Point 5 1; Point 6 1; Point 4 2; Point 5 2; Point 6 2] /\
  (forall p, p ∈ [Point 4 1; Point 5 1; Point 6 1; Point 4 2; Point 5 2; Point 6 2] <->
     contains (Rect 4 1 7 3) p = true).
Proof.
  destruct (rect_iteration (Rect 4 1 7 3)) as (ps & E & _ & _ & _ & H);
    [unfold INT_MIN, INT_MAX; cbn; lia..|].
  assert (ps = [Point 4 1; Point 5 1; Point 6 1; Point 4 2; Point 5 2; Point 6 2]) as ->
    by (revert E; vm_compute; by intros [= <-]).
  split; [exact E|exact H].
Defined.

(** A rectangle without columns contains no point, but an iteration over it visits
    one point for every row: it only stops below the last one. *)
Theorem rect_iteration_without_columns (r : rect) (n : nat) :
  right r <= left r -> INT_MIN <= left r < INT_MAX -> INT_MIN <= top r -> bottom r <= INT_MAX ->
  bottom r = top r + Z.of_nat n ->
  visit (S n) (rect_begin r) (rect_end r) =
    Ok (map (fun k => Point (left r) (top r + Z.of_nat k)) (seq 0 n)) /\
  forall p, contains r p = false.
Proof.
  intros Hlr Hl Ht Hb Hn. split.
  2:{ intros p. destruct (contains r p) eqn:E; [|done]. apply contains_spec in E. lia. }
  assert (Hgen : forall m k, n = (k + m)%nat ->
    visit (S m) (at_point r (Point (left r) (top r + Z.of_nat k))) (rect_end r) =
    Ok (map (fun k => Point (left r) (top r + Z.of_nat k)) (seq k m))).
  { induction m as [|m IH]; intros k E.
    - cbn [visit]. rewrite bool_decide_eq_true_2; [done|]. unfold at_point, rect_end. do 2 f_equal. lia.
    - rewrite visit_step, bool_decide_eq_false_2.
      2:{ unfold at_point, rect_end. intros [= H]. lia. }
      unfold rect_next, at_point, CheckAdd; cbn [_current _topLeft _bottomRight x y].
      rewrite checked_ok by (unfold is_int, INT_MIN, INT_MAX in *; lia). cbn [bindR].
      destruct (Z.leb_spec (right r) (left r + 1)); [|lia].
      rewrite checked_ok by (unfold is_int, INT_MIN, INT_MAX in *; lia). cbn [bindR].
      replace (top r + Z.of_nat k + 1) with (top r + Z.of_nat (S k)) by lia.
      change (RectIterator _ _ ?p) with (at_point r p). rewrite (IH (S k)) by lia. done. }
  unfold rect_begin. replace (Point (left r) (top r)) with (Point (left r) (top r + Z.of_nat 0)) at 2
    by (f_equal; lia).
  exact (Hgen n 0%nat eq_refl).
Qed.

Lemma rect_iteration_without_columns_witness :
  visit 3 (rect_begin (Rect 5 1 5 3)) (rect_end (Rect 5 1 5 3)) = Ok [Point 5 1; Point 5 2] /\
  contains (Rect 5 1 5 3) (Point 5 1) = false.
Proof.
  destruct (rect_iteration_without_columns (Rect 5 1 5 3) 2) as [H1 H2];
    [unfold INT_MIN, INT_MAX; cbn; lia..|].
  split; [exact H1|apply H2].
Defined.

(** ** Scaling *)

Lemma quot_floor a d w : 0 <= a -> 0 < w -> d * w <= a <-> d <= Z.quot a w.
Proof.
  intros Ha Hw. rewrite Z.quot_div_nonneg by lia. split; intros H.
  - apply Z.div_le_lower_bound; lia.
  - pose proof (Z.mul_div_le a w Hw). nia.
Qed.

Lemma div_ceil_spec a d w : 0 <= a -> 0 < w -> a <= d * w <-> div_ceil a w <= d.
Proof.
  intros Ha Hw. unfold div_ceil. destruct (Z.eqb_spec a 0) as [->|]; cbn [negb]; [split; nia|].
  rewrite Z.quot_div_nonneg by lia. split; intros H.
  - assert ((a - 1) / w < d); [|lia]. apply Z.div_lt_upper_bound; lia.
  - assert (a - 1 < ((a - 1) / w + 1) * w); [|nia].
    pose proof (Z.mod_pos_bound (a - 1) w Hw). pose proof (Z.div_mod (a - 1) w ltac:(lia)). lia.
Qed.

Lemma on_corners_mul d s u :
  scale_up d s = Ok u ->
  u = Rect (left d * width s) (top d * height s) (right d * width s) (bottom d * height s).
Proof.
  unfold scale_up, on_corners, CheckMul.
  do 4 (destruct (checked _) eqn:? at 1; [|done..]; cbn [bindR];
        match goal with H : checked _ = Ok _ |- _ => apply checked_inv in H as [-> _] end).
  by intros [= <-].
Qed.

(** [scale_down] gives the smallest rectangle of cells that covers a rectangle of
    pixels: a rectangle of cells contains it exactly if the pixels of those cells
    contain the rectangle. *)
Theorem scale_down_smallest_cover (r d u c : rect) (s : size) :
  scale_down r s = Ok c -> scale_up d s = Ok u ->
  contains_rect u r = contains_rect d c.
Proof.
  unfold scale_down. case_if; [done|]. intros [= <-] Hu. apply on_corners_mul in Hu as ->.
  apply eq_true_iff_eq. unfold contains_rect; cbn [left top right bottom].
  rewrite !andb_true_iff, !Z.leb_le, !quot_floor, !div_ceil_spec by lia. done.
Qed.

Lemma scale_down_smallest_cover_witness :
  scale_down (Rect 17 24 31 38) (Size 5 10) = Ok (Rect 3 2 7 4) /\
  scale_up (Rect 3 2 7 4) (Size 5 10) = Ok (Rect 15 20 35 40) /\
  contains_rect (Rect 15 20 35 40) (Rect 17 24 31 38) = true.
Proof.
  split; [reflexivity|]. split; [reflexivity|].
  rewrite (scale_down_smallest_cover (Rect 17 24 31 38) (Rect 3 2 7 4) _ (Rect 3 2 7 4) (Size 5 10));
    reflexivity.
Defined.

(** The union is the smallest rectangle that contains two rectangles which are not empty. *)
Lemma rect_or_least a b c :
  empty a = false -> empty b = false ->
  contains_rect c (rect_or a b) = contains_rect c a && contains_rect c b.
Proof.
  intros Ha Hb. unfold rect_or. rewrite Ha, Hb. cbn [andb].
  unfold contains_rect; cbn [left top right bottom]. lia.
Qed.
