(* ===== verification/Bitset.v ===== *)
(** * Bit sets

    Models the operations of [dynamic_bitset] (src/oss/dynamic_bitset/dynamic_bitset.hpp)
    that [til::bitmap] uses: a vector of 64-bit blocks and a number of bits.  An index
    into the vector that is out of its range is undefined behaviour; the assertions of the
    header, which a release build removes, are not checks.  Sizes and positions are
    below 2^64 by far ([til::bitmap] has at most 2^31 bits), so they are not wrapped.

    The theorem: whatever the representation, the operations act on the sequence of bits,
    and the bits of the last block past the end stay zero. *)

From S2P Require Import Prelude Effects.

Local Open Scope Z_scope.

Definition bits_per_block : Z := 64.
Definition zero_block : Z := 0.
Definition one_block : Z := 2 ^ 64 - 1.
Definition block_last_bit_index : Z := bits_per_block - 1.

(** The largest [size_type]. *)
Definition bitset_npos : Z := 2 ^ 64 - 1.

Record dynamic_bitset := mkBitset {
  m_blocks : list Z;
  m_bits_number : Z
}.

Definition set_blocks (l : list Z) (b : dynamic_bitset) : dynamic_bitset := mkBitset l (m_bits_number b).

Abbreviation BS := (M dynamic_bitset).

Definition blocks_required (nbits : Z) : Z :=
  nbits / bits_per_block + (if 0 <? nbits mod bits_per_block then 1 else 0).
Definition block_index (pos : Z) : Z := pos / bits_per_block.
Definition bit_index (pos : Z) : Z := pos mod bits_per_block.

Definition bit_mask (pos : Z) : Z := u64 (Z.shiftl 1 (bit_index pos)).

Definition bit_mask_range (first last : Z) : Z :=
  let first := bit_index first in
  let last := bit_index last in
  if last =? block_last_bit_index then u64 (Z.shiftl one_block first)
  else Z.lxor (u64 (u64 (Z.shiftl 1 (last + 1)) - 1)) (u64 (u64 (Z.shiftl 1 first) - 1)).

(** [~block]. *)
Definition block_not (block : Z) : Z := Z.lxor one_block block.

Definition set_block_bits (block first last : Z) (val : bool) : Z :=
  if val then Z.lor block (bit_mask_range first last)
  else Z.land block (block_not (bit_mask_range first last)).

(** [m_blocks[i]], read and written. *)
Definition block_at (b : dynamic_bitset) (i : Z) : Result Z :=
  if i <? 0 then Undefined
  else match m_blocks b !! Z.to_nat i with Some v => Ok v | None => Undefined end.

Definition block_get (i : Z) : BS Z := fun b => (b, block_at b i).

Definition block_put (i v : Z) : BS unit := fun b =>
  match block_at b i with
  | Ok _ => (set_blocks (<[Z.to_nat i := v]> (m_blocks b)) b, Ok tt)
  | _ => (b, Undefined)
  end.

Definition block_update (i : Z) (f : Z -> Z) : BS unit := v <- block_get i ;; block_put i (f v).

Definition nblocks (b : dynamic_bitset) : Z := Z.of_nat (length (m_blocks b)).

Definition extra_bits_number (b : dynamic_bitset) : Z := bit_index (m_bits_number b).
Definition unused_bits_number (b : dynamic_bitset) : Z := bits_per_block - extra_bits_number b.

Definition sanitize : BS unit :=
  n <- get m_bits_number ;;
  let shift := n mod bits_per_block in
  if 0 <? shift then
    k <- get nblocks ;; block_update (k - 1) (fun v => Z.land v (block_not (u64 (Z.shiftl one_block shift))))
  else ret tt.

Definition dynamic_bitset_new (nbits init_val : Z) : Result dynamic_bitset :=
  let b := mkBitset (repeat zero_block (Z.to_nat (blocks_required nbits))) nbits in
  if (nbits =? 0) || (init_val =? 0) then Ok b
  else match (block_put 0 init_val ;; sanitize) b with
       | (b, Ok _) => Ok b
       | (_, Throw e) => Throw e
       | (_, Undefined) => Undefined
       | (_, OutOfFuel) => OutOfFuel
       end.

(** [set(pos, len, value)]. *)
Definition set_range (pos len : Z) (value : bool) : BS unit :=
  if len =? 0 then ret tt
  else
    let first_block := block_index pos in
    let last_block := block_index (pos + len - 1) in
    let first_bit_index := bit_index pos in
    let last_bit_index := bit_index (pos + len - 1) in
    if first_block =? last_block then
      block_update first_block (fun v => set_block_bits v first_bit_index last_bit_index value)
    else
      (if negb (first_bit_index =? 0) then
         block_update first_block (fun v => set_block_bits v first_bit_index block_last_bit_index value)
       else ret tt) ;;
      (if negb (last_bit_index =? block_last_bit_index) then
         block_update last_block (fun v => set_block_bits v 0 last_bit_index value)
       else ret tt) ;;
      let first_full_block := if negb (first_bit_index =? 0) then first_block + 1 else first_block in
      let last_full_block := if negb (last_bit_index =? block_last_bit_index) then last_block - 1 else last_block in
      let full_block := if value then one_block else zero_block in
      iterM (fun i => block_put i full_block) (seqZ first_full_block (last_full_block - first_full_block + 1)).

(** [set(pos, value)]. *)
Definition set_bit (pos : Z) (value : bool) : BS unit :=
  block_update (block_index pos) (fun v =>
    if value then Z.lor v (bit_mask pos) else Z.land v (block_not (bit_mask pos))).

(** [std::fill] over all blocks. *)
Definition fill_blocks (v : Z) (b : dynamic_bitset) : dynamic_bitset := set_blocks (map (fun _ => v) (m_blocks b)) b.

Definition set_all_bits : BS unit := modify (fill_blocks one_block) ;; sanitize.
Definition reset_all_bits : BS unit := modify (fill_blocks zero_block).

Definition test (b : dynamic_bitset) (pos : Z) : Result bool :=
  mapR (fun v => negb (Z.land v (bit_mask pos) =? zero_block)) (block_at b (block_index pos)).

Definition bitset_empty (b : dynamic_bitset) : bool := m_bits_number b =? 0.

Definition all (b : dynamic_bitset) : Result bool :=
  if bitset_empty b then Ok true
  else if extra_bits_number b =? 0 then Ok (forallb (fun v => v =? one_block) (m_blocks b))
  else if negb (forallb (fun v => v =? one_block) (removelast (m_blocks b))) then Ok false
  else mapR (fun v => v =? Z.shiftr one_block (unused_bits_number b)) (block_at b (nblocks b - 1)).

Definition any (b : dynamic_bitset) : bool := existsb (fun v => negb (v =? zero_block)) (m_blocks b).
Definition none (b : dynamic_bitset) : bool := negb (any b).

(** The bits of a block below [nbits], counted with a mask that moves up. *)
Definition block_count (block nbits : Z) : Z :=
  Z.of_nat (length (List.filter (fun i => negb (Z.land block (Z.shiftl 1 i) =? zero_block)) (seqZ 0 nbits))).

Definition count (b : dynamic_bitset) : Result Z :=
  if bitset_empty b then Ok 0
  else
    let c := foldr Z.add 0 (map (fun v => block_count v bits_per_block) (removelast (m_blocks b))) in
    let? block := block_at b (nblocks b - 1) in
    Ok (c + (if negb (block =? zero_block) then
               block_count block (if extra_bits_number b =? 0 then bits_per_block else extra_bits_number b)
             else 0)).

(** [_BitScanForward64]: the index of the lowest bit that is set. *)
Definition first_on (block : Z) : Z :=
  match List.filter (fun i => Z.testbit block i) (seqZ 0 bits_per_block) with i :: _ => i | [] => 2 ^ 32 - 1 end.

(** The first block from index [i] on that is not zero. *)
Fixpoint find_block (i : Z) (blocks : list Z) : Z :=
  match blocks with
  | [] => bitset_npos
  | v :: blocks => if negb (v =? zero_block) then i * bits_per_block + first_on v else find_block (i + 1) blocks
  end.

Definition find_first (b : dynamic_bitset) : Z := find_block 0 (m_blocks b).

Definition find_next (b : dynamic_bitset) (prev : Z) : Result Z :=
  if bitset_empty b || (m_bits_number b - 1 <=? prev) then Ok bitset_npos
  else
    let first_bit := prev + 1 in
    let first_block := block_index first_bit in
    let? block := block_at b first_block in
    let first_block_shifted := Z.shiftr block (bit_index first_bit) in
    Ok (if negb (first_block_shifted =? zero_block) then first_bit + first_on first_block_shifted
        else find_block (first_block + 1) (drop (Z.to_nat (first_block + 1)) (m_blocks b))).

Definition apply_left_shift (shift : Z) : BS unit :=
  n <- get nblocks ;;
  let blocks_shift := shift / bits_per_block in
  let bits_offset := shift mod bits_per_block in
  (if bits_offset =? 0 then
     iterM (fun i => v <- block_get (i - blocks_shift) ;; block_put i v) (reverse (seqZ blocks_shift (n - blocks_shift)))
   else
     let reverse_bits_offset := bits_per_block - bits_offset in
     iterM (fun i =>
         high <- block_get (i - blocks_shift) ;; low <- block_get (i - blocks_shift - 1) ;;
         block_put i (Z.lor (u64 (Z.shiftl high bits_offset)) (Z.shiftr low reverse_bits_offset)))
       (reverse (seqZ (blocks_shift + 1) (n - blocks_shift - 1))) ;;
     v <- block_get 0 ;; block_put blocks_shift (u64 (Z.shiftl v bits_offset))) ;;
  iterM (fun i => block_put i zero_block) (seqZ 0 blocks_shift).

Definition apply_right_shift (shift : Z) : BS unit :=
  n <- get nblocks ;;
  let blocks_shift := shift / bits_per_block in
  let bits_offset := shift mod bits_per_block in
  let last_block_to_shift := n - blocks_shift - 1 in
  (if bits_offset =? 0 then
     iterM (fun i => v <- block_get (i + blocks_shift) ;; block_put i v) (seqZ 0 (last_block_to_shift + 1))
   else
     let reverse_bits_offset := bits_per_block - bits_offset in
     iterM (fun i =>
         low <- block_get (i + blocks_shift) ;; high <- block_get (i + blocks_shift + 1) ;;
         block_put i (Z.lor (Z.shiftr low bits_offset) (u64 (Z.shiftl high reverse_bits_offset))))
       (seqZ 0 last_block_to_shift) ;;
     v <- block_get (n - 1) ;; block_put last_block_to_shift (Z.shiftr v bits_offset)) ;;
  iterM (fun i => block_put i zero_block) (seqZ (last_block_to_shift + 1) (n - last_block_to_shift - 1)).

(** [operator<<=] and [operator>>=]. *)
Definition shift_left (shift : Z) : BS unit :=
  n <- get m_bits_number ;;
  if negb (shift =? 0) then
    (if n <=? shift then reset_all_bits else apply_left_shift shift ;; sanitize)
  else ret tt.

Definition shift_right (shift : Z) : BS unit :=
  n <- get m_bits_number ;;
  if negb (shift =? 0) then
    (if n <=? shift then reset_all_bits else apply_right_shift shift)
  else ret tt.

Definition bitset_eqb (a b : dynamic_bitset) : bool :=
  (m_bits_number a =? m_bits_number b) && bool_decide (m_blocks a = m_blocks b).

(** ** The sequence of bits *)

Definition blk (b : dynamic_bitset) (k : Z) : Z := nth (Z.to_nat k) (m_blocks b) 0.

Definition bit (b : dynamic_bitset) (i : Z) : bool := Z.testbit (blk b (i / 64)) (i mod 64).

Definition is_block (v : Z) : Prop := 0 <= v < 2 ^ 64.

Record bitset_ok (b : dynamic_bitset) : Prop := {
  bok_size : 0 <= m_bits_number b;
  bok_length : nblocks b = blocks_required (m_bits_number b);
  bok_blocks : forall k, is_block (blk b k);
  bok_unused : forall i, m_bits_number b <= i -> bit b i = false
}.

(** [div64 i] gives [lia] the quotient and the remainder of [i] by 64. *)
Ltac div64 i := pose proof (Z.div_mod i 64 ltac:(done)); pose proof (Z.mod_pos_bound i 64 ltac:(done)).

Lemma div_mod_64 k j : 0 <= j < 64 -> (64 * k + j) / 64 = k /\ (64 * k + j) mod 64 = j.
Proof. intros Hj. div64 (64 * k + j). lia. Qed.

Lemma blocks_required_spec n : 0 <= n -> 64 * blocks_required n - 64 < n <= 64 * blocks_required n.
Proof. intros. unfold blocks_required, bits_per_block. div64 n. destruct (Z.ltb_spec 0 (n mod 64)); lia. Qed.

Lemma index_in_range b i : bitset_ok b -> 0 <= i < m_bits_number b -> 0 <= i / 64 < nblocks b.
Proof. intros B Hi. rewrite (bok_length _ B). pose proof (blocks_required_spec (m_bits_number b)). div64 i. lia. Qed.

Lemma is_block_bits v : is_block v <-> (0 <= v /\ forall j, 64 <= j -> Z.testbit v j = false).
Proof.
  unfold is_block. split.
  - intros [Hv Hlt]. split; [done|]. intros j Hj. apply Z.bits_above_log2; [done|].
    destruct (Z.eq_dec v 0) as [->|]; [cbn; lia|]. assert (Z.log2 v < 64); [|lia]. apply Z.log2_lt_pow2; lia.
  - intros [Hv Hb]. split; [done|]. destruct (Z.eq_dec v 0) as [->|Hne]; [lia|].
    apply Z.log2_lt_pow2; [lia|]. destruct (Z.ltb_spec (Z.log2 v) 64) as [|Hge]; [done|].
    specialize (Hb (Z.log2 v) Hge). by rewrite Z.bit_log2 in Hb by lia.
Qed.

Lemma blk_lookup b k v : m_blocks b !! k = Some v <-> ((Z.of_nat k < nblocks b) /\ blk b (Z.of_nat k) = v).
Proof.
  unfold blk, nblocks. rewrite Nat2Z.id. split.
  - intros E. split; [apply lookup_lt_Some in E; lia|by apply nth_lookup_Some].
  - intros [Hk E]. destruct (lookup_lt_is_Some_2 (m_blocks b) k ltac:(lia)) as [w Ew]. rewrite (nth_lookup_Some _ _ _ _ Ew) in E. congruence.
Qed.

Lemma blk_outside b k : nblocks b <= k -> blk b k = 0.
Proof. intros Hk. unfold blk, nblocks in *. apply nth_overflow. lia. Qed.

(** Bit sets with the same bits are the same. *)
Lemma bitset_ext a b :
  bitset_ok a -> bitset_ok b -> m_bits_number a = m_bits_number b ->
  (forall i, 0 <= i < m_bits_number a -> bit a i = bit b i) -> a = b.
Proof.
  intros A B Hn Hb. pose proof (bok_length _ A) as La. pose proof (bok_length _ B) as Lb.
  assert (Hblocks : m_blocks a = m_blocks b).
  2:{ destruct a, b. cbn in *. congruence. }
  unfold nblocks in *. rewrite Hn in La.
  apply list_eq_same_length with (length (m_blocks a)); [lia..|]. intros i u v Hi Eu Ev.
  apply blk_lookup in Eu as [_ <-], Ev as [_ <-].
  apply Z.bits_inj'. intros j Hj. destruct (Z.ltb_spec j 64) as [Hj'|Hj'].
  2:{ by rewrite (proj2 (proj1 (is_block_bits _) (bok_blocks _ A _))), (proj2 (proj1 (is_block_bits _) (bok_blocks _ B _))). }
  assert (Hbit : forall c, Z.testbit (blk c (Z.of_nat i)) j = bit c (64 * Z.of_nat i + j)).
  { intros c. unfold bit. by destruct (div_mod_64 (Z.of_nat i) j ltac:(lia)) as [-> ->]. }
  rewrite !Hbit. destruct (Z.ltb_spec (64 * Z.of_nat i + j) (m_bits_number a)); [apply Hb; lia|].
  rewrite (bok_unused _ A), (bok_unused _ B); [done|lia..].
Qed.

(** ** Writing blocks *)

Definition put (k v : Z) (b : dynamic_bitset) : dynamic_bitset := set_blocks (<[Z.to_nat k := v]> (m_blocks b)) b.

Lemma nblocks_put k v b : nblocks (put k v b) = nblocks b.
Proof. unfold nblocks, put. cbn. by rewrite length_insert. Qed.

Lemma blk_put k v b j : 0 <= k < nblocks b -> 0 <= j -> blk (put k v b) j = if j =? k then v else blk b j.
Proof.
  intros Hk Hj. unfold nblocks in Hk. unfold blk, put. cbn [m_blocks set_blocks]. rewrite !nth_lookup.
  destruct (Z.eqb_spec j k) as [->|Hne].
  - rewrite list_lookup_insert_eq by lia. done.
  - rewrite list_lookup_insert_ne by lia. done.
Qed.

Lemma block_at_ok b i : 0 <= i < nblocks b -> block_at b i = Ok (blk b i).
Proof.
  intros Hi. unfold block_at. destruct (Z.ltb_spec i 0); [lia|].
  destruct (lookup_lt_is_Some_2 (m_blocks b) (Z.to_nat i)) as [v Ev]; [unfold nblocks in Hi; lia|].
  rewrite Ev. unfold blk. by rewrite (nth_lookup_Some _ _ _ _ Ev).
Qed.

Lemma block_get_ok b i : 0 <= i < nblocks b -> block_get i b = (b, Ok (blk b i)).
Proof. intros Hi. unfold block_get. by rewrite block_at_ok. Qed.

Lemma block_put_ok b i v : 0 <= i < nblocks b -> block_put i v b = (put i v b, Ok tt).
Proof. intros Hi. unfold block_put. by rewrite block_at_ok. Qed.

Lemma block_update_ok b i f : 0 <= i < nblocks b -> block_update i f b = (put i (f (blk b i)) b, Ok tt).
Proof. intros Hi. unfold block_update, bind. rewrite block_get_ok by done. by apply block_put_ok. Qed.

(** A computation that ends with the blocks given by [f]. *)
Definition writes (m : BS unit) (b : dynamic_bitset) (f : Z -> Z) : Prop :=
  exists b', m b = (b', Ok tt) /\ m_bits_number b' = m_bits_number b /\ nblocks b' = nblocks b /\
    forall k, 0 <= k < nblocks b -> blk b' k = f k.

Lemma writes_ret b : writes (ret tt) b (blk b).
Proof. by exists b. Qed.

Lemma writes_put i v b : 0 <= i < nblocks b -> writes (block_put i v) b (fun k => if k =? i then v else blk b k).
Proof.
  intros Hi. exists (put i v b). rewrite block_put_ok, nblocks_put by done. split_and!; [done..|]. intros k Hk. apply blk_put; lia.
Qed.

Lemma writes_update i f b : 0 <= i < nblocks b -> writes (block_update i f) b (fun k => if k =? i then f (blk b k) else blk b k).
Proof.
  intros Hi. exists (put i (f (blk b i)) b). rewrite block_update_ok, nblocks_put by done. split_and!; [done..|].
  intros k Hk. rewrite blk_put by lia. by destruct (Z.eqb_spec k i) as [->|].
Qed.

Lemma writes_bind m1 m2 b f g :
  writes m1 b f ->
  (forall b', m_bits_number b' = m_bits_number b -> nblocks b' = nblocks b -> (forall k, 0 <= k < nblocks b -> blk b' k = f k) ->
     writes m2 b' g) ->
  writes (m1 ;; m2) b g.
Proof.
  intros (b1 & E1 & N1 & L1 & B1) H2. destruct (H2 b1 N1 L1 B1) as (b2 & E2 & N2 & L2 & B2).
  exists b2. unfold bind. rewrite E1. split_and!; [done|congruence..|]. intros k Hk. apply B2. by rewrite L1.
Qed.

Lemma writes_ext m b f g : writes m b f -> (forall k, 0 <= k < nblocks b -> f k = g k) -> writes m b g.
Proof. intros (b' & E & N & L & B) Hfg. exists b'. split_and!; [done..|]. intros k Hk. rewrite B, Hfg by done. done. Qed.

(** [member] proves an element of a list of two parts. *)
Ltac member := rewrite ?elem_of_app, ?elem_of_cons; tauto.

(** A loop that writes the block of each index from blocks it has not written. *)
Lemma writes_loop body (g : (Z -> Z) -> Z -> Z) ks b :
  (forall i, i ∈ ks -> 0 <= i < nblocks b) ->
  (forall i b', i ∈ ks -> nblocks b' = nblocks b -> body i b' = (put i (g (blk b') i) b', Ok tt)) ->
  (forall ks1 i ks2, ks = ks1 ++ i :: ks2 -> forall f f', (forall k, 0 <= k -> k ∉ ks1 -> f k = f' k) -> g f i = g f' i) ->
  writes (iterM body ks) b (fun k => if bool_decide (k ∈ ks) then g (blk b) k else blk b k).
Proof.
  induction ks as [|i ks IH] using rev_ind; intros Hr Hbody Hg; [by exists b|].
  destruct IH as (b1 & E1 & N1 & L1 & B1).
  { intros j Hj. apply Hr. member. }
  { intros j b' Hj. apply Hbody. member. }
  { intros ks1 j ks2 ->. apply (Hg ks1 j (ks2 ++ [i])). by rewrite <- app_assoc. }
  assert (Hi : 0 <= i < nblocks b) by (apply Hr; member).
  exists (put i (g (blk b1) i) b1). rewrite iterM_app. unfold bind at 1. rewrite E1. cbn [iterM].
  unfold bind. rewrite Hbody, nblocks_put by (done || member). split_and!; [done..|].
  intros k Hk. rewrite blk_put by lia. destruct (Z.eqb_spec k i) as [->|Hne].
  - rewrite (bool_decide_eq_true_2 (i ∈ ks ++ [i])) by member.
    apply (Hg ks i [] eq_refl). intros j Hj Hnot. destruct (Z.ltb_spec j (nblocks b)).
    + rewrite B1 by lia. by rewrite bool_decide_eq_false_2.
    + rewrite !blk_outside by lia. done.
  - rewrite B1 by done. assert (Hiff : k ∈ ks ++ [i] <-> k ∈ ks) by (rewrite elem_of_app, list_elem_of_singleton; tauto).
    by rewrite (bool_decide_ext _ _ Hiff).
Qed.

Lemma seqZ_split lo n ks1 i ks2 k :
  seqZ lo n = ks1 ++ i :: ks2 -> (k ∈ ks1 -> k < i) /\ (k ∈ ks2 -> i < k).
Proof.
  intros E. assert (E1 : seqZ lo n !! length ks1 = Some i) by (by rewrite E, list_lookup_middle).
  apply lookup_seqZ in E1. split; intros Hk; apply list_elem_of_lookup in Hk as [j Hj].
  - assert (E2 : seqZ lo n !! j = Some k) by (rewrite E; by apply lookup_app_l_Some).
    apply lookup_lt_Some in Hj. apply lookup_seqZ in E2. lia.
  - assert (E2 : seqZ lo n !! (length ks1 + S j)%nat = Some k).
    { rewrite E, lookup_app_r by lia. by replace (length ks1 + S j - length ks1)%nat with (S j) by lia. }
    apply lookup_seqZ in E2. lia.
Qed.

Section Loops.
Context (body : Z -> BS unit) (g : (Z -> Z) -> Z -> Z) (lo n : Z) (b : dynamic_bitset).
Hypothesis lo_ok : 0 <= lo.
Hypothesis hi_ok : lo + n <= nblocks b.
Hypothesis body_ok : forall i b', lo <= i < lo + n -> nblocks b' = nblocks b -> body i b' = (put i (g (blk b') i) b', Ok tt).

Definition written (k : Z) : Z := if (lo <=? k) && (k <? lo + n) then g (blk b) k else blk b k.

Lemma written_elem (ks : list Z) k : (forall k, k ∈ ks <-> lo <= k < lo + n) ->
  (if bool_decide (k ∈ ks) then g (blk b) k else blk b k) = written k.
Proof.
  intros Hks. unfold written. rewrite (bool_decide_ext _ _ (Hks k)).
  destruct (Z.leb_spec lo k), (Z.ltb_spec k (lo + n)); cbn [andb];
    first [by rewrite bool_decide_eq_true_2 by lia | by rewrite bool_decide_eq_false_2 by lia].
Qed.

Lemma writes_up :
  (forall i f f', lo <= i < lo + n -> (forall k, i <= k -> f k = f' k) -> g f i = g f' i) ->
  writes (iterM body (seqZ lo n)) b written.
Proof.
  intros Hg. assert (Hin : forall k, k ∈ seqZ lo n <-> lo <= k < lo + n) by (intros; apply elem_of_seqZ).
  eapply writes_ext; [apply (writes_loop body g)|].
  - intros i Hi%Hin. lia.
  - intros i b' Hi%Hin. by apply body_ok.
  - intros ks1 i ks2 E f f' Hf. assert (Hi : i ∈ seqZ lo n) by (rewrite E; member).
    apply Hin in Hi. apply Hg; [done|]. intros k Hk. apply Hf; [lia|]. intros Hk1.
    apply (seqZ_split _ _ _ _ _ k E) in Hk1. lia.
  - intros k Hk. by apply written_elem.
Qed.

Lemma writes_down :
  (forall i f f', lo <= i < lo + n -> (forall k, 0 <= k <= i -> f k = f' k) -> g f i = g f' i) ->
  writes (iterM body (reverse (seqZ lo n))) b written.
Proof.
  intros Hg. assert (Hin : forall k, k ∈ reverse (seqZ lo n) <-> lo <= k < lo + n).
  { intros k. rewrite elem_of_reverse. apply elem_of_seqZ. }
  eapply writes_ext; [apply (writes_loop body g)|].
  - intros i Hi%Hin. lia.
  - intros i b' Hi%Hin. by apply body_ok.
  - intros ks1 i ks2 E f f' Hf. assert (Hi : i ∈ reverse (seqZ lo n)) by (rewrite E; member).
    apply Hin in Hi. apply Hg; [done|]. intros k Hk. apply Hf; [lia|]. intros Hk1.
    apply (f_equal reverse) in E. rewrite reverse_involutive, reverse_app, reverse_cons, <- app_assoc in E. cbn in E.
    apply elem_of_reverse, (seqZ_split _ _ _ _ _ k E) in Hk1. lia.
  - intros k Hk. by apply written_elem.
Qed.

End Loops.

(** ** Bits of blocks *)

Lemma testbit_wrap64 z j : 0 <= j < 64 -> Z.testbit (u64 z) j = Z.testbit z j.
Proof. intros. unfold wrapu. apply Z.mod_pow2_bits_low. lia. Qed.

Lemma is_block_wrap z : is_block (u64 z).
Proof. apply wrapu_range. lia. Qed.

Lemma testbit_one_block j : 0 <= j -> Z.testbit one_block j = (j <? 64).
Proof. intros. change one_block with (Z.ones 64). rewrite Z.testbit_ones_nonneg by lia. done. Qed.

Lemma testbit_not v j : 0 <= j -> Z.testbit (block_not v) j = xorb (j <? 64) (Z.testbit v j).
Proof. intros. unfold block_not. by rewrite Z.lxor_spec, testbit_one_block. Qed.

(** A mask of the low bits is a power of two less one. *)
Lemma low_mask k : 0 <= k <= 64 -> u64 (u64 (Z.shiftl 1 k) - 1) = Z.ones k.
Proof.
  intros Hk. rewrite Z.ones_equiv, Z.shiftl_1_l. unfold wrapu. rewrite Zminus_mod_idemp_l, <- Z.sub_1_r.
  apply Z.mod_small. pose proof (Z.pow_pos_nonneg 2 k). pose proof (Z.pow_le_mono_r 2 k 64). lia.
Qed.

Lemma testbit_mask_range first last j : 0 <= first <= last -> last < 64 -> 0 <= j < 64 ->
  Z.testbit (bit_mask_range first last) j = (first <=? j) && (j <=? last).
Proof.
  intros Hf Hl Hj. unfold bit_mask_range, bit_index, bits_per_block. rewrite !Z.mod_small by lia.
  destruct (Z.eqb_spec last block_last_bit_index) as [->|Hne].
  - rewrite testbit_wrap64, Z.shiftl_spec by lia. unfold block_last_bit_index, bits_per_block in *.
    destruct (Z.leb_spec first j) as [Hle|]; [|by rewrite Z.testbit_neg_r by lia].
    rewrite testbit_one_block by lia. destruct (Z.ltb_spec (j - first) 64), (Z.leb_spec j (64 - 1)); try lia; done.
  - rewrite !low_mask by (unfold block_last_bit_index, bits_per_block in *; lia).
    rewrite Z.lxor_spec, !Z.testbit_ones_nonneg by lia.
    destruct (Z.ltb_spec j (last + 1)), (Z.ltb_spec j first), (Z.leb_spec first j), (Z.leb_spec j last); try lia; done.
Qed.

Lemma testbit_set_block v first last value j : 0 <= first <= last -> last < 64 -> 0 <= j < 64 ->
  Z.testbit (set_block_bits v first last value) j =
  if (first <=? j) && (j <=? last) then value else Z.testbit v j.
Proof.
  intros Hf Hl Hj. unfold set_block_bits. destruct value.
  - rewrite Z.lor_spec, testbit_mask_range by lia. destruct ((first <=? j) && (j <=? last)); [by rewrite orb_true_r|by rewrite orb_false_r].
  - rewrite Z.land_spec, testbit_not, testbit_mask_range by lia. destruct (Z.ltb_spec j 64); [|lia].
    destruct ((first <=? j) && (j <=? last)); [by rewrite andb_false_r|by rewrite andb_true_r].
Qed.

Lemma is_block_lor a b : is_block a -> is_block b -> is_block (Z.lor a b).
Proof. unfold is_block. intros. split; [apply Z.lor_nonneg; lia|]. apply lor_lt_pow2; lia. Qed.

Lemma is_block_land a b : is_block a -> 0 <= b -> is_block (Z.land a b).
Proof.
  intros [Ha Hb]%is_block_bits H0. apply is_block_bits. split; [apply Z.land_nonneg; lia|].
  intros j Hj. by rewrite Z.land_spec, Hb.
Qed.

Lemma is_block_not v : is_block v -> is_block (block_not v).
Proof.
  intros [Ha Hb]%is_block_bits. apply is_block_bits. split; [apply Z.lxor_nonneg; unfold one_block; lia|].
  intros j Hj. rewrite testbit_not, Hb by lia. by destruct (Z.ltb_spec j 64); [lia|].
Qed.

Lemma is_block_shiftr v k : is_block v -> 0 <= k -> is_block (Z.shiftr v k).
Proof.
  intros [Ha Hb]%is_block_bits Hk. apply is_block_bits. split; [by apply Z.shiftr_nonneg|].
  intros j Hj. rewrite Z.shiftr_spec, Hb by lia. done.
Qed.

Lemma is_block_mask_range first last : 0 <= first < 64 -> 0 <= last < 64 -> is_block (bit_mask_range first last).
Proof.
  intros. unfold bit_mask_range, bit_index, bits_per_block. rewrite !Z.mod_small by lia. case_if; [apply is_block_wrap|].
  apply is_block_bits. split; [apply Z.lxor_nonneg; pose proof (is_block_wrap (u64 (Z.shiftl 1 (last + 1)) - 1)); pose proof (is_block_wrap (u64 (Z.shiftl 1 first) - 1)); unfold is_block in *; lia|].
  intros j Hj. rewrite Z.lxor_spec. by rewrite !(proj2 (proj1 (is_block_bits _) (is_block_wrap _))).
Qed.

Lemma is_block_set_bits v first last value : is_block v -> 0 <= first < 64 -> 0 <= last < 64 -> is_block (set_block_bits v first last value).
Proof.
  intros Hv Hf Hl. pose proof (is_block_mask_range first last Hf Hl). unfold set_block_bits. destruct value; [by apply is_block_lor|].
  apply is_block_land; [done|]. by apply is_block_not.
Qed.

(** ** The operations on the bits *)

Definition changes (m : BS unit) (b : dynamic_bitset) (f : Z -> bool) : Prop :=
  exists b', m b = (b', Ok tt) /\ bitset_ok b' /\ m_bits_number b' = m_bits_number b /\
    forall i, 0 <= i < m_bits_number b -> bit b' i = f i.

(** From blocks to bits. *)
Lemma changes_of_writes m b f (g : Z -> bool) :
  bitset_ok b -> writes m b f -> (forall k, 0 <= k < nblocks b -> is_block (f k)) ->
  (forall i, 0 <= i < 64 * nblocks b -> Z.testbit (f (i / 64)) (i mod 64) = if i <? m_bits_number b then g i else false) ->
  changes m b g.
Proof.
  intros B (b' & E & N & Lb & Hf) Hblock Hbits. exists b'.
  assert (Hbit : forall i, 0 <= i < 64 * nblocks b -> bit b' i = if i <? m_bits_number b then g i else false).
  { intros i Hi. unfold bit. rewrite Hf by (div64 i; lia). by apply Hbits. }
  split_and!; [done| |done|].
  - split.
    + rewrite N. apply B.
    + rewrite Lb, N. apply B.
    + intros k. destruct (Z.ltb_spec k 0) as [Hneg|Hpos].
      { assert (Ek : blk b' k = blk b' 0) by (unfold blk; by replace (Z.to_nat k) with 0%nat by lia).
        rewrite Ek. destruct (Z.ltb_spec 0 (nblocks b)) as [H0|H0]; [rewrite Hf by lia; by apply Hblock; lia|].
        rewrite blk_outside by lia. done. }
      destruct (Z.ltb_spec k (nblocks b)); [rewrite Hf by lia; by apply Hblock|]. rewrite blk_outside by lia. done.
    + intros i Hi. pose proof (bok_size _ B). destruct (Z.ltb_spec i (64 * nblocks b)).
      * rewrite Hbit by lia. destruct (Z.ltb_spec i (m_bits_number b)); [lia|done].
      * unfold bit. rewrite blk_outside by (div64 i; lia). apply Z.testbit_0_l.
  - intros i Hi. pose proof (blocks_required_spec (m_bits_number b) (bok_size _ B)). rewrite Hbit by (rewrite (bok_length _ B); lia).
    destruct (Z.ltb_spec i (m_bits_number b)); [done|lia].
Qed.

Lemma bit_ok b i : bitset_ok b -> bit b i = if i <? m_bits_number b then bit b i else false.
Proof. intros B. destruct (Z.ltb_spec i (m_bits_number b)); [done|]. by apply B. Qed.

Definition sanitized (b : dynamic_bitset) (k : Z) : Z :=
  if (0 <? m_bits_number b mod 64) && (k =? nblocks b - 1)
  then Z.land (blk b k) (block_not (u64 (Z.shiftl one_block (m_bits_number b mod 64)))) else blk b k.

Lemma sanitize_writes b : 0 <= m_bits_number b -> nblocks b = blocks_required (m_bits_number b) -> writes sanitize b (sanitized b).
Proof.
  intros Hn Hl. unfold sanitize, sanitized. change (m_bits_number b mod bits_per_block) with (m_bits_number b mod 64).
  pose proof (blocks_required_spec _ Hn). div64 (m_bits_number b).
  destruct (Z.ltb_spec 0 (m_bits_number b mod 64)) as [Hs|Hs]; cbn [andb].
  - destruct (writes_update (nblocks b - 1) (fun v => Z.land v (block_not (u64 (Z.shiftl one_block (m_bits_number b mod 64))))) b)
      as (b' & E & R); [lia|]. exists b'. split; [|exact R]. unfold bind, get. change bits_per_block with 64.
    destruct (Z.ltb_spec 0 (m_bits_number b mod 64)); [exact E|lia].
  - exists b. unfold bind, get. change bits_per_block with 64. by destruct (Z.ltb_spec 0 (m_bits_number b mod 64)); [lia|].
Qed.

Lemma sanitized_bits b i : 0 <= m_bits_number b -> nblocks b = blocks_required (m_bits_number b) -> 0 <= i < 64 * nblocks b ->
  Z.testbit (sanitized b (i / 64)) (i mod 64) = if i <? m_bits_number b then bit b i else false.
Proof.
  intros Hn Hl Hi. unfold sanitized, bit. pose proof (blocks_required_spec _ Hn). div64 (m_bits_number b). div64 i.
  destruct (Z.ltb_spec 0 (m_bits_number b mod 64)); cbn [andb]; [|destruct (Z.ltb_spec i (m_bits_number b)); [done|lia]].
  destruct (Z.eqb_spec (i / 64) (nblocks b - 1)) as [E|E]; [|destruct (Z.ltb_spec i (m_bits_number b)); [done|lia]].
  rewrite Z.land_spec, testbit_not, testbit_wrap64, Z.shiftl_spec by lia.
  destruct (Z.ltb_spec (i mod 64) 64) as [_|]; [|lia].
  destruct (Z.ltb_spec i (m_bits_number b)).
  - rewrite (Z.testbit_neg_r _ (i mod 64 - _)) by lia. by rewrite andb_true_r.
  - rewrite testbit_one_block by lia. destruct (Z.ltb_spec (i mod 64 - m_bits_number b mod 64) 64); [by rewrite andb_false_r|lia].
Qed.

Lemma sanitized_block b k : is_block (blk b k) -> is_block (sanitized b k).
Proof. intros Hb. unfold sanitized. case_if; [|done]. apply is_block_land; [done|]. apply is_block_not, is_block_wrap. Qed.

(** A computation that ends with [sanitize]. *)
Lemma changes_sanitized m b f (g : Z -> bool) :
  bitset_ok b -> writes m b f -> (forall k, 0 <= k < nblocks b -> is_block (f k)) ->
  (forall i, 0 <= i < m_bits_number b -> Z.testbit (f (i / 64)) (i mod 64) = g i) ->
  changes (m ;; sanitize) b g.
Proof.
  intros B (b1 & E1 & N1 & L1 & B1) Hblock Hbits. pose proof (bok_size _ B). pose proof (bok_length _ B).
  assert (Hs : writes sanitize b1 (sanitized b1)) by (apply sanitize_writes; rewrite ?N1, ?L1; done).
  apply changes_of_writes with (sanitized b1); [done| | |].
  - destruct Hs as (b2 & E2 & N2 & L2 & B2). exists b2. unfold bind. rewrite E1. split_and!; [done|congruence..|]. intros k Hk. apply B2. lia.
  - intros k Hk. apply sanitized_block. rewrite B1 by done. by apply Hblock.
  - intros i Hi. rewrite sanitized_bits by (rewrite ?N1, ?L1; done). rewrite N1.
    destruct (Z.ltb_spec i (m_bits_number b)); [|done]. unfold bit. rewrite B1 by (div64 i; lia). apply Hbits. lia.
Qed.

Lemma blk_fill b v k : 0 <= k < nblocks b -> blk (fill_blocks v b) k = v.
Proof.
  intros Hk. unfold blk, fill_blocks, nblocks in *. cbn. rewrite nth_lookup, list_lookup_fmap.
  destruct (lookup_lt_is_Some_2 (m_blocks b) (Z.to_nat k)) as [w ->]; [lia|done].
Qed.

Lemma fill_writes b v : writes (modify (fill_blocks v)) b (fun _ => v).
Proof.
  exists (fill_blocks v b). split_and!; [done..| |].
  - unfold nblocks, fill_blocks. cbn. by rewrite length_map.
  - intros k Hk. by apply blk_fill.
Qed.

Lemma set_all_changes b : bitset_ok b -> changes set_all_bits b (fun _ => true).
Proof.
  intros B. apply changes_sanitized with (fun _ => one_block); [done|apply fill_writes|by unfold is_block, one_block|].
  intros i Hi. rewrite testbit_one_block by (div64 i; lia). apply Z.ltb_lt. div64 i. lia.
Qed.

Lemma reset_all_changes b : bitset_ok b -> changes reset_all_bits b (fun _ => false).
Proof.
  intros B. apply changes_of_writes with (fun _ => 0); [done|apply fill_writes|done|].
  intros i Hi. rewrite Z.testbit_0_l. by case_if.
Qed.

Lemma set_bit_changes b pos value : bitset_ok b -> 0 <= pos < m_bits_number b ->
  changes (set_bit pos value) b (fun i => if i =? pos then value else bit b i).
Proof.
  intros B Hpos. pose proof (index_in_range b pos B Hpos) as Hk. div64 pos.
  eapply changes_of_writes; [done|by apply writes_update| |].
  - intros k Hk'. cbn beta. destruct (k =? block_index pos); [|apply B].
    destruct value; [apply is_block_lor|apply is_block_land]; try apply B; try apply is_block_wrap.
    apply is_block_not, is_block_wrap.
  - intros i Hi. div64 i. change (block_index pos) with (pos / 64). cbn beta.
    destruct (Z.eqb_spec i pos) as [->|Hne].
    + rewrite Z.eqb_refl. destruct (Z.ltb_spec pos (m_bits_number b)); [|lia].
      unfold bit_mask, bit_index, bits_per_block.
      destruct value; rewrite ?Z.lor_spec, ?Z.land_spec, ?testbit_not, testbit_wrap64, Z.shiftl_spec, Z.sub_diag by lia; cbn.
      * by rewrite orb_true_r.
      * destruct (Z.ltb_spec (pos mod 64) 64); [by rewrite andb_false_r|lia].
    + transitivity (bit b i); [|by apply bit_ok]. unfold bit. destruct (Z.eqb_spec (i / 64) (pos / 64)) as [E|]; [|done].
      unfold bit_mask, bit_index, bits_per_block.
      assert (Hm : Z.testbit (Z.shiftl 1 (pos mod 64)) (i mod 64) = false).
      { rewrite Z.shiftl_spec by lia. destruct (Z.ltb_spec (i mod 64) (pos mod 64)); [by rewrite Z.testbit_neg_r by lia|].
        rewrite Z.bits_above_log2; [done|lia|cbn; lia]. }
      destruct value; rewrite ?Z.lor_spec, ?Z.land_spec, ?testbit_not, testbit_wrap64 by lia; rewrite Hm.
      * by rewrite orb_false_r.
      * destruct (Z.ltb_spec (i mod 64) 64); [by rewrite andb_true_r|lia].
Qed.

(** The blocks after [set(pos, len, value)]. *)
Definition range_set (b : dynamic_bitset) (pos len : Z) (value : bool) (k : Z) : Z :=
  let fb := pos / 64 in let lb := (pos + len - 1) / 64 in
  if (fb <=? k) && (k <=? lb) then
    set_block_bits (blk b k) (if k =? fb then pos mod 64 else 0) (if k =? lb then (pos + len - 1) mod 64 else 63) value
  else blk b k.

Lemma set_full v value : is_block v -> set_block_bits v 0 63 value = if value then one_block else zero_block.
Proof.
  intros Hv. apply Z.bits_inj'. intros j Hj.
  assert (Hz : is_block (set_block_bits v 0 63 value)) by (apply is_block_set_bits; [done|lia..]).
  destruct (Z.ltb_spec j 64).
  - rewrite testbit_set_block by lia. destruct (Z.leb_spec 0 j), (Z.leb_spec j 63); try lia. cbn [andb].
    destruct value; [rewrite testbit_one_block by lia; symmetry; by apply Z.ltb_lt|by rewrite Z.testbit_0_l].
  - rewrite (proj2 (proj1 (is_block_bits _) Hz)) by lia.
    destruct value; [rewrite testbit_one_block by lia; symmetry; by apply Z.ltb_ge|by rewrite Z.testbit_0_l].
Qed.

(** The block at one end of a range is written only if it is not written as a whole. *)
Lemma edge_writes b (edge : bool) k f :
  0 <= k < nblocks b ->
  writes (if negb edge then block_update k f else ret tt) b (fun i => if (i =? k) && negb edge then f (blk b i) else blk b i).
Proof.
  intros Hk. destruct edge; cbn [negb].
  - eapply writes_ext; [apply writes_ret|]. intros i _. by rewrite andb_false_r.
  - eapply writes_ext; [by apply writes_update|]. intros i _. by rewrite andb_true_r.
Qed.

Lemma set_range_writes b pos len value : bitset_ok b -> 0 <= pos -> 0 < len -> pos + len <= m_bits_number b ->
  writes (set_range pos len value) b (range_set b pos len value).
Proof.
  intros B Hpos Hlen Hend. pose proof (index_in_range b pos B ltac:(lia)) as Hfb. pose proof (index_in_range b (pos + len - 1) B ltac:(lia)) as Hlb.
  div64 pos. div64 (pos + len - 1). unfold set_range. destruct (Z.eqb_spec len 0); [lia|]. cbv zeta.
  unfold block_index, bit_index, block_last_bit_index, bits_per_block. change (64 - 1) with 63. unfold range_set. cbv zeta.
  set (fb := pos / 64) in *. set (lb := (pos + len - 1) / 64) in *. set (fi := pos mod 64) in *. set (li := (pos + len - 1) mod 64) in *.
  destruct (Z.eqb_spec fb lb) as [E|Hne].
  - eapply writes_ext; [by apply writes_update|]. intros k Hk. cbn beta. rewrite <- E.
    destruct (Z.eqb_spec k fb) as [->|]; [by rewrite Z.leb_refl|]. destruct (Z.leb_spec fb k), (Z.leb_spec k fb); try lia; done.
  - eapply writes_bind; [by apply edge_writes|]. intros b1 N1 L1 B1.
    eapply writes_bind; [apply edge_writes; by rewrite L1|]. intros b2 N2 L2 B2. rewrite L1 in L2, B2.
    eapply writes_ext; [apply (writes_up _ (fun _ _ => if value then one_block else zero_block))|].
    + case_if; lia.
    + rewrite L2. destruct (Z.eqb_spec fi 0), (Z.eqb_spec li 63); cbn [negb]; lia.
    + intros i b' Hi Hb'. apply block_put_ok. rewrite Hb', L2. destruct (Z.eqb_spec fi 0), (Z.eqb_spec li 63); cbn [negb] in Hi; lia.
    + done.
    + rewrite L2. intros k Hk. unfold written. rewrite B2, B1 by done.
      destruct (Z.eqb_spec fi 0) as [E0|E0], (Z.eqb_spec li 63) as [E1|E1]; cbn [negb];
        destruct (Z.leb_spec fb k), (Z.leb_spec k lb), (Z.eqb_spec k fb), (Z.eqb_spec k lb); try lia; cbn [andb]; rewrite ?E0, ?E1;
        try (rewrite set_full by apply B);
        repeat match goal with |- context [?a <=? ?c] => destruct (Z.leb_spec a c); try lia
                             | |- context [?a <? ?c] => destruct (Z.ltb_spec a c); try lia end; cbn [andb]; done.
Qed.

Lemma set_range_changes b pos len value : bitset_ok b -> 0 <= pos -> 0 <= len -> pos + len <= m_bits_number b ->
  changes (set_range pos len value) b (fun i => if (pos <=? i) && (i <? pos + len) then value else bit b i).
Proof.
  intros B Hpos Hlen Hend. destruct (Z.eq_dec len 0) as [->|Hne].
  { exists b. unfold set_range. cbn. split_and!; [done..|]. intros i Hi.
    destruct (Z.leb_spec pos i), (Z.ltb_spec i (pos + 0)); try lia; done. }
  div64 pos. div64 (pos + len - 1).
  eapply changes_of_writes; [done|by apply set_range_writes; try lia| |].
  - intros k Hk. unfold range_set. case_if; [|apply B]. apply is_block_set_bits; [apply B|case_if; lia..].
  - intros i Hi. div64 i. unfold range_set. cbv zeta.
    destruct (Z.leb_spec (pos / 64) (i / 64)), (Z.leb_spec (i / 64) ((pos + len - 1) / 64)); cbn [andb].
    2-4: change (Z.testbit (blk b (i / 64)) (i mod 64)) with (bit b i); rewrite (bit_ok b i B);
      destruct (Z.leb_spec pos i), (Z.ltb_spec i (pos + len)), (Z.ltb_spec i (m_bits_number b)); try lia; done.
    rewrite testbit_set_block; [| | |lia].
    + change (Z.testbit (blk b (i / 64)) (i mod 64)) with (bit b i). rewrite (bit_ok b i B).
      destruct (Z.eqb_spec (i / 64) (pos / 64)), (Z.eqb_spec (i / 64) ((pos + len - 1) / 64));
        repeat match goal with |- context [?a <=? ?c] => destruct (Z.leb_spec a c); try lia
                             | |- context [?a <? ?c] => destruct (Z.ltb_spec a c); try lia end; cbn [andb]; try done; lia.
    + destruct (Z.eqb_spec (i / 64) (pos / 64)), (Z.eqb_spec (i / 64) ((pos + len - 1) / 64)); lia.
    + case_if; lia.
Qed.

(** ** Shifts *)

Definition shifted_left (b : dynamic_bitset) (shift k : Z) : Z :=
  let s := shift / 64 in let o := shift mod 64 in
  if k <? s then 0
  else if o =? 0 then blk b (k - s)
  else if k =? s then u64 (Z.shiftl (blk b 0) o)
  else Z.lor (u64 (Z.shiftl (blk b (k - s)) o)) (Z.shiftr (blk b (k - s - 1)) (64 - o)).

Lemma zeros_writes b lo n : 0 <= lo -> lo + n <= nblocks b ->
  writes (iterM (fun i => block_put i zero_block) (seqZ lo n)) b (fun k => if (lo <=? k) && (k <? lo + n) then 0 else blk b k).
Proof.
  intros Hlo Hn. eapply writes_ext; [apply (writes_up _ (fun _ _ => 0)); [done|done|..|done]|done].
  intros i b' Hi Hb'. apply block_put_ok. lia.
Qed.

Lemma writes_get {A} (f : dynamic_bitset -> A) (m : A -> BS unit) b g : writes (m (f b)) b g -> writes (x <- get f ;; m x) b g.
Proof. done. Qed.

Lemma left_shift_writes b shift : 0 < shift < 64 * nblocks b -> writes (apply_left_shift shift) b (shifted_left b shift).
Proof.
  intros Hs. div64 shift. unfold apply_left_shift. apply writes_get. cbv zeta. change bits_per_block with 64. unfold shifted_left.
  set (s := shift / 64) in *. set (o := shift mod 64) in *. destruct (Z.eqb_spec o 0) as [E0|E0].
  - eapply writes_bind.
    { apply (writes_down _ (fun f i => f (i - s)) s (nblocks b - s)); [lia..| |].
      - intros i b' Hi Hb'. unfold bind. rewrite block_get_ok, block_put_ok by lia. done.
      - intros i f f' Hi Hf. apply Hf. lia. }
    intros b1 N1 L1 B1. eapply writes_ext; [apply zeros_writes; lia|]. rewrite L1. intros k Hk. cbv beta. rewrite B1 by done. unfold written.
    repeat match goal with |- context [?a <=? ?c] => destruct (Z.leb_spec a c); try lia
                         | |- context [?a <? ?c] => destruct (Z.ltb_spec a c); try lia end; cbn [andb]; done.
  - eapply writes_bind.
    { eapply writes_bind.
      { apply (writes_down _ (fun f i => Z.lor (u64 (Z.shiftl (f (i - s)) o)) (Z.shiftr (f (i - s - 1)) (64 - o))) (s + 1) (nblocks b - s - 1)); [lia..| |].
        - intros i b' Hi Hb'. unfold bind. rewrite !block_get_ok, block_put_ok by lia. done.
        - intros i f f' Hi Hf. cbv beta. by rewrite !Hf by lia. }
      intros b1 N1 L1 B1. instantiate (1 := fun k => if k =? s then u64 (Z.shiftl (blk b 0) o) else _ k).
      destruct (writes_put s (u64 (Z.shiftl (blk b1 0) o)) b1) as (b2 & E2 & N2 & L2 & B2); [lia|].
      exists b2. unfold bind. rewrite block_get_ok by lia. split_and!; [done..|]. intros k Hk. rewrite B2 by done.
      rewrite (B1 0) by lia. unfold written. destruct (Z.leb_spec (s + 1) 0); [lia|]. cbn [andb].
      destruct (k =? s); [done|]. rewrite B1 by lia. reflexivity. }
    intros b1 N1 L1 B1. eapply writes_ext; [apply zeros_writes; lia|]. rewrite L1. intros k Hk. cbv beta. rewrite B1 by done. unfold written.
    destruct (Z.eqb_spec k s);
    repeat match goal with |- context [?a <=? ?c] => destruct (Z.leb_spec a c); try lia
                         | |- context [?a <? ?c] => destruct (Z.ltb_spec a c); try lia end; cbn [andb]; done.
Qed.

Lemma shifted_left_bits b shift i : (forall k, is_block (blk b k)) -> 0 < shift -> 0 <= i ->
  Z.testbit (shifted_left b shift (i / 64)) (i mod 64) = if i <? shift then false else bit b (i - shift).
Proof.
  intros Hb Hs Hi. unfold shifted_left, bit. cbv zeta. div64 i. div64 shift. div64 (i - shift).
  destruct (Z.ltb_spec (i / 64) (shift / 64)).
  { rewrite Z.testbit_0_l. destruct (Z.ltb_spec i shift); [done|lia]. }
  destruct (Z.eqb_spec (shift mod 64) 0) as [E0|E0].
  { destruct (Z.ltb_spec i shift); [lia|]. f_equal; [f_equal|]; lia. }
  destruct (Z.eqb_spec (i / 64) (shift / 64)) as [E|E].
  - rewrite testbit_wrap64, Z.shiftl_spec by lia. destruct (Z.ltb_spec i shift); [by rewrite Z.testbit_neg_r by lia|]. f_equal; [f_equal|]; lia.
  - destruct (Z.ltb_spec i shift); [lia|]. rewrite Z.lor_spec, testbit_wrap64, Z.shiftl_spec, Z.shiftr_spec by lia.
    destruct (Z.ltb_spec (i mod 64) (shift mod 64)).
    + rewrite Z.testbit_neg_r by lia. cbn [orb]. f_equal; [f_equal|]; lia.
    + rewrite (proj2 (proj1 (is_block_bits _) (Hb (i / 64 - shift / 64 - 1)))), orb_false_r by lia. f_equal; [f_equal|]; lia.
Qed.

Lemma shifted_left_block b shift k : (forall k, is_block (blk b k)) -> 0 < shift -> is_block (shifted_left b shift k).
Proof.
  intros Hb Hs. div64 shift. unfold shifted_left. cbv zeta. repeat (case_if; [first [done|apply Hb|apply is_block_wrap]|]).
  apply is_block_lor; [apply is_block_wrap|apply is_block_shiftr; [apply Hb|lia]].
Qed.

Lemma shift_left_changes b shift : bitset_ok b -> 0 <= shift ->
  changes (shift_left shift) b (fun i => if i <? shift then false else bit b (i - shift)).
Proof.
  intros B Hs. assert (Hgoal : changes (if negb (shift =? 0) then (if m_bits_number b <=? shift then reset_all_bits else apply_left_shift shift ;; sanitize) else ret tt) b
    (fun i => if i <? shift then false else bit b (i - shift))).
  2:{ exact Hgoal. }
  destruct (Z.eqb_spec shift 0) as [->|Hne]; cbn [negb].
  { exists b. split_and!; [done..|]. intros i Hi. destruct (Z.ltb_spec i 0); [lia|]. by rewrite Z.sub_0_r. }
  pose proof (bok_size _ B). pose proof (bok_length _ B). pose proof (blocks_required_spec (m_bits_number b)).
  destruct (Z.leb_spec (m_bits_number b) shift).
  - destruct (reset_all_changes b B) as (b' & E & B' & N & F). exists b'. split_and!; [done..|]. intros i Hi. rewrite F by done.
    destruct (Z.ltb_spec i shift); [done|lia].
  - apply changes_sanitized with (shifted_left b shift); [done|apply left_shift_writes; lia| |].
    + intros k Hk. apply shifted_left_block; [apply B|lia].
    + intros i Hi. apply shifted_left_bits; [apply B|lia..].
Qed.

(** The blocks past the last are zero, so one formula covers the cases of the code. *)
Definition shifted_right (b : dynamic_bitset) (shift k : Z) : Z :=
  let s := shift / 64 in let o := shift mod 64 in
  Z.lor (Z.shiftr (blk b (k + s)) o) (u64 (Z.shiftl (blk b (k + s + 1)) (64 - o))).

Lemma wrap_shift_64 v : u64 (Z.shiftl v 64) = 0.
Proof. unfold wrapu. rewrite Z.shiftl_mul_pow2 by lia. by apply Z.mod_mul. Qed.

Lemma right_shift_writes b shift : 0 < shift < 64 * nblocks b -> writes (apply_right_shift shift) b (shifted_right b shift).
Proof.
  intros Hs. div64 shift. unfold apply_right_shift. apply writes_get. cbv zeta. change bits_per_block with 64. unfold shifted_right.
  set (s := shift / 64) in *. set (o := shift mod 64) in *. set (N := nblocks b) in *.
  set (g := fun k => Z.lor (Z.shiftr (blk b (k + s)) o) (u64 (Z.shiftl (blk b (k + s + 1)) (64 - o)))).
  assert (Hlast : Z.shiftr (blk b (N - 1)) o = g (N - s - 1)).
  { unfold g. rewrite (blk_outside b (N - s - 1 + s + 1)) by (unfold N; lia). rewrite Z.shiftl_0_l, Z.lor_0_r. do 2 f_equal. lia. }
  assert (Hout : forall k, N - s <= k -> g k = 0).
  { intros k Hk. unfold g. rewrite !blk_outside by (unfold N in Hk; lia). by rewrite Z.shiftr_0_l, Z.shiftl_0_l. }
  apply writes_bind with (fun k => if k <? N - s then g k else blk b k).
  - destruct (Z.eqb_spec o 0) as [E0|E0].
    + eapply writes_ext; [apply (writes_up _ (fun f i => f (i + s)) 0 (N - s - 1 + 1)); [lia|unfold N; lia|..]|].
      * intros i b' Hi Hb'. unfold bind. rewrite block_get_ok, block_put_ok by (unfold N in *; lia). done.
      * intros i f f' Hi Hf. apply Hf. lia.
      * intros k Hk. unfold written. replace (0 + (N - s - 1 + 1)) with (N - s) by lia. destruct (Z.leb_spec 0 k); [|lia]. cbn [andb].
        destruct (Z.ltb_spec k (N - s)); [|done]. unfold g. rewrite E0. change (64 - 0) with 64. by rewrite wrap_shift_64, Z.shiftr_0_r, Z.lor_0_r.
    + apply writes_bind with (fun k => if k <? N - s - 1 then g k else blk b k).
      * eapply writes_ext; [apply (writes_up _ (fun f i => Z.lor (Z.shiftr (f (i + s)) o) (u64 (Z.shiftl (f (i + s + 1)) (64 - o)))) 0 (N - s - 1)); [lia|unfold N; lia|..]|].
        -- intros i b' Hi Hb'. unfold bind. rewrite !block_get_ok, block_put_ok by (unfold N in *; lia). done.
        -- intros i f f' Hi Hf. cbv beta. by rewrite !Hf by lia.
        -- intros k Hk. unfold written. rewrite Z.add_0_l. by destruct (Z.leb_spec 0 k); [|lia].
      * intros b1 N1 L1 B1.
        destruct (writes_put (N - s - 1) (Z.shiftr (blk b1 (N - 1)) o) b1) as (b2 & E2 & N2 & L2 & B2); [unfold N in *; lia|].
        exists b2. unfold bind. rewrite block_get_ok by (unfold N in *; lia). split_and!; [done..|]. intros k Hk. rewrite B2 by done.
        rewrite (B1 (N - 1)) by (unfold N in *; lia). destruct (Z.ltb_spec (N - 1) (N - s - 1)); [lia|].
        destruct (Z.eqb_spec k (N - s - 1)) as [->|Hne]; [destruct (Z.ltb_spec (N - s - 1) (N - s)); [done|lia]|].
        rewrite B1 by (unfold N in *; lia). destruct (Z.ltb_spec k (N - s - 1)), (Z.ltb_spec k (N - s)); try lia; done.
  - intros b1 N1 L1 B1. eapply writes_ext; [apply zeros_writes; unfold N in *; lia|]. rewrite L1. intros k Hk. cbv beta. rewrite B1 by done.
    fold (g k). fold N in Hk. destruct (Z.ltb_spec k (N - s)) as [H1|H1].
    + destruct (Z.leb_spec (N - s - 1 + 1) k); [lia|done].
    + rewrite Hout by lia. destruct (Z.leb_spec (N - s - 1 + 1) k), (Z.ltb_spec k (N - s - 1 + 1 + (N - (N - s - 1) - 1))); try lia. done.
Qed.

Lemma shifted_right_bits b shift i : (forall k, is_block (blk b k)) -> 0 < shift -> 0 <= i ->
  Z.testbit (shifted_right b shift (i / 64)) (i mod 64) = bit b (i + shift).
Proof.
  intros Hb Hs Hi. unfold shifted_right, bit. cbv zeta. div64 i. div64 shift. div64 (i + shift).
  rewrite Z.lor_spec, testbit_wrap64, Z.shiftl_spec, Z.shiftr_spec by lia.
  destruct (Z.ltb_spec (i mod 64 + shift mod 64) 64).
  - rewrite (Z.testbit_neg_r _ (i mod 64 - _)), orb_false_r by lia. f_equal; [f_equal|]; lia.
  - rewrite (proj2 (proj1 (is_block_bits _) (Hb (i / 64 + shift / 64)))) by lia. cbn [orb]. f_equal; [f_equal|]; lia.
Qed.

Lemma shift_right_changes b shift : bitset_ok b -> 0 <= shift ->
  changes (shift_right shift) b (fun i => if i + shift <? m_bits_number b then bit b (i + shift) else false).
Proof.
  intros B Hs. assert (Hgoal : changes (if negb (shift =? 0) then (if m_bits_number b <=? shift then reset_all_bits else apply_right_shift shift) else ret tt) b
    (fun i => if i + shift <? m_bits_number b then bit b (i + shift) else false)).
  2:{ exact Hgoal. }
  destruct (Z.eqb_spec shift 0) as [->|Hne]; cbn [negb].
  { exists b. split_and!; [done..|]. intros i Hi. rewrite Z.add_0_r. by apply bit_ok. }
  pose proof (bok_size _ B). pose proof (bok_length _ B). pose proof (blocks_required_spec (m_bits_number b)). div64 shift.
  destruct (Z.leb_spec (m_bits_number b) shift).
  - destruct (reset_all_changes b B) as (b' & E & B' & N & F). exists b'. split_and!; [done..|]. intros i Hi. rewrite F by done.
    destruct (Z.ltb_spec (i + shift) (m_bits_number b)); [lia|done].
  - apply changes_of_writes with (shifted_right b shift); [done|apply right_shift_writes; lia| |].
    + intros k Hk. apply is_block_lor; [apply is_block_shiftr; [apply B|lia]|apply is_block_wrap].
    + intros i Hi. rewrite shifted_right_bits by (apply B || lia). rewrite (bit_ok _ _ B).
      destruct (Z.ltb_spec i (m_bits_number b)), (Z.ltb_spec (i + shift) (m_bits_number b)); try lia; done.
Qed.

(** ** Reading *)

Lemma land_bit v j : 0 <= j -> negb (Z.land v (Z.shiftl 1 j) =? 0) = Z.testbit v j.
Proof.
  intros Hj. assert (E : Z.land v (Z.shiftl 1 j) = if Z.testbit v j then Z.shiftl 1 j else 0).
  { apply Z.bits_inj'. intros k Hk. rewrite Z.land_spec, Z.shiftl_1_l, Z.pow2_bits_eqb by lia.
    destruct (Z.eqb_spec j k) as [->|Hne].
    - rewrite andb_true_r. destruct (Z.testbit v k); [by rewrite Z.pow2_bits_true|by rewrite Z.testbit_0_l].
    - rewrite andb_false_r. destruct (Z.testbit v j); [by rewrite Z.pow2_bits_false by lia|by rewrite Z.testbit_0_l]. }
  rewrite E. destruct (Z.testbit v j); [|done]. rewrite Z.shiftl_1_l. destruct (Z.eqb_spec (2 ^ j) 0); [|done].
  pose proof (Z.pow_pos_nonneg 2 j). lia.
Qed.

Lemma test_ok b pos : bitset_ok b -> 0 <= pos < m_bits_number b -> test b pos = Ok (bit b pos).
Proof.
  intros B Hpos. unfold test, block_index, bits_per_block. rewrite block_at_ok by (by apply index_in_range). cbn [mapR].
  do 2 f_equal. unfold bit_mask, bit_index, bits_per_block, bit, zero_block. div64 pos. rewrite wrapu_small, land_bit by (rewrite ?Z.shiftl_1_l; try lia;
    pose proof (Z.pow_pos_nonneg 2 (pos mod 64)); pose proof (Z.pow_lt_mono_r 2 (pos mod 64) 64); lia). done.
Qed.

Lemma filter_head {A} (p : A -> bool) l :
  match List.filter p l with
  | i :: _ => exists l1 l2, l = l1 ++ i :: l2 /\ p i = true /\ forall j, j ∈ l1 -> p j = false
  | [] => forall j, j ∈ l -> p j = false
  end.
Proof.
  induction l as [|a l IH]; cbn; [by intros j ?%not_elem_of_nil|]. destruct (p a) eqn:E.
  - exists [], l. split_and!; [done..|]. by intros j ?%not_elem_of_nil.
  - destruct (List.filter p l).
    + intros j [->|Hj]%elem_of_cons; auto.
    + destruct IH as (l1 & l2 & -> & Hp & Hl). exists (a :: l1), l2. split_and!; [done..|]. intros j [->|Hj]%elem_of_cons; auto.
Qed.

Lemma zero_block_bits v : is_block v -> v = 0 <-> forall j, 0 <= j < 64 -> Z.testbit v j = false.
Proof.
  intros Hv. split; [intros -> j _; apply Z.testbit_0_l|]. intros Hj. apply Z.bits_inj'. intros j H0. rewrite Z.testbit_0_l.
  destruct (Z.ltb_spec j 64); [apply Hj; lia|]. by apply is_block_bits.
Qed.

Lemma first_on_spec v : is_block v -> v <> 0 ->
  0 <= first_on v < 64 /\ Z.testbit v (first_on v) = true /\ forall j, 0 <= j < first_on v -> Z.testbit v j = false.
Proof.
  intros Hv Hne. unfold first_on. change bits_per_block with 64. pose proof (filter_head (Z.testbit v) (seqZ 0 64)) as Hf.
  change (fun i => Z.testbit v i) with (Z.testbit v). destruct (List.filter (Z.testbit v) (seqZ 0 64)) as [|i l].
  - destruct Hne. apply zero_block_bits; [done|]. intros j Hj. apply Hf, elem_of_seqZ. lia.
  - destruct Hf as (l1 & l2 & E & Hp & Hl). assert (Hi : i ∈ seqZ 0 64) by (rewrite E; member). apply elem_of_seqZ in Hi.
    split_and!; [lia..|done|]. intros j Hj. apply Hl. assert (Hj' : j ∈ seqZ 0 64) by (apply elem_of_seqZ; lia).
    rewrite E, elem_of_app, elem_of_cons in Hj'. destruct (seqZ_split _ _ _ _ _ j E) as [_ H2].
    destruct Hj' as [|[->|Hj']]; [done|lia|specialize (H2 Hj'); lia].
Qed.

(** The first bit that is set from a position on. *)
Definition next_bit (b : dynamic_bitset) (from r : Z) : Prop :=
  (r = bitset_npos /\ forall i, from <= i -> bit b i = false) \/
  (from <= r < m_bits_number b /\ bit b r = true /\ forall i, from <= i < r -> bit b i = false).

Lemma bit_block b k j : 0 <= j < 64 -> bit b (64 * k + j) = Z.testbit (blk b k) j.
Proof. intros Hj. unfold bit. by destruct (div_mod_64 k j Hj) as [-> ->]. Qed.

Lemma next_bit_skip b k r : bitset_ok b -> blk b k = 0 -> next_bit b (64 * (k + 1)) r -> next_bit b (64 * k) r.
Proof.
  intros B Hk Hr. assert (Hz : forall i, 64 * k <= i < 64 * (k + 1) -> bit b i = false).
  { intros i Hi. div64 i. unfold bit. replace (i / 64) with k by lia. rewrite Hk. apply Z.testbit_0_l. }
  destruct Hr as [[-> Hf]|(Hr & Hb & Hf)].
  - left. split; [done|]. intros i Hi. destruct (Z.ltb_spec i (64 * (k + 1))); [apply Hz; lia|by apply Hf].
  - right. split_and!; [lia..|done|]. intros i Hi. destruct (Z.ltb_spec i (64 * (k + 1))); [apply Hz; lia|apply Hf; lia].
Qed.

Lemma next_bit_here b k from v : bitset_ok b -> 0 <= from < 64 -> v = Z.shiftr (blk b k) from -> v <> 0 ->
  next_bit b (64 * k + from) (64 * k + from + first_on v).
Proof.
  intros B Hfrom -> Hne. pose proof (bok_blocks _ B k) as Hk.
  destruct (first_on_spec (Z.shiftr (blk b k) from)) as (Hr & Ht & Hf); [apply is_block_shiftr; [done|lia]|done|].
  set (r := first_on _) in *. rewrite Z.shiftr_spec in Ht by lia.
  assert (Hlt : r + from < 64).
  { destruct (Z.ltb_spec (r + from) 64); [done|]. by rewrite (proj2 (proj1 (is_block_bits _) Hk)) in Ht by lia. }
  assert (Hbit : bit b (64 * k + from + r) = true) by (rewrite <- Z.add_assoc, bit_block by lia; by rewrite Z.add_comm in Ht).
  right. split_and!; [lia| |done|].
  - destruct (Z.ltb_spec (64 * k + from + r) (m_bits_number b)); [done|]. by rewrite (bok_unused _ B) in Hbit.
  - intros i Hi. replace i with (64 * k + (i - 64 * k)) by lia. rewrite bit_block by lia.
    specialize (Hf (i - 64 * k - from) ltac:(lia)). rewrite Z.shiftr_spec in Hf by lia. by replace (i - 64 * k) with (i - 64 * k - from + from) by lia.
Qed.

Lemma find_block_spec b : bitset_ok b -> forall blocks k, 0 <= k -> blocks = drop (Z.to_nat k) (m_blocks b) ->
  next_bit b (64 * k) (find_block k blocks).
Proof.
  intros B. induction blocks as [|v blocks IH]; intros k Hk E; cbn [find_block].
  - left. split; [done|]. intros i Hi. unfold bit. rewrite blk_outside; [apply Z.testbit_0_l|].
    apply (f_equal length) in E. rewrite length_drop in E. unfold nblocks. cbn in E. div64 i. lia.
  - assert (Ev : blk b k = v).
    { unfold blk. rewrite nth_lookup. rewrite <- (Nat.add_0_r (Z.to_nat k)), <- lookup_drop, <- E. done. }
    destruct (Z.eqb_spec v zero_block) as [->|Hne]; cbn [negb].
    + apply next_bit_skip; [done..|]. apply IH; [lia|]. replace (Z.to_nat (k + 1)) with (S (Z.to_nat k)) by lia.
      change blocks with (drop 1 (zero_block :: blocks)). rewrite E, drop_drop. f_equal. lia.
    + change (k * bits_per_block) with (k * 64). pose proof (next_bit_here b k 0 v B) as Hn. rewrite Z.shiftr_0_r, !Z.add_0_r in Hn.
      rewrite (Z.mul_comm k). by apply Hn.
Qed.

Lemma find_first_spec b : bitset_ok b -> next_bit b 0 (find_first b).
Proof. intros B. by apply (find_block_spec b B _ 0). Qed.

Lemma find_next_spec b prev : bitset_ok b -> 0 <= prev -> exists r, find_next b prev = Ok r /\ next_bit b (prev + 1) r.
Proof.
  intros B Hp. unfold find_next, bitset_empty. pose proof (bok_size _ B).
  destruct (Z.leb_spec (m_bits_number b - 1) prev) as [Hge|Hlt].
  { exists bitset_npos. rewrite orb_true_r. split; [done|]. left. split; [done|]. intros i Hi. apply B. lia. }
  destruct (Z.eqb_spec (m_bits_number b) 0); [lia|]. cbn [orb]. cbv zeta. unfold block_index, bit_index, bits_per_block.
  pose proof (index_in_range b (prev + 1) B ltac:(lia)) as Hk. rewrite block_at_ok by done. cbn [bindR]. eexists. split; [done|].
  div64 (prev + 1). set (k := (prev + 1) / 64) in *. set (j := (prev + 1) mod 64) in *.
  destruct (Z.eqb_spec (Z.shiftr (blk b k) j) zero_block) as [E|Hne]; cbn [negb].
  - assert (Hz : forall i, 64 * k + j <= i < 64 * (k + 1) -> bit b i = false).
    { intros i Hi. replace i with (64 * k + (i - 64 * k)) by lia. rewrite bit_block by lia.
      replace (i - 64 * k) with (i - 64 * k - j + j) by lia. rewrite <- Z.shiftr_spec by lia. rewrite E. apply Z.testbit_0_l. }
    destruct (find_block_spec b B _ (k + 1) ltac:(lia) eq_refl) as [[-> Hf]|(Hr & Hb & Hf)].
    + left. split; [done|]. intros i Hi. destruct (Z.ltb_spec i (64 * (k + 1))); [apply Hz; lia|by apply Hf].
    + right. split_and!; [lia..|done|]. intros i Hi. destruct (Z.ltb_spec i (64 * (k + 1))); [apply Hz; lia|apply Hf; lia].
  - replace (prev + 1) with (64 * k + j) by lia. by apply next_bit_here.
Qed.

Lemma blocks_forall b (P : Z -> Prop) : Forall P (m_blocks b) <-> forall k, 0 <= k < nblocks b -> P (blk b k).
Proof.
  rewrite Forall_lookup. split.
  - intros Hf k Hk. apply (Hf (Z.to_nat k)), blk_lookup. rewrite Z2Nat.id by lia. split; [lia|done].
  - intros Hf k v [Hk <-]%blk_lookup. apply Hf. lia.
Qed.

Lemma any_spec b : bitset_ok b -> any b = true <-> exists i, 0 <= i < m_bits_number b /\ bit b i = true.
Proof.
  intros B. destruct (find_first_spec b B) as [[_ Hf]|(Hr & Hb & _)].
  - split; [|by intros (i & Hi & E); rewrite Hf in E by lia]. intros Ha. exfalso.
    enough (any b = false) by congruence. unfold any. apply not_true_iff_false. rewrite existsb_exists. intros (v & Hv & Hz).
    assert (Hall : Forall (fun v => v = 0) (m_blocks b)).
    { apply blocks_forall. intros k Hk. apply zero_block_bits; [apply B|]. intros j Hj. rewrite <- bit_block by done. apply Hf. lia. }
    rewrite Forall_forall in Hall. apply Hall in Hv. subst v. done.
  - split; [intros _; eauto|]. intros _. unfold any. apply existsb_exists. set (r := find_first b) in *. exists (blk b (r / 64)). split.
    + apply list_elem_of_In, (list_elem_of_lookup_2 _ (Z.to_nat (r / 64))), blk_lookup. pose proof (index_in_range b r B Hr).
      rewrite Z2Nat.id by lia. split; [lia|done].
    + destruct (Z.eqb_spec (blk b (r / 64)) zero_block) as [E|]; [|done]. unfold bit in Hb. rewrite E in Hb. by rewrite Z.testbit_0_l in Hb.
Qed.

Lemma full_block_bits v : is_block v -> v = one_block <-> forall j, 0 <= j < 64 -> Z.testbit v j = true.
Proof.
  intros Hv. split; [intros -> j Hj; rewrite testbit_one_block by lia; apply Z.ltb_lt; lia|]. intros Hj. apply Z.bits_inj'. intros j H0.
  rewrite testbit_one_block by done. destruct (Z.ltb_spec j 64); [apply Hj; lia|]. by apply is_block_bits.
Qed.

Lemma blk_removelast b k : 0 <= k < nblocks b - 1 -> nth (Z.to_nat k) (removelast (m_blocks b)) 0 = blk b k.
Proof.
  intros Hk. unfold blk, nblocks in *. destruct (m_blocks b) as [|v l] using rev_ind; [cbn in Hk; lia|].
  rewrite removelast_last, app_nth1; [done|]. rewrite length_app in Hk. cbn in Hk. lia.
Qed.

Lemma removelast_nblocks b : 0 < nblocks b -> Z.of_nat (length (removelast (m_blocks b))) = nblocks b - 1.
Proof.
  unfold nblocks. destruct (m_blocks b) as [|v l] using rev_ind; [done|]. rewrite removelast_last, length_app. cbn. lia.
Qed.

Lemma all_spec b : bitset_ok b -> exists r, all b = Ok r /\ (r = true <-> forall i, 0 <= i < m_bits_number b -> bit b i = true).
Proof.
  intros B. pose proof (bok_size _ B). pose proof (bok_length _ B). pose proof (blocks_required_spec (m_bits_number b)). div64 (m_bits_number b).
  unfold all, bitset_empty. destruct (Z.eqb_spec (m_bits_number b) 0) as [E0|E0]; [exists true; split; [done|]; split; [lia|done]|].
  unfold extra_bits_number, unused_bits_number, extra_bits_number, bit_index, bits_per_block.
  assert (Hfull : forall k, 0 <= k -> 64 * k + 64 <= m_bits_number b ->
    blk b k = one_block <-> forall i, 64 * k <= i < 64 * k + 64 -> bit b i = true).
  { intros k Hk Hn. rewrite full_block_bits by apply B. split; intros Hf.
    - intros i Hi. replace i with (64 * k + (i - 64 * k)) by lia. rewrite bit_block by lia. apply Hf. lia.
    - intros j Hj. rewrite <- bit_block by done. apply Hf. lia. }
  destruct (Z.eqb_spec (m_bits_number b mod 64) 0) as [Em|Em].
  - eexists. split; [done|]. rewrite forallb_forall. setoid_rewrite Z.eqb_eq.
    rewrite <- Forall_forall, blocks_forall. split.
    + intros Hb i Hi. div64 i. apply (Hfull (i / 64)); [lia..| |lia]. apply Hb. lia.
    + intros Hb k Hk. apply Hfull; [lia..|]. intros i Hi. apply Hb. lia.
  - destruct (forallb (fun v => v =? one_block) (removelast (m_blocks b))) eqn:Ef; cbn [negb].
    + rewrite block_at_ok by lia. cbn [mapR]. eexists. split; [done|]. rewrite Z.eqb_eq.
      assert (Hlow : forall i, 0 <= i < 64 * (nblocks b - 1) -> bit b i = true).
      { intros i Hi. div64 i. apply (Hfull (i / 64)); [lia..| |lia]. rewrite <- blk_removelast by lia.
        rewrite forallb_forall in Ef. apply Z.eqb_eq, Ef, nth_In. pose proof (removelast_nblocks b). lia. }
      assert (Hlast : forall j, 0 <= j < 64 -> Z.testbit (Z.shiftr one_block (64 - m_bits_number b mod 64)) j = (j <? m_bits_number b mod 64)).
      { intros j Hj. rewrite Z.shiftr_spec, testbit_one_block by lia.
        destruct (Z.ltb_spec (j + (64 - m_bits_number b mod 64)) 64), (Z.ltb_spec j (m_bits_number b mod 64)); try lia; done. }
      split.
      * intros E i Hi. destruct (Z.ltb_spec i (64 * (nblocks b - 1))); [apply Hlow; lia|].
        replace i with (64 * (nblocks b - 1) + (i - 64 * (nblocks b - 1))) by lia. rewrite bit_block, E, Hlast by lia. apply Z.ltb_lt. lia.
      * intros Hb. apply Z.bits_inj'. intros j Hj. destruct (Z.ltb_spec j 64).
        -- rewrite Hlast, <- bit_block, (bit_ok _ _ B) by lia. destruct (Z.ltb_spec j (m_bits_number b mod 64)), (Z.ltb_spec (64 * (nblocks b - 1) + j) (m_bits_number b)); try lia; try done.
           apply Hb. lia.
        -- rewrite Z.shiftr_spec, testbit_one_block by lia. rewrite (proj2 (proj1 (is_block_bits _) (bok_blocks _ B _))) by lia.
           symmetry. apply Z.ltb_ge. lia.
    + exists false. split; [done|]. split; [done|]. intros Hb. rewrite <- Ef. apply forallb_forall. intros v Hv. apply Z.eqb_eq.
      apply list_elem_of_In, list_elem_of_lookup in Hv as [k Hk]. pose proof (lookup_lt_Some _ _ _ Hk) as Hlt.
      pose proof (removelast_nblocks b). apply (nth_lookup_Some _ _ 0) in Hk. rewrite <- (Nat2Z.id k), blk_removelast in Hk by lia. subst v.
      apply Hfull; [lia..|]. intros i Hi. apply Hb. lia.
Qed.

(** The number of bits set below a position. *)
Definition bits_below (b : dynamic_bitset) (n : Z) : Z := Z.of_nat (length (List.filter (bit b) (seqZ 0 n))).

Lemma filter_ext_in_len {A} (f g : A -> bool) l : (forall a, In a l -> f a = g a) -> length (List.filter f l) = length (List.filter g l).
Proof. intros. by rewrite (List.filter_ext_in f g). Qed.

Lemma block_count_bits b k m : 0 <= m <= 64 -> 0 <= k -> block_count (blk b k) m = bits_below b (64 * k + m) - bits_below b (64 * k).
Proof.
  intros Hm Hk. unfold block_count, bits_below. rewrite (seqZ_app 0 (64 * k) m), List.filter_app, length_app, Z.add_0_l by lia.
  enough (length (List.filter (fun i => negb (Z.land (blk b k) (Z.shiftl 1 i) =? zero_block)) (seqZ 0 m)) = length (List.filter (bit b) (seqZ (64 * k) m))) by lia.
  replace (seqZ (64 * k) m) with (map (Z.add (64 * k)) (seqZ 0 m)).
  2:{ change (map (Z.add (64 * k))) with (fmap (M := list) (Z.add (64 * k))). rewrite fmap_add_seqZ. f_equal. lia. }
  assert (Hmap : forall l, length (List.filter (bit b) (map (Z.add (64 * k)) l)) = length (List.filter (fun i => bit b (64 * k + i)) l)).
  { induction l as [|i l IH]; [done|]. cbn [map List.filter]. destruct (bit b (64 * k + i)); cbn [length]; by rewrite IH. }
  rewrite Hmap. apply filter_ext_in_len. intros i Hi. apply list_elem_of_In, elem_of_seqZ in Hi. by rewrite land_bit, bit_block by lia.
Qed.

Lemma count_blocks b (l : list Z) : forall k, 0 <= k -> (forall j, 0 <= j < Z.of_nat (length l) -> nth (Z.to_nat j) l 0 = blk b (k + j)) ->
  foldr Z.add 0 (map (fun v => block_count v bits_per_block) l) = bits_below b (64 * (k + Z.of_nat (length l))) - bits_below b (64 * k).
Proof.
  change bits_per_block with 64. induction l as [|v l IH]; intros k Hk Hl; cbn [map foldr length].
  - rewrite Z.add_0_r. lia.
  - rewrite (IH (k + 1)); [|lia|].
    2:{ intros j Hj. specialize (Hl (j + 1)). cbn [length] in Hl. replace (Z.to_nat (j + 1)) with (S (Z.to_nat j)) in Hl by lia.
        cbn [nth] in Hl. rewrite Hl by lia. f_equal. lia. }
    pose proof (Hl 0 ltac:(cbn [length]; lia)) as Hv. change (v = blk b (k + 0)) in Hv. rewrite Z.add_0_r in Hv. rewrite Hv, block_count_bits by lia.
    replace (64 * (k + 1)) with (64 * k + 64) by lia. replace (k + Z.of_nat (S (length l))) with (k + 1 + Z.of_nat (length l)) by lia. lia.
Qed.

Lemma count_spec b : bitset_ok b -> count b = Ok (bits_below b (m_bits_number b)).
Proof.
  intros B. pose proof (bok_size _ B). pose proof (bok_length _ B). pose proof (blocks_required_spec (m_bits_number b)). div64 (m_bits_number b).
  unfold count, bitset_empty. destruct (Z.eqb_spec (m_bits_number b) 0) as [E0|E0]; [by rewrite E0|].
  rewrite block_at_ok by lia. cbn [bindR]. f_equal. pose proof (removelast_nblocks b ltac:(lia)) as Hlen.
  rewrite (count_blocks b _ 0); [|lia|by intros j Hj; apply blk_removelast; lia]. rewrite Hlen, Z.add_0_l.
  change (bits_below b (64 * 0)) with 0. unfold extra_bits_number, bit_index, bits_per_block.
  set (m := if m_bits_number b mod 64 =? 0 then 64 else m_bits_number b mod 64).
  assert (Hm : 0 <= m <= 64 /\ m_bits_number b = 64 * (nblocks b - 1) + m).
  { unfold m. destruct (Z.eqb_spec (m_bits_number b mod 64) 0); lia. }
  assert (Hc : (if negb (blk b (nblocks b - 1) =? zero_block) then block_count (blk b (nblocks b - 1)) m else 0) = block_count (blk b (nblocks b - 1)) m).
  { destruct (Z.eqb_spec (blk b (nblocks b - 1)) zero_block) as [->|]; [|done]. cbn [negb]. unfold block_count.
    rewrite (filter_ext_in_len _ (fun _ => false)); [|by intros; rewrite Z.land_0_l]. by induction (seqZ 0 m). }
  rewrite Hc, block_count_bits by lia. destruct Hm as [_ ->]. lia.
Qed.

Lemma bitset_new_ok n init : 0 <= n -> is_block init ->
  exists b, dynamic_bitset_new n init = Ok b /\ bitset_ok b /\ m_bits_number b = n /\
    forall i, 0 <= i < n -> bit b i = if i <? 64 then Z.testbit init i else false.
Proof.
  intros Hn Hi. set (b0 := mkBitset (repeat zero_block (Z.to_nat (blocks_required n))) n).
  pose proof (blocks_required_spec n Hn).
  assert (Hblk : forall k, blk b0 k = 0) by (intros k; unfold blk, b0; cbn; apply nth_repeat).
  assert (Hbit : forall i, bit b0 i = false) by (intros i; unfold bit; rewrite Hblk; apply Z.testbit_0_l).
  assert (B0 : bitset_ok b0).
  { split; [done| |intros k; rewrite Hblk; done|intros; apply Hbit]. unfold nblocks, b0. cbn. rewrite repeat_length. lia. }
  unfold dynamic_bitset_new. fold b0. destruct ((n =? 0) || (init =? 0)) eqn:E.
  - exists b0. split_and!; [done..|]. intros i Hi'. rewrite Hbit. destruct (Z.ltb_spec i 64); [|done].
    apply orb_true_iff in E as [E|E]; bool_prop; [lia|]. subst init. by rewrite Z.testbit_0_l.
  - bool_prop. assert (Hk : 0 <= 0 < nblocks b0) by (rewrite (bok_length _ B0); cbn; lia).
    destruct (changes_sanitized (block_put 0 init) b0 _ (fun i => if i <? 64 then Z.testbit init i else false) B0 (writes_put 0 init b0 Hk))
      as (b & E1 & B & N & F).
    + intros k _. case_if; [done|]. by rewrite Hblk.
    + intros i Hi'. div64 i. destruct (Z.eqb_spec (i / 64) 0), (Z.ltb_spec i 64); try lia.
      * f_equal. lia.
      * rewrite Hblk. apply Z.testbit_0_l.
    + exists b. rewrite E1. split_and!; [done..|]. by cbn in F.
Qed.
