(* ===== verification/Bitmap.v ===== *)
(** * Dirty regions

    Models [til::bitmap] (src/src/inc/til/bitmap.h): a bit for every cell of a screen, the
    iterator over the runs of bits that are set, and the cache of these runs.  Allocators
    are not modelled; a moved or swapped bitmap is its value.

    The theorem: a bitmap is a set of cells.  Setting, moving and resizing act on the set
    as they should, and the runs are the maximal horizontal pieces of the set, each cell in
    exactly one of them, in reading order. *)

From Stdlib Require Import ZifyBool Sorted.
From S2P Require Import Prelude Effects Geometry Bitset.

Local Open Scope Z_scope.

Record bitmap := mkBitmap {
  _sz : size;
  _rc : rect;
  _bits : dynamic_bitset;
  _runs : option (list rect)
}.

Definition set_bits (b : dynamic_bitset) (m : bitmap) : bitmap := mkBitmap (_sz m) (_rc m) b (_runs m).
Definition set_runs (r : option (list rect)) (m : bitmap) : bitmap := mkBitmap (_sz m) (_rc m) (_bits m) r.

Abbreviation BM := (M bitmap).

(** An operation on the bits. *)
Definition on_bits {A} (m : BS A) : BM A := fun s =>
  let '(b, r) := m (_bits s) in (set_bits b s, r).

Definition read {A} (f : bitmap -> Result A) : BM A := fun s => (s, f s).

Definition bitmap_new (sz : size) (fill : bool) : Result bitmap :=
  let? a := area sz in
  let? bits := dynamic_bitset_new a (if fill then 2 ^ 64 - 1 else 0) in
  Ok (mkBitmap sz (rect_of_size sz) bits None).

(** ** The iterator over the runs *)

Record bitmap_iterator := mkBitmapIterator {
  bi_pos : Z;
  bi_nextPos : Z;
  bi_run : rect
}.

(** [base::saturated_cast<CoordType>] of a [size_t]. *)
Definition saturated_cast (z : Z) : Z := Z.min z INT_MAX.

Definition rect_size (r : rect) : Result size :=
  let? w := rect_width r in let? h := rect_height r in Ok (Size w h).

Section Iterator.
Variables (values : dynamic_bitset) (rc : rect).

(** The do-while loop of [_calculateArea]: one turn for each bit of the row. *)
Fixpoint run_loop (fuel : nat) (rowEndIndex nextPos runLength : Z) : Result (Z * Z) :=
  match fuel with
  | O => OutOfFuel
  | S fuel =>
      let nextPos := nextPos + 1 in
      let runLength := runLength + 1 in
      if nextPos <? rowEndIndex then
        let? on := test values nextPos in
        if on : bool then run_loop fuel rowEndIndex nextPos runLength else Ok (nextPos, runLength)
      else Ok (nextPos, runLength)
  end.

Definition _calculateArea (end_ pos : Z) : Result bitmap_iterator :=
  let? nextPos := (if pos =? 0 then Ok (find_first values) else find_next values (pos - 1)) in
  if nextPos <? end_ then
    let? runStart := point_at rc (saturated_cast nextPos) in
    let? lastIndex := as_size (index_of rc (Point (right rc - 1) (y runStart))) in
    let rowEndIndex := lastIndex + 1 in
    let? res := run_loop (Z.to_nat (rowEndIndex - nextPos)) rowEndIndex nextPos 0 in
    let? run := rect_at runStart (Size (saturated_cast (snd res)) 1) in
    Ok (mkBitmapIterator pos (fst res) run)
  else Ok (mkBitmapIterator end_ end_ rect_default).

Definition iterator_end : Result Z := let? s := rect_size rc in area s.

Definition iterator_new (pos : Z) : Result bitmap_iterator :=
  let? end_ := iterator_end in _calculateArea end_ pos.

Definition iterator_next (it : bitmap_iterator) : Result bitmap_iterator :=
  let? end_ := iterator_end in _calculateArea end_ (bi_nextPos it).

(** The runs from an iterator to the end, which is at [last].  Both iterate over the same
    bits, so only the positions are compared. *)
Fixpoint collect (fuel : nat) (last : Z) (it : bitmap_iterator) : Result (list rect) :=
  match fuel with
  | O => OutOfFuel
  | S fuel =>
      if bi_pos it =? last then Ok []
      else let? it' := iterator_next it in let? rs := collect fuel last it' in Ok (bi_run it :: rs)
  end.
End Iterator.

(** [for (run : *this)]: the position rises at every turn. *)
Definition all_runs (m : bitmap) : Result (list rect) :=
  let rc := rect_of_size (_sz m) in
  let? first := iterator_new (_bits m) rc 0 in
  let? a := area (_sz m) in
  let? last := iterator_new (_bits m) rc a in
  collect (_bits m) rc (S (Z.to_nat (bi_pos last))) (bi_pos last) first.

Definition runs : BM (list rect) :=
  cached <- get _runs ;;
  match cached with
  | Some rs => ret rs
  | None => rs <- read all_runs ;; modify (set_runs (Some rs)) ;; ret rs
  end.

(** ** Changes *)

Definition set_point (pt : point) : BM unit :=
  rc <- get _rc ;;
  if negb (contains rc pt) then throw StdException
  else
    modify (set_runs None) ;;
    i <- read (fun _ => index_of rc pt) ;;
    on_bits (set_bit i true).

(** One row of a rectangle. *)
Definition set_row (all rc : rect) (row : Z) : BM unit :=
  i <- read (fun _ => index_of all (Point (left rc) row)) ;;
  w <- read (fun _ => rect_width rc) ;;
  on_bits (set_range i (wrapu 64 w) true).

Definition set_rect (rc : rect) : BM unit :=
  all <- get _rc ;;
  if negb (contains_rect all rc) then throw StdException
  else
    modify (set_runs None) ;;
    iterM (set_row all rc) (seqZ (top rc) (bottom rc - top rc)).

Definition set_all : BM unit := modify (set_runs None) ;; on_bits set_all_bits.
Definition reset_all : BM unit := modify (set_runs None) ;; on_bits reset_all_bits.

Definition translate_y (delta_y : Z) (fill : bool) : BM unit :=
  if delta_y =? 0 then ret tt
  else
    sz <- get _sz ;; n <- get (fun m => m_bits_number (_bits m)) ;;
    let bitShift := delta_y * width sz in
    let newBits := Z.abs bitShift in
    let isLeftShift := 0 <? bitShift in
    if n <=? newBits then (if fill then set_all else reset_all)
    else
      on_bits (if isLeftShift then shift_left newBits else shift_right newBits) ;;
      (if fill then
         on_bits (if isLeftShift then set_range 0 newBits true else set_range (n - newBits) newBits true)
       else ret tt) ;;
      modify (set_runs None).

(** The runs of a bitmap moved into another. *)
Fixpoint move_runs (rc : rect) (delta : point) (rs : list rect) : BM unit :=
  match rs with
  | [] => ret tt
  | run :: rs =>
      run <- read (fun _ => rect_add_point run delta) ;;
      set_rect (rect_and run rc) ;;
      move_runs rc delta rs
  end.

(** Runs the changes on a new bitmap and takes its place. *)
Definition replace_by (sz : size) (m : BM unit) : BM unit := fun s =>
  match bitmap_new sz false with
  | Ok other => match m other with
                | (other, Ok _) => (other, Ok tt)
                | (_, Throw e) => (s, Throw e)
                | (_, Undefined) => (s, Undefined)
                | (_, OutOfFuel) => (s, OutOfFuel)
                end
  | Throw e => (s, Throw e)
  | Undefined => (s, Undefined)
  | OutOfFuel => (s, OutOfFuel)
  end.

Definition translate (delta : point) (fill : bool) : BM unit :=
  if x delta =? 0 then translate_y (y delta) fill
  else
    sz <- get _sz ;; rc <- get _rc ;; rs <- read all_runs ;;
    replace_by sz (
      move_runs rc delta rs ;;
      if fill then
        translatedRect <- read (fun _ => rect_add_point rc delta) ;;
        iterM set_rect (rect_minus rc translatedRect)
      else ret tt).

Definition resize (sz : size) (fill : bool) : BM bool :=
  modify (set_runs None) ;;
  old <- get _sz ;;
  if bool_decide (old <> sz) then
    rc <- get _rc ;; rs <- read all_runs ;;
    replace_by sz (
      iterM (fun run =>
          let intersect := rect_and run (rect_of_size sz) in
          if negb (empty intersect) then set_rect intersect else ret tt) rs ;;
      if fill then iterM set_rect (rect_minus (rect_of_size sz) rc) else ret tt) ;;
    ret true
  else ret false.

Definition one (m : bitmap) : Result bool := mapR (fun c => c =? 1) (count (_bits m)).
Definition none (m : bitmap) : bool := Bitset.none (_bits m).
Definition any (m : bitmap) : bool := negb (none m).
Definition all (m : bitmap) : Result bool := Bitset.all (_bits m).

(** ** The set of cells *)

Definition cell_index (m : bitmap) (p : point) : Z := y p * width (_sz m) + x p.
Definition dirty (m : bitmap) (p : point) : bool := contains (_rc m) p && bit (_bits m) (cell_index m p).

(** A size whose cells can be counted: with rows and columns, or with neither. *)
Record size_ok (sz : size) : Prop := {
  size_width : 0 <= width sz <= INT_MAX;
  size_height : 0 <= height sz <= INT_MAX;
  size_cells : width sz * height sz + width sz <= INT_MAX;
  size_shape : width sz = 0 <-> height sz = 0
}.

Record bitmap_ok (m : bitmap) : Prop := {
  bm_rc : _rc m = rect_of_size (_sz m);
  bm_size : size_ok (_sz m);
  bm_bits : bitset_ok (_bits m);
  bm_number : m_bits_number (_bits m) = width (_sz m) * height (_sz m);
  bm_cache : forall rs, _runs m = Some rs -> all_runs m = Ok rs
}.

Lemma area_ok sz : size_ok sz -> area sz = Ok (width sz * height sz).
Proof.
  intros [Hw Hh Ha _]. unfold INT_MAX in *. unfold area. rewrite wraps_small by nia. apply checked_ok. unfold is_int, INT_MIN, INT_MAX. nia.
Qed.

Lemma screen_measured sz : size_ok sz -> 0 < width sz -> 0 < height sz -> measured (rect_of_size sz).
Proof. intros [Hw Hh Ha _] H1 H2. split; cbn; unfold INT_MIN, INT_MAX in *; nia. Qed.

Lemma screen_index sz p : size_ok sz -> contains (rect_of_size sz) p = true ->
  index_of (rect_of_size sz) p = Ok (y p * width sz + x p) /\ 0 <= y p * width sz + x p < width sz * height sz.
Proof.
  intros Hs Hp. apply contains_spec in Hp. cbn in Hp. pose proof (screen_measured sz Hs ltac:(lia) ltac:(lia)) as Hm.
  pose proof (index_of_spec _ (y p) (x p) Hm) as E. cbn in E. rewrite !Z.sub_0_r in E. destruct p as [px py]. cbn in *. split; [apply E; lia|nia].
Qed.

Lemma screen_point sz i : size_ok sz -> 0 <= i < width sz * height sz ->
  0 < width sz /\ point_at (rect_of_size sz) i = Ok (Point (i mod width sz) (i / width sz)) /\
  0 <= i mod width sz < width sz /\ 0 <= i / width sz < height sz.
Proof.
  intros Hs Hi. pose proof Hs as [Hw Hh Ha _]. assert (H0 : 0 < width sz) by nia. assert (H1 : 0 < height sz) by nia.
  pose proof (screen_measured sz Hs H0 H1) as Hm. split; [done|]. rewrite (point_at_spec _ _ Hm) by lia.
  unfold rect_area, nth_point. cbn. rewrite !Z.sub_0_r. destruct (Z.leb_spec (width sz * height sz) i); [lia|]. split; [done|].
  pose proof (Z.mod_pos_bound i (width sz) H0). split; [done|]. split; [apply Z.div_pos; lia|apply Z.div_lt_upper_bound; lia].
Qed.

(** ** Runs *)

Section Runs.
Variables (values : dynamic_bitset) (sz : size).
Hypothesis values_ok : bitset_ok values.
Hypothesis size_fits : size_ok sz.
Hypothesis number_ok : m_bits_number values = width sz * height sz.

#[local] Abbreviation w := (width sz).
#[local] Abbreviation N := (width sz * height sz).

(** The cells with the indices from [s] to [e] of one row. *)
Definition run_rect (s e : Z) : rect := Rect (s mod w) (s / w) (s mod w + (e - s)) (s / w + 1).

Record is_run (pos s e : Z) : Prop := {
  run_order : 0 <= pos <= s /\ s < e <= N;
  run_row : s mod w + (e - s) <= w;
  run_skips : forall i, pos <= i < s -> bit values i = false;
  run_set : forall i, s <= i < e -> bit values i = true;
  run_stops : s mod w + (e - s) = w \/ bit values e = false
}.

Inductive runs_from : Z -> list rect -> Prop :=
| runs_end pos : (forall i, pos <= i < N -> bit values i = false) -> runs_from pos []
| runs_step pos s e rs : is_run pos s e -> runs_from e rs -> runs_from pos (run_rect s e :: rs).

Lemma run_loop_spec rowEnd fuel : forall s len,
  0 <= s < rowEnd -> rowEnd <= N -> (Z.to_nat (rowEnd - s) <= fuel)%nat ->
  exists e, run_loop values fuel rowEnd s len = Ok (e, len + (e - s)) /\ s < e <= rowEnd /\
    (forall i, s < i < e -> bit values i = true) /\ (e = rowEnd \/ bit values e = false).
Proof.
  induction fuel as [|fuel IH]; intros s len Hs Hend Hfuel; [lia|]. cbn [run_loop].
  destruct (Z.ltb_spec (s + 1) rowEnd).
  - rewrite test_ok by (done || lia). cbn [bindR]. destruct (bit values (s + 1)) eqn:Eb.
    + destruct (IH (s + 1) (len + 1)) as (e & E & He & Hset & Hstop); [lia..|]. exists e. rewrite E. split_and!; [do 2 f_equal; lia|lia|lia| |done].
      intros i Hi. destruct (Z.eq_dec i (s + 1)) as [->|]; [done|]. apply Hset. lia.
    + exists (s + 1). split_and!; [do 2 f_equal; lia|lia|lia|intros i Hi; lia|by right].
  - exists (s + 1). split_and!; [do 2 f_equal; lia|lia|lia|intros i Hi; lia|left; lia].
Qed.

Lemma iterator_end_ok : iterator_end (rect_of_size sz) = Ok N.
Proof.
  unfold iterator_end, rect_size, rect_width, rect_height, CheckSub. destruct size_fits as [Hw Hh Ha _]. cbn [left right top bottom rect_of_size].
  rewrite !Z.sub_0_r, !checked_ok by (unfold is_int, INT_MIN, INT_MAX in *; lia). cbn [bindR]. apply (area_ok (Size w (height sz))). by destruct size_fits.
Qed.

Lemma next_position pos : 0 <= pos <= N ->
  exists r, (if pos =? 0 then Ok (find_first values) else find_next values (pos - 1)) = Ok r /\ next_bit values pos r.
Proof.
  intros Hp. destruct (Z.eqb_spec pos 0) as [->|Hne]; [eexists; split; [done|by apply find_first_spec]|].
  destruct (find_next_spec values (pos - 1) values_ok) as (r & E & Hr); [lia|]. exists r. by rewrite Z.sub_add in Hr.
Qed.

Lemma row_of_index i : 0 < w -> i = w * (i / w) + i mod w /\ 0 <= i mod w < w.
Proof. intros Hw. split; [by apply Z.div_mod; lia|by apply Z.mod_pos_bound]. Qed.

Lemma calculate_area_spec pos : 0 <= pos <= N ->
  ((forall i, pos <= i < N -> bit values i = false) /\
   _calculateArea values (rect_of_size sz) N pos = Ok (mkBitmapIterator N N rect_default)) \/
  exists s e, is_run pos s e /\ _calculateArea values (rect_of_size sz) N pos = Ok (mkBitmapIterator pos e (run_rect s e)).
Proof.
  intros Hp. unfold _calculateArea. destruct (next_position pos Hp) as (s & -> & Hn). cbn [bindR].
  pose proof size_fits as [Hw Hh Ha _]. unfold INT_MAX in *.
  destruct Hn as [[-> Hf]|(Hs & Hb & Hf)].
  - left. split; [intros i Hi; apply Hf; lia|]. destruct (Z.ltb_spec bitset_npos N); [unfold bitset_npos in *; lia|done].
  - right. rewrite number_ok in Hs. destruct (Z.ltb_spec s N); [|lia].
    destruct (screen_point sz s size_fits ltac:(lia)) as (Hw0 & Ep & Hc & Hr). destruct (row_of_index s Hw0) as [Es _].
    unfold saturated_cast at 1. rewrite Z.min_l by (unfold INT_MAX; lia). rewrite Ep. cbn [bindR y].
    destruct (screen_index sz (Point (w - 1) (s / w)) size_fits) as [Ei Hi]; [apply contains_spec; cbn; lia|].
    cbn [right rect_of_size]. rewrite Ei. unfold as_size. cbn [bindR x y] in *. destruct (Z.ltb_spec (s / w * w + (w - 1)) 0); [lia|]. cbn [bindR].
    destruct (run_loop_spec (s / w * w + (w - 1) + 1) (Z.to_nat (s / w * w + (w - 1) + 1 - s)) s 0) as (e & -> & He & Hset & Hstop); [lia..|].
    cbn [bindR fst snd]. exists s, e. split.
    + split; [lia|lia|done| |].
      * intros i Hi'. destruct (Z.eq_dec i s) as [->|]; [done|]. apply Hset. lia.
      * destruct Hstop as [->|]; [left; lia|by right].
    + unfold saturated_cast, INT_MAX. rewrite Z.min_l by lia. unfold rect_at, point_add_size, point_add, on_both, CheckAdd. cbn [x y point_of_size width height].
      rewrite !checked_ok by (unfold is_int, INT_MIN, INT_MAX; lia). cbn [bindR mapR]. unfold run_rect, rect_of_points. cbn. repeat f_equal; lia.
Qed.

Lemma collect_spec : forall n pos fuel it,
  0 <= pos <= N -> (Z.to_nat (N - pos) <= n)%nat -> (n < fuel)%nat ->
  _calculateArea values (rect_of_size sz) N pos = Ok it ->
  exists rs, collect values (rect_of_size sz) fuel N it = Ok rs /\ runs_from pos rs.
Proof.
  induction n as [|n IH]; intros pos fuel it Hpos Hn Hfuel Hit; (destruct fuel as [|fuel]; [lia|]); cbn [collect].
  all: destruct (calculate_area_spec pos Hpos) as [[Hf E]|(s & e & Hr & E)]; rewrite E in Hit; simplify_eq/=.
  1,3: rewrite Z.eqb_refl; eexists; split; [done|by constructor].
  - destruct (run_order _ _ _ Hr). lia.
  - pose proof (run_order _ _ _ Hr) as Ho. destruct (Z.eqb_spec pos N); [lia|].
    unfold iterator_next. rewrite iterator_end_ok. cbn [bindR bi_nextPos].
    destruct (calculate_area_spec e ltac:(lia)) as [[Hf' E']|(s' & e' & Hr' & E')].
    all: rewrite E'; cbn [bindR]; destruct (IH e fuel _ ltac:(lia) ltac:(lia) ltac:(lia) E') as (rs & -> & Hrs);
      cbn [bindR]; eexists; split; [done|]; by econstructor.
Qed.

(** What a list of runs is. *)
Definition point_index (p : point) : Z := y p * w + x p.

Lemma run_contains pos s e p : 0 < w -> is_run pos s e -> contains (run_rect s e) p = contains (rect_of_size sz) p && (s <=? point_index p) && (point_index p <? e).
Proof.
  intros Hw Hr. pose proof (run_order _ _ _ Hr). pose proof (run_row _ _ _ Hr). destruct (row_of_index s Hw) as [Es Hc].
  assert (0 <= s / w) by (apply Z.div_pos; lia). assert (s / w < height sz) by (apply Z.div_lt_upper_bound; lia).
  apply eq_true_iff_eq. rewrite !andb_true_iff, Z.leb_le, Z.ltb_lt, !contains_spec. unfold run_rect, point_index. cbn. split.
  - intros [Hx Hy]. assert (y p = s / w) as -> by lia. lia.
  - intros [[[Hx Hy] Hs] He]. assert (y p = s / w); [|subst; nia]. nia.
Qed.

Lemma runs_width pos rs : runs_from pos rs -> rs <> [] -> 0 < w.
Proof. intros Hr. destruct Hr as [|pos s e rs Hr _]; [done|]. intros _. pose proof (run_order _ _ _ Hr). destruct size_fits. nia. Qed.

Lemma index_below p : contains (rect_of_size sz) p = true -> 0 <= point_index p < N.
Proof. intros Hp. by apply (screen_index sz p size_fits). Qed.

Lemma runs_cover pos rs p : runs_from pos rs ->
  cover rs p = Nat.b2n (contains (rect_of_size sz) p && (pos <=? point_index p) && bit values (point_index p)).
Proof.
  induction 1 as [pos Hf|pos s e rs Hr Hrs IH].
  - unfold cover. cbn. destruct (contains (rect_of_size sz) p) eqn:Ec; [|done]. pose proof (index_below p Ec).
    destruct (Z.leb_spec pos (point_index p)); [|done]. cbn. rewrite Hf by lia. done.
  - change (run_rect s e :: rs) with ([run_rect s e] ++ rs). rewrite cover_app, cover_one, IH.
    pose proof (run_order _ _ _ Hr). assert (Hw : 0 < w) by (destruct size_fits; nia). rewrite (run_contains pos) by done.
    destruct (contains (rect_of_size sz) p) eqn:Ec; [|done]. cbn [andb]. pose proof (run_skips _ _ _ Hr (point_index p)). pose proof (run_set _ _ _ Hr (point_index p)).
    destruct (bit values (point_index p)), (Z.leb_spec s (point_index p)), (Z.ltb_spec (point_index p) e), (Z.leb_spec e (point_index p)), (Z.leb_spec pos (point_index p));
      cbn; try lia; try done; exfalso; intuition (lia || congruence).
Qed.

(** The order of the rows, from left to right in each. *)
Definition before (r r' : rect) : Prop := top r < top r' \/ (top r = top r' /\ right r <= left r').

Lemma run_before s e s' e' pos pos' : is_run pos s e -> is_run pos' s' e' -> e <= s' -> before (run_rect s e) (run_rect s' e').
Proof.
  intros Hr Hr' Hle. pose proof (run_order _ _ _ Hr). pose proof (run_row _ _ _ Hr). assert (Hw : 0 < w) by (destruct size_fits; nia).
  destruct (row_of_index s Hw), (row_of_index s' Hw). unfold before, run_rect. cbn. nia.
Qed.

Lemma runs_sorted pos rs : runs_from pos rs ->
  StronglySorted before rs /\ Forall (fun r => exists q s e, r = run_rect s e /\ is_run q s e /\ pos <= s) rs.
Proof.
  induction 1 as [pos Hf|pos s e rs Hr Hrs [IH1 IH2]]; [by repeat constructor|]. pose proof (run_order _ _ _ Hr). split.
  - constructor; [done|]. eapply Forall_impl; [|exact IH2]. cbv beta. intros r (q & s' & e' & -> & Hr' & Hle). by eapply run_before.
  - constructor; [exists pos, s, e; split_and!; [done..|lia]|]. eapply Forall_impl; [|exact IH2]. cbv beta. intros r (q & s' & e' & -> & Hr' & Hle). exists q, s', e'. split_and!; [done..|lia].
Qed.

End Runs.

Lemma all_runs_spec m : bitmap_ok m -> exists rs, all_runs m = Ok rs /\ runs_from (_bits m) (_sz m) 0 rs.
Proof.
  intros B. pose proof (bm_size _ B) as Hs. pose proof Hs as [Hw Hh Ha _]. pose proof (bm_number _ B) as Hn.
  set (N := width (_sz m) * height (_sz m)) in *.
  unfold all_runs, iterator_new. cbv zeta. rewrite !iterator_end_ok, area_ok by done. cbn [bindR]. fold N.
  destruct (calculate_area_spec (_bits m) (_sz m) (bm_bits _ B) Hs Hn N) as [[_ EN]|(s & e & Hr & _)]; [nia| |].
  2:{ pose proof (run_order _ _ _ _ _ Hr). lia. }
  fold N in EN. rewrite EN. cbn [bindR bi_pos].
  assert (H0 : exists it, _calculateArea (_bits m) (rect_of_size (_sz m)) N 0 = Ok it).
  { destruct (calculate_area_spec (_bits m) (_sz m) (bm_bits _ B) Hs Hn 0) as [[_ E]|(s & e & _ & E)]; [nia|eauto..]. }
  destruct H0 as [it E0]. rewrite E0. cbn [bindR].
  apply (collect_spec (_bits m) (_sz m) (bm_bits _ B) Hs Hn (Z.to_nat N) 0); [nia|lia|lia|done].
Qed.

(** ** Changes of the set *)

(** The computation succeeds, and the cells of the screen that are set afterwards are
    given by [f]. *)
Definition paints (c : BM unit) (m : bitmap) (f : point -> bool) : Prop :=
  exists m', c m = (m', Ok tt) /\ bitmap_ok m' /\ _sz m' = _sz m /\
    forall p, contains (rect_of_size (_sz m)) p = true -> dirty m' p = f p.

Lemma paints_ret m : bitmap_ok m -> paints (ret tt) m (dirty m).
Proof. intros B. by exists m. Qed.

Lemma paints_bind c1 c2 m f g :
  paints c1 m f ->
  (forall m', bitmap_ok m' -> _sz m' = _sz m -> (forall p, contains (rect_of_size (_sz m)) p = true -> dirty m' p = f p) -> paints c2 m' g) ->
  paints (c1 ;; c2) m g.
Proof.
  intros (m1 & E1 & B1 & S1 & D1) H2. destruct (H2 m1 B1 S1 D1) as (m2 & E2 & B2 & S2 & D2).
  exists m2. unfold bind. rewrite E1. split_and!; [done..|congruence|]. intros p Hp. apply D2. by rewrite S1.
Qed.

Lemma paints_ext c m f g : paints c m f -> (forall p, contains (rect_of_size (_sz m)) p = true -> f p = g p) -> paints c m g.
Proof. intros (m' & E & B & S & D) Hfg. exists m'. split_and!; [done..|]. intros p Hp. by rewrite D, Hfg. Qed.

Lemma dirty_bit m p : bitmap_ok m -> contains (rect_of_size (_sz m)) p = true -> dirty m p = bit (_bits m) (cell_index m p).
Proof. intros B Hp. unfold dirty. by rewrite (bm_rc _ B), Hp. Qed.

Lemma cell_index_range m p : bitmap_ok m -> contains (rect_of_size (_sz m)) p = true -> 0 <= cell_index m p < m_bits_number (_bits m).
Proof. intros B Hp. rewrite (bm_number _ B). by apply (screen_index (_sz m) p (bm_size _ B)). Qed.

(** An operation on the bits, with the cache dropped before or after it. *)
Lemma paints_bits (c : BS unit) m f g :
  bitmap_ok m -> _runs m = None -> changes c (_bits m) f ->
  (forall p, contains (rect_of_size (_sz m)) p = true -> f (cell_index m p) = g p) ->
  exists m', on_bits c m = (m', Ok tt) /\ bitmap_ok m' /\ _sz m' = _sz m /\ _runs m' = None /\
    forall p, contains (rect_of_size (_sz m)) p = true -> dirty m' p = g p.
Proof.
  intros B Hr (b' & E & B' & N & F) Hg. exists (set_bits b' m). unfold on_bits. rewrite E.
  assert (Bm : bitmap_ok (set_bits b' m)).
  { split; cbn; [apply B|apply B|done|rewrite N; apply B|]. intros rs. by rewrite Hr. }
  split_and!; [done..|]. intros p Hp. rewrite dirty_bit by done. rewrite <- Hg by done. apply F. by apply cell_index_range.
Qed.

Lemma drop_cache m : bitmap_ok m -> bitmap_ok (set_runs None m) /\ _runs (set_runs None m) = None /\
  forall p, dirty (set_runs None m) p = dirty m p.
Proof. intros B. split_and!; [|done..]. split; try apply B. done. Qed.

Lemma paints_dropped c m f g :
  bitmap_ok m -> changes c (_bits m) f ->
  (forall p, contains (rect_of_size (_sz m)) p = true -> f (cell_index m p) = g p) ->
  paints (modify (set_runs None) ;; on_bits c) m g.
Proof.
  intros B Hc Hg. destruct (drop_cache m B) as (B' & Hr & _).
  destruct (paints_bits c (set_runs None m) f g B' Hr Hc Hg) as (m' & E & R & S & _ & D). by exists m'.
Qed.

Lemma set_all_paints m : bitmap_ok m -> paints set_all m (fun _ => true).
Proof. intros B. eapply paints_dropped; [done|apply set_all_changes, B|done]. Qed.

Lemma reset_all_paints m : bitmap_ok m -> paints reset_all m (fun _ => false).
Proof. intros B. eapply paints_dropped; [done|apply reset_all_changes, B|done]. Qed.

(** Cells of the screen are determined by their index. *)
Lemma cell_index_inj m p q : bitmap_ok m -> contains (rect_of_size (_sz m)) p = true -> contains (rect_of_size (_sz m)) q = true ->
  cell_index m p = cell_index m q -> p = q.
Proof.
  intros B Hp Hq E. apply contains_spec in Hp, Hq. cbn in Hp, Hq. unfold cell_index in E. destruct p as [px py], q as [qx qy]. cbn in *.
  assert (py = qy) by nia. subst. f_equal. lia.
Qed.

Lemma set_point_paints m pt : bitmap_ok m -> contains (rect_of_size (_sz m)) pt = true ->
  paints (set_point pt) m (fun p => bool_decide (p = pt) || dirty m p).
Proof.
  intros B Hpt. destruct (screen_index _ _ (bm_size _ B) Hpt) as [Ei Hi].
  assert (Hc : changes (set_bit (cell_index m pt) true) (_bits m) (fun i => if i =? cell_index m pt then true else bit (_bits m) i)).
  { apply set_bit_changes; [apply B|]. by apply cell_index_range. }
  destruct (paints_dropped _ m _ (fun p => bool_decide (p = pt) || dirty m p) B Hc) as (m' & E & R).
  - intros p Hp. rewrite dirty_bit by done. case_bool_decide as Hd; [subst; by rewrite Z.eqb_refl|].
    destruct (Z.eqb_spec (cell_index m p) (cell_index m pt)) as [Ec|]; [|done]. by apply (cell_index_inj m p pt B) in Ec.
  - exists m'. split; [|exact R]. unfold set_point. unfold bind, get. rewrite (bm_rc _ B), Hpt. cbn [negb].
    unfold bind, modify, read in E |- *. by rewrite Ei.
Qed.

(** A rectangle of cells, or none. *)
Definition drawn (r : rect) : Prop := rect_bool r = true \/ r = rect_default.

(** The row of an index. *)
Lemma same_row w a b row yp xp : 0 <= xp < w -> 0 <= a -> b <= w -> row * w + a <= yp * w + xp < row * w + b -> yp = row.
Proof.
  intros Hx Ha Hb Hi. destruct (Z.lt_trichotomy yp row) as [Hlt|[->|Hgt]]; [|done|].
  - assert ((yp + 1) * w <= row * w) by (apply Z.mul_le_mono_nonneg_r; lia). lia.
  - assert ((row + 1) * w <= yp * w) by (apply Z.mul_le_mono_nonneg_r; lia). lia.
Qed.

Lemma row_paints m r row : bitmap_ok m -> _runs m = None -> contains_rect (rect_of_size (_sz m)) r = true -> rect_bool r = true ->
  top r <= row < bottom r ->
  exists m', set_row (rect_of_size (_sz m)) r row m = (m', Ok tt) /\ bitmap_ok m' /\ _sz m' = _sz m /\ _runs m' = None /\
    forall p, contains (rect_of_size (_sz m)) p = true -> dirty m' p = contains (Rect (left r) row (right r) (row + 1)) p || dirty m p.
Proof.
  intros B Hr Hin Hb Hrow. apply rect_bool_spec in Hb. unfold contains_rect in Hin. cbn in Hin. bool_prop.
  pose proof (bm_size _ B) as [Hw Hh Ha _]. unfold INT_MAX in *.
  destruct (screen_index (_sz m) (Point (left r) row) (bm_size _ B)) as [Ei Hi]; [apply contains_spec; cbn; lia|]. cbn [x y] in Ei, Hi.
  unfold set_row, bind, read. rewrite Ei. unfold rect_width, CheckSub. rewrite checked_ok by (unfold is_int, INT_MIN, INT_MAX; lia).
  rewrite wrapu_small by lia.
  eapply paints_bits; [done..|apply set_range_changes; [apply B|lia|lia|rewrite (bm_number _ B); nia]|].
  intros p Hp. cbv beta. rewrite <- dirty_bit by done. apply contains_spec in Hp. cbn in Hp. unfold cell_index.
  replace ((row * width (_sz m) + left r <=? y p * width (_sz m) + x p) && (y p * width (_sz m) + x p <? row * width (_sz m) + left r + (right r - left r)))
    with (contains (Rect (left r) row (right r) (row + 1)) p); [by destruct (contains _ p)|].
  apply eq_true_iff_eq. rewrite andb_true_iff, Z.leb_le, Z.ltb_lt, contains_spec. cbn. split.
  - intros [Hx Hy]. assert (y p = row) as -> by lia. lia.
  - intros [Hlo Hhi]. assert (y p = row) as Hy; [|rewrite Hy in *; lia].
    apply (same_row (width (_sz m)) (left r) (right r) row _ (x p)); lia.
Qed.

Lemma rows_paint r m : bitmap_ok m -> _runs m = None -> contains_rect (rect_of_size (_sz m)) r = true -> rect_bool r = true ->
  forall n : nat, Z.of_nat n <= bottom r - top r ->
  exists m', iterM (set_row (rect_of_size (_sz m)) r) (seqZ (top r) (Z.of_nat n)) m = (m', Ok tt) /\
    bitmap_ok m' /\ _sz m' = _sz m /\ _runs m' = None /\
    forall p, contains (rect_of_size (_sz m)) p = true ->
      dirty m' p = contains (Rect (left r) (top r) (right r) (top r + Z.of_nat n)) p || dirty m p.
Proof.
  intros B Hr Hin Hb. induction n as [|n IH]; intros Hn.
  - exists m. split_and!; [done..|]. intros p Hp. unfold contains at 1. cbn. by destruct (left r <=? x p), (x p <? right r), (Z.leb_spec (top r) (y p)), (Z.ltb_spec (y p) (top r + 0)); try lia.
  - destruct IH as (m1 & E1 & B1 & S1 & R1 & D1); [lia|].
    destruct (row_paints m1 r (top r + Z.of_nat n) B1 R1) as (m2 & E2 & B2 & S2 & R2 & D2); [by rewrite S1|done|lia|].
    exists m2. rewrite seqZ_S, iterM_app. unfold bind at 1. rewrite E1. cbn [iterM]. rewrite S1 in E2. unfold bind. rewrite E2.
    split_and!; [done..|congruence|done|]. intros p Hp. rewrite D2 by (by rewrite S1). rewrite D1 by done.
    rewrite orb_assoc. f_equal. unfold contains. cbn. lia.
Qed.

Lemma set_rect_paints m r : bitmap_ok m -> contains_rect (rect_of_size (_sz m)) r = true -> drawn r ->
  paints (set_rect r) m (fun p => contains r p || dirty m p).
Proof.
  intros B Hin Hd. destruct (drop_cache m B) as (B0 & R0 & D0).
  unfold paints, set_rect, bind, get, modify. rewrite (bm_rc _ B), Hin. cbn [negb]. destruct Hd as [Hb| ->].
  - destruct (rows_paint r (set_runs None m) B0 R0 Hin Hb (Z.to_nat (bottom r - top r))) as (m' & E & B' & S' & _ & D1); [apply rect_bool_spec in Hb; lia|].
    apply rect_bool_spec in Hb. rewrite Z2Nat.id in E, D1 by lia. exists m'. split_and!; [done..|]. intros p Hp. rewrite D1, D0 by done. f_equal.
    unfold contains. cbn. f_equal. f_equal. lia.
  - exists (set_runs None m). split_and!; [done..|]. intros p Hp. rewrite D0. unfold contains. cbn. lia.
Qed.

Lemma set_rect_outside m r : contains_rect (_rc m) r = false -> set_rect r m = (m, Throw StdException).
Proof. intros E. unfold set_rect, bind, get. by rewrite E. Qed.

Lemma set_point_outside m p : contains (_rc m) p = false -> set_point p m = (m, Throw StdException).
Proof. intros E. unfold set_point, bind, get. by rewrite E. Qed.

(** ** Moving *)

Definition minus (p q : point) : point := Point (x p - x q) (y p - y q).

(** The set moved by [delta]; what was not on the screen is [fill]. *)
Definition moved (sz : size) (f : point -> bool) (delta : point) (fill : bool) (p : point) : bool :=
  if contains (rect_of_size sz) (minus p delta) then f (minus p delta) else fill.

Lemma changes_bind c1 c2 b f g :
  changes c1 b f ->
  (forall b', bitset_ok b' -> m_bits_number b' = m_bits_number b -> (forall i, 0 <= i < m_bits_number b -> bit b' i = f i) -> changes c2 b' g) ->
  changes (c1 ;; c2) b g.
Proof.
  intros (b1 & E1 & B1 & N1 & F1) H2. destruct (H2 b1 B1 N1 F1) as (b2 & E2 & B2 & N2 & F2).
  exists b2. unfold bind. rewrite E1. split_and!; [done..|congruence|]. intros i Hi. apply F2. by rewrite N1.
Qed.

Lemma changes_when (fill : bool) c b f : bitset_ok b -> changes c b f ->
  changes (if fill then c else ret tt) b (fun i => if fill then f i else bit b i).
Proof. intros B Hc. destruct fill; [done|]. by exists b. Qed.

Lemma changes_ext c b f g : changes c b f -> (forall i, 0 <= i < m_bits_number b -> f i = g i) -> changes c b g.
Proof. intros (b' & E & B & N & F) Hfg. exists b'. split_and!; [done..|]. intros i Hi. by rewrite F, Hfg. Qed.

(** A shift by [d] bits with the new bits filled. *)
Lemma shift_fill_changes b d (fill leftwards : bool) : bitset_ok b -> 0 <= d <= m_bits_number b ->
  changes ((if leftwards then shift_left d else shift_right d) ;;
           if fill then (if leftwards then set_range 0 d true else set_range (m_bits_number b - d) d true) else ret tt) b
    (fun i => let j := if leftwards then i - d else i + d in if (0 <=? j) && (j <? m_bits_number b) then bit b j else fill).
Proof.
  intros B Hd. destruct leftwards; cbv zeta.
  - eapply changes_bind; [apply shift_left_changes; [done|lia]|]. intros b1 B1 N1 F1.
    eapply changes_ext; [apply changes_when; [done|]; apply set_range_changes; [done|lia..]|]. rewrite N1.
    intros i Hi. cbv beta. rewrite F1 by done. destruct fill, (Z.leb_spec 0 i), (Z.ltb_spec i (0 + d)), (Z.ltb_spec i d), (Z.leb_spec 0 (i - d)), (Z.ltb_spec (i - d) (m_bits_number b)); try lia; done.
  - eapply changes_bind; [apply shift_right_changes; [done|lia]|]. intros b1 B1 N1 F1.
    eapply changes_ext; [apply changes_when; [done|]; apply set_range_changes; [done|lia..]|]. rewrite N1.
    intros i Hi. cbv beta. rewrite F1 by done. destruct fill, (Z.leb_spec (m_bits_number b - d) i), (Z.ltb_spec i (m_bits_number b - d + d)), (Z.ltb_spec (i + d) (m_bits_number b)), (Z.leb_spec 0 (i + d)); try lia; done.
Qed.

Lemma translate_y_paints m dy fill : bitmap_ok m -> paints (translate_y dy fill) m (moved (_sz m) (dirty m) (Point 0 dy) fill).
Proof.
  intros B. pose proof (bm_size _ B) as [Hw Hh Ha _]. pose proof (bm_number _ B) as Hn. set (w := width (_sz m)) in *. set (h := height (_sz m)) in *.
  unfold translate_y. destruct (Z.eqb_spec dy 0) as [->|Hne].
  { eapply paints_ext; [by apply paints_ret|]. intros [px py] Hp. unfold moved, minus. cbn. rewrite !Z.sub_0_r. by rewrite Hp. }
  assert (Hmoved : forall p, contains (rect_of_size (_sz m)) p = true ->
    contains (rect_of_size (_sz m)) (minus p (Point 0 dy)) = (0 <=? cell_index m p - dy * w) && (cell_index m p - dy * w <? w * h)).
  { intros [px py] Hp. apply contains_spec in Hp. cbn in Hp. fold w h in Hp. apply eq_true_iff_eq. rewrite andb_true_iff, Z.leb_le, Z.ltb_lt, contains_spec.
    unfold minus, cell_index. cbn. fold w h. rewrite Z.sub_0_r. split; [intros [? Hy]; nia|]. intros [Hlo Hhi]. split; [lia|].
    split; [destruct (Z.leb_spec 0 (py - dy)); [done|nia]|destruct (Z.ltb_spec (py - dy) h); [done|nia]]. }
  cut (paints (if m_bits_number (_bits m) <=? Z.abs (dy * w) then (if fill then set_all else reset_all)
    else on_bits (if 0 <? dy * w then shift_left (Z.abs (dy * w)) else shift_right (Z.abs (dy * w))) ;;
      (if fill then on_bits (if 0 <? dy * w then set_range 0 (Z.abs (dy * w)) true
        else set_range (m_bits_number (_bits m) - Z.abs (dy * w)) (Z.abs (dy * w)) true) else ret tt) ;;
      modify (set_runs None)) m (moved (_sz m) (dirty m) (Point 0 dy) fill)); [done|].
  rewrite Hn. destruct (Z.leb_spec (w * h) (Z.abs (dy * w))) as [Hall|Hpart].
  - assert (Hout : forall p, contains (rect_of_size (_sz m)) p = true -> moved (_sz m) (dirty m) (Point 0 dy) fill p = fill).
    { intros p Hp. unfold moved. rewrite Hmoved by done. pose proof (cell_index_range m p B Hp).
      destruct (Z.leb_spec 0 (cell_index m p - dy * w)), (Z.ltb_spec (cell_index m p - dy * w) (w * h)); try done. lia. }
    destruct fill; (eapply paints_ext; [first [by apply set_all_paints|by apply reset_all_paints]|]); intros p Hp; by rewrite Hout.
  - pose proof (shift_fill_changes (_bits m) (Z.abs (dy * w)) fill (0 <? dy * w) (bm_bits _ B) ltac:(lia)) as (b' & E & B' & N' & F).
    rewrite Hn in *. exists (set_runs None (set_bits b' m)).
    assert (Bm : bitmap_ok (set_runs None (set_bits b' m))).
    { split; cbn; [apply B|apply B|done|by rewrite N'|done]. }
    split_and!; [|done..|].
    + unfold bind, on_bits, modify in *. destruct ((if 0 <? dy * w then shift_left _ else shift_right _) (_bits m)) as [b1 [[]| | |]]; try done.
      destruct fill; [|unfold ret in E; by simplify_eq]. cbn [_bits set_bits].
      destruct ((if 0 <? dy * w then set_range 0 _ true else _) b1) as [b2 [[]| | |]]; simplify_eq. done.
    + intros p Hp. rewrite dirty_bit by done. change (cell_index _ p) with (cell_index m p). cbn [_bits set_runs set_bits].
      pose proof (cell_index_range m p B Hp). rewrite Hn in *. rewrite F by done. cbv zeta. unfold moved. rewrite Hmoved by done.
      assert (Ej : (if 0 <? dy * w then cell_index m p - Z.abs (dy * w) else cell_index m p + Z.abs (dy * w)) = cell_index m p - dy * w).
      { destruct (Z.ltb_spec 0 (dy * w)); lia. }
      rewrite Ej. destruct ((0 <=? _) && _) eqn:Er; [|done]. rewrite dirty_bit; [|done|by rewrite Hmoved].
      f_equal. unfold cell_index, minus. cbn. fold w. lia.
Qed.

(** Several rectangles. *)
Definition within (sz : size) (r : rect) : Prop := contains_rect (rect_of_size sz) r = true /\ drawn r.

Lemma set_rects_paint rs : forall m, bitmap_ok m -> Forall (within (_sz m)) rs ->
  paints (iterM set_rect rs) m (fun p => existsb (fun r => contains r p) rs || dirty m p).
Proof.
  induction rs as [|r rs IH]; intros m B Hrs; [by apply paints_ret|]. apply Forall_cons_iff in Hrs as [[Hin Hd] Hrs].
  cbn [iterM]. eapply paints_bind; [by apply set_rect_paints|]. intros m1 B1 S1 D1. eapply paints_ext; [apply IH; [done|by rewrite S1]|].
  rewrite S1. intros p Hp. rewrite D1 by done. cbn. by destruct (contains r p), (existsb _ rs).
Qed.

Lemma existsb_cover rs p : existsb (fun r => contains r p) rs = (0 <? cover rs p)%nat.
Proof.
  induction rs as [|r rs IH]; [done|]. cbn [existsb]. rewrite IH. change (r :: rs) with ([r] ++ rs). rewrite cover_app, cover_one.
  destruct (contains r p); cbn; [|done]. by destruct (cover rs p).
Qed.

Lemma screen_drawn sz : size_ok sz -> drawn (rect_of_size sz).
Proof.
  intros [Hw Hh Ha Hs]. destruct (Z.eq_dec (width sz) 0) as [E|E].
  - right. unfold rect_of_size. rewrite (proj1 Hs E), E. done.
  - left. apply rect_bool_spec. cbn. lia.
Qed.

Lemma minus_within sz other : size_ok sz -> Forall (within sz) (rect_minus (rect_of_size sz) other).
Proof.
  intros Hs. pose proof (screen_drawn sz Hs) as Hd. destruct Hs as [Hw Hh Ha _]. set (a := rect_of_size sz) in *.
  assert (Ha' : left a = 0 /\ top a = 0 /\ right a = width sz /\ bottom a = height sz) by done.
  assert (Hself : within sz a). { split; [|done]. unfold contains_rect, a. cbn. lia. }
  unfold rect_minus. destruct (empty (rect_and a other)) eqn:E; [by constructor|]. destruct (rect_and_inside a other E) as (I1 & I2 & I3 & I4 & I5).
  apply rect_bool_spec in I5. case_bool_decide; [|done]. rewrite !Forall_app.
  split_and!; case_if; constructor; try done; (split; [unfold contains_rect; cbn; lia|by left]).
Qed.

Lemma and_within sz r : size_ok sz -> within sz (rect_and r (rect_of_size sz)).
Proof.
  intros [Hw Hh Ha _]. unfold within, rect_and, drawn. cbn. repeat case_if; bool_prop.
  1,2: split; [unfold contains_rect; cbn; lia|by right].
  split; [unfold contains_rect; cbn; lia|left; apply rect_bool_spec; cbn; lia].
Qed.

(** A new bitmap, changed, in the place of the old one. *)
Lemma bitmap_new_ok sz fill : size_ok sz -> exists m, bitmap_new sz fill = Ok m /\ bitmap_ok m /\ _sz m = sz /\ _runs m = None /\
  forall p, contains (rect_of_size sz) p = true -> dirty m p = fill && (cell_index m p <? 64).
Proof.
  intros Hs. pose proof Hs as [Hw Hh Ha _]. unfold bitmap_new. rewrite area_ok by done. cbn [bindR].
  set (init := if fill then 2 ^ 64 - 1 else 0). assert (Hinit : is_block init) by (unfold init, is_block; destruct fill; lia).
  destruct (bitset_new_ok (width sz * height sz) init ltac:(nia) Hinit) as (b & E & B & Hn & F). rewrite E. cbn [bindR].
  eexists. split; [done|]. match goal with |- bitmap_ok ?m /\ _ => assert (Bm : bitmap_ok m) end.
  { split; cbn; [done..|congruence|done]. }
  split_and!; [done..|]. intros p Hp. rewrite dirty_bit by done. pose proof (cell_index_range _ p Bm Hp) as Hi. cbn [_bits] in *. set (i := cell_index _ p) in *.
  rewrite F by lia. unfold init. destruct (Z.ltb_spec i 64); [|by rewrite andb_false_r]. rewrite andb_true_r.
  destruct fill; [|apply Z.testbit_0_l]. change (2 ^ 64 - 1) with one_block. rewrite testbit_one_block by lia. lia.
Qed.

Lemma replace_paints sz c m f : size_ok sz -> (forall m0, bitmap_ok m0 -> _sz m0 = sz -> (forall p, contains (rect_of_size sz) p = true -> dirty m0 p = false) -> paints c m0 f) ->
  exists m', replace_by sz c m = (m', Ok tt) /\ bitmap_ok m' /\ _sz m' = sz /\ forall p, contains (rect_of_size sz) p = true -> dirty m' p = f p.
Proof.
  intros Hs Hc. destruct (bitmap_new_ok sz false Hs) as (m0 & E0 & B0 & S0 & _ & D0).
  destruct (Hc m0 B0 S0) as (m' & E & B' & S' & D'); [intros p Hp; by rewrite D0|].
  exists m'. unfold replace_by. rewrite E0, E. split_and!; [done..|congruence|]. intros p Hp. apply D'. by rewrite S0.
Qed.

(** A distance that keeps the coordinates of the screen in the range of integers. *)
Definition delta_ok (sz : size) (d : point) : Prop :=
  is_int (x d) /\ is_int (y d) /\ is_int (width sz + x d) /\ is_int (height sz + y d).

Lemma rect_moved sz r d : size_ok sz -> contains_rect (rect_of_size sz) r = true -> left r <= right r -> top r <= bottom r -> delta_ok sz d ->
  rect_add_point r d = Ok (Rect (left r + x d) (top r + y d) (right r + x d) (bottom r + y d)).
Proof.
  intros [Hw Hh Ha _] Hin Hlr Htb (D1 & D2 & D3 & D4). unfold contains_rect in Hin. cbn in Hin. bool_prop. unfold is_int, INT_MIN, INT_MAX in *.
  unfold rect_add_point, on_corners, CheckAdd. rewrite !checked_ok by (unfold is_int, INT_MIN, INT_MAX; lia). done.
Qed.

Lemma run_within values sz pos s e : size_ok sz -> is_run values sz pos s e ->
  contains_rect (rect_of_size sz) (run_rect sz s e) = true /\ rect_bool (run_rect sz s e) = true.
Proof.
  intros Hs Hr. pose proof (run_order _ _ _ _ _ Hr). pose proof (run_row _ _ _ _ _ Hr). destruct Hs as [Hw Hh Ha _].
  assert (Hpos : 0 < width sz) by nia. destruct (row_of_index sz s Hpos).
  assert (0 <= s / width sz) by (apply Z.div_pos; lia). assert (s / width sz < height sz) by (apply Z.div_lt_upper_bound; lia).
  split; [unfold contains_rect; cbn; lia|apply rect_bool_spec; cbn; lia].
Qed.

Lemma move_runs_paint sz d rs : size_ok sz -> delta_ok sz d -> Forall (fun r => contains_rect (rect_of_size sz) r = true /\ rect_bool r = true) rs ->
  forall m, bitmap_ok m -> _sz m = sz ->
  paints (move_runs (rect_of_size sz) d rs) m (fun p => existsb (fun r => contains r (minus p d)) rs || dirty m p).
Proof.
  intros Hs Hd. induction rs as [|r rs IH]; intros Hrs m B Hm; [by apply paints_ret|]. apply Forall_cons_iff in Hrs as [[Hin Hb] Hrs].
  apply rect_bool_spec in Hb. cbn [move_runs].
  set (r' := Rect (left r + x d) (top r + y d) (right r + x d) (bottom r + y d)).
  assert (Er : rect_add_point r d = Ok r') by (eapply rect_moved; [done..|lia|lia|done]).
  destruct (and_within sz r' Hs) as [Hin' Hd'].
  cut (paints (set_rect (rect_and r' (rect_of_size sz)) ;; move_runs (rect_of_size sz) d rs) m (fun p => existsb (fun r => contains r (minus p d)) (r :: rs) || dirty m p)).
  { unfold paints, bind at 2, read. by rewrite Er. }
  eapply paints_bind; [apply set_rect_paints; [done|by rewrite Hm|done]|]. intros m1 B1 S1 D1. eapply paints_ext; [apply IH; [done..|congruence]|].
  rewrite S1. intros p Hp. rewrite D1 by done. rewrite rect_and_contains. rewrite Hm in Hp. rewrite Hp, andb_true_r.
  assert (Ec : contains r' p = contains r (minus p d)) by (unfold contains, minus, r'; cbn; lia). rewrite Ec. cbn [existsb].
  by destruct (contains r (minus p d)), (existsb _ rs).
Qed.

Lemma runs_dirty m rs : bitmap_ok m -> runs_from (_bits m) (_sz m) 0 rs -> forall p, cover rs p = Nat.b2n (dirty m p).
Proof.
  intros B Hr p. rewrite (runs_cover (_bits m) (_sz m) (bm_size _ B) 0 rs p Hr). unfold dirty. rewrite (bm_rc _ B).
  f_equal. destruct (contains (rect_of_size (_sz m)) p) eqn:Ec; [|done]. pose proof (cell_index_range m p B Ec).
  change (point_index (_sz m) p) with (cell_index m p). cbn [andb]. by destruct (Z.leb_spec 0 (cell_index m p)); [|lia].
Qed.

Lemma runs_all_within m rs : bitmap_ok m -> runs_from (_bits m) (_sz m) 0 rs ->
  Forall (fun r => contains_rect (rect_of_size (_sz m)) r = true /\ rect_bool r = true) rs.
Proof.
  intros B Hr. destruct (runs_sorted (_bits m) (_sz m) (bm_size _ B) 0 rs Hr) as [_ Hf].
  eapply Forall_impl; [|exact Hf]. intros r (q & s & e & -> & Hrun & _). eapply run_within; [apply B|done].
Qed.

Lemma translate_paints m d fill : bitmap_ok m -> delta_ok (_sz m) d -> paints (translate d fill) m (moved (_sz m) (dirty m) d fill).
Proof.
  intros B Hd. unfold translate. destruct (Z.eqb_spec (x d) 0) as [E0|E0].
  { destruct d as [dx dy]. cbn in *. subst dx. by apply translate_y_paints. }
  destruct (all_runs_spec m B) as (rs & Ers & Hruns). pose proof (runs_dirty m rs B Hruns) as Hcov. pose proof (bm_size _ B) as Hs.
  destruct (replace_paints (_sz m) (move_runs (rect_of_size (_sz m)) d rs ;;
      if fill then translatedRect <- read (fun _ => rect_add_point (rect_of_size (_sz m)) d) ;; iterM set_rect (rect_minus (rect_of_size (_sz m)) translatedRect)
      else ret tt) m (moved (_sz m) (dirty m) d fill) Hs) as (m' & E & B' & S' & D').
  - intros m0 B0 S0 D0. eapply paints_bind; [apply move_runs_paint; [done..|by apply runs_all_within|done|done]|].
    intros m1 B1 S1 D1. rewrite S0 in S1, D1.
    assert (Hmove : forall p, contains (rect_of_size (_sz m)) p = true -> dirty m1 p = dirty m (minus p d)).
    { intros p Hp. rewrite D1, D0, orb_false_r, existsb_cover, Hcov by done. by destruct (dirty m (minus p d)). }
    assert (Hout : forall p, contains (rect_of_size (_sz m)) (minus p d) = false -> dirty m (minus p d) = false).
    { intros p Hp. unfold dirty. by rewrite (bm_rc _ B), Hp. }
    destruct fill.
    + set (t := Rect (x d) (y d) (width (_sz m) + x d) (height (_sz m) + y d)).
      assert (Et : rect_add_point (rect_of_size (_sz m)) d = Ok t).
      { destruct (bm_size _ B) as [Hw Hh Ha _]. erewrite rect_moved; [done|done| |cbn; lia..|done]. unfold contains_rect. cbn. lia. }
      cut (paints (iterM set_rect (rect_minus (rect_of_size (_sz m)) t)) m1 (moved (_sz m) (dirty m) d true)).
      { unfold paints, bind, read. by rewrite Et. }
      eapply paints_ext; [apply set_rects_paint; [done|rewrite S1; by apply minus_within]|]. rewrite S1. intros p Hp. rewrite Hmove by done.
      destruct (bm_size _ B) as [Hw Hh Ha _]. rewrite existsb_cover, rect_minus_cover by (cbn; lia). rewrite Hp. cbn [andb]. unfold moved.
      assert (Ec : contains t p = contains (rect_of_size (_sz m)) (minus p d)) by (unfold contains, t, minus; cbn; lia). rewrite Ec.
      destruct (contains (rect_of_size (_sz m)) (minus p d)) eqn:Ec'; done.
    + eapply paints_ext; [by apply paints_ret|]. rewrite S1. intros p Hp. rewrite Hmove by done. unfold moved.
      destruct (contains (rect_of_size (_sz m)) (minus p d)) eqn:Ec'; [done|]. by apply Hout.
  - exists m'. split_and!; [|done..]. rewrite <- E. unfold bind, get, read. by rewrite Ers, (bm_rc _ B).
Qed.

(** ** Resizing *)

Definition resized (old : size) (f : point -> bool) (fill : bool) (p : point) : bool :=
  if contains (rect_of_size old) p then f p else fill.

Lemma set_clipped_paint sz rs : size_ok sz -> forall m, bitmap_ok m -> _sz m = sz -> Forall (fun r => rect_bool r = true) rs ->
  paints (iterM (fun run => let intersect := rect_and run (rect_of_size sz) in if negb (empty intersect) then set_rect intersect else ret tt) rs) m
    (fun p => existsb (fun r => contains r p) rs || dirty m p).
Proof.
  intros Hs. induction rs as [|r rs IH]; intros m B Hm Hrs; [by apply paints_ret|]. apply Forall_cons_iff in Hrs as [Hb Hrs].
  destruct (and_within sz r Hs) as [Hin Hd]. cbn [iterM]. cbv zeta.
  apply paints_bind with (fun p => contains r p || dirty m p).
  - destruct (empty (rect_and r (rect_of_size sz))) eqn:Ee; cbn [negb].
    + eapply paints_ext; [by apply paints_ret|]. rewrite Hm. intros p Hp. apply rect_bool_spec in Hb.
      pose proof (rect_and_empty r (rect_of_size sz) p ltac:(lia) ltac:(lia) Ee) as Hr. rewrite Hp, andb_true_r in Hr. by rewrite Hr.
    + eapply paints_ext; [apply set_rect_paints; [done|by rewrite Hm|done]|]. rewrite Hm. intros p Hp. by rewrite rect_and_contains, Hp, andb_true_r.
  - intros m1 B1 S1 D1. eapply paints_ext; [apply IH; [done|congruence|done]|]. rewrite S1. intros p Hp. rewrite D1 by done. cbn [existsb].
    by destruct (contains r p), (existsb _ rs).
Qed.

Lemma resize_ok m sz fill : bitmap_ok m -> size_ok sz ->
  exists m', resize sz fill m = (m', Ok (bool_decide (_sz m <> sz))) /\ bitmap_ok m' /\ _sz m' = sz /\
    forall p, contains (rect_of_size sz) p = true -> dirty m' p = resized (_sz m) (dirty m) fill p.
Proof.
  intros B Hs. destruct (drop_cache m B) as (B0 & R0 & D0). unfold resize, bind, modify, get. cbn [_sz set_runs].
  case_bool_decide as Hne.
  - destruct (all_runs_spec _ B0) as (rs & Ers & Hruns). pose proof (runs_dirty _ rs B0 Hruns) as Hcov. pose proof (runs_all_within _ rs B0 Hruns) as Hwi.
    unfold read. rewrite Ers. cbn [_rc set_runs]. rewrite (bm_rc _ B).
    match goal with |- context [replace_by sz ?c ?m0] => destruct (replace_paints sz c m0 (resized (_sz m) (dirty m) fill) Hs) as (m' & E & B' & S' & D') end.
    + intros m0 Bm0 S0 Z0.
      change (paints (iterM (fun run => let intersect := rect_and run (rect_of_size sz) in if negb (empty intersect) then set_rect intersect else ret tt) rs ;;
        if fill then iterM set_rect (rect_minus (rect_of_size sz) (rect_of_size (_sz m))) else ret tt) m0 (resized (_sz m) (dirty m) fill)).
      eapply paints_bind; [apply set_clipped_paint; [done..|]; eapply Forall_impl; [|exact Hwi]; by intros r []|].
      intros m1 B1 S1 D1. rewrite S0 in S1, D1.
      assert (Hkeep : forall p, contains (rect_of_size sz) p = true -> dirty m1 p = dirty m p).
      { intros p Hp. rewrite D1, Z0, orb_false_r, existsb_cover, Hcov, D0 by done. by destruct (dirty m p). }
      assert (Hout : forall p, contains (rect_of_size (_sz m)) p = false -> dirty m p = false).
      { intros p Hp. unfold dirty. by rewrite (bm_rc _ B), Hp. }
      destruct fill.
      * eapply paints_ext; [apply set_rects_paint; [done|rewrite S1; by apply minus_within]|]. rewrite S1. intros p Hp. rewrite Hkeep by done.
        rewrite existsb_cover, rect_minus_cover by done. rewrite Hp. cbn [andb]. unfold resized.
        destruct (contains (rect_of_size (_sz m)) p) eqn:Ec; done.
      * eapply paints_ext; [by apply paints_ret|]. rewrite S1. intros p Hp. rewrite Hkeep by done. unfold resized.
        destruct (contains (rect_of_size (_sz m)) p) eqn:Ec; [done|]. by apply Hout.
    + exists m'. unfold bind, read in E. rewrite E. by split_and!.
  - exists (set_runs None m). subst sz. split_and!; [done..|]. intros p Hp. rewrite D0. unfold resized. by rewrite Hp.
Qed.

(** ** Queries *)

Lemma runs_ok m : bitmap_ok m -> exists m' rs, runs m = (m', Ok rs) /\ bitmap_ok m' /\ _sz m' = _sz m /\ _bits m' = _bits m /\
  runs_from (_bits m) (_sz m) 0 rs.
Proof.
  intros B. destruct (all_runs_spec m B) as (rs & Ers & Hr). unfold runs, bind, get. destruct (_runs m) as [rs'|] eqn:Ec.
  - pose proof (bm_cache _ B rs' Ec). exists m, rs. split_and!; [|done..]. unfold ret. congruence.
  - exists (set_runs (Some rs) m), rs. unfold read, modify, ret. rewrite Ers. split_and!; [done| |done..].
    split; try apply B. intros rs' [= <-]. exact Ers.
Qed.

Lemma cell_of_index m i : bitmap_ok m -> 0 <= i < m_bits_number (_bits m) -> exists p, contains (rect_of_size (_sz m)) p = true /\ cell_index m p = i.
Proof.
  intros B Hi. rewrite (bm_number _ B) in Hi. destruct (screen_point (_sz m) i (bm_size _ B) Hi) as (Hw & _ & Hx & Hy).
  exists (Point (i mod width (_sz m)) (i / width (_sz m))). split; [apply contains_spec; cbn; lia|]. unfold cell_index. cbn.
  pose proof (Z.div_mod i (width (_sz m)) ltac:(lia)). lia.
Qed.

Lemma any_ok m : bitmap_ok m -> any m = true <-> exists p, contains (rect_of_size (_sz m)) p = true /\ dirty m p = true.
Proof.
  intros B. unfold any, none, Bitset.none. rewrite negb_involutive, (any_spec _ (bm_bits _ B)). split.
  - intros (i & Hi & Hb). destruct (cell_of_index m i B Hi) as (p & Hp & <-). exists p. split; [done|]. by rewrite dirty_bit.
  - intros (p & Hp & Hd). exists (cell_index m p). split; [by apply cell_index_range|]. by rewrite <- dirty_bit.
Qed.

Lemma all_ok m : bitmap_ok m -> exists r, all m = Ok r /\ (r = true <-> forall p, contains (rect_of_size (_sz m)) p = true -> dirty m p = true).
Proof.
  intros B. destruct (all_spec _ (bm_bits _ B)) as (r & E & Hr). exists r. split; [done|]. rewrite Hr. split.
  - intros Hb p Hp. rewrite dirty_bit by done. apply Hb. by apply cell_index_range.
  - intros Hd i Hi. destruct (cell_of_index m i B Hi) as (p & Hp & <-). rewrite <- dirty_bit by done. by apply Hd.
Qed.

Lemma filter_one (f : Z -> bool) l : NoDup l -> length (List.filter f l) = 1%nat <-> exists a, a ∈ l /\ f a = true /\ forall b, b ∈ l -> f b = true -> b = a.
Proof.
  intros Hnd. assert (Hf : forall a, a ∈ List.filter f l <-> a ∈ l /\ f a = true) by (intros a; by rewrite !list_elem_of_In, List.filter_In).
  assert (Hnd' : NoDup (List.filter f l)) by (by apply NoDup_ListNoDup, List.NoDup_filter, NoDup_ListNoDup). split.
  - intros Hlen. destruct (List.filter f l) as [|a [|b l']] eqn:E; try done. exists a.
    assert (Ha : a ∈ l /\ f a = true) by (apply Hf; by left). split_and!; [apply Ha..|]. intros b Hb Hfb.
    assert (Hin : b ∈ [a]) by (by apply Hf). by apply list_elem_of_singleton in Hin.
  - intros (a & Ha & Hfa & Hu). assert (Hin : a ∈ List.filter f l) by (by apply Hf).
    destruct (List.filter f l) as [|c [|c' l']]; [by apply not_elem_of_nil in Hin|done|]. exfalso.
    assert (c = a) by (apply Hu; apply Hf; by left). assert (c' = a) by (apply Hu; apply Hf; right; by left).
    inversion_clear Hnd' as [|? ? Hn _]. apply Hn. subst. by left.
Qed.

Lemma one_ok m : bitmap_ok m -> exists r, one m = Ok r /\ (r = true <-> exists p, contains (rect_of_size (_sz m)) p = true /\ dirty m p = true /\
  forall q, contains (rect_of_size (_sz m)) q = true -> dirty m q = true -> q = p).
Proof.
  intros B. unfold one. rewrite (count_spec _ (bm_bits _ B)). eexists. split; [done|]. rewrite Z.eqb_eq. unfold bits_below.
  rewrite (Nat2Z.inj_iff _ 1), (filter_one _ _ (NoDup_seqZ _ _)). split.
  - intros (i & Hi%elem_of_seqZ & Hb & Hu). destruct (cell_of_index m i B ltac:(lia)) as (p & Hp & <-). exists p. split_and!; [done|by rewrite dirty_bit|].
    intros q Hq Hdq. apply (cell_index_inj m q p B Hq Hp). pose proof (cell_index_range m q B Hq). apply Hu; [apply elem_of_seqZ; lia|by rewrite <- dirty_bit].
  - intros (p & Hp & Hd & Hu). pose proof (cell_index_range m p B Hp). exists (cell_index m p). split_and!; [apply elem_of_seqZ; lia|by rewrite <- dirty_bit|].
    intros j Hj%elem_of_seqZ Hb. destruct (cell_of_index m j B ltac:(lia)) as (q & Hq & <-). f_equal. apply Hu; [done|by rewrite dirty_bit].
Qed.

(** ** A bitmap is a set of cells *)

Inductive bitmap_op :=
| SetPoint (p : point)
| SetRect (r : rect)
| SetAll
| ResetAll
| Translate (d : point) (fill : bool)
| Resize (sz : size) (fill : bool)
| GetRuns.

Definition run_op (op : bitmap_op) : BM unit :=
  match op with
  | SetPoint p => set_point p
  | SetRect r => set_rect r
  | SetAll => set_all
  | ResetAll => reset_all
  | Translate d fill => translate d fill
  | Resize sz fill => resize sz fill ;; ret tt
  | GetRuns => runs ;; ret tt
  end.

(** The specification: a screen of some size and a set of cells, with no representation. *)
Record region := mkRegion { rg_size : size; rg_cells : point -> bool }.

Definition on_cells (g : region) (f : point -> bool) : region * Result unit := (mkRegion (rg_size g) f, Ok tt).

Definition region_step (op : bitmap_op) (g : region) : region * Result unit :=
  let scr := rect_of_size (rg_size g) in
  match op with
  | SetPoint p => if contains scr p then on_cells g (fun q => bool_decide (q = p) || rg_cells g q) else (g, Throw StdException)
  | SetRect r => if contains_rect scr r then on_cells g (fun q => contains r q || rg_cells g q) else (g, Throw StdException)
  | SetAll => on_cells g (fun _ => true)
  | ResetAll => on_cells g (fun _ => false)
  | Translate d fill => on_cells g (moved (rg_size g) (rg_cells g) d fill)
  | Resize sz fill => (mkRegion sz (resized (rg_size g) (rg_cells g) fill), Ok tt)
  | GetRuns => (g, Ok tt)
  end.

(** Rectangles that are drawn, distances and sizes in the range of integers. *)
Definition op_ok (sz : size) (op : bitmap_op) : Prop :=
  match op with
  | SetRect r => drawn r
  | Translate d _ => delta_ok sz d
  | Resize sz _ => size_ok sz
  | _ => True
  end.

Fixpoint ops_ok (sz : size) (ops : list bitmap_op) : Prop :=
  match ops with
  | [] => True
  | op :: ops => op_ok sz op /\ ops_ok (match op with Resize sz _ => sz | _ => sz end) ops
  end.

(** A caller that goes on after an exception. *)
Fixpoint run_ops (ops : list bitmap_op) (m : bitmap) : bitmap * list (Result unit) :=
  match ops with
  | [] => (m, [])
  | op :: ops => let '(m, r) := run_op op m in let '(m, rs) := run_ops ops m in (m, r :: rs)
  end.

Fixpoint region_steps (ops : list bitmap_op) (g : region) : region * list (Result unit) :=
  match ops with
  | [] => (g, [])
  | op :: ops => let '(g, r) := region_step op g in let '(g, rs) := region_steps ops g in (g, r :: rs)
  end.

Definition shows (m : bitmap) (g : region) : Prop :=
  bitmap_ok m /\ _sz m = rg_size g /\ forall p, contains (rect_of_size (rg_size g)) p = true -> dirty m p = rg_cells g p.

Lemma shows_paints c m g f f' : shows m g -> paints c m f -> (forall p, contains (rect_of_size (rg_size g)) p = true -> f p = f' p) ->
  exists m', c m = (m', Ok tt) /\ shows m' (mkRegion (rg_size g) f').
Proof.
  intros (B & Hs & D) (m' & E & B' & S' & D') Hf. exists m'. split; [done|]. split_and!; [done|cbn; congruence|].
  cbn. intros p Hp. rewrite D' by (by rewrite Hs). by apply Hf.
Qed.

Lemma moved_ext sz f f' d fill : (forall p, contains (rect_of_size sz) p = true -> f p = f' p) -> forall p, moved sz f d fill p = moved sz f' d fill p.
Proof. intros Hf p. unfold moved. destruct (contains _ (minus p d)) eqn:E; [by apply Hf|done]. Qed.

Lemma op_refines op m g : shows m g -> op_ok (rg_size g) op ->
  exists m', run_op op m = (m', (region_step op g).2) /\ shows m' (region_step op g).1.
Proof.
  intros Hsh Hok. pose proof Hsh as (B & Hs & D). destruct op as [p|r| | |d fill|sz fill|]; cbn [run_op region_step op_ok on_cells fst snd] in *.
  - destruct (contains (rect_of_size (rg_size g)) p) eqn:Ec.
    + eapply shows_paints; [done|apply set_point_paints; [done|by rewrite Hs]|]. intros q Hq. cbn. by rewrite D.
    + exists m. split; [|done]. apply set_point_outside. by rewrite (bm_rc _ B), Hs.
  - destruct (contains_rect (rect_of_size (rg_size g)) r) eqn:Ec.
    + eapply shows_paints; [done|apply set_rect_paints; [done|by rewrite Hs|done]|]. intros q Hq. cbn. by rewrite D.
    + exists m. split; [|done]. apply set_rect_outside. by rewrite (bm_rc _ B), Hs.
  - eapply shows_paints; [done|by apply set_all_paints|done].
  - eapply shows_paints; [done|by apply reset_all_paints|done].
  - eapply shows_paints; [done|apply translate_paints; [done|by rewrite Hs]|]. rewrite Hs. intros q Hq. by apply moved_ext.
  - destruct (resize_ok m sz fill B Hok) as (m' & E & B' & S' & D'). exists m'. unfold bind. rewrite E. split; [done|].
    split_and!; [done..|]. cbn. intros q Hq. rewrite D' by done. unfold resized. rewrite Hs. destruct (contains (rect_of_size (rg_size g)) q) eqn:Ec; [by apply D|done].
  - destruct (runs_ok m B) as (m' & rs & E & B' & S' & Eb & _). exists m'. unfold bind. rewrite E. split; [done|]. split_and!; [done|congruence|].
    intros q Hq. rewrite <- D by done. unfold dirty, cell_index. by rewrite (bm_rc _ B), (bm_rc _ B'), S', Eb.
Qed.

Lemma ops_refine ops : forall m g, shows m g -> ops_ok (rg_size g) ops ->
  exists m', run_ops ops m = (m', (region_steps ops g).2) /\ shows m' (region_steps ops g).1.
Proof.
  induction ops as [|op ops IH]; intros m g Hsh Hok; [by exists m|]. destruct Hok as [Ho Hos].
  destruct (op_refines op m g Hsh Ho) as (m1 & E1 & H1). cbn [run_ops region_steps]. rewrite E1.
  assert (Hsz : rg_size (region_step op g).1 = match op with Resize sz _ => sz | _ => rg_size g end).
  { destruct op; cbn; try done; by case_if. }
  destruct (region_step op g) as [g1 r1]. cbn [fst snd] in *. destruct (IH m1 g1 H1) as (m2 & E2 & H2).
  { rewrite Hsz. by destruct op. }
  rewrite E2. destruct (region_steps ops g1) as [g2 rs]. by exists m2.
Qed.

(** A piece of one row that cannot be made longer. *)
Definition maximal (g : region) (r : rect) : Prop :=
  rect_bool r = true /\ bottom r = top r + 1 /\ contains_rect (rect_of_size (rg_size g)) r = true /\
  (left r = 0 \/ rg_cells g (Point (left r - 1) (top r)) = false) /\
  (right r = width (rg_size g) \/ rg_cells g (Point (right r) (top r)) = false).

Lemma run_is_maximal m g pos s e : shows m g -> is_run (_bits m) (_sz m) pos s e ->
  (pos = s -> s mod width (_sz m) = 0 \/ bit (_bits m) (s - 1) = false) -> maximal g (run_rect (_sz m) s e).
Proof.
  intros (B & Hs & D) Hr Hleft. pose proof (run_order _ _ _ _ _ Hr) as Ho. pose proof (run_row _ _ _ _ _ Hr) as Hrow.
  destruct (run_within _ _ _ _ _ (bm_size _ B) Hr) as [Hin Hb]. rewrite <- Hs in D. unfold maximal. rewrite <- Hs.
  destruct (bm_size _ B) as [Hw Hh Ha _]. assert (Hpos : 0 < width (_sz m)) by nia. destruct (row_of_index (_sz m) s Hpos) as [Es Hc].
  set (w := width (_sz m)) in *. assert (Hq : 0 <= s / w) by (apply Z.div_pos; lia). assert (Hq' : s / w < height (_sz m)) by (apply Z.div_lt_upper_bound; lia).
  assert (Hcell : forall i, 0 <= i < w -> rg_cells g (Point i (s / w)) = bit (_bits m) (s / w * w + i)).
  { intros i Hi. rewrite <- D by (apply contains_spec; cbn; fold w; lia). apply dirty_bit; [done|]. apply contains_spec. cbn. fold w. lia. }
  split_and!; [done..| |]; cbn [run_rect left right top].
  - fold w. destruct (Z.eq_dec (s mod w) 0) as [|Hne]; [by left|right]. rewrite Hcell by lia. replace (s / w * w + (s mod w - 1)) with (s - 1) by lia.
    destruct (Z.eq_dec pos s) as [->|]; [by destruct (Hleft eq_refl)|]. apply (run_skips _ _ _ _ _ Hr). lia.
  - fold w. destruct (run_stops _ _ _ _ _ Hr) as [|He]; [by left|]. fold w in Hrow. destruct (Z.eq_dec (s mod w + (e - s)) w) as [|Hne]; [by left|right].
    rewrite Hcell by lia. by replace (s / w * w + (s mod w + (e - s))) with e by lia.
Qed.

Lemma runs_maximal m g : shows m g -> forall pos rs, runs_from (_bits m) (_sz m) pos rs ->
  (pos mod width (_sz m) = 0 \/ bit (_bits m) (pos - 1) = false \/ bit (_bits m) pos = false) -> Forall (maximal g) rs.
Proof.
  intros Hsh pos rs Hr. pose proof Hsh as (B & Hs & D). induction Hr as [pos Hf|pos s e rs Hr Hrs IH]; intros Hp; [done|].
  pose proof (run_order _ _ _ _ _ Hr) as Ho. pose proof (run_row _ _ _ _ _ Hr) as Hrow. constructor.
  - eapply run_is_maximal; [done..|]. intros <-. pose proof (run_set _ _ _ _ _ Hr pos ltac:(lia)). intuition congruence.
  - apply IH. destruct (run_stops _ _ _ _ _ Hr) as [He|He]; [left|by right; right].
    destruct (bm_size _ B) as [Hw Hh Ha _]. assert (Hpos : 0 < width (_sz m)) by nia. destruct (row_of_index (_sz m) s Hpos) as [Es Hc].
    replace e with ((s / width (_sz m) + 1) * width (_sz m)) by lia. apply Z.mod_mul. lia.
Qed.

(** C10. A bitmap is a set of cells of a screen, whatever the blocks of its bits.  From a
    new bitmap, every sequence of changes (cells and rectangles set, all set, all reset, the
    set moved, the screen resized, with what is uncovered filled or not, the runs read
    in between) does to the set what the change means, and refuses cells and rectangles
    outside of the screen without a change.  The runs read at the end, from the cache or not, are the
    maximal pieces of the rows, in reading order: each cell of the set is in exactly one and
    no other cell in any; and the questions whether no, one or all cells are set are answered
    right. *)
Theorem bitmap_is_a_set_of_cells (sz : size) (ops : list bitmap_op) :
  size_ok sz -> ops_ok sz ops ->
  let '(g, outcomes) := region_steps ops (mkRegion sz (fun _ => false)) in
  let cells p := contains (rect_of_size (rg_size g)) p && rg_cells g p in
  exists m0 m m' rs, bitmap_new sz false = Ok m0 /\ run_ops ops m0 = (m, outcomes) /\
    _sz m = rg_size g /\ (forall p, dirty m p = cells p) /\
    runs m = (m', Ok rs) /\ Forall (maximal g) rs /\ StronglySorted before rs /\
    (forall p, cover rs p = if cells p then 1%nat else 0%nat) /\
    (any m = true <-> exists p, cells p = true) /\
    (exists r, one m = Ok r /\ (r = true <-> exists p, cells p = true /\ forall q, cells q = true -> q = p)) /\
    (exists r, all m = Ok r /\ (r = true <-> forall p, contains (rect_of_size (rg_size g)) p = true -> cells p = true)).
Proof.
  intros Hs Hok. destruct (bitmap_new_ok sz false Hs) as (m0 & E0 & B0 & S0 & _ & D0).
  assert (H0 : shows m0 (mkRegion sz (fun _ => false))) by (split_and!; [done..|]; intros p Hp; by rewrite D0).
  destruct (ops_refine ops m0 _ H0 Hok) as (m & E & Hsh). destruct (region_steps ops _) as [g outcomes]. cbn [fst snd] in *. cbv zeta.
  pose proof Hsh as (B & Hsz & D). destruct (runs_ok m B) as (m' & rs & Er & _ & _ & _ & Hr).
  assert (Hcells : forall p, dirty m p = contains (rect_of_size (rg_size g)) p && rg_cells g p).
  { intros p. destruct (contains (rect_of_size (rg_size g)) p) eqn:Ec; [by apply D|]. unfold dirty. by rewrite (bm_rc _ B), Hsz, Ec. }
  assert (Hin : forall p, contains (rect_of_size (rg_size g)) p && rg_cells g p = true <-> contains (rect_of_size (_sz m)) p = true /\ dirty m p = true).
  { intros p. rewrite <- Hcells, Hsz. split; [|tauto]. intros Hd. split; [|done]. rewrite Hcells in Hd. by apply andb_true_iff in Hd as []. }
  exists m0, m, m', rs. split_and!; [done..| | | | | |].
  - eapply runs_maximal; [done|exact Hr|]. left. by destruct (width (_sz m)).
  - by apply (runs_sorted (_bits m) (_sz m) (bm_size _ B) 0).
  - intros p. rewrite (runs_dirty m rs B Hr), Hcells. by destruct (_ && _).
  - rewrite (any_ok m B). by setoid_rewrite Hin.
  - destruct (one_ok m B) as (r & -> & Hone). exists r. split; [done|]. rewrite Hone. setoid_rewrite Hin. split.
    + intros (p & H1 & H2 & H3). exists p. split; [done|]. intros q [Hq1 Hq2]. by apply H3.
    + intros (p & [H1 H2] & H3). exists p. split_and!; [done..|]. intros q Hq1 Hq2. by apply H3.
  - destruct (all_ok m B) as (r & -> & Hall). exists r. split; [done|]. rewrite Hall, Hsz. by setoid_rewrite Hcells.
Qed.

(** Runs over three blocks of bits, moved down and to the right. *)
Lemma bitmap_is_a_set_of_cells_witness :
  let ops := [SetRect (Rect 8 1 40 3); SetPoint (Point 0 0); SetPoint (Point 40 0); GetRuns; Translate (Point 2 1) true] in
  exists m0 m m' rs, bitmap_new (Size 40 5) false = Ok m0 /\ run_ops ops m0 = (m, [Ok tt; Ok tt; Throw StdException; Ok tt; Ok tt]) /\
    runs m = (m', Ok rs) /\
    rs = [Rect 0 0 40 1; Rect 0 1 3 2; Rect 0 2 2 3; Rect 10 2 40 3; Rect 0 3 2 4; Rect 10 3 40 4; Rect 0 4 2 5].
Proof.
  cbv zeta. pose proof (bitmap_is_a_set_of_cells (Size 40 5)
    [SetRect (Rect 8 1 40 3); SetPoint (Point 0 0); SetPoint (Point 40 0); GetRuns; Translate (Point 2 1) true]) as Ht.
  destruct Ht as (m0 & m & m' & rs & E0 & E & _ & _ & Er & _).
  - split; cbn; unfold INT_MAX; lia.
  - cbn. unfold drawn, delta_ok, is_int, INT_MIN, INT_MAX. cbn. split_and!; try lia; try done; by left.
  - exists m0, m, m', rs. vm_compute in E0. injection E0 as <-. split_and!; [done|exact E|exact Er|].
    vm_compute in E. injection E as <-. vm_compute in Er. by injection Er as <- <-.
Defined.

(** A bitmap made with [fill] has only its first 64 bits set. *)
Example bitmap_fill_incomplete :
  (let? m := bitmap_new (Size 10 10) true in all_runs m) =
  Ok [Rect 0 0 10 1; Rect 0 1 10 2; Rect 0 2 10 3; Rect 0 3 10 4; Rect 0 4 10 5; Rect 0 5 10 6; Rect 0 6 4 7].
Proof. reflexivity. Qed.

(** A screen with rows and no columns cannot be filled: the first row has no cell. *)
Example bitmap_without_columns :
  (let? m := bitmap_new (Size 0 5) false in (translate (Point 1 0) true m).2) = Throw StdException.
Proof. reflexivity. Qed.
