(* ===== verification/LineRendition.v ===== *)
(** * Line renditions

    Models src/src/buffer/out/LineRendition.hpp: the renditions of a line, and the
    columns of the buffer that the columns of the screen show, and the other way
    round.  A shift to the left of a coordinate that leaves the 32 bits is not
    considered. *)

From S2P Require Import Prelude Geometry.

Local Open Scope Z_scope.

Inductive LineRendition := SingleWidth | DoubleWidth | DoubleHeightTop | DoubleHeightBottom.

Definition rendition_scale (lineRendition : LineRendition) : Z :=
  match lineRendition with SingleWidth => 0 | _ => 1 end.

Definition ScreenToBufferLine (line : inclusive_rect) (lineRendition : LineRendition) : inclusive_rect :=
  let scale := rendition_scale lineRendition in
  InclusiveRect (Z.shiftr (ir_left line) scale) (ir_top line) (Z.shiftr (ir_right line) scale) (ir_bottom line).

Definition ScreenToBufferPoint (line : point) (lineRendition : LineRendition) : point :=
  Point (Z.shiftr (x line) (rendition_scale lineRendition)) (y line).

Definition BufferToScreenLine (line : inclusive_rect) (lineRendition : LineRendition) : inclusive_rect :=
  let scale := rendition_scale lineRendition in
  InclusiveRect (Z.shiftl (ir_left line) scale) (ir_top line)
    (Z.shiftl (ir_right line) scale + scale) (ir_bottom line).

Lemma scale_column (lineRendition : LineRendition) (a : Z) :
  let scale := rendition_scale lineRendition in
  Z.shiftr (Z.shiftl a scale) scale = a /\ Z.shiftr (Z.shiftl a scale + scale) scale = a.
Proof.
  destruct lineRendition; cbn [rendition_scale]; (rewrite ?Z.shiftl_0_r, ?Z.add_0_r, ?Z.shiftr_0_r; try done);
    rewrite Z.shiftl_mul_pow2, !Z.shiftr_div_pow2 by lia;
    (split; [apply Z.div_mul; lia|]; rewrite Z.add_comm, Z.div_add by lia; rewrite Z.div_small; lia).
Qed.

(** The columns of the buffer survive the way to the screen and back, and a column of
    the screen shows a column of the buffer exactly if it is within the columns the
    other is drawn on. *)
Lemma screen_of_buffer (line : inclusive_rect) (lineRendition : LineRendition) :
  ScreenToBufferLine (BufferToScreenLine line lineRendition) lineRendition = line.
Proof.
  destruct line as [l t r b]. unfold ScreenToBufferLine, BufferToScreenLine; cbn.
  destruct (scale_column lineRendition l) as [-> _]. destruct (scale_column lineRendition r) as [_ ->]. done.
Qed.

Lemma screen_column_shown (line : inclusive_rect) (lineRendition : LineRendition) (p : point) :
  ir_left (BufferToScreenLine line lineRendition) <= x p <= ir_right (BufferToScreenLine line lineRendition) <->
  ir_left line <= x (ScreenToBufferPoint p lineRendition) <= ir_right line.
Proof.
  destruct line as [l t r b], p as [px py]. unfold BufferToScreenLine, ScreenToBufferPoint; cbn [ir_left ir_right x].
  destruct lineRendition; cbn [rendition_scale];
    [rewrite !Z.shiftl_0_r, Z.shiftr_0_r; lia|..];
    rewrite !Z.shiftl_mul_pow2, Z.shiftr_div_pow2 by lia; change (2 ^ 1) with 2;
    pose proof (Z.div_mod px 2 ltac:(lia)); pose proof (Z.mod_pos_bound px 2 ltac:(lia)); lia.
Qed.
