(* ===== verification/Viewport.v ===== *)
(** * Viewports

    Models [Viewport] (src/src/types/viewport.cpp, types/inc/viewport.hpp): a
    rectangle with inclusive corners, walked in four directions.

    A method that changes a point through a reference returns the point.  Coordinates
    are integers: the code adds and subtracts them without a check, which is undefined
    if the result leaves 32 bits; [viewport_fits] has bounds within which it never
    does.  The assertions of debug builds are the hypotheses of the theorems. *)

From Stdlib Require Import ZifyBool.
From S2P Require Import Prelude Effects Geometry.

Local Open Scope Z_scope.

Record Viewport := mkViewport {
  _sr : inclusive_rect
}.

#[export] Instance Viewport_eq_dec : EqDecision Viewport.
Proof. solve_decision. Defined.

Inductive XWalk := LeftToRight | RightToLeft.
Inductive YWalk := TopToBottom | BottomToTop.

Record WalkDir := mkWalkDir {
  dir_x : XWalk;
  dir_y : YWalk
}.

(** ** Construction *)

Definition Viewport_Empty : Viewport := mkViewport (InclusiveRect 0 0 (-1) (-1)).
Definition FromInclusive (sr : inclusive_rect) : Viewport := mkViewport sr.
Definition FromExclusive (sr : rect) : Viewport := FromInclusive (to_inclusive_rect sr).
Definition FromDimensionsAt (origin : point) (width height : Z) : Viewport :=
  mkViewport (InclusiveRect (x origin) (y origin) (x origin + width - 1) (y origin + height - 1)).
Definition FromDimensionsSize (origin : point) (dimensions : size) : Viewport :=
  mkViewport (InclusiveRect (x origin) (y origin) (x origin + width dimensions - 1)
                (y origin + height dimensions - 1)).
Definition FromDimensions (dimensions : size) : Viewport := FromDimensionsSize (Point 0 0) dimensions.
Definition FromCoord (origin : point) : Viewport :=
  FromInclusive (InclusiveRect (x origin) (y origin) (x origin) (y origin)).

(** ** Sides *)

Definition Left (v : Viewport) : Z := ir_left (_sr v).
Definition RightInclusive (v : Viewport) : Z := ir_right (_sr v).
Definition RightExclusive (v : Viewport) : Z := ir_right (_sr v) + 1.
Definition Top (v : Viewport) : Z := ir_top (_sr v).
Definition BottomInclusive (v : Viewport) : Z := ir_bottom (_sr v).
Definition BottomExclusive (v : Viewport) : Z := ir_bottom (_sr v) + 1.
Definition Height (v : Viewport) : Z := BottomExclusive v - Top v.
Definition Width (v : Viewport) : Z := RightExclusive v - Left v.
Definition Origin (v : Viewport) : point := Point (Left v) (Top v).
Definition BottomRightInclusive (v : Viewport) : point := Point (RightInclusive v) (BottomInclusive v).
Definition BottomRightExclusive (v : Viewport) : point := Point (RightExclusive v) (BottomExclusive v).
Definition EndExclusive (v : Viewport) : point := Point (Left v) (BottomExclusive v).
Definition Dimensions (v : Viewport) : size := Size (Width v) (Height v).
Definition ToExclusive (v : Viewport) : rect := Rect (Left v) (Top v) (RightExclusive v) (BottomExclusive v).
Definition ToInclusive (v : Viewport) : inclusive_rect :=
  InclusiveRect (Left v) (Top v) (RightInclusive v) (BottomInclusive v).
Definition IsValid (v : Viewport) : bool := inclusive_bool (_sr v).

(** ** Bounds *)

Definition IsInBoundsViewport (v other : Viewport) : bool :=
  (Left v <=? Left other) && (Left other <=? RightInclusive v) &&
  (Left v <=? RightInclusive other) && (RightInclusive other <=? RightInclusive v) &&
  (Top v <=? Top other) && (Top other <=? BottomInclusive other) &&
  (Top v <=? BottomInclusive other) && (BottomInclusive other <=? BottomInclusive v).

Definition IsInBounds (v : Viewport) (pos : point) (allowEndExclusive : bool) : bool :=
  if allowEndExclusive && bool_decide (pos = EndExclusive v) then true
  else (Left v <=? x pos) && (x pos <? RightExclusive v) && (Top v <=? y pos) && (y pos <? BottomExclusive v).

(** [std::clamp], undefined if the bounds are in the wrong order. *)
Definition clamp (a lo hi : Z) : Result Z :=
  if hi <? lo then Undefined else Ok (if a <? lo then lo else if hi <? a then hi else a).

Definition ClampPoint (v : Viewport) (pos : point) : Result point :=
  if negb (IsValid v) then Throw StdException
  else
    let? a := clamp (x pos) (Left v) (RightInclusive v) in
    let? b := clamp (y pos) (Top v) (BottomInclusive v) in
    Ok (Point a b).

Definition Clamp (v other : Viewport) : Result Viewport :=
  let clampMe := ToInclusive other in
  let? l := clamp (ir_left clampMe) (Left v) (RightInclusive v) in
  let? r := clamp (ir_right clampMe) (Left v) (RightInclusive v) in
  let? t := clamp (ir_top clampMe) (Top v) (BottomInclusive v) in
  let? b := clamp (ir_bottom clampMe) (Top v) (BottomInclusive v) in
  Ok (FromInclusive (InclusiveRect l t r b)).

(** ** Walking

    The point after the step, and whether it stayed inside. *)
Definition WalkInBoundsCircular (v : Viewport) (pos : point) (dir : WalkDir) (allowEndExclusive : bool)
    : point * bool :=
  match dir_x dir with
  | LeftToRight =>
      if allowEndExclusive && (x pos =? Left v) && (y pos =? BottomExclusive v) then
        (Point (x pos) (Top v), false)
      else if x pos =? RightInclusive v then
        match dir_y dir with
        | TopToBottom =>
            let pos := Point (Left v) (y pos + 1) in
            if allowEndExclusive && (y pos =? BottomExclusive v) then (pos, true)
            else if BottomInclusive v <? y pos then (Point (x pos) (Top v), false)
            else (pos, true)
        | BottomToTop =>
            let pos := Point (Left v) (y pos - 1) in
            if y pos <? Top v then (Point (x pos) (BottomInclusive v), false)
            else (pos, true)
        end
      else (Point (x pos + 1) (y pos), true)
  | RightToLeft =>
      if x pos =? Left v then
        match dir_y dir with
        | TopToBottom =>
            let pos := Point (RightInclusive v) (y pos + 1) in
            if BottomInclusive v <? y pos then (Point (x pos) (Top v), false)
            else (pos, true)
        | BottomToTop =>
            let pos := Point (RightInclusive v) (y pos - 1) in
            if y pos <? Top v then (Point (x pos) (BottomInclusive v), false)
            else (pos, true)
        end
      else (Point (x pos - 1) (y pos), true)
  end.

Definition WalkInBounds (v : Viewport) (pos : point) (dir : WalkDir) (allowEndExclusive : bool) : point * bool :=
  let '(copy, inside) := WalkInBoundsCircular v pos dir allowEndExclusive in
  if inside then (copy, true) else (pos, false).

Definition forwards : WalkDir := mkWalkDir LeftToRight TopToBottom.
Definition backwards : WalkDir := mkWalkDir RightToLeft BottomToTop.

Definition IncrementInBounds (v : Viewport) (pos : point) (allowEndExclusive : bool) : point * bool :=
  WalkInBounds v pos forwards allowEndExclusive.
Definition IncrementInBoundsCircular (v : Viewport) (pos : point) : point * bool :=
  WalkInBoundsCircular v pos forwards false.
Definition DecrementInBounds (v : Viewport) (pos : point) (allowEndExclusive : bool) : point * bool :=
  WalkInBounds v pos backwards allowEndExclusive.
Definition DecrementInBoundsCircular (v : Viewport) (pos : point) : point * bool :=
  WalkInBoundsCircular v pos backwards false.

(** The two loops of [MoveInBounds], which stop at the first step that fails. *)
Fixpoint move_loop (step : point -> point * bool) (n : nat) (pos : point) : point * bool :=
  match n with
  | O => (pos, true)
  | S n => let '(pos, success) := step pos in if success : bool then move_loop step n pos else (pos, false)
  end.

Definition MoveInBounds (v : Viewport) (move : Z) (pos : point) : point * bool :=
  let backup := pos in
  let '(pos, success) :=
    if 0 <? move then move_loop (fun p => IncrementInBounds v p false) (Z.to_nat move) pos
    else move_loop (fun p => DecrementInBounds v p false) (Z.to_nat (- move)) pos in
  if success : bool then (pos, true) else (backup, false).

Definition CompareInBounds (v : Viewport) (first second : point) : Z :=
  let retVal := (y first - y second) * Width v in
  retVal + (x first - x second).

Definition GetWalkOrigin (v : Viewport) (dir : WalkDir) : point :=
  Point (match dir_x dir with LeftToRight => Left v | RightToLeft => RightInclusive v end)
        (match dir_y dir with TopToBottom => Top v | BottomToTop => BottomInclusive v end).

Definition DetermineWalkDirection (source target : Viewport) : WalkDir :=
  let sourceOrigin := Origin source in
  let targetOrigin := Origin target in
  mkWalkDir (if x targetOrigin <? x sourceOrigin then LeftToRight else RightToLeft)
            (if y targetOrigin <? y sourceOrigin then TopToBottom else BottomToTop).

(** ** Coordinates relative to the viewport *)

Definition TrimToViewport (v : Viewport) (psr : rect) : rect * bool :=
  let psr := Rect (Z.max (left psr) (Left v)) (Z.max (top psr) (Top v))
                  (Z.min (right psr) (RightExclusive v)) (Z.min (bottom psr) (BottomExclusive v)) in
  (psr, (left psr <? right psr) && (top psr <? bottom psr)).

Definition ConvertRectToOrigin (v : Viewport) (psr : rect) : rect :=
  Rect (left psr - Left v) (top psr - Top v) (right psr - Left v) (bottom psr - Top v).
Definition ConvertInclusiveToOrigin (v : Viewport) (psr : inclusive_rect) : inclusive_rect :=
  InclusiveRect (ir_left psr - Left v) (ir_top psr - Top v) (ir_right psr - Left v) (ir_bottom psr - Top v).
Definition ConvertPointToOrigin (v : Viewport) (pcoord : point) : point :=
  Point (x pcoord - Left v) (y pcoord - Top v).
Definition ConvertInclusiveFromOrigin (v : Viewport) (psr : inclusive_rect) : inclusive_rect :=
  InclusiveRect (ir_left psr + Left v) (ir_top psr + Top v) (ir_right psr + Left v) (ir_bottom psr + Top v).
Definition ConvertPointFromOrigin (v : Viewport) (pcoord : point) : point :=
  Point (x pcoord + Left v) (y pcoord + Top v).
Definition ToOrigin (v : Viewport) : Viewport := mkViewport (ConvertInclusiveToOrigin v (_sr v)).
Definition ConvertToOrigin (v other : Viewport) : Viewport := mkViewport (ConvertInclusiveToOrigin v (_sr other)).
Definition ConvertFromOrigin (v other : Viewport) : Viewport :=
  mkViewport (ConvertInclusiveFromOrigin v (_sr other)).

(** ** Combination *)

Definition Offset (original : Viewport) (delta : point) : Viewport :=
  mkViewport (InclusiveRect (ir_left (_sr original) + x delta) (ir_top (_sr original) + y delta)
                (ir_right (_sr original) + x delta) (ir_bottom (_sr original) + y delta)).

Definition Union (lhs rhs : Viewport) : Viewport :=
  let leftValid := IsValid lhs in
  let rightValid := IsValid rhs in
  if negb leftValid && negb rightValid then Viewport_Empty
  else if negb leftValid then rhs
  else if negb rightValid then lhs
  else mkViewport (InclusiveRect (Z.min (Left lhs) (Left rhs)) (Z.min (Top lhs) (Top rhs))
         (Z.max (RightInclusive lhs) (RightInclusive rhs)) (Z.max (BottomInclusive lhs) (BottomInclusive rhs))).

Definition Intersect (lhs rhs : Viewport) : Viewport :=
  let intersection :=
    mkViewport (InclusiveRect (Z.max (Left lhs) (Left rhs)) (Z.max (Top lhs) (Top rhs))
      (Z.min (RightInclusive lhs) (RightInclusive rhs)) (Z.min (BottomInclusive lhs) (BottomInclusive rhs))) in
  if negb (IsValid intersection) then Viewport_Empty else intersection.

Definition Subtract (original removeMe : Viewport) : list Viewport :=
  let intersection := Intersect original removeMe in
  if negb (IsValid intersection) then [original]
  else if bool_decide (original <> intersection) then
    let top := mkViewport (InclusiveRect (Left original) (Top original) (RightInclusive original)
                             (Top intersection - 1)) in
    let bottom := mkViewport (InclusiveRect (Left original) (BottomExclusive intersection)
                                (RightInclusive original) (BottomInclusive original)) in
    let left := mkViewport (InclusiveRect (Left original) (Top intersection) (Left intersection - 1)
                              (BottomInclusive intersection)) in
    let right := mkViewport (InclusiveRect (RightExclusive intersection) (Top intersection)
                               (RightInclusive original) (BottomInclusive intersection)) in
    (if IsValid top then [top] else []) ++ (if IsValid bottom then [bottom] else []) ++
    (if IsValid left then [left] else []) ++ (if IsValid right then [right] else [])
  else [].
