(* ===== verification/ViewportSpec.v ===== *)
(** * Viewports: walks and differences

    A walk in any of the four directions is a cyclic successor on the cells of a
    viewport ([viewport_walk]); moves by a distance are additions on the order of the
    cells ([viewport_move]), also with the position past the end that accessibility
    uses ([viewport_end_exclusive]); the difference of viewports is that of rectangles
    ([viewport_subtract]).  The copies that walk in the direction
    [DetermineWalkDirection] chooses are in [AdaptCopy.v]. *)

From Stdlib Require Import ZifyBool.
From S2P Require Import Prelude Effects Geometry Viewport.

Local Open Scope Z_scope.

(** A viewport with cells. *)
Definition proper (v : Viewport) : Prop := Left v <= RightInclusive v /\ Top v <= BottomInclusive v.

Lemma proper_of_valid v : IsValid v = true -> proper v.
Proof. unfold IsValid, inclusive_bool, proper, Left, RightInclusive, Top, BottomInclusive. lia. Qed.

Definition cells (v : Viewport) : Z := Width v * Height v.

(** Row and column in the order of a walk, and the place of a cell in it. *)
Definition walk_row (v : Viewport) (dir : WalkDir) (p : point) : Z :=
  match dir_y dir with TopToBottom => y p - Top v | BottomToTop => BottomInclusive v - y p end.
Definition walk_column (v : Viewport) (dir : WalkDir) (p : point) : Z :=
  match dir_x dir with LeftToRight => x p - Left v | RightToLeft => RightInclusive v - x p end.
Definition walk_index (v : Viewport) (dir : WalkDir) (p : point) : Z :=
  walk_row v dir p * Width v + walk_column v dir p.

(** The cell at a place. *)
Definition walk_cell (v : Viewport) (dir : WalkDir) (q c : Z) : point :=
  Point (match dir_x dir with LeftToRight => Left v + c | RightToLeft => RightInclusive v - c end)
        (match dir_y dir with TopToBottom => Top v + q | BottomToTop => BottomInclusive v - q end).

Ltac unfold_viewport :=
  unfold Width, Height, RightExclusive, BottomExclusive, Left, RightInclusive, Top, BottomInclusive in *.

Lemma inside_spec v p :
  IsInBounds v p false = true <-> Left v <= x p <= RightInclusive v /\ Top v <= y p <= BottomInclusive v.
Proof. unfold IsInBounds. cbn [andb]. unfold_viewport. lia. Qed.

Lemma inside_cell v dir p :
  IsInBounds v p false = true ->
  exists q c, 0 <= q < Height v /\ 0 <= c < Width v /\ p = walk_cell v dir q c /\
    walk_index v dir p = q * Width v + c.
Proof.
  rewrite inside_spec. intros H. exists (walk_row v dir p), (walk_column v dir p).
  unfold walk_index, walk_cell, walk_row, walk_column. destruct p as [px py]; cbn in *.
  unfold_viewport.
  destruct (dir_x dir), (dir_y dir); (split; [lia|]; split; [lia|]; split; [f_equal; lia|lia]).
Qed.

Lemma cell_inside v dir q c :
  0 <= q < Height v -> 0 <= c < Width v ->
  IsInBounds v (walk_cell v dir q c) false = true /\ walk_index v dir (walk_cell v dir q c) = q * Width v + c.
Proof.
  intros Hq Hc. rewrite inside_spec. unfold walk_index, walk_cell, walk_row, walk_column. unfold_viewport.
  destruct (dir_x dir), (dir_y dir); cbn; (split; [lia|]; ring).
Qed.

(** A step of the walk: to the next column, to the next row, or to the beginning. *)
Lemma walk_step v dir q c :
  0 <= q < Height v -> 0 <= c < Width v ->
  WalkInBoundsCircular v (walk_cell v dir q c) dir false =
  if c + 1 <? Width v then (walk_cell v dir q (c + 1), true)
  else if q + 1 <? Height v then (walk_cell v dir (q + 1) 0, true)
  else (walk_cell v dir 0 0, false).
Proof.
  intros Hq Hc. unfold WalkInBoundsCircular, walk_cell. unfold_viewport.
  destruct (dir_x dir), (dir_y dir); cbn [andb x y];
    repeat case_if; bool_prop; try lia; f_equal; f_equal; lia.
Qed.

Lemma index_bounds v q c : 0 <= q < Height v -> 0 <= c < Width v -> 0 <= q * Width v + c < cells v.
Proof. unfold cells. intros. nia. Qed.

Lemma index_in_cells v i : 0 < Width v -> 0 <= i < cells v ->
  exists q c, i = q * Width v + c /\ 0 <= q < Height v /\ 0 <= c < Width v.
Proof.
  intros Hw Hi. destruct (nth_point_split (Width v) i Hw) as (q & c & -> & Hc & _).
  exists q, c. split; [done|]. split; [|done]. unfold cells in Hi. by apply (row_below q c (Width v)).
Qed.

(** The index of the next cell. *)
Lemma next_index v q c :
  0 <= q < Height v -> 0 <= c < Width v ->
  (c + 1 < Width v /\ q * Width v + (c + 1) = q * Width v + c + 1 /\ q * Width v + c + 1 < cells v) \/
  (Width v <= c + 1 /\ q + 1 < Height v /\ (q + 1) * Width v + 0 = q * Width v + c + 1 /\
     q * Width v + c + 1 < cells v) \/
  (Width v <= c + 1 /\ Height v <= q + 1 /\ q * Width v + c + 1 = cells v).
Proof.
  intros Hq Hc. unfold cells.
  destruct (Z.lt_ge_cases (c + 1) (Width v)); [left; nia|right].
  assert (c + 1 = Width v) by lia. destruct (Z.lt_ge_cases (q + 1) (Height v)); [left; nia|right].
  assert (q + 1 = Height v) by lia. nia.
Qed.

(** A walk in any of the four directions visits the cells of a viewport in a cycle:
    one step goes to the cell with the next index, from the last one to the first,
    and says whether it stayed within the viewport. *)
Theorem viewport_walk (v : Viewport) (dir : WalkDir) (p : point) :
  IsInBounds v p false = true ->
  exists p', WalkInBoundsCircular v p dir false = (p', walk_index v dir p + 1 <? cells v) /\
    IsInBounds v p' false = true /\
    walk_index v dir p' = (walk_index v dir p + 1) mod cells v.
Proof.
  intros Hp. destruct (inside_cell v dir p Hp) as (q & c & Hq & Hc & -> & ->).
  rewrite walk_step by done. pose proof (index_bounds v q c Hq Hc).
  destruct (next_index v q c Hq Hc) as [(H1 & H2 & H3)|[(H1 & H2 & H3 & H4)|(H1 & H2 & H3)]].
  - rewrite (proj2 (Z.ltb_lt _ _) H1), (proj2 (Z.ltb_lt _ _) H3). eexists; split; [done|].
    destruct (cell_inside v dir q (c + 1)) as [-> ->]; [done|lia|]. rewrite Z.mod_small; lia.
  - rewrite (proj2 (Z.ltb_ge _ _) H1), (proj2 (Z.ltb_lt _ _) H2), (proj2 (Z.ltb_lt _ _) H4). eexists; split; [done|].
    destruct (cell_inside v dir (q + 1) 0) as [-> ->]; [lia|lia|]. rewrite Z.mod_small; lia.
  - rewrite (proj2 (Z.ltb_ge _ _) H1), (proj2 (Z.ltb_ge _ _) H2), H3, Z.ltb_irrefl. eexists; split; [done|].
    destruct (cell_inside v dir 0 0) as [-> ->]; [lia|lia|]. rewrite Z.mod_same by lia. lia.
Qed.

Definition screen : Viewport := FromDimensions (Size 4 3).

Lemma viewport_walk_witness :
  WalkInBoundsCircular screen (Point 0 1) (mkWalkDir RightToLeft TopToBottom) false = (Point 3 2, true) /\
  walk_index screen (mkWalkDir RightToLeft TopToBottom) (Point 3 2) = (7 + 1) mod 12.
Proof.
  destruct (viewport_walk screen (mkWalkDir RightToLeft TopToBottom) (Point 0 1)) as (p' & E & _ & H);
    [reflexivity|].
  assert (p' = Point 3 2) as -> by (revert E; vm_compute; by intros [= <-]).
  split; [exact E|exact H].
Defined.

(** ** Moves *)

(** A step that stays inside, as [WalkInBounds] makes it. *)
Lemma walk_in_bounds v dir p :
  IsInBounds v p false = true ->
  (walk_index v dir p + 1 < cells v /\
   exists p', WalkInBounds v p dir false = (p', true) /\ IsInBounds v p' false = true /\
     walk_index v dir p' = walk_index v dir p + 1) \/
  (walk_index v dir p + 1 = cells v /\ WalkInBounds v p dir false = (p, false)).
Proof.
  intros Hp. destruct (inside_cell v dir p Hp) as (q & c & Hq & Hc & -> & ->).
  pose proof (index_bounds v q c Hq Hc). unfold WalkInBounds. rewrite walk_step by done.
  destruct (next_index v q c Hq Hc) as [(H1 & H2 & H3)|[(H1 & H2 & H3 & H4)|(H1 & H2 & H3)]].
  - left. split; [done|]. rewrite (proj2 (Z.ltb_lt _ _) H1). eexists; split; [done|].
    destruct (cell_inside v dir q (c + 1)) as [-> ->]; [done|lia|done].
  - left. split; [done|]. rewrite (proj2 (Z.ltb_ge _ _) H1), (proj2 (Z.ltb_lt _ _) H2). eexists; split; [done|].
    destruct (cell_inside v dir (q + 1) 0) as [-> ->]; [lia|lia|done].
  - right. split; [done|]. by rewrite (proj2 (Z.ltb_ge _ _) H1), (proj2 (Z.ltb_ge _ _) H2).
Qed.

Lemma index_range v dir p : IsInBounds v p false = true -> 0 <= walk_index v dir p < cells v.
Proof.
  intros Hp. destruct (inside_cell v dir p Hp) as (q & c & Hq & Hc & _ & ->). by apply index_bounds.
Qed.

Lemma move_loop_spec v dir n : forall p,
  IsInBounds v p false = true ->
  (walk_index v dir p + Z.of_nat n < cells v /\
   exists p', move_loop (fun p => WalkInBounds v p dir false) n p = (p', true) /\
     IsInBounds v p' false = true /\ walk_index v dir p' = walk_index v dir p + Z.of_nat n) \/
  (cells v <= walk_index v dir p + Z.of_nat n /\
   exists p', move_loop (fun p => WalkInBounds v p dir false) n p = (p', false)).
Proof.
  induction n as [|n IH]; intros p Hp.
  - left. pose proof (index_range v dir p Hp). split; [lia|]. exists p. repeat split; [done|lia].
  - cbn [move_loop]. destruct (walk_in_bounds v dir p Hp) as [(H1 & p1 & -> & Hp1 & E1)|(H1 & ->)].
    + destruct (IH p1 Hp1) as [(H2 & p2 & E2 & Hp2 & E3)|(H2 & p2 & E2)].
      * left. split; [lia|]. exists p2. repeat split; [done|done|lia].
      * right. split; [lia|]. by exists p2.
    + right. split; [lia|]. by exists p.
Qed.

(** The order of the two opposite walks. *)
Lemma backwards_index v p : walk_index v backwards p = cells v - 1 - walk_index v forwards p.
Proof. unfold walk_index, walk_row, walk_column, cells, backwards, forwards. unfold_viewport. cbn. ring. Qed.

Lemma compare_index v p q : CompareInBounds v p q = walk_index v forwards p - walk_index v forwards q.
Proof. unfold CompareInBounds, walk_index, walk_row, walk_column, forwards; cbn. ring. Qed.

(** Moving by a distance goes to the cell at that distance, as [CompareInBounds]
    measures it, if the viewport has one; otherwise the position stays and the move
    reports failure. *)
Theorem viewport_move (v : Viewport) (move : Z) (p : point) :
  IsInBounds v p false = true ->
  if (0 <=? walk_index v forwards p + move) && (walk_index v forwards p + move <? cells v)
  then exists q, MoveInBounds v move p = (q, true) /\ IsInBounds v q false = true /\ CompareInBounds v q p = move
  else MoveInBounds v move p = (p, false).
Proof.
  intros Hp. pose proof (index_range v forwards p Hp) as Hi. unfold MoveInBounds.
  destruct (Z.ltb_spec 0 move) as [Hm|Hm].
  - unfold IncrementInBounds.
    destruct (move_loop_spec v forwards (Z.to_nat move) p Hp) as [(H1 & q & -> & Hq & E)|(H1 & q & ->)].
    + rewrite Z2Nat.id in * by lia.
      rewrite (proj2 (Z.leb_le _ _)), (proj2 (Z.ltb_lt _ _)) by lia. cbn [andb].
      exists q. rewrite compare_index. repeat split; [done|lia].
    + rewrite Z2Nat.id in * by lia. rewrite (proj2 (Z.ltb_ge _ _) H1), andb_false_r. done.
  - unfold DecrementInBounds.
    destruct (move_loop_spec v backwards (Z.to_nat (- move)) p Hp) as [(H1 & q & -> & Hq & E)|(H1 & q & ->)];
      rewrite Z2Nat.id in * by lia; rewrite ?backwards_index in *.
    + rewrite (proj2 (Z.leb_le _ _)), (proj2 (Z.ltb_lt _ _)) by lia. cbn [andb].
      exists q. rewrite compare_index. repeat split; [done|lia].
    + rewrite (proj2 (Z.leb_gt _ _)) by lia. done.
Qed.

Lemma viewport_move_witness :
  (exists q, MoveInBounds screen (-5) (Point 2 2) = (q, true) /\ CompareInBounds screen q (Point 2 2) = -5) /\
  MoveInBounds screen 2 (Point 2 2) = (Point 2 2, false).
Proof.
  split.
  - destruct (viewport_move screen (-5) (Point 2 2)) as (q & E & _ & H); [reflexivity|]. by exists q.
  - exact (viewport_move screen 2 (Point 2 2) eq_refl).
Defined.

(** ** The position past the end *)

Lemma end_index v : walk_index v forwards (EndExclusive v) = cells v.
Proof. unfold walk_index, walk_row, walk_column, forwards, EndExclusive, cells. unfold_viewport. cbn. ring. Qed.

(** A position within the viewport, or the one past the end. *)
Lemma inside_or_end v p :
  IsInBounds v p true = true -> p = EndExclusive v \/ (IsInBounds v p false = true /\ p <> EndExclusive v).
Proof.
  unfold IsInBounds. cbn [andb]. case_bool_decide; [by left|]. intros H'. right. done.
Qed.

Lemma inside_allow v p : IsInBounds v p false = true -> IsInBounds v p true = true.
Proof. unfold IsInBounds. cbn [andb]. by case_bool_decide. Qed.

Lemma increment_end v p :
  proper v -> IsInBounds v p false = true ->
  exists p', IncrementInBounds v p true = (p', true) /\ IsInBounds v p' true = true /\
    walk_index v forwards p' = walk_index v forwards p + 1.
Proof.
  intros Hv Hp. destruct (inside_cell v forwards p Hp) as (q & c & Hq & Hc & -> & ->).
  unfold IncrementInBounds, WalkInBounds, WalkInBoundsCircular, walk_cell, forwards, proper in *; cbn [dir_x dir_y andb x y].
  unfold IsInBounds, EndExclusive, walk_index, walk_row, walk_column; cbn [andb dir_x dir_y].
  unfold_viewport.
  repeat case_if; bool_prop; try lia; (eexists; split; [done|]; cbn [x y]; split;
    [case_bool_decide as Hd; [done|first [lia | exfalso; apply Hd; f_equal; lia]]|nia]).
Qed.

Lemma decrement_end v p :
  proper v -> IsInBounds v p true = true -> 0 < walk_index v forwards p ->
  exists p', DecrementInBounds v p true = (p', true) /\ IsInBounds v p' false = true /\
    walk_index v forwards p' = walk_index v forwards p - 1.
Proof.
  intros Hv Hp Hi. destruct (inside_or_end v p Hp) as [->|[Hin _]].
  - exists (BottomRightInclusive v). unfold proper in Hv.
    unfold DecrementInBounds, WalkInBounds, WalkInBoundsCircular, EndExclusive, BottomRightInclusive, backwards;
      cbn [dir_x dir_y x y]. rewrite Z.eqb_refl, inside_spec.
    unfold walk_index, walk_row, walk_column, forwards; cbn [dir_x dir_y x y]. unfold_viewport.
    replace (_ <? _) with false by lia. split; [do 2 f_equal; lia|]. split; [cbn; lia|ring].
  - destruct (walk_in_bounds v backwards p Hin) as [(H1 & p' & E & Hp' & Ei)|(H1 & E)];
      rewrite ?backwards_index in *; [|lia].
    exists p'. repeat split; [done|done|lia].
Qed.

(** With the position past the end that accessibility allows, increments and
    decrements are those of the numbers from 0 to the number of cells: an increment
    from the end and a decrement from the first cell fail and leave the position. *)
Theorem viewport_end_exclusive (v : Viewport) (p : point) :
  IsValid v = true -> IsInBounds v p true = true ->
  (if walk_index v forwards p <? cells v
   then exists q, IncrementInBounds v p true = (q, true) /\ IsInBounds v q true = true /\
          walk_index v forwards q = walk_index v forwards p + 1
   else IncrementInBounds v p true = (p, false)) /\
  (if 0 <? walk_index v forwards p
   then exists q, DecrementInBounds v p true = (q, true) /\ IsInBounds v q true = true /\
          walk_index v forwards q = walk_index v forwards p - 1
   else DecrementInBounds v p true = (p, false)).
Proof.
  intros Hvalid Hp. apply proper_of_valid in Hvalid as Hv. split.
  - destruct (inside_or_end v p Hp) as [->|[Hin _]].
    + rewrite end_index, Z.ltb_irrefl. unfold IncrementInBounds, WalkInBounds, WalkInBoundsCircular, EndExclusive.
      cbn [forwards dir_x andb x y]. by rewrite !Z.eqb_refl.
    + rewrite (proj2 (Z.ltb_lt _ _)) by apply index_range, Hin. by apply increment_end.
  - destruct (Z.ltb_spec 0 (walk_index v forwards p)) as [Hi|Hi].
    + destruct (decrement_end v p Hv Hp Hi) as (q & E & Hq & Ei). exists q. repeat split; [done|by apply inside_allow|done].
    + destruct (inside_or_end v p Hp) as [->|[Hin _]].
      * rewrite end_index in Hi. unfold cells, proper in *. unfold_viewport. nia.
      * pose proof (index_range v forwards p Hin). unfold DecrementInBounds.
        destruct (walk_in_bounds v backwards p Hin) as [(H1 & _)|(_ & E)]; [|done].
        rewrite backwards_index in H1. lia.
Qed.

Lemma viewport_end_exclusive_witness :
  (exists q, IncrementInBounds screen (Point 3 2) true = (q, true) /\ walk_index screen forwards q = 12) /\
  (exists q, DecrementInBounds screen (Point 3 2) true = (q, true) /\ walk_index screen forwards q = 10).
Proof.
  destruct (viewport_end_exclusive screen (Point 3 2)) as [(q & E & _ & H) (q' & E' & _ & H')];
    [reflexivity|reflexivity|].
  split; [by exists q|by exists q'].
Defined.

(** ** Differences *)

Lemma valid_exclusive v : IsValid v = rect_bool (ToExclusive v).
Proof. unfold IsValid, inclusive_bool, rect_bool, ToExclusive; cbn. unfold_viewport. lia. Qed.

Lemma inside_exclusive v p : IsInBounds v p false = contains (ToExclusive v) p.
Proof. done. Qed.

Lemma ToExclusive_inj v1 v2 : ToExclusive v1 = ToExclusive v2 -> v1 = v2.
Proof.
  destruct v1 as [[l t r b]], v2 as [[l' t' r' b']]. unfold ToExclusive. unfold_viewport. cbn. intros [= -> -> ? ?].
  do 2 f_equal; lia.
Qed.

Lemma intersect_exclusive a b :
  empty (rect_and (ToExclusive a) (ToExclusive b)) = negb (IsValid (Intersect a b)) /\
  (IsValid (Intersect a b) = true -> ToExclusive (Intersect a b) = rect_and (ToExclusive a) (ToExclusive b)).
Proof.
  unfold empty. rewrite valid_exclusive. unfold Intersect. rewrite valid_exclusive.
  unfold rect_and, ToExclusive, rect_bool; cbn [left right top bottom]; unfold_viewport; cbn [_sr ir_left ir_right ir_top ir_bottom].
  repeat case_if; bool_prop; cbn in *; (split; [lia|intros; try lia]). f_equal; lia.
Qed.

Lemma map_piece v :
  map ToExclusive (if IsValid v then [v] else []) =
  if rect_bool (ToExclusive v) then [ToExclusive v] else [].
Proof. rewrite valid_exclusive. by case_if. Qed.

(** [Subtract] on inclusive viewports is the difference of rectangles: the pieces it
    returns, in the same order, are those of [til::rect], so that they partition the
    cells of the first viewport which are not in the second. *)
Theorem viewport_subtract (original removeMe : Viewport) :
  map ToExclusive (Subtract original removeMe) = rect_minus (ToExclusive original) (ToExclusive removeMe).
Proof.
  destruct (intersect_exclusive original removeMe) as [He Hi]. unfold Subtract, rect_minus. rewrite He.
  destruct (IsValid (Intersect original removeMe)) eqn:Ev; cbn [negb]; [|done].
  specialize (Hi eq_refl). rewrite <- Hi.
  rewrite (bool_decide_ext (ToExclusive original <> ToExclusive (Intersect original removeMe))
             (original <> Intersect original removeMe)).
  2:{ split; [intros H E; apply H; by rewrite <- E|intros H E; apply H; by apply ToExclusive_inj]. }
  case_bool_decide; [|done]. rewrite !map_app, !map_piece.
  repeat match goal with |- context [ToExclusive (mkViewport (InclusiveRect ?l ?t ?r ?b))] =>
    change (ToExclusive (mkViewport (InclusiveRect l t r b))) with (Rect l t (r + 1) (b + 1)) end.
  replace (Top (Intersect original removeMe) - 1 + 1) with (Top (Intersect original removeMe)) by lia.
  replace (Left (Intersect original removeMe) - 1 + 1) with (Left (Intersect original removeMe)) by lia.
  done.
Qed.

(** ** Clamping *)

Lemma clamp_ok a lo hi : lo <= hi -> clamp a lo hi = Ok (Z.max lo (Z.min hi a)).
Proof. intros H. unfold clamp. repeat case_if; bool_prop; f_equal; lia. Qed.

(** Clamping moves a position to the nearest cell of a valid viewport, in both
    coordinates; a viewport without cells is refused. *)
Lemma clamp_nearest (v : Viewport) (pos : point) :
  if IsValid v then
    exists p, ClampPoint v pos = Ok p /\ IsInBounds v p false = true /\
      forall q, IsInBounds v q false = true ->
        Z.abs (x p - x pos) <= Z.abs (x q - x pos) /\ Z.abs (y p - y pos) <= Z.abs (y q - y pos)
  else ClampPoint v pos = Throw StdException.
Proof.
  unfold ClampPoint. destruct (IsValid v) eqn:E; [|done]. apply proper_of_valid in E as [H1 H2]. cbn [negb].
  rewrite !clamp_ok by done. cbn [bindR]. eexists; split; [done|]. rewrite inside_spec. cbn [x y].
  split; [lia|]. intros q. rewrite inside_spec. lia.
Qed.

(** A viewport that is in bounds of another has all its cells there. *)
Lemma viewport_in_bounds (v other : Viewport) :
  proper other ->
  IsInBoundsViewport v other = true <->
  (forall p, IsInBounds other p false = true -> IsInBounds v p false = true).
Proof.
  intros Ho. unfold IsInBoundsViewport, proper in *. split.
  - intros H p. rewrite !inside_spec. lia.
  - intros H. pose proof (H (Origin other)) as H1. pose proof (H (BottomRightInclusive other)) as H2.
    rewrite !inside_spec in H1, H2. cbn in H1, H2. unfold Origin in *. lia.
Qed.

(** The coordinates of a window relative to a viewport survive the way back. *)
Lemma convert_origin (v other : Viewport) :
  ConvertFromOrigin v (ConvertToOrigin v other) = other /\ ConvertToOrigin v (ConvertFromOrigin v other) = other.
Proof.
  destruct other as [[l t r b]]. unfold ConvertFromOrigin, ConvertToOrigin, ConvertInclusiveFromOrigin, ConvertInclusiveToOrigin.
  cbn. split; do 2 f_equal; lia.
Qed.

(** ** Width of integers *)

(** On a buffer of at most 32767 by 32767 cells no sum, difference or product the
    class computes leaves the 32 bits of a coordinate. *)
Theorem viewport_fits (v : Viewport) (p q : point) :
  IsValid v = true -> RightInclusive v <= 32766 -> BottomInclusive v <= 32766 ->
  IsInBounds v p true = true -> IsInBounds v q true = true ->
  is_int (RightExclusive v) /\ is_int (BottomExclusive v) /\ is_int (Width v) /\ is_int (Height v) /\
  is_int (x p + 1) /\ is_int (x p - 1) /\ is_int (y p + 1) /\ is_int (y p - 1) /\
  is_int ((y p - y q) * Width v) /\ is_int (CompareInBounds v p q).
Proof.
  intros Hv Hr Hb Hp Hq.
  assert (Hbox : forall r, IsInBounds v r true = true -> 0 <= x r <= 32767 /\ 0 <= y r <= 32767).
  { intros r Hin. unfold IsValid, inclusive_bool in Hv.
    destruct (inside_or_end v r Hin) as [->|[H _]]; [unfold EndExclusive|apply inside_spec in H];
      unfold_viewport; cbn; lia. }
  pose proof (Hbox p Hp). pose proof (Hbox q Hq). unfold IsValid, inclusive_bool in Hv.
  assert (0 <= Width v <= 32767) by (unfold_viewport; lia).
  assert (- (32767 * 32767) <= (y p - y q) * Width v <= 32767 * 32767) by nia.
  unfold CompareInBounds. unfold is_int, INT_MIN, INT_MAX. unfold_viewport. lia.
Qed.

Lemma viewport_fits_witness : is_int (CompareInBounds screen (Point 3 2) (Point 0 3)).
Proof. apply (viewport_fits screen (Point 3 2) (Point 0 3)); vm_compute; (reflexivity || discriminate). Defined.
