(* ===== verification/InputEvents.v ===== *)
(** * Input events

    Models the events of src/src/types/inc/IInputEvent.hpp and types/KeyEvent.cpp, and
    the functions of the keyboard layout that the input code asks (class [Keyboard]).
    The constants of the Windows headers have their documented values.  [INPUT_RECORD]
    and [IInputEvent] hold the same data, so records are events here. *)

From S2P Require Import Prelude Geometry.

Local Open Scope Z_scope.

(** ** Constants of the system *)

Definition VK_BACK : Z := 0x08.
Definition VK_TAB : Z := 0x09.
Definition VK_SHIFT : Z := 0x10.
Definition VK_CONTROL : Z := 0x11.
Definition VK_MENU : Z := 0x12.
Definition VK_PAUSE : Z := 0x13.
Definition VK_ESCAPE : Z := 0x1B.
Definition VK_PRIOR : Z := 0x21.
Definition VK_NEXT : Z := 0x22.
Definition VK_END : Z := 0x23.
Definition VK_HOME : Z := 0x24.
Definition VK_LEFT : Z := 0x25.
Definition VK_UP : Z := 0x26.
Definition VK_RIGHT : Z := 0x27.
Definition VK_DOWN : Z := 0x28.
Definition VK_INSERT : Z := 0x2D.
Definition VK_DELETE : Z := 0x2E.
Definition VK_DIVIDE : Z := 0x6F.
Definition VK_F1 : Z := 0x70.
Definition VK_F2 : Z := 0x71.
Definition VK_F3 : Z := 0x72.
Definition VK_F4 : Z := 0x73.
Definition VK_F5 : Z := 0x74.
Definition VK_F6 : Z := 0x75.
Definition VK_F7 : Z := 0x76.
Definition VK_F8 : Z := 0x77.
Definition VK_F9 : Z := 0x78.
Definition VK_F10 : Z := 0x79.
Definition VK_F11 : Z := 0x7A.
Definition VK_F12 : Z := 0x7B.

Definition RIGHT_ALT_PRESSED : Z := 0x0001.
Definition LEFT_ALT_PRESSED : Z := 0x0002.
Definition RIGHT_CTRL_PRESSED : Z := 0x0004.
Definition LEFT_CTRL_PRESSED : Z := 0x0008.
Definition SHIFT_PRESSED : Z := 0x0010.
Definition ENHANCED_KEY : Z := 0x0100.

Definition ALT_PRESSED : Z := Z.lor RIGHT_ALT_PRESSED LEFT_ALT_PRESSED.
Definition CTRL_PRESSED : Z := Z.lor RIGHT_CTRL_PRESSED LEFT_CTRL_PRESSED.
Definition MOD_PRESSED : Z := Z.lor SHIFT_PRESSED (Z.lor ALT_PRESSED CTRL_PRESSED).

Definition FROM_LEFT_1ST_BUTTON_PRESSED : Z := 0x0001.
Definition RIGHTMOST_BUTTON_PRESSED : Z := 0x0002.
Definition FROM_LEFT_2ND_BUTTON_PRESSED : Z := 0x0004.
Definition MOUSE_MOVED : Z := 0x0001.
Definition DOUBLE_CLICK : Z := 0x0002.
Definition MOUSE_WHEELED : Z := 0x0004.

Definition MAPVK_VK_TO_VSC : Z := 0.
Definition MAPVK_VK_TO_CHAR : Z := 2.

Definition LOBYTE (w : Z) : Z := Z.land w 0xFF.
Definition HIBYTE (w : Z) : Z := Z.land (Z.shiftr w 8) 0xFF.
Definition LOWORD (w : Z) : Z := Z.land w 0xFFFF.

(** [WI_IsFlagSet] of a single flag is [WI_IsAnyFlagSet]. *)
Definition WI_IsAnyFlagSet (v flags : Z) : bool := negb (Z.land v flags =? 0).
Definition WI_AreAllFlagsSet (v flags : Z) : bool := Z.land v flags =? flags.
Definition WI_SetFlagIf (v flag : Z) (b : bool) : Z := if b then Z.lor v flag else v.

(** The keyboard layout: the key of a character, with the keys to press with it in its
    high byte, as a [short], and the translation of a virtual key. *)
Class Keyboard := {
  OneCoreSafeVkKeyScanW : wchar -> Z;
  OneCoreSafeMapVirtualKeyW : Z -> Z -> Z
}.

(** ** Key events *)

Record KeyEvent := mkKeyEvent {
  _keyDown : bool;
  _repeatCount : Z;
  _virtualKeyCode : Z;
  _virtualScanCode : Z;
  _charData : wchar;
  _activeModifierKeys : Z
}.

Record MouseEvent := mkMouseEvent {
  _position : point;
  _buttonState : Z;
  _mouseModifierKeys : Z;
  _eventFlags : Z
}.

Inductive IInputEvent :=
| Key (e : KeyEvent)
| Mouse (e : MouseEvent)
| WindowBufferSize
| Menu
| Focus (focus cameFromApi : bool).

#[export] Instance KeyEvent_eq_dec : EqDecision KeyEvent.
Proof. solve_decision. Defined.
#[export] Instance MouseEvent_eq_dec : EqDecision MouseEvent.
Proof. solve_decision. Defined.
#[export] Instance IInputEvent_eq_dec : EqDecision IInputEvent.
Proof. solve_decision. Defined.

Definition KeyEvent_default : KeyEvent := mkKeyEvent false 0 0 0 0 0.

Definition KeyEvent_MakePair (repeatCount virtualKeyCode virtualScanCode : Z) (charData : wchar)
    (activeModifierKeys : Z) : KeyEvent * KeyEvent :=
  (mkKeyEvent true repeatCount virtualKeyCode virtualScanCode charData activeModifierKeys,
   mkKeyEvent false repeatCount virtualKeyCode virtualScanCode charData activeModifierKeys).

Definition IsShiftPressed (e : KeyEvent) : bool := WI_IsAnyFlagSet (_activeModifierKeys e) SHIFT_PRESSED.
Definition IsAltPressed (e : KeyEvent) : bool := WI_IsAnyFlagSet (_activeModifierKeys e) ALT_PRESSED.
Definition IsCtrlPressed (e : KeyEvent) : bool := WI_IsAnyFlagSet (_activeModifierKeys e) CTRL_PRESSED.
Definition IsAltGrPressed (e : KeyEvent) : bool :=
  WI_IsAnyFlagSet (_activeModifierKeys e) LEFT_CTRL_PRESSED &&
  WI_IsAnyFlagSet (_activeModifierKeys e) RIGHT_ALT_PRESSED.
Definition IsModifierPressed (e : KeyEvent) : bool := WI_IsAnyFlagSet (_activeModifierKeys e) MOD_PRESSED.
Definition IsCursorKey (e : KeyEvent) : bool := (VK_END <=? _virtualKeyCode e) && (_virtualKeyCode e <=? VK_DOWN).

Definition SetKeyDown (b : bool) (e : KeyEvent) : KeyEvent :=
  mkKeyEvent b (_repeatCount e) (_virtualKeyCode e) (_virtualScanCode e) (_charData e) (_activeModifierKeys e).
Definition SetRepeatCount (n : Z) (e : KeyEvent) : KeyEvent :=
  mkKeyEvent (_keyDown e) n (_virtualKeyCode e) (_virtualScanCode e) (_charData e) (_activeModifierKeys e).
Definition SetVirtualKeyCode (n : Z) (e : KeyEvent) : KeyEvent :=
  mkKeyEvent (_keyDown e) (_repeatCount e) n (_virtualScanCode e) (_charData e) (_activeModifierKeys e).
Definition SetVirtualScanCode (n : Z) (e : KeyEvent) : KeyEvent :=
  mkKeyEvent (_keyDown e) (_repeatCount e) (_virtualKeyCode e) n (_charData e) (_activeModifierKeys e).
Definition SetCharData (c : wchar) (e : KeyEvent) : KeyEvent :=
  mkKeyEvent (_keyDown e) (_repeatCount e) (_virtualKeyCode e) (_virtualScanCode e) c (_activeModifierKeys e).
Definition SetActiveModifierKeys (n : Z) (e : KeyEvent) : KeyEvent :=
  mkKeyEvent (_keyDown e) (_repeatCount e) (_virtualKeyCode e) (_virtualScanCode e) (_charData e) n.

(** [DeactivateModifierKey], with the flag of the key. *)
Definition DeactivateModifierKey (bitFlag : Z) (e : KeyEvent) : KeyEvent :=
  SetActiveModifierKeys (Z.land (_activeModifierKeys e) (Z.lnot bitFlag)) e.

(** The special keys of line editing and of popups. *)
Definition one_of (vkey : Z) (keys : list Z) : bool := existsb (Z.eqb vkey) keys.

Definition IsCommandLineEditingKey (e : KeyEvent) : bool :=
  let vkey := _virtualKeyCode e in
  if negb (IsAltPressed e) && negb (IsCtrlPressed e) &&
     one_of vkey [VK_ESCAPE; VK_PRIOR; VK_NEXT; VK_END; VK_HOME; VK_LEFT; VK_UP; VK_RIGHT; VK_DOWN;
                  VK_INSERT; VK_DELETE; VK_F1; VK_F2; VK_F3; VK_F4; VK_F5; VK_F6; VK_F7; VK_F8; VK_F9]
  then true
  else if IsCtrlPressed e && one_of vkey [VK_END; VK_HOME; VK_LEFT; VK_RIGHT] then true
  else if IsAltPressed e && one_of vkey [VK_F7; VK_F10] then true
  else false.

Definition IsPopupKey (e : KeyEvent) : bool :=
  negb (IsAltPressed e) && negb (IsCtrlPressed e) &&
  one_of (_virtualKeyCode e)
    [VK_ESCAPE; VK_PRIOR; VK_NEXT; VK_END; VK_HOME; VK_LEFT; VK_UP; VK_RIGHT; VK_DOWN;
     VK_F2; VK_F4; VK_F7; VK_F9; VK_DELETE].

(** ** Decimal numbers

    [fmt::format] and [printf] write integers in decimal.  A number has no more digits
    than bits. *)
Fixpoint digits_loop (fuel : nat) (n : Z) (acc : wstring) : wstring :=
  match fuel with
  | O => acc
  | S fuel =>
      let acc := (0x30 + n mod 10) :: acc in
      if n <? 10 then acc else digits_loop fuel (n / 10) acc
  end.

Definition format_unsigned (n : Z) : wstring := digits_loop (S (Z.to_nat (Z.log2 n))) n [].

Definition format_int (n : Z) : wstring :=
  if n <? 0 then 0x2D :: format_unsigned (- n) else format_unsigned n.

Definition digits_value (ds : wstring) : Z := foldl (fun v c => v * 10 + (c - 0x30)) 0 ds.

Lemma digits_value_app ds1 ds2 :
  digits_value (ds1 ++ ds2) = foldl (fun v c => v * 10 + (c - 0x30)) (digits_value ds1) ds2.
Proof. unfold digits_value. by rewrite foldl_app. Qed.

Lemma digits_loop_spec fuel : forall n acc,
  0 <= n -> (Z.to_nat (Z.log2 n) < fuel)%nat ->
  exists ds, digits_loop fuel n acc = ds ++ acc /\ ds <> [] /\
    Forall (fun c => 0x30 <= c <= 0x39) ds /\ digits_value ds = n.
Proof.
  induction fuel as [|fuel IH]; intros n acc Hn Hf; [lia|]. cbn [digits_loop].
  pose proof (Z.mod_pos_bound n 10 ltac:(lia)) as Hm. pose proof (Z.div_mod n 10 ltac:(lia)).
  destruct (Z.ltb_spec n 10).
  - exists [0x30 + n mod 10]. split; [done|]. split; [done|]. split; [repeat constructor; lia|].
    unfold digits_value; cbn. rewrite Z.mod_small by lia. lia.
  - destruct (IH (n / 10) ((0x30 + n mod 10) :: acc)) as (ds & E & Hne & Hd & Hv).
    + apply Z.div_pos; lia.
    + assert (Z.log2 (n / 10) < Z.log2 n).
      { apply Z.lt_le_trans with (Z.succ (Z.log2 (n / 10))); [lia|].
        rewrite <- Z.log2_double by (apply Z.div_str_pos; lia). apply Z.log2_le_mono.
        assert (n / 10 * 10 <= n) by (rewrite Z.mul_comm; apply Z.mul_div_le; lia).
        assert (0 <= n / 10) by (apply Z.div_pos; lia). lia. }
      pose proof (Z.log2_nonneg (n / 10)). lia.
    + exists (ds ++ [0x30 + n mod 10]). rewrite <- app_assoc. split; [done|].
      split; [by destruct ds|]. split; [apply Forall_app; split; [done|repeat constructor; lia]|].
      rewrite digits_value_app, Hv. cbn. lia.
Qed.

Lemma format_unsigned_spec n :
  0 <= n ->
  format_unsigned n <> [] /\ Forall (fun c => 0x30 <= c <= 0x39) (format_unsigned n) /\
  digits_value (format_unsigned n) = n.
Proof.
  intros Hn. destruct (digits_loop_spec (S (Z.to_nat (Z.log2 n))) n [] Hn ltac:(lia)) as (ds & E & H).
  unfold format_unsigned. rewrite E, app_nil_r. done.
Qed.

Lemma format_int_unsigned n : 0 <= n -> format_int n = format_unsigned n.
Proof. intros Hn. unfold format_int. by destruct (Z.ltb_spec n 0); [lia|]. Qed.
