(* ===== verification/TerminalInput.v ===== *)
(** * Keyboard and mouse to VT sequences

    Models [TerminalInput] (src/src/terminal/input/terminalInput.{hpp,cpp},
    mouseInput.cpp, mouseInputState.cpp): the translation of key, mouse and focus
    events to the sequences an application reads.

    The events given to the callback [_pfnWriteEvents] are appended to [_written], one
    list for each call; the callback does not fail (the code logs its exceptions and
    goes on).  The keyboard layout is a class. *)

From S2P Require Import Prelude EnumSet Geometry InputEvents.

Local Open Scope Z_scope.

Module TerminalInput.

Inductive Mode :=
| Ansi | AutoRepeat | Keypad | CursorKey | BackarrowKey | Win32
| Utf8MouseEncoding | SgrMouseEncoding
| DefaultMouseTracking | ButtonEventMouseTracking | AnyEventMouseTracking
| FocusEvent | AlternateScroll.

#[global] Instance Mode_eq_dec : EqDecision Mode.
Proof. solve_decision. Defined.

#[global] Instance Mode_position : EnumPos Mode := fun m =>
  match m with
  | Ansi => 0 | AutoRepeat => 1 | Keypad => 2 | CursorKey => 3 | BackarrowKey => 4 | Win32 => 5
  | Utf8MouseEncoding => 6 | SgrMouseEncoding => 7
  | DefaultMouseTracking => 8 | ButtonEventMouseTracking => 9 | AnyEventMouseTracking => 10
  | FocusEvent => 11 | AlternateScroll => 12
  end.

Record MouseInputState := mkMouseInputState {
  inAlternateBuffer : bool;
  lastPos : point;
  lastButton : Z;
  accumulatedDelta : Z
}.

Record TerminalInput := mkTerminalInput {
  _written : list (list KeyEvent);
  _leadingSurrogate : option wchar;
  _lastVirtualKeyCode : option Z;
  _inputMode : enumset;
  _forceDisableWin32InputMode : bool;
  _mouseInputState : MouseInputState
}.

Definition TerminalInput_new : TerminalInput :=
  mkTerminalInput [] None None (enumset_new [Ansi; AutoRepeat]) false (mkMouseInputState false (Point (-1) (-1)) 0 0).

Definition set_written (w : list (list KeyEvent)) (t : TerminalInput) : TerminalInput :=
  mkTerminalInput w (_leadingSurrogate t) (_lastVirtualKeyCode t) (_inputMode t)
    (_forceDisableWin32InputMode t) (_mouseInputState t).
Definition set_leadingSurrogate (c : option wchar) (t : TerminalInput) : TerminalInput :=
  mkTerminalInput (_written t) c (_lastVirtualKeyCode t) (_inputMode t)
    (_forceDisableWin32InputMode t) (_mouseInputState t).
Definition set_lastVirtualKeyCode (v : option Z) (t : TerminalInput) : TerminalInput :=
  mkTerminalInput (_written t) (_leadingSurrogate t) v (_inputMode t)
    (_forceDisableWin32InputMode t) (_mouseInputState t).
Definition set_inputMode (m : enumset) (t : TerminalInput) : TerminalInput :=
  mkTerminalInput (_written t) (_leadingSurrogate t) (_lastVirtualKeyCode t) m
    (_forceDisableWin32InputMode t) (_mouseInputState t).
Definition set_mouse (m : MouseInputState) (t : TerminalInput) : TerminalInput :=
  mkTerminalInput (_written t) (_leadingSurrogate t) (_lastVirtualKeyCode t) (_inputMode t)
    (_forceDisableWin32InputMode t) m.
Definition ForceDisableWin32InputMode (b : bool) (t : TerminalInput) : TerminalInput :=
  mkTerminalInput (_written t) (_leadingSurrogate t) (_lastVirtualKeyCode t) (_inputMode t) b (_mouseInputState t).

(** ** Modes *)

(** [_mouseInputState.lastPos = { -1, -1 }; lastButton = 0]. *)
Definition forget_position (t : TerminalInput) : TerminalInput :=
  let m := _mouseInputState t in
  set_mouse (mkMouseInputState (inAlternateBuffer m) (Point (-1) (-1)) 0 (accumulatedDelta m)) t.

Definition is_tracking (mode : Mode) : bool :=
  match mode with DefaultMouseTracking | ButtonEventMouseTracking | AnyEventMouseTracking => true | _ => false end.
Definition is_encoding (mode : Mode) : bool :=
  match mode with Utf8MouseEncoding | SgrMouseEncoding => true | _ => false end.

Definition SetInputMode (mode : Mode) (enabled : bool) (t : TerminalInput) : TerminalInput :=
  let t := if is_tracking mode then
             forget_position (set_inputMode (enumset_reset (_inputMode t)
               [DefaultMouseTracking; ButtonEventMouseTracking; AnyEventMouseTracking]) t)
           else t in
  let t := if is_encoding mode && enabled then
             set_inputMode (enumset_reset (_inputMode t) [Utf8MouseEncoding; SgrMouseEncoding]) t
           else t in
  set_inputMode (enumset_set_to (_inputMode t) mode enabled) t.

Definition GetInputMode (mode : Mode) (t : TerminalInput) : bool := enumset_test (_inputMode t) mode.

Definition ResetInputModes (t : TerminalInput) : TerminalInput :=
  forget_position (set_inputMode (enumset_new [Ansi; AutoRepeat]) t).

Definition UseAlternateScreenBuffer (t : TerminalInput) : TerminalInput :=
  let m := _mouseInputState t in set_mouse (mkMouseInputState true (lastPos m) (lastButton m) (accumulatedDelta m)) t.
Definition UseMainScreenBuffer (t : TerminalInput) : TerminalInput :=
  let m := _mouseInputState t in set_mouse (mkMouseInputState false (lastPos m) (lastButton m) (accumulatedDelta m)) t.

(** ** Key tables *)

Record TermKeyMap := mkTermKeyMap {
  vkey : Z;
  modifiers : Z;
  sequence : wstring
}.

Definition plain_key (v : Z) (s : wstring) : TermKeyMap := mkTermKeyMap v 0 s.

(** Sequences that begin with ESC. *)
Definition esc (s : String.string) : wstring := 0x1B :: L s.
Arguments esc s%_string_scope.

Definition s_cursorKeysNormalMapping : list TermKeyMap :=
  [plain_key VK_UP (esc "[A"); plain_key VK_DOWN (esc "[B"); plain_key VK_RIGHT (esc "[C");
   plain_key VK_LEFT (esc "[D"); plain_key VK_HOME (esc "[H"); plain_key VK_END (esc "[F")].

Definition s_cursorKeysApplicationMapping : list TermKeyMap :=
  [plain_key VK_UP (esc "OA"); plain_key VK_DOWN (esc "OB"); plain_key VK_RIGHT (esc "OC");
   plain_key VK_LEFT (esc "OD"); plain_key VK_HOME (esc "OH"); plain_key VK_END (esc "OF")].

Definition s_cursorKeysVt52Mapping : list TermKeyMap :=
  [plain_key VK_UP (esc "A"); plain_key VK_DOWN (esc "B"); plain_key VK_RIGHT (esc "C");
   plain_key VK_LEFT (esc "D"); plain_key VK_HOME (esc "H"); plain_key VK_END (esc "F")].

Definition s_keypadNumericMapping : list TermKeyMap :=
  [plain_key VK_TAB [0x09]; plain_key VK_PAUSE [0x1A]; plain_key VK_ESCAPE [0x1B];
   plain_key VK_INSERT (esc "[2~"); plain_key VK_DELETE (esc "[3~");
   plain_key VK_PRIOR (esc "[5~"); plain_key VK_NEXT (esc "[6~");
   plain_key VK_F1 (esc "OP"); plain_key VK_F2 (esc "OQ"); plain_key VK_F3 (esc "OR"); plain_key VK_F4 (esc "OS");
   plain_key VK_F5 (esc "[15~"); plain_key VK_F6 (esc "[17~"); plain_key VK_F7 (esc "[18~");
   plain_key VK_F8 (esc "[19~"); plain_key VK_F9 (esc "[20~"); plain_key VK_F10 (esc "[21~");
   plain_key VK_F11 (esc "[23~"); plain_key VK_F12 (esc "[24~")].

Definition s_keypadApplicationMapping : list TermKeyMap :=
  [plain_key VK_TAB [0x09]; plain_key VK_PAUSE [0x1A]; plain_key VK_ESCAPE [0x1B];
   plain_key VK_INSERT (esc "[2~"); plain_key VK_DELETE (esc "[3~");
   plain_key VK_PRIOR (esc "[5~"); plain_key VK_NEXT (esc "[6~");
   plain_key VK_F1 (esc "OP"); plain_key VK_F2 (esc "OQ"); plain_key VK_F3 (esc "OR"); plain_key VK_F4 (esc "OS");
   plain_key VK_F5 (esc "[15~"); plain_key VK_F6 (esc "[17~"); plain_key VK_F7 (esc "[18~");
   plain_key VK_F8 (esc "[19~"); plain_key VK_F9 (esc "[20~"); plain_key VK_F10 (esc "[21~");
   plain_key VK_F11 (esc "[23~"); plain_key VK_F12 (esc "[24~")].

Definition s_keypadVt52Mapping : list TermKeyMap :=
  [plain_key VK_TAB [0x09]; plain_key VK_PAUSE [0x1A]; plain_key VK_ESCAPE [0x1B];
   plain_key VK_INSERT (esc "[2~"); plain_key VK_DELETE (esc "[3~");
   plain_key VK_PRIOR (esc "[5~"); plain_key VK_NEXT (esc "[6~");
   plain_key VK_F1 (esc "P"); plain_key VK_F2 (esc "Q"); plain_key VK_F3 (esc "R"); plain_key VK_F4 (esc "S");
   plain_key VK_F5 (esc "[15~"); plain_key VK_F6 (esc "[17~"); plain_key VK_F7 (esc "[18~");
   plain_key VK_F8 (esc "[19~"); plain_key VK_F9 (esc "[20~"); plain_key VK_F10 (esc "[21~");
   plain_key VK_F11 (esc "[23~"); plain_key VK_F12 (esc "[24~")].

(** The [m] before the last character is replaced by the modifiers. *)
Definition s_modifierKeyMapping : list TermKeyMap :=
  [plain_key VK_UP (esc "[1;mA"); plain_key VK_DOWN (esc "[1;mB"); plain_key VK_RIGHT (esc "[1;mC");
   plain_key VK_LEFT (esc "[1;mD"); plain_key VK_HOME (esc "[1;mH"); plain_key VK_END (esc "[1;mF");
   plain_key VK_F1 (esc "[1;mP"); plain_key VK_F2 (esc "[1;mQ"); plain_key VK_F3 (esc "[1;mR");
   plain_key VK_F4 (esc "[1;mS"); plain_key VK_INSERT (esc "[2;m~"); plain_key VK_DELETE (esc "[3;m~");
   plain_key VK_PRIOR (esc "[5;m~"); plain_key VK_NEXT (esc "[6;m~"); plain_key VK_F5 (esc "[15;m~");
   plain_key VK_F6 (esc "[17;m~"); plain_key VK_F7 (esc "[18;m~"); plain_key VK_F8 (esc "[19;m~");
   plain_key VK_F9 (esc "[20;m~"); plain_key VK_F10 (esc "[21;m~"); plain_key VK_F11 (esc "[23;m~");
   plain_key VK_F12 (esc "[24;m~")].

Definition s_simpleModifiedKeyMapping : list TermKeyMap :=
  [mkTermKeyMap VK_TAB CTRL_PRESSED [0x09]; mkTermKeyMap VK_TAB SHIFT_PRESSED (esc "[Z");
   mkTermKeyMap VK_DIVIDE CTRL_PRESSED [0x1F];
   mkTermKeyMap 0x31 CTRL_PRESSED (L"1"); mkTermKeyMap 0x33 CTRL_PRESSED [0x1B];
   mkTermKeyMap 0x34 CTRL_PRESSED [0x1C]; mkTermKeyMap 0x35 CTRL_PRESSED [0x1D];
   mkTermKeyMap 0x36 CTRL_PRESSED [0x1E]; mkTermKeyMap 0x37 CTRL_PRESSED [0x1F];
   mkTermKeyMap 0x38 CTRL_PRESSED [0x7F]; mkTermKeyMap 0x39 CTRL_PRESSED (L"9")].

Definition CTRL_SLASH_SEQUENCE : wstring := [0x1F].
Definition CTRL_QUESTIONMARK_SEQUENCE : wstring := [0x7F].
Definition CTRL_ALT_SLASH_SEQUENCE : wstring := [0x1B; 0x1F].
Definition CTRL_ALT_QUESTIONMARK_SEQUENCE : wstring := [0x1B; 0x7F].

Definition _getKeyMapping (keyEvent : KeyEvent) (ansiMode cursorApplicationMode keypadApplicationMode : bool)
    : list TermKeyMap :=
  if ansiMode then
    if IsCursorKey keyEvent then
      if cursorApplicationMode then s_cursorKeysApplicationMapping else s_cursorKeysNormalMapping
    else if keypadApplicationMode then s_keypadApplicationMapping else s_keypadNumericMapping
  else if IsCursorKey keyEvent then s_cursorKeysVt52Mapping else s_keypadVt52Mapping.

(** The entry applies to the key with its modifiers. *)
Definition entry_matches (keyEvent : KeyEvent) (map : TermKeyMap) : bool :=
  (vkey map =? _virtualKeyCode keyEvent) &&
  (negb (WI_IsAnyFlagSet (modifiers map) MOD_PRESSED) ||
   (Bool.eqb (WI_IsAnyFlagSet (modifiers map) SHIFT_PRESSED) (IsShiftPressed keyEvent) &&
    Bool.eqb (WI_IsAnyFlagSet (modifiers map) ALT_PRESSED) (IsAltPressed keyEvent) &&
    Bool.eqb (WI_IsAnyFlagSet (modifiers map) CTRL_PRESSED) (IsCtrlPressed keyEvent))).

Definition _searchKeyMapping (keyEvent : KeyEvent) (keyMapping : list TermKeyMap) : option TermKeyMap :=
  List.find (entry_matches keyEvent) keyMapping.

(** ** Sending *)

Definition write_events (events : list KeyEvent) (t : TerminalInput) : TerminalInput :=
  set_written (_written t ++ [events]) t.

Definition character_event (wch : wchar) : KeyEvent := mkKeyEvent true 1 0 0 wch 0.

Definition _SendInputSequence (sequence : wstring) (t : TerminalInput) : TerminalInput :=
  match sequence with
  | [] => t
  | _ => write_events (map character_event sequence) t
  end.

Definition _SendEscapedInputSequence (wch : wchar) (t : TerminalInput) : TerminalInput :=
  write_events [character_event 0x1B; character_event wch] t.

Definition is_leading_surrogate (wch : wchar) : bool := Z.land wch 0xFC00 =? 0xD800.

Definition _SendChar (ch : wchar) (t : TerminalInput) : TerminalInput :=
  if is_leading_surrogate ch then
    let t := match _leadingSurrogate t with
             | Some c => _SendInputSequence (format_unsigned c) t
             | None => t
             end in
    set_leadingSurrogate (Some ch) t
  else
    match _leadingSurrogate t with
    | Some c => _SendInputSequence [c; ch] (set_leadingSurrogate None t)
    | None => _SendInputSequence [ch] t
    end.

Section Keys.
Context `{Keyboard}.

Definition _SendNullInputSequence (controlKeyState : Z) (t : TerminalInput) : TerminalInput :=
  write_events [mkKeyEvent true 1 (LOBYTE (OneCoreSafeVkKeyScanW 0)) 0 0 controlKeyState] t.

(** The parameter that encodes the modifiers. *)
Definition modifier_digit (keyEvent : KeyEvent) : wchar :=
  0x31 + (if IsShiftPressed keyEvent then 1 else 0) + (if IsAltPressed keyEvent then 2 else 0)
       + (if IsCtrlPressed keyEvent then 4 else 0).

(** [modified.at(modified.size() - 2) = ...]; every sequence of the table is longer. *)
Definition with_modifier (keyEvent : KeyEvent) (sequence : wstring) : wstring :=
  <[(length sequence - 2)%nat := modifier_digit keyEvent]> sequence.

(** The sequences of [Ctrl] with a slash or a question mark. *)
Definition slash_sequence (keyEvent : KeyEvent) : option wstring :=
  let slashKeyScan := OneCoreSafeVkKeyScanW 0x2F in
  let questionMarkKeyScan := OneCoreSafeVkKeyScanW 0x3F in
  let ctrl := IsCtrlPressed keyEvent in
  let alt := IsAltPressed keyEvent in
  let shift := IsShiftPressed keyEvent in
  let vkey := _virtualKeyCode keyEvent in
  let keyScanFromEvent :=
    wraps 16 (Z.lor vkey (Z.lor (if shift then 0x100 else 0) (Z.lor (if ctrl then 0x200 else 0)
                                  (if alt then 0x400 else 0)))) in
  let wasQuestionMark := (vkey =? LOBYTE questionMarkKeyScan) && WI_AreAllFlagsSet keyScanFromEvent questionMarkKeyScan in
  let wasSlash := (vkey =? LOBYTE slashKeyScan) && WI_AreAllFlagsSet keyScanFromEvent slashKeyScan in
  if (ctrl && alt) && wasQuestionMark then Some CTRL_ALT_QUESTIONMARK_SEQUENCE
  else if ctrl && wasQuestionMark then Some CTRL_QUESTIONMARK_SEQUENCE
  else if (ctrl && alt) && wasSlash then Some CTRL_ALT_SLASH_SEQUENCE
  else if ctrl && wasSlash then Some CTRL_SLASH_SEQUENCE
  else None.

(** What [_searchWithModifier] sends, if it finds something. *)
Definition _searchWithModifier (keyEvent : KeyEvent) : option wstring :=
  match _searchKeyMapping keyEvent s_modifierKeyMapping with
  | Some v =>
      match sequence v with
      | [] => None
      | s => Some (with_modifier keyEvent s)
      end
  | None =>
      match _searchKeyMapping keyEvent s_simpleModifiedKeyMapping with
      | Some v => Some (sequence v)
      | None => slash_sequence keyEvent
      end
  end.

Definition _translateDefaultMapping (keyEvent : KeyEvent) (keyMapping : list TermKeyMap) : option wstring :=
  sequence <$> _searchKeyMapping keyEvent keyMapping.

Definition _GenerateWin32KeySequence (key : KeyEvent) : wstring :=
  esc "[" ++ format_unsigned (_virtualKeyCode key) ++ [0x3B] ++
  format_unsigned (_virtualScanCode key) ++ [0x3B] ++ format_unsigned (_charData key) ++ [0x3B] ++
  (if _keyDown key then L"1" else L"0") ++ [0x3B] ++ format_unsigned (_activeModifierKeys key) ++ [0x3B] ++
  format_unsigned (_repeatCount key) ++ L"_".

Definition HandleFocus (focused : bool) (t : TerminalInput) : TerminalInput * bool :=
  let enabled := enumset_test (_inputMode t) FocusEvent in
  (if enabled then _SendInputSequence (if focused then esc "[I" else esc "[O") t else t, enabled).

(** The backarrow key. *)
Definition handle_back (keyEvent : KeyEvent) (t : TerminalInput) : TerminalInput :=
  let backarrowMode := negb (Bool.eqb (enumset_test (_inputMode t) BackarrowKey) (IsCtrlPressed keyEvent)) in
  let seq := if backarrowMode then 0x08 else 0x7F in
  if IsAltPressed keyEvent then _SendEscapedInputSequence seq t else _SendInputSequence [seq] t.

(** The character of [Ctrl] and [Alt] with a letter, a space or an at sign. *)
Definition ctrl_alt_character (keyEvent : KeyEvent) : option wchar :=
  let ch := _charData keyEvent in
  let vkey := _virtualKeyCode keyEvent in
  let ctrlAltChar := if negb (ch =? 0) then ch else vkey in
  if (ctrlAltChar =? 0x20) || ((0x40 <? ctrlAltChar) && (ctrlAltChar <=? 0x5A))
  then Some (Z.land ctrlAltChar 0x1F)
  else if (ch =? 0) && (vkey =? LOBYTE (OneCoreSafeVkKeyScanW 0)) then Some 0
  else None.

(** The section for [Ctrl] without [Alt]: it may handle the event. *)
Definition handle_ctrl (keyEvent : KeyEvent) (t : TerminalInput) : option TerminalInput :=
  let ch := _charData keyEvent in
  let vkey := _virtualKeyCode keyEvent in
  if (ch =? 0x20) || ((ch =? 0) && (vkey =? LOBYTE (OneCoreSafeVkKeyScanW 0))) then
    Some (_SendNullInputSequence (_activeModifierKeys keyEvent) t)
  else if ch =? 0 then
    let mappedChar := LOWORD (OneCoreSafeMapVirtualKeyW vkey MAPVK_VK_TO_CHAR) in
    if negb (mappedChar =? 0) then Some (_SendChar (Z.land mappedChar 0x1F) t) else None
  else None.

(** The rest of [HandleKey], from the sequences with modifiers on. *)
Definition handle_mappings (keyEvent : KeyEvent) (t : TerminalInput) : TerminalInput * bool :=
  match (if IsModifierPressed keyEvent then _searchWithModifier keyEvent else None) with
  | Some seq => (_SendInputSequence seq t, true)
  | None =>
      if IsAltPressed keyEvent && negb (IsCtrlPressed keyEvent) && negb (_charData keyEvent =? 0) then
        (_SendEscapedInputSequence (_charData keyEvent) t, true)
      else
        match (if negb (IsAltPressed keyEvent) && IsCtrlPressed keyEvent then handle_ctrl keyEvent t else None) with
        | Some t => (t, true)
        | None =>
            let mapping := _getKeyMapping keyEvent (enumset_test (_inputMode t) Ansi)
                             (enumset_test (_inputMode t) CursorKey) (enumset_test (_inputMode t) Keypad) in
            match _translateDefaultMapping keyEvent mapping with
            | Some seq => (_SendInputSequence seq t, true)
            | None =>
                if negb (_charData keyEvent =? 0) then (_SendChar (_charData keyEvent) t, true)
                else (t, false)
            end
        end
  end.

(** A key press that is not suppressed. *)
Definition handle_press (keyEvent : KeyEvent) (t : TerminalInput) : TerminalInput * bool :=
  if _virtualKeyCode keyEvent =? VK_BACK then (handle_back keyEvent t, true)
  else
    let keyEvent := if IsAltGrPressed keyEvent
                    then DeactivateModifierKey RIGHT_ALT_PRESSED (DeactivateModifierKey LEFT_CTRL_PRESSED keyEvent)
                    else keyEvent in
    match (if IsAltPressed keyEvent && IsCtrlPressed keyEvent then ctrl_alt_character keyEvent else None) with
    | Some c => (_SendEscapedInputSequence c t, true)
    | None => handle_mappings keyEvent t
    end.

(** [HandleKey] of an event that is there. *)
Definition HandleKey (inEvent : IInputEvent) (t : TerminalInput) : TerminalInput * bool :=
  match inEvent with
  | Focus focus cameFromApi => if cameFromApi then (t, false) else HandleFocus focus t
  | Key keyEvent =>
      if enumset_test (_inputMode t) Win32 && negb (_forceDisableWin32InputMode t) then
        (_SendInputSequence (_GenerateWin32KeySequence keyEvent) t, true)
      else
        let matchingLastKeyPress := bool_decide (_lastVirtualKeyCode t = Some (_virtualKeyCode keyEvent)) in
        if negb (_keyDown keyEvent) then
          (if matchingLastKeyPress then set_lastVirtualKeyCode None t else t, false)
        else if matchingLastKeyPress && negb (enumset_test (_inputMode t) AutoRepeat) then (t, true)
        else handle_press keyEvent (set_lastVirtualKeyCode (Some (_virtualKeyCode keyEvent)) t)
  | _ => (t, false)
  end.

End Keys.

(** ** The mouse *)

Definition WM_MOUSEMOVE : Z := 0x0200.
Definition WM_LBUTTONDOWN : Z := 0x0201.
Definition WM_LBUTTONUP : Z := 0x0202.
Definition WM_LBUTTONDBLCLK : Z := 0x0203.
Definition WM_RBUTTONDOWN : Z := 0x0204.
Definition WM_RBUTTONUP : Z := 0x0205.
Definition WM_RBUTTONDBLCLK : Z := 0x0206.
Definition WM_MBUTTONDOWN : Z := 0x0207.
Definition WM_MBUTTONUP : Z := 0x0208.
Definition WM_MBUTTONDBLCLK : Z := 0x0209.
Definition WM_MOUSEWHEEL : Z := 0x020A.
Definition WM_MOUSEHWHEEL : Z := 0x020E.
Definition WHEEL_DELTA : Z := 120.
Definition SHORT_MAX : Z := 32767.

Definition s_MaxDefaultCoordinate : Z := 94.
Definition CursorUpSequence : wstring := esc "[A".
Definition CursorDownSequence : wstring := esc "[B".
Definition ApplicationUpSequence : wstring := esc "OA".
Definition ApplicationDownSequence : wstring := esc "OB".

Record MouseButtonState := mkMouseButtonState {
  isLeftButtonDown : bool;
  isMiddleButtonDown : bool;
  isRightButtonDown : bool
}.

Definition _isButtonMsg (button : Z) : bool :=
  one_of button [WM_LBUTTONDBLCLK; WM_LBUTTONDOWN; WM_LBUTTONUP; WM_MBUTTONUP; WM_RBUTTONUP; WM_RBUTTONDOWN;
                 WM_RBUTTONDBLCLK; WM_MBUTTONDOWN; WM_MBUTTONDBLCLK; WM_MOUSEWHEEL; WM_MOUSEHWHEEL].
Definition _isHoverMsg (buttonCode : Z) : bool := buttonCode =? WM_MOUSEMOVE.
Definition _isWheelMsg (buttonCode : Z) : bool := (buttonCode =? WM_MOUSEWHEEL) || (buttonCode =? WM_MOUSEHWHEEL).
Definition _isButtonDown (button : Z) : bool :=
  one_of button [WM_LBUTTONDBLCLK; WM_LBUTTONDOWN; WM_RBUTTONDOWN; WM_RBUTTONDBLCLK; WM_MBUTTONDOWN;
                 WM_MBUTTONDBLCLK; WM_MOUSEWHEEL; WM_MOUSEHWHEEL].

Definition s_GetPressedButton (state : MouseButtonState) : Z :=
  if isLeftButtonDown state then WM_LBUTTONDOWN
  else if isMiddleButtonDown state then WM_MBUTTONDOWN
  else if isRightButtonDown state then WM_RBUTTONDOWN
  else WM_LBUTTONUP.

(** [WI_UpdateFlag]. *)
Definition WI_UpdateFlag (v flag : Z) (b : bool) : Z :=
  if b then Z.lor v flag else Z.land v (Z.lnot flag).

(** The modifiers and the motion, which both encodings add to the button. *)
Definition add_modifiers (xvalue : Z) (isHover : bool) (modifierKeyState : Z) : Z :=
  let xvalue := if isHover then xvalue + 0x20 else xvalue in
  let xvalue := WI_UpdateFlag xvalue 0x04 (WI_IsAnyFlagSet modifierKeyState SHIFT_PRESSED) in
  let xvalue := WI_UpdateFlag xvalue 0x08 (WI_IsAnyFlagSet modifierKeyState ALT_PRESSED) in
  WI_UpdateFlag xvalue 0x10 (WI_IsAnyFlagSet modifierKeyState CTRL_PRESSED).

Definition _windowsButtonToXEncoding (button : Z) (isHover : bool) (modifierKeyState delta : Z) : Z :=
  let xvalue :=
    if one_of button [WM_LBUTTONDBLCLK; WM_LBUTTONDOWN] then 0
    else if one_of button [WM_LBUTTONUP; WM_MBUTTONUP; WM_RBUTTONUP] then 3
    else if one_of button [WM_RBUTTONDOWN; WM_RBUTTONDBLCLK] then 2
    else if one_of button [WM_MBUTTONDOWN; WM_MBUTTONDBLCLK] then 1
    else if one_of button [WM_MOUSEWHEEL; WM_MOUSEHWHEEL] then (if 0 <? delta then 0x40 else 0x41)
    else 0 in
  add_modifiers xvalue isHover modifierKeyState.

Definition _windowsButtonToSGREncoding (button : Z) (isHover : bool) (modifierKeyState delta : Z) : Z :=
  let xvalue :=
    if one_of button [WM_LBUTTONDBLCLK; WM_LBUTTONDOWN; WM_LBUTTONUP] then 0
    else if one_of button [WM_RBUTTONUP; WM_RBUTTONDOWN; WM_RBUTTONDBLCLK] then 2
    else if one_of button [WM_MBUTTONUP; WM_MBUTTONDOWN; WM_MBUTTONDBLCLK] then 1
    else if button =? WM_MOUSEMOVE then 3
    else if one_of button [WM_MOUSEWHEEL; WM_MOUSEHWHEEL] then (if 0 <? delta then 0x40 else 0x41)
    else 0 in
  add_modifiers xvalue isHover modifierKeyState.

Definition _winToVTCoord (p : point) : point := Point (x p + 1) (y p + 1).
Definition _encodeDefaultCoordinate (sCoordinateValue : Z) : Z := sCoordinateValue + 32.

Definition IsTrackingMouseInput (t : TerminalInput) : bool :=
  enumset_any (_inputMode t) [DefaultMouseTracking; ButtonEventMouseTracking; AnyEventMouseTracking].

(** The sequence of the default and the UTF-8 encoding. *)
Definition encoded_mouse (position : point) (button : Z) (isHover : bool) (modifierKeyState delta : Z) : wstring :=
  let vtCoords := _winToVTCoord position in
  esc "[M" ++ [u16 (0x20 + _windowsButtonToXEncoding button isHover modifierKeyState delta);
               u16 (_encodeDefaultCoordinate (x vtCoords)); u16 (_encodeDefaultCoordinate (y vtCoords))].

Definition _GenerateDefaultSequence (position : point) (button : Z) (isHover : bool) (modifierKeyState delta : Z) : wstring :=
  if (x position <=? s_MaxDefaultCoordinate) && (y position <=? s_MaxDefaultCoordinate)
  then encoded_mouse position button isHover modifierKeyState delta else [].

Definition _GenerateUtf8Sequence (position : point) (button : Z) (isHover : bool) (modifierKeyState delta : Z) : wstring :=
  if (x position <=? SHORT_MAX - 33) && (y position <=? SHORT_MAX - 33)
  then encoded_mouse position button isHover modifierKeyState delta else [].

Definition _GenerateSGRSequence (position : point) (button : Z) (isDown isHover : bool) (modifierKeyState delta : Z) : wstring :=
  let xbutton := _windowsButtonToSGREncoding button isHover modifierKeyState delta in
  esc "[<" ++ format_int xbutton ++ [0x3B] ++ format_int (x position + 1) ++ [0x3B] ++
  format_int (y position + 1) ++ (if isDown then L"M" else L"m").

Definition ShouldSendAlternateScroll (button delta : Z) (t : TerminalInput) : bool :=
  let inAltBuffer := inAlternateBuffer (_mouseInputState t) in
  let inAltScroll := enumset_test (_inputMode t) AlternateScroll in
  let wasMouseWheel := ((button =? WM_MOUSEWHEEL) || (button =? WM_MOUSEHWHEEL)) && negb (delta =? 0) in
  inAltBuffer && inAltScroll && wasMouseWheel.

Definition _SendAlternateScroll (delta : Z) (t : TerminalInput) : TerminalInput :=
  let application := enumset_test (_inputMode t) CursorKey in
  if 0 <? delta
  then _SendInputSequence (if application then ApplicationUpSequence else CursorUpSequence) t
  else _SendInputSequence (if application then ApplicationDownSequence else CursorDownSequence) t.

Definition set_accumulatedDelta (d : Z) (t : TerminalInput) : TerminalInput :=
  let m := _mouseInputState t in set_mouse (mkMouseInputState (inAlternateBuffer m) (lastPos m) (lastButton m) d) t.
Definition set_last (p : point) (button : Z) (t : TerminalInput) : TerminalInput :=
  let m := _mouseInputState t in set_mouse (mkMouseInputState (inAlternateBuffer m) p button (accumulatedDelta m)) t.

(** The sequence of an event that is sent, in the encoding that is set. *)
Definition mouse_sequence (position : point) (button realButton modifierKeyState delta : Z) (t : TerminalInput) : wstring :=
  let isHover := _isHoverMsg button in
  let physicalButtonPressed := negb (realButton =? WM_LBUTTONUP) in
  if enumset_test (_inputMode t) Utf8MouseEncoding then
    _GenerateUtf8Sequence position realButton isHover modifierKeyState delta
  else if enumset_test (_inputMode t) SgrMouseEncoding then
    _GenerateSGRSequence position (if physicalButtonPressed then realButton else button)
      (_isButtonDown realButton) isHover modifierKeyState delta
  else _GenerateDefaultSequence position realButton isHover modifierKeyState delta.

(** The branch of [HandleMouse] for an event that is not an alternate scroll. *)
Definition track_mouse (position : point) (button modifierKeyState delta : Z) (state : MouseButtonState)
    (t : TerminalInput) : TerminalInput * bool :=
  if IsTrackingMouseInput t then
    let isHover := _isHoverMsg button in
    let isButton := _isButtonMsg button in
    let m := _mouseInputState t in
    let sameCoord := (x position =? x (lastPos m)) && (y position =? y (lastPos m)) && (lastButton m =? button) in
    let realButton := if isHover then s_GetPressedButton state else button in
    let physicalButtonPressed := negb (realButton =? WM_LBUTTONUP) in
    let success :=
      (isButton && IsTrackingMouseInput t) ||
      (isHover && enumset_test (_inputMode t) ButtonEventMouseTracking && (negb sameCoord && physicalButtonPressed)) ||
      (isHover && enumset_test (_inputMode t) AnyEventMouseTracking && negb sameCoord) in
    if success then
      let sequence := mouse_sequence position button realButton modifierKeyState delta t in
      let success := negb (bool_decide (sequence = [])) in
      let t := if success then _SendInputSequence sequence t else t in
      let t := if enumset_any (_inputMode t) [ButtonEventMouseTracking; AnyEventMouseTracking]
               then set_last position button t else t in
      (t, success)
    else (t, false)
  else (t, false).

Definition HandleMouse (position : point) (button modifierKeyState delta : Z) (state : MouseButtonState)
    (t : TerminalInput) : TerminalInput * bool :=
  let t := if negb (Z.sgn delta =? Z.sgn (accumulatedDelta (_mouseInputState t)))
           then set_accumulatedDelta 0 t else t in
  let dispatch t :=
    if ShouldSendAlternateScroll button delta t then (_SendAlternateScroll delta t, true)
    else track_mouse position button modifierKeyState delta state t in
  if _isWheelMsg button then
    let accumulated := accumulatedDelta (_mouseInputState t) + delta in
    if Z.abs accumulated <? WHEEL_DELTA then
      let t := set_accumulatedDelta accumulated t in
      (t, IsTrackingMouseInput t || ShouldSendAlternateScroll button delta t)
    else dispatch (set_accumulatedDelta 0 t)
  else dispatch t.

End TerminalInput.
