(* ===== verification/InputEngine.v ===== *)
(** * The input engine

    Models [InputStateMachineEngine]
    (src/src/terminal/parser/InputStateMachineEngine.{hpp,cpp}), the engine that turns
    the VT sequences a terminal sends to a console into input events.

    The engine owns an [IInteractDispatch], whose methods do not see the parser: they
    are computations over the dispatcher's own state.  [_pfnFlushToInputQueue] is null
    or the machine's own [FlushToTerminal] (VtInputThread.cpp binds no other), so its
    presence is a member.  The clock is a method of the dispatcher, and times are
    milliseconds.  The engine sets no string handler and no completion callback. *)

From S2P Require Import Prelude Effects DispatchTypes StateMachine Geometry InputEvents.

Local Open Scope Z_scope.

(** ** Codes *)

Definition KEYSCAN_SHIFT : Z := 1.
Definition KEYSCAN_CTRL : Z := 2.
Definition KEYSCAN_ALT : Z := 4.
Definition VT_SHIFT : Z := 1.
Definition VT_ALT : Z := 2.
Definition VT_CTRL : Z := 4.
Definition SCROLL_DELTA_BACKWARD : Z := 0xFF800000.
Definition SCROLL_DELTA_FORWARD : Z := 0x00800000.
Definition UNICODE_ETX : wchar := 0x03.

Module InputCsi.
Definition ArrowUp : VTID := VTID_FromString (L"A").
Definition ArrowDown : VTID := VTID_FromString (L"B").
Definition ArrowRight : VTID := VTID_FromString (L"C").
Definition ArrowLeft : VTID := VTID_FromString (L"D").
Definition Home : VTID := VTID_FromString (L"H").
Definition End_ : VTID := VTID_FromString (L"F").
Definition FocusIn : VTID := VTID_FromString (L"I").
Definition FocusOut : VTID := VTID_FromString (L"O").
Definition MouseDown : VTID := VTID_FromString (L"<M").
Definition MouseUp : VTID := VTID_FromString (L"<m").
Definition Generic : VTID := VTID_FromString (L"~").
Definition CSI_F1 : VTID := VTID_FromString (L"P").
Definition CSI_F2 : VTID := VTID_FromString (L"Q").
Definition CSI_F3 : VTID := VTID_FromString (L"R").
Definition CSI_F4 : VTID := VTID_FromString (L"S").
Definition DTTERM_WindowManipulation : VTID := VTID_FromString (L"t").
Definition CursorBackTab : VTID := VTID_FromString (L"Z").
Definition Win32KeyboardInput : VTID := VTID_FromString (L"_").
End InputCsi.

Module CsiMouse.
Definition Left : Z := 0.
Definition Middle : Z := 1.
Definition Right : Z := 2.
Definition Released : Z := 3.
Definition ScrollForward : Z := 4.
Definition ScrollBack : Z := 5.
Definition Shift : Z := 4.
Definition Meta : Z := 8.
Definition Ctrl : Z := 16.
Definition Drag : Z := 32.
End CsiMouse.

(** [GenericKeyIdentifiers]: the numbers of the sequences that end in a tilde. *)
Module GenericKey.
Definition GenericHome : Z := 1.
Definition Insert : Z := 2.
Definition Delete : Z := 3.
Definition GenericEnd : Z := 4.
Definition Prior : Z := 5.
Definition Next : Z := 6.
Definition F5 : Z := 15.
Definition F6 : Z := 17.
Definition F7 : Z := 18.
Definition F8 : Z := 19.
Definition F9 : Z := 20.
Definition F10 : Z := 21.
Definition F11 : Z := 23.
Definition F12 : Z := 24.
End GenericKey.

Definition s_csiMap : list (VTID * Z) :=
  [(InputCsi.ArrowUp, VK_UP); (InputCsi.ArrowDown, VK_DOWN); (InputCsi.ArrowRight, VK_RIGHT);
   (InputCsi.ArrowLeft, VK_LEFT); (InputCsi.Home, VK_HOME); (InputCsi.End_, VK_END);
   (InputCsi.CSI_F1, VK_F1); (InputCsi.CSI_F2, VK_F2); (InputCsi.CSI_F3, VK_F3); (InputCsi.CSI_F4, VK_F4)].

Definition s_genericMap : list (Z * Z) :=
  [(GenericKey.GenericHome, VK_HOME); (GenericKey.Insert, VK_INSERT); (GenericKey.Delete, VK_DELETE);
   (GenericKey.GenericEnd, VK_END); (GenericKey.Prior, VK_PRIOR); (GenericKey.Next, VK_NEXT);
   (GenericKey.F5, VK_F5); (GenericKey.F6, VK_F6); (GenericKey.F7, VK_F7); (GenericKey.F8, VK_F8);
   (GenericKey.F9, VK_F9); (GenericKey.F10, VK_F10); (GenericKey.F11, VK_F11); (GenericKey.F12, VK_F12)].

(** The final characters of [Ss3ActionCodes]: A B C D F H P Q R S. *)
Definition s_ss3Map : list (wchar * Z) :=
  [(0x41, VK_UP); (0x42, VK_DOWN); (0x43, VK_RIGHT); (0x44, VK_LEFT); (0x46, VK_END); (0x48, VK_HOME);
   (0x50, VK_F1); (0x51, VK_F2); (0x52, VK_F3); (0x53, VK_F4)].

(** [std::find] in a table, and the key of the entry. *)
Definition find_vkey (table : list (Z * Z)) (code : Z) : option Z :=
  snd <$> List.find (fun entry => entry.1 =? code) table.

Definition _GetGenericVkey (identifier : Z) : option Z := find_vkey s_genericMap identifier.
Definition _GetCursorKeysVkey (id : VTID) : option Z := find_vkey s_csiMap id.
Definition _GetSs3KeysVkey (wch : wchar) : option Z := find_vkey s_ss3Map wch.

(** ** State and interfaces *)

Record InputStateMachineEngine (D : Type) := mkInputEngine {
  _pDispatch : D;
  _pfnFlushToInputQueue : bool;
  _lookingForDSR : bool;
  _mouseButtonState : Z;
  _doubleClickTime : Z;
  _lastMouseClickPos : option point;
  _lastMouseClickTime : option Z;
  _lastMouseClickButton : option Z
}.
Arguments mkInputEngine {D}.
Arguments _pDispatch {D}.
Arguments _pfnFlushToInputQueue {D}.
Arguments _lookingForDSR {D}.
Arguments _mouseButtonState {D}.
Arguments _doubleClickTime {D}.
Arguments _lastMouseClickPos {D}.
Arguments _lastMouseClickTime {D}.
Arguments _lastMouseClickButton {D}.

Class IInteractDispatch (D : Type) := {
  WriteInput : list IInputEvent -> M D bool;
  WriteCtrlKey : KeyEvent -> M D bool;
  WriteString : wstring -> M D bool;
  WindowManipulation : VTInt -> VTParameter -> VTParameter -> M D bool;
  MoveCursor : VTInt -> VTInt -> M D bool;
  IsVtInputEnabled : M D bool;
  FocusChanged : bool -> M D bool;
  steady_clock_now : M D Z
}.

(** The constructor, with the double click time of the system. *)
Definition InputStateMachineEngine_new {D} (pDispatch : D) (lookingForDSR : bool) (doubleClickTime : Z) :
    InputStateMachineEngine D :=
  mkInputEngine pDispatch false lookingForDSR 0 doubleClickTime None None None.

Definition SetFlushToInputQueueCallback {D} (e : InputStateMachineEngine D) : InputStateMachineEngine D :=
  mkInputEngine (_pDispatch e) true (_lookingForDSR e) (_mouseButtonState e) (_doubleClickTime e)
    (_lastMouseClickPos e) (_lastMouseClickTime e) (_lastMouseClickButton e).
Definition SetLookingForDSR {D} (looking : bool) (e : InputStateMachineEngine D) : InputStateMachineEngine D :=
  mkInputEngine (_pDispatch e) (_pfnFlushToInputQueue e) looking (_mouseButtonState e) (_doubleClickTime e)
    (_lastMouseClickPos e) (_lastMouseClickTime e) (_lastMouseClickButton e).
Definition set_pDispatch {D} (d : D) (e : InputStateMachineEngine D) : InputStateMachineEngine D :=
  mkInputEngine d (_pfnFlushToInputQueue e) (_lookingForDSR e) (_mouseButtonState e) (_doubleClickTime e)
    (_lastMouseClickPos e) (_lastMouseClickTime e) (_lastMouseClickButton e).
Definition set_mouseButtonState {D} (b : Z) (e : InputStateMachineEngine D) : InputStateMachineEngine D :=
  mkInputEngine (_pDispatch e) (_pfnFlushToInputQueue e) (_lookingForDSR e) b (_doubleClickTime e)
    (_lastMouseClickPos e) (_lastMouseClickTime e) (_lastMouseClickButton e).
Definition set_lastMouseClick {D} (pos : option point) (time button : option Z) (e : InputStateMachineEngine D) :
    InputStateMachineEngine D :=
  mkInputEngine (_pDispatch e) (_pfnFlushToInputQueue e) (_lookingForDSR e) (_mouseButtonState e)
    (_doubleClickTime e) pos time button.

(** ** Decoding *)

(** [_GetModifier]; [modifierParam] is a converted parameter. *)
Definition _GetModifier (modifierParam : Z) : Z :=
  let vtParam := u64 (modifierParam - 1) in
  let modifierState := 0 in
  let modifierState := WI_SetFlagIf modifierState ENHANCED_KEY (0 <? modifierParam) in
  let modifierState := WI_SetFlagIf modifierState SHIFT_PRESSED (WI_IsAnyFlagSet vtParam VT_SHIFT) in
  let modifierState := WI_SetFlagIf modifierState LEFT_ALT_PRESSED (WI_IsAnyFlagSet vtParam VT_ALT) in
  WI_SetFlagIf modifierState LEFT_CTRL_PRESSED (WI_IsAnyFlagSet vtParam VT_CTRL).

Definition _GetCursorKeysModifierState (parameters : VTParameters) (id : VTID) : Z :=
  let modifiers := _GetModifier (param_int (params_at parameters 1)) in
  if (id <? InputCsi.CSI_F1) || (InputCsi.CSI_F4 <? id) then Z.lor modifiers ENHANCED_KEY else modifiers.

Definition _GetGenericKeysModifierState (parameters : VTParameters) : Z :=
  let modifiers := _GetModifier (param_int (params_at parameters 1)) in
  if param_enum (params_at parameters 0) <=? GenericKey.Next then Z.lor modifiers ENHANCED_KEY else modifiers.

Definition _GetSGRMouseModifierState (modifierParam : Z) : Z :=
  let modifiers := 0 in
  let modifiers := WI_SetFlagIf modifiers SHIFT_PRESSED (WI_IsAnyFlagSet modifierParam CsiMouse.Shift) in
  let modifiers := WI_SetFlagIf modifiers LEFT_ALT_PRESSED (WI_IsAnyFlagSet modifierParam CsiMouse.Meta) in
  WI_SetFlagIf modifiers LEFT_CTRL_PRESSED (WI_IsAnyFlagSet modifierParam CsiMouse.Ctrl).

(** [saturated_cast] to an unsigned type of [w] bits. *)
Definition saturate (w n : Z) : Z := Z.max 0 (Z.min n (2 ^ w - 1)).

Definition _GenerateWin32Key (parameters : VTParameters) : KeyEvent :=
  let key := KeyEvent_default in
  let key := SetVirtualKeyCode (saturate 16 (value_or (params_at parameters 0) 0)) key in
  let key := SetVirtualScanCode (saturate 16 (value_or (params_at parameters 1) 0)) key in
  let key := SetCharData (saturate 16 (value_or (params_at parameters 2) 0)) key in
  let key := SetKeyDown (negb (value_or (params_at parameters 3) 0 =? 0)) key in
  let key := SetActiveModifierKeys (saturate 32 (value_or (params_at parameters 4) 0)) key in
  SetRepeatCount (saturate 16 (value_or (params_at parameters 5) 1)) key.

Definition _GetWindowManipulationType (parameters : list Z) : option Z :=
  match parameters with
  | [] => None
  | p :: _ => if (p =? 7) || (p =? 8) then Some p else None
  end.

(** The button of the first parameter of an SGR mouse sequence. *)
Definition sgr_button (sgrEncoding : Z) : Z :=
  Z.lor (Z.land sgrEncoding 0x3) (Z.shiftr (Z.land sgrEncoding 0xC0) 4).

(** Step 1 of [_UpdateSGRMouseButtonState]: the flag of the button, and the button state
    and the event flags a wheel adds; no result for an unknown button. *)
Definition button_effect (buttonID : Z) : option (Z * Z * Z) :=
  if buttonID =? CsiMouse.Left then Some (FROM_LEFT_1ST_BUTTON_PRESSED, 0, 0)
  else if buttonID =? CsiMouse.Right then Some (RIGHTMOST_BUTTON_PRESSED, 0, 0)
  else if buttonID =? CsiMouse.Middle then Some (FROM_LEFT_2ND_BUTTON_PRESSED, 0, 0)
  else if buttonID =? CsiMouse.ScrollBack then Some (0, SCROLL_DELTA_BACKWARD, MOUSE_WHEELED)
  else if buttonID =? CsiMouse.ScrollForward then Some (0, SCROLL_DELTA_FORWARD, MOUSE_WHEELED)
  else if buttonID =? CsiMouse.Released then Some (0, 0, 0)
  else None.

(** The press is the second half of a double click. *)
Definition is_double_click {D} (uiPos : point) (currentTime buttonID : Z) (e : InputStateMachineEngine D) : bool :=
  match _lastMouseClickPos e, _lastMouseClickTime e, _lastMouseClickButton e with
  | Some pos, Some time, Some button =>
      bool_decide (uiPos = pos) && (currentTime - time <? _doubleClickTime e) && (buttonID =? button)
  | _, _, _ => false
  end.

(** ** The engine *)

Section Engine.
Context {D : Type} `{!IInteractDispatch D} `{!Keyboard}.

#[local] Abbreviation Engine := (InputStateMachineEngine D).
#[local] Abbreviation SM := (StateMachine Engine Empty_set Empty_set).
#[local] Abbreviation M := (M SM).

(** A method of the dispatcher, called on the member. *)
Definition dispatch {A} (m : Effects.M D A) : M A := fun s =>
  let '(d, r) := m (_pDispatch (_engine s)) in (set_engine (set_pDispatch d (_engine s)) s, r).

Definition modify_engine (f : Engine -> Engine) : M unit :=
  modify (fun s => set_engine (f (_engine s)) s).

Definition _GenerateKeyFromChar (wch : wchar) : option (Z * Z) :=
  let keyscan := OneCoreSafeVkKeyScanW wch in
  let key := LOBYTE keyscan in
  let keyscanModifiers := HIBYTE keyscan in
  if (key =? -1) && (keyscanModifiers =? -1) then None
  else
    Some (key, Z.lor (if WI_IsAnyFlagSet keyscanModifiers KEYSCAN_SHIFT then SHIFT_PRESSED else 0)
                 (Z.lor (if WI_IsAnyFlagSet keyscanModifiers KEYSCAN_CTRL then LEFT_CTRL_PRESSED else 0)
                        (if WI_IsAnyFlagSet keyscanModifiers KEYSCAN_ALT then LEFT_ALT_PRESSED else 0))).

Definition _GetSingleKeypress (wch : wchar) (vkey modifierState : Z) : list IInputEvent :=
  let scan := u16 (OneCoreSafeMapVirtualKeyW vkey MAPVK_VK_TO_VSC) in
  [Key (mkKeyEvent true 1 vkey scan wch modifierState);
   Key (mkKeyEvent false 1 vkey scan wch modifierState)].

(** The press or the release of a modifier key. *)
Definition modifier_event (down : bool) (vkey currentModifiers : Z) : IInputEvent :=
  Key (mkKeyEvent down 1 vkey (u16 (OneCoreSafeMapVirtualKeyW vkey MAPVK_VK_TO_VSC)) 0 currentModifiers).

(** [if (flag) { currentModifiers = update; input.push_back(...) }] *)
Definition add_modifier_event (pressed down : bool) (vkey : Z) (update : Z -> Z)
    (acc : list IInputEvent * Z) : list IInputEvent * Z :=
  if pressed then
    let currentModifiers := update acc.2 in
    (acc.1 ++ [modifier_event down vkey currentModifiers], currentModifiers)
  else acc.

Definition _GenerateWrappedSequence (wch : wchar) (vkey modifierState : Z) : list IInputEvent :=
  let shift := WI_IsAnyFlagSet modifierState SHIFT_PRESSED in
  let ctrl := WI_IsAnyFlagSet modifierState LEFT_CTRL_PRESSED in
  let alt := WI_IsAnyFlagSet modifierState LEFT_ALT_PRESSED in
  let set flag := fun m => Z.lor m flag in
  let clear flag := fun m => Z.land m (Z.lnot flag) in
  let acc := ([], 0) in
  let acc := add_modifier_event shift true VK_SHIFT (set SHIFT_PRESSED) acc in
  let acc := add_modifier_event alt true VK_MENU (set LEFT_ALT_PRESSED) acc in
  let acc := add_modifier_event ctrl true VK_CONTROL (set LEFT_CTRL_PRESSED) acc in
  let acc := (acc.1 ++ _GetSingleKeypress wch vkey modifierState, acc.2) in
  let acc := add_modifier_event ctrl false VK_CONTROL (clear LEFT_CTRL_PRESSED) acc in
  let acc := add_modifier_event alt false VK_MENU (clear LEFT_ALT_PRESSED) acc in
  let acc := add_modifier_event shift false VK_SHIFT (clear SHIFT_PRESSED) acc in
  acc.1.

(** The overload with a character, and the one that asks the layout for it. *)
Definition _WriteSingleKey_char (wch : wchar) (vkey modifierState : Z) : M bool :=
  dispatch (WriteInput (_GenerateWrappedSequence wch vkey modifierState)).

Definition _WriteSingleKey (vkey modifierState : Z) : M bool :=
  _WriteSingleKey_char (u16 (OneCoreSafeMapVirtualKeyW vkey MAPVK_VK_TO_CHAR)) vkey modifierState.

Definition saturate_short (n : Z) : Z := Z.max (-32768) (Z.min n 32767).

Definition _WriteMouseEvent (uiPos : point) (buttonState controlKeyState eventFlags : Z) : M bool :=
  dispatch (WriteInput [Mouse (mkMouseEvent (Point (saturate_short (x uiPos)) (saturate_short (y uiPos)))
                                 buttonState controlKeyState eventFlags)]).

Definition InputEngine_ActionPrint (wch : wchar) : M bool :=
  match _GenerateKeyFromChar wch with
  | Some (vkey, modifierState) => _WriteSingleKey_char wch vkey modifierState
  | None => ret false
  end.

(** The character, the key and its modifiers, and whether [Ctrl] is pressed, of a C0
    control character. *)
Definition control_key (wch : wchar) : option (wchar * Z * Z * bool) :=
  if wch =? 0x08 then
    (fun k => (0x7F, k.1, 0, true)) <$> _GenerateKeyFromChar 0x7F
  else if wch =? 0x0D then
    (fun k => (wch, k.1, 0, false)) <$> _GenerateKeyFromChar wch
  else if wch =? 0x1B then Some (wch, VK_ESCAPE, 0, false)
  else if wch =? 0x09 then
    (fun k => (wch, k.1, k.2, false)) <$> _GenerateKeyFromChar wch
  else
    (fun k => (wch, k.1, k.2, true)) <$> _GenerateKeyFromChar wch.

Definition _DoControlCharacter (wch : wchar) (writeAlt : bool) : M bool :=
  if (wch =? UNICODE_ETX) && negb writeAlt then
    let '(keyDown, keyUp) := KeyEvent_MakePair 1 0x43 0 UNICODE_ETX LEFT_CTRL_PRESSED in
    success <- dispatch (WriteCtrlKey keyDown) ;;
    if success : bool then dispatch (WriteCtrlKey keyUp) else ret false
  else if wch <? 0x20 then
    match control_key wch with
    | Some (actualChar, vkey, modifierState, writeCtrl) =>
        let modifierState := WI_SetFlagIf modifierState LEFT_CTRL_PRESSED writeCtrl in
        let modifierState := WI_SetFlagIf modifierState LEFT_ALT_PRESSED writeAlt in
        _WriteSingleKey_char actualChar vkey modifierState
    | None => ret false
    end
  else if wch =? 0x7F then
    _WriteSingleKey_char 0x08 VK_BACK (if writeAlt then LEFT_ALT_PRESSED else 0)
  else InputEngine_ActionPrint wch.

Definition InputEngine_ActionExecute (wch : wchar) : M bool := _DoControlCharacter wch false.

Definition InputEngine_ActionPrintString (string : wstring) : M bool :=
  match string with
  | [] => ret true
  | _ => dispatch (WriteString string)
  end.

Definition InputEngine_ActionPassThroughString (string : wstring) : M bool :=
  enabled <- dispatch IsVtInputEnabled ;;
  if enabled && negb (bool_decide (string = [])) then
    dispatch (WriteInput (map (fun wch => Key (mkKeyEvent true 1 0 0 wch 0)) string))
  else InputEngine_ActionPrintString string.

(** The call of [_pfnFlushToInputQueue]. *)
Definition flush_to_input_queue : M bool := FlushToTerminal_with InputEngine_ActionPassThroughString.

(** [_pDispatch->IsVtInputEnabled() && _pfnFlushToInputQueue] *)
Definition should_flush : M bool :=
  enabled <- dispatch IsVtInputEnabled ;;
  get (fun s => enabled && _pfnFlushToInputQueue (_engine s)).

Definition InputEngine_ActionExecuteFromEscape (wch : wchar) : M bool :=
  flush <- should_flush ;;
  if flush : bool then flush_to_input_queue else _DoControlCharacter wch true.

Definition InputEngine_ActionEscDispatch (id : VTID) : M bool :=
  flush <- should_flush ;;
  if flush : bool then flush_to_input_queue
  else
    let wch := u16 id in
    if wch =? 0x7F then _DoControlCharacter wch true
    else
      match _GenerateKeyFromChar wch with
      | Some (vk, modifierState) => _WriteSingleKey_char wch vk (Z.lor modifierState LEFT_ALT_PRESSED)
      | None => ret false
      end.

(** Step 2 of [_UpdateSGRMouseButtonState] for a press: the trackers of the last click,
    and whether this one is a double click. *)
Definition track_click (uiPos : point) (currentTime buttonID : Z) : M bool :=
  e <- get _engine ;;
  if is_double_click uiPos currentTime buttonID e then
    modify_engine (set_lastMouseClick None None None) ;;
    ret true
  else
    (if (buttonID =? CsiMouse.Left) || (buttonID =? CsiMouse.Right) || (buttonID =? CsiMouse.Middle) then
       modify_engine (set_lastMouseClick (Some uiPos) (Some currentTime) (Some buttonID))
     else ret tt) ;;
    ret false.

(** Step 2: the new button state and event flags. *)
Definition apply_button (id : VTID) (buttonFlag buttonState eventFlags buttonID currentTime : Z) (uiPos : point) :
    M (option (Z * Z)) :=
  if id =? InputCsi.MouseDown then
    doubleClick <- track_click uiPos currentTime buttonID ;;
    ret (Some (Z.lor buttonState buttonFlag, WI_SetFlagIf eventFlags DOUBLE_CLICK doubleClick))
  else if id =? InputCsi.MouseUp then
    ret (Some (Z.land buttonState (Z.lnot buttonFlag), eventFlags))
  else ret None.

(** The button state and the event flags of the record, or no result. *)
Definition _UpdateSGRMouseButtonState (id : VTID) (sgrEncoding : Z) (uiPos : point) : M (option (Z * Z)) :=
  buttonState <- get (fun s => _mouseButtonState (_engine s)) ;;
  let buttonID := sgr_button sgrEncoding in
  currentTime <- dispatch steady_clock_now ;;
  match button_effect buttonID with
  | None => ret None
  | Some (buttonFlag, wheel, eventFlags) =>
      result <- apply_button id buttonFlag (Z.lor buttonState wheel) eventFlags buttonID currentTime uiPos ;;
      match result with
      | None => ret None
      | Some (buttonState, eventFlags) =>
          let eventFlags := WI_SetFlagIf eventFlags MOUSE_MOVED (WI_IsAnyFlagSet sgrEncoding CsiMouse.Drag) in
          modify_engine (set_mouseButtonState (LOWORD buttonState)) ;;
          ret (Some (buttonState, eventFlags))
      end
  end.

Definition csi_mouse (id : VTID) (parameters : VTParameters) : M bool :=
  let firstParameter := value_or (params_at parameters 0) 0 in
  let uiPos := Point (param_int (params_at parameters 1) - 1) (param_int (params_at parameters 2) - 1) in
  let modifierState := _GetSGRMouseModifierState firstParameter in
  result <- _UpdateSGRMouseButtonState id firstParameter uiPos ;;
  match result with
  | Some (buttonState, eventFlags) => _WriteMouseEvent uiPos buttonState modifierState eventFlags
  | None => ret false
  end.

(** The cursor keys and the first function keys. *)
Definition csi_cursor_key (id : VTID) (parameters : VTParameters) : M bool :=
  match _GetCursorKeysVkey id with
  | Some vkey => _WriteSingleKey vkey (_GetCursorKeysModifierState parameters id)
  | None => ret false
  end.

Definition is_cursor_key_code (id : VTID) : bool :=
  (id =? InputCsi.ArrowUp) || (id =? InputCsi.ArrowDown) || (id =? InputCsi.ArrowRight)
  || (id =? InputCsi.ArrowLeft) || (id =? InputCsi.Home) || (id =? InputCsi.End_)
  || (id =? InputCsi.CSI_F1) || (id =? InputCsi.CSI_F2) || (id =? InputCsi.CSI_F4).

(** The [switch] of [ActionCsiDispatch]. *)
Definition input_csi_switch (id : VTID) (parameters : VTParameters) : M bool :=
  if (id =? InputCsi.MouseDown) || (id =? InputCsi.MouseUp) then csi_mouse id parameters
  else if id =? InputCsi.CSI_F3 then
    lookingForDSR <- get (fun s => _lookingForDSR (_engine s)) ;;
    if lookingForDSR : bool then
      success <- dispatch (MoveCursor (param_int (params_at parameters 0)) (param_int (params_at parameters 1))) ;;
      modify_engine (SetLookingForDSR false) ;;
      ret success
    else csi_cursor_key id parameters
  else if is_cursor_key_code id then csi_cursor_key id parameters
  else if id =? InputCsi.Generic then
    match _GetGenericVkey (param_enum (params_at parameters 0)) with
    | Some vkey => _WriteSingleKey vkey (_GetGenericKeysModifierState parameters)
    | None => ret false
    end
  else if id =? InputCsi.CursorBackTab then _WriteSingleKey VK_TAB SHIFT_PRESSED
  else if id =? InputCsi.DTTERM_WindowManipulation then
    dispatch (WindowManipulation (param_enum (params_at parameters 0)) (params_at parameters 1)
                (params_at parameters 2))
  else if id =? InputCsi.FocusIn then dispatch (FocusChanged true)
  else if id =? InputCsi.FocusOut then dispatch (FocusChanged false)
  else if id =? InputCsi.Win32KeyboardInput then dispatch (WriteCtrlKey (_GenerateWin32Key parameters))
  else ret false.

Definition InputEngine_ActionCsiDispatch (id : VTID) (parameters : VTParameters) : M bool :=
  flush <- should_flush ;;
  if flush && negb (id =? InputCsi.Win32KeyboardInput) && negb (id =? InputCsi.FocusIn)
     && negb (id =? InputCsi.FocusOut)
  then flush_to_input_queue
  else input_csi_switch id parameters.

Definition InputEngine_ActionSs3Dispatch (wch : wchar) (parameters : VTParameters) : M bool :=
  flush <- should_flush ;;
  if flush : bool then flush_to_input_queue
  else
    match _GetSs3KeysVkey wch with
    | Some vkey => _WriteSingleKey vkey 0
    | None => ret false
    end.

#[export] Instance InputEngine : IStateMachineEngine Engine Empty_set Empty_set := {
  ActionExecute := InputEngine_ActionExecute;
  ActionExecuteFromEscape := InputEngine_ActionExecuteFromEscape;
  ActionPrint := InputEngine_ActionPrint;
  ActionPrintString := InputEngine_ActionPrintString;
  ActionPassThroughString := InputEngine_ActionPassThroughString;
  ActionEscDispatch := InputEngine_ActionEscDispatch;
  ActionVt52EscDispatch _ _ := ret false;
  ActionCsiDispatch := InputEngine_ActionCsiDispatch;
  ActionDcsDispatch _ _ := ret None;
  ActionClear := ret true;
  ActionIgnore := ret true;
  ActionOscDispatch _ _ _ := ret false;
  ActionSs3Dispatch := InputEngine_ActionSs3Dispatch;
  StringHandler_call h := match h : Empty_set with end;
  Callback_call cb := match cb : Empty_set with end
}.

End Engine.
