(* ===== verification/InputRoundTrip.v ===== *)
(** * The input engine honours the contract of the parser

    The dispatcher of the input engine does not see the parser, so the engine leaves
    the parser's members alone whatever the dispatcher does; when the dispatcher's
    methods return, so do the engine's.  A recorder of the dispatcher's calls and a
    small keyboard layout run the engine on concrete input. *)

From S2P Require Import Prelude Effects EnumSet DispatchTypes StateMachine StateMachineLaws StateMachineInv StateMachineStream StateMachineSeq StateMachineReturns StateMachineString Geometry InputEvents TerminalInput InputEngine.

Local Open Scope Z_scope.

(** A dispatcher whose methods return. *)
Class ReturningDispatch (D : Type) `{!IInteractDispatch D} : Prop := {
  WriteInput_returns events : returns (WriteInput events);
  WriteCtrlKey_returns key : returns (WriteCtrlKey key);
  WriteString_returns str : returns (WriteString str);
  WindowManipulation_returns f p1 p2 : returns (WindowManipulation f p1 p2);
  MoveCursor_returns row col : returns (MoveCursor row col);
  IsVtInputEnabled_returns : returns IsVtInputEnabled;
  FocusChanged_returns b : returns (FocusChanged b);
  steady_clock_now_returns : returns steady_clock_now
}.

#[export] Hint Resolve WriteInput_returns WriteCtrlKey_returns WriteString_returns
  WindowManipulation_returns MoveCursor_returns IsVtInputEnabled_returns FocusChanged_returns
  steady_clock_now_returns : vt.

Section Laws.
Context {D : Type} `{!IInteractDispatch D} `{!Keyboard}.

#[local] Abbreviation SM := (StateMachine (InputStateMachineEngine D) Empty_set Empty_set).

(** ** Frame *)

Lemma dispatch_frame {A} (m : M D A) : keeps frame (dispatch m : M SM A).
Proof. intros s. unfold dispatch. destruct (m _) as [d r]. by split. Qed.

Lemma modify_engine_frame f : keeps frame (modify_engine f : M SM unit).
Proof. intros s. by split. Qed.

#[local] Hint Resolve dispatch_frame modify_engine_frame : vt.

(** Proves [keeps frame m] by the structure of [m]. *)
Ltac frame_input :=
  repeat first
    [ solve [eauto 2 with vt]
    | apply keeps_ret; exact _
    | apply keeps_get; exact _
    | apply keeps_bind; [exact _| |intros ?]
    | match goal with |- keeps _ (if ?b then _ else _) => destruct b end
    | match goal with |- keeps _ (match ?x with _ => _ end) => destruct x end
    | apply keeps_SafeExecute
    | apply keeps_CurrentRun; exact _
    | apply keeps_modify; intros ?; by split ].

Lemma write_char_frame c v m : keeps frame (_WriteSingleKey_char c v m : M SM bool).
Proof. unfold _WriteSingleKey_char; frame_input. Qed.
#[local] Hint Resolve write_char_frame : vt.

Lemma print_frame c : keeps frame (InputEngine_ActionPrint c : M SM bool).
Proof. unfold InputEngine_ActionPrint; frame_input. Qed.
#[local] Hint Resolve print_frame : vt.

Lemma control_frame c b : keeps frame (_DoControlCharacter c b : M SM bool).
Proof. unfold _DoControlCharacter; cbn [KeyEvent_MakePair]; frame_input. Qed.
Lemma pass_frame str : keeps frame (InputEngine_ActionPassThroughString str : M SM bool).
Proof. unfold InputEngine_ActionPassThroughString, InputEngine_ActionPrintString; frame_input. Qed.
#[local] Hint Resolve control_frame pass_frame : vt.

Lemma flush_queue_frame : keeps frame (flush_to_input_queue : M SM bool).
Proof. unfold flush_to_input_queue, FlushToTerminal_with; frame_input. Qed.
Lemma mouse_frame id ps : keeps frame (csi_mouse id ps : M SM bool).
Proof.
  unfold csi_mouse, _UpdateSGRMouseButtonState, apply_button, track_click, _WriteMouseEvent; frame_input.
Qed.
Lemma should_flush_frame : keeps frame (should_flush : M SM bool).
Proof. unfold should_flush; frame_input. Qed.
#[local] Hint Resolve flush_queue_frame mouse_frame should_flush_frame : vt.

#[export] Instance InputEngine_framed : FramedEngine (InputStateMachineEngine D) Empty_set Empty_set.
Proof.
  split; cbn [ActionExecute ActionExecuteFromEscape ActionPrint ActionPrintString
    ActionPassThroughString ActionEscDispatch ActionVt52EscDispatch ActionCsiDispatch
    ActionDcsDispatch ActionClear ActionOscDispatch ActionSs3Dispatch StringHandler_call InputEngine];
    intros; unfold InputEngine_ActionExecute, InputEngine_ActionExecuteFromEscape,
      InputEngine_ActionPrintString, InputEngine_ActionEscDispatch, InputEngine_ActionCsiDispatch,
      input_csi_switch, csi_cursor_key, InputEngine_ActionSs3Dispatch, _WriteSingleKey; frame_input.
Qed.

#[export] Instance InputEngine_quiet : QuietClear (InputStateMachineEngine D) Empty_set Empty_set.
Proof. by split. Qed.
#[export] Instance InputEngine_sync : SyncCallback (InputStateMachineEngine D) Empty_set Empty_set.
Proof. by split. Qed.
#[export] Instance InputEngine_wf : WfCallback (InputStateMachineEngine D) Empty_set Empty_set.
Proof. by split. Qed.

Lemma input_print_nothing (s : SM) : _ActionPrintString [] s = (s, Ok tt).
Proof. done. Qed.

(** ** Returns *)

Context `{!ReturningDispatch D}.

Lemma dispatch_returns {A} (m : M D A) : returns m -> returns (dispatch m : M SM A).
Proof.
  intros Hm s. destruct (Hm (_pDispatch (_engine s))) as [a Ha]. unfold dispatch.
  destruct (m _) as [d r]; cbn in *. eauto.
Qed.

#[local] Hint Resolve dispatch_returns : vt.

Lemma safe_run_returns (f : wstring -> M SM bool) :
  (forall str, returns (f str)) -> returns (_SafeExecute (run <- _CurrentRun ;; f run)).
Proof.
  intros Hf s. unfold _SafeExecute, bind, _CurrentRun. destruct (substr _ _ _) as [run|]; [|by eexists].
  destruct (Hf run s) as [b Hb]. destruct (f run s) as [s' r]; cbn in *. subst. by eexists.
Qed.

(** Proves [returns m] by the structure of [m]. *)
Ltac returns_input :=
  repeat first
    [ solve [eauto 3 with vt]
    | apply returns_bind; [|intros ?]
    | match goal with |- returns (if ?b then _ else _) => destruct b end
    | match goal with |- returns (match ?x with _ => _ end) => destruct x end
    | apply safe_run_returns; intros ?
    | apply returns_SafeExecute
    | apply returns_modify ].

Lemma write_char_returns c v m : returns (_WriteSingleKey_char c v m : M SM bool).
Proof. unfold _WriteSingleKey_char; returns_input. Qed.
#[local] Hint Resolve write_char_returns : vt.

Lemma print_returns c : returns (InputEngine_ActionPrint c : M SM bool).
Proof. unfold InputEngine_ActionPrint; returns_input. Qed.
#[local] Hint Resolve print_returns : vt.

Lemma control_returns c b : returns (_DoControlCharacter c b : M SM bool).
Proof. unfold _DoControlCharacter; cbn [KeyEvent_MakePair]; returns_input. Qed.
Lemma pass_returns str : returns (InputEngine_ActionPassThroughString str : M SM bool).
Proof. unfold InputEngine_ActionPassThroughString, InputEngine_ActionPrintString; returns_input. Qed.
#[local] Hint Resolve control_returns pass_returns : vt.

Lemma flush_queue_returns : returns (flush_to_input_queue : M SM bool).
Proof. unfold flush_to_input_queue, FlushToTerminal_with; returns_input. Qed.
Lemma mouse_returns id ps : returns (csi_mouse id ps : M SM bool).
Proof.
  unfold csi_mouse, _UpdateSGRMouseButtonState, apply_button, track_click, _WriteMouseEvent, modify_engine;
    returns_input.
Qed.
Lemma should_flush_returns : returns (should_flush : M SM bool).
Proof. unfold should_flush; returns_input. Qed.
#[local] Hint Resolve flush_queue_returns mouse_returns should_flush_returns : vt.

#[export] Instance InputEngine_returning : ReturningEngine (InputStateMachineEngine D) Empty_set Empty_set.
Proof.
  split; cbn [ActionExecute ActionExecuteFromEscape ActionPrint ActionPrintString
    ActionPassThroughString ActionEscDispatch ActionVt52EscDispatch ActionCsiDispatch
    ActionDcsDispatch ActionClear ActionOscDispatch ActionSs3Dispatch StringHandler_call Callback_call InputEngine];
    intros; unfold InputEngine_ActionExecute, InputEngine_ActionExecuteFromEscape,
      InputEngine_ActionPrintString, InputEngine_ActionEscDispatch, InputEngine_ActionCsiDispatch,
      input_csi_switch, csi_cursor_key, InputEngine_ActionSs3Dispatch, _WriteSingleKey, modify_engine;
    returns_input.
  by destruct h.
Qed.

End Laws.

(** ** A console that records *)

Module InteractRecorder.

Inductive Event :=
| Input (events : list IInputEvent)
| CtrlKey (key : KeyEvent)
| Text (str : wstring)
| Window (function : VTInt) (p1 p2 : VTParameter)
| Cursor (row col : VTInt)
| FocusTo (focused : bool).

(** Whether the client wants VT input, the time of the next question, and the calls. *)
Record Console := mkConsole { vtInput : bool; now : Z; log : list Event }.

Definition record (e : Event) : M Console bool := fun d => (mkConsole (vtInput d) (now d) (log d ++ [e]), Ok true).

#[global] Instance console : IInteractDispatch Console := {
  WriteInput events := record (Input events);
  WriteCtrlKey key := record (CtrlKey key);
  WriteString str := record (Text str);
  WindowManipulation f p1 p2 := record (Window f p1 p2);
  MoveCursor row col := record (Cursor row col);
  IsVtInputEnabled := get vtInput;
  FocusChanged b := record (FocusTo b);
  steady_clock_now := fun d => (mkConsole (vtInput d) (now d + 100) (log d), Ok (now d))
}.

#[global] Instance console_returning : ReturningDispatch Console.
Proof. split; intros; intros d; by eexists. Qed.

(** A part of the US layout. *)
#[global] Instance keyboard : Keyboard := {
  OneCoreSafeVkKeyScanW c :=
    if (0x61 <=? c) && (c <=? 0x7A) then c - 0x20
    else if (0x41 <=? c) && (c <=? 0x5A) then 0x100 + c
    else if ((0x30 <=? c) && (c <=? 0x39)) || (c =? 0x20) || (c =? 0x09) || (c =? 0x0D) then c
    else if c =? 0x2F then 0xBF else if c =? 0x3F then 0x1BF
    else if c =? 0x00 then 0x332
    else if (0x01 <=? c) && (c <=? 0x1A) then 0x240 + c
    else if c =? 0x7F then 0x208
    else -1;
  OneCoreSafeMapVirtualKeyW code type :=
    if type =? MAPVK_VK_TO_CHAR then
      (if ((0x30 <=? code) && (code <=? 0x39)) || ((0x41 <=? code) && (code <=? 0x5A)) || (code =? 0x20)
          || (code =? 0x09) then code else 0)
    else code + 1
}.

Definition machine (vt flush : bool) : StateMachine (InputStateMachineEngine Console) Empty_set Empty_set :=
  let e := InputStateMachineEngine_new (mkConsole vt 0 []) false 500 in
  (StateMachine_new (if flush then SetFlushToInputQueueCallback e else e) true 0 0 false).1.

Definition calls (vt flush : bool) (strs : list wstring) : list Event :=
  log (_pDispatch (_engine (iterM ProcessString strs (machine vt flush)).1)).

(** [Ctrl] with the right arrow. *)
Example calls_keys :
  calls false true [[0x1B] ++ L"[1;5C"] =
  [Input [Key (mkKeyEvent true 1 VK_CONTROL 0x12 0 LEFT_CTRL_PRESSED);
          Key (mkKeyEvent true 1 VK_RIGHT 0x28 0 (Z.lor ENHANCED_KEY LEFT_CTRL_PRESSED));
          Key (mkKeyEvent false 1 VK_RIGHT 0x28 0 (Z.lor ENHANCED_KEY LEFT_CTRL_PRESSED));
          Key (mkKeyEvent false 1 VK_CONTROL 0x12 0 0)]].
Proof. vm_compute. reflexivity. Qed.

(** Two presses of the left button within the double click time. *)
Example calls_double_click :
  calls false true [[0x1B] ++ L"[<0;3;2M"; [0x1B] ++ L"[<0;3;2m"; [0x1B] ++ L"[<0;3;2M"] =
  [Input [Mouse (mkMouseEvent (Point 2 1) 1 0 0)]; Input [Mouse (mkMouseEvent (Point 2 1) 0 0 0)];
   Input [Mouse (mkMouseEvent (Point 2 1) 1 0 DOUBLE_CLICK)]].
Proof. vm_compute. reflexivity. Qed.

End InteractRecorder.

(** * From the keyboard to the console and back

    A terminal encodes what its user does as VT sequences ([TerminalInput]); the console
    at the other end of the pipe decodes them ([InputStateMachineEngine] behind the
    state machine).  The theorems compose the two. *)

Section RoundTrip.
Context {D : Type} `{!IInteractDispatch D} `{!Keyboard}.

#[local] Abbreviation SM := (StateMachine (InputStateMachineEngine D) Empty_set Empty_set).

(** A console between two keystrokes. *)
Record idle (s : SM) : Prop := {
  idle_state : _state s = Ground;
  idle_individually : _processingIndividually s = false;
  idle_ansi : enumset_test (_parserMode s) Ansi = true;
  idle_cached : _cachedSequence s = None
}.

Definition console_of (s : SM) : D := _pDispatch (_engine s).

(** The string leaves the console idle, with this engine. *)
Definition delivers (str : wstring) (s : SM) (e : InputStateMachineEngine D) : Prop :=
  exists s', ProcessString str s = (s', Ok tt) /\ idle s' /\ _engine s' = e.

Lemma idle_settle (s s' : SM) :
  enumset_test (_parserMode s') Ansi = true ->
  idle (settle (set_cachedSequence None (set_state Ground s'))).
Proof. intros Hm. by split. Qed.

Lemma dispatch_at {A} (m : M D A) (s : SM) d a :
  m (_pDispatch (_engine s)) = (d, Ok a) -> dispatch m s = (set_engine (set_pDispatch d (_engine s)) s, Ok a).
Proof. intros Hm. unfold dispatch. by rewrite Hm. Qed.

Lemma dispatch_ready {A} (m : M D A) q (s : SM) d a :
  m (console_of s) = (d, Ok a) ->
  dispatch m (csi_ready q s) = (set_engine (set_pDispatch d (_engine s)) (csi_ready q s), Ok a).
Proof. intros Hm. by rewrite (dispatch_at _ (csi_ready q s) d a Hm). Qed.

(** Sequences whose dispatch is known. *)
Lemma csi_delivers q (s s' : SM) b :
  csi_valid q -> idle s ->
  InputEngine_ActionCsiDispatch (csi_id q) (params_of (csi_params q)) (csi_ready q s) = (s', Ok b) ->
  enumset_test (_parserMode s') Ansi = true ->
  delivers (csi_text q) s (_engine s').
Proof.
  intros Hq [Hg Hi Ha _] Hd Hm. eexists. split; [|split; [by apply idle_settle|]].
  - by eapply (csi_string_dispatch input_print_nothing).
  - done.
Qed.

(** ** Keys in the Win32 input mode *)

Definition key_in_range (k : KeyEvent) : Prop :=
  0 <= _virtualKeyCode k <= 65535 /\ 0 <= _virtualScanCode k <= 65535 /\ 0 <= _charData k <= 65535 /\
  0 <= _activeModifierKeys k /\ 0 <= _repeatCount k <= 65535.

(** The sequence of a key, as a CSI sequence. *)
Definition win32_csi (k : KeyEvent) : csi :=
  mkCsi None [format_unsigned (_virtualKeyCode k); format_unsigned (_virtualScanCode k);
              format_unsigned (_charData k); (if _keyDown k then [0x31] else [0x30]);
              format_unsigned (_activeModifierKeys k); format_unsigned (_repeatCount k)] [] 0x5F.

Lemma win32_csi_text k : csi_text (win32_csi k) = TerminalInput._GenerateWin32KeySequence k.
Proof.
  unfold csi_text, TerminalInput._GenerateWin32KeySequence, win32_csi.
  cbn [csi_prefix csi_marker csi_params csi_intermediates_of csi_final params_text app].
  unfold TerminalInput.esc. repeat (progress (rewrite <- ?app_assoc; cbn [app])). by destruct (_keyDown k).
Qed.

Lemma format_digits n : 0 <= n -> Forall is_digit (format_unsigned n).
Proof. intros Hn. by apply format_unsigned_spec. Qed.

(** A decimal number, read back as a parameter. *)
Lemma param_of_format n : 0 <= n -> param_of (format_unsigned n) = Z.min n 65535.
Proof.
  intros Hn. destruct (format_unsigned_spec n Hn) as (Hne & _ & Hv).
  unfold param_of. destruct (format_unsigned n) eqn:E; [done|]. by rewrite <- Hv.
Qed.

Lemma win32_csi_valid k : key_in_range k -> csi_valid (win32_csi k).
Proof.
  intros (? & ? & ? & ? & ?). split; cbn; try by constructor; try lia.
  repeat apply Forall_cons_2; try (apply format_digits; lia); [|by constructor].
  destruct (_keyDown k); repeat constructor; unfold is_digit; lia.
Qed.

Definition capped (k : KeyEvent) : KeyEvent := SetActiveModifierKeys (Z.min (_activeModifierKeys k) 65535) k.

Lemma win32_key_decoded k :
  key_in_range k -> _GenerateWin32Key (params_of (csi_params (win32_csi k))) = capped k.
Proof.
  intros (? & ? & ? & ? & ?).
  assert (E : params_of (csi_params (win32_csi k)) =
    [_virtualKeyCode k; _virtualScanCode k; _charData k; (if _keyDown k then 1 else 0);
     Z.min (_activeModifierKeys k) 65535; _repeatCount k]).
  { unfold params_of. rewrite bool_decide_false.
    - cbn [csi_params win32_csi fmap list_fmap]. rewrite !param_of_format by lia.
      replace (param_of (if _keyDown k then [49] else [48])) with (if _keyDown k then 1 else 0)
        by (by destruct (_keyDown k)).
      unfold MAX_PARAMETER_COUNT. cbn [take]. repeat f_equal; lia.
    - cbn [csi_params win32_csi params_text]. destruct (format_unsigned_spec (_virtualKeyCode k)) as [Hne _]; [lia|].
      by destruct (format_unsigned (_virtualKeyCode k)). }
  rewrite E. unfold _GenerateWin32Key, params_at, value_or, capped. cbn [lookup list_lookup default].
  destruct k as [down rc vk sc ch cs]; cbn in *. unfold SetVirtualKeyCode, SetVirtualScanCode, SetCharData, SetKeyDown,
    SetRepeatCount, SetActiveModifierKeys, saturate; cbn -[Z.min Z.max].
  destruct down; cbn -[Z.min Z.max]; repeat (case_if; bool_prop); try lia; f_equal; lia.
Qed.

Lemma should_flush_ready q (s : SM) d v :
  IsVtInputEnabled (console_of s) = (d, Ok v) ->
  should_flush (csi_ready q s) =
  (set_engine (set_pDispatch d (_engine s)) (csi_ready q s), Ok (v && _pfnFlushToInputQueue (_engine s))).
Proof. intros Hv. unfold should_flush. by rewrite (bind_Ok _ _ _ _ _ (dispatch_ready _ q s d v Hv)). Qed.

Lemma switch_win32 ps :
  input_csi_switch InputCsi.Win32KeyboardInput ps = (dispatch (WriteCtrlKey (_GenerateWin32Key ps)) : M SM bool).
Proof. done. Qed.

Lemma win32_delivers k (s : SM) d d' v b :
  key_in_range k -> idle s ->
  IsVtInputEnabled (console_of s) = (d, Ok v) -> WriteCtrlKey (capped k) d = (d', Ok b) ->
  delivers (TerminalInput._GenerateWin32KeySequence k) s (set_pDispatch d' (_engine s)).
Proof.
  intros Hk Hs Hv Hw. rewrite <- win32_csi_text.
  assert (E : InputEngine_ActionCsiDispatch (csi_id (win32_csi k)) (params_of (csi_params (win32_csi k)))
                (csi_ready (win32_csi k) s) =
              (set_engine (set_pDispatch d' (_engine s)) (csi_ready (win32_csi k) s), Ok b)).
  { unfold InputEngine_ActionCsiDispatch. rewrite (bind_Ok _ _ _ _ _ (should_flush_ready _ s d v Hv)).
    change (csi_id (win32_csi k)) with InputCsi.Win32KeyboardInput.
    rewrite Z.eqb_refl, andb_false_r, switch_win32, win32_key_decoded by done.
    exact (dispatch_at _ (set_engine (set_pDispatch d (_engine s)) (csi_ready _ s)) d' b Hw). }
  pose proof (csi_delivers _ s _ b (win32_csi_valid k Hk) Hs E) as Hd. apply Hd. apply Hs.
Qed.

(** ** Clients that want VT input *)

Lemma whole_run (str : wstring) : substr str 0 (Z.of_nat (length str)) = Some str.
Proof.
  unfold substr. destruct (Z.ltb_spec (Z.of_nat (length str)) 0); [lia|].
  cbn [Z.to_nat drop]. rewrite drop_0. case_if; [done|]. by rewrite Nat2Z.id, take_ge.
Qed.

Definition is_for_console (id : VTID) : bool :=
  (id =? InputCsi.Win32KeyboardInput) || (id =? InputCsi.FocusIn) || (id =? InputCsi.FocusOut).

Lemma set_engine_same (s : SM) : set_engine (_engine s) s = s.
Proof. by destruct s. Qed.

Lemma ready_same q (s : SM) : set_engine (set_pDispatch (console_of s) (_engine s)) (csi_ready q s) = csi_ready q s.
Proof.
  replace (set_pDispatch (console_of s) (_engine s)) with (_engine (csi_ready q s)); [apply set_engine_same|].
  change (_engine (csi_ready q s)) with (_engine s). unfold console_of. by destruct (_engine s).
Qed.

Lemma pass_through_delivers q (s : SM) d' b :
  csi_valid q -> idle s -> is_for_console (csi_id q) = false ->
  _pfnFlushToInputQueue (_engine s) = true ->
  IsVtInputEnabled (console_of s) = (console_of s, Ok true) ->
  WriteInput (map (fun c => Key (TerminalInput.character_event c)) (csi_text q)) (console_of s) = (d', Ok b) ->
  delivers (csi_text q) s (set_pDispatch d' (_engine s)).
Proof.
  intros Hq Hs Hid Hfl Hv Hw. unfold is_for_console in Hid. apply orb_false_iff in Hid as [Hid Hid3].
  apply orb_false_iff in Hid as [Hid1 Hid2].
  pose proof (ready_same q s) as Hsame.
  assert (E : InputEngine_ActionCsiDispatch (csi_id q) (params_of (csi_params q)) (csi_ready q s) =
              (set_engine (set_pDispatch d' (_engine s)) (csi_ready q s), Ok b)).
  { unfold InputEngine_ActionCsiDispatch. rewrite (bind_Ok _ _ _ _ _ (should_flush_ready _ s _ _ Hv)).
    rewrite Hfl, Hid1, Hid2, Hid3, Hsame. cbn [andb negb]. unfold flush_to_input_queue, FlushToTerminal_with.
    unfold bind at 1, get. change (_cachedSequence (csi_ready q s)) with (_cachedSequence s).
    rewrite (idle_cached _ Hs). unfold bind at 1, ret, _SafeExecute, bind at 1, _CurrentRun.
    change (substr _ _ _) with (substr (csi_text q) 0 (Z.of_nat (length (csi_text q)))). rewrite whole_run.
    unfold InputEngine_ActionPassThroughString.
    rewrite (bind_Ok _ _ _ _ _ (dispatch_ready _ q s _ _ Hv)), Hsame.
    rewrite bool_decide_false by done. cbn [andb negb].
    change (fun wch : wchar => Key (mkKeyEvent true 1 0 0 wch 0))
      with (fun c : wchar => Key (TerminalInput.character_event c)). by rewrite (dispatch_ready _ q s _ _ Hw). }
  apply (csi_delivers _ s _ b Hq Hs E). apply Hs.
Qed.

End RoundTrip.

#[local] Abbreviation console D := (StateMachine (InputStateMachineEngine D) Empty_set Empty_set).

(** C7. Keys survive the way from a terminal to the console.  In the Win32 input mode
    [TerminalInput::HandleKey] sends every key event as one sequence, press or release;
    the characters it sends, given to a console between two keystrokes, make one call of
    [WriteCtrlKey] with the same event, whether or not the client wants VT input, and the
    console is ready for the next one.  Only the control key state is cut to 65535. *)
Theorem win32_key_round_trip {D : Type} `{!IInteractDispatch D, !Keyboard}
    (k : KeyEvent) (t : TerminalInput.TerminalInput) (s : console D) (d d' : D) (v b : bool) :
  key_in_range k -> idle s ->
  enumset_test (TerminalInput._inputMode t) TerminalInput.Win32 = true ->
  TerminalInput._forceDisableWin32InputMode t = false ->
  IsVtInputEnabled (console_of s) = (d, Ok v) -> WriteCtrlKey (capped k) d = (d', Ok b) ->
  exists text,
    TerminalInput.HandleKey (Key k) t =
      (TerminalInput.write_events (map TerminalInput.character_event text) t, true) /\
    delivers text s (set_pDispatch d' (_engine s)) /\
    (_activeModifierKeys k <= 65535 -> capped k = k).
Proof.
  intros Hk Hs Hm Hf Hv Hw. exists (TerminalInput._GenerateWin32KeySequence k). split_and!.
  - unfold TerminalInput.HandleKey. by rewrite Hm, Hf.
  - by eapply win32_delivers.
  - intros Hc. unfold capped, SetActiveModifierKeys. rewrite Z.min_l by done. by destruct k.
Qed.

(** The release of [Ctrl] with [c]. *)
Lemma win32_key_round_trip_witness :
  let k := mkKeyEvent false 1 0x43 0x2E 0x03 LEFT_CTRL_PRESSED in
  let t := TerminalInput.SetInputMode TerminalInput.Win32 true TerminalInput.TerminalInput_new in
  exists text,
    TerminalInput.HandleKey (Key k) t =
      (TerminalInput.write_events (map TerminalInput.character_event text) t, true) /\
    delivers text (InteractRecorder.machine true true)
      (set_pDispatch (InteractRecorder.mkConsole true 0 [InteractRecorder.CtrlKey k])
         (_engine (InteractRecorder.machine true true))) /\
    (_activeModifierKeys k <= 65535 -> capped k = k).
Proof.
  intros k t. eapply (win32_key_round_trip k t _ _ _ true true); try reflexivity.
  - unfold key_in_range, k, LEFT_CTRL_PRESSED; cbn; lia.
  - by split.
Defined.

(** C26. A client that wants VT input gets the sequences a terminal sends as they are: a
    control sequence that arrives as one string is written to the input buffer as one key
    event per character, none lost and none added, except the Win32 keys and the focus
    events, which are for the console. *)
Theorem vt_input_passes_through {D : Type} `{!IInteractDispatch D, !Keyboard}
    (q : csi) (s : console D) (d' : D) (b : bool) :
  csi_valid q -> idle s -> is_for_console (csi_id q) = false ->
  _pfnFlushToInputQueue (_engine s) = true ->
  IsVtInputEnabled (console_of s) = (console_of s, Ok true) ->
  WriteInput (map (fun c => Key (TerminalInput.character_event c)) (csi_text q)) (console_of s) = (d', Ok b) ->
  delivers (csi_text q) s (set_pDispatch d' (_engine s)).
Proof. apply pass_through_delivers. Qed.

(** [ESC [ 1 ; 2 A]. *)
Lemma vt_input_passes_through_witness :
  let q := mkCsi None [[0x31]; [0x32]] [] 0x41 in
  delivers (csi_text q) (InteractRecorder.machine true true)
    (set_pDispatch (InteractRecorder.mkConsole true 0
       [InteractRecorder.Input (map (fun c => Key (TerminalInput.character_event c)) (csi_text q))])
       (_engine (InteractRecorder.machine true true))).
Proof.
  intros q. apply (vt_input_passes_through q _ _ true); try reflexivity.
  - split; cbn; repeat constructor; unfold is_digit, is_final; lia.
  - by split.
Defined.

(** ** Totality *)

(** A string of at least one UTF-16 code unit. *)
Definition keystroke (str : wstring) : Prop := str <> [] /\ Forall is_wchar str.

Lemma keystrokes_aux {D : Type} `{!IInteractDispatch D, !Keyboard, !ReturningDispatch D}
    (strs : list wstring) (s : console D) :
  Forall keystroke strs -> _isEngineForInput s = true -> _state s = Ground -> wf s ->
  exists s', iterM ProcessString strs s = (s', Ok tt) /\ wf s' /\ _state s' = Ground.
Proof.
  intros Hstrs; revert s. induction Hstrs as [|str strs [Hne Hw] _ IH]; intros s Hin Hg Hwf; [by exists s|].
  assert (Hr : (ProcessString str s).2 = Ok tt) by (by apply ProcessString_returns_aux).
  destruct (ProcessString_wf_aux str s Hw Hwf) as [_ Hwf']. rewrite Hr in Hwf'.
  assert (Hg' : _state (ProcessString str s).1 = Ground).
  { pose proof (ProcessString_input_ground_aux str s Hin (fun _ => Hg)) as Hp. unfold wp in Hp. auto. }
  pose proof (ProcessString_input str s) as Hin'. unfold same_input in Hin'.
  destruct (IH (ProcessString str s).1) as (s' & E & Hs'); [congruence|done|done|].
  exists s'. split; [|done]. cbn [iterM]. unfold bind. destruct (ProcessString str s) as [s1 r1].
  cbn in Hr, E. by subst r1.
Qed.

(** C22. The input side of a console copes with whatever comes through the pipe: if the
    dispatcher's methods return, so does the handling of any series of non-empty strings,
    whatever they contain and however sequences are cut, and after each keystroke the
    parser is well-formed and in its ground state. *)
Theorem console_input_total {D : Type} `{!IInteractDispatch D, !Keyboard, !ReturningDispatch D}
    (strs : list wstring) (e : InputStateMachineEngine D) (runOffset runSize : Z) (last : bool) :
  Forall keystroke strs ->
  let s := (StateMachine_new e true runOffset runSize last).1 : console D in
  exists s', iterM ProcessString strs s = (s', Ok tt) /\ wf s' /\ _state s' = Ground.
Proof.
  intros Hstrs s. apply keystrokes_aux; [done|done|done|].
  repeat split; cbn; try done; try lia; unfold MAX_PARAMETER_VALUE; try lia. apply builder_ok_clear.
Qed.

(** A lone escape, a cut sequence, and a device control string. *)
Lemma console_input_total_witness :
  let s := (StateMachine_new (InputStateMachineEngine_new (InteractRecorder.mkConsole true 0 []) true 500)
              true 0 0 false).1 in
  exists s', iterM ProcessString [[0x1B]; [0x1B; 0x5B; 0x31]; [0x1B; 0x50; 0x71; 0x61]] s = (s', Ok tt) /\
    wf s' /\ _state s' = Ground.
Proof.
  apply console_input_total. repeat constructor; try done; unfold is_wchar; lia.
Defined.
