(* ===== verification/InputKeys.v ===== *)
(** * Function and cursor keys, from the terminal to the console

    Without the Win32 input mode [TerminalInput] sends the cursor, editing and function
    keys as CSI and SS3 sequences, with the modifiers as a parameter.  The theorems show
    that the console gets the same key back, with its modifiers as the left ones, and
    that the records it writes for a key press and release every modifier key. *)

From S2P Require Import Prelude Effects EnumSet DispatchTypes StateMachine StateMachineLaws.
From S2P Require Import StateMachineSeq StateMachineString.
From S2P Require Import Geometry InputEvents InputEngine InputRoundTrip TerminalInput.

Local Open Scope Z_scope.

(** ** Shapes of the sequences *)

(** [ESC [ code ; m final], and [ESC [ code final] or [ESC O final] without modifiers. *)
Record key_shape := mkShape { shape_vkey : Z; shape_code : digits; shape_final : wchar }.

Definition modified_text (sh : key_shape) (digit : wchar) : wstring :=
  [0x1B; 0x5B] ++ shape_code sh ++ [0x3B; digit; shape_final sh].

Definition modified_shapes : list key_shape :=
  [mkShape VK_UP (L"1") 0x41; mkShape VK_DOWN (L"1") 0x42; mkShape VK_RIGHT (L"1") 0x43;
   mkShape VK_LEFT (L"1") 0x44; mkShape VK_HOME (L"1") 0x48; mkShape VK_END (L"1") 0x46;
   mkShape VK_F1 (L"1") 0x50; mkShape VK_F2 (L"1") 0x51; mkShape VK_F3 (L"1") 0x52;
   mkShape VK_F4 (L"1") 0x53; mkShape VK_INSERT (L"2") 0x7E; mkShape VK_DELETE (L"3") 0x7E;
   mkShape VK_PRIOR (L"5") 0x7E; mkShape VK_NEXT (L"6") 0x7E; mkShape VK_F5 (L"15") 0x7E;
   mkShape VK_F6 (L"17") 0x7E; mkShape VK_F7 (L"18") 0x7E; mkShape VK_F8 (L"19") 0x7E;
   mkShape VK_F9 (L"20") 0x7E; mkShape VK_F10 (L"21") 0x7E; mkShape VK_F11 (L"23") 0x7E;
   mkShape VK_F12 (L"24") 0x7E].

Lemma modified_table :
  TerminalInput.s_modifierKeyMapping =
  map (fun sh => TerminalInput.plain_key (shape_vkey sh) (modified_text sh 0x6D)) modified_shapes.
Proof. reflexivity. Qed.

(** Entries without modifiers match by their key alone. *)
Lemma plain_matches e v seq :
  TerminalInput.entry_matches e (TerminalInput.plain_key v seq) = (v =? _virtualKeyCode e).
Proof. unfold TerminalInput.entry_matches. cbn. by rewrite andb_true_r. Qed.

Lemma search_plain {X} e (table : list X) (key : X -> Z) (text : X -> wstring) :
  TerminalInput._searchKeyMapping e (map (fun sh => TerminalInput.plain_key (key sh) (text sh)) table) =
  (fun sh => TerminalInput.plain_key (key sh) (text sh)) <$> List.find (fun sh => key sh =? _virtualKeyCode e) table.
Proof.
  unfold TerminalInput._searchKeyMapping. induction table as [|sh table IH]; [done|].
  cbn [map List.find]. rewrite plain_matches. by case_if.
Qed.

Definition is_modified_key (v : Z) : bool := existsb (fun sh => shape_vkey sh =? v) modified_shapes.

(** The shape of a key of the table. *)
Lemma modified_shape_of v :
  is_modified_key v = true ->
  exists sh, List.find (fun sh => shape_vkey sh =? v) modified_shapes = Some sh /\
    In sh modified_shapes /\ shape_vkey sh = v.
Proof.
  intros Hv. apply existsb_exists in Hv as (sh0 & Hin & Hk).
  destruct (List.find (fun sh => shape_vkey sh =? v) modified_shapes) as [sh|] eqn:E.
  - apply List.find_some in E as [? ?]. exists sh. split_and!; [done..|lia].
  - pose proof (List.find_none _ _ E _ Hin). cbn in *. congruence.
Qed.

(** [with_modifier] puts the digit where the table has its [m]. *)
Lemma with_modifier_text e sh :
  TerminalInput.with_modifier e (modified_text sh 0x6D) = modified_text sh (TerminalInput.modifier_digit e).
Proof.
  unfold TerminalInput.with_modifier, modified_text.
  replace ([27; 91] ++ shape_code sh ++ [59; 109; shape_final sh])
    with (([27; 91] ++ shape_code sh ++ [59]) ++ [109; shape_final sh]) by (by rewrite <- !app_assoc).
  rewrite insert_app_r_alt by (rewrite !length_app; cbn; lia).
  replace (_ - _)%nat with 0%nat by (rewrite !length_app; cbn; lia).
  cbn [insert list_insert]. by rewrite <- !app_assoc.
Qed.

(** ** The parser's side *)

Definition key_csi (ds : list digits) (final : wchar) : csi := mkCsi None ds [] final.

Definition shape_ok (sh : key_shape) : bool :=
  forallb (fun c => (0x30 <=? c) && (c <=? 0x39)) (shape_code sh) && negb (bool_decide (shape_code sh = []))
  && (0x40 <=? shape_final sh) && (shape_final sh <? 0x7F) && (decimal (shape_code sh) <=? 65535)
  && bool_decide ((if shape_final sh =? 0x7E then _GetGenericVkey (decimal (shape_code sh))
                   else _GetCursorKeysVkey (shape_final sh)) = Some (shape_vkey sh))
  && ((shape_final sh =? 0x7E) || is_cursor_key_code (shape_final sh) || (shape_final sh =? 0x52)).

Lemma shape_ok_spec sh :
  shape_ok sh = true ->
  is_final (shape_final sh) /\ Forall is_digit (shape_code sh) /\ shape_code sh <> [] /\
  decimal (shape_code sh) <= 65535.
Proof.
  unfold shape_ok. rewrite !andb_true_iff, Z.ltb_lt, !Z.leb_le.
  intros [[[[[[Hd Hn] H1] H2] H3] _] _]. unfold is_final. split_and!; try done.
  - apply Forall_forall. intros c Hc.
    rewrite List.forallb_forall in Hd. specialize (Hd c Hc).
    rewrite andb_true_iff, !Z.leb_le in Hd. exact Hd.
  - by apply negb_true_iff, bool_decide_eq_false in Hn.
Qed.

Lemma modified_shapes_ok : forallb shape_ok modified_shapes = true.
Proof. vm_compute. reflexivity. Qed.

(** The modifiers as the console reports them. *)
Definition left_modifiers (base mods : Z) : Z :=
  WI_SetFlagIf (WI_SetFlagIf (WI_SetFlagIf base SHIFT_PRESSED (WI_IsAnyFlagSet mods SHIFT_PRESSED))
                  LEFT_ALT_PRESSED (WI_IsAnyFlagSet mods ALT_PRESSED))
    LEFT_CTRL_PRESSED (WI_IsAnyFlagSet mods CTRL_PRESSED).

Lemma modifier_decoded e :
  _GetModifier (TerminalInput.modifier_digit e - 0x30) = left_modifiers ENHANCED_KEY (_activeModifierKeys e).
Proof.
  unfold TerminalInput.modifier_digit, left_modifiers, IsShiftPressed, IsAltPressed, IsCtrlPressed.
  by destruct (WI_IsAnyFlagSet _ SHIFT_PRESSED), (WI_IsAnyFlagSet _ ALT_PRESSED), (WI_IsAnyFlagSet _ CTRL_PRESSED).
Qed.

Lemma modifier_digit_range e : 0x31 <= TerminalInput.modifier_digit e <= 0x38.
Proof.
  unfold TerminalInput.modifier_digit. destruct (IsShiftPressed e), (IsAltPressed e), (IsCtrlPressed e); lia.
Qed.

Lemma enhanced_already p : 0 < p -> Z.lor (_GetModifier p) ENHANCED_KEY = _GetModifier p.
Proof.
  intros Hp. unfold _GetModifier. destruct (Z.ltb_spec 0 p); [|lia].
  by destruct (WI_IsAnyFlagSet (u64 (p - 1)) VT_SHIFT), (WI_IsAnyFlagSet (u64 (p - 1)) VT_ALT),
    (WI_IsAnyFlagSet (u64 (p - 1)) VT_CTRL).
Qed.

Section Keys.
Context {D : Type} `{!IInteractDispatch D} `{!Keyboard}.

#[local] Abbreviation SM := (StateMachine (InputStateMachineEngine D) Empty_set Empty_set).

(** Whatever the sequence of the key, the console writes the key. *)
Lemma switch_key sh ps (s : SM) :
  shape_ok sh = true -> _lookingForDSR (_engine s) = false ->
  (shape_final sh = 0x7E -> param_enum (params_at ps 0) = decimal (shape_code sh)) ->
  0 < param_int (params_at ps 1) ->
  input_csi_switch (shape_final sh) ps s =
  _WriteSingleKey (shape_vkey sh) (_GetModifier (param_int (params_at ps 1))) s.
Proof.
  intros Hok Hdsr Hcode Hp. unfold shape_ok in Hok. rewrite !andb_true_iff in Hok.
  destruct Hok as [[_ Hkey] Hkind]. apply bool_decide_eq_true in Hkey.
  destruct (Z.eqb_spec (shape_final sh) 0x7E) as [Ht|Ht].
  - rewrite Ht. unfold input_csi_switch. change (126 =? InputCsi.MouseDown) with false.
    change (126 =? InputCsi.MouseUp) with false. change (126 =? InputCsi.CSI_F3) with false.
    change (is_cursor_key_code 126) with false. change (126 =? InputCsi.Generic) with true. cbn [orb].
    rewrite (Hcode Ht), Hkey. unfold _GetGenericKeysModifierState.
    by case_if; rewrite ?enhanced_already.
  - assert (Hcur : csi_cursor_key (shape_final sh) ps s =
                   _WriteSingleKey (shape_vkey sh) (_GetModifier (param_int (params_at ps 1))) s).
    { unfold csi_cursor_key. rewrite Hkey. unfold _GetCursorKeysModifierState.
      by case_if; rewrite ?enhanced_already. }
    cbn [orb] in Hkind. apply orb_true_iff in Hkind as [Hc|Hf].
    + rewrite <- Hcur. unfold input_csi_switch. rewrite Hc.
      unfold is_cursor_key_code in Hc. rewrite !orb_true_iff, !Z.eqb_eq in Hc.
      repeat destruct Hc as [Hc|Hc]; rewrite Hc; reflexivity.
    + apply Z.eqb_eq in Hf. rewrite Hf in *. rewrite <- Hcur. unfold input_csi_switch.
      change (82 =? InputCsi.MouseDown) with false. change (82 =? InputCsi.MouseUp) with false.
      change (82 =? InputCsi.CSI_F3) with true. cbn [orb]. unfold bind at 1, get. by rewrite Hdsr.
Qed.

Definition key_events (v mods : Z) : list IInputEvent :=
  _GenerateWrappedSequence (u16 (OneCoreSafeMapVirtualKeyW v MAPVK_VK_TO_CHAR)) v mods.

Lemma csi_key_delivers sh ds (s : SM) d d' v b :
  shape_ok sh = true -> Forall (Forall is_digit) ds -> idle s -> _lookingForDSR (_engine s) = false ->
  (shape_final sh = 0x7E -> param_enum (params_at (params_of ds) 0) = decimal (shape_code sh)) ->
  0 < param_int (params_at (params_of ds) 1) ->
  IsVtInputEnabled (console_of s) = (d, Ok v) -> v && _pfnFlushToInputQueue (_engine s) = false ->
  WriteInput (key_events (shape_vkey sh) (_GetModifier (param_int (params_at (params_of ds) 1)))) d = (d', Ok b) ->
  delivers (csi_text (key_csi ds (shape_final sh))) s (set_pDispatch d' (_engine s)).
Proof.
  intros Hok Hds Hs Hdsr Hcode Hp Hv Hfl Hw. set (q := key_csi ds (shape_final sh)).
  assert (Hq : csi_valid q).
  { destruct (shape_ok_spec _ Hok) as (Hf & _). split; cbn; first [done|lia|by constructor]. }
  assert (Hid : csi_id q = shape_final sh).
  { destruct (shape_ok_spec _ Hok) as (Hf & _). unfold csi_id, q, is_final in *. cbn [csi_prefix csi_marker key_csi
      csi_intermediates_of csi_final app]. rewrite FromString_le256; [cbn; lia| |cbn; lia].
    repeat constructor; unfold is_byte; lia. }
  assert (E : InputEngine_ActionCsiDispatch (csi_id q) (params_of (csi_params q)) (csi_ready q s) =
              (set_engine (set_pDispatch d' (_engine s)) (csi_ready q s), Ok b)).
  { unfold InputEngine_ActionCsiDispatch. rewrite (bind_Ok _ _ _ _ _ (should_flush_ready _ s d v Hv)), Hfl, Hid.
    cbn [andb]. change (csi_params q) with ds. rewrite switch_key by done.
    exact (dispatch_at _ (set_engine (set_pDispatch d (_engine s)) (csi_ready q s)) d' b Hw). }
  apply (csi_delivers _ s _ b Hq Hs E). apply Hs.
Qed.

(** ** The terminal's side *)

(** A press of a key that is not a repetition to be suppressed, in the modes of a client
    that did not ask for Win32 events. *)
Record vt_press (e : KeyEvent) (t : TerminalInput.TerminalInput) : Prop := {
  vp_down : _keyDown e = true;
  vp_win32 : enumset_test (TerminalInput._inputMode t) TerminalInput.Win32 = false;
  vp_repeat : enumset_test (TerminalInput._inputMode t) TerminalInput.AutoRepeat = true;
  vp_altgr : IsAltGrPressed e = false
}.

(** The keys of the tables are not characters. *)
Definition is_special_key (v : Z) : bool :=
  negb (v =? VK_BACK) && negb (v =? 0x20) && negb ((0x40 <? v) && (v <=? 0x5A)).

Lemma HandleKey_press e t :
  vt_press e t ->
  TerminalInput.HandleKey (Key e) t =
  TerminalInput.handle_press e (TerminalInput.set_lastVirtualKeyCode (Some (_virtualKeyCode e)) t).
Proof.
  intros [Hd Hw Hr Ha]. unfold TerminalInput.HandleKey. rewrite Hw, Hd, Hr. cbn [andb negb].
  by rewrite andb_false_r.
Qed.

Lemma handle_special e t :
  IsAltGrPressed e = false -> is_special_key (_virtualKeyCode e) = true -> _charData e = 0 ->
  _virtualKeyCode e <> LOBYTE (OneCoreSafeVkKeyScanW 0) ->
  TerminalInput.handle_press e t = TerminalInput.handle_mappings e t.
Proof.
  intros Ha Hk Hc Hn. unfold is_special_key in Hk. rewrite !andb_true_iff, !negb_true_iff in Hk.
  destruct Hk as [[Hb Hsp] Hl]. unfold TerminalInput.handle_press. rewrite Hb, Ha.
  replace (TerminalInput.ctrl_alt_character e) with (@None wchar); [by case_if|].
  unfold TerminalInput.ctrl_alt_character. rewrite Hc. cbn [Z.eqb negb].
  rewrite Hsp, Hl. cbn [orb andb]. by destruct (Z.eqb_spec (_virtualKeyCode e) (LOBYTE (OneCoreSafeVkKeyScanW 0))).
Qed.

Lemma modified_special v : is_modified_key v = true -> is_special_key v = true.
Proof.
  intros Hv. assert (Hall : forallb (fun sh => is_special_key (shape_vkey sh)) modified_shapes = true)
    by (vm_compute; reflexivity).
  apply existsb_exists in Hv as (sh & Hin & Hk). apply Z.eqb_eq in Hk. subst v.
  rewrite List.forallb_forall in Hall. by apply Hall.
Qed.

Lemma HandleKey_modified e t :
  vt_press e t -> is_modified_key (_virtualKeyCode e) = true -> IsModifierPressed e = true ->
  _charData e = 0 -> _virtualKeyCode e <> LOBYTE (OneCoreSafeVkKeyScanW 0) ->
  exists sh, shape_ok sh = true /\ shape_vkey sh = _virtualKeyCode e /\
    TerminalInput.HandleKey (Key e) t =
      (TerminalInput.write_events
         (map TerminalInput.character_event (modified_text sh (TerminalInput.modifier_digit e)))
         (TerminalInput.set_lastVirtualKeyCode (Some (_virtualKeyCode e)) t), true).
Proof.
  intros Hp Hk Hm Hc Hn. destruct (modified_shape_of _ Hk) as (sh & Hf & Hin & Hv). exists sh.
  split; [pose proof modified_shapes_ok as Hall; rewrite List.forallb_forall in Hall; by apply Hall|].
  split; [done|]. rewrite HandleKey_press, handle_special by (try apply Hp; auto using modified_special).
  unfold TerminalInput.handle_mappings. rewrite Hm. unfold TerminalInput._searchWithModifier.
  rewrite modified_table, search_plain, Hf. cbn [fmap option_fmap option_map TerminalInput.sequence TerminalInput.plain_key].
  pose proof (with_modifier_text e sh) as Ht. destruct (modified_text sh 109) eqn:E; [done|]. by rewrite Ht.
Qed.

(** ** Keys without modifiers *)

Lemma In_bools (b : bool) : In b [true; false].
Proof. destruct b; cbn; auto. Qed.

(** The entries of a table without modifiers. *)
Lemma search_by_key e table :
  forallb (fun m => TerminalInput.modifiers m =? 0) table = true ->
  TerminalInput._searchKeyMapping e table =
  List.find (fun m => TerminalInput.vkey m =? _virtualKeyCode e) table.
Proof.
  unfold TerminalInput._searchKeyMapping. induction table as [|m table IH]; [done|]. cbn [forallb List.find].
  intros [Hm Ht]%andb_true_iff. rewrite IH by done. apply Z.eqb_eq in Hm.
  replace (TerminalInput.entry_matches e m) with (TerminalInput.vkey m =? _virtualKeyCode e); [done|].
  unfold TerminalInput.entry_matches. rewrite Hm. cbn. by rewrite andb_true_r.
Qed.

Definition is_ss3_key (cursorMode : bool) (sh : key_shape) : bool :=
  negb (shape_final sh =? 0x7E) && (cursorMode || ((VK_F1 <=? shape_vkey sh) && (shape_vkey sh <=? VK_F4))).

Definition plain_text (cursorMode : bool) (sh : key_shape) : wstring :=
  if is_ss3_key cursorMode sh then ss3_text (shape_final sh)
  else csi_text (key_csi (if shape_final sh =? 0x7E then [shape_code sh] else []) (shape_final sh)).

(** The tables and the shapes agree. *)
Lemma plain_tables :
  forallb (fun sh =>
    forallb (fun cursorMode =>
      forallb (fun keypadMode =>
        let e := mkKeyEvent true 1 (shape_vkey sh) 0 0 0 in
        bool_decide (TerminalInput._translateDefaultMapping e
                       (TerminalInput._getKeyMapping e true cursorMode keypadMode)
                     = Some (plain_text cursorMode sh))) [true; false]) [true; false]) modified_shapes = true.
Proof. vm_compute. reflexivity. Qed.

Lemma translate_by_key e e' a c k :
  _virtualKeyCode e = _virtualKeyCode e' ->
  TerminalInput._translateDefaultMapping e (TerminalInput._getKeyMapping e a c k) =
  TerminalInput._translateDefaultMapping e' (TerminalInput._getKeyMapping e' a c k).
Proof.
  intros Hv. unfold TerminalInput._translateDefaultMapping.
  replace (TerminalInput._getKeyMapping e a c k) with (TerminalInput._getKeyMapping e' a c k)
    by (unfold TerminalInput._getKeyMapping, IsCursorKey; by rewrite Hv).
  rewrite !search_by_key, Hv; [done|..]; unfold TerminalInput._getKeyMapping; repeat case_if; reflexivity.
Qed.

Lemma HandleKey_plain e t :
  vt_press e t -> enumset_test (TerminalInput._inputMode t) TerminalInput.Ansi = true ->
  is_modified_key (_virtualKeyCode e) = true -> IsModifierPressed e = false ->
  exists sh, In sh modified_shapes /\ shape_vkey sh = _virtualKeyCode e /\
    TerminalInput.HandleKey (Key e) t =
      (TerminalInput.write_events
         (map TerminalInput.character_event
            (plain_text (enumset_test (TerminalInput._inputMode t) TerminalInput.CursorKey) sh))
         (TerminalInput.set_lastVirtualKeyCode (Some (_virtualKeyCode e)) t), true).
Proof.
  intros Hp Ha Hk Hm. destruct (modified_shape_of _ Hk) as (sh & Hf & Hin & Hv). exists sh. split_and!; [done..|].
  rewrite HandleKey_press by done. unfold TerminalInput.handle_press. rewrite (vp_altgr _ _ Hp).
  pose proof (modified_special _ Hk) as Hsp. unfold is_special_key in Hsp.
  rewrite !andb_true_iff, !negb_true_iff in Hsp. destruct Hsp as [[-> _] _].
  assert (Hmods : IsAltPressed e = false /\ IsCtrlPressed e = false).
  { revert Hm. unfold IsModifierPressed, IsAltPressed, IsCtrlPressed, WI_IsAnyFlagSet, MOD_PRESSED.
    rewrite !Z.land_lor_distr_r, !negb_false_iff, !Z.eqb_eq, !Z.lor_eq_0_iff. tauto. }
  destruct Hmods as [Halt Hctrl]. rewrite Halt, Hctrl. cbn [andb]. unfold TerminalInput.handle_mappings.
  rewrite Hm, Halt, Hctrl. cbn [andb negb TerminalInput._inputMode TerminalInput.set_lastVirtualKeyCode]. rewrite Ha.
  rewrite (translate_by_key e (mkKeyEvent true 1 (shape_vkey sh) 0 0 0)) by (by rewrite <- Hv).
  pose proof plain_tables as Hall. rewrite List.forallb_forall in Hall. specialize (Hall sh Hin).
  rewrite List.forallb_forall in Hall.
  specialize (Hall _ (In_bools (enumset_test (TerminalInput._inputMode t) TerminalInput.CursorKey))). cbv beta in Hall.
  rewrite List.forallb_forall in Hall.
  specialize (Hall _ (In_bools (enumset_test (TerminalInput._inputMode t) TerminalInput.Keypad))). cbv beta zeta in Hall.
  apply bool_decide_eq_true in Hall. rewrite Hall.
  destruct (plain_text _ sh) eqn:E; [|done]. unfold plain_text in E. by destruct (is_ss3_key _ _).
Qed.

(** What the console says of the key: SS3 sequences do not carry the enhanced flag. *)
Definition plain_flags (cursorMode : bool) (v : Z) : Z :=
  if ((VK_F1 <=? v) && (v <=? VK_F4)) || (cursorMode && (VK_END <=? v) && (v <=? VK_DOWN)) then 0 else ENHANCED_KEY.

Lemma plain_flags_ss3 :
  forallb (fun sh => forallb (fun c => plain_flags c (shape_vkey sh) =? (if is_ss3_key c sh then 0 else ENHANCED_KEY))
                       [true; false]) modified_shapes = true.
Proof. vm_compute. reflexivity. Qed.

Lemma ss3_shapes :
  forallb (fun sh => (shape_final sh =? 0x7E) || bool_decide (_GetSs3KeysVkey (shape_final sh) = Some (shape_vkey sh)))
    modified_shapes = true.
Proof. vm_compute. reflexivity. Qed.

Lemma ss3_delivers c key (s : SM) d d' v b :
  is_final c -> _GetSs3KeysVkey c = Some key -> idle s -> _isEngineForInput s = true ->
  IsVtInputEnabled (console_of s) = (d, Ok v) -> v && _pfnFlushToInputQueue (_engine s) = false ->
  WriteInput (key_events key 0) d = (d', Ok b) ->
  delivers (ss3_text c) s (set_pDispatch d' (_engine s)).
Proof.
  intros Hf Hk [Hg Hi Ha _] Hin Hv Hfl Hw.
  assert (E : InputEngine_ActionSs3Dispatch c [] (ss3_ready c s) =
              (set_engine (set_pDispatch d' (_engine s)) (ss3_ready c s), Ok b)).
  { unfold InputEngine_ActionSs3Dispatch, should_flush. rewrite bind_assoc.
    rewrite (bind_Ok _ _ _ _ _ (dispatch_at _ (ss3_ready c s) d v Hv)). unfold bind at 1, get.
    cbn [_engine set_engine _pfnFlushToInputQueue set_pDispatch].
    change (_pfnFlushToInputQueue (_engine (ss3_ready c s))) with (_pfnFlushToInputQueue (_engine s)).
    rewrite Hfl, Hk.
    exact (dispatch_at _ (set_engine (set_pDispatch d (_engine s)) (ss3_ready c s)) d' b Hw). }
  eexists. split; [by eapply (ss3_string_dispatch input_print_nothing)|]. by split; [apply idle_settle|].
Qed.

End Keys.

(** ** Properties *)

#[local] Abbreviation console D := (StateMachine (InputStateMachineEngine D) Empty_set Empty_set).

(** A number in range, read back as an enumeration. *)
Lemma param_enum_of ds :
  ds <> [] -> Forall is_digit ds -> decimal ds <= 65535 -> param_enum (param_of ds) = decimal ds.
Proof.
  intros Hne Hd Hle. pose proof (decimal_nonneg _ Hd). unfold param_of, param_enum, value_or, MAX_PARAMETER_VALUE.
  destruct ds as [|c ds]; [done|]. rewrite Z.min_l by lia. destruct (Z.ltb_spec (decimal (c :: ds)) 0); lia.
Qed.

Lemma params_of_two ds1 ds2 : ds1 <> [] -> params_of [ds1; ds2] = [param_of ds1; param_of ds2].
Proof. intros Hne. unfold params_of. by rewrite bool_decide_false by (by destruct ds1). Qed.

(** C23. The cursor, editing and function keys with modifiers survive the way from a
    terminal to a console whose client does not want VT input: the press is sent as one
    sequence, and that sequence makes the console write the presses and releases of the
    same key, with [Shift], [Alt] and [Ctrl] held if they were, as the left keys.  The
    terminal repeats keys and does not send Win32 sequences; the modifiers are not those
    of [AltGr] (the left [Ctrl] with the right [Alt]), with which the encoder sends the
    sequence of the plain key; the key event carries no character; and the console is
    not waiting for a cursor report, as which it would read the sequence of [F3]. *)
Theorem modified_key_round_trip {D : Type} `{!IInteractDispatch D, !Keyboard}
    (e : KeyEvent) (t : TerminalInput.TerminalInput) (s : console D) (d d' : D) (v b : bool) :
  vt_press e t -> is_modified_key (_virtualKeyCode e) = true -> IsModifierPressed e = true ->
  _charData e = 0 -> _virtualKeyCode e <> LOBYTE (OneCoreSafeVkKeyScanW 0) ->
  idle s -> _lookingForDSR (_engine s) = false ->
  IsVtInputEnabled (console_of s) = (d, Ok v) -> v && _pfnFlushToInputQueue (_engine s) = false ->
  WriteInput (key_events (_virtualKeyCode e) (left_modifiers ENHANCED_KEY (_activeModifierKeys e))) d = (d', Ok b) ->
  exists text,
    TerminalInput.HandleKey (Key e) t =
      (TerminalInput.write_events (map TerminalInput.character_event text)
         (TerminalInput.set_lastVirtualKeyCode (Some (_virtualKeyCode e)) t), true) /\
    delivers text s (set_pDispatch d' (_engine s)).
Proof.
  intros Hp Hk Hm Hc Hn Hs Hdsr Hv Hfl Hw.
  destruct (HandleKey_modified e t Hp Hk Hm Hc Hn) as (sh & Hok & Hsv & Hh). eexists. split; [exact Hh|].
  destruct (shape_ok_spec _ Hok) as (_ & Hd & Hne & Hle). set (digit := TerminalInput.modifier_digit e).
  pose proof (modifier_digit_range e) as Hdig. fold digit in Hdig.
  replace (modified_text sh digit) with (csi_text (key_csi [shape_code sh; [digit]] (shape_final sh)))
    by (unfold csi_text, modified_text; cbn; by rewrite <- !app_assoc).
  assert (Hps : params_of [shape_code sh; [digit]] = [decimal (shape_code sh); digit - 0x30]).
  { rewrite params_of_two by done. unfold param_of. destruct (shape_code sh) eqn:E; [done|].
    unfold MAX_PARAMETER_VALUE. rewrite !Z.min_l by (done || (cbn; lia)). done. }
  pose proof (decimal_nonneg _ Hd).
  assert (Hp1 : param_int (params_at (params_of [shape_code sh; [digit]]) 1) = digit - 0x30).
  { rewrite Hps. unfold params_at, param_int. cbn. case_if; bool_prop; lia. }
  eapply csi_key_delivers; try done; rewrite ?Hp1; try lia.
  - repeat constructor; try done; unfold is_digit; lia.
  - intros _. rewrite params_of_two by done. by apply param_enum_of.
  - unfold digit. by rewrite modifier_decoded, Hsv.
Qed.

(** [Shift] and [Ctrl] with [F5]. *)
Lemma modified_key_round_trip_witness :
  let e := mkKeyEvent true 1 VK_F5 0x3F 0 (Z.lor SHIFT_PRESSED RIGHT_CTRL_PRESSED) in
  let t := TerminalInput.TerminalInput_new in
  let s := InteractRecorder.machine false true in
  exists text,
    TerminalInput.HandleKey (Key e) t =
      (TerminalInput.write_events (map TerminalInput.character_event text)
         (TerminalInput.set_lastVirtualKeyCode (Some VK_F5) t), true) /\
    delivers text s
      (set_pDispatch (InteractRecorder.mkConsole false 0
         [InteractRecorder.Input
            (key_events VK_F5 (Z.lor ENHANCED_KEY (Z.lor SHIFT_PRESSED LEFT_CTRL_PRESSED)))]) (_engine s)).
Proof.
  intros e t s. apply (modified_key_round_trip e t s (console_of s) _ false true); try reflexivity.
  - by split.
  - vm_compute. discriminate.
  - by split.
Defined.

(** C24. The same keys without modifiers, in ANSI mode and whatever the cursor and keypad
    modes: the sequence the terminal sends, CSI or SS3, makes the console write the press
    and the release of the same key.  Again the terminal repeats keys and does not send
    Win32 sequences, the client does not want VT input and no cursor report is awaited. *)
Theorem plain_key_round_trip {D : Type} `{!IInteractDispatch D, !Keyboard}
    (e : KeyEvent) (t : TerminalInput.TerminalInput) (s : console D) (d d' : D) (v b : bool) :
  vt_press e t -> enumset_test (TerminalInput._inputMode t) TerminalInput.Ansi = true ->
  is_modified_key (_virtualKeyCode e) = true -> IsModifierPressed e = false ->
  idle s -> _isEngineForInput s = true -> _lookingForDSR (_engine s) = false ->
  IsVtInputEnabled (console_of s) = (d, Ok v) -> v && _pfnFlushToInputQueue (_engine s) = false ->
  WriteInput (key_events (_virtualKeyCode e)
    (plain_flags (enumset_test (TerminalInput._inputMode t) TerminalInput.CursorKey) (_virtualKeyCode e))) d
    = (d', Ok b) ->
  exists text,
    TerminalInput.HandleKey (Key e) t =
      (TerminalInput.write_events (map TerminalInput.character_event text)
         (TerminalInput.set_lastVirtualKeyCode (Some (_virtualKeyCode e)) t), true) /\
    delivers text s (set_pDispatch d' (_engine s)).
Proof.
  intros Hp Ha Hk Hm Hs Hin Hdsr Hv Hfl Hw.
  destruct (HandleKey_plain e t Hp Ha Hk Hm) as (sh & Hsh & Hsv & Hh). eexists. split; [exact Hh|].
  set (c := enumset_test _ TerminalInput.CursorKey) in *. rewrite <- Hsv in Hw.
  pose proof modified_shapes_ok as Hok. rewrite List.forallb_forall in Hok. specialize (Hok sh Hsh).
  pose proof plain_flags_ss3 as Hpf. rewrite List.forallb_forall in Hpf. specialize (Hpf sh Hsh).
  rewrite List.forallb_forall in Hpf. specialize (Hpf _ (In_bools c)). apply Z.eqb_eq in Hpf.
  rewrite Hpf in Hw. destruct (shape_ok_spec _ Hok) as (Hfin & Hd & Hne & Hle). unfold plain_text.
  destruct (is_ss3_key c sh) eqn:Hss.
  - pose proof ss3_shapes as Hk3. rewrite List.forallb_forall in Hk3. specialize (Hk3 sh Hsh). cbv beta in Hk3.
    unfold is_ss3_key in Hss. apply andb_true_iff in Hss as [Ht%negb_true_iff _].
    rewrite Ht in Hk3. apply bool_decide_eq_true in Hk3. by eapply ss3_delivers.
  - eapply csi_key_delivers; try done.
    + case_if; repeat constructor; done.
    + intros Ht. rewrite Ht. cbn [Z.eqb Pos.eqb]. unfold params_of. cbn [params_text].
      rewrite bool_decide_false by done. by apply param_enum_of.
    + case_if; unfold params_of; case_bool_decide; done.
    + replace (params_at _ 1) with VTParameter_default; [exact Hw|].
      case_if; unfold params_of; case_bool_decide; done.
Qed.

(** The up arrow in the application mode of the cursor keys. *)
Lemma plain_key_round_trip_witness :
  let e := mkKeyEvent true 1 VK_UP 0x48 0 ENHANCED_KEY in
  let t := TerminalInput.SetInputMode TerminalInput.CursorKey true TerminalInput.TerminalInput_new in
  let s := InteractRecorder.machine false true in
  exists text,
    TerminalInput.HandleKey (Key e) t =
      (TerminalInput.write_events (map TerminalInput.character_event text)
         (TerminalInput.set_lastVirtualKeyCode (Some VK_UP) t), true) /\
    delivers text s
      (set_pDispatch (InteractRecorder.mkConsole false 0 [InteractRecorder.Input (key_events VK_UP 0)]) (_engine s)).
Proof.
  intros e t s. apply (plain_key_round_trip e t s (console_of s) _ false true); try reflexivity; by split.
Defined.

(** ** The records of a key *)

Definition modifier_flag (v : Z) : Z :=
  if v =? VK_SHIFT then SHIFT_PRESSED else if v =? VK_MENU then LEFT_ALT_PRESSED
  else if v =? VK_CONTROL then LEFT_CTRL_PRESSED else 0.

(** A keyboard to which key records are replayed: the keys held, the last pressed first.
    A release must be that of the last key pressed, and the record of a modifier key must
    show the modifiers held after it. *)
Fixpoint replay (events : list IInputEvent) (held : list Z) : option (list Z) :=
  match events with
  | [] => Some held
  | Key e :: events =>
      let after :=
        if _keyDown e then Some (_virtualKeyCode e :: held)
        else match held with
             | v :: held => if v =? _virtualKeyCode e then Some held else None
             | [] => None
             end in
      match after with
      | Some held =>
          if (modifier_flag (_virtualKeyCode e) =? 0)
             || (_activeModifierKeys e =? foldr Z.lor 0 (map modifier_flag held))
          then replay events held else None
      | None => None
      end
  | _ => None
  end.

(** The records the console writes for a key are what a keyboard would produce: the
    modifier keys are pressed one after the other, then the key, and all are released in
    the reverse order, the state of the control keys following; there are never more than
    the eight records announced, and the key itself is pressed once with its character
    and all its modifiers. *)
Theorem wrapped_sequence_nested `{!Keyboard} (wch : wchar) (v mods : Z) :
  modifier_flag v = 0 ->
  let events := _GenerateWrappedSequence wch v mods in
  replay events [] = Some [] /\ (length events <= 8)%nat /\
  List.filter (fun ev => match ev with Key e => _virtualKeyCode e =? v | _ => false end) events =
    _GetSingleKeypress wch v mods.
Proof.
  intros Hv events. subst events.
  assert (Hne : (v =? VK_SHIFT) = false /\ (v =? VK_MENU) = false /\ (v =? VK_CONTROL) = false).
  { unfold modifier_flag in Hv. by destruct (v =? VK_SHIFT), (v =? VK_MENU), (v =? VK_CONTROL). }
  destruct Hne as (H1 & H2 & H3). unfold _GenerateWrappedSequence, _GetSingleKeypress.
  rewrite Z.eqb_sym in H1, H2, H3.
  destruct (WI_IsAnyFlagSet mods SHIFT_PRESSED), (WI_IsAnyFlagSet mods LEFT_CTRL_PRESSED),
    (WI_IsAnyFlagSet mods LEFT_ALT_PRESSED);
    cbn -[VK_SHIFT VK_MENU VK_CONTROL modifier_flag Z.eqb]; unfold modifier_event, IInputEvent_rect;
    cbn -[VK_SHIFT VK_MENU VK_CONTROL modifier_flag Z.eqb]; rewrite ?Z.eqb_refl, ?H1, ?H2, ?H3, ?Hv; cbn;
    rewrite ?Z.eqb_refl; (split_and!; [reflexivity|lia|reflexivity]).
Qed.

Lemma wrapped_sequence_nested_witness :
  let events := @_GenerateWrappedSequence InteractRecorder.keyboard 0x41 0x41
                  (Z.lor SHIFT_PRESSED LEFT_ALT_PRESSED) in
  replay events [] = Some [] /\ (length events <= 8)%nat /\
  List.filter (fun ev => match ev with Key e => _virtualKeyCode e =? 0x41 | _ => false end) events =
    @_GetSingleKeypress InteractRecorder.keyboard 0x41 0x41 (Z.lor SHIFT_PRESSED LEFT_ALT_PRESSED).
Proof. apply (@wrapped_sequence_nested InteractRecorder.keyboard). reflexivity. Defined.

(** ** Characters without a key *)

(** C40. The test that should refuse a character the keyboard layout does not have never
    succeeds, because the bytes of the answer are compared with [-1] as numbers from 0 to
    255: the layout's refusal is read as the key [0xFF] with [Shift], [Ctrl] and [Alt], and
    [ActionPrint] writes those key presses. *)
Theorem unmapped_character_key {D : Type} `{!IInteractDispatch D, !Keyboard} (wch : wchar)
    (s : StateMachine (InputStateMachineEngine D) Empty_set Empty_set) :
  _GenerateKeyFromChar wch <> None /\
  (OneCoreSafeVkKeyScanW wch = -1 ->
   InputEngine_ActionPrint wch s =
   dispatch (WriteInput (_GenerateWrappedSequence wch 0xFF
     (Z.lor SHIFT_PRESSED (Z.lor LEFT_CTRL_PRESSED LEFT_ALT_PRESSED)))) s).
Proof.
  split.
  - unfold _GenerateKeyFromChar. assert (Hb : 0 <= LOBYTE (OneCoreSafeVkKeyScanW wch))
      by (unfold LOBYTE; apply Z.land_nonneg; right; lia).
    destruct (Z.eqb_spec (LOBYTE (OneCoreSafeVkKeyScanW wch)) (-1)); [lia|done].
  - intros Hk. unfold InputEngine_ActionPrint, _GenerateKeyFromChar. by rewrite Hk.
Qed.

(** The euro sign on a layout without it. *)
Lemma unmapped_character_key_witness :
  InteractRecorder.log (console_of (InputEngine_ActionPrint 0x20AC (InteractRecorder.machine false true)).1) =
  [InteractRecorder.Input (_GenerateWrappedSequence 0x20AC 0xFF
     (Z.lor SHIFT_PRESSED (Z.lor LEFT_CTRL_PRESSED LEFT_ALT_PRESSED)))].
Proof.
  destruct (unmapped_character_key 0x20AC (InteractRecorder.machine false true)) as [_ H].
  rewrite H by reflexivity. reflexivity.
Defined.
