(* ===== verification/InputMouse.v ===== *)
(** * The mouse, from the terminal to the console

    The input modes of [TerminalInput], the accumulation of wheel movements, and the SGR
    encoding of mouse buttons, decoded by the console. *)

From S2P Require Import Prelude Effects EnumSet DispatchTypes StateMachine StateMachineLaws.
From S2P Require Import StateMachineSeq StateMachineString.
From S2P Require Import Geometry InputEvents InputEngine InputRoundTrip TerminalInput InputKeys.

Local Open Scope Z_scope.

(** ** Buttons *)









(** ** The terminal's side *)




(** ** The console's side *)

Section Console.
Context {D : Type} `{!IInteractDispatch D} `{!Keyboard}.

#[local] Abbreviation SM := (StateMachine (InputStateMachineEngine D) Empty_set Empty_set).
#[local] Abbreviation engine := (InputStateMachineEngine D).





Lemma set_engine_twice (e e' : engine) (s : SM) : set_engine e (set_engine e' s) = set_engine e s.
Proof. done. Qed.






End Console.

(** ** Properties *)

#[local] Abbreviation console D := (StateMachine (InputStateMachineEngine D) Empty_set Empty_set).




