(* ===== verification/InputModes.v ===== *)
(** * The invariant of the terminal's input

    The operations of [TerminalInput] as steps, and what holds in every state they reach:
    the mouse modes exclude each other, less than one notch of the wheel is pending, and a
    stored surrogate is a leading one. *)

From S2P Require Import Prelude EnumSet Geometry InputEvents InputEngine InputRoundTrip TerminalInput.
Import TerminalInput.

Local Open Scope Z_scope.

Definition tracking_modes : list Mode := [DefaultMouseTracking; ButtonEventMouseTracking; AnyEventMouseTracking].
Definition encoding_modes : list Mode := [Utf8MouseEncoding; SgrMouseEncoding].

(** At most one of the modes is set. *)
Definition exclusive (modes : list Mode) (data : enumset) : Prop :=
  forall m1 m2, m1 ∈ modes -> m2 ∈ modes ->
  enumset_test data m1 = true -> enumset_test data m2 = true -> m1 = m2.

Definition surrogate_ok (t : TerminalInput) : Prop :=
  forall c, _leadingSurrogate t = Some c -> is_leading_surrogate c = true.

Record input_ok (t : TerminalInput) : Prop := {
  io_tracking : exclusive tracking_modes (_inputMode t);
  io_encoding : exclusive encoding_modes (_inputMode t);
  io_wheel : Z.abs (accumulatedDelta (_mouseInputState t)) < WHEEL_DELTA;
  io_surrogate : surrogate_ok t
}.

(** ** Modes *)

Lemma mode_fits (m : Mode) : fits m.
Proof. destruct m; unfold fits, position, Mode_position; lia. Qed.

Lemma modes_fit (ms : list Mode) : Forall fits ms.
Proof. induction ms; constructor; auto using mode_fits. Qed.

Lemma position_inj (m1 m2 : Mode) : (position m1 =? position m2) = bool_decide (m1 = m2).
Proof. destruct m1, m2; reflexivity. Qed.

Lemma test_set_to data (m q : Mode) b :
  enumset_test (enumset_set_to data m b) q = if bool_decide (m = q) then b else enumset_test data q.
Proof.
  destruct (enumset_operations data [] m q b) as (_ & _ & -> & _); [apply modes_fit|apply mode_fits..|].
  by rewrite position_inj.
Qed.

Lemma member_in (q : Mode) ms : member q ms = bool_decide (q ∈ ms).
Proof.
  unfold member. induction ms as [|m ms IH]; [done|]. cbn [existsb]. rewrite IH, position_inj.
  apply eq_true_iff_eq. rewrite orb_true_iff, !bool_decide_eq_true, elem_of_cons. split; intros [->|?]; auto.
Qed.

Lemma test_reset data ms (q : Mode) :
  enumset_test (enumset_reset data ms) q = enumset_test data q && negb (bool_decide (q ∈ ms)).
Proof.
  destruct (enumset_operations data ms q q true) as (_ & _ & _ & -> & _); [apply modes_fit|apply mode_fits..|].
  by rewrite member_in.
Qed.

(** Removing modes keeps them exclusive, and so does setting one after all were removed. *)
Lemma exclusive_reset ms ms' data : exclusive ms data -> exclusive ms (enumset_reset data ms').
Proof.
  intros He m1 m2 H1 H2. rewrite !test_reset. intros [? _]%andb_true_iff [? _]%andb_true_iff. auto.
Qed.

Lemma exclusive_other ms data m b : m ∉ ms -> exclusive ms data -> exclusive ms (enumset_set_to data m b).
Proof.
  intros Hm He m1 m2 H1 H2. rewrite !test_set_to, !bool_decide_false by (intros ->; done). auto.
Qed.

Lemma exclusive_off ms data m : exclusive ms data -> exclusive ms (enumset_set_to data m false).
Proof. intros He m1 m2 H1 H2. rewrite !test_set_to. repeat case_bool_decide; try done. auto. Qed.

Lemma exclusive_only ms data m b : exclusive ms (enumset_set_to (enumset_reset data ms) m b).
Proof.
  intros m1 m2 H1 H2. rewrite !test_set_to, !test_reset, !(bool_decide_true (_ ∈ ms)) by done.
  rewrite !andb_false_r. repeat case_bool_decide; congruence.
Qed.

Lemma SetInputMode_modes mode b t :
  _inputMode (SetInputMode mode b t) =
  enumset_set_to
    (let data := if is_tracking mode then enumset_reset (_inputMode t) tracking_modes else _inputMode t in
     if is_encoding mode && b then enumset_reset data encoding_modes else data) mode b.
Proof. unfold SetInputMode. destruct (is_tracking mode), (is_encoding mode && b); done. Qed.

Lemma SetInputMode_ok mode b t : input_ok t -> input_ok (SetInputMode mode b t).
Proof.
  intros [Ht He Hw Hs]. split.
  - rewrite SetInputMode_modes. cbv zeta. destruct (is_tracking mode) eqn:Hm.
    + replace (is_encoding mode) with false by (by destruct mode). apply exclusive_only.
    + apply exclusive_other; [apply (bool_decide_eq_false_1 _); by destruct mode|].
      case_if; auto using exclusive_reset.
  - rewrite SetInputMode_modes. cbv zeta. destruct (is_encoding mode) eqn:Hm.
    + replace (is_tracking mode) with false by (by destruct mode).
      destruct b; [apply exclusive_only|by apply exclusive_off].
    + cbn [andb]. apply exclusive_other; [apply (bool_decide_eq_false_1 _); by destruct mode|].
      case_if; auto using exclusive_reset.
  - unfold SetInputMode. by repeat case_if.
  - unfold surrogate_ok, SetInputMode in *. by repeat case_if.
Qed.

Lemma default_modes_ok : exclusive tracking_modes (enumset_new [Ansi; AutoRepeat]) /\
                         exclusive encoding_modes (enumset_new [Ansi; AutoRepeat]).
Proof.
  split; intros m1 m2 H1 _ T1 _; apply (bool_decide_eq_true_2 _) in H1; destruct m1; vm_compute in T1, H1; discriminate.
Qed.

(** ** Sending *)

(** What sending changes: events are appended, and a surrogate may be stored. *)
Record sends (t t' : TerminalInput) : Prop := {
  se_modes : _inputMode t' = _inputMode t;
  se_mouse : _mouseInputState t' = _mouseInputState t;
  se_force : _forceDisableWin32InputMode t' = _forceDisableWin32InputMode t;
  se_surrogate : surrogate_ok t -> surrogate_ok t';
  se_written : exists events, _written t' = _written t ++ events
}.

#[export] Instance sends_preorder : PreOrder sends.
Proof.
  split.
  - intros t. split; auto. exists []. by rewrite app_nil_r.
  - intros t1 t2 t3 [M1 S1 F1 U1 [w1 W1]] [M2 S2 F2 U2 [w2 W2]]. split; try congruence; auto.
    exists (w1 ++ w2). by rewrite W2, W1, app_assoc.
Qed.

Lemma write_sends events t : sends t (write_events events t).
Proof. split; auto. by exists [events]. Qed.

Lemma sequence_sends seq t : sends t (_SendInputSequence seq t).
Proof. destruct seq; [reflexivity|apply write_sends]. Qed.

Lemma last_key_sends v t : sends t (set_lastVirtualKeyCode v t).
Proof. split; auto. exists []. by rewrite app_nil_r. Qed.

Lemma char_sends ch t : sends t (_SendChar ch t).
Proof.
  unfold _SendChar. destruct (is_leading_surrogate ch) eqn:Hc.
  - transitivity (match _leadingSurrogate t with
                  | Some c => _SendInputSequence (format_unsigned c) t | None => t end).
    + destruct (_leadingSurrogate t); [apply sequence_sends|reflexivity].
    + split; auto; [by intros _ c [= <-]|]. exists []. by rewrite app_nil_r.
  - destruct (_leadingSurrogate t); [|apply sequence_sends].
    etrans; [|apply sequence_sends]. split; auto; [by intros _ c' [=]|]. exists []. by rewrite app_nil_r.
Qed.

Create HintDb input.
#[local] Hint Resolve write_sends sequence_sends last_key_sends char_sends : input.

Section Operations.
Context `{!Keyboard}.

Lemma ctrl_sends e t t' : handle_ctrl e t = Some t' -> sends t t'.
Proof.
  unfold handle_ctrl, _SendNullInputSequence. intros Ht.
  repeat (case_match; try done); simplify_eq; auto with input.
Qed.

Lemma mappings_sends e t : sends t (handle_mappings e t).1.
Proof.
  unfold handle_mappings, _SendEscapedInputSequence.
  destruct (if IsModifierPressed e then _ else _); [apply sequence_sends|].
  case_if; [apply write_sends|].
  destruct (if negb (IsAltPressed e) && IsCtrlPressed e then _ else _) as [t'|] eqn:Hc.
  - destruct (negb _ && _); [by eapply ctrl_sends|done].
  - destruct (_translateDefaultMapping _ _); [apply sequence_sends|]. case_if; [apply char_sends|reflexivity].
Qed.

Lemma press_sends e t : sends t (handle_press e t).1.
Proof.
  unfold handle_press, handle_back, _SendEscapedInputSequence. case_if.
  - case_if; cbn; auto with input.
  - case_match; [apply write_sends|apply mappings_sends].
Qed.

Lemma focus_sends b t : sends t (HandleFocus b t).1.
Proof. unfold HandleFocus. cbn. case_if; [apply sequence_sends|reflexivity]. Qed.

Lemma HandleKey_sends ev t : sends t (HandleKey ev t).1.
Proof.
  unfold HandleKey. destruct ev; try reflexivity.
  - case_if; [apply sequence_sends|]. case_if; [cbn; case_if; [apply last_key_sends|reflexivity]|].
    case_if; [reflexivity|]. etrans; [apply last_key_sends|apply press_sends].
  - case_if; [reflexivity|apply focus_sends].
Qed.

Lemma sends_ok t t' : sends t t' -> input_ok t -> input_ok t'.
Proof. intros [Hm Hs _ Hu _] [Ht He Hw Hso]. split; rewrite ?Hm, ?Hs; auto. Qed.

(** ** The mouse *)

(** An operation that changes only what the mouse remembers, with this much pending. *)
Lemma delta_ok t d : input_ok t -> Z.abs d < WHEEL_DELTA -> input_ok (set_accumulatedDelta d t).
Proof. intros [Ht He Hw Hs] Hd. by split. Qed.

Lemma set_last_ok t p b : input_ok t -> input_ok (set_last p b t).
Proof. intros [Ht He Hw Hs]. by split. Qed.

Lemma track_ok pos button mods delta state t : input_ok t -> input_ok (track_mouse pos button mods delta state t).1.
Proof.
  intros Hok. unfold track_mouse. case_if; [|done]. case_if; [|done]. cbn [fst].
  assert (Hs : forall b : bool, input_ok (if b then _SendInputSequence
      (mouse_sequence pos button (if _isHoverMsg button then s_GetPressedButton state else button) mods delta t) t else t))
    by (intros []; [|done]; eapply sends_ok; [apply sequence_sends|done]).
  case_if; [apply set_last_ok|]; apply Hs.
Qed.

Lemma scroll_ok delta t : input_ok t -> input_ok (_SendAlternateScroll delta t).
Proof. intros Hok. unfold _SendAlternateScroll. case_if; (eapply sends_ok; [apply sequence_sends|done]). Qed.

Lemma HandleMouse_ok pos button mods delta state t :
  input_ok t -> input_ok (HandleMouse pos button mods delta state t).1.
Proof.
  intros Hok. unfold HandleMouse. set (t0 := if negb _ then _ else t).
  assert (Hok0 : input_ok t0) by (subst t0; case_if; [apply delta_ok|]; done).
  assert (Hd : forall t1, input_ok t1 -> input_ok (if ShouldSendAlternateScroll button delta t1
      then (_SendAlternateScroll delta t1, true) else track_mouse pos button mods delta state t1).1)
    by (intros t1 H1; case_if; [by apply scroll_ok|by apply track_ok]).
  case_if; [|by apply Hd]. case_if; [|by apply Hd, delta_ok]. apply Z.ltb_lt in Heqb0. by apply delta_ok.
Qed.

(** ** Steps *)

Inductive input_op :=
| OpSetInputMode (mode : Mode) (enabled : bool)
| OpResetInputModes
| OpForceDisableWin32InputMode (b : bool)
| OpUseAlternateScreenBuffer
| OpUseMainScreenBuffer
| OpHandleKey (ev : IInputEvent)
| OpHandleFocus (focused : bool)
| OpHandleMouse (pos : point) (button mods delta : Z) (state : MouseButtonState).

Definition run_op (op : input_op) (t : TerminalInput) : TerminalInput :=
  match op with
  | OpSetInputMode mode enabled => SetInputMode mode enabled t
  | OpResetInputModes => ResetInputModes t
  | OpForceDisableWin32InputMode b => ForceDisableWin32InputMode b t
  | OpUseAlternateScreenBuffer => UseAlternateScreenBuffer t
  | OpUseMainScreenBuffer => UseMainScreenBuffer t
  | OpHandleKey ev => (HandleKey ev t).1
  | OpHandleFocus b => (HandleFocus b t).1
  | OpHandleMouse pos button mods delta state => (HandleMouse pos button mods delta state t).1
  end.

Inductive reachable : TerminalInput -> Prop :=
| reachable_new : reachable TerminalInput_new
| reachable_step op t : reachable t -> reachable (run_op op t).

Lemma run_op_ok op t : input_ok t -> input_ok (run_op op t).
Proof.
  intros Hok. destruct op; cbn [run_op].
  - by apply SetInputMode_ok.
  - destruct Hok as [Ht He Hw Hs]. destruct default_modes_ok. by split.
  - destruct Hok as [Ht He Hw Hs]. by split.
  - destruct Hok as [Ht He Hw Hs]. by split.
  - destruct Hok as [Ht He Hw Hs]. by split.
  - eapply sends_ok; [apply HandleKey_sends|done].
  - eapply sends_ok; [apply focus_sends|done].
  - by apply HandleMouse_ok.
Qed.

Lemma new_ok : input_ok TerminalInput_new.
Proof. by destruct default_modes_ok. Qed.

End Operations.

(** C27. In every state the operations of [TerminalInput] reach, at most one of the three
    tracking modes of the mouse is set and at most one of its encodings, less than one
    notch of wheel movement is pending, and a surrogate kept for the next key is a
    leading one. *)
Theorem terminal_input_invariant `{!Keyboard} (t : TerminalInput) : reachable t -> input_ok t.
Proof. induction 1; [apply new_ok|by apply run_op_ok]. Qed.

Lemma terminal_input_invariant_witness :
  let t := @run_op InteractRecorder.keyboard (OpSetInputMode AnyEventMouseTracking true)
             (@run_op InteractRecorder.keyboard (OpSetInputMode DefaultMouseTracking true) TerminalInput_new) in
  input_ok t /\ GetInputMode AnyEventMouseTracking t = true.
Proof.
  intros t. split; [|vm_compute; reflexivity].
  apply (@terminal_input_invariant InteractRecorder.keyboard). subst t. repeat apply reachable_step. apply reachable_new.
Defined.

(** ** Text *)

(** The characters written so far. *)
Definition typed (t : TerminalInput) : wstring := concat (map (map _charData) (_written t)).

(** No leading surrogate is followed by another one or is the last character. *)
Fixpoint paired (str : wstring) : bool :=
  match str with
  | [] => true
  | c :: str =>
      if is_leading_surrogate c then
        match str with
        | [] => false
        | d :: str => negb (is_leading_surrogate d) && paired str
        end
      else paired str
  end.

Definition send_text (str : wstring) (t : TerminalInput) : TerminalInput := foldl (fun t c => _SendChar c t) t str.

Lemma typed_sequence seq t : typed (_SendInputSequence seq t) = typed t ++ seq.
Proof.
  destruct seq as [|c seq]; [by rewrite app_nil_r|]. unfold typed, _SendInputSequence, write_events, set_written.
  cbn [_written]. rewrite map_app, concat_app. cbn [map concat]. rewrite app_nil_r, map_map. cbn. f_equal. f_equal.
  apply map_id.
Qed.

Lemma surrogate_of_sequence seq t : _leadingSurrogate (_SendInputSequence seq t) = _leadingSurrogate t.
Proof. by destruct seq. Qed.

Lemma send_text_aux n : forall str t, (length str <= n)%nat -> paired str = true -> _leadingSurrogate t = None ->
  typed (send_text str t) = typed t ++ str /\ _leadingSurrogate (send_text str t) = None.
Proof.
  induction n as [|n IH]; intros str t Hn Hp Ht.
  - destruct str; [|cbn in Hn; lia]. cbn. by rewrite app_nil_r.
  - destruct str as [|c str]; [cbn; by rewrite app_nil_r|]. cbn [paired length] in *.
    destruct (is_leading_surrogate c) eqn:Hc.
    + destruct str as [|d str]; [done|]. apply andb_true_iff in Hp as [Hd Hp]. apply negb_true_iff in Hd.
      change (send_text (c :: d :: str) t) with (send_text str (_SendChar d (_SendChar c t))).
      assert (E : _SendChar d (_SendChar c t) = _SendInputSequence [c; d] (set_leadingSurrogate None (_SendChar c t))).
      { unfold _SendChar at 1. rewrite Hd. unfold _SendChar at 1. by rewrite Hc, Ht. }
      rewrite E. destruct (IH str (_SendInputSequence [c; d] (set_leadingSurrogate None (_SendChar c t)))) as [E1 E2];
        [cbn in Hn; lia|done|by rewrite surrogate_of_sequence|].
      split; [|done]. rewrite E1, typed_sequence. unfold _SendChar. rewrite Hc, Ht. by rewrite <- app_assoc.
    + change (send_text (c :: str) t) with (send_text str (_SendChar c t)).
      assert (E : _SendChar c t = _SendInputSequence [c] t) by (unfold _SendChar; by rewrite Hc, Ht).
      rewrite E. destruct (IH str (_SendInputSequence [c] t)) as [E1 E2];
        [lia|done|by rewrite surrogate_of_sequence|].
      split; [|done]. by rewrite E1, typed_sequence, <- app_assoc.
Qed.

(** Text reaches the application as it was typed: the key events of a string in which
    every leading surrogate has its partner write exactly the characters of the string,
    surrogate pairs in one piece, and leave nothing pending. *)
Theorem text_sent_as_typed (str : wstring) (t : TerminalInput) :
  paired str = true -> _leadingSurrogate t = None ->
  typed (send_text str t) = typed t ++ str /\ _leadingSurrogate (send_text str t) = None.
Proof. apply (send_text_aux (length str)). done. Qed.

(** [a], U+1F600, [b]. *)
Lemma text_sent_as_typed_witness :
  typed (send_text [0x61; 0xD83D; 0xDE00; 0x62] TerminalInput_new) = [0x61; 0xD83D; 0xDE00; 0x62] /\
  _leadingSurrogate (send_text [0x61; 0xD83D; 0xDE00; 0x62] TerminalInput_new) = None.
Proof. apply (text_sent_as_typed _ TerminalInput_new); reflexivity. Defined.

(** A leading surrogate that is followed by another one is not sent as a character: the
    application reads the decimal digits of its code. *)
Theorem lone_surrogate_as_digits (c d : wchar) (t : TerminalInput) :
  is_leading_surrogate c = true -> is_leading_surrogate d = true -> _leadingSurrogate t = None ->
  typed (send_text [c; d] t) = typed t ++ format_unsigned c.
Proof.
  intros Hc Hd Ht. unfold send_text. cbn [foldl]. unfold _SendChar at 1. rewrite Hd. unfold _SendChar at 1 2.
  rewrite Hc, Ht. cbn [_leadingSurrogate set_leadingSurrogate].
  change (typed (set_leadingSurrogate (Some d) ?u)) with (typed u). by rewrite typed_sequence.
Qed.

Lemma lone_surrogate_as_digits_witness :
  typed (send_text [0xD800; 0xD801] TerminalInput_new) = L"55296".
Proof. apply (lone_surrogate_as_digits 0xD800 0xD801 TerminalInput_new); reflexivity. Defined.
