(* ===== verification/TermDispatch.v ===== *)
(** * The dispatch interface

    Models [src/src/terminal/adapter/ITermDispatch.hpp], the interface through
    which the output engine acts on the terminal, and the enumerations of
    [DispatchTypes.hpp] its methods take.

    A call of a method is a value of [TermCall], one constructor per method with
    its arguments; methods that return a string handler are in [HandlerCall].
    Enumerations are kept as their underlying [VTInt], because the parameters of
    a sequence are converted to them without a check. *)

From S2P Require Import Prelude Effects DispatchTypes StateMachine Utils LineRendition.

Local Open Scope Z_scope.

(** ** Enumerations *)

Inductive LineFeedType := WithReturn | WithoutReturn | DependsOnMode.

Module EraseType.
Definition ToEnd : VTInt := 0.
Definition FromBeginning : VTInt := 1.
Definition All : VTInt := 2.
Definition Scrollback : VTInt := 3.
End EraseType.

Definition ANSIStandardMode (p : VTInt) : VTInt := FlaggedEnumValue 0x00000000 p.
Definition DECPrivateMode (p : VTInt) : VTInt := FlaggedEnumValue 0x01000000 p.
Definition ANSIStandardStatus (p : VTInt) : VTInt := FlaggedEnumValue 0x00000000 p.
Definition DECPrivateStatus (p : VTInt) : VTInt := FlaggedEnumValue 0x01000000 p.

Definition DECANM_AnsiMode : VTInt := DECPrivateMode 2.

Definition DecSpecialGraphics : VTID := VTID_FromString (L"0").
Definition ASCII : VTID := VTID_FromString (L"B").

(** ** Calls *)

Inductive TermCall :=
| Print (wchPrintable : wchar)
| PrintString (string : wstring)
| CursorUp (distance : VTInt)
| CursorDown (distance : VTInt)
| CursorForward (distance : VTInt)
| CursorBackward (distance : VTInt)
| CursorNextLine (distance : VTInt)
| CursorPrevLine (distance : VTInt)
| CursorHorizontalPositionAbsolute (column : VTInt)
| VerticalLinePositionAbsolute (line : VTInt)
| HorizontalPositionRelative (distance : VTInt)
| VerticalPositionRelative (distance : VTInt)
| CursorPosition (line column : VTInt)
| CursorSaveState
| CursorRestoreState
| InsertCharacter (count : VTInt)
| DeleteCharacter (count : VTInt)
| ScrollUp (distance : VTInt)
| ScrollDown (distance : VTInt)
| InsertLine (distance : VTInt)
| DeleteLine (distance : VTInt)
| SetKeypadMode (applicationMode : bool)
| SetAnsiMode (ansiMode : bool)
| SetTopBottomScrollingMargins (topMargin bottomMargin : VTInt)
| WarningBell
| CarriageReturn
| LineFeed (lineFeedType : LineFeedType)
| ReverseLineFeed
| SetWindowTitle (title : wstring)
| HorizontalTabSet
| ForwardTab (numTabs : VTInt)
| BackwardsTab (numTabs : VTInt)
| TabClear (clearType : VTInt)
| SetColorTableEntry (tableIndex color : Z)
| SetDefaultForeground (color : Z)
| SetDefaultBackground (color : Z)
| AssignColor (item fgIndex bgIndex : VTInt)
| EraseInDisplay (eraseType : VTInt)
| EraseInLine (eraseType : VTInt)
| EraseCharacters (numChars : VTInt)
| SelectiveEraseInDisplay (eraseType : VTInt)
| SelectiveEraseInLine (eraseType : VTInt)
| ChangeAttributesRectangularArea (top left bottom right : VTInt) (attrs : VTParameters)
| ReverseAttributesRectangularArea (top left bottom right : VTInt) (attrs : VTParameters)
| CopyRectangularArea (top left bottom right page dstTop dstLeft dstPage : VTInt)
| FillRectangularArea (ch : VTParameter) (top left bottom right : VTInt)
| EraseRectangularArea (top left bottom right : VTInt)
| SelectiveEraseRectangularArea (top left bottom right : VTInt)
| SelectAttributeChangeExtent (changeExtent : VTInt)
| SetGraphicsRendition (options : VTParameters)
| SetLineRendition (rendition : LineRendition)
| SetCharacterProtectionAttribute (options : VTParameters)
| PushGraphicsRendition (options : VTParameters)
| PopGraphicsRendition
| SetMode (param : VTInt)
| ResetMode (param : VTInt)
| RequestMode (param : VTInt)
| DeviceStatusReport (statusType : VTInt) (id : VTParameter)
| DeviceAttributes
| SecondaryDeviceAttributes
| TertiaryDeviceAttributes
| Vt52DeviceAttributes
| RequestTerminalParameters (permission : VTInt)
| DesignateCodingSystem (codingSystem : VTID)
| Designate94Charset (gsetNumber : VTInt) (charset : VTID)
| Designate96Charset (gsetNumber : VTInt) (charset : VTID)
| LockingShift (gsetNumber : VTInt)
| LockingShiftRight (gsetNumber : VTInt)
| SingleShift (gsetNumber : VTInt)
| AcceptC1Controls (enabled : bool)
| SoftReset
| HardReset
| ScreenAlignmentPattern
| SetCursorStyle (cursorStyle : VTInt)
| SetCursorColor (color : Z)
| SetClipboard (content : wstring)
| WindowManipulation (function : VTInt) (parameter1 parameter2 : VTParameter)
| AddHyperlink (uri params : wstring)
| EndHyperlink
| DoConEmuAction (string : wstring)
| DoITerm2Action (string : wstring)
| DoFinalTermAction (string : wstring)
| InvokeMacro (macroId : VTInt)
| PlaySounds (parameters : VTParameters).

Inductive HandlerCall :=
| DownloadDRCS (fontNumber : VTInt) (startChar : VTParameter)
    (eraseControl cellMatrix fontSet fontUsage : VTInt) (cellHeight : VTParameter)
    (charsetSize : VTInt)
| DefineMacro (macroId deleteControl encoding : VTInt)
| RestoreTerminalState (format : VTInt)
| RequestSetting.
