(* ===== verification/OutputEngine.v ===== *)
(** * The output engine

    Models [src/src/terminal/parser/OutputStateMachineEngine.{hpp,cpp}]: the
    engine that turns the actions of the parser into calls of the dispatch
    interface.  It is an instance of [IStateMachineEngine], for any
    implementation of [ITermDispatch].

    Whether the engine is connected to another terminal
    ([_pTtyConnection] and [_pfnFlushToTerminal], which are set and cleared
    together and point to the renderer and to [FlushToTerminal] of the machine) is
    an index of its type: the connection is made when the console starts and does
    not change while it parses.  Telemetry is left out. *)

From S2P Require Import Prelude Effects DispatchTypes StateMachine TermDispatch LineRendition.
From S2P Require Import Utils ColorTable Base64.

Local Open Scope Z_scope.

(** ** State and interfaces *)

Record OutputStateMachineEngine (connected : bool) (D : Type) := mkEngine {
  _dispatch : D;
  _lastPrintedChar : wchar
}.
Arguments mkEngine {connected D}.
Arguments _dispatch {connected D}.
Arguments _lastPrintedChar {connected D}.

(** The constructor. *)
Definition OutputStateMachineEngine_new {D} (pDispatch : D) :
    OutputStateMachineEngine false D :=
  mkEngine pDispatch AsciiChars.NUL.

(** [SetTerminalConnection]. *)
Definition SetTerminalConnection {b D} (connected : bool) (e : OutputStateMachineEngine b D) :
    OutputStateMachineEngine connected D :=
  mkEngine (_dispatch e) (_lastPrintedChar e).

(** An implementation of [ITermDispatch], with state [D], string handlers [H] and
    completion callbacks [C].  Its methods may call the state machine, so they are
    computations over the whole machine.  [WriteTerminalW] is the method of the
    renderer that the connection uses, and tells whether it succeeded. *)
Class ITermDispatch (connected : bool) (D H C : Type) := {
  call : TermCall -> M (StateMachine (OutputStateMachineEngine connected D) H C) bool;
  handler_call : HandlerCall ->
    M (StateMachine (OutputStateMachineEngine connected D) H C) (option H);
  StringHandler_run : H -> wchar ->
    M (StateMachine (OutputStateMachineEngine connected D) H C) bool;
  Callback_run : C -> M (StateMachine (OutputStateMachineEngine connected D) H C) unit;
  WriteTerminalW : wstring ->
    M (StateMachine (OutputStateMachineEngine connected D) H C) bool
}.

(** The operating system's conversion from UTF-8. *)
Class Win32 := { MultiByteToWideChar : list Z -> wstring }.

(** ** Action codes *)

Module EscActionCodes.
Definition DECSC_CursorSave := VTID_FromString (L"7").
Definition DECRC_CursorRestore := VTID_FromString (L"8").
Definition DECKPAM_KeypadApplicationMode := VTID_FromString (L"=").
Definition DECKPNM_KeypadNumericMode := VTID_FromString (L">").
Definition IND_Index := VTID_FromString (L"D").
Definition NEL_NextLine := VTID_FromString (L"E").
Definition HTS_HorizontalTabSet := VTID_FromString (L"H").
Definition RI_ReverseLineFeed := VTID_FromString (L"M").
Definition SS2_SingleShift := VTID_FromString (L"N").
Definition SS3_SingleShift := VTID_FromString (L"O").
Definition DECID_IdentifyDevice := VTID_FromString (L"Z").
Definition ST_StringTerminator := VTID_FromString (L"\").
Definition RIS_ResetToInitialState := VTID_FromString (L"c").
Definition LS2_LockingShift := VTID_FromString (L"n").
Definition LS3_LockingShift := VTID_FromString (L"o").
Definition LS1R_LockingShift := VTID_FromString (L"~").
Definition LS2R_LockingShift := VTID_FromString (L"}").
Definition LS3R_LockingShift := VTID_FromString (L"|").
Definition DECAC1_AcceptC1Controls := VTID_FromString (L" 7").
Definition DECDHL_DoubleHeightLineTop := VTID_FromString (L"#3").
Definition DECDHL_DoubleHeightLineBottom := VTID_FromString (L"#4").
Definition DECSWL_SingleWidthLine := VTID_FromString (L"#5").
Definition DECDWL_DoubleWidthLine := VTID_FromString (L"#6").
Definition DECALN_ScreenAlignmentPattern := VTID_FromString (L"#8").
End EscActionCodes.

Module CsiActionCodes.
Definition ICH_InsertCharacter := VTID_FromString (L"@").
Definition CUU_CursorUp := VTID_FromString (L"A").
Definition CUD_CursorDown := VTID_FromString (L"B").
Definition CUF_CursorForward := VTID_FromString (L"C").
Definition CUB_CursorBackward := VTID_FromString (L"D").
Definition CNL_CursorNextLine := VTID_FromString (L"E").
Definition CPL_CursorPrevLine := VTID_FromString (L"F").
Definition CHA_CursorHorizontalAbsolute := VTID_FromString (L"G").
Definition CUP_CursorPosition := VTID_FromString (L"H").
Definition CHT_CursorForwardTab := VTID_FromString (L"I").
Definition ED_EraseDisplay := VTID_FromString (L"J").
Definition DECSED_SelectiveEraseDisplay := VTID_FromString (L"?J").
Definition EL_EraseLine := VTID_FromString (L"K").
Definition DECSEL_SelectiveEraseLine := VTID_FromString (L"?K").
Definition IL_InsertLine := VTID_FromString (L"L").
Definition DL_DeleteLine := VTID_FromString (L"M").
Definition DCH_DeleteCharacter := VTID_FromString (L"P").
Definition SU_ScrollUp := VTID_FromString (L"S").
Definition SD_ScrollDown := VTID_FromString (L"T").
Definition ECH_EraseCharacters := VTID_FromString (L"X").
Definition CBT_CursorBackTab := VTID_FromString (L"Z").
Definition HPA_HorizontalPositionAbsolute := VTID_FromString (L"`").
Definition HPR_HorizontalPositionRelative := VTID_FromString (L"a").
Definition REP_RepeatCharacter := VTID_FromString (L"b").
Definition DA_DeviceAttributes := VTID_FromString (L"c").
Definition DA2_SecondaryDeviceAttributes := VTID_FromString (L">c").
Definition DA3_TertiaryDeviceAttributes := VTID_FromString (L"=c").
Definition VPA_VerticalLinePositionAbsolute := VTID_FromString (L"d").
Definition VPR_VerticalPositionRelative := VTID_FromString (L"e").
Definition HVP_HorizontalVerticalPosition := VTID_FromString (L"f").
Definition TBC_TabClear := VTID_FromString (L"g").
Definition SM_SetMode := VTID_FromString (L"h").
Definition DECSET_PrivateModeSet := VTID_FromString (L"?h").
Definition RM_ResetMode := VTID_FromString (L"l").
Definition DECRST_PrivateModeReset := VTID_FromString (L"?l").
Definition SGR_SetGraphicsRendition := VTID_FromString (L"m").
Definition DSR_DeviceStatusReport := VTID_FromString (L"n").
Definition DSR_PrivateDeviceStatusReport := VTID_FromString (L"?n").
Definition DECSTBM_SetScrollingRegion := VTID_FromString (L"r").
Definition ANSISYSSC_CursorSave := VTID_FromString (L"s").
Definition DTTERM_WindowManipulation := VTID_FromString (L"t").
Definition ANSISYSRC_CursorRestore := VTID_FromString (L"u").
Definition DECREQTPARM_RequestTerminalParameters := VTID_FromString (L"x").
Definition DECSCUSR_SetCursorStyle := VTID_FromString (L" q").
Definition DECSTR_SoftReset := VTID_FromString (L"!p").
Definition DECSCA_SetCharacterProtectionAttribute := VTID_FromString [0x22; 0x71].
Definition XT_PushSgrAlias := VTID_FromString (L"#p").
Definition XT_PopSgrAlias := VTID_FromString (L"#q").
Definition XT_PushSgr := VTID_FromString (L"#{").
Definition XT_PopSgr := VTID_FromString (L"#}").
Definition DECRQM_RequestMode := VTID_FromString (L"$p").
Definition DECRQM_PrivateRequestMode := VTID_FromString (L"?$p").
Definition DECCARA_ChangeAttributesRectangularArea := VTID_FromString (L"$r").
Definition DECRARA_ReverseAttributesRectangularArea := VTID_FromString (L"$t").
Definition DECCRA_CopyRectangularArea := VTID_FromString (L"$v").
Definition DECFRA_FillRectangularArea := VTID_FromString (L"$x").
Definition DECERA_EraseRectangularArea := VTID_FromString (L"$z").
Definition DECSERA_SelectiveEraseRectangularArea := VTID_FromString (L"${").
Definition DECSCPP_SetColumnsPerPage := VTID_FromString (L"$|").
Definition DECSACE_SelectAttributeChangeExtent := VTID_FromString (L"*x").
Definition DECINVM_InvokeMacro := VTID_FromString (L"*z").
Definition DECAC_AssignColor := VTID_FromString (L",|").
Definition DECPS_PlaySound := VTID_FromString (L",~").
End CsiActionCodes.

Module DcsActionCodes.
Definition DECDLD_DownloadDRCS := VTID_FromString (L"{").
Definition DECDMAC_DefineMacro := VTID_FromString (L"!z").
Definition DECRSTS_RestoreTerminalState := VTID_FromString (L"$p").
Definition DECRQSS_RequestSetting := VTID_FromString (L"$q").
End DcsActionCodes.

Module Vt52ActionCodes.
Definition CursorUp := VTID_FromString (L"A").
Definition CursorDown := VTID_FromString (L"B").
Definition CursorRight := VTID_FromString (L"C").
Definition CursorLeft := VTID_FromString (L"D").
Definition EnterGraphicsMode := VTID_FromString (L"F").
Definition ExitGraphicsMode := VTID_FromString (L"G").
Definition CursorToHome := VTID_FromString (L"H").
Definition ReverseLineFeed := VTID_FromString (L"I").
Definition EraseToEndOfScreen := VTID_FromString (L"J").
Definition EraseToEndOfLine := VTID_FromString (L"K").
Definition DirectCursorAddress := VTID_FromString (L"Y").
Definition Identify := VTID_FromString (L"Z").
Definition EnterAlternateKeypadMode := VTID_FromString (L"=").
Definition ExitAlternateKeypadMode := VTID_FromString (L">").
Definition ExitVt52Mode := VTID_FromString (L"<").
End Vt52ActionCodes.

Module OscActionCodes.
Definition SetIconAndWindowTitle : Z := 0.
Definition SetWindowIcon : Z := 1.
Definition SetWindowTitle : Z := 2.
Definition SetColor : Z := 4.
Definition Hyperlink : Z := 8.
Definition ConEmuAction : Z := 9.
Definition SetForegroundColor : Z := 10.
Definition SetBackgroundColor : Z := 11.
Definition SetCursorColor : Z := 12.
Definition SetClipboard : Z := 52.
Definition ResetCursorColor : Z := 112.
Definition FinalTermAction : Z := 133.
Definition ITerm2Action : Z := 1337.
End OscActionCodes.

(** ** Parsing of OSC strings *)

Definition _GetOscTitle (string : wstring) : wstring * bool :=
  (string, negb (bool_decide (string = []))).

(** The loop over pairs of parts of [_GetOscSetColorTable]. *)
Fixpoint color_table_pairs (parts : list wstring) : list (Z * Z) :=
  match parts with
  | index :: spec :: parts =>
      match StringToUint index, ColorFromXTermColor spec with
      | Some tableIndex, Some color => (tableIndex, to_COLORREF color) :: color_table_pairs parts
      | _, _ => color_table_pairs parts
      end
  | _ => []
  end.

(** The indexes and the colours, and whether there are any. *)
Definition _GetOscSetColorTable (string : wstring) : list (Z * Z) * bool :=
  let parts := SplitString string 0x3B in
  if (length parts <? 2)%nat then ([], false)
  else
    let pairs := color_table_pairs parts in
    (pairs, (0 <? length pairs)%nat).

Definition _GetOscSetColor (string : wstring) : list Z * bool :=
  let parts := SplitString string 0x3B in
  if (length parts <? 1)%nat then ([], false)
  else
    let rgbs := map (fun part => match ColorFromXTermColor part with
                                 | Some color => to_COLORREF color
                                 | None => INVALID_COLOR
                                 end) parts in
    (rgbs, (0 <? length rgbs)%nat).

Definition MAX_URL_LENGTH : Z := 2 * 1048576.

Definition hyperlinkIDParameter : wstring := L"id=".

(** The first [n] characters of a string. *)
Fixpoint takeZ (n : Z) (s : wstring) : wstring :=
  match s with
  | [] => []
  | c :: s => if n <=? 0 then [] else c :: takeZ (n - 1) s
  end.

(** [find] of a string; [None] is [npos]. *)
Fixpoint find_string (pattern s : wstring) : option nat :=
  if bool_decide (take (length pattern) s = pattern) then Some 0%nat
  else match s with
       | [] => None
       | _ :: s => S <$> find_string pattern s
       end.

(** The parameters, the URI and whether the string is a hyperlink. *)
Definition _ParseHyperlink (string : wstring) : wstring * wstring * bool :=
  if bool_decide (string = L";") then ([], [], true)
  else
    match find_char 0x3B string with
    | None => ([], [], false)
    | Some midPos =>
        let uri := takeZ MAX_URL_LENGTH (drop (midPos + 1) string) in
        let paramParts := SplitString (take midPos string) 0x3A in
        let params :=
          foldl (fun params part =>
                   match find_string hyperlinkIDParameter part with
                   | Some idPos => drop (idPos + length hyperlinkIDParameter) part
                   | None => params
                   end) [] paramParts in
        (params, uri, true)
    end.

(** ** The engine *)

Section Engine.
Context {connected : bool} {D H C : Type}.
Context `{!ITermDispatch connected D H C} `{!Win32}.

#[local] Abbreviation Engine := (OutputStateMachineEngine connected D).
#[local] Abbreviation SM := (StateMachine Engine H C).
#[local] Abbreviation M := (M SM).

Definition set_lastPrintedChar (c : wchar) (s : SM) : SM :=
  set_engine (mkEngine (_dispatch (_engine s)) c) s.

Definition _ClearLastChar : M unit := modify (set_lastPrintedChar AsciiChars.NUL).

(** The content, whether it is a query, and whether the string was understood. *)
Definition _GetOscSetClipboard (string : wstring) : wstring * bool * bool :=
  match find_char 0x3B string with
  | None => ([], false, false)
  | Some pos =>
      let substr := drop (pos + 1) string in
      if bool_decide (substr = L"?") then ([], true, true)
      else let '(success, content) := Decode MultiByteToWideChar substr [] in
           (content, false, success)
  end.

Definition OutputEngine_ActionPassThroughString (string : wstring) : M bool :=
  if connected then WriteTerminalW string else ret true.

(** [_pfnFlushToTerminal()]. *)
Definition pfnFlushToTerminal : M bool :=
  FlushToTerminal_with OutputEngine_ActionPassThroughString.

(** The end of the dispatch methods: an unknown sequence goes to the terminal. *)
Definition flush_if_unknown (success : bool) : M bool :=
  if connected && negb success then pfnFlushToTerminal else ret success.

Definition OutputEngine_ActionExecute (wch : wchar) : M bool :=
  (if wch =? AsciiChars.NUL then ret tt
   else if wch =? AsciiChars.BEL then
     _ <- call WarningBell ;;
     if connected then _ <- pfnFlushToTerminal ;; ret tt else ret tt
   else if wch =? AsciiChars.BS then _ <- call (CursorBackward 1) ;; ret tt
   else if wch =? AsciiChars.TAB then _ <- call (ForwardTab 1) ;; ret tt
   else if wch =? AsciiChars.CR then _ <- call CarriageReturn ;; ret tt
   else if (wch =? AsciiChars.LF) || (wch =? AsciiChars.FF) || (wch =? AsciiChars.VT) then
     _ <- call (LineFeed DependsOnMode) ;; ret tt
   else if wch =? AsciiChars.SI then _ <- call (LockingShift 0) ;; ret tt
   else if wch =? AsciiChars.SO then _ <- call (LockingShift 1) ;; ret tt
   else _ <- call (Print wch) ;; ret tt) ;;
  _ClearLastChar ;;
  ret true.

Definition OutputEngine_ActionExecuteFromEscape (wch : wchar) : M bool :=
  OutputEngine_ActionExecute wch.

Definition stash_last (wch : wchar) : M unit :=
  if AsciiChars.SPC <=? wch then modify (set_lastPrintedChar wch) else ret tt.

Definition OutputEngine_ActionPrint (wch : wchar) : M bool :=
  stash_last wch ;;
  _ <- call (Print wch) ;;
  ret true.

Definition OutputEngine_ActionPrintString (string : wstring) : M bool :=
  match list.last string with
  | None => ret true
  | Some wch =>
      stash_last wch ;;
      _ <- call (PrintString string) ;;
      ret true
  end.

(** The [default] case of [ActionEscDispatch]: the designation of a character set
    or a coding system. *)
Definition esc_designate (id : VTID) : M bool :=
  let commandChar := VTID_at id 0 in
  let commandParameter := VTID_SubSequence id 1 in
  if commandChar =? 0x25 then call (DesignateCodingSystem commandParameter)
  else if commandChar =? 0x28 then call (Designate94Charset 0 commandParameter)
  else if commandChar =? 0x29 then call (Designate94Charset 1 commandParameter)
  else if commandChar =? 0x2A then call (Designate94Charset 2 commandParameter)
  else if commandChar =? 0x2B then call (Designate94Charset 3 commandParameter)
  else if commandChar =? 0x2D then call (Designate96Charset 1 commandParameter)
  else if commandChar =? 0x2E then call (Designate96Charset 2 commandParameter)
  else if commandChar =? 0x2F then call (Designate96Charset 3 commandParameter)
  else ret false.

Definition esc_switch (id : VTID) : M bool :=
  if id =? EscActionCodes.ST_StringTerminator then ret true
  else if id =? EscActionCodes.DECSC_CursorSave then call CursorSaveState
  else if id =? EscActionCodes.DECRC_CursorRestore then call CursorRestoreState
  else if id =? EscActionCodes.DECKPAM_KeypadApplicationMode then call (SetKeypadMode true)
  else if id =? EscActionCodes.DECKPNM_KeypadNumericMode then call (SetKeypadMode false)
  else if id =? EscActionCodes.NEL_NextLine then call (LineFeed WithReturn)
  else if id =? EscActionCodes.IND_Index then call (LineFeed WithoutReturn)
  else if id =? EscActionCodes.RI_ReverseLineFeed then call ReverseLineFeed
  else if id =? EscActionCodes.HTS_HorizontalTabSet then call HorizontalTabSet
  else if id =? EscActionCodes.DECID_IdentifyDevice then call DeviceAttributes
  else if id =? EscActionCodes.RIS_ResetToInitialState then call HardReset
  else if id =? EscActionCodes.SS2_SingleShift then call (SingleShift 2)
  else if id =? EscActionCodes.SS3_SingleShift then call (SingleShift 3)
  else if id =? EscActionCodes.LS2_LockingShift then call (LockingShift 2)
  else if id =? EscActionCodes.LS3_LockingShift then call (LockingShift 3)
  else if id =? EscActionCodes.LS1R_LockingShift then call (LockingShiftRight 1)
  else if id =? EscActionCodes.LS2R_LockingShift then call (LockingShiftRight 2)
  else if id =? EscActionCodes.LS3R_LockingShift then call (LockingShiftRight 3)
  else if id =? EscActionCodes.DECAC1_AcceptC1Controls then call (AcceptC1Controls true)
  else if id =? EscActionCodes.DECDHL_DoubleHeightLineTop then
    call (SetLineRendition DoubleHeightTop)
  else if id =? EscActionCodes.DECDHL_DoubleHeightLineBottom then
    call (SetLineRendition DoubleHeightBottom)
  else if id =? EscActionCodes.DECSWL_SingleWidthLine then call (SetLineRendition SingleWidth)
  else if id =? EscActionCodes.DECDWL_DoubleWidthLine then call (SetLineRendition DoubleWidth)
  else if id =? EscActionCodes.DECALN_ScreenAlignmentPattern then call ScreenAlignmentPattern
  else esc_designate id.

Definition OutputEngine_ActionEscDispatch (id : VTID) : M bool :=
  success <- esc_switch id ;;
  success <- flush_if_unknown success ;;
  _ClearLastChar ;;
  ret success.

Definition vt52_switch (id : VTID) (parameters : VTParameters) : M bool :=
  if id =? Vt52ActionCodes.CursorUp then call (CursorUp 1)
  else if id =? Vt52ActionCodes.CursorDown then call (CursorDown 1)
  else if id =? Vt52ActionCodes.CursorRight then call (CursorForward 1)
  else if id =? Vt52ActionCodes.CursorLeft then call (CursorBackward 1)
  else if id =? Vt52ActionCodes.EnterGraphicsMode then
    call (Designate94Charset 0 DecSpecialGraphics)
  else if id =? Vt52ActionCodes.ExitGraphicsMode then call (Designate94Charset 0 ASCII)
  else if id =? Vt52ActionCodes.CursorToHome then call (CursorPosition 1 1)
  else if id =? Vt52ActionCodes.ReverseLineFeed then call ReverseLineFeed
  else if id =? Vt52ActionCodes.EraseToEndOfScreen then call (EraseInDisplay EraseType.ToEnd)
  else if id =? Vt52ActionCodes.EraseToEndOfLine then call (EraseInLine EraseType.ToEnd)
  else if id =? Vt52ActionCodes.DirectCursorAddress then
    call (CursorPosition (params_at parameters 0 - 0x20 + 1) (params_at parameters 1 - 0x20 + 1))
  else if id =? Vt52ActionCodes.Identify then call Vt52DeviceAttributes
  else if id =? Vt52ActionCodes.EnterAlternateKeypadMode then call (SetKeypadMode true)
  else if id =? Vt52ActionCodes.ExitAlternateKeypadMode then call (SetKeypadMode false)
  else if id =? Vt52ActionCodes.ExitVt52Mode then call (SetMode DECANM_AnsiMode)
  else ret false.

Definition OutputEngine_ActionVt52EscDispatch (id : VTID) (parameters : VTParameters) : M bool :=
  success <- vt52_switch id parameters ;;
  _ClearLastChar ;;
  ret success.

(** The cases of [ActionCsiDispatch], in the order of the source; [None] is a
    sequence of a later part.  A parameter is passed as a number ([int]: 0 and an
    omitted value mean 1), as an enumeration ([enum]: an omitted value means 0),
    or with a default of its own ([value_or]). *)
Definition int (parameters : VTParameters) (i : nat) : VTInt := param_int (params_at parameters i).
Definition enum (parameters : VTParameters) (i : nat) : VTInt := param_enum (params_at parameters i).
Definition or0 (parameters : VTParameters) (i : nat) : VTInt := value_or (params_at parameters i) 0.

Definition csi_cursor (id : VTID) (ps : VTParameters) : option (M bool) :=
  if id =? CsiActionCodes.CUU_CursorUp then Some (call (CursorUp (int ps 0)))
  else if id =? CsiActionCodes.CUD_CursorDown then Some (call (CursorDown (int ps 0)))
  else if id =? CsiActionCodes.CUF_CursorForward then Some (call (CursorForward (int ps 0)))
  else if id =? CsiActionCodes.CUB_CursorBackward then Some (call (CursorBackward (int ps 0)))
  else if id =? CsiActionCodes.CNL_CursorNextLine then Some (call (CursorNextLine (int ps 0)))
  else if id =? CsiActionCodes.CPL_CursorPrevLine then Some (call (CursorPrevLine (int ps 0)))
  else if (id =? CsiActionCodes.CHA_CursorHorizontalAbsolute)
          || (id =? CsiActionCodes.HPA_HorizontalPositionAbsolute)
  then Some (call (CursorHorizontalPositionAbsolute (int ps 0)))
  else if id =? CsiActionCodes.VPA_VerticalLinePositionAbsolute
  then Some (call (VerticalLinePositionAbsolute (int ps 0)))
  else if id =? CsiActionCodes.HPR_HorizontalPositionRelative
  then Some (call (HorizontalPositionRelative (int ps 0)))
  else if id =? CsiActionCodes.VPR_VerticalPositionRelative
  then Some (call (VerticalPositionRelative (int ps 0)))
  else if (id =? CsiActionCodes.CUP_CursorPosition)
          || (id =? CsiActionCodes.HVP_HorizontalVerticalPosition)
  then Some (call (CursorPosition (int ps 0) (int ps 1)))
  else if id =? CsiActionCodes.DECSTBM_SetScrollingRegion
  then Some (call (SetTopBottomScrollingMargins (or0 ps 0) (or0 ps 1)))
  else if id =? CsiActionCodes.ICH_InsertCharacter then Some (call (InsertCharacter (int ps 0)))
  else if id =? CsiActionCodes.DCH_DeleteCharacter then Some (call (DeleteCharacter (int ps 0)))
  else if id =? CsiActionCodes.ED_EraseDisplay
  then Some (params_for_each (fun eraseType => call (EraseInDisplay (param_enum eraseType))) ps)
  else if id =? CsiActionCodes.DECSED_SelectiveEraseDisplay
  then Some (params_for_each
               (fun eraseType => call (SelectiveEraseInDisplay (param_enum eraseType))) ps)
  else if id =? CsiActionCodes.EL_EraseLine
  then Some (params_for_each (fun eraseType => call (EraseInLine (param_enum eraseType))) ps)
  else if id =? CsiActionCodes.DECSEL_SelectiveEraseLine
  then Some (params_for_each
               (fun eraseType => call (SelectiveEraseInLine (param_enum eraseType))) ps)
  else if id =? CsiActionCodes.SM_SetMode
  then Some (params_for_each (fun mode => call (SetMode (ANSIStandardMode (param_int mode)))) ps)
  else if id =? CsiActionCodes.DECSET_PrivateModeSet
  then Some (params_for_each (fun mode => call (SetMode (DECPrivateMode (param_int mode)))) ps)
  else if id =? CsiActionCodes.RM_ResetMode
  then Some (params_for_each (fun mode => call (ResetMode (ANSIStandardMode (param_int mode)))) ps)
  else if id =? CsiActionCodes.DECRST_PrivateModeReset
  then Some (params_for_each (fun mode => call (ResetMode (DECPrivateMode (param_int mode)))) ps)
  else None.

(** The effect of [a && f()]. *)
Definition andM (a : bool) (m : M bool) : M bool := if a then m else ret false.

Definition csi_report (id : VTID) (ps : VTParameters) : option (M bool) :=
  if id =? CsiActionCodes.SGR_SetGraphicsRendition then Some (call (SetGraphicsRendition ps))
  else if id =? CsiActionCodes.DSR_DeviceStatusReport
  then Some (call (DeviceStatusReport (ANSIStandardStatus (int ps 0)) (params_at ps 1)))
  else if id =? CsiActionCodes.DSR_PrivateDeviceStatusReport
  then Some (call (DeviceStatusReport (DECPrivateStatus (int ps 0)) (params_at ps 1)))
  else if id =? CsiActionCodes.DA_DeviceAttributes
  then Some (andM (or0 ps 0 =? 0) (call DeviceAttributes))
  else if id =? CsiActionCodes.DA2_SecondaryDeviceAttributes
  then Some (andM (or0 ps 0 =? 0) (call SecondaryDeviceAttributes))
  else if id =? CsiActionCodes.DA3_TertiaryDeviceAttributes
  then Some (andM (or0 ps 0 =? 0) (call TertiaryDeviceAttributes))
  else if id =? CsiActionCodes.DECREQTPARM_RequestTerminalParameters
  then Some (call (RequestTerminalParameters (enum ps 0)))
  else if id =? CsiActionCodes.SU_ScrollUp then Some (call (ScrollUp (int ps 0)))
  else if id =? CsiActionCodes.SD_ScrollDown then Some (call (ScrollDown (int ps 0)))
  else if id =? CsiActionCodes.ANSISYSSC_CursorSave
  then Some (andM (bool_decide (ps = [])) (call CursorSaveState))
  else if id =? CsiActionCodes.ANSISYSRC_CursorRestore
  then Some (andM (bool_decide (ps = [])) (call CursorRestoreState))
  else if id =? CsiActionCodes.IL_InsertLine then Some (call (InsertLine (int ps 0)))
  else if id =? CsiActionCodes.DL_DeleteLine then Some (call (DeleteLine (int ps 0)))
  else if id =? CsiActionCodes.CHT_CursorForwardTab then Some (call (ForwardTab (int ps 0)))
  else if id =? CsiActionCodes.CBT_CursorBackTab then Some (call (BackwardsTab (int ps 0)))
  else if id =? CsiActionCodes.TBC_TabClear
  then Some (params_for_each (fun clearType => call (TabClear (param_enum clearType))) ps)
  else if id =? CsiActionCodes.ECH_EraseCharacters then Some (call (EraseCharacters (int ps 0)))
  else if id =? CsiActionCodes.DTTERM_WindowManipulation
  then Some (call (WindowManipulation (enum ps 0) (params_at ps 1) (params_at ps 2)))
  else None.

(** [REP]: prints the last graphical character again, if there is one. *)
Definition repeat_last (ps : VTParameters) : M bool :=
  lastPrintedChar <- get (fun s => _lastPrintedChar (_engine s)) ;;
  (if negb (lastPrintedChar =? AsciiChars.NUL) then
     let repeatCount := int ps 0 in
     _ <- call (PrintString (repeat lastPrintedChar (Z.to_nat repeatCount))) ;;
     ret tt
   else ret tt) ;;
  ret true.

(** A call with the parameters from the fifth on, which need not be there. *)
Definition with_subspan (ps : VTParameters) (offset : nat) (k : VTParameters -> M bool) : M bool :=
  match params_subspan ps offset with
  | Some rest => k rest
  | None => undefined
  end.

Definition csi_page (id : VTID) (ps : VTParameters) : option (M bool) :=
  if id =? CsiActionCodes.REP_RepeatCharacter then Some (repeat_last ps)
  else if id =? CsiActionCodes.DECSCUSR_SetCursorStyle then Some (call (SetCursorStyle (enum ps 0)))
  else if id =? CsiActionCodes.DECSTR_SoftReset then Some (call SoftReset)
  else if id =? CsiActionCodes.DECSCA_SetCharacterProtectionAttribute
  then Some (call (SetCharacterProtectionAttribute ps))
  else if (id =? CsiActionCodes.XT_PushSgr) || (id =? CsiActionCodes.XT_PushSgrAlias)
  then Some (call (PushGraphicsRendition ps))
  else if (id =? CsiActionCodes.XT_PopSgr) || (id =? CsiActionCodes.XT_PopSgrAlias)
  then Some (call PopGraphicsRendition)
  else if id =? CsiActionCodes.DECRQM_RequestMode
  then Some (call (RequestMode (ANSIStandardMode (int ps 0))))
  else if id =? CsiActionCodes.DECRQM_PrivateRequestMode
  then Some (call (RequestMode (DECPrivateMode (int ps 0))))
  else if id =? CsiActionCodes.DECCARA_ChangeAttributesRectangularArea
  then Some (with_subspan ps 4 (fun attrs =>
               call (ChangeAttributesRectangularArea (int ps 0) (int ps 1) (or0 ps 2) (or0 ps 3) attrs)))
  else if id =? CsiActionCodes.DECRARA_ReverseAttributesRectangularArea
  then Some (with_subspan ps 4 (fun attrs =>
               call (ReverseAttributesRectangularArea (int ps 0) (int ps 1) (or0 ps 2) (or0 ps 3) attrs)))
  else if id =? CsiActionCodes.DECCRA_CopyRectangularArea
  then Some (call (CopyRectangularArea (int ps 0) (int ps 1) (or0 ps 2) (or0 ps 3)
                     (int ps 4) (int ps 5) (int ps 6) (int ps 7)))
  else if id =? CsiActionCodes.DECFRA_FillRectangularArea
  then Some (call (FillRectangularArea (params_at ps 0) (int ps 1) (int ps 2) (or0 ps 3) (or0 ps 4)))
  else if id =? CsiActionCodes.DECERA_EraseRectangularArea
  then Some (call (EraseRectangularArea (int ps 0) (int ps 1) (or0 ps 2) (or0 ps 3)))
  else if id =? CsiActionCodes.DECSERA_SelectiveEraseRectangularArea
  then Some (call (SelectiveEraseRectangularArea (int ps 0) (int ps 1) (or0 ps 2) (or0 ps 3)))
  else if id =? CsiActionCodes.DECSACE_SelectAttributeChangeExtent
  then Some (call (SelectAttributeChangeExtent (enum ps 0)))
  else if id =? CsiActionCodes.DECINVM_InvokeMacro then Some (call (InvokeMacro (or0 ps 0)))
  else if id =? CsiActionCodes.DECAC_AssignColor
  then Some (call (AssignColor (enum ps 0) (or0 ps 1) (or0 ps 2)))
  else if id =? CsiActionCodes.DECPS_PlaySound then Some (call (PlaySounds ps))
  else None.

Definition csi_switch (id : VTID) (ps : VTParameters) : M bool :=
  match csi_cursor id ps with
  | Some m => m
  | None =>
      match csi_report id ps with
      | Some m => m
      | None => match csi_page id ps with
                | Some m => m
                | None => ret false
                end
      end
  end.

Definition OutputEngine_ActionCsiDispatch (id : VTID) (parameters : VTParameters) : M bool :=
  success <- csi_switch id parameters ;;
  success <- flush_if_unknown success ;;
  _ClearLastChar ;;
  ret success.

Definition OutputEngine_ActionDcsDispatch (id : VTID) (ps : VTParameters) : M (option H) :=
  handler <-
    (if id =? DcsActionCodes.DECDLD_DownloadDRCS then
       handler_call (DownloadDRCS (int ps 0) (params_at ps 1) (enum ps 2) (enum ps 3) (enum ps 4)
                       (enum ps 5) (params_at ps 6) (enum ps 7))
     else if id =? DcsActionCodes.DECDMAC_DefineMacro then
       handler_call (DefineMacro (or0 ps 0) (enum ps 1) (enum ps 2))
     else if id =? DcsActionCodes.DECRSTS_RestoreTerminalState then
       handler_call (RestoreTerminalState (enum ps 0))
     else if id =? DcsActionCodes.DECRQSS_RequestSetting then handler_call RequestSetting
     else ret None) ;;
  _ClearLastChar ;;
  ret handler.

(** The loop over the colour table entries; a failure stops the calls. *)
Fixpoint set_color_entries (pairs : list (Z * Z)) (success : bool) : M bool :=
  match pairs with
  | [] => ret success
  | (tableIndex, rgb) :: pairs =>
      success <- andM success (call (SetColorTableEntry tableIndex rgb)) ;;
      set_color_entries pairs success
  end.

(** One of the three blocks that set a default colour. *)
Definition set_osc_color (code : Z) (set : Z -> TermCall) (colors : list Z)
    (st : Z * nat * bool) : M (Z * nat * bool) :=
  let '(commandIndex, colorIndex, success) := st in
  if commandIndex =? code then
    match colors !! colorIndex with
    | Some color =>
        success <- (if negb (color =? INVALID_COLOR) then andM success (call (set color))
                    else ret success) ;;
        ret (commandIndex + 1, S colorIndex, success)
    | None => ret st
    end
  else ret st.

Definition osc_set_colors (parameter : Z) (string : wstring) : M bool :=
  let '(colors, success) := _GetOscSetColor string in
  if success : bool then
    st <- set_osc_color OscActionCodes.SetForegroundColor SetDefaultForeground colors
            (parameter, 0%nat, success) ;;
    st <- set_osc_color OscActionCodes.SetBackgroundColor SetDefaultBackground colors st ;;
    st <- set_osc_color OscActionCodes.SetCursorColor SetCursorColor colors st ;;
    ret st.2
  else ret success.

Definition osc_switch (parameter : Z) (string : wstring) : M bool :=
  if (parameter =? OscActionCodes.SetIconAndWindowTitle)
     || (parameter =? OscActionCodes.SetWindowIcon)
     || (parameter =? OscActionCodes.SetWindowTitle) then
    let '(title, success) := _GetOscTitle string in
    andM success (call (SetWindowTitle title))
  else if parameter =? OscActionCodes.SetColor then
    let '(pairs, success) := _GetOscSetColorTable string in
    set_color_entries pairs success
  else if (parameter =? OscActionCodes.SetForegroundColor)
          || (parameter =? OscActionCodes.SetBackgroundColor)
          || (parameter =? OscActionCodes.SetCursorColor) then
    osc_set_colors parameter string
  else if parameter =? OscActionCodes.SetClipboard then
    let '(content, queryClipboard, success) := _GetOscSetClipboard string in
    if success && negb queryClipboard then call (SetClipboard content) else ret success
  else if parameter =? OscActionCodes.ResetCursorColor then call (SetCursorColor INVALID_COLOR)
  else if parameter =? OscActionCodes.Hyperlink then
    let '(params, uri, success) := _ParseHyperlink string in
    andM success (call (if bool_decide (uri = []) then EndHyperlink else AddHyperlink uri params))
  else if parameter =? OscActionCodes.ConEmuAction then call (DoConEmuAction string)
  else if parameter =? OscActionCodes.ITerm2Action then call (DoITerm2Action string)
  else if parameter =? OscActionCodes.FinalTermAction then call (DoFinalTermAction string)
  else ret false.

Definition OutputEngine_ActionOscDispatch (wch : wchar) (parameter : Z) (string : wstring) :
    M bool :=
  success <- osc_switch parameter string ;;
  success <- flush_if_unknown success ;;
  _ClearLastChar ;;
  ret success.

Definition OutputEngine_ActionSs3Dispatch (wch : wchar) (parameters : VTParameters) : M bool :=
  _ClearLastChar ;;
  ret false.

#[export] Instance OutputEngine : IStateMachineEngine Engine H C := {
  ActionExecute := OutputEngine_ActionExecute;
  ActionExecuteFromEscape := OutputEngine_ActionExecuteFromEscape;
  ActionPrint := OutputEngine_ActionPrint;
  ActionPrintString := OutputEngine_ActionPrintString;
  ActionPassThroughString := OutputEngine_ActionPassThroughString;
  ActionEscDispatch := OutputEngine_ActionEscDispatch;
  ActionVt52EscDispatch := OutputEngine_ActionVt52EscDispatch;
  ActionCsiDispatch := OutputEngine_ActionCsiDispatch;
  ActionDcsDispatch := OutputEngine_ActionDcsDispatch;
  ActionClear := ret true;
  ActionIgnore := ret true;
  ActionOscDispatch := OutputEngine_ActionOscDispatch;
  ActionSs3Dispatch := OutputEngine_ActionSs3Dispatch;
  StringHandler_call := StringHandler_run;
  Callback_call := Callback_run
}.

End Engine.
