(* ===== verification/OutputEngineLaws.v ===== *)
(** * The output engine honours the contract of the parser

    What the output engine expects of an implementation of [ITermDispatch], and
    the proof that with such an implementation it is an engine the theorems about
    the state machine apply to. *)

From S2P Require Import Prelude Effects DispatchTypes StateMachine TermDispatch LineRendition.
From S2P Require Import Utils ColorTable Base64 OutputEngine StateMachineLaws.

Local Open Scope Z_scope.

(** ** Contracts *)

(** A dispatcher reaches the state machine through its public methods only. *)
Class FramedDispatch (connected : bool) (D H C : Type) `{!ITermDispatch connected D H C} : Prop := {
  call_frame x : keeps frame (call x);
  handler_call_frame x : keeps frame (handler_call x);
  StringHandler_run_frame h c : keeps frame (StringHandler_run h c);
  WriteTerminalW_frame str : keeps frame (WriteTerminalW str)
}.

#[export] Hint Resolve call_frame handler_call_frame StringHandler_run_frame
  WriteTerminalW_frame : vt.
#[export] Hint Extern 1 (PreOrder _) => exact _ : vt.

(** A dispatcher does not see the string being parsed nor the engine's private
    member, and prints a string as it prints its characters.  The recorder of
    [TermRecorder.v] is of this kind.  The adapter is not: it prints the string of a run
    as a whole, and consults its state between the lines of the run. *)
Class TransparentDispatch (D H C : Type) `{!ITermDispatch false D H C} : Prop := {
  call_sim x : sim same_parse (call x) (call x);
  handler_call_sim x : sim same_parse (handler_call x) (handler_call x);
  StringHandler_run_sim h c : sim same_parse (StringHandler_run h c) (StringHandler_run h c);
  Callback_run_sim cb : sim same_parse (Callback_run cb) (Callback_run cb);
  call_private x c (s : StateMachine (OutputStateMachineEngine false D) H C) :
    call x (set_lastPrintedChar c s) =
    (set_lastPrintedChar c (call x s).1, (call x s).2);
  print_succeeds c (s : StateMachine (OutputStateMachineEngine false D) H C) :
    exists s' b, call (Print c) s = (s', Ok b);
  print_string_one c (s : StateMachine (OutputStateMachineEngine false D) H C) :
    call (PrintString [c]) s = call (Print c) s;
  print_string_cons c d str (s : StateMachine (OutputStateMachineEngine false D) H C) :
    call (PrintString (c :: d :: str)) s =
    (call (Print c) ;; call (PrintString (d :: str))) s
}.

(** ** Frame *)

Section Frame.
Context {connected : bool} {D H C : Type}.
Context `{!ITermDispatch connected D H C} `{!Win32} `{!FramedDispatch connected D H C}.

#[local] Abbreviation SM := (StateMachine (OutputStateMachineEngine connected D) H C).

Lemma set_lastPrintedChar_frame c (s : SM) : frame s (set_lastPrintedChar c s).
Proof. by split. Qed.

Lemma ClearLastChar_frame : keeps frame (_ClearLastChar : M SM unit).
Proof. apply keeps_modify. intros s. apply set_lastPrintedChar_frame. Qed.

Lemma stash_last_frame c : keeps frame (stash_last c : M SM unit).
Proof.
  unfold stash_last. case_if; [|auto with vt].
  apply keeps_modify. intros s. apply set_lastPrintedChar_frame.
Qed.

Lemma pass_through_frame str : keeps frame (OutputEngine_ActionPassThroughString str : M SM bool).
Proof. unfold OutputEngine_ActionPassThroughString. case_if; auto with vt. Qed.

#[local] Hint Resolve ClearLastChar_frame stash_last_frame pass_through_frame
  keeps_SafeExecute keeps_CurrentRun : vt.

Lemma flush_frame : keeps frame (pfnFlushToTerminal : M SM bool).
Proof.
  unfold pfnFlushToTerminal, FlushToTerminal_with.
  apply keeps_bind; [exact _|auto with vt|intros cached]. apply keeps_bind; [exact _| |intros success].
  - destruct cached; [|auto with vt]. apply keeps_bind; [exact _|auto with vt|intros ?].
    apply keeps_bind; [exact _|apply keeps_modify; intros s; by split|auto with vt].
  - case_if; auto with vt. apply keeps_SafeExecute. apply keeps_bind; [exact _| |auto with vt].
    apply keeps_CurrentRun. exact _.
Qed.

#[local] Hint Resolve flush_frame : vt.

Lemma for_each_frame f ps : (forall v, keeps frame (f v)) -> keeps frame (params_for_each f ps : M SM bool).
Proof.
  intros Hf. unfold params_for_each. generalize true as b.
  generalize (match ps with [] => [VTParameter_default] | _ => ps end) as l.
  induction l as [|v l IH]; intros b; cbn; auto with vt.
Qed.

Lemma andM_frame a m : keeps frame m -> keeps frame (andM a m : M SM bool).
Proof. intros Hm. unfold andM. case_if; auto with vt. Qed.

Lemma repeat_last_frame ps : keeps frame (repeat_last ps : M SM bool).
Proof.
  unfold repeat_last. apply keeps_bind; [exact _|auto with vt|intros c].
  apply keeps_bind; [exact _|case_if; auto with vt|auto with vt].
Qed.

Lemma with_subspan_frame ps n k :
  (forall l, keeps frame (k l)) -> keeps frame (with_subspan ps n k : M SM bool).
Proof. intros Hk. unfold with_subspan. destruct (params_subspan ps n); auto with vt. Qed.

Lemma set_color_entries_frame pairs b : keeps frame (set_color_entries pairs b : M SM bool).
Proof.
  revert b. induction pairs as [|[i c] pairs IH]; intros b; cbn; auto with vt.
  apply keeps_bind; [exact _|apply andM_frame; auto with vt|auto].
Qed.

Lemma set_osc_color_frame code set colors st : keeps frame (set_osc_color code set colors st : M SM _).
Proof.
  destruct st as [[ci k] b]. unfold set_osc_color. case_if; [|auto with vt].
  destruct (colors !! k); [|auto with vt].
  apply keeps_bind; [exact _| |auto with vt]. case_if; [apply andM_frame|]; auto with vt.
Qed.

#[local] Hint Resolve for_each_frame andM_frame repeat_last_frame with_subspan_frame
  set_color_entries_frame set_osc_color_frame : vt.

Lemma csi_switch_frame id ps : keeps frame (csi_switch id ps : M SM bool).
Proof.
  unfold csi_switch, csi_cursor, csi_report, csi_page. repeat case_if; auto with vt.
Qed.

Lemma osc_switch_frame p str : keeps frame (osc_switch p str : M SM bool).
Proof.
  unfold osc_switch, osc_set_colors. repeat case_if; auto with vt.
  - destruct (_GetOscTitle str); auto with vt.
  - destruct (_GetOscSetColorTable str); auto with vt.
  - destruct (_GetOscSetColor str) as [colors []]; auto 8 with vt.
  - destruct (_GetOscSetClipboard str) as [[? ?] ?]. case_if; auto with vt.
  - destruct (_ParseHyperlink str) as [[? ?] ?]. auto with vt.
Qed.

Lemma switch_frame (m : M SM bool) (b : bool) :
  keeps frame m ->
  keeps frame (success <- m ;;
               success <- (if b then flush_if_unknown success else ret success) ;;
               _ClearLastChar ;; ret success).
Proof.
  intros Hm. apply keeps_bind; [exact _|done|intros success].
  apply keeps_bind; [exact _|unfold flush_if_unknown; repeat apply keeps_if; auto with vt|auto with vt].
Qed.

#[export] Instance OutputEngine_framed :
  FramedEngine (OutputStateMachineEngine connected D) H C.
Proof.
  assert (Hexec : forall c, keeps frame (OutputEngine_ActionExecute c : M SM bool)).
  { intros c. unfold OutputEngine_ActionExecute. apply keeps_bind; [exact _| |auto with vt].
    repeat (apply keeps_if); auto 8 with vt. }
  split; cbn [ActionExecute ActionExecuteFromEscape ActionPrint ActionPrintString
    ActionPassThroughString ActionEscDispatch ActionVt52EscDispatch ActionCsiDispatch
    ActionDcsDispatch ActionClear ActionOscDispatch ActionSs3Dispatch StringHandler_call OutputEngine];
    auto with vt.
  - intros c. unfold OutputEngine_ActionPrint. auto with vt.
  - intros str. unfold OutputEngine_ActionPrintString. destruct (list.last str); auto 6 with vt.
  - intros id. apply (switch_frame _ true). unfold esc_switch, esc_designate.
    repeat case_if; auto with vt.
  - intros id ps. unfold OutputEngine_ActionVt52EscDispatch. apply keeps_bind; [exact _| |auto with vt].
    unfold vt52_switch. repeat case_if; auto with vt.
  - intros id ps. apply (switch_frame _ true), csi_switch_frame.
  - intros id ps. unfold OutputEngine_ActionDcsDispatch. apply keeps_bind; [exact _| |auto with vt].
    repeat case_if; auto with vt.
  - intros c p str. apply (switch_frame _ true), osc_switch_frame.
Qed.

End Frame.

(** ** Transparency *)

Section Transparent.
Context {D H C : Type} `{!ITermDispatch false D H C} `{!Win32} `{!TransparentDispatch D H C}.

#[local] Abbreviation SM := (StateMachine (OutputStateMachineEngine false D) H C).

#[local] Hint Resolve call_sim handler_call_sim StringHandler_run_sim Callback_run_sim : vt.

Lemma set_lastPrintedChar_sim c (s1 s2 : SM) :
  same_parse s1 s2 -> same_parse (set_lastPrintedChar c s1) (set_lastPrintedChar c s2).
Proof. intros []. split; cbn; congruence. Qed.

Lemma ClearLastChar_sim : sim same_parse (_ClearLastChar : M SM unit) _ClearLastChar.
Proof. apply sim_modify. intros s1 s2. apply set_lastPrintedChar_sim. Qed.

Lemma stash_last_sim c : sim same_parse (stash_last c : M SM unit) (stash_last c).
Proof.
  unfold stash_last. apply sim_if; [|apply sim_ret].
  apply sim_modify. intros s1 s2. apply set_lastPrintedChar_sim.
Qed.

#[local] Hint Resolve ClearLastChar_sim stash_last_sim : vt.

Lemma for_each_sim f ps :
  (forall v, sim same_parse (f v) (f v)) ->
  sim same_parse (params_for_each f ps : M SM bool) (params_for_each f ps).
Proof.
  intros Hf. unfold params_for_each. generalize true as b.
  generalize (match ps with [] => [VTParameter_default] | _ => ps end) as l.
  induction l as [|v l IH]; intros b; cbn; auto with vt.
Qed.

Lemma andM_sim a m : sim same_parse m m -> sim same_parse (andM a m : M SM bool) (andM a m).
Proof. unfold andM. auto with vt. Qed.

Lemma repeat_last_sim ps : sim same_parse (repeat_last ps : M SM bool) (repeat_last ps).
Proof.
  unfold repeat_last. apply sim_bind; [|auto with vt].
  apply sim_get. intros s1 s2 Hs. by rewrite (sp_engine _ _ Hs).
Qed.

Lemma with_subspan_sim ps n k :
  (forall l, sim same_parse (k l) (k l)) ->
  sim same_parse (with_subspan ps n k : M SM bool) (with_subspan ps n k).
Proof. intros Hk. unfold with_subspan. destruct (params_subspan ps n); auto with vt. Qed.

#[local] Hint Resolve for_each_sim andM_sim repeat_last_sim with_subspan_sim : vt.

Lemma set_color_entries_sim pairs b :
  sim same_parse (set_color_entries pairs b : M SM bool) (set_color_entries pairs b).
Proof. revert b. induction pairs as [|[i c] pairs IH]; intros b; cbn; auto with vt. Qed.

Lemma set_osc_color_sim code set colors st :
  sim same_parse (set_osc_color code set colors st : M SM _) (set_osc_color code set colors st).
Proof.
  destruct st as [[ci k] b]. unfold set_osc_color. destruct (colors !! k); auto 8 with vt.
Qed.

#[local] Hint Resolve set_color_entries_sim set_osc_color_sim : vt.

Lemma csi_switch_sim id ps : sim same_parse (csi_switch id ps : M SM bool) (csi_switch id ps).
Proof. unfold csi_switch, csi_cursor, csi_report, csi_page. repeat case_if; auto with vt. Qed.

Lemma osc_switch_sim p str : sim same_parse (osc_switch p str : M SM bool) (osc_switch p str).
Proof.
  unfold osc_switch, osc_set_colors. repeat case_if; auto with vt.
  - destruct (_GetOscTitle str); auto with vt.
  - destruct (_GetOscSetColorTable str); auto with vt.
  - destruct (_GetOscSetColor str) as [colors []]; auto 8 with vt.
  - destruct (_GetOscSetClipboard str) as [[? ?] ?]. auto with vt.
  - destruct (_ParseHyperlink str) as [[? ?] ?]. auto with vt.
Qed.

Lemma flush_if_unknown_sim b :
  sim same_parse (flush_if_unknown b : M SM bool) (flush_if_unknown b).
Proof. apply sim_ret. Qed.

#[local] Hint Resolve csi_switch_sim osc_switch_sim flush_if_unknown_sim : vt.

Lemma set_last_twice c d (s : SM) :
  set_lastPrintedChar c (set_lastPrintedChar d s) = set_lastPrintedChar c s.
Proof. done. Qed.

Lemma stash_printable c (s : SM) :
  _isActionableFromGround c = false -> stash_last c s = (set_lastPrintedChar c s, Ok tt).
Proof.
  unfold _isActionableFromGround, stash_last, AsciiChars.US, AsciiChars.SPC. intros Hc. bool_prop.
  by destruct (Z.leb_spec 32 c); [|lia].
Qed.

Lemma OutputEngine_print_cons c str :
  Forall (fun c => _isActionableFromGround c = false) (c :: str) ->
  sim same_parse (_ActionPrintString (c :: str) : M SM unit)
    (_ActionPrint c ;; _ActionPrintString str).
Proof.
  intros Hall s1 s2 Hs. inversion_clear Hall as [|? ? Hc Hstr].
  unfold _ActionPrintString, _ActionPrint, _SafeExecuteWithLog, _SafeExecute.
  cbn [ActionPrintString ActionPrint OutputEngine].
  unfold OutputEngine_ActionPrintString, OutputEngine_ActionPrint.
  destruct (print_succeeds c s1) as (t1 & b1 & E1). destruct (print_succeeds c s2) as (t2 & b2 & E2).
  destruct (call_sim (Print c) s1 s2 Hs) as [Ht _]. rewrite E1, E2 in Ht. cbn in Ht.
  destruct str as [|d str].
  - cbn [list.last]. unfold bind. rewrite !stash_printable by done. cbv beta iota.
    rewrite print_string_one, !call_private, E1, E2. cbn.
    split; [by apply set_lastPrintedChar_sim|done].
  - assert (exists k, list.last (c :: d :: str) = Some k /\ list.last (d :: str) = Some k /\
                           _isActionableFromGround k = false) as (k & Hl1 & Hl2 & Hk).
    { destruct (list.last (d :: str)) as [k|] eqn:Hk; [|by apply last_None in Hk].
      exists k. split; [by rewrite last_cons, Hk|]. split; [done|].
      rewrite Forall_forall in Hstr. by apply Hstr, list_elem_of_In, last_Some_elem_of. }
    rewrite Hl1, Hl2. unfold bind. rewrite !stash_printable by done. cbv beta iota.
    rewrite print_string_cons. unfold bind. rewrite !call_private, E1, E2. cbn [fst snd].
    unfold ret. cbv beta iota. rewrite stash_printable, set_last_twice by done.
    cbv beta iota. rewrite call_private.
    destruct (call_sim (PrintString (d :: str)) _ _ Ht) as [Hp1 Hp2].
    destruct (call _ t1) as [u1 r1], (call _ t2) as [u2 r2]. cbn in Hp1, Hp2 |- *. subst r2.
    apply (set_lastPrintedChar_sim k) in Hp1. destruct r1 as [|[]| |]; done.
Qed.

#[export] Instance OutputEngine_transparent :
  TransparentEngine (OutputStateMachineEngine false D) H C.
Proof.
  assert (Hexec : forall c, sim same_parse (OutputEngine_ActionExecute c : M SM bool)
                              (OutputEngine_ActionExecute c)).
  { intros c. unfold OutputEngine_ActionExecute. apply sim_bind; [|auto with vt].
    repeat apply sim_if; auto 8 with vt. }
  split; cbn [ActionExecute ActionExecuteFromEscape ActionPrint ActionPrintString
    ActionPassThroughString ActionEscDispatch ActionVt52EscDispatch ActionCsiDispatch
    ActionDcsDispatch ActionClear ActionOscDispatch ActionSs3Dispatch StringHandler_call
    Callback_call OutputEngine]; auto with vt.
  - intros c. unfold OutputEngine_ActionPrint. auto with vt.
  - intros id. unfold OutputEngine_ActionEscDispatch. apply sim_bind; [|auto 8 with vt].
    unfold esc_switch, esc_designate. repeat case_if; auto with vt.
  - intros id ps. unfold OutputEngine_ActionVt52EscDispatch. apply sim_bind; [|auto with vt].
    unfold vt52_switch. repeat case_if; auto with vt.
  - intros id ps. unfold OutputEngine_ActionCsiDispatch. auto 8 with vt.
  - intros id ps. unfold OutputEngine_ActionDcsDispatch. apply sim_bind; [|auto with vt].
    repeat case_if; auto with vt.
  - intros c p str. unfold OutputEngine_ActionOscDispatch. auto 8 with vt.
  - intros c ps. unfold OutputEngine_ActionSs3Dispatch. auto with vt.
  - intros s1 s2 Hs. split; [exact Hs|done].
  - apply OutputEngine_print_cons.
Qed.

End Transparent.

#[export] Instance OutputEngine_quiet {connected D H C}
    `{!ITermDispatch connected D H C, !Win32} :
  QuietClear (OutputStateMachineEngine connected D) H C.
Proof. by split. Qed.
