(* ===== verification/TermRecorder.v ===== *)
(** * A dispatcher that records its calls

    A small concrete [ITermDispatch], used to run the output engine on concrete
    input: its state is the list of the calls it received, latest last, with the
    characters of a string as single calls.  It refuses the sequence [DECALN] and
    honours the contracts of [OutputEngineLaws.v]. *)

From S2P Require Import Prelude Effects DispatchTypes StateMachine StateMachineLaws.
From S2P Require Import TermDispatch OutputEngine OutputEngineLaws LineRendition.

Local Open Scope Z_scope.

Module TermRecorder.

Inductive Event :=
| Called (x : TermCall)
| Asked (x : HandlerCall)
| Data (x : HandlerCall) (c : wchar)
| Written (str : wstring).

Abbreviation Engine connected := (OutputStateMachineEngine connected (list Event)).
Abbreviation SM connected := (StateMachine (Engine connected) HandlerCall unit).

Definition record {b} (l : list Event) : M (SM b) unit :=
  modify (fun s => set_engine
    (mkEngine (_dispatch (_engine s) ++ l) (_lastPrintedChar (_engine s))) s).

Definition events (x : TermCall) : list Event :=
  match x with
  | PrintString str => map (fun c => Called (Print c)) str
  | _ => [Called x]
  end.

Definition answer (x : TermCall) : bool :=
  match x with
  | ScreenAlignmentPattern => false
  | _ => true
  end.

#[global] Instance dispatch {b} : ITermDispatch b (list Event) HandlerCall unit := {
  call x := record (events x) ;; ret (answer x);
  handler_call x := record [Asked x] ;; ret (Some x);
  StringHandler_run x c := record [Data x c] ;; ret true;
  Callback_run _ := ret tt;
  WriteTerminalW str := record [Written str] ;; ret true
}.

(** ASCII only: bytes are characters. *)
#[global] Instance win32 : Win32 := { MultiByteToWideChar bytes := bytes }.

Lemma record_call_frame {b} l : keeps frame (record l : M (SM b) unit).
Proof. intros s. by split. Qed.

#[global] Instance dispatch_framed {b} : FramedDispatch b (list Event) HandlerCall unit.
Proof.
  split; intros; cbn; (apply keeps_bind; [exact _|apply record_call_frame|auto with vt]).
Qed.

Lemma record_call_sim {b} l : sim same_parse (record l : M (SM b) unit) (record l).
Proof. apply sim_modify. intros s1 s2 []. split; cbn; congruence. Qed.

#[global] Instance dispatch_transparent : TransparentDispatch (list Event) HandlerCall unit.
Proof.
  split; intros; cbn; try (apply sim_bind; [apply record_call_sim|auto with vt]).
  - apply sim_ret.
  - done.
  - eauto.
  - done.
  - unfold bind, record, modify, ret, set_engine. cbn. by rewrite <- app_assoc.
Qed.

#[global] Instance dispatch_sync {b} : SyncCallback (Engine b) HandlerCall unit.
Proof. by split. Qed.

(** A new machine, and the calls after a string. *)
Definition machine (b : bool) : SM b :=
  (StateMachine_new (SetTerminalConnection b (OutputStateMachineEngine_new [])) false 0 0 false).1.

Definition calls (b : bool) (str : wstring) : list Event * Result unit :=
  let '(s, r) := ProcessString str (machine b) in (_dispatch (_engine s), r).

(** [a ESC [ 3 b ESC [ ? 7 ; 25 h]: the character is repeated, two modes are set. *)
Example calls_rep_modes :
  calls false ([0x61; 0x1B; 0x5B; 0x33; 0x62; 0x1B] ++ L"[?7;25h") =
  (map Called [Print 0x61; Print 0x61; Print 0x61; Print 0x61;
               SetMode (DECPrivateMode 7); SetMode (DECPrivateMode 25)], Ok tt).
Proof. vm_compute. reflexivity. Qed.

(** An unknown sequence goes to the terminal the engine is connected to. *)
Example calls_unknown :
  calls true ([0x1B] ++ L"[1;2y") = ([Written ([0x1B] ++ L"[1;2y")], Ok tt).
Proof. vm_compute. reflexivity. Qed.

End TermRecorder.
