(* ===== verification/OutputEngineSpec.v ===== *)
(** * What the output engine does

    The theorems about the output engine: the repeat
    sequence repeats the last printed character and nothing else, the OSC strings
    for the clipboard and for hyperlinks mean what they say, and what happens to
    sequences the engine does not know. *)

From S2P Require Import Prelude Effects DispatchTypes StateMachine TermDispatch LineRendition.
From S2P Require Import Utils ColorTable Base64 OutputEngine StateMachineLaws.
From S2P Require Import OutputEngineLaws StateMachineStream StateMachineInv TermRecorder.

Local Open Scope Z_scope.

(** ** Repeating a character *)

Section Repeat.
Context {D H C : Type} `{!ITermDispatch false D H C, !Win32, !TransparentDispatch D H C}.

#[local] Abbreviation SM := (StateMachine (OutputStateMachineEngine false D) H C).

Lemma csi_switch_REP ps :
  csi_switch CsiActionCodes.REP_RepeatCharacter ps = (repeat_last ps : M SM bool).
Proof. reflexivity. Qed.

Lemma rep_after c ps (s : SM) :
  c <> AsciiChars.NUL ->
  OutputEngine_ActionCsiDispatch CsiActionCodes.REP_RepeatCharacter ps (set_lastPrintedChar c s) =
  (_ <- call (PrintString (repeat c (Z.to_nat (int ps 0)))) ;; _ClearLastChar ;; ret true)
    (set_lastPrintedChar c s).
Proof.
  intros Hc. unfold OutputEngine_ActionCsiDispatch. rewrite csi_switch_REP.
  unfold repeat_last, bind at 1 2 3, get. cbn [_lastPrintedChar _engine set_lastPrintedChar set_engine].
  apply Z.eqb_neq in Hc. rewrite Hc. cbn [negb]. unfold bind. cbv zeta.
  by destruct (call _ _) as [s' []].
Qed.

Lemma rep_none ps (s : SM) :
  _lastPrintedChar (_engine s) = AsciiChars.NUL ->
  OutputEngine_ActionCsiDispatch CsiActionCodes.REP_RepeatCharacter ps s =
  (set_lastPrintedChar AsciiChars.NUL s, Ok true).
Proof.
  intros Hc. unfold OutputEngine_ActionCsiDispatch. rewrite csi_switch_REP.
  unfold repeat_last, bind, get. by rewrite Hc.
Qed.

End Repeat.

(** After text that ends in a graphical character, [REP] prints that
    character as often as its parameter says (once if it is 0 or omitted), and
    then there is nothing left to repeat. *)
Theorem rep_repeats_last_character {D H C : Type}
    `{!ITermDispatch false D H C, !Win32, !TransparentDispatch D H C}
    (str : wstring) (c : wchar) (ps : VTParameters)
    (s : StateMachine (OutputStateMachineEngine false D) H C) :
  AsciiChars.SPC <= c ->
  (ActionPrintString (str ++ [c]) ;; ActionCsiDispatch CsiActionCodes.REP_RepeatCharacter ps) s =
  (_ <- call (PrintString (str ++ [c])) ;;
   _ <- call (PrintString (repeat c (Z.to_nat (int ps 0)))) ;;
   _ClearLastChar ;; ret true) (set_lastPrintedChar c s).
Proof.
  intros Hc. cbn [ActionPrintString ActionCsiDispatch OutputEngine].
  unfold OutputEngine_ActionPrintString. rewrite last_snoc. unfold stash_last.
  destruct (Z.leb_spec AsciiChars.SPC c); [|lia]. unfold bind at 1 2 3 4, modify.
  rewrite call_private.
  destruct (call (PrintString (str ++ [c])) s) as [s' []]; try done.
  cbn [fst snd]. apply rep_after. unfold AsciiChars.SPC, AsciiChars.NUL in *. lia.
Qed.

Lemma rep_repeats_last_character_witness :
  (ActionPrintString ([0x61] ++ [0x62]) ;; ActionCsiDispatch CsiActionCodes.REP_RepeatCharacter [3])
    (TermRecorder.machine false) =
  (_ <- call (PrintString ([0x61] ++ [0x62])) ;;
   _ <- call (PrintString (repeat 0x62 (Z.to_nat (int [3] 0)))) ;;
   _ClearLastChar ;; ret true) (set_lastPrintedChar 0x62 (TermRecorder.machine false)).
Proof. apply rep_repeats_last_character. unfold AsciiChars.SPC. lia. Defined.

(** [REP] repeats only what was printed last: after any other action that
    returns, an executed control character or a dispatched sequence, known or
    not, it prints nothing. *)
Theorem rep_after_action_prints_nothing {D H C : Type}
    `{!ITermDispatch false D H C, !Win32}
    (action : M (StateMachine (OutputStateMachineEngine false D) H C) bool)
    (ps : VTParameters) (s s' : StateMachine (OutputStateMachineEngine false D) H C) (b : bool) :
  (exists c, action = ActionExecute c) \/ (exists id, action = ActionEscDispatch id) \/
  (exists id ps, action = ActionCsiDispatch id ps) \/
  (exists c p str, action = ActionOscDispatch c p str) ->
  action s = (s', Ok b) ->
  ActionCsiDispatch CsiActionCodes.REP_RepeatCharacter ps s' =
  (set_lastPrintedChar AsciiChars.NUL s', Ok true).
Proof.
  intros Haction Hrun. apply rep_none.
  assert (Hclear : forall A (m : M _ A) (k : A -> M _ bool), action = (x <- m ;; k x) ->
    (forall x, (exists b, k x = (_ClearLastChar ;; ret b)) \/
               exists b', k x = (success <- flush_if_unknown b' ;; _ClearLastChar ;; ret success)) ->
    _lastPrintedChar (_engine s') = AsciiChars.NUL).
  { intros A m k Hm Hk. rewrite Hm in Hrun. unfold bind at 1 in Hrun.
    destruct (m s) as [t [x| | |]]; try done.
    destruct (Hk x) as [[b0 Hb]|[b' Hb]]; rewrite Hb in Hrun; by injection Hrun as <- _. }
  destruct Haction as [[c Ha]|[[id Ha]|[(id & ps' & Ha)|(c & p & str & Ha)]]];
    (eapply Hclear; [exact Ha|]; intros x; eauto).
Qed.

Lemma rep_after_action_prints_nothing_witness :
  let s := (ActionPrint 0x61 (TermRecorder.machine false)).1 in
  let s' := (ActionExecute 0x0A s).1 in
  ActionCsiDispatch CsiActionCodes.REP_RepeatCharacter [3] s' =
  (set_lastPrintedChar AsciiChars.NUL s', Ok true).
Proof.
  intros s s'. eapply (rep_after_action_prints_nothing (ActionExecute 0x0A) [3] s s' true);
    [left; by exists 0x0A|vm_compute; reflexivity].
Defined.

(** ** Strings of operating system commands *)

Lemma find_char_app d x y : d ∉ x -> find_char d (x ++ d :: y) = Some (length x).
Proof.
  induction x as [|c x IH]; intros Hd; cbn; [by rewrite Z.eqb_refl|].
  rewrite not_elem_of_cons in Hd. destruct Hd as [Hne Hd].
  destruct (Z.eqb_spec c d); [congruence|]. by rewrite IH.
Qed.

Lemma takeZ_all n s : Z.of_nat (length s) <= n -> takeZ n s = s.
Proof.
  revert n. induction s as [|c s IH]; intros n Hn; [done|]. cbn in *.
  destruct (Z.leb_spec n 0); [lia|]. by rewrite IH by lia.
Qed.

Lemma encode_chars url pad bytes :
  Forall is_byte bytes -> Forall (fun c => is_Some (sextet c) \/ c = 0x3D) (encode url pad bytes).
Proof.
  intros Hb.
  assert (Hmap : forall ns, Forall is_sextet ns ->
    Forall (fun c => is_Some (sextet c) \/ c = 0x3D) (map (char_of url) ns)).
  { induction 1 as [|n ns Hn _ IH]; constructor; [|done]. left.
    destruct (sextet_char_of url n Hn) as [-> _]. by eexists. }
  remember (length bytes) as n eqn:Hn. revert bytes Hn Hb.
  induction (lt_wf n) as [n _ IH]. intros bytes -> Hb.
  destruct bytes as [|b0 [|b1 [|b2 bytes]]]; cbn [encode]; [constructor|..]; apply Forall_app; split.
  - apply Hmap, sextets1_ok. by inversion_clear Hb.
  - destruct pad; repeat constructor; by right.
  - inversion_clear Hb as [|? ? H0 Hb']. inversion_clear Hb' as [|? ? H1 _]. by apply Hmap, sextets2_ok.
  - destruct pad; repeat constructor; by right.
  - inversion_clear Hb as [|? ? H0 Hb']. inversion_clear Hb' as [|? ? H1 Hb].
    inversion_clear Hb as [|? ? H2 _]. by apply Hmap, sextets3_ok.
  - apply (IH (length bytes)); [cbn; lia|done|]. by do 3 apply Forall_inv_tail in Hb.
Qed.

Section Osc.
Context {D H C : Type} `{!ITermDispatch false D H C, !Win32}.

#[local] Abbreviation SM := (StateMachine (OutputStateMachineEngine false D) H C).

Lemma clipboard_content (sel bytes : list Z) (url pad : bool) :
  0x3B ∉ sel -> Forall is_byte bytes -> Z.of_nat (length bytes) <= INT_MAX ->
  MultiByteToWideChar bytes <> [] -> bytes <> [] ->
  _GetOscSetClipboard (sel ++ 0x3B :: encode url pad bytes) =
  (MultiByteToWideChar bytes, false, true).
Proof.
  intros Hsel Hb Hlen Htext Hne. unfold _GetOscSetClipboard. rewrite find_char_app by done.
  replace (drop (length sel + 1) (sel ++ 0x3B :: encode url pad bytes)) with (encode url pad bytes).
  2: { rewrite drop_app_ge by lia. by replace (length sel + 1 - length sel)%nat with 1%nat by lia. }
  rewrite bool_decide_eq_false_2.
  2: { intros Hq. pose proof (encode_chars url pad bytes Hb) as Hall. rewrite Hq in Hall.
       inversion_clear Hall as [|? ? [[x Hx]|?] _]; done. }
  unfold Decode, Decode_bytes. rewrite batched_bound, (decode_encode url pad bytes) by (done || cbn; lia).
  cbn [app]. unfold u8u16. destruct bytes as [|b0 bytes]; [done|].
  destruct (Z.ltb_spec INT_MAX (Z.of_nat (length (b0 :: bytes)))); [lia|].
  by rewrite bool_decide_eq_false_2.
Qed.

End Osc.

(** [OSC 52] with the base64 encoding of UTF-8 text, in either alphabet and
    padded or not, puts that text on the clipboard, whatever selection it names. *)
Theorem osc52_sets_clipboard {D H C : Type} `{!ITermDispatch false D H C, !Win32}
    (sel bytes : list Z) (url pad : bool) (wch : wchar)
    (s : StateMachine (OutputStateMachineEngine false D) H C) :
  0x3B ∉ sel -> Forall is_byte bytes -> Z.of_nat (length bytes) <= INT_MAX ->
  MultiByteToWideChar bytes <> [] -> bytes <> [] ->
  ActionOscDispatch wch 52 (sel ++ 0x3B :: encode url pad bytes) s =
  (success <- call (SetClipboard (MultiByteToWideChar bytes)) ;; _ClearLastChar ;; ret success) s.
Proof.
  intros Hsel Hb Hlen Htext Hne. cbn [ActionOscDispatch OutputEngine].
  unfold OutputEngine_ActionOscDispatch, osc_switch.
  rewrite clipboard_content by done. cbn [orb andb negb Z.eqb Pos.eqb
    OscActionCodes.SetIconAndWindowTitle OscActionCodes.SetWindowIcon OscActionCodes.SetWindowTitle
    OscActionCodes.SetColor OscActionCodes.SetForegroundColor OscActionCodes.SetBackgroundColor
    OscActionCodes.SetCursorColor OscActionCodes.SetClipboard]. done.
Qed.

Lemma osc52_sets_clipboard_witness :
  let bytes := L"hello" in
  ActionOscDispatch 0x07 52 (L"c" ++ 0x3B :: encode false true bytes) (TermRecorder.machine false) =
  (success <- call (SetClipboard (MultiByteToWideChar bytes)) ;; _ClearLastChar ;; ret success)
    (TermRecorder.machine false).
Proof.
  intros bytes. apply osc52_sets_clipboard; try discriminate.
  - apply (bool_decide_unpack _); exact I.
  - repeat constructor; unfold is_byte; cbn; lia.
Defined.

Lemma not_in_join x d ps : x <> d -> Forall (fun p => x ∉ p) ps -> x ∉ join d ps.
Proof.
  intros Hx Hps. induction Hps as [|p ps Hp Hps IH]; [apply not_elem_of_nil|].
  destruct ps as [|q ps]; [done|]. rewrite join_cons by done.
  rewrite not_elem_of_app, not_elem_of_cons. done.
Qed.

Lemma split_app_delimiter d x y : d ∉ x -> split d (x ++ d :: y) = x :: split d y.
Proof.
  induction x as [|c x IH]; intros Hd; cbn [app split]; [by rewrite Z.eqb_refl|].
  rewrite not_elem_of_cons in Hd. destruct Hd as [Hne Hd].
  destruct (Z.eqb_spec c d); [congruence|]. by rewrite IH.
Qed.

Lemma split_join d ps : ps <> [] -> Forall (fun p => d ∉ p) ps -> split d (join d ps) = ps.
Proof.
  intros Hne Hps. induction Hps as [|p ps Hp Hps IH]; [done|]. destruct ps as [|q ps].
  - cbn [join]. apply find_char_None. clear Hne Hps IH. induction p as [|c p IH]; [done|].
    rewrite not_elem_of_cons in Hp. destruct Hp as [? Hp]. cbn.
    destruct (Z.eqb_spec c d); [congruence|]. by rewrite IH.
  - rewrite join_cons, split_app_delimiter by done. by rewrite IH.
Qed.

(** The parameters of a hyperlink: the last part with an id counts. *)
Definition hyperlink_id (parts : list wstring) (start : wstring) : wstring :=
  foldl (fun params part =>
           match find_string hyperlinkIDParameter part with
           | Some idPos => drop (idPos + length hyperlinkIDParameter) part
           | None => params
           end) start parts.

Lemma hyperlink_id_none parts start :
  Forall (fun part => find_string hyperlinkIDParameter part = None) parts ->
  hyperlink_id parts start = start.
Proof.
  intros Hall. unfold hyperlink_id. revert start.
  induction Hall as [|p ps Hp _ IH]; intros start; cbn [foldl]; [done|]. by rewrite Hp.
Qed.

Lemma ParseHyperlink_join parts uri :
  parts <> [] -> join 0x3A parts <> [] ->
  Forall (fun part => (0x3B ∉ part) /\ (0x3A ∉ part)) parts ->
  Z.of_nat (length uri) <= MAX_URL_LENGTH ->
  _ParseHyperlink (join 0x3A parts ++ 0x3B :: uri) = (hyperlink_id parts [], uri, true).
Proof.
  intros Hne Hj Hparts Huri. unfold _ParseHyperlink.
  assert (Hs : 0x3B ∉ join 0x3A parts).
  { apply not_in_join; [done|]. revert Hparts. apply Forall_impl. by intros p []. }
  rewrite bool_decide_eq_false_2.
  2: { intros Heq. destruct (join 0x3A parts) as [|c j]; [done|]. injection Heq as _ Hj'. by destruct j. }
  rewrite find_char_app by done. rewrite take_app_length.
  rewrite drop_app_ge by lia. replace (length _ + 1 - length _)%nat with 1%nat by lia. cbn [drop].
  rewrite SplitString_split, split_join by (done || (revert Hparts; apply Forall_impl; by intros p [])).
  by rewrite takeZ_all, drop_0.
Qed.

(** A hyperlink string with an [id] among its parameters opens the link with
    that id and that address. *)
Theorem hyperlink_parsed (before after : list wstring) (id uri : wstring) :
  Forall (fun part => (0x3B ∉ part) /\ (0x3A ∉ part) /\ find_string hyperlinkIDParameter part = None)
    (before ++ after) ->
  0x3B ∉ id -> 0x3A ∉ id -> Z.of_nat (length uri) <= MAX_URL_LENGTH ->
  _ParseHyperlink (join 0x3A (before ++ (hyperlinkIDParameter ++ id) :: after) ++ 0x3B :: uri) =
  (id, uri, true).
Proof.
  intros Hall Hi1 Hi2 Huri. apply Forall_app in Hall as [Hb Ha].
  assert (Hid : (0x3B ∉ hyperlinkIDParameter ++ id) /\ (0x3A ∉ hyperlinkIDParameter ++ id)).
  { rewrite !not_elem_of_app. split_and!; try done; by apply (bool_decide_unpack _); exact I. }
  rewrite ParseHyperlink_join; [| by destruct before | |
    | done].
  - f_equal. f_equal. unfold hyperlink_id. rewrite foldl_app. cbn [foldl].
    replace (find_string hyperlinkIDParameter (hyperlinkIDParameter ++ id)) with (Some 0%nat) by done.
    change (foldl _ ?x after) with (hyperlink_id after x). rewrite hyperlink_id_none; [done|].
    revert Ha. apply Forall_impl. by intros p (_ & _ & ?).
  - destruct before as [|p [|q before]]; [by destruct after|..]; rewrite ?app_comm_cons; cbn [app];
      rewrite join_cons by done; by destruct p.
  - apply Forall_app. split; [revert Hb; apply Forall_impl; by intros p (? & ? & _)|].
    constructor; [done|]. revert Ha. apply Forall_impl. by intros p (? & ? & _).
Qed.

Lemma hyperlink_parsed_witness :
  _ParseHyperlink (join 0x3A ([L"a=b"] ++ (hyperlinkIDParameter ++ L"link7") :: []) ++
                   0x3B :: L"https://example.com/?q=1;2") =
  (L"link7", L"https://example.com/?q=1;2", true).
Proof.
  apply hyperlink_parsed.
  - constructor; [|constructor]. split_and!; [..|reflexivity]; by apply (bool_decide_unpack _); exact I.
  - by apply (bool_decide_unpack _); exact I.
  - by apply (bool_decide_unpack _); exact I.
  - cbn. unfold MAX_URL_LENGTH. lia.
Defined.

(** Any parameter whose name ends in [id] is taken for the [id] of the link. *)
Theorem hyperlink_id_of_any_suffix (key id uri : wstring) :
  0x3B ∉ key -> 0x3A ∉ key -> find_string hyperlinkIDParameter (key ++ hyperlinkIDParameter ++ id) =
    Some (length key) ->
  0x3B ∉ id -> 0x3A ∉ id -> Z.of_nat (length uri) <= MAX_URL_LENGTH ->
  _ParseHyperlink ((key ++ hyperlinkIDParameter ++ id) ++ 0x3B :: uri) = (id, uri, true).
Proof.
  intros Hk1 Hk2 Hf Hi1 Hi2 Huri.
  pose proof (ParseHyperlink_join [key ++ hyperlinkIDParameter ++ id] uri) as Hp. cbn [join] in Hp.
  rewrite Hp; try done.
  - f_equal. f_equal. unfold hyperlink_id. cbn [foldl]. rewrite Hf.
    rewrite drop_app_ge by lia. replace (length key + _ - length key)%nat with 3%nat by (cbn; lia). done.
  - by destruct key.
  - constructor; [|constructor]. rewrite !not_elem_of_app.
    split_and!; try done; by apply (bool_decide_unpack _); exact I.
Qed.

Lemma hyperlink_id_of_any_suffix_witness :
  _ParseHyperlink ((L"grid=x" ++ L";") ++ L"u") = (L"x", L"u", true).
Proof.
  apply (hyperlink_id_of_any_suffix (L"gr") (L"x") (L"u"));
    by apply (bool_decide_unpack _); exact I.
Defined.

(** ** Parameters that are not there *)

(** [DECCARA] and [DECRARA] need their four coordinates: with fewer
    parameters the engine takes a subspan that starts past the end. *)
Theorem rectangle_attributes_undefined {D H C : Type} `{!ITermDispatch false D H C, !Win32}
    (id : VTID) (ps : VTParameters) (s : StateMachine (OutputStateMachineEngine false D) H C) :
  id = CsiActionCodes.DECCARA_ChangeAttributesRectangularArea \/
  id = CsiActionCodes.DECRARA_ReverseAttributesRectangularArea ->
  (length ps < 4)%nat ->
  (ActionCsiDispatch id ps s).2 = Undefined.
Proof.
  intros Hid Hps. cbn [ActionCsiDispatch OutputEngine]. unfold OutputEngine_ActionCsiDispatch.
  assert (Hsub : params_subspan ps 4 = None).
  { unfold params_subspan. by destruct (Nat.leb_spec 4 (length ps)); [lia|]. }
  assert (Hsw : csi_switch id ps s = (s, Undefined)).
  { destruct Hid as [-> | ->];
      (etrans; [reflexivity|]); unfold csi_switch, csi_cursor, csi_report, csi_page, with_subspan;
      by rewrite Hsub. }
  unfold bind at 1. by rewrite Hsw.
Qed.

(** [CSI 1 ; 2 $ r] *)
Lemma rectangle_attributes_undefined_witness :
  (ActionCsiDispatch CsiActionCodes.DECCARA_ChangeAttributesRectangularArea [1; 2]
     (TermRecorder.machine false)).2 = Undefined.
Proof. apply rectangle_attributes_undefined; [by left|cbn; lia]. Defined.

Example deccara_text_undefined :
  (TermRecorder.calls false ([0x1B] ++ L"[1;2$r")).2 = Undefined.
Proof. vm_compute. reflexivity. Qed.

(** An omitted mode is mode 1: [CSI ? h] sets the cursor keys mode. *)
Example decset_without_parameter :
  TermRecorder.calls false ([0x1B] ++ L"[?h") =
  ([TermRecorder.Called (SetMode (DECPrivateMode 1))], Ok tt).
Proof. vm_compute. reflexivity. Qed.
