(* ===== verification/TextColor.v ===== *)
(** * Colours of text

    Models [src/src/buffer/out/TextColor.{h,cpp}]: a text colour is a default, an
    index of the 16-colour or of the 256-colour palette, or an RGB value.  The
    vectorised search of [GetColor] is modelled in both its forms, beside the
    plain loop they replace. *)

From S2P Require Import Prelude.

Local Open Scope Z_scope.

(** ** [COLORREF], 0x00BBGGRR *)

Definition RGB (r g b : Z) : Z := Z.lor r (Z.lor (Z.shiftl g 8) (Z.shiftl b 16)).
Definition GetRValue (rgb : Z) : Z := u8 rgb.
Definition GetGValue (rgb : Z) : Z := u8 (Z.shiftr rgb 8).
Definition GetBValue (rgb : Z) : Z := u8 (Z.shiftr rgb 16).

(** ** The type *)

Inductive ColorType := IsIndex256 | IsIndex16 | IsDefault | IsRgb.

#[export] Instance ColorType_eq_dec : EqDecision ColorType.
Proof. solve_decision. Defined.

(** [_red] and [_index] share their storage. *)
Record TextColor := mkTextColor {
  _meta : ColorType;
  _red : Z;
  _green : Z;
  _blue : Z
}.

#[export] Instance TextColor_eq_dec : EqDecision TextColor.
Proof. solve_decision. Defined.

Definition DARK_BLACK : Z := 0.
Definition DARK_RED : Z := 1.
Definition DARK_GREEN : Z := 2.
Definition DARK_YELLOW : Z := 3.
Definition DARK_BLUE : Z := 4.
Definition DARK_MAGENTA : Z := 5.
Definition DARK_CYAN : Z := 6.
Definition DARK_WHITE : Z := 7.
Definition BRIGHT_BLACK : Z := 8.
Definition BRIGHT_RED : Z := 9.
Definition BRIGHT_GREEN : Z := 10.
Definition BRIGHT_YELLOW : Z := 11.
Definition BRIGHT_BLUE : Z := 12.
Definition BRIGHT_MAGENTA : Z := 13.
Definition BRIGHT_CYAN : Z := 14.
Definition BRIGHT_WHITE : Z := 15.

Definition TABLE_SIZE : nat := 266.

(** The constructors. *)
Definition TextColor_default : TextColor := mkTextColor IsDefault 0 0 0.
Definition TextColor_index (index : Z) (isIndex256 : bool) : TextColor :=
  mkTextColor (if isIndex256 then IsIndex256 else IsIndex16) index 0 0.
Definition TextColor_rgb (rgb : Z) : TextColor :=
  mkTextColor IsRgb (GetRValue rgb) (GetGValue rgb) (GetBValue rgb).

Definition is_type (t : ColorType) (c : TextColor) : bool := bool_decide (_meta c = t).

Definition CanBeBrightened (c : TextColor) : bool := is_type IsIndex16 c || is_type IsDefault c.

Definition IsLegacy (c : TextColor) : bool :=
  is_type IsIndex16 c || (is_type IsIndex256 c && (_red c <? 16)).

Definition TextColor_SetColor (rgbColor : Z) (c : TextColor) : TextColor :=
  mkTextColor IsRgb (GetRValue rgbColor) (GetGValue rgbColor) (GetBValue rgbColor).

Definition TextColor_SetIndex (index : Z) (isIndex256 : bool) (c : TextColor) : TextColor :=
  mkTextColor (if isIndex256 then IsIndex256 else IsIndex16) index 0 0.

Definition TextColor_SetDefault (c : TextColor) : TextColor := mkTextColor IsDefault 0 0 0.

Definition GetIndex (c : TextColor) : Z := _red c.

Definition GetRGB (c : TextColor) : Z := RGB (_red c) (_green c) (_blue c).

Definition TransposeLegacyIndex (index : Z) : Z :=
  let oneBitSet := Z.land (Z.lxor index (Z.shiftr index 2)) 1 in
  u8 (Z.lxor (Z.lxor index oneBitSet) (Z.shiftl oneBitSet 2)).

(** ** Tables *)

Definition CompressedRgbToIndex16 : list Z := [
  0; 1; 1; 9; 0; 0; 1; 1; 2; 1; 1; 1; 2; 8; 1; 9;
  2; 2; 3; 3; 2; 2; 11; 3; 10; 10; 11; 11; 10; 10; 10; 11;
  0; 5; 1; 1; 0; 0; 1; 1; 8; 1; 1; 1; 2; 8; 1; 9;
  2; 2; 3; 3; 2; 2; 11; 3; 10; 10; 10; 11; 10; 10; 10; 11;
  5; 5; 5; 1; 4; 5; 1; 1; 8; 8; 1; 9; 2; 8; 9; 9;
  2; 2; 3; 3; 2; 2; 11; 3; 10; 10; 11; 11; 10; 10; 10; 11;
  4; 5; 5; 1; 4; 5; 5; 1; 8; 5; 5; 1; 8; 8; 9; 9;
  2; 2; 8; 9; 10; 2; 11; 3; 10; 10; 11; 11; 10; 10; 10; 11;
  4; 13; 5; 5; 4; 13; 5; 5; 4; 13; 13; 13; 6; 8; 13; 9;
  6; 8; 8; 9; 10; 10; 11; 3; 10; 10; 11; 11; 10; 10; 10; 11;
  4; 13; 13; 13; 4; 13; 13; 13; 4; 12; 13; 13; 6; 12; 13; 13;
  6; 6; 8; 9; 6; 6; 7; 7; 10; 14; 14; 7; 10; 10; 14; 11;
  4; 12; 13; 13; 4; 12; 13; 13; 4; 12; 13; 13; 6; 12; 12; 13;
  6; 6; 12; 7; 6; 6; 7; 7; 6; 14; 14; 7; 14; 14; 14; 15;
  12; 12; 13; 13; 12; 12; 13; 13; 12; 12; 12; 13; 12; 12; 12; 13;
  6; 12; 12; 7; 6; 6; 7; 7; 6; 14; 14; 7; 14; 14; 14; 15
].

Definition Index256ToIndex16 : list Z := [
  0; 4; 2; 6; 1; 5; 3; 7; 8; 12; 10; 14; 9; 13; 11; 15;
  0; 1; 1; 1; 9; 9; 2; 1; 1; 1; 1; 1; 2; 2; 3; 3;
  3; 3; 2; 2; 11; 11; 3; 3; 10; 10; 11; 11; 11; 11; 10; 10;
  10; 10; 11; 11; 5; 5; 5; 5; 1; 1; 8; 8; 1; 1; 9; 9;
  2; 2; 3; 3; 3; 3; 2; 2; 11; 11; 3; 3; 10; 10; 11; 11;
  11; 11; 10; 10; 10; 10; 11; 11; 4; 13; 5; 5; 5; 5; 4; 13;
  13; 13; 13; 13; 6; 8; 8; 8; 9; 9; 10; 10; 11; 11; 3; 3;
  10; 10; 11; 11; 11; 11; 10; 10; 10; 10; 11; 11; 4; 13; 13; 13;
  13; 13; 4; 12; 13; 13; 13; 13; 6; 6; 8; 8; 9; 9; 6; 6;
  7; 7; 7; 7; 10; 14; 14; 14; 7; 7; 10; 10; 14; 14; 11; 11;
  4; 12; 13; 13; 13; 13; 4; 12; 13; 13; 13; 13; 6; 6; 12; 12;
  7; 7; 6; 6; 7; 7; 7; 7; 6; 14; 14; 14; 7; 7; 14; 14;
  14; 14; 15; 15; 12; 12; 13; 13; 13; 13; 12; 12; 12; 12; 13; 13;
  6; 12; 12; 12; 7; 7; 6; 6; 7; 7; 7; 7; 6; 14; 14; 14;
  7; 7; 14; 14; 14; 14; 15; 15; 0; 0; 0; 0; 0; 0; 8; 8;
  8; 8; 8; 8; 8; 8; 8; 8; 7; 7; 7; 7; 7; 7; 15; 15
].

(** ** The real colour

    [til::at] does not check its index.  An index of a colour is a byte and the
    tables have 256 and 266 entries, so every look-up is in range
    ([GetLegacyIndex_range] and [GetColor_lookup] below) and the default of [at_]
    is never used. *)

Definition at_ (table : list Z) (i : Z) : Z := default 0 (table !! Z.to_nat i).

(** The search for a default colour in the dark half of the palette, as a loop. *)
Fixpoint find_dark (n i : nat) (colorTable : list Z) (defaultColor : Z) : option nat :=
  match n with
  | O => None
  | S n =>
      if at_ colorTable (Z.of_nat i) =? defaultColor then Some i
      else find_dark n (S i) colorTable defaultColor
  end.

Definition brighten_scalar (colorTable : list Z) (defaultColor : Z) : Z :=
  match find_dark 8 0 colorTable defaultColor with
  | Some i => at_ colorTable (Z.of_nat i + 8)
  | None => defaultColor
  end.

(** [_mm256_cmpeq_epi32] and [_mm_cmpeq_epi32]: all ones where the lanes agree. *)
Definition cmpeq (haystack : list Z) (needle : Z) : list bool :=
  map (fun x => x =? needle) haystack.

(** The most significant bit of each lane, first lane lowest; a lane of [width]
    bytes has that many such bits in the byte mask of SSE2. *)
Fixpoint movemask (width : Z) (lanes : list bool) : Z :=
  match lanes with
  | [] => 0
  | b :: lanes =>
      Z.lor (if b then Z.ones width else 0) (Z.shiftl (movemask width lanes) width)
  end.

(** [_BitScanForward]: the lowest bit that is set, of the [n] from [i] on. *)
Fixpoint BitScanForward_from (n : nat) (i : Z) (mask : Z) : option Z :=
  match n with
  | O => None
  | S n => if Z.testbit mask i then Some i else BitScanForward_from n (i + 1) mask
  end.

Definition BitScanForward (mask : Z) : option Z := BitScanForward_from 32 0 mask.

Definition brighten_avx2 (colorTable : list Z) (defaultColor : Z) : Z :=
  let mask := movemask 1 (cmpeq (take 8 colorTable) defaultColor) in
  match BitScanForward mask with
  | Some index => at_ colorTable (index + 8)
  | None => defaultColor
  end.

(** SSE2 compares two halves and packs the results to 16 bits, two bytes each. *)
Definition brighten_sse2 (colorTable : list Z) (defaultColor : Z) : Z :=
  let result1 := cmpeq (take 4 colorTable) defaultColor in
  let result2 := cmpeq (take 4 (drop 4 colorTable)) defaultColor in
  let mask := movemask 2 (result1 ++ result2) in
  match BitScanForward mask with
  | Some index => at_ colorTable (index / 2 + 8)
  | None => defaultColor
  end.

Definition GetColor_with (brighten_default : list Z -> Z -> Z) (c : TextColor)
    (colorTable : list Z) (defaultIndex : Z) (brighten : bool) : Z :=
  if is_type IsDefault c then
    let defaultColor := at_ colorTable defaultIndex in
    if brighten then brighten_default colorTable defaultColor else defaultColor
  else if is_type IsRgb c then GetRGB c
  else if is_type IsIndex16 c && brighten then at_ colorTable (Z.lor (_red c) 8)
  else at_ colorTable (_red c).

Definition GetColor : TextColor -> list Z -> Z -> bool -> Z := GetColor_with brighten_scalar.

Definition GetLegacyIndex (c : TextColor) (defaultIndex : Z) : Z :=
  if is_type IsDefault c then defaultIndex
  else if is_type IsIndex16 c || is_type IsIndex256 c then at_ Index256ToIndex16 (GetIndex c)
  else
    let compressedRgb :=
      u8 (Z.land (_red c) 0xE0 + Z.land (Z.shiftr (_green c) 3) 0x1C
          + Z.land (Z.shiftr (_blue c) 6) 0x03) in
    at_ CompressedRgbToIndex16 compressedRgb.

(** ** The vectorised search is the loop *)

(** The number of the first lane that is set. *)
Fixpoint first_lane (lanes : list bool) : option nat :=
  match lanes with
  | [] => None
  | true :: _ => Some 0%nat
  | false :: lanes => S <$> first_lane lanes
  end.

Lemma scan_bit_mask lanes :
  length lanes = 8%nat ->
  BitScanForward (movemask 1 lanes) = Z.of_nat <$> first_lane lanes.
Proof.
  intros Hl. do 8 (destruct lanes as [|[] lanes]; [discriminate Hl| |]);
    (destruct lanes; [reflexivity|discriminate Hl]).
Qed.

Lemma scan_byte_mask lanes :
  length lanes = 8%nat ->
  BitScanForward (movemask 2 lanes) = (fun i => 2 * Z.of_nat i) <$> first_lane lanes.
Proof.
  intros Hl. do 8 (destruct lanes as [|[] lanes]; [discriminate Hl| |]);
    (destruct lanes; [reflexivity|discriminate Hl]).
Qed.

Lemma find_dark_lanes n i table d :
  (i + n <= length table)%nat ->
  find_dark n i table d = (Nat.add i) <$> first_lane (cmpeq (take n (drop i table)) d).
Proof.
  revert i; induction n as [|n IH]; intros i Hl; [done|].
  destruct (lookup_lt_is_Some_2 table i ltac:(lia)) as [x Hx].
  rewrite (drop_S _ _ _ Hx). cbn [find_dark take cmpeq map first_lane].
  unfold at_. rewrite Nat2Z.id, Hx. cbn [from_option id].
  destruct (x =? d); [cbn; f_equal; lia|].
  rewrite IH by lia. unfold cmpeq.
  destruct (first_lane (map _ (take n (drop (S i) table)))); cbn; [f_equal; lia|done].
Qed.

Lemma brighten_scalar_lanes table d :
  (8 <= length table)%nat ->
  brighten_scalar table d =
  match first_lane (cmpeq (take 8 table) d) with
  | Some i => at_ table (Z.of_nat i + 8)
  | None => d
  end.
Proof.
  intros Hl. unfold brighten_scalar. rewrite find_dark_lanes, drop_0 by lia.
  by destruct (first_lane _).
Qed.

Lemma brighten_avx2_scalar table d :
  (8 <= length table)%nat -> brighten_avx2 table d = brighten_scalar table d.
Proof.
  intros Hl. rewrite brighten_scalar_lanes by done. unfold brighten_avx2.
  rewrite scan_bit_mask by (unfold cmpeq; rewrite length_map, length_take; lia).
  by destruct (first_lane _).
Qed.

Lemma brighten_sse2_scalar table d :
  (8 <= length table)%nat -> brighten_sse2 table d = brighten_scalar table d.
Proof.
  intros Hl. rewrite brighten_scalar_lanes by done. unfold brighten_sse2.
  replace (cmpeq (take 4 table) d ++ cmpeq (take 4 (drop 4 table)) d)
    with (cmpeq (take 8 table) d)
    by (unfold cmpeq; rewrite <- map_app; f_equal; symmetry; apply (take_take_drop table 4 4)).
  rewrite scan_byte_mask by (unfold cmpeq; rewrite length_map, length_take; lia).
  destruct (first_lane _) as [i|]; cbn [fmap option_fmap option_map]; [|done].
  f_equal. rewrite Z.mul_comm, Z.div_mul by lia. done.
Qed.

(** The AVX2 and the SSE2 code of [GetColor] return what its plain loop
    returns: the bright entry of the first dark palette entry that is the default
    colour, for every colour, table, default and [brighten]. *)
Theorem GetColor_vectorised (c : TextColor) (colorTable : list Z) (defaultIndex : Z)
    (brighten : bool) :
  length colorTable = TABLE_SIZE ->
  GetColor_with brighten_avx2 c colorTable defaultIndex brighten =
    GetColor c colorTable defaultIndex brighten /\
  GetColor_with brighten_sse2 c colorTable defaultIndex brighten =
    GetColor c colorTable defaultIndex brighten.
Proof.
  unfold TABLE_SIZE. intros Hl. unfold GetColor, GetColor_with.
  rewrite brighten_avx2_scalar, brighten_sse2_scalar by lia. done.
Qed.

Lemma GetColor_vectorised_witness :
  let table := map Z.of_nat (seq 0 266) in
  length table = TABLE_SIZE /\
  GetColor_with brighten_avx2 TextColor_default table 5 true =
    GetColor TextColor_default table 5 true /\
  GetColor TextColor_default table 5 true = 13.
Proof.
  split; [reflexivity|]. split; [|reflexivity].
  apply (GetColor_vectorised TextColor_default (map Z.of_nat (seq 0 266)) 5 true).
  reflexivity.
Defined.

(** ** Ranges and the legacy order *)

(** The components of a colour are bytes, and a 16-colour index is below 16. *)
Definition TextColor_wf (c : TextColor) : Prop :=
  is_byte (_red c) /\ is_byte (_green c) /\ is_byte (_blue c) /\
  (_meta c = IsIndex16 -> _red c < 16).

Lemma TextColor_default_wf : TextColor_wf TextColor_default.
Proof. unfold TextColor_wf, is_byte; cbn. intuition (lia || discriminate). Qed.

Lemma TextColor_index_wf (i : Z) (b : bool) :
  0 <= i -> i < (if b then 256 else 16) -> TextColor_wf (TextColor_index i b).
Proof. unfold TextColor_wf, is_byte. destruct b; cbn; intuition (lia || discriminate). Qed.

Lemma TextColor_rgb_wf rgb : TextColor_wf (TextColor_rgb rgb).
Proof.
  assert (Hb : forall z, is_byte (u8 z)) by (intros z; by apply (wrapu_range 8)).
  unfold TextColor_wf, TextColor_rgb; cbn [_red _green _blue _meta].
  repeat split; try apply Hb; discriminate.
Qed.

(** A [COLORREF] is made of its components. *)
Lemma RGB_sum r g b : is_byte r -> is_byte g -> RGB r g b = r + 256 * g + 65536 * b.
Proof.
  unfold is_byte, RGB. intros Hr Hg. rewrite !Z.shiftl_mul_pow2 by lia.
  rewrite (Z.lor_comm (g * 2 ^ 8)), lor_low_bits by (eval_ground; lia).
  replace (b * 2 ^ 16 + g * 2 ^ 8) with ((b * 256 + g) * 2 ^ 8) by (eval_ground; lia).
  rewrite Z.lor_comm, lor_low_bits by (eval_ground; lia). eval_ground. lia.
Qed.

Lemma TextColor_rgb_RGB r g b :
  is_byte r -> is_byte g -> is_byte b -> TextColor_rgb (RGB r g b) = mkTextColor IsRgb r g b.
Proof.
  intros Hr Hg Hb. unfold TextColor_rgb, GetRValue, GetGValue, GetBValue, wrapu.
  rewrite RGB_sum, !Z.shiftr_div_pow2 by (done || lia). unfold is_byte in *. eval_ground.
  f_equal; Z.to_euclidean_division_equations; lia.
Qed.

Lemma TransposeLegacyIndex_involutive i :
  0 <= i < 16 -> TransposeLegacyIndex (TransposeLegacyIndex i) = i.
Proof. apply (below_forall 16 (fun i => TransposeLegacyIndex (TransposeLegacyIndex i) = i)). reflexivity. Qed.

Lemma TransposeLegacyIndex_range i : 0 <= i < 16 -> 0 <= TransposeLegacyIndex i < 16.
Proof. apply (below_forall 16 (fun i => 0 <= TransposeLegacyIndex i < 16)). reflexivity. Qed.

Lemma Index256ToIndex16_legacy i :
  0 <= i < 16 -> at_ Index256ToIndex16 i = TransposeLegacyIndex i.
Proof. apply (below_forall 16 (fun i => at_ Index256ToIndex16 i = TransposeLegacyIndex i)). reflexivity. Qed.

Lemma Index256ToIndex16_range i : is_byte i -> 0 <= at_ Index256ToIndex16 i < 16.
Proof. apply (below_forall 256 (fun i => 0 <= at_ Index256ToIndex16 i < 16)). reflexivity. Qed.

Lemma CompressedRgbToIndex16_range i : is_byte i -> 0 <= at_ CompressedRgbToIndex16 i < 16.
Proof. apply (below_forall 256 (fun i => 0 <= at_ CompressedRgbToIndex16 i < 16)). reflexivity. Qed.

Lemma GetLegacyIndex_range c d :
  TextColor_wf c -> 0 <= d < 16 -> 0 <= GetLegacyIndex c d < 16.
Proof.
  intros (Hr & _) Hd. unfold GetLegacyIndex, GetIndex. do 2 (case_if; [by auto using Index256ToIndex16_range|]).
  apply CompressedRgbToIndex16_range. apply (wrapu_range 8). lia.
Qed.

Lemma at_lookup table i :
  0 <= i < Z.of_nat (length table) -> table !! Z.to_nat i = Some (at_ table i).
Proof.
  intros Hi. unfold at_. destruct (lookup_lt_is_Some_2 table (Z.to_nat i) ltac:(lia)) as [x ->].
  done.
Qed.

Lemma brighten_scalar_lookup table d :
  (16 <= length table)%nat -> d ∈ table -> brighten_scalar table d ∈ table.
Proof.
  intros Hl Hd. rewrite brighten_scalar_lanes by lia.
  destruct (first_lane _) as [i|] eqn:E; [|done].
  assert (i < 8)%nat as Hi.
  { replace 8%nat with (length (cmpeq (take 8 table) d))
      by (unfold cmpeq; rewrite length_map, length_take; lia).
    revert i E. generalize (cmpeq (take 8 table) d). intros lanes.
    induction lanes as [|[] lanes IH]; intros i E; simplify_eq/=; [lia|].
    destruct (first_lane lanes) as [j|]; simplify_eq/=. specialize (IH j eq_refl). lia. }
  eapply list_elem_of_lookup_2, at_lookup. lia.
Qed.

(** For a well-formed colour, a full table and a default index within it, no
    look-up of [GetColor] is out of range: the value is an entry of the table
    unless the colour is an RGB one, whose value is its components. *)
Lemma GetColor_lookup (c : TextColor) (colorTable : list Z) (defaultIndex : Z) (brighten : bool) :
  TextColor_wf c -> length colorTable = TABLE_SIZE -> 0 <= defaultIndex < 266 ->
  if is_type IsRgb c then GetColor c colorTable defaultIndex brighten = GetRGB c
  else GetColor c colorTable defaultIndex brighten ∈ colorTable.
Proof.
  unfold TABLE_SIZE, TextColor_wf, is_byte. intros (Hr & _ & _ & H16) Hl Hd.
  assert (Hat : forall i, 0 <= i < 266 -> at_ colorTable i ∈ colorTable).
  { intros i Hi. eapply list_elem_of_lookup_2, at_lookup. lia. }
  unfold GetColor, GetColor_with, is_type in *. destruct (_meta c) eqn:E; cbn; try done.
  - apply Hat. lia.
  - assert (0 <= Z.lor (_red c) 8 < 2 ^ 8).
    { split; [apply Z.lor_nonneg; lia|]. apply lor_lt_pow2; lia. }
    destruct brighten; apply Hat; [eval_ground|]; lia.
  - destruct brighten; [apply brighten_scalar_lookup; [lia|]|]; by apply Hat.
Qed.
