(* ===== verification/TextAttribute.v ===== *)
(** * Text attributes

    Models [src/src/buffer/out/TextAttribute.{hpp,cpp}] and the flags of
    [src/src/inc/conattrs.hpp]: the attribute of a cell (its flags, colours and
    hyperlink), its setters and getters, and the translation between the legacy
    16-bit attributes of the console API and attributes, with the process-wide
    tables the translation is driven by.

    The theorems show that a legacy attribute survives the translation to a
    [TextAttribute] and back, whatever the default attributes were set to and
    however often, and that the "VT quirk", which replaces palette colours by
    defaults, never changes the legacy attribute a program reads back. *)

From S2P Require Import Prelude EnumSet TextColor.

Local Open Scope Z_scope.

(** ** Flags *)

Definition FOREGROUND_INTENSITY : Z := 0x8.
Definition COMMON_LVB_LEADING_BYTE : Z := 0x100.
Definition COMMON_LVB_TRAILING_BYTE : Z := 0x200.
Definition COMMON_LVB_SBCSDBCS : Z := 0x300.
Definition COMMON_LVB_GRID_HORIZONTAL : Z := 0x400.
Definition COMMON_LVB_GRID_LVERTICAL : Z := 0x800.
Definition COMMON_LVB_GRID_RVERTICAL : Z := 0x1000.
Definition COMMON_LVB_REVERSE_VIDEO : Z := 0x4000.
Definition COMMON_LVB_UNDERSCORE : Z := 0x8000.

Definition FG_ATTRS : Z := 0x0F.
Definition BG_ATTRS : Z := 0xF0.
Definition META_ATTRS : Z :=
  Z.lor COMMON_LVB_LEADING_BYTE (Z.lor COMMON_LVB_TRAILING_BYTE
    (Z.lor COMMON_LVB_GRID_HORIZONTAL (Z.lor COMMON_LVB_GRID_LVERTICAL
      (Z.lor COMMON_LVB_GRID_RVERTICAL (Z.lor COMMON_LVB_REVERSE_VIDEO COMMON_LVB_UNDERSCORE))))).
Definition USED_META_ATTRS : Z := Z.ldiff META_ATTRS COMMON_LVB_SBCSDBCS.

(** [CharacterAttributes], a set of flags in a [uint16_t]. *)
Abbreviation CharacterAttributes := Z (only parsing).

Definition Normal : CharacterAttributes := 0x00.
Definition Intense : CharacterAttributes := 0x01.
Definition Italics : CharacterAttributes := 0x02.
Definition Blinking : CharacterAttributes := 0x04.
Definition Invisible : CharacterAttributes := 0x08.
Definition CrossedOut : CharacterAttributes := 0x10.
Definition Underlined : CharacterAttributes := 0x20.
Definition DoublyUnderlined : CharacterAttributes := 0x40.
Definition Faint : CharacterAttributes := 0x80.
Definition TopGridline : CharacterAttributes := COMMON_LVB_GRID_HORIZONTAL.
Definition LeftGridline : CharacterAttributes := COMMON_LVB_GRID_LVERTICAL.
Definition RightGridline : CharacterAttributes := COMMON_LVB_GRID_RVERTICAL.
Definition Protected : CharacterAttributes := 0x2000.
Definition ReverseVideo : CharacterAttributes := COMMON_LVB_REVERSE_VIDEO.
Definition BottomGridline : CharacterAttributes := COMMON_LVB_UNDERSCORE.
Definition All : CharacterAttributes := 0xFFFF.
Definition Rendition : CharacterAttributes := Z.ldiff All Protected.

(** [WI_IsFlagSet] (also [WI_IsAnyFlagSet]), [WI_UpdateFlag] and [WI_ToggleFlag]. *)
Definition IsFlagSet (attrs flag : Z) : bool := negb (Z.land attrs flag =? 0).
Definition UpdateFlag (attrs flag : Z) (isSet : bool) : Z :=
  if isSet then Z.lor attrs flag else Z.ldiff attrs flag.
Definition ToggleFlag (attrs flag : Z) : Z := Z.lxor attrs flag.

(** ** The attribute *)

Record TextAttribute := mkTextAttribute {
  _attrs : CharacterAttributes;
  _hyperlinkId : Z;
  _foreground : TextColor;
  _background : TextColor
}.

(** [operator==] compares the bytes of the two objects. *)
#[export] Instance TextAttribute_eq_dec : EqDecision TextAttribute.
Proof. solve_decision. Defined.

Definition TextAttribute_default : TextAttribute :=
  mkTextAttribute Normal 0 TextColor_default TextColor_default.

Definition TextAttribute_rgb (rgbForeground rgbBackground : Z) : TextAttribute :=
  mkTextAttribute Normal 0 (TextColor_rgb rgbForeground) (TextColor_rgb rgbBackground).

Definition set_attrs (attrs : Z) (a : TextAttribute) : TextAttribute :=
  mkTextAttribute attrs (_hyperlinkId a) (_foreground a) (_background a).
Definition SetForeground (foreground : TextColor) (a : TextAttribute) : TextAttribute :=
  mkTextAttribute (_attrs a) (_hyperlinkId a) foreground (_background a).
Definition SetBackground (background : TextColor) (a : TextAttribute) : TextAttribute :=
  mkTextAttribute (_attrs a) (_hyperlinkId a) (_foreground a) background.
Definition SetHyperlinkId (id : Z) (a : TextAttribute) : TextAttribute :=
  mkTextAttribute (_attrs a) id (_foreground a) (_background a).

Definition update_attr (flag : Z) (isSet : bool) (a : TextAttribute) : TextAttribute :=
  set_attrs (UpdateFlag (_attrs a) flag isSet) a.
Definition has_attr (flag : Z) (a : TextAttribute) : bool := IsFlagSet (_attrs a) flag.

Definition SetIndexedForeground (fgIndex : Z) : TextAttribute -> TextAttribute :=
  SetForeground (TextColor_index fgIndex false).
Definition SetIndexedBackground (bgIndex : Z) : TextAttribute -> TextAttribute :=
  SetBackground (TextColor_index bgIndex false).
Definition SetIndexedForeground256 (fgIndex : Z) : TextAttribute -> TextAttribute :=
  SetForeground (TextColor_index fgIndex true).
Definition SetIndexedBackground256 (bgIndex : Z) : TextAttribute -> TextAttribute :=
  SetBackground (TextColor_index bgIndex true).
Definition SetColor (rgbColor : Z) (fIsForeground : bool) (a : TextAttribute) : TextAttribute :=
  if fIsForeground then SetForeground (TextColor_rgb rgbColor) a
  else SetBackground (TextColor_rgb rgbColor) a.

Definition IsTopHorizontalDisplayed : TextAttribute -> bool := has_attr TopGridline.
Definition IsBottomHorizontalDisplayed : TextAttribute -> bool := has_attr BottomGridline.
Definition IsLeftVerticalDisplayed : TextAttribute -> bool := has_attr LeftGridline.
Definition IsRightVerticalDisplayed : TextAttribute -> bool := has_attr RightGridline.
Definition SetLeftVerticalDisplayed : bool -> TextAttribute -> TextAttribute := update_attr LeftGridline.
Definition SetRightVerticalDisplayed : bool -> TextAttribute -> TextAttribute := update_attr RightGridline.

Definition IsIntense : TextAttribute -> bool := has_attr Intense.
Definition IsFaint : TextAttribute -> bool := has_attr Faint.
Definition IsItalic : TextAttribute -> bool := has_attr Italics.
Definition IsBlinking : TextAttribute -> bool := has_attr Blinking.
Definition IsInvisible : TextAttribute -> bool := has_attr Invisible.
Definition IsCrossedOut : TextAttribute -> bool := has_attr CrossedOut.
Definition IsUnderlined : TextAttribute -> bool := has_attr Underlined.
Definition IsDoublyUnderlined : TextAttribute -> bool := has_attr DoublyUnderlined.
Definition IsOverlined : TextAttribute -> bool := has_attr TopGridline.
Definition IsReverseVideo : TextAttribute -> bool := has_attr ReverseVideo.
Definition IsProtected : TextAttribute -> bool := has_attr Protected.

Definition SetIntense : bool -> TextAttribute -> TextAttribute := update_attr Intense.
Definition SetFaint : bool -> TextAttribute -> TextAttribute := update_attr Faint.
Definition SetItalic : bool -> TextAttribute -> TextAttribute := update_attr Italics.
Definition SetBlinking : bool -> TextAttribute -> TextAttribute := update_attr Blinking.
Definition SetInvisible : bool -> TextAttribute -> TextAttribute := update_attr Invisible.
Definition SetCrossedOut : bool -> TextAttribute -> TextAttribute := update_attr CrossedOut.
Definition SetUnderlined : bool -> TextAttribute -> TextAttribute := update_attr Underlined.
Definition SetDoublyUnderlined : bool -> TextAttribute -> TextAttribute := update_attr DoublyUnderlined.
Definition SetOverlined : bool -> TextAttribute -> TextAttribute := update_attr TopGridline.
Definition SetReverseVideo : bool -> TextAttribute -> TextAttribute := update_attr ReverseVideo.
Definition SetProtected : bool -> TextAttribute -> TextAttribute := update_attr Protected.

Definition Invert (a : TextAttribute) : TextAttribute :=
  set_attrs (ToggleFlag (_attrs a) ReverseVideo) a.

Definition SetDefaultForeground : TextAttribute -> TextAttribute := SetForeground TextColor_default.
Definition SetDefaultBackground : TextAttribute -> TextAttribute := SetBackground TextColor_default.

Definition SetDefaultRenditionAttributes (a : TextAttribute) : TextAttribute :=
  set_attrs (Z.ldiff (_attrs a) Rendition) a.

Definition SetStandardErase (a : TextAttribute) : TextAttribute :=
  SetHyperlinkId 0 (set_attrs Normal a).

Definition TextAttribute_IsLegacy (a : TextAttribute) : bool :=
  IsLegacy (_foreground a) && IsLegacy (_background a).
Definition IsHyperlink (a : TextAttribute) : bool := negb (_hyperlinkId a =? 0).
Definition BackgroundIsDefault (a : TextAttribute) : bool := is_type IsDefault (_background a).

Definition IsAnyGridLineEnabled (a : TextAttribute) : bool :=
  IsFlagSet (_attrs a)
    (Z.lor TopGridline (Z.lor LeftGridline (Z.lor RightGridline BottomGridline))).

Definition HasAnyVisualAttributes (a : TextAttribute) : bool :=
  negb (_attrs a =? Normal) || negb (_hyperlinkId a =? 0).

Definition HasIdenticalVisualRepresentationForBlankSpace (a other : TextAttribute)
    (inverted : bool) : bool :=
  let checkForeground := negb (eqb inverted (IsReverseVideo a)) in
  negb (IsAnyGridLineEnabled a)
  && negb (IsFlagSet (_attrs a) (Z.lor CrossedOut (Z.lor DoublyUnderlined Underlined)))
  && negb (IsHyperlink a)
  && (_attrs a =? _attrs other)
  && ((checkForeground && bool_decide (_foreground a = _foreground other))
      || (negb checkForeground && bool_decide (_background a = _background other)))
  && eqb (IsHyperlink a) (IsHyperlink other).

(** ** Legacy attributes

    The file-scope variables and the static members the translation uses.
    [gsl::at] checks its index; every index here is below 16, the size of the
    maps ([Statics_wf]). *)
Record Statics := mkStatics {
  s_legacyDefaultForeground : Z;
  s_legacyDefaultBackground : Z;
  s_ansiDefaultForeground : Z;
  s_ansiDefaultBackground : Z;
  s_legacyForegroundColorMap : list TextColor;
  s_legacyBackgroundColorMap : list TextColor
}.

Definition s_initLegacyColorMap (defaultIndex : Z) : list TextColor :=
  map (fun i : nat =>
         if Z.of_nat i =? defaultIndex then TextColor_default
         else TextColor_index (TransposeLegacyIndex (Z.of_nat i)) true)
      (seq 0 16).

Definition Statics_init : Statics :=
  mkStatics 7 0 7 0 (s_initLegacyColorMap 7) (s_initLegacyColorMap 0).

Definition map_set (m : list TextColor) (i : Z) (c : TextColor) : list TextColor :=
  <[Z.to_nat i := c]> m.

Definition SetLegacyDefaultAttributes (defaultAttributes : Z) (st : Statics) : Statics :=
  let fgMap := map_set (s_legacyForegroundColorMap st) (s_legacyDefaultForeground st)
                 (TextColor_index (s_ansiDefaultForeground st) true) in
  let bgMap := map_set (s_legacyBackgroundColorMap st) (s_legacyDefaultBackground st)
                 (TextColor_index (s_ansiDefaultBackground st) true) in
  let legacyFg := u8 (Z.land defaultAttributes FG_ATTRS) in
  let legacyBg := u8 (Z.shiftr (Z.land defaultAttributes BG_ATTRS) 4) in
  mkStatics legacyFg legacyBg (TransposeLegacyIndex legacyFg) (TransposeLegacyIndex legacyBg)
    (map_set fgMap legacyFg TextColor_default) (map_set bgMap legacyBg TextColor_default).

Definition map_at (m : list TextColor) (i : Z) : TextColor :=
  default TextColor_default (m !! Z.to_nat i).

Definition TextAttribute_legacy (st : Statics) (wLegacyAttr : Z) : TextAttribute :=
  mkTextAttribute (Z.land wLegacyAttr USED_META_ATTRS) 0
    (map_at (s_legacyForegroundColorMap st) (Z.land wLegacyAttr FG_ATTRS))
    (map_at (s_legacyBackgroundColorMap st) (Z.shiftr (Z.land wLegacyAttr BG_ATTRS) 4)).

Definition GetLegacyAttributes (st : Statics) (a : TextAttribute) : Z :=
  let fgIndex := GetLegacyIndex (_foreground a) (s_legacyDefaultForeground st) in
  let bgIndex := GetLegacyIndex (_background a) (s_legacyDefaultBackground st) in
  let metaAttrs := Z.land (_attrs a) USED_META_ATTRS in
  let brighten := IsIntense a && CanBeBrightened (_foreground a) in
  u16 (Z.lor (Z.lor (Z.lor fgIndex (Z.shiftl bgIndex 4)) metaAttrs)
             (if brighten then FOREGROUND_INTENSITY else 0)).

Definition StripErroneousVT16VersionsOfLegacyDefaults (st : Statics) (attribute : TextAttribute)
    : TextAttribute :=
  let fg := _foreground attribute in
  let bg := _background attribute in
  let copy := attribute in
  let copy :=
    if is_type IsIndex16 fg
       && eqb (IsIntense attribute) (IsFlagSet (s_ansiDefaultForeground st) FOREGROUND_INTENSITY)
       && (GetIndex fg =? Z.ldiff (s_ansiDefaultForeground st) FOREGROUND_INTENSITY)
    then SetDefaultForeground copy else copy in
  if is_type IsIndex16 bg && (GetIndex bg =? s_ansiDefaultBackground st)
  then SetDefaultBackground copy else copy.

(** ** Laws of the flags *)

Lemma has_update_same f b a : f <> 0 -> has_attr f (update_attr f b a) = b.
Proof.
  intros Hf. unfold has_attr, update_attr, IsFlagSet, UpdateFlag; cbn [_attrs set_attrs].
  destruct b.
  - rewrite Z.land_lor_distr_l, Z.land_diag, negb_true_iff, Z.eqb_neq.
    rewrite Z.lor_eq_0_iff. tauto.
  - rewrite Z.ldiff_land, <- Z.land_assoc, (Z.land_comm (Z.lnot f)), Z.land_lnot_diag.
    by rewrite Z.land_0_r.
Qed.

Lemma has_update_other f g b a :
  Z.land f g = 0 -> has_attr g (update_attr f b a) = has_attr g a.
Proof.
  intros Hfg. unfold has_attr, update_attr, IsFlagSet, UpdateFlag; cbn [_attrs set_attrs].
  do 2 f_equal. destruct b.
  - by rewrite Z.land_lor_distr_l, Hfg, Z.lor_0_r.
  - rewrite Z.ldiff_land, <- Z.land_assoc. f_equal. rewrite Z.land_comm, <- Z.ldiff_land.
    apply Z.bits_inj'. intros i Hi. rewrite Z.ldiff_spec.
    assert (Hi' : Z.testbit (Z.land f g) i = false) by (rewrite Hfg; apply Z.testbit_0_l).
    rewrite Z.land_spec in Hi'. by destruct (Z.testbit f i), (Z.testbit g i).
Qed.

Lemma IsFlagSet_pow2 x k : 0 <= k -> IsFlagSet x (2 ^ k) = Z.testbit x k.
Proof. apply land_pow2_test. Qed.

(** ** The legacy tables *)

(** Each map is the translation of the legacy order to the ANSI order with the
    entry of the current default replaced by the default colour. *)
Definition Statics_wf (st : Statics) : Prop :=
  0 <= s_legacyDefaultForeground st < 16 /\
  0 <= s_legacyDefaultBackground st < 16 /\
  s_ansiDefaultForeground st = TransposeLegacyIndex (s_legacyDefaultForeground st) /\
  s_ansiDefaultBackground st = TransposeLegacyIndex (s_legacyDefaultBackground st) /\
  s_legacyForegroundColorMap st = s_initLegacyColorMap (s_legacyDefaultForeground st) /\
  s_legacyBackgroundColorMap st = s_initLegacyColorMap (s_legacyDefaultBackground st).

Lemma Statics_init_wf : Statics_wf Statics_init.
Proof. unfold Statics_wf; cbn. repeat split; reflexivity || lia. Qed.

(** The default moves from the entry [d] to the entry [d']. *)
Definition move_default (d d' : Z) : list TextColor :=
  map_set (map_set (s_initLegacyColorMap d) d (TextColor_index (TransposeLegacyIndex d) true))
    d' TextColor_default.

Lemma legacy_map_moves d d' :
  0 <= d < 16 -> 0 <= d' < 16 -> move_default d d' = s_initLegacyColorMap d'.
Proof.
  intros Hd Hd'. revert d Hd.
  assert (Hall : forall d, 0 <= d < 16 ->
    Forall (fun k => move_default d (Z.of_nat k) = s_initLegacyColorMap (Z.of_nat k)) (seq 0 16)).
  { apply (below_forall 16 (fun d =>
      Forall (fun k => move_default d (Z.of_nat k) = s_initLegacyColorMap (Z.of_nat k)) (seq 0 16))).
    by vm_compute. }
  intros d Hd. specialize (Hall d Hd). rewrite Forall_forall in Hall.
  specialize (Hall (Z.to_nat d')). rewrite Z2Nat.id in Hall by lia.
  apply Hall, in_seq. lia.
Qed.

Lemma legacy_map_at d i :
  0 <= i < 16 ->
  map_at (s_initLegacyColorMap d) i =
  if i =? d then TextColor_default else TextColor_index (TransposeLegacyIndex i) true.
Proof.
  intros Hi. unfold map_at, s_initLegacyColorMap.
  rewrite list_lookup_fmap, lookup_seq_lt by lia. cbn. by rewrite Z2Nat.id by lia.
Qed.

Lemma land_FG_range w : 0 <= Z.land w FG_ATTRS < 16.
Proof.
  change FG_ATTRS with (Z.ones 4). rewrite Z.land_ones by lia. apply Z.mod_pos_bound. lia.
Qed.

Lemma shiftr_BG w : Z.shiftr (Z.land w BG_ATTRS) 4 = Z.shiftr w 4 mod 16.
Proof.
  rewrite Z.shiftr_land. change (Z.shiftr BG_ATTRS 4) with (Z.ones 4). by rewrite Z.land_ones by lia.
Qed.

Lemma land_BG_range w : 0 <= Z.shiftr (Z.land w BG_ATTRS) 4 < 16.
Proof. rewrite shiftr_BG. apply Z.mod_pos_bound. lia. Qed.

Lemma SetLegacyDefaultAttributes_wf w st :
  Statics_wf st -> Statics_wf (SetLegacyDefaultAttributes w st).
Proof.
  intros (Hf & Hb & Ef & Eb & Mf & Mb). unfold Statics_wf, SetLegacyDefaultAttributes; cbn -[map_set].
  pose proof (land_FG_range w). pose proof (land_BG_range w).
  rewrite !wrapu_small by (eval_ground; lia). rewrite Ef, Eb, Mf, Mb.
  fold (move_default (s_legacyDefaultForeground st) (Z.land w FG_ATTRS)).
  fold (move_default (s_legacyDefaultBackground st) (Z.shiftr (Z.land w BG_ATTRS) 4)).
  rewrite !legacy_map_moves by done. repeat split; lia || reflexivity.
Qed.

(** The statics after a history of calls that set the defaults. *)
Definition statics_after (history : list Z) : Statics :=
  foldl (fun st w => SetLegacyDefaultAttributes w st) Statics_init history.

Lemma statics_after_wf history : Statics_wf (statics_after history).
Proof.
  unfold statics_after. generalize Statics_init_wf. generalize Statics_init.
  induction history as [|w history IH]; intros st Hst; [done|].
  apply IH, SetLegacyDefaultAttributes_wf, Hst.
Qed.

Lemma GetLegacyIndex_map d i :
  0 <= i < 16 -> GetLegacyIndex (map_at (s_initLegacyColorMap d) i) d = i.
Proof.
  intros Hi. rewrite legacy_map_at by done. destruct (Z.eqb_spec i d) as [->|]; [done|].
  unfold GetLegacyIndex; cbn. rewrite Index256ToIndex16_legacy.
  - by apply TransposeLegacyIndex_involutive.
  - by apply TransposeLegacyIndex_range.
Qed.

Lemma land_wrapu w a k : 0 <= w -> Z.land k (Z.ones w) = k -> wrapu w (Z.land a k) = Z.land a k.
Proof. intros Hw Hk. unfold wrapu. by rewrite <- Z.land_ones, <- Z.land_assoc, Hk by done. Qed.

(** C35. A legacy attribute comes back unchanged from its translation to a
    [TextAttribute], but for the bits the class does not keep: those that mark a
    lead and a trail byte, and bit 13.  This holds after any history of changes
    of the default attributes. *)
Theorem legacy_attributes_roundtrip (history : list Z) (w : Z) :
  let st := statics_after history in
  GetLegacyAttributes st (TextAttribute_legacy st w) =
  Z.land w (Z.lor FG_ATTRS (Z.lor BG_ATTRS USED_META_ATTRS)).
Proof.
  intros st. destruct (statics_after_wf history) as (Hf & Hb & Ef & Eb & Mf & Mb).
  fold st in Hf, Hb, Ef, Eb, Mf, Mb. unfold GetLegacyAttributes, TextAttribute_legacy.
  cbn [_foreground _background _attrs]. rewrite Mf, Mb.
  rewrite !GetLegacyIndex_map by auto using land_FG_range, land_BG_range.
  unfold IsIntense, has_attr, IsFlagSet; cbn [_attrs]. rewrite <- !Z.land_assoc.
  change (Z.land USED_META_ATTRS Intense) with 0. rewrite Z.land_0_r. cbn [negb andb Z.eqb].
  rewrite Z.lor_0_r, Z.land_diag, <- Z.ldiff_ones_r, Z.ldiff_land, <- Z.land_assoc by lia.
  change (Z.land BG_ATTRS (Z.lnot (Z.ones 4))) with BG_ATTRS.
  rewrite <- !Z.land_lor_distr_r, Z.lor_assoc. by apply land_wrapu.
Qed.

(** ** The quirk *)

Definition intensity_of (d : Z) : Z :=
  if IsFlagSet (TransposeLegacyIndex d) FOREGROUND_INTENSITY then FOREGROUND_INTENSITY else 0.

Lemma dark_index_of_default d :
  0 <= d < 16 ->
  Z.lor (at_ Index256ToIndex16 (Z.ldiff (TransposeLegacyIndex d) FOREGROUND_INTENSITY))
    (intensity_of d) = Z.lor d (intensity_of d).
Proof.
  apply (below_forall 16 (fun d =>
    Z.lor (at_ Index256ToIndex16 (Z.ldiff (TransposeLegacyIndex d) FOREGROUND_INTENSITY))
      (intensity_of d) = Z.lor d (intensity_of d))). reflexivity.
Qed.

Lemma lor_swap_last a b c d : Z.lor (Z.lor (Z.lor a b) c) d = Z.lor (Z.lor a d) (Z.lor b c).
Proof. rewrite <- !Z.lor_assoc. f_equal. rewrite Z.lor_assoc. apply Z.lor_comm. Qed.

(** The foreground part of the legacy attribute, with its intensity. *)
Definition legacy_foreground (st : Statics) (a : TextAttribute) : Z :=
  Z.lor (GetLegacyIndex (_foreground a) (s_legacyDefaultForeground st))
    (if IsIntense a && CanBeBrightened (_foreground a) then FOREGROUND_INTENSITY else 0).

Lemma GetLegacyAttributes_parts st a :
  GetLegacyAttributes st a =
  u16 (Z.lor (legacy_foreground st a)
         (Z.lor (Z.shiftl (GetLegacyIndex (_background a) (s_legacyDefaultBackground st)) 4)
            (Z.land (_attrs a) USED_META_ATTRS))).
Proof. unfold GetLegacyAttributes, legacy_foreground. by rewrite lor_swap_last. Qed.

Lemma strip_foreground st a :
  Statics_wf st -> is_type IsIndex16 (_foreground a) = true ->
  IsIntense a = IsFlagSet (s_ansiDefaultForeground st) FOREGROUND_INTENSITY ->
  GetIndex (_foreground a) = Z.ldiff (s_ansiDefaultForeground st) FOREGROUND_INTENSITY ->
  legacy_foreground st (SetDefaultForeground a) = legacy_foreground st a.
Proof.
  intros (Hf & _ & Ef & _) H16 Hint Hidx. pose proof (dark_index_of_default _ Hf) as Hd.
  unfold legacy_foreground, CanBeBrightened, GetLegacyIndex. rewrite H16, Hidx.
  change (IsIntense (SetDefaultForeground a)) with (IsIntense a).
  cbn [SetDefaultForeground SetForeground _foreground orb].
  replace (is_type IsDefault (_foreground a)) with false
    by (unfold is_type in *; apply bool_decide_eq_true in H16; by rewrite H16).
  rewrite Hint, Ef, !andb_true_r. symmetry. exact Hd.
Qed.

Lemma strip_background st bg :
  Statics_wf st -> is_type IsIndex16 bg = true -> GetIndex bg = s_ansiDefaultBackground st ->
  GetLegacyIndex bg (s_legacyDefaultBackground st) = s_legacyDefaultBackground st.
Proof.
  intros (_ & Hb & _ & Eb & _) H16 Hidx. unfold GetLegacyIndex. rewrite H16, Hidx, Eb.
  case_if; [done|]. cbn [orb]. rewrite Index256ToIndex16_legacy.
  - by apply TransposeLegacyIndex_involutive.
  - by apply TransposeLegacyIndex_range.
Qed.

(** The quirk that turns palette colours into defaults never changes the
    legacy attribute of the text, after any history of changes of the default
    attributes. *)
Theorem quirk_keeps_legacy_attributes (history : list Z) (a : TextAttribute) :
  let st := statics_after history in
  GetLegacyAttributes st (StripErroneousVT16VersionsOfLegacyDefaults st a) =
  GetLegacyAttributes st a.
Proof.
  intros st. pose proof (statics_after_wf history) as Hst. fold st in Hst.
  rewrite !GetLegacyAttributes_parts. unfold StripErroneousVT16VersionsOfLegacyDefaults.
  f_equal. f_equal.
  - transitivity (legacy_foreground st
      (if is_type IsIndex16 (_foreground a)
          && eqb (IsIntense a) (IsFlagSet (s_ansiDefaultForeground st) FOREGROUND_INTENSITY)
          && (GetIndex (_foreground a) =? Z.ldiff (s_ansiDefaultForeground st) FOREGROUND_INTENSITY)
       then SetDefaultForeground a else a)); [by case_if|].
    case_if; [|done]. bool_prop. apply strip_foreground; auto using eqb_prop.
  - f_equal; [|by repeat case_if]. f_equal.
    destruct (is_type IsIndex16 (_background a) && _) eqn:E; [|by case_if].
    bool_prop. symmetry. etrans; [by apply strip_background|]. by case_if.
Qed.

(** SGR 37 on the initial defaults is turned into the default foreground. *)
Example quirk_white_on_black :
  StripErroneousVT16VersionsOfLegacyDefaults Statics_init
    (SetIndexedForeground 7 (SetIndexedBackground 0 TextAttribute_default)) =
  TextAttribute_default.
Proof. reflexivity. Qed.

(** ** Blank cells *)

(** [HasIdenticalVisualRepresentationForBlankSpace] does not depend on the order
    of the two attributes, although the code asks most of its questions of the
    first. *)
Lemma blank_space_sym a b inv :
  HasIdenticalVisualRepresentationForBlankSpace a b inv = true ->
  HasIdenticalVisualRepresentationForBlankSpace b a inv = true.
Proof.
  unfold HasIdenticalVisualRepresentationForBlankSpace, IsAnyGridLineEnabled, IsReverseVideo, has_attr.
  intros H. rewrite !andb_true_iff, orb_true_iff, !andb_true_iff, !bool_decide_eq_true in H.
  destruct H as [[[[[H1 H2] H3] H4] H5] H6]. apply Z.eqb_eq in H4. apply eqb_prop in H6.
  rewrite <- H4, <- H6, H1, H2, H3, Z.eqb_refl, eqb_reflx. rewrite andb_true_r. cbn [andb].
  rewrite orb_true_iff, !andb_true_iff, !bool_decide_eq_true. naive_solver.
Qed.
