(* ===== verification/SgrStack.v ===== *)
(** * The stack of saved renditions

    Models [src/src/types/sgrStack.cpp] and [types/inc/sgrStack.hpp], the ring
    stack behind XTPUSHSGR and XTPOPSGR, with the bit set [til::enumset] it keeps
    the saved parts in.

    The abstract specification is a stack that keeps the last ten pushes.  The
    refinement theorem runs any sequence of pushes and pops on both and finds the
    same attributes returned; a second theorem says which parts a pop restores. *)

From S2P Require Import Prelude Effects EnumSet DispatchTypes TextColor TextAttribute.

Local Open Scope Z_scope.

(** ** [SgrSaveRestoreStackOptions] *)

Module Opt.
Definition All : Z := 0.
Definition Intense : Z := 1.
Definition Faintness : Z := 2.
Definition Italics : Z := 3.
Definition Underline : Z := 4.
Definition Blink : Z := 5.
Definition Negative : Z := 7.
Definition Invisible : Z := 8.
Definition CrossedOut : Z := 9.
Definition DoublyUnderlined : Z := 21.
Definition SaveForegroundColor : Z := 30.
Definition SaveBackgroundColor : Z := 31.
Definition Max : Z := SaveBackgroundColor.
End Opt.

(** The options are kept in a [til::enumset] at the positions of their values. *)
Abbreviation AttrBitset := Z (only parsing).

#[local] Instance option_position : EnumPos Z := fun z => z.

(** ** The stack *)

Record SavedSgrAttributes := mkSaved {
  TextAttributes : TextAttribute;
  ValidParts : AttrBitset
}.

Definition c_MaxStoredSgrPushes : Z := 10.

Record SgrStack := mkSgrStack {
  _nextPushIndex : Z;
  _numSavedAttrs : Z;
  _storedSgrAttributes : list SavedSgrAttributes
}.

Definition SgrStack_new : SgrStack :=
  mkSgrStack 0 0 (repeat (mkSaved TextAttribute_default 0) (Z.to_nat c_MaxStoredSgrPushes)).

(** The options that are set, one at a time. *)
Fixpoint valid_parts_loop (options : VTParameters) (n i : nat) (validParts : AttrBitset) : AttrBitset :=
  match n with
  | O => validParts
  | S n =>
      let option_ := value_or (params_at options i) 0 in
      valid_parts_loop options n (S i)
        (if (Opt.All <? option_) && (option_ <=? Opt.Max)
         then enumset_set validParts [option_] else validParts)
  end.

Definition valid_parts (options : VTParameters) : AttrBitset :=
  match options with
  | [] => enumset_set 0 [Opt.All]
  | _ => valid_parts_loop options (Z.to_nat (params_size options)) 0 0
  end.

Definition size (st : SgrStack) : Z := Z.of_nat (length (_storedSgrAttributes st)).

(** [None]: [std::array::at] throws out of a [noexcept] function. *)
Definition Push (currentAttributes : TextAttribute) (options : VTParameters) (st : SgrStack)
    : option SgrStack :=
  let validParts := valid_parts options in
  let num := if _numSavedAttrs st <? size st then _numSavedAttrs st + 1 else _numSavedAttrs st in
  if (0 <=? _nextPushIndex st) && (_nextPushIndex st <? size st) then
    Some (mkSgrStack (Z.rem (_nextPushIndex st + 1) (size st)) num
            (<[Z.to_nat (_nextPushIndex st) := mkSaved currentAttributes validParts]>
               (_storedSgrAttributes st)))
  else None.

(** [None]: [FAIL_FAST_IF] ends the process. *)
Definition _CombineWithCurrentAttributes (currentAttributes savedAttribute : TextAttribute)
    (validParts : AttrBitset) : option TextAttribute :=
  if enumset_test validParts Opt.All then None
  else
    let result := currentAttributes in
    let result := if enumset_test validParts Opt.Intense
      then SetIntense (IsIntense savedAttribute) result else result in
    let result := if enumset_test validParts Opt.Faintness
      then SetFaint (IsFaint savedAttribute) result else result in
    let result := if enumset_test validParts Opt.Italics
      then SetItalic (IsItalic savedAttribute) result else result in
    let result := if enumset_test validParts Opt.Underline
      then SetUnderlined (IsUnderlined savedAttribute) result else result in
    let result := if enumset_test validParts Opt.Blink
      then SetBlinking (IsBlinking savedAttribute) result else result in
    let result := if enumset_test validParts Opt.Negative
      then SetReverseVideo (IsReverseVideo savedAttribute) result else result in
    let result := if enumset_test validParts Opt.Invisible
      then SetInvisible (IsInvisible savedAttribute) result else result in
    let result := if enumset_test validParts Opt.CrossedOut
      then SetCrossedOut (IsCrossedOut savedAttribute) result else result in
    let result := if enumset_test validParts Opt.DoublyUnderlined
      then SetDoublyUnderlined (IsDoublyUnderlined savedAttribute) result else result in
    let result := if enumset_test validParts Opt.SaveForegroundColor
      then SetForeground (_foreground savedAttribute) result else result in
    let result := if enumset_test validParts Opt.SaveBackgroundColor
      then SetBackground (_background savedAttribute) result else result in
    Some result.

Definition Pop (currentAttributes : TextAttribute) (st : SgrStack)
    : option (SgrStack * TextAttribute) :=
  if 0 <? _numSavedAttrs st then
    let num := _numSavedAttrs st - 1 in
    let next := if _nextPushIndex st =? 0 then size st - 1 else _nextPushIndex st - 1 in
    match (if 0 <=? next then _storedSgrAttributes st !! Z.to_nat next else None) with
    | None => None
    | Some restoreMe =>
        let st' := mkSgrStack next num (_storedSgrAttributes st) in
        if enumset_test (ValidParts restoreMe) Opt.All then Some (st', TextAttributes restoreMe)
        else
          match _CombineWithCurrentAttributes currentAttributes (TextAttributes restoreMe)
                  (ValidParts restoreMe) with
          | Some result => Some (st', result)
          | None => None
          end
    end
  else Some (st, currentAttributes).

(** ** The saved parts *)

Lemma test_set_option data p q :
  0 <= p < 64 -> 0 <= q < 64 ->
  enumset_test (enumset_set data [p]) q = enumset_test data q || (p =? q).
Proof.
  intros Hp Hq. rewrite enumset_test_set by (done || by constructor; [|constructor]).
  cbn. by rewrite orb_false_r.
Qed.

(** Whether a list of parameters names the option [o]. *)
Definition names (options : VTParameters) (o : Z) : bool := existsb (fun p => p =? o) options.

Lemma valid_parts_loop_test options o n i data :
  (i + n)%nat = length options -> 0 <= o <= Opt.Max ->
  enumset_test (valid_parts_loop options n i data) o =
  enumset_test data o || ((0 <? o) && names (drop i options) o).
Proof.
  unfold Opt.Max, Opt.SaveBackgroundColor. intros Hn Ho. revert i data Hn.
  induction n as [|n IH]; intros i data Hn; cbn [valid_parts_loop].
  { rewrite drop_ge by lia. cbn. by rewrite andb_false_r, orb_false_r. }
  rewrite IH by lia. destruct (lookup_lt_is_Some_2 options i ltac:(lia)) as [p Hp].
  rewrite (drop_S _ _ _ Hp). unfold params_at. rewrite Hp. cbn [from_option id names existsb].
  fold (names (drop (S i) options) o).
  assert (Hv : (Opt.All <? value_or p 0) = (0 <? p) /\ (0 < p -> value_or p 0 = p)).
  { unfold value_or, Opt.All. destruct (Z.ltb_spec p 0); split; lia. }
  destruct Hv as [-> Hv]. destruct (Z.ltb_spec 0 p) as [Hpos|]; cbn [andb].
  - rewrite Hv by done. destruct (Z.leb_spec p Opt.Max) as [Hm|Hm];
      unfold Opt.Max, Opt.SaveBackgroundColor in Hm.
    + rewrite test_set_option by lia. destruct (Z.eqb_spec p o) as [->|]; cbn;
        [|by rewrite orb_false_r]. rewrite !orb_true_r. cbn.
      destruct (Z.ltb_spec 0 o); [by rewrite orb_true_r|lia].
    + destruct (Z.eqb_spec p o); [lia|]. done.
  - destruct (Z.eqb_spec p o) as [->|]; cbn [orb]; [|done].
    destruct (Z.ltb_spec 0 o); [lia|]. by rewrite !andb_false_l.
Qed.

Lemma valid_parts_test options o :
  0 <= o <= Opt.Max ->
  enumset_test (valid_parts options) o =
  match options with [] => o =? 0 | _ => (0 <? o) && names options o end.
Proof.
  intros Ho. destruct options as [|p options].
  - cbn [valid_parts]. unfold Opt.Max, Opt.SaveBackgroundColor in Ho.
    rewrite test_set_option by (unfold Opt.All; lia).
    unfold enumset_test, Opt.All. rewrite Z.land_0_l. by destruct o.
  - cbn [valid_parts]. rewrite valid_parts_loop_test; [|unfold params_size; cbn; lia|done].
    unfold enumset_test at 1. rewrite Z.land_0_l. by rewrite drop_0.
Qed.

(** ** What is restored *)

(** The options that stand for a flag. *)
Definition sgr_flags : list (Z * Z) :=
  [(Opt.Intense, Intense); (Opt.Faintness, Faint); (Opt.Italics, Italics);
   (Opt.Underline, Underlined); (Opt.Blink, Blinking); (Opt.Negative, ReverseVideo);
   (Opt.Invisible, Invisible); (Opt.CrossedOut, CrossedOut);
   (Opt.DoublyUnderlined, DoublyUnderlined)].

Definition saved_flags (saved : Z -> bool) : Z :=
  foldl (fun mask '(o, flag) => if saved o then Z.lor mask flag else mask) 0 sgr_flags.

(** The bits of [saved] where [mask] has ones, those of [current] elsewhere. *)
Definition mix (current saved mask : Z) : Z :=
  Z.lor (Z.land saved mask) (Z.ldiff current mask).

(** The attribute with the parts [saved] taken from [b] and the others from [a]. *)
Definition restore (saved : Z -> bool) (a b : TextAttribute) : TextAttribute :=
  mkTextAttribute (mix (_attrs a) (_attrs b) (saved_flags saved)) (_hyperlinkId a)
    (if saved Opt.SaveForegroundColor then _foreground b else _foreground a)
    (if saved Opt.SaveBackgroundColor then _background b else _background a).

Lemma mix_0 c s : mix c s 0 = c.
Proof. unfold mix. by rewrite Z.land_0_r, Z.ldiff_0_r. Qed.


Lemma mix_update c s m k :
  0 <= k -> UpdateFlag (mix c s m) (2 ^ k) (IsFlagSet s (2 ^ k)) = mix c s (Z.lor m (2 ^ k)).
Proof.
  intros Hk. rewrite IsFlagSet_pow2 by done. apply Z.bits_inj'. intros i Hi. unfold mix, UpdateFlag.
  destruct (Z.testbit s k) eqn:E;
    repeat rewrite ?Z.lor_spec, ?Z.ldiff_spec, ?Z.land_spec; rewrite Z.pow2_bits_eqb by lia;
    destruct (Z.eqb_spec k i) as [->|]; rewrite ?E, ?orb_false_r, ?orb_true_r, ?andb_true_r, ?andb_false_r; cbn;
    done.
Qed.

(** One step of [_CombineWithCurrentAttributes]. *)
Definition restore_part (parts : AttrBitset) (b : TextAttribute) (a : TextAttribute)
    (part : Z * Z) : TextAttribute :=
  if enumset_test parts part.1 then update_attr part.2 (has_attr part.2 b) a else a.

Definition is_flag (f : Z) : Prop := exists k, 0 <= k /\ f = 2 ^ k.

Lemma restore_parts parts b l attrs m h fg bg :
  Forall (fun part => is_flag part.2) l ->
  foldl (restore_part parts b) (mkTextAttribute (mix attrs (_attrs b) m) h fg bg) l =
  mkTextAttribute
    (mix attrs (_attrs b)
       (foldl (fun mask '(o, flag) => if enumset_test parts o then Z.lor mask flag else mask) m l))
    h fg bg.
Proof.
  intros Hl. revert m. induction Hl as [|[o f] l (k & Hk & Hf) Hl IH]; intros m; [done|].
  cbn in Hf. subst f.
  cbn [foldl]. rewrite <- IH. f_equal. unfold restore_part; cbn [fst snd].
  destruct (enumset_test parts o); [|done]. unfold update_attr, has_attr, set_attrs; cbn.
  by rewrite mix_update.
Qed.

Lemma Combine_restore a b parts :
  enumset_test parts Opt.All = false ->
  _CombineWithCurrentAttributes a b parts = Some (restore (enumset_test parts) a b).
Proof.
  intros Hall. unfold _CombineWithCurrentAttributes. rewrite Hall.
  pose proof (restore_parts parts b sgr_flags (_attrs a) 0 (_hyperlinkId a) (_foreground a)
                (_background a)) as Hparts.
  rewrite mix_0 in Hparts. set (r := foldl _ _ sgr_flags) in Hparts.
  transitivity (Some
    (let r := if enumset_test parts Opt.SaveForegroundColor
              then SetForeground (_foreground b) r else r in
     if enumset_test parts Opt.SaveBackgroundColor then SetBackground (_background b) r else r)).
  { by destruct a. }
  rewrite Hparts. { unfold restore; cbv zeta. by do 2 case_if. }
  unfold sgr_flags. repeat (apply List.Forall_cons; cbn [snd]); [..|apply List.Forall_nil].
  - by exists 0.
  - by exists 7.
  - by exists 1.
  - by exists 5.
  - by exists 2.
  - by exists 14.
  - by exists 3.
  - by exists 4.
  - by exists 6.
Qed.

(** ** The abstract stack *)

Inductive op :=
| OpPush (currentAttributes : TextAttribute) (options : VTParameters)
| OpPop (currentAttributes : TextAttribute).

(** What a pop of an entry pushed with [options] returns: all of the saved
    attribute if no part was named, and otherwise the named parts of it. *)
Definition popped (current : TextAttribute) (entry : TextAttribute * VTParameters) : TextAttribute :=
  match entry.2 with
  | [] => entry.1
  | options => restore (names options) current entry.1
  end.

(** A push keeps the last ten; a pop of an empty stack returns its argument. *)
Definition spec_step (l : list (TextAttribute * VTParameters)) (o : op)
    : list (TextAttribute * VTParameters) * list TextAttribute :=
  match o with
  | OpPush current options => (take 10 ((current, options) :: l), [])
  | OpPop current =>
      match l with
      | [] => ([], [current])
      | entry :: l => (l, [popped current entry])
      end
  end.

Definition step (st : SgrStack) (o : op) : option (SgrStack * list TextAttribute) :=
  match o with
  | OpPush current options => (fun st => (st, [])) <$> Push current options st
  | OpPop current => (fun '(st, a) => (st, [a])) <$> Pop current st
  end.

Fixpoint run (st : SgrStack) (ops : list op) : option (SgrStack * list TextAttribute) :=
  match ops with
  | [] => Some (st, [])
  | o :: ops =>
      '(st, out) ← step st o; '(st, outs) ← run st ops; Some (st, out ++ outs)
  end.

Fixpoint spec_run (l : list (TextAttribute * VTParameters)) (ops : list op)
    : list (TextAttribute * VTParameters) * list TextAttribute :=
  match ops with
  | [] => (l, [])
  | o :: ops =>
      let '(l, out) := spec_step l o in
      let '(l, outs) := spec_run l ops in (l, out ++ outs)
  end.

(** ** The ring *)

Definition SgrStack_wf (st : SgrStack) : Prop :=
  0 <= _nextPushIndex st < 10 /\ 0 <= _numSavedAttrs st <= 10 /\
  length (_storedSgrAttributes st) = 10%nat.

(** The entry pushed [k] pushes before the last one. *)
Definition slot (st : SgrStack) (k : nat) : SavedSgrAttributes :=
  default (mkSaved TextAttribute_default 0)
    (_storedSgrAttributes st !! Z.to_nat ((_nextPushIndex st - 1 - Z.of_nat k) mod 10)).

Definition contents (st : SgrStack) : list SavedSgrAttributes :=
  map (slot st) (seq 0 (Z.to_nat (_numSavedAttrs st))).

Definition entry_of (entry : TextAttribute * VTParameters) : SavedSgrAttributes :=
  mkSaved entry.1 (valid_parts entry.2).

Lemma size_wf st : SgrStack_wf st -> size st = 10.
Proof. intros (_ & _ & Hl). unfold size. by rewrite Hl. Qed.

Lemma Push_spec a options st :
  SgrStack_wf st ->
  exists st', Push a options st = Some st' /\ SgrStack_wf st' /\
    contents st' = take 10 (entry_of (a, options) :: contents st).
Proof.
  intros Hwf. pose proof (size_wf _ Hwf) as Hs. destruct Hwf as (Hn & Hm & Hl).
  unfold Push. rewrite Hs.
  destruct (Z.leb_spec 0 (_nextPushIndex st)); [|lia].
  destruct (Z.ltb_spec (_nextPushIndex st) 10); [|lia]. cbn [andb].
  rewrite Z.rem_mod_nonneg by lia. eexists; split; [done|]. split.
  { unfold SgrStack_wf; cbn [_nextPushIndex _numSavedAttrs _storedSgrAttributes].
    rewrite length_insert. case_if; bool_prop; Z.to_euclidean_division_equations; lia. }
  unfold contents; cbn [_numSavedAttrs].
  set (n' := Z.to_nat (if _numSavedAttrs st <? 10 then _ else _)).
  assert (Hn' : n' = S (Nat.min 9 (Z.to_nat (_numSavedAttrs st)))).
  { unfold n'. case_if; bool_prop; lia. }
  rewrite Hn', firstn_cons, firstn_map, take_seq. cbn [seq map]. f_equal.
  - unfold slot; cbn [_storedSgrAttributes _nextPushIndex].
    replace (Z.to_nat _) with (Z.to_nat (_nextPushIndex st))
      by (f_equal; Z.to_euclidean_division_equations; lia).
    rewrite list_lookup_insert_eq by lia. done.
  - rewrite <- seq_shift, map_map. apply map_ext_in. intros k Hk. apply in_seq in Hk.
    unfold slot; cbn [_storedSgrAttributes _nextPushIndex].
    rewrite list_lookup_insert_ne by (Z.to_euclidean_division_equations; lia).
    do 3 f_equal. Z.to_euclidean_division_equations; lia.
Qed.

Lemma contents_cons st :
  0 < _numSavedAttrs st ->
  contents st = slot st 0 :: map (fun k => slot st (S k)) (seq 0 (Z.to_nat (_numSavedAttrs st - 1))).
Proof.
  intros Hm. unfold contents.
  replace (Z.to_nat (_numSavedAttrs st)) with (S (Z.to_nat (_numSavedAttrs st - 1))) by lia.
  cbn [seq map]. by rewrite <- seq_shift, map_map.
Qed.

Lemma valid_parts_All options :
  enumset_test (valid_parts options) Opt.All = match options with [] => true | _ => false end.
Proof. rewrite valid_parts_test by (unfold Opt.All, Opt.Max, Opt.SaveBackgroundColor; lia). by destruct options. Qed.

(** The saved parts are the named ones. *)
Lemma restore_names options a b :
  options <> [] ->
  restore (enumset_test (valid_parts options)) a b = restore (names options) a b.
Proof.
  intros Hne. assert (H : forall o, 0 < o <= 31 ->
    enumset_test (valid_parts options) o = names options o).
  { intros o Ho. rewrite valid_parts_test by (unfold Opt.Max, Opt.SaveBackgroundColor; lia).
    destruct options; [done|]. destruct (Z.ltb_spec 0 o); [done|lia]. }
  unfold restore, saved_flags. cbn [foldl sgr_flags].
  by rewrite !H by (vm_compute; intuition discriminate).
Qed.

Lemma Pop_spec a st l :
  SgrStack_wf st -> contents st = map entry_of l ->
  exists st', Pop a st = Some (st', match l with [] => a | entry :: _ => popped a entry end) /\
    SgrStack_wf st' /\ contents st' = map entry_of (tail l).
Proof.
  intros Hwf Hc. pose proof (size_wf _ Hwf) as Hs. pose proof Hwf as (Hn & Hm & Hl).
  unfold Pop. destruct (Z.ltb_spec 0 (_numSavedAttrs st)) as [Hpos|Hz].
  2: { exists st. unfold contents in Hc. replace (_numSavedAttrs st) with 0 in Hc by lia.
       destruct l; [|discriminate]. split; [done|]. split; [done|]. unfold contents.
       by replace (_numSavedAttrs st) with 0 by lia. }
  rewrite contents_cons in Hc by done. destruct l as [|entry l]; [discriminate|].
  cbn [map tail] in *. injection Hc as Hslot Hrest. rewrite Hs.
  set (next := if _nextPushIndex st =? 0 then _ else _).
  assert (Hnext : next = (_nextPushIndex st - 1) mod 10 /\ 0 <= next < 10).
  { unfold next. case_if; bool_prop; Z.to_euclidean_division_equations; lia. }
  destruct Hnext as [Enext Rnext]. destruct (Z.leb_spec 0 next); [|lia].
  assert (Hat : _storedSgrAttributes st !! Z.to_nat next = Some (entry_of entry)).
  { rewrite <- Hslot. unfold slot. replace (_nextPushIndex st - 1 - Z.of_nat 0) with (_nextPushIndex st - 1) by lia.
    rewrite <- Enext. destruct (lookup_lt_is_Some_2 (_storedSgrAttributes st) (Z.to_nat next)) as [x Hx];
      [lia|]. by rewrite Hx. }
  rewrite Hat. cbn [entry_of TextAttributes ValidParts]. exists (mkSgrStack next (_numSavedAttrs st - 1) (_storedSgrAttributes st)).
  split; [|split; [unfold SgrStack_wf; cbn; lia|]].
  - rewrite valid_parts_All. unfold popped. destruct entry.2 as [|p options] eqn:E; [done|].
    rewrite Combine_restore by (by rewrite valid_parts_All). by rewrite restore_names.
  - rewrite <- Hrest. unfold contents; cbn [_numSavedAttrs]. apply map_ext. intros k.
    unfold slot; cbn [_storedSgrAttributes _nextPushIndex]. do 3 f_equal. rewrite Enext.
    Z.to_euclidean_division_equations; lia.
Qed.

Lemma step_refines st l o :
  SgrStack_wf st -> contents st = map entry_of l ->
  exists st', step st o = Some (st', (spec_step l o).2) /\ SgrStack_wf st' /\
    contents st' = map entry_of (spec_step l o).1.
Proof.
  intros Hwf Hc. destruct o as [a options|a]; cbn [step spec_step].
  - destruct (Push_spec a options st Hwf) as (st' & -> & Hwf' & Hc'). exists st'.
    split; [done|]. split; [done|]. rewrite Hc', Hc. cbn [fst].
    by rewrite <- firstn_map.
  - destruct (Pop_spec a st l Hwf Hc) as (st' & -> & Hwf' & Hc'). exists st'.
    by destruct l.
Qed.

Lemma run_refines ops st l :
  SgrStack_wf st -> contents st = map entry_of l ->
  exists st', run st ops = Some (st', (spec_run l ops).2) /\ SgrStack_wf st' /\
    contents st' = map entry_of (spec_run l ops).1.
Proof.
  revert st l; induction ops as [|o ops IH]; intros st l Hwf Hc; [by exists st|].
  destruct (step_refines st l o Hwf Hc) as (st1 & E1 & Hwf1 & Hc1).
  destruct (IH st1 _ Hwf1 Hc1) as (st2 & E2 & Hwf2 & Hc2).
  exists st2. cbn [run spec_run]. rewrite E1. cbn [mbind option_bind]. rewrite E2.
  by destruct (spec_step l o), (spec_run _ ops).
Qed.

Lemma SgrStack_new_wf : SgrStack_wf SgrStack_new.
Proof. unfold SgrStack_wf. repeat split; reflexivity || (cbn; lia). Qed.

(** C28. Any sequence of pushes and pops on the ring stack, from the empty one,
    ends without leaving the array or failing fast, and returns the attributes
    that a stack of the last ten pushes returns: the whole attribute for a push
    that named no part, the named parts for the others, the argument when the
    stack is empty. *)
Theorem sgr_stack_refines (ops : list op) :
  exists st, run SgrStack_new ops = Some (st, (spec_run [] ops).2) /\
    contents st = map entry_of (spec_run [] ops).1.
Proof.
  destruct (run_refines ops SgrStack_new []) as (st & E & _ & Hc);
    [apply SgrStack_new_wf|done|]. by exists st.
Qed.

(** Twelve pushes and twelve pops: the last ten come back, newest first. *)
Example twelve_pushes :
  let attr n := SetIndexedForeground n TextAttribute_default in
  let ops := map (fun n => OpPush (attr (Z.of_nat n)) []) (seq 0 12)
             ++ repeat (OpPop TextAttribute_default) 12 in
  option_map snd (run SgrStack_new ops) =
  Some (map (fun n => attr (11 - Z.of_nat n)) (seq 0 10)
        ++ [TextAttribute_default; TextAttribute_default]).
Proof. vm_compute. reflexivity. Qed.

(** ** Partial pops *)

Lemma saved_flags_bit (saved : Z -> bool) (l : list (Z * Z)) (m k : Z) :
  Z.testbit (foldl (fun mask '(o, flag) => if saved o then Z.lor mask flag else mask) m l) k =
  Z.testbit m k || existsb (fun '(o, flag) => saved o && Z.testbit flag k) l.
Proof.
  revert m; induction l as [|[o f] l IH]; intros m; cbn [foldl existsb]; [by rewrite orb_false_r|].
  rewrite IH. destruct (saved o); cbn [andb]; [|done]. by rewrite Z.lor_spec, orb_assoc.
Qed.

Lemma has_restore f k saved a b :
  f = 2 ^ k -> 0 <= k ->
  has_attr f (restore saved a b) =
  has_attr f (if existsb (fun '(o, flag) => saved o && Z.testbit flag k) sgr_flags then b else a).
Proof.
  intros -> Hk. unfold has_attr. rewrite !IsFlagSet_pow2 by done. unfold restore, mix; cbn [_attrs].
  rewrite Z.lor_spec, Z.land_spec, Z.ldiff_spec. unfold saved_flags.
  rewrite saved_flags_bit, Z.testbit_0_l. cbn [orb].
  destruct (existsb _ sgr_flags); cbn [negb]; by rewrite ?andb_true_r, ?andb_false_r, ?orb_false_r.
Qed.

Ltac restore_flag k :=
  rewrite (has_restore _ k) by (reflexivity || lia);
  cbn -[has_attr names]; rewrite ?andb_false_r, ?andb_true_r, ?orb_false_r; cbn [orb andb];
  reflexivity.

(** The flag an option stands for is restored exactly if it is saved. *)
Lemma restore_flags saved a b o f :
  In (o, f) sgr_flags -> has_attr f (restore saved a b) = has_attr f (if saved o then b else a).
Proof.
  unfold sgr_flags. intros Hin.
  repeat (destruct Hin as [Hin|Hin]; [injection Hin as <- <-|]); [..|destruct Hin].
  - restore_flag 0.
  - restore_flag 7.
  - restore_flag 1.
  - restore_flag 5.
  - restore_flag 2.
  - restore_flag 14.
  - restore_flag 3.
  - restore_flag 4.
  - restore_flag 6.
Qed.

(** The flags no option stands for. *)
Definition other_flags : list Z :=
  [Protected; TopGridline; LeftGridline; RightGridline; BottomGridline].

Lemma restore_other_flags saved a b f :
  In f other_flags -> has_attr f (restore saved a b) = has_attr f a.
Proof.
  unfold other_flags. intros Hin. repeat (destruct Hin as [<-|Hin]); [..|destruct Hin].
  - restore_flag 13.
  - restore_flag 10.
  - restore_flag 11.
  - restore_flag 12.
  - restore_flag 15.
Qed.

Lemma spec_run_app l ops1 ops2 :
  spec_run l (ops1 ++ ops2) =
  let '(l, out1) := spec_run l ops1 in let '(l, out2) := spec_run l ops2 in (l, out1 ++ out2).
Proof.
  revert l; induction ops1 as [|o ops1 IH]; intros l; cbn [spec_run app].
  - by destruct (spec_run l ops2).
  - destruct (spec_step l o) as [l1 out]. rewrite IH. destruct (spec_run l1 ops1) as [l2 out1].
    destruct (spec_run l2 ops2). by rewrite app_assoc.
Qed.

(** After any history, a push that names some parts followed by a pop returns
    an attribute with each named flag and colour of the pushed attribute and every
    other one of the current attribute; the hyperlink and the flags that have no
    option (Protected, the grid lines) always stay those of the current one. *)
Theorem push_pop_parts (ops : list op) (saved current : TextAttribute) (options : VTParameters) :
  options <> [] ->
  exists st outs r,
    run SgrStack_new (ops ++ [OpPush saved options; OpPop current]) = Some (st, outs ++ [r]) /\
    (forall o f, In (o, f) sgr_flags ->
       has_attr f r = has_attr f (if names options o then saved else current)) /\
    _foreground r = _foreground (if names options 30 then saved else current) /\
    _background r = _background (if names options 31 then saved else current) /\
    _hyperlinkId r = _hyperlinkId current /\
    (forall f, In f other_flags -> has_attr f r = has_attr f current).
Proof.
  intros Hne.
  destruct (run_refines (ops ++ [OpPush saved options; OpPop current]) SgrStack_new [])
    as (st & E & _); [apply SgrStack_new_wf|done|].
  rewrite spec_run_app in E. destruct (spec_run [] ops) as [l outs]. cbn in E.
  exists st, outs, (restore (names options) current saved).
  split; [rewrite E; by destruct options|].
  split; [intros; by apply restore_flags|]. cbn [restore _foreground _background _hyperlinkId].
  split; [unfold Opt.SaveForegroundColor; by destruct (names options 30)|].
  split; [unfold Opt.SaveBackgroundColor; by destruct (names options 31)|].
  split; [done|]. intros; by apply restore_other_flags.
Qed.

Lemma push_pop_parts_witness :
  [4] <> [] /\
  exists st outs r,
    run SgrStack_new ([] ++ [OpPush (SetUnderlined true TextAttribute_default) [4];
                             OpPop (SetProtected true TextAttribute_default)]) =
      Some (st, outs ++ [r]) /\
    has_attr Underlined r = true /\ has_attr Protected r = true.
Proof.
  split; [discriminate|].
  destruct (push_pop_parts [] (SetUnderlined true TextAttribute_default)
              (SetProtected true TextAttribute_default) [4] ltac:(discriminate))
    as (st & outs & r & E & Hf & _ & _ & _ & Ho).
  exists st, outs, r. split; [exact E|]. split.
  - rewrite (Hf 4 Underlined) by (cbn; tauto). reflexivity.
  - rewrite Ho by (cbn; tauto). reflexivity.
Defined.
