(* ===== verification/AdaptGraphics.v ===== *)
(** * Graphic renditions

    Models [src/src/terminal/adapter/adaptDispatchGraphics.cpp]: SGR, DECSCA and
    the push and pop of renditions, on the part of the adapter they touch, the
    current attributes of the text buffer and the stack of saved renditions.

    The theorems show that SGR always ends, without reading past its parameters;
    that it is applied option by option, so that a sequence may be split at any
    option boundary; that it never changes the protection of the text or its
    hyperlink; which palette entry each colour option selects; and that a push
    and a pop enclose any sequence of renditions without a trace. *)

From S2P Require Import Prelude Effects DispatchTypes TextColor TextAttribute SgrStack.

Local Open Scope Z_scope.

(** ** [GraphicsOptions] *)

Module GraphicsOptions.
Inductive GraphicsOption :=
| Off
| Intense
| RGBColorOrFaint
| Italics
| Underline
| BlinkOrXterm256Index
| RapidBlink
| Negative
| Invisible
| CrossedOut
| DoublyUnderlined
| NotIntenseOrFaint
| NotItalics
| NoUnderline
| Steady
| Positive
| Visible
| NotCrossedOut
| ForegroundBlack
| ForegroundRed
| ForegroundGreen
| ForegroundYellow
| ForegroundBlue
| ForegroundMagenta
| ForegroundCyan
| ForegroundWhite
| ForegroundExtended
| ForegroundDefault
| BackgroundBlack
| BackgroundRed
| BackgroundGreen
| BackgroundYellow
| BackgroundBlue
| BackgroundMagenta
| BackgroundCyan
| BackgroundWhite
| BackgroundExtended
| BackgroundDefault
| Overline
| NoOverline
| BrightForegroundBlack
| BrightForegroundRed
| BrightForegroundGreen
| BrightForegroundYellow
| BrightForegroundBlue
| BrightForegroundMagenta
| BrightForegroundCyan
| BrightForegroundWhite
| BrightBackgroundBlack
| BrightBackgroundRed
| BrightBackgroundGreen
| BrightBackgroundYellow
| BrightBackgroundBlue
| BrightBackgroundMagenta
| BrightBackgroundCyan
| BrightBackgroundWhite.

(** The value of each enumerator. *)
Definition GraphicsOption_values : list (Z * GraphicsOption) := [
  (0, Off); (1, Intense); (2, RGBColorOrFaint); (3, Italics); (4, Underline);
  (5, BlinkOrXterm256Index); (6, RapidBlink); (7, Negative); (8, Invisible); (9, CrossedOut);
  (21, DoublyUnderlined); (22, NotIntenseOrFaint); (23, NotItalics); (24, NoUnderline);
  (25, Steady); (27, Positive); (28, Visible); (29, NotCrossedOut); (30, ForegroundBlack);
  (31, ForegroundRed); (32, ForegroundGreen); (33, ForegroundYellow); (34, ForegroundBlue);
  (35, ForegroundMagenta); (36, ForegroundCyan); (37, ForegroundWhite);
  (38, ForegroundExtended); (39, ForegroundDefault); (40, BackgroundBlack);
  (41, BackgroundRed); (42, BackgroundGreen); (43, BackgroundYellow); (44, BackgroundBlue);
  (45, BackgroundMagenta); (46, BackgroundCyan); (47, BackgroundWhite);
  (48, BackgroundExtended); (49, BackgroundDefault); (53, Overline); (55, NoOverline);
  (90, BrightForegroundBlack); (91, BrightForegroundRed); (92, BrightForegroundGreen);
  (93, BrightForegroundYellow); (94, BrightForegroundBlue); (95, BrightForegroundMagenta);
  (96, BrightForegroundCyan); (97, BrightForegroundWhite); (100, BrightBackgroundBlack);
  (101, BrightBackgroundRed); (102, BrightBackgroundGreen); (103, BrightBackgroundYellow);
  (104, BrightBackgroundBlue); (105, BrightBackgroundMagenta); (106, BrightBackgroundCyan);
  (107, BrightBackgroundWhite)
].

(** A value that is no enumerator takes the [default] of a [switch]. *)
Definition of_value (v : VTInt) : option GraphicsOption :=
  option_map snd (find (fun e => e.1 =? v) GraphicsOption_values).
End GraphicsOptions.

(** ** Applying options *)

(** The attribute, and the number of options consumed after the 38 or 48. *)
Definition _SetRgbColorsHelper (options : VTParameters) (attr : TextAttribute) (isForeground : bool)
    : TextAttribute * nat :=
  match GraphicsOptions.of_value (param_enum (params_at options 0)) with
  | Some GraphicsOptions.RGBColorOrFaint =>
      let red := value_or (params_at options 1) 0 in
      let green := value_or (params_at options 2) 0 in
      let blue := value_or (params_at options 3) 0 in
      (if (red <=? 255) && (green <=? 255) && (blue <=? 255)
       then SetColor (RGB red green blue) isForeground attr else attr, 4%nat)
  | Some GraphicsOptions.BlinkOrXterm256Index =>
      let tableIndex := value_or (params_at options 1) 0 in
      (if tableIndex <=? 255 then
         let adjustedIndex := u8 tableIndex in
         if isForeground then SetIndexedForeground256 adjustedIndex attr
         else SetIndexedBackground256 adjustedIndex attr
       else attr, 2%nat)
  | _ => (attr, 1%nat)
  end.

(** [None]: [subspan] past the end of the parameters, which is undefined. *)
Definition apply_extended (options : VTParameters) (optionIndex : nat) (attr : TextAttribute)
    (isForeground : bool) : option (TextAttribute * nat) :=
  match params_subspan options (optionIndex + 1) with
  | None => None
  | Some rest =>
      let '(attr, consumed) := _SetRgbColorsHelper rest attr isForeground in
      Some (attr, (1 + consumed)%nat)
  end.

Definition _ApplyGraphicsOption (options : VTParameters) (optionIndex : nat) (attr : TextAttribute)
    : option (TextAttribute * nat) :=
  match GraphicsOptions.of_value (param_enum (params_at options optionIndex)) with
  | None => Some (attr, 1%nat)
  | Some opt =>
      match opt with
      | GraphicsOptions.Off =>
          Some (SetDefaultRenditionAttributes (SetDefaultBackground (SetDefaultForeground attr)), 1%nat)
      | GraphicsOptions.ForegroundDefault => Some (SetDefaultForeground attr, 1%nat)
      | GraphicsOptions.BackgroundDefault => Some (SetDefaultBackground attr, 1%nat)
      | GraphicsOptions.Intense => Some (SetIntense true attr, 1%nat)
      | GraphicsOptions.RGBColorOrFaint => Some (SetFaint true attr, 1%nat)
      | GraphicsOptions.NotIntenseOrFaint => Some (SetFaint false (SetIntense false attr), 1%nat)
      | GraphicsOptions.Italics => Some (SetItalic true attr, 1%nat)
      | GraphicsOptions.NotItalics => Some (SetItalic false attr, 1%nat)
      | GraphicsOptions.BlinkOrXterm256Index | GraphicsOptions.RapidBlink =>
          Some (SetBlinking true attr, 1%nat)
      | GraphicsOptions.Steady => Some (SetBlinking false attr, 1%nat)
      | GraphicsOptions.Invisible => Some (SetInvisible true attr, 1%nat)
      | GraphicsOptions.Visible => Some (SetInvisible false attr, 1%nat)
      | GraphicsOptions.CrossedOut => Some (SetCrossedOut true attr, 1%nat)
      | GraphicsOptions.NotCrossedOut => Some (SetCrossedOut false attr, 1%nat)
      | GraphicsOptions.Negative => Some (SetReverseVideo true attr, 1%nat)
      | GraphicsOptions.Positive => Some (SetReverseVideo false attr, 1%nat)
      | GraphicsOptions.Underline => Some (SetUnderlined true attr, 1%nat)
      | GraphicsOptions.DoublyUnderlined => Some (SetDoublyUnderlined true attr, 1%nat)
      | GraphicsOptions.NoUnderline =>
          Some (SetDoublyUnderlined false (SetUnderlined false attr), 1%nat)
      | GraphicsOptions.Overline => Some (SetOverlined true attr, 1%nat)
      | GraphicsOptions.NoOverline => Some (SetOverlined false attr, 1%nat)
      | GraphicsOptions.ForegroundBlack => Some (SetIndexedForeground DARK_BLACK attr, 1%nat)
      | GraphicsOptions.ForegroundBlue => Some (SetIndexedForeground DARK_BLUE attr, 1%nat)
      | GraphicsOptions.ForegroundGreen => Some (SetIndexedForeground DARK_GREEN attr, 1%nat)
      | GraphicsOptions.ForegroundCyan => Some (SetIndexedForeground DARK_CYAN attr, 1%nat)
      | GraphicsOptions.ForegroundRed => Some (SetIndexedForeground DARK_RED attr, 1%nat)
      | GraphicsOptions.ForegroundMagenta => Some (SetIndexedForeground DARK_MAGENTA attr, 1%nat)
      | GraphicsOptions.ForegroundYellow => Some (SetIndexedForeground DARK_YELLOW attr, 1%nat)
      | GraphicsOptions.ForegroundWhite => Some (SetIndexedForeground DARK_WHITE attr, 1%nat)
      | GraphicsOptions.BackgroundBlack => Some (SetIndexedBackground DARK_BLACK attr, 1%nat)
      | GraphicsOptions.BackgroundBlue => Some (SetIndexedBackground DARK_BLUE attr, 1%nat)
      | GraphicsOptions.BackgroundGreen => Some (SetIndexedBackground DARK_GREEN attr, 1%nat)
      | GraphicsOptions.BackgroundCyan => Some (SetIndexedBackground DARK_CYAN attr, 1%nat)
      | GraphicsOptions.BackgroundRed => Some (SetIndexedBackground DARK_RED attr, 1%nat)
      | GraphicsOptions.BackgroundMagenta => Some (SetIndexedBackground DARK_MAGENTA attr, 1%nat)
      | GraphicsOptions.BackgroundYellow => Some (SetIndexedBackground DARK_YELLOW attr, 1%nat)
      | GraphicsOptions.BackgroundWhite => Some (SetIndexedBackground DARK_WHITE attr, 1%nat)
      | GraphicsOptions.BrightForegroundBlack =>
          Some (SetIndexedForeground BRIGHT_BLACK attr, 1%nat)
      | GraphicsOptions.BrightForegroundBlue => Some (SetIndexedForeground BRIGHT_BLUE attr, 1%nat)
      | GraphicsOptions.BrightForegroundGreen =>
          Some (SetIndexedForeground BRIGHT_GREEN attr, 1%nat)
      | GraphicsOptions.BrightForegroundCyan => Some (SetIndexedForeground BRIGHT_CYAN attr, 1%nat)
      | GraphicsOptions.BrightForegroundRed => Some (SetIndexedForeground BRIGHT_RED attr, 1%nat)
      | GraphicsOptions.BrightForegroundMagenta =>
          Some (SetIndexedForeground BRIGHT_MAGENTA attr, 1%nat)
      | GraphicsOptions.BrightForegroundYellow =>
          Some (SetIndexedForeground BRIGHT_YELLOW attr, 1%nat)
      | GraphicsOptions.BrightForegroundWhite =>
          Some (SetIndexedForeground BRIGHT_WHITE attr, 1%nat)
      | GraphicsOptions.BrightBackgroundBlack =>
          Some (SetIndexedBackground BRIGHT_BLACK attr, 1%nat)
      | GraphicsOptions.BrightBackgroundBlue => Some (SetIndexedBackground BRIGHT_BLUE attr, 1%nat)
      | GraphicsOptions.BrightBackgroundGreen =>
          Some (SetIndexedBackground BRIGHT_GREEN attr, 1%nat)
      | GraphicsOptions.BrightBackgroundCyan => Some (SetIndexedBackground BRIGHT_CYAN attr, 1%nat)
      | GraphicsOptions.BrightBackgroundRed => Some (SetIndexedBackground BRIGHT_RED attr, 1%nat)
      | GraphicsOptions.BrightBackgroundMagenta =>
          Some (SetIndexedBackground BRIGHT_MAGENTA attr, 1%nat)
      | GraphicsOptions.BrightBackgroundYellow =>
          Some (SetIndexedBackground BRIGHT_YELLOW attr, 1%nat)
      | GraphicsOptions.BrightBackgroundWhite =>
          Some (SetIndexedBackground BRIGHT_WHITE attr, 1%nat)
      | GraphicsOptions.ForegroundExtended => apply_extended options optionIndex attr true
      | GraphicsOptions.BackgroundExtended => apply_extended options optionIndex attr false
      end
  end.

(** The loop, with fuel: every option consumes at least one parameter, so as much
    fuel as there are parameters is enough ([sgr_total]). *)
Fixpoint _ApplyGraphicsOptions_loop (fuel : nat) (options : VTParameters) (i : nat)
    (attr : TextAttribute) : Result TextAttribute :=
  if params_size options <=? Z.of_nat i then Ok attr
  else
    match fuel with
    | O => OutOfFuel
    | S fuel =>
        match _ApplyGraphicsOption options i attr with
        | None => Undefined
        | Some (attr, consumed) => _ApplyGraphicsOptions_loop fuel options (i + consumed) attr
        end
    end.

Definition _ApplyGraphicsOptions (options : VTParameters) (attr : TextAttribute)
    : Result TextAttribute :=
  _ApplyGraphicsOptions_loop (Z.to_nat (params_size options)) options 0 attr.

(** ** The operations of the adapter *)

Record Graphics := mkGraphics {
  _currentAttributes : TextAttribute;
  _sgrStack : SgrStack
}.

Definition SetCurrentAttributes (attr : TextAttribute) (g : Graphics) : Graphics :=
  mkGraphics attr (_sgrStack g).

Definition SetGraphicsRendition (options : VTParameters) : M Graphics bool := fun g =>
  match _ApplyGraphicsOptions options (_currentAttributes g) with
  | Ok attr => (SetCurrentAttributes attr g, Ok true)
  | Throw e => (g, Throw e)
  | Undefined => (g, Undefined)
  | OutOfFuel => (g, OutOfFuel)
  end.

(** [LogicalAttributeOptions]: 0 (default), 1 (protected), 2 (unprotected). *)
Fixpoint protection_loop (options : VTParameters) (n i : nat) (attr : TextAttribute) : TextAttribute :=
  match n with
  | O => attr
  | S n =>
      let opt := param_enum (params_at options i) in
      protection_loop options n (S i)
        (if opt =? 0 then SetProtected false attr
         else if opt =? 1 then SetProtected true attr
         else if opt =? 2 then SetProtected false attr
         else attr)
  end.

Definition SetCharacterProtectionAttribute (options : VTParameters) : M Graphics bool := fun g =>
  let attr := protection_loop options (Z.to_nat (params_size options)) 0 (_currentAttributes g) in
  (SetCurrentAttributes attr g, Ok true).

(** A [noexcept] member of the stack that throws ends the process. *)
Definition PushGraphicsRendition (options : VTParameters) : M Graphics bool := fun g =>
  match Push (_currentAttributes g) options (_sgrStack g) with
  | Some st => (mkGraphics (_currentAttributes g) st, Ok true)
  | None => (g, Undefined)
  end.

Definition PopGraphicsRendition : M Graphics bool := fun g =>
  match Pop (_currentAttributes g) (_sgrStack g) with
  | Some (st, attr) => (mkGraphics attr st, Ok true)
  | None => (g, Undefined)
  end.

(** ** One option *)

Abbreviation opt_at options i := (GraphicsOptions.of_value (param_enum (params_at options i))).

(** The number of parameters the option at the head of [options] takes. *)
Definition option_width (options : VTParameters) : nat :=
  match opt_at options 0 with
  | Some GraphicsOptions.ForegroundExtended | Some GraphicsOptions.BackgroundExtended =>
      match opt_at options 1 with
      | Some GraphicsOptions.RGBColorOrFaint => 5
      | Some GraphicsOptions.BlinkOrXterm256Index => 3
      | _ => 2
      end
  | _ => 1
  end.

Lemma params_at_drop options n i : params_at (drop n options) i = params_at options (n + i).
Proof. unfold params_at. by rewrite lookup_drop. Qed.

Lemma params_subspan_drop options n i :
  (n + i <= length options)%nat ->
  params_subspan (drop n options) i = params_subspan options (n + i).
Proof.
  intros Hl. unfold params_subspan. rewrite length_drop, drop_drop.
  destruct (Nat.leb_spec i (length options - n)); [|lia].
  destruct (Nat.leb_spec (n + i) (length options)); [done|lia].
Qed.

(** An option is read from the parameters at and after its index. *)
Lemma ApplyGraphicsOption_drop options i attr :
  (i < length options)%nat ->
  _ApplyGraphicsOption options i attr = _ApplyGraphicsOption (drop i options) 0 attr.
Proof.
  intros Hi. unfold _ApplyGraphicsOption, apply_extended.
  rewrite params_at_drop, Nat.add_0_r, params_subspan_drop by lia. done.
Qed.

Lemma extended_width options attr fg :
  options <> [] ->
  apply_extended options 0 attr fg =
  Some (let '(a, k) := _SetRgbColorsHelper (drop 1 options) attr fg in (a, S k)).
Proof.
  intros Hne. unfold apply_extended, params_subspan. destruct options as [|p options]; [done|].
  cbn -[_SetRgbColorsHelper]. rewrite drop_0. by destruct (_SetRgbColorsHelper options attr fg).
Qed.

Lemma ApplyGraphicsOption_width options attr :
  options <> [] ->
  exists attr', _ApplyGraphicsOption options 0 attr = Some (attr', option_width options).
Proof.
  intros Hne. unfold _ApplyGraphicsOption, option_width.
  destruct (opt_at options 0) as [opt|]; [|by eexists].
  rewrite !extended_width by done. unfold _SetRgbColorsHelper. rewrite params_at_drop.
  change (1 + 0)%nat with 1%nat. destruct opt; try (by eexists);
    destruct (opt_at options 1) as [[]|]; by eexists.
Qed.

Lemma option_width_pos options : (1 <= option_width options)%nat.
Proof. unfold option_width. destruct (opt_at options 0) as [[]|]; try lia;
  destruct (opt_at options 1) as [[]|]; lia. Qed.

Lemma params_at_app ps rest i : (i < length ps)%nat -> params_at (ps ++ rest) i = params_at ps i.
Proof. intros Hi. unfold params_at. by rewrite lookup_app_l. Qed.

Lemma SetRgbColorsHelper_app ps rest attr fg :
  (_SetRgbColorsHelper ps attr fg).2 = length ps ->
  _SetRgbColorsHelper (ps ++ rest) attr fg = _SetRgbColorsHelper ps attr fg.
Proof.
  intros Hl. unfold _SetRgbColorsHelper in *.
  rewrite !(params_at_app ps rest 0)
    by (destruct (opt_at ps 0) as [[]|]; cbn in Hl; lia).
  destruct (opt_at ps 0) as [[]|]; try done; cbn [snd] in Hl;
    by rewrite !params_at_app by lia.
Qed.

Lemma ApplyGraphicsOption_app ps rest attr :
  option_width ps = length ps ->
  _ApplyGraphicsOption (ps ++ rest) 0 attr = _ApplyGraphicsOption ps 0 attr.
Proof.
  intros Hw. pose proof (option_width_pos ps) as Hpos.
  assert (Hne : ps <> []) by (intros ->; cbn in *; lia).
  assert (Hne' : ps ++ rest <> []) by (by destruct ps).
  destruct (ApplyGraphicsOption_width ps attr Hne) as [attr' E].
  rewrite Hw in E. unfold _ApplyGraphicsOption in *. rewrite params_at_app by lia.
  destruct (opt_at ps 0) as [opt|]; [|done].
  rewrite !extended_width in E by done. rewrite !extended_width by done. rewrite !drop_app_le by lia.
  destruct opt; try done; rewrite SetRgbColorsHelper_app; try done;
    rewrite length_drop; destruct (_SetRgbColorsHelper _ _ _) as [a k];
    injection E as _ E; cbn [snd]; lia.
Qed.

(** ** The loop *)

Lemma loop_total fuel options i attr :
  options <> [] -> (length options - i <= fuel)%nat ->
  exists attr', _ApplyGraphicsOptions_loop fuel options i attr = Ok attr'.
Proof.
  intros Hne. revert i attr; induction fuel as [|fuel IH]; intros i attr Hf;
    cbn [_ApplyGraphicsOptions_loop]; unfold params_size;
    (destruct (Z.leb_spec (Z.of_nat (length options) `max` 1) (Z.of_nat i)); [by eexists|]);
    (assert (1 <= length options)%nat by (destruct options; cbn; [done|lia])); [lia|].
  rewrite ApplyGraphicsOption_drop by lia.
  destruct (ApplyGraphicsOption_width (drop i options) attr) as [attr' E].
  { intros E. apply (f_equal length) in E. rewrite length_drop in E. cbn in E. lia. }
  rewrite E. apply IH. pose proof (option_width_pos (drop i options)). lia.
Qed.

Lemma loop_fuel fuel fuel' options i attr :
  options <> [] -> (length options - i <= fuel)%nat -> (length options - i <= fuel')%nat ->
  _ApplyGraphicsOptions_loop fuel options i attr = _ApplyGraphicsOptions_loop fuel' options i attr.
Proof.
  intros Hne. assert (1 <= length options)%nat by (destruct options; cbn; [done|lia]).
  revert fuel' i attr; induction fuel as [|fuel IH]; intros fuel' i attr Hf Hf';
    destruct fuel' as [|fuel']; cbn [_ApplyGraphicsOptions_loop]; unfold params_size;
    destruct (Z.leb_spec (Z.of_nat (length options) `max` 1) (Z.of_nat i)); try done; try lia.
  rewrite ApplyGraphicsOption_drop by lia.
  destruct (ApplyGraphicsOption_width (drop i options) attr) as [attr' E].
  { intros E. apply (f_equal length) in E. rewrite length_drop in E. cbn in E. lia. }
  rewrite E. pose proof (option_width_pos (drop i options)). apply IH; lia.
Qed.

(** The loop at an index is the loop on the parameters from that index on. *)
Lemma loop_drop fuel options i attr :
  (i < length options)%nat ->
  _ApplyGraphicsOptions_loop fuel options i attr =
  _ApplyGraphicsOptions_loop fuel (drop i options) 0 attr.
Proof.
  intros Hi. rewrite <- (Nat.add_0_r i) at 1. generalize 0%nat as j. intros j. revert j attr.
  induction fuel as [|fuel IH]; intros j attr; cbn [_ApplyGraphicsOptions_loop]; unfold params_size;
    rewrite length_drop;
    destruct (Z.leb_spec (Z.of_nat (length options) `max` 1) (Z.of_nat (i + j)));
    destruct (Z.leb_spec (Z.of_nat (length options - i) `max` 1) (Z.of_nat j)); try done; try lia.
  rewrite ApplyGraphicsOption_drop by lia.
  rewrite (ApplyGraphicsOption_drop (drop i options)) by (rewrite length_drop; lia).
  rewrite drop_drop. destruct (_ApplyGraphicsOption (drop (i + j) options) 0 attr) as [[a k]|]; [|done].
  rewrite <- Nat.add_assoc. apply IH.
Qed.

Lemma ApplyGraphicsOptions_total options attr :
  exists attr', _ApplyGraphicsOptions options attr = Ok attr'.
Proof.
  destruct options as [|p options]; [by eexists|].
  unfold _ApplyGraphicsOptions. apply loop_total; [done|]. unfold params_size. lia.
Qed.

(** One option, then the rest. *)
Lemma ApplyGraphicsOptions_cons ps rest attr attr' :
  option_width ps = length ps -> rest <> [] ->
  _ApplyGraphicsOption ps 0 attr = Some (attr', length ps) ->
  _ApplyGraphicsOptions (ps ++ rest) attr = _ApplyGraphicsOptions rest attr'.
Proof.
  intros Hw Hrest E. pose proof (option_width_pos ps) as Hpos.
  assert (1 <= length rest)%nat by (destruct rest; cbn; [done|lia]).
  assert (Hne : ps ++ rest <> []) by (by destruct ps; destruct rest).
  unfold _ApplyGraphicsOptions. unfold params_size at 1. rewrite length_app.
  replace (Z.to_nat _) with (S (length ps + length rest - 1)) by lia.
  cbn [_ApplyGraphicsOptions_loop]. unfold params_size at 1. rewrite length_app.
  destruct (Z.leb_spec (Z.of_nat (length ps + length rest) `max` 1) (Z.of_nat 0)); [lia|].
  rewrite ApplyGraphicsOption_app, E by done. cbn [Nat.add].
  rewrite loop_drop, drop_app_length by (rewrite length_app; lia).
  apply loop_fuel; unfold params_size; (done || lia).
Qed.

Lemma ApplyGraphicsOptions_single ps attr attr' :
  option_width ps = length ps ->
  _ApplyGraphicsOption ps 0 attr = Some (attr', length ps) ->
  _ApplyGraphicsOptions ps attr = Ok attr'.
Proof.
  intros Hw E. pose proof (option_width_pos ps) as Hpos.
  unfold _ApplyGraphicsOptions. unfold params_size at 1.
  replace (Z.to_nat _) with (S (length ps - 1)) by lia.
  cbn [_ApplyGraphicsOptions_loop]. unfold params_size at 1.
  destruct (Z.leb_spec (Z.of_nat (length ps) `max` 1) (Z.of_nat 0)); [lia|].
  rewrite E. destruct (length ps - 1)%nat; cbn [_ApplyGraphicsOptions_loop]; unfold params_size;
    by rewrite (proj2 (Z.leb_le _ _)) by lia.
Qed.

(** ** Theorems *)

(** SGR ends on every list of parameters, reads no parameter past their end,
    succeeds, and leaves the stack of saved renditions alone. *)
Theorem sgr_total (options : VTParameters) (g : Graphics) :
  exists attr, SetGraphicsRendition options g = (mkGraphics attr (_sgrStack g), Ok true).
Proof.
  destruct (ApplyGraphicsOptions_total options (_currentAttributes g)) as [attr E]. exists attr. unfold SetGraphicsRendition. by rewrite E.
Qed.

(** A list of parameters that is made of whole options. *)
Inductive whole_options : VTParameters -> Prop :=
| whole_last ps : option_width ps = length ps -> whole_options ps
| whole_cons ps rest :
    option_width ps = length ps -> whole_options rest -> whole_options (ps ++ rest).

Lemma whole_options_nonempty ps : whole_options ps -> ps <> [].
Proof.
  intros H E. destruct H as [ps Hw|ps rest Hw _]; pose proof (option_width_pos ps).
  - subst. cbn in *. lia.
  - apply app_nil in E. destruct E. subst. cbn in *. lia.
Qed.

(** SGR is applied option by option: where the parameters are split after a
    whole option, the sequence with all of them does what the two sequences do
    one after the other. *)
Theorem sgr_app (options1 options2 : VTParameters) (g : Graphics) :
  whole_options options1 -> options2 <> [] ->
  SetGraphicsRendition (options1 ++ options2) g =
  (SetGraphicsRendition options1 ;; SetGraphicsRendition options2) g.
Proof.
  intros Hw Hne.
  assert (H : forall attr, exists attr1, _ApplyGraphicsOptions options1 attr = Ok attr1 /\
    _ApplyGraphicsOptions (options1 ++ options2) attr = _ApplyGraphicsOptions options2 attr1).
  { induction Hw as [ps Hw|ps rest Hw Hrest IH]; intros attr; pose proof (option_width_pos ps);
      (assert (ps <> []) as Hps by (intros ->; cbn in *; lia));
      destruct (ApplyGraphicsOption_width ps attr Hps) as [attr' E]; rewrite Hw in E.
    - exists attr'. split; [by apply ApplyGraphicsOptions_single|].
      by apply (ApplyGraphicsOptions_cons ps options2 attr attr').
    - destruct (IH attr') as (attr1 & E1 & E2). exists attr1.
      pose proof (whole_options_nonempty _ Hrest).
      rewrite (ApplyGraphicsOptions_cons ps rest attr attr'), <- app_assoc by done.
      rewrite (ApplyGraphicsOptions_cons ps (rest ++ options2) attr attr');
        [done|done|by destruct rest|done]. }
  destruct (H (_currentAttributes g)) as (attr1 & E1 & E2).
  unfold bind, SetGraphicsRendition. rewrite E1, E2. cbn [_currentAttributes SetCurrentAttributes].
  by destruct (ApplyGraphicsOptions_total options2 attr1) as [attr2 ->].
Qed.

Lemma sgr_app_witness :
  let g := mkGraphics TextAttribute_default SgrStack_new in
  SetGraphicsRendition ([1; 38; 2; 1; 2; 3] ++ [4]) g =
  (SetGraphicsRendition [1; 38; 2; 1; 2; 3] ;; SetGraphicsRendition [4]) g.
Proof.
  apply sgr_app; [|discriminate].
  apply (whole_cons [1] [38; 2; 1; 2; 3]); [reflexivity|]. apply whole_last. reflexivity.
Defined.

(** ** What SGR leaves alone *)

(** The protection and the hyperlink of two attributes agree. *)
Definition same_cell_state (a b : TextAttribute) : Prop :=
  IsProtected a = IsProtected b /\ _hyperlinkId a = _hyperlinkId b.

#[local] Instance same_cell_state_pre : PreOrder same_cell_state.
Proof. split; [done|]. intros a b c [H1 H2] [H3 H4]. split; congruence. Qed.

Lemma update_keeps_cell_state f b a :
  Z.land f Protected = 0 -> same_cell_state a (update_attr f b a).
Proof. intros Hf. split; [|done]. symmetry. by apply has_update_other. Qed.

Lemma reset_keeps_cell_state a : same_cell_state a (SetDefaultRenditionAttributes a).
Proof.
  split; [|done]. unfold IsProtected, has_attr, IsFlagSet, SetDefaultRenditionAttributes; cbn [_attrs set_attrs].
  rewrite Z.ldiff_land, <- Z.land_assoc. by change (Z.land (Z.lnot Rendition) Protected) with Protected.
Qed.

Lemma rgb_keeps_cell_state options attr fg :
  same_cell_state attr (_SetRgbColorsHelper options attr fg).1.
Proof.
  unfold _SetRgbColorsHelper. destruct (opt_at options 0) as [[]|]; try reflexivity;
    cbn [fst]; destruct fg; by repeat case_if.
Qed.

Lemma option_keeps_cell_state options i attr attr' k :
  _ApplyGraphicsOption options i attr = Some (attr', k) -> same_cell_state attr attr'.
Proof.
  unfold _ApplyGraphicsOption, apply_extended.
  destruct (opt_at options i) as [[]|]; intros E; try (injection E as <- _);
    try (by apply update_keeps_cell_state); try done;
    try (by etrans; apply update_keeps_cell_state).
  - etrans; [|apply reset_keeps_cell_state]. done.
  - destruct (params_subspan _ _) as [rest|]; [|done].
    pose proof (rgb_keeps_cell_state rest attr true).
    destruct (_SetRgbColorsHelper rest attr true). by injection E as <- _.
  - destruct (params_subspan _ _) as [rest|]; [|done].
    pose proof (rgb_keeps_cell_state rest attr false).
    destruct (_SetRgbColorsHelper rest attr false). by injection E as <- _.
Qed.

Lemma loop_keeps_cell_state fuel options i attr attr' :
  _ApplyGraphicsOptions_loop fuel options i attr = Ok attr' -> same_cell_state attr attr'.
Proof.
  revert i attr; induction fuel as [|fuel IH]; intros i attr; cbn [_ApplyGraphicsOptions_loop];
    (destruct (_ <=? _); [by intros [= ->]|]); [done|].
  destruct (_ApplyGraphicsOption options i attr) as [[a k]|] eqn:E; [|done].
  intros H. etrans; [by eapply option_keeps_cell_state|by eapply IH].
Qed.

(** No SGR sequence changes whether the text is protected or which hyperlink
    it belongs to, not even a reset. *)
Theorem sgr_keeps_protection_and_link (options : VTParameters) (g : Graphics) :
  let g' := (SetGraphicsRendition options g).1 in
  IsProtected (_currentAttributes g') = IsProtected (_currentAttributes g) /\
  _hyperlinkId (_currentAttributes g') = _hyperlinkId (_currentAttributes g).
Proof.
  cbv zeta. unfold SetGraphicsRendition.
  destruct (ApplyGraphicsOptions_total options (_currentAttributes g)) as [attr E].
  rewrite E. cbn [fst SetCurrentAttributes _currentAttributes].
  destruct (loop_keeps_cell_state _ _ _ _ _ E). by split.
Qed.

(** ** Colours *)

Lemma palette_options attr n :
  0 <= n < 8 ->
  _ApplyGraphicsOptions [30 + n] attr = Ok (SetForeground (TextColor_index n false) attr) /\
  _ApplyGraphicsOptions [40 + n] attr = Ok (SetBackground (TextColor_index n false) attr) /\
  _ApplyGraphicsOptions [90 + n] attr = Ok (SetForeground (TextColor_index (8 + n) false) attr) /\
  _ApplyGraphicsOptions [100 + n] attr = Ok (SetBackground (TextColor_index (8 + n) false) attr).
Proof.
  intros Hn. assert (n = 0 \/ n = 1 \/ n = 2 \/ n = 3 \/ n = 4 \/ n = 5 \/ n = 6 \/ n = 7)
    as Hcases by lia.
  destruct Hcases as [->|[->|[->|[->|[->|[->|[->| ->]]]]]]]; repeat split; vm_compute; reflexivity.
Qed.

Lemma value_or_nonneg n d : 0 <= n -> value_or n d = n.
Proof. intros Hn. unfold value_or. destruct (Z.ltb_spec n 0); [lia|done]. Qed.

Lemma indexed_options attr n :
  0 <= n < 256 ->
  _ApplyGraphicsOptions [38; 5; n] attr = Ok (SetForeground (TextColor_index n true) attr) /\
  _ApplyGraphicsOptions [48; 5; n] attr = Ok (SetBackground (TextColor_index n true) attr).
Proof.
  intros Hn.
  assert (H : forall fg, _SetRgbColorsHelper [5; n] attr fg =
    (if fg then SetForeground (TextColor_index n true) attr
     else SetBackground (TextColor_index n true) attr, 2%nat)).
  { intros fg. transitivity (if value_or n 0 <=? 255 then
      if fg then SetIndexedForeground256 (u8 (value_or n 0)) attr
      else SetIndexedBackground256 (u8 (value_or n 0)) attr else attr, 2%nat); [by destruct fg|].
    rewrite value_or_nonneg, wrapu_small by (eval_ground; lia).
    destruct (Z.leb_spec n 255); [by destruct fg|lia]. }
  split; apply ApplyGraphicsOptions_single; try reflexivity.
  - transitivity (apply_extended [38; 5; n] 0 attr true); [reflexivity|].
    rewrite extended_width by done. cbn [drop]. by rewrite H.
  - transitivity (apply_extended [48; 5; n] 0 attr false); [reflexivity|].
    rewrite extended_width by done. cbn [drop]. by rewrite H.
Qed.

Lemma rgb_options attr r g b :
  is_byte r -> is_byte g -> is_byte b ->
  _ApplyGraphicsOptions [38; 2; r; g; b] attr = Ok (SetForeground (mkTextColor IsRgb r g b) attr) /\
  _ApplyGraphicsOptions [48; 2; r; g; b] attr = Ok (SetBackground (mkTextColor IsRgb r g b) attr).
Proof.
  intros Hr Hg Hb.
  assert (H : forall fg, _SetRgbColorsHelper [2; r; g; b] attr fg =
    (if fg then SetForeground (mkTextColor IsRgb r g b) attr
     else SetBackground (mkTextColor IsRgb r g b) attr, 4%nat)).
  { intros fg. transitivity
      (if (value_or r 0 <=? 255) && (value_or g 0 <=? 255) && (value_or b 0 <=? 255)
       then SetColor (RGB (value_or r 0) (value_or g 0) (value_or b 0)) fg attr else attr, 4%nat);
      [reflexivity|].
    unfold is_byte in *. rewrite !value_or_nonneg by lia.
    rewrite !(proj2 (Z.leb_le _ _)) by lia. cbn [andb]. unfold SetColor.
    by rewrite TextColor_rgb_RGB by done. }
  split; apply ApplyGraphicsOptions_single; try reflexivity.
  - transitivity (apply_extended [38; 2; r; g; b] 0 attr true); [reflexivity|].
    rewrite extended_width by done. cbn [drop]. by rewrite H.
  - transitivity (apply_extended [48; 2; r; g; b] 0 attr false); [reflexivity|].
    rewrite extended_width by done. cbn [drop]. by rewrite H.
Qed.

(** The colour options select the palette entries in the order of their numbers,
    30 to 37 and 40 to 47 the dark ones, 90 to 97 and 100 to 107 the bright ones;
    38;5;n and 48;5;n select entry [n] of the 256; 38;2;r;g;b and 48;2;r;g;b select
    the RGB value.  Nothing else of the attribute changes. *)
Theorem sgr_colors (attr : TextAttribute) (n r g b : Z) :
  (0 <= n < 8 ->
     _ApplyGraphicsOptions [30 + n] attr = Ok (SetForeground (TextColor_index n false) attr) /\
     _ApplyGraphicsOptions [40 + n] attr = Ok (SetBackground (TextColor_index n false) attr) /\
     _ApplyGraphicsOptions [90 + n] attr = Ok (SetForeground (TextColor_index (8 + n) false) attr) /\
     _ApplyGraphicsOptions [100 + n] attr = Ok (SetBackground (TextColor_index (8 + n) false) attr)) /\
  (0 <= n < 256 ->
     _ApplyGraphicsOptions [38; 5; n] attr = Ok (SetForeground (TextColor_index n true) attr) /\
     _ApplyGraphicsOptions [48; 5; n] attr = Ok (SetBackground (TextColor_index n true) attr)) /\
  (0 <= r < 256 -> 0 <= g < 256 -> 0 <= b < 256 ->
     _ApplyGraphicsOptions [38; 2; r; g; b] attr =
       Ok (SetForeground (mkTextColor IsRgb r g b) attr) /\
     _ApplyGraphicsOptions [48; 2; r; g; b] attr =
       Ok (SetBackground (mkTextColor IsRgb r g b) attr)).
Proof.
  split; [apply palette_options|]. split; [apply indexed_options|]. intros. by apply rgb_options.
Qed.

Lemma sgr_colors_witness :
  _ApplyGraphicsOptions [38; 2; 10; 20; 30] TextAttribute_default =
  Ok (SetForeground (mkTextColor IsRgb 10 20 30) TextAttribute_default).
Proof. apply (sgr_colors TextAttribute_default 0 10 20 30); lia. Defined.

(** Of a 16-bit set of flags the reset keeps bit 13 only. *)
Lemma ldiff_Rendition x :
  0 <= x < 2 ^ 16 -> Z.ldiff x Rendition = UpdateFlag 0 Protected (IsFlagSet x Protected).
Proof.
  intros Hx. change Protected with (2 ^ 13). rewrite IsFlagSet_pow2 by lia.
  change Rendition with (Z.ldiff (Z.ones 16) (2 ^ 13)). apply Z.bits_inj'. intros i Hi.
  assert (Hr : Z.testbit (UpdateFlag 0 (2 ^ 13) (Z.testbit x 13)) i = Z.testbit x 13 && (13 =? i)).
  { unfold UpdateFlag. destruct (Z.testbit x 13); [|apply Z.testbit_0_l].
    by rewrite Z.lor_0_l, Z.pow2_bits_eqb by lia. }
  rewrite Hr, !Z.ldiff_spec, Z.pow2_bits_eqb by lia.
  destruct (Z.eqb_spec 13 i) as [<-|]; [done|].
  destruct (Z.ltb_spec i 16).
  - rewrite Z.ones_spec_low by lia. by rewrite !andb_false_r.
  - rewrite <- (Z.mod_small x (2 ^ 16)), Z.mod_pow2_bits_high by lia. by rewrite andb_false_r.
Qed.

(** SGR 0, also as an omitted parameter or an empty list, leaves the default
    colours and no flag but the protection: the attribute is the default one with
    the hyperlink and the protection it had. *)
Theorem sgr_reset (options : VTParameters) (attr : TextAttribute) :
  options = [] \/ (exists p, options = [p] /\ p <= 0) ->
  0 <= _attrs attr < 2 ^ 16 ->
  _ApplyGraphicsOptions options attr =
  Ok (SetProtected (IsProtected attr) (SetHyperlinkId (_hyperlinkId attr) TextAttribute_default)).
Proof.
  intros Ho Hattrs.
  assert (E : _ApplyGraphicsOptions options attr =
    Ok (SetDefaultRenditionAttributes (SetDefaultBackground (SetDefaultForeground attr)))).
  { destruct Ho as [->|(p & -> & Hp)]; [reflexivity|].
    assert (Hopt : opt_at [p] 0 = Some GraphicsOptions.Off).
    { transitivity (GraphicsOptions.of_value 0); [|reflexivity]. f_equal. cbn.
      unfold param_enum, value_or. destruct (Z.ltb_spec p 0); lia. }
    apply ApplyGraphicsOptions_single; unfold option_width, _ApplyGraphicsOption; by rewrite Hopt. }
  rewrite E. f_equal. unfold SetDefaultRenditionAttributes, SetProtected, update_attr, set_attrs,
    IsProtected, has_attr; cbn [_attrs SetDefaultBackground SetBackground SetDefaultForeground SetForeground].
  by rewrite ldiff_Rendition.
Qed.

Lemma sgr_reset_witness :
  let attr := SetProtected true (SetIntense true (SetIndexedForeground 3 TextAttribute_default)) in
  _ApplyGraphicsOptions [] attr = Ok (SetProtected true TextAttribute_default).
Proof.
  cbv zeta. rewrite sgr_reset; [reflexivity|by left|split; reflexivity || discriminate].
Defined.

(** ** Protection *)

(** What the list of DECSCA options ends in: the last known one decides. *)
Fixpoint last_protection (options : list VTParameter) (current : bool) : bool :=
  match options with
  | [] => current
  | p :: options =>
      last_protection options
        (if (param_enum p =? 1) then true
         else if (param_enum p =? 0) || (param_enum p =? 2) then false else current)
  end.

Lemma update_update f b c a : update_attr f c (update_attr f b a) = update_attr f c a.
Proof.
  unfold update_attr, set_attrs, UpdateFlag; cbn. f_equal. apply Z.bits_inj'. intros i _.
  destruct b, c; rewrite ?Z.lor_spec, ?Z.ldiff_spec, ?Z.lor_spec, ?Z.ldiff_spec;
    by destruct (Z.testbit (_attrs a) i), (Z.testbit f i).
Qed.

Lemma update_has f k a : f = 2 ^ k -> 0 <= k -> update_attr f (has_attr f a) a = a.
Proof.
  intros -> Hk. destruct a as [attrs h fg bg]. unfold update_attr, has_attr, set_attrs, UpdateFlag; cbn.
  f_equal. rewrite IsFlagSet_pow2 by done. apply Z.bits_inj'. intros i _.
  destruct (Z.testbit attrs k) eqn:E; rewrite ?Z.lor_spec, ?Z.ldiff_spec, Z.pow2_bits_eqb by done;
    destruct (Z.eqb_spec k i) as [<-|]; rewrite ?E, ?orb_false_r, ?andb_true_r; done.
Qed.

Lemma protection_loop_spec options n i a b :
  (i + n)%nat = length options ->
  protection_loop options n i (SetProtected b a) =
  SetProtected (last_protection (drop i options) b) a.
Proof.
  revert i b; induction n as [|n IH]; intros i b Hn; cbn [protection_loop].
  { by rewrite drop_ge by lia. }
  destruct (lookup_lt_is_Some_2 options i ltac:(lia)) as [p Hp].
  rewrite (drop_S _ _ _ Hp). cbn [last_protection]. rewrite <- IH by lia. f_equal.
  unfold params_at. rewrite Hp. cbn [from_option id]. unfold SetProtected.
  destruct (Z.eqb_spec (param_enum p) 0) as [->|]; [by rewrite update_update|].
  destruct (Z.eqb_spec (param_enum p) 1); [by rewrite update_update|].
  cbn [orb]. by case_if; rewrite ?update_update.
Qed.

(** DECSCA sets the protection to what its last known option says (none counts
    as 0, unprotected), leaves it if no option is known, and changes nothing else
    of the attribute. *)
Theorem decsca_last_option (options : VTParameters) (g : Graphics) :
  SetCharacterProtectionAttribute options g =
  (SetCurrentAttributes
     (SetProtected
        (last_protection (match options with [] => [VTParameter_default] | _ => options end)
           (IsProtected (_currentAttributes g)))
        (_currentAttributes g)) g, Ok true).
Proof.
  unfold SetCharacterProtectionAttribute. do 2 f_equal.
  destruct options as [|p options]; [reflexivity|].
  rewrite <- (update_has Protected 13 (_currentAttributes g)) at 1 by (reflexivity || lia).
  rewrite (protection_loop_spec (p :: options)) by (unfold params_size; cbn [length]; lia).
  done.
Qed.

(** ** Saving around renditions *)

(** The SGR sequences of a list, one after the other. *)
Definition renditions (l : list VTParameters) : M Graphics unit :=
  iterM (fun options => SetGraphicsRendition options ;; ret tt) l.

Lemma renditions_total l g :
  exists attr, renditions l g = (mkGraphics attr (_sgrStack g), Ok tt).
Proof.
  revert g; induction l as [|options l IH]; intros g; [by exists (_currentAttributes g); destruct g|].
  unfold renditions in *. cbn [iterM].
  destruct (ApplyGraphicsOptions_total options (_currentAttributes g)) as [attr E].
  destruct (IH (mkGraphics attr (_sgrStack g))) as [attr' E']. exists attr'.
  etrans; [|exact E']. unfold bind, SetGraphicsRendition. by rewrite E.
Qed.

(** XTPUSHSGR without options and XTPOPSGR enclose any SGR sequences without a
    trace: the attributes are back, hyperlink and protection included, and the
    stack holds what it held, except that the oldest of ten entries is gone. *)
Theorem push_renditions_pop (history : list op) (st : SgrStack) (outs : list TextAttribute)
    (attr : TextAttribute) (l : list VTParameters) :
  run SgrStack_new history = Some (st, outs) ->
  exists st',
    (PushGraphicsRendition [] ;; renditions l ;; PopGraphicsRendition) (mkGraphics attr st) =
      (mkGraphics attr st', Ok true) /\
    contents st' = take 9 (contents st).
Proof.
  intros Hrun. destruct (run_refines history SgrStack_new []) as (st0 & E0 & Hwf & Hc);
    [apply SgrStack_new_wf|done|]. rewrite Hrun in E0. injection E0 as <- _.
  destruct (Push_spec attr [] st Hwf) as (st1 & E1 & Hwf1 & Hc1).
  rewrite Hc in Hc1. set (spec := (spec_run [] history).1) in *.
  assert (Hc1' : contents st1 = map entry_of ((attr, []) :: take 9 spec)).
  { rewrite Hc1. cbn [map take firstn]. by rewrite firstn_map. }
  destruct (renditions_total l (mkGraphics attr st1)) as [attr2 E2].
  destruct (Pop_spec attr2 st1 _ Hwf1 Hc1') as (st2 & E3 & _ & Hc2).
  exists st2. split; [|by rewrite Hc2, Hc, firstn_map].
  unfold bind, PushGraphicsRendition. cbn [_currentAttributes _sgrStack]. rewrite E1.
  rewrite E2. unfold PopGraphicsRendition; cbn [_currentAttributes _sgrStack]. by rewrite E3.
Qed.

Lemma push_renditions_pop_witness :
  exists st',
    (PushGraphicsRendition [] ;; renditions [[1; 31]; [0]] ;; PopGraphicsRendition)
      (mkGraphics (SetItalic true TextAttribute_default) SgrStack_new) =
      (mkGraphics (SetItalic true TextAttribute_default) st', Ok true) /\
    contents st' = take 9 (contents SgrStack_new).
Proof. apply (push_renditions_pop [] SgrStack_new []). reflexivity. Defined.
