(* ===== verification/MacroBuffer.v ===== *)
(** * Macros

    Models [src/src/terminal/adapter/MacroBuffer.{hpp,cpp}], the storage behind
    DECDMAC (define a macro) and DECINVM (invoke one): a parser of definitions
    that is itself a state machine, with repeats and a limit on the space, and the
    invocation, which feeds the text of a macro back to the parser and may nest.

    The theorems show that the space in use is always the length of all macros and
    within the limit, and that no definition makes the parser throw; [MacroText.v]
    shows what a definition stores and what invocations do. *)

From stdpp Require Import relations.
From S2P Require Import Prelude Effects DispatchTypes StateMachine Utils.

Local Open Scope Z_scope.

Definition MAX_SPACE : Z := 0x40000.

(** [DispatchTypes::MacroDeleteControl] and [MacroEncoding]. *)
Definition DeleteId : VTInt := 0.
Definition DeleteAll : VTInt := 1.
Definition Text : VTInt := 0.
Definition HexPair : VTInt := 1.

Inductive State :=
| ExpectingText
| ExpectingHexDigit
| ExpectingSecondHexDigit
| ExpectingRepeatCount.

Record MacroBuffer := mkMacroBuffer {
  _parseState : State;
  _decodedChar : wchar;
  _repeatPending : bool;
  _repeatCount : Z;
  _repeatStart : Z;
  _macros : list wstring;
  _activeMacroId : nat;
  _spaceUsed : Z;
  _invokedDepth : Z;
  _invokedSequenceLength : Z
}.

Definition MacroBuffer_new : MacroBuffer :=
  mkMacroBuffer ExpectingText 0 false 0 0 (repeat [] 64) 0%nat 0 0 0.

(** Assignment to a member. *)
Definition set_parseState (x : State) (b : MacroBuffer) : MacroBuffer :=
  mkMacroBuffer x (_decodedChar b) (_repeatPending b) (_repeatCount b) (_repeatStart b)
    (_macros b) (_activeMacroId b) (_spaceUsed b) (_invokedDepth b) (_invokedSequenceLength b).
Definition set_decodedChar (x : wchar) (b : MacroBuffer) : MacroBuffer :=
  mkMacroBuffer (_parseState b) x (_repeatPending b) (_repeatCount b) (_repeatStart b)
    (_macros b) (_activeMacroId b) (_spaceUsed b) (_invokedDepth b) (_invokedSequenceLength b).
Definition set_repeatPending (x : bool) (b : MacroBuffer) : MacroBuffer :=
  mkMacroBuffer (_parseState b) (_decodedChar b) x (_repeatCount b) (_repeatStart b)
    (_macros b) (_activeMacroId b) (_spaceUsed b) (_invokedDepth b) (_invokedSequenceLength b).
Definition set_repeatCount (x : Z) (b : MacroBuffer) : MacroBuffer :=
  mkMacroBuffer (_parseState b) (_decodedChar b) (_repeatPending b) x (_repeatStart b)
    (_macros b) (_activeMacroId b) (_spaceUsed b) (_invokedDepth b) (_invokedSequenceLength b).
Definition set_repeatStart (x : Z) (b : MacroBuffer) : MacroBuffer :=
  mkMacroBuffer (_parseState b) (_decodedChar b) (_repeatPending b) (_repeatCount b) x
    (_macros b) (_activeMacroId b) (_spaceUsed b) (_invokedDepth b) (_invokedSequenceLength b).
Definition set_macros (x : list wstring) (b : MacroBuffer) : MacroBuffer :=
  mkMacroBuffer (_parseState b) (_decodedChar b) (_repeatPending b) (_repeatCount b)
    (_repeatStart b) x (_activeMacroId b) (_spaceUsed b) (_invokedDepth b)
    (_invokedSequenceLength b).
Definition set_activeMacroId (x : nat) (b : MacroBuffer) : MacroBuffer :=
  mkMacroBuffer (_parseState b) (_decodedChar b) (_repeatPending b) (_repeatCount b)
    (_repeatStart b) (_macros b) x (_spaceUsed b) (_invokedDepth b) (_invokedSequenceLength b).
Definition set_spaceUsed (x : Z) (b : MacroBuffer) : MacroBuffer :=
  mkMacroBuffer (_parseState b) (_decodedChar b) (_repeatPending b) (_repeatCount b)
    (_repeatStart b) (_macros b) (_activeMacroId b) x (_invokedDepth b) (_invokedSequenceLength b).
Definition set_invoked (depth length : Z) (b : MacroBuffer) : MacroBuffer :=
  mkMacroBuffer (_parseState b) (_decodedChar b) (_repeatPending b) (_repeatCount b)
    (_repeatStart b) (_macros b) (_activeMacroId b) (_spaceUsed b) depth length.

Definition GetSpaceAvailable (b : MacroBuffer) : Z := u64 (MAX_SPACE - _spaceUsed b).

(** [checksum -= ch] on a [uint16_t]. *)
Definition CalculateChecksum (b : MacroBuffer) : Z :=
  foldl (fun checksum macro => foldl (fun checksum ch => u16 (checksum - ch)) checksum macro)
    0 (_macros b).

(** ** Definitions *)

(** [_macros.at(_activeMacroId)]. *)
Definition _activeMacro : M MacroBuffer wstring := fun b =>
  match _macros b !! _activeMacroId b with
  | Some macro => (b, Ok macro)
  | None => (b, Throw StdException)
  end.

Definition set_activeMacro (macro : wstring) : M MacroBuffer unit :=
  modify (fun b => set_macros (<[_activeMacroId b := macro]> (_macros b)) b).

(** [_deleteMacro] of the macro with a number. *)
Definition _deleteMacro (i : nat) (b : MacroBuffer) : MacroBuffer :=
  match _macros b !! i with
  | Some macro =>
      set_macros (<[i := []]> (_macros b)) (set_spaceUsed (u64 (_spaceUsed b - len macro)) b)
  | None => b
  end.

Definition delete_active : M MacroBuffer unit :=
  _activeMacro ;; modify (fun b => _deleteMacro (_activeMacroId b) b).

Definition _decodeHexDigit (ch : wchar) : M MacroBuffer bool :=
  modify (fun b => set_decodedChar (u16 (Z.shiftl (_decodedChar b) 4)) b) ;;
  if (0x30 <=? ch) && (ch <=? 0x39) then
    modify (fun b => set_decodedChar (u16 (_decodedChar b + (ch - 0x30))) b) ;; ret true
  else if (0x41 <=? ch) && (ch <=? 0x46) then
    modify (fun b => set_decodedChar (u16 (_decodedChar b + (ch - 0x41 + 10))) b) ;; ret true
  else if (0x61 <=? ch) && (ch <=? 0x66) then
    modify (fun b => set_decodedChar (u16 (_decodedChar b + (ch - 0x61 + 10))) b) ;; ret true
  else ret false.

Definition _appendToActiveMacro (ch : wchar) : M MacroBuffer bool :=
  space <- get GetSpaceAvailable ;;
  if 0 <? space then
    macro <- _activeMacro ;;
    set_activeMacro (macro ++ [ch]) ;;
    modify (fun b => set_spaceUsed (u64 (_spaceUsed b + 1)) b) ;;
    ret true
  else ret false.

(** The copies of a repeated sequence that are appended. *)
Fixpoint append_copies (n : nat) (sequenceLength : Z) : M MacroBuffer unit :=
  match n with
  | O => ret tt
  | S n =>
      macro <- _activeMacro ;;
      repeatStart <- get _repeatStart ;;
      match substr macro repeatStart sequenceLength with
      | None => throw StdException
      | Some copy =>
          set_activeMacro (macro ++ copy) ;;
          modify (fun b => set_spaceUsed (u64 (_spaceUsed b + sequenceLength)) b) ;;
          append_copies n sequenceLength
      end
  end.

Definition _applyPendingRepeat : M MacroBuffer bool :=
  repeatCount <- get _repeatCount ;;
  if 1 <? repeatCount then
    activeMacro <- _activeMacro ;;
    repeatStart <- get _repeatStart ;;
    let sequenceLength := u64 (len activeMacro - repeatStart) in
    let spaceRequired := u64 ((repeatCount - 1) * sequenceLength) in
    space <- get GetSpaceAvailable ;;
    if space <? spaceRequired then ret false
    else
      append_copies (Z.to_nat (repeatCount - 1)) sequenceLength ;;
      modify (set_repeatPending false) ;; ret true
  else modify (set_repeatPending false) ;; ret true.

Definition InitParser (macroId : nat) (deleteControl encoding : VTInt) : M MacroBuffer bool :=
  macros <- get _macros ;;
  invokedDepth <- get _invokedDepth ;;
  if (macroId <? length macros)%nat && (invokedDepth =? 0) then
    modify (set_activeMacroId macroId) ;;
    modify (set_decodedChar 0) ;;
    modify (set_repeatPending false) ;;
    let delete_and_return :=
      if deleteControl =? DeleteId then delete_active ;; ret true
      else if deleteControl =? DeleteAll then
        iterM (fun i => modify (_deleteMacro i)) (seq 0 (length macros)) ;; ret true
      else ret false in
    if encoding =? HexPair then modify (set_parseState ExpectingHexDigit) ;; delete_and_return
    else if encoding =? Text then modify (set_parseState ExpectingText) ;; delete_and_return
    else ret false
  else ret false.

(** The [switch] of [ParseDefinition]. *)
Definition parse_step (ch : wchar) (state : State) : M MacroBuffer bool :=
  match state with
  | ExpectingText => _appendToActiveMacro ch
  | ExpectingHexDigit =>
      isDigit <- _decodeHexDigit ch ;;
      repeatPending <- get _repeatPending ;;
      if isDigit : bool then modify (set_parseState ExpectingSecondHexDigit) ;; ret true
      else if (ch =? 0x21) && negb repeatPending then
        modify (set_parseState ExpectingRepeatCount) ;;
        modify (set_repeatCount 0) ;; ret true
      else if (ch =? 0x3B) && repeatPending then _applyPendingRepeat
      else ret false
  | ExpectingSecondHexDigit =>
      isDigit <- _decodeHexDigit ch ;;
      success <- (if isDigit : bool then
                    decodedChar <- get _decodedChar ;; _appendToActiveMacro decodedChar
                  else ret false) ;;
      modify (set_decodedChar 0) ;;
      modify (set_parseState ExpectingHexDigit) ;;
      ret success
  | ExpectingRepeatCount =>
      if (0x30 <=? ch) && (ch <=? 0x39) then
        modify (fun b => set_repeatCount (u64 (_repeatCount b * 10 + (ch - 0x30))) b) ;;
        modify (fun b => set_repeatCount (Z.min (_repeatCount b) MAX_PARAMETER_VALUE) b) ;;
        ret true
      else if ch =? 0x3B then
        modify (set_repeatPending true) ;;
        macro <- _activeMacro ;;
        modify (set_repeatStart (len macro)) ;;
        modify (set_parseState ExpectingHexDigit) ;; ret true
      else ret false
  end.

Definition ParseDefinition (ch : wchar) : M MacroBuffer bool :=
  if ch =? AsciiChars.ESC then
    repeatPending <- get _repeatPending ;;
    (if repeatPending : bool then
       applied <- _applyPendingRepeat ;;
       if applied : bool then ret tt else delete_active
     else ret tt) ;;
    ret false
  else if ch <? 0x20 then ret true
  else
    state <- get _parseState ;;
    success <- parse_step ch state ;;
    (if success : bool then ret tt else delete_active) ;;
    ret success.

(** ** Invocations

    [W] is the rest of the world, with the state machine that is handed the text
    of the macro; its [ProcessString] is an argument, which may invoke macros in
    turn.  It gets a view into the buffer, so the argument is the number of the
    macro and not its text.  The counters are restored also when it throws. *)

Definition reset_invoke_depth (b : MacroBuffer) : MacroBuffer :=
  let depth := u64 (_invokedDepth b - 1) in
  set_invoked depth (if depth =? 0 then 0 else _invokedSequenceLength b) b.

Definition InvokeMacro {W} (ProcessString : nat -> M (MacroBuffer * W) unit) (macroId : nat)
    : M (MacroBuffer * W) unit := fun s =>
  match _macros s.1 !! macroId with
  | None => (s, Ok tt)
  | Some macroSequence =>
      let b := s.1 in
      let allowedLength := u64 (MAX_SPACE - _invokedSequenceLength b) in
      if (_invokedDepth b <? 16) && (len macroSequence <? allowedLength) then
        let b := set_invoked (u64 (_invokedDepth b + 1))
                   (u64 (_invokedSequenceLength b + len macroSequence)) b in
        let '((b, w), r) := ProcessString macroId (b, s.2) in
        ((reset_invoke_depth b, w), r)
      else (s, Ok tt)
  end.

Definition ClearMacrosIfInUse (b : MacroBuffer) : MacroBuffer :=
  if 0 <? _invokedDepth b then
    set_macros (map (fun macro => map (fun _ => AsciiChars.NUL) macro) (_macros b)) b
  else b.

(** ** Accounting *)

(** The length of all macros. *)
Definition total_length (macros : list wstring) : Z := foldr (fun m t => len m + t) 0 macros.
Arguments total_length : simpl never.

Lemma total_length_nonneg macros : 0 <= total_length macros.
Proof.
  unfold total_length. induction macros as [|m l IH]; cbn; [lia|]. pose proof (len_nonneg m). lia.
Qed.

Lemma total_length_insert macros i m m' :
  macros !! i = Some m ->
  total_length (<[i := m']> macros) = total_length macros - len m + len m'.
Proof.
  revert i; induction macros as [|x l IH]; intros [|i] Hi; simplify_eq/=.
  - unfold total_length. cbn. lia.
  - specialize (IH i Hi). unfold total_length in *. cbn. lia.
Qed.

Lemma total_length_active macros i m : macros !! i = Some m -> len m <= total_length macros.
Proof.
  intros Hi. pose proof (total_length_insert macros i m [] Hi) as H.
  pose proof (total_length_nonneg (<[i := []]> macros)). unfold len in *. cbn in H. lia.
Qed.

(** The space in use is the length of all macros and within the limit. *)
Record accounted (b : MacroBuffer) : Prop := {
  ac_macros : length (_macros b) = 64%nat;
  ac_active : (_activeMacroId b < 64)%nat;
  ac_used : _spaceUsed b = total_length (_macros b);
  ac_limit : total_length (_macros b) <= MAX_SPACE;
  ac_count : 0 <= _repeatCount b <= MAX_PARAMETER_VALUE
}.

Definition active (b : MacroBuffer) : wstring := default [] (_macros b !! _activeMacroId b).

(** The buffer with another text for the active macro. *)
Definition with_active (macro : wstring) (b : MacroBuffer) : MacroBuffer :=
  let macros := <[_activeMacroId b := macro]> (_macros b) in
  set_macros macros (set_spaceUsed (total_length macros) b).

Lemma active_lookup b : accounted b -> _macros b !! _activeMacroId b = Some (active b).
Proof.
  intros []. unfold active.
  destruct (lookup_lt_is_Some_2 (_macros b) (_activeMacroId b) ltac:(lia)) as [m Hm]. by rewrite Hm.
Qed.

Lemma activeMacro_spec b : accounted b -> _activeMacro b = (b, Ok (active b)).
Proof. intros Hb. unfold _activeMacro. by rewrite active_lookup. Qed.

Lemma total_with_active m b :
  accounted b ->
  total_length (_macros (with_active m b)) = total_length (_macros b) - len (active b) + len m.
Proof. intros Hb. by apply total_length_insert, active_lookup. Qed.

Lemma with_active_accounted m b :
  accounted b -> total_length (_macros b) - len (active b) + len m <= MAX_SPACE ->
  accounted (with_active m b).
Proof.
  intros Hb Hm. pose proof (total_with_active m b Hb) as Ht. destruct Hb.
  split; cbn in *; try done; [by rewrite length_insert|lia].
Qed.

Lemma active_with_active m b : accounted b -> active (with_active m b) = m.
Proof. intros []. unfold active. cbn. by rewrite list_lookup_insert_eq by lia. Qed.

Lemma with_active_twice m m' b : with_active m' (with_active m b) = with_active m' b.
Proof. unfold with_active; cbn. by rewrite list_insert_insert_eq. Qed.

Lemma space_available b : accounted b -> GetSpaceAvailable b = MAX_SPACE - total_length (_macros b).
Proof.
  intros []. unfold GetSpaceAvailable. rewrite ac_used0. apply wrapu_small.
  pose proof (total_length_nonneg (_macros b)). unfold MAX_SPACE in *. eval_ground. lia.
Qed.

(** A state given by its macros and its space is [with_active]. *)
Lemma with_active_eq m b n :
  accounted b -> total_length (_macros b) - len (active b) + len m <= MAX_SPACE ->
  n = total_length (_macros b) - len (active b) + len m ->
  set_spaceUsed (u64 n) (set_macros (<[_activeMacroId b := m]> (_macros b)) b) = with_active m b.
Proof.
  intros Hb Hm ->. unfold with_active. rewrite <- (total_with_active m b Hb). cbn.
  rewrite wrapu_small; [done|].
  pose proof (total_length_nonneg (<[_activeMacroId b := m]> (_macros b))).
  pose proof (total_with_active m b Hb) as Ht. cbn in Ht.
  unfold MAX_SPACE in Hm. eval_ground. lia.
Qed.

Lemma delete_active_spec b : accounted b -> delete_active b = (with_active [] b, Ok tt).
Proof.
  intros Hb. unfold delete_active, bind, modify. rewrite activeMacro_spec by done.
  unfold _deleteMacro. rewrite active_lookup by done. f_equal.
  rewrite <- (with_active_eq [] b (_spaceUsed b - len (active b))); [done|done| |].
  - pose proof (len_nonneg (active b)). destruct Hb. rewrite len_nil. lia.
  - destruct Hb. rewrite len_nil. lia.
Qed.

Lemma append_spec ch b :
  accounted b ->
  _appendToActiveMacro ch b =
  if total_length (_macros b) <? MAX_SPACE then (with_active (active b ++ [ch]) b, Ok true)
  else (b, Ok false).
Proof.
  intros Hb. unfold _appendToActiveMacro, bind at 1, get. rewrite space_available by done.
  destruct (Z.ltb_spec (total_length (_macros b)) MAX_SPACE) as [Hlt|Hge];
    destruct (Z.ltb_spec 0 (MAX_SPACE - total_length (_macros b))); try lia; [|done].
  unfold bind, modify, set_activeMacro, ret. rewrite activeMacro_spec by done. f_equal.
  rewrite <- (with_active_eq (active b ++ [ch]) b (_spaceUsed b + 1)); [done|done| |];
    rewrite len_app, len_single; destruct Hb; lia.
Qed.

Lemma with_active_id b : accounted b -> with_active (active b) b = b.
Proof.
  intros Hb. pose proof (active_lookup b Hb) as Ha. pose proof (ac_used b Hb) as Hu.
  destruct b; unfold with_active; cbn in *. rewrite list_insert_id by done. by subst.
Qed.

Definition copies (n : nat) (sq : wstring) : wstring := concat (repeat sq n).

Lemma len_copies n sq : len (copies n sq) = Z.of_nat n * len sq.
Proof.
  induction n as [|n IH]; [unfold len; cbn; lia|]. unfold copies in *. cbn [repeat concat].
  rewrite len_app, IH. lia.
Qed.

Lemma append_copies_spec n b p sq ext :
  accounted b -> active b = p ++ sq ++ ext -> _repeatStart b = len p ->
  total_length (_macros b) + Z.of_nat n * len sq <= MAX_SPACE ->
  append_copies n (len sq) b = (with_active (active b ++ copies n sq) b, Ok tt).
Proof.
  revert b ext; induction n as [|n IH]; intros b ext Hb Ha Hs Hn.
  { cbn. by rewrite app_nil_r, with_active_id. }
  pose proof (len_nonneg sq). cbn [append_copies].
  unfold bind at 1 2, get. rewrite activeMacro_spec, Hs by done.
  unfold len at 1 2. rewrite substr_take by (rewrite Ha, length_app; lia).
  rewrite Ha, drop_app_length, take_app_length, <- Ha.
  unfold bind, set_activeMacro, modify. cbv beta iota.
  assert (Hfit : total_length (_macros b) - len (active b) + len (active b ++ sq) <= MAX_SPACE)
    by (rewrite len_app; nia).
  pose proof (with_active_eq (active b ++ sq) b (_spaceUsed b + len sq) Hb Hfit) as E.
  assert (Hused : _spaceUsed b + len sq =
    total_length (_macros b) - len (active b) + len (active b ++ sq))
    by (rewrite len_app; destruct Hb; lia).
  specialize (E Hused). cbn in E |- *. fold (len sq). rewrite E.
  rewrite (IH _ (ext ++ sq)).
  - rewrite active_with_active, with_active_twice by done. unfold copies. cbn [repeat concat].
    by rewrite app_assoc.
  - by apply with_active_accounted.
  - rewrite active_with_active by done. rewrite Ha. by rewrite <- !app_assoc.
  - done.
  - rewrite total_with_active by done. rewrite len_app. nia.
Qed.

(** The repeat that is pending: the sequence from its start on. *)
Definition repeat_ok (b : MacroBuffer) : Prop :=
  _repeatPending b = true -> exists p sq, active b = p ++ sq /\ _repeatStart b = len p.

Lemma applyPendingRepeat_spec b p sq :
  accounted b -> active b = p ++ sq -> _repeatStart b = len p ->
  _applyPendingRepeat b =
  if total_length (_macros b) + (_repeatCount b - 1) * len sq <=? MAX_SPACE
  then (set_repeatPending false
          (with_active (p ++ copies (Z.to_nat (Z.max 1 (_repeatCount b))) sq) b), Ok true)
  else (b, Ok false).
Proof.
  intros Hb Ha Hs. pose proof (len_nonneg sq). pose proof (len_nonneg p).
  pose proof (total_length_active _ _ _ (active_lookup b Hb)) as Hle. rewrite Ha, len_app in Hle.
  pose proof (ac_count b Hb) as Hcount. pose proof (ac_limit b Hb) as Hlim.
  unfold MAX_SPACE, MAX_PARAMETER_VALUE in *.
  unfold _applyPendingRepeat, bind at 1, get at 1.
  destruct (Z.ltb_spec 1 (_repeatCount b)) as [Hc|Hc].
  - assert (Hl : u64 (len (active b) - len p) = len sq).
    { rewrite Ha, len_app. rewrite wrapu_small by (eval_ground; lia). lia. }
    assert (Hr : u64 ((_repeatCount b - 1) * len sq) = (_repeatCount b - 1) * len sq)
      by (apply wrapu_small; eval_ground; nia).
    unfold bind at 1 2 3, get. rewrite activeMacro_spec, Hs by done. cbv beta iota zeta.
    rewrite Hl, Hr, space_available by done. unfold MAX_SPACE.
    destruct (Z.leb_spec (total_length (_macros b) + (_repeatCount b - 1) * len sq) 262144) as [Hf|Hf];
      destruct (Z.ltb_spec (262144 - total_length (_macros b)) ((_repeatCount b - 1) * len sq));
      try lia; [|done].
    unfold bind at 1. rewrite (append_copies_spec _ b p sq []); try done;
      [|by rewrite app_nil_r|unfold MAX_SPACE; lia].
    replace (Z.to_nat (Z.max 1 (_repeatCount b))) with (S (Z.to_nat (_repeatCount b - 1))) by lia.
    rewrite Ha, <- app_assoc. done.
  - destruct (Z.leb_spec (total_length (_macros b) + (_repeatCount b - 1) * len sq) 262144); [|nia].
    replace (Z.to_nat (Z.max 1 (_repeatCount b))) with 1%nat by lia.
    unfold copies. cbn [repeat concat]. by rewrite app_nil_r, <- Ha, with_active_id.
Qed.

(** ** Safety of definitions *)

Lemma accounted_ext b b' :
  _macros b' = _macros b -> _activeMacroId b' = _activeMacroId b ->
  _spaceUsed b' = _spaceUsed b -> _repeatCount b' = _repeatCount b ->
  accounted b -> accounted b'.
Proof. intros E1 E2 E3 E4 []. split; rewrite ?E1, ?E2, ?E3, ?E4; done. Qed.

Lemma repeat_ok_ext b b' :
  _macros b' = _macros b -> _activeMacroId b' = _activeMacroId b ->
  _repeatPending b' = _repeatPending b -> _repeatStart b' = _repeatStart b ->
  repeat_ok b -> repeat_ok b'.
Proof. intros E1 E2 E3 E4. unfold repeat_ok, active. by rewrite E1, E2, E3, E4. Qed.

Lemma decodeHexDigit_spec ch b :
  _decodeHexDigit ch b =
  match HexToUint ch with
  | Some d => (set_decodedChar (u16 (u16 (Z.shiftl (_decodedChar b) 4) + d)) b, Ok true)
  | None => (set_decodedChar (u16 (Z.shiftl (_decodedChar b) 4)) b, Ok false)
  end.
Proof. unfold _decodeHexDigit, HexToUint, bind, modify. by repeat case_if. Qed.

(** A result that is well accounted, whatever it is, and has its repeat in order if
    the parser goes on. *)
Definition parsed (b : MacroBuffer) (res : MacroBuffer * Result bool) : Prop :=
  exists b' r, res = (b', Ok r) /\ accounted b' /\ (r = true -> repeat_ok b') /\
    _invokedDepth b' = _invokedDepth b.

Lemma parsed_append ch b :
  accounted b -> repeat_ok b -> parsed b (_appendToActiveMacro ch b).
Proof.
  intros Hb Hr. rewrite append_spec by done. case_if; bool_prop; [|by exists b, false].
  exists (with_active (active b ++ [ch]) b), true. split; [done|].
  split; [apply with_active_accounted; [done|rewrite len_app, len_single; lia]|].
  split; [|done]. intros _ Hp. destruct (Hr Hp) as (p & sq & Ha & Hs).
  exists p, (sq ++ [ch]). rewrite active_with_active by done. split; [|done].
  by rewrite Ha, app_assoc.
Qed.

Lemma parsed_repeat b : accounted b -> repeat_ok b -> _repeatPending b = true -> parsed b (_applyPendingRepeat b).
Proof.
  intros Hb Hr Hp. destruct (Hr Hp) as (p & sq & Ha & Hs).
  rewrite (applyPendingRepeat_spec b p sq) by done. case_if; bool_prop; [|by exists b, false].
  eexists _, true. split; [done|]. split; [|done].
  eapply accounted_ext; [..|apply (with_active_accounted
    (p ++ copies (Z.to_nat (Z.max 1 (_repeatCount b))) sq) b Hb)]; try done.
  rewrite Ha, !len_app, len_copies. pose proof (len_nonneg sq). pose proof (ac_limit b Hb).
  pose proof (ac_count b Hb). destruct (Z.max_spec 1 (_repeatCount b)) as [[? ->]|[? ->]]; nia.
Qed.

Lemma parsed_count n b :
  accounted b -> repeat_ok b -> 0 <= n <= MAX_PARAMETER_VALUE ->
  parsed b (set_repeatCount n b, Ok true).
Proof.
  intros Hb Hr Hn. eexists _, true. split; [done|]. split; [by destruct Hb; split|].
  split; [intros _; by eapply repeat_ok_ext; [..|exact Hr]|done].
Qed.

Lemma parse_step_spec ch b :
  accounted b -> repeat_ok b -> parsed b (parse_step ch (_parseState b) b).
Proof.
  intros Hb Hr. destruct (_parseState b); cbn [parse_step]; [by apply parsed_append|..].
  - unfold bind at 1. rewrite decodeHexDigit_spec. unfold bind at 1, get.
    assert (Hd : forall d, accounted (set_decodedChar d b) /\ repeat_ok (set_decodedChar d b)).
    { intros d. split; [by eapply accounted_ext; [..|exact Hb]|by eapply repeat_ok_ext; [..|exact Hr]]. }
    destruct (HexToUint ch) as [d|]; cbv beta iota.
    + eexists _, true. split; [done|]. split; [by eapply accounted_ext; [..|exact Hb]|].
      split; [intros _; by eapply repeat_ok_ext; [..|exact Hr]|done].
    + set (b1 := set_decodedChar _ b). destruct (Hd (u16 (Z.shiftl (_decodedChar b) 4))) as [Hb1 Hr1].
      fold b1 in Hb1, Hr1. case_if.
      { destruct (parsed_count 0 (set_parseState ExpectingRepeatCount b1)) as (b' & r & E & H');
          [by eapply accounted_ext; [..|exact Hb1]|by eapply repeat_ok_ext; [..|exact Hr1]
          |unfold MAX_PARAMETER_VALUE; lia|]. by exists b', r. }
      case_if; bool_prop; [exact (parsed_repeat b1 Hb1 Hr1 ltac:(done))|by exists b1, false].
  - unfold bind at 1. rewrite decodeHexDigit_spec. destruct (HexToUint ch) as [d|]; cbv beta iota.
    + set (b1 := set_decodedChar _ b).
      assert (Hb1 : accounted b1) by (by eapply accounted_ext; [..|exact Hb]).
      assert (Hr1 : repeat_ok b1) by (by eapply repeat_ok_ext; [..|exact Hr]).
      destruct (parsed_append (_decodedChar b1) b1 Hb1 Hr1) as (b' & r & E & Hb' & Hr' & Hd').
      unfold bind, get, modify. rewrite E. eexists _, r. split; [done|].
      split; [by eapply accounted_ext; [..|exact Hb']|].
      split; [intros Ht; by eapply repeat_ok_ext; [..|exact (Hr' Ht)]|done].
    + eexists _, false. split; [done|]. split; [by eapply accounted_ext; [..|exact Hb]|done].
  - case_if; [|case_if; [|by exists b, false]].
    + bool_prop. apply (parsed_count _ b); [done..|]. cbn. pose proof (ac_count b Hb) as Hc.
      unfold MAX_PARAMETER_VALUE in *. rewrite wrapu_small by (eval_ground; lia). lia.
    + unfold bind at 1, modify at 1. unfold bind at 1. cbv beta iota.
      rewrite activeMacro_spec by (by eapply accounted_ext; [..|exact Hb]).
      eexists _, true. split; [done|]. split; [by eapply accounted_ext; [..|exact Hb]|].
      split; [|done]. intros _ _. exists (active b), []. by rewrite app_nil_r.
Qed.

Lemma ParseDefinition_spec ch b :
  accounted b -> repeat_ok b -> parsed b (ParseDefinition ch b).
Proof.
  intros Hb Hr.
  assert (Hdel : forall b', accounted b' -> accounted (with_active [] b')).
  { intros b' Hb'. apply with_active_accounted; [done|]. pose proof (len_nonneg (active b')).
    pose proof (ac_limit b' Hb'). rewrite len_nil. lia. }
  unfold ParseDefinition. case_if; [|case_if; [by exists b, true|]].
  - unfold bind at 1, get. unfold bind. destruct (_repeatPending b) eqn:Hp; [|by exists b, false].
    destruct (parsed_repeat b Hb Hr Hp) as (b' & r & E & Hb' & _ & Hd'). rewrite E.
    destruct r; cbn; [by exists b', false|]. rewrite delete_active_spec by done.
    exists (with_active [] b'), false. split; [done|]. split; [by apply Hdel|done].
  - destruct (parse_step_spec ch b Hb Hr) as (b' & r & E & Hb' & Hr' & Hd').
    unfold bind, get. rewrite E. destruct r; cbn; [by exists b', true|].
    rewrite delete_active_spec by done.
    exists (with_active [] b'), false. split; [done|]. split; [by apply Hdel|done].
Qed.

Lemma deleteMacro_accounted i b : accounted b -> accounted (_deleteMacro i b).
Proof.
  intros Hb. unfold _deleteMacro. destruct (_macros b !! i) as [m|] eqn:Hm; [|done].
  pose proof (total_length_insert _ i m [] Hm) as Ht. rewrite len_nil in Ht.
  pose proof (total_length_nonneg (<[i := []]> (_macros b))). pose proof (len_nonneg m).
  destruct Hb as [H1 H2 H3 H4 H5]. unfold MAX_SPACE in *.
  assert (Hu : u64 (_spaceUsed b - len m) = total_length (<[i := []]> (_macros b))).
  { rewrite H3, wrapu_small by (eval_ground; lia). lia. }
  split; cbn; try done; [by rewrite length_insert|unfold MAX_SPACE; lia].
Qed.

Lemma deleteMacros_accounted l b :
  accounted b ->
  exists b', iterM (fun i => modify (_deleteMacro i)) l b = (b', Ok tt) /\ accounted b' /\
    _repeatPending b' = _repeatPending b.
Proof.
  revert b; induction l as [|i l IH]; intros b Hb; [by exists b|]. cbn [iterM].
  destruct (IH (_deleteMacro i b) (deleteMacro_accounted i b Hb)) as (b' & E & Hb' & Hp).
  exists b'. split; [exact E|]. split; [done|]. rewrite Hp. unfold _deleteMacro. by destruct (_macros b !! i).
Qed.

Lemma InitParser_spec id deleteControl encoding b :
  accounted b ->
  exists b' r, InitParser id deleteControl encoding b = (b', Ok r) /\ accounted b' /\
    (r = true -> repeat_ok b').
Proof.
  intros Hb. unfold InitParser. unfold bind at 1 2, get.
  destruct ((id <? length (_macros b))%nat && (_invokedDepth b =? 0)) eqn:Hid; [|by exists b, false].
  bool_prop. apply Nat.ltb_lt in H. rewrite (ac_macros b Hb) in H.
  unfold bind at 1 2 3, modify at 1 2 3. cbv beta iota.
  set (b1 := set_repeatPending false (set_decodedChar 0 (set_activeMacroId id b))).
  assert (Hb1 : accounted b1) by (by destruct Hb; split).
  assert (Hmain : forall st, exists b' r,
    (modify (set_parseState st) ;;
     (if deleteControl =? DeleteId then delete_active ;; ret true
      else if deleteControl =? DeleteAll then
        iterM (fun i => modify (_deleteMacro i)) (seq 0 (length (_macros b))) ;; ret true
      else ret false)) b1 = (b', Ok r) /\ accounted b' /\ (r = true -> repeat_ok b')).
  { intros st. assert (Hb2 : accounted (set_parseState st b1)) by (by eapply accounted_ext; [..|exact Hb1]).
    unfold bind, modify. case_if; [|case_if].
    - rewrite delete_active_spec by done. eexists _, true. split; [done|]. split; [|done].
      apply with_active_accounted; [done|]. pose proof (len_nonneg (active (set_parseState st b1))).
      pose proof (ac_limit _ Hb2). rewrite len_nil. lia.
    - destruct (deleteMacros_accounted (seq 0 (length (_macros b))) _ Hb2) as (b' & E & Hb' & Hp).
      unfold modify in E. rewrite E. exists b', true. split; [done|]. split; [done|].
      intros _ Ht. by rewrite Hp in Ht.
    - by exists (set_parseState st b1), false. }
  case_if; [apply Hmain|]. case_if; [apply Hmain|]. by exists b1, false.
Qed.

(** An invocation that the limits allow: what the buffer is while the text of the macro is
    processed. *)
Definition start_invoke (macroId : nat) (b : MacroBuffer) : option MacroBuffer :=
  match _macros b !! macroId with
  | Some macro =>
      if (_invokedDepth b <? 16) && (len macro <? u64 (MAX_SPACE - _invokedSequenceLength b))
      then Some (set_invoked (u64 (_invokedDepth b + 1)) (u64 (_invokedSequenceLength b + len macro)) b) else None
  | None => None
  end.

Lemma InvokeMacro_steps {W} (ProcessString : nat -> M (MacroBuffer * W) unit) macroId b w :
  InvokeMacro ProcessString macroId (b, w) =
  match start_invoke macroId b with
  | Some b' => let '((b'', w'), r) := ProcessString macroId (b', w) in ((reset_invoke_depth b'', w'), r)
  | None => ((b, w), Ok tt)
  end.
Proof. unfold InvokeMacro, start_invoke. cbn [fst snd]. destruct (_macros b !! macroId); [|done]. by case_if. Qed.

(** What happens to a buffer: a definition is started, a character of it arrives while the
    parser listens, an invocation begins, one ends, the terminal is reset. *)
Inductive session_step : MacroBuffer * bool -> MacroBuffer * bool -> Prop :=
| step_define id deleteControl encoding b listening b' r :
    InitParser id deleteControl encoding b = (b', Ok r) ->
    session_step (b, listening) (b', r)
| step_char ch b b' r :
    ParseDefinition ch b = (b', Ok r) -> session_step (b, true) (b', r)
| step_invoke id b b' listening :
    start_invoke id b = Some b' -> session_step (b, listening) (b', listening)
| step_return b listening :
    0 < _invokedDepth b -> session_step (b, listening) (reset_invoke_depth b, listening)
| step_reset b listening :
    session_step (b, listening) (ClearMacrosIfInUse b, listening).

Definition reachable : MacroBuffer * bool -> Prop :=
  rtc session_step (MacroBuffer_new, false).

Lemma total_length_NUL macros :
  total_length (map (fun macro => map (fun _ => AsciiChars.NUL) macro) macros) = total_length macros.
Proof.
  induction macros as [|m l IH]; [done|]. unfold total_length in *. cbn [map foldr]. rewrite IH.
  unfold len. by rewrite length_map.
Qed.

Lemma ClearMacrosIfInUse_accounted b : accounted b -> accounted (ClearMacrosIfInUse b).
Proof.
  intros []. unfold ClearMacrosIfInUse. case_if; [|done].
  split; cbn; rewrite ?total_length_NUL; try done. by rewrite length_map.
Qed.

Lemma ClearMacrosIfInUse_repeat b : repeat_ok b -> repeat_ok (ClearMacrosIfInUse b).
Proof.
  intros Hr. unfold ClearMacrosIfInUse. case_if; [|done].
  intros Hp. cbn in Hp. destruct (Hr Hp) as (p & sq & Ha & Hs).
  exists (map (fun _ => AsciiChars.NUL) p), (map (fun _ => AsciiChars.NUL) sq).
  split; [|cbn; by rewrite Hs; unfold len; rewrite length_map].
  unfold active in *. cbn. rewrite list_lookup_fmap, <- map_app.
  rewrite <- Ha. by destruct (_macros b !! _activeMacroId b).
Qed.

(** The counters of the invocations that have not ended. *)
Definition invoked_ok (b : MacroBuffer) : Prop :=
  0 <= _invokedDepth b <= 16 /\ 0 <= _invokedSequenceLength b <= MAX_SPACE /\
  (_invokedDepth b = 0 -> _invokedSequenceLength b = 0).

(** Definitions do not touch them. *)
Definition same_invoked (b b' : MacroBuffer) : Prop :=
  _invokedDepth b' = _invokedDepth b /\ _invokedSequenceLength b' = _invokedSequenceLength b.

#[local] Instance same_invoked_preorder : PreOrder same_invoked.
Proof. split; [done|]. unfold same_invoked. intros ? ? ? [-> ->] [-> ->]. done. Qed.

Ltac keep_invoked :=
  repeat first [apply keeps_if | apply keeps_bind; [apply _| |intros ?] | apply keeps_ret; apply _ | apply keeps_get; apply _
    | apply keeps_throw; apply _ | apply keeps_modify; done | apply keeps_iterM; [apply _|intros ?] | progress case_match].

Lemma deleteMacro_invoked i b : same_invoked b (_deleteMacro i b).
Proof. unfold _deleteMacro. by destruct (_macros b !! i). Qed.

Lemma activeMacro_invoked : keeps same_invoked _activeMacro.
Proof. intros b. unfold _activeMacro. by destruct (_macros b !! _). Qed.

Lemma appendToActiveMacro_invoked ch : keeps same_invoked (_appendToActiveMacro ch).
Proof. unfold _appendToActiveMacro, set_activeMacro. keep_invoked; apply activeMacro_invoked. Qed.

Lemma append_copies_invoked n l : keeps same_invoked (append_copies n l).
Proof.
  induction n as [|n IH]; cbn [append_copies]; [apply keeps_ret; apply _|]. unfold set_activeMacro.
  keep_invoked; first [apply activeMacro_invoked|exact IH].
Qed.

Lemma applyPendingRepeat_invoked : keeps same_invoked _applyPendingRepeat.
Proof. unfold _applyPendingRepeat. keep_invoked; first [apply activeMacro_invoked|apply append_copies_invoked]. Qed.

Lemma InitParser_invoked id d e : keeps same_invoked (InitParser id d e).
Proof.
  unfold InitParser. keep_invoked; first [apply activeMacro_invoked|apply keeps_modify; intros b; apply deleteMacro_invoked].
Qed.

Lemma ParseDefinition_invoked ch : keeps same_invoked (ParseDefinition ch).
Proof.
  unfold ParseDefinition, parse_step, _decodeHexDigit.
  keep_invoked; first [apply activeMacro_invoked|apply append_copies_invoked|apply keeps_modify; intros b; apply deleteMacro_invoked].
Qed.

Lemma start_invoke_ok id b b' :
  invoked_ok b -> start_invoke id b = Some b' -> invoked_ok b' /\ 0 < _invokedDepth b'.
Proof.
  intros (H1 & H2 & H3). unfold start_invoke, MAX_SPACE in *. destruct (_macros b !! id) as [m|]; [|done]. case_if; [|done].
  intros [= <-]. bool_prop. pose proof (len_nonneg m). unfold invoked_ok, MAX_SPACE. cbn [set_invoked _invokedDepth _invokedSequenceLength].
  rewrite (wrapu_small 64 (262144 - _)) in * by (eval_ground; lia). rewrite !wrapu_small by (eval_ground; lia). lia.
Qed.

Lemma reset_invoke_depth_ok b : invoked_ok b -> 0 < _invokedDepth b -> invoked_ok (reset_invoke_depth b).
Proof.
  intros (H1 & H2 & H3) Hd. unfold reset_invoke_depth, invoked_ok in *. cbn [set_invoked _invokedDepth _invokedSequenceLength].
  rewrite wrapu_small by (eval_ground; lia). unfold MAX_SPACE in *. case_if; bool_prop; lia.
Qed.

Definition session_ok (s : MacroBuffer * bool) : Prop :=
  accounted s.1 /\ (s.2 = true -> repeat_ok s.1) /\ invoked_ok s.1.

Lemma invoked_ok_same b b' : same_invoked b b' -> invoked_ok b -> invoked_ok b'.
Proof. unfold same_invoked, invoked_ok. intros [-> ->]. done. Qed.

Lemma session_step_ok s s' : session_step s s' -> session_ok s -> session_ok s'.
Proof.
  intros Hstep (Hb & Hr & Hi). destruct Hstep as [id d e b l b' r E|ch b b' r E|id b b' l E|b l Hd|b l];
    cbn [fst snd] in *.
  - destruct (InitParser_spec id d e b Hb) as (b1 & r1 & E1 & Hb1 & Hr1).
    pose proof (InitParser_invoked id d e b) as Hk. rewrite E in E1, Hk. injection E1 as -> ->.
    split_and!; [exact Hb1|exact Hr1|by eapply invoked_ok_same].
  - destruct (ParseDefinition_spec ch b Hb (Hr eq_refl)) as (b1 & r1 & E1 & Hb1 & Hr1 & _).
    pose proof (ParseDefinition_invoked ch b) as Hk. rewrite E in E1, Hk. injection E1 as -> ->.
    split_and!; [exact Hb1|exact Hr1|by eapply invoked_ok_same].
  - destruct (start_invoke_ok id b b' Hi E) as [Hi' _]. unfold start_invoke in E. destruct (_macros b !! id); [|done].
    destruct (_ && _); [|done]. injection E as <-.
    split_and!; [by eapply accounted_ext; [..|exact Hb]|intros Hl; by eapply repeat_ok_ext; [..|exact (Hr Hl)]|exact Hi'].
  - split_and!; [by eapply accounted_ext; [..|exact Hb]|intros Hl; by eapply repeat_ok_ext; [..|exact (Hr Hl)]|by apply reset_invoke_depth_ok].
  - split_and!; cbn; [by apply ClearMacrosIfInUse_accounted| |].
    + intros Hl. by apply ClearMacrosIfInUse_repeat, Hr.
    + eapply invoked_ok_same; [|exact Hi]. unfold ClearMacrosIfInUse. by case_if.
Qed.

Lemma reachable_ok s : reachable s -> session_ok s.
Proof.
  intros H. unfold reachable in H. assert (H0 : session_ok (MacroBuffer_new, false)).
  { split_and!; [|done|]; [split; cbn; unfold MAX_SPACE, MAX_PARAMETER_VALUE, total_length; cbn; lia || done|].
    unfold invoked_ok, MAX_SPACE. cbn. lia. }
  revert H0. induction H as [|s1 s2 s3 Hs _ IH]; [done|]. eauto using session_step_ok.
Qed.

(** The texts a reset leaves: NUL characters, as many as there were. *)
Lemma cleared_macros b : 0 < _invokedDepth b ->
  _macros (ClearMacrosIfInUse b) = map (fun macro => repeat AsciiChars.NUL (length macro)) (_macros b).
Proof.
  intros Hd. unfold ClearMacrosIfInUse. rewrite (proj2 (Z.ltb_lt _ _) Hd). cbn. apply map_ext. intros m.
  induction m as [|c m IH]; [done|]. cbn. by rewrite IH.
Qed.

(** C32. Whatever definitions arrive, well-formed or not, whatever macros are invoked, one
    within the other, and whenever the terminal is reset, the space in use is the length of
    the macros and never above the limit, no more than 16 invocations are open, and
    neither the start of a definition nor a character of one throws.  While an invocation
    is open no definition starts, and a reset leaves every macro with its length, as NUL
    characters, and the space in use with it; otherwise a reset leaves the buffer alone. *)
Theorem macro_definitions_safe (b : MacroBuffer) (listening : bool) :
  reachable (b, listening) ->
  _spaceUsed b = total_length (_macros b) /\ _spaceUsed b <= MAX_SPACE /\
  0 <= _invokedDepth b <= 16 /\ 0 <= _invokedSequenceLength b <= MAX_SPACE /\
  (forall id deleteControl encoding, exists b' r,
     InitParser id deleteControl encoding b = (b', Ok r) /\ (0 < _invokedDepth b -> b' = b /\ r = false)) /\
  (listening = true -> forall ch, exists b' r, ParseDefinition ch b = (b', Ok r)) /\
  let cleared := ClearMacrosIfInUse b in
  _spaceUsed cleared = total_length (_macros cleared) /\ _invokedDepth cleared = _invokedDepth b /\
  (if 0 <? _invokedDepth b then _macros cleared = map (fun macro => repeat AsciiChars.NUL (length macro)) (_macros b)
   else cleared = b).
Proof.
  intros (Hb & Hr & Hi)%reachable_ok. cbn in Hb, Hr, Hi. pose proof (ac_used b Hb) as Hu.
  split; [done|]. split; [rewrite Hu; apply Hb|]. split; [apply Hi|]. split; [apply Hi|]. cbv zeta. split_and!.
  - intros id d e. destruct (InitParser_spec id d e b Hb) as (b' & r & E & _). exists b', r. split; [done|].
    intros Hd. unfold InitParser in E. unfold bind at 1 2 in E. unfold get in E.
    rewrite (proj2 (Z.eqb_neq _ 0)), andb_false_r in E by lia. by injection E as <- <-.
  - intros Hl ch. destruct (ParseDefinition_spec ch b Hb (Hr Hl)) as (b' & r & E & _).
    by exists b', r.
  - apply (ac_used _ (ClearMacrosIfInUse_accounted b Hb)).
  - unfold ClearMacrosIfInUse. by case_if.
  - destruct (0 <? _invokedDepth b) eqn:Hd; [apply cleared_macros; lia|]. unfold ClearMacrosIfInUse. by rewrite Hd.
Qed.

(** A macro of one character is defined and invoked; a reset blanks it. *)
Lemma macro_definitions_safe_witness :
  exists b b', reachable (b, false) /\ _macros b !! 3%nat = Some [0x41] /\ _invokedDepth b = 1 /\
    InitParser 5 DeleteId HexPair b = (b', Ok false) /\ b' = b /\
    _macros (ClearMacrosIfInUse b) !! 3%nat = Some [AsciiChars.NUL] /\ _spaceUsed (ClearMacrosIfInUse b) = 1.
Proof.
  set (b0 := (ParseDefinition AsciiChars.ESC (ParseDefinition 0x31 (ParseDefinition 0x34
               (InitParser 3 DeleteId HexPair MacroBuffer_new).1).1).1).1).
  set (b := default b0 (start_invoke 3 b0)).
  assert (Hr : reachable (b, false)).
  { eapply rtc_l; [apply (step_define 3 DeleteId HexPair); vm_compute; reflexivity|].
    eapply rtc_l; [apply (step_char 0x34); vm_compute; reflexivity|].
    eapply rtc_l; [apply (step_char 0x31); vm_compute; reflexivity|].
    eapply rtc_l; [apply (step_char AsciiChars.ESC); vm_compute; reflexivity|].
    eapply rtc_l; [apply (step_invoke 3); vm_compute; reflexivity|].
    vm_compute. apply rtc_refl. }
  destruct (macro_definitions_safe b false Hr) as (_ & _ & _ & _ & Hinit & _ & Hu & _ & Hc).
  destruct (Hinit 5%nat DeleteId HexPair) as (b' & r & E & Hin). destruct (Hin ltac:(by vm_compute)) as [Hb' ->].
  exists b, b'. split_and!; [exact Hr|by vm_compute|by vm_compute|exact E|exact Hb'| |rewrite Hu; by vm_compute].
  change (0 <? _invokedDepth b) with true in Hc. rewrite Hc. by vm_compute.
Defined.
