(* ===== verification/MacroText.v ===== *)
(** * The text of macros

    What [MacroBuffer.v]'s parser stores for a definition in hexadecimal pairs with
    repeats, and what an invocation does when macros invoke each other. *)

From stdpp Require Import relations.
From S2P Require Import Prelude Effects DispatchTypes StateMachine Utils MacroBuffer.

Local Open Scope Z_scope.

(** ** What a definition stores *)

(** The characters of a definition, until the parser gives up. *)
Fixpoint feed (chars : wstring) : M MacroBuffer bool :=
  match chars with
  | [] => ret true
  | c :: chars => r <- ParseDefinition c ;; if r : bool then feed chars else ret false
  end.

Lemma feed_app t1 t2 b :
  feed (t1 ++ t2) b = (r <- feed t1 ;; if r : bool then feed t2 else ret false) b.
Proof.
  revert b; induction t1 as [|c t1 IH]; intros b; [done|]. cbn [feed app]. rewrite bind_assoc.
  apply bind_ext; [done|]. intros [] b'; [apply IH|done].
Qed.

(** An element of a definition in hexadecimal pairs: a pair, or a repeat. *)
Inductive item :=
| Pair (hp : wchar * wchar)
| Repeat (count : wstring) (pairs : list (wchar * wchar)).

Definition pair_text (hp : wchar * wchar) : wstring := [hp.1; hp.2].
Definition pair_value (hp : wchar * wchar) : wchar := hex_digit hp.1 * 16 + hex_digit hp.2.
Definition pair_valid (hp : wchar * wchar) : Prop := is_hex hp.1 /\ is_hex hp.2.

Definition item_text (i : item) : wstring :=
  match i with
  | Pair hp => pair_text hp
  | Repeat count pairs => [0x21] ++ count ++ [0x3B] ++ concat (map pair_text pairs) ++ [0x3B]
  end.

(** A count of 0 stands for 1, one above 65535 for 65535. *)
Definition item_value (i : item) : wstring :=
  match i with
  | Pair hp => [pair_value hp]
  | Repeat count pairs =>
      copies (Z.to_nat (Z.max 1 (Z.min (decimal_value count) MAX_PARAMETER_VALUE)))
        (map pair_value pairs)
  end.

Definition item_valid (i : item) : Prop :=
  match i with
  | Pair hp => pair_valid hp
  | Repeat count pairs => Forall (fun c => _isNumber c = true) count /\ Forall pair_valid pairs
  end.

Definition definition_text (items : list item) : wstring := concat (map item_text items).
Definition definition_value (items : list item) : wstring := concat (map item_value items).

(** The parser between two elements, with the text [m] stored so far in the active
    macro of [b0], and a repeat that is pending or not. *)
Record between (b0 : MacroBuffer) (m : wstring) (pending : bool) (count start : Z)
    (b : MacroBuffer) : Prop := {
  bt_accounted : accounted b;
  bt_macros : _macros b = _macros (with_active m b0);
  bt_active : _activeMacroId b = _activeMacroId b0;
  bt_state : _parseState b = ExpectingHexDigit;
  bt_char : _decodedChar b = 0;
  bt_pending : _repeatPending b = pending;
  bt_count : _repeatCount b = count;
  bt_start : _repeatStart b = start
}.

(** The space of the other macros. *)
Definition base (b0 : MacroBuffer) : Z := total_length (_macros b0) - len (active b0).

(** The parser stored [m] and is in a state of [Q], or gave up and deleted the
    macro, because it would not fit. *)
Definition stores (b0 : MacroBuffer) (m : wstring) (Q : MacroBuffer -> Prop)
    (res : MacroBuffer * Result bool) : Prop :=
  if base b0 + len m <=? MAX_SPACE
  then exists b, res = (b, Ok true) /\ Q b
  else exists b, res = (b, Ok false) /\ _macros b = _macros (with_active [] b0).

Lemma ParseDefinition_printable c b :
  0x20 <= c ->
  ParseDefinition c b =
  (success <- parse_step c (_parseState b) ;;
   (if success : bool then ret tt else delete_active) ;; ret success) b.
Proof.
  intros Hc. unfold ParseDefinition, AsciiChars.ESC.
  destruct (Z.eqb_spec c 27); [lia|]. destruct (Z.ltb_spec c 0x20); [lia|]. done.
Qed.

Lemma is_hex_printable c : is_hex c -> 0x20 <= c.
Proof.
  intros [d Hd]. revert Hd. unfold HexToUint. repeat case_if; intros Hd; bool_prop; done || lia.
Qed.

Lemma hex_digit_Some c : is_hex c -> HexToUint c = Some (hex_digit c).
Proof. intros [d Hd]. unfold hex_digit. by rewrite Hd. Qed.

Lemma pair_decoded c1 c2 :
  u16 (u16 (Z.shiftl (u16 (u16 (Z.shiftl 0 4) + hex_digit c1)) 4) + hex_digit c2) =
  pair_value (c1, c2).
Proof.
  pose proof (hex_digit_range c1). pose proof (hex_digit_range c2).
  rewrite Z.shiftl_0_l, !Z.shiftl_mul_pow2 by lia. unfold pair_value. cbn [fst snd].
  rewrite (wrapu_small 16 0), Z.add_0_l by lia.
  rewrite (wrapu_small 16 (hex_digit c1)) by (eval_ground; lia). eval_ground.
  rewrite (wrapu_small 16 (hex_digit c1 * 16)) by (eval_ground; lia).
  apply wrapu_small. eval_ground. lia.
Qed.

Section Definitions.
Context (b0 : MacroBuffer) (Hb0 : accounted b0).

Lemma between_total m pd cnt st b :
  between b0 m pd cnt st b -> total_length (_macros b) = base b0 + len m.
Proof. intros Hb. rewrite (bt_macros _ _ _ _ _ _ Hb), total_with_active by done. done. Qed.

Lemma between_active m pd cnt st b : between b0 m pd cnt st b -> active b = m.
Proof.
  intros Hb. unfold active. rewrite (bt_macros _ _ _ _ _ _ Hb), (bt_active _ _ _ _ _ _ Hb).
  by apply active_with_active.
Qed.

Lemma macros_with_active b m m' :
  _macros b = _macros (with_active m b0) -> _activeMacroId b = _activeMacroId b0 ->
  _macros (with_active m' b) = _macros (with_active m' b0).
Proof.
  intros E1 E2. unfold with_active; cbn. rewrite E1, E2. cbn. by rewrite list_insert_insert_eq.
Qed.

Lemma stores_mono m (Q1 Q2 : MacroBuffer -> Prop) res :
  (forall b, Q1 b -> Q2 b) -> stores b0 m Q1 res -> stores b0 m Q2 res.
Proof. intros HQ. unfold stores. case_if; intros (b & E & Hb); exists b; auto. Qed.

Lemma stores_then m1 m2 Q1 Q2 t1 t2 b :
  stores b0 m1 Q1 (feed t1 b) -> len m1 <= len m2 ->
  (forall b', Q1 b' -> stores b0 m2 Q2 (feed t2 b')) ->
  stores b0 m2 Q2 (feed (t1 ++ t2) b).
Proof.
  intros H1 Hlen H2. rewrite feed_app. unfold stores in H1. revert H1.
  destruct (Z.leb_spec (base b0 + len m1) MAX_SPACE) as [Hf|Hf]; intros (b' & E & Hb').
  - unfold bind. rewrite E. auto.
  - unfold stores. destruct (Z.leb_spec (base b0 + len m2) MAX_SPACE); [lia|].
    exists b'. split; [|done]. unfold bind. by rewrite E.
Qed.

Lemma feed_pair hp m pd cnt st b :
  pair_valid hp -> between b0 m pd cnt st b ->
  stores b0 (m ++ [pair_value hp]) (between b0 (m ++ [pair_value hp]) pd cnt st)
    (feed (pair_text hp) b).
Proof.
  destruct hp as [c1 c2]. intros [H1 H2] Hb. cbn [fst snd] in H1, H2.
  cbn [pair_text fst snd feed].
  unfold bind at 1. rewrite ParseDefinition_printable by (by apply is_hex_printable).
  rewrite (bt_state _ _ _ _ _ _ Hb). cbn [parse_step]. unfold bind at 1 2.
  rewrite decodeHexDigit_spec, (hex_digit_Some c1 H1), (bt_char _ _ _ _ _ _ Hb).
  unfold bind at 1 2 3, get at 1, modify, ret. cbv beta iota.
  set (b1 := set_parseState ExpectingSecondHexDigit _).
  unfold bind at 1. rewrite ParseDefinition_printable by (by apply is_hex_printable).
  change (_parseState b1) with ExpectingSecondHexDigit. cbn [parse_step].
  unfold bind at 1 2. rewrite decodeHexDigit_spec, (hex_digit_Some c2 H2). cbv beta iota.
  change (_decodedChar b1) with (u16 (u16 (Z.shiftl 0 4) + hex_digit c1)). rewrite pair_decoded.
  set (b2 := set_decodedChar _ b1).
  assert (Hb2 : accounted b2) by (by eapply accounted_ext; [..|exact (bt_accounted _ _ _ _ _ _ Hb)]).
  unfold bind at 1 2, get. rewrite append_spec by done. change (_decodedChar b2) with (pair_value (c1, c2)).
  change (_macros b2) with (_macros b). rewrite (between_total m pd cnt st b Hb).
  assert (Ha : active b2 = m) by exact (between_active _ _ _ _ _ Hb). rewrite Ha.
  unfold stores. rewrite len_app, len_single.
  destruct (Z.leb_spec (base b0 + (len m + 1)) MAX_SPACE), (Z.ltb_spec (base b0 + len m) MAX_SPACE);
    try lia; unfold bind, modify, ret; cbv beta iota.
  - eexists. split; [done|]. split; try apply Hb; try done.
    + eapply accounted_ext; [..|apply (with_active_accounted (m ++ [pair_value (c1, c2)]) b2 Hb2)]; try done.
      change (_macros b2) with (_macros b).
      rewrite Ha, (between_total m pd cnt st b Hb), len_app, len_single. lia.
    + apply (macros_with_active _ m); apply Hb.
  - rewrite delete_active_spec by (by eapply accounted_ext; [..|exact Hb2]).
    eexists. split; [done|]. apply (macros_with_active _ m); apply Hb.
Qed.

Lemma feed_pairs pairs m pd cnt st b :
  Forall pair_valid pairs -> between b0 m pd cnt st b ->
  stores b0 (m ++ map pair_value pairs) (between b0 (m ++ map pair_value pairs) pd cnt st)
    (feed (concat (map pair_text pairs)) b).
Proof.
  intros Hps. revert m b; induction Hps as [|hp pairs Hp Hps IH]; intros m b Hb; cbn [map concat].
  - rewrite app_nil_r. unfold stores. rewrite <- (between_total m pd cnt st b Hb).
    destruct (Z.leb_spec (total_length (_macros b)) MAX_SPACE); [by exists b|].
    pose proof (ac_limit _ (bt_accounted _ _ _ _ _ _ Hb)). lia.
  - replace (m ++ pair_value hp :: map pair_value pairs)
      with ((m ++ [pair_value hp]) ++ map pair_value pairs) by (by rewrite <- app_assoc).
    eapply stores_then; [by apply feed_pair| |by intros b' Hb'; apply IH].
    rewrite (len_app (m ++ [pair_value hp])). pose proof (len_nonneg (map pair_value pairs)). lia.
Qed.

(** The parser in the count of a repeat. *)
Record counting (m : wstring) (count : Z) (b : MacroBuffer) : Prop := {
  ct_accounted : accounted b;
  ct_macros : _macros b = _macros (with_active m b0);
  ct_active : _activeMacroId b = _activeMacroId b0;
  ct_state : _parseState b = ExpectingRepeatCount;
  ct_char : _decodedChar b = 0;
  ct_pending : _repeatPending b = false;
  ct_count : _repeatCount b = count
}.

Lemma feed_digits digits m v b :
  Forall (fun c => _isNumber c = true) digits -> 0 <= v ->
  counting m (Z.min v MAX_PARAMETER_VALUE) b ->
  exists b', feed digits b = (b', Ok true) /\
    counting m (Z.min (foldl (fun v c => v * 10 + (c - 0x30)) v digits) MAX_PARAMETER_VALUE) b'.
Proof.
  intros Hds. revert v b; induction Hds as [|c ds Hc Hds IH]; intros v b Hv Hb; [by exists b|].
  cbn [feed foldl]. unfold bind at 1.
  assert (Hr : 0x30 <= c <= 0x39) by (unfold _isNumber in Hc; bool_prop; lia).
  rewrite ParseDefinition_printable by lia. rewrite (ct_state _ _ _ Hb). cbn [parse_step].
  change ((0x30 <=? c) && (c <=? 0x39)) with (_isNumber c). rewrite Hc. unfold bind, modify, ret. cbn. apply IH; [lia|].
  destruct Hb as [[] ? ? ? ? ? E]. unfold MAX_PARAMETER_VALUE in *.
  assert (Ew : u64 (_repeatCount b * 10 + (c - 48)) = _repeatCount b * 10 + (c - 48))
    by (apply wrapu_small; eval_ground; lia).
  split; cbn; try done; [|rewrite Ew, E; lia]. split; cbn; try done. rewrite Ew. unfold MAX_PARAMETER_VALUE. lia.
Qed.

(** The start of a repeat, up to its first pair. *)
Lemma feed_repeat_start count m cnt st b :
  Forall (fun c => _isNumber c = true) count -> between b0 m false cnt st b ->
  exists b', feed ([0x21] ++ count ++ [0x3B]) b = (b', Ok true) /\
    between b0 m true (Z.min (decimal_value count) MAX_PARAMETER_VALUE) (len m) b'.
Proof.
  intros Hds Hb. pose proof Hb as []. cbn [app feed]. unfold bind at 1.
  rewrite ParseDefinition_printable by lia. rewrite bt_state0. cbn [parse_step].
  unfold bind at 1 2. rewrite decodeHexDigit_spec. change (HexToUint 0x21) with (@None Z).
  rewrite bt_char0. unfold bind at 1, get. cbv beta iota. cbn [set_decodedChar _repeatPending].
  rewrite bt_pending0. cbn [negb andb Z.eqb Pos.eqb]. unfold bind, modify, ret. cbn [Z.eqb Pos.eqb].
  cbv beta iota.
  set (b1 := set_repeatCount 0 _).
  assert (Hb1 : counting m (Z.min 0 MAX_PARAMETER_VALUE) b1).
  { split; try done. by destruct bt_accounted0; split. }
  destruct (feed_digits count m 0 b1 Hds ltac:(lia) Hb1) as (b2 & E2 & []).
  rewrite feed_app. unfold bind. rewrite E2. cbn [feed]. unfold bind at 1.
  rewrite ParseDefinition_printable by lia. rewrite ct_state0. cbn [parse_step Z.leb Z.eqb].
  unfold bind, modify. cbn. rewrite activeMacro_spec by (by destruct ct_accounted0; split).
  eexists. split; [done|]. split; try done.
  - by destruct ct_accounted0; split.
  - cbn. f_equal. unfold active. cbn. rewrite ct_macros0, ct_active0. by apply active_with_active.
Qed.

(** The end of a repeat. *)
Lemma repeat_end m sq cnt b :
  between b0 (m ++ sq) true cnt (len m) b ->
  exists b1, _applyPendingRepeat b =
    (b1, Ok (base b0 + len (m ++ copies (Z.to_nat (Z.max 1 cnt)) sq) <=? MAX_SPACE)) /\
    (base b0 + len (m ++ copies (Z.to_nat (Z.max 1 cnt)) sq) <= MAX_SPACE ->
     between b0 (m ++ copies (Z.to_nat (Z.max 1 cnt)) sq) false cnt (len m) b1) /\
    accounted b1 /\ (MAX_SPACE < base b0 + len (m ++ copies (Z.to_nat (Z.max 1 cnt)) sq) -> b1 = b).
Proof.
  intros Hb. pose proof (between_total _ _ _ _ _ Hb) as Ht. pose proof (between_active _ _ _ _ _ Hb) as Ha.
  pose proof Hb as []. pose proof (ac_limit b bt_accounted0) as Hl. pose proof (ac_count b bt_accounted0) as Hc.
  rewrite (applyPendingRepeat_spec b m sq) by done. rewrite Ht, bt_count0.
  rewrite Ht in Hl. rewrite bt_count0 in Hc. rewrite len_app in *. pose proof (len_nonneg sq).
  assert (Hlen : len m + len sq + (cnt - 1) * len sq <= len m + len (copies (Z.to_nat (Z.max 1 cnt)) sq)
    /\ (1 <= cnt -> len m + len (copies (Z.to_nat (Z.max 1 cnt)) sq) = len m + len sq + (cnt - 1) * len sq)
    /\ (cnt < 1 -> len (copies (Z.to_nat (Z.max 1 cnt)) sq) = len sq)).
  { rewrite len_copies. destruct (Z.max_spec 1 cnt) as [[? ->]|[? ->]]; rewrite Z2Nat.id by lia; nia. }
  assert (Hiff : base b0 + (len m + len sq) + (cnt - 1) * len sq <= MAX_SPACE <->
    base b0 + (len m + len (copies (Z.to_nat (Z.max 1 cnt)) sq)) <= MAX_SPACE)
    by (destruct (Z.le_gt_cases 1 cnt); nia).
  rewrite !len_app.
  destruct (Z.leb_spec (base b0 + (len m + len sq) + (cnt - 1) * len sq) MAX_SPACE),
    (Z.leb_spec (base b0 + (len m + len (copies (Z.to_nat (Z.max 1 cnt)) sq))) MAX_SPACE); try lia.
  - eexists. split; [done|].
    assert (Hacc : accounted (with_active (m ++ copies (Z.to_nat (Z.max 1 cnt)) sq) b)).
    { apply with_active_accounted; [done|]. rewrite Ht, Ha, !len_app. lia. }
    split; [|split; [by eapply accounted_ext; [..|exact Hacc]|lia]]. intros _.
    split; try done; [by eapply accounted_ext; [..|exact Hacc]|].
    apply (macros_with_active _ (m ++ sq)); done.
  - exists b. split; [done|]. split; [lia|done].
Qed.

Lemma feed_item i m cnt st b :
  item_valid i -> between b0 m false cnt st b ->
  stores b0 (m ++ item_value i) (fun b' => exists cnt' st', between b0 (m ++ item_value i) false cnt' st' b')
    (feed (item_text i) b).
Proof.
  intros Hi Hb. destruct i as [hp|count pairs]; cbn [item_text item_value item_valid] in *.
  - eapply stores_mono; [|by eapply feed_pair]. eauto.
  - destruct Hi as [Hc Hps]. destruct (feed_repeat_start count m cnt st b Hc Hb) as (b1 & E1 & Hb1).
    set (n := Z.min (decimal_value count) MAX_PARAMETER_VALUE) in *.
    set (vs := map pair_value pairs).
    assert (Hlen : len (m ++ vs) <= len (m ++ copies (Z.to_nat (Z.max 1 n)) vs)).
    { rewrite !len_app, len_copies. pose proof (len_nonneg vs). nia. }
    rewrite 2!app_assoc, <- (app_assoc [33] count [59]), feed_app. unfold bind at 1. rewrite E1.
    eapply stores_then; [by apply feed_pairs|exact Hlen|].
    intros b2 Hb2. cbn [feed]. unfold bind at 1. rewrite ParseDefinition_printable by lia.
    pose proof Hb2 as []. rewrite bt_state0. cbn [parse_step]. unfold bind at 1 2.
    rewrite decodeHexDigit_spec. change (HexToUint 0x3B) with (@None Z). rewrite bt_char0.
    assert (Hid : set_decodedChar (u16 (Z.shiftl 0 4)) b2 = b2)
      by (destruct b2; cbn in *; by rewrite bt_char0).
    rewrite Hid. unfold bind at 1, get. rewrite bt_pending0. cbn [Z.eqb Pos.eqb andb negb].
    destruct (repeat_end m vs n b2 Hb2) as (b3 & E3 & Hfit & Hacc & Hsame). rewrite E3.
    unfold stores. destruct (Z.leb_spec (base b0 + len (m ++ copies (Z.to_nat (Z.max 1 n)) vs)) MAX_SPACE).
    + exists b3. split; [done|]. eauto.
    + rewrite (Hsame ltac:(lia)) in *.
      unfold bind. rewrite delete_active_spec by done. eexists. split; [done|].
      by apply (macros_with_active _ (m ++ vs)).
Qed.

Lemma feed_items items m cnt st b :
  Forall item_valid items -> between b0 m false cnt st b ->
  stores b0 (m ++ definition_value items)
    (fun b' => exists cnt' st', between b0 (m ++ definition_value items) false cnt' st' b')
    (feed (definition_text items) b).
Proof.
  intros Hi. revert m cnt st b; induction Hi as [|i items Hi His IH]; intros m cnt st b Hb.
  - eapply stores_mono; [|exact (feed_pairs [] m false cnt st b ltac:(done) Hb)]. eauto.
  - unfold definition_value, definition_text. cbn [map concat]. rewrite app_assoc.
    eapply stores_then; [by eapply feed_item| |intros b' (cnt' & st' & Hb'); by eapply IH].
    rewrite (len_app (m ++ item_value i)). pose proof (len_nonneg (concat (map item_value items))). lia.
Qed.

(** The end of the definition, where a repeat that was not closed takes effect. *)
Lemma end_closed m cnt st b :
  between b0 m false cnt st b -> ParseDefinition AsciiChars.ESC b = (b, Ok false).
Proof. intros []. unfold ParseDefinition. cbn. unfold bind, get. by rewrite bt_pending0. Qed.

Lemma end_open m sq cnt b :
  between b0 (m ++ sq) true cnt (len m) b ->
  exists b', ParseDefinition AsciiChars.ESC b = (b', Ok false) /\
    _macros b' = _macros (with_active
      (if base b0 + len (m ++ copies (Z.to_nat (Z.max 1 cnt)) sq) <=? MAX_SPACE
       then m ++ copies (Z.to_nat (Z.max 1 cnt)) sq else []) b0).
Proof.
  intros Hb. pose proof Hb as []. destruct (repeat_end m sq cnt b Hb) as (b1 & E & Hfit & Hacc & Hsame).
  unfold ParseDefinition. cbn [Z.eqb AsciiChars.ESC Pos.eqb]. unfold bind, get. rewrite bt_pending0, E.
  revert Hfit Hsame. destruct (Z.leb_spec (base b0 + len (m ++ copies (Z.to_nat (Z.max 1 cnt)) sq)) MAX_SPACE);
    intros Hfit Hsame.
  - exists b1. split; [done|]. by apply Hfit.
  - rewrite (Hsame ltac:(lia)), delete_active_spec by done. eexists. split; [done|].
    apply (macros_with_active _ (m ++ sq)); done.
Qed.

End Definitions.

(** The repeat a definition may end in without closing it. *)
Definition open_text (last : option (wstring * list (wchar * wchar))) : wstring :=
  match last with
  | Some (count, pairs) => ([0x21] ++ count ++ [0x3B]) ++ concat (map pair_text pairs)
  | None => []
  end.

Definition open_value (last : option (wstring * list (wchar * wchar))) : wstring :=
  match last with Some (count, pairs) => item_value (Repeat count pairs) | None => [] end.

Definition open_valid (last : option (wstring * list (wchar * wchar))) : Prop :=
  match last with Some (count, pairs) => item_valid (Repeat count pairs) | None => True end.

Lemma InitParser_ready id b :
  accounted b -> (id < 64)%nat -> _invokedDepth b = 0 ->
  exists b', InitParser id DeleteId HexPair b = (b', Ok true) /\ accounted b' /\
    _activeMacroId b' = id /\ _macros b' = <[id := []]> (_macros b) /\
    between b' [] false (_repeatCount b) (_repeatStart b) b'.
Proof.
  intros Hb Hid Hdepth. unfold InitParser. unfold bind at 1 2, get.
  rewrite (ac_macros b Hb), Hdepth. destruct (Nat.ltb_spec id 64); [|lia]. cbn [andb Z.eqb].
  unfold bind, modify. cbn [HexPair DeleteId Z.eqb Pos.eqb]. cbv zeta beta iota.
  set (b1 := set_parseState ExpectingHexDigit _).
  assert (Hb1 : accounted b1) by (by destruct Hb; split).
  rewrite delete_active_spec by done. eexists. split; [done|].
  assert (Hacc : accounted (with_active [] b1)).
  { apply with_active_accounted; [done|]. rewrite len_nil.
    pose proof (len_nonneg (active b1)). pose proof (ac_limit b1 Hb1). lia. }
  split; [done|]. split; [done|]. split; [done|]. split; try done.
  unfold with_active; cbn. by rewrite list_insert_insert_eq.
Qed.

(** What is left to read once the closed elements are stored. *)
Lemma feed_end b0 m last cnt st b :
  accounted b0 -> open_valid last -> between b0 m false cnt st b ->
  exists b', feed (open_text last ++ [AsciiChars.ESC]) b = (b', Ok false) /\
    _macros b' = _macros (with_active
      (if base b0 + len (m ++ open_value last) <=? MAX_SPACE then m ++ open_value last else []) b0).
Proof.
  intros Hb0 Hl Hb. destruct last as [[count pairs]|]; cbn [open_text open_value].
  - destruct Hl as [Hc Hps]. cbn [item_value].
    destruct (feed_repeat_start b0 Hb0 count m cnt st b Hc Hb) as (b1 & E1 & Hb1).
    set (n := Z.min (decimal_value count) MAX_PARAMETER_VALUE) in *. set (vs := map pair_value pairs).
    rewrite <- app_assoc, feed_app. unfold bind at 1. rewrite E1.
    rewrite feed_app. pose proof (feed_pairs b0 Hb0 pairs m true n (len m) b1 Hps Hb1) as Hs.
    unfold stores in Hs. fold vs in Hs. revert Hs.
    destruct (Z.leb_spec (base b0 + len (m ++ vs)) MAX_SPACE) as [Hf|Hf]; intros (b2 & E2 & Hb2);
      unfold bind at 1; rewrite E2.
    + destruct (end_open b0 Hb0 m vs n b2 Hb2) as (b3 & E3 & Hm). cbn [feed]. unfold bind. rewrite E3.
      by exists b3.
    + exists b2. split; [done|]. rewrite Hb2.
      destruct (Z.leb_spec (base b0 + len (m ++ copies (Z.to_nat (Z.max 1 n)) vs)) MAX_SPACE) as [Hx|Hx];
        [|done].
      rewrite !len_app, len_copies in *. pose proof (len_nonneg vs). nia.
  - cbn [app feed]. unfold bind. rewrite (end_closed b0 m cnt st b Hb). exists b. split; [done|].
    rewrite app_nil_r, <- (between_total b0 Hb0 m false cnt st b Hb).
    destruct (Z.leb_spec (total_length (_macros b)) MAX_SPACE); [apply Hb|].
    pose proof (ac_limit _ (bt_accounted _ _ _ _ _ _ Hb)). lia.
Qed.

(** A definition in hexadecimal pairs with repeats, closed or left open at the
    end, stores exactly the text it spells, a repeat as often as its count says
    (0 for once, at most 65535 times), if that fits beside the other macros; if it
    does not fit, the macro is empty.  The other macros stay as they are. *)
Theorem macro_definition_stores (b : MacroBuffer) (listening : bool) (id : nat)
    (items : list item) (last : option (wstring * list (wchar * wchar))) :
  reachable (b, listening) -> (id < 64)%nat -> _invokedDepth b = 0 ->
  Forall item_valid items -> open_valid last ->
  exists b',
    (r <- InitParser id DeleteId HexPair ;;
     if r : bool then feed (definition_text items ++ open_text last ++ [AsciiChars.ESC])
     else ret false) b = (b', Ok false) /\
    _macros b' =
    <[id := if total_length (<[id := []]> (_macros b)) +
                 len (definition_value items ++ open_value last) <=? MAX_SPACE
            then definition_value items ++ open_value last else []]> (_macros b).
Proof.
  intros [Hb _]%reachable_ok Hid Hdepth Hitems Hlast. cbn [fst] in Hb.
  destruct (InitParser_ready id b Hb Hid Hdepth) as (b0 & E0 & Hb0 & Hact & Hm0 & Hbt).
  assert (Hbase : base b0 = total_length (<[id := []]> (_macros b))).
  { unfold base. rewrite (between_active b0 Hb0 _ _ _ _ _ Hbt), Hm0, len_nil. lia. }
  assert (Hfinal : forall m, _macros (with_active m b0) = <[id := m]> (_macros b)).
  { intros m. cbn. by rewrite Hact, Hm0, list_insert_insert_eq. }
  rewrite <- Hbase. unfold bind at 1. rewrite E0, feed_app.
  pose proof (feed_items b0 Hb0 items [] _ _ b0 Hitems Hbt) as Hs. unfold stores in Hs. revert Hs.
  cbn [app]. destruct (Z.leb_spec (base b0 + len (definition_value items)) MAX_SPACE) as [Hf|Hf];
    intros (b1 & E1 & Hb1); unfold bind at 1; rewrite E1.
  - destruct Hb1 as (cnt' & st' & Hb1).
    destruct (feed_end b0 _ last _ _ b1 Hb0 Hlast Hb1) as (b2 & E2 & Hm2).
    exists b2. split; [done|]. by rewrite Hm2, Hfinal.
  - exists b1. split; [done|]. rewrite Hb1, Hfinal. f_equal.
    destruct (Z.leb_spec (base b0 + len (definition_value items ++ open_value last)) MAX_SPACE) as [Hx|Hx];
      [|done].
    rewrite len_app in Hx. pose proof (len_nonneg (open_value last)). lia.
Qed.

(** "41" and the pair "42" three times, left open. *)
Lemma macro_definition_stores_witness :
  exists b',
    (r <- InitParser 5 DeleteId HexPair ;;
     if r : bool then feed (L "41!3;42" ++ [AsciiChars.ESC]) else ret false) MacroBuffer_new
    = (b', Ok false) /\ _macros b' !! 5%nat = Some (L "ABBB").
Proof.
  destruct (macro_definition_stores MacroBuffer_new false 5 [Pair (0x34, 0x31)] (Some ([0x33], [(0x34, 0x32)])))
    as (b' & E & Hm).
  - apply rtc_refl.
  - lia.
  - reflexivity.
  - repeat constructor; eexists; reflexivity.
  - repeat constructor; eexists; reflexivity.
  - exists b'. split; [exact E|]. rewrite Hm. reflexivity.
Defined.

(** ** Invocations

    The parser and the dispatcher behind it are a parameter: [react] says what they
    do on a character and which calls of the buffer that leads to.  The text of a
    macro is read from the buffer itself, character by character, because
    [ProcessString] gets a view into it: a reset in the middle of an invocation
    changes what is still to be read. *)

Inductive call :=
| CallInvoke (id : nat)
| CallDefine (id : nat) (deleteControl encoding : VTInt)
| CallReset.

Section Invocations.
Context {W : Type} (react : W -> wchar -> W * list call).

(** The world, and how many characters were processed. *)
Abbreviation world := (MacroBuffer * (W * Z))%type.

Definition on_buffer {A} (m : M MacroBuffer A) : M world A := fun s =>
  let '(b, r) := m s.1 in ((b, s.2), r).

Definition perform (ProcessString : nat -> M world unit) (c : call) : M world unit :=
  match c with
  | CallInvoke id => InvokeMacro ProcessString id
  | CallDefine id deleteControl encoding =>
      on_buffer (InitParser id deleteControl encoding) ;; ret tt
  | CallReset => modify (fun s => (ClearMacrosIfInUse s.1, s.2))
  end.

Definition process_char (ProcessString : nat -> M world unit) (id i : nat) : M world unit := fun s =>
  match _macros s.1 !! id ≫= (.!! i) with
  | None => (s, Undefined)
  | Some ch =>
      let '(w, calls) := react s.2.1 ch in
      iterM (perform ProcessString) calls (s.1, (w, s.2.2 + 1))
  end.

(** The text of a macro, with fuel for invocations within invocations. *)
Fixpoint process (fuel : nat) (id : nat) : M world unit :=
  match fuel with
  | O => outOfFuel
  | S fuel => fun s =>
      iterM (process_char (process fuel) id) (seq 0 (length (default [] (_macros s.1 !! id)))) s
  end.

Definition shape (b : MacroBuffer) : list nat := map length (_macros b).

(** What happens to the buffer within an invocation: the depth is as before, the
    length of what was invoked grows, no macro is reallocated, and the characters
    processed are paid for by that length and [extra]. *)
Definition within (extra : Z) (s s' : world) : Prop :=
  _invokedDepth s'.1 = _invokedDepth s.1 /\
  _invokedSequenceLength s.1 <= _invokedSequenceLength s'.1 < MAX_SPACE /\
  shape s'.1 = shape s.1 /\
  s'.2.2 - s.2.2 <= _invokedSequenceLength s'.1 - _invokedSequenceLength s.1 + extra.

Definition invoked (s : world) : Prop :=
  1 <= _invokedDepth s.1 <= 16 /\ 0 <= _invokedSequenceLength s.1 < MAX_SPACE.

Lemma within_refl s : invoked s -> within 0 s s.
Proof. intros [? ?]. unfold within. repeat split; lia. Qed.

Lemma within_trans e1 e2 s1 s2 s3 : within e1 s1 s2 -> within e2 s2 s3 -> within (e1 + e2) s1 s3.
Proof. intros (?&?&?&?) (?&?&?&?). unfold within. repeat split; try lia. congruence. Qed.

Lemma within_invoked e s s' : invoked s -> within e s s' -> invoked s'.
Proof. intros [? ?] (E&?&?&?). unfold invoked. rewrite E. lia. Qed.

(** What is expected of the function that processes the text of a macro. *)
Definition processes (P : nat -> M world unit) (depth : Z) : Prop :=
  forall id s, invoked s -> _invokedDepth s.1 = depth ->
  exists s', P id s = (s', Ok tt) /\ within (len (default [] (_macros s.1 !! id))) s s'.

Lemma InvokeMacro_within P depth id s :
  processes P (depth + 1) -> invoked s -> _invokedDepth s.1 = depth ->
  exists s', InvokeMacro P id s = (s', Ok tt) /\ within 0 s s'.
Proof.
  intros HP Hs Hd. unfold InvokeMacro. pose proof Hs as [Hs1 Hs2].
  destruct (_macros s.1 !! id) as [m|] eqn:Hm; [|by exists s; split; [|apply within_refl]].
  pose proof (len_nonneg m). unfold MAX_SPACE in Hs2.
  rewrite (wrapu_small 64 (MAX_SPACE - _)) by (unfold MAX_SPACE; eval_ground; lia).
  destruct ((_invokedDepth s.1 <? 16) && (len m <? MAX_SPACE - _invokedSequenceLength s.1)) eqn:Hc;
    [|by exists s; split; [|apply within_refl]].
  bool_prop. unfold MAX_SPACE in *. rewrite !wrapu_small by (eval_ground; lia).
  destruct s as [b [w c]]; cbn [fst snd] in *. set (b1 := set_invoked _ _ b).
  destruct (HP id (b1, (w, c))) as ([b2 [w2 c2]] & E & Hin); [split; cbn; unfold MAX_SPACE; lia|cbn; lia|].
  rewrite E. eexists. split; [done|].
  destruct Hin as (Ed & El & Es & Ec); cbn [fst snd] in *. cbn in Ed, El, Es, Ec.
  rewrite Hm in Ec. cbn in Ec. unfold MAX_SPACE in El.
  unfold within, reset_invoke_depth; cbn. rewrite Ed, wrapu_small by (eval_ground; lia).
  destruct (Z.eqb_spec (_invokedDepth b + 1 - 1) 0); [lia|]. unfold MAX_SPACE.
  repeat split; try done; lia.
Qed.

Lemma perform_within P depth c s :
  processes P (depth + 1) -> invoked s -> _invokedDepth s.1 = depth ->
  exists s', perform P c s = (s', Ok tt) /\ within 0 s s'.
Proof.
  intros HP Hs Hd. pose proof (within_refl s Hs) as Hrefl.
  destruct c as [id|id d e|]; cbn [perform]; [by eapply InvokeMacro_within|..].
  - exists s. split; [|done]. unfold bind, on_buffer, InitParser. unfold bind at 1 2, get.
    destruct Hs as [Hs _]. destruct (Z.eqb_spec (_invokedDepth s.1) 0); [lia|].
    rewrite andb_false_r. by destruct s.
  - eexists. split; [done|]. destruct s as [b wc]. unfold within, shape, ClearMacrosIfInUse in *; cbn in *.
    case_if; [|done]. cbn. split; [done|]. split; [apply Hrefl|]. split; [|lia].
    rewrite map_map. apply map_ext. intros m. by rewrite length_map.
Qed.

Lemma performs_within P depth cs s :
  processes P (depth + 1) -> invoked s -> _invokedDepth s.1 = depth ->
  exists s', iterM (perform P) cs s = (s', Ok tt) /\ within 0 s s'.
Proof.
  intros HP. revert s; induction cs as [|c cs IH]; intros s Hs Hd.
  { exists s. split; [done|by apply within_refl]. }
  destruct (perform_within P depth c s HP Hs Hd) as (s1 & E1 & H1).
  destruct (IH s1) as (s2 & E2 & H2).
  { by eapply within_invoked. }
  { destruct H1 as [-> _]. done. }
  exists s2. cbn [iterM]. unfold bind. rewrite E1. split; [done|].
  exact (within_trans 0 0 _ _ _ H1 H2).
Qed.

Lemma process_char_within P depth id i s :
  processes P (depth + 1) -> invoked s -> _invokedDepth s.1 = depth ->
  (exists k, shape s.1 !! id = Some k /\ (i < k)%nat) ->
  exists s', process_char P id i s = (s', Ok tt) /\ within 1 s s'.
Proof.
  intros HP Hs Hd (k & Hk & Hi). unfold process_char.
  unfold shape in Hk. rewrite list_lookup_fmap in Hk.
  destruct (_macros s.1 !! id) as [m|]; [|done]. injection Hk as <-. cbn [mbind option_bind].
  destruct (lookup_lt_is_Some_2 m i Hi) as [ch Hch]. rewrite Hch.
  destruct s as [b [w c]]; cbn [fst snd]. destruct (react w ch) as [w' calls].
  destruct (performs_within P depth calls (b, (w', c + 1)) HP) as (s' & E & H'); [done|done|].
  exists s'. split; [done|]. destruct H' as (?&?&?&?). unfold within; cbn [fst snd] in *. repeat split; lia || done.
Qed.

Lemma process_chars_within P depth id l s :
  processes P (depth + 1) -> invoked s -> _invokedDepth s.1 = depth ->
  (exists k, shape s.1 !! id = Some k /\ Forall (fun i => (i < k)%nat) l) ->
  exists s', iterM (process_char P id) l s = (s', Ok tt) /\ within (Z.of_nat (length l)) s s'.
Proof.
  intros HP. revert s; induction l as [|i l IH]; intros s Hs Hd (k & Hk & Hl).
  { exists s. split; [done|by apply within_refl]. }
  inversion Hl as [|? ? Hi Hl']; subst.
  destruct (process_char_within P _ id i s HP Hs eq_refl ltac:(eauto)) as (s1 & E1 & H1).
  destruct (IH s1) as (s2 & E2 & H2).
  { by eapply within_invoked. }
  { by destruct H1 as [-> _]. }
  { exists k. by destruct H1 as (_&_&->&_). }
  exists s2. cbn [iterM]. unfold bind. rewrite E1. split; [done|].
  replace (Z.of_nat (length (i :: l))) with (1 + Z.of_nat (length l)) by (cbn [length]; lia).
  by eapply within_trans.
Qed.

Lemma process_processes fuel depth :
  1 <= depth <= 16 -> 17 - depth <= Z.of_nat fuel -> processes (process fuel) depth.
Proof.
  revert depth; induction fuel as [|fuel IH]; intros depth Hd Hf id s Hs Hds; [lia|].
  cbn [process]. unfold len.
  assert (HP : processes (process fuel) (depth + 1)).
  { destruct (Z.eq_dec depth 16) as [->|]; [|apply IH; lia].
    intros id' s' [Hs' _] Hd'. lia. }
  destruct (_macros s.1 !! id) as [m|] eqn:Hm; cbn [default].
  - destruct (process_chars_within (process fuel) depth id (seq 0 (length m)) s HP Hs Hds) as (s' & E & H').
    + exists (length m). unfold shape. rewrite list_lookup_fmap, Hm. split; [done|].
      apply Forall_forall. intros i Hi%in_seq. lia.
    + rewrite length_seq in H'. eauto.
  - exists s. split; [done|by apply within_refl].
Qed.

End Invocations.

(** C33. Whatever the parser and the dispatcher do on the text of a macro, an
    invocation outside of any other ends: 16 levels are enough however macros
    invoke each other, the view into the buffer stays valid for as long as it is
    read, fewer than 262144 characters are processed in all, and depth and length
    are back at zero, so the next invocation has the whole budget again.  No macro
    changes its length: definitions are refused, a reset only blanks the text. *)
Theorem macro_invocation_bounded {W : Type} (react : W -> wchar -> W * list call)
    (id : nat) (b : MacroBuffer) (w : W) :
  _invokedDepth b = 0 -> _invokedSequenceLength b = 0 ->
  exists b' w' processed,
    InvokeMacro (process react 16) id (b, (w, 0)) = ((b', (w', processed)), Ok tt) /\
    processed < MAX_SPACE /\
    _invokedDepth b' = 0 /\ _invokedSequenceLength b' = 0 /\
    map length (_macros b') = map length (_macros b).
Proof.
  intros Hd Hl. unfold InvokeMacro. cbn [fst snd]. rewrite Hd, Hl.
  destruct (_macros b !! id) as [m|] eqn:Hm; [|by exists b, w, 0].
  pose proof (len_nonneg m). rewrite (wrapu_small 64 (MAX_SPACE - 0)) by (unfold MAX_SPACE; eval_ground; lia).
  cbn [Z.ltb Z.compare andb]. destruct (Z.ltb_spec (len m) (MAX_SPACE - 0)) as [Hlt|]; [|by exists b, w, 0].
  unfold MAX_SPACE in Hlt. rewrite !wrapu_small by (eval_ground; lia).
  destruct (process_processes react 16 1 ltac:(lia) ltac:(lia) id (set_invoked (0 + 1) (0 + len m) b, (w, 0)))
    as ([b' [w' c']] & E & Hin); [split; cbn; unfold MAX_SPACE; lia|done|].
  rewrite E. eexists _, _, _. split; [done|]. destruct Hin as (Ed & El & Es & Ec).
  cbn [fst snd _invokedDepth _invokedSequenceLength set_invoked _macros] in *. rewrite Hm in Ec.
  unfold default, Datatypes.id in Ec. split; [lia|].
  unfold reset_invoke_depth. rewrite Ed. by cbn.
Qed.

(** A macro that invokes itself forever, for a parser that takes any character for
    an invocation of macro 0. *)
Lemma macro_invocation_bounded_witness :
  exists b' processed,
    InvokeMacro (process (fun (w : unit) _ => (w, [CallInvoke 0%nat])) 16) 0
      (set_macros (<[0%nat := [0x41]]> (_macros MacroBuffer_new)) MacroBuffer_new, (tt, 0)) =
    ((b', (tt, processed)), Ok tt) /\ processed = 16 /\ processed < MAX_SPACE.
Proof.
  destruct (macro_invocation_bounded (fun (w : unit) _ => (w, [CallInvoke 0%nat])) 0
    (set_macros (<[0%nat := [0x41]]> (_macros MacroBuffer_new)) MacroBuffer_new) tt eq_refl eq_refl)
    as (b' & [] & processed & E & Hlt & _).
  exists b', processed. split; [exact E|]. split; [|exact Hlt].
  revert E. vm_compute. intros [=]. done.
Defined.
