(* ===== verification/Rle.v ===== *)
(** * Run-length encoded vectors

    Models [til::basic_rle] (src/src/inc/til/rle.h), the container of the attributes
    of a row: a vector of runs with the length of what it stands for.  The container
    of the runs is a list, an iterator into it an index; dereferencing an iterator
    outside of the container is [Undefined].  [w] is the width of the [size_type],
    16 for the rows of the text buffer.

    [Rle.v] has the operations, [RleLaws.v] the theorems about them. *)

From S2P Require Import Prelude Effects.

Local Open Scope Z_scope.

Record rle_pair (T : Type) := mk_rle_pair {
  value : T;
  run_length : Z
}.
Arguments mk_rle_pair {T}.
Arguments value {T}.
Arguments run_length {T}.

#[export] Instance rle_pair_eq_dec {T} `{EqDecision T} : EqDecision (rle_pair T).
Proof. solve_decision. Defined.

Record basic_rle (T : Type) := mk_basic_rle {
  _runs : list (rle_pair T);
  _total_length : Z
}.
Arguments mk_basic_rle {T}.
Arguments _runs {T}.
Arguments _total_length {T}.

Section Rle.
Context {T : Type} `{EqDecision T} `{Inhabited T} (w : Z).

Abbreviation run := (rle_pair T).
Abbreviation rle := (basic_rle T).

Definition set_length (n : Z) (r : run) : run := mk_rle_pair (value r) n.

(** ** Construction and size *)

Definition rle_empty : rle := mk_basic_rle [] 0.

Definition rle_of_runs (runs : list run) : rle :=
  mk_basic_rle runs (foldl (fun total r => wrapu w (total + run_length r)) 0 runs).

Definition rle_of_value (n : Z) (v : T) : rle :=
  mk_basic_rle (if n =? 0 then [] else [mk_rle_pair v n]) n.

Definition rle_is_empty (r : rle) : bool := _total_length r =? 0.

Definition rle_size (r : rle) : Z := _total_length r.

(** ** [rle_scanner]

    The scanner keeps its place between two scans: the index of the run, the runs
    from there on, and the length of the runs before. *)
Record rle_scanner := mk_scanner {
  sc_it : nat;
  sc_rest : list run;
  sc_total : Z
}.

Definition scanner_of (r : rle) : rle_scanner := mk_scanner 0 (_runs r) 0.

Fixpoint scan_loop (it : nat) (rest : list run) (total index : Z) : rle_scanner * Z :=
  match rest with
  | [] => (mk_scanner it [] total, 0)
  | r :: rest' =>
      let new_total := wrapu w (total + run_length r) in
      if index <? new_total then (mk_scanner it rest total, wrapu w (index - total))
      else scan_loop (S it) rest' new_total index
  end.

Definition scan (sc : rle_scanner) (index : Z) : rle_scanner * Z :=
  scan_loop (sc_it sc) (sc_rest sc) (sc_total sc) index.

(** ** Access to the runs *)

Definition run_at (i : nat) : M rle run := fun r =>
  match _runs r !! i with
  | Some x => (r, Ok x)
  | None => (r, Undefined)
  end.

(** [begin - 1]. *)
Definition before (i : nat) : M rle nat :=
  match i with O => undefined | S i => ret i end.

Definition set_runs (runs : list run) (r : rle) : rle := mk_basic_rle runs (_total_length r).
Definition set_total (n : Z) (r : rle) : rle := mk_basic_rle (_runs r) n.

Definition put_run (i : nat) (x : run) : M rle unit :=
  run_at i ;; modify (fun r => set_runs (<[i := x]> (_runs r)) r).

Definition put_length (i : nat) (n : Z) : M rle unit :=
  x <- run_at i ;; put_run i (set_length (wrapu w n) x).

(** [_runs.erase(begin, end)], [_runs.insert(begin, ...)] and [std::copy] into the
    container. *)
Definition erase (i j : nat) : M rle unit := fun r =>
  if (i <=? j)%nat && (j <=? length (_runs r))%nat
  then (set_runs (take i (_runs r) ++ drop j (_runs r)) r, Ok tt)
  else (r, Undefined).

Definition insert_runs (i : nat) (xs : list run) : M rle unit := fun r =>
  if (i <=? length (_runs r))%nat
  then (set_runs (take i (_runs r) ++ xs ++ drop i (_runs r)) r, Ok tt)
  else (r, Undefined).

Definition copy_runs (xs : list run) (i : nat) : M rle nat := fun r =>
  if (i + length xs <=? length (_runs r))%nat
  then (set_runs (take i (_runs r) ++ xs ++ drop (i + length xs) (_runs r)) r,
        Ok (i + length xs)%nat)
  else (r, Undefined).

(** ** Reading *)

Definition rle_at (position : Z) (r : rle) : Result T :=
  let '(sc, _) := scan (scanner_of r) position in
  match sc_rest sc with
  | x :: _ => Ok (value x)
  | [] => Throw StdException
  end.

Definition rle_slice (start_index end_index : Z) (r : rle) : Result rle :=
  let end_index := Z.min end_index (_total_length r) in
  if end_index <=? start_index then Ok rle_empty
  else
    let '(sc1, start_run_pos) := scan (scanner_of r) start_index in
    let '(sc2, end_run_pos) := scan sc1 (wrapu w (end_index - 1)) in
    let begin_run := sc_it sc1 in
    let end_run := sc_it sc2 in
    let xs := take (S end_run - begin_run) (drop begin_run (_runs r)) in
    match list.last xs with
    | None => Undefined
    | Some back =>
        let xs := take (length xs - 1) xs ++ [set_length (wrapu w (end_run_pos + 1)) back] in
        match xs with
        | [] => Undefined
        | front :: xs =>
            Ok (mk_basic_rle (set_length (wrapu w (run_length front - start_run_pos)) front :: xs)
                  (wrapu w (end_index - start_index)))
        end
    end.

(** ** Compaction

    The vector is [done], the run [ref] points to, runs that were moved away, and
    [rest], the runs from [it] on. *)
Fixpoint compact_move (don : list run) (ref : run) (rest : list run) : list run :=
  match rest with
  | [] => don ++ [ref]
  | it :: rest =>
      if bool_decide (value ref = value it)
      then compact_move don (set_length (wrapu w (run_length ref + run_length it)) ref) rest
      else compact_move (don ++ [ref]) it rest
  end.

(** The search for the first run to join. *)
Fixpoint compact_find (don : list run) (ref : run) (rest : list run) : list run :=
  match rest with
  | [] => don ++ [ref]
  | it :: rest =>
      if bool_decide (value ref = value it)
      then compact_move don (set_length (wrapu w (run_length ref + run_length it)) ref) rest
      else compact_find (don ++ [ref]) it rest
  end.

Definition _compact (r : rle) : rle :=
  match _runs r with
  | [] => r
  | ref :: rest => set_runs (compact_find [] ref rest) r
  end.

Definition rle_replace_values (old_value new_value : T) (r : rle) : rle :=
  _compact (set_runs
    (map (fun x => if bool_decide (value x = old_value)
                   then mk_rle_pair new_value (run_length x) else x) (_runs r)) r).

(** ** Size changes *)

Definition resize_trailing_extent (new_size : Z) : M rle unit :=
  total <- get _total_length ;;
  (if new_size =? 0 then modify (set_runs [])
   else if new_size <? total then
     sc <- get scanner_of ;;
     let '(sc, pos) := scan sc (wrapu w (new_size - 1)) in
     let run := sc_it sc in
     put_length run (pos + 1) ;;
     n <- get (fun r => length (_runs r)) ;;
     erase (S run) n
   else if total <? new_size then
     runs <- get _runs ;;
     (* Expects(!_runs.empty()), which terminates the process *)
     match runs with
     | [] => undefined
     | _ => let back := (length runs - 1)%nat in
            x <- run_at back ;; put_length back (run_length x + (new_size - total))
     end
   else ret tt) ;;
  modify (set_total new_size).

(** ** Replacement *)

Definition _check_indices (start_index end_index : Z) : M rle Z :=
  total <- get _total_length ;;
  let end_index := Z.min end_index total in
  if end_index <? start_index then throw StdException else ret end_index.

(** The range is removed. *)
Definition replace_none (start_index end_index : Z) (begin end_ : nat) (begin_pos end_pos : Z)
    : M rle unit :=
  let removed := wrapu w (end_index - start_index) in
  total <- get _total_length ;;
  p <- (if negb (start_index =? 0) && negb (end_index =? total) then
          previous <- (if negb (begin_pos =? 0) then ret begin else before begin) ;;
          xp <- run_at previous ;;
          xe <- run_at end_ ;;
          if bool_decide (value xp = value xe) then
            put_length end_
              (run_length xe - (end_pos - (if negb (begin_pos =? 0) then begin_pos else run_length xp))) ;;
            ret (0, 0, previous)
          else ret (begin_pos, end_pos, begin)
        else ret (begin_pos, end_pos, begin)) ;;
  let '(begin_pos, end_pos, begin) := p in
  begin <- (if negb (begin_pos =? 0) then put_length begin begin_pos ;; ret (S begin)
            else ret begin) ;;
  (if negb (end_pos =? 0) then xe <- run_at end_ ;; put_length end_ (run_length xe - end_pos)
   else ret tt) ;;
  erase begin end_ ;;
  modify (fun r => set_total (wrapu w (_total_length r - removed)) r).

(** Step 1, at the beginning and at the end of the range. *)
Definition join_begin (start_index : Z) (front : T) (begin : nat) (begin_pos : Z)
    : M rle (Z * nat * Z) :=
  if negb (start_index =? 0) then
    previous <- (if negb (begin_pos =? 0) then ret begin else before begin) ;;
    xp <- run_at previous ;;
    if bool_decide (value xp = front)
    then ret (if negb (begin_pos =? 0) then begin_pos else run_length xp, previous, 0)
    else ret (0, begin, begin_pos)
  else ret (0, begin, begin_pos).

Definition join_end (end_index : Z) (back : T) (end_ : nat) (end_pos : Z)
    : M rle (Z * nat * Z) :=
  total <- get _total_length ;;
  if negb (end_index =? total) then
    xe <- run_at end_ ;;
    if bool_decide (value xe = back)
    then ret (wrapu w (run_length xe - end_pos), S end_, 0)
    else ret (0, end_, end_pos)
  else ret (0, end_, end_pos).

(** Step 2. *)
Definition split_run (begin end_ : nat) (begin_pos end_pos : Z) : M rle (option run * Z) :=
  if (begin =? end_)%nat && negb (begin_pos =? 0) then
    xb <- run_at begin ;;
    ret (Some (mk_rle_pair (value xb) (wrapu w (run_length xb - end_pos))), 0)
  else ret (None, end_pos).

(** Step 3. *)
Definition adjust_lengths (begin end_ : nat) (begin_pos end_pos : Z) : M rle nat :=
  begin <- (if negb (begin_pos =? 0) then put_length begin begin_pos ;; ret (S begin)
            else ret begin) ;;
  (if negb (end_pos =? 0) then xe <- run_at end_ ;; put_length end_ (run_length xe - end_pos)
   else ret tt) ;;
  ret begin.

(** The run that is inserted besides the replacements. *)
Definition extra_space (trailer : option run) : nat :=
  match trailer with Some _ => 1 | None => 0 end.

(** Steps 4 to 6. *)
Definition copy_replacements (begin end_ : nat) (replacements : list run) (trailer : option run)
    : M rle unit :=
  let available_space := (if begin <? end_ then end_ - begin else 0)%nat in
  let required_space :=
    (length replacements + extra_space trailer)%nat in
  let direct := Nat.min available_space (length replacements) in
  it <- copy_runs (take direct replacements) begin ;;
  if (required_space <=? available_space)%nat then erase it end_
  else
    match trailer with
    | Some t =>
        insert_runs it (repeat (mk_rle_pair inhabitant 0) (required_space - available_space)) ;;
        it <- copy_runs (drop direct replacements) begin ;;
        put_run it t
    | None => insert_runs it (drop direct replacements)
    end.

(** Step 7. *)
Definition add_length (i : nat) (n : Z) : M rle unit :=
  if negb (n =? 0) then x <- run_at i ;; put_length i (run_length x + n) else ret tt.

(** Steps 1 to 3: the additional lengths, the range of runs to overwrite, and what
    is left of a run that is split. *)
Definition prepare (start_index end_index : Z) (front back : T) (begin end_ : nat)
    (begin_pos end_pos : Z) : M rle (Z * Z * nat * nat * option run) :=
  p <- join_begin start_index front begin begin_pos ;;
  let '(begin_additional_length, begin, begin_pos) := p in
  p <- join_end end_index back end_ end_pos ;;
  let '(end_additional_length, end_, end_pos) := p in
  p <- split_run begin end_ begin_pos end_pos ;;
  let '(mid_insertion_trailer, end_pos) := p in
  begin <- adjust_lengths begin end_ begin_pos end_pos ;;
  ret (begin_additional_length, end_additional_length, begin, end_, mid_insertion_trailer).

(** Step 8. *)
Definition update_total (start_index end_index : Z) (replacements : list run) : M rle unit :=
  modify (fun r => set_total (wrapu w (_total_length r - (end_index - start_index))) r) ;;
  iterM (fun x => modify (fun r => set_total (wrapu w (_total_length r + run_length x)) r))
    replacements.

Definition _replace_unchecked (start_index end_index : Z) (replacements : list run) : M rle unit :=
  sc <- get scanner_of ;;
  let '(sc1, begin_pos) := scan sc start_index in
  let '(sc2, end_pos) := scan sc1 end_index in
  match replacements, list.last replacements with
  | front :: _, Some back =>
      p <- prepare start_index end_index (value front) (value back) (sc_it sc1) (sc_it sc2)
             begin_pos end_pos ;;
      let '(begin_additional_length, end_additional_length, begin, end_, trailer) := p in
      copy_replacements begin end_ replacements trailer ;;
      add_length begin begin_additional_length ;;
      add_length (begin + (length replacements + extra_space trailer) - 1)
        end_additional_length ;;
      update_total start_index end_index replacements
  | _, _ => replace_none start_index end_index (sc_it sc1) (sc_it sc2) begin_pos end_pos
  end.

Definition rle_replace_runs (start_index end_index : Z) (replacements : list run) : M rle unit :=
  end_index <- _check_indices start_index end_index ;;
  _replace_unchecked start_index end_index replacements.

Definition rle_replace_run (start_index end_index : Z) (replacement : run) : M rle unit :=
  rle_replace_runs start_index end_index [replacement].

Definition rle_replace (start_index end_index : Z) (v : T) : M rle unit :=
  end_index <- _check_indices start_index end_index ;;
  _replace_unchecked start_index end_index
    [mk_rle_pair v (wrapu w (end_index - start_index))].

(** ** [rle_iterator]

    An index into the runs and a position in the run.  [None] is the dereference of
    an iterator past the end. *)
Record rle_iterator := mk_iterator {
  _it : nat;
  _pos : Z
}.

Definition rle_begin : rle_iterator := mk_iterator 0 0.
Definition rle_end (runs : list run) : rle_iterator := mk_iterator (length runs) 0.

Definition iter_deref (runs : list run) (i : rle_iterator) : option T :=
  value <$> runs !! _it i.

(** [operator++()] and [operator--()]. *)
Definition iter_incr (runs : list run) (i : rle_iterator) : option rle_iterator :=
  let pos := wrapu w (_pos i + 1) in
  x ← runs !! _it i;
  Some (if pos =? run_length x then mk_iterator (S (_it i)) 0 else mk_iterator (_it i) pos).

Definition iter_decr (runs : list run) (i : rle_iterator) : option rle_iterator :=
  if _pos i =? 0 then
    match _it i with
    | O => None
    | S it => x ← runs !! it; Some (mk_iterator it (wrapu w (run_length x - 1)))
    end
  else Some (mk_iterator (_it i) (wrapu w (_pos i - 1))).

(** [operator++(int)] and [operator--(int)]: the object after the call, and what is
    returned. *)
Definition iter_post_incr (runs : list run) (i : rle_iterator)
    : option (rle_iterator * rle_iterator) :=
  tmp ← iter_incr runs i; Some (i, tmp).

Definition iter_post_decr (runs : list run) (i : rle_iterator)
    : option (rle_iterator * rle_iterator) :=
  tmp ← iter_decr runs i; Some (i, tmp).

(** The loops of [operator+=], forward and backward. *)
Fixpoint iter_forward (runs : list run) (fuel : nat) (i : rle_iterator) (move : Z)
    : option rle_iterator :=
  if 0 <? move then
    match fuel with
    | O => None
    | S fuel =>
        x ← runs !! _it i;
        let space := run_length x - _pos i in
        if move <? space then Some (mk_iterator (_it i) (wrapu w (_pos i + move)))
        else iter_forward runs fuel (mk_iterator (S (_it i)) 0) (move - space)
    end
  else Some i.

Fixpoint iter_backward (runs : list run) (fuel : nat) (i : rle_iterator) (move : Z)
    : option rle_iterator :=
  if 0 <? move then
    match fuel with
    | O => None
    | S fuel =>
        if move <=? _pos i then Some (mk_iterator (_it i) (wrapu w (_pos i - move)))
        else
          match _it i with
          | O => None
          | S it =>
              x ← runs !! it;
              iter_backward runs fuel (mk_iterator it (wrapu w (run_length x - 1)))
                (move - (_pos i + 1))
          end
    end
  else Some i.

(** [operator+=]: each turn of the loops goes to another run. *)
Definition iter_add (runs : list run) (i : rle_iterator) (move : Z) : option rle_iterator :=
  if 0 <=? move then iter_forward runs (S (length runs)) i move
  else iter_backward runs (S (length runs)) i (- move).

Definition iter_sub (runs : list run) (i : rle_iterator) (offset : Z) : option rle_iterator :=
  iter_add runs i (- offset).

Definition iter_at (runs : list run) (i : rle_iterator) (offset : Z) : option T :=
  i ← iter_add runs i offset; iter_deref runs i.

Definition iter_lt (i j : rle_iterator) : bool :=
  (_it i <? _it j)%nat || ((_it i =? _it j)%nat && (_pos i <? _pos j)).

(** [operator-(const rle_iterator&)]. *)
Definition iter_diff (runs : list run) (this right : rle_iterator) : Z :=
  let negative := iter_lt this right in
  let lower := if negative then this else right in
  let upper := if negative then right else this in
  let distance :=
    foldl (fun d x => d + run_length x) 0 (take (_it upper - _it lower) (drop (_it lower) runs)) in
  let distance := distance - _pos lower + _pos upper in
  if negative then - distance else distance.

End Rle.
