(* ===== verification/RleLaws.v ===== *)
(** * Laws of run-length encoded vectors

    The contract of [til::basic_rle]: it is the vector [decode] spells out.  Every
    operation of [Rle.v] is proved equal to the operation on that vector; in
    particular the in-place replacement, which joins, splits and moves runs in eight
    steps, is a splice.  Replacements keep the runs compact, unless the range that
    is replaced is empty. *)

From S2P Require Import Prelude Effects Rle.

Local Open Scope Z_scope.

Section Laws.
Context {T : Type} `{EqDecision T} `{Inhabited T} (w : Z).

Abbreviation run := (rle_pair T).
Abbreviation rle := (basic_rle T).

(** ** What runs stand for *)

Definition expand (x : run) : list T := repeat (value x) (Z.to_nat (run_length x)).

Definition decode (runs : list run) : list T := concat (map expand runs).

Definition contents (r : rle) : list T := decode (_runs r).

Fixpoint runs_length (runs : list run) : Z :=
  match runs with [] => 0 | x :: runs => run_length x + runs_length runs end.

Definition unsigned (runs : list run) : Prop := Forall (fun x => 0 <= run_length x) runs.

Record wf (r : rle) : Prop := {
  wf_unsigned : unsigned (_runs r);
  wf_total : _total_length r = runs_length (_runs r);
  wf_bound : runs_length (_runs r) < 2 ^ w
}.

Lemma decode_app l1 l2 : decode (l1 ++ l2) = decode l1 ++ decode l2.
Proof. unfold decode. by rewrite map_app, concat_app. Qed.

Lemma decode_cons x l : decode (x :: l) = expand x ++ decode l.
Proof. done. Qed.

Lemma runs_length_app l1 l2 : runs_length (l1 ++ l2) = runs_length l1 + runs_length l2.
Proof. induction l1 as [|x l1 IH]; [done|]. cbn in *. lia. Qed.

Lemma runs_length_nonneg l : unsigned l -> 0 <= runs_length l.
Proof. induction 1; cbn in *; lia. Qed.

Lemma length_expand (x : run) : length (expand x) = Z.to_nat (run_length x).
Proof. apply repeat_length. Qed.

Lemma length_decode l : unsigned l -> Z.of_nat (length (decode l)) = runs_length l.
Proof.
  induction 1 as [|x l Hx Hl IH]; [done|]. rewrite decode_cons, length_app, length_expand.
  cbn [runs_length]. lia.
Qed.

Lemma unsigned_app l1 l2 : unsigned (l1 ++ l2) <-> unsigned l1 /\ unsigned l2.
Proof. apply Forall_app. Qed.

Lemma unsigned_cons x l : unsigned (x :: l) <-> 0 <= run_length x /\ unsigned l.
Proof. apply Forall_cons_iff. Qed.

(** A run is the concatenation of two of its parts. *)
Lemma expand_split (x : run) n :
  0 <= n <= run_length x ->
  expand x = expand (set_length n x) ++ expand (set_length (run_length x - n) x).
Proof.
  intros Hn. unfold expand; cbn. rewrite <- repeat_app. f_equal. lia.
Qed.

Lemma set_length_id (x : run) : set_length (run_length x) x = x.
Proof. by destruct x. Qed.

Lemma expand_zero (x : run) : expand (set_length 0 x) = [].
Proof. done. Qed.

(** ** Scanning *)

(** A place in the runs: those before, those from there on, and how far into the
    first of these. *)
Definition place (l1 l2 : list run) (pos index : Z) : Prop :=
  runs_length l1 + pos = index /\
  match l2 with [] => pos = 0 | x :: _ => 0 <= pos < run_length x end.

Lemma scan_loop_spec it rest total index :
  unsigned rest -> 0 <= total -> total + runs_length rest < 2 ^ w -> total <= index ->
  exists l1 l2 pos,
    rest = l1 ++ l2 /\
    scan_loop w it rest total index = (mk_scanner (it + length l1) l2 (total + runs_length l1), pos) /\
    ((l2 = [] /\ pos = 0 /\ total + runs_length rest <= index) \/
     (place l1 l2 pos (index - total) /\ exists x l, l2 = x :: l)).
Proof.
  intros Hr. revert it total; induction Hr as [|x rest Hx Hrest IH]; intros it total Ht Hb Hi.
  { exists [], [], 0. cbn in *. rewrite Nat.add_0_r, Z.add_0_r. split; [done|]. split; [done|].
    left. split; [done|]. split; [done|lia]. }
  cbn [runs_length] in Hb.
  pose proof (runs_length_nonneg rest Hrest). cbn [scan_loop].
  rewrite (wrapu_small w (total + run_length x)) by lia.
  destruct (Z.ltb_spec index (total + run_length x)).
  - exists [], (x :: rest), (index - total). cbn [length runs_length app].
    rewrite Nat.add_0_r, Z.add_0_r, wrapu_small by lia. split; [done|]. split; [done|]. right.
    split; [|eauto]. split; cbn; lia.
  - destruct (IH (S it) (total + run_length x)) as (l1 & l2 & pos & -> & E & Hcase); [lia..|].
    exists (x :: l1), l2, pos. split; [done|]. cbn [length runs_length].
    split; [rewrite E; f_equal; f_equal; lia|].
    destruct Hcase as [(-> & -> & Hc)|[[Hc1 Hc2] Hc3]]; [left|right].
    + split; [done|]. split; [done|]. cbn [runs_length app] in *. lia.
    + split; [|done]. split; [|done]. cbn [runs_length]. lia.
Qed.

(** ** Edits in place *)

Lemma run_at_eq (r : rle) l1 x l2 i :
  _runs r = l1 ++ x :: l2 -> i = length l1 -> run_at i r = (r, Ok x).
Proof. intros Hr ->. unfold run_at. by rewrite Hr, list_lookup_middle. Qed.

Lemma put_run_eq (r : rle) l1 x l2 i y :
  _runs r = l1 ++ x :: l2 -> i = length l1 ->
  put_run i y r = (set_runs (l1 ++ y :: l2) r, Ok tt).
Proof.
  intros Hr ->. unfold put_run, bind. rewrite (run_at_eq r l1 x l2 _ Hr eq_refl). unfold modify.
  rewrite Hr, insert_app_r_alt, Nat.sub_diag by lia. done.
Qed.

Lemma put_length_eq (r : rle) l1 x l2 i n :
  _runs r = l1 ++ x :: l2 -> i = length l1 -> 0 <= n < 2 ^ w ->
  put_length w i n r = (set_runs (l1 ++ set_length n x :: l2) r, Ok tt).
Proof.
  intros Hr -> Hn. unfold put_length, bind. rewrite (run_at_eq r l1 x l2 _ Hr eq_refl).
  rewrite wrapu_small by lia. by apply (put_run_eq r l1 x l2).
Qed.

Lemma erase_eq (r : rle) l1 m l2 i j :
  _runs r = l1 ++ m ++ l2 -> i = length l1 -> j = (length l1 + length m)%nat ->
  erase i j r = (set_runs (l1 ++ l2) r, Ok tt).
Proof.
  intros Hr -> ->. unfold erase. rewrite Hr. rewrite !length_app.
  destruct (Nat.leb_spec (length l1) (length l1 + length m)); [|lia].
  destruct (Nat.leb_spec (length l1 + length m) (length l1 + (length m + length l2))); [|lia].
  cbn [andb]. rewrite take_app_length. rewrite app_assoc, <- length_app, drop_app_length. done.
Qed.

Lemma insert_runs_eq (r : rle) l1 l2 i xs :
  _runs r = l1 ++ l2 -> i = length l1 ->
  insert_runs i xs r = (set_runs (l1 ++ xs ++ l2) r, Ok tt).
Proof.
  intros Hr ->. unfold insert_runs. rewrite Hr, length_app.
  destruct (Nat.leb_spec (length l1) (length l1 + length l2)); [|lia].
  by rewrite take_app_length, drop_app_length.
Qed.

Lemma copy_runs_eq (r : rle) l1 m l2 i xs :
  _runs r = l1 ++ m ++ l2 -> i = length l1 -> length xs = length m ->
  copy_runs xs i r = (set_runs (l1 ++ xs ++ l2) r, Ok (length l1 + length xs)%nat).
Proof.
  intros Hr -> Hxs. unfold copy_runs. rewrite Hr, Hxs, !length_app.
  destruct (Nat.leb_spec (length l1 + length m) (length l1 + (length m + length l2))); [|lia].
  rewrite take_app_length, (app_assoc l1 m l2), <- length_app, drop_app_length. by rewrite length_app.
Qed.

Lemma set_runs_twice (r : rle) a b : set_runs a (set_runs b r) = set_runs a r.
Proof. done. Qed.

Lemma set_runs_id (r : rle) l : _runs r = l -> set_runs l r = r.
Proof. intros <-. by destruct r. Qed.

(** ** The end result of a replacement

    What is left of the range, with the length that joins the first replacement, and
    likewise what is right of it. *)
Definition left_part (start : Z) (l1 : list run) (l2 : list run) (pos : Z) (front : T)
    : list run * Z :=
  if start =? 0 then (l1, 0)
  else if pos =? 0 then
    match list.last l1 with
    | Some p => if bool_decide (value p = front) then (removelast l1, run_length p) else (l1, 0)
    | None => (l1, 0)
    end
  else
    match l2 with
    | b :: _ => if bool_decide (value b = front) then (l1, pos) else (l1 ++ [set_length pos b], 0)
    | [] => (l1, 0)
    end.

Definition right_part (l3 : list run) (pos : Z) (back : T) : list run * Z :=
  match l3 with
  | [] => ([], 0)
  | e :: l3 => if bool_decide (value e = back) then (l3, run_length e - pos)
               else (set_length (run_length e - pos) e :: l3, 0)
  end.

Definition add_front (n : Z) (l : list run) : list run :=
  match l with [] => [] | x :: l => set_length (run_length x + n) x :: l end.

Fixpoint add_back (n : Z) (l : list run) : list run :=
  match l with
  | [] => []
  | [x] => [set_length (run_length x + n) x]
  | x :: l => x :: add_back n l
  end.

Lemma add_back_snoc n l x : add_back n (l ++ [x]) = l ++ [set_length (run_length x + n) x].
Proof. induction l as [|y l IH]; [done|]. cbn. destruct l; [done|]. cbn in *. by rewrite IH. Qed.

Lemma add_back_0 l : add_back 0 l = l.
Proof.
  destruct l as [|x l _] using rev_ind; [done|].
  by rewrite add_back_snoc, Z.add_0_r, set_length_id.
Qed.

Lemma add_front_0 l : add_front 0 l = l.
Proof. destruct l as [|x l]; [done|]. cbn. by rewrite Z.add_0_r, set_length_id. Qed.

Lemma length_add_front n l : length (add_front n l) = length l.
Proof. by destruct l. Qed.

(** Steps 4 to 6, when nothing was split: the replacements take the place of the
    runs between. *)
Lemma copy_replacements_none (r : rle) P mid S reps :
  _runs r = P ++ mid ++ S ->
  copy_replacements (length P) (length P + length mid) reps None r =
  (set_runs (P ++ reps ++ S) r, Ok tt).
Proof.
  intros Hr. unfold copy_replacements.
  assert (Hav : (if (length P <? length P + length mid)%nat then length P + length mid - length P else 0)%nat
    = length mid) by (destruct (Nat.ltb_spec (length P) (length P + length mid)); lia).
  rewrite Hav. clear Hav. set (k := Nat.min (length mid) (length reps)).
  assert (Hk : length (take k reps) = length (take k mid)) by (rewrite !length_take; lia).
  unfold bind. rewrite (copy_runs_eq r P (take k mid) (drop k mid ++ S) _ (take k reps));
    [|by rewrite Hr, (app_assoc (take k mid)), take_drop|done|done].
  cbn [extra_space]. rewrite Nat.add_0_r. destruct (Nat.leb_spec (length reps) (length mid)).
  - rewrite (erase_eq _ (P ++ take k reps) (drop k mid) S);
      [|by cbn; rewrite <- !app_assoc|by rewrite length_app
       |rewrite length_app, Hk, length_take, length_drop; lia].
    rewrite set_runs_twice, take_ge, <- app_assoc by lia. done.
  - rewrite (insert_runs_eq _ (P ++ take k reps) (drop k mid ++ S));
      [|by cbn; rewrite <- !app_assoc|by rewrite length_app].
    rewrite set_runs_twice, (drop_ge mid) by lia. cbn [app].
    by rewrite <- app_assoc, (app_assoc (take k reps)), take_drop.
Qed.

(** Steps 4 to 6, when a run was split. *)
Lemma copy_replacements_some (r : rle) P S reps t end_ :
  _runs r = P ++ S -> (end_ <= length P)%nat ->
  copy_replacements (length P) end_ reps (Some t) r = (set_runs (P ++ reps ++ t :: S) r, Ok tt).
Proof.
  intros Hr Hend. unfold copy_replacements.
  destruct (Nat.ltb_spec (length P) end_); [lia|]. cbn [Nat.min]. rewrite Nat.sub_0_r.
  change (take 0 reps) with (@nil run). change (drop 0 reps) with reps.
  unfold bind. rewrite (copy_runs_eq r P [] S _ []) by done. cbn [extra_space].
  destruct (Nat.leb_spec (length reps + 1) 0); [lia|].
  rewrite (insert_runs_eq _ P S) by (cbn; lia || done). rewrite set_runs_twice.
  set (d := mk_rle_pair inhabitant 0).
  rewrite (copy_runs_eq _ P (repeat d (length reps)) (d :: S) _ reps);
    [|cbn; by rewrite repeat_app, <- app_assoc|done|by rewrite repeat_length].
  rewrite set_runs_twice, (put_run_eq _ (P ++ reps) d S);
    [|by cbn; rewrite <- !app_assoc|by rewrite length_app].
  by rewrite set_runs_twice, <- app_assoc.
Qed.

(** Step 7. *)
Lemma add_length_eq (r : rle) l1 x l2 i n :
  _runs r = l1 ++ x :: l2 -> i = length l1 -> 0 <= run_length x + n < 2 ^ w ->
  add_length w i n r = (set_runs (l1 ++ set_length (run_length x + n) x :: l2) r, Ok tt).
Proof.
  intros Hr -> Hn. unfold add_length. destruct (Z.eqb_spec n 0) as [->|]; cbn [negb].
  - rewrite Z.add_0_r, set_length_id. by rewrite set_runs_id.
  - unfold bind. rewrite (run_at_eq r l1 x l2 _ Hr eq_refl). by apply (put_length_eq r l1 x l2).
Qed.

Lemma add_front_eq (r : rle) P reps S n :
  _runs r = P ++ reps ++ S -> reps <> [] -> unsigned reps -> 0 <= n -> runs_length reps + n < 2 ^ w ->
  add_length w (length P) n r = (set_runs (P ++ add_front n reps ++ S) r, Ok tt).
Proof.
  intros Hr Hne Hu Hn Hb. destruct reps as [|x reps]; [done|]. apply unsigned_cons in Hu as [Hx Hu].
  pose proof (runs_length_nonneg reps Hu). cbn [runs_length] in Hb.
  by apply (add_length_eq r P x (reps ++ S)); [| |lia].
Qed.

Lemma add_back_eq (r : rle) P reps S n i :
  _runs r = P ++ reps ++ S -> reps <> [] -> unsigned reps -> 0 <= n -> runs_length reps + n < 2 ^ w ->
  i = (length P + length reps - 1)%nat ->
  add_length w i n r = (set_runs (P ++ add_back n reps ++ S) r, Ok tt).
Proof.
  intros Hr Hne Hu Hn Hb ->. destruct reps as [|x reps _] using rev_ind; [done|].
  apply unsigned_app in Hu as [Hu [Hx _]%unsigned_cons]. pose proof (runs_length_nonneg reps Hu).
  rewrite runs_length_app in Hb. cbn [runs_length] in Hb.
  rewrite (add_length_eq r (P ++ reps) x S); [|by rewrite Hr, <- !app_assoc
    |rewrite !length_app; cbn; lia|lia].
  rewrite add_back_snoc. by rewrite <- !app_assoc.
Qed.

(** ** Steps 1 to 3 *)

(** The range of a replacement in the runs of a vector. *)
Record range (r : rle) (l1 m l3 : list run) (start end_ pos_b pos_e : Z) : Prop := {
  rg_wf : wf r;
  rg_runs : _runs r = l1 ++ m ++ l3;
  rg_begin : place l1 (m ++ l3) pos_b start;
  rg_end : place (l1 ++ m) l3 pos_e end_;
  rg_le : start <= end_
}.

Section Range.
Context (r : rle) (l1 m l3 : list run) (start end_ pos_b pos_e : Z).
Context (Hr : range r l1 m l3 start end_ pos_b pos_e).

Lemma range_unsigned : unsigned l1 /\ unsigned m /\ unsigned l3.
Proof.
  destruct Hr as [[Hu _ _] E _ _ _]. rewrite E in Hu.
  apply unsigned_app in Hu as [? Hu]. by apply unsigned_app in Hu as [? ?].
Qed.

Lemma range_lengths :
  0 <= runs_length l1 /\ 0 <= runs_length m /\ 0 <= runs_length l3 /\
  _total_length r = runs_length l1 + runs_length m + runs_length l3 /\
  runs_length l1 + runs_length m + runs_length l3 < 2 ^ w.
Proof.
  destruct range_unsigned as (H1 & H2 & H3). destruct Hr as [[_ Ht Hb] E _ _ _].
  rewrite E in Ht, Hb. rewrite !runs_length_app in Ht, Hb.
  pose proof (runs_length_nonneg _ H1). pose proof (runs_length_nonneg _ H2).
  pose proof (runs_length_nonneg _ H3). lia.
Qed.

Lemma range_pos_b : 0 <= pos_b < 2 ^ w.
Proof.
  pose proof range_lengths as HL. destruct range_unsigned as (H1 & H2 & H3).
  destruct (rg_begin _ _ _ _ _ _ _ _ Hr) as [_ Hp].
  assert (Hu : unsigned (m ++ l3)) by (by apply unsigned_app).
  assert (Hl : runs_length (m ++ l3) = runs_length m + runs_length l3) by apply runs_length_app.
  destruct (m ++ l3) as [|x l]; [lia|]. apply unsigned_cons in Hu as [? Hu].
  pose proof (runs_length_nonneg l Hu). cbn [runs_length] in Hl. lia.
Qed.

Lemma range_last_run e l3' : l3 = e :: l3' -> end_ < _total_length r /\ 0 <= pos_e < run_length e /\ run_length e < 2 ^ w.
Proof.
  pose proof range_lengths as HL. pose proof range_unsigned as HU. pose proof Hr as Hr'. 
  intros El. rewrite El in HL, HU, Hr'. destruct HU as (H1 & H2 & [? H3]%unsigned_cons).
  destruct (rg_end _ _ _ _ _ _ _ _ Hr') as [He Hp]. pose proof (runs_length_nonneg l3' H3).
  cbn [runs_length] in HL. rewrite runs_length_app in He. lia.
Qed.

Lemma range_last_none : l3 = [] -> end_ = _total_length r /\ pos_e = 0.
Proof.
  intros El. pose proof range_lengths as HL. pose proof Hr as Hr'. rewrite El in HL, Hr'.
  destruct (rg_end _ _ _ _ _ _ _ _ Hr') as [He Hp].
  cbn [runs_length] in HL. rewrite runs_length_app in He. lia.
Qed.

(** Either the range begins, after the joining, with a run to overwrite, or it begins
    within a run that stays. *)
Lemma join_begin_spec front :
  exists addb begin' pos',
    join_begin start front (length l1) pos_b r = (r, Ok (addb, begin', pos')) /\
    ((pos' = 0 /\ exists P mid, l1 ++ m = P ++ mid /\ begin' = length P /\
        left_part start l1 (m ++ l3) pos_b front = (P, addb)) \/
     (pos' = pos_b /\ pos_b <> 0 /\ begin' = length l1 /\ addb = 0 /\ exists b l, m ++ l3 = b :: l /\
        left_part start l1 (m ++ l3) pos_b front = (l1 ++ [set_length pos_b b], 0))).
Proof.
  unfold join_begin, left_part. pose proof (rg_runs _ _ _ _ _ _ _ _ Hr) as Hruns.
  destruct (rg_begin _ _ _ _ _ _ _ _ Hr) as [Hs Hp]. destruct (Z.eqb_spec start 0) as [E0|E0]; cbn [negb].
  { pose proof range_lengths. pose proof range_pos_b. assert (pos_b = 0) as -> by lia.
    exists 0, (length l1), 0. split; [done|]. left. split; [done|]. by exists l1, m. }
  destruct (Z.eqb_spec pos_b 0) as [->|Epos]; cbn [negb].
  - assert (Hl1 : exists l1' p, l1 = l1' ++ [p]).
    { clear Hr. destruct l1 as [|p l1' _] using rev_ind; [cbn in Hs; lia|eauto]. }
    destruct Hl1 as (l1' & p & El1). rewrite El1 in Hruns |- *. rewrite last_snoc, length_app, Nat.add_1_r. cbn [before]. unfold bind, ret.
    rewrite (run_at_eq r l1' p (m ++ l3)) by (done || by rewrite Hruns, <- app_assoc).
    case_bool_decide.
    + exists (run_length p), (length l1'), 0. split; [done|]. left. split; [done|].
      exists l1', (p :: m). rewrite removelast_last. by rewrite <- app_assoc.
    + exists 0, (S (length l1')), 0. split; [done|]. left. split; [done|].
      exists (l1' ++ [p]), m. rewrite length_app, Nat.add_1_r. done.
  - destruct (m ++ l3) as [|b l] eqn:Eml; [done|]. unfold bind, ret.
    rewrite (run_at_eq r l1 b l) by (done || by rewrite Hruns).
    case_bool_decide.
    + exists pos_b, (length l1), 0. split; [done|]. left. split; [done|]. by exists l1, m.
    + exists 0, (length l1), pos_b. split; [done|]. right. split; [done|]. split; [done|].
      split; [done|]. split; [done|]. by exists b, l.
Qed.

Lemma join_end_spec back :
  exists adde end' pos',
    join_end w end_ back (length l1 + length m) pos_e r = (r, Ok (adde, end', pos')) /\
    ((l3 = [] /\ adde = 0 /\ pos' = 0 /\ end' = (length l1 + length m)%nat) \/
     exists e l3', l3 = e :: l3' /\
       (if bool_decide (value e = back)
        then adde = run_length e - pos_e /\ pos' = 0 /\ end' = S (length l1 + length m)
        else adde = 0 /\ pos' = pos_e /\ end' = (length l1 + length m)%nat)).
Proof.
  unfold join_end, bind, get. pose proof (rg_runs _ _ _ _ _ _ _ _ Hr) as Hruns.
  assert (Hl3 : l3 = [] \/ exists e l3', l3 = e :: l3') by (clear; destruct l3; eauto).
  destruct Hl3 as [El3|(e & l3' & El3)]; rewrite El3 in Hruns.
  - destruct (range_last_none El3) as [-> ->]. rewrite Z.eqb_refl. cbn.
    eexists _, _, _. split; [done|]. by left.
  - destruct (range_last_run e l3' El3) as [? ?]. destruct (Z.eqb_spec end_ (_total_length r)); [lia|].
    cbn [negb]. rewrite (run_at_eq r (l1 ++ m) e l3');
      [|by rewrite Hruns, <- app_assoc|by rewrite length_app].
    eexists _, _, _. split; [|right; exists e, l3'; split; [done|]].
    + instantiate (3 := if bool_decide (value e = back) then run_length e - pos_e else 0).
      instantiate (2 := if bool_decide (value e = back) then S (length l1 + length m) else (length l1 + length m)%nat).
      instantiate (1 := if bool_decide (value e = back) then 0 else pos_e).
      case_bool_decide; [|done]. by rewrite wrapu_small by lia.
    + by case_bool_decide.
Qed.

(** What the first three steps leave for the others. *)
Definition prepared (P S : list run) (adde : Z) (begin end' : nat) (trailer : option run) (r' : rle)
    : Prop :=
  begin = length P /\ _total_length r' = _total_length r /\
  match trailer with
  | None => exists mid, _runs r' = P ++ mid ++ S /\ end' = (length P + length mid)%nat
  | Some t => exists S', S = t :: S' /\ adde = 0 /\ _runs r' = P ++ S' /\ (end' <= length P)%nat
  end.

(** The run at the end of the range is shortened. *)
Lemma shorten_end (r' : rle) A e l n pos :
  _runs r' = A ++ e :: l -> n = length A -> 0 <= pos < run_length e -> run_length e < 2 ^ w ->
  (if negb (pos =? 0) then xe <- run_at n ;; put_length w n (run_length xe - pos) else ret tt) r' =
  (set_runs (A ++ set_length (run_length e - pos) e :: l) r', Ok tt).
Proof.
  intros E -> Hp Hb. destruct (Z.eqb_spec pos 0) as [->|]; cbn [negb].
  - rewrite Z.sub_0_r, set_length_id, set_runs_id by done. done.
  - unfold bind. rewrite (run_at_eq r' A e l) by done. apply (put_length_eq r' A e l); [done..|lia].
Qed.

(** The range begins with a run to overwrite. *)
Lemma finish_whole (addb : Z) P mid back :
  l1 ++ m = P ++ mid ->
  exists r' adde end' trailer,
    (p <- join_end w end_ back (length l1 + length m) pos_e ;;
     let '(adde, end', pos') := p in
     p <- split_run w (length P) end' 0 pos' ;;
     let '(trailer, pos') := p in
     begin <- adjust_lengths w (length P) end' 0 pos' ;;
     ret (addb, adde, begin, end', trailer)) r = (r', Ok (addb, adde, length P, end', trailer)) /\
    adde = (right_part l3 pos_e back).2 /\
    prepared P (right_part l3 pos_e back).1 adde (length P) end' trailer r'.
Proof.
  intros Em. destruct (join_end_spec back) as (adde & end' & pos' & E & Hcase).
  rewrite (bind_Ok _ _ _ _ _ E). cbv beta iota. unfold split_run. rewrite andb_false_r.
  rewrite bind_ret_l. cbv beta iota. unfold adjust_lengths. cbn [negb Z.eqb].
  rewrite bind_assoc, bind_ret_l, bind_assoc.
  assert (Hlen : (length l1 + length m = length P + length mid)%nat) by (rewrite <- !length_app; congruence).
  pose proof (rg_runs _ _ _ _ _ _ _ _ Hr) as Hruns. rewrite app_assoc, Em, <- app_assoc in Hruns.
  unfold prepared. destruct Hcase as [(El & -> & -> & ->)|(e & l3' & El & Hcase)]; rewrite El in Hruns |- *.
  - cbn. eexists _, _, _, _. split; [done|]. split; [done|]. split; [done|]. split; [done|].
    exists mid. by rewrite Hruns, Hlen.
  - destruct (range_last_run e l3' El) as [_ [Hpe Hbe]]. cbn [right_part]. case_bool_decide.
    + destruct Hcase as (-> & -> & ->). cbn. eexists _, _, _, _. split; [done|]. split; [done|].
      split; [done|]. split; [done|]. exists (mid ++ [e]). rewrite Hruns, length_app. cbn.
      split; [by rewrite <- app_assoc|lia].
    + destruct Hcase as (-> & -> & ->).
      erewrite bind_Ok; [|apply (shorten_end r (P ++ mid) e l3');
        [by rewrite Hruns, <- app_assoc|by rewrite length_app|done..]].
      eexists _, _, _, _. split; [done|]. split; [done|]. split; [done|]. split; [done|].
      exists mid. cbn. by rewrite <- app_assoc, Hlen.
Qed.

(** The range begins within the run [b], which stays, and ends in another. *)
Lemma finish_within (addb : Z) b m' back :
  m = b :: m' -> pos_b <> 0 ->
  exists r' adde end' trailer,
    (p <- join_end w end_ back (length l1 + length m) pos_e ;;
     let '(adde, end', pos') := p in
     p <- split_run w (length l1) end' pos_b pos' ;;
     let '(trailer, pos') := p in
     begin <- adjust_lengths w (length l1) end' pos_b pos' ;;
     ret (addb, adde, begin, end', trailer)) r = (r', Ok (addb, adde, S (length l1), end', trailer)) /\
    adde = (right_part l3 pos_e back).2 /\
    prepared (l1 ++ [set_length pos_b b]) (right_part l3 pos_e back).1 adde (S (length l1)) end' trailer r'.
Proof.
  intros Em Hpos. pose proof range_pos_b as Hpb.
  destruct (join_end_spec back) as (adde & end' & pos' & E & Hcase).
  pose proof (rg_runs _ _ _ _ _ _ _ _ Hr) as Hruns. rewrite Em in Hruns. cbn [app] in Hruns.
  rewrite (bind_Ok _ _ _ _ _ E). cbv beta iota. unfold split_run.
  assert (Hne : (length l1 =? end')%nat = false).
  { apply Nat.eqb_neq. rewrite Em in Hcase. cbn [length] in Hcase.
    destruct Hcase as [(?&?&?&->)|(e&l3'&?&Hc)]; [lia|]. case_bool_decide; destruct Hc as (?&?&->); lia. }
  rewrite Hne. cbn [andb]. rewrite bind_ret_l. cbv beta iota. unfold adjust_lengths.
  assert (Epos : negb (pos_b =? 0) = true) by (by apply negb_true_iff, Z.eqb_neq). rewrite Epos.
  rewrite !bind_assoc, (bind_Ok _ _ _ _ _ (put_length_eq r l1 b (m' ++ l3) _ _ Hruns eq_refl Hpb)).
  rewrite bind_ret_l, bind_assoc. set (r1 := set_runs _ r). unfold prepared. rewrite length_app. cbn [length].
  destruct Hcase as [(El & -> & -> & ->)|(e & l3' & El & Hcase)]; rewrite El in Hruns |- *.
  - cbn [negb Z.eqb]. eexists _, _, _, _. split; [done|]. split; [done|]. split; [lia|]. split; [done|].
    exists m'. rewrite Em. cbn [length right_part fst]. split; [|lia]. unfold r1. cbn. by rewrite El, <- app_assoc.
  - destruct (range_last_run e l3' El) as [_ [Hpe Hbe]]. cbn [right_part]. case_bool_decide.
    + destruct Hcase as (-> & -> & ->). cbn [negb Z.eqb]. eexists _, _, _, _. split; [done|].
      split; [done|]. split; [lia|]. split; [done|]. exists (m' ++ [e]). rewrite Em, length_app.
      cbn [length fst]. split; [|lia]. unfold r1. cbn. by rewrite El, <- !app_assoc.
    + destruct Hcase as (-> & -> & ->).
      erewrite bind_Ok; [|apply (shorten_end r1 (l1 ++ set_length pos_b b :: m') e l3');
        [by unfold r1; cbn; rewrite El, <- app_assoc|rewrite Em, length_app; done|done..]].
      eexists _, _, _, _. split; [done|]. split; [done|]. split; [lia|]. split; [done|].
      exists m'. rewrite Em. cbn [length fst]. split; [|lia]. cbn. by rewrite <- !app_assoc.
Qed.

(** The range is within one run. *)
Lemma finish_single (addb : Z) b l3' back :
  m = [] -> l3 = b :: l3' -> pos_b <> 0 ->
  exists r' adde end' trailer,
    (p <- join_end w end_ back (length l1 + length m) pos_e ;;
     let '(adde, end', pos') := p in
     p <- split_run w (length l1) end' pos_b pos' ;;
     let '(trailer, pos') := p in
     begin <- adjust_lengths w (length l1) end' pos_b pos' ;;
     ret (addb, adde, begin, end', trailer)) r = (r', Ok (addb, adde, S (length l1), end', trailer)) /\
    adde = (right_part l3 pos_e back).2 /\
    prepared (l1 ++ [set_length pos_b b]) (right_part l3 pos_e back).1 adde (S (length l1)) end' trailer r'.
Proof.
  intros Em El Hpos. pose proof range_pos_b as Hpb.
  destruct (join_end_spec back) as (adde & end' & pos' & E & Hcase).
  pose proof (rg_runs _ _ _ _ _ _ _ _ Hr) as Hruns. rewrite Em, El in Hruns. cbn [app] in Hruns.
  destruct (range_last_run b l3' El) as [_ [Hpe Hbe]].
  unfold bind at 1. rewrite E. cbv beta iota. unfold split_run, adjust_lengths.
  assert (Epos : negb (pos_b =? 0) = true) by (by apply negb_true_iff, Z.eqb_neq). rewrite Epos.
  rewrite Em, El in Hcase. rewrite El. cbn [length right_part] in Hcase |- *. rewrite Nat.add_0_r in Hcase. unfold prepared. rewrite length_app. cbn [length].
  destruct Hcase as [(Hnil & _)|(e & l & Hcons & Hcase)]; [done|].
  injection Hcons as <- <-. case_bool_decide.
  - destruct Hcase as (-> & -> & ->). destruct (Nat.eqb_spec (length l1) (S (length l1))); [lia|].
    cbn [andb]. rewrite bind_ret_l. cbv beta iota.
    rewrite !bind_assoc, (bind_Ok _ _ _ _ _ (put_length_eq r l1 b l3' _ _ Hruns eq_refl Hpb)).
    cbn [negb Z.eqb]. eexists _, _, _, _. split; [done|]. split; [done|]. split; [lia|]. split; [done|].
    exists []. cbn. split; [by rewrite <- app_assoc|lia].
  - destruct Hcase as (-> & -> & ->). rewrite Nat.eqb_refl. cbn [andb].
    rewrite !bind_assoc, (bind_Ok _ _ _ _ _ (run_at_eq r l1 b l3' _ Hruns eq_refl)), bind_ret_l.
    cbv beta iota.
    rewrite !bind_assoc, (bind_Ok _ _ _ _ _ (put_length_eq r l1 b l3' _ _ Hruns eq_refl Hpb)).
    cbn [negb Z.eqb]. rewrite wrapu_small by lia.
    eexists _, _, _, _. split; [done|]. split; [done|]. split; [lia|]. split; [done|].
    exists l3'. split; [done|]. split; [done|]. cbn. split; [by rewrite <- app_assoc|lia].
Qed.

Lemma prepare_spec front back :
  exists r' begin end' trailer,
    prepare w start end_ front back (length l1) (length l1 + length m) pos_b pos_e r =
    (r', Ok ((left_part start l1 (m ++ l3) pos_b front).2, (right_part l3 pos_e back).2,
             begin, end', trailer)) /\
    prepared (left_part start l1 (m ++ l3) pos_b front).1 (right_part l3 pos_e back).1
      (right_part l3 pos_e back).2 begin end' trailer r'.
Proof.
  unfold prepare. destruct (join_begin_spec front) as (addb & begin' & pos' & E & Hcase).
  rewrite (bind_Ok _ _ _ _ _ E). cbv beta iota.
  destruct Hcase as [(-> & P & mid & Em & -> & ->)|(-> & Hpos & -> & -> & b & l & Eb & ->)]; cbn [fst snd].
  - destruct (finish_whole addb P mid back Em) as (r' & adde & end' & tr & Ef & -> & Hp).
    rewrite Ef. eauto 10.
  - assert (Hm : (exists m', m = b :: m') \/ (m = [] /\ exists l3', l3 = b :: l3')).
    { clear Hr E. destruct m; [right|left]; cbn in Eb; [by eauto|]. injection Eb as -> _. eauto. }
    assert (HS : S (length l1) = length (l1 ++ [set_length pos_b b])) by (rewrite length_app; cbn; lia).
    destruct Hm as [[m' Em]|[Em [l3' El]]].
    + destruct (finish_within 0 b m' back Em Hpos) as (r' & adde & end' & tr & Ef & -> & Hp).
      rewrite Ef. eauto 10.
    + destruct (finish_single 0 b l3' back Em El Hpos) as (r' & adde & end' & tr & Ef & -> & Hp).
      rewrite Ef. eauto 10.
Qed.

(** ** The vector before and after *)

Lemma left_part_decode front :
  decode (left_part start l1 (m ++ l3) pos_b front).1 ++
    repeat front (Z.to_nat (left_part start l1 (m ++ l3) pos_b front).2) =
  take (Z.to_nat start) (contents r) /\
  0 <= (left_part start l1 (m ++ l3) pos_b front).2.
Proof.
  destruct range_unsigned as (H1 & H2 & H3). pose proof range_pos_b as Hpb.
  destruct (rg_begin _ _ _ _ _ _ _ _ Hr) as [Hs Hp].
  assert (Htake : take (Z.to_nat start) (contents r) =
    decode l1 ++ match m ++ l3 with b :: _ => expand (set_length pos_b b) | [] => [] end).
  { unfold contents. rewrite (rg_runs _ _ _ _ _ _ _ _ Hr), decode_app.
    pose proof (length_decode l1 H1) as Hl1.
    replace (Z.to_nat start) with (length (decode l1) + Z.to_nat pos_b)%nat by lia.
    rewrite take_app_add. f_equal. destruct (m ++ l3) as [|b l].
    - by destruct (Z.to_nat pos_b).
    - rewrite decode_cons, (expand_split b pos_b) by lia. rewrite <- app_assoc.
      rewrite take_app_length'; [done|]. by rewrite length_expand. }
  rewrite Htake. unfold left_part. destruct (Z.eqb_spec start 0) as [E0|E0].
  { assert (pos_b = 0) as -> by (pose proof range_lengths; lia). cbn [fst snd Z.to_nat repeat].
    split; [|done]. by destruct (m ++ l3). }
  destruct (Z.eqb_spec pos_b 0) as [->|Epos].
  - assert (Hnil : match m ++ l3 with b :: _ => expand (set_length 0 b) | [] => [] end = [])
      by (by destruct (m ++ l3)). rewrite Hnil, app_nil_r.
    assert (Hl1 : exists l1' p, l1 = l1' ++ [p]).
    { clear Hr Htake. destruct l1 as [|p l1' _] using rev_ind; [cbn in Hs; lia|eauto]. }
    destruct Hl1 as (l1' & p & El1). rewrite El1 in H1 |- *. rewrite last_snoc, removelast_last.
    apply unsigned_app in H1 as [_ [? _]%unsigned_cons].
    case_bool_decide as Ep; cbn [fst snd]; [|split; [by rewrite app_nil_r|done]].
    split; [|done]. rewrite decode_app, decode_cons. unfold expand. by rewrite Ep, app_nil_r.
  - destruct (m ++ l3) as [|b l]; [done|]. case_bool_decide as Eb; cbn [fst snd].
    + split; [|lia]. unfold expand. cbn. by rewrite Eb.
    + split; [|done]. rewrite decode_app, decode_cons, !app_nil_r. done.
Qed.

Lemma right_part_decode back :
  repeat back (Z.to_nat (right_part l3 pos_e back).2) ++ decode (right_part l3 pos_e back).1 =
  drop (Z.to_nat end_) (contents r) /\
  0 <= (right_part l3 pos_e back).2.
Proof.
  destruct range_unsigned as (H1 & H2 & H3). destruct (rg_end _ _ _ _ _ _ _ _ Hr) as [He Hp].
  assert (Hu : unsigned (l1 ++ m)) by (by apply unsigned_app).
  pose proof (length_decode (l1 ++ m) Hu) as Hlen. pose proof (runs_length_nonneg _ Hu).
  unfold contents. rewrite (rg_runs _ _ _ _ _ _ _ _ Hr), app_assoc, decode_app.
  assert (Hpe : 0 <= pos_e) by (clear -Hp; destruct l3; lia).
  replace (Z.to_nat end_) with (length (decode (l1 ++ m)) + Z.to_nat pos_e)%nat by lia.
  rewrite drop_app_add. unfold right_part.
  destruct l3 as [|e l3'] eqn:El3; [by rewrite Hp|].
  rewrite decode_cons, (expand_split e pos_e), <- app_assoc by lia.
  rewrite drop_app_length' by (by rewrite length_expand).
  case_bool_decide as Eb; cbn [fst snd]; [|done]. split; [|lia]. unfold expand; cbn. by rewrite Eb.
Qed.

End Range.

Lemma scan_range (r : rle) start end_ :
  wf r -> 0 <= start <= end_ -> end_ <= _total_length r ->
  exists sc1 sc2 l1 m l3 pos_b pos_e,
    scan w (scanner_of r) start = (sc1, pos_b) /\ scan w sc1 end_ = (sc2, pos_e) /\
    sc_it sc1 = length l1 /\ sc_it sc2 = (length l1 + length m)%nat /\
    range r l1 m l3 start end_ pos_b pos_e.
Proof.
  intros Hr Hs He. pose proof Hr as [Hu Ht Hb]. unfold scan, scanner_of; cbn [sc_it sc_rest sc_total].
  destruct (scan_loop_spec 0 (_runs r) 0 start Hu) as (l1 & l2 & pos_b & Eruns & E1 & Hc1); [lia..|].
  rewrite E1. pose proof Hu as Hu'. rewrite Eruns in Hu', Hb, Ht. rewrite runs_length_app in Hb, Ht.
  apply unsigned_app in Hu' as [Hu1 Hu2].
  pose proof (runs_length_nonneg _ Hu1). pose proof (runs_length_nonneg _ Hu2).
  assert (Hp1 : place l1 l2 pos_b start).
  { destruct Hc1 as [(-> & -> & Hc)|[Hc _]]; [|by rewrite Z.sub_0_r in Hc].
    split; [|done]. rewrite Eruns, app_nil_r in Hc. cbn in *. lia. }
  assert (Hle : runs_length l1 <= start).
  { destruct Hp1 as [? Hp]. destruct l2; lia. }
  destruct (scan_loop_spec (0 + length l1) l2 (0 + runs_length l1) end_ Hu2)
    as (m & l3 & pos_e & -> & E2 & Hc2); [lia..|].
  eexists _, _, l1, m, l3, pos_b, pos_e. split; [done|]. cbn [sc_it sc_rest sc_total]. split; [exact E2|].
  split; [done|]. split; [done|]. split; [done|done|done| |lia].
  rewrite runs_length_app in *.
  destruct Hc2 as [(-> & -> & Hc)|[[Hc ?] _]]; split; rewrite ?runs_length_app; try done; try lia.
  cbn [runs_length] in *. lia.
Qed.

Lemma update_total_spec (r : rle) start end_ reps :
  unsigned reps -> 0 <= start <= end_ -> end_ <= _total_length r ->
  _total_length r - (end_ - start) + runs_length reps < 2 ^ w ->
  update_total w start end_ reps r =
  (set_total (_total_length r - (end_ - start) + runs_length reps) r, Ok tt).
Proof.
  intros Hu Hs He Hb. pose proof (runs_length_nonneg reps Hu). unfold update_total, bind, modify.
  rewrite wrapu_small by lia.
  assert (Hiter : forall r : rle, 0 <= _total_length r -> _total_length r + runs_length reps < 2 ^ w ->
    iterM (fun x => fun s => (set_total (wrapu w (_total_length s + run_length x)) s, Ok tt)) reps r =
    (set_total (_total_length r + runs_length reps) r, Ok tt)).
  { clear -Hu. induction Hu as [|x reps Hx Hu IH]; intros r Hr Hb; cbn [iterM runs_length] in *.
    - rewrite Z.add_0_r. by destruct r.
    - pose proof (runs_length_nonneg reps Hu). unfold bind. rewrite wrapu_small by lia.
      rewrite IH by (cbn; lia). cbn. by rewrite Z.add_assoc. }
  rewrite Hiter by (cbn; lia). done.
Qed.

(** The result of a replacement that is not empty. *)
Lemma replace_unchecked_some (r : rle) start end_ reps front back :
  wf r -> 0 <= start <= end_ -> end_ <= _total_length r ->
  unsigned reps -> _total_length r - (end_ - start) + runs_length reps < 2 ^ w ->
  head reps = Some front -> list.last reps = Some back ->
  exists l1 m l3 pos_b pos_e,
    range r l1 m l3 start end_ pos_b pos_e /\
    _replace_unchecked w start end_ reps r =
    (mk_basic_rle
       ((left_part start l1 (m ++ l3) pos_b (value front)).1 ++
        add_back (right_part l3 pos_e (value back)).2
          (add_front (left_part start l1 (m ++ l3) pos_b (value front)).2 reps) ++
        (right_part l3 pos_e (value back)).1)
       (_total_length r - (end_ - start) + runs_length reps), Ok tt).
Proof.
  intros Hr Hs He Hu Hb Hfront Hback.
  destruct (scan_range r start end_ Hr Hs He)
    as (sc1 & sc2 & l1 & m & l3 & pos_b & pos_e & E1 & E2 & Ei1 & Ei2 & Hrange).
  exists l1, m, l3, pos_b, pos_e. split; [done|].
  unfold _replace_unchecked, bind at 1, get. rewrite E1, E2.
  destruct reps as [|x reps']; [done|]. injection Hfront as ->. rewrite Hback, Ei1, Ei2.
  set (reps := front :: reps') in *.
  destruct (prepare_spec r l1 m l3 start end_ pos_b pos_e Hrange (value front) (value back))
    as (r1 & begin & end' & tr & Ep & Hp & Ht & Htr).
  rewrite (bind_Ok _ _ _ _ _ Ep). cbv beta iota.
  destruct (left_part_decode r l1 m l3 start end_ pos_b pos_e Hrange (value front)) as [HL HLn].
  destruct (right_part_decode r l1 m l3 start end_ pos_b pos_e Hrange (value back)) as [HR HRn].
  destruct (left_part start l1 (m ++ l3) pos_b (value front)) as [P addb].
  destruct (right_part l3 pos_e (value back)) as [S0 adde]. cbn [fst snd] in *.
  assert (Hlen : addb <= start /\ adde <= _total_length r - end_).
  { pose proof (length_decode _ (wf_unsigned _ Hr)) as Hd. rewrite <- (wf_total _ Hr) in Hd.
    apply (f_equal (@length T)) in HL, HR. rewrite length_app, repeat_length in HL, HR.
    rewrite length_take in HL. rewrite length_drop in HR. unfold contents in *. lia. }
  assert (Hne : reps <> []) by done. pose proof (runs_length_nonneg reps Hu).
  assert (Hrun : exists r2, copy_replacements begin end' reps tr r1 = (r2, Ok tt) /\
    _runs r2 = P ++ reps ++ S0 /\ _total_length r2 = _total_length r /\
    (tr = None \/ adde = 0)).
  { subst begin. destruct tr as [t|].
    - destruct Htr as (S' & -> & -> & Er1 & Hend). rewrite (copy_replacements_some r1 P S') by done.
      eexists. split; [done|]. by split; [|split; [|right]].
    - destruct Htr as (mid & Er1 & ->). rewrite (copy_replacements_none r1 P mid S0) by done.
      eexists. split; [done|]. by split; [|split; [|left]]. }
  destruct Hrun as (r2 & Ec & Er2 & Ht2 & Htr2). rewrite (bind_Ok _ _ _ _ _ Ec). subst begin.
  rewrite (bind_Ok _ _ _ _ _ (add_front_eq r2 P reps S0 addb Er2 Hne Hu HLn ltac:(lia))).
  set (r3 := set_runs _ r2).
  assert (Hu3 : unsigned (add_front addb reps)).
  { apply unsigned_cons in Hu as [? ?]. apply unsigned_cons. split; [cbn; lia|done]. }
  assert (Hl3 : runs_length (add_front addb reps) = runs_length reps + addb) by (cbn; lia).
  assert (E4 : add_length w (length P + (length reps + extra_space tr) - 1) adde r3 =
    (set_runs (P ++ add_back adde (add_front addb reps) ++ S0) r3, Ok tt)).
  { destruct Htr2 as [->| ->].
    - apply (add_back_eq r3 P (add_front addb reps) S0); rewrite ?length_add_front; cbn [extra_space]; try done; lia.
    - rewrite add_back_0. unfold add_length. by rewrite set_runs_id. }
  rewrite (bind_Ok _ _ _ _ _ E4). rewrite update_total_spec by (done || (cbn [_total_length set_runs r3]; rewrite ?Ht2; lia)).
  unfold set_total. cbn. by rewrite Ht2.
Qed.

Lemma decode_add_front n l x :
  0 <= n -> unsigned l -> head l = Some x ->
  decode (add_front n l) = repeat (value x) (Z.to_nat n) ++ decode l.
Proof.
  intros Hn Hu. destruct l as [|y l]; [done|]. intros [= ->]. apply unsigned_cons in Hu as [Hx _].
  cbn [add_front]. rewrite !decode_cons, app_assoc. f_equal. unfold expand; cbn. rewrite <- repeat_app.
  f_equal. lia.
Qed.

Lemma decode_add_back n l x :
  0 <= n -> unsigned l -> list.last l = Some x ->
  decode (add_back n l) = decode l ++ repeat (value x) (Z.to_nat n).
Proof.
  intros Hn Hu. destruct l as [|y l _] using rev_ind; [done|]. rewrite last_snoc. intros [= ->].
  apply unsigned_app in Hu as [_ [Hx _]%unsigned_cons].
  rewrite add_back_snoc, !decode_app, !decode_cons, <- app_assoc. f_equal. cbn [decode map concat].
  rewrite !app_nil_r. unfold expand; cbn. rewrite <- repeat_app. f_equal. lia.
Qed.

(** The result of a removal: what is left of the range joins the run it ends in, if
    there is one. *)
Definition removal (start : Z) (l1 m l3 : list run) (pos_b pos_e : Z) : list run :=
  match l3 with
  | e :: l3' =>
      let '(P, addb) := left_part start l1 (m ++ l3) pos_b (value e) in
      P ++ set_length (run_length e - pos_e + addb) e :: l3'
  | [] => match m with
          | b :: _ => if pos_b =? 0 then l1 else l1 ++ [set_length pos_b b]
          | [] => l1
          end
  end.

Section Removal.
Context (r : rle) (l1 m l3 : list run) (start end_ pos_b pos_e : Z).
Context (Hr : range r l1 m l3 start end_ pos_b pos_e).

(** The end of [replace_none], where nothing is joined. *)
Lemma removal_tail P m' e :
  (pos_b = 0 /\ P = l1 /\ m' = m \/
   pos_b <> 0 /\ exists b, m = b :: m' /\ P = l1 ++ [set_length pos_b b]) ->
  (l3 = [] /\ e = [] \/
   exists x l3', l3 = x :: l3' /\ e = set_length (run_length x - pos_e) x :: l3') ->
  (begin <- (if negb (pos_b =? 0) then put_length w (length l1) pos_b ;; ret (S (length l1))
             else ret (length l1)) ;;
   (if negb (pos_e =? 0)
    then xe <- run_at (length l1 + length m) ;;
         put_length w (length l1 + length m) (run_length xe - pos_e)
    else ret tt) ;;
   erase begin (length l1 + length m) ;;
   modify (fun r => set_total (wrapu w (_total_length r - wrapu w (end_ - start))) r)) r =
  (mk_basic_rle (P ++ e) (_total_length r - (end_ - start)), Ok tt).
Proof.
  intros Hb He. pose proof (range_lengths _ _ _ _ _ _ _ _ Hr) as HL.
  pose proof (range_pos_b _ _ _ _ _ _ _ _ Hr) as Hpb.
  assert (Hrem : 0 <= end_ - start /\ 0 <= start /\ end_ <= _total_length r).
  { pose proof (rg_le _ _ _ _ _ _ _ _ Hr). destruct (rg_begin _ _ _ _ _ _ _ _ Hr) as [Hs _].
    assert (Hc : l3 = [] \/ exists x l, l3 = x :: l) by (clear; destruct l3; eauto).
    destruct Hc as [Hc|(x & l & Hc)];
      [destruct (range_last_none _ _ _ _ _ _ _ _ Hr Hc)|destruct (range_last_run _ _ _ _ _ _ _ _ Hr _ _ Hc)]; lia. }
  set (begin := if pos_b =? 0 then length l1 else S (length l1)).
  assert (H1 : (if negb (pos_b =? 0) then put_length w (length l1) pos_b ;; ret (S (length l1))
             else ret (length l1)) r = (set_runs (P ++ m' ++ l3) r, Ok begin) /\
    begin = length P /\ (length P + length m' = length l1 + length m)%nat).
  { unfold begin. destruct Hb as [(-> & -> & ->)|(Hpos & b & Em & ->)].
    - cbn. split; [|done]. unfold ret. rewrite set_runs_id; [done|]. apply Hr.
    - destruct (Z.eqb_spec pos_b 0); [done|]. cbn [negb].
      pose proof (rg_runs _ _ _ _ _ _ _ _ Hr) as Hruns. rewrite Em in Hruns. cbn [app] in Hruns.
      rewrite (bind_Ok _ _ _ _ _ (put_length_eq r l1 b (m' ++ l3) _ _ Hruns eq_refl Hpb)).
      rewrite Em, length_app. cbn [length]. rewrite <- app_assoc. split; [done|lia]. }
  destruct H1 as (H1 & Hbegin & Hlen). rewrite (bind_Ok _ _ _ _ _ H1).
  assert (H2 : (if negb (pos_e =? 0)
    then xe <- run_at (length l1 + length m) ;;
         put_length w (length l1 + length m) (run_length xe - pos_e)
    else ret tt) (set_runs (P ++ m' ++ l3) r) = (set_runs (P ++ m' ++ e) r, Ok tt)).
  { destruct He as [[El ->]|(x & l3' & El & ->)].
    - destruct (range_last_none _ _ _ _ _ _ _ _ Hr El) as [_ ->]. cbn. by rewrite El.
    - destruct (range_last_run _ _ _ _ _ _ _ _ Hr _ _ El) as [_ [? ?]].
      rewrite (shorten_end _ (P ++ m') x l3') by
        (done || (cbn; rewrite El, <- app_assoc; done) || (rewrite length_app; lia)).
      cbn. by rewrite <- app_assoc. }
  rewrite (bind_Ok _ _ _ _ _ H2).
  erewrite bind_Ok; [|apply (erase_eq _ P m' e); [done|done|lia]].
  unfold modify, set_total. cbn. rewrite !wrapu_small; [done|lia|rewrite wrapu_small; lia].
Qed.

(** The end of [replace_none], where [n] items left of the range join the run it
    ends in. *)
Lemma removal_join P mid e l3' n :
  l1 ++ m = P ++ mid -> l3 = e :: l3' -> 0 <= n -> 0 <= run_length e - pos_e + n < 2 ^ w ->
  (put_length w (length l1 + length m) (run_length e - (pos_e - n)) ;;
   erase (length P) (length l1 + length m) ;;
   modify (fun r => set_total (wrapu w (_total_length r - wrapu w (end_ - start))) r)) r =
  (mk_basic_rle (P ++ set_length (run_length e - pos_e + n) e :: l3')
     (_total_length r - (end_ - start)), Ok tt).
Proof.
  intros Em El Hn Hb. pose proof (rg_runs _ _ _ _ _ _ _ _ Hr) as Hruns.
  rewrite app_assoc, Em, El, <- app_assoc in Hruns.
  pose proof (range_lengths _ _ _ _ _ _ _ _ Hr). pose proof (range_pos_b _ _ _ _ _ _ _ _ Hr).
  pose proof (rg_le _ _ _ _ _ _ _ _ Hr). destruct (rg_begin _ _ _ _ _ _ _ _ Hr) as [Hs _].
  destruct (range_last_run _ _ _ _ _ _ _ _ Hr _ _ El) as [? _].
  assert (Hlen : (length l1 + length m = length P + length mid)%nat) by (rewrite <- !length_app; congruence).
  replace (run_length e - (pos_e - n)) with (run_length e - pos_e + n) by lia.
  erewrite bind_Ok; [|apply (put_length_eq r (P ++ mid) e l3'); [by rewrite Hruns, <- app_assoc
    |by rewrite length_app|done]].
  erewrite bind_Ok; [|apply (erase_eq _ P mid (set_length (run_length e - pos_e + n) e :: l3'));
    [by cbn; rewrite <- app_assoc|done|lia]].
  unfold modify, set_total. cbn. rewrite !wrapu_small; [done|lia|rewrite wrapu_small; lia].
Qed.

Lemma replace_none_spec :
  replace_none w start end_ (length l1) (length l1 + length m) pos_b pos_e r =
  (mk_basic_rle (removal start l1 m l3 pos_b pos_e) (_total_length r - (end_ - start)), Ok tt).
Proof.
  pose proof (rg_runs _ _ _ _ _ _ _ _ Hr) as Hruns.
  pose proof (range_lengths _ _ _ _ _ _ _ _ Hr) as HL. pose proof (range_unsigned _ _ _ _ _ _ _ _ Hr) as HU.
  pose proof (range_pos_b _ _ _ _ _ _ _ _ Hr) as Hpb.
  destruct (rg_begin _ _ _ _ _ _ _ _ Hr) as [Hs Hp].
  unfold replace_none, bind at 1, get, removal. cbv zeta.
  assert (Hl3 : l3 = [] \/ exists e l3', l3 = e :: l3') by (clear; destruct l3; eauto).
  destruct Hl3 as [El|(e & l3' & El)].
  - destruct (range_last_none _ _ _ _ _ _ _ _ Hr El) as [Ee _].
    rewrite (proj2 (Z.eqb_eq end_ (_total_length r)) Ee), andb_false_r, bind_ret_l. cbv beta iota.
    rewrite El, app_nil_r in Hp. rewrite El.
    rewrite (removal_tail (match m with b :: _ => if pos_b =? 0 then l1 else l1 ++ [set_length pos_b b] | [] => l1 end)
      (match m with b :: m' => if pos_b =? 0 then m else m' | [] => [] end) []).
    + by rewrite app_nil_r.
    + clear -Hp. destruct m as [|b m']; [by left|]. destruct (Z.eqb_spec pos_b 0); [by left|].
      right. split; [done|]. by exists b.
    + by left.
  - destruct (range_last_run _ _ _ _ _ _ _ _ Hr _ _ El) as [Hlt [Hpe Hbe]].
    destruct (Z.eqb_spec end_ (_total_length r)); [lia|]. rewrite El. unfold left_part. cbn [negb].
    destruct (Z.eqb_spec start 0) as [E0|E0]; cbn [negb andb].
    { assert (Ep : pos_b = 0) by lia. rewrite bind_ret_l. cbv beta iota. rewrite Z.add_0_r.
      apply (removal_tail l1 m); [by left|right; eauto]. }
    destruct (Z.eqb_spec pos_b 0) as [Ep|Ep]; cbn [negb].
    + assert (Hl1 : exists l1' p, l1 = l1' ++ [p]).
      { clear -E0 Hs Ep. destruct l1 as [|p l1' _] using rev_ind; [cbn in Hs; lia|eauto]. }
      destruct Hl1 as (l1' & p & El1).
      assert (Hbef : before (length l1) r = (r, Ok (length l1')))
        by (rewrite El1, length_app, Nat.add_1_r; done).
      rewrite !bind_assoc, (bind_Ok _ _ _ _ _ Hbef). rewrite !bind_assoc.
      erewrite bind_Ok; [|apply (run_at_eq r l1' p (m ++ l3)); [by rewrite Hruns, El1, <- app_assoc|done]].
      rewrite !bind_assoc. erewrite bind_Ok; [|apply (run_at_eq r (l1 ++ m) e l3');
        [by rewrite Hruns, El, <- app_assoc|by rewrite length_app]].
      assert (Hlast : list.last l1 = Some p) by (rewrite El1; apply last_snoc). rewrite Hlast.
      case_bool_decide as Ev.
      * rewrite !bind_assoc. change (negb (0 =? 0)) with false. 
        assert (Erl : removelast l1 = l1') by (rewrite El1; apply removelast_last). rewrite Erl.
        rewrite <- (removal_join l1' (p :: m) e l3' (run_length p));
          [apply bind_ext; [done|intros [] s0; done]|rewrite El1, <- app_assoc; done|done|..].
        { rewrite El1 in HU. destruct HU as [[_ [? _]%unsigned_cons]%unsigned_app _]. lia. }
        rewrite El1, El, runs_length_app in HL. rewrite El1 in HU. cbn [runs_length] in HL.
        destruct HU as [[Hu1 [? _]%unsigned_cons]%unsigned_app (Hu2 & Hu3)]. rewrite El in Hu3.
        apply unsigned_cons in Hu3 as [_ Hu3]. pose proof (runs_length_nonneg _ Hu3).
        pose proof (runs_length_nonneg _ Hu1). lia.
      * rewrite bind_ret_l. cbv beta iota. rewrite Z.add_0_r.
        apply (removal_tail l1 m); [by left|right; eauto].
    + rewrite El in Hp. destruct (m ++ e :: l3') as [|b l] eqn:Eb; [done|].
      rewrite !bind_assoc, bind_ret_l, !bind_assoc.
      erewrite bind_Ok; [|apply (run_at_eq r l1 b l); [by rewrite Hruns, El, Eb|done]].
      rewrite !bind_assoc. erewrite bind_Ok; [|apply (run_at_eq r (l1 ++ m) e l3');
        [by rewrite Hruns, El, <- app_assoc|by rewrite length_app]].
      case_bool_decide as Ev.
      * rewrite !bind_assoc. rewrite <- (removal_join l1 m e l3' pos_b);
          [apply bind_ext; [done|intros [] s0; done]|done|done|lia|].
        rewrite El in HL, HU. cbn [runs_length] in HL. destruct HU as (Hu1 & Hu2 & [_ Hu3]%unsigned_cons).
        pose proof (runs_length_nonneg _ Hu3).
        destruct (rg_end _ _ _ _ _ _ _ _ Hr) as [He _]. rewrite runs_length_app in He.
        pose proof (rg_le _ _ _ _ _ _ _ _ Hr). lia.
      * rewrite bind_ret_l. cbv beta iota. rewrite Z.add_0_r.
        assert (Hm : exists m', m = b :: m').
        { clear -Eb Ev. destruct m; cbn in Eb; injection Eb as -> _; [done|eauto]. }
        destruct Hm as [m' Em].
        assert (Epos : (pos_b =? 0) = false) by (by apply Z.eqb_neq). 
        apply (removal_tail (l1 ++ [set_length pos_b b]) m'); [right|right]; eauto.
Qed.

End Removal.

(** ** Compact runs

    No run is empty and neighbours have different values, so the runs are the
    shortest and the only ones for their vector. *)
Fixpoint separated (vs : list T) : Prop :=
  match vs with
  | a :: (b :: _) as vs' => a <> b /\ separated vs'
  | _ => True
  end.

Definition compact (l : list run) : Prop :=
  Forall (fun x => 0 < run_length x) l /\ separated (map value l).

Definition apart (o1 o2 : option T) : Prop :=
  match o1, o2 with Some a, Some b => a <> b | _, _ => True end.

Lemma separated_app (l1 l2 : list T) :
  separated (l1 ++ l2) <-> separated l1 /\ separated l2 /\ apart (list.last l1) (head l2).
Proof.
  induction l1 as [|a l1 IH]; [by destruct l2; cbn; tauto|].
  destruct l1 as [|b l1]; [destruct l2; cbn; tauto|].
  cbn [app separated] in *. rewrite IH. change (list.last (a :: b :: l1)) with (list.last (b :: l1)). tauto.
Qed.

Lemma compact_unsigned l : compact l -> unsigned l.
Proof. intros [H1 _]. eapply Forall_impl; [|exact H1]. cbn. lia. Qed.

Lemma compact_app l1 l2 :
  compact (l1 ++ l2) <->
  compact l1 /\ compact l2 /\ apart (list.last (map value l1)) (head (map value l2)).
Proof. unfold compact. rewrite Forall_app, map_app, separated_app. tauto. Qed.

Lemma compact_set_head x l n : compact (x :: l) -> 0 < n -> compact (set_length n x :: l).
Proof. intros [H1 H2] Hn. split; [|done]. by inversion H1; constructor. Qed.

Lemma compact_nil_length l : compact l -> runs_length l = 0 -> l = [].
Proof.
  intros Hl. pose proof (compact_unsigned l Hl) as Hu. destruct l as [|x l]; [done|].
  destruct Hl as [Hl _]. inversion Hl; subst. apply unsigned_cons in Hu as [_ Hu].
  pose proof (runs_length_nonneg l Hu). cbn [runs_length]. lia.
Qed.

Lemma map_value_add_front n l : map value (add_front n l) = map value l.
Proof. by destruct l. Qed.

Lemma map_value_add_back n l : map value (add_back n l) = map value l.
Proof.
  destruct l as [|x l _] using rev_ind; [done|]. by rewrite add_back_snoc, !map_app.
Qed.

Lemma compact_add n1 n2 l : 0 <= n1 -> 0 <= n2 -> compact l -> compact (add_back n2 (add_front n1 l)).
Proof.
  intros H1 H2 [Hp Hs]. split; [|by rewrite map_value_add_back, map_value_add_front].
  assert (Hf : Forall (fun x => 0 < run_length x) (add_front n1 l)).
  { destruct Hp; [done|]. constructor; cbn; [lia|done]. }
  destruct (add_front n1 l) as [|x l' _] using rev_ind; [done|]. rewrite add_back_snoc.
  apply Forall_app in Hf as [? Hx]. inversion Hx; subst. apply Forall_app. split; [done|].
  constructor; cbn; [lia|done].
Qed.

Section CompactRange.
Context (r : rle) (l1 m l3 : list run) (start end_ pos_b pos_e : Z).
Context (Hr : range r l1 m l3 start end_ pos_b pos_e) (Hc : compact (_runs r)).

Lemma left_part_compact front :
  compact (left_part start l1 (m ++ l3) pos_b front).1 /\
  apart (list.last (map value (left_part start l1 (m ++ l3) pos_b front).1)) (Some front).
Proof.
  pose proof (range_pos_b _ _ _ _ _ _ _ _ Hr) as Hpb.
  rewrite (rg_runs _ _ _ _ _ _ _ _ Hr) in Hc. apply compact_app in Hc as (Hc1 & Hc2 & Hap).
  pose proof (runs_length_nonneg _ (compact_unsigned _ Hc1)).
  destruct (rg_begin _ _ _ _ _ _ _ _ Hr) as [Hs Hp]. unfold left_part.
  destruct (Z.eqb_spec start 0) as [E0|E0].
  { rewrite (compact_nil_length l1) by (done || lia). done. }
  destruct (Z.eqb_spec pos_b 0) as [Epos|Epos].
  - assert (Hl1 : exists l1' p, l1 = l1' ++ [p]).
    { clear -E0 Epos Hs. destruct l1 as [|p l1' _] using rev_ind; [cbn in Hs; lia|eauto]. }
    destruct Hl1 as (l1' & p & El1). rewrite El1 in *. rewrite last_snoc, removelast_last.
    pose proof Hc1 as Hc1'. apply compact_app in Hc1' as (Hc' & _ & Hap').
    case_bool_decide as Ev; cbn [fst]; [by rewrite <- Ev|]. split; [done|].
    rewrite map_app. cbn [map]. by rewrite last_snoc.
  - destruct (m ++ l3) as [|b l]; [done|]. case_bool_decide as Ev; cbn [fst]; [by rewrite <- Ev|].
    rewrite map_app. cbn [map]. rewrite last_snoc. split; [|done]. apply compact_app. split; [done|].
    split; [|done]. split; [|done]. constructor; [cbn; lia|done].
Qed.

Lemma right_part_compact back :
  compact (right_part l3 pos_e back).1 /\ apart (Some back) (head (map value (right_part l3 pos_e back).1)).
Proof.
  pose proof (rg_runs _ _ _ _ _ _ _ _ Hr) as Hruns.
  rewrite Hruns in Hc. apply compact_app in Hc as (_ & Hc2 & _). apply compact_app in Hc2 as (_ & Hc3 & _).
  destruct (rg_end _ _ _ _ _ _ _ _ Hr) as [_ Hp]. clear -Hc3 Hp. destruct l3 as [|e l3']; [done|].
  unfold right_part. case_bool_decide as Ev; cbn [fst].
  - pose proof Hc3 as Hc3'. change (e :: l3') with ([e] ++ l3') in Hc3'.
    apply compact_app in Hc3' as (_ & Hc' & Hap). split; [done|]. rewrite <- Ev. done.
  - split; [|cbn; congruence]. apply compact_set_head; [done|lia].
Qed.

Lemma removal_compact : compact (removal start l1 m l3 pos_b pos_e).
Proof.
  assert (Hl3 : l3 = [] \/ exists e l3', l3 = e :: l3') by (clear; destruct l3; eauto).
  pose proof (rg_runs _ _ _ _ _ _ _ _ Hr) as Hruns. pose proof Hc as Hc'. rewrite Hruns in Hc'.
  apply compact_app in Hc' as (Hc1 & Hc2 & Hap). unfold removal. destruct Hl3 as [El|(e & l3' & El)]; rewrite El.
  - rewrite El, app_nil_r in Hc2, Hap. destruct (rg_begin _ _ _ _ _ _ _ _ Hr) as [_ Hp].
    rewrite El, app_nil_r in Hp. clear -Hc1 Hc2 Hap Hp. destruct m as [|b m']; [done|].
    destruct (Z.eqb_spec pos_b 0); [done|]. apply compact_app. split; [done|]. split; [|done].
    split; [|done]. constructor; [cbn; lia|done].
  - destruct (range_last_run _ _ _ _ _ _ _ _ Hr _ _ El) as [_ [Hpe _]].
    pose proof (left_part_compact (value e)) as [HP Hape].
    destruct (left_part_decode _ _ _ _ _ _ _ _ Hr (value e)) as [_ Hadd]. rewrite El in HP, Hape, Hadd.
    destruct (left_part start l1 (m ++ e :: l3') pos_b (value e)) as [P addb]. cbn [fst snd] in *.
    apply compact_app in Hc2 as (_ & Hc3 & _). rewrite El in Hc3.
    apply compact_app. split; [done|]. split; [|done]. apply compact_set_head; [done|lia].
Qed.

End CompactRange.

End Laws.
