(* ===== verification/RleSpec.v ===== *)
(** * The contract of run-length encoded vectors

    [til::basic_rle] against the vector it stands for: lookup, slices, splices,
    substitution of values, changes of the size, and iterators that walk over it. *)

From stdpp Require Import sets.
From S2P Require Import Prelude Effects Rle RleLaws.

Local Open Scope Z_scope.

Section Spec.
Context {T : Type} `{EqDecision T} `{Inhabited T} (w : Z).

Abbreviation run := (rle_pair T).
Abbreviation rle := (basic_rle T).

(** ** Replacement *)

Section Range.
Context (r : rle) (l1 m l3 : list run) (start end_ pos_b pos_e : Z).
Context (Hr : range w r l1 m l3 start end_ pos_b pos_e).

Lemma left_part_unsigned front : unsigned (left_part start l1 (m ++ l3) pos_b front).1.
Proof.
  destruct (range_unsigned w _ _ _ _ _ _ _ _ Hr) as (H1 & _ & _).
  pose proof (range_pos_b w _ _ _ _ _ _ _ _ Hr). unfold left_part.
  destruct (start =? 0); [done|]. destruct (pos_b =? 0).
  - destruct (list.last l1) as [p|] eqn:Hl; [|done]. case_bool_decide; [|done]. cbn.
    apply last_Some in Hl as [l' ->]. rewrite removelast_last. by apply unsigned_app in H1 as [? _].
  - destruct (m ++ l3) as [|b l]; [done|]. case_bool_decide; [done|]. apply unsigned_app.
    split; [done|]. apply unsigned_cons. split; [cbn; lia|by try constructor].
Qed.

Lemma right_part_unsigned back : unsigned (right_part l3 pos_e back).1.
Proof.
  destruct (range_unsigned w _ _ _ _ _ _ _ _ Hr) as (_ & _ & H3).
  destruct (rg_end w _ _ _ _ _ _ _ _ Hr) as [_ Hp]. clear -H3 Hp. unfold right_part.
  destruct l3 as [|e l3']; [done|]. apply unsigned_cons in H3 as [? ?].
  case_bool_decide; [done|]. apply unsigned_cons. split; [cbn; lia|by try constructor].
Qed.

Lemma removal_decode :
  decode (removal start l1 m l3 pos_b pos_e) =
    take (Z.to_nat start) (contents r) ++ drop (Z.to_nat end_) (contents r) /\
  unsigned (removal start l1 m l3 pos_b pos_e).
Proof.
  assert (Hl3 : l3 = [] \/ exists e l3', l3 = e :: l3') by (clear; destruct l3; eauto).
  unfold removal. destruct Hl3 as [El|(e & l3' & El)]; rewrite El.
  - pose proof (left_part_decode w _ _ _ _ _ _ _ _ Hr) as HL.
    destruct (right_part_decode w _ _ _ _ _ _ _ _ Hr inhabitant) as [HR _]. rewrite El in HR. cbn in HR.
    rewrite <- HR, app_nil_r.
    destruct (range_unsigned w _ _ _ _ _ _ _ _ Hr) as (H1 & _ & _).
    pose proof (range_pos_b w _ _ _ _ _ _ _ _ Hr). destruct (rg_begin w _ _ _ _ _ _ _ _ Hr) as [Hs Hp].
    assert (Htake : take (Z.to_nat start) (contents r) =
      decode l1 ++ match m with b :: _ => expand (set_length pos_b b) | [] => [] end).
    { unfold contents. rewrite (rg_runs w _ _ _ _ _ _ _ _ Hr), El, app_nil_r, decode_app.
      pose proof (length_decode l1 H1). rewrite El, app_nil_r in Hp.
      replace (Z.to_nat start) with (length (decode l1) + Z.to_nat pos_b)%nat by (clear -Hp H0 Hs H2; lia).
      rewrite take_app_add. f_equal. clear -Hp. destruct m as [|b m']; [by destruct (Z.to_nat pos_b)|].
      rewrite decode_cons, (expand_split b pos_b), <- app_assoc by lia.
      by rewrite take_app_length' by (by rewrite length_expand). }
    rewrite Htake. clear -H1 H0. destruct m as [|b m']; [by rewrite app_nil_r|].
    destruct (Z.eqb_spec pos_b 0) as [->|]; [by rewrite app_nil_r|]. rewrite decode_app, decode_cons, app_nil_r.
    split; [done|]. apply unsigned_app. split; [done|]. apply unsigned_cons. split; [cbn; lia|by try constructor].
  - destruct (range_last_run w _ _ _ _ _ _ _ _ Hr _ _ El) as [_ [Hpe _]].
    pose proof (left_part_unsigned (value e)) as HPu.
    destruct (left_part_decode w _ _ _ _ _ _ _ _ Hr (value e)) as [HL Hadd]. rewrite El in HL, Hadd, HPu.
    destruct (right_part_decode w _ _ _ _ _ _ _ _ Hr (value e)) as [HR _].
    rewrite El in HR. cbn [right_part] in HR. rewrite bool_decide_eq_true_2 in HR by done. cbn [fst snd] in HR.
    destruct (left_part start l1 (m ++ e :: l3') pos_b (value e)) as [P addb]. cbn [fst snd] in *.
    destruct (range_unsigned w _ _ _ _ _ _ _ _ Hr) as (_ & _ & H3). rewrite El in H3.
    apply unsigned_cons in H3 as [? H3]. split.
    + rewrite <- HL, <- HR, decode_app, decode_cons, <- app_assoc. f_equal. rewrite app_assoc. f_equal.
      unfold expand; cbn. rewrite <- repeat_app. f_equal. lia.
    + apply unsigned_app. split; [done|]. apply unsigned_cons. split; [cbn; lia|by try constructor].
Qed.

End Range.

(** A vector given by runs that spell a list of the right length. *)
Lemma wf_of_decode (runs : list run) n (vs : list T) :
  unsigned runs -> decode runs = vs -> Z.of_nat (length vs) = n -> n < 2 ^ w ->
  wf w (mk_basic_rle runs n).
Proof.
  intros Hu <- <- Hb. pose proof (length_decode runs Hu). split; cbn; [done|lia|lia].
Qed.

Lemma length_contents (r : rle) : wf w r -> Z.of_nat (length (contents r)) = _total_length r.
Proof. intros [Hu -> _]. by apply length_decode. Qed.

Definition spliced {A} (start end_ : Z) (vs l : list A) : list A :=
  take (Z.to_nat start) l ++ vs ++ drop (Z.to_nat end_) l.

Lemma length_spliced {A} start end_ (vs l : list A) :
  0 <= start <= end_ -> end_ <= Z.of_nat (length l) ->
  Z.of_nat (length (spliced start end_ vs l)) =
  Z.of_nat (length l) - (end_ - start) + Z.of_nat (length vs).
Proof. intros. unfold spliced. rewrite !length_app, length_take, length_drop. lia. Qed.

Lemma unsigned_add n1 n2 (l : list run) : 0 <= n1 -> 0 <= n2 -> unsigned l -> unsigned (add_back n2 (add_front n1 l)).
Proof.
  intros H1 H2 Hu. assert (Hf : unsigned (add_front n1 l)).
  { destruct Hu; [constructor|]. constructor; cbn; [lia|done]. }
  destruct (add_front n1 l) as [|x l' _] using rev_ind; [constructor|]. rewrite add_back_snoc.
  apply unsigned_app in Hf as [? [? _]%unsigned_cons]. apply unsigned_app. split; [done|].
  apply unsigned_cons. split; [cbn; lia|by try constructor].
Qed.

Lemma replace_unchecked_spec (r : rle) start end_ reps :
  wf w r -> 0 <= start <= end_ -> end_ <= _total_length r ->
  unsigned reps -> _total_length r - (end_ - start) + runs_length reps < 2 ^ w ->
  exists r', _replace_unchecked w start end_ reps r = (r', Ok tt) /\ wf w r' /\
    contents r' = spliced start end_ (decode reps) (contents r) /\
    (compact (_runs r) -> compact reps -> compact (_runs r')).
Proof.
  intros Hr Hs He Hu Hb. pose proof (length_contents r Hr) as Hlen.
  pose proof (length_spliced start end_ (decode reps) (contents r) Hs ltac:(lia)) as Hsl.
  rewrite length_decode, Hlen in Hsl by done.
  destruct reps as [|front reps'] eqn:Ereps.
  - destruct (scan_range w r start end_ Hr Hs He)
      as (sc1 & sc2 & l1 & m & l3 & pos_b & pos_e & E1 & E2 & Ei1 & Ei2 & Hrange).
    unfold _replace_unchecked, bind, get. rewrite E1, E2, Ei1, Ei2.
    rewrite (replace_none_spec w r l1 m l3 start end_ pos_b pos_e Hrange).
    destruct (removal_decode r l1 m l3 start end_ pos_b pos_e Hrange) as [Hd Hun].
    eexists. split; [done|]. cbn [runs_length] in Hsl, Hb.
    split; [apply (wf_of_decode _ _ _ Hun Hd); unfold spliced in Hsl; cbn [decode map concat app] in Hsl; lia|].
    split; [exact Hd|]. intros Hc _. by eapply removal_compact.
  - rewrite <- Ereps in *. assert (Hl : exists back, list.last reps = Some back).
    { rewrite Ereps. destruct (list.last (front :: reps')) eqn:E; [eauto|].
      by apply last_None in E. }
    destruct Hl as [back Hback]. assert (Hfront : head reps = Some front) by (by rewrite Ereps).
    destruct (replace_unchecked_some w r start end_ reps front back Hr Hs He Hu Hb Hfront Hback)
      as (l1 & m & l3 & pos_b & pos_e & Hrange & E).
    eexists. split; [exact E|].
    destruct (left_part_decode w _ _ _ _ _ _ _ _ Hrange (value front)) as [HL HLn].
    destruct (right_part_decode w _ _ _ _ _ _ _ _ Hrange (value back)) as [HR HRn].
    pose proof (left_part_unsigned r l1 m l3 start end_ pos_b pos_e Hrange (value front)) as HPu.
    pose proof (right_part_unsigned r l1 m l3 start end_ pos_b pos_e Hrange (value back)) as HSu.
    pose proof (left_part_compact w r l1 m l3 start end_ pos_b pos_e Hrange) as HPc.
    pose proof (right_part_compact w r l1 m l3 start end_ pos_b pos_e Hrange) as HSc.
    destruct (left_part start l1 (m ++ l3) pos_b (value front)) as [P addb] eqn:EP.
    destruct (right_part l3 pos_e (value back)) as [S0 adde] eqn:ES. cbn [fst snd] in *.
    set (reps1 := add_back adde (add_front addb reps)).
    assert (Hd : decode (P ++ reps1 ++ S0) = spliced start end_ (decode reps) (contents r)).
    { unfold reps1, spliced. rewrite !decode_app, (decode_add_back _ _ (if decide (reps' = []) then set_length (run_length front + addb) front else back)).
      - rewrite (decode_add_front _ _ front), <- HL, <- HR by done.
        case_decide; [|by rewrite <- !app_assoc].
        assert (Eb : back = front) by (subst; cbn in Hback; congruence). subst back.
        by rewrite <- !app_assoc.
      - done.
      - apply (unsigned_add addb 0) in Hu; [|done..]. by rewrite add_back_0 in Hu.
      - rewrite Ereps in Hback |- *. cbn [add_front]. case_decide as Er; [by rewrite Er|].
        destruct reps'; [done|]. exact Hback. }
    assert (Hun : unsigned (P ++ reps1 ++ S0)).
    { apply unsigned_app. split; [done|]. apply unsigned_app. split; [by apply unsigned_add|done]. }
    split; [apply (wf_of_decode _ _ _ Hun Hd); [lia|done]|]. split; [exact Hd|].
    intros Hc Hcr. cbn [_runs]. destruct (HPc Hc (value front)) as [HP1 HP2].
    destruct (HSc Hc (value back)) as [HS1 HS2]. rewrite EP in HP1, HP2. rewrite ES in HS1, HS2. cbn [fst] in *.
    assert (Hmv : map value reps1 = map value reps)
      by (unfold reps1; by rewrite map_value_add_back, map_value_add_front).
    apply compact_app. split; [done|]. split; [apply compact_app; split; [by apply compact_add|split; [done|]]|].
    + rewrite Hmv. replace (list.last (map value reps)) with (Some (value back)); [done|].
      symmetry. etrans; [apply fmap_last|]. by rewrite Hback.
    + rewrite map_app, Hmv, Ereps. exact HP2.
Qed.

(** ** The public operations *)

Lemma replace_runs_ok (r : rle) start end_ reps :
  wf w r -> 0 <= start -> start <= Z.min end_ (_total_length r) -> unsigned reps ->
  _total_length r - (Z.min end_ (_total_length r) - start) + runs_length reps < 2 ^ w ->
  exists r', rle_replace_runs w start end_ reps r = (r', Ok tt) /\ wf w r' /\
    contents r' = spliced start (Z.min end_ (_total_length r)) (decode reps) (contents r) /\
    (compact (_runs r) -> compact reps -> compact (_runs r')).
Proof.
  intros Hr H0 Hs Hu Hb. unfold rle_replace_runs, _check_indices, bind, get.
  destruct (Z.ltb_spec (Z.min end_ (_total_length r)) start); [lia|].
  apply replace_unchecked_spec; (done || lia).
Qed.

Lemma replace_ok (r : rle) start end_ v :
  wf w r -> 0 <= start -> start <= Z.min end_ (_total_length r) ->
  exists r', rle_replace w start end_ v r = (r', Ok tt) /\ wf w r' /\
    contents r' = spliced start (Z.min end_ (_total_length r))
      (repeat v (Z.to_nat (Z.min end_ (_total_length r) - start))) (contents r) /\
    _total_length r' = _total_length r /\
    (compact (_runs r) -> start < Z.min end_ (_total_length r) -> compact (_runs r')).
Proof.
  intros Hr H0 Hs. pose proof (wf_total w _ Hr) as Ht. pose proof (wf_bound w _ Hr) as Hb.
  unfold rle_replace, _check_indices, bind, get.
  destruct (Z.ltb_spec (Z.min end_ (_total_length r)) start); [lia|]. unfold ret.
  rewrite wrapu_small by lia. set (n := Z.min end_ (_total_length r) - start).
  destruct (replace_unchecked_spec r start (Z.min end_ (_total_length r)) [mk_rle_pair v n])
    as (r' & E & Hr' & Hc & Hcp); [done|lia|lia|repeat constructor; cbn; lia|cbn [runs_length run_length]; lia|].
  rewrite decode_cons in Hc. unfold expand in Hc. cbn [value run_length decode map concat] in Hc.
  rewrite app_nil_r in Hc. exists r'. split; [done|]. split; [done|]. split; [done|]. split.
  - rewrite <- (length_contents r' Hr'), Hc, length_spliced, (length_contents r Hr), repeat_length;
      rewrite ?(length_contents r Hr); lia.
  - intros Hcr Hlt. apply Hcp; [done|]. split; [|done]. repeat constructor. cbn. lia.
Qed.

Lemma replace_throws (r : rle) start end_ reps :
  Z.min end_ (_total_length r) < start ->
  rle_replace_runs w start end_ reps r = (r, Throw StdException).
Proof.
  intros Hs. unfold rle_replace_runs, _check_indices, bind, get.
  destruct (Z.ltb_spec (Z.min end_ (_total_length r)) start); [done|lia].
Qed.

(** The value at a position, an exception past the end. *)
Lemma at_spec (r : rle) i :
  wf w r -> 0 <= i ->
  rle_at w i r = match contents r !! Z.to_nat i with Some v => Ok v | None => Throw StdException end.
Proof.
  intros [Hu Ht Hb] Hi. unfold rle_at, scan, scanner_of, contents; cbn [sc_it sc_rest sc_total].
  destruct (scan_loop_spec w 0 (_runs r) 0 i Hu) as (l1 & l2 & pos & E & Es & Hc); [lia..|].
  rewrite Es. cbn [sc_rest]. pose proof Hu as Hu'. rewrite E in Hu' |- *.
  apply unsigned_app in Hu' as [Hu1 Hu2]. pose proof (length_decode l1 Hu1). pose proof (runs_length_nonneg l1 Hu1).
  rewrite decode_app. destruct Hc as [(-> & _ & Hc)|[[Hp1 Hp2] (x & l & ->)]].
  - rewrite E, app_nil_r in Hc. rewrite lookup_ge_None_2; [done|]. rewrite length_app. cbn. lia.
  - rewrite lookup_app_r by lia. rewrite decode_cons, lookup_app_l by (rewrite length_expand; lia).
    unfold expand. by rewrite lookup_repeat by lia.
Qed.

(** ** Slices *)

Lemma slice_spec (r : rle) start end_ :
  wf w r -> 0 <= start -> 0 <= end_ ->
  exists r', rle_slice w start end_ r = Ok r' /\ wf w r' /\
    contents r' = take (Z.to_nat (Z.min end_ (_total_length r) - start)) (drop (Z.to_nat start) (contents r)).
Proof.
  intros Hr Hs He. pose proof (wf_total w r Hr) as Ht. pose proof (wf_bound w r Hr) as Hb.
  pose proof (length_contents r Hr) as Hlen. unfold rle_slice.
  set (end' := Z.min end_ (_total_length r)) in *.
  destruct (Z.leb_spec end' start) as [Hle|Hlt].
  { exists rle_empty. split; [done|]. replace (Z.to_nat (end' - start)) with 0%nat by lia.
    split; [|done]. split; [constructor|done|cbn; lia]. }
  rewrite (wrapu_small w (end' - 1)), (wrapu_small w (end' - start)) by lia.
  destruct (scan_range w r start (end' - 1) Hr ltac:(lia) ltac:(lia))
    as (sc1 & sc2 & l1 & m & l3 & pos_b & pos_e & E1 & E2 & Ei1 & Ei2 & Hrange).
  rewrite E1, E2, Ei1, Ei2. destruct (range_unsigned w _ _ _ _ _ _ _ _ Hrange) as (Hu1 & Hu2 & Hu3).
  pose proof (range_lengths w _ _ _ _ _ _ _ _ Hrange) as HL. pose proof (range_pos_b w _ _ _ _ _ _ _ _ Hrange).
  destruct l3 as [|e l3']; [destruct (range_last_none w _ _ _ _ _ _ _ _ Hrange eq_refl); lia|].
  destruct (range_last_run w _ _ _ _ _ _ _ _ Hrange e l3' eq_refl) as [_ [Hpe Hbe]].
  destruct Hrange as [_ Hruns [Hsb Hpb] [Hse _] _]. unfold contents in *. rewrite Hruns in Hlen |- *.
  assert (Exs : take (S (length l1 + length m) - length l1) (drop (length l1) (l1 ++ m ++ e :: l3')) = m ++ [e]).
  { change (e :: l3') with ([e] ++ l3'). rewrite (app_assoc m).
    apply take_drop_middle_app; [done|]. rewrite length_app. cbn. lia. }
  rewrite Exs, last_snoc, length_app, Nat.add_sub, take_app_length. rewrite runs_length_app in Hse.
  rewrite (wrapu_small w (pos_e + 1)) by lia. apply unsigned_cons in Hu3 as [He0 Hu3].
  pose proof (length_decode l1 Hu1) as Hl1.
  destruct m as [|b m']; cbn [app] in *.
  - cbn [set_length value run_length runs_length] in *. rewrite wrapu_small by lia.
    eexists. split; [done|]. cbn [_runs].
    assert (Hc : decode [set_length (pos_e + 1 - pos_b) e] =
      take (Z.to_nat (end' - start)) (drop (Z.to_nat start) (decode (l1 ++ e :: l3')))).
    { rewrite decode_app, (decode_cons e), (expand_split e pos_b) by lia.
      rewrite (expand_split (set_length (run_length e - pos_b) e) (pos_e + 1 - pos_b)) by (cbn; lia).
      cbn [set_length value run_length]. rewrite <- !app_assoc, app_assoc.
      rewrite take_drop_middle_app; [by rewrite decode_cons, app_nil_r|..];
        rewrite ?length_app, ?length_expand; cbn [run_length set_length]; lia. }
    split; [|exact Hc]. eapply wf_of_decode; [repeat constructor; cbn; lia|exact Hc| |lia].
    rewrite length_take, length_drop. lia.
  - rewrite wrapu_small by (cbn in HL, Hpb; pose proof (runs_length_nonneg m' (Forall_inv_tail Hu2)); lia).
    eexists. split; [done|]. cbn [_runs]. cbn [runs_length] in *. apply unsigned_cons in Hu2 as [? Hu2].
    pose proof (length_decode m' Hu2) as Hlm.
    assert (Hc : decode (set_length (run_length b - pos_b) b :: m' ++ [set_length (pos_e + 1) e]) =
      take (Z.to_nat (end' - start)) (drop (Z.to_nat start) (decode (l1 ++ b :: m' ++ e :: l3')))).
    { rewrite decode_app, !decode_cons, !decode_app, !decode_cons, app_nil_r.
      rewrite (expand_split b pos_b) by lia. rewrite (expand_split e (pos_e + 1)) by lia.
      replace (decode l1 ++ (expand (set_length pos_b b) ++ expand (set_length (run_length b - pos_b) b)) ++
        decode m' ++ (expand (set_length (pos_e + 1) e) ++ expand (set_length (run_length e - (pos_e + 1)) e)) ++
        decode l3')
        with ((decode l1 ++ expand (set_length pos_b b)) ++
          (expand (set_length (run_length b - pos_b) b) ++ decode m' ++ expand (set_length (pos_e + 1) e)) ++
          expand (set_length (run_length e - (pos_e + 1)) e) ++ decode l3') by (by rewrite <- !app_assoc).
      rewrite take_drop_middle_app; [done|..];
        rewrite ?length_app, ?length_expand; cbn [run_length set_length]; lia. }
    split; [|exact Hc]. eapply wf_of_decode; [|exact Hc|rewrite length_take, length_drop; lia|lia].
    apply unsigned_cons. split; [cbn; lia|]. apply unsigned_app. split; [done|].
    apply unsigned_cons. split; [cbn; lia|constructor].
Qed.

(** ** Compaction and substitution *)

(** Both loops end with the same vector, in compact runs if none was empty. *)
Definition compacts (f : list run -> run -> list run -> list run) : Prop :=
  forall don ref rest,
    unsigned (don ++ ref :: rest) -> runs_length (don ++ ref :: rest) < 2 ^ w ->
    decode (f don ref rest) = decode (don ++ ref :: rest) /\ unsigned (f don ref rest) /\
    (compact (don ++ [ref]) -> Forall (fun x => 0 < run_length x) rest -> compact (f don ref rest)).

(** A run and the next one with the same value. *)
Lemma joined_runs don (ref it : run) rest :
  unsigned (don ++ ref :: it :: rest) -> runs_length (don ++ ref :: it :: rest) < 2 ^ w -> value ref = value it ->
  let ref' := set_length (wrapu w (run_length ref + run_length it)) ref in
  decode (don ++ ref' :: rest) = decode (don ++ ref :: it :: rest) /\
  unsigned (don ++ ref' :: rest) /\ runs_length (don ++ ref' :: rest) < 2 ^ w /\
  (compact (don ++ [ref]) -> 0 < run_length it -> compact (don ++ [ref'])).
Proof.
  intros Hu Hb Hv. apply unsigned_app in Hu as [Hd Hu]. apply unsigned_cons in Hu as [Hr Hu].
  apply unsigned_cons in Hu as [Hi Hu]. pose proof (runs_length_nonneg _ Hd). pose proof (runs_length_nonneg _ Hu).
  rewrite runs_length_app in Hb. cbn [runs_length] in Hb. rewrite wrapu_small by lia. cbv zeta.
  split; [|split; [|split]].
  - rewrite !decode_app, !decode_cons, (app_assoc (expand ref)). do 2 f_equal.
    unfold expand; cbn. rewrite Hv, <- repeat_app. f_equal. lia.
  - apply unsigned_app. split; [done|]. apply unsigned_cons. split; [cbn; lia|done].
  - rewrite runs_length_app. cbn [runs_length run_length set_length]. lia.
  - intros (Hc1 & [Hc2 _] & Hc3)%compact_app Hpos. inversion Hc2; subst. apply compact_app.
    split; [done|]. split; [|done]. split; [|done]. repeat constructor. cbn. lia.
Qed.

Lemma next_run don (ref it : run) :
  value ref <> value it -> compact (don ++ [ref]) -> 0 < run_length it -> compact ((don ++ [ref]) ++ [it]).
Proof.
  intros Hv Hc Hi. apply compact_app. split; [done|]. split; [split; [by repeat constructor|done]|].
  rewrite map_app. cbn [map]. by rewrite last_snoc.
Qed.

Lemma compact_move_spec : compacts (compact_move w).
Proof.
  intros don ref rest. revert don ref; induction rest as [|it rest IH]; intros don ref Hu Hb; [done|].
  cbn [compact_move]. case_bool_decide as Hv.
  - destruct (joined_runs don ref it rest Hu Hb Hv) as (E & Hu' & Hb' & Hc').
    destruct (IH _ _ Hu' Hb') as (E2 & Hu2 & Hc2). split; [by rewrite E2|]. split; [done|].
    intros Hc Hpos. inversion Hpos; subst. apply Hc2; auto.
  - replace (don ++ ref :: it :: rest) with ((don ++ [ref]) ++ it :: rest) in * by (by rewrite <- app_assoc).
    destruct (IH _ _ Hu Hb) as (E2 & Hu2 & Hc2). split; [done|]. split; [done|].
    intros Hc Hpos. inversion Hpos; subst. apply Hc2; [by apply next_run|done].
Qed.

Lemma compact_find_spec : compacts (compact_find w).
Proof.
  intros don ref rest. revert don ref; induction rest as [|it rest IH]; intros don ref Hu Hb; [done|].
  cbn [compact_find]. case_bool_decide as Hv.
  - destruct (joined_runs don ref it rest Hu Hb Hv) as (E & Hu' & Hb' & Hc').
    destruct (compact_move_spec _ _ _ Hu' Hb') as (E2 & Hu2 & Hc2). split; [by rewrite E2|]. split; [done|].
    intros Hc Hpos. inversion Hpos; subst. apply Hc2; auto.
  - replace (don ++ ref :: it :: rest) with ((don ++ [ref]) ++ it :: rest) in * by (by rewrite <- app_assoc).
    destruct (IH _ _ Hu Hb) as (E2 & Hu2 & Hc2). split; [done|]. split; [done|].
    intros Hc Hpos. inversion Hpos; subst. apply Hc2; [by apply next_run|done].
Qed.

Lemma compact_spec (r : rle) :
  wf w r ->
  wf w (_compact w r) /\ contents (_compact w r) = contents r /\
  (Forall (fun x => 0 < run_length x) (_runs r) -> compact (_runs (_compact w r))).
Proof.
  intros Hr. pose proof Hr as [Hu Ht Hb]. unfold _compact. destruct (_runs r) as [|ref rest] eqn:E.
  { split; [done|]. split; [done|]. by rewrite E. }
  destruct (compact_find_spec [] ref rest Hu Hb) as (Ed & Hu' & Hc). unfold contents; cbn. rewrite E.
  split; [|split; [done|]].
  - eapply wf_of_decode; [done|exact Ed| |lia]. rewrite Ht. by apply length_decode.
  - intros Hp. inversion Hp; subst. apply Hc; [|done]. by split; [repeat constructor|].
Qed.

Lemma replace_values_spec (r : rle) old new :
  wf w r ->
  wf w (rle_replace_values w old new r) /\
  contents (rle_replace_values w old new r) =
    map (fun v => if bool_decide (v = old) then new else v) (contents r) /\
  (compact (_runs r) -> compact (_runs (rle_replace_values w old new r))).
Proof.
  intros [Hu Ht Hb]. unfold rle_replace_values.
  set (f := fun x : run => if bool_decide (value x = old) then mk_rle_pair new (run_length x) else x).
  assert (Hf : forall x, run_length (f x) = run_length x) by (intros x; unfold f; by case_bool_decide).
  assert (Hlen : runs_length (map f (_runs r)) = runs_length (_runs r)).
  { clear -Hf. induction (_runs r) as [|x l IH]; cbn; rewrite ?Hf; lia. }
  assert (Hpos : forall P, Forall (fun x => P (run_length x)) (_runs r) -> Forall (fun x => P (run_length x)) (map f (_runs r))).
  { intros P HP. apply Forall_map. eapply Forall_impl; [|exact HP]. intros x. cbn. by rewrite Hf. }
  assert (Hwf : wf w (set_runs (map f (_runs r)) r)).
  { split; cbn; [exact (Hpos (fun n => 0 <= n) Hu)|lia|lia]. }
  destruct (compact_spec _ Hwf) as (Hw & Hc & Hcp). split; [done|]. split.
  - rewrite Hc. unfold contents; cbn. clear. unfold decode. rewrite concat_map, !map_map. f_equal.
    apply map_ext. intros x. unfold expand, f. rewrite map_repeat. by case_bool_decide.
  - intros [Hp _]. apply Hcp. exact (Hpos (fun n => 0 < n) Hp).
Qed.

(** ** Size changes *)

(** The size is cut, or the last value repeated. *)
Definition resized {A} (n : nat) (l : list A) : list A :=
  take n l ++ match list.last l with Some v => repeat v (n - length l) | None => [] end.

Lemma resized_cut {A} n (l : list A) : (n <= length l)%nat -> resized n l = take n l.
Proof.
  intros Hle. unfold resized. replace (n - length l)%nat with 0%nat by lia.
  destruct (list.last l); apply app_nil_r.
Qed.

Definition resizes (r : rle) (n : Z) : Prop :=
  exists r', resize_trailing_extent w n r = (r', Ok tt) /\ wf w r' /\ _total_length r' = n /\
    contents r' = resized (Z.to_nat n) (contents r) /\ compact (_runs r').

Lemma resize_shrink (r : rle) n :
  wf w r -> compact (_runs r) -> 0 < n < _total_length r -> resizes r n.
Proof.
  intros Hr Hcp Hn. pose proof (length_contents r Hr) as Hlen. pose proof Hr as [Hu Ht Hb].
  unfold resizes, resize_trailing_extent, bind at 1, get. destruct (Z.eqb_spec n 0); [lia|].
  destruct (Z.ltb_spec n (_total_length r)); [|lia].
  rewrite bind_assoc. unfold bind at 1, get. rewrite (wrapu_small w (n - 1)) by lia.
  destruct (scan_loop_spec w 0 (_runs r) 0 (n - 1) Hu) as (l1 & l2 & pos & E & Es & Hc); [lia..|].
  destruct Hc as [(_ & _ & Hc)|[[Hp1 Hp2] (x & l & ->)]]; [lia|].
  unfold scan, scanner_of; cbn [sc_it sc_rest sc_total]. rewrite Es. cbn [sc_it]. cbv zeta.
  rewrite E in Hu, Hb, Hcp. unfold contents in *. rewrite E in Hlen |- *.
  apply unsigned_app in Hu as [Hu1 [Hx Hu2]%unsigned_cons]. rewrite runs_length_app in Hb. cbn [runs_length] in Hb.
  pose proof (runs_length_nonneg _ Hu1). pose proof (runs_length_nonneg _ Hu2).
  pose proof (length_decode l1 Hu1) as Hl1. rewrite Nat.add_0_l.
  rewrite bind_assoc, (bind_Ok _ _ _ _ _ (put_length_eq w r l1 x l _ (pos + 1) E eq_refl ltac:(lia))).
  rewrite bind_assoc. unfold bind at 1. cbv beta iota.
  assert (Eer : erase (S (length l1)) (length (_runs (set_runs (l1 ++ set_length (pos + 1) x :: l) r)))
    (set_runs (l1 ++ set_length (pos + 1) x :: l) r) =
    (set_runs (l1 ++ [set_length (pos + 1) x]) r, Ok tt)).
  { rewrite (erase_eq _ (l1 ++ [set_length (pos + 1) x]) l []); cbn [_runs set_runs].
    - by rewrite app_nil_r.
    - by rewrite app_nil_r, <- app_assoc.
    - rewrite length_app. cbn. lia.
    - rewrite !length_app. cbn. lia. }
  rewrite (bind_Ok _ _ _ _ _ Eer). eexists. split; [done|]. unfold set_total; cbn [_runs set_runs _total_length].
  assert (Hd : decode (l1 ++ [set_length (pos + 1) x]) = take (Z.to_nat n) (decode (l1 ++ x :: l))).
  { rewrite !decode_app, !decode_cons, app_nil_r, (expand_split x (pos + 1)) by lia.
    rewrite <- app_assoc, app_assoc, take_app_length'; [done|].
    rewrite length_app, length_expand. cbn [run_length set_length]. lia. }
  rewrite resized_cut by lia. split; [|split; [done|split; [exact Hd|]]].
  - eapply wf_of_decode; [|exact Hd|rewrite length_take; lia|lia].
    apply unsigned_app. split; [done|]. apply unsigned_cons. split; [cbn; lia|constructor].
  - apply compact_app in Hcp as (Hc1 & Hc2 & Hap). apply compact_app. split; [done|]. split; [|done].
    split; [|done]. repeat constructor. cbn. lia.
Qed.

Lemma resize_grow (r : rle) n :
  wf w r -> compact (_runs r) -> _total_length r < n < 2 ^ w -> _runs r <> [] -> resizes r n.
Proof.
  intros Hr Hcp Hn Hne. pose proof (length_contents r Hr) as Hlen. pose proof Hr as [Hu Ht Hb].
  pose proof (runs_length_nonneg _ Hu).
  unfold resizes, resize_trailing_extent, bind at 1, get. destruct (Z.eqb_spec n 0); [lia|].
  destruct (Z.ltb_spec n (_total_length r)); [lia|]. destruct (Z.ltb_spec (_total_length r) n); [|lia].
  assert (Hl : exists l x, _runs r = l ++ [x]).
  { destruct (_runs r) as [|x l _] using rev_ind; [done|eauto]. }
  destruct Hl as (l & x & E). rewrite bind_assoc. unfold bind at 1, get. rewrite E in Hu, Hb, Ht, Hcp |- *. unfold contents in *. rewrite E in *.
  assert (Em : forall k : M rle unit, (match l ++ [x] with [] => undefined | _ :: _ => k end) = k)
    by (intros; by destruct l).
  rewrite Em. rewrite length_app, Nat.add_sub. cbv zeta.
  rewrite bind_assoc, (bind_Ok _ _ _ _ _ (run_at_eq r l x [] _ E eq_refl)).
  apply unsigned_app in Hu as [Hu1 [Hx _]%unsigned_cons]. rewrite runs_length_app in Hb, Ht. cbn [runs_length] in Hb, Ht.
  pose proof (runs_length_nonneg _ Hu1). pose proof (length_decode l Hu1).
  rewrite (bind_Ok _ _ _ _ _ (put_length_eq w r l x [] _ (run_length x + (n - _total_length r)) E eq_refl ltac:(lia))).
  eexists. split; [done|]. unfold set_total; cbn [_runs set_runs _total_length].
  apply compact_app in Hcp as (Hc1 & [Hc2 _] & Hap). inversion Hc2; subst.
  assert (Hd : decode (l ++ [set_length (run_length x + (n - _total_length r)) x]) =
    resized (Z.to_nat n) (decode (l ++ [x]))).
  { unfold resized. rewrite take_ge by lia. rewrite decode_app, !decode_cons, app_nil_r in *.
    assert (Elast : list.last (decode l ++ expand x) = Some (value x)).
    { unfold expand. replace (Z.to_nat (run_length x)) with (Z.to_nat (run_length x - 1) + 1)%nat by lia.
      rewrite repeat_app, app_assoc. apply last_snoc. }
    rewrite decode_app, decode_cons, app_nil_r, Elast, <- app_assoc. f_equal. unfold expand at 1 2; cbn [run_length set_length value].
    rewrite <- repeat_app. f_equal. lia. }
  split; [|split; [done|split; [exact Hd|]]].
  - eapply wf_of_decode; [|exact eq_refl| |lia].
    + apply unsigned_app. split; [done|]. apply unsigned_cons. split; [cbn; lia|constructor].
    + rewrite length_decode; [rewrite runs_length_app; cbn [runs_length run_length set_length]; lia|].
      apply unsigned_app. split; [done|]. apply unsigned_cons. split; [cbn; lia|constructor].
  - apply compact_app. split; [done|]. split; [|done]. split; [|done]. repeat constructor. cbn. lia.
Qed.

Lemma resize_spec (r : rle) n :
  wf w r -> compact (_runs r) -> 0 <= n < 2 ^ w -> (n <= _total_length r \/ _runs r <> []) ->
  resizes r n.
Proof.
  intros Hr Hcp Hn Hne. pose proof (length_contents r Hr) as Hlen.
  destruct (Z.lt_trichotomy n (_total_length r)) as [Hlt|[->|Hgt]].
  - destruct (Z.eq_dec n 0) as [->|]; [|apply resize_shrink; done || lia].
    eexists. split; [done|]. unfold set_total; cbn. split; [split; [constructor|done|cbn; lia]|].
    split; [done|]. split; [|by split; [constructor|]]. by rewrite resized_cut by lia.
  - unfold resizes, resize_trailing_extent, bind at 1, get.
    rewrite Z.ltb_irrefl. destruct (Z.eqb_spec (_total_length r) 0) as [E0|E0].
    + assert (En : _runs r = []).
      { apply compact_nil_length; [done|]. by rewrite <- (wf_total w r Hr). }
      eexists. split; [done|]. unfold set_total, contents; cbn. rewrite E0, En in *.
      split; [split; [constructor|done|cbn; lia]|]. split; [done|]. split; [done|]. by split; [constructor|].
    + exists r. split; [by destruct r|]. split; [done|]. split; [done|]. split; [|done].
      by rewrite resized_cut, take_ge by lia.
  - apply resize_grow; try done; [lia|]. destruct Hne; [lia|done].
Qed.

(** ** Iterators *)

Section Iterators.
Context (runs : list run) (Hc : compact runs) (Hb : runs_length runs < 2 ^ w).

(** How far an iterator is from the beginning, and the iterators that point to an
    item or to the end. *)
Definition offset (i : rle_iterator) : Z := runs_length (take (_it i) runs) + _pos i.

Definition valid (i : rle_iterator) : Prop :=
  match runs !! _it i with
  | Some x => 0 <= _pos i < run_length x
  | None => _it i = length runs /\ _pos i = 0
  end.

Lemma runs_length_take_S k x :
  runs !! k = Some x -> runs_length (take (S k) runs) = runs_length (take k runs) + run_length x.
Proof.
  intros Hk. rewrite (take_S_r runs k x Hk), runs_length_app. cbn [runs_length]. lia.
Qed.

Lemma run_bounds k x : runs !! k = Some x -> 0 < run_length x < 2 ^ w.
Proof.
  intros Hk. pose proof Hc as [Hp _]. rewrite Forall_forall in Hp.
  split; [apply Hp, list_elem_of_In; by eapply list_elem_of_lookup_2|].
  pose proof (compact_unsigned _ Hc) as Hu. rewrite <- (take_drop_middle runs k x Hk) in Hu, Hb.
  apply unsigned_app in Hu as [H1 [? H2]%unsigned_cons]. rewrite runs_length_app in Hb. cbn [runs_length] in Hb.
  pose proof (runs_length_nonneg _ H1). pose proof (runs_length_nonneg _ H2). lia.
Qed.

Lemma valid_start k : (k <= length runs)%nat -> valid (mk_iterator k 0).
Proof.
  intros Hk. unfold valid; cbn. destruct (runs !! k) as [x|] eqn:E.
  - pose proof (run_bounds k x E). lia.
  - apply lookup_ge_None in E. split; [lia|done].
Qed.

Lemma take_length_nonneg k : 0 <= runs_length (take k runs).
Proof.
  apply runs_length_nonneg. eapply Forall_take, (compact_unsigned _ Hc).
Qed.

Lemma take_length_le k : runs_length (take k runs) <= runs_length runs.
Proof.
  pose proof (runs_length_nonneg (drop k runs) (Forall_drop _ _ _ (compact_unsigned _ Hc))).
  assert (runs_length runs = runs_length (take k runs) + runs_length (drop k runs))
    by (by rewrite <- runs_length_app, take_drop). lia.
Qed.

(** An iterator with something ahead points to a run. *)
Lemma valid_run i : valid i -> offset i < runs_length runs -> exists x, runs !! _it i = Some x /\ 0 <= _pos i < run_length x.
Proof.
  unfold valid, offset. intros Hv Ho. destruct (runs !! _it i) as [x|] eqn:E; [eauto|].
  destruct Hv as [Hi Hp]. rewrite take_ge in Ho by lia. lia.
Qed.

Lemma iter_forward_spec fuel i move :
  valid i -> 0 <= move -> offset i + move <= runs_length runs -> (length runs - _it i < fuel)%nat ->
  exists j, iter_forward w runs fuel i move = Some j /\ valid j /\ offset j = offset i + move.
Proof.
  revert i move; induction fuel as [|fuel IH]; intros i move Hv Hm Ho Hf; [lia|]. cbn [iter_forward].
  destruct (Z.ltb_spec 0 move); [|exists i; split; [done|]; split; [done|lia]].
  destruct (valid_run i Hv ltac:(lia)) as (x & Hx & Hp). rewrite Hx. cbn [mbind option_bind].
  pose proof (run_bounds _ _ Hx). destruct (Z.ltb_spec move (run_length x - _pos i)).
  - rewrite wrapu_small by lia. eexists. split; [done|]. unfold valid, offset; cbn. rewrite Hx. lia.
  - pose proof (lookup_lt_Some _ _ _ Hx) as Hlt. pose proof (runs_length_take_S _ _ Hx) as Ht.
    destruct (IH (mk_iterator (S (_it i)) 0) (move - (run_length x - _pos i))) as (j & E & Hj & Hoj);
      [apply valid_start; lia|lia|unfold offset in *; cbn [_it _pos]; lia|cbn [_it]; lia|].
    exists j. split; [done|]. split; [done|]. rewrite Hoj. unfold offset; cbn [_it _pos]. lia.
Qed.

Lemma iter_backward_spec fuel i move :
  valid i -> 0 <= move <= offset i -> (_it i < fuel)%nat ->
  exists j, iter_backward w runs fuel i move = Some j /\ valid j /\ offset j = offset i - move.
Proof.
  revert i move; induction fuel as [|fuel IH]; intros i move Hv Hm Hf; [lia|]. cbn [iter_backward].
  destruct (Z.ltb_spec 0 move); [|exists i; split; [done|]; split; [done|lia]].
  destruct (Z.leb_spec move (_pos i)).
  - unfold valid in Hv. destruct (runs !! _it i) as [x|] eqn:Hx; [|lia]. pose proof (run_bounds _ _ Hx).
    rewrite wrapu_small by lia. eexists. split; [done|]. unfold valid, offset; cbn. rewrite Hx. lia.
  - destruct (_it i) as [|k] eqn:Hk; [unfold offset in Hm; rewrite Hk in Hm; rewrite take_0 in Hm; cbn [runs_length] in Hm; lia|].
    assert (Hlt : (k < length runs)%nat).
    { unfold valid in Hv. rewrite Hk in Hv. destruct (runs !! S k) as [x|] eqn:Hx;
        [apply lookup_lt_Some in Hx; lia|lia]. }
    destruct (lookup_lt_is_Some_2 runs k Hlt) as [x Hx]. rewrite Hx. cbn [mbind option_bind].
    pose proof (run_bounds _ _ Hx). rewrite wrapu_small by lia. pose proof (runs_length_take_S _ _ Hx) as Ht.
    assert (Hpos : 0 <= _pos i) by (unfold valid in Hv; destruct (runs !! _it i); lia).
    destruct (IH (mk_iterator k (run_length x - 1)) (move - (_pos i + 1))) as (j & E & Hj & Hoj).
    + unfold valid; cbn. rewrite Hx. lia.
    + unfold offset in *; cbn [_it _pos]. rewrite Hk in Hm. lia.
    + cbn [_it]. lia.
    + exists j. split; [done|]. split; [done|]. rewrite Hoj. unfold offset; cbn [_it _pos]. rewrite Hk. lia.
Qed.

Lemma iter_add_spec i move :
  valid i -> 0 <= offset i + move <= runs_length runs ->
  exists j, iter_add w runs i move = Some j /\ valid j /\ offset j = offset i + move.
Proof.
  intros Hv Ho. unfold iter_add. destruct (Z.leb_spec 0 move).
  - apply iter_forward_spec; [done|lia|lia|lia].
  - destruct (iter_backward_spec (S (length runs)) i (- move) Hv) as (j & E & Hj & Hoj); [lia| |].
    + unfold valid in Hv. destruct (runs !! _it i) as [x|] eqn:Hx; [apply lookup_lt_Some in Hx; lia|lia].
    + exists j. split; [done|]. split; [done|lia].
Qed.

Lemma iter_incr_spec i :
  valid i -> offset i < runs_length runs ->
  exists j, iter_incr w runs i = Some j /\ valid j /\ offset j = offset i + 1.
Proof.
  intros Hv Ho. destruct (valid_run i Hv Ho) as (x & Hx & Hp). pose proof (run_bounds _ _ Hx).
  unfold iter_incr. rewrite Hx. cbn [mbind option_bind]. rewrite wrapu_small by lia.
  pose proof (runs_length_take_S _ _ Hx) as Ht. eexists. split; [done|].
  destruct (Z.eqb_spec (_pos i + 1) (run_length x)).
  - split; [apply valid_start; apply lookup_lt_Some in Hx; lia|]. unfold offset; cbn [_it _pos]. lia.
  - unfold valid, offset; cbn [_it _pos]. rewrite Hx. lia.
Qed.

Lemma iter_decr_spec i :
  valid i -> 0 < offset i ->
  exists j, iter_decr w runs i = Some j /\ valid j /\ offset j = offset i - 1.
Proof.
  intros Hv Ho. unfold iter_decr. assert (Hpos : 0 <= _pos i) by (unfold valid in Hv; destruct (runs !! _it i); lia).
  destruct (Z.eqb_spec (_pos i) 0) as [E0|E0].
  - destruct (_it i) as [|k] eqn:Hk; [unfold offset in Ho; rewrite Hk in Ho; rewrite take_0 in Ho; cbn [runs_length] in Ho; lia|].
    assert (Hlt : (k < length runs)%nat).
    { unfold valid in Hv. rewrite Hk in Hv. destruct (runs !! S k) as [x|] eqn:Hx;
        [apply lookup_lt_Some in Hx; lia|lia]. }
    destruct (lookup_lt_is_Some_2 runs k Hlt) as [x Hx]. rewrite Hx. cbn [mbind option_bind].
    pose proof (run_bounds _ _ Hx). rewrite wrapu_small by lia. pose proof (runs_length_take_S _ _ Hx) as Ht.
    eexists. split; [done|]. unfold valid, offset; cbn [_it _pos]. rewrite Hx, Hk. lia.
  - unfold valid in Hv. destruct (runs !! _it i) as [x|] eqn:Hx; [|lia]. pose proof (run_bounds _ _ Hx).
    rewrite wrapu_small by lia. eexists. split; [done|]. unfold valid, offset; cbn [_it _pos]. rewrite Hx. lia.
Qed.

Lemma deref_spec i : valid i -> iter_deref runs i = decode runs !! Z.to_nat (offset i).
Proof.
  intros Hv. unfold iter_deref, valid, offset in *. destruct (runs !! _it i) as [x|] eqn:Hx.
  - pose proof (compact_unsigned _ Hc) as Hu. pose proof (take_length_nonneg (_it i)).
    rewrite <- (take_drop_middle runs _ _ Hx) in Hu at 1. apply unsigned_app in Hu as [H1 _].
    pose proof (length_decode _ H1) as Hd. rewrite <- (take_drop_middle runs _ _ Hx) at 2.
    rewrite decode_app, lookup_app_r by lia. rewrite decode_cons, lookup_app_l by (rewrite length_expand; lia).
    unfold expand. by rewrite lookup_repeat by lia.
  - destruct Hv as [Hi ->]. rewrite take_ge by lia. rewrite lookup_ge_None_2; [done|].
    rewrite <- (length_decode runs) by (by apply compact_unsigned). lia.
Qed.

Lemma sum_lengths (l : list run) d : foldl (fun d x => d + run_length x) d l = d + runs_length l.
Proof. revert d; induction l as [|x l IH]; intros d; cbn; [lia|]. rewrite IH. lia. Qed.

Lemma lengths_between a b :
  (a <= b)%nat -> runs_length (take (b - a) (drop a runs)) = runs_length (take b runs) - runs_length (take a runs).
Proof.
  intros Hab. pose proof (take_take_drop runs a (b - a)) as E.
  replace (a + (b - a))%nat with b in E by lia. rewrite <- E, runs_length_app. lia.
Qed.

Lemma iter_diff_spec i j : valid i -> valid j -> iter_diff runs i j = offset i - offset j.
Proof.
  intros Hi Hj. unfold iter_diff, iter_lt, offset. rewrite sum_lengths.
  destruct (Nat.ltb_spec (_it i) (_it j)); cbn [orb].
  - rewrite lengths_between by lia. lia.
  - destruct (Nat.eqb_spec (_it i) (_it j)) as [E|E]; cbn [andb].
    + destruct (Z.ltb_spec (_pos i) (_pos j)); cbv iota; rewrite E, Nat.sub_diag, take_0; cbn [runs_length]; lia.
    + rewrite lengths_between by lia. lia.
Qed.

Lemma offset_range i : valid i -> 0 <= offset i <= runs_length runs.
Proof.
  intros Hv. unfold valid, offset in *. pose proof (take_length_nonneg (_it i)).
  pose proof (take_length_le (S (_it i))). pose proof (take_length_le (_it i)).
  destruct (runs !! _it i) as [x|] eqn:E; [|lia]. pose proof (runs_length_take_S _ _ E). lia.
Qed.

Lemma offset_lt i j : valid i -> valid j -> (_it i < _it j)%nat -> offset i < offset j.
Proof.
  intros Hi Hj Hlt. unfold valid, offset in *.
  assert (Hjl : (_it j <= length runs)%nat /\ 0 <= _pos j).
  { destruct (runs !! _it j) eqn:E; [apply lookup_lt_Some in E; lia|lia]. }
  destruct (runs !! _it i) as [x|] eqn:E; [|lia].
  pose proof (runs_length_take_S _ _ E). pose proof (lengths_between (S (_it i)) (_it j) ltac:(lia)) as Hm.
  pose proof (runs_length_nonneg (take (_it j - S (_it i)) (drop (S (_it i)) runs))
    (Forall_take _ _ _ (Forall_drop _ _ _ (compact_unsigned _ Hc)))). lia.
Qed.

Lemma offset_inj i j : valid i -> valid j -> offset i = offset j -> i = j.
Proof.
  intros Hi Hj E. pose proof (offset_lt i j Hi Hj). pose proof (offset_lt j i Hj Hi).
  assert (Hit : _it i = _it j) by lia. unfold offset in E. rewrite Hit in E.
  destruct i, j; cbn in *. f_equal; lia.
Qed.

End Iterators.

End Spec.

(** ** The theorems *)

(** C31. The in-place replacement of til::rle is a splice: replacing [start, end) by
    runs (none, one or many) gives the vector with that range replaced, keeps the
    size accounted for, never dereferences past the runs, and keeps the runs compact
    if the new ones are; a start past the end throws and changes nothing. *)
Theorem rle_replace_is_splice {T : Type} `{EqDecision T} `{Inhabited T} (w : Z) (r : basic_rle T)
    (start end_ : Z) (reps : list (rle_pair T)) :
  wf w r -> 0 <= start -> unsigned reps ->
  _total_length r + runs_length reps < 2 ^ w ->
  let end' := Z.min end_ (_total_length r) in
  if start <=? end' then
    exists r', rle_replace_runs w start end_ reps r = (r', Ok tt) /\ wf w r' /\
      contents r' = spliced start end' (decode reps) (contents r) /\
      (compact (_runs r) -> compact reps -> compact (_runs r'))
  else rle_replace_runs w start end_ reps r = (r, Throw StdException).
Proof.
  intros Hr Hs Hu Hb. cbv zeta. destruct (Z.leb_spec start (Z.min end_ (_total_length r))).
  - apply replace_runs_ok; try done. lia.
  - by apply replace_throws.
Qed.

(** 1 1 1|2 2 2|3 3 3 with 2 2 2 overlapped on both sides by 1 1|4|2. *)
Definition sample_rle : basic_rle Z :=
  rle_of_runs 16 [mk_rle_pair 1 3; mk_rle_pair 2 3; mk_rle_pair 3 3].

Lemma sample_wf : wf 16 sample_rle.
Proof. split; [repeat constructor; cbn; lia|done|done]. Qed.

Lemma sample_compact : compact (_runs sample_rle).
Proof. split; [repeat constructor; cbn; lia|cbn; done]. Qed.

Lemma rle_replace_is_splice_witness :
  exists r', rle_replace_runs 16 2 5 [mk_rle_pair 1 2; mk_rle_pair 4 1; mk_rle_pair 2 1] sample_rle = (r', Ok tt) /\
    contents r' = [1; 1; 1; 1; 4; 2; 2; 3; 3; 3] /\
    _runs r' = [mk_rle_pair 1 4; mk_rle_pair 4 1; mk_rle_pair 2 2; mk_rle_pair 3 3].
Proof.
  destruct (rle_replace_is_splice 16 sample_rle 2 5 [mk_rle_pair 1 2; mk_rle_pair 4 1; mk_rle_pair 2 1])
    as (r' & E & _ & Hc & _).
  - exact sample_wf.
  - lia.
  - repeat constructor; cbn; lia.
  - reflexivity.
  - exists r'. split; [exact E|]. split; [rewrite Hc; reflexivity|].
    revert E. vm_compute. by intros [= <-].
Defined.

Section NormalForm.
Context {T : Type} `{EqDecision T}.
Implicit Types (x y : rle_pair T) (l : list (rle_pair T)).

Lemma expand_cons x : 0 < run_length x -> expand x = value x :: repeat (value x) (Z.to_nat (run_length x - 1)).
Proof.
  intros Hx. unfold expand. replace (Z.to_nat (run_length x)) with (S (Z.to_nat (run_length x - 1))) by lia.
  done.
Qed.

Lemma compact_cons x l :
  compact (x :: l) -> 0 < run_length x /\ compact l /\ head (decode l) <> Some (value x).
Proof.
  intros Hc. change (x :: l) with ([x] ++ l) in Hc. apply compact_app in Hc as ([Hx _] & Hl & Hap).
  inversion Hx; subst. split; [done|]. split; [done|]. destruct l as [|y l]; [done|].
  destruct Hl as [Hp _]. inversion Hp; subst. rewrite decode_cons, expand_cons by done. cbn in *. congruence.
Qed.

(** A longer run leaves its value at the head. *)
Lemma run_lengths_le x y (t1 t2 : list T) :
  value x = value y -> head t1 <> Some (value x) -> 0 < run_length x ->
  expand x ++ t1 = expand y ++ t2 -> run_length y <= run_length x.
Proof.
  intros Hv Ht Hx E. destruct (Z.le_gt_cases (run_length y) (run_length x)) as [|Hgt]; [done|].
  exfalso. apply Ht. assert (E' : t1 = repeat (value y) (Z.to_nat (run_length y - run_length x)) ++ t2).
  { apply (f_equal (drop (Z.to_nat (run_length x)))) in E.
    rewrite drop_app_length' in E by (by rewrite length_expand). rewrite E. unfold expand.
    replace (Z.to_nat (run_length y)) with (Z.to_nat (run_length x) + Z.to_nat (run_length y - run_length x))%nat by lia.
    rewrite repeat_app, <- app_assoc, drop_app_length' by (by rewrite repeat_length). done. }
  rewrite E'. destruct (Z.to_nat (run_length y - run_length x)) eqn:En; [lia|]. cbn. by rewrite Hv.
Qed.

End NormalForm.

(** Compact runs are a normal form: two vectors with the same contents and
    compact runs have the same runs, so operator==, which compares runs, compares
    contents. *)
Theorem compact_runs_unique {T : Type} `{EqDecision T} (l1 l2 : list (rle_pair T)) :
  compact l1 -> compact l2 -> decode l1 = decode l2 -> l1 = l2.
Proof.
  revert l2; induction l1 as [|x l1 IH]; intros l2 H1 H2 E.
  { destruct l2 as [|y l2]; [done|]. apply compact_cons in H2 as (Hy & _).
    rewrite decode_cons, expand_cons in E by done. done. }
  apply compact_cons in H1 as (Hx & H1 & Hh1). destruct l2 as [|y l2].
  { rewrite decode_cons, expand_cons in E by done. done. }
  apply compact_cons in H2 as (Hy & H2 & Hh2). rewrite !decode_cons in E.
  assert (Hv : value x = value y).
  { rewrite (expand_cons x), (expand_cons y) in E by done. by injection E. }
  assert (Hlen : run_length x = run_length y).
  { pose proof (run_lengths_le x y _ _ Hv Hh1 Hx E).
    pose proof (run_lengths_le y x _ _ (eq_sym Hv) Hh2 Hy (eq_sym E)). lia. }
  assert (Exy : x = y) by (destruct x, y; cbn in *; congruence). subst y.
  apply app_inv_head in E. f_equal. auto.
Qed.

Lemma compact_runs_unique_witness :
  _runs (rle_replace 16 3 6 3 sample_rle).1 = _runs (rle_replace_values 16 2 3 sample_rle).
Proof.
  apply compact_runs_unique.
  - vm_compute. repeat constructor; intros [=].
  - vm_compute. repeat constructor; intros [=].
  - reflexivity.
Defined.

(** A run-length iterator is a random access iterator of the vector: it walks to
    any item in one addition, forward or backward, ++ and -- go to the neighbours,
    the difference of two iterators is their distance, and every one reads the item
    it stands for. *)
Theorem rle_iterator_random_access {T : Type} `{EqDecision T} (w : Z) (runs : list (rle_pair T))
    (i : rle_iterator) (move : Z) :
  compact runs -> runs_length runs < 2 ^ w -> valid runs i ->
  0 <= offset runs i + move <= runs_length runs ->
  iter_deref runs i = decode runs !! Z.to_nat (offset runs i) /\
  (exists j, iter_add w runs i move = Some j /\ valid runs j /\ offset runs j = offset runs i + move /\
     iter_diff runs j i = move /\ iter_diff runs i j = - move) /\
  (0 < move -> iter_incr w runs i = iter_add w runs i 1) /\
  (move < 0 -> iter_decr w runs i = iter_add w runs i (-1)).
Proof.
  intros Hc Hb Hi Ho. pose proof (offset_range w runs Hc i Hi). split; [by apply deref_spec|].
  split; [|split].
  - destruct (iter_add_spec w runs Hc Hb i move Hi Ho) as (j & E & Hj & Hoj). exists j.
    split; [done|]. split; [done|]. split; [done|]. rewrite !iter_diff_spec by done. lia.
  - intros Hm. destruct (iter_add_spec w runs Hc Hb i 1 Hi ltac:(lia)) as (j & E & Hj & Hoj).
    destruct (iter_incr_spec w runs Hc Hb i Hi ltac:(lia)) as (k & E' & Hk & Hok).
    rewrite E, E'. f_equal. apply (offset_inj w runs Hc); done || lia.
  - intros Hm. destruct (iter_add_spec w runs Hc Hb i (-1) Hi ltac:(lia)) as (j & E & Hj & Hoj).
    destruct (iter_decr_spec w runs Hc Hb i Hi ltac:(lia)) as (k & E' & Hk & Hok).
    rewrite E, E'. f_equal. apply (offset_inj w runs Hc); done || lia.
Qed.

Lemma rle_iterator_random_access_witness :
  exists j, iter_add 16 (_runs sample_rle) (mk_iterator 1 1) 4 = Some j /\ offset (_runs sample_rle) j = 8 /\
    iter_diff (_runs sample_rle) j (mk_iterator 1 1) = 4.
Proof.
  destruct (rle_iterator_random_access 16 (_runs sample_rle) (mk_iterator 1 1) 4)
    as (_ & (j & E & _ & Ho & Hd & _) & _).
  - exact sample_compact.
  - reflexivity.
  - cbn. lia.
  - vm_compute. split; intros [=].
  - exists j. split; [exact E|]. split; [exact Ho|exact Hd].
Defined.

(** ** Behaviour that contradicts the code's intent *)

(** Postfix ++ and -- of a run-length iterator return the moved iterator and leave
    the iterator itself where it was, the reverse of what the operators mean. *)
Theorem rle_post_increment_stays {T : Type} `{EqDecision T} (w : Z) (runs : list (rle_pair T))
    (i i' returned : rle_iterator) :
  iter_post_incr w runs i = Some (i', returned) ->
  i' = i /\ iter_incr w runs i = Some returned.
Proof.
  unfold iter_post_incr. destruct (iter_incr w runs i); cbn; [|done]. by intros [= <- <-].
Qed.

Lemma rle_post_increment_stays_witness :
  exists returned, iter_post_incr 16 (_runs sample_rle) rle_begin = Some (rle_begin, returned) /\
    iter_incr 16 (_runs sample_rle) rle_begin = Some returned /\ returned <> rle_begin.
Proof.
  exists (mk_iterator 0 1). split; [reflexivity|].
  destruct (rle_post_increment_stays 16 (_runs sample_rle) rle_begin rle_begin (mk_iterator 0 1) eq_refl) as [_ E].
  split; [exact E|]. intros [=].
Defined.

(** Replacing an empty range by a value stores a run of length zero, whatever the
    vector: the sequence stays the same, but its runs are not compact any more. *)
Theorem rle_replace_empty_range {T : Type} `{EqDecision T} `{Inhabited T} (w : Z) (r : basic_rle T)
    (i : Z) (v : T) :
  wf w r -> 0 <= i <= _total_length r ->
  (forall x, x ∈ _runs r -> value x <> v) ->
  exists r', rle_replace w i i v r = (r', Ok tt) /\ contents r' = contents r /\
    mk_rle_pair v 0 ∈ _runs r'.
Proof.
  intros Hr Hi Hv. unfold rle_replace, _check_indices, bind at 1 2, get, ret.
  rewrite Z.min_l, Z.ltb_irrefl, Z.sub_diag by lia. cbv beta iota.
  pose proof (wf_total w _ Hr). pose proof (wf_bound w _ Hr).
  rewrite (wrapu_small w 0) by lia.
  destruct (replace_unchecked_some w r i i [mk_rle_pair v 0] (mk_rle_pair v 0) (mk_rle_pair v 0))
    as (l1 & m & l3 & pos_b & pos_e & Hrange & E);
    [done|lia|lia|repeat constructor; cbn; lia|cbn [runs_length run_length]; lia|done|done|].
  destruct (replace_unchecked_spec w r i i [mk_rle_pair v 0]) as (r' & E' & _ & Hc & _);
    [done|lia|lia|repeat constructor; cbn; lia|cbn [runs_length run_length]; lia|].
  exists r'. split; [done|]. split.
  { rewrite Hc. unfold spliced. change (decode [mk_rle_pair v 0]) with (@nil T). cbn [app]. by rewrite take_drop. }
  rewrite E in E'. injection E' as <-. cbn [_runs].
  assert (Hin : forall x, x ∈ l1 ++ m ++ l3 -> value x <> v) by (by rewrite <- (rg_runs w _ _ _ _ _ _ _ _ Hrange)).
  assert (HL : (left_part i l1 (m ++ l3) pos_b v).2 = 0).
  { unfold left_part. destruct (i =? 0); [done|]. destruct (pos_b =? 0).
    - destruct (list.last l1) as [p|] eqn:Hl; [|done]. rewrite bool_decide_eq_false_2; [done|].
      apply Hin. apply last_Some in Hl as [l' ->]. set_solver.
    - destruct (m ++ l3) as [|b l]; [done|]. rewrite bool_decide_eq_false_2; [done|]. apply Hin. set_solver. }
  assert (HR : (right_part l3 pos_e v).2 = 0).
  { unfold right_part. destruct l3 as [|e l]; [done|]. rewrite bool_decide_eq_false_2; [done|].
    apply Hin. set_solver. }
  cbn [value]. rewrite HL, HR. cbn. set_solver.
Qed.

Lemma rle_replace_empty_range_witness :
  exists r', rle_replace 16 4 4 7 sample_rle = (r', Ok tt) /\ contents r' = contents sample_rle /\
    mk_rle_pair 7 0 ∈ _runs r' /\
    (* two steps from the item before, the iterator is stuck in the empty run *)
    iter_add 16 (_runs r') (mk_iterator 2 0) 0 = Some (mk_iterator 2 0) /\
    iter_incr 16 (_runs r') (mk_iterator 2 0) = Some (mk_iterator 2 1).
Proof.
  destruct (rle_replace_empty_range 16 sample_rle 4 7) as (r' & E & Hc & Hin).
  - exact sample_wf.
  - vm_compute. split; intros [=].
  - intros x Hx. repeat (apply elem_of_cons in Hx as [->|Hx]; [cbn; lia|]). by apply elem_of_nil in Hx.
  - exists r'. split; [exact E|]. split; [exact Hc|]. split; [exact Hin|].
    revert E. vm_compute. by intros [= <-].
Defined.
