(* ===== verification/Row.v ===== *)
(** * Rows of the text buffer

    Models [ROW] (src/src/buffer/out/Row.{hpp,cpp}): the text of a row, the offset of
    the text of every column, with a flag for the trailing columns of a wide glyph,
    and the attributes, run-length encoded.

    The spans [_chars] and [_charOffsets] are the lists of what they refer to; the
    length of [_chars] is the capacity, the length of the text is the last offset.
    [_charsHeap] says whether [_chars] is on the heap; a null [_charsBuffer] is the
    row that was only default-constructed.  Memory that was allocated but not written
    holds [garbage].  Reading or writing outside of a span is [Undefined].
    [std::copy_n] and [std::copy] move overlapping memory as [memmove] does, which is
    what the implementation the code is built with does for characters.

    [RowLayout.v] relates the representation to a row of glyphs, [RowSpec.v] has the
    theorems. *)

From S2P Require Import Prelude Effects LineRendition TextColor TextAttribute Rle.

Local Open Scope Z_scope.

Inductive DbcsAttribute := Single | Leading | Trailing.

Inductive DelimiterClass := ControlChar | DelimiterChar | RegularChar.

#[export] Instance TextAttribute_inhabited : Inhabited TextAttribute := populate TextAttribute_default.

Record ROW := mkROW {
  _charsBuffer : bool;
  _charsHeap : bool;
  _chars : list wchar;
  _charOffsets : list Z;
  _attr : basic_rle TextAttribute;
  _columnCount : Z;
  _lineRendition : LineRendition;
  _wrapForced : bool;
  _doubleBytePadded : bool
}.

Definition set_chars (heap : bool) (x : list wchar) (r : ROW) : ROW :=
  mkROW (_charsBuffer r) heap x (_charOffsets r) (_attr r) (_columnCount r) (_lineRendition r)
    (_wrapForced r) (_doubleBytePadded r).
Definition set_charOffsets (x : list Z) (r : ROW) : ROW :=
  mkROW (_charsBuffer r) (_charsHeap r) (_chars r) x (_attr r) (_columnCount r) (_lineRendition r)
    (_wrapForced r) (_doubleBytePadded r).
Definition set_attr (x : basic_rle TextAttribute) (r : ROW) : ROW :=
  mkROW (_charsBuffer r) (_charsHeap r) (_chars r) (_charOffsets r) x (_columnCount r)
    (_lineRendition r) (_wrapForced r) (_doubleBytePadded r).

Definition SetWrapForced (wrap : bool) (r : ROW) : ROW :=
  mkROW (_charsBuffer r) (_charsHeap r) (_chars r) (_charOffsets r) (_attr r) (_columnCount r)
    (_lineRendition r) wrap (_doubleBytePadded r).
Definition SetDoubleBytePadded (padded : bool) (r : ROW) : ROW :=
  mkROW (_charsBuffer r) (_charsHeap r) (_chars r) (_charOffsets r) (_attr r) (_columnCount r)
    (_lineRendition r) (_wrapForced r) padded.
Definition SetLineRendition (rendition : LineRendition) (r : ROW) : ROW :=
  mkROW (_charsBuffer r) (_charsHeap r) (_chars r) (_charOffsets r) (_attr r) (_columnCount r)
    rendition (_wrapForced r) (_doubleBytePadded r).

Definition UNICODE_SPACE : wchar := 0x20.
Definition CharOffsetsTrailer : Z := 0x8000.
Definition CharOffsetsMask : Z := 0x7FFF.

Definition iota (from : Z) (n : nat) : list Z := map (fun i => from + Z.of_nat i) (seq 0 n).

(** ** Construction *)

Definition init_chars (columns : Z) : list wchar := repeat UNICODE_SPACE (Z.to_nat columns).
Definition init_offsets (columns : Z) : list Z := iota 0 (S (Z.to_nat columns)).

(** The constructor, with buffers: their contents are overwritten. *)
Definition ROW_new (rowWidth : Z) (fillAttribute : TextAttribute) : ROW :=
  mkROW true false (init_chars rowWidth) (init_offsets rowWidth)
    (rle_of_value rowWidth fillAttribute) rowWidth SingleWidth false false.

Definition ROW_default : ROW := mkROW false false [] [] rle_empty 0 SingleWidth false false.

Definition Reset (attr : TextAttribute) (r : ROW) : ROW :=
  mkROW (_charsBuffer r) false (init_chars (_columnCount r)) (init_offsets (_columnCount r))
    (rle_of_value (_columnCount r) attr) (_columnCount r) SingleWidth false false.

(** ** Columns *)

Definition _clampedUint16 (v : Z) : Z := Z.max 0 (Z.min 65535 v).
Definition _clampedColumn (v : Z) (r : ROW) : Z := Z.max 0 (Z.min (_columnCount r - 1) v).
Definition _clampedColumnInclusive (v : Z) (r : ROW) : Z := Z.max 0 (Z.min (_columnCount r) v).

(** [til::at] of the two spans. *)
Definition offset_at (col : nat) (r : ROW) : Result Z :=
  match _charOffsets r !! col with Some x => Ok x | None => Undefined end.

Definition _uncheckedChar (off : Z) (r : ROW) : Result wchar :=
  match _chars r !! Z.to_nat off with Some x => Ok x | None => Undefined end.

Definition _charSize (r : ROW) : Result Z := offset_at (Z.to_nat (_columnCount r)) r.

Definition _uncheckedCharOffset (col : nat) (r : ROW) : Result Z :=
  mapR (fun x => Z.land x CharOffsetsMask) (offset_at col r).

Definition _uncheckedIsTrailer (col : nat) (r : ROW) : Result bool :=
  mapR (fun x => negb (Z.land x CharOffsetsTrailer =? 0)) (offset_at col r).

(** A value read from the row. *)
Definition reads {A} (f : ROW -> Result A) : M ROW A := fun r => (r, f r).

(** [for (; col != 0 && _uncheckedIsTrailer(col); --col)]. *)
Fixpoint extend_down (col : nat) (r : ROW) : Result nat :=
  match col with
  | O => Ok O
  | S col' => bindR (_uncheckedIsTrailer col r) (fun t => if t : bool then extend_down col' r else Ok col)
  end.

(** [for (; _uncheckedIsTrailer(col); ++col)], which leaves the span if no column
    stops it: there is fuel for every column of the span and one more. *)
Fixpoint extend_up (fuel : nat) (col : nat) (r : ROW) : Result nat :=
  match fuel with
  | O => OutOfFuel
  | S fuel =>
      bindR (_uncheckedIsTrailer col r) (fun t => if t : bool then extend_up fuel (S col) r else Ok col)
  end.

Definition offsets_fuel (r : ROW) : nat := S (length (_charOffsets r)).

(** ** Writing *)

(** [std::copy_n(first, count, dest)] within [_chars]. *)
Definition move_chars (first count dest : nat) : M ROW unit := fun r =>
  let n := length (_chars r) in
  if (first + count <=? n)%nat && (dest + count <=? n)%nat then
    let xs := take count (drop first (_chars r)) in
    (set_chars (_charsHeap r) (take dest (_chars r) ++ xs ++ drop (dest + count) (_chars r)) r, Ok tt)
  else (r, Undefined).

Definition write_chars (dest : nat) (xs : list wchar) : M ROW nat := fun r =>
  if (dest + length xs <=? length (_chars r))%nat then
    (set_chars (_charsHeap r) (take dest (_chars r) ++ xs ++ drop (dest + length xs) (_chars r)) r,
     Ok (dest + length xs)%nat)
  else (r, Undefined).

Definition write_offsets (dest : nat) (xs : list Z) : M ROW nat := fun r =>
  if (dest + length xs <=? length (_charOffsets r))%nat then
    (set_charOffsets (take dest (_charOffsets r) ++ xs ++ drop (dest + length xs) (_charOffsets r)) r,
     Ok (dest + length xs)%nat)
  else (r, Undefined).

Section Operations.
(** The contents of memory that was allocated and not written yet. *)
Context (garbage : wchar).

(** [gsl::narrow<uint16_t>], which throws what does not fit. *)
Definition narrow_u16 (x : Z) : M ROW Z :=
  if (0 <=? x) && (x <? 2 ^ 16) then ret x else throw StdException.

(** [_chars] moves to a larger block, with a gap for what will be written. *)
Definition grow_chars (chExtBeg chExtEnd chExtEndNew currentLength newCapacity : nat) : M ROW unit := fun r =>
  let old := _chars r in
  if (chExtBeg <=? length old)%nat && (chExtEnd <=? currentLength)%nat && (currentLength <=? length old)%nat
     && (chExtBeg <=? newCapacity)%nat && (chExtEndNew + (currentLength - chExtEnd) <=? newCapacity)%nat then
    let tail := take (currentLength - chExtEnd) (drop chExtEnd old) in
    let block := repeat garbage newCapacity in
    let block := take chExtBeg old ++ drop chExtBeg block in
    (set_chars true (take chExtEndNew block ++ tail ++ drop (chExtEndNew + length tail) block) r, Ok tt)
  else (r, Undefined).

Definition _resizeChars (colExtEnd : nat) (chExtBeg chExtEnd chExtEndNew : Z) : M ROW unit :=
  let diff := u64 (chExtEndNew - chExtEnd) in
  currentLength <- reads _charSize ;;
  let newLength := u64 (currentLength + diff) in
  capacity <- get (fun r => Z.of_nat (length (_chars r))) ;;
  (if newLength <=? capacity then
     move_chars (Z.to_nat chExtEnd) (Z.to_nat (currentLength - chExtEnd)) (Z.to_nat chExtEndNew)
   else
     let minCapacity := Z.min 65535 (capacity + Z.shiftr capacity 1) in
     newCapacity <- narrow_u16 (Z.max newLength minCapacity) ;;
     grow_chars (Z.to_nat chExtBeg) (Z.to_nat chExtEnd) (Z.to_nat chExtEndNew)
       (Z.to_nat currentLength) (Z.to_nat newCapacity)) ;;
  modify (fun r => set_charOffsets
    (take colExtEnd (_charOffsets r) ++
     map (fun x => u16 (x + diff)) (drop colExtEnd (_charOffsets r))) r).

(** The two blocks at the end of [ReplaceCharacters]. *)
Definition fill_chars (chExtBeg : Z) (leadingSpaces : Z) (chars : wstring) (trailingSpaces : Z) : M ROW unit :=
  it <- write_chars (Z.to_nat chExtBeg) (repeat UNICODE_SPACE (Z.to_nat leadingSpaces)) ;;
  it <- write_chars it chars ;;
  write_chars it (repeat UNICODE_SPACE (Z.to_nat trailingSpaces)) ;; ret tt.

(** The increments of [chPos], an [uint16_t]. *)
Definition iota16 (from : Z) (n : nat) : list Z := map u16 (iota from n).

Definition fill_offsets (colExtBeg colEnd : nat) (chExtBeg leadingSpaces : Z) (chars : wstring)
    (trailingSpaces : Z) : M ROW unit :=
  let chPos := chExtBeg in
  it <- write_offsets colExtBeg (iota16 chPos (Z.to_nat leadingSpaces)) ;;
  let chPos := u16 (chPos + leadingSpaces) in
  it <- write_offsets it [chPos] ;;
  it <- write_offsets it (repeat (Z.lor chPos CharOffsetsTrailer) (colEnd - it)) ;;
  let chPos := u16 (chPos + Z.of_nat (length chars)) in
  write_offsets it (iota16 chPos (Z.to_nat trailingSpaces)) ;; ret tt.

Definition ReplaceCharacters (columnBegin width : Z) (chars : wstring) : M ROW unit :=
  let colBeg := _clampedUint16 columnBegin in
  let colEnd := _clampedUint16 (i32 (columnBegin + width)) in
  columnCount <- get _columnCount ;;
  if (colEnd <=? colBeg) || (columnCount <? colEnd) || (length chars =? 0)%nat then ret tt
  else
    chExtBeg <- reads (_uncheckedCharOffset (Z.to_nat colBeg)) ;;
    colExtBeg <- reads (extend_down (Z.to_nat colBeg)) ;;
    colExtEnd <- reads (fun r => extend_up (offsets_fuel r) (Z.to_nat colEnd) r) ;;
    chExtEnd <- reads (_uncheckedCharOffset colExtEnd) ;;
    let leadingSpaces := u16 (colBeg - Z.of_nat colExtBeg) in
    let trailingSpaces := u16 (Z.of_nat colExtEnd - colEnd) in
    let chExtEndNew := Z.of_nat (length chars) + leadingSpaces + trailingSpaces + chExtBeg in
    (if negb (chExtEndNew =? chExtEnd)
     then _resizeChars colExtEnd chExtBeg chExtEnd chExtEndNew else ret tt) ;;
    fill_chars chExtBeg leadingSpaces chars trailingSpaces ;;
    fill_offsets colExtBeg (Z.to_nat colEnd) chExtBeg leadingSpaces chars trailingSpaces.

Definition ClearCell (column : Z) : M ROW unit := ReplaceCharacters column 1 [UNICODE_SPACE].

(** ** Attributes *)

(** An operation on the attributes. *)
Definition on_attr {A} (m : M (basic_rle TextAttribute) A) : M ROW A := fun r =>
  let '(a, x) := m (_attr r) in (set_attr a r, x).

Definition SetAttrToEnd (columnBegin : Z) (attr : TextAttribute) : M ROW bool :=
  begin <- get (_clampedColumnInclusive columnBegin) ;;
  n <- get (fun r => rle_size (_attr r)) ;;
  on_attr (rle_replace 16 begin n attr) ;; ret true.

Definition ReplaceAttributes (beginIndex endIndex : Z) (newAttr : TextAttribute) : M ROW unit :=
  begin <- get (_clampedColumnInclusive beginIndex) ;;
  end_ <- get (_clampedColumnInclusive endIndex) ;;
  on_attr (rle_replace 16 begin end_ newAttr).

Definition TransferAttributes (attr : basic_rle TextAttribute) (newWidth : Z) : M ROW unit :=
  modify (set_attr attr) ;;
  n <- narrow_u16 newWidth ;;
  on_attr (resize_trailing_extent 16 n).

Definition GetAttrByColumn (column : Z) (r : ROW) : Result TextAttribute :=
  rle_at 16 (_clampedUint16 column) (_attr r).

Definition GetHyperlinks (r : ROW) : list Z :=
  map (fun x => _hyperlinkId (value x)) (filter (fun x => IsHyperlink (value x) = true) (_runs (_attr r))).

(** ** Size *)

Definition Resize (rowWidth : Z) (fillAttribute : TextAttribute) : M ROW unit :=
  buffer <- get _charsBuffer ;;
  columnCount <- get _columnCount ;;
  p <- (if buffer : bool then
          let cols := Z.to_nat (Z.min rowWidth columnCount) in
          chars <- reads (_uncheckedCharOffset cols) ;;
          cols <- reads (extend_down cols) ;;
          ret (cols, chars)
        else ret (O, 0)) ;;
  let '(colsToCopy, charsToCopy) := p in
  let trailingWhitespace := u16 (rowWidth - Z.of_nat colsToCopy) in
  let charsCapacity := u16 (charsToCopy + trailingWhitespace) in
  let heap := rowWidth <? charsCapacity in
  let capacity := if heap then charsCapacity else rowWidth in
  chars <- get _chars ;;
  offsets <- get _charOffsets ;;
  (if (Z.of_nat (length chars) <? charsToCopy) || (capacity <? charsToCopy + trailingWhitespace)
      || (length offsets <? colsToCopy)%nat
   then undefined else ret tt) ;;
  modify (fun r =>
    mkROW true heap
      (take (Z.to_nat charsToCopy) chars ++ repeat UNICODE_SPACE (Z.to_nat trailingWhitespace) ++
       repeat garbage (Z.to_nat (capacity - charsToCopy - trailingWhitespace)))
      (take colsToCopy offsets ++ iota16 charsToCopy (S (Z.to_nat trailingWhitespace)))
      (_attr r) rowWidth (_lineRendition r) (_wrapForced r) (_doubleBytePadded r)) ;;
  empty <- get (fun r => rle_is_empty (_attr r)) ;;
  if empty : bool then modify (set_attr (rle_of_value rowWidth fillAttribute))
  else on_attr (resize_trailing_extent 16 rowWidth).

(** ** Reading *)

Definition GetText (r : ROW) : Result wstring :=
  bindR (_charSize r) (fun n =>
    if (Z.to_nat n <=? length (_chars r))%nat then Ok (take (Z.to_nat n) (_chars r)) else Undefined).

Fixpoint leading_spaces (text : wstring) : nat :=
  match text with c :: text => if c =? UNICODE_SPACE then S (leading_spaces text) else O | [] => O end.

Definition MeasureLeft (r : ROW) : Result Z :=
  mapR (fun text => Z.of_nat (leading_spaces text)) (GetText r).

(** [end - it], where [it] went from the end over spaces. *)
Definition MeasureRight (r : ROW) : Result Z :=
  mapR (fun text => _columnCount r - Z.of_nat (leading_spaces (reverse text))) (GetText r).

Definition ContainsText (r : ROW) : Result bool :=
  mapR (existsb (fun c => negb (c =? UNICODE_SPACE))) (GetText r).

Definition GlyphAt (column : Z) (r : ROW) : Result wstring :=
  let col := Z.to_nat (_clampedColumn column r) in
  bindR (_uncheckedCharOffset col r) (fun beg =>
  bindR (extend_up (offsets_fuel r) (S col) r) (fun col =>
  bindR (_uncheckedCharOffset col r) (fun end_ =>
    if (Z.to_nat end_ <=? length (_chars r))%nat
    then Ok (take (Z.to_nat (end_ - beg)) (drop (Z.to_nat beg) (_chars r))) else Undefined))).

Definition DbcsAttrAt (column : Z) (r : ROW) : Result DbcsAttribute :=
  let col := Z.to_nat (_clampedColumn column r) in
  bindR (_uncheckedIsTrailer col r) (fun trailer =>
    if trailer : bool then Ok Trailing
    else mapR (fun next => if next : bool then Leading else Single) (_uncheckedIsTrailer (S col) r)).

Definition DelimiterClassAt (column : Z) (wordDelimiters : wstring) (r : ROW) : Result DelimiterClass :=
  let col := Z.to_nat (_clampedColumn column r) in
  bindR (_uncheckedCharOffset col r) (fun off =>
  mapR (fun glyph =>
    if glyph <=? UNICODE_SPACE then ControlChar
    else if existsb (fun d => d =? glyph) wordDelimiters then DelimiterChar
    else RegularChar) (_uncheckedChar off r)).

End Operations.
