(* ===== verification/RowLayout.v ===== *)
(** * Rows of glyphs

    The abstract view of a row: a list of glyphs, each with its text and the number of
    columns it takes.  [represents] ties it to the text and the offsets of a [ROW];
    the lemmas compute what the code reads at a column: where the glyph of a column
    begins and ends, and which columns are trailing. *)

From S2P Require Import Prelude Effects TextAttribute Rle RleLaws RleSpec Row LineRendition.

Local Open Scope Z_scope.

Record glyph := Glyph {
  g_text : wstring;
  g_cols : nat
}.

Definition glyph_ok (g : glyph) : Prop := g_text g <> [] /\ (1 <= g_cols g)%nat.

Definition cols (gs : list glyph) : nat := list_sum (map g_cols gs).
Definition text (gs : list glyph) : wstring := concat (map g_text gs).
Definition space : glyph := Glyph [UNICODE_SPACE] 1.
Definition spaces (n : nat) : list glyph := repeat space n.

(** The offsets of the columns, from the one the text begins at. *)
Fixpoint body (gs : list glyph) (off : Z) : list Z :=
  match gs with
  | [] => []
  | g :: gs => off :: repeat (Z.lor off CharOffsetsTrailer) (g_cols g - 1) ++ body gs (off + len (g_text g))
  end.

Definition layout (gs : list glyph) (off : Z) : list Z := body gs off ++ [off + len (text gs)].

Record represents (r : ROW) (gs : list glyph) : Prop := {
  rp_ok : Forall glyph_ok gs;
  rp_columns : _columnCount r = Z.of_nat (cols gs);
  rp_width : Z.of_nat (cols gs) < 2 ^ 16;
  rp_offsets : _charOffsets r = layout gs 0;
  rp_text : exists rest, _chars r = text gs ++ rest;
  rp_small : len (text gs) < 2 ^ 15;
  rp_capacity : len (_chars r) < 2 ^ 16
}.

(** ** Overwriting

    The first columns of a row, and the row from a column on: a glyph that is cut
    leaves spaces. *)
Fixpoint take_cols (n : nat) (gs : list glyph) : list glyph :=
  match gs with
  | [] => []
  | g :: gs => if (g_cols g <=? n)%nat then g :: take_cols (n - g_cols g) gs else spaces n
  end.

Fixpoint drop_cols (n : nat) (gs : list glyph) : list glyph :=
  match gs with
  | [] => []
  | g :: gs' =>
      if (n =? 0)%nat then gs
      else if (g_cols g <=? n)%nat then drop_cols (n - g_cols g) gs' else spaces (g_cols g - n) ++ gs'
  end.

Definition overwrite (colBeg colEnd : nat) (chars : wstring) (gs : list glyph) : list glyph :=
  take_cols colBeg gs ++ [Glyph chars (colEnd - colBeg)] ++ drop_cols colEnd gs.

(** ** Lengths *)

Lemma cols_app g1 g2 : cols (g1 ++ g2) = (cols g1 + cols g2)%nat.
Proof. unfold cols. by rewrite map_app, list_sum_app. Qed.

Lemma cols_cons g gs : cols (g :: gs) = (g_cols g + cols gs)%nat.
Proof. done. Qed.

Lemma text_app g1 g2 : text (g1 ++ g2) = text g1 ++ text g2.
Proof. unfold text. by rewrite map_app, concat_app. Qed.

Lemma text_cons g gs : text (g :: gs) = g_text g ++ text gs.
Proof. done. Qed.

Lemma cols_spaces n : cols (spaces n) = n.
Proof. induction n as [|n IH]; [done|]. cbn [spaces repeat]. rewrite cols_cons. cbn. unfold spaces in IH. lia. Qed.

Lemma text_spaces n : text (spaces n) = repeat UNICODE_SPACE n.
Proof. induction n as [|n IH]; [done|]. cbn [spaces repeat]. rewrite text_cons. cbn. by f_equal. Qed.

Lemma spaces_ok n : Forall glyph_ok (spaces n).
Proof. apply Forall_forall. intros g Hg. apply repeat_spec in Hg as ->. by split; [|cbn; lia]. Qed.

Lemma body_app g1 g2 off : body (g1 ++ g2) off = body g1 off ++ body g2 (off + len (text g1)).
Proof.
  revert off; induction g1 as [|g g1 IH]; intros off; [cbn; by rewrite Z.add_0_r|].
  cbn [app body]. rewrite IH, text_cons, len_app, Z.add_assoc. by rewrite <- app_assoc.
Qed.

Lemma layout_app g1 g2 off : layout (g1 ++ g2) off = body g1 off ++ layout g2 (off + len (text g1)).
Proof. unfold layout. rewrite body_app, text_app, len_app, <- app_assoc. do 3 f_equal. lia. Qed.

Lemma length_body gs off : Forall glyph_ok gs -> length (body gs off) = cols gs.
Proof.
  intros Hok. revert off; induction Hok as [|g gs [_ Hg] Hgs IH]; intros off; [done|].
  cbn [body length]. rewrite length_app, repeat_length, IH, cols_cons. lia.
Qed.

Lemma length_layout gs off : Forall glyph_ok gs -> length (layout gs off) = S (cols gs).
Proof. intros Hok. unfold layout. rewrite length_app, length_body by done. cbn. lia. Qed.

Lemma body_spaces n off : body (spaces n) off = iota off n.
Proof.
  unfold iota. revert off; induction n as [|n IH]; intros off; [done|].
  cbn [spaces repeat body]. fold (spaces n). rewrite IH. cbn [seq map]. f_equal; [lia|].
  cbn [g_cols space repeat Nat.sub app]. rewrite <- seq_shift, map_map. apply map_ext. intros i. change (len (g_text space)) with 1. lia.
Qed.

Lemma text_cols_le gs : Forall glyph_ok gs -> (length gs <= cols gs)%nat.
Proof. induction 1 as [|g gs [_ Hg] _ IH]; [done|]. cbn [length]. rewrite cols_cons. lia. Qed.

(** ** Offsets with their flag *)

Lemma offset_plain x :
  0 <= x < 2 ^ 15 -> Z.land x CharOffsetsMask = x /\ Z.land x CharOffsetsTrailer = 0.
Proof.
  intros Hx. split.
  - change CharOffsetsMask with (Z.ones 15). rewrite Z.land_ones, Z.mod_small by lia. done.
  - rewrite Z.land_comm. by apply (land_low_bits 1 x 15).
Qed.

Lemma offset_trailer x :
  0 <= x < 2 ^ 15 ->
  Z.land (Z.lor x CharOffsetsTrailer) CharOffsetsMask = x /\
  Z.land (Z.lor x CharOffsetsTrailer) CharOffsetsTrailer = CharOffsetsTrailer /\
  Z.lor x CharOffsetsTrailer = x + CharOffsetsTrailer.
Proof.
  intros Hx. assert (Hlor : Z.lor x CharOffsetsTrailer = 1 * 2 ^ 15 + x)
    by (rewrite Z.lor_comm; by apply (lor_low_bits 1 x 15)).
  split; [|split].
  - change CharOffsetsMask with (Z.ones 15). rewrite Z.land_ones by lia.
    rewrite Hlor, Z.add_comm, Z.mod_add, Z.mod_small by lia. done.
  - rewrite Z.land_lor_distr_l. destruct (offset_plain x Hx) as [_ ->]. done.
  - rewrite Hlor. unfold CharOffsetsTrailer. lia.
Qed.

(** ** The glyph of a column *)

(** A column is at the beginning of the glyphs [B], or within the first of them. *)
Definition located (gs A B : list glyph) (k c : nat) : Prop :=
  gs = A ++ B /\ c = (cols A + k)%nat /\
  (k = 0%nat \/ exists g B', B = g :: B' /\ (0 < k < g_cols g)%nat).

Lemma locate gs c : Forall glyph_ok gs -> (c <= cols gs)%nat -> exists A B k, located gs A B k c.
Proof.
  intros Hok. revert c; induction Hok as [|g gs Hg Hgs IH]; intros c Hc.
  { exists [], [], 0%nat. split; [done|]. cbn in *. split; [lia|by left]. }
  destruct (Nat.le_gt_cases (g_cols g) c) as [Hle|Hgt].
  - rewrite cols_cons in Hc. destruct (IH (c - g_cols g)%nat ltac:(lia)) as (A & B & k & -> & Hk & Hcase).
    exists (g :: A), B, k. split; [done|]. rewrite cols_cons. split; [lia|done].
  - exists [], (g :: gs), c. split; [done|]. split; [done|]. destruct c; [by left|right].
    exists g, gs. split; [done|lia].
Qed.

Lemma located_take gs A B k c :
  Forall glyph_ok gs -> located gs A B k c -> take_cols c gs = A ++ spaces k.
Proof.
  intros Hok (-> & -> & Hk). apply Forall_app in Hok as [HA HB]. induction HA as [|g A [_ Hg] HA IH]; cbn [app].
  - cbn. destruct Hk as [->|(g & B' & -> & Hk)].
    + destruct HB as [|g B [_ Hg]]; [done|]. cbn. destruct (Nat.leb_spec (g_cols g) 0); [lia|done].
    + cbn. destruct (Nat.leb_spec (g_cols g) k); [lia|done].
  - rewrite cols_cons. cbn [take_cols]. destruct (Nat.leb_spec (g_cols g) (g_cols g + cols A + k)); [|lia].
    replace (g_cols g + cols A + k - g_cols g)%nat with (cols A + k)%nat by lia. by rewrite IH.
Qed.

(** The glyphs before and from the end of the glyph of a column on, and how many of
    its columns are left. *)
Definition ends (gs D C : list glyph) (t c : nat) : Prop :=
  gs = D ++ C /\ cols D = (c + t)%nat /\ drop_cols c gs = spaces t ++ C.

Lemma located_ends gs A B k c :
  Forall glyph_ok gs -> located gs A B k c ->
  exists D C t, ends gs D C t c /\
    (k = 0%nat /\ D = A /\ C = B /\ t = 0%nat \/
     exists g, B = g :: C /\ D = A ++ [g] /\ (0 < k < g_cols g)%nat /\ t = (g_cols g - k)%nat).
Proof.
  intros Hok (-> & -> & Hk). apply Forall_app in Hok as [HA HB].
  assert (Hdrop : forall n, (0 < n)%nat \/ A = [] -> drop_cols (cols A + n) (A ++ B) = drop_cols n B).
  { clear Hk HB. induction HA as [|g A [_ Hg] HA IH]; intros n Hn; [done|]. cbn [app drop_cols].
    rewrite cols_cons. destruct (Nat.eqb_spec (g_cols g + cols A + n) 0); [lia|].
    destruct (Nat.leb_spec (g_cols g) (g_cols g + cols A + n)); [|lia].
    replace (g_cols g + cols A + n - g_cols g)%nat with (cols A + n)%nat by lia.
    destruct Hn as [Hn| ?]; [|done]. apply IH. by left. }
  destruct Hk as [->|(g & B' & -> & Hk)].
  - exists A, B, 0%nat. split; [|by left]. split; [done|]. split; [lia|].
    rewrite Nat.add_0_r. cbn [spaces repeat app]. clear Hdrop.
    induction HA as [|g A [_ Hg] HA IH]; [by destruct B|]. cbn [app drop_cols]. rewrite cols_cons.
    destruct (Nat.eqb_spec (g_cols g + cols A) 0); [lia|].
    destruct (Nat.leb_spec (g_cols g) (g_cols g + cols A)); [|lia].
    replace (g_cols g + cols A - g_cols g)%nat with (cols A) by lia. done.
  - exists (A ++ [g]), B', (g_cols g - k)%nat. split; [|right; exists g; done].
    split; [by rewrite <- app_assoc|]. split; [rewrite cols_app, cols_cons; cbn; lia|].
    rewrite Hdrop by lia. cbn [drop_cols]. destruct (Nat.eqb_spec k 0); [lia|].
    destruct (Nat.leb_spec (g_cols g) k); [lia|done].
Qed.

Section Reading.
Context (r : ROW) (gs : list glyph) (Hr : represents r gs).

Lemma part_small A B : gs = A ++ B -> 0 <= len (text A) < 2 ^ 15.
Proof.
  intros E. pose proof (rp_small _ _ Hr) as Hs. rewrite E, text_app, len_app in Hs.
  pose proof (len_nonneg (text A)). pose proof (len_nonneg (text B)). lia.
Qed.

Lemma part_ok A B : gs = A ++ B -> Forall glyph_ok A /\ Forall glyph_ok B.
Proof. intros E. pose proof (rp_ok _ _ Hr) as Ho. rewrite E in Ho. by apply Forall_app. Qed.

(** The offset of a column. *)
Lemma offset_at_located A B k c :
  located gs A B k c ->
  offset_at c r = Ok (if (k =? 0)%nat then len (text A) else Z.lor (len (text A)) CharOffsetsTrailer).
Proof.
  intros (E & -> & Hk). unfold offset_at. rewrite (rp_offsets _ _ Hr), E, layout_app.
  destruct (part_ok A B E) as [HA HB].
  rewrite lookup_app_r by (rewrite length_body by done; lia). rewrite length_body by done.
  replace (cols A + k - cols A)%nat with k by lia. rewrite Z.add_0_l.
  destruct Hk as [->|(g & B' & -> & Hk)].
  - unfold layout. destruct B as [|g B']; cbn; [by rewrite Z.add_0_r|done].
  - destruct (Nat.eqb_spec k 0); [lia|]. unfold layout. cbn [body].
    cbn [app]. rewrite lookup_cons_ne_0, <- app_assoc by lia.
    rewrite lookup_app_l by (rewrite repeat_length; lia). by rewrite lookup_repeat by lia.
Qed.

Lemma charOffset_located A B k c : located gs A B k c -> _uncheckedCharOffset c r = Ok (len (text A)).
Proof.
  intros HL. unfold _uncheckedCharOffset. rewrite (offset_at_located A B k c HL). cbn.
  destruct HL as (E & _). pose proof (part_small A B E) as Hs.
  destruct (offset_plain _ Hs) as [H1 _]. destruct (offset_trailer _ Hs) as [H2 _].
  case_if; by rewrite ?H1, ?H2.
Qed.

Lemma isTrailer_located A B k c :
  located gs A B k c -> _uncheckedIsTrailer c r = Ok (negb (k =? 0)%nat).
Proof.
  intros HL. unfold _uncheckedIsTrailer. rewrite (offset_at_located A B k c HL). cbn.
  destruct HL as (E & _). pose proof (part_small A B E) as Hs.
  destruct (offset_plain _ Hs) as [_ H1]. destruct (offset_trailer _ Hs) as (_ & H2 & _).
  case_if; by rewrite ?H1, ?H2.
Qed.

Lemma located_pred A B k c : located gs A B (S k) (S c) -> located gs A B k c.
Proof.
  intros (E & Hc & Hk). split; [done|]. split; [lia|]. destruct Hk as [|(g & B' & -> & Hk)]; [done|].
  destruct k; [by left|right]. exists g, B'. split; [done|lia].
Qed.

(** The loop that goes down ends at the beginning of the glyph. *)
Lemma extend_down_located A B k c : located gs A B k c -> extend_down c r = Ok (cols A).
Proof.
  revert k; induction c as [|c IH]; intros k HL.
  - destruct HL as (_ & Hc & _). cbn. f_equal. lia.
  - cbn [extend_down]. rewrite (isTrailer_located _ _ _ _ HL). cbn [bindR].
    destruct k as [|k]; cbn [Nat.eqb negb].
    + destruct HL as (_ & -> & _). by rewrite Nat.add_0_r.
    + by apply IH with k, located_pred.
Qed.

(** The loop that goes up ends at the end of the glyph, or stays at its beginning. *)
Lemma extend_up_boundary D C fuel c :
  gs = D ++ C -> cols D = c -> (0 < fuel)%nat -> extend_up fuel c r = Ok c.
Proof.
  intros E Hc Hf. destruct fuel; [lia|]. cbn [extend_up].
  rewrite (isTrailer_located D C 0 c); [done|]. split; [done|]. split; [lia|by left].
Qed.

Lemma extend_up_inside A g C k fuel :
  gs = A ++ g :: C -> (0 < k <= g_cols g)%nat -> (g_cols g - k < fuel)%nat ->
  extend_up fuel (cols A + k) r = Ok (cols (A ++ [g])).
Proof.
  intros E. remember (g_cols g - k)%nat as n eqn:En. revert k fuel En.
  induction n as [|n IH]; intros k fuel En Hk Hf.
  - rewrite (extend_up_boundary (A ++ [g]) C); [f_equal| | |lia]; rewrite ?cols_app, ?cols_cons, <- ?app_assoc;
      cbn; try done; lia.
  - destruct fuel; [lia|]. cbn [extend_up].
    rewrite (isTrailer_located A (g :: C) k) by (split; [done|split; [done|right; exists g, C; split; [done|lia]]]).
    destruct (Nat.eqb_spec k 0); [lia|]. cbn [negb bindR].
    replace (S (cols A + k)) with (cols A + S k)%nat by lia. apply IH; lia.
Qed.

Lemma glyph_fits A g C : gs = A ++ g :: C -> (g_cols g < offsets_fuel r)%nat.
Proof.
  intros E. unfold offsets_fuel. rewrite (rp_offsets _ _ Hr), length_layout by (apply Hr).
  rewrite E, cols_app, cols_cons. lia.
Qed.

Lemma extend_up_ends A B k c D C t :
  located gs A B k c ->
  (k = 0%nat /\ D = A /\ C = B /\ t = 0%nat \/
   exists g, B = g :: C /\ D = A ++ [g] /\ (0 < k < g_cols g)%nat /\ t = (g_cols g - k)%nat) ->
  extend_up (offsets_fuel r) c r = Ok (cols D).
Proof.
  intros HL [(-> & -> & -> & ->)|(g & -> & -> & Hk & ->)]; destruct HL as (E & -> & _).
  - rewrite (extend_up_boundary A B); [by rewrite Nat.add_0_r|done|lia|unfold offsets_fuel; lia].
  - apply (extend_up_inside A g C); [done|lia|]. pose proof (glyph_fits _ _ _ E). lia.
Qed.

Lemma charSize_represents : _charSize r = Ok (len (text gs)).
Proof.
  unfold _charSize. rewrite (rp_columns _ _ Hr), Nat2Z.id.
  rewrite (offset_at_located gs [] 0); [done|]. split; [by rewrite app_nil_r|]. split; [lia|by left].
Qed.

End Reading.
