(* ===== verification/RowSpec.v ===== *)
(** * The contract of rows

    [ROW]'s operations against rows of glyphs: [ReplaceCharacters] overwrites columns,
    a glyph it cuts leaves spaces, and the text, the offsets and the flags stay in
    step; readers return the glyph of a column; [Resize] cuts or pads; attributes are
    a vector with one entry per column. *)

From S2P Require Import Prelude Effects TextAttribute Rle RleLaws RleSpec Row RowLayout LineRendition.

Local Open Scope Z_scope.

(** ** Edits in place *)

Lemma write_chars_eq r a m b dest xs :
  _chars r = a ++ m ++ b -> dest = length a -> length xs = length m ->
  write_chars dest xs r = (set_chars (_charsHeap r) (a ++ xs ++ b) r, Ok (length a + length xs)%nat).
Proof.
  intros Hr -> Hm. unfold write_chars. rewrite Hr, Hm, !length_app.
  destruct (Nat.leb_spec (length a + length m) (length a + (length m + length b))); [|lia].
  rewrite take_app_length, (app_assoc a m b), <- length_app, drop_app_length. by rewrite length_app.
Qed.

Lemma write_offsets_eq r a m b dest xs :
  _charOffsets r = a ++ m ++ b -> dest = length a -> length xs = length m ->
  write_offsets dest xs r = (set_charOffsets (a ++ xs ++ b) r, Ok (length a + length xs)%nat).
Proof.
  intros Hr -> Hm. unfold write_offsets. rewrite Hr, Hm, !length_app.
  destruct (Nat.leb_spec (length a + length m) (length a + (length m + length b))); [|lia].
  rewrite take_app_length, (app_assoc a m b), <- length_app, drop_app_length. by rewrite length_app.
Qed.

(** A list cut in pieces of given lengths. *)
Lemma cut_list {A} (l : list A) n :
  (n <= length l)%nat -> exists l1 l2, l = l1 ++ l2 /\ length l1 = n.
Proof. intros Hn. exists (take n l), (drop n l). rewrite take_drop, length_take. split; [done|lia]. Qed.

Lemma length_iota off n : length (iota off n) = n.
Proof. unfold iota. by rewrite length_map, length_seq. Qed.

Lemma iota16_small off n : 0 <= off -> off + Z.of_nat n <= 2 ^ 16 -> iota16 off n = iota off n.
Proof.
  intros H0 H1. unfold iota16, iota. rewrite map_map. apply map_ext_in. intros i Hi%in_seq.
  apply wrapu_small. lia.
Qed.

(** Shifting offsets. *)
Lemma u16_add_u64 x d : u16 (x + u64 d) = u16 (x + d).
Proof.
  unfold wrapu. rewrite Zplus_mod, (Zplus_mod x d). f_equal. f_equal.
  change (2 ^ 64) with (2 ^ 16 * 2 ^ 48). rewrite Z.rem_mul_r by lia.
  rewrite Z.mul_comm, Z.mod_add by lia. by rewrite Z.mod_mod by lia.
Qed.

Lemma layout_shift C off d :
  0 <= off -> 0 <= off + d -> off + len (text C) < 2 ^ 15 -> off + d + len (text C) < 2 ^ 15 ->
  map (fun x => u16 (x + u64 d)) (layout C off) = layout C (off + d).
Proof.
  intros H0 H1 H2 H3. unfold layout. rewrite map_app. f_equal; cycle 1.
  { cbn. rewrite u16_add_u64. pose proof (len_nonneg (text C)). rewrite wrapu_small by lia. f_equal. lia. }
  revert off H0 H1 H2 H3; induction C as [|g C IH]; intros off H0 H1 H2 H3; [done|].
  rewrite text_cons, len_app in H2, H3. pose proof (len_nonneg (g_text g)). pose proof (len_nonneg (text C)).
  cbn [body map]. rewrite u16_add_u64, (wrapu_small 16 (off + d)) by lia. f_equal.
  rewrite map_app, map_repeat, u16_add_u64, IH by lia. f_equal; [|f_equal; lia].
  destruct (offset_trailer off ltac:(lia)) as (_ & _ & ->).
  destruct (offset_trailer (off + d) ltac:(lia)) as (_ & _ & ->).
  unfold CharOffsetsTrailer. rewrite wrapu_small by lia. f_equal. lia.
Qed.

Section Replace.
Context (garbage : wchar).

(** What does not change. *)
Definition same_rest (r r' : ROW) : Prop :=
  _charsBuffer r' = _charsBuffer r /\ _attr r' = _attr r /\ _columnCount r' = _columnCount r /\
  _lineRendition r' = _lineRendition r /\ _wrapForced r' = _wrapForced r /\
  _doubleBytePadded r' = _doubleBytePadded r.

(** The text has a gap between [A] and [C], which ends at [n]. *)
Record opened (r : ROW) (A D C : list glyph) (n : Z) (r' : ROW) : Prop := {
  op_chars : exists gap rest, _chars r' = text A ++ gap ++ text C ++ rest /\ len (text A) + len gap = n;
  op_offsets : _charOffsets r' = body D 0 ++ layout C n;
  op_capacity : len (_chars r') < 2 ^ 16;
  op_rest : same_rest r r'
}.

Lemma resizeChars_spec r A E C n :
  represents r ((A ++ E) ++ C) -> len (text A) <= n -> n + len (text C) < 2 ^ 15 ->
  exists r', _resizeChars garbage (cols (A ++ E)) (len (text A)) (len (text (A ++ E))) n r = (r', Ok tt) /\
    opened r A (A ++ E) C n r'.
Proof.
  intros Hr Hn HC. pose proof Hr as [Hok Hcols Hwidth Hoff [rest Hrest] Hsmall Hcap].
  set (D := A ++ E) in *. apply Forall_app in Hok as [HokD HokC].
  rewrite text_app, len_app in Hsmall.
  assert (HD : len (text D) = len (text A) + len (text E)) by (unfold D; by rewrite text_app, len_app).
  pose proof (len_nonneg (text A)). pose proof (len_nonneg (text E)). pose proof (len_nonneg (text C)).
  unfold _resizeChars, bind at 1, reads. rewrite (charSize_represents r _ Hr), text_app, len_app.
  unfold bind at 1, get. cbv zeta.
  assert (Hnew : u64 (len (text D) + len (text C) + u64 (n - len (text D))) = n + len (text C)).
  { unfold wrapu. rewrite Zplus_mod_idemp_r, Z.mod_small by (eval_ground; lia). lia. }
  rewrite Hnew.
  assert (Hoffs : forall r1, _charOffsets r1 = _charOffsets r ->
    take (cols D) (_charOffsets r1) ++ map (fun x => u16 (x + u64 (n - len (text D)))) (drop (cols D) (_charOffsets r1)) =
    body D 0 ++ layout C n).
  { intros r1 ->. rewrite Hoff, layout_app.
    rewrite take_app_length', drop_app_length' by (by rewrite length_body). f_equal.
    rewrite Z.add_0_l, layout_shift by lia. f_equal. lia. }
  assert (Hopen : forall r1 heap chars, r1 = set_chars heap chars r ->
    (exists gap rest', chars = text A ++ gap ++ text C ++ rest' /\ len (text A) + len gap = n) ->
    len chars < 2 ^ 16 ->
    opened r A D C n (set_charOffsets (take (cols D) (_charOffsets r1) ++
      map (fun x => u16 (x + u64 (n - len (text D)))) (drop (cols D) (_charOffsets r1))) r1)).
  { intros r1 heap chars -> Hc Hl. split; cbn; [done|by apply (Hoffs r)|done|by repeat split]. }
  assert (Hn2 : (length (text A) <= Z.to_nat n)%nat) by (unfold len in Hn; lia).
  destruct (Z.leb_spec (n + len (text C)) (Z.of_nat (length (_chars r)))) as [Hfit|Hbig].
  - unfold move_chars. unfold bind at 1.
    assert (Hb : ((Z.to_nat (len (text D)) + Z.to_nat (len (text D) + len (text C) - len (text D)) <=? length (_chars r)) &&
      (Z.to_nat n + Z.to_nat (len (text D) + len (text C) - len (text D)) <=? length (_chars r)))%nat = true).
    { apply andb_true_iff; split; apply Nat.leb_le; [|lia]. rewrite Hrest, text_app, !length_app. unfold len. lia. }
    rewrite Hb. eexists. split; [done|]. eapply Hopen; [done| |].
    + assert (Exs : take (Z.to_nat (len (text D) + len (text C) - len (text D))) (drop (Z.to_nat (len (text D))) (_chars r)) = text C).
      { rewrite Hrest, text_app, <- app_assoc. apply take_drop_middle_app; unfold len; lia. }
      rewrite Exs. exists (take (Z.to_nat n - length (text A)) (text E ++ text C ++ rest)). eexists. split.
      * rewrite Hrest. unfold D. rewrite !text_app, <- !app_assoc, take_app_ge by lia. by rewrite <- app_assoc.
      * unfold len. rewrite length_take, !length_app. rewrite Hrest in Hfit. unfold D in Hfit.
        rewrite !text_app, !length_app in Hfit. unfold len in *. lia.
    + unfold len. rewrite !length_app, !length_take, !length_drop. unfold len in *. lia.
  - assert (Hnarrow : exists cap, narrow_u16 (Z.max (n + len (text C))
      (Z.min 65535 (Z.of_nat (length (_chars r)) + Z.shiftr (Z.of_nat (length (_chars r))) 1))) r = (r, Ok cap) /\
      n + len (text C) <= cap < 2 ^ 16).
    { eexists. unfold narrow_u16.
      set (m := Z.max _ _). assert (Hm : n + len (text C) <= m < 2 ^ 16) by (unfold m; eval_ground; lia).
      destruct (Z.leb_spec 0 m); [|lia]. destruct (Z.ltb_spec m (2 ^ 16)); [|lia]. by split. }
    destruct Hnarrow as (cap & Ecap & Hcapn). rewrite bind_assoc, (bind_Ok _ _ _ _ _ Ecap).
    unfold grow_chars, bind at 1.
    assert (Hb : ((Z.to_nat (len (text A)) <=? length (_chars r)) && (Z.to_nat (len (text D)) <=? Z.to_nat (len (text D) + len (text C))) &&
      (Z.to_nat (len (text D) + len (text C)) <=? length (_chars r)) && (Z.to_nat (len (text A)) <=? Z.to_nat cap) &&
      (Z.to_nat n + (Z.to_nat (len (text D) + len (text C)) - Z.to_nat (len (text D))) <=? Z.to_nat cap))%nat = true).
    { assert (Hl : (length (_chars r) = length (text D) + length (text C) + length rest)%nat)
        by (rewrite Hrest, text_app, !length_app; lia).
      unfold len in *. repeat (apply andb_true_iff; split); apply Nat.leb_le; lia. }
    rewrite Hb. eexists. split; [done|]. eapply Hopen; [done| |].
    + assert (Exs : take (Z.to_nat (len (text D) + len (text C)) - Z.to_nat (len (text D))) (drop (Z.to_nat (len (text D))) (_chars r)) = text C).
      { rewrite Hrest, text_app, <- app_assoc. apply take_drop_middle_app; unfold len; lia. }
      rewrite Exs.
      assert (EA : take (Z.to_nat (len (text A))) (_chars r) = text A).
      { rewrite Hrest. unfold D. rewrite !text_app, <- !app_assoc. apply take_app_length'. unfold len. lia. }
      rewrite EA. exists (take (Z.to_nat n - length (text A)) (drop (Z.to_nat (len (text A))) (repeat garbage (Z.to_nat cap)))).
      eexists. split.
      * rewrite take_app_ge by lia. by rewrite <- app_assoc.
      * unfold len in *. rewrite length_take, length_drop, repeat_length. lia.
    + unfold len in *. rewrite !length_app, !length_take, !length_drop, !length_app, !length_take, length_drop, repeat_length. lia.
Qed.

(** The gap is filled, in the text and in the offsets. *)
Lemma fill_chars_eq r a gap tail off k chars t :
  _chars r = a ++ gap ++ tail -> off = len a -> length gap = (k + (length chars + t))%nat ->
  fill_chars off (Z.of_nat k) chars (Z.of_nat t) r =
  (set_chars (_charsHeap r)
     (a ++ repeat UNICODE_SPACE k ++ chars ++ repeat UNICODE_SPACE t ++ tail) r, Ok tt).
Proof.
  intros Hr -> Hgl.
  destruct (cut_list gap k) as (g1 & g2 & -> & Hg1); [lia|]. rewrite length_app in Hgl.
  destruct (cut_list g2 (length chars)) as (g3 & g4 & -> & Hg3); [lia|]. rewrite length_app in Hgl.
  unfold fill_chars, len. rewrite !Nat2Z.id.
  rewrite (bind_Ok _ _ _ _ _ (write_chars_eq r a g1 ((g3 ++ g4) ++ tail) _ (repeat UNICODE_SPACE k)
    ltac:(by rewrite Hr, <- !app_assoc) eq_refl ltac:(by rewrite repeat_length))).
  rewrite repeat_length.
  erewrite bind_Ok; [|apply (write_chars_eq _ (a ++ repeat UNICODE_SPACE k) g3 (g4 ++ tail));
    [by cbn; rewrite <- !app_assoc|by rewrite length_app, repeat_length|done]].
  erewrite bind_Ok; [|apply (write_chars_eq _ ((a ++ repeat UNICODE_SPACE k) ++ chars) g4 tail);
    [by cbn; rewrite <- !app_assoc|by rewrite (length_app (_ ++ _))|rewrite repeat_length; lia]].
  cbn. unfold ret, set_chars; cbn. by rewrite <- !app_assoc.
Qed.

Lemma fill_offsets_eq r a mid tail p k chars t w0 :
  _charOffsets r = a ++ mid ++ tail -> length mid = (k + (w0 + t))%nat -> (1 <= w0)%nat ->
  0 <= p -> p + Z.of_nat k + len chars + Z.of_nat t < 2 ^ 15 ->
  fill_offsets (length a) (length a + k + w0) p (Z.of_nat k) chars (Z.of_nat t) r =
  (set_charOffsets
     (a ++ iota p k ++ [p + Z.of_nat k] ++ repeat (Z.lor (p + Z.of_nat k) CharOffsetsTrailer) (w0 - 1) ++
      iota (p + Z.of_nat k + len chars) t ++ tail) r, Ok tt).
Proof.
  intros Hr Hml Hw Hp Hb. pose proof (len_nonneg chars).
  destruct (cut_list mid k) as (e1 & e2 & -> & He1); [lia|]. rewrite length_app in Hml.
  destruct (cut_list e2 1) as (e3 & e4 & -> & He3); [lia|]. rewrite length_app in Hml.
  destruct (cut_list e4 (w0 - 1)) as (e5 & e6 & -> & He5); [lia|]. rewrite length_app in Hml.
  unfold fill_offsets. fold (len chars). rewrite !Nat2Z.id.
  rewrite (wrapu_small 16 (p + Z.of_nat k)) by lia.
  rewrite (wrapu_small 16 (p + Z.of_nat k + len chars)) by lia. rewrite !iota16_small by lia.
  rewrite (bind_Ok _ _ _ _ _ (write_offsets_eq r a e1 ((e3 ++ e5 ++ e6) ++ tail) _ (iota p k)
    ltac:(by rewrite Hr, <- !app_assoc) eq_refl ltac:(by rewrite length_iota))).
  rewrite length_iota. cbv zeta.
  erewrite bind_Ok; [|apply (write_offsets_eq _ (a ++ iota p k) e3 ((e5 ++ e6) ++ tail));
    [by cbn; rewrite <- !app_assoc|by rewrite length_app, length_iota|done]].
  rewrite length_app, length_iota. cbn [length].
  replace (length a + k + w0 - (length a + k + 1))%nat with (w0 - 1)%nat by lia.
  erewrite bind_Ok; [|apply (write_offsets_eq _ ((a ++ iota p k) ++ [p + Z.of_nat k]) e5 (e6 ++ tail));
    [by cbn; rewrite <- !app_assoc|rewrite !length_app, length_iota; cbn; lia|by rewrite repeat_length]].
  erewrite bind_Ok; [|apply (write_offsets_eq _ (((a ++ iota p k) ++ [p + Z.of_nat k]) ++
      repeat (Z.lor (p + Z.of_nat k) CharOffsetsTrailer) (w0 - 1)) e6 tail);
    [by cbn; rewrite <- !app_assoc
    |rewrite !length_app, length_iota, !repeat_length; cbn; lia|rewrite length_iota; lia]].
  unfold ret, set_charOffsets; cbn. by rewrite <- !app_assoc.
Qed.

(** The offsets written are those of the new glyphs. *)
Lemma layout_replaced A k chars w0 t C :
  layout (A ++ spaces k ++ [Glyph chars w0] ++ spaces t ++ C) 0 =
  body A 0 ++ iota (len (text A)) k ++ [len (text A) + Z.of_nat k] ++
  repeat (Z.lor (len (text A) + Z.of_nat k) CharOffsetsTrailer) (w0 - 1) ++
  iota (len (text A) + Z.of_nat k + len chars) t ++
  layout C (len (text A) + Z.of_nat k + len chars + Z.of_nat t).
Proof.
  assert (Hsp : forall n, len (text (spaces n)) = Z.of_nat n)
    by (intros; unfold len; by rewrite text_spaces, repeat_length).
  rewrite layout_app, Z.add_0_l, layout_app, body_spaces, Hsp. do 2 f_equal.
  rewrite layout_app. cbn [body g_text g_cols]. rewrite app_nil_r.
  rewrite layout_app, body_spaces, Hsp, text_cons. cbn [app]. f_equal.
  assert (E : len (g_text {| g_text := chars; g_cols := w0 |} ++ text []) = len chars)
    by (cbn; by rewrite app_nil_r).
  by rewrite E.
Qed.

Lemma fill_spec r r1 A E C k chars t w0 :
  Forall glyph_ok (A ++ E) -> Forall glyph_ok C -> chars <> [] -> (1 <= w0)%nat -> cols E = (k + (w0 + t))%nat ->
  opened r A (A ++ E) C (len (text A) + Z.of_nat k + len chars + Z.of_nat t) r1 ->
  len (text A) + Z.of_nat k + len chars + Z.of_nat t + len (text C) < 2 ^ 15 ->
  Z.of_nat (cols ((A ++ E) ++ C)) < 2 ^ 16 -> _columnCount r = Z.of_nat (cols ((A ++ E) ++ C)) ->
  exists r2,
    (fill_chars (len (text A)) (Z.of_nat k) chars (Z.of_nat t) ;;
     fill_offsets (cols A) (cols A + k + w0) (len (text A)) (Z.of_nat k) chars (Z.of_nat t)) r1 = (r2, Ok tt) /\
    represents r2 (A ++ spaces k ++ [Glyph chars w0] ++ spaces t ++ C) /\ same_rest r r2.
Proof.
  intros HokD HokC Hch Hw HE [(gap & rest & Hchars & Hgap) Hoffs Hcap Hrest] Hsmall Hwidth Hcc.
  pose proof (len_nonneg (text A)). pose proof (len_nonneg chars). pose proof (len_nonneg (text C)).
  apply Forall_app in HokD as [HokA HokE].
  set (n := len (text A) + Z.of_nat k + len chars + Z.of_nat t) in *.
  erewrite bind_Ok; [|apply (fill_chars_eq r1 (text A) gap (text C ++ rest)); [done|done|unfold len in *; lia]].
  rewrite <- (length_body A 0) by done.
  rewrite (fill_offsets_eq _ (body A 0) (body E (len (text A))) (layout C n));
    [|cbn; rewrite Hoffs, body_app, Z.add_0_l; by rewrite <- app_assoc|by rewrite length_body|done|lia|lia].
  eexists. split; [done|]. split; [|exact Hrest].
  assert (Htext : text (A ++ spaces k ++ [Glyph chars w0] ++ spaces t ++ C) =
    text A ++ repeat UNICODE_SPACE k ++ chars ++ repeat UNICODE_SPACE t ++ text C)
    by (rewrite !text_app, !text_spaces, text_cons; cbn; by rewrite app_nil_r).
  assert (Hcols : cols (A ++ spaces k ++ [Glyph chars w0] ++ spaces t ++ C) = cols ((A ++ E) ++ C))
    by (rewrite !cols_app, !cols_spaces, cols_cons; cbn; lia).
  split; cbn [set_charOffsets set_chars _charOffsets _chars _columnCount].
  - repeat apply Forall_app_2; try done; try apply spaces_ok. by repeat constructor.
  - rewrite Hcols, <- Hcc. apply Hrest.
  - by rewrite Hcols.
  - by rewrite layout_replaced.
  - exists rest. rewrite Htext. by rewrite <- !app_assoc.
  - rewrite Htext. unfold len in *. rewrite !length_app, !repeat_length. lia.
  - revert Hcap. rewrite Hchars. unfold len in *. rewrite !length_app, !repeat_length. lia.
Qed.

Lemma cols_zero gs : Forall glyph_ok gs -> cols gs = 0%nat -> gs = [].
Proof. destruct 1 as [|g gs [_ Hg]]; [done|]. rewrite cols_cons. lia. Qed.

Lemma prefix_of_longer A B D C :
  A ++ B = D ++ C -> Forall glyph_ok A -> (cols A <= cols D)%nat -> exists E, D = A ++ E.
Proof.
  intros E HA Hc. apply app_eq_app in E as (l & [[-> _]|[-> _]]); [|by eauto].
  apply Forall_app in HA as [_ Hl]. rewrite cols_app in Hc.
  rewrite (cols_zero l Hl) by lia. exists []. by rewrite !app_nil_r.
Qed.

(** The columns of a replacement, with the glyphs they are cut from. *)
Lemma overwrite_parts gs c0 c1 chars :
  Forall glyph_ok gs -> (c0 < c1)%nat -> (c1 <= cols gs)%nat ->
  exists A E C k t B A2 B2 k2,
    gs = (A ++ E) ++ C /\ located gs A B k c0 /\ located gs A2 B2 k2 c1 /\
    (k2 = 0%nat /\ A ++ E = A2 /\ C = B2 /\ t = 0%nat \/
     exists g, B2 = g :: C /\ A ++ E = A2 ++ [g] /\ (0 < k2 < g_cols g)%nat /\ t = (g_cols g - k2)%nat) /\
    c0 = (cols A + k)%nat /\ cols (A ++ E) = (c1 + t)%nat /\
    overwrite c0 c1 chars gs = A ++ spaces k ++ [Glyph chars (c1 - c0)] ++ spaces t ++ C.
Proof.
  intros Hok Hlt Hle. destruct (locate gs c0 Hok ltac:(lia)) as (A & B & k & HL).
  destruct (locate gs c1 Hok Hle) as (A2 & B2 & k2 & HL2).
  destruct (located_ends gs A2 B2 k2 c1 Hok HL2) as (D & C & t & (HD & HcD & Hdrop) & Hcase).
  pose proof HL as (HA & Hc0 & _).
  assert (HokA : Forall glyph_ok A) by (rewrite HA in Hok; by apply Forall_app in Hok as [? _]).
  destruct (prefix_of_longer A B D C) as [E ->]; [congruence|done|lia|].
  exists A, E, C, k, t, B, A2, B2, k2. split; [done|]. split; [done|]. split; [done|]. split; [done|].
  split; [done|]. split; [done|]. unfold overwrite. rewrite (located_take gs A B k c0 Hok HL), Hdrop.
  by rewrite <- app_assoc.
Qed.

Lemma ReplaceCharacters_ok r gs columnBegin width chars :
  represents r gs -> 0 <= columnBegin -> 0 < width -> columnBegin + width <= Z.of_nat (cols gs) -> chars <> [] ->
  let gs' := overwrite (Z.to_nat columnBegin) (Z.to_nat (columnBegin + width)) chars gs in
  len (text gs') < 2 ^ 15 ->
  exists r', ReplaceCharacters garbage columnBegin width chars r = (r', Ok tt) /\
    represents r' gs' /\ same_rest r r'.
Proof.
  intros Hr H0 Hw Hle Hch gs' Hsmall. pose proof (rp_width _ _ Hr) as Hwidth. eval_ground.
  set (c0 := Z.to_nat columnBegin) in *. set (c1 := Z.to_nat (columnBegin + width)) in *.
  destruct (overwrite_parts gs c0 c1 chars (rp_ok _ _ Hr) ltac:(lia) ltac:(lia))
    as (A & E & C & k & t & B & A2 & B2 & k2 & Hgs & HL & HL2 & Hcase & Hc0 & HcD & Hover).
  unfold gs' in *. rewrite Hover in *. clear gs' Hover.
  unfold ReplaceCharacters, bind at 1, get.
  assert (Hbeg : _clampedUint16 columnBegin = Z.of_nat c0) by (unfold _clampedUint16; lia).
  assert (Hend : _clampedUint16 (i32 (columnBegin + width)) = Z.of_nat c1).
  { rewrite wraps_small by (eval_ground; lia). unfold _clampedUint16. lia. }
  rewrite Hbeg, Hend, (rp_columns _ _ Hr). cbv zeta.
  assert (Hguard : (Z.of_nat c1 <=? Z.of_nat c0) || (Z.of_nat (cols gs) <? Z.of_nat c1) || (length chars =? 0)%nat = false).
  { destruct (Z.leb_spec (Z.of_nat c1) (Z.of_nat c0)); [lia|].
    destruct (Z.ltb_spec (Z.of_nat (cols gs)) (Z.of_nat c1)); [lia|]. by destruct chars. }
  rewrite Hguard, !Nat2Z.id. unfold bind at 1, reads at 1. rewrite (charOffset_located r gs Hr A B k c0 HL).
  unfold bind at 1, reads at 1. rewrite (extend_down_located r gs Hr A B k c0 HL).
  unfold bind at 1, reads at 1. rewrite (extend_up_ends r gs Hr A2 B2 k2 c1 (A ++ E) C t HL2 Hcase).
  unfold bind at 1, reads at 1.
  rewrite (charOffset_located r gs Hr (A ++ E) C 0 (cols (A ++ E))) by (split; [done|split; [lia|by left]]).
  rewrite !text_app, !len_app, text_spaces, !text_spaces, text_cons in Hsmall. cbn [g_text] in Hsmall.
  rewrite app_nil_r in Hsmall. unfold len in Hsmall at 2 4. rewrite !repeat_length in Hsmall.
  pose proof (len_nonneg (text A)). pose proof (len_nonneg chars). pose proof (len_nonneg (text C)).
  rewrite (wrapu_small 16 (Z.of_nat c0 - Z.of_nat (cols A))) by (eval_ground; lia).
  rewrite (wrapu_small 16 (Z.of_nat (cols (A ++ E)) - Z.of_nat c1)) by (eval_ground; lia).
  replace (Z.of_nat c0 - Z.of_nat (cols A)) with (Z.of_nat k) by lia.
  replace (Z.of_nat (cols (A ++ E)) - Z.of_nat c1) with (Z.of_nat t) by lia. fold (len chars).
  replace (len chars + Z.of_nat k + Z.of_nat t + len (text A))
    with (len (text A) + Z.of_nat k + len chars + Z.of_nat t) by lia.
  set (n := len (text A) + Z.of_nat k + len chars + Z.of_nat t).
  rewrite Hgs in Hr.
  assert (Hopen : exists r1, (if negb (n =? len (text (A ++ E)))
     then _resizeChars garbage (cols (A ++ E)) (len (text A)) (len (text (A ++ E))) n else ret tt) r = (r1, Ok tt) /\
     opened r A (A ++ E) C n r1).
  { destruct (Z.eqb_spec n (len (text (A ++ E)))) as [En|En]; cbn [negb].
    - exists r. split; [done|]. pose proof Hr as [_ _ _ Hoff [rest Hrest] _ Hcap].
      split; [|by rewrite Hoff, layout_app, Z.add_0_l, En|done|by repeat split].
      exists (text E), rest. rewrite Hrest, !text_app, <- !app_assoc. split; [done|].
      by rewrite En, text_app, len_app.
    - apply resizeChars_spec; [done|unfold n; lia|unfold n; lia]. }
  destruct Hopen as (r1 & E1 & Hopen). rewrite (bind_Ok _ _ _ _ _ E1).
  pose proof (rp_ok _ _ Hr) as Hok'. apply Forall_app in Hok' as [HokD HokC].
  destruct (fill_spec r r1 A E C k chars t (c1 - c0)) as (r2 & E2 & Hr2 & Hs2); try done; try lia.
  - rewrite cols_app in HcD. lia.
  - by apply (rp_width _ _ Hr).
  - by apply (rp_columns _ _ Hr).
  - replace (cols A + k + (c1 - c0))%nat with c1 in E2 by lia. eauto.
Qed.

Lemma ReplaceCharacters_ignored r columnBegin width chars :
  _clampedUint16 (i32 (columnBegin + width)) <= _clampedUint16 columnBegin \/
  _columnCount r < _clampedUint16 (i32 (columnBegin + width)) \/ chars = [] ->
  ReplaceCharacters garbage columnBegin width chars r = (r, Ok tt).
Proof.
  intros H. unfold ReplaceCharacters, bind at 1, get. case_if; [done|]. exfalso. bool_prop.
  destruct H as [?|[?| ->]]; [lia|lia|done].
Qed.

End Replace.
