(* ===== verification/RowTheorems.v ===== *)
(** * What is read from a row

    The readers of [ROW] return the glyph of a column; what they return after a write,
    without mention of the representation. *)

From stdpp Require Import relations.
From S2P Require Import Prelude Effects LineRendition TextAttribute Rle RleLaws RleSpec Row RowLayout RowSpec.

Local Open Scope Z_scope.

(** The glyph of a column, and which of its columns this is. *)
Fixpoint glyph_of (gs : list glyph) (c : nat) : option (glyph * nat) :=
  match gs with
  | [] => None
  | g :: gs => if (c <? g_cols g)%nat then Some (g, c) else glyph_of gs (c - g_cols g)
  end.

Lemma glyph_of_app g1 g2 c :
  glyph_of (g1 ++ g2) c = if (c <? cols g1)%nat then glyph_of g1 c else glyph_of g2 (c - cols g1).
Proof.
  revert c; induction g1 as [|g g1 IH]; intros c.
  { cbn. by rewrite Nat.sub_0_r. }
  cbn [app glyph_of]. rewrite cols_cons, IH.
  destruct (Nat.ltb_spec c (g_cols g)), (Nat.ltb_spec (c - g_cols g) (cols g1)),
    (Nat.ltb_spec c (g_cols g + cols g1)); try lia; try done. f_equal. lia.
Qed.

Lemma glyph_of_spaces n c : (c < n)%nat -> glyph_of (spaces n) c = Some (space, 0%nat).
Proof.
  revert c; induction n as [|n IH]; intros c Hc; [lia|]. cbn [spaces repeat glyph_of].
  change (g_cols space) with 1%nat. destruct (Nat.ltb_spec c 1); [by destruct c; [|lia]|]. apply IH. lia.
Qed.

Lemma glyph_of_located gs c g k :
  glyph_of gs c = Some (g, k) -> exists A B, gs = A ++ g :: B /\ c = (cols A + k)%nat /\ (k < g_cols g)%nat.
Proof.
  revert c; induction gs as [|g0 gs IH]; intros c E; [done|]. cbn [glyph_of] in E.
  destruct (Nat.ltb_spec c (g_cols g0)).
  - injection E as <- <-. by exists [], gs.
  - destruct (IH _ E) as (A & B & -> & Hc & Hk). exists (g0 :: A), B. rewrite cols_cons. split; [done|]. lia.
Qed.

Lemma glyph_of_total gs c : (c < cols gs)%nat -> exists g k, glyph_of gs c = Some (g, k).
Proof.
  revert c; induction gs as [|g gs IH]; intros c Hc; [cbn in Hc; lia|]. cbn [glyph_of].
  rewrite cols_cons in Hc. destruct (Nat.ltb_spec c (g_cols g)); [eauto|]. apply IH. lia.
Qed.

(** ** Overwritten rows *)

(** A glyph is not touched by an overwriting of the columns from [c0] to [c1]. *)
Definition apart_from (c0 c1 : nat) (c : nat) (gk : glyph * nat) : bool :=
  (c - gk.2 + g_cols gk.1 <=? c0)%nat || (c1 <=? c - gk.2)%nat.

Lemma glyph_of_overwrite gs c0 c1 chars c :
  Forall glyph_ok gs -> (c0 < c1)%nat -> (c1 <= cols gs)%nat -> (c < cols gs)%nat ->
  glyph_of (overwrite c0 c1 chars gs) c =
  if (c0 <=? c)%nat && (c <? c1)%nat then Some (Glyph chars (c1 - c0), (c - c0)%nat)
  else match glyph_of gs c with
       | Some gk => Some (if apart_from c0 c1 c gk then gk else (space, 0%nat))
       | None => None
       end.
Proof.
  intros Hok Hlt Hle Hc.
  destruct (overwrite_parts gs c0 c1 chars Hok Hlt Hle)
    as (A & E & C & k & t & B & A2 & B2 & k2 & Hgs & HL & HL2 & Hcase & Hc0 & HcD & ->).
  assert (HcE : cols E = (k + (c1 - c0) + t)%nat) by (rewrite cols_app in HcD; lia).
  rewrite glyph_of_app, glyph_of_app, glyph_of_app, glyph_of_app, !cols_spaces.
  assert (Hc1g : cols [Glyph chars (c1 - c0)] = (c1 - c0)%nat) by (rewrite cols_cons; cbn; lia).
  rewrite Hc1g. cbn [glyph_of g_cols].
  destruct (Nat.ltb_spec c (cols A)) as [HcA|HcA].
  { destruct (Nat.leb_spec c0 c); [lia|]. cbn [andb]. rewrite Hgs, <- app_assoc, glyph_of_app.
    destruct (Nat.ltb_spec c (cols A)); [|lia]. destruct (glyph_of A c) as [[g j]|] eqn:Eg; [|done].
    apply glyph_of_located in Eg as (A' & B' & -> & Hc' & Hj). f_equal.
    unfold apart_from; cbn [fst snd]. rewrite cols_app, cols_cons in HcA, Hc0.
    destruct (Nat.leb_spec (c - j + g_cols g) c0); [done|lia]. }
  destruct (Nat.ltb_spec (c - cols A) k) as [Hk|Hk].
  { destruct (Nat.leb_spec c0 c); [lia|]. cbn [andb]. rewrite glyph_of_spaces by lia.
    destruct HL as (EA & _ & [->|(g & B' & -> & Hk')]); [lia|].
    rewrite EA, glyph_of_app. destruct (Nat.ltb_spec c (cols A)); [lia|]. cbn [glyph_of].
    destruct (Nat.ltb_spec (c - cols A) (g_cols g)); [|lia]. f_equal. unfold apart_from; cbn [fst snd].
    destruct (Nat.leb_spec (c - (c - cols A) + g_cols g) c0); [lia|].
    destruct (Nat.leb_spec c1 (c - (c - cols A))); [lia|done]. }
  destruct (Nat.ltb_spec (c - cols A - k) (c1 - c0)) as [Hw|Hw].
  { destruct (Nat.leb_spec c0 c); [|lia]. destruct (Nat.ltb_spec c c1); [|lia]. cbn [andb]. do 2 f_equal. lia. }
  destruct (Nat.ltb_spec c c1); [lia|]. rewrite andb_false_r.
  destruct (Nat.ltb_spec (c - cols A - k - (c1 - c0)) t) as [Ht|Ht].
  { rewrite glyph_of_spaces by lia.
    destruct Hcase as [(_ & _ & _ & ->)|(g & -> & HD & Hk2 & ->)]; [lia|].
    destruct HL2 as (EA2 & Hc1 & _). rewrite EA2, glyph_of_app. destruct (Nat.ltb_spec c (cols A2)); [lia|].
    cbn [glyph_of]. destruct (Nat.ltb_spec (c - cols A2) (g_cols g)); [|lia]. f_equal.
    unfold apart_from; cbn [fst snd]. destruct (Nat.leb_spec (c - (c - cols A2) + g_cols g) c0); [lia|].
    destruct (Nat.leb_spec c1 (c - (c - cols A2))); [lia|done]. }
  rewrite Hgs, glyph_of_app. destruct (Nat.ltb_spec c (cols (A ++ E))); [lia|].
  replace (c - cols A - k - (c1 - c0) - t)%nat with (c - cols (A ++ E))%nat by lia.
  destruct (glyph_of C (c - cols (A ++ E))) as [[g j]|] eqn:Eg; [|done]. f_equal.
  apply glyph_of_located in Eg as (A' & B' & _ & Hc' & Hj). unfold apart_from; cbn [fst snd].
  destruct (Nat.leb_spec c1 (c - j)); [by rewrite orb_true_r|lia].
Qed.

(** ** The readers *)

Definition dbcs_of (gk : glyph * nat) : DbcsAttribute :=
  if (gk.2 =? 0)%nat then if (g_cols gk.1 =? 1)%nat then Single else Leading else Trailing.

Section Readers.
Context (r : ROW) (gs : list glyph) (Hr : represents r gs).

Lemma clampedColumn_in c : (c < cols gs)%nat -> Z.to_nat (_clampedColumn (Z.of_nat c) r) = c.
Proof. intros Hc. unfold _clampedColumn. rewrite (rp_columns _ _ Hr). lia. Qed.

Lemma GlyphAt_spec c g k :
  glyph_of gs c = Some (g, k) -> GlyphAt (Z.of_nat c) r = Ok (g_text g).
Proof.
  intros Eg. destruct (glyph_of_located _ _ _ _ Eg) as (A & B & E & Hc & Hk).
  assert (Hcols : (c < cols gs)%nat) by (rewrite E, cols_app, cols_cons; lia).
  unfold GlyphAt. rewrite (clampedColumn_in c Hcols).
  assert (HL : located gs A (g :: B) k c).
  { split; [done|]. split; [done|]. destruct k; [by left|right; exists g, B; split; [done|lia]]. }
  rewrite (charOffset_located r gs Hr _ _ _ _ HL). cbn [bindR].
  replace (S c) with (cols A + S k)%nat by lia. pose proof (glyph_fits r gs Hr A g B E).
  rewrite (extend_up_inside r gs Hr A g B (S k)) by (done || lia). cbn [bindR].
  rewrite (charOffset_located r gs Hr (A ++ [g]) B 0);
    [|split; [by rewrite E, <- app_assoc|split; [lia|by left]]].
  cbn [bindR]. destruct (rp_text _ _ Hr) as [rest Hrest].
  assert (Etext : _chars r = text A ++ g_text g ++ text B ++ rest)
    by (rewrite Hrest, E, text_app, text_cons; by rewrite <- !app_assoc).
  assert (ED : text (A ++ [g]) = text A ++ g_text g)
    by (rewrite text_app, text_cons; cbn; by rewrite app_nil_r).
  rewrite ED, len_app. unfold len.
  destruct (Nat.leb_spec (Z.to_nat (Z.of_nat (length (text A)) + Z.of_nat (length (g_text g)))) (length (_chars r))) as [|Hx];
    [|rewrite Etext, !length_app in Hx; lia].
  f_equal. rewrite Etext. apply take_drop_middle_app; lia.
Qed.

Lemma DbcsAttrAt_spec c g k :
  glyph_of gs c = Some (g, k) -> DbcsAttrAt (Z.of_nat c) r = Ok (dbcs_of (g, k)).
Proof.
  intros Eg. destruct (glyph_of_located _ _ _ _ Eg) as (A & B & E & Hc & Hk).
  assert (Hcols : (c < cols gs)%nat) by (rewrite E, cols_app, cols_cons; lia).
  unfold DbcsAttrAt. rewrite (clampedColumn_in c Hcols).
  assert (HL : located gs A (g :: B) k c).
  { split; [done|]. split; [done|]. destruct k; [by left|right; exists g, B; split; [done|lia]]. }
  rewrite (isTrailer_located r gs Hr _ _ _ _ HL). cbn [bindR]. unfold dbcs_of; cbn [fst snd].
  destruct (Nat.eqb_spec k 0) as [->|]; cbn [negb]; [|done].
  destruct (Nat.eqb_spec (g_cols g) 1) as [E1|E1].
  - rewrite (isTrailer_located r gs Hr (A ++ [g]) B 0); [done|].
    split; [by rewrite E, <- app_assoc|]. split; [|by left]. rewrite cols_app, cols_cons. cbn. lia.
  - rewrite (isTrailer_located r gs Hr A (g :: B) 1); [done|]. split; [done|]. split; [lia|].
    right. exists g, B. split; [done|]. lia.
Qed.

Lemma GetText_spec : GetText r = Ok (text gs).
Proof.
  unfold GetText. rewrite (charSize_represents r gs Hr). cbn [bindR]. destruct (rp_text _ _ Hr) as [rest Hrest].
  unfold len. rewrite Nat2Z.id, Hrest, length_app.
  destruct (Nat.leb_spec (length (text gs)) (length (text gs) + length rest)); [|lia].
  by rewrite take_app_length.
Qed.

End Readers.

(** * Theorems about rows

    Writing and reading back, resizing, and the safety of every history of a row. *)

(** ** New rows *)

Lemma init_represents r n :
  0 <= n < 2 ^ 15 -> _columnCount r = n -> _chars r = init_chars n -> _charOffsets r = init_offsets n ->
  represents r (spaces (Z.to_nat n)).
Proof.
  intros Hn Hcc Hch Hoff. split.
  - apply spaces_ok.
  - rewrite Hcc, cols_spaces. lia.
  - rewrite cols_spaces. eval_ground. lia.
  - rewrite Hoff. unfold layout, init_offsets. rewrite body_spaces, text_spaces. unfold len. rewrite repeat_length.
    unfold iota. rewrite seq_S, map_app. done.
  - exists []. by rewrite Hch, text_spaces, app_nil_r.
  - rewrite text_spaces. unfold len. rewrite repeat_length. lia.
  - rewrite Hch. unfold init_chars, len. rewrite repeat_length. eval_ground. lia.
Qed.

Section Resize.
Context (garbage : wchar).

(** A row cut or padded with spaces. *)
Definition resized_glyphs (n : nat) (gs : list glyph) : list glyph :=
  take_cols (Nat.min n (cols gs)) gs ++ spaces (n - Nat.min n (cols gs)).

(** The attributes of a row: one per column, in compact runs. *)
Record attributed (r : ROW) : Prop := {
  at_wf : wf 16 (_attr r);
  at_compact : compact (_runs (_attr r));
  at_total : _total_length (_attr r) = _columnCount r
}.

Lemma rle_of_value_ok n (a : TextAttribute) :
  0 <= n < 2 ^ 16 -> wf 16 (rle_of_value n a) /\ compact (_runs (rle_of_value n a)).
Proof.
  intros Hn. unfold rle_of_value. destruct (Z.eqb_spec n 0) as [->|]; cbn.
  - split; [split; [constructor|done|done]|by split; [constructor|]].
  - split; [split; [repeat constructor; cbn; lia|cbn; lia|cbn; lia]|split; [repeat constructor; cbn; lia|done]].
Qed.

Lemma spaces_app n m : spaces n ++ spaces m = spaces (n + m).
Proof. unfold spaces. by rewrite repeat_app. Qed.

Lemma Resize_ok r gs n a :
  represents r gs -> attributed r -> _charsBuffer r = true -> 0 <= n < 2 ^ 15 ->
  len (text (resized_glyphs (Z.to_nat n) gs)) < 2 ^ 15 ->
  exists r', Resize garbage n a r = (r', Ok tt) /\ represents r' (resized_glyphs (Z.to_nat n) gs) /\
    attributed r' /\ _charsBuffer r' = true /\
    contents (_attr r') =
      (if rle_is_empty (_attr r) then repeat a (Z.to_nat n) else resized (Z.to_nat n) (contents (_attr r))).
Proof.
  intros Hr Hat Hbuf Hn Hsmall. pose proof (rp_ok _ _ Hr) as Hok. unfold resized_glyphs in *.
  set (c := Nat.min (Z.to_nat n) (cols gs)) in *.
  destruct (locate gs c Hok ltac:(lia)) as (A & B & k & HL).
  rewrite (located_take gs A B k c Hok HL), <- app_assoc, spaces_app in *.
  pose proof HL as (EA & Hc & _).
  replace (k + (Z.to_nat n - c))%nat with (Z.to_nat n - cols A)%nat in * by lia.
  set (ws := (Z.to_nat n - cols A)%nat) in *.
  rewrite text_app, len_app, text_spaces in Hsmall. unfold len in Hsmall at 2. rewrite repeat_length in Hsmall.
  pose proof (len_nonneg (text A)). unfold Resize. unfold bind at 1 2, get. rewrite Hbuf, (rp_columns _ _ Hr).
  replace (Z.to_nat (Z.min n (Z.of_nat (cols gs)))) with c by lia. rewrite bind_assoc.
  assert (Eo : reads (_uncheckedCharOffset c) r = (r, Ok (len (text A))))
    by (unfold reads; by rewrite (charOffset_located r gs Hr A B k c HL)).
  assert (Ed : reads (extend_down c) r = (r, Ok (cols A)))
    by (unfold reads; by rewrite (extend_down_located r gs Hr A B k c HL)).
  rewrite (bind_Ok _ _ _ _ _ Eo), bind_assoc, (bind_Ok _ _ _ _ _ Ed), bind_ret_l. cbv beta iota zeta.
  rewrite (wrapu_small 16 (n - Z.of_nat (cols A))) by (eval_ground; lia).
  replace (n - Z.of_nat (cols A)) with (Z.of_nat ws) by lia.
  rewrite (wrapu_small 16 (len (text A) + Z.of_nat ws)) by (eval_ground; lia).
  set (cap := if n <? len (text A) + Z.of_nat ws then len (text A) + Z.of_nat ws else n).
  assert (Hcap : len (text A) + Z.of_nat ws <= cap < 2 ^ 16).
  { unfold cap. eval_ground. destruct (Z.ltb_spec n (len (text A) + Z.of_nat ws)); lia. }
  unfold bind at 1 2, get. destruct (rp_text _ _ Hr) as [rest Hrest].
  assert (Echars : _chars r = text A ++ text B ++ rest) by (rewrite Hrest, EA, text_app; by rewrite <- app_assoc).
  destruct (part_ok r gs Hr A B EA) as [HokA HokB].
  assert (Eoffs : _charOffsets r = body A 0 ++ layout B (len (text A)))
    by (rewrite (rp_offsets _ _ Hr), EA, layout_app; done).
  assert (Hguard : (Z.of_nat (length (_chars r)) <? len (text A)) || (cap <? len (text A) + Z.of_nat ws) ||
    (length (_charOffsets r) <? cols A)%nat = false).
  { destruct (Z.ltb_spec (Z.of_nat (length (_chars r))) (len (text A))) as [Hx|];
      [rewrite Echars, length_app in Hx; unfold len in Hx; lia|].
    destruct (Z.ltb_spec cap (len (text A) + Z.of_nat ws)); [lia|].
    destruct (Nat.ltb_spec (length (_charOffsets r)) (cols A)) as [Hx|]; [|done].
    rewrite Eoffs, length_app, length_body in Hx by done. lia. }
  assert (Elen : Z.to_nat (len (text A)) = length (text A)) by (unfold len; lia).
  rewrite Hguard, bind_ret_l, Elen, !Nat2Z.id, Echars, Eoffs.
  rewrite take_app_length, take_app_length' by (by rewrite length_body). rewrite iota16_small by lia.
  unfold bind at 1, modify at 1. unfold bind at 1, get. cbn [_attr].
  set (r1 := mkROW true _ _ _ _ _ _ _ _).
  assert (Hr1 : represents r1 (A ++ spaces ws)).
  { split; cbn [_columnCount _charOffsets _chars r1].
    - apply Forall_app_2; [done|apply spaces_ok].
    - rewrite cols_app, cols_spaces. lia.
    - rewrite cols_app, cols_spaces. eval_ground. lia.
    - rewrite layout_app, Z.add_0_l. f_equal. unfold layout. rewrite body_spaces, text_spaces.
      assert (Ews : len (repeat UNICODE_SPACE ws) = Z.of_nat ws) by (unfold len; by rewrite repeat_length).
      rewrite Ews. unfold iota. rewrite seq_S, map_app. done.
    - eexists. rewrite text_app, text_spaces. by rewrite <- app_assoc.
    - rewrite text_app, len_app, text_spaces. unfold len at 2. rewrite repeat_length. lia.
    - unfold len. rewrite !length_app, !repeat_length. fold (len (text A)). unfold len in *. lia. }
  destruct Hat as [Hwf Hcp Htot].
  destruct (rle_is_empty (_attr r)) eqn:Hemp.
  - destruct (rle_of_value_ok n a) as [Hw1 Hc1]; [eval_ground; lia|].
    eexists. split; [done|]. split; [by destruct Hr1; split|]. split; [by split|]. split; [done|].
    change (decode (_runs (rle_of_value n a)) = repeat a (Z.to_nat n)). unfold rle_of_value.
    destruct (Z.eqb_spec n 0) as [->|]; [done|]. cbn [_runs]. rewrite decode_cons. apply app_nil_r.
  - unfold rle_is_empty in Hemp. bool_prop.
    destruct (resize_spec 16 (_attr r) n Hwf Hcp) as (a' & Ea & Hw' & Ht' & Hc' & Hcp'); [eval_ground; lia| |].
    { right. intros En. destruct Hwf as [_ Ht _]. rewrite En in Ht. done. }
    unfold on_attr. cbn [_attr r1]. rewrite Ea. eexists. split; [done|]. split; [by destruct Hr1; split|].
    split; [by split|]. by split.
Qed.

End Resize.

(** ** Histories

    The operations that change a row.  Glyphs have at most two code units, which is
    what the code that writes text produces, and rows at most 16383 columns, so that
    the text stays below 32768 units. *)

Inductive row_op :=
| OpReplace (columnBegin width : Z) (chars : wstring)
| OpClear (column : Z)
| OpResize (rowWidth : Z) (fill : TextAttribute)
| OpReset (attr : TextAttribute)
| OpAttributes (beginIndex endIndex : Z) (attr : TextAttribute)
| OpAttrToEnd (columnBegin : Z) (attr : TextAttribute)
| OpWrap (wrap : bool)
| OpPadded (padded : bool)
| OpRendition (rendition : LineRendition).

Definition perform (garbage : wchar) (op : row_op) : M ROW unit :=
  match op with
  | OpReplace columnBegin width chars => ReplaceCharacters garbage columnBegin width chars
  | OpClear column => ClearCell garbage column
  | OpResize rowWidth fill => Resize garbage rowWidth fill
  | OpReset attr => modify (Reset attr)
  | OpAttributes beginIndex endIndex attr => ReplaceAttributes beginIndex endIndex attr
  | OpAttrToEnd columnBegin attr => SetAttrToEnd columnBegin attr ;; ret tt
  | OpWrap wrap => modify (SetWrapForced wrap)
  | OpPadded padded => modify (SetDoubleBytePadded padded)
  | OpRendition rendition => modify (SetLineRendition rendition)
  end.

Definition MAX_COLUMNS : Z := 16383.

Definition op_ok (op : row_op) (r : ROW) : Prop :=
  match op with
  | OpReplace _ _ chars => (length chars <= 2)%nat
  | OpResize rowWidth _ => 0 <= rowWidth <= MAX_COLUMNS
  | OpAttributes beginIndex endIndex _ =>
      _clampedColumnInclusive beginIndex r < _clampedColumnInclusive endIndex r
  | OpAttrToEnd columnBegin _ => Z.max 0 columnBegin < _columnCount r
  | _ => True
  end.

Definition narrow (gs : list glyph) : Prop := Forall (fun g => (length (g_text g) <= 2)%nat) gs.

Record row_ok (r : ROW) : Prop := {
  ro_glyphs : exists gs, represents r gs /\ narrow gs;
  ro_attributes : attributed r;
  ro_buffer : _charsBuffer r = true;
  ro_columns : 0 <= _columnCount r <= MAX_COLUMNS
}.

Lemma narrow_text gs : Forall glyph_ok gs -> narrow gs -> len (text gs) <= 2 * Z.of_nat (cols gs).
Proof.
  intros Hok. induction Hok as [|g gs [_ Hg] Hgs IH]; intros Hn; [done|]. inversion Hn; subst.
  rewrite text_cons, len_app, cols_cons. specialize (IH ltac:(done)). unfold len in *. lia.
Qed.

Lemma narrow_spaces n : narrow (spaces n).
Proof. apply Forall_forall. intros g Hg. apply repeat_spec in Hg as ->. cbn. lia. Qed.

Lemma cols_overwrite gs c0 c1 chars :
  Forall glyph_ok gs -> (c0 < c1)%nat -> (c1 <= cols gs)%nat -> chars <> [] ->
  cols (overwrite c0 c1 chars gs) = cols gs /\ Forall glyph_ok (overwrite c0 c1 chars gs).
Proof.
  intros Hok Hlt Hle Hch.
  destruct (overwrite_parts gs c0 c1 chars Hok Hlt Hle)
    as (A & E & C & k & t & B & A2 & B2 & k2 & Hgs & _ & _ & _ & Hc0 & HcD & ->).
  split.
  - rewrite Hgs, !cols_app, !cols_spaces, cols_cons in *. cbn in *. lia.
  - rewrite Hgs in Hok. apply Forall_app in Hok as [HD HC]. apply Forall_app in HD as [HA _].
    repeat apply Forall_app_2; try done; try apply spaces_ok. repeat constructor; cbn; [done|lia].
Qed.

Lemma narrow_overwrite gs c0 c1 chars :
  Forall glyph_ok gs -> (c0 < c1)%nat -> (c1 <= cols gs)%nat -> (length chars <= 2)%nat -> narrow gs ->
  narrow (overwrite c0 c1 chars gs).
Proof.
  intros Hok Hlt Hle Hch Hn.
  destruct (overwrite_parts gs c0 c1 chars Hok Hlt Hle)
    as (A & E & C & k & t & B & A2 & B2 & k2 & Hgs & _ & _ & _ & _ & _ & ->).
  rewrite Hgs in Hn. apply Forall_app in Hn as [HD HC]. apply Forall_app in HD as [HA _].
  repeat apply Forall_app_2; try done; try apply narrow_spaces. by constructor; [|constructor].
Qed.

Lemma row_ok_same r r' gs :
  row_ok r -> same_rest r r' -> represents r' gs -> narrow gs -> row_ok r'.
Proof.
  intros [_ [] Hb Hc] (E1 & E2 & E3 & _) Hr Hn. split; [eauto| |congruence|by rewrite E3].
  split; rewrite ?E2, ?E3; done.
Qed.

Lemma row_ok_set_attr r a :
  row_ok r -> wf 16 a -> compact (_runs a) -> _total_length a = _columnCount r -> row_ok (set_attr a r).
Proof.
  intros [(gs & Hr & Hn) _ Hb Hc] H1 H2 H3. split; [|by split|done|done].
  exists gs. split; [by destruct Hr; split|done].
Qed.

Lemma replace_attr_ok r b e a :
  row_ok r -> 0 <= b < e -> e <= _columnCount r ->
  exists r', on_attr (rle_replace 16 b e a) r = (r', Ok tt) /\ row_ok r'.
Proof.
  intros Hr Hb He. pose proof (ro_attributes _ Hr) as [Hw Hc Ht].
  destruct (replace_ok 16 (_attr r) b e a Hw) as (x & E & Hw' & _ & Ht' & Hc'); [lia|lia|].
  unfold on_attr. rewrite E. eexists. split; [done|]. apply row_ok_set_attr; try done; [|lia].
  apply Hc'; [done|lia].
Qed.

Lemma ReplaceCharacters_row_ok garbage r columnBegin width chars :
  row_ok r -> (length chars <= 2)%nat ->
  exists r', ReplaceCharacters garbage columnBegin width chars r = (r', Ok tt) /\ row_ok r'.
Proof.
  intros Hok Hch. pose proof Hok as [(gs & Hr & Hn) _ _ Hcc].
  destruct (decide (_clampedUint16 columnBegin < _clampedUint16 (i32 (columnBegin + width)) /\
    _clampedUint16 (i32 (columnBegin + width)) <= _columnCount r /\ chars <> [])) as [(H1 & H2 & H3)|Hno].
  - assert (Hcl : ReplaceCharacters garbage columnBegin width chars r =
      ReplaceCharacters garbage (_clampedUint16 columnBegin)
        (_clampedUint16 (i32 (columnBegin + width)) - _clampedUint16 columnBegin) chars r).
    { unfold ReplaceCharacters, MAX_COLUMNS in *.
      assert (Ec : forall v, _clampedUint16 (_clampedUint16 v) = _clampedUint16 v) by (intros; unfold _clampedUint16; lia).
      assert (Ed : _clampedUint16 (i32 (_clampedUint16 columnBegin + (_clampedUint16 (i32 (columnBegin + width)) - _clampedUint16 columnBegin))) =
        _clampedUint16 (i32 (columnBegin + width))).
      { replace (_clampedUint16 columnBegin + (_clampedUint16 (i32 (columnBegin + width)) - _clampedUint16 columnBegin))
          with (_clampedUint16 (i32 (columnBegin + width))) by lia.
        rewrite wraps_small by (unfold _clampedUint16; eval_ground; lia). apply Ec. }
      by rewrite Ec, Ed. }
    rewrite Hcl. rewrite (rp_columns _ _ Hr) in H2, Hcc. unfold MAX_COLUMNS in Hcc.
    set (b := _clampedUint16 columnBegin) in *. set (e := _clampedUint16 (i32 (columnBegin + width))) in *.
    assert (Hb : 0 <= b) by (unfold b, _clampedUint16; lia).
    pose proof (cols_overwrite gs (Z.to_nat b) (Z.to_nat (b + (e - b))) chars (rp_ok _ _ Hr) ltac:(lia) ltac:(lia) H3) as [Hco Hoo].
    pose proof (narrow_overwrite gs (Z.to_nat b) (Z.to_nat (b + (e - b))) chars (rp_ok _ _ Hr) ltac:(lia) ltac:(lia) Hch Hn) as Hno.
    pose proof (narrow_text _ Hoo Hno) as Htx.
    destruct (ReplaceCharacters_ok garbage r gs b (e - b) chars Hr) as (r' & E & Hr' & Hs); try done; [lia|lia|eval_ground; lia|].
    exists r'. split; [done|]. by eapply row_ok_same.
  - exists r. split; [|done]. apply ReplaceCharacters_ignored.
    destruct (Z.le_gt_cases (_clampedUint16 (i32 (columnBegin + width))) (_clampedUint16 columnBegin)); [by left|].
    destruct (Z.le_gt_cases (_clampedUint16 (i32 (columnBegin + width))) (_columnCount r)); [|right; by left].
    right; right. destruct chars; [done|]. exfalso. by apply Hno.
Qed.

Lemma narrow_take_cols n gs : narrow gs -> narrow (take_cols n gs).
Proof.
  intros Hn. revert n; induction Hn as [|g gs Hg Hgs IH]; intros n; [constructor|]. cbn.
  case_if; [constructor; [done|apply IH]|apply narrow_spaces].
Qed.

Lemma cols_resized n gs : Forall glyph_ok gs -> cols (resized_glyphs n gs) = n /\ Forall glyph_ok (resized_glyphs n gs).
Proof.
  intros Hok. unfold resized_glyphs. set (c := Nat.min n (cols gs)).
  destruct (locate gs c Hok ltac:(lia)) as (A & B & k & HL). rewrite (located_take gs A B k c Hok HL).
  destruct HL as (-> & Hc & _). apply Forall_app in Hok as [HA _].
  split; [rewrite !cols_app, !cols_spaces; lia|].
  repeat apply Forall_app_2; try done; apply spaces_ok.
Qed.

Lemma perform_ok garbage op r :
  row_ok r -> op_ok op r -> exists r', perform garbage op r = (r', Ok tt) /\ row_ok r'.
Proof.
  intros Hr Ho. pose proof Hr as [(gs & Hg & Hn) Ha Hb Hc].
  destruct op as [col width chars|col|n fill|a|b e a|b a|wrap|padded|rendition]; cbn [perform op_ok] in *.
  - by apply ReplaceCharacters_row_ok.
  - by apply ReplaceCharacters_row_ok; [|cbn; lia].
  - destruct (cols_resized (Z.to_nat n) gs (rp_ok _ _ Hg)) as [Hcr Hor].
    assert (Hnr : narrow (resized_glyphs (Z.to_nat n) gs))
      by (apply Forall_app_2; [by apply narrow_take_cols|apply narrow_spaces]).
    pose proof (narrow_text _ Hor Hnr) as Ht. unfold MAX_COLUMNS in Ho.
    destruct (Resize_ok garbage r gs n fill Hg Ha Hb) as (r' & E & Hr' & Ha' & Hb' & _); [eval_ground; lia|eval_ground; lia|].
    exists r'. split; [done|]. split; [by eauto|done|done|]. rewrite (rp_columns _ _ Hr'), Hcr. unfold MAX_COLUMNS. lia.
  - eexists. split; [done|]. unfold MAX_COLUMNS in Hc. destruct (rle_of_value_ok (_columnCount r) a) as [Hw1 Hc1]; [eval_ground; lia|].
    split; [|by split|done|done]. exists (spaces (Z.to_nat (_columnCount r))).
    split; [|apply narrow_spaces]. apply init_represents; [eval_ground; lia|done..].
  - unfold ReplaceAttributes, bind, get. apply replace_attr_ok; [done|unfold _clampedColumnInclusive in *; lia..].
  - unfold SetAttrToEnd. rewrite bind_assoc. unfold bind at 1, get. rewrite bind_assoc. unfold bind at 1, get.
    unfold rle_size. destruct Ha as [Hw Hcp Ht]. rewrite Ht, bind_assoc.
    destruct (replace_attr_ok r (_clampedColumnInclusive b r) (_columnCount r) a Hr) as (r' & E & Hr');
      [unfold _clampedColumnInclusive; lia|lia|]. rewrite (bind_Ok _ _ _ _ _ E). by exists r'.
  - eexists. split; [done|]. split; [|by destruct Ha; split|done|done]. exists gs. split; [by destruct Hg; split|done].
  - eexists. split; [done|]. split; [|by destruct Ha; split|done|done]. exists gs. split; [by destruct Hg; split|done].
  - eexists. split; [done|]. split; [|by destruct Ha; split|done|done]. exists gs. split; [by destruct Hg; split|done].
Qed.

Lemma ROW_new_ok n a : 0 <= n <= MAX_COLUMNS -> row_ok (ROW_new n a).
Proof.
  unfold MAX_COLUMNS. intros Hn. destruct (rle_of_value_ok n a) as [Hw Hc]; [eval_ground; lia|].
  split; [|by split|done|unfold MAX_COLUMNS; cbn; lia]. exists (spaces (Z.to_nat n)).
  split; [|apply narrow_spaces]. apply init_represents; [eval_ground; lia|done..].
Qed.

(** ** The theorems *)

(** What is read at a column after the columns from [c0] to [c1] were overwritten. *)
Definition text_after (gs : list glyph) (c0 c1 : nat) (chars : wstring) (c : nat) : wstring :=
  if (c0 <=? c)%nat && (c <? c1)%nat then chars
  else match glyph_of gs c with
       | Some gk => if apart_from c0 c1 c gk then g_text gk.1 else [UNICODE_SPACE]
       | None => []
       end.

(** C29. [ReplaceCharacters] overwrites columns: afterwards every column of the range
    reads the new glyph, every glyph that does not touch the range reads as before,
    and the columns of a wide glyph that was cut read as spaces; the row represents
    exactly the overwritten glyphs (text, offsets and trailing flags agree), and
    attributes, width and flags of the row are untouched.  It holds whether the text
    moves within its buffer or to the heap, whatever uninitialised memory holds. *)
Theorem row_replace_overwrites (garbage : wchar) (r : ROW) (gs : list glyph) (columnBegin width : Z)
    (chars : wstring) :
  represents r gs -> 0 <= columnBegin -> 0 < width -> columnBegin + width <= Z.of_nat (cols gs) ->
  chars <> [] ->
  let c0 := Z.to_nat columnBegin in
  let c1 := Z.to_nat (columnBegin + width) in
  len (text (overwrite c0 c1 chars gs)) < 2 ^ 15 ->
  exists r', ReplaceCharacters garbage columnBegin width chars r = (r', Ok tt) /\
    represents r' (overwrite c0 c1 chars gs) /\ same_rest r r' /\
    forall c, (c < cols gs)%nat -> GlyphAt (Z.of_nat c) r' = Ok (text_after gs c0 c1 chars c).
Proof.
  intros Hr H0 Hw Hle Hch c0 c1 Hsmall.
  destruct (ReplaceCharacters_ok garbage r gs columnBegin width chars Hr H0 Hw Hle Hch Hsmall) as (r' & E & Hr' & Hs).
  exists r'. split; [done|]. split; [done|]. split; [done|]. intros c Hc.
  pose proof (glyph_of_overwrite gs c0 c1 chars c (rp_ok _ _ Hr) ltac:(lia) ltac:(lia) Hc) as Hg.
  unfold text_after. destruct ((c0 <=? c)%nat && (c <? c1)%nat).
  - by rewrite (GlyphAt_spec r' _ Hr' c _ _ Hg).
  - destruct (glyph_of_total gs c Hc) as (g & k & Eg). rewrite Eg in *.
    destruct (apart_from c0 c1 c (g, k)); by rewrite (GlyphAt_spec r' _ Hr' c _ _ Hg).
Qed.

(** A row of 6 columns with the wide glyphs xx and yy; a wide glyph over the middle. *)
Definition sample_glyphs : list glyph := [Glyph [0x78] 2; Glyph [0xD83D; 0xDE00] 2; space; space].

Definition sample_row : ROW :=
  (ReplaceCharacters 0 2 2 [0xD83D; 0xDE00]
    (ReplaceCharacters 0 0 2 [0x78] (ROW_new 6 TextAttribute_default)).1).1.

Lemma sample_represents : represents sample_row sample_glyphs.
Proof.
  split; try done.
  - repeat constructor; done.
  - exists [UNICODE_SPACE]. reflexivity.
Qed.

Lemma row_replace_overwrites_witness :
  exists r', ReplaceCharacters 7 1 2 [0x57] sample_row = (r', Ok tt) /\
    GlyphAt 0 r' = Ok [0x20] /\ GlyphAt 1 r' = Ok [0x57] /\ GlyphAt 2 r' = Ok [0x57] /\ GlyphAt 3 r' = Ok [0x20].
Proof.
  destruct (row_replace_overwrites 7 sample_row sample_glyphs 1 2 [0x57]) as (r' & E & _ & _ & Hg).
  - exact sample_represents.
  - lia.
  - lia.
  - vm_compute. intros [=].
  - intros [=].
  - reflexivity.
  - exists r'. split; [exact E|].
    split; [exact (Hg 0%nat ltac:(cbn; lia))|]. split; [exact (Hg 1%nat ltac:(cbn; lia))|].
    split; [exact (Hg 2%nat ltac:(cbn; lia))|exact (Hg 3%nat ltac:(cbn; lia))].
Defined.

(** The readers of a row agree with the glyphs it represents: [GlyphAt] returns the
    whole text of the glyph a column belongs to, whichever of its columns that is,
    [DbcsAttrAt] tells the single, leading and trailing columns apart, and [GetText]
    is the text of all glyphs. *)
Theorem row_readers_agree (r : ROW) (gs : list glyph) (c : nat) :
  represents r gs -> (c < cols gs)%nat ->
  exists g k, glyph_of gs c = Some (g, k) /\
    GlyphAt (Z.of_nat c) r = Ok (g_text g) /\ DbcsAttrAt (Z.of_nat c) r = Ok (dbcs_of (g, k)) /\
    GetText r = Ok (text gs).
Proof.
  intros Hr Hc. destruct (glyph_of_total gs c Hc) as (g & k & E). exists g, k. split; [done|].
  split; [by apply (GlyphAt_spec r gs Hr c g k)|]. split; [by apply (DbcsAttrAt_spec r gs Hr c g k)|].
  by apply GetText_spec.
Qed.

Lemma row_readers_agree_witness :
  exists g k, glyph_of sample_glyphs 3 = Some (g, k) /\ GlyphAt 3 sample_row = Ok [0xD83D; 0xDE00] /\
    DbcsAttrAt 3 sample_row = Ok Trailing.
Proof.
  destruct (row_readers_agree sample_row sample_glyphs 3) as (g & k & E & H1 & H2 & _).
  - exact sample_represents.
  - cbn. lia.
  - exists g, k. split; [exact E|]. revert E. vm_compute. intros [= <- <-]. split; reflexivity.
Defined.

(** [Resize] to a narrower row keeps the glyphs that fit, a glyph cut at the edge
    leaves spaces; to a wider one it appends spaces; the attributes are cut, or the
    last one is repeated. *)
Theorem row_resize (garbage : wchar) (r : ROW) (gs : list glyph) (n : Z) (a : TextAttribute) :
  represents r gs -> attributed r -> _charsBuffer r = true -> 0 <= n < 2 ^ 15 ->
  len (text (resized_glyphs (Z.to_nat n) gs)) < 2 ^ 15 ->
  exists r', Resize garbage n a r = (r', Ok tt) /\ represents r' (resized_glyphs (Z.to_nat n) gs) /\
    contents (_attr r') =
      (if rle_is_empty (_attr r) then repeat a (Z.to_nat n) else resized (Z.to_nat n) (contents (_attr r))).
Proof.
  intros Hr Ha Hb Hn Hs. destruct (Resize_ok garbage r gs n a Hr Ha Hb Hn Hs) as (r' & E & H1 & _ & _ & H2).
  by exists r'.
Qed.

Lemma sample_attributed : attributed sample_row.
Proof.
  assert (E : _attr sample_row = rle_of_value 6 TextAttribute_default) by (vm_compute; reflexivity).
  assert (Ec : _columnCount sample_row = 6) by (vm_compute; reflexivity).
  destruct (rle_of_value_ok 6 TextAttribute_default) as [H1 H2]; [lia|].
  split; rewrite E; [exact H1|exact H2|]. rewrite Ec. reflexivity.
Qed.

Lemma row_resize_witness :
  exists r', Resize 7 3 TextAttribute_default sample_row = (r', Ok tt) /\
    represents r' [Glyph [0x78] 2; space] /\ contents (_attr r') = repeat TextAttribute_default 3.
Proof.
  destruct (row_resize 7 sample_row sample_glyphs 3 TextAttribute_default) as (r' & E & H1 & H2).
  - exact sample_represents.
  - exact sample_attributed.
  - reflexivity.
  - lia.
  - reflexivity.
  - exists r'. split; [exact E|]. split; [exact H1|]. rewrite H2. reflexivity.
Defined.

(** C30. Whatever happens to a row of at most 16383 columns with glyphs of at most two
    code units (text written anywhere, in range or not, resizes, resets, attributes
    over ranges that are not empty), no operation throws or leaves the buffers, and
    text, offsets, flags and attributes stay consistent. *)
Theorem row_history_safe (garbage : wchar) (n : Z) (a : TextAttribute) (r : ROW) (op : row_op) :
  0 <= n <= MAX_COLUMNS ->
  rtc (fun r1 r2 => exists op, op_ok op r1 /\ (perform garbage op r1).1 = r2) (ROW_new n a) r ->
  op_ok op r ->
  row_ok r /\ exists r', perform garbage op r = (r', Ok tt) /\ row_ok r'.
Proof.
  intros Hn Hreach Hop.
  assert (Hr : row_ok r).
  { remember (ROW_new n a) as r0 eqn:E0. assert (H0 : row_ok r0) by (subst; by apply ROW_new_ok). clear E0.
    induction Hreach as [|r1 r2 r3 (o & Ho & <-) _ IH]; [done|]. apply IH; [done|].
    destruct (perform_ok garbage o r1 H0 Ho) as (r' & -> & Hr'). done. }
  split; [done|]. by apply perform_ok.
Qed.

Lemma row_history_safe_witness :
  row_ok sample_row /\ exists r', perform 0 (OpReplace 5 2 [0x41]) sample_row = (r', Ok tt) /\ row_ok r'.
Proof.
  apply (row_history_safe 0 6 TextAttribute_default).
  - unfold MAX_COLUMNS. lia.
  - eapply rtc_l; [exists (OpReplace 0 2 [0x78]); split; [cbn; lia|vm_compute; reflexivity]|].
    eapply rtc_l; [exists (OpReplace 2 2 [0xD83D; 0xDE00]); split; [cbn; lia|vm_compute; reflexivity]|].
    match goal with |- rtc _ ?x sample_row => replace sample_row with x by (vm_compute; reflexivity) end.
    apply rtc_refl.
  - cbn. lia.
Defined.

(** ** Behaviour that contradicts the code's intent *)

Definition long_text : list wchar := repeat 0x41 (Z.to_nat 0x8000).

(** The offsets have 15 bits, but the length of the text is only limited to 16: a
    row whose text reaches 32768 units gets the trailing flag on its last offset,
    which the loops over trailing columns rely on never to have it, and reading the
    last glyph runs past the end of the offsets. *)
Theorem row_text_overflow :
  exists r', ReplaceCharacters 0 0 1 long_text (ROW_new 1 TextAttribute_default) = (r', Ok tt) /\
    _uncheckedIsTrailer 1 r' = Ok true /\ GlyphAt 0 r' = Undefined.
Proof.
  assert (E : (ReplaceCharacters 0 0 1 long_text (ROW_new 1 TextAttribute_default)).2 = Ok tt)
    by (vm_compute; reflexivity).
  assert (E1 : _uncheckedIsTrailer 1 (ReplaceCharacters 0 0 1 long_text (ROW_new 1 TextAttribute_default)).1 = Ok true)
    by (vm_compute; reflexivity).
  assert (E2 : GlyphAt 0 (ReplaceCharacters 0 0 1 long_text (ROW_new 1 TextAttribute_default)).1 = Undefined)
    by (vm_compute; reflexivity).
  revert E E1 E2. generalize (ReplaceCharacters 0 0 1 long_text (ROW_new 1 TextAttribute_default)).
  intros [r o]. cbn [fst snd]. intros -> E1 E2. by exists r.
Qed.

(** [std::copy_n] as the standard has it: element by element, from the first on. *)
Fixpoint copy_n_forward (count first dest : nat) (l : list wchar) : list wchar :=
  match count with
  | O => l
  | S count =>
      match l !! first with
      | Some c => copy_n_forward count (S first) (S dest) (<[dest := c]> l)
      | None => l
      end
  end.

(** [_resizeChars] moves the tail of the text up within the same buffer by
    [std::copy_n], whose ranges then overlap: copied element by element, as the
    standard defines it, the tail is lost; the row is right only where [copy_n] of
    characters is a [memmove]. *)
Theorem row_move_needs_memmove (c : wchar) (tail rest : list wchar) (first : nat) (gap : wchar) :
  (1 <= length tail)%nat -> first = length rest ->
  copy_n_forward (length tail) first (S first) (rest ++ (c :: tail) ++ [gap]) =
  rest ++ [c] ++ repeat c (length tail) ++ [gap].
Proof.
  intros _ ->.
  assert (Hgen : forall (tl pre : list wchar) (c : wchar) post, copy_n_forward (length tl) (length pre) (S (length pre)) (pre ++ c :: tl ++ post) =
    pre ++ c :: repeat c (length tl) ++ post).
  { intros tl. induction tl as [|x tl IH]; intros pre d post; [done|].
    cbn [length copy_n_forward]. rewrite list_lookup_middle by done.
    rewrite insert_app_r_alt by lia. replace (S (length pre) - length pre)%nat with 1%nat by lia.
    cbn [insert list_insert app repeat].
    specialize (IH (pre ++ [d]) d post). rewrite length_app, Nat.add_1_r, <- !app_assoc in IH.
    cbn [app] in IH. exact IH. }
  exact (Hgen tail rest c [gap]).
Qed.

Lemma row_move_needs_memmove_witness :
  copy_n_forward 2 1 2 [0x20; 0x41; 0x42; 0x43; 0] = [0x20; 0x41; 0x41; 0x41; 0].
Proof. apply (row_move_needs_memmove 0x41 [0x42; 0x43] [0x20] 1 0); [cbn; lia|reflexivity]. Defined.
