(* ===== verification/Charsets.v ===== *)
(** * The character sets of the adapter

    Models [src/src/terminal/adapter/charsets.hpp]: the template [CharSet], an
    array of code units that starts as a run of consecutive characters and has some
    of them replaced, and each of the sets the terminal knows.  A [std::wstring_view]
    of one of the static arrays is identified by the array it points to
    ([CharSetName]), because the sets are compared by the address of their data.

    The lemmas show that every replacement lies inside its array (the compiler
    evaluates [at] and would refuse the table otherwise), what the sets hold at each
    index, and that the identity sets hold the characters they stand for. *)

From S2P Require Import Prelude.

Local Open Scope Z_scope.

(** ** [CharSet] *)

(** The constructor: the first loop fills the array with [BaseChar + i], the second
    stores each replacement. *)
Definition CharSet (BaseChar Size : Z) (replacements : list (wchar * wchar)) : wstring :=
  foldl (fun table replacement =>
           <[Z.to_nat (replacement.1 - BaseChar) := replacement.2]> table)
    (map (fun i => u16 (BaseChar + i)) (seqZ 0 Size)) replacements.

(** ** The replacements of each set *)

Definition Ascii_replacements : list (wchar * wchar) :=
  [].

Definition Latin1_replacements : list (wchar * wchar) :=
  [].

Definition Latin2_replacements : list (wchar * wchar) :=
  [ (0xa1, 0x0104); (0xa2, 0x02d8); (0xa3, 0x0141); (0xa5, 0x013d); (0xa6, 0x015a);
    (0xa9, 0x0160); (0xaa, 0x015e); (0xab, 0x0164); (0xac, 0x0179); (0xae, 0x017d);
    (0xaf, 0x017b); (0xb1, 0x0105); (0xb2, 0x02db); (0xb3, 0x0142); (0xb5, 0x013e);
    (0xb6, 0x015b); (0xb7, 0x02c7); (0xb9, 0x0161); (0xba, 0x015f); (0xbb, 0x0165);
    (0xbc, 0x017a); (0xbd, 0x02dd); (0xbe, 0x017e); (0xbf, 0x017c); (0xc0, 0x0154);
    (0xc3, 0x0102); (0xc5, 0x0139); (0xc6, 0x0106); (0xc8, 0x010c); (0xca, 0x0118);
    (0xcc, 0x011a); (0xcf, 0x010e); (0xd0, 0x0110); (0xd1, 0x0143); (0xd2, 0x0147);
    (0xd5, 0x0150); (0xd8, 0x0158); (0xd9, 0x016e); (0xdb, 0x0170); (0xde, 0x0162);
    (0xe0, 0x0155); (0xe3, 0x0103); (0xe5, 0x013a); (0xe6, 0x0107); (0xe8, 0x010d);
    (0xea, 0x0119); (0xec, 0x011b); (0xef, 0x010f); (0xf0, 0x0111); (0xf1, 0x0144);
    (0xf2, 0x0148); (0xf5, 0x0151); (0xf8, 0x0159); (0xf9, 0x016f); (0xfb, 0x0171);
    (0xfe, 0x0163); (0xff, 0x02d9) ].

Definition LatinCyrillic_replacements : list (wchar * wchar) :=
  [ (0xa1, 0x0401); (0xa2, 0x0402); (0xa3, 0x0403); (0xa4, 0x0404); (0xa5, 0x0405);
    (0xa6, 0x0406); (0xa7, 0x0407); (0xa8, 0x0408); (0xa9, 0x0409); (0xaa, 0x040a);
    (0xab, 0x040b); (0xac, 0x040c); (0xae, 0x040e); (0xaf, 0x040f); (0xb0, 0x0410);
    (0xb1, 0x0411); (0xb2, 0x0412); (0xb3, 0x0413); (0xb4, 0x0414); (0xb5, 0x0415);
    (0xb6, 0x0416); (0xb7, 0x0417); (0xb8, 0x0418); (0xb9, 0x0419); (0xba, 0x041a);
    (0xbb, 0x041b); (0xbc, 0x041c); (0xbd, 0x041d); (0xbe, 0x041e); (0xbf, 0x041f);
    (0xc0, 0x0420); (0xc1, 0x0421); (0xc2, 0x0422); (0xc3, 0x0423); (0xc4, 0x0424);
    (0xc5, 0x0425); (0xc6, 0x0426); (0xc7, 0x0427); (0xc8, 0x0428); (0xc9, 0x0429);
    (0xca, 0x042a); (0xcb, 0x042b); (0xcc, 0x042c); (0xcd, 0x042d); (0xce, 0x042e);
    (0xcf, 0x042f); (0xd0, 0x0430); (0xd1, 0x0431); (0xd2, 0x0432); (0xd3, 0x0433);
    (0xd4, 0x0434); (0xd5, 0x0435); (0xd6, 0x0436); (0xd7, 0x0437); (0xd8, 0x0438);
    (0xd9, 0x0439); (0xda, 0x043a); (0xdb, 0x043b); (0xdc, 0x043c); (0xdd, 0x043d);
    (0xde, 0x043e); (0xdf, 0x043f); (0xe0, 0x0440); (0xe1, 0x0441); (0xe2, 0x0442);
    (0xe3, 0x0443); (0xe4, 0x0444); (0xe5, 0x0445); (0xe6, 0x0446); (0xe7, 0x0447);
    (0xe8, 0x0448); (0xe9, 0x0449); (0xea, 0x044a); (0xeb, 0x044b); (0xec, 0x044c);
    (0xed, 0x044d); (0xee, 0x044e); (0xef, 0x044f); (0xf0, 0x2116); (0xf1, 0x0451);
    (0xf2, 0x0452); (0xf3, 0x0453); (0xf4, 0x0454); (0xf5, 0x0455); (0xf6, 0x0456);
    (0xf7, 0x0457); (0xf8, 0x0458); (0xf9, 0x0459); (0xfa, 0x045a); (0xfb, 0x045b);
    (0xfc, 0x045c); (0xfd, 0x00a7); (0xfe, 0x045e); (0xff, 0x045f) ].

Definition LatinGreek_replacements : list (wchar * wchar) :=
  [ (0xa1, 0x2018); (0xa2, 0x2019); (0xa4, 0x2426); (0xa5, 0x2426); (0xaa, 0x2426);
    (0xae, 0x2426); (0xaf, 0x2015); (0xb4, 0x0384); (0xb5, 0x0385); (0xb6, 0x0386);
    (0xb8, 0x0388); (0xb9, 0x0389); (0xba, 0x038a); (0xbc, 0x038c); (0xbe, 0x038e);
    (0xbf, 0x038f); (0xc0, 0x0390); (0xc1, 0x0391); (0xc2, 0x0392); (0xc3, 0x0393);
    (0xc4, 0x0394); (0xc5, 0x0395); (0xc6, 0x0396); (0xc7, 0x0397); (0xc8, 0x0398);
    (0xc9, 0x0399); (0xca, 0x039a); (0xcb, 0x039b); (0xcc, 0x039c); (0xcd, 0x039d);
    (0xce, 0x039e); (0xcf, 0x039f); (0xd0, 0x03a0); (0xd1, 0x03a1); (0xd2, 0x2426);
    (0xd3, 0x03a3); (0xd4, 0x03a4); (0xd5, 0x03a5); (0xd6, 0x03a6); (0xd7, 0x03a7);
    (0xd8, 0x03a8); (0xd9, 0x03a9); (0xda, 0x03aa); (0xdb, 0x03ab); (0xdc, 0x03ac);
    (0xdd, 0x03ad); (0xde, 0x03ae); (0xdf, 0x03af); (0xe0, 0x03b0); (0xe1, 0x03b1);
    (0xe2, 0x03b2); (0xe3, 0x03b3); (0xe4, 0x03b4); (0xe5, 0x03b5); (0xe6, 0x03b6);
    (0xe7, 0x03b7); (0xe8, 0x03b8); (0xe9, 0x03b9); (0xea, 0x03ba); (0xeb, 0x03bb);
    (0xec, 0x03bc); (0xed, 0x03bd); (0xee, 0x03be); (0xef, 0x03bf); (0xf0, 0x03c0);
    (0xf1, 0x03c1); (0xf2, 0x03c2); (0xf3, 0x03c3); (0xf4, 0x03c4); (0xf5, 0x03c5);
    (0xf6, 0x03c6); (0xf7, 0x03c7); (0xf8, 0x03c8); (0xf9, 0x03c9); (0xfa, 0x03ca);
    (0xfb, 0x03cb); (0xfc, 0x03cc); (0xfd, 0x03cd); (0xfe, 0x03ce); (0xff, 0x2426) ].

Definition LatinHebrew_replacements : list (wchar * wchar) :=
  [ (0xa1, 0x2426); (0xaa, 0x00d7); (0xba, 0x00f7); (0xbf, 0x2426); (0xc0, 0x2426);
    (0xc1, 0x2426); (0xc2, 0x2426); (0xc3, 0x2426); (0xc4, 0x2426); (0xc5, 0x2426);
    (0xc6, 0x2426); (0xc7, 0x2426); (0xc8, 0x2426); (0xc9, 0x2426); (0xca, 0x2426);
    (0xcb, 0x2426); (0xcc, 0x2426); (0xcd, 0x2426); (0xce, 0x2426); (0xcf, 0x2426);
    (0xd0, 0x2426); (0xd1, 0x2426); (0xd2, 0x2426); (0xd3, 0x2426); (0xd4, 0x2426);
    (0xd5, 0x2426); (0xd6, 0x2426); (0xd7, 0x2426); (0xd8, 0x2426); (0xd9, 0x2426);
    (0xda, 0x2426); (0xdb, 0x2426); (0xdc, 0x2426); (0xdd, 0x2426); (0xde, 0x2426);
    (0xdf, 0x2017); (0xe0, 0x05d0); (0xe1, 0x05d1); (0xe2, 0x05d2); (0xe3, 0x05d3);
    (0xe4, 0x05d4); (0xe5, 0x05d5); (0xe6, 0x05d6); (0xe7, 0x05d7); (0xe8, 0x05d8);
    (0xe9, 0x05d9); (0xea, 0x05da); (0xeb, 0x05db); (0xec, 0x05dc); (0xed, 0x05dd);
    (0xee, 0x05de); (0xef, 0x05df); (0xf0, 0x05e0); (0xf1, 0x05e1); (0xf2, 0x05e2);
    (0xf3, 0x05e3); (0xf4, 0x05e4); (0xf5, 0x05e5); (0xf6, 0x05e6); (0xf7, 0x05e7);
    (0xf8, 0x05e8); (0xf9, 0x05e9); (0xfa, 0x05ea); (0xfb, 0x2426); (0xfc, 0x2426);
    (0xfd, 0x200e); (0xfe, 0x200f); (0xff, 0x2426) ].

Definition Latin5_replacements : list (wchar * wchar) :=
  [ (0xd0, 0x011e); (0xdd, 0x0130); (0xde, 0x015e); (0xf0, 0x011f); (0xfd, 0x0131);
    (0xfe, 0x015f) ].

Definition DecSupplemental_replacements : list (wchar * wchar) :=
  [ (0xa4, 0x2426); (0xa6, 0x2426); (0xa8, 0x00a4); (0xac, 0x2426); (0xad, 0x2426);
    (0xae, 0x2426); (0xaf, 0x2426); (0xb4, 0x2426); (0xb8, 0x2426); (0xbe, 0x2426);
    (0xd0, 0x2426); (0xd7, 0x0152); (0xdd, 0x0178); (0xde, 0x2426); (0xf0, 0x2426);
    (0xf7, 0x0153); (0xfd, 0x00ff); (0xfe, 0x2426) ].

Definition DecSpecialGraphics_replacements : list (wchar * wchar) :=
  [ (0x5f, 0x0020); (0x60, 0x2666); (0x61, 0x2592); (0x62, 0x2409); (0x63, 0x240c);
    (0x64, 0x240d); (0x65, 0x240a); (0x66, 0x00b0); (0x67, 0x00b1); (0x68, 0x2424);
    (0x69, 0x240b); (0x6a, 0x2518); (0x6b, 0x2510); (0x6c, 0x250c); (0x6d, 0x2514);
    (0x6e, 0x253c); (0x6f, 0x23ba); (0x70, 0x23bb); (0x71, 0x2500); (0x72, 0x23bc);
    (0x73, 0x23bd); (0x74, 0x251c); (0x75, 0x2524); (0x76, 0x2534); (0x77, 0x252c);
    (0x78, 0x2502); (0x79, 0x2264); (0x7a, 0x2265); (0x7b, 0x03c0); (0x7c, 0x2260);
    (0x7d, 0x00a3); (0x7e, 0x00b7) ].

Definition DecCyrillic_replacements : list (wchar * wchar) :=
  [ (0xa1, 0x2426); (0xa2, 0x2426); (0xa3, 0x2426); (0xa4, 0x2426); (0xa5, 0x2426);
    (0xa6, 0x2426); (0xa7, 0x2426); (0xa8, 0x2426); (0xa9, 0x2426); (0xaa, 0x2426);
    (0xab, 0x2426); (0xac, 0x2426); (0xad, 0x2426); (0xae, 0x2426); (0xaf, 0x2426);
    (0xb0, 0x2426); (0xb1, 0x2426); (0xb2, 0x2426); (0xb3, 0x2426); (0xb4, 0x2426);
    (0xb5, 0x2426); (0xb6, 0x2426); (0xb7, 0x2426); (0xb8, 0x2426); (0xb9, 0x2426);
    (0xba, 0x2426); (0xbb, 0x2426); (0xbc, 0x2426); (0xbd, 0x2426); (0xbe, 0x2426);
    (0xbf, 0x2426); (0xc0, 0x044e); (0xc1, 0x0430); (0xc2, 0x0431); (0xc3, 0x0446);
    (0xc4, 0x0434); (0xc5, 0x0435); (0xc6, 0x0444); (0xc7, 0x0433); (0xc8, 0x0445);
    (0xc9, 0x0438); (0xca, 0x0439); (0xcb, 0x043a); (0xcc, 0x043b); (0xcd, 0x043c);
    (0xce, 0x043d); (0xcf, 0x043e); (0xd0, 0x043f); (0xd1, 0x044f); (0xd2, 0x0440);
    (0xd3, 0x0441); (0xd4, 0x0442); (0xd5, 0x0443); (0xd6, 0x0436); (0xd7, 0x0432);
    (0xd8, 0x044c); (0xd9, 0x044b); (0xda, 0x0437); (0xdb, 0x0448); (0xdc, 0x044d);
    (0xdd, 0x0449); (0xde, 0x0447); (0xdf, 0x044a); (0xe0, 0x042e); (0xe1, 0x0410);
    (0xe2, 0x0411); (0xe3, 0x0426); (0xe4, 0x0414); (0xe5, 0x0415); (0xe6, 0x0424);
    (0xe7, 0x0413); (0xe8, 0x0425); (0xe9, 0x0418); (0xea, 0x0419); (0xeb, 0x041a);
    (0xec, 0x041b); (0xed, 0x041c); (0xee, 0x041d); (0xef, 0x041e); (0xf0, 0x041f);
    (0xf1, 0x042f); (0xf2, 0x0420); (0xf3, 0x0421); (0xf4, 0x0422); (0xf5, 0x0423);
    (0xf6, 0x0416); (0xf7, 0x0412); (0xf8, 0x042c); (0xf9, 0x042b); (0xfa, 0x0417);
    (0xfb, 0x0428); (0xfc, 0x042d); (0xfd, 0x0429); (0xfe, 0x0427) ].

Definition DecGreek_replacements : list (wchar * wchar) :=
  [ (0xa4, 0x2426); (0xa6, 0x2426); (0xa8, 0x00a4); (0xac, 0x2426); (0xad, 0x2426);
    (0xae, 0x2426); (0xaf, 0x2426); (0xb4, 0x2426); (0xb8, 0x2426); (0xbe, 0x2426);
    (0xc0, 0x03ca); (0xc1, 0x0391); (0xc2, 0x0392); (0xc3, 0x0393); (0xc4, 0x0394);
    (0xc5, 0x0395); (0xc6, 0x0396); (0xc7, 0x0397); (0xc8, 0x0398); (0xc9, 0x0399);
    (0xca, 0x039a); (0xcb, 0x039b); (0xcc, 0x039c); (0xcd, 0x039d); (0xce, 0x039e);
    (0xcf, 0x039f); (0xd0, 0x2426); (0xd1, 0x03a0); (0xd2, 0x03a1); (0xd3, 0x03a3);
    (0xd4, 0x03a4); (0xd5, 0x03a5); (0xd6, 0x03a6); (0xd7, 0x03a7); (0xd8, 0x03a8);
    (0xd9, 0x03a9); (0xda, 0x03ac); (0xdb, 0x03ad); (0xdc, 0x03ae); (0xdd, 0x03af);
    (0xde, 0x2426); (0xdf, 0x03cc); (0xe0, 0x03cb); (0xe1, 0x03b1); (0xe2, 0x03b2);
    (0xe3, 0x03b3); (0xe4, 0x03b4); (0xe5, 0x03b5); (0xe6, 0x03b6); (0xe7, 0x03b7);
    (0xe8, 0x03b8); (0xe9, 0x03b9); (0xea, 0x03ba); (0xeb, 0x03bb); (0xec, 0x03bc);
    (0xed, 0x03bd); (0xee, 0x03be); (0xef, 0x03bf); (0xf0, 0x2426); (0xf1, 0x03c0);
    (0xf2, 0x03c1); (0xf3, 0x03c3); (0xf4, 0x03c4); (0xf5, 0x03c5); (0xf6, 0x03c6);
    (0xf7, 0x03c7); (0xf8, 0x03c8); (0xf9, 0x03c9); (0xfa, 0x03c2); (0xfb, 0x03cd);
    (0xfc, 0x03ce); (0xfd, 0x0384); (0xfe, 0x2426) ].

Definition DecHebrew_replacements : list (wchar * wchar) :=
  [ (0xa4, 0x2426); (0xa6, 0x2426); (0xa8, 0x00a4); (0xac, 0x2426); (0xad, 0x2426);
    (0xae, 0x2426); (0xaf, 0x2426); (0xb4, 0x2426); (0xb8, 0x2426); (0xbe, 0x2426);
    (0xc0, 0x2426); (0xc1, 0x2426); (0xc2, 0x2426); (0xc3, 0x2426); (0xc4, 0x2426);
    (0xc5, 0x2426); (0xc6, 0x2426); (0xc7, 0x2426); (0xc8, 0x2426); (0xc9, 0x2426);
    (0xca, 0x2426); (0xcb, 0x2426); (0xcc, 0x2426); (0xcd, 0x2426); (0xce, 0x2426);
    (0xcf, 0x2426); (0xd0, 0x2426); (0xd1, 0x2426); (0xd2, 0x2426); (0xd3, 0x2426);
    (0xd4, 0x2426); (0xd5, 0x2426); (0xd6, 0x2426); (0xd7, 0x2426); (0xd8, 0x2426);
    (0xd9, 0x2426); (0xda, 0x2426); (0xdb, 0x2426); (0xdc, 0x2426); (0xdd, 0x2426);
    (0xde, 0x2426); (0xdf, 0x2426); (0xe0, 0x05d0); (0xe1, 0x05d1); (0xe2, 0x05d2);
    (0xe3, 0x05d3); (0xe4, 0x05d4); (0xe5, 0x05d5); (0xe6, 0x05d6); (0xe7, 0x05d7);
    (0xe8, 0x05d8); (0xe9, 0x05d9); (0xea, 0x05da); (0xeb, 0x05db); (0xec, 0x05dc);
    (0xed, 0x05dd); (0xee, 0x05de); (0xef, 0x05df); (0xf0, 0x05e0); (0xf1, 0x05e1);
    (0xf2, 0x05e2); (0xf3, 0x05e3); (0xf4, 0x05e4); (0xf5, 0x05e5); (0xf6, 0x05e6);
    (0xf7, 0x05e7); (0xf8, 0x05e8); (0xf9, 0x05e9); (0xfa, 0x05ea); (0xfb, 0x2426);
    (0xfc, 0x2426); (0xfd, 0x2426); (0xfe, 0x2426) ].

Definition DecTurkish_replacements : list (wchar * wchar) :=
  [ (0xa4, 0x2426); (0xa6, 0x2426); (0xa8, 0x00a4); (0xac, 0x2426); (0xad, 0x2426);
    (0xae, 0x0130); (0xaf, 0x2426); (0xb4, 0x2426); (0xb8, 0x2426); (0xbe, 0x0131);
    (0xd0, 0x011e); (0xd7, 0x0152); (0xdd, 0x0178); (0xde, 0x015e); (0xf0, 0x011f);
    (0xf7, 0x0153); (0xfd, 0x00ff); (0xfe, 0x015f) ].

Definition BritishNrcs_replacements : list (wchar * wchar) :=
  [ (0x23, 0x00a3) ].

Definition DutchNrcs_replacements : list (wchar * wchar) :=
  [ (0x23, 0x00a3); (0x40, 0x00be); (0x5b, 0x0133); (0x5c, 0x00bd); (0x5d, 0x007c);
    (0x7b, 0x00a8); (0x7c, 0x0192); (0x7d, 0x00bc); (0x7e, 0x00b4) ].

Definition FinnishNrcs_replacements : list (wchar * wchar) :=
  [ (0x5b, 0x00c4); (0x5c, 0x00d6); (0x5d, 0x00c5); (0x5e, 0x00dc); (0x60, 0x00e9);
    (0x7b, 0x00e4); (0x7c, 0x00f6); (0x7d, 0x00e5); (0x7e, 0x00fc) ].

Definition FrenchNrcs_replacements : list (wchar * wchar) :=
  [ (0x23, 0x00a3); (0x40, 0x00e0); (0x5b, 0x00b0); (0x5c, 0x00e7); (0x5d, 0x00a7);
    (0x7b, 0x00e9); (0x7c, 0x00f9); (0x7d, 0x00e8); (0x7e, 0x00a8) ].

Definition FrenchNrcsIso_replacements : list (wchar * wchar) :=
  [ (0x23, 0x00a3); (0x40, 0x00e0); (0x5b, 0x00b0); (0x5c, 0x00e7); (0x5d, 0x00a7);
    (0x60, 0x00b5); (0x7b, 0x00e9); (0x7c, 0x00f9); (0x7d, 0x00e8); (0x7e, 0x00a8) ].

Definition FrenchCanadianNrcs_replacements : list (wchar * wchar) :=
  [ (0x40, 0x00e0); (0x5b, 0x00e2); (0x5c, 0x00e7); (0x5d, 0x00ea); (0x5e, 0x00ee);
    (0x60, 0x00f4); (0x7b, 0x00e9); (0x7c, 0x00f9); (0x7d, 0x00e8); (0x7e, 0x00fb) ].

Definition GermanNrcs_replacements : list (wchar * wchar) :=
  [ (0x40, 0x00a7); (0x5b, 0x00c4); (0x5c, 0x00d6); (0x5d, 0x00dc); (0x7b, 0x00e4);
    (0x7c, 0x00f6); (0x7d, 0x00fc); (0x7e, 0x00df) ].

Definition GreekNrcs_replacements : list (wchar * wchar) :=
  [ (0x40, 0x03ca); (0x41, 0x0391); (0x42, 0x0392); (0x43, 0x0393); (0x44, 0x0394);
    (0x45, 0x0395); (0x46, 0x0396); (0x47, 0x0397); (0x48, 0x0398); (0x49, 0x0399);
    (0x4a, 0x039a); (0x4b, 0x039b); (0x4c, 0x039c); (0x4d, 0x039d); (0x4e, 0x039e);
    (0x4f, 0x039f); (0x50, 0x2426); (0x51, 0x03a0); (0x52, 0x03a1); (0x53, 0x03a3);
    (0x54, 0x03a4); (0x55, 0x03a5); (0x56, 0x03a6); (0x57, 0x03a7); (0x58, 0x03a8);
    (0x59, 0x03a9); (0x5a, 0x03ac); (0x5b, 0x03ad); (0x5c, 0x03ae); (0x5d, 0x03af);
    (0x5e, 0x2426); (0x5f, 0x03cc); (0x60, 0x03cb); (0x61, 0x03b1); (0x62, 0x03b2);
    (0x63, 0x03b3); (0x64, 0x03b4); (0x65, 0x03b5); (0x66, 0x03b6); (0x67, 0x03b7);
    (0x68, 0x03b8); (0x69, 0x03b9); (0x6a, 0x03ba); (0x6b, 0x03bb); (0x6c, 0x03bc);
    (0x6d, 0x03bd); (0x6e, 0x03be); (0x6f, 0x03bf); (0x70, 0x2426); (0x71, 0x03c0);
    (0x72, 0x03c1); (0x73, 0x03c3); (0x74, 0x03c4); (0x75, 0x03c5); (0x76, 0x03c6);
    (0x77, 0x03c7); (0x78, 0x03c8); (0x79, 0x03c9); (0x7a, 0x03c2); (0x7b, 0x03cd);
    (0x7c, 0x03ce); (0x7d, 0x0384); (0x7e, 0x2426) ].

Definition HebrewNrcs_replacements : list (wchar * wchar) :=
  [ (0x60, 0x05d0); (0x61, 0x05d1); (0x62, 0x05d2); (0x63, 0x05d3); (0x64, 0x05d4);
    (0x65, 0x05d5); (0x66, 0x05d6); (0x67, 0x05d7); (0x68, 0x05d8); (0x69, 0x05d9);
    (0x6a, 0x05da); (0x6b, 0x05db); (0x6c, 0x05dc); (0x6d, 0x05dd); (0x6e, 0x05de);
    (0x6f, 0x05df); (0x70, 0x05e0); (0x71, 0x05e1); (0x72, 0x05e2); (0x73, 0x05e3);
    (0x74, 0x05e4); (0x75, 0x05e5); (0x76, 0x05e6); (0x77, 0x05e7); (0x78, 0x05e8);
    (0x79, 0x05e9); (0x7a, 0x05ea) ].

Definition ItalianNrcs_replacements : list (wchar * wchar) :=
  [ (0x23, 0x00a3); (0x40, 0x00a7); (0x5b, 0x00b0); (0x5c, 0x00e7); (0x5d, 0x00e9);
    (0x60, 0x00f9); (0x7b, 0x00e0); (0x7c, 0x00f2); (0x7d, 0x00e8); (0x7e, 0x00ec) ].

Definition NorwegianDanishNrcs_replacements : list (wchar * wchar) :=
  [ (0x40, 0x00c4); (0x5b, 0x00c6); (0x5c, 0x00d8); (0x5d, 0x00c5); (0x5e, 0x00dc);
    (0x60, 0x00e4); (0x7b, 0x00e6); (0x7c, 0x00f8); (0x7d, 0x00e5); (0x7e, 0x00fc) ].

Definition NorwegianDanishNrcsIso_replacements : list (wchar * wchar) :=
  [ (0x5b, 0x00c6); (0x5c, 0x00d8); (0x5d, 0x00c5); (0x7b, 0x00e6); (0x7c, 0x00f8);
    (0x7d, 0x00e5) ].

Definition PortugueseNrcs_replacements : list (wchar * wchar) :=
  [ (0x5b, 0x00c3); (0x5c, 0x00c7); (0x5d, 0x00d5); (0x7b, 0x00e3); (0x7c, 0x00e7);
    (0x7d, 0x00f5) ].

Definition RussianNrcs_replacements : list (wchar * wchar) :=
  [ (0x60, 0x042e); (0x61, 0x0410); (0x62, 0x0411); (0x63, 0x0426); (0x64, 0x0414);
    (0x65, 0x0415); (0x66, 0x0424); (0x67, 0x0413); (0x68, 0x0425); (0x69, 0x0418);
    (0x6a, 0x0419); (0x6b, 0x041a); (0x6c, 0x041b); (0x6d, 0x041c); (0x6e, 0x041d);
    (0x6f, 0x041e); (0x70, 0x041f); (0x71, 0x042f); (0x72, 0x0420); (0x73, 0x0421);
    (0x74, 0x0422); (0x75, 0x0423); (0x76, 0x0416); (0x77, 0x0412); (0x78, 0x042c);
    (0x79, 0x042b); (0x7a, 0x0417); (0x7b, 0x0428); (0x7c, 0x042d); (0x7d, 0x0429);
    (0x7e, 0x0427) ].

Definition SpanishNrcs_replacements : list (wchar * wchar) :=
  [ (0x23, 0x00a3); (0x40, 0x00a7); (0x5b, 0x00a1); (0x5c, 0x00d1); (0x5d, 0x00bf);
    (0x7b, 0x00b0); (0x7c, 0x00f1); (0x7d, 0x00e7) ].

Definition SwedishNrcs_replacements : list (wchar * wchar) :=
  [ (0x40, 0x00c9); (0x5b, 0x00c4); (0x5c, 0x00d6); (0x5d, 0x00c5); (0x5e, 0x00dc);
    (0x60, 0x00e9); (0x7b, 0x00e4); (0x7c, 0x00f6); (0x7d, 0x00e5); (0x7e, 0x00fc) ].

Definition SwissNrcs_replacements : list (wchar * wchar) :=
  [ (0x23, 0x00f9); (0x40, 0x00e0); (0x5b, 0x00e9); (0x5c, 0x00e7); (0x5d, 0x00ea);
    (0x5e, 0x00ee); (0x5f, 0x00e8); (0x60, 0x00f4); (0x7b, 0x00e4); (0x7c, 0x00f6);
    (0x7d, 0x00fc); (0x7e, 0x00fb) ].

Definition TurkishNrcs_replacements : list (wchar * wchar) :=
  [ (0x21, 0x0131); (0x26, 0x011f); (0x40, 0x0130); (0x5b, 0x015e); (0x5c, 0x00d6);
    (0x5d, 0x00c7); (0x5e, 0x00dc); (0x60, 0x011e); (0x7b, 0x015f); (0x7c, 0x00f6);
    (0x7d, 0x00e7); (0x7e, 0x00fc) ].

(** The characters of the private use area reserved for redefinable sets. *)
Definition DRCS_BASE_CHAR : wchar := 0xEF20.

(** ** The sets *)

(** The static arrays, which a view of a set points to. *)
Inductive CharSetName :=
| Ascii
| Latin1
| Latin2
| LatinCyrillic
| LatinGreek
| LatinHebrew
| Latin5
| DecSupplemental
| DecSpecialGraphics
| DecCyrillic
| DecGreek
| DecHebrew
| DecTurkish
| BritishNrcs
| DutchNrcs
| FinnishNrcs
| FrenchNrcs
| FrenchNrcsIso
| FrenchCanadianNrcs
| GermanNrcs
| GreekNrcs
| HebrewNrcs
| ItalianNrcs
| NorwegianDanishNrcs
| NorwegianDanishNrcsIso
| PortugueseNrcs
| RussianNrcs
| SpanishNrcs
| SwedishNrcs
| SwissNrcs
| TurkishNrcs
| Drcs94
| Drcs96.

#[export] Instance CharSetName_eq_dec : EqDecision CharSetName.
Proof. solve_decision. Defined.

Definition all_sets : list CharSetName :=
  [ Ascii; Latin1; Latin2; LatinCyrillic; LatinGreek; LatinHebrew;
    Latin5; DecSupplemental; DecSpecialGraphics; DecCyrillic; DecGreek; DecHebrew;
    DecTurkish; BritishNrcs; DutchNrcs; FinnishNrcs; FrenchNrcs; FrenchNrcsIso;
    FrenchCanadianNrcs; GermanNrcs; GreekNrcs; HebrewNrcs; ItalianNrcs; NorwegianDanishNrcs;
    NorwegianDanishNrcsIso; PortugueseNrcs; RussianNrcs; SpanishNrcs; SwedishNrcs; SwissNrcs;
    TurkishNrcs; Drcs94; Drcs96 ].

Definition BaseChar (s : CharSetName) : Z :=
  match s with
  | Ascii | DecSpecialGraphics | BritishNrcs | DutchNrcs | FinnishNrcs | FrenchNrcs | FrenchNrcsIso
  | FrenchCanadianNrcs | GermanNrcs | GreekNrcs | HebrewNrcs | ItalianNrcs | NorwegianDanishNrcs | NorwegianDanishNrcsIso
  | PortugueseNrcs | RussianNrcs | SpanishNrcs | SwedishNrcs | SwissNrcs | TurkishNrcs => 0x20
  | Drcs94 | Drcs96 => DRCS_BASE_CHAR
  | _ => 0xA0
  end.

(** The number of entries. *)
Definition Size (s : CharSetName) : Z :=
  match s with
  | Latin1 | Latin2 | LatinCyrillic | LatinGreek | LatinHebrew | Latin5 | Drcs96 => 96
  | _ => 95
  end.

Definition replacements (s : CharSetName) : list (wchar * wchar) :=
  match s with
  | Ascii => Ascii_replacements
  | Latin1 => Latin1_replacements
  | Latin2 => Latin2_replacements
  | LatinCyrillic => LatinCyrillic_replacements
  | LatinGreek => LatinGreek_replacements
  | LatinHebrew => LatinHebrew_replacements
  | Latin5 => Latin5_replacements
  | DecSupplemental => DecSupplemental_replacements
  | DecSpecialGraphics => DecSpecialGraphics_replacements
  | DecCyrillic => DecCyrillic_replacements
  | DecGreek => DecGreek_replacements
  | DecHebrew => DecHebrew_replacements
  | DecTurkish => DecTurkish_replacements
  | BritishNrcs => BritishNrcs_replacements
  | DutchNrcs => DutchNrcs_replacements
  | FinnishNrcs => FinnishNrcs_replacements
  | FrenchNrcs => FrenchNrcs_replacements
  | FrenchNrcsIso => FrenchNrcsIso_replacements
  | FrenchCanadianNrcs => FrenchCanadianNrcs_replacements
  | GermanNrcs => GermanNrcs_replacements
  | GreekNrcs => GreekNrcs_replacements
  | HebrewNrcs => HebrewNrcs_replacements
  | ItalianNrcs => ItalianNrcs_replacements
  | NorwegianDanishNrcs => NorwegianDanishNrcs_replacements
  | NorwegianDanishNrcsIso => NorwegianDanishNrcsIso_replacements
  | PortugueseNrcs => PortugueseNrcs_replacements
  | RussianNrcs => RussianNrcs_replacements
  | SpanishNrcs => SpanishNrcs_replacements
  | SwedishNrcs => SwedishNrcs_replacements
  | SwissNrcs => SwissNrcs_replacements
  | TurkishNrcs => TurkishNrcs_replacements
  | Drcs94 => [(DRCS_BASE_CHAR, 0x20)]
  | Drcs96 => []
  end.

(** The contents of a set. *)
Definition _translationTable (s : CharSetName) : wstring :=
  CharSet (BaseChar s) (Size s) (replacements s).

(** ** What the sets hold *)

(** A property of every set, by evaluation. *)
Lemma all_sets_forall (P : CharSetName -> bool) :
  forallb P all_sets = true -> forall s, P s = true.
Proof. rewrite List.forallb_forall. intros H s. apply H. destruct s; cbn; tauto. Qed.

(** A property of every entry of every set, by evaluation. *)
Lemma all_entries_forall (P : CharSetName -> Z -> bool) :
  forallb (fun s => forallb (P s) (seqZ 0 (Size s))) all_sets = true ->
  forall s i, 0 <= i < Size s -> P s i = true.
Proof.
  intros H s i Hi. pose proof (all_sets_forall _ H s) as Hs. cbv beta in Hs.
  rewrite List.forallb_forall in Hs. apply Hs, list_elem_of_In, elem_of_seqZ. lia.
Qed.

Lemma Size_cases s : Size s = 95 \/ Size s = 96.
Proof. destruct s; cbn; auto. Qed.

Lemma table_length s : length (_translationTable s) = Z.to_nat (Size s).
Proof.
  unfold _translationTable, CharSet.
  assert (forall reps t, length (foldl (fun table r =>
            <[Z.to_nat (r.1 - BaseChar s) := r.2]> table) t reps) = length (t : wstring)) as ->.
  { induction reps as [|r reps IH]; intros t; [done|]. cbn. by rewrite IH, length_insert. }
  by rewrite length_map, length_seqZ.
Qed.

Lemma table_nonempty s : _translationTable s <> [].
Proof.
  intros E. pose proof (table_length s) as H. rewrite E in H. cbn in H.
  destruct (Size_cases s); lia.
Qed.

(** Every replacement is of a character of the set, and no character is replaced
    twice. *)
Lemma replacements_in_range s k v :
  (k, v) ∈ replacements s -> BaseChar s <= k < BaseChar s + Size s /\ is_wchar v.
Proof.
  intros Hin.
  pose proof (all_sets_forall (fun s => forallb (fun r =>
    (BaseChar s <=? r.1) && (r.1 <? BaseChar s + Size s) && (0 <=? r.2) && (r.2 <? 2 ^ 16))
    (replacements s)) ltac:(vm_compute; reflexivity) s) as H.
  cbv beta in H. rewrite List.forallb_forall in H.
  specialize (H (k, v) (proj1 (list_elem_of_In _ _) Hin)). cbn [fst snd] in H.
  unfold is_wchar. bool_prop. lia.
Qed.

Lemma replacements_distinct s : NoDup (replacements s).*1.
Proof.
  assert (forallb (fun s => bool_decide (NoDup (replacements s).*1)) all_sets = true) as H
    by (vm_compute; reflexivity).
  apply (bool_decide_eq_true_1 _), (all_sets_forall _ H).
Qed.

(** The replacement of a character, or the character itself. *)
Definition replaced (s : CharSetName) (c : wchar) : wchar :=
  match find (fun r => r.1 =? c) (replacements s) with
  | Some r => r.2
  | None => c
  end.

(** An entry is the replacement of its character. *)
Lemma table_lookup s i :
  0 <= i < Size s ->
  _translationTable s !! Z.to_nat i = Some (replaced s (BaseChar s + i)).
Proof.
  intros Hi.
  assert (forallb (fun s => forallb (fun i => bool_decide
    (_translationTable s !! Z.to_nat i = Some (replaced s (BaseChar s + i))))
    (seqZ 0 (Size s))) all_sets = true) as H by (vm_compute; reflexivity).
  apply (bool_decide_eq_true_1 _), (all_entries_forall _ H s i Hi).
Qed.

(** ASCII and Latin-1 leave their characters as they are. *)
Lemma Ascii_identity i : 0 <= i < 95 -> _translationTable Ascii !! Z.to_nat i = Some (0x20 + i).
Proof. intros Hi. by rewrite table_lookup by done. Qed.

Lemma Latin1_identity i : 0 <= i < 96 -> _translationTable Latin1 !! Z.to_nat i = Some (0xA0 + i).
Proof. intros Hi. by rewrite table_lookup by done. Qed.

(** The sets of 94 characters have a blank in the entry that is not to be mapped. *)
Lemma first_entry_blank s :
  Size s = 95 -> replaced s (BaseChar s) = 0x20 \/ replaced s (BaseChar s) = 0xA0.
Proof.
  intros Hs. pose proof (all_sets_forall (fun s => negb (Size s =? 95) ||
    (replaced s (BaseChar s) =? 0x20) || (replaced s (BaseChar s) =? 0xA0))
    ltac:(vm_compute; reflexivity) s) as H.
  cbv beta in H. rewrite Hs in H. cbn in H. bool_prop. lia.
Qed.

(** No set holds a control character or DEL. *)
Lemma entry_printable s c :
  BaseChar s <= c < BaseChar s + Size s ->
  0x20 <= replaced s c < 0x7F \/ 0xA0 <= replaced s c < 2 ^ 16.
Proof.
  intros Hc. pose proof (all_entries_forall (fun s i =>
    let r := replaced s (BaseChar s + i) in
    (0x20 <=? r) && (r <? 0x7F) || (0xA0 <=? r) && (r <? 2 ^ 16))
    ltac:(vm_compute; reflexivity) s (c - BaseChar s) ltac:(lia)) as H.
  cbv beta zeta in H. rewrite Zplus_minus in H.
  apply orb_true_iff in H. destruct H; bool_prop; lia.
Qed.
