(* ===== verification/TerminalOutput.v ===== *)
(** * Translation of printed characters

    Models [src/src/terminal/adapter/terminalOutput.{hpp,cpp}]: the four G-sets, the
    locking shifts that invoke two of them as GL and GR, the single shift, the
    designation of sets by identifier and the redefinable set (DRCS).

    [TranslateKey] works on cached views that are left empty where a set does not
    change its characters.  The theorems show that the caches agree with the G-sets
    in every state the operations reach, so that [TranslateKey] is the plain lookup
    in the invoked G-set; that a single shift lasts for one character; that text
    needs no translation exactly when the code says so; and what a redefinition of
    the soft font does to the G-sets. *)

From S2P Require Import Prelude Effects DispatchTypes Charsets.

Local Open Scope Z_scope.

(** A [std::wstring_view] of a set, [None] the empty view. *)
Abbreviation view := (option CharSetName) (only parsing).

Definition view_empty (v : view) : bool :=
  match v with Some _ => false | None => true end.

Definition view_size (v : view) : Z :=
  match v with Some s => Size s | None => 0 end.

(** [std::wstring_view::at] *)
Definition view_at {S} (v : view) (i : Z) : M S wchar :=
  match v with
  | Some s =>
      match _translationTable s !! Z.to_nat i with
      | Some c => ret c
      | None => throw StdException
      end
  | None => throw StdException
  end.

(** Views of sets are compared by the address of the data. *)
Definition view_eqb (v w : view) : bool := bool_decide (v = w).

Record TerminalOutput := mkTerminalOutput {
  _gsetTranslationTables : list view;
  _glSetNumber : Z;
  _grSetNumber : Z;
  _glTranslationTable : view;
  _grTranslationTable : view;
  _ssTranslationTable : view;
  _grTranslationEnabled : bool;
  _drcsId : VTID;
  _drcsTranslationTable : view
}.

Module TermOut.

Definition init : TerminalOutput :=
  mkTerminalOutput [Some Ascii; Some Ascii; Some Ascii; Some Ascii] 0 2
    None None None false 0 None.

(** ** Assignments to the members *)

Definition set_gsets g t :=
  mkTerminalOutput g (_glSetNumber t) (_grSetNumber t) (_glTranslationTable t)
    (_grTranslationTable t) (_ssTranslationTable t) (_grTranslationEnabled t)
    (_drcsId t) (_drcsTranslationTable t).

Definition set_gl n v t :=
  mkTerminalOutput (_gsetTranslationTables t) n (_grSetNumber t) v
    (_grTranslationTable t) (_ssTranslationTable t) (_grTranslationEnabled t)
    (_drcsId t) (_drcsTranslationTable t).

Definition set_gr n v t :=
  mkTerminalOutput (_gsetTranslationTables t) (_glSetNumber t) n (_glTranslationTable t)
    v (_ssTranslationTable t) (_grTranslationEnabled t)
    (_drcsId t) (_drcsTranslationTable t).

Definition set_ss v t :=
  mkTerminalOutput (_gsetTranslationTables t) (_glSetNumber t) (_grSetNumber t)
    (_glTranslationTable t) (_grTranslationTable t) v (_grTranslationEnabled t)
    (_drcsId t) (_drcsTranslationTable t).

Definition set_grEnabled b t :=
  mkTerminalOutput (_gsetTranslationTables t) (_glSetNumber t) (_grSetNumber t)
    (_glTranslationTable t) (_grTranslationTable t) (_ssTranslationTable t) b
    (_drcsId t) (_drcsTranslationTable t).

Definition set_drcs id v t :=
  mkTerminalOutput (_gsetTranslationTables t) (_glSetNumber t) (_grSetNumber t)
    (_glTranslationTable t) (_grTranslationTable t) (_ssTranslationTable t)
    (_grTranslationEnabled t) id v.

(** [_gsetTranslationTables.at(gsetNumber)], read and assigned. *)
Definition gset_at (gsetNumber : Z) : M TerminalOutput view := fun t =>
  match _gsetTranslationTables t !! Z.to_nat gsetNumber with
  | Some v => (t, Ok v)
  | None => (t, Throw StdException)
  end.

Definition set_gset_at (gsetNumber : Z) (v : view) : M TerminalOutput unit := fun t =>
  if decide (Z.to_nat gsetNumber < length (_gsetTranslationTables t))%nat
  then (set_gsets (<[Z.to_nat gsetNumber := v]> (_gsetTranslationTables t)) t, Ok tt)
  else (t, Throw StdException).

(** ** Shifts *)

(** The assignments of [_glSetNumber] and of [_grSetNumber] come before the access
    that may throw. *)
Definition LockingShift (gsetNumber : Z) : M TerminalOutput bool :=
  modify (fun t => set_gl gsetNumber (_glTranslationTable t) t) ;;
  table <- gset_at gsetNumber ;;
  modify (set_gl gsetNumber (if view_eqb table (Some Ascii) then None else table)) ;;
  ret true.

Definition LockingShiftRight (gsetNumber : Z) : M TerminalOutput bool :=
  modify (fun t => set_gr gsetNumber (_grTranslationTable t) t) ;;
  table <- gset_at gsetNumber ;;
  enabled <- get _grTranslationEnabled ;;
  modify (set_gr gsetNumber
            (if view_eqb table (Some Latin1) || negb enabled then None else table)) ;;
  ret true.

Definition SingleShift (gsetNumber : Z) : M TerminalOutput bool :=
  table <- gset_at gsetNumber ;;
  modify (set_ss table) ;;
  ret true.

(** ** Designations *)

Definition table94 : list (wstring * CharSetName) :=
  [ (L"B", Ascii); (L"1", Ascii);
    (L"0", DecSpecialGraphics); (L"2", DecSpecialGraphics);
    (L"<", DecSupplemental); (L"A", BritishNrcs); (L"4", DutchNrcs);
    (L"5", FinnishNrcs); (L"C", FinnishNrcs); (L"R", FrenchNrcs);
    (L"f", FrenchNrcsIso); (L"9", FrenchCanadianNrcs); (L"Q", FrenchCanadianNrcs);
    (L"K", GermanNrcs); (L"Y", ItalianNrcs);
    (L"6", NorwegianDanishNrcs); (L"E", NorwegianDanishNrcs);
    (L"`", NorwegianDanishNrcsIso); (L"Z", SpanishNrcs);
    (L"7", SwedishNrcs); (L"H", SwedishNrcs); (L"=", SwissNrcs);
    (L"&4", DecCyrillic); (L"&5", RussianNrcs);
    ([34; 63], DecGreek); ([34; 62], GreekNrcs); ([34; 52], DecHebrew);
    (L"%=", HebrewNrcs); (L"%0", DecTurkish); (L"%2", TurkishNrcs);
    (L"%5", DecSupplemental); (L"%6", PortugueseNrcs) ].

Definition table96 : list (wstring * CharSetName) :=
  [ (L"A", Latin1); (L"<", Latin1); (L"B", Latin2); (L"L", LatinCyrillic);
    (L"F", LatinGreek); (L"H", LatinHebrew); (L"M", Latin5) ].

(** The [switch] over the identifier, whose [default] is the empty view. *)
Definition switch (cases : list (wstring * CharSetName)) (charset : VTID) : view :=
  option_map snd (find (fun c => VTID_FromString c.1 =? charset) cases).

Definition _LookupTranslationTable94 (charset : VTID) (t : TerminalOutput) : view :=
  if charset =? _drcsId t then _drcsTranslationTable t else switch table94 charset.

Definition _LookupTranslationTable96 (charset : VTID) (t : TerminalOutput) : view :=
  if charset =? _drcsId t then _drcsTranslationTable t else switch table96 charset.

Definition _SetTranslationTable (gsetNumber : Z) (translationTable : view)
  : M TerminalOutput bool :=
  set_gset_at gsetNumber translationTable ;;
  gl <- get _glSetNumber ;;
  b <- LockingShift gl ;;
  if b : bool then gr <- get _grSetNumber ;; LockingShiftRight gr else ret false.

Definition Designate94Charset (gsetNumber : Z) (charset : VTID) : M TerminalOutput bool :=
  translationTable <- get (_LookupTranslationTable94 charset) ;;
  if view_empty translationTable then ret false
  else _SetTranslationTable gsetNumber translationTable.

Definition Designate96Charset (gsetNumber : Z) (charset : VTID) : M TerminalOutput bool :=
  translationTable <- get (_LookupTranslationTable96 charset) ;;
  if view_empty translationTable then ret false
  else _SetTranslationTable gsetNumber translationTable.

(** What one turn of the loop of [_ReplaceDrcsTable] makes of the table of a G-set. *)
Definition replaced_gset (oldTable newTable : view) (gsetNumber : Z) (gsetTable : view) : view :=
  let gsetTable :=
    if view_eqb gsetTable (Some Drcs94) || view_eqb gsetTable (Some Drcs96)
    then (if gsetNumber <? 2 then Some Ascii else Some Latin1)
    else gsetTable in
  if view_eqb gsetTable oldTable then newTable else gsetTable.

Definition _ReplaceDrcsTable (oldTable newTable : view) : M TerminalOutput unit :=
  if view_eqb newTable oldTable then ret tt
  else
    iterM (fun gsetNumber =>
             gsetTable <- gset_at gsetNumber ;;
             set_gset_at gsetNumber (replaced_gset oldTable newTable gsetNumber gsetTable))
      [0; 1; 2; 3] ;;
    gl <- get _glSetNumber ;;
    LockingShift gl ;;
    gr <- get _grSetNumber ;;
    LockingShiftRight gr ;;
    ret tt.

Definition SetDrcs94Designation (charset : VTID) : M TerminalOutput unit :=
  old <- get (_LookupTranslationTable94 charset) ;;
  _ReplaceDrcsTable old (Some Drcs94) ;;
  modify (set_drcs charset (Some Drcs94)).

Definition SetDrcs96Designation (charset : VTID) : M TerminalOutput unit :=
  old <- get (_LookupTranslationTable96 charset) ;;
  _ReplaceDrcsTable old (Some Drcs96) ;;
  modify (set_drcs charset (Some Drcs96)).

Definition EnableGrTranslation (enabled : bool) : M TerminalOutput unit :=
  modify (set_grEnabled enabled) ;;
  let defaultTranslationTable := if enabled then Some Latin1 else Some Ascii in
  set_gset_at 2 defaultTranslationTable ;;
  set_gset_at 3 defaultTranslationTable ;;
  gl <- get _glSetNumber ;;
  LockingShift gl ;;
  gr <- get _grSetNumber ;;
  LockingShiftRight gr ;;
  ret tt.

(** ** Translation *)

Definition NeedToTranslate (t : TerminalOutput) : bool :=
  negb (view_empty (_glTranslationTable t)) || negb (view_empty (_grTranslationTable t))
  || negb (view_empty (_ssTranslationTable t)).

(** [wch - 0x20u] is an unsigned difference of 32 bits.  [_ssTranslationTable] is
    [mutable]. *)
Definition TranslateKey (wch : wchar) : M TerminalOutput wchar :=
  ss <- get _ssTranslationTable ;;
  gl <- get _glTranslationTable ;;
  gr <- get _grTranslationTable ;;
  if negb (view_empty ss)
  then
    wchFound <- (if u32 (wch - 0x20) <? view_size ss then view_at ss (u32 (wch - 0x20))
                 else if u32 (wch - 0xA0) <? view_size ss then view_at ss (u32 (wch - 0xA0))
                 else ret wch) ;;
    modify (set_ss None) ;;
    ret wchFound
  else if u32 (wch - 0x20) <? view_size gl then view_at gl (u32 (wch - 0x20))
  else if u32 (wch - 0xA0) <? view_size gr then view_at gr (u32 (wch - 0xA0))
  else ret wch.


(** ** The G-sets as a specification of the translation *)

(** The set designated as G[n]. *)
Definition gset (t : TerminalOutput) (n : Z) : CharSetName :=
  default Ascii (default None (_gsetTranslationTables t !! Z.to_nat n)).

Definition is_gset (n : Z) : Prop := 0 <= n < 4.

(** The cached views as functions of the G-sets. *)
Definition gl_cache (t : TerminalOutput) : view :=
  let s := gset t (_glSetNumber t) in if decide (s = Ascii) then None else Some s.

Definition gr_cache (t : TerminalOutput) : view :=
  let s := gset t (_grSetNumber t) in
  if decide (s = Latin1 \/ _grTranslationEnabled t = false) then None else Some s.

Definition refresh (t : TerminalOutput) : TerminalOutput :=
  set_gr (_grSetNumber t) (gr_cache t) (set_gl (_glSetNumber t) (gl_cache t) t).

(** The invariant: four G-sets, each with a set; valid shifts; fresh caches; the
    soft font is one of the two DRCS tables or none. *)
Record gsets_wf (t : TerminalOutput) : Prop := {
  wf_gsets : exists a b c d,
    _gsetTranslationTables t = [Some a; Some b; Some c; Some d];
  wf_gl : is_gset (_glSetNumber t);
  wf_gr : is_gset (_grSetNumber t);
  wf_drcs : _drcsTranslationTable t = None /\ _drcsId t = 0 \/
            _drcsTranslationTable t = Some Drcs94 \/ _drcsTranslationTable t = Some Drcs96
}.

(** A G-set with a soft font has the current one. *)
Definition soft_font_current (t : TerminalOutput) : Prop :=
  forall n, is_gset n -> gset t n = Drcs94 \/ gset t n = Drcs96 ->
  _drcsTranslationTable t = Some (gset t n).

Definition term_out_wf (t : TerminalOutput) : Prop :=
  gsets_wf t /\ refresh t = t /\ soft_font_current t.

(** The character a set of the terminal shows for position [i]. *)
Definition set_char (s : CharSetName) (i : Z) (wch : wchar) : wchar :=
  if (0 <=? i) && (i <? Size s) then replaced s (BaseChar s + i) else wch.

(** What a character is shown as: a single shift applies to both halves of the code
    table; otherwise the left half shows GL, and the right half shows GR where its
    translation is enabled. *)
Definition translation (t : TerminalOutput) (wch : wchar) : wchar :=
  let left := (0x20 <=? wch) && (wch <? 0x80) in
  let right := (0xA0 <=? wch) && (wch <? 0x100) in
  match _ssTranslationTable t with
  | Some s =>
      if left then set_char s (wch - 0x20) wch
      else if right then set_char s (wch - 0xA0) wch else wch
  | None =>
      if left then set_char (gset t (_glSetNumber t)) (wch - 0x20) wch
      else if right && _grTranslationEnabled t
           then set_char (gset t (_grSetNumber t)) (wch - 0xA0) wch
           else wch
  end.

(** ** Each operation on the G-sets *)

Ltac gset_cases H :=
  let E := fresh in
  match type of H with
  | is_gset ?n =>
      assert (n = 0 \/ n = 1 \/ n = 2 \/ n = 3) as E by (unfold is_gset in H; lia);
      destruct E as [->|[->|[->| ->]]]
  end.

Lemma gset_at_spec t n :
  gsets_wf t -> is_gset n -> gset_at n t = (t, Ok (Some (gset t n))).
Proof.
  intros [(a & b & c & d & E) _ _ _] Hn. unfold gset_at, gset. rewrite E.
  gset_cases Hn; reflexivity.
Qed.

Lemma gsets_wf_set t l :
  gsets_wf t -> length l = 4%nat -> gsets_wf (set_gsets (Some <$> l) t).
Proof.
  intros [_ ? ? ?] Hl. destruct l as [|a [|b [|c [|d [|]]]]]; try discriminate Hl.
  constructor; cbn; eauto 10.
Qed.

Lemma set_gset_at_spec t n s :
  gsets_wf t -> is_gset n ->
  exists t', set_gset_at n (Some s) t = (t', Ok tt) /\ gsets_wf t' /\
    t' = set_gsets (<[Z.to_nat n := Some s]> (_gsetTranslationTables t)) t.
Proof.
  intros Hwf Hn. pose proof Hwf as [(a & b & c & d & E) ? ? ?]. unfold set_gset_at.
  rewrite decide_True by (rewrite E; cbn; unfold is_gset in Hn; lia).
  eexists; split; [reflexivity|]. split; [|reflexivity]. rewrite E.
  change [Some a; Some b; Some c; Some d] with (Some <$> [a; b; c; d]).
  rewrite <- list_fmap_insert. apply gsets_wf_set; [done|]. by rewrite length_insert.
Qed.

Lemma LockingShift_spec t n :
  gsets_wf t -> is_gset n ->
  LockingShift n t
  = (set_gl n (if decide (gset t n = Ascii) then None else Some (gset t n)) t, Ok true).
Proof.
  intros Hwf Hn. unfold LockingShift. cbn [bind modify].
  set (t1 := set_gl n _ t). assert (gsets_wf t1) by (destruct Hwf; by constructor).
  rewrite (bind_Ok _ _ _ _ _ (gset_at_spec t1 n ltac:(done) Hn)). cbn.
  unfold view_eqb. change (gset t1 n) with (gset t n). f_equal. unfold t1, set_gl. cbn.
  f_equal. destruct (decide (gset t n = Ascii)) as [->|Hne]; [done|].
  rewrite bool_decide_eq_false_2 by congruence. done.
Qed.

Lemma LockingShiftRight_spec t n :
  gsets_wf t -> is_gset n ->
  LockingShiftRight n t
  = (set_gr n (if decide (gset t n = Latin1 \/ _grTranslationEnabled t = false)
               then None else Some (gset t n)) t, Ok true).
Proof.
  intros Hwf Hn. unfold LockingShiftRight. cbn [bind modify].
  set (t1 := set_gr n _ t). assert (gsets_wf t1) by (destruct Hwf; by constructor).
  rewrite (bind_Ok _ _ _ _ _ (gset_at_spec t1 n ltac:(done) Hn)). cbn.
  unfold view_eqb. change (gset t1 n) with (gset t n). f_equal. unfold t1, set_gr. cbn.
  f_equal. destruct (decide _) as [H1|H1].
  - destruct H1 as [->| ->]; [done|]. by rewrite orb_true_r.
  - rewrite bool_decide_eq_false_2 by intuition congruence.
    by destruct (_grTranslationEnabled t); [|exfalso; auto].
Qed.

(** The two locking shifts in a row, as the code applies them after a change. *)
Definition reapply : M TerminalOutput bool :=
  gl <- get _glSetNumber ;;
  b <- LockingShift gl ;;
  if b : bool then gr <- get _grSetNumber ;; LockingShiftRight gr else ret false.

Lemma reapply_spec t : gsets_wf t -> reapply t = (refresh t, Ok true).
Proof.
  intros Hwf. unfold reapply, refresh. cbn [bind get].
  rewrite (bind_Ok _ _ _ _ _ (LockingShift_spec t _ Hwf (wf_gl _ Hwf))). cbn [bind get].
  rewrite LockingShiftRight_spec; [done| |by apply Hwf].
  destruct Hwf. by constructor.
Qed.

Lemma reapply_shifts t :
  gsets_wf t ->
  (gl <- get _glSetNumber ;; LockingShift gl ;;
   gr <- get _grSetNumber ;; LockingShiftRight gr ;; ret tt) t = (refresh t, Ok tt).
Proof.
  intros Hwf. pose proof (reapply_spec _ Hwf) as E. unfold reapply in E. revert E.
  unfold bind, get. repeat case_match; intros; simplify_eq; done.
Qed.

Lemma refresh_wf t : gsets_wf t -> soft_font_current t -> term_out_wf (refresh t).
Proof. intros [] Hs. split; [by constructor|]. split; [by destruct t|exact Hs]. Qed.

(** A G-set replaced. *)
Definition with_gset (n : Z) (s : CharSetName) (t : TerminalOutput) : TerminalOutput :=
  set_gsets (<[Z.to_nat n := Some s]> (_gsetTranslationTables t)) t.

Lemma with_gset_wf t n s : gsets_wf t -> is_gset n -> gsets_wf (with_gset n s t).
Proof. intros Hwf Hn. by destruct (set_gset_at_spec t n s Hwf Hn) as (? & _ & ? & ->). Qed.

Lemma gset_with_gset t n s k :
  gsets_wf t -> is_gset n -> is_gset k ->
  gset (with_gset n s t) k = if decide (k = n) then s else gset t k.
Proof.
  intros [(a & b & c & d & E) _ _ _] Hn Hk. unfold gset, with_gset. cbn. rewrite E.
  gset_cases Hn; gset_cases Hk; reflexivity.
Qed.

Lemma _SetTranslationTable_spec t n s :
  gsets_wf t -> is_gset n ->
  _SetTranslationTable n (Some s) t = (refresh (with_gset n s t), Ok true).
Proof.
  intros Hwf Hn. unfold _SetTranslationTable.
  destruct (set_gset_at_spec t n s Hwf Hn) as (t' & E & Hwf' & ->).
  rewrite (bind_Ok _ _ _ _ _ E). by apply reapply_spec.
Qed.

Definition designated (found : view) (n : Z) (t : TerminalOutput) : TerminalOutput * Result bool :=
  match found with
  | Some s => (refresh (with_gset n s t), Ok true)
  | None => (t, Ok false)
  end.

Lemma Designate94Charset_spec t n id :
  gsets_wf t -> is_gset n ->
  Designate94Charset n id t = designated (_LookupTranslationTable94 id t) n t.
Proof.
  intros Hwf Hn. unfold Designate94Charset. cbn [bind get].
  destruct (_LookupTranslationTable94 id t); [by apply _SetTranslationTable_spec|done].
Qed.

Lemma Designate96Charset_spec t n id :
  gsets_wf t -> is_gset n ->
  Designate96Charset n id t = designated (_LookupTranslationTable96 id t) n t.
Proof.
  intros Hwf Hn. unfold Designate96Charset. cbn [bind get].
  destruct (_LookupTranslationTable96 id t); [by apply _SetTranslationTable_spec|done].
Qed.

Lemma EnableGrTranslation_spec t b :
  gsets_wf t ->
  EnableGrTranslation b t
  = (let s := if b then Latin1 else Ascii in
     refresh (with_gset 3 s (with_gset 2 s (set_grEnabled b t))), Ok tt).
Proof.
  intros Hwf. unfold EnableGrTranslation. cbn [bind modify]. cbv zeta.
  set (t1 := set_grEnabled b t). assert (gsets_wf t1) as H1 by (destruct Hwf; by constructor).
  set (s := if b then Latin1 else Ascii).
  replace (if b then Some Latin1 else Some Ascii) with (Some s) by (by destruct b).
  destruct (set_gset_at_spec t1 2 s H1 ltac:(done)) as (t2 & E2 & H2 & ->).
  rewrite (bind_Ok _ _ _ _ _ E2).
  destruct (set_gset_at_spec _ 3 s H2 ltac:(done)) as (t3 & E3 & H3 & ->).
  rewrite (bind_Ok _ _ _ _ _ E3).
  change (with_gset 3 s (with_gset 2 s t1)) with (set_gsets (<[Z.to_nat 3 := Some s]>
    (_gsetTranslationTables (with_gset 2 s t1))) (with_gset 2 s t1)).
  change (with_gset 2 s t1) with (set_gsets (<[Z.to_nat 2 := Some s]>
    (_gsetTranslationTables t1)) t1) in *.
  by apply reapply_shifts.
Qed.

(** The redefinition of the soft font: every G-set goes through [replaced_gset]. *)
Definition replace_all (old new : view) (t : TerminalOutput) : TerminalOutput :=
  set_gsets (imap (fun n v => replaced_gset old new (Z.of_nat n) v)
               (_gsetTranslationTables t)) t.

Lemma replaced_gset_some old new n s :
  exists s', replaced_gset old (Some new) n (Some s) = Some s'.
Proof.
  unfold replaced_gset. destruct (n <? 2), (view_eqb (Some s) _ || _);
    case_match; eauto.
Qed.

Lemma replace_all_wf old new t : gsets_wf t -> gsets_wf (replace_all old (Some new) t).
Proof.
  intros [(a & b & c & d & E) ? ? ?]. constructor; try done.
  destruct (replaced_gset_some old new 0 a) as [a' Ha], (replaced_gset_some old new 1 b) as [b' Hb],
    (replaced_gset_some old new 2 c) as [c' Hc], (replaced_gset_some old new 3 d) as [d' Hd].
  exists a', b', c', d'. cbn [_gsetTranslationTables replace_all set_gsets]. rewrite E.
  rewrite <- Ha, <- Hb, <- Hc, <- Hd. reflexivity.
Qed.

Lemma _ReplaceDrcsTable_spec t old new :
  gsets_wf t ->
  _ReplaceDrcsTable old (Some new) t
  = (if decide (old = Some new) then t else refresh (replace_all old (Some new) t), Ok tt).
Proof.
  intros Hwf. unfold _ReplaceDrcsTable, view_eqb.
  destruct (decide (old = Some new)) as [->|Hne].
  { by rewrite bool_decide_eq_true_2 by done. }
  rewrite bool_decide_eq_false_2 by congruence.
  pose proof (replace_all_wf old new t Hwf) as Hwf'.
  assert (iterM (fun gsetNumber => gsetTable <- gset_at gsetNumber ;;
            set_gset_at gsetNumber (replaced_gset old (Some new) gsetNumber gsetTable))
            [0; 1; 2; 3] t = (replace_all old (Some new) t, Ok tt)) as E.
  { destruct Hwf as [(a & b & c & d & E) _ _ _]. destruct t; cbn in E; subst. reflexivity. }
  rewrite (bind_Ok _ _ _ _ _ E).
  by apply reapply_shifts.
Qed.

(** ** The translation is the lookup in the G-sets *)

Lemma u32_sub_ltb wch k n :
  is_wchar wch -> 0 <= k <= 0x100 -> 0 <= n <= 96 ->
  (u32 (wch - k) <? n) = (k <=? wch) && (wch - k <? n).
Proof.
  unfold is_wchar, wrapu. intros Hw Hk Hn. destruct (Z.leb_spec k wch).
  - by rewrite Z.mod_small by lia.
  - rewrite <- (Z.mod_unique_pos (wch - k) (2 ^ 32) (-1) (wch - k + 2 ^ 32)) by lia.
    cbn [andb]. apply Z.ltb_ge. lia.
Qed.

Lemma view_at_spec {S} (s : CharSetName) i (t : S) :
  0 <= i < Size s -> view_at (Some s) i t = (t, Ok (replaced s (BaseChar s + i))).
Proof. intros Hi. cbn. by rewrite table_lookup. Qed.

Lemma Size_bound s : 95 <= Size s <= 96.
Proof. destruct (Size_cases s); lia. Qed.

(** One test of [TranslateKey]: the entry of a view at the position of a character in
    the half of the code table that starts at [k], if there is one. *)
Definition view_char (v : view) (k : Z) (wch : wchar) : option wchar :=
  match v with
  | Some s =>
      if (k <=? wch) && (wch - k <? Size s) then Some (replaced s (BaseChar s + (wch - k)))
      else None
  | None => None
  end.

Lemma view_char_spec {S} (v : view) wch k (m : M S wchar) t :
  is_wchar wch -> 0 <= k <= 0x100 ->
  (if u32 (wch - k) <? view_size v then view_at v (u32 (wch - k)) else m) t
  = match view_char v k wch with Some c => (t, Ok c) | None => m t end.
Proof.
  intros Hw Hk. destruct v as [s|]; cbn [view_size view_char].
  - pose proof (Size_bound s). rewrite u32_sub_ltb by (done || lia).
    destruct ((k <=? wch) && (wch - k <? Size s)) eqn:E; [|done]. bool_prop.
    unfold wrapu. unfold is_wchar in Hw. rewrite Z.mod_small by lia.
    apply view_at_spec. lia.
  - rewrite u32_sub_ltb by (done || lia).
    destruct (k <=? wch) eqn:E; [|done]. bool_prop. cbn.
    destruct (Z.ltb_spec (wch - k) 0); [lia|done].
Qed.

(** The translation by the cached views. *)
Definition cached_translation (t : TerminalOutput) (wch : wchar) : wchar :=
  let '(l, r) := match _ssTranslationTable t with
                 | Some s => (Some s, Some s)
                 | None => (_glTranslationTable t, _grTranslationTable t)
                 end in
  default wch (match view_char l 0x20 wch with Some c => Some c | None => view_char r 0xA0 wch end).

Lemma TranslateKey_eval t wch :
  is_wchar wch -> TranslateKey wch t = (set_ss None t, Ok (cached_translation t wch)).
Proof.
  intros Hw. unfold TranslateKey, cached_translation. cbn [bind get].
  destruct (_ssTranslationTable t) as [s|] eqn:Es; cbn [view_empty negb].
  - unfold bind at 1. rewrite view_char_spec by (done || lia).
    destruct (view_char (Some s) 32 wch); [done|].
    rewrite view_char_spec by (done || lia). by destruct (view_char (Some s) 160 wch).
  - replace (set_ss None t) with t by (destruct t; cbn in *; by subst).
    rewrite view_char_spec by (done || lia).
    destruct (view_char (_glTranslationTable t) 32 wch); [done|].
    rewrite view_char_spec by (done || lia).
    by destruct (view_char (_grTranslationTable t) 160 wch).
Qed.

(** A set in its place, and the two sets the caches leave out. *)
Lemma view_char_left s wch :
  default wch (view_char (Some s) 0x20 wch)
  = if (0x20 <=? wch) && (wch <? 0x80) then set_char s (wch - 0x20) wch else wch.
Proof.
  pose proof (Size_bound s). unfold set_char, view_char.
  repeat case_if; bool_prop; cbn; try done; lia.
Qed.

Lemma view_char_right s wch :
  default wch (view_char (Some s) 0xA0 wch)
  = if (0xA0 <=? wch) && (wch <? 0x100) then set_char s (wch - 0xA0) wch else wch.
Proof.
  pose proof (Size_bound s). unfold set_char, view_char.
  repeat case_if; bool_prop; cbn; try done; lia.
Qed.

Lemma two_halves l r wch :
  default wch (match view_char l 0x20 wch with Some c => Some c | None => view_char r 0xA0 wch end)
  = if (0x20 <=? wch) && (wch <? 0x80) then default wch (view_char l 0x20 wch)
    else default wch (view_char r 0xA0 wch).
Proof.
  assert (forall v, (wch <? 0xA0) = true -> view_char v 0xA0 wch = None) as Hr.
  { intros [s|] E; [|done]. cbn. case_if; [|done]. bool_prop. lia. }
  assert (forall v, (0x20 <=? wch) && (wch <? 0x80) = false -> view_char v 0x20 wch = None) as Hl.
  { intros [s|] E; [|done]. pose proof (Size_bound s). cbn. case_if; [|done]. bool_prop. lia. }
  case_if.
  - rewrite Hr by (bool_prop; lia). by destruct (view_char l 0x20 wch).
  - by rewrite Hl.
Qed.

Lemma Ascii_left wch : default wch (view_char (Some Ascii) 0x20 wch) = wch.
Proof.
  cbn. case_if; [|done]. cbn. lia.
Qed.

Lemma Latin1_right wch : default wch (view_char (Some Latin1) 0xA0 wch) = wch.
Proof.
  cbn. case_if; [|done]. cbn. lia.
Qed.

Lemma fresh_caches t :
  refresh t = t -> _glTranslationTable t = gl_cache t /\ _grTranslationTable t = gr_cache t.
Proof. intros E. rewrite <- E at 1 3. by destruct t. Qed.

Lemma caches_fresh t :
  _glTranslationTable t = gl_cache t -> _grTranslationTable t = gr_cache t -> refresh t = t.
Proof. intros H1 H2. unfold refresh. rewrite <- H1, <- H2. by destruct t. Qed.

Lemma gl_cache_char t wch :
  default wch (view_char (gl_cache t) 0x20 wch)
  = default wch (view_char (Some (gset t (_glSetNumber t))) 0x20 wch).
Proof. unfold gl_cache. destruct (decide _) as [->|]; [by rewrite Ascii_left|done]. Qed.

Lemma gr_cache_char t wch :
  default wch (view_char (gr_cache t) 0xA0 wch)
  = if _grTranslationEnabled t
    then default wch (view_char (Some (gset t (_grSetNumber t))) 0xA0 wch) else wch.
Proof.
  unfold gr_cache. destruct (decide _) as [[->| ->]|Hn]; [|done|].
  - rewrite Latin1_right. by destruct (_grTranslationEnabled t).
  - by destruct (_grTranslationEnabled t); [|exfalso; auto].
Qed.

Lemma cached_translation_spec t wch :
  refresh t = t -> cached_translation t wch = translation t wch.
Proof.
  intros [Hgl Hgr]%fresh_caches. unfold cached_translation, translation. cbv zeta.
  destruct (_ssTranslationTable t) as [s|]; rewrite two_halves.
  - rewrite view_char_left, view_char_right. by destruct ((_ <=? _) && (wch <? 128)).
  - rewrite Hgl, Hgr, gl_cache_char, gr_cache_char, view_char_left, view_char_right.
    destruct ((_ <=? _) && (wch <? 128)); [done|].
    by destruct (_grTranslationEnabled t); rewrite ?andb_true_r, ?andb_false_r.
Qed.

(** ** Histories *)

(** The operations of the class, as its callers issue them. *)
Inductive term_op :=
| OpDesignate94 (gsetNumber : Z) (charset : VTID)
| OpDesignate96 (gsetNumber : Z) (charset : VTID)
| OpSetDrcs94 (charset : VTID)
| OpSetDrcs96 (charset : VTID)
| OpLockingShift (gsetNumber : Z)
| OpLockingShiftRight (gsetNumber : Z)
| OpSingleShift (gsetNumber : Z)
| OpEnableGr (enabled : bool)
| OpTranslate (wch : wchar).

Definition run_op (op : term_op) : M TerminalOutput unit :=
  match op with
  | OpDesignate94 n id => Designate94Charset n id ;; ret tt
  | OpDesignate96 n id => Designate96Charset n id ;; ret tt
  | OpSetDrcs94 id => SetDrcs94Designation id
  | OpSetDrcs96 id => SetDrcs96Designation id
  | OpLockingShift n => LockingShift n ;; ret tt
  | OpLockingShiftRight n => LockingShiftRight n ;; ret tt
  | OpSingleShift n => SingleShift n ;; ret tt
  | OpEnableGr b => EnableGrTranslation b
  | OpTranslate wch => TranslateKey wch ;; ret tt
  end.

(** The G-sets are numbered from 0 to 3; characters have 16 bits. *)
Definition op_ok (op : term_op) : Prop :=
  match op with
  | OpDesignate94 n _ | OpDesignate96 n _ | OpLockingShift n | OpLockingShiftRight n
  | OpSingleShift n => is_gset n
  | OpTranslate wch => is_wchar wch
  | _ => True
  end.

Lemma switch_not_soft cases id s :
  Forall (fun c : wstring * CharSetName => c.2 <> Drcs94 /\ c.2 <> Drcs96) cases ->
  switch cases id = Some s -> s <> Drcs94 /\ s <> Drcs96.
Proof.
  intros Hall. unfold switch. destruct (find _ cases) as [c|] eqn:E; cbn; [|discriminate].
  intros [= <-]. apply find_some in E as [Hin _].
  rewrite Forall_forall in Hall. by apply Hall.
Qed.

(** A set found by identifier is the current soft font or none. *)
Lemma lookup94_soft t id s :
  _LookupTranslationTable94 id t = Some s -> s = Drcs94 \/ s = Drcs96 ->
  _drcsTranslationTable t = Some s.
Proof.
  unfold _LookupTranslationTable94. case_if; [done|]. intros H.
  apply switch_not_soft in H as []; [tauto|]. repeat constructor; done.
Qed.

Lemma lookup96_soft t id s :
  _LookupTranslationTable96 id t = Some s -> s = Drcs94 \/ s = Drcs96 ->
  _drcsTranslationTable t = Some s.
Proof.
  unfold _LookupTranslationTable96. case_if; [done|]. intros H.
  apply switch_not_soft in H as []; [tauto|]. repeat constructor; done.
Qed.

Lemma soft_font_with_gset t n s :
  gsets_wf t -> is_gset n -> soft_font_current t ->
  (s = Drcs94 \/ s = Drcs96 -> _drcsTranslationTable t = Some s) ->
  soft_font_current (with_gset n s t).
Proof.
  intros Hwf Hn Hsoft Hs k Hk. rewrite gset_with_gset by done.
  destruct (decide (k = n)); [exact Hs|exact (Hsoft k Hk)].
Qed.

Lemma designated_wf t n found :
  term_out_wf t -> is_gset n ->
  (forall s, found = Some s -> s = Drcs94 \/ s = Drcs96 -> _drcsTranslationTable t = Some s) ->
  exists t' b, designated found n t = (t', Ok b) /\ term_out_wf t'.
Proof.
  intros (Hwf & Hr & Hsoft) Hn Hs. destruct found as [s|]; cbn.
  - eexists _, _. split; [done|]. apply refresh_wf; [by apply with_gset_wf|].
    apply soft_font_with_gset; auto.
  - eexists _, _. by split.
Qed.

(** *** Redefinition of the soft font *)

(** A G-set that has a soft font falls back to ASCII (G0, G1) or Latin-1 (G2, G3). *)
Definition without_soft_font (n : Z) (s : CharSetName) : CharSetName :=
  if decide (s = Drcs94 \/ s = Drcs96) then (if n <? 2 then Ascii else Latin1) else s.

Lemma replaced_gset_spec old new n s :
  replaced_gset old (Some new) n (Some s)
  = Some (if decide (old = Some (without_soft_font n s)) then new else without_soft_font n s).
Proof.
  assert (forall x, (if view_eqb (Some x) old then Some new else Some x)
    = Some (if decide (old = Some x) then new else x)) as H.
  { intros x. unfold view_eqb. case_bool_decide; case_decide; congruence. }
  unfold replaced_gset, without_soft_font.
  destruct (decide (s = Drcs94 \/ s = Drcs96)) as [Hs|Hs].
  - replace (_ || _) with true by (destruct Hs as [->| ->]; done).
    destruct (n <? 2); apply H.
  - replace (_ || _) with false; [apply H|]. unfold view_eqb.
    by rewrite !bool_decide_eq_false_2 by (intros [= ->]; tauto).
Qed.

Lemma gset_replace_all old new t n :
  gsets_wf t -> is_gset n ->
  gset (replace_all old (Some new) t) n
  = if decide (old = Some (without_soft_font n (gset t n))) then new
    else without_soft_font n (gset t n).
Proof.
  intros [(a & b & c & d & E) _ _ _] Hn. unfold gset, replace_all. cbn [set_gsets _gsetTranslationTables].
  rewrite list_lookup_imap, Z2Nat.id, E by (unfold is_gset in Hn; lia).
  assert (exists s, [Some a; Some b; Some c; Some d] !! Z.to_nat n = Some (Some s)) as [s Hs]
    by (gset_cases Hn; cbn; eauto).
  rewrite Hs. cbn -[replaced_gset]. by rewrite replaced_gset_spec.
Qed.

Lemma without_soft_font_hard n s : without_soft_font n s <> Drcs94 /\ without_soft_font n s <> Drcs96.
Proof. unfold without_soft_font. case_decide; [destruct (n <? 2); done|tauto]. Qed.

(** The state after a redefinition whose set was found under [old]. *)
Definition redefined (old : view) (new : CharSetName) (id : VTID) (t : TerminalOutput) : TerminalOutput :=
  set_drcs id (Some new)
    (if decide (old = Some new) then t else refresh (replace_all old (Some new) t)).

Lemma SetDrcs94Designation_spec t id :
  gsets_wf t ->
  SetDrcs94Designation id t = (redefined (_LookupTranslationTable94 id t) Drcs94 id t, Ok tt).
Proof.
  intros Hwf. unfold SetDrcs94Designation. cbn [bind get].
  by rewrite (bind_Ok _ _ _ _ _ (_ReplaceDrcsTable_spec _ _ _ Hwf)).
Qed.

Lemma SetDrcs96Designation_spec t id :
  gsets_wf t ->
  SetDrcs96Designation id t = (redefined (_LookupTranslationTable96 id t) Drcs96 id t, Ok tt).
Proof.
  intros Hwf. unfold SetDrcs96Designation. cbn [bind get].
  by rewrite (bind_Ok _ _ _ _ _ (_ReplaceDrcsTable_spec _ _ _ Hwf)).
Qed.

Lemma redefined_wf t old new id :
  new = Drcs94 \/ new = Drcs96 ->
  (old = Some new -> _drcsTranslationTable t = Some new) ->
  term_out_wf t -> term_out_wf (redefined old new id t).
Proof.
  intros Hnew Hold (Hwf & Hr & Hsoft). unfold redefined.
  assert (forall t', gsets_wf t' -> refresh t' = t' ->
    (forall n, is_gset n -> gset t' n = Drcs94 \/ gset t' n = Drcs96 -> gset t' n = new) ->
    term_out_wf (set_drcs id (Some new) t')) as Hset.
  { intros t' [] Hr' Hs'. split_and!.
    - constructor; cbn; try done. destruct Hnew as [->| ->]; auto.
    - change (set_drcs id (Some new) (refresh t') = set_drcs id (Some new) t'). by rewrite Hr'.
    - intros n Hn H. cbn. f_equal. symmetry. by apply Hs'. }
  destruct (decide (old = Some new)) as [->|Hne].
  - apply Hset; [done..|]. intros n Hn H. specialize (Hsoft n Hn H).
    rewrite Hold in Hsoft by done. congruence.
  - pose proof (replace_all_wf old new t Hwf) as Hwf'.
    apply Hset; [destruct Hwf'; by constructor|by destruct t|].
    intros n Hn. change (gset (refresh ?t) n) with (gset t n).
    rewrite gset_replace_all by done. case_decide; [done|].
    destruct (without_soft_font_hard n (gset t n)). tauto.
Qed.

Lemma run_op_wf op t :
  op_ok op -> term_out_wf t -> exists t', run_op op t = (t', Ok tt) /\ term_out_wf t'.
Proof.
  intros Hop Hwf. pose proof Hwf as (Hg & Hr & Hsoft). destruct op as [n id|n id|id|id|n|n|n|b|wch];
    cbn [run_op op_ok] in *.
  - unfold bind at 1. rewrite Designate94Charset_spec by done.
    destruct (designated_wf t n _ Hwf Hop (lookup94_soft t id)) as (t' & b & -> & ?). by eexists.
  - unfold bind at 1. rewrite Designate96Charset_spec by done.
    destruct (designated_wf t n _ Hwf Hop (lookup96_soft t id)) as (t' & b & -> & ?). by eexists.
  - rewrite SetDrcs94Designation_spec by done. eexists; split; [done|].
    apply redefined_wf; [auto| |done]. intros E. apply (lookup94_soft t id _ E). auto.
  - rewrite SetDrcs96Designation_spec by done. eexists; split; [done|].
    apply redefined_wf; [auto| |done]. intros E. apply (lookup96_soft t id _ E). auto.
  - unfold bind at 1. rewrite LockingShift_spec by done. eexists; split; [done|].
    split_and!; [destruct Hg; by constructor| |exact Hsoft].
    apply fresh_caches in Hr as [_ Hr]. by apply caches_fresh.
  - unfold bind at 1. rewrite LockingShiftRight_spec by done. eexists; split; [done|].
    split_and!; [destruct Hg; by constructor| |exact Hsoft].
    apply fresh_caches in Hr as [Hr _]. by apply caches_fresh.
  - unfold SingleShift, bind. rewrite gset_at_spec by done. eexists; split; [done|].
    split_and!; [destruct Hg; by constructor| |exact Hsoft].
    change (set_ss (Some (gset t n)) (refresh t) = set_ss (Some (gset t n)) t). by rewrite Hr.
  - rewrite EnableGrTranslation_spec by done. eexists; split; [done|].
    set (s := if b then Latin1 else Ascii).
    assert (gsets_wf (set_grEnabled b t)) by (destruct Hg; by constructor).
    assert (s = Drcs94 \/ s = Drcs96 -> False) by (unfold s; destruct b; intros []; done).
    assert (gsets_wf (with_gset 2 s (set_grEnabled b t))) by (by apply with_gset_wf).
    apply refresh_wf; [by apply with_gset_wf|].
    repeat apply soft_font_with_gset; tauto || done.
  - unfold bind at 1. rewrite TranslateKey_eval by done. eexists; split; [done|].
    split_and!; [destruct Hg; by constructor| |exact Hsoft].
    change (set_ss None (refresh t) = set_ss None t). by rewrite Hr.
Qed.

Lemma init_wf : term_out_wf init.
Proof.
  split_and!; [|done|].
  - constructor; cbn; [by repeat eexists|done..|auto].
  - intros n Hn. unfold gset. cbn. gset_cases Hn; cbn; intros []; done.
Qed.

(** C36. Any history of designations, soft-font definitions, shifts, changes of the
    translation of GR and translated characters, with G-sets numbered from 0 to 3,
    runs without an exception and leaves the cached GL and GR views equal to what the
    G-sets and the shifts determine, with no stale soft font in any G-set. *)
Theorem term_output_invariant (ops : list term_op) :
  Forall op_ok ops ->
  exists t, iterM run_op ops init = (t, Ok tt) /\ term_out_wf t.
Proof.
  intros Hops. assert (forall t, term_out_wf t ->
    exists t', iterM run_op ops t = (t', Ok tt) /\ term_out_wf t') as H; [|apply H, init_wf].
  induction Hops as [|op ops Hop _ IH]; intros t Ht; [by eexists|].
  destruct (run_op_wf op t Hop Ht) as (t1 & E1 & H1). cbn.
  rewrite (bind_Ok _ _ _ _ _ E1). by apply IH.
Qed.

Lemma term_output_invariant_witness :
  exists t, iterM run_op
    [OpSetDrcs94 (VTID_FromString (L" @")); OpDesignate94 1 (VTID_FromString (L" @"));
     OpLockingShift 1; OpTranslate 65] init = (t, Ok tt) /\ term_out_wf t.
Proof.
  apply (term_output_invariant
    [OpSetDrcs94 (VTID_FromString (L" @")); OpDesignate94 1 (VTID_FromString (L" @"));
     OpLockingShift 1; OpTranslate 65]).
  repeat constructor; cbn; unfold is_gset, is_wchar; lia.
Defined.

(** C37. In every state with coherent caches, the character printed for a code unit is
    the entry of the G-set that its half of the code table invokes: the set of a
    pending single shift, GL, or GR where enabled; characters outside the set are
    unchanged; and the single shift is spent. *)
Theorem translate_key_reads_gsets (t : TerminalOutput) (wch : wchar) :
  term_out_wf t -> is_wchar wch ->
  TranslateKey wch t = (set_ss None t, Ok (translation t wch)).
Proof.
  intros (_ & Hr & _) Hw. by rewrite TranslateKey_eval, cached_translation_spec.
Qed.

Lemma translate_key_reads_gsets_witness :
  TranslateKey 0xF1 (set_ss (Some DecSpecialGraphics) init)
  = (set_ss None init, Ok (translation (set_ss (Some DecSpecialGraphics) init) 0xF1)).
Proof.
  apply (translate_key_reads_gsets (set_ss (Some DecSpecialGraphics) init) 0xF1);
    [|unfold is_wchar; lia].
  destruct init_wf as ([] & Hr & Hs). split_and!; [by constructor|done|exact Hs].
Defined.

End TermOut.
