(* ===== verification/TerminalOutputSpec.v ===== *)
(** * What designations, shifts and soft fonts mean for printed text

    Theorems about [TerminalOutput.v]: text is left alone exactly when no character
    would change; a designation followed by a shift shows the designated set; the
    redefinition of the soft font is seen by the G-sets that had its identifier and
    by no other. *)

From S2P Require Import Prelude Effects DispatchTypes Charsets TerminalOutput.
Import TermOut.

Local Open Scope Z_scope.

(** ** When text needs no translation *)

(** Every set other than ASCII changes a character of the left half, every set other
    than Latin-1 one of the right half. *)
Definition changed_position (s : CharSetName) (k : Z) : option Z :=
  find (fun i => negb (replaced s (BaseChar s + i) =? k + i)) (seqZ 0 (Size s)).

Lemma changed_position_spec s k i :
  changed_position s k = Some i ->
  0 <= i < Size s /\ replaced s (BaseChar s + i) <> k + i.
Proof.
  intros [Hin Hne]%find_some. apply list_elem_of_In, elem_of_seqZ in Hin. bool_prop. lia.
Qed.

Lemma left_changes s : s <> Ascii -> exists i, changed_position s 0x20 = Some i.
Proof.
  intros Hs. destruct s; try (by destruct Hs); vm_compute; eauto.
Qed.

Lemma right_changes s : s <> Latin1 -> exists i, changed_position s 0xA0 = Some i.
Proof.
  intros Hs. destruct s; try (by destruct Hs); vm_compute; eauto.
Qed.

Lemma left_translated s :
  s <> Ascii ->
  exists wch, is_wchar wch /\ 0x20 <= wch < 0x80 /\ set_char s (wch - 0x20) wch <> wch.
Proof.
  intros [i [Hi Hne]%changed_position_spec]%left_changes. pose proof (Size_bound s).
  exists (0x20 + i). unfold is_wchar, set_char. split_and!; [lia..|].
  replace (0x20 + i - 0x20) with i by lia.
  rewrite (proj2 (andb_true_iff _ _)); [done|]. rewrite Z.leb_le, Z.ltb_lt. lia.
Qed.

Lemma right_translated s :
  s <> Latin1 ->
  exists wch, is_wchar wch /\ 0xA0 <= wch < 0x100 /\ set_char s (wch - 0xA0) wch <> wch.
Proof.
  intros [i [Hi Hne]%changed_position_spec]%right_changes. pose proof (Size_bound s).
  exists (0xA0 + i). unfold is_wchar, set_char. split_and!; [lia..|].
  replace (0xA0 + i - 0xA0) with i by lia.
  rewrite (proj2 (andb_true_iff _ _)); [done|]. rewrite Z.leb_le, Z.ltb_lt. lia.
Qed.

Lemma half_tests wch :
  (0x20 <= wch < 0x80 -> (0x20 <=? wch) && (wch <? 0x80) = true) /\
  (0xA0 <= wch < 0x100 ->
   (0x20 <=? wch) && (wch <? 0x80) = false /\ (0xA0 <=? wch) && (wch <? 0x100) = true).
Proof.
  split; [intros H|intros H; split].
  - apply andb_true_iff. rewrite Z.leb_le, Z.ltb_lt. lia.
  - apply andb_false_iff. rewrite Z.leb_gt, Z.ltb_ge. lia.
  - apply andb_true_iff. rewrite Z.leb_le, Z.ltb_lt. lia.
Qed.

(** A single shift changes a character whatever its set. *)
Lemma single_shift_changes t s :
  _ssTranslationTable t = Some s -> exists wch, is_wchar wch /\ translation t wch <> wch.
Proof.
  intros Es. destruct (decide (s = Ascii)) as [->|Hs].
  - exists 0xA1. split; [unfold is_wchar; lia|]. unfold translation. rewrite Es. vm_compute. lia.
  - destruct (left_translated s Hs) as (wch & Hw & Hr & Hne). exists wch. split; [done|].
    unfold translation. by rewrite Es, (proj1 (half_tests wch) Hr).
Qed.

(** The adapter skips the translation of a text exactly when it would change no
    character: with coherent caches, [NeedToTranslate] is true if and only if some
    code unit is shown as another. *)
Theorem need_to_translate_exact (t : TerminalOutput) :
  term_out_wf t ->
  NeedToTranslate t = true <-> exists wch, is_wchar wch /\ translation t wch <> wch.
Proof.
  intros (_ & Hr & _). pose proof (fresh_caches t Hr) as [Hgl Hgr]. unfold NeedToTranslate.
  destruct (_ssTranslationTable t) as [s|] eqn:Es.
  { cbn. rewrite orb_true_r. split; [intros _|done]. by apply (single_shift_changes t s). }
  rewrite Hgl, Hgr. unfold gl_cache, gr_cache, translation. rewrite Es. cbn [view_empty negb].
  destruct (decide (gset t (_glSetNumber t) = Ascii)) as [El|El]; cbn [view_empty negb orb].
  2:{ split; [intros _|done]. destruct (left_translated _ El) as (wch & Hw & Hl & Hne).
      exists wch. split; [done|]. by rewrite (proj1 (half_tests wch) Hl). }
  destruct (decide _) as [Er|Er]; cbn [view_empty negb orb].
  - split; [discriminate|]. intros (wch & Hw & Hne). exfalso. apply Hne.
    rewrite El. pose proof (view_char_left Ascii wch) as HA. rewrite Ascii_left in HA.
    pose proof (view_char_right Latin1 wch) as HL. rewrite Latin1_right in HL.
    destruct ((_ <=? _) && (wch <? 128)); [done|].
    destruct Er as [->| ->]; [|by rewrite andb_false_r].
    destruct ((_ <=? _) && (wch <? 256)); [|done]. cbn. by destruct (_grTranslationEnabled t).
  - split; [intros _|done].
    destruct (right_translated (gset t (_grSetNumber t))) as (wch & Hw & Hl & Hne); [tauto|].
    exists wch. split; [done|]. destruct (proj2 (half_tests wch) Hl) as [-> ->].
    by destruct (_grTranslationEnabled t); [|exfalso; tauto].
Qed.

Lemma need_to_translate_exact_witness :
  NeedToTranslate init = true <-> exists wch, is_wchar wch /\ translation init wch <> wch.
Proof. apply (need_to_translate_exact init), init_wf. Defined.

(** ** Designations and shifts *)

(** A set designated by its identifier as G[n] and shifted into GL is the set the
    characters of the left half are shown in, when no single shift is pending. *)
Theorem designated_set_shown (t : TerminalOutput) (n : Z) (id : VTID) (s : CharSetName) (wch : wchar) :
  term_out_wf t -> is_gset n -> _ssTranslationTable t = None ->
  _LookupTranslationTable94 id t = Some s -> 0x20 <= wch < 0x80 ->
  (Designate94Charset n id ;; LockingShift n ;; TranslateKey wch) t
  = (set_gl n (if decide (s = Ascii) then None else Some s) (refresh (with_gset n s t)),
     Ok (set_char s (wch - 0x20) wch)).
Proof.
  intros (Hg & Hr & Hsoft) Hn Hss Hs Hw.
  assert (gsets_wf (with_gset n s t)) as Hg1 by (by apply with_gset_wf).
  assert (term_out_wf (refresh (with_gset n s t))) as Hwf1.
  { apply refresh_wf; [done|]. apply soft_font_with_gset; [done..|].
    intros H. by apply (lookup94_soft t id). }
  assert (gset (refresh (with_gset n s t)) n = s) as Egs.
  { change (gset (with_gset n s t) n = s). rewrite gset_with_gset by done. by rewrite decide_True. }
  pose proof (Designate94Charset_spec t n id Hg Hn) as E. rewrite Hs in E. cbn [designated] in E.
  rewrite (bind_Ok _ _ _ _ _ E).
  pose proof (LockingShift_spec _ n (proj1 Hwf1) Hn) as E2. rewrite Egs in E2.
  rewrite (bind_Ok _ _ _ _ _ E2). set (t2 := set_gl n _ _).
  destruct (run_op_wf (OpLockingShift n) _ Hn Hwf1) as (t3 & E3 & Hwf3).
  cbn [run_op] in E3. rewrite (bind_Ok _ _ _ _ _ E2) in E3. injection E3 as <-.
  rewrite translate_key_reads_gsets by (done || unfold is_wchar; lia). fold t2. f_equal.
  - unfold t2, set_ss. destruct t. cbn in *. by subst.
  - f_equal. unfold translation. unfold t2 at 1. cbn [_ssTranslationTable set_gl refresh set_gr].
    change (_ssTranslationTable (with_gset n s t)) with (_ssTranslationTable t).
    rewrite Hss, (proj1 (half_tests wch) Hw). cbn [_glSetNumber t2 set_gl].
    change (gset t2 n) with (gset (refresh (with_gset n s t)) n). by rewrite Egs.
Qed.

Lemma designated_set_shown_witness :
  (Designate94Charset 1 (VTID_FromString (L"0")) ;; LockingShift 1 ;; TranslateKey 0x71) init
  = (set_gl 1 (Some DecSpecialGraphics) (refresh (with_gset 1 DecSpecialGraphics init)),
     Ok (set_char DecSpecialGraphics (0x71 - 0x20) 0x71)).
Proof.
  apply (designated_set_shown init 1 (VTID_FromString (L"0")) DecSpecialGraphics 0x71).
  - apply init_wf.
  - unfold is_gset. lia.
  - reflexivity.
  - reflexivity.
  - lia.
Defined.

(** ** Soft fonts *)

(** The two sizes of a soft font: the lookup, the definition and the set. *)
Definition lookup_of (wide : bool) := if wide then _LookupTranslationTable96 else _LookupTranslationTable94.
Definition define_of (wide : bool) := if wide then SetDrcs96Designation else SetDrcs94Designation.
Definition drcs_of (wide : bool) : CharSetName := if wide then Drcs96 else Drcs94.

Lemma define_wf wide id t : term_out_wf t -> exists t', define_of wide id t = (t', Ok tt) /\ term_out_wf t'.
Proof. intros Hwf. destruct wide; [exact (run_op_wf (OpSetDrcs96 id) t I Hwf)|exact (run_op_wf (OpSetDrcs94 id) t I Hwf)]. Qed.

Lemma define_spec wide id t : gsets_wf t ->
  define_of wide id t = (redefined (lookup_of wide id t) (drcs_of wide) id t, Ok tt).
Proof. intros Hwf. destruct wide; [by apply SetDrcs96Designation_spec|by apply SetDrcs94Designation_spec]. Qed.

(** C38. Defining a soft font of 94 or of 96 characters under an identifier: unless the soft
    font of that size was already the one of the identifier, every G-set that shows a soft
    font falls back (G0 and G1 to ASCII, G2 and G3 to Latin-1), and then every G-set whose
    set is the one that had the identifier gets the soft font; the other G-sets, both
    shifts, a pending single shift and the translation of GR stay, and the cached views are
    those of the new G-sets; from then on both kinds of designation find the soft font
    under the identifier, and the built-in set under any other. *)
Theorem soft_font_redefinition (wide : bool) (t : TerminalOutput) (id : VTID) :
  term_out_wf t ->
  exists t', define_of wide id t = (t', Ok tt) /\ term_out_wf t' /\
    _glSetNumber t' = _glSetNumber t /\ _grSetNumber t' = _grSetNumber t /\
    _ssTranslationTable t' = _ssTranslationTable t /\ _grTranslationEnabled t' = _grTranslationEnabled t /\
    (forall id', _LookupTranslationTable94 id' t' = (if id' =? id then Some (drcs_of wide) else switch table94 id') /\
                 _LookupTranslationTable96 id' t' = (if id' =? id then Some (drcs_of wide) else switch table96 id')) /\
    forall n, is_gset n ->
      gset t' n =
        let s := without_soft_font n (gset t n) in
        if decide (lookup_of wide id t = Some (drcs_of wide)) then gset t n
        else if decide (lookup_of wide id t = Some s) then drcs_of wide else s.
Proof.
  intros Hwf. destruct (define_wf wide id t Hwf) as (t' & E & Hwf').
  exists t'. split; [done|]. split; [done|].
  rewrite define_spec in E by apply Hwf. injection E as <-.
  unfold redefined. cbv zeta. split_and!; [by case_decide..|by intros id'|].
  intros n Hn. case_decide; [done|].
  change (gset (set_drcs _ _ (refresh ?t1)) n) with (gset t1 n).
  rewrite gset_replace_all by (done || apply Hwf). done.
Qed.

Lemma soft_font_redefinition_witness :
  let id := VTID_FromString (L" @") in
  exists t', SetDrcs96Designation id init = (t', Ok tt) /\ term_out_wf t' /\
    _ssTranslationTable t' = None /\ _LookupTranslationTable94 id t' = Some Drcs96 /\ gset t' 1 = Ascii.
Proof.
  intros id. destruct (soft_font_redefinition true init id init_wf) as (t' & E & Hwf & _ & _ & Hs & _ & Hl & Hg).
  exists t'. split_and!; [exact E|exact Hwf|exact Hs| |].
  - destruct (Hl id) as [H1 _]. rewrite Z.eqb_refl in H1. exact H1.
  - rewrite (Hg 1 ltac:(unfold is_gset; lia)). by vm_compute.
Defined.

(** Without the translation of GR, every G-set starts as ASCII, so that a stray
    locking shift leaves text readable; but a G2 that had a soft font falls back to
    Latin-1 when another soft font replaces it, and a locking shift of G2 then shows
    the letter A as a letter of Latin-1. *)
Theorem soft_font_fallback_latin1 :
  exists t,
    iterM run_op [OpSetDrcs94 (VTID_FromString (L" @")); OpDesignate94 2 (VTID_FromString (L" @"));
                  OpSetDrcs94 (VTID_FromString (L"!@")); OpLockingShift 2] init = (t, Ok tt) /\
    _grTranslationEnabled t = false /\ gset t 2 = Latin1 /\
    (TranslateKey 0x41 t).2 = Ok 0xC1.
Proof.
  exists (mkTerminalOutput [Some Ascii; Some Ascii; Some Latin1; Some Ascii] 2 2 (Some Latin1)
    None None false (VTID_FromString (L"!@")) (Some Drcs94)).
  split; [vm_compute; reflexivity|]. split; [reflexivity|]. split; vm_compute; reflexivity.
Qed.
