(* ===== verification/CodepointWidth.v ===== *)
(** * Widths of glyphs

    Models [src/src/types/CodepointWidthDetector.cpp], [GlyphWidth.cpp] and the
    surrogates of [src/src/inc/til/unicode.h]: the table of wide and ambiguous code
    points, its bisection, and the cache of the answers of the renderer for ambiguous
    ones.

    The theorems show that the bisection finds what a search through the table finds,
    and that the cache is invisible: the width of a glyph is a function of the glyph
    and of the fallback method, for which the class [GlyphWidth] stands in the
    components that measure text. *)

From stdpp Require Import gmap.
From S2P Require Import Prelude Effects ColorTable.

Local Open Scope Z_scope.

(** ** UTF-16 *)

Definition UNICODE_REPLACEMENT : wchar := 0xFFFD.

Definition is_surrogate (wch : wchar) : bool := Z.land wch 0xF800 =? 0xD800.
Definition is_leading_surrogate (wch : wchar) : bool := Z.land wch 0xFC00 =? 0xD800.
Definition is_trailing_surrogate (wch : wchar) : bool := Z.land wch 0xFC00 =? 0xDC00.

(** [til::utf16_next]: the first UTF-16 sequence of a string. *)
Definition utf16_next (wstr : wstring) : wstring :=
  match wstr with
  | [] => [UNICODE_REPLACEMENT]
  | wch :: rest =>
      if is_surrogate wch then
        let wch2 := hd 0 rest in
        if is_leading_surrogate wch && is_trailing_surrogate wch2 then [wch; wch2]
        else [UNICODE_REPLACEMENT]
      else [wch]
  end.

(** [til::utf16_iterator]: [advance] moves over one sequence. *)
Definition utf16_advance (wstr : wstring) : option (wstring * wstring) :=
  match wstr with
  | [] => None
  | wch :: rest =>
      if is_surrogate wch then
        match rest with
        | wch2 :: rest' =>
            if is_leading_surrogate wch && is_trailing_surrogate wch2 then Some ([wch; wch2], rest')
            else Some ([UNICODE_REPLACEMENT], rest)
        | [] => Some ([UNICODE_REPLACEMENT], rest)
        end
      else Some ([wch], rest)
  end.

Fixpoint utf16_iterate (fuel : nat) (wstr : wstring) : list wstring :=
  match fuel with
  | O => []
  | S fuel =>
      match utf16_advance wstr with
      | Some (value, rest) => value :: utf16_iterate fuel rest
      | None => []
      end
  end.

Definition utf16_iterator (wstr : wstring) : list wstring := utf16_iterate (length wstr) wstr.

(** ** The table *)

Record UnicodeRange := UR {
  lowerBound : Z;
  upperBound : Z;
  isAmbiguous : bool
}.

Definition s_wideAndAmbiguousTable : list UnicodeRange :=
  [ UR 0xa1 0xa1 true; UR 0xa4 0xa4 true; UR 0xa7 0xa8 true; UR 0xaa 0xaa true;
    UR 0xad 0xae true; UR 0xb0 0xb4 true; UR 0xb6 0xba true; UR 0xbc 0xbf true;
    UR 0xc6 0xc6 true; UR 0xd0 0xd0 true; UR 0xd7 0xd8 true; UR 0xde 0xe1 true;
    UR 0xe6 0xe6 true; UR 0xe8 0xea true; UR 0xec 0xed true; UR 0xf0 0xf0 true;
    UR 0xf2 0xf3 true; UR 0xf7 0xfa true; UR 0xfc 0xfc true; UR 0xfe 0xfe true;
    UR 0x101 0x101 true; UR 0x111 0x111 true; UR 0x113 0x113 true; UR 0x11b 0x11b true;
    UR 0x126 0x127 true; UR 0x12b 0x12b true; UR 0x131 0x133 true; UR 0x138 0x138 true;
    UR 0x13f 0x142 true; UR 0x144 0x144 true; UR 0x148 0x14b true; UR 0x14d 0x14d true;
    UR 0x152 0x153 true; UR 0x166 0x167 true; UR 0x16b 0x16b true; UR 0x1ce 0x1ce true;
    UR 0x1d0 0x1d0 true; UR 0x1d2 0x1d2 true; UR 0x1d4 0x1d4 true; UR 0x1d6 0x1d6 true;
    UR 0x1d8 0x1d8 true; UR 0x1da 0x1da true; UR 0x1dc 0x1dc true; UR 0x251 0x251 true;
    UR 0x261 0x261 true; UR 0x2c4 0x2c4 true; UR 0x2c7 0x2c7 true; UR 0x2c9 0x2cb true;
    UR 0x2cd 0x2cd true; UR 0x2d0 0x2d0 true; UR 0x2d8 0x2db true; UR 0x2dd 0x2dd true;
    UR 0x2df 0x2df true; UR 0x300 0x36f true; UR 0x391 0x3a1 true; UR 0x3a3 0x3a9 true;
    UR 0x3b1 0x3c1 true; UR 0x3c3 0x3c9 true; UR 0x401 0x401 true; UR 0x410 0x44f true;
    UR 0x451 0x451 true; UR 0x1100 0x115f false; UR 0x2010 0x2010 true; UR 0x2013 0x2016 true;
    UR 0x2018 0x2019 true; UR 0x201c 0x201d true; UR 0x2020 0x2022 true; UR 0x2024 0x2027 true;
    UR 0x2030 0x2030 true; UR 0x2032 0x2033 true; UR 0x2035 0x2035 true; UR 0x203b 0x203b true;
    UR 0x203e 0x203e true; UR 0x2074 0x2074 true; UR 0x207f 0x207f true; UR 0x2081 0x2084 true;
    UR 0x20ac 0x20ac true; UR 0x2103 0x2103 true; UR 0x2105 0x2105 true; UR 0x2109 0x2109 true;
    UR 0x2113 0x2113 true; UR 0x2116 0x2116 true; UR 0x2121 0x2122 true; UR 0x2126 0x2126 true;
    UR 0x212b 0x212b true; UR 0x2153 0x2154 true; UR 0x215b 0x215e true; UR 0x2160 0x216b true;
    UR 0x2170 0x2179 true; UR 0x2189 0x2189 true; UR 0x2190 0x2199 true; UR 0x21b8 0x21b9 true;
    UR 0x21d2 0x21d2 true; UR 0x21d4 0x21d4 true; UR 0x21e7 0x21e7 true; UR 0x2200 0x2200 true;
    UR 0x2202 0x2203 true; UR 0x2207 0x2208 true; UR 0x220b 0x220b true; UR 0x220f 0x220f true;
    UR 0x2211 0x2211 true; UR 0x2215 0x2215 true; UR 0x221a 0x221a true; UR 0x221d 0x2220 true;
    UR 0x2223 0x2223 true; UR 0x2225 0x2225 true; UR 0x2227 0x222c true; UR 0x222e 0x222e true;
    UR 0x2234 0x2237 true; UR 0x223c 0x223d true; UR 0x2248 0x2248 true; UR 0x224c 0x224c true;
    UR 0x2252 0x2252 true; UR 0x2260 0x2261 true; UR 0x2264 0x2267 true; UR 0x226a 0x226b true;
    UR 0x226e 0x226f true; UR 0x2282 0x2283 true; UR 0x2286 0x2287 true; UR 0x2295 0x2295 true;
    UR 0x2299 0x2299 true; UR 0x22a5 0x22a5 true; UR 0x22bf 0x22bf true; UR 0x2312 0x2312 true;
    UR 0x231a 0x231b false; UR 0x2329 0x232a false; UR 0x23e9 0x23ec false;
    UR 0x23f0 0x23f0 false; UR 0x23f3 0x23f3 false; UR 0x2460 0x24e9 true; UR 0x24eb 0x24ff true;
    UR 0x25a0 0x25a1 true; UR 0x25a3 0x25a9 true; UR 0x25b2 0x25b3 true; UR 0x25b6 0x25b7 true;
    UR 0x25bc 0x25bd true; UR 0x25c0 0x25c1 true; UR 0x25c6 0x25c8 true; UR 0x25cb 0x25cb true;
    UR 0x25ce 0x25d1 true; UR 0x25e2 0x25e5 true; UR 0x25ef 0x25ef true; UR 0x25fd 0x25fe false;
    UR 0x2605 0x2606 true; UR 0x2609 0x2609 true; UR 0x260e 0x260f true; UR 0x2614 0x2615 false;
    UR 0x261c 0x261c true; UR 0x261e 0x261e true; UR 0x2640 0x2640 true; UR 0x2642 0x2642 true;
    UR 0x2648 0x2653 false; UR 0x2660 0x2661 true; UR 0x2663 0x2665 true; UR 0x2667 0x266a true;
    UR 0x266c 0x266d true; UR 0x266f 0x266f true; UR 0x267f 0x267f false; UR 0x2693 0x2693 false;
    UR 0x269e 0x269f true; UR 0x26a1 0x26a1 false; UR 0x26aa 0x26ab false;
    UR 0x26bd 0x26be false; UR 0x26bf 0x26bf true; UR 0x26c4 0x26c5 false; UR 0x26c6 0x26cd true;
    UR 0x26ce 0x26ce false; UR 0x26cf 0x26d3 true; UR 0x26d4 0x26d4 false; UR 0x26d5 0x26e1 true;
    UR 0x26e3 0x26e3 true; UR 0x26e8 0x26e9 true; UR 0x26ea 0x26ea false; UR 0x26eb 0x26f1 true;
    UR 0x26f2 0x26f3 false; UR 0x26f4 0x26f4 true; UR 0x26f5 0x26f5 false; UR 0x26f6 0x26f9 true;
    UR 0x26fa 0x26fa false; UR 0x26fb 0x26fc true; UR 0x26fd 0x26fd false; UR 0x26fe 0x26ff true;
    UR 0x2705 0x2705 false; UR 0x270a 0x270b false; UR 0x2728 0x2728 false;
    UR 0x273d 0x273d true; UR 0x274c 0x274c false; UR 0x274e 0x274e false;
    UR 0x2753 0x2755 false; UR 0x2757 0x2757 false; UR 0x2776 0x277f true;
    UR 0x2795 0x2797 false; UR 0x27b0 0x27b0 false; UR 0x27bf 0x27bf false;
    UR 0x2b1b 0x2b1c false; UR 0x2b50 0x2b50 false; UR 0x2b55 0x2b55 false;
    UR 0x2b56 0x2b59 true; UR 0x2e80 0x2e99 false; UR 0x2e9b 0x2ef3 false;
    UR 0x2f00 0x2fd5 false; UR 0x2ff0 0x2ffb false; UR 0x3000 0x303e false;
    UR 0x3041 0x3096 false; UR 0x3099 0x30ff false; UR 0x3105 0x312f false;
    UR 0x3131 0x318e false; UR 0x3190 0x31e3 false; UR 0x31f0 0x321e false;
    UR 0x3220 0x3247 false; UR 0x3248 0x324f true; UR 0x3250 0x4dbf false;
    UR 0x4e00 0xa48c false; UR 0xa490 0xa4c6 false; UR 0xa960 0xa97c false;
    UR 0xac00 0xd7a3 false; UR 0xe000 0xf8ff true; UR 0xf900 0xfaff false; UR 0xfe00 0xfe0f true;
    UR 0xfe10 0xfe19 false; UR 0xfe30 0xfe52 false; UR 0xfe54 0xfe66 false;
    UR 0xfe68 0xfe6b false; UR 0xff01 0xff60 false; UR 0xffe0 0xffe6 false;
    UR 0xfffd 0xfffd true; UR 0x16fe0 0x16fe4 false; UR 0x16ff0 0x16ff1 false;
    UR 0x17000 0x187f7 false; UR 0x18800 0x18cd5 false; UR 0x18d00 0x18d08 false;
    UR 0x1aff0 0x1aff3 false; UR 0x1aff5 0x1affb false; UR 0x1affd 0x1affe false;
    UR 0x1b000 0x1b122 false; UR 0x1b132 0x1b132 false; UR 0x1b150 0x1b152 false;
    UR 0x1b155 0x1b155 false; UR 0x1b164 0x1b167 false; UR 0x1b170 0x1b2fb false;
    UR 0x1f004 0x1f004 false; UR 0x1f0cf 0x1f0cf false; UR 0x1f100 0x1f10a true;
    UR 0x1f110 0x1f12d true; UR 0x1f130 0x1f169 true; UR 0x1f170 0x1f18d true;
    UR 0x1f18e 0x1f18e false; UR 0x1f18f 0x1f190 true; UR 0x1f191 0x1f19a false;
    UR 0x1f19b 0x1f1ac true; UR 0x1f1e6 0x1f202 false; UR 0x1f210 0x1f23b false;
    UR 0x1f240 0x1f248 false; UR 0x1f250 0x1f251 false; UR 0x1f260 0x1f265 false;
    UR 0x1f300 0x1f320 false; UR 0x1f32d 0x1f335 false; UR 0x1f337 0x1f37c false;
    UR 0x1f37e 0x1f393 false; UR 0x1f3a0 0x1f3ca false; UR 0x1f3cf 0x1f3d3 false;
    UR 0x1f3e0 0x1f3f0 false; UR 0x1f3f4 0x1f3f4 false; UR 0x1f3f8 0x1f43e false;
    UR 0x1f440 0x1f440 false; UR 0x1f442 0x1f4fc false; UR 0x1f4ff 0x1f53d false;
    UR 0x1f54b 0x1f54e false; UR 0x1f550 0x1f567 false; UR 0x1f57a 0x1f57a false;
    UR 0x1f595 0x1f596 false; UR 0x1f5a4 0x1f5a4 false; UR 0x1f5fb 0x1f64f false;
    UR 0x1f680 0x1f6c5 false; UR 0x1f6cc 0x1f6cc false; UR 0x1f6d0 0x1f6d2 false;
    UR 0x1f6d5 0x1f6d7 false; UR 0x1f6dc 0x1f6df false; UR 0x1f6eb 0x1f6ec false;
    UR 0x1f6f4 0x1f6fc false; UR 0x1f7e0 0x1f7eb false; UR 0x1f7f0 0x1f7f0 false;
    UR 0x1f90c 0x1f93a false; UR 0x1f93c 0x1f945 false; UR 0x1f947 0x1f9ff false;
    UR 0x1fa70 0x1fa7c false; UR 0x1fa80 0x1fa88 false; UR 0x1fa90 0x1fabd false;
    UR 0x1fabf 0x1fac5 false; UR 0x1face 0x1fadb false; UR 0x1fae0 0x1fae8 false;
    UR 0x1faf0 0x1faf8 false; UR 0x20000 0x2fffd false; UR 0x30000 0x3fffd false;
    UR 0xe0100 0xe01ef true; UR 0xf0000 0xffffd true; UR 0x100000 0x10fffd true ].

(** ** [CodepointWidthDetector] *)

Inductive CodepointWidth := Narrow | Wide.

(** The fallback method; [None] is an exception. *)
Abbreviation fallback := (wstring -> option bool) (only parsing).

Record CodepointWidthDetector := mkDetector {
  _fallbackCache : gmap Z Z;
  _pfnFallbackMethod : option (wstring -> option bool)
}.

Definition detector_init : CodepointWidthDetector := mkDetector ∅ None.

(** [operator<] of a range and a code point. *)
Definition range_below (codepoint : Z) (range : UnicodeRange) : bool := upperBound range <? codepoint.

(** [std::lower_bound] *)
Definition lower_bound (codepoint : Z) : nat :=
  partition_point (length s_wideAndAmbiguousTable) (range_below codepoint)
    s_wideAndAmbiguousTable 0 (length s_wideAndAmbiguousTable).

Definition _checkFallbackViaCache (codepoint : Z) (glyph : wstring) : M CodepointWidthDetector Z :=
  fun d =>
  match _pfnFallbackMethod d with
  | None => (d, Ok 1)
  | Some pfn =>
      match _fallbackCache d !! codepoint with
      | Some width => (d, Ok width)
      | None =>
          match pfn glyph with
          | Some wide =>
              let width := if wide then 2 else 1 in
              (mkDetector (<[codepoint := width]> (_fallbackCache d)) (_pfnFallbackMethod d), Ok width)
          | None => (d, Ok 1)
          end
      end
  end.

Definition _lookupGlyphWidth (codepoint : Z) (glyph : wstring) : M CodepointWidthDetector Z :=
  match s_wideAndAmbiguousTable !! lower_bound codepoint with
  | Some it =>
      if (lowerBound it <=? codepoint) && (codepoint <=? upperBound it)
      then if isAmbiguous it then _checkFallbackViaCache codepoint glyph else ret 2
      else ret 1
  | None => ret 1
  end.

Definition codepoint_of (glyph : wstring) : Z :=
  match glyph with
  | [c] => c
  | [c1; c2] =>
      u32 (Z.lor (Z.shiftl (Z.land c1 0x3FF) 10) (Z.land c2 0x3FF) + 0x10000)
  | _ => 0
  end.

(** The conversion of the width to [CodepointWidth]. *)
Definition width_of (n : Z) : CodepointWidth := if n =? 2 then Wide else Narrow.

Definition GetWidth (glyph : wstring) : M CodepointWidthDetector CodepointWidth :=
  let codepoint := codepoint_of glyph in
  if codepoint <? 0x80 then ret Narrow
  else n <- _lookupGlyphWidth codepoint glyph ;; ret (width_of n).

Definition IsWide (glyph : wstring) : M CodepointWidthDetector bool :=
  w <- GetWidth glyph ;; ret (match w with Wide => true | Narrow => false end).

Definition SetFallbackMethod (pfnFallback : option (wstring -> option bool))
  : M CodepointWidthDetector unit :=
  modify (fun d => mkDetector (_fallbackCache d) pfnFallback).

Definition NotifyFontChanged : M CodepointWidthDetector unit :=
  modify (fun d => mkDetector ∅ (_pfnFallbackMethod d)).

(** [IsGlyphFullWidth] of one character (GlyphWidth.cpp). *)
Definition IsCharFullWidth (wch : wchar) : M CodepointWidthDetector bool :=
  if wch <? 0x80 then ret false else IsWide [wch].

(** ** Widths as a function of the glyph *)

(** The answer of the fallback method. *)
Definition fallback_width (pfn : option (wstring -> option bool)) (glyph : wstring) : Z :=
  match pfn with
  | Some f => match f glyph with Some true => 2 | _ => 1 end
  | None => 1
  end.

Definition in_range (codepoint : Z) (r : UnicodeRange) : bool :=
  (lowerBound r <=? codepoint) && (codepoint <=? upperBound r).

(** A search through the table. *)
Definition is_wide (pfn : option (wstring -> option bool)) (glyph : wstring) : bool :=
  match find (in_range (codepoint_of glyph)) s_wideAndAmbiguousTable with
  | Some r => if isAmbiguous r then fallback_width pfn glyph =? 2 else true
  | None => false
  end.

(** A glyph is one UTF-16 sequence; the code point determines it. *)
Definition utf16 (codepoint : Z) : wstring :=
  if codepoint <? 0x10000 then [codepoint]
  else [0xD800 + Z.shiftr (codepoint - 0x10000) 10; 0xDC00 + Z.land (codepoint - 0x10000) 0x3FF].

Definition is_codepoint (c : Z) : Prop := 0 <= c < 0x110000.

(** The cache holds answers of the fallback method. *)
Definition cache_coherent (d : CodepointWidthDetector) : Prop :=
  forall f c w, _pfnFallbackMethod d = Some f -> _fallbackCache d !! c = Some w ->
  w = fallback_width (Some f) (utf16 c).

(** ** The bisection *)

(** The ranges are disjoint and in order. *)
Fixpoint ranges_ordered (from : Z) (l : list UnicodeRange) : bool :=
  match l with
  | [] => true
  | r :: l => (from <=? lowerBound r) && (lowerBound r <=? upperBound r) && ranges_ordered (upperBound r + 1) l
  end.

Lemma table_ordered : ranges_ordered 0x80 s_wideAndAmbiguousTable = true.
Proof. vm_compute. reflexivity. Qed.

Lemma ranges_above from l c r :
  ranges_ordered from l = true -> r ∈ l -> in_range c r = true -> from <= c.
Proof.
  revert from. induction l as [|q l IH]; intros from Ho Hin Hr; [by apply not_elem_of_nil in Hin|].
  cbn in Ho. bool_prop. apply elem_of_cons in Hin as [->|Hin].
  - unfold in_range in Hr. bool_prop. lia.
  - enough (upperBound q + 1 <= c) by lia. by apply IH.
Qed.

Lemma ranges_pred from l c :
  ranges_ordered from l = true ->
  forall i x, l !! i = Some x ->
  range_below c x = (i <? prefix_length (range_below c) l)%nat.
Proof.
  revert from. induction l as [|q l IH]; intros from Ho i x Hx; [by rewrite lookup_nil in Hx|].
  cbn in Ho. bool_prop. cbn [prefix_length]. destruct (range_below c q) eqn:Eq.
  - destruct i as [|i]; [by injection Hx as <-|]. cbn in Hx. rewrite (IH _ ltac:(done) i x Hx).
    by destruct (Nat.ltb_spec i (prefix_length (range_below c) l)),
      (Nat.ltb_spec (S i) (S (prefix_length (range_below c) l))); try lia.
  - destruct i as [|i]; [by injection Hx as <-|]. cbn in Hx. unfold range_below in *. bool_prop. apply Z.ltb_ge.
    enough (forall from l, ranges_ordered from l = true -> c <= from ->
              Forall (fun r => c <= upperBound r) l) as Hall.
    { specialize (Hall _ l H0 ltac:(lia)). rewrite Forall_lookup in Hall. by apply (Hall i). }
    clear. intros from l. revert from. induction l as [|q l IH]; intros from Ho Hc; constructor.
    + cbn in Ho. bool_prop. lia.
    + cbn in Ho. bool_prop. apply (IH (upperBound q + 1)); [done|lia].
Qed.

Lemma prefix_length_le {A} (p : A -> bool) l : (prefix_length p l <= length l)%nat.
Proof. induction l as [|x l IH]; cbn; [lia|]. destruct (p x); lia. Qed.

Lemma lower_bound_spec c :
  lower_bound c = prefix_length (range_below c) s_wideAndAmbiguousTable.
Proof.
  unfold lower_bound. apply partition_point_spec.
  - intros i x. apply (ranges_pred 0x80). apply table_ordered.
  - pose proof (prefix_length_le (range_below c) s_wideAndAmbiguousTable). lia.
  - lia.
  - lia.
Qed.

Lemma find_ordered from l c :
  ranges_ordered from l = true ->
  find (in_range c) l =
  match l !! prefix_length (range_below c) l with
  | Some r => if in_range c r then Some r else None
  | None => None
  end.
Proof.
  revert from. induction l as [|q l IH]; intros from Ho; [done|].
  cbn [find prefix_length]. pose proof Ho as Ho'. cbn in Ho'. bool_prop.
  destruct (range_below c q) eqn:Eq.
  - unfold in_range at 1. unfold range_below in Eq. bool_prop.
    rewrite (proj2 (Z.leb_gt c (upperBound q))), andb_false_r by lia.
    cbn. by apply (IH (upperBound q + 1)).
  - cbn. destruct (in_range c q) eqn:E; [done|].
    destruct (find (in_range c) l) eqn:F; [|done]. apply find_some in F as [Hin Hr].
    apply list_elem_of_In in Hin.
    pose proof (ranges_above _ _ _ _ ltac:(eassumption) Hin Hr). bool_prop.
    exfalso. unfold in_range in E, Hr. unfold range_below in Eq. bool_prop. lia.
Qed.

(** ** The cache *)

Lemma codepoint_of_utf16 c : is_codepoint c -> codepoint_of (utf16 c) = c.
Proof.
  unfold is_codepoint, utf16. intros Hc. destruct (Z.ltb_spec c 0x10000); [done|].
  cbn [codepoint_of]. set (d := c - 0x10000). assert (0 <= d < 2 ^ 20) as Hd by (unfold d; lia).
  assert (Z.land (0xD800 + Z.shiftr d 10) 0x3FF = Z.shiftr d 10) as ->.
  { assert (0 <= Z.shiftr d 10 < 2 ^ 10) as Hs.
    { rewrite Z.shiftr_div_pow2 by lia. split; [apply Z.div_pos; lia|].
      apply Z.div_lt_upper_bound; lia. }
    rewrite (Z.land_ones _ 10) by lia. change 0xD800 with (54 * 2 ^ 10).
    rewrite Z.add_comm, Z.mod_add by lia. by apply Z.mod_small. }
  assert (Z.land (0xDC00 + Z.land d 0x3FF) 0x3FF = Z.land d 0x3FF) as ->.
  { rewrite !(Z.land_ones _ 10) by lia. change 0xDC00 with (55 * 2 ^ 10).
    rewrite Z.add_comm, Z.mod_add by lia. by rewrite Z.mod_mod. }
  rewrite (Z.land_ones _ 10), Z.shiftr_div_pow2, Z.shiftl_mul_pow2 by lia.
  rewrite lor_low_bits by (try apply Z.mod_pos_bound; lia).
  rewrite (Z.mul_comm (d / _)), <- Z.div_mod by lia. rewrite wrapu_small; unfold d; lia.
Qed.

Lemma fallback_spec d c :
  cache_coherent d ->
  exists d', _checkFallbackViaCache c (utf16 c) d
             = (d', Ok (fallback_width (_pfnFallbackMethod d) (utf16 c))) /\
    cache_coherent d' /\ _pfnFallbackMethod d' = _pfnFallbackMethod d.
Proof.
  intros Hd. unfold _checkFallbackViaCache, fallback_width.
  destruct (_pfnFallbackMethod d) as [f|] eqn:Ef; [|by exists d].
  destruct (_fallbackCache d !! c) as [w|] eqn:Ec.
  { exists d. by rewrite (Hd f c w Ef Ec). }
  destruct (f (utf16 c)) as [b|] eqn:Eb; [|by exists d].
  eexists. split; [reflexivity|]. split; [|done].
  intros f' c' w'. cbn. intros [= <-] [[-> <-]|[Hne Hw]]%lookup_insert_Some.
  - by destruct b; unfold fallback_width; rewrite Eb.
  - exact (Hd f c' w' Ef Hw).
Qed.

(** The width of a glyph does not depend on what was measured before: whatever the
    cache holds, as long as it holds answers of the installed fallback method, the
    bisection and the cache give what a search of the table gives, asking the fallback
    for ambiguous code points; and the cache keeps holding such answers. *)
Theorem glyph_width_is_a_function (d : CodepointWidthDetector) (c : Z) :
  cache_coherent d -> is_codepoint c ->
  exists d', IsWide (utf16 c) d = (d', Ok (is_wide (_pfnFallbackMethod d) (utf16 c))) /\
    cache_coherent d' /\ _pfnFallbackMethod d' = _pfnFallbackMethod d.
Proof.
  intros Hd Hc. unfold IsWide, GetWidth, is_wide. rewrite codepoint_of_utf16 by done.
  rewrite (find_ordered 0x80), <- lower_bound_spec by apply table_ordered.
  unfold _lookupGlyphWidth.
  destruct (s_wideAndAmbiguousTable !! lower_bound c) as [r|] eqn:E;
    [|exists d; by destruct (c <? 0x80)].
  fold (in_range c r). destruct (in_range c r) eqn:Er; [|exists d; by destruct (c <? 0x80)].
  pose proof (ranges_above 0x80 _ c r table_ordered (list_elem_of_lookup_2 _ _ _ E) Er).
  rewrite (proj2 (Z.ltb_ge c 0x80)) by done.
  destruct (isAmbiguous r); [|by exists d].
  destruct (fallback_spec d c Hd) as (d' & E' & H1 & H2). exists d'. split; [|done].
  unfold bind. rewrite E'. unfold fallback_width.
  by destruct (_pfnFallbackMethod d) as [f|]; [destruct (f _) as [[]|]|].
Qed.

Lemma glyph_width_is_a_function_witness :
  exists d', IsWide (utf16 0xA1) (mkDetector ∅ (Some (fun _ => Some true)))
    = (d', Ok (is_wide (Some (fun _ => Some true)) (utf16 0xA1))) /\
    cache_coherent d' /\ _pfnFallbackMethod d' = Some (fun _ => Some true).
Proof.
  apply (glyph_width_is_a_function (mkDetector ∅ (Some (fun _ => Some true))) 0xA1).
  - intros f c w _ H. cbn in H. by rewrite lookup_empty in H.
  - unfold is_codepoint. lia.
Defined.

(** ** The interface of the components that measure text

    [IsGlyphFullWidth] as a function of the glyph, which the theorem above justifies;
    [detector_width] is the implementation of the program. *)
Class GlyphWidth := IsGlyphFullWidth : wstring -> bool.

Definition detector_width (pfn : option (wstring -> option bool)) : GlyphWidth := is_wide pfn.
