(* ===== verification/RowWrite.v ===== *)
(** * Writing cells to a row

    Models [ROW::WriteCells] (src/src/buffer/out/Row.cpp), which moves the cells of an
    iterator into a row, up to a right limit, and commits their attributes in runs.

    The theorem says what it does to the glyphs of the row: the glyphs of the iterator
    that fit replace the columns they cover, a wide glyph that would be cut by the limit
    is left to the caller and its column is blanked, the attributes of the covered
    columns become those of the cells, and the iterator stands behind what was
    written. *)

From S2P Require Import Prelude Effects LineRendition TextColor TextAttribute Rle RleLaws RleSpec Row RowLayout RowSpec RowTheorems CodepointWidth OutputCells.

Local Open Scope Z_scope.

Section WriteCells.
Context {GW : GlyphWidth} (statics : Statics) (garbage : wchar).

#[local] Abbreviation next := (iterator_next statics).

(** The text of one cell, and the iterator after it. *)
Definition write_cell (it : OutputCellIterator) (wrap : option bool) (currentIndex finalColumnInRow : Z)
  : M ROW OutputCellIterator :=
  let chars := Chars (_currentView it) in
  let fillingFirstColumn := currentIndex =? 0 in
  let fillingLastColumn := currentIndex =? finalColumnInRow in
  it' <-
    match DbcsAttr (_currentView it) with
    | Leading =>
        if fillingLastColumn
        then ClearCell garbage currentIndex ;; modify (SetDoubleBytePadded true) ;; ret it
        else ReplaceCharacters garbage currentIndex 2 chars ;; ret (next it)
    | Trailing =>
        (if fillingFirstColumn then ClearCell garbage currentIndex
         else ReplaceCharacters garbage (currentIndex - 1) 2 chars) ;;
        ret (next it)
    | Single => ReplaceCharacters garbage currentIndex 1 chars ;; ret (next it)
    end ;;
  (match wrap with
   | Some w => if fillingLastColumn then modify (SetWrapForced w) else ret tt
   | None => ret tt
   end) ;;
  ret it'.

(** The runs of one attribute: [currentColor], [colorUses], [colorStarts]. *)
Record color_run := mkColorRun {
  currentColor : TextAttribute;
  colorUses : Z;
  colorStarts : Z
}.

Definition color_cell (it : OutputCellIterator) (currentIndex : Z) (c : color_run) : M ROW color_run :=
  let attr := TextAttr (_currentView it) in
  if bool_decide (TextAttrBehavior (_currentView it) = Current) then ret c
  else if bool_decide (currentColor c = attr)
  then ret (mkColorRun (currentColor c) (u16 (colorUses c + 1)) (colorStarts c))
  else
    on_attr (rle_replace 16 (colorStarts c) currentIndex (currentColor c)) ;;
    ret (mkColorRun attr 1 currentIndex).

(** The loop; an iteration advances [currentIndex], an [uint16_t], by one. *)
Fixpoint write_loop (fuel : nat) (it : OutputCellIterator) (wrap : option bool)
    (finalColumnInRow currentIndex : Z) (c : color_run)
  : M ROW (OutputCellIterator * Z * color_run) :=
  if iterator_valid it && (currentIndex <=? finalColumnInRow) then
    match fuel with
    | O => outOfFuel
    | S fuel =>
        c <- color_cell it currentIndex c ;;
        it' <- (if bool_decide (TextAttrBehavior (_currentView it) = StoredOnly) then ret (next it)
                else write_cell it wrap currentIndex finalColumnInRow) ;;
        write_loop fuel it' wrap finalColumnInRow (u16 (currentIndex + 1)) c
    end
  else ret (it, currentIndex, c).

Definition WriteCells (it : OutputCellIterator) (columnBegin : Z) (wrap : option bool)
    (limitRight : option Z) : M ROW OutputCellIterator :=
  size <- get _columnCount ;;
  if size <=? columnBegin then throw StdException
  else if size <=? default 0 limitRight then throw StdException
  else
    let finalColumnInRow := default (size - 1) limitRight in
    let columnBegin := u16 columnBegin in
    res <- write_loop (Z.to_nat (finalColumnInRow + 1)) it wrap finalColumnInRow columnBegin
             (mkColorRun (TextAttr (_currentView it)) 0 columnBegin) ;;
    let '(it', currentIndex, c) := res in
    (if negb (colorUses c =? 0)
     then on_attr (rle_replace 16 (colorStarts c) currentIndex (currentColor c)) else ret tt) ;;
    ret it'.

End WriteCells.

(** ** Splicing glyphs into a row *)

Definition splice (c : nat) (G gs : list glyph) : list glyph :=
  match G with
  | [] => gs
  | _ => take_cols c gs ++ G ++ drop_cols (c + cols G) gs
  end.

Lemma splice_eq c G gs : G <> [] -> splice c G gs = take_cols c gs ++ G ++ drop_cols (c + cols G) gs.
Proof. by destruct G. Qed.

Lemma overwrite_splice c0 w chars gs :
  overwrite c0 (c0 + w) chars gs = splice c0 [Glyph chars w] gs.
Proof.
  rewrite splice_eq by done. unfold overwrite. rewrite cols_cons. cbn [g_cols].
  replace (c0 + w - c0)%nat with w by lia. do 3 f_equal. cbn. lia.
Qed.

Lemma take_cols_app A B : Forall glyph_ok A -> Forall glyph_ok B -> take_cols (cols A) (A ++ B) = A.
Proof.
  intros HA HB. rewrite (located_take (A ++ B) A B 0 (cols A)).
  - apply app_nil_r.
  - by apply Forall_app_2.
  - split; [done|]. split; [lia|by left].
Qed.

Lemma drop_cols_0 gs : drop_cols 0 gs = gs.
Proof. by destruct gs. Qed.

Lemma drop_cols_app A B n : Forall glyph_ok A -> drop_cols (cols A + n) (A ++ B) = drop_cols n B.
Proof.
  induction 1 as [|g A [_ Hg] HA IH]; [done|]. cbn [app drop_cols]. rewrite cols_cons.
  destruct (Nat.eqb_spec (g_cols g + cols A + n) 0); [lia|].
  destruct (Nat.leb_spec (g_cols g) (g_cols g + cols A + n)); [|lia].
  by replace (g_cols g + cols A + n - g_cols g)%nat with (cols A + n)%nat by lia.
Qed.

Lemma drop_cols_spaces n k gs :
  drop_cols n (spaces k ++ gs) = if (n <=? k)%nat then spaces (k - n) ++ gs else drop_cols (n - k) gs.
Proof.
  destruct (Nat.leb_spec n k).
  - replace k with (n + (k - n))%nat at 1 by lia. rewrite <- spaces_app, <- app_assoc.
    rewrite <- (Nat.add_0_r n) at 1. rewrite <- (cols_spaces n) at 1.
    rewrite drop_cols_app by apply spaces_ok. by rewrite drop_cols_0.
  - replace n with (k + (n - k))%nat at 1 by lia. rewrite <- (cols_spaces k) at 1.
    by rewrite drop_cols_app by apply spaces_ok.
Qed.

Lemma drop_cols_add gs m n : drop_cols n (drop_cols m gs) = drop_cols (m + n) gs.
Proof.
  revert m n; induction gs as [|g gs IH]; intros m n; [done|].
  destruct (Nat.eqb_spec m 0) as [->|Hm]; [by rewrite drop_cols_0|].
  cbn [drop_cols]. rewrite (proj2 (Nat.eqb_neq m 0)) by done.
  rewrite (proj2 (Nat.eqb_neq (m + n) 0)) by lia.
  destruct (Nat.leb_spec (g_cols g) m).
  - destruct (Nat.leb_spec (g_cols g) (m + n)); [|lia]. rewrite IH. f_equal. lia.
  - rewrite drop_cols_spaces. destruct (Nat.leb_spec n (g_cols g - m)), (Nat.leb_spec (g_cols g) (m + n)); try lia.
    + replace n with (g_cols g - m)%nat by lia.
      replace (g_cols g - m - (g_cols g - m))%nat with 0%nat by lia.
      replace (m + (g_cols g - m) - g_cols g)%nat with 0%nat by lia. by rewrite drop_cols_0.
    + do 2 f_equal. lia.
    + f_equal. lia.
Qed.

Lemma take_drop_ok gs c :
  Forall glyph_ok gs -> (c <= cols gs)%nat ->
  cols (take_cols c gs) = c /\ Forall glyph_ok (take_cols c gs) /\
  cols (drop_cols c gs) = (cols gs - c)%nat /\ Forall glyph_ok (drop_cols c gs).
Proof.
  intros Hok Hc. destruct (locate gs c Hok Hc) as (A & B & k & HL).
  destruct (located_ends gs A B k c Hok HL) as (D & C & t & (HD & HcD & Hd) & _).
  rewrite (located_take gs A B k c Hok HL), Hd. destruct HL as (HA & Hck & _).
  pose proof Hok as Hok1. rewrite HA in Hok1. apply Forall_app in Hok1 as [HokA _].
  pose proof Hok as Hok2. rewrite HD in Hok2. apply Forall_app in Hok2 as [_ HokC].
  rewrite HD, !cols_app, !cols_spaces. split_and!; [lia| |lia|].
  - apply Forall_app_2; [done|apply spaces_ok].
  - apply Forall_app_2; [apply spaces_ok|done].
Qed.

Lemma splice_ok c G gs :
  Forall glyph_ok gs -> Forall glyph_ok G -> (c + cols G <= cols gs)%nat ->
  cols (splice c G gs) = cols gs /\ Forall glyph_ok (splice c G gs).
Proof.
  intros Hok HG Hc. destruct (decide (G = [])) as [->|Hne]; [done|]. rewrite splice_eq by done. destruct (take_drop_ok gs c Hok) as (Ht & Hto & _); [lia|].
  destruct (take_drop_ok gs (c + cols G) Hok Hc) as (_ & _ & Hd & Hdo).
  rewrite !cols_app, Ht, Hd. split; [lia|]. by repeat apply Forall_app_2.
Qed.

(** Splicing behind what was just spliced, and over it again. *)
Lemma splice_splice c G H gs :
  Forall glyph_ok gs -> Forall glyph_ok G -> (c + cols G <= cols gs)%nat ->
  splice (c + cols G) H (splice c G gs) = splice c (G ++ H) gs.
Proof.
  intros Hok HG Hc. destruct (decide (G = [])) as [->|HneG]; [by rewrite Nat.add_0_r|].
  destruct (decide (H = [])) as [->|HneH]; [by rewrite app_nil_r|]. destruct (take_drop_ok gs c Hok) as (Ht & Hto & _); [lia|].
  destruct (take_drop_ok gs (c + cols G) Hok Hc) as (_ & _ & _ & Hdo).
  assert (HA : cols (take_cols c gs ++ G) = (c + cols G)%nat) by (rewrite cols_app; lia).
  assert (HoA : Forall glyph_ok (take_cols c gs ++ G)) by (by apply Forall_app_2).
  assert (E : splice c G gs = (take_cols c gs ++ G) ++ drop_cols (c + cols G) gs)
    by (rewrite splice_eq by done; by rewrite app_assoc).
  rewrite E, splice_eq by done. rewrite <- HA.
  rewrite take_cols_app, drop_cols_app, drop_cols_add by (done || by rewrite HA).
  rewrite HA, splice_eq by (by destruct G). rewrite cols_app, <- !app_assoc. do 4 f_equal. lia.
Qed.

Lemma splice_again c g gs :
  Forall glyph_ok gs -> glyph_ok g -> (c + g_cols g <= cols gs)%nat ->
  splice c [g] (splice c [g] gs) = splice c [g] gs.
Proof.
  intros Hok Hg Hc. destruct (take_drop_ok gs c Hok) as (Ht & Hto & _); [lia|].
  destruct (take_drop_ok gs (c + cols [g]) Hok) as (_ & _ & _ & Hdo); [rewrite cols_cons; cbn; lia|].
  assert (HF : Forall glyph_ok [g]) by (by constructor).
  rewrite !(splice_eq _ _ gs) by done. rewrite splice_eq by done.
  set (rest := drop_cols (c + cols [g]) gs) in *. set (T := take_cols c gs) in *.
  clearbody rest T. rewrite <- Ht.
  rewrite take_cols_app, drop_cols_app by (done || by apply Forall_app_2).
  rewrite <- (Nat.add_0_r (cols [g])), drop_cols_app, drop_cols_0 by done. done.
Qed.

Lemma narrow_splice c G gs :
  Forall glyph_ok gs -> (c + cols G <= cols gs)%nat -> narrow gs -> narrow G -> narrow (splice c G gs).
Proof.
  intros Hok Hc Hn HG. destruct (decide (G = [])) as [->|Hne]; [done|]. rewrite splice_eq by done.
  apply Forall_app_2; [by apply narrow_take_cols|].
  apply Forall_app_2; [done|]. clear -Hn. revert Hn. generalize (c + cols G)%nat.
  induction gs as [|g gs IH]; intros n Hn; [done|]. inversion Hn; subst. cbn [drop_cols].
  case_if; [done|]. case_if; [by apply IH|]. apply Forall_app_2; [apply narrow_spaces|done].
Qed.

(** ** Rows as lines

    What a row holds, apart from how: its glyphs, the attribute of each column, the
    rendition and the two flags. *)
Record line := mkLine {
  l_glyphs : list glyph;
  l_attrs : list TextAttribute;
  l_rendition : LineRendition;
  l_wrap : bool;
  l_padded : bool
}.

Definition set_l_glyphs gs l := mkLine gs (l_attrs l) (l_rendition l) (l_wrap l) (l_padded l).
Definition set_l_attrs a l := mkLine (l_glyphs l) a (l_rendition l) (l_wrap l) (l_padded l).
Definition set_l_rendition x l := mkLine (l_glyphs l) (l_attrs l) x (l_wrap l) (l_padded l).
Definition set_l_wrap x l := mkLine (l_glyphs l) (l_attrs l) (l_rendition l) x (l_padded l).
Definition set_l_padded x l := mkLine (l_glyphs l) (l_attrs l) (l_rendition l) (l_wrap l) x.

Record shows (r : ROW) (l : line) : Prop := {
  sh_glyphs : represents r (l_glyphs l);
  sh_narrow : narrow (l_glyphs l);
  sh_attributed : attributed r;
  sh_attrs : contents (_attr r) = l_attrs l;
  sh_rendition : _lineRendition r = l_rendition l;
  sh_wrap : _wrapForced r = l_wrap l;
  sh_padded : _doubleBytePadded r = l_padded l;
  sh_buffer : _charsBuffer r = true;
  sh_columns : 0 <= _columnCount r <= MAX_COLUMNS
}.

Definition l_width (l : line) : nat := cols (l_glyphs l).

Lemma shows_width r l : shows r l -> _columnCount r = Z.of_nat (l_width l).
Proof. intros H. apply (rp_columns _ _ (sh_glyphs _ _ H)). Qed.

Lemma shows_width_bound r l : shows r l -> Z.of_nat (l_width l) <= MAX_COLUMNS.
Proof. intros H. pose proof (shows_width r l H). pose proof (sh_columns _ _ H). lia. Qed.

Lemma shows_row_ok r l : shows r l -> row_ok r.
Proof. intros []. split; eauto. Qed.

Lemma shows_glyphs_ok r l : shows r l -> Forall glyph_ok (l_glyphs l).
Proof. intros H. apply (rp_ok _ _ (sh_glyphs _ _ H)). Qed.

Lemma shows_attrs_length r l : shows r l -> length (l_attrs l) = l_width l.
Proof.
  intros H. rewrite <- (sh_attrs _ _ H). destruct (sh_attributed _ _ H) as [Hw _ Ht].
  pose proof (length_decode _ (wf_unsigned _ _ Hw)) as Hd. unfold contents.
  rewrite <- (wf_total _ _ Hw), Ht, (shows_width _ _ H) in Hd. lia.
Qed.

Lemma shows_same r r' l gs :
  shows r l -> same_rest r r' -> represents r' gs -> narrow gs -> shows r' (set_l_glyphs gs l).
Proof.
  intros [] (E1 & E2 & E3 & E4 & E5 & E6) Hr Hn. constructor; cbn; try congruence; try done.
  destruct sh_attributed0. split; rewrite ?E2, ?E3; done.
Qed.

Lemma shows_wrap r l w : shows r l -> shows (SetWrapForced w r) (set_l_wrap w l).
Proof. intros [Hg ? Ha ? ? ? ? ? ?]. constructor; try done; [by destruct Hg; split|by destruct Ha; split]. Qed.

Lemma shows_padded r l w : shows r l -> shows (SetDoubleBytePadded w r) (set_l_padded w l).
Proof. intros [Hg ? Ha ? ? ? ? ? ?]. constructor; try done; [by destruct Hg; split|by destruct Ha; split]. Qed.

Lemma shows_rendition r l x : shows r l -> shows (SetLineRendition x r) (set_l_rendition x l).
Proof. intros [Hg ? Ha ? ? ? ? ? ?]. constructor; try done; [by destruct Hg; split|by destruct Ha; split]. Qed.

(** A blank line. *)
Definition blank_line (width : nat) (a : TextAttribute) : line :=
  mkLine (spaces width) (repeat a width) SingleWidth false false.

Lemma shows_reset r l a : shows r l -> shows (Reset a r) (blank_line (l_width l) a).
Proof.
  intros H. destruct (perform_ok 0 (OpReset a) r (shows_row_ok _ _ H) I) as (r' & E & [(gs & Hg & _) Ha Hb Hc]).
  injection E as <-. pose proof (shows_width _ _ H) as Hw. pose proof (sh_columns _ _ H) as Hcol.
  assert (Z.to_nat (_columnCount r) = l_width l) as Ew by lia. unfold MAX_COLUMNS in Hcol.
  constructor; cbn [blank_line l_glyphs l_attrs l_rendition l_wrap l_padded]; try done.
  - rewrite <- Ew. by apply init_represents; [eval_ground; lia|..].
  - apply narrow_spaces.
  - change (decode (_runs (rle_of_value (_columnCount r) a)) = repeat a (l_width l)).
    rewrite <- Ew. unfold rle_of_value. destruct (Z.eqb_spec (_columnCount r) 0) as [->|]; [done|].
    cbn [_runs]. rewrite decode_cons. apply app_nil_r.
Qed.

(** ** Each operation on a line *)

Lemma shows_replace garbage r l c w chars :
  shows r l -> (0 < w)%nat -> (c + w <= l_width l)%nat -> chars <> [] -> (length chars <= 2)%nat ->
  exists r', ReplaceCharacters garbage (Z.of_nat c) (Z.of_nat w) chars r = (r', Ok tt) /\
    shows r' (set_l_glyphs (splice c [Glyph chars w] (l_glyphs l)) l).
Proof.
  intros H Hw Hc Hch Hlen. pose proof (shows_glyphs_ok _ _ H) as Hok. unfold l_width in Hc.
  pose proof (shows_width_bound _ _ H) as Hb. unfold l_width, MAX_COLUMNS in Hb.
  assert (Ec : Z.to_nat (Z.of_nat c + Z.of_nat w) = (c + w)%nat) by lia.
  assert (Hg : Forall glyph_ok [Glyph chars w]) by (repeat constructor; cbn; [done|lia]).
  assert (Hcg : cols [Glyph chars w] = w) by (rewrite cols_cons; cbn; lia).
  assert (Hsp : (c + cols [Glyph chars w] <= cols (l_glyphs l))%nat) by lia.
  destruct (splice_ok c [Glyph chars w] (l_glyphs l) Hok Hg Hsp) as [Hsc Hso].
  assert (Hn : narrow (splice c [Glyph chars w] (l_glyphs l)))
    by (apply narrow_splice; [done|done|apply H|by constructor; [|constructor]]).
  pose proof (narrow_text _ Hso Hn) as Ht.
  destruct (ReplaceCharacters_ok garbage r (l_glyphs l) (Z.of_nat c) (Z.of_nat w) chars)
    as (r' & E & Hr' & Hs); try done; try lia.
  - apply H.
  - rewrite Ec, Nat2Z.id, overwrite_splice. eval_ground. lia.
  - rewrite Ec, Nat2Z.id, overwrite_splice in Hr'. exists r'. split; [done|]. by eapply shows_same.
Qed.

Lemma shows_clear garbage r l c :
  shows r l -> (c < l_width l)%nat ->
  exists r', ClearCell garbage (Z.of_nat c) r = (r', Ok tt) /\
    shows r' (set_l_glyphs (splice c [space] (l_glyphs l)) l).
Proof. intros H Hc. apply (shows_replace garbage r l c 1 [UNICODE_SPACE]); cbn; try done; lia. Qed.

(** The attributes of some columns. *)
Definition splice_attrs (c n : nat) (a : TextAttribute) (attrs : list TextAttribute) : list TextAttribute :=
  take c attrs ++ repeat a n ++ drop (c + n) attrs.

Lemma shows_attr r l c n a :
  shows r l -> (0 < n)%nat -> (c + n <= l_width l)%nat ->
  exists r', on_attr (rle_replace 16 (Z.of_nat c) (Z.of_nat (c + n)) a) r = (r', Ok tt) /\
    shows r' (set_l_attrs (splice_attrs c n a (l_attrs l)) l).
Proof.
  intros H Hn Hc. pose proof (shows_width _ _ H) as Hw. destruct (sh_attributed _ _ H) as [Hwf Hcp Ht].
  destruct (replace_ok 16 (_attr r) (Z.of_nat c) (Z.of_nat (c + n)) a Hwf)
    as (x & E & Hw' & Hx & Ht' & Hc'); [lia|lia|].
  unfold on_attr. rewrite E. eexists. split; [done|].
  rewrite Z.min_l in Hx, Hc' by lia.
  destruct H as [Hg ? ? Hat ? ? ? ? ?]. constructor; cbn; try done.
  - by destruct Hg; split.
  - split; cbn; [done|apply Hc'; [done|lia]|lia].
  - rewrite Hx, Hat. unfold spliced, splice_attrs.
    replace (Z.to_nat (Z.of_nat (c + n) - Z.of_nat c)) with n by lia. by rewrite !Nat2Z.id.
Qed.

(** ** The glyphs an iterator presents *)

(** The glyphs that fit in [n] columns, and the others. *)
Fixpoint fitting (n : nat) (G : list glyph) : list glyph * list glyph :=
  match G with
  | [] => ([], [])
  | g :: G' =>
      if (g_cols g <=? n)%nat
      then let '(P, R) := fitting (n - g_cols g) G' in (g :: P, R)
      else ([], G)
  end.

(** What is written: the glyphs that fit, and a blank where the next one is cut. *)
Definition written (n : nat) (G : list glyph) : list glyph :=
  let '(P, R) := fitting n G in
  P ++ (if (cols P <? n)%nat && negb (bool_decide (R = [])) then [space] else []).

Definition cut (n : nat) (G : list glyph) : bool :=
  let '(P, R) := fitting n G in (cols P <? n)%nat && negb (bool_decide (R = [])).

(** The line after a write of glyphs at column [c] into [n] columns, before the
    attributes are committed. *)
Definition write_line (c n : nat) (G : list glyph) (wrap : option bool) (l : line) : line :=
  let W := written n G in
  mkLine (splice c W (l_glyphs l)) (l_attrs l) (l_rendition l)
    (if (0 <? n)%nat && (cols W =? n)%nat then default (l_wrap l) wrap else l_wrap l)
    (if cut n G then true else l_padded l).

(** Glyphs of one or two columns and at most two code units. *)
Definition cell_glyphs (G : list glyph) : Prop :=
  Forall (fun g => (g_cols g = 1 \/ g_cols g = 2)%nat /\ g_text g <> [] /\ (length (g_text g) <= 2)%nat) G.

Lemma cell_glyphs_ok G : cell_glyphs G -> Forall glyph_ok G.
Proof. apply Forall_impl. intros g (H1 & H2 & _). split; [done|lia]. Qed.

Lemma cell_glyphs_narrow G : cell_glyphs G -> narrow G.
Proof. apply Forall_impl. by intros g (_ & _ & H). Qed.

Section Presents.
Context {GW : GlyphWidth} (statics : Statics) (garbage : wchar) (a : TextAttribute) (psize : glyph -> Z).

#[local] Abbreviation next := (iterator_next statics).

(** An iterator at the first cell of a list of glyphs, all with attribute [a]; [psize]
    is how far a glyph moves the position in the input. *)
Fixpoint presents (it : OutputCellIterator) (G : list glyph) : Prop :=
  match G with
  | [] => iterator_valid it = false
  | g :: G' =>
      iterator_valid it = true /\ TextAttr (_currentView it) = a /\
      TextAttrBehavior (_currentView it) = Stored /\ Chars (_currentView it) = g_text g /\
      exists it', presents it' G' /\ _pos it' = _pos it + psize g /\
        _distance it' = _distance it + Z.of_nat (g_cols g) /\
        (g_cols g = 1%nat /\ DbcsAttr (_currentView it) = Single /\ it' = next it \/
         g_cols g = 2%nat /\ DbcsAttr (_currentView it) = Leading /\
         iterator_valid (next it) = true /\
         _currentView (next it) = set_dbcs Trailing (_currentView it) /\ it' = next (next it))
  end.

Lemma fitting_cols n G : (cols (fitting n G).1 <= n)%nat.
Proof.
  revert n; induction G as [|g G IH]; intros n; [cbn; lia|]. cbn [fitting].
  destruct (Nat.leb_spec (g_cols g) n); [|cbn; lia].
  specialize (IH (n - g_cols g)%nat). destruct (fitting _ G) as [P R]. cbn [fst] in *.
  rewrite cols_cons. lia.
Qed.

Lemma written_cols n G : (cols (written n G) <= n)%nat.
Proof.
  unfold written. pose proof (fitting_cols n G). destruct (fitting n G) as [P R]. cbn [fst] in *.
  rewrite cols_app. case_if; bool_prop; cbn; [|lia]. destruct (Nat.ltb_spec (cols P) n); [lia|done].
Qed.

Lemma fitting_app n G : (fitting n G).1 ++ (fitting n G).2 = G.
Proof.
  revert n; induction G as [|g G IH]; intros n; [done|]. cbn [fitting].
  destruct (g_cols g <=? n)%nat; [|done]. specialize (IH (n - g_cols g)%nat).
  destruct (fitting _ G) as [P R]. cbn in *. by rewrite IH.
Qed.

Lemma written_ok n G : cell_glyphs G -> Forall glyph_ok (written n G) /\ narrow (written n G).
Proof.
  intros HG. rewrite <- (fitting_app n G) in HG. apply Forall_app in HG as [HP _].
  unfold written. destruct (fitting n G) as [P R]. cbn [fst] in HP.
  split; apply Forall_app_2.
  - by apply cell_glyphs_ok.
  - case_if; [apply (spaces_ok 1)|constructor].
  - by apply cell_glyphs_narrow.
  - case_if; [apply (narrow_spaces 1)|constructor].
Qed.

(** The unfolding of [written] and [cut]. *)
Lemma written_cons_fits n g G :
  (g_cols g <= n)%nat ->
  written n (g :: G) = g :: written (n - g_cols g) G /\ cut n (g :: G) = cut (n - g_cols g) G.
Proof.
  intros Hle. unfold written, cut. cbn [fitting]. rewrite (proj2 (Nat.leb_le _ _)) by done.
  destruct (fitting (n - g_cols g) G) as [P R]. rewrite cols_cons.
  replace (g_cols g + cols P <? n)%nat with (cols P <? n - g_cols g)%nat; [done|].
  destruct (Nat.ltb_spec (cols P) (n - g_cols g)), (Nat.ltb_spec (g_cols g + cols P) n); lia || done.
Qed.

Lemma written_nil n : written n [] = [] /\ cut n [] = false.
Proof. unfold written, cut. cbn. by rewrite andb_false_r. Qed.

Lemma written_0 G : Forall glyph_ok G -> written 0 G = [] /\ cut 0 G = false.
Proof.
  destruct 1 as [|g G [_ Hg]]; [apply written_nil|]. unfold written, cut. cbn [fitting].
  rewrite (proj2 (Nat.leb_gt _ _)) by lia. done.
Qed.

Lemma written_cut g G : g_cols g = 2%nat -> written 1 (g :: G) = [space] /\ cut 1 (g :: G) = true.
Proof. intros Hg. unfold written, cut. cbn [fitting]. rewrite Hg. done. Qed.

(** Writing a first part and then the rest of the glyphs. *)
Lemma write_line_step c n g G wrap l l1 :
  Forall glyph_ok (l_glyphs l) -> glyph_ok g -> (c + n <= l_width l)%nat -> (g_cols g <= n)%nat ->
  l_glyphs l1 = splice c [g] (l_glyphs l) -> l_attrs l1 = l_attrs l -> l_rendition l1 = l_rendition l ->
  l_padded l1 = l_padded l ->
  l_wrap l1 = (if (n =? g_cols g)%nat then default (l_wrap l) wrap else l_wrap l) ->
  cell_glyphs G ->
  write_line (c + g_cols g) (n - g_cols g) G wrap l1 = write_line c n (g :: G) wrap l.
Proof.
  intros Hok Hg Hc Hle E1 E2 E3 E4 E5 HG. destruct (written_cons_fits n g G Hle) as [Hw Hcut].
  unfold write_line. rewrite Hw, Hcut, E1, E2, E3, E4, E5.
  assert (Hc1 : cols [g] = g_cols g) by (rewrite cols_cons; cbn; lia).
  rewrite <- Hc1 at 1. unfold l_width in Hc.
  rewrite splice_splice by first [done | by constructor | lia]. cbn [app]. f_equal.
  pose proof (written_cols (n - g_cols g) G). rewrite cols_cons.
  destruct Hg as [_ Hg]. destruct (Nat.ltb_spec 0 n); [|lia]. cbn [andb].
  destruct (Nat.eqb_spec n (g_cols g)) as [->|Hne].
  - rewrite Nat.sub_diag in *. destruct (Nat.eqb_spec (g_cols g + cols (written 0 G)) (g_cols g)); [done|lia].
  - destruct (Nat.ltb_spec 0 (n - g_cols g)); [|lia]. cbn [andb].
    destruct (Nat.eqb_spec (cols (written (n - g_cols g) G)) (n - g_cols g)),
      (Nat.eqb_spec (g_cols g + cols (written (n - g_cols g) G)) n); lia || done.
Qed.

(** One iteration with a stored attribute that continues the run. *)
Lemma loop_cell fuel it wrap final idx cr r r1 it1 :
  iterator_valid it = true -> TextAttr (_currentView it) = a ->
  TextAttrBehavior (_currentView it) = Stored -> idx <= final -> currentColor cr = a ->
  write_cell statics garbage it wrap idx final r = (r1, Ok it1) ->
  write_loop statics garbage (S fuel) it wrap final idx cr r
  = write_loop statics garbage fuel it1 wrap final (u16 (idx + 1))
      (mkColorRun a (u16 (colorUses cr + 1)) (colorStarts cr)) r1.
Proof.
  intros Hv Ha Hb Hi Hc Hw. cbn [write_loop]. rewrite Hv, (proj2 (Z.leb_le _ _)) by done. cbn [andb].
  unfold color_cell. rewrite Hb, Ha, Hc, (bool_decide_eq_false_2 (Stored = Current)) by done.
  rewrite (bool_decide_eq_true_2 (a = a)), (bool_decide_eq_false_2 (Stored = StoredOnly)) by done.
  unfold bind at 1. cbn [ret]. by rewrite (bind_Ok _ _ _ _ _ Hw).
Qed.

(** The wrap flag is set when the last column was filled. *)
Definition wrap_last (wrap : option bool) (last : bool) (l : line) : line :=
  match wrap with Some w => if last then set_l_wrap w l else l | None => l end.

Lemma wrap_last_width wrap last c g l :
  Forall glyph_ok (l_glyphs l) -> glyph_ok g -> (c + g_cols g <= l_width l)%nat ->
  l_width (wrap_last wrap last (set_l_glyphs (splice c [g] (l_glyphs l)) l)) = l_width l.
Proof.
  intros Hok Hg Hc. unfold l_width in *.
  replace (l_glyphs (wrap_last _ _ _)) with (splice c [g] (l_glyphs l)) by (by destruct wrap, last).
  apply splice_ok; [done|by constructor|]. rewrite cols_cons. cbn. lia.
Qed.

Lemma finish_cell (m : M ROW OutputCellIterator) wrap (last : bool) r r1 it1 l1 :
  m r = (r1, Ok it1) -> shows r1 l1 ->
  exists r2,
    (it' <- m ;;
     (match wrap with Some w => if last then modify (SetWrapForced w) else ret tt | None => ret tt end) ;;
     ret it') r = (r2, Ok it1) /\ shows r2 (wrap_last wrap last l1).
Proof.
  intros E H. rewrite (bind_Ok _ _ _ _ _ E). destruct wrap as [w|]; [|by exists r1].
  destruct last; cbn; [|by exists r1]. exists (SetWrapForced w r1). split; [done|]. by apply shows_wrap.
Qed.

Lemma write_cell_single it wrap c n r l g :
  shows r l -> (0 < n)%nat -> (c + n <= l_width l)%nat ->
  DbcsAttr (_currentView it) = Single -> Chars (_currentView it) = g_text g -> g_cols g = 1%nat ->
  g_text g <> [] -> (length (g_text g) <= 2)%nat ->
  exists r1, write_cell statics garbage it wrap (Z.of_nat c) (Z.of_nat (c + n) - 1) r = (r1, Ok (next it)) /\
    shows r1 (wrap_last wrap (n =? 1)%nat (set_l_glyphs (splice c [g] (l_glyphs l)) l)).
Proof.
  intros H Hn Hc Hd Hch Hg Hne Hlen. unfold write_cell. rewrite Hd, Hch.
  replace (Z.of_nat c =? Z.of_nat (c + n) - 1) with (n =? 1)%nat
    by (destruct (Nat.eqb_spec n 1), (Z.eqb_spec (Z.of_nat c) (Z.of_nat (c + n) - 1)); lia || done).
  destruct (shows_replace garbage r l c 1 (g_text g) H) as (r1 & E & H1); [lia|lia|done|done|].
  change (Z.of_nat 1) with 1 in E.
  destruct g as [t k]. cbn [g_text g_cols] in *. subst k.
  eapply finish_cell; [|exact H1]. by rewrite (bind_Ok _ _ _ _ _ E).
Qed.

Lemma write_cell_leading it wrap c n r l g :
  shows r l -> (1 < n)%nat -> (c + n <= l_width l)%nat ->
  DbcsAttr (_currentView it) = Leading -> Chars (_currentView it) = g_text g -> g_cols g = 2%nat ->
  g_text g <> [] -> (length (g_text g) <= 2)%nat ->
  exists r1, write_cell statics garbage it wrap (Z.of_nat c) (Z.of_nat (c + n) - 1) r = (r1, Ok (next it)) /\
    shows r1 (set_l_glyphs (splice c [g] (l_glyphs l)) l).
Proof.
  intros H Hn Hc Hd Hch Hg Hne Hlen. unfold write_cell. rewrite Hd, Hch.
  rewrite (proj2 (Z.eqb_neq (Z.of_nat c) (Z.of_nat (c + n) - 1))) by lia.
  destruct (shows_replace garbage r l c 2 (g_text g) H) as (r1 & E & H1); [lia|lia|done|done|].
  change (Z.of_nat 2) with 2 in E.
  destruct g as [t k]. cbn [g_text g_cols] in *. subst k.
  destruct (finish_cell (ReplaceCharacters garbage (Z.of_nat c) 2 t ;; ret (next it)) wrap false r r1
    (next it) _ ltac:(by rewrite (bind_Ok _ _ _ _ _ E)) H1) as (r2 & E2 & H2).
  exists r2. split; [exact E2|]. by destruct wrap.
Qed.

Lemma write_cell_trailing it wrap c n r l g :
  shows r l -> (1 < n)%nat -> (c + n <= l_width l)%nat ->
  DbcsAttr (_currentView it) = Trailing -> Chars (_currentView it) = g_text g -> g_cols g = 2%nat ->
  g_text g <> [] -> (length (g_text g) <= 2)%nat ->
  exists r1, write_cell statics garbage it wrap (Z.of_nat (c + 1)) (Z.of_nat (c + n) - 1) r = (r1, Ok (next it)) /\
    shows r1 (wrap_last wrap (n =? 2)%nat (set_l_glyphs (splice c [g] (l_glyphs l)) l)).
Proof.
  intros H Hn Hc Hd Hch Hg Hne Hlen. unfold write_cell. rewrite Hd, Hch.
  replace (Z.of_nat (c + 1) =? Z.of_nat (c + n) - 1) with (n =? 2)%nat
    by (destruct (Nat.eqb_spec n 2), (Z.eqb_spec (Z.of_nat (c + 1)) (Z.of_nat (c + n) - 1)); lia || done).
  rewrite (proj2 (Z.eqb_neq (Z.of_nat (c + 1)) 0)) by lia.
  replace (Z.of_nat (c + 1) - 1) with (Z.of_nat c) by lia.
  destruct (shows_replace garbage r l c 2 (g_text g) H) as (r1 & E & H1); [lia|lia|done|done|].
  change (Z.of_nat 2) with 2 in E.
  destruct g as [t k]. cbn [g_text g_cols] in *. subst k.
  eapply finish_cell; [|exact H1]. by rewrite (bind_Ok _ _ _ _ _ E).
Qed.

Lemma write_cell_cut it wrap c r l :
  shows r l -> (c + 1 <= l_width l)%nat -> DbcsAttr (_currentView it) = Leading ->
  exists r1, write_cell statics garbage it wrap (Z.of_nat c) (Z.of_nat (c + 1) - 1) r = (r1, Ok it) /\
    shows r1 (wrap_last wrap true (set_l_padded true (set_l_glyphs (splice c [space] (l_glyphs l)) l))).
Proof.
  intros H Hc Hd. unfold write_cell. rewrite Hd.
  rewrite (proj2 (Z.eqb_eq (Z.of_nat c) (Z.of_nat (c + 1) - 1))) by lia.
  destruct (shows_clear garbage r l c H) as (r1 & E & H1); [lia|].
  apply (finish_cell (ClearCell garbage (Z.of_nat c) ;; modify (SetDoubleBytePadded true) ;; ret it)
    wrap true r (SetDoubleBytePadded true r1)).
  - unfold bind. by rewrite E.
  - by apply shows_padded.
Qed.

Definition psizes (G : list glyph) : Z := foldr (fun g n => psize g + n) 0 G.

(** A column index stays an [uint16_t]. *)
Lemma u16_index c w : (c < w)%nat -> Z.of_nat w <= MAX_COLUMNS -> u16 (Z.of_nat c + 1) = Z.of_nat (c + 1).
Proof. unfold MAX_COLUMNS. intros. rewrite wrapu_small by (eval_ground; lia). lia. Qed.

(** The outcome of the loop from column [c] with [n] columns to go. *)
Definition loop_result (it : OutputCellIterator) (G : list glyph) (wrap : option bool) (c n : nat)
    (cr : color_run) (l : line) (res : ROW * Result (OutputCellIterator * Z * color_run)) : Prop :=
  let W := written n G in
  exists r' it',
    res = (r', Ok (it', Z.of_nat (c + cols W),
                   mkColorRun a (colorUses cr + Z.of_nat (cols W)) (colorStarts cr))) /\
    shows r' (write_line c n G wrap l) /\ presents it' (fitting n G).2 /\
    _pos it' = _pos it + psizes (fitting n G).1 /\
    _distance it' = _distance it + Z.of_nat (cols (fitting n G).1).

(** The loop stops: nothing is written. *)
Lemma loop_stops fuel it wrap c n cr G r l :
  presents it G -> cell_glyphs G -> shows r l -> (c + n <= l_width l)%nat -> currentColor cr = a ->
  G = [] \/ n = 0%nat ->
  loop_result it G wrap c n cr l
    (write_loop statics garbage fuel it wrap (Z.of_nat (c + n) - 1) (Z.of_nat c) cr r).
Proof.
  intros Hp HG H Hc Ha Hstop.
  assert (Hw : written n G = [] /\ cut n G = false /\ fitting n G = ([], G)).
  { destruct Hstop as [->| ->]; [destruct (written_nil n); by repeat split|].
    destruct (written_0 G (cell_glyphs_ok _ HG)). repeat split; try done.
    destruct HG as [|g G [Hg _]]; [done|]. cbn [fitting]. by rewrite (proj2 (Nat.leb_gt _ _)) by lia. }
  destruct Hw as (Hw & Hcut & Hf). exists r, it. rewrite Hw, Hf. cbn [fst snd psizes foldr cols list_sum map].
  assert (Hcond : iterator_valid it && (Z.of_nat c <=? Z.of_nat (c + n) - 1) = false).
  { destruct Hstop as [->| ->]; [by rewrite Hp|].
    rewrite (proj2 (Z.leb_gt _ _)) by lia. apply andb_false_r. }
  split_and!.
  - rewrite Nat.add_0_r, Z.add_0_r. rewrite <- Ha.
    destruct fuel; cbn [write_loop]; rewrite Hcond; by destruct cr.
  - unfold write_line. rewrite Hw, Hcut. cbn [splice cols list_sum map].
    replace (mkLine _ _ _ _ _) with l; [done|]. by destruct l, n.
  - done.
  - lia.
  - lia.
Qed.

(** A glyph was written: the outcome of the rest is the outcome of the whole. *)
Lemma loop_result_step it it1 g G wrap c n cr uses l l1 res :
  Forall glyph_ok (l_glyphs l) -> cell_glyphs (g :: G) -> (c + n <= l_width l)%nat -> (g_cols g <= n)%nat ->
  l_glyphs l1 = splice c [g] (l_glyphs l) -> l_attrs l1 = l_attrs l -> l_rendition l1 = l_rendition l ->
  l_padded l1 = l_padded l ->
  l_wrap l1 = (if (n =? g_cols g)%nat then default (l_wrap l) wrap else l_wrap l) ->
  _pos it1 = _pos it + psize g -> _distance it1 = _distance it + Z.of_nat (g_cols g) ->
  uses = colorUses cr + Z.of_nat (g_cols g) ->
  loop_result it1 G wrap (c + g_cols g) (n - g_cols g) (mkColorRun a uses (colorStarts cr)) l1 res ->
  loop_result it (g :: G) wrap c n cr l res.
Proof.
  intros Hok HG Hc Hle E1 E2 E3 E4 E5 Hpos Hdist -> (r' & it' & -> & Hs & Hp & Hpp & Hd).
  pose proof (cell_glyphs_ok _ HG) as HGo. inversion HG as [|? ? _ HG']; subst. inversion HGo; subst.
  destruct (written_cons_fits n g G Hle) as [Hw _].
  exists r', it'. rewrite Hw. cbn [fitting]. rewrite (proj2 (Nat.leb_le _ _)) by done.
  destruct (fitting (n - g_cols g) G) as [P R]. cbn [fst snd] in *. rewrite !cols_cons in *.
  cbn [psizes foldr colorUses colorStarts] in *. split_and!.
  - set (k := cols (written (n - g_cols g) G)).
    replace (c + (g_cols g + k))%nat with (c + g_cols g + k)%nat by lia.
    replace (colorUses cr + Z.of_nat (g_cols g + k)) with (colorUses cr + Z.of_nat (g_cols g) + Z.of_nat k) by lia.
    done.
  - erewrite write_line_step in Hs; eauto.
  - done.
  - fold (psizes P). fold (psizes P) in Hpp. lia.
  - lia.
Qed.

Lemma write_loop_spec G : forall fuel it wrap c n cr r l,
  presents it G -> cell_glyphs G -> shows r l -> (c + n <= l_width l)%nat -> (n <= fuel)%nat ->
  currentColor cr = a -> 0 <= colorUses cr -> colorUses cr + Z.of_nat n < 2 ^ 16 ->
  loop_result it G wrap c n cr l
    (write_loop statics garbage fuel it wrap (Z.of_nat (c + n) - 1) (Z.of_nat c) cr r).
Proof.
  induction G as [|g G IH]; intros fuel it wrap c n cr r l Hp HG H Hc Hf Ha Hu Hun.
  { by apply loop_stops; auto. }
  destruct (decide (n = 0%nat)) as [->|Hn]; [by apply loop_stops; auto|].
  pose proof (shows_width_bound _ _ H) as Hwb. pose proof (shows_glyphs_ok _ _ H) as Hok.
  pose proof Hp as (Hv & Hat & Hbe & Hch & it1 & Hp1 & Hpos & Hdist & Hcase).
  inversion HG as [|? ? (Hgc & Hgt & Hgl) HG']; subst.
  assert (Hgo : glyph_ok g) by (split; [done|lia]).
  destruct fuel as [|fuel]; [lia|].
  destruct Hcase as [(Hg1 & Hd & ->)|(Hg2 & Hd & Hv1 & Hview & ->)].
  - destruct (write_cell_single it wrap c n r l g H ltac:(lia) Hc Hd Hch Hg1 Hgt Hgl) as (r1 & E & H1).
    rewrite (loop_cell fuel it wrap _ _ cr r r1 (next it)) by (done || lia).
    rewrite (u16_index c (l_width l)) by (done || lia). rewrite wrapu_small by lia.
    eapply loop_result_step with
      (l1 := wrap_last wrap (n =? 1)%nat (set_l_glyphs (splice c [g] (l_glyphs l)) l)); try exact Hpos; try exact Hdist; eauto; try lia.
    1-5: destruct wrap; cbn; rewrite ?Hg1; try done; by destruct (n =? 1)%nat.
    rewrite Hg1. replace (Z.of_nat (c + n) - 1) with (Z.of_nat (c + 1 + (n - 1)) - 1) by lia.
    eapply IH; cbn [colorUses]; try done; try lia.
    rewrite wrap_last_width by (done || lia). lia.
  - destruct (decide (n = 1%nat)) as [->|Hn1].
    { destruct (write_cell_cut it wrap c r l H Hc Hd) as (r1 & E & H1).
      rewrite (loop_cell fuel it wrap _ _ cr r r1 it) by (done || lia).
      rewrite (u16_index c (l_width l)) by (done || lia). rewrite wrapu_small by lia.
      destruct (written_cut g G Hg2) as [Hw Hcut]. exists r1, it. rewrite Hw. cbn [fitting].
      rewrite Hg2. cbn [Nat.leb fst snd psizes foldr]. split_and!; [|..|done|cbn; lia|cbn; lia].
      - destruct fuel; cbn [write_loop]; rewrite (proj2 (Z.leb_gt _ _)), andb_false_r by lia; done.
      - unfold write_line. rewrite Hw, Hcut. by destruct wrap. }
    destruct (write_cell_leading it wrap c n r l g H ltac:(lia) Hc Hd Hch Hg2 Hgt Hgl) as (r1 & E & H1).
    rewrite (loop_cell fuel it wrap _ _ cr r r1 (next it)) by (done || lia).
    rewrite (u16_index c (l_width l)) by (done || lia). rewrite wrapu_small by lia.
    destruct fuel as [|fuel]; [lia|].
    assert (Hc1 : (c + n <= l_width (set_l_glyphs (splice c [g] (l_glyphs l)) l))%nat).
    { pose proof (wrap_last_width None true c g l Hok Hgo ltac:(lia)) as Ew. cbn [wrap_last] in Ew. lia. }
    destruct (write_cell_trailing (next it) wrap c n r1 _ g H1 ltac:(lia) Hc1) as (r2 & E2 & H2);
      try (rewrite Hview; cbn [set_dbcs DbcsAttr Chars]); try done.
    rewrite (loop_cell fuel (next it) wrap _ _ _ r1 r2 (next (next it))); try done;
      try (rewrite Hview; cbn [set_dbcs TextAttr TextAttrBehavior]); try done; try lia.
    cbn [colorUses colorStarts].
    replace (u16 (Z.of_nat (c + 1) + 1)) with (Z.of_nat (c + 2))
      by (unfold MAX_COLUMNS in Hwb; rewrite wrapu_small by (eval_ground; lia); lia).
    rewrite wrapu_small by lia. cbn [set_l_glyphs l_glyphs l_attrs l_rendition l_wrap l_padded] in H2.
    rewrite splice_again in H2 by (done || (split; [done|lia]) || (unfold l_width in Hc; lia)).
    eapply loop_result_step with
      (uses := colorUses cr + 1 + 1)
      (l1 := wrap_last wrap (n =? 2)%nat (set_l_glyphs (splice c [g] (l_glyphs l)) l)); try exact Hpos; try exact Hdist; eauto; try lia.
    1-5: destruct wrap; cbn; rewrite ?Hg2; try done; by destruct (n =? 2)%nat.
    rewrite Hg2. replace (Z.of_nat (c + n) - 1) with (Z.of_nat (c + 2 + (n - 2)) - 1) by lia.
    eapply IH; cbn [colorUses]; try done; try lia.
    rewrite wrap_last_width by (done || lia). lia.
Qed.

(** The line after a whole write. *)
Definition written_line (c n : nat) (G : list glyph) (wrap : option bool) (l : line) : line :=
  set_l_attrs (splice_attrs c (cols (written n G)) a (l_attrs l)) (write_line c n G wrap l).

Lemma splice_attrs_0 c attrs : splice_attrs c 0 a attrs = attrs.
Proof. unfold splice_attrs. cbn. by rewrite Nat.add_0_r, take_drop. Qed.

Lemma write_line_width c n G wrap l :
  Forall glyph_ok (l_glyphs l) -> cell_glyphs G -> (c + n <= l_width l)%nat ->
  l_width (write_line c n G wrap l) = l_width l.
Proof.
  intros Hok HG Hc. unfold l_width in *. cbn. pose proof (written_cols n G).
  destruct (written_ok n G HG). apply splice_ok; [done|done|lia].
Qed.

Lemma WriteCells_spec G it wrap limitRight c n r l :
  presents it G -> cell_glyphs G -> shows r l -> (c < l_width l)%nat -> (c + n <= l_width l)%nat ->
  default (Z.of_nat (l_width l) - 1) limitRight = Z.of_nat (c + n) - 1 ->
  exists r' it', WriteCells statics garbage it (Z.of_nat c) wrap limitRight r = (r', Ok it') /\
    shows r' (written_line c n G wrap l) /\ presents it' (fitting n G).2 /\
    _pos it' = _pos it + psizes (fitting n G).1 /\
    _distance it' = _distance it + Z.of_nat (cols (fitting n G).1).
Proof.
  intros Hp HG H Hc0 Hc Hlim. pose proof (shows_width _ _ H) as Hw.
  pose proof (shows_width_bound _ _ H) as Hwb. unfold MAX_COLUMNS in Hwb.
  unfold WriteCells, bind at 1, get. rewrite Hw.
  rewrite (proj2 (Z.leb_gt (Z.of_nat (l_width l)) (Z.of_nat c))) by lia.
  rewrite (proj2 (Z.leb_gt (Z.of_nat (l_width l)) (default 0 limitRight)))
    by (destruct limitRight; cbn in *; lia).
  cbv zeta. rewrite Hlim, (wrapu_small 16 (Z.of_nat c)) by (eval_ground; lia).
  set (cr := mkColorRun _ 0 _).
  destruct (decide (G = [])) as [->|HneG].
  { cbn in Hp. exists r, it. cbn [fitting fst snd psizes foldr]. split_and!; try (cbn; done || lia).
    - destruct (Z.to_nat _); cbn [write_loop]; rewrite Hp; reflexivity.
    - unfold written_line, write_line. rewrite (proj1 (written_nil n)), (proj2 (written_nil n)).
      cbn [cols list_sum map splice l_attrs]. rewrite splice_attrs_0.
      replace (set_l_attrs _ _) with l; [done|]. destruct l, n; done. }
  assert (Ha : currentColor cr = a) by (destruct G; [done|]; apply Hp).
  destruct (write_loop_spec G (Z.to_nat (Z.of_nat (c + n) - 1 + 1)) it wrap c n cr r l)
    as (r1 & it1 & E & H1 & Hp1 & Hpos & Hd); try done; try (cbn; eval_ground; lia).
  rewrite (bind_Ok _ _ _ _ _ E). cbn [colorUses colorStarts currentColor cr]. rewrite Z.add_0_l.
  pose proof (written_cols n G). set (k := cols (written n G)) in *.
  destruct (decide (k = 0%nat)) as [Hk|Hk].
  - rewrite Hk. cbn. exists r1, it1. split_and!; try done.
    unfold written_line. fold k. rewrite Hk, splice_attrs_0.
    by replace (set_l_attrs _ _) with (write_line c n G wrap l) by done.
  - rewrite (proj2 (Z.eqb_neq (Z.of_nat k) 0)) by lia. cbn [negb].
    destruct (shows_attr r1 _ c k a H1) as (r2 & E2 & H2); [lia| |].
    { rewrite write_line_width; [lia|by apply (shows_glyphs_ok r)|done|done]. }
    exists r2, it1. rewrite (bind_Ok _ _ _ _ _ E2). split_and!; try done.
Qed.

End Presents.
