(* ===== verification/OutputText.v ===== *)
(** * Text and fills as glyphs, and their writes to a row

    What the iterators over text and over a repeated character present to
    [ROW::WriteCells], and the two theorems about the composition: the text that fits
    in a line, and a fill. *)

From S2P Require Import Prelude Effects LineRendition TextColor TextAttribute Rle RleLaws RleSpec Row RowLayout RowSpec RowTheorems CodepointWidth OutputCells RowWrite.

Local Open Scope Z_scope.

(** ** The UTF-16 sequences of a text *)

Lemma utf16_advance_next s :
  s <> [] -> utf16_advance s = Some (utf16_next s, drop (length (utf16_next s)) s).
Proof.
  destruct s as [|c s]; [done|]. intros _. cbn. destruct (is_surrogate c); [|done].
  destruct s as [|c2 s]; cbn; [by rewrite andb_false_r|].
  by destruct (is_leading_surrogate c && is_trailing_surrogate c2).
Qed.

Lemma utf16_next_length s :
  s <> [] -> (1 <= length (utf16_next s) <= 2)%nat /\ (length (utf16_next s) <= length s)%nat.
Proof.
  destruct s as [|c s]; [done|]. intros _. cbn. destruct (is_surrogate c); [|cbn; lia].
  destruct s as [|c2 s]; cbn; [rewrite andb_false_r; cbn; lia|].
  destruct (is_leading_surrogate c && is_trailing_surrogate c2); cbn; lia.
Qed.

Lemma utf16_iterate_fuel fuel s : (length s <= fuel)%nat -> utf16_iterate fuel s = utf16_iterator s.
Proof.
  unfold utf16_iterator. revert s. induction fuel as [fuel IH] using lt_wf_ind. intros s Hs.
  destruct s as [|c s]; [by destruct fuel|]. destruct fuel as [|fuel]; [cbn in Hs; lia|].
  cbn [utf16_iterate length]. rewrite utf16_advance_next by done.
  destruct (utf16_next_length (c :: s)) as [Hn Hl]; [done|].
  set (t := drop _ _). assert (Ht : (length t <= length s)%nat) by (unfold t; rewrite length_drop; cbn in *; lia).
  f_equal. cbn in Hs. rewrite (IH fuel) by lia.
  destruct (decide (length s = fuel)) as [->|]; [by rewrite (IH fuel) by lia|].
  by rewrite (IH (length s)) by lia.
Qed.

Lemma utf16_iterator_cons s :
  s <> [] -> utf16_iterator s = utf16_next s :: utf16_iterator (drop (length (utf16_next s)) s).
Proof.
  intros Hs. unfold utf16_iterator at 1. destruct (length s) as [|n] eqn:E; [by destruct s|].
  cbn [utf16_iterate]. rewrite utf16_advance_next by done. f_equal. apply utf16_iterate_fuel.
  destruct (utf16_next_length s Hs). rewrite length_drop. lia.
Qed.

Section Glyphs.
Context {GW : GlyphWidth} (statics : Statics).

Definition glyph_columns (t : wstring) : nat := if IsGlyphFullWidth t then 2 else 1.

(** The glyphs of a text. *)
Definition glyphs_of (s : wstring) : list glyph :=
  map (fun t => Glyph t (glyph_columns t)) (utf16_iterator s).

Lemma glyphs_of_cons s :
  s <> [] -> glyphs_of s = Glyph (utf16_next s) (glyph_columns (utf16_next s))
                           :: glyphs_of (drop (length (utf16_next s)) s).
Proof. intros Hs. unfold glyphs_of. by rewrite utf16_iterator_cons. Qed.

Lemma glyphs_of_cells s : cell_glyphs (glyphs_of s).
Proof.
  induction s as [s IH] using (induction_ltof1 _ (@length Z)). unfold ltof in IH.
  destruct (decide (s = [])) as [->|Hs]; [constructor|]. rewrite glyphs_of_cons by done.
  destruct (utf16_next_length s Hs) as [Hn Hl]. constructor.
  - cbn. split; [unfold glyph_columns; destruct (IsGlyphFullWidth _); auto|].
    split; [|lia]. destruct (utf16_next s); [cbn in Hn; lia|done].
  - apply IH. rewrite length_drop. lia.
Qed.

Definition text_size (g : glyph) : Z := Z.of_nat (length (g_text g)).

(** An iterator over a text, standing at [p]. *)
Definition at_text (text : wstring) (attr : TextAttribute) (p : nat) (it : OutputCellIterator) : Prop :=
  _run it = Loose text attr /\ _pos it = Z.of_nat p /\
  ((p < length text)%nat -> _currentView it = view_of_text (drop p text) attr Stored).

Lemma iterator_next_loose text attr it :
  _run it = Loose text attr ->
  iterator_next statics it =
  let it := mkIterator (_run it) (_currentView it) (_pos it) (_distance it + 1) (_fillLimit it) in
  match _TryMoveTrailing it with
  | Some it' => it'
  | None =>
      let it' := set_pos (_pos it + Z.of_nat (length (Chars (_currentView it)))) it in
      if iterator_valid it'
      then set_view (view_of_text (drop (Z.to_nat (_pos it')) text) attr Stored) it'
      else it'
  end.
Proof. intros E. unfold iterator_next. cbv zeta. cbn [_run]. by rewrite E. Qed.

(** The step to the next glyph, from a cell that is not a leading half. *)
Lemma at_text_advance text attr p it :
  _run it = Loose text attr -> _pos it = Z.of_nat p ->
  DbcsAttr (_currentView it) <> Leading ->
  let k := length (Chars (_currentView it)) in
  at_text text attr (p + k) (iterator_next statics it) /\
  _distance (iterator_next statics it) = _distance it + 1.
Proof.
  intros Hr Hp Hd k. rewrite (iterator_next_loose text attr) by done. cbv zeta.
  unfold _TryMoveTrailing. cbn [_currentView]. rewrite bool_decide_eq_false_2 by done.
  unfold iterator_valid. cbn [set_pos _run _pos _currentView]. rewrite Hr, Hp. fold k.
  assert (E : Z.of_nat p + Z.of_nat k = Z.of_nat (p + k)) by lia. rewrite E.
  destruct (Z.ltb_spec (Z.of_nat (p + k)) (Z.of_nat (length text))).
  - split; [|done]. split; [done|]. split; [done|]. cbn. by rewrite Nat2Z.id.
  - split; [|done]. split; [done|]. split; [done|]. lia.
Qed.

Lemma presents_text text attr : forall rest p it,
  rest = drop p text -> at_text text attr p it -> (p <= length text)%nat ->
  presents statics attr text_size it (glyphs_of rest).
Proof.
  intros rest. induction rest as [rest IH] using (induction_ltof1 _ (@length Z)). unfold ltof in IH.
  intros p it -> (Hr & Hp & Hv) Hle. destruct (decide (drop p text = [])) as [E|Hne].
  { rewrite E. cbn. unfold iterator_valid. rewrite Hr, Hp. apply Z.ltb_ge.
    apply (f_equal length) in E. rewrite length_drop in E. cbn in E. lia. }
  assert (Hlt : (p < length text)%nat).
  { destruct (Nat.lt_ge_cases p (length text)); [done|]. by rewrite drop_ge in Hne by done. }
  specialize (Hv Hlt). rewrite glyphs_of_cons by done. cbn [presents].
  set (g := utf16_next (drop p text)). destruct (utf16_next_length _ Hne) as [Hn Hl]. fold g in Hn, Hl.
  rewrite length_drop in Hl.
  assert (Hvalid : iterator_valid it = true).
  { unfold iterator_valid. rewrite Hr, Hp. apply Z.ltb_lt. lia. }
  rewrite Hv. cbn [view_of_text TextAttr TextAttrBehavior Chars DbcsAttr g_text g_cols]. fold g.
  split_and!; try done.
  assert (Hrest : forall it', at_text text attr (p + length g) it' ->
    presents statics attr text_size it' (glyphs_of (drop (length g) (drop p text)))).
  { intros it' Hit'. apply (IH (drop (length g) (drop p text))) with (p := (p + length g)%nat).
    - rewrite !length_drop. lia.
    - by rewrite drop_drop.
    - done.
    - lia. }
  unfold glyph_columns, width_attr. destruct (IsGlyphFullWidth g) eqn:Hw.
  - set (it1 := iterator_next statics it).
    assert (E1 : it1 = set_view (set_dbcs Trailing (_currentView it))
      (mkIterator (_run it) (_currentView it) (_pos it) (_distance it + 1) (_fillLimit it))).
    { unfold it1. rewrite (iterator_next_loose text attr) by done. cbv zeta. unfold _TryMoveTrailing.
      cbn [_currentView]. rewrite bool_decide_eq_true_2; [done|]. rewrite Hv. cbn. unfold width_attr.
      fold g. by rewrite Hw. }
    destruct (at_text_advance text attr p it1) as [Hadv Hdist].
    + by rewrite E1.
    + by rewrite E1.
    + by rewrite E1.
    + rewrite E1 in Hadv at 1. cbn [set_view _currentView set_dbcs Chars] in Hadv. rewrite Hv in Hadv.
      cbn [view_of_text Chars] in Hadv. fold g in Hadv.
      exists (iterator_next statics it1). split; [by apply Hrest|].
      destruct Hadv as (_ & Hp' & _). rewrite Hp', Hp, Hdist. split; [unfold text_size; cbn [g_text]; lia|].
      split; [rewrite E1; cbn; lia|]. right. split_and!; try done.
      * rewrite E1. unfold iterator_valid. cbn. rewrite Hr, Hp. apply Z.ltb_lt. lia.
      * rewrite E1. cbn [set_view _currentView]. rewrite Hv. unfold view_of_text. fold g.
        unfold width_attr. by rewrite Hw.
  - destruct (at_text_advance text attr p it Hr Hp) as [Hadv Hdist].
    { rewrite Hv. cbn. unfold width_attr. fold g. by rewrite Hw. }
    rewrite Hv in Hadv. cbn [view_of_text Chars] in Hadv. fold g in Hadv.
    exists (iterator_next statics it). split; [by apply Hrest|].
    destruct Hadv as (_ & Hp' & _). rewrite Hp', Hp, Hdist. split; [unfold text_size; cbn [g_text]; lia|]. split; [cbn; lia|].
    left. done.
Qed.

Lemma presents_string text attr :
  presents statics attr text_size (iterator_of_text_attr text attr 0) (glyphs_of text).
Proof. by apply (presents_text text attr text 0); [|split|lia]. Qed.

(** ** Fills *)

Definition fill_glyph (wch : wchar) : glyph :=
  Glyph [wch] (if bool_decide (char_width_attr wch = Leading) then 2 else 1).

Lemma char_width_cases wch : char_width_attr wch = Single \/ char_width_attr wch = Leading.
Proof.
  unfold char_width_attr, width_attr. destruct (wch <? 0x80); [auto|].
  destruct (IsGlyphFullWidth _); auto.
Qed.

Definition one_each (g : glyph) : Z := 1.

Lemma fill_cells wch n : cell_glyphs (repeat (fill_glyph wch) n).
Proof.
  apply Forall_forall. intros g Hg%repeat_spec. subst g. cbn. split; [|split; [done|lia]].
  case_bool_decide; auto.
Qed.

Lemma presents_fill wch attr limit : forall n k it,
  (k + n = limit)%nat -> (0 < limit)%nat ->
  _run it = Fill -> _fillLimit it = Z.of_nat limit -> _pos it = Z.of_nat k ->
  _currentView it = view_of_char_attr wch attr ->
  presents statics attr one_each it (repeat (fill_glyph wch) n).
Proof.
  induction n as [|n IH]; intros k it Hk Hlim Hr Hf Hp Hv.
  { cbn. unfold iterator_valid. rewrite Hr, Hf, Hp. rewrite (proj2 (Z.ltb_lt 0 _)) by lia. apply Z.ltb_ge. lia. }
  cbn [repeat presents].
  assert (Hvalid : forall it', _run it' = Fill -> _fillLimit it' = Z.of_nat limit -> _pos it' = Z.of_nat k ->
    iterator_valid it' = true).
  { intros it' H1 H2 H3. unfold iterator_valid. rewrite H1, H2, H3, (proj2 (Z.ltb_lt 0 _)) by lia.
    apply Z.ltb_lt. lia. }
  rewrite Hv. cbn [view_of_char_attr TextAttr TextAttrBehavior Chars DbcsAttr].
  split_and!; try done; [by apply Hvalid|].
  destruct (char_width_cases wch) as [Hw|Hw]; rewrite Hw.
  - assert (Hg : g_cols (fill_glyph wch) = 1%nat) by (cbn; by rewrite bool_decide_eq_false_2 by congruence).
    rewrite Hg. exists (iterator_next statics it).
    assert (E : iterator_next statics it
      = mkIterator Fill (view_of_char_attr wch attr) (Z.of_nat (S k)) (_distance it + 1) (Z.of_nat limit)).
    { unfold iterator_next. cbv zeta. cbn [_run]. rewrite Hr. unfold _TryMoveTrailing. cbn [_currentView _fillLimit].
      rewrite Hv. cbn [view_of_char_attr DbcsAttr]. rewrite Hw, !bool_decide_eq_false_2 by done.
      cbn [_fillLimit set_pos _pos _run _currentView _distance].
      rewrite Hf, Hp, (proj2 (Z.ltb_lt 0 _)) by lia. unfold view_of_char_attr. rewrite Hw.
      by replace (Z.of_nat k + 1) with (Z.of_nat (S k)) by lia. }
    rewrite E. split; [by apply (IH (S k)); cbn; auto; lia|]. cbn [_pos _distance].
    split; [unfold one_each; lia|]. split; [lia|]. left. done.
  - assert (Hg : g_cols (fill_glyph wch) = 2%nat) by (cbn; by rewrite bool_decide_eq_true_2 by done).
    rewrite Hg. set (it1 := iterator_next statics it).
    assert (E1 : it1 = mkIterator Fill (set_dbcs Trailing (view_of_char_attr wch attr)) (Z.of_nat k)
      (_distance it + 1) (Z.of_nat limit)).
    { unfold it1, iterator_next. cbv zeta. cbn [_run]. rewrite Hr. unfold _TryMoveTrailing. cbn [_currentView].
      rewrite Hv. cbn [view_of_char_attr DbcsAttr]. rewrite Hw, bool_decide_eq_true_2 by done.
      unfold set_view. cbn. by rewrite Hf, Hp. }
    assert (E2 : iterator_next statics it1
      = mkIterator Fill (view_of_char_attr wch attr) (Z.of_nat (S k)) (_distance it + 1 + 1) (Z.of_nat limit)).
    { rewrite E1. unfold iterator_next. cbv zeta. cbn [_run _currentView _pos _distance _fillLimit].
      unfold _TryMoveTrailing. cbn [_currentView set_dbcs DbcsAttr].
      rewrite (bool_decide_eq_false_2 (Trailing = Leading)), (bool_decide_eq_true_2 (Trailing = Trailing)) by done.
      unfold set_view. cbn [_fillLimit set_pos _pos _run _currentView _distance set_dbcs Chars TextAttr TextAttrBehavior].
      rewrite (proj2 (Z.ltb_lt 0 _)) by lia. unfold view_of_char_attr. cbn [Chars TextAttr TextAttrBehavior]. rewrite Hw.
      by replace (Z.of_nat k + 1) with (Z.of_nat (S k)) by lia. }
    exists (iterator_next statics it1). rewrite E2. split; [by apply (IH (S k)); cbn; auto; lia|].
    cbn [_pos _distance]. split; [unfold one_each; lia|]. split; [lia|]. right.
    split_and!; try done; [by apply Hvalid; rewrite E1|]. by rewrite E1.
Qed.

Lemma presents_char_fill wch attr n :
  (0 < n)%nat ->
  presents statics attr one_each (iterator_of_char_attr wch attr (Z.of_nat n)) (repeat (fill_glyph wch) n).
Proof. intros Hn. by apply (presents_fill wch attr n n 0). Qed.

End Glyphs.

Lemma psizes_text P : psizes text_size P = len (text P).
Proof.
  induction P as [|g P IH]; [done|]. cbn [psizes foldr]. fold (psizes text_size P).
  rewrite IH, text_cons, len_app. done.
Qed.

(** C20. Writing a text into the columns of a row from [c] to a right limit replaces
    these columns by the glyphs of the text that fit (a surrogate pair is one glyph, a
    wide glyph takes two columns, a lone surrogate is the replacement character); where
    the next glyph is wide and one column is left, that column is blanked and the row
    marked as padded; the covered columns get the attribute, a glyph of the old text
    that is cut leaves spaces, the rest of the row and its rendition stay; the row is
    marked as wrapped, or not, if and only if the last of the columns written to was
    filled; and the iterator reports the code units and the cells consumed.  The comments
    on the argument [wrap] say that the mark changes when the end of the row is reached
    with data left; the code changes it also when the text ends in that column, and, with
    a right limit, at the limit rather than the end of the row. *)
Theorem write_text_to_row (GW : GlyphWidth) (statics : Statics) (garbage : wchar) (r : ROW) (l : line)
    (s : wstring) (a : TextAttribute) (c n : nat) (wrap : bool) :
  shows r l -> (c < l_width l)%nat -> (c + n <= l_width l)%nat ->
  let it := iterator_of_text_attr s a 0 in
  let fit := fitting n (glyphs_of s) in
  exists r' it',
    WriteCells statics garbage it (Z.of_nat c) (Some wrap) (Some (Z.of_nat (c + n) - 1)) r = (r', Ok it') /\
    shows r' (mkLine (splice c (written n (glyphs_of s)) (l_glyphs l))
                (splice_attrs c (cols (written n (glyphs_of s))) a (l_attrs l)) (l_rendition l)
                (if (0 <? n)%nat && (cols (written n (glyphs_of s)) =? n)%nat then wrap else l_wrap l)
                (if cut n (glyphs_of s) then true else l_padded l)) /\
    GetInputDistance it' it = len (text fit.1) /\
    GetCellDistance it' it = Z.of_nat (cols fit.1) /\ fit.1 ++ fit.2 = glyphs_of s.
Proof.
  intros H Hc Hn it fit.
  destruct (WriteCells_spec statics garbage a text_size (glyphs_of s) it (Some wrap)
    (Some (Z.of_nat (c + n) - 1)) c n r l) as (r' & it' & E & H' & _ & Hp & Hd); try done.
  - apply presents_string.
  - apply glyphs_of_cells.
  - exists r', it'. rewrite psizes_text in Hp. split_and!; try done.
    + unfold GetInputDistance. rewrite Hp. cbn. fold fit. lia.
    + unfold GetCellDistance. rewrite Hd. cbn. fold fit. lia.
    + apply fitting_app.
Qed.

Lemma shows_new n a : Z.of_nat n <= MAX_COLUMNS -> shows (ROW_new (Z.of_nat n) a) (blank_line n a).
Proof.
  unfold MAX_COLUMNS. intros Hn. destruct (rle_of_value_ok (Z.of_nat n) a) as [Hw Hc]; [eval_ground; lia|].
  constructor; cbn [blank_line l_glyphs l_attrs l_rendition l_wrap l_padded]; try done.
  - rewrite <- (Nat2Z.id n) at 2. by apply init_represents; [eval_ground; lia|..].
  - apply narrow_spaces.
  - change (decode (_runs (rle_of_value (Z.of_nat n) a)) = repeat a n).
    unfold rle_of_value. destruct (Z.eqb_spec (Z.of_nat n) 0); [by replace n with 0%nat by lia|].
    cbn [_runs]. rewrite decode_cons. unfold expand. cbn [run_length value decode map concat].
    rewrite Nat2Z.id. apply app_nil_r.
  - cbn. unfold MAX_COLUMNS. lia.
Qed.

(** A width function: a surrogate pair is wide, everything else narrow. *)
Definition pairs_wide : GlyphWidth := fun t => (length t =? 2)%nat.

Lemma write_text_to_row_witness :
  let GW := pairs_wide in
  let s := [0x61; 0xD83D; 0xDE00; 0x62] in
  let a := TextAttribute_default in
  let l := blank_line 5 a in
  let it := iterator_of_text_attr s a 0 in
  let fit := fitting 2 (glyphs_of s) in
  exists r' it',
    WriteCells Statics_init 0 it 1 (Some true) (Some 2) (ROW_new 5 a) = (r', Ok it') /\
    shows r' (mkLine (splice 1 (written 2 (glyphs_of s)) (l_glyphs l))
                (splice_attrs 1 (cols (written 2 (glyphs_of s))) a (l_attrs l)) (l_rendition l)
                (if (0 <? 2)%nat && (cols (written 2 (glyphs_of s)) =? 2)%nat then true else l_wrap l)
                (if cut 2 (glyphs_of s) then true else l_padded l)) /\
    GetInputDistance it' it = len (text fit.1) /\
    GetCellDistance it' it = Z.of_nat (cols fit.1) /\ fit.1 ++ fit.2 = glyphs_of s.
Proof.
  apply (write_text_to_row pairs_wide Statics_init 0 (ROW_new 5 TextAttribute_default)
    (blank_line 5 TextAttribute_default) [0x61; 0xD83D; 0xDE00; 0x62] TextAttribute_default 1 2 true).
  - apply (shows_new 5). unfold MAX_COLUMNS. lia.
  - vm_compute. lia.
  - vm_compute. lia.
Defined.
