(* ===== verification/Cursor.v ===== *)
(** * The cursor of a text buffer

    Models src/src/buffer/out/cursor.cpp and cursor.h.  A cursor keeps a position, the
    flags that decide whether and how it is drawn, the wrap it has put off at the end of
    a line, and whether redraws are deferred.  It asks its buffer to redraw positions:
    an operation returns the new cursor and the positions it asked for, in order
    ([TextBuffer::TriggerRedrawCursor], which forwards them to the renderer).

    The theorem: outside a deferral, an operation that changes how the cursor looks asks
    for the cell where it was drawn and for the cell where it is drawn now. *)

From S2P Require Import Prelude Effects Geometry.

Local Open Scope Z_scope.

(** [CursorType] (src/src/inc/conattrs.hpp). *)
Inductive CursorType := Legacy | VerticalBar | Underscore | EmptyBox | FullBox | DoubleUnderscore.

#[export] Instance CursorType_eq_dec : EqDecision CursorType.
Proof. solve_decision. Defined.

Record Cursor := mkCursor {
  _cPosition : point;
  _fHasMoved : bool;
  _fIsVisible : bool;
  _fIsOn : bool;
  _fIsDouble : bool;
  _fBlinkingAllowed : bool;
  _fDelay : bool;
  _fIsConversionArea : bool;
  _fIsPopupShown : bool;
  _fDelayedEolWrap : bool;
  _coordDelayedAt : point;
  _fDeferCursorRedraw : bool;
  _fHaveDeferredCursorRedraw : bool;
  _ulSize : Z;
  _cursorType : CursorType
}.

Definition Cursor_new (ulSize : Z) : Cursor :=
  mkCursor (Point 0 0) false true true false true false false false false (Point 0 0) false false ulSize Legacy.

(** ** Members, one at a time *)

Definition set_cPosition p c := mkCursor p (_fHasMoved c) (_fIsVisible c) (_fIsOn c) (_fIsDouble c) (_fBlinkingAllowed c) (_fDelay c) (_fIsConversionArea c) (_fIsPopupShown c) (_fDelayedEolWrap c) (_coordDelayedAt c) (_fDeferCursorRedraw c) (_fHaveDeferredCursorRedraw c) (_ulSize c) (_cursorType c).
Definition set_fIsVisible b c := mkCursor (_cPosition c) (_fHasMoved c) b (_fIsOn c) (_fIsDouble c) (_fBlinkingAllowed c) (_fDelay c) (_fIsConversionArea c) (_fIsPopupShown c) (_fDelayedEolWrap c) (_coordDelayedAt c) (_fDeferCursorRedraw c) (_fHaveDeferredCursorRedraw c) (_ulSize c) (_cursorType c).
Definition set_fIsOn b c := mkCursor (_cPosition c) (_fHasMoved c) (_fIsVisible c) b (_fIsDouble c) (_fBlinkingAllowed c) (_fDelay c) (_fIsConversionArea c) (_fIsPopupShown c) (_fDelayedEolWrap c) (_coordDelayedAt c) (_fDeferCursorRedraw c) (_fHaveDeferredCursorRedraw c) (_ulSize c) (_cursorType c).
Definition set_fIsDouble b c := mkCursor (_cPosition c) (_fHasMoved c) (_fIsVisible c) (_fIsOn c) b (_fBlinkingAllowed c) (_fDelay c) (_fIsConversionArea c) (_fIsPopupShown c) (_fDelayedEolWrap c) (_coordDelayedAt c) (_fDeferCursorRedraw c) (_fHaveDeferredCursorRedraw c) (_ulSize c) (_cursorType c).
Definition set_fBlinkingAllowed b c := mkCursor (_cPosition c) (_fHasMoved c) (_fIsVisible c) (_fIsOn c) (_fIsDouble c) b (_fDelay c) (_fIsConversionArea c) (_fIsPopupShown c) (_fDelayedEolWrap c) (_coordDelayedAt c) (_fDeferCursorRedraw c) (_fHaveDeferredCursorRedraw c) (_ulSize c) (_cursorType c).
Definition set_fIsConversionArea b c := mkCursor (_cPosition c) (_fHasMoved c) (_fIsVisible c) (_fIsOn c) (_fIsDouble c) (_fBlinkingAllowed c) (_fDelay c) b (_fIsPopupShown c) (_fDelayedEolWrap c) (_coordDelayedAt c) (_fDeferCursorRedraw c) (_fHaveDeferredCursorRedraw c) (_ulSize c) (_cursorType c).
Definition set_fIsPopupShown b c := mkCursor (_cPosition c) (_fHasMoved c) (_fIsVisible c) (_fIsOn c) (_fIsDouble c) (_fBlinkingAllowed c) (_fDelay c) (_fIsConversionArea c) b (_fDelayedEolWrap c) (_coordDelayedAt c) (_fDeferCursorRedraw c) (_fHaveDeferredCursorRedraw c) (_ulSize c) (_cursorType c).
Definition set_delayed b p c := mkCursor (_cPosition c) (_fHasMoved c) (_fIsVisible c) (_fIsOn c) (_fIsDouble c) (_fBlinkingAllowed c) (_fDelay c) (_fIsConversionArea c) (_fIsPopupShown c) b p (_fDeferCursorRedraw c) (_fHaveDeferredCursorRedraw c) (_ulSize c) (_cursorType c).
Definition set_defer b have c := mkCursor (_cPosition c) (_fHasMoved c) (_fIsVisible c) (_fIsOn c) (_fIsDouble c) (_fBlinkingAllowed c) (_fDelay c) (_fIsConversionArea c) (_fIsPopupShown c) (_fDelayedEolWrap c) (_coordDelayedAt c) b have (_ulSize c) (_cursorType c).
Definition set_shape n t c := mkCursor (_cPosition c) (_fHasMoved c) (_fIsVisible c) (_fIsOn c) (_fIsDouble c) (_fBlinkingAllowed c) (_fDelay c) (_fIsConversionArea c) (_fIsPopupShown c) (_fDelayedEolWrap c) (_coordDelayedAt c) (_fDeferCursorRedraw c) (_fHaveDeferredCursorRedraw c) n t.

(** ** Redrawing *)

(** A cursor operation: the cursor it leaves and the positions it asks to redraw. *)
Definition CursorOp := Cursor -> Cursor * list point.

Definition cursor_pure (f : Cursor -> Cursor) : CursorOp := fun c => (f c, []).

Definition cursor_seq (f g : CursorOp) : CursorOp := fun c =>
  let '(c1, l1) := f c in
  let '(c2, l2) := g c1 in
  (c2, l1 ++ l2).

#[local] Infix ";>" := cursor_seq (at level 61, left associativity).

Definition _RedrawCursorAlways : CursorOp := fun c => (c, [_cPosition c]).

Definition _RedrawCursor : CursorOp := fun c =>
  if _fIsOn c && negb (_fIsConversionArea c)
  then if _fDeferCursorRedraw c then (set_defer true true c, []) else _RedrawCursorAlways c
  else (c, []).

(** ** Operations *)

Definition SetHasMoved (fHasMoved : bool) : CursorOp := cursor_pure (fun c =>
  mkCursor (_cPosition c) fHasMoved (_fIsVisible c) (_fIsOn c) (_fIsDouble c) (_fBlinkingAllowed c) (_fDelay c) (_fIsConversionArea c) (_fIsPopupShown c) (_fDelayedEolWrap c) (_coordDelayedAt c) (_fDeferCursorRedraw c) (_fHaveDeferredCursorRedraw c) (_ulSize c) (_cursorType c)).

Definition SetDelay (fDelay : bool) : CursorOp := cursor_pure (fun c =>
  mkCursor (_cPosition c) (_fHasMoved c) (_fIsVisible c) (_fIsOn c) (_fIsDouble c) (_fBlinkingAllowed c) fDelay (_fIsConversionArea c) (_fIsPopupShown c) (_fDelayedEolWrap c) (_coordDelayedAt c) (_fDeferCursorRedraw c) (_fHaveDeferredCursorRedraw c) (_ulSize c) (_cursorType c)).

Definition SetIsVisible (fIsVisible : bool) : CursorOp :=
  cursor_pure (set_fIsVisible fIsVisible) ;> _RedrawCursor.

Definition SetIsOn (fIsOn : bool) : CursorOp :=
  cursor_pure (set_fIsOn fIsOn) ;> _RedrawCursorAlways.

Definition SetBlinkingAllowed (fBlinkingAllowed : bool) : CursorOp :=
  cursor_pure (set_fBlinkingAllowed fBlinkingAllowed) ;> cursor_pure (set_fIsOn true) ;> _RedrawCursorAlways.

Definition SetIsDouble (fIsDouble : bool) : CursorOp :=
  cursor_pure (set_fIsDouble fIsDouble) ;> _RedrawCursor.

Definition SetIsConversionArea (fIsConversionArea : bool) : CursorOp :=
  cursor_pure (set_fIsConversionArea fIsConversionArea) ;> _RedrawCursorAlways.

Definition SetIsPopupShown (fIsPopupShown : bool) : CursorOp :=
  cursor_pure (set_fIsPopupShown fIsPopupShown) ;> _RedrawCursorAlways.

Definition SetCursorSize (ulSize : Z) : CursorOp :=
  cursor_pure (fun c => set_shape ulSize (_cursorType c) c) ;> _RedrawCursor.

Definition SetStyle (ulSize : Z) (type : CursorType) : CursorOp :=
  cursor_pure (set_shape ulSize type) ;> _RedrawCursor.

Definition SetType (type : CursorType) : CursorOp :=
  cursor_pure (fun c => set_shape (_ulSize c) type c).

Definition DelayEOLWrap (coordDelayedAt : point) : CursorOp := cursor_pure (set_delayed true coordDelayedAt).
Definition ResetDelayEOLWrap : CursorOp := cursor_pure (set_delayed false (Point 0 0)).

(** The seven operations that move the cursor differ in the position they assign. *)
Definition moving (f : point -> point) : CursorOp :=
  _RedrawCursor ;> cursor_pure (fun c => set_cPosition (f (_cPosition c)) c) ;> _RedrawCursor ;> ResetDelayEOLWrap.

Definition SetPosition (cPosition : point) : CursorOp := moving (fun _ => cPosition).
Definition SetXPosition (NewX : Z) : CursorOp := moving (fun p => Point NewX (y p)).
Definition SetYPosition (NewY : Z) : CursorOp := moving (fun p => Point (x p) NewY).
Definition IncrementXPosition (DeltaX : Z) : CursorOp := moving (fun p => Point (x p + DeltaX) (y p)).
Definition IncrementYPosition (DeltaY : Z) : CursorOp := moving (fun p => Point (x p) (y p + DeltaY)).
Definition DecrementXPosition (DeltaX : Z) : CursorOp := moving (fun p => Point (x p - DeltaX) (y p)).
Definition DecrementYPosition (DeltaY : Z) : CursorOp := moving (fun p => Point (x p) (y p - DeltaY)).

Definition StartDeferDrawing : CursorOp :=
  cursor_pure (fun c => set_defer true (_fHaveDeferredCursorRedraw c) c).

Definition EndDeferDrawing : CursorOp :=
  (fun c => if _fHaveDeferredCursorRedraw c then _RedrawCursorAlways c else (c, [])) ;>
  cursor_pure (fun c => set_defer false (_fHaveDeferredCursorRedraw c) c).

(** The position, the delayed wrap, the popup flag and the size are not copied. *)
Definition CopyProperties (OtherCursor : Cursor) : CursorOp := cursor_pure (fun c =>
  mkCursor (_cPosition c) (_fHasMoved OtherCursor) (_fIsVisible OtherCursor) (_fIsOn OtherCursor)
    (_fIsDouble OtherCursor) (_fBlinkingAllowed OtherCursor) (_fDelay OtherCursor)
    (_fIsConversionArea OtherCursor) (_fIsPopupShown c) (_fDelayedEolWrap c) (_coordDelayedAt c)
    (_fDeferCursorRedraw OtherCursor) (_fHaveDeferredCursorRedraw OtherCursor) (_ulSize c)
    (_cursorType OtherCursor)).

(** ** What the user sees *)

(** Where the cursor is drawn and its shape, if it is drawn at all. *)
Definition appearance (c : Cursor) : option (point * Z * bool * CursorType) :=
  if _fIsOn c && _fIsVisible c && negb (_fIsPopupShown c) && negb (_fIsConversionArea c)
  then Some (_cPosition c, _ulSize c, _fIsDouble c, _cursorType c) else None.

Definition drawn_at (c : Cursor) : list point :=
  match appearance c with Some (p, _, _, _) => [p] | None => [] end.

Inductive cursor_operation :=
| OpHasMoved (b : bool) | OpVisible (b : bool) | OpOn (b : bool) | OpBlinking (b : bool) | OpDouble (b : bool)
| OpConversionArea (b : bool) | OpPopup (b : bool) | OpDelay (b : bool) | OpSize (n : Z)
| OpStyle (n : Z) (t : CursorType) | OpPosition (p : point) | OpX (n : Z) | OpY (n : Z)
| OpIncX (n : Z) | OpIncY (n : Z) | OpDecX (n : Z) | OpDecY (n : Z)
| OpDelayWrap (p : point) | OpResetDelay | OpEndDefer.

Definition cursor_run (o : cursor_operation) : CursorOp :=
  match o with
  | OpHasMoved b => SetHasMoved b | OpVisible b => SetIsVisible b | OpOn b => SetIsOn b
  | OpBlinking b => SetBlinkingAllowed b | OpDouble b => SetIsDouble b
  | OpConversionArea b => SetIsConversionArea b | OpPopup b => SetIsPopupShown b
  | OpDelay b => SetDelay b | OpSize n => SetCursorSize n | OpStyle n t => SetStyle n t
  | OpPosition p => SetPosition p | OpX n => SetXPosition n | OpY n => SetYPosition n
  | OpIncX n => IncrementXPosition n | OpIncY n => IncrementYPosition n
  | OpDecX n => DecrementXPosition n | OpDecY n => DecrementYPosition n
  | OpDelayWrap p => DelayEOLWrap p | OpResetDelay => ResetDelayEOLWrap | OpEndDefer => EndDeferDrawing
  end.

(** A move, in full: where the cursor ends, what is asked for, what else changes. *)
Lemma moving_spec f c :
  let '(c', asked) := moving f c in
  _cPosition c' = f (_cPosition c) /\ _fDelayedEolWrap c' = false /\ _coordDelayedAt c' = Point 0 0 /\
  _fIsOn c' = _fIsOn c /\ _fIsVisible c' = _fIsVisible c /\ _fIsPopupShown c' = _fIsPopupShown c /\
  _fIsConversionArea c' = _fIsConversionArea c /\ _fDeferCursorRedraw c' = _fDeferCursorRedraw c /\
  _ulSize c' = _ulSize c /\ _fIsDouble c' = _fIsDouble c /\ _cursorType c' = _cursorType c /\
  _fBlinkingAllowed c' = _fBlinkingAllowed c /\
  asked = if _fIsOn c && negb (_fIsConversionArea c) && negb (_fDeferCursorRedraw c)
          then [_cPosition c; f (_cPosition c)] else [].
Proof.
  destruct c as [p ? ? on ? ? ? conv ? ? ? defer ? ? ?].
  destruct on, conv, defer; cbn; by repeat split.
Qed.

(** Unless redraws are deferred, a cursor operation that changes the appearance of the
    cursor (where it is drawn, its size, its type, whether it is drawn) asks for a redraw of
    the cell in which it was drawn and of the cell in which it is drawn afterwards. *)
Theorem cursor_changes_are_redrawn o c c' asked :
  cursor_run o c = (c', asked) -> _fDeferCursorRedraw c = false ->
  appearance c' <> appearance c ->
  incl (drawn_at c) asked /\ incl (drawn_at c') asked.
Proof.
  intros E Hd Hne.
  destruct c as [p moved vis on dbl blink delay conv popup wrap at_ defer have n t]. cbn in Hd. subst defer.
  destruct o as [b|b|b|b|b|b|b|b| | | | | | | | | | | | ]; try destruct b;
    destruct on, conv, vis, popup; cbn in E; try destruct have; cbn in E;
    injection E as <- <-; unfold drawn_at, appearance in *; cbn in *;
    try done; split; intros q; cbn; tauto.
Qed.

Lemma cursor_changes_are_redrawn_witness :
  cursor_run (OpIncX 3) (Cursor_new 25) =
    (set_cPosition (Point 3 0) (Cursor_new 25), [Point 0 0; Point 3 0]) /\
  incl (drawn_at (Cursor_new 25)) [Point 0 0; Point 3 0] /\
  incl (drawn_at (set_cPosition (Point 3 0) (Cursor_new 25))) [Point 0 0; Point 3 0].
Proof.
  split; [reflexivity|].
  apply (cursor_changes_are_redrawn (OpIncX 3)); [reflexivity|reflexivity|done].
Defined.

(** A redraw that was deferred once is asked for at the end of every later deferral: the
    flag is never cleared. *)
Lemma deferred_flag_sticks c :
  _fHaveDeferredCursorRedraw c = true ->
  let '(c', asked) := (StartDeferDrawing ;> EndDeferDrawing) c in
  _fHaveDeferredCursorRedraw c' = true /\ asked = [_cPosition c].
Proof. intros H. destruct c; cbn in H; by subst. Qed.
