(* ===== verification/Hash.v ===== *)
(** * Hashing

    Models src/src/inc/til/hash.h, wyhash in its two versions: [_wyhash64] for the
    64-bit platforms and [_wyhash32] for the others.  The data is a list of bytes and
    a pointer into it an offset; a read outside of the data is undefined behaviour.

    The theorem: whatever the data, both stay inside it, end, and give a word of their
    width. *)

From S2P Require Import Prelude Effects.

Local Open Scope Z_scope.

Definition byte_at (data : list Z) (p : Z) : Result Z :=
  if p <? 0 then Undefined
  else match data !! Z.to_nat p with Some b => Ok b | None => Undefined end.

(** [memcpy] of [n] bytes to an integer, little endian. *)
Fixpoint read_le (data : list Z) (n : nat) (p : Z) : Result Z :=
  match n with
  | O => Ok 0
  | S n =>
      let? b := byte_at data p in
      let? r := read_le data n (p + 1) in
      Ok (Z.lor b (Z.shiftl r 8))
  end.

(** ** 64 bits *)

Definition _wyr3 (data : list Z) (p k : Z) : Result Z :=
  let? a := byte_at data p in
  let? b := byte_at data (p + Z.shiftr k 1) in
  let? c := byte_at data (p + (k - 1)) in
  Ok (Z.lor (Z.lor (Z.shiftl a 16) (Z.shiftl b 8)) c).

Definition _wyr4 (data : list Z) (p : Z) : Result Z := read_le data 4 p.
Definition _wyr8 (data : list Z) (p : Z) : Result Z := read_le data 8 p.

(** The low word of the product of two words and the high word, combined. *)
Definition _wymix (lhs rhs : Z) : Z :=
  Z.lxor (u64 (lhs * rhs)) (Z.shiftr (lhs * rhs) 64).

Definition s0 : Z := 0xa0761d6478bd642f.
Definition s1 : Z := 0xe7037ed1a0b428db.
Definition s2 : Z := 0x8ebc6af09c88c6e3.
Definition s3 : Z := 0x589965cc75374cc3.

(** One round over 16 bytes. *)
Definition wyround (data : list Z) (p s seed : Z) : Result Z :=
  let? a := _wyr8 data p in
  let? b := _wyr8 data (p + 8) in
  Ok (_wymix (Z.lxor a s) (Z.lxor b seed)).

(** [do { ... } while (i > 48)]: 48 bytes with three seeds. *)
Fixpoint wyloop48 (fuel : nat) (data : list Z) (p i seed seed1 seed2 : Z) : Result (Z * Z * (Z * Z * Z)) :=
  match fuel with
  | O => OutOfFuel
  | S fuel =>
      let? seed := wyround data p s1 seed in
      let? seed1 := wyround data (p + 16) s2 seed1 in
      let? seed2 := wyround data (p + 32) s3 seed2 in
      if 48 <? i - 48 then wyloop48 fuel data (p + 48) (i - 48) seed seed1 seed2
      else Ok (p + 48, i - 48, (seed, seed1, seed2))
  end.

(** [while (i > 16) { ... }]. *)
Fixpoint wyloop16 (fuel : nat) (data : list Z) (p i seed : Z) : Result (Z * Z * Z) :=
  if 16 <? i then
    match fuel with
    | O => OutOfFuel
    | S fuel =>
        let? seed := wyround data p s1 seed in
        wyloop16 fuel data (p + 16) (i - 16) seed
    end
  else Ok (p, i, seed).

Definition _wyhash64 (data : list Z) (seed : Z) : Result Z :=
  let len := Z.of_nat (length data) in
  let seed := Z.lxor seed s0 in
  let? abs :=
    (if len <=? 16 then
       if 4 <=? len then
         let half := Z.shiftl (Z.shiftr len 3) 2 in
         let? a1 := _wyr4 data 0 in
         let? a2 := _wyr4 data half in
         let? b1 := _wyr4 data (len - 4) in
         let? b2 := _wyr4 data (len - 4 - half) in
         Ok (Z.lor (Z.shiftl a1 32) a2, Z.lor (Z.shiftl b1 32) b2, seed)
       else if 0 <? len then
         let? a := _wyr3 data 0 len in Ok (a, 0, seed)
       else Ok (0, 0, seed)
     else
       let? st :=
         (if 48 <? len then
            let? r := wyloop48 (length data) data 0 len seed seed seed in
            let '(p, i, (sd, sd1, sd2)) := r in
            Ok (p, i, Z.lxor sd (Z.lxor sd1 sd2))
          else Ok (0, len, seed)) in
       let '(p, i, sd) := st in
       let? r := wyloop16 (length data) data p i sd in
       let '(p, i, sd) := r in
       let? a := _wyr8 data (p + i - 16) in
       let? b := _wyr8 data (p + i - 8) in
       Ok (a, b, sd)) in
  let '(a, b, seed) := abs in
  Ok (_wymix (Z.lxor s1 len) (_wymix (Z.lxor a s1) (Z.lxor b seed))).

(** ** 32 bits *)

Definition _wyr24 (data : list Z) (p k : Z) : Result Z := _wyr3 data p k.
Definition _wyr32 (data : list Z) (p : Z) : Result Z := read_le data 4 p.

Definition _wymix32 (ab : Z * Z) : Z * Z :=
  let c := u64 (Z.lxor ab.1 0x53c5ca59 * Z.lxor ab.2 0x74743c1b) in
  (u32 c, Z.shiftr c 32).

(** [for (; i > 8; i -= 8, p += 8)]. *)
Fixpoint wyloop8 (fuel : nat) (data : list Z) (p i : Z) (st : Z * Z) : Result (Z * Z * (Z * Z)) :=
  if 8 <? i then
    match fuel with
    | O => OutOfFuel
    | S fuel =>
        let? a := _wyr32 data p in
        let? b := _wyr32 data (p + 4) in
        wyloop8 fuel data (p + 8) (i - 8) (_wymix32 (Z.lxor st.1 a, Z.lxor st.2 b))
    end
  else Ok (p, i, st).

Definition _wyhash32 (data : list Z) (seed : Z) : Result Z :=
  let len := u32 (Z.of_nat (length data)) in
  let? r := wyloop8 (length data) data 0 len (_wymix32 (seed, len)) in
  let '(p, i, (seed, see1)) := r in
  let? st :=
    (if 4 <=? i then
       let? a := _wyr32 data p in
       let? b := _wyr32 data (p + i - 4) in
       Ok (Z.lxor seed a, Z.lxor see1 b)
     else if negb (i =? 0) then
       let? a := _wyr24 data p i in
       Ok (Z.lxor seed a, see1)
     else Ok (seed, see1)) in
  let st := _wymix32 (_wymix32 st) in
  Ok (Z.lxor st.1 st.2).

(** [til::hash] of a wide string: of its bytes, from the seed 0. *)
Definition string_bytes (s : wstring) : list Z :=
  concat (map (fun c => [Z.land c 0xff; Z.shiftr c 8]) s).

Definition til_hash (s : wstring) : Result Z := _wyhash64 (string_bytes s) 0.

(** ** Words *)

Lemma lxor_word w a b : 0 <= w -> 0 <= a < 2 ^ w -> 0 <= b < 2 ^ w -> 0 <= Z.lxor a b < 2 ^ w.
Proof.
  intros Hw Ha Hb. split; [apply Z.lxor_nonneg; lia|].
  assert (Z.lxor a b = wrapu w (Z.lxor a b)) as ->; [|by apply wrapu_range].
  apply Z.bits_inj'. intros i Hi. unfold wrapu. rewrite Z.lxor_spec.
  destruct (Z.ltb_spec i w).
  - by rewrite Z.mod_pow2_bits_low, Z.lxor_spec by lia.
  - rewrite Z.mod_pow2_bits_high by lia.
    rewrite <- (Z.mod_small a (2 ^ w)), <- (Z.mod_small b (2 ^ w)), !Z.mod_pow2_bits_high by lia. done.
Qed.

Lemma lor_word w a b : 0 <= w -> 0 <= a < 2 ^ w -> 0 <= b < 2 ^ w -> 0 <= Z.lor a b < 2 ^ w.
Proof.
  intros Hw Ha Hb. split; [apply Z.lor_nonneg; lia|]. apply lor_lt_pow2; lia.
Qed.

Lemma shiftl_word a n w : 0 <= n -> 0 <= a < 2 ^ w -> 0 <= w -> 0 <= Z.shiftl a n < 2 ^ (w + n).
Proof.
  intros Hn Ha Hw. rewrite Z.shiftl_mul_pow2, Z.pow_add_r by lia.
  assert (0 < 2 ^ n) by lia. nia.
Qed.

Section Reads.
Context (data : list Z) (Hdata : Forall is_byte data).

#[local] Abbreviation len := (Z.of_nat (length data)).

Lemma byte_at_ok p : 0 <= p < len -> exists b, byte_at data p = Ok b /\ 0 <= b < 2 ^ 8.
Proof.
  intros Hp. unfold byte_at. rewrite (proj2 (Z.ltb_ge _ _)) by lia.
  destruct (lookup_lt_is_Some_2 data (Z.to_nat p)) as [b Hb]; [lia|].
  rewrite Hb. exists b. split; [done|]. rewrite Forall_lookup in Hdata. apply (Hdata _ _ Hb).
Qed.

Lemma read_le_ok n p :
  0 <= p -> p + Z.of_nat n <= len -> exists v, read_le data n p = Ok v /\ 0 <= v < 2 ^ (8 * Z.of_nat n).
Proof.
  revert p; induction n as [|n IH]; intros p Hp Hn; [by exists 0|]. cbn [read_le].
  destruct (byte_at_ok p) as (b & -> & Hb); [lia|]. cbn [bindR].
  destruct (IH (p + 1)) as (r & -> & Hr); [lia..|]. eexists. split; [done|].
  apply lor_word; [lia| |].
  - split; [lia|]. apply Z.lt_le_trans with (2 ^ 8); [lia|]. apply Z.pow_le_mono_r; lia.
  - replace (8 * Z.of_nat (S n)) with (8 * Z.of_nat n + 8) by lia. apply shiftl_word; lia.
Qed.

Lemma wyr3_ok p k : 0 <= p -> 0 < k -> p + k <= len -> exists v, _wyr3 data p k = Ok v /\ 0 <= v < 2 ^ 24.
Proof.
  intros Hp Hk Hl. unfold _wyr3. assert (Z.shiftr k 1 = k / 2) as -> by (by rewrite Z.shiftr_div_pow2).
  destruct (byte_at_ok p) as (a & -> & Ha); [lia|]. cbn [bindR].
  destruct (byte_at_ok (p + k / 2)) as (b & -> & Hb); [assert (k / 2 < k) by (apply Z.div_lt; lia); assert (0 <= k / 2) by (apply Z.div_pos; lia); lia|].
  cbn [bindR]. destruct (byte_at_ok (p + (k - 1))) as (c & -> & Hc); [lia|].
  eexists. split; [done|]. apply lor_word; [lia| |split; [lia|]; eval_ground; lia].
  apply lor_word; [lia|by apply (shiftl_word a 16 8)|].
  pose proof (shiftl_word b 8 8 ltac:(lia) Hb ltac:(lia)) as H. eval_ground. lia.
Qed.

Lemma wymix_word a b : 0 <= a < 2 ^ 64 -> 0 <= b < 2 ^ 64 -> 0 <= _wymix a b < 2 ^ 64.
Proof.
  intros Ha Hb. apply lxor_word; [lia|apply wrapu_range; lia|].
  rewrite Z.shiftr_div_pow2 by lia. eval_ground.
  split; [apply Z.div_pos; nia|]. apply Z.div_lt_upper_bound; nia.
Qed.

Lemma wyround_ok p s seed :
  0 <= p -> p + 16 <= len -> 0 <= s < 2 ^ 64 -> 0 <= seed < 2 ^ 64 ->
  exists v, wyround data p s seed = Ok v /\ 0 <= v < 2 ^ 64.
Proof.
  intros Hp Hl Hs Hseed. unfold wyround, _wyr8.
  destruct (read_le_ok 8 p) as (a & -> & Ha); [lia..|]. cbn [bindR].
  destruct (read_le_ok 8 (p + 8)) as (b & -> & Hb); [lia..|].
  eexists. split; [done|]. apply wymix_word; apply lxor_word; done || lia.
Qed.

Lemma s_words : (0 <= s0 < 2 ^ 64) /\ (0 <= s1 < 2 ^ 64) /\ (0 <= s2 < 2 ^ 64) /\ (0 <= s3 < 2 ^ 64).
Proof. done. Qed.

Lemma wyloop48_ok fuel : forall p i seed seed1 seed2,
  i <= Z.of_nat fuel -> 48 < i -> 0 <= p -> p + i = len ->
  0 <= seed < 2 ^ 64 -> 0 <= seed1 < 2 ^ 64 -> 0 <= seed2 < 2 ^ 64 ->
  exists p' i' sd sd1 sd2, wyloop48 fuel data p i seed seed1 seed2 = Ok (p', i', (sd, sd1, sd2)) /\
    p <= p' /\ p' + i' = len /\ 16 <= p' /\ 0 < i' /\
    0 <= sd < 2 ^ 64 /\ 0 <= sd1 < 2 ^ 64 /\ 0 <= sd2 < 2 ^ 64.
Proof.
  destruct s_words as (_ & Hs1 & Hs2 & Hs3).
  induction fuel as [|fuel IH]; intros p i sd sd1 sd2 Hf Hi Hp Hl H0 H1 H2; [lia|]. cbn [wyloop48].
  destruct (wyround_ok p s1 sd) as (a & -> & Ha); try done; try lia. cbn [bindR].
  destruct (wyround_ok (p + 16) s2 sd1) as (b & -> & Hb); try done; try lia. cbn [bindR].
  destruct (wyround_ok (p + 32) s3 sd2) as (c & -> & Hc); try done; try lia. cbn [bindR].
  case_if; bool_prop.
  - destruct (IH (p + 48) (i - 48) a b c) as (p' & i' & x & y & z & -> & ?); try done; try lia.
    repeat eexists; lia.
  - do 5 eexists. split; [done|]. lia.
Qed.

Lemma wyloop16_ok fuel : forall p i seed,
  i <= Z.of_nat fuel -> 0 <= p -> p + i = len -> 16 <= len -> 0 < i -> 0 <= seed < 2 ^ 64 ->
  exists p' i' sd, wyloop16 fuel data p i seed = Ok (p', i', sd) /\ p' + i' = len /\ 0 <= sd < 2 ^ 64.
Proof.
  destruct s_words as (_ & Hs1 & _).
  induction fuel as [|fuel IH]; intros p i sd Hf Hp Hl H16 Hi H0; [lia|].
  cbn [wyloop16]. case_if; bool_prop; [|by do 3 eexists].
  destruct (wyround_ok p s1 sd) as (a & -> & Ha); try done; try lia. cbn [bindR].
  destruct (IH (p + 16) (i - 16) a) as (p' & i' & z & -> & ?); try done; try lia.
  by do 3 eexists.
Qed.

Lemma half_bound n : 4 <= n <= 16 -> 0 <= Z.shiftl (Z.shiftr n 3) 2 <= n - 4.
Proof.
  intros Hn. rewrite Z.shiftl_mul_pow2, Z.shiftr_div_pow2 by lia. eval_ground.
  pose proof (Z.div_mod n 8 ltac:(lia)). pose proof (Z.mod_pos_bound n 8 ltac:(lia)). lia.
Qed.

Lemma wyhash64_ok seed :
  len < 2 ^ 64 -> 0 <= seed < 2 ^ 64 -> exists h, _wyhash64 data seed = Ok h /\ 0 <= h < 2 ^ 64.
Proof.
  intros Hlen Hseed. destruct s_words as (Hs0 & Hs1 & _). unfold _wyhash64.
  assert (H0 : 0 <= Z.lxor seed s0 < 2 ^ 64) by (apply lxor_word; lia).
  set (sd0 := Z.lxor seed s0) in *.
  match goal with |- exists h, bindR ?m _ = _ /\ _ =>
    assert (Hm : exists a b sd, m = Ok (a, b, sd) /\ 0 <= a < 2 ^ 64 /\ 0 <= b < 2 ^ 64 /\ 0 <= sd < 2 ^ 64) end.
  { case_if; bool_prop.
    - case_if; bool_prop.
      + pose proof (half_bound len ltac:(lia)). unfold _wyr4.
        destruct (read_le_ok 4 0) as (a & -> & Ha); [lia..|]. cbn [bindR].
        destruct (read_le_ok 4 (Z.shiftl (Z.shiftr len 3) 2)) as (b & -> & Hb); [lia..|]. cbn [bindR].
        destruct (read_le_ok 4 (len - 4)) as (c & -> & Hc); [lia..|]. cbn [bindR].
        destruct (read_le_ok 4 (len - 4 - Z.shiftl (Z.shiftr len 3) 2)) as (d & -> & Hd); [lia..|].
        cbn [bindR]. change (8 * Z.of_nat 4) with 32 in *.
        pose proof (shiftl_word a 32 32 ltac:(lia) Ha ltac:(lia)).
        pose proof (shiftl_word c 32 32 ltac:(lia) Hc ltac:(lia)).
        do 3 eexists. split; [done|]. split; [|split; [|lia]].
        all: apply lor_word; [lia|done|]; eval_ground; lia.
      + case_if; bool_prop; [|do 3 eexists; split; [done|]; eval_ground; lia].
        destruct (wyr3_ok 0 len) as (a & -> & Ha); [lia..|]. do 3 eexists. split; [done|].
        eval_ground; lia.
    - match goal with |- exists a b sd, bindR ?m _ = _ /\ _ =>
        assert (Hm : exists p i sd, m = Ok (p, i, sd) /\ 0 <= p /\ 0 < i /\ p + i = len /\ 0 <= sd < 2 ^ 64) end.
      { case_if; bool_prop.
        - destruct (wyloop48_ok (length data) 0 len sd0 sd0 sd0) as (p & i & x & y & z & -> & ?); try lia.
          assert (0 <= Z.lxor y z < 2 ^ 64) by (apply lxor_word; lia).
          assert (0 <= Z.lxor x (Z.lxor y z) < 2 ^ 64) by (apply lxor_word; lia).
          cbn [bindR]. do 3 eexists. split; [done|]. split_and!; lia.
        - do 3 eexists. split; [done|]. lia. }
      destruct Hm as (p & i & sd & -> & Hp & Hi & Hl & Hsd). cbn [bindR].
      destruct (wyloop16_ok (length data) p i sd) as (p' & i' & z & -> & Hl' & Hz); try lia. cbn [bindR].
      unfold _wyr8. destruct (read_le_ok 8 (p' + i' - 16)) as (a & -> & Ha); [lia..|]. cbn [bindR].
      destruct (read_le_ok 8 (p' + i' - 8)) as (b & -> & Hb); [lia..|].
      do 3 eexists. split; [done|]. eval_ground. lia. }
  destruct Hm as (a & b & sd & -> & Ha & Hb & Hsd). cbn [bindR].
  eexists. split; [done|]. repeat (apply wymix_word || apply lxor_word); lia.
Qed.

Lemma wymix32_words ab : 0 <= (_wymix32 ab).1 < 2 ^ 32 /\ 0 <= (_wymix32 ab).2 < 2 ^ 32.
Proof.
  unfold _wymix32. cbv zeta. set (c := wrapu 64 _). assert (Hc : 0 <= c < 2 ^ 64) by (by apply wrapu_range).
  clearbody c. cbn [fst snd]. split; [by apply wrapu_range|].
  rewrite Z.shiftr_div_pow2 by lia. eval_ground. split; [apply Z.div_pos; lia|].
  apply Z.div_lt_upper_bound; lia.
Qed.

Lemma wyloop8_ok fuel : forall p i st,
  i <= Z.of_nat fuel -> 0 <= p -> 0 <= i -> p + i = len ->
  (0 <= st.1 < 2 ^ 32 /\ 0 <= st.2 < 2 ^ 32) -> (0 < p -> 8 <= p /\ 0 < i) ->
  exists p' i' st', wyloop8 fuel data p i st = Ok (p', i', st') /\ 0 <= p' /\ 0 <= i' /\ p' + i' = len /\
    0 <= st'.1 < 2 ^ 32 /\ 0 <= st'.2 < 2 ^ 32.
Proof.
  induction fuel as [|fuel IH]; intros p i st Hf Hp Hi Hl Hst Hpi.
  - assert (i = 0) as -> by lia. by do 3 eexists.
  - cbn [wyloop8]. case_if; bool_prop; [|by do 3 eexists]. unfold _wyr32.
    destruct (read_le_ok 4 p) as (a & -> & Ha); [lia..|]. cbn [bindR].
    destruct (read_le_ok 4 (p + 4)) as (b & -> & Hb); [lia..|]. cbn [bindR].
    apply IH; try lia. apply wymix32_words.
Qed.

Lemma wyhash32_ok seed :
  len < 2 ^ 32 -> exists h, _wyhash32 data seed = Ok h /\ 0 <= h < 2 ^ 32.
Proof.
  intros Hlen. unfold _wyhash32. rewrite wrapu_small by lia.
  destruct (wyloop8_ok (length data) 0 len (_wymix32 (seed, len))) as (p & i & [x y] & -> & Hp & Hi & Hl & Hx & Hy);
    try lia; [apply wymix32_words|]. cbn [bindR fst snd] in *.
  match goal with |- exists h, bindR ?m _ = _ /\ _ => assert (Hm : exists st, m = Ok st) end.
  { unfold _wyr32, _wyr24. case_if; bool_prop.
    - destruct (read_le_ok 4 p) as (a & -> & Ha); [lia..|]. cbn [bindR].
      destruct (read_le_ok 4 (p + i - 4)) as (b & -> & Hb); [lia..|]. by eexists.
    - case_if; bool_prop; [|by eexists].
      destruct (wyr3_ok p i) as (a & -> & Ha); [lia..|]. by eexists. }
  destruct Hm as (st & ->). cbn [bindR]. eexists. split; [done|].
  destruct (wymix32_words (_wymix32 st)). by apply lxor_word.
Qed.

End Reads.

(** Hashing is total and stays inside its data: for every sequence of bytes and every
    seed, the 64-bit and the 32-bit hash read only bytes of the data, end, and give a word
    of their width. *)
Theorem hash_total (data : list Z) (seed : Z) :
  Forall is_byte data -> Z.of_nat (length data) < 2 ^ 32 -> 0 <= seed < 2 ^ 64 ->
  (exists h, _wyhash64 data seed = Ok h /\ 0 <= h < 2 ^ 64) /\
  (exists h, _wyhash32 data (u32 seed) = Ok h /\ 0 <= h < 2 ^ 32).
Proof.
  intros Hd Hl Hs. split; [apply wyhash64_ok; try done; eval_ground; lia|by apply wyhash32_ok].
Qed.

Lemma hash_total_witness :
  (exists h, _wyhash64 (L "abc") 2 = Ok h /\ 0 <= h < 2 ^ 64) /\
  (exists h, _wyhash32 (L "abc") (u32 2) = Ok h /\ 0 <= h < 2 ^ 32).
Proof.
  apply (hash_total (L "abc") 2); [repeat constructor; done|done|done].
Defined.

(** The vectors of src/src/til/ut_til/HashTests.cpp. *)
Example hash_vectors :
  (_wyhash64 [] 0, _wyhash32 [] 0) = (Ok 0x42bc986dc5eec4d3, Ok 0xa45f982f) /\
  (_wyhash64 (L "a") 1, _wyhash32 (L "a") 1) = (Ok 0x84508dc903c31551, Ok 0x09021114) /\
  (_wyhash64 (L "abc") 2, _wyhash32 (L "abc") 2) = (Ok 0x0bc54887cfc9ecb1, Ok 0xfe40215d) /\
  (_wyhash64 (L "message digest") 3, _wyhash32 (L "message digest") 3) = (Ok 0x6e2ff3298208a67c, Ok 0x6e0fb730) /\
  (_wyhash64 (L "abcdefghijklmnopqrstuvwxyz") 4, _wyhash32 (L "abcdefghijklmnopqrstuvwxyz") 4) = (Ok 0x9a64e42e897195b9, Ok 0x9435b8c2) /\
  (_wyhash64 (L "ABCDEFGHIJKLMNOPQRSTUVWXYZabcdefghijklmnopqrstuvwxyz0123456789") 5,
   _wyhash32 (L "ABCDEFGHIJKLMNOPQRSTUVWXYZabcdefghijklmnopqrstuvwxyz0123456789") 5) = (Ok 0x9199383239c32554, Ok 0xccf9734c) /\
  (_wyhash64 (L "12345678901234567890123456789012345678901234567890123456789012345678901234567890") 6,
   _wyhash32 (L "12345678901234567890123456789012345678901234567890123456789012345678901234567890") 6) = (Ok 0x7c1ccf6bba30f5a5, Ok 0x9fa5ef6e).
Proof. by vm_compute. Qed.
