(* ===== verification/TextBuffer.v ===== *)
(** * The text buffer

    Models src/src/buffer/out/textBuffer.cpp (the first half of it, with the hyperlinks
    and the pattern table of its end).  A text buffer is a vector of rows, used as a ring:
    the row shown first is [_firstRow].  It owns a cursor, the current attributes and the
    tables of hyperlinks, and asks a renderer to redraw what it changes.

    The renderer is the log of the requests made to it ([_requests], newest last); a
    buffer that is not active makes none.  Memory that was allocated and not written is
    [garbage], as in a row.  The two unordered maps of hyperlinks are finite maps; where
    the code takes the first entry it meets, the order is that of [map_to_list]. *)

From stdpp Require Import gmap.
From S2P Require Import Prelude Effects Geometry LineRendition Viewport InputEvents TextColor TextAttribute Rle Row CodepointWidth OutputCells RowWrite Cursor Hash.

Local Open Scope Z_scope.

#[export] Instance LineRendition_eq_dec : EqDecision LineRendition.
Proof. solve_decision. Defined.

(** ** State *)

Inductive RenderRequest :=
| RedrawViewport (viewport : Viewport)
| RedrawCursor (position : point)
| RedrawAll
| ScrollAll
| ScrollBy (delta : point)
| FlushFrame (circling : bool)
| NewTextNotification (newText : wstring).

Record TextBuffer := mkTextBuffer {
  _storage : list ROW;
  _firstRow : Z;
  _size : Viewport;
  _currentAttributes : TextAttribute;
  _cursor : Cursor;
  _isActiveBuffer : bool;
  _hyperlinkMap : gmap Z wstring;
  _hyperlinkCustomIdMap : gmap wstring Z;
  _currentHyperlinkId : Z;
  _idsAndPatterns : gmap Z wstring;
  _currentPatternId : Z;
  _requests : list RenderRequest
}.

Definition set_storage s tb := mkTextBuffer s (_firstRow tb) (_size tb) (_currentAttributes tb) (_cursor tb) (_isActiveBuffer tb) (_hyperlinkMap tb) (_hyperlinkCustomIdMap tb) (_currentHyperlinkId tb) (_idsAndPatterns tb) (_currentPatternId tb) (_requests tb).
Definition set_firstRow n tb := mkTextBuffer (_storage tb) n (_size tb) (_currentAttributes tb) (_cursor tb) (_isActiveBuffer tb) (_hyperlinkMap tb) (_hyperlinkCustomIdMap tb) (_currentHyperlinkId tb) (_idsAndPatterns tb) (_currentPatternId tb) (_requests tb).
Definition set_size v tb := mkTextBuffer (_storage tb) (_firstRow tb) v (_currentAttributes tb) (_cursor tb) (_isActiveBuffer tb) (_hyperlinkMap tb) (_hyperlinkCustomIdMap tb) (_currentHyperlinkId tb) (_idsAndPatterns tb) (_currentPatternId tb) (_requests tb).
Definition set_attributes a tb := mkTextBuffer (_storage tb) (_firstRow tb) (_size tb) a (_cursor tb) (_isActiveBuffer tb) (_hyperlinkMap tb) (_hyperlinkCustomIdMap tb) (_currentHyperlinkId tb) (_idsAndPatterns tb) (_currentPatternId tb) (_requests tb).
Definition set_cursor c tb := mkTextBuffer (_storage tb) (_firstRow tb) (_size tb) (_currentAttributes tb) c (_isActiveBuffer tb) (_hyperlinkMap tb) (_hyperlinkCustomIdMap tb) (_currentHyperlinkId tb) (_idsAndPatterns tb) (_currentPatternId tb) (_requests tb).
Definition set_active b tb := mkTextBuffer (_storage tb) (_firstRow tb) (_size tb) (_currentAttributes tb) (_cursor tb) b (_hyperlinkMap tb) (_hyperlinkCustomIdMap tb) (_currentHyperlinkId tb) (_idsAndPatterns tb) (_currentPatternId tb) (_requests tb).
Definition set_links m ids n tb := mkTextBuffer (_storage tb) (_firstRow tb) (_size tb) (_currentAttributes tb) (_cursor tb) (_isActiveBuffer tb) m ids n (_idsAndPatterns tb) (_currentPatternId tb) (_requests tb).
Definition set_patterns m n tb := mkTextBuffer (_storage tb) (_firstRow tb) (_size tb) (_currentAttributes tb) (_cursor tb) (_isActiveBuffer tb) (_hyperlinkMap tb) (_hyperlinkCustomIdMap tb) (_currentHyperlinkId tb) m n (_requests tb).
Definition set_requests r tb := mkTextBuffer (_storage tb) (_firstRow tb) (_size tb) (_currentAttributes tb) (_cursor tb) (_isActiveBuffer tb) (_hyperlinkMap tb) (_hyperlinkCustomIdMap tb) (_currentHyperlinkId tb) (_idsAndPatterns tb) (_currentPatternId tb) r.

(** [try { m } catch (...) { h }]. *)
Definition try_catch {S A} (m : M S A) (h : M S A) : M S A := fun s =>
  match m s with (s', Throw _) => h s' | r => r end.

(** A value that may fail, computed from the state. *)
Definition get_result {S A} (f : S -> Result A) : M S A := fun s => (s, f s).

(** [std::rotate(begin + first, begin + middle, begin + last)]. *)
Definition std_rotate {A} (first middle last : Z) (l : list A) : Result (list A) :=
  if (0 <=? first) && (first <=? middle) && (middle <=? last) && (last <=? Z.of_nat (length l))
  then
    let f := Z.to_nat first in let m := Z.to_nat middle in let e := Z.to_nat last in
    Ok (take f l ++ take (e - m) (drop m l) ++ take (m - f) (drop f l) ++ drop e l)
  else Undefined.

(** ** The renderer *)

Definition request (r : RenderRequest) : M TextBuffer unit :=
  modify (fun tb => if _isActiveBuffer tb then set_requests (_requests tb ++ [r]) tb else tb).

Definition TriggerRedraw (viewport : Viewport) := request (RedrawViewport viewport).
Definition TriggerRedrawCursor (position : point) := request (RedrawCursor position).
Definition TriggerRedrawAll := request RedrawAll.
Definition TriggerScroll := request ScrollAll.
Definition TriggerScrollBy (delta : point) := request (ScrollBy delta).
Definition TriggerNewTextNotification (newText : wstring) := request (NewTextNotification newText).

Definition SetAsActiveBuffer (isActiveBuffer : bool) : M TextBuffer unit := modify (set_active isActiveBuffer).

(** An operation on the cursor: the redraws it asks for go through the buffer. *)
Definition with_cursor (op : CursorOp) : M TextBuffer unit :=
  c <- get _cursor ;;
  let '(c', asked) := op c in
  modify (set_cursor c') ;;
  iterM TriggerRedrawCursor asked.

Definition GetPosition : M TextBuffer point := get (fun tb => _cPosition (_cursor tb)).

(** ** Rows *)

Definition TotalRowCount (tb : TextBuffer) : Z := Z.of_nat (length (_storage tb)).
Definition GetFirstRowIndex (tb : TextBuffer) : Z := _firstRow tb.
Definition GetSize (tb : TextBuffer) : Viewport := _size tb.
Definition GetCurrentAttributes (tb : TextBuffer) : TextAttribute := _currentAttributes tb.
Definition SetCurrentAttributes (currentAttributes : TextAttribute) : M TextBuffer unit :=
  modify (set_attributes currentAttributes).

(** Where in the vector a row is, counted from the first row shown. *)
Definition offsetIndex (index : Z) (tb : TextBuffer) : Z :=
  u64 (_firstRow tb + index) mod TotalRowCount tb.

Definition GetRowByOffset (index : Z) (tb : TextBuffer) : Result ROW :=
  match _storage tb !! Z.to_nat (offsetIndex index tb) with Some r => Ok r | None => Undefined end.

(** An operation on the row that [GetRowByOffset] refers to. *)
Definition on_row {A} (index : Z) (m : M ROW A) : M TextBuffer A := fun tb =>
  match GetRowByOffset index tb with
  | Ok r =>
      let '(r', a) := m r in
      (set_storage (<[Z.to_nat (offsetIndex index tb) := r']> (_storage tb)) tb, a)
  | _ => (tb, Undefined)
  end.

(** A reading of that row. *)
Definition of_row {A} (index : Z) (f : ROW -> A) (tb : TextBuffer) : Result A :=
  mapR f (GetRowByOffset index tb).

Definition GetLineRendition (row : Z) (tb : TextBuffer) : Result LineRendition := of_row row _lineRendition tb.

Definition IsDoubleWidthLine (row : Z) (tb : TextBuffer) : Result bool :=
  mapR (fun r => bool_decide (r <> SingleWidth)) (GetLineRendition row tb).

Definition GetLineWidth (row : Z) (tb : TextBuffer) : Result Z :=
  mapR (fun d : bool => Z.shiftr (Width (GetSize tb)) (if d then 1 else 0)) (IsDoubleWidthLine row tb).

Definition ClampPositionWithinLine (position : point) (tb : TextBuffer) : Result point :=
  let? w := GetLineWidth (y position) tb in
  let rightmostColumn := w - 1 in
  Ok (Point (Z.min (x position) rightmostColumn) (y position)).

Definition ScreenToBufferPosition (position : point) (tb : TextBuffer) : Result point :=
  let? d := IsDoubleWidthLine (y position) tb in
  Ok (Point (Z.shiftr (x position) (if d then 1 else 0)) (y position)).

Definition BufferToScreenPosition (position : point) (tb : TextBuffer) : Result point :=
  let? d := IsDoubleWidthLine (y position) tb in
  Ok (Point (Z.shiftl (x position) (if d then 1 else 0)) (y position)).

Definition _GetPreviousFromCursor (tb : TextBuffer) : Result point :=
  let coordPosition := _cPosition (_cursor tb) in
  if 0 <? x coordPosition then Ok (Point (x coordPosition - 1) (y coordPosition))
  else if 0 <? y coordPosition then
    let? w := GetLineWidth (y coordPosition - 1) tb in
    Ok (Point (w - 1) (y coordPosition - 1))
  else Ok coordPosition.

(** ** Construction and size *)

Definition _UpdateSize : M TextBuffer unit :=
  s <- get _storage ;;
  match s with
  | [] => throw StdException
  | r :: _ => modify (set_size (FromDimensions (Size (_columnCount r) (Z.of_nat (length s)))))
  end.

(** [gsl::narrow<uint16_t>] of the two dimensions, by the allocator. *)
Definition allocator_size (sz : size) : Result (Z * Z) :=
  if (0 <=? width sz) && (width sz <? 2 ^ 16) && (0 <=? height sz) && (height sz <? 2 ^ 16)
  then Ok (width sz, height sz) else Throw StdException.

Definition TextBuffer_new (screenBufferSize : size) (defaultAttributes : TextAttribute) (cursorSize : Z)
    (isActiveBuffer : bool) : Result TextBuffer :=
  let sz := Size (Z.max (width screenBufferSize) 1) (Z.max (height screenBufferSize) 1) in
  let? wh := allocator_size sz in
  let rows := repeat (ROW_new wh.1 defaultAttributes) (Z.to_nat (height sz)) in
  let '(tb, r) :=
    _UpdateSize (mkTextBuffer rows 0 Viewport_Empty defaultAttributes (Cursor_new cursorSize) isActiveBuffer
                   ∅ ∅ 1 ∅ 0 []) in
  let? _ := r in Ok tb.

Definition TextBuffer_CopyProperties (OtherBuffer : TextBuffer) : M TextBuffer unit :=
  with_cursor (CopyProperties (_cursor OtherBuffer)).

Definition TextBuffer_Reset : M TextBuffer unit :=
  attr <- get GetCurrentAttributes ;;
  modify (fun tb => set_storage (map (Reset attr) (_storage tb)) tb).

Section Garbage.
Context {GW : GlyphWidth} (statics : Statics) (garbage : wchar).

(** [for (auto& it : _storage) it.Resize(...)]: the rows of the vector in its own order. *)
Definition on_storage {A} (i : nat) (m : M ROW A) : M TextBuffer A := fun tb =>
  match _storage tb !! i with
  | Some r => let '(r', a) := m r in (set_storage (<[i := r']> (_storage tb)) tb, a)
  | None => (tb, Undefined)
  end.

Definition resize_rows (rowWidth : Z) (attributes : TextAttribute) : M TextBuffer unit :=
  n <- get (fun tb => length (_storage tb)) ;;
  iterM (fun i => on_storage i (Resize garbage rowWidth attributes)) (seq 0 n).

(** [S_OK], or the code of an exception ([false]). *)
Definition ResizeTraditional (newSize : size) : M TextBuffer bool :=
  let newSize := Size (Z.max (width newSize) 1) (Z.max (height newSize) 1) in
  try_catch
    (wh <- get_result (fun _ => allocator_size newSize) ;;
     currentSize <- get (fun tb => Dimensions (GetSize tb)) ;;
     attributes <- get GetCurrentAttributes ;;
     p <- GetPosition ;;
     first <- get GetFirstRowIndex ;;
     let TopRow := if height newSize <=? y p then y p - height newSize + 1 else 0 in
     let TopRowIndex := Z.rem (first + TopRow) (height currentSize) in
     rows <- get_result (fun tb => std_rotate 0 TopRowIndex (TotalRowCount tb) (_storage tb)) ;;
     modify (set_storage rows) ;;
     modify (set_firstRow 0) ;;
     modify (fun tb =>
       set_storage (take (Z.to_nat wh.2) (_storage tb) ++
                    repeat ROW_default (Z.to_nat wh.2 - length (_storage tb))) tb) ;;
     resize_rows wh.1 attributes ;;
     _UpdateSize ;;
     ret true)
    (ret false).

(** ** Hyperlinks and patterns *)

Definition AddHyperlinkToMap (uri : wstring) (id : Z) : M TextBuffer unit :=
  modify (fun tb => set_links (<[id := uri]> (_hyperlinkMap tb)) (_hyperlinkCustomIdMap tb) (_currentHyperlinkId tb) tb).

(** [unordered_map::at] throws on a missing key. *)
Definition GetHyperlinkUriFromId (id : Z) (tb : TextBuffer) : Result wstring :=
  match _hyperlinkMap tb !! id with Some uri => Ok uri | None => Throw StdException end.

(** The custom id with the hash of the URI appended. *)
Definition custom_id (uri id : wstring) : Result wstring :=
  mapR (fun h => id ++ L "%" ++ format_unsigned h) (til_hash uri).

Definition GetHyperlinkId (uri id : wstring) : M TextBuffer Z :=
  current <- get _currentHyperlinkId ;;
  numericId <-
    (if bool_decide (id = []) then
       modify (fun tb => set_links (_hyperlinkMap tb) (_hyperlinkCustomIdMap tb) (u16 (current + 1)) tb) ;;
       ret current
     else
       newId <- get_result (fun _ => custom_id uri id) ;;
       found <- get (fun tb => _hyperlinkCustomIdMap tb !! newId) ;;
       match found with
       | Some n => ret n
       | None =>
           modify (fun tb => set_links (_hyperlinkMap tb) (<[newId := current]> (_hyperlinkCustomIdMap tb))
                               (u16 (current + 1)) tb) ;;
           ret current
       end) ;;
  modify (fun tb =>
    if _currentHyperlinkId tb =? 0
    then set_links (_hyperlinkMap tb) (_hyperlinkCustomIdMap tb) (u16 (_currentHyperlinkId tb + 1)) tb else tb) ;;
  ret numericId.

(** The first custom id that stands for an id. *)
Definition custom_id_of (id : Z) (tb : TextBuffer) : option wstring :=
  fst <$> List.find (fun p => snd p =? id) (map_to_list (_hyperlinkCustomIdMap tb)).

Definition RemoveHyperlinkFromMap (id : Z) : M TextBuffer unit :=
  modify (fun tb =>
    set_links (delete id (_hyperlinkMap tb))
      (match custom_id_of id tb with
       | Some k => delete k (_hyperlinkCustomIdMap tb)
       | None => _hyperlinkCustomIdMap tb
       end) (_currentHyperlinkId tb) tb).

Definition GetCustomIdFromId (id : Z) (tb : TextBuffer) : wstring := default [] (custom_id_of id tb).

Definition CopyHyperlinkMaps (other : TextBuffer) : M TextBuffer unit :=
  modify (set_links (_hyperlinkMap other) (_hyperlinkCustomIdMap other) (_currentHyperlinkId other)).

Definition AddPatternRecognizer (regexString : wstring) : M TextBuffer Z :=
  modify (fun tb => set_patterns (_idsAndPatterns tb) (u64 (_currentPatternId tb + 1)) tb) ;;
  n <- get _currentPatternId ;;
  (* [emplace] keeps an entry that is there *)
  modify (fun tb =>
    set_patterns (if bool_decide (is_Some (_idsAndPatterns tb !! n)) then _idsAndPatterns tb
                  else <[n := regexString]> (_idsAndPatterns tb)) n tb) ;;
  ret n.

Definition ClearPatternRecognizers : M TextBuffer unit := modify (set_patterns ∅ 0).

Definition CopyPatterns (OtherBuffer : TextBuffer) : M TextBuffer unit :=
  modify (set_patterns (_idsAndPatterns OtherBuffer) (_currentPatternId OtherBuffer)).

(** The references of the first row that no other row has. *)
Fixpoint prune_refs (i : Z) (n : nat) (refs : list Z) (tb : TextBuffer) : Result (list Z) :=
  match n with
  | O => Ok refs
  | S n =>
      let? ids := of_row i GetHyperlinks tb in
      let refs' := filter (fun id => id ∉ ids) refs in
      match refs' with
      | [] => Ok []
      | _ => prune_refs (i + 1) n refs' tb
      end
  end.

Definition _PruneHyperlinks : M TextBuffer unit :=
  hyperlinks <- get_result (of_row 0 GetHyperlinks) ;;
  match hyperlinks with
  | [] => ret tt
  | _ =>
      total <- get TotalRowCount ;;
      obsolete <- get_result (prune_refs 1 (Z.to_nat (total - 1)) (remove_dups hyperlinks)) ;;
      iterM RemoveHyperlinkFromMap obsolete
  end.

(** ** The ring *)

Definition IncrementCircularBuffer (inVtMode : bool) : M TextBuffer bool :=
  request (FlushFrame true) ;;
  _PruneHyperlinks ;;
  current <- get _currentAttributes ;;
  let fillAttributes := if inVtMode then SetStandardErase current else current in
  on_row 0 (modify (Reset fillAttributes)) ;;
  modify (fun tb => set_firstRow (_firstRow tb + 1) tb) ;;
  modify (fun tb => if Height (GetSize tb) <=? _firstRow tb then set_firstRow 0 tb else tb) ;;
  ret true.

Definition _AdjustWrapOnCurrentRow (fSet : bool) : M TextBuffer unit :=
  p <- GetPosition ;;
  on_row (y p) (modify (SetWrapForced fSet)).

Definition _SetWrapOnCurrentRow : M TextBuffer unit := _AdjustWrapOnCurrentRow true.

Definition NewlineCursor : M TextBuffer bool :=
  size <- get GetSize ;;
  let iFinalRowIndex := BottomInclusive size in
  with_cursor (SetXPosition 0) ;;
  with_cursor (IncrementYPosition 1) ;;
  p <- GetPosition ;;
  if iFinalRowIndex <? y p then
    with_cursor (SetYPosition iFinalRowIndex) ;;
    IncrementCircularBuffer false
  else ret true.

Definition IncrementCursor : M TextBuffer bool :=
  p <- GetPosition ;;
  w <- get_result (GetLineWidth (y p)) ;;
  let iFinalColumnIndex := w - 1 in
  with_cursor (IncrementXPosition 1) ;;
  p <- GetPosition ;;
  if iFinalColumnIndex <? x p then _SetWrapOnCurrentRow ;; NewlineCursor
  else ret true.

(** ** Writing *)

Definition WriteLine (givenIt : OutputCellIterator) (target : point) (wrap : option bool)
    (limitRight : option Z) : M TextBuffer OutputCellIterator :=
  size <- get GetSize ;;
  if negb (IsInBounds size target false) then ret givenIt
  else
    newIt <- on_row (y target) (WriteCells statics garbage givenIt (x target) wrap limitRight) ;;
    let written := GetCellDistance newIt givenIt in
    TriggerRedraw (FromDimensionsSize target (Size written 1)) ;;
    ret newIt.

(** Each turn of the loop moves down one line: there is fuel for every line and the last
    test. *)
Fixpoint write_lines (fuel : nat) (it : OutputCellIterator) (lineTarget : point) (wrap : option bool)
  : M TextBuffer OutputCellIterator :=
  size <- get GetSize ;;
  if iterator_valid it && IsInBounds size lineTarget false then
    match fuel with
    | O => outOfFuel
    | S fuel =>
        it' <- WriteLine it lineTarget wrap None ;;
        write_lines fuel it' (Point 0 (y lineTarget + 1)) wrap
    end
  else ret it.

Definition Write (givenIt : OutputCellIterator) (target : point) (wrap : option bool)
  : M TextBuffer OutputCellIterator :=
  size <- get GetSize ;;
  write_lines (Z.to_nat (Height size)) givenIt target wrap.

Definition WriteAtCursor (givenIt : OutputCellIterator) : M TextBuffer OutputCellIterator :=
  target <- GetPosition ;;
  Write givenIt target (Some true).

(** The check of two neighbouring halves: whether they fit, and whether erasing the
    previous one makes them fit. *)
Definition double_byte_check (prev curr : DbcsAttribute) : bool * bool :=
  match prev, curr with
  | Single, Trailing => (false, false)
  | Leading, Single | Leading, Leading => (true, true)
  | Trailing, Trailing => (false, false)
  | _, _ => (true, false)
  end.

Definition _AssertValidDoubleByteSequence (dbcsAttribute : DbcsAttribute) : M TextBuffer bool :=
  prev <- get_result _GetPreviousFromCursor ;;
  try_catch
    (row <- get_result (GetRowByOffset (y prev)) ;;
     prevDbcsAttr <- get_result (fun _ => DbcsAttrAt (x prev) row) ;;
     let '(valid, erase) := double_byte_check prevDbcsAttr dbcsAttribute in
     (if erase then on_row (y prev) (ClearCell garbage (x prev)) else ret tt) ;;
     ret valid)
    (ret false).

Definition _PrepareForDoubleByteSequence (dbcsAttribute : DbcsAttribute) : M TextBuffer bool :=
  _AssertValidDoubleByteSequence dbcsAttribute ;;
  if bool_decide (dbcsAttribute = Leading) then
    cursorPosition <- GetPosition ;;
    lineWidth <- get_result (GetLineWidth (y cursorPosition)) ;;
    if x cursorPosition =? lineWidth - 1 then
      on_row (y cursorPosition) (modify (SetDoubleBytePadded true)) ;;
      IncrementCursor
    else ret true
  else ret true.

Definition InsertCharacter (chars : wstring) (dbcsAttribute : DbcsAttribute) (attr : TextAttribute)
  : M TextBuffer bool :=
  fSuccess <- _PrepareForDoubleByteSequence dbcsAttribute ;;
  if fSuccess : bool then
    p <- GetPosition ;;
    let iRow := y p in
    let iCol := x p in
    stored <-
      try_catch
        (on_row iRow
          (match dbcsAttribute with
           | Leading => ReplaceCharacters garbage iCol 2 chars
           | Trailing => ReplaceCharacters garbage (iCol - 1) 2 chars
           | Single => ReplaceCharacters garbage iCol 1 chars
           end) ;; ret true)
        (ret false) ;;
    if stored : bool then
      fSuccess <- on_row iRow (SetAttrToEnd iCol attr) ;;
      if fSuccess : bool then IncrementCursor else ret false
    else ret false
  else ret false.

(** ** Line renditions *)

Definition SetCurrentLineRendition (lineRendition : LineRendition) : M TextBuffer unit :=
  cursorPosition <- GetPosition ;;
  let rowIndex := y cursorPosition in
  current <- get_result (GetLineRendition rowIndex) ;;
  if bool_decide (current <> lineRendition) then
    on_row rowIndex (modify (SetLineRendition lineRendition)) ;;
    on_row rowIndex (modify (SetWrapForced false)) ;;
    size <- get GetSize ;;
    (if bool_decide (lineRendition <> SingleWidth) then
       attrs <- get GetCurrentAttributes ;;
       let fillAttrs := SetStandardErase attrs in
       fillOffset <- get_result (GetLineWidth rowIndex) ;;
       let fillLength := Width size - fillOffset in
       let fillData := iterator_of_char_attr 0x20 fillAttrs fillLength in
       on_row rowIndex (WriteCells statics garbage fillData fillOffset (Some false) None) ;;
       clamped <- get_result (ClampPositionWithinLine cursorPosition) ;;
       with_cursor (SetPosition clamped)
     else ret tt) ;;
    TriggerRedraw (FromDimensionsSize (Point 0 rowIndex) (Size (Width size) 1))
  else ret tt.

Definition ResetLineRenditionRange (startRow endRow : Z) : M TextBuffer unit :=
  iterM (fun row => on_row row (modify (SetLineRendition SingleWidth)))
    (map (fun k => startRow + Z.of_nat k) (seq 0 (Z.to_nat (endRow - startRow)))).

(** ** Moving rows *)

Definition ScrollRows (firstRow size delta : Z) : M TextBuffer unit :=
  if delta =? 0 then ret tt
  else
    first <- get _firstRow ;;
    (if negb (first =? 0) then
       rows <- get_result (fun tb => std_rotate 0 first (TotalRowCount tb) (_storage tb)) ;;
       modify (set_storage rows) ;; modify (set_firstRow 0)
     else ret tt) ;;
    rows <- get_result (fun tb =>
      if delta <? 0 then std_rotate (firstRow + delta) firstRow (firstRow + size) (_storage tb)
      else std_rotate firstRow (firstRow + size) (firstRow + size + delta) (_storage tb)) ;;
    modify (set_storage rows).

(** ** The end of the text *)

Fixpoint back_up (fuel : nat) (p : point) (viewportTop : Z) (tb : TextBuffer) : Result point :=
  if (x p <? 0) && (viewportTop <? y p) then
    match fuel with
    | O => OutOfFuel
    | S fuel =>
        let? r := GetRowByOffset (y p - 1) tb in
        let? right := MeasureRight r in
        back_up fuel (Point (right - 1) (y p - 1)) viewportTop tb
    end
  else Ok p.

Definition GetLastNonSpaceCharacter (viewOptional : option Viewport) (tb : TextBuffer) : Result point :=
  let viewport := default (GetSize tb) viewOptional in
  let bottom := BottomInclusive viewport in
  let? r := GetRowByOffset bottom tb in
  let? right := MeasureRight r in
  let? p := back_up (Z.to_nat (bottom - Top viewport)) (Point (right - 1) bottom) (Top viewport) tb in
  Ok (Point (Z.max (x p) 0) (Z.max (y p) 0)).

End Garbage.

(** * Reading the cells of a text buffer

    Models src/src/buffer/out/textBufferCellIterator.cpp: an iterator over the cells of a
    buffer inside a viewport, with the view of the current cell, and the readings of
    [TextBuffer] that create one.  The iterator of the attributes that the code keeps
    beside the position is an index into the row's attributes, which is what such an
    iterator is (see the run-length vectors); it and the pointer to the row always belong
    to the position, so that they are recomputed here. *)

Record TextBufferCellIterator := mkCellIterator {
  ci_pos : point;
  ci_bounds : Viewport;
  ci_exceeded : bool;
  ci_view : OutputCellView
}.

(** The cell at a position: [_GenerateView]. *)
Definition _GenerateView (pos : point) (tb : TextBuffer) : Result OutputCellView :=
  let? r := GetRowByOffset (y pos) tb in
  let? glyph := GlyphAt (x pos) r in
  let? dbcs := DbcsAttrAt (x pos) r in
  let? attr := rle_at 16 (x pos) (_attr r) in
  Ok (mkView glyph dbcs attr Stored).

Definition CellIterator_new (pos : point) (limits : Viewport) (tb : TextBuffer) : Result TextBufferCellIterator :=
  if negb (IsInBoundsViewport (GetSize tb) limits) then Throw StdException
  else if negb (IsInBounds limits pos false) then Throw StdException
  else mapR (mkCellIterator pos limits false) (_GenerateView pos tb).

Definition cell_valid (it : TextBufferCellIterator) : bool :=
  negb (ci_exceeded it) && IsInBounds (ci_bounds it) (ci_pos it) false.

(** [while (move > 0)] of [operator+=]: the new position and [_exceeded]. *)
Fixpoint cells_forward (move : nat) (bounds : Viewport) (p : point) (exceeded : bool) : point * bool :=
  match move with
  | O => (p, exceeded)
  | S move =>
      if x p =? RightInclusive bounds then
        if BottomInclusive bounds <? y p + 1 then (Point (Left bounds) (Top bounds), true)
        else cells_forward move bounds (Point (Left bounds) (y p + 1)) exceeded
      else cells_forward move bounds (Point (x p + 1) (y p)) false
  end.

(** The view of an iterator that has gone past the end stays as it was. *)
Definition cell_add (move : nat) (tb : TextBuffer) (it : TextBufferCellIterator) : Result TextBufferCellIterator :=
  let '(p, exceeded) := cells_forward move (ci_bounds it) (ci_pos it) (ci_exceeded it) in
  if exceeded then Ok (mkCellIterator (ci_pos it) (ci_bounds it) true (ci_view it))
  else mapR (mkCellIterator p (ci_bounds it) false) (_GenerateView p tb).

(** [while (move > 0 && !_exceeded)] of [operator-=]. *)
Fixpoint cells_backward (move : nat) (bounds : Viewport) (p : point) (exceeded : bool) : point * bool :=
  match move with
  | O => (p, exceeded)
  | S move =>
      if exceeded then (p, exceeded)
      else
        let '(p', ok) := DecrementInBounds bounds p false in
        cells_backward move bounds p' (negb ok)
  end.

Definition cell_sub (move : nat) (tb : TextBuffer) (it : TextBufferCellIterator) : Result TextBufferCellIterator :=
  let '(p, exceeded) := cells_backward move (ci_bounds it) (ci_pos it) (ci_exceeded it) in
  mapR (mkCellIterator p (ci_bounds it) exceeded) (_GenerateView p tb).

Definition cell_next := cell_add 1.
Definition cell_prev := cell_sub 1.

Definition cell_diff (it other : TextBufferCellIterator) : Z := CompareInBounds (ci_bounds it) (ci_pos it) (ci_pos other).

(** ** The readings of the buffer *)

Definition GetCellDataAt (at_ : point) (tb : TextBuffer) : Result TextBufferCellIterator :=
  CellIterator_new at_ (GetSize tb) tb.

Definition GetCellLineDataAt (at_ : point) (tb : TextBuffer) : Result TextBufferCellIterator :=
  CellIterator_new at_ (FromInclusive (InclusiveRect 0 (y at_) (RightInclusive (GetSize tb)) (y at_))) tb.

Definition GetCellDataIn (at_ : point) (limit : Viewport) (tb : TextBuffer) : Result TextBufferCellIterator :=
  CellIterator_new at_ limit tb.
