(* ===== verification/TextBufferSpec.v ===== *)
(** * The text buffer as a page of lines

    [holds tb W ls]: the rows of the buffer, taken from the first one shown, are the
    lines [ls], each [W] columns wide.  Every operation of the buffer is described by
    what it does to the lines, whatever the position of the first row in the vector. *)

From stdpp Require Import gmap.
From S2P Require Import Prelude Effects Geometry LineRendition Viewport TextColor TextAttribute Rle RleLaws RleSpec Row RowLayout RowSpec RowTheorems CodepointWidth OutputCells RowWrite OutputText Cursor TextBuffer.

Local Open Scope Z_scope.

(** The rows from the first one shown. *)
Definition ring (tb : TextBuffer) : list ROW := rotate (Z.to_nat (_firstRow tb)) (_storage tb).

Record holds (tb : TextBuffer) (W : nat) (ls : list line) : Prop := {
  hd_rows : Forall2 shows (ring tb) ls;
  hd_first : 0 <= _firstRow tb < TotalRowCount tb;
  hd_height : TotalRowCount tb < 2 ^ 16;
  hd_size : _size tb = FromDimensions (Size (Z.of_nat W) (TotalRowCount tb));
  hd_width : Forall (fun l => l_width l = W) ls;
  hd_columns : (0 < W)%nat
}.

(** ** Rows of the ring *)

Section Ring.
Context (tb : TextBuffer) (W : nat) (ls : list line) (H : holds tb W ls).

Lemma holds_length : Z.of_nat (length ls) = TotalRowCount tb.
Proof.
  unfold TotalRowCount. rewrite <- (Forall2_length (hd_rows _ _ _ H)). unfold ring.
  by rewrite length_rotate.
Qed.

Lemma offsetIndex_ring (i : nat) :
  (i < length ls)%nat ->
  Z.to_nat (offsetIndex (Z.of_nat i) tb) = rotate_nat_add (Z.to_nat (_firstRow tb)) i (length (_storage tb)).
Proof.
  intros Hi. pose proof holds_length as Hl. destruct H as [_ Hf Hh _ _ _]. unfold offsetIndex, rotate_nat_add.
  unfold TotalRowCount in *. rewrite wrapu_small by (eval_ground; lia). do 2 f_equal. lia.
Qed.

Lemma ring_lookup (i : nat) : (i < length ls)%nat ->
  ring tb !! i = _storage tb !! Z.to_nat (offsetIndex (Z.of_nat i) tb).
Proof.
  intros Hi. rewrite offsetIndex_ring by done. unfold ring. apply lookup_rotate_r.
  pose proof holds_length. unfold TotalRowCount in *. lia.
Qed.

Lemma row_of_line i l :
  ls !! i = Some l -> exists r, GetRowByOffset (Z.of_nat i) tb = Ok r /\ shows r l.
Proof.
  intros Hl. pose proof (lookup_lt_Some _ _ _ Hl) as Hi.
  destruct (Forall2_lookup_r _ _ _ _ _ (hd_rows _ _ _ H) Hl) as (r & Hr & Hs).
  exists r. split; [|done]. unfold GetRowByOffset. by rewrite <- ring_lookup, Hr.
Qed.

(** A row is replaced by one that shows another line of the same width. *)
Lemma holds_set i r' l l' :
  ls !! i = Some l -> shows r' l' -> l_width l' = l_width l ->
  holds (set_storage (<[Z.to_nat (offsetIndex (Z.of_nat i) tb) := r']> (_storage tb)) tb) W (<[i := l']> ls).
Proof.
  intros Hl Hs Hw. pose proof (lookup_lt_Some _ _ _ Hl) as Hi. pose proof holds_length as Hlen.
  assert (Hst : (i < length (_storage tb))%nat) by (unfold TotalRowCount in Hlen; lia).
  destruct H as [H1 H2 H3 H4 H5 H6].
  split; unfold TotalRowCount in *; cbn [set_storage _storage _firstRow _size];
    rewrite ?length_insert; try done.
  - unfold ring. cbn [set_storage _storage _firstRow]. rewrite offsetIndex_ring by done.
    rewrite rotate_insert_l by done. by apply Forall2_insert.
  - rewrite Forall_lookup in H5 |- *. intros j k Hj. destruct (decide (i = j)) as [->|Hne].
    + rewrite list_lookup_insert_eq in Hj by done. injection Hj as <-. rewrite Hw. by apply (H5 _ _ Hl).
    + rewrite list_lookup_insert_ne in Hj by done. by apply (H5 _ _ Hj).
Qed.

Lemma on_row_holds {A} i l l' (m : M ROW A) (v : A) :
  ls !! i = Some l -> (forall r, shows r l -> exists r', m r = (r', Ok v) /\ shows r' l') -> l_width l' = l_width l ->
  exists s', on_row (Z.of_nat i) m tb = (set_storage s' tb, Ok v) /\ holds (set_storage s' tb) W (<[i := l']> ls).
Proof.
  intros Hl Hm Hw. destruct (row_of_line i l Hl) as (r & Hr & Hs). destruct (Hm r Hs) as (r' & E & Hs').
  unfold on_row. rewrite Hr, E. eexists. split; [done|]. by apply (holds_set i r' l l').
Qed.

Lemma of_row_holds {A} i l (f : ROW -> A) v :
  ls !! i = Some l -> (forall r, shows r l -> f r = v) -> of_row (Z.of_nat i) f tb = Ok v.
Proof.
  intros Hl Hf. destruct (row_of_line i l Hl) as (r & Hr & Hs). unfold of_row. rewrite Hr. cbn. by rewrite Hf.
Qed.

Definition line_width (l : line) : nat := if bool_decide (l_rendition l = SingleWidth) then W else W / 2.

Lemma GetLineWidth_holds i l : ls !! i = Some l -> GetLineWidth (Z.of_nat i) tb = Ok (Z.of_nat (line_width l)).
Proof.
  intros Hl. unfold GetLineWidth, IsDoubleWidthLine, GetLineRendition.
  rewrite (of_row_holds i l _ (l_rendition l) Hl) by (intros r Hs; apply (sh_rendition _ _ Hs)).
  cbn [mapR]. unfold line_width, GetSize. rewrite (hd_size _ _ _ H).
  unfold Width, RightExclusive, Left, FromDimensions, FromDimensionsSize. cbn [_sr ir_right ir_left x width].
  replace (0 + Z.of_nat W - 1 + 1 - 0) with (Z.of_nat W) by lia.
  destruct (decide (l_rendition l = SingleWidth)).
  - rewrite bool_decide_eq_false_2, bool_decide_eq_true_2 by tauto. by rewrite Z.shiftr_0_r.
  - rewrite bool_decide_eq_true_2, bool_decide_eq_false_2 by tauto.
    rewrite Z.shiftr_div_pow2 by lia. change (2 ^ 1) with 2. f_equal. by rewrite Nat2Z.inj_div.
Qed.

Lemma in_bounds_holds p :
  IsInBounds (GetSize tb) p false = true <-> 0 <= x p < Z.of_nat W /\ 0 <= y p < Z.of_nat (length ls).
Proof.
  rewrite holds_length. unfold IsInBounds, GetSize. rewrite (hd_size _ _ _ H). cbn [andb].
  unfold FromDimensions, FromDimensionsSize, Left, RightExclusive, Top, BottomExclusive.
  cbn [_sr ir_left ir_right ir_top ir_bottom x y width height].
  rewrite !andb_true_iff, !Z.leb_le, !Z.ltb_lt. lia.
Qed.

Lemma Height_holds : Height (GetSize tb) = Z.of_nat (length ls).
Proof.
  rewrite holds_length. unfold Height, GetSize, BottomExclusive, Top. rewrite (hd_size _ _ _ H).
  cbn [FromDimensions FromDimensionsSize _sr ir_bottom ir_top y height]. lia.
Qed.

Lemma Width_holds : Width (GetSize tb) = Z.of_nat W.
Proof.
  unfold Width, GetSize, RightExclusive, Left. rewrite (hd_size _ _ _ H).
  cbn [FromDimensions FromDimensionsSize _sr ir_right ir_left x width]. lia.
Qed.

End Ring.

(** What [holds] looks at. *)
Lemma holds_ext tb tb' W ls :
  holds tb W ls -> _storage tb' = _storage tb -> _firstRow tb' = _firstRow tb -> _size tb' = _size tb ->
  holds tb' W ls.
Proof.
  intros [H1 H2 H3 H4 H5 H6] E1 E2 E3.
  split; unfold ring, TotalRowCount in *; rewrite ?E1, ?E2, ?E3; done.
Qed.

(** ** Frames: what an operation on the cursor or the renderer leaves alone *)

(** The same buffer but for the requests to the renderer. *)
Definition same_page (tb tb' : TextBuffer) : Prop := tb' = set_requests (_requests tb') tb.

#[export] Instance same_page_preorder : PreOrder same_page.
Proof.
  split.
  - intros []; done.
  - intros [] [] []. unfold same_page, set_requests. cbn. intros [= -> -> -> -> -> -> -> -> -> -> ->] [= -> -> -> -> -> -> -> -> -> -> ->].
    done.
Qed.

Lemma request_same r tb : exists tb', request r tb = (tb', Ok tt) /\ same_page tb tb'.
Proof. eexists. split; [done|]. destruct tb as [? ? ? ? ? [] ? ? ? ? ? ?]; done. Qed.

Lemma requests_same (f : point -> RenderRequest) asked tb :
  exists tb', iterM (fun p => request (f p)) asked tb = (tb', Ok tt) /\ same_page tb tb'.
Proof.
  revert tb; induction asked as [|p asked IH]; intros tb; [by exists tb|]. cbn [iterM].
  destruct (request_same (f p) tb) as (tb1 & E1 & H1). rewrite (bind_Ok _ _ _ _ _ E1).
  destruct (IH tb1) as (tb2 & E2 & H2). exists tb2. split; [done|]. by transitivity tb1.
Qed.

Lemma with_cursor_same op tb :
  exists tb', with_cursor op tb = (tb', Ok tt) /\ same_page (set_cursor (op (_cursor tb)).1 tb) tb'.
Proof.
  unfold with_cursor, bind at 1, get. destruct (op (_cursor tb)) as [c asked]. cbn [fst].
  destruct (requests_same RedrawCursor asked (set_cursor c tb)) as (tb' & E & Hs).
  exists tb'. split; [exact E|done].
Qed.

Lemma same_page_holds tb tb' W ls : same_page tb tb' -> holds tb W ls -> holds tb' W ls.
Proof. intros E H. rewrite E. by apply (holds_ext tb). Qed.

Lemma set_cursor_holds c tb W ls : holds tb W ls -> holds (set_cursor c tb) W ls.
Proof. intros H. by apply (holds_ext tb). Qed.

(** ** Writing *)

(** The rows of a page after a write from column [c] of its first line on, and the glyphs
    for which there was no room. *)
Fixpoint flow (a : TextAttribute) (W c : nat) (wrap : option bool) (G : list glyph) (ls : list line)
  : list line * list glyph :=
  match ls, G with
  | [], _ => ([], G)
  | _, [] => (ls, [])
  | l :: ls', _ =>
      let '(ls'', R) := flow a W 0 wrap (fitting (W - c) G).2 ls' in
      (written_line a c (W - c) G wrap l :: ls'', R)
  end.

Lemma flow_nil a W c wrap ls : flow a W c wrap [] ls = (ls, []).
Proof. by destruct ls. Qed.

Section Writing.
Context {GW : GlyphWidth} (statics : Statics) (garbage : wchar) (a : TextAttribute) (psize : glyph -> Z).

#[local] Abbreviation presents := (presents statics a psize).

(** The same buffer but for the rows and the requests to the renderer. *)
Definition only_rows (tb tb' : TextBuffer) : Prop :=
  tb' = set_requests (_requests tb') (set_storage (_storage tb') tb).

Lemma only_rows_refl tb : only_rows tb tb.
Proof. by destruct tb. Qed.

Lemma only_rows_trans tb1 tb2 tb3 : only_rows tb1 tb2 -> only_rows tb2 tb3 -> only_rows tb1 tb3.
Proof.
  unfold only_rows. intros E1 E2. rewrite E2, E1. by destruct tb1.
Qed.

Lemma only_rows_storage s tb tb' : same_page (set_storage s tb) tb' -> only_rows tb tb'.
Proof. unfold same_page, only_rows. intros E. rewrite E. by destruct tb. Qed.

Lemma WriteLine_holds tb W ls G it wrap limitRight (c n i : nat) l :
  holds tb W ls -> presents it G -> cell_glyphs G -> ls !! i = Some l ->
  (c < W)%nat -> (c + n <= W)%nat ->
  default (Z.of_nat W - 1) limitRight = Z.of_nat (c + n) - 1 ->
  exists tb' it', WriteLine statics garbage it (Point (Z.of_nat c) (Z.of_nat i)) wrap limitRight tb = (tb', Ok it') /\
    only_rows tb tb' /\ holds tb' W (<[i := written_line a c n G wrap l]> ls) /\
    presents it' (fitting n G).2 /\ _pos it' = _pos it + psizes psize (fitting n G).1 /\
    _distance it' = _distance it + Z.of_nat (cols (fitting n G).1).
Proof.
  intros H Hp HG Hl Hc Hn Hlim. pose proof (lookup_lt_Some _ _ _ Hl) as Hi.
  assert (Hw : l_width l = W) by (by apply (Forall_lookup_1 _ _ _ _ (hd_width _ _ _ H) Hl)).
  unfold WriteLine, bind at 1, get.
  assert (Hb : IsInBounds (GetSize tb) (Point (Z.of_nat c) (Z.of_nat i)) false = true)
    by (apply (in_bounds_holds tb W ls H); cbn; lia).
  rewrite Hb. cbn [negb x y].
  destruct (row_of_line tb W ls H i l Hl) as (r & Hr & Hs).
  destruct (WriteCells_spec statics garbage a psize G it wrap limitRight c n r l)
    as (r' & it' & E & Hs' & Hp' & Hpos & Hdist); try done; rewrite ?Hw; try done.
  assert (Eo : on_row (Z.of_nat i) (WriteCells statics garbage it (Z.of_nat c) wrap limitRight) tb
    = (set_storage (<[Z.to_nat (offsetIndex (Z.of_nat i) tb) := r']> (_storage tb)) tb, Ok it')).
  { unfold on_row. by rewrite Hr, E. }
  rewrite (bind_Ok _ _ _ _ _ Eo).
  destruct (request_same (RedrawViewport (FromDimensionsSize (Point (Z.of_nat c) (Z.of_nat i)) (Size (GetCellDistance it' it) 1)))
    (set_storage (<[Z.to_nat (offsetIndex (Z.of_nat i) tb) := r']> (_storage tb)) tb)) as (tb2 & E2 & H2).
  unfold TriggerRedraw. rewrite (bind_Ok _ _ _ _ _ E2).
  exists tb2, it'. split; [done|]. split; [by eapply only_rows_storage|].
  split; [|done]. eapply same_page_holds; [exact H2|]. apply (holds_set tb W ls H i r' l); [done|done|].
  unfold l_width, written_line. cbn [set_l_attrs l_glyphs]. apply (write_line_width c n G wrap l).
  - by apply (shows_glyphs_ok r).
  - done.
  - lia.
Qed.

Lemma write_lines_holds wrap : forall k fuel tb W ls G it (c i : nat),
  holds tb W ls -> presents it G -> cell_glyphs G -> (c < W)%nat ->
  (length ls - i = k)%nat -> (k <= fuel)%nat -> (i <= length ls)%nat ->
  exists tb' it', write_lines statics garbage fuel it (Point (Z.of_nat c) (Z.of_nat i)) wrap tb = (tb', Ok it') /\
    only_rows tb tb' /\
    holds tb' W (take i ls ++ (flow a W c wrap G (drop i ls)).1) /\
    presents it' (flow a W c wrap G (drop i ls)).2.
Proof.
  induction k as [|k IH]; intros fuel tb W ls G it c i H Hp HG Hc Hk Hf Hi.
  - assert (i = length ls) as -> by lia. exists tb, it.
    rewrite drop_ge, take_ge by lia. cbn [flow fst snd]. rewrite app_nil_r.
    split; [|split; [apply only_rows_refl|done]].
    assert (Hb : IsInBounds (GetSize tb) (Point (Z.of_nat c) (Z.of_nat (length ls))) false = false).
    { apply not_true_iff_false. rewrite (in_bounds_holds tb W ls H). cbn. lia. }
    destruct fuel; cbn [write_lines]; unfold bind at 1, get; by rewrite Hb, andb_false_r.
  - destruct (lookup_lt_is_Some_2 ls i) as [l Hl]; [lia|].
    rewrite (drop_S _ _ _ Hl). destruct G as [|g G].
    { exists tb, it. cbn [flow fst snd]. rewrite <- (drop_S _ _ _ Hl), take_drop.
      split; [|split; [apply only_rows_refl|done]]. cbn in Hp.
      destruct fuel; cbn [write_lines]; unfold bind at 1, get; by rewrite Hp. }
    destruct fuel as [|fuel]; [lia|]. cbn [write_lines]. unfold bind at 1, get.
    assert (Hb : IsInBounds (GetSize tb) (Point (Z.of_nat c) (Z.of_nat i)) false = true)
      by (apply (in_bounds_holds tb W ls H); cbn; lia).
    rewrite Hb, (proj1 Hp). cbn [andb].
    destruct (WriteLine_holds tb W ls (g :: G) it wrap None c (W - c) i l) as (tb1 & it1 & E1 & F1 & H1 & P1 & _);
      try done; try (unfold default; cbn; lia).
    rewrite (bind_Ok _ _ _ _ _ E1). cbn [y].
    replace (Z.of_nat i + 1) with (Z.of_nat (S i)) by lia.
    assert (HR : cell_glyphs (fitting (W - c) (g :: G)).2).
    { pose proof (fitting_app (W - c) (g :: G)) as Ea. rewrite <- Ea in HG. by apply Forall_app in HG as [_ ?]. }
    destruct (IH fuel tb1 W (<[i := written_line a c (W - c) (g :: G) wrap l]> ls) (fitting (W - c) (g :: G)).2 it1 0%nat (S i))
      as (tb2 & it2 & E2 & F2 & H2 & P2); try done; try (rewrite ?length_insert; lia).
    exists tb2, it2. cbn [flow].
    rewrite (take_S_r _ i (written_line a c (W - c) (g :: G) wrap l)) in H2
      by (apply list_lookup_insert_eq; lia).
    rewrite take_insert_ge, drop_insert_lt in H2 by lia.
    rewrite drop_insert_lt in P2 by lia. rewrite <- app_assoc in H2.
    destruct (flow a W 0 wrap (fitting (W - c) (g :: G)).2 (drop (S i) ls)) as [ls'' R].
    split; [done|]. split; [by eapply only_rows_trans|]. done.
Qed.

Lemma Write_holds tb W ls G it wrap (c i : nat) :
  holds tb W ls -> presents it G -> cell_glyphs G -> (c < W)%nat -> (i <= length ls)%nat ->
  exists tb' it', Write statics garbage it (Point (Z.of_nat c) (Z.of_nat i)) wrap tb = (tb', Ok it') /\
    only_rows tb tb' /\
    holds tb' W (take i ls ++ (flow a W c wrap G (drop i ls)).1) /\
    presents it' (flow a W c wrap G (drop i ls)).2.
Proof.
  intros H Hp HG Hc Hi. unfold Write, bind at 1, get. rewrite (Height_holds tb W ls H), Nat2Z.id.
  eapply write_lines_holds; eauto. lia.
Qed.

End Writing.
