(* ===== verification/TextBufferRing.v ===== *)
(** * The ring of a text buffer

    The theorems about the operations that turn the ring: a new line at the end of the
    buffer takes the place of the oldest one, hyperlinks that only the oldest line used
    are forgotten, and the moves of the cursor that cause it keep the cursor on the
    page. *)

From stdpp Require Import gmap.
From S2P Require Import Prelude Effects Geometry LineRendition Viewport TextColor TextAttribute Rle RleLaws RleSpec Row RowLayout RowSpec RowTheorems CodepointWidth OutputCells RowWrite OutputText Cursor TextBuffer TextBufferSpec.

Local Open Scope Z_scope.

(** ** Hyperlinks *)

(** The hyperlinks of a line. *)
Definition links (l : line) : list Z :=
  map _hyperlinkId (filter (fun a => IsHyperlink a = true) (l_attrs l)).

Lemma elem_decode (runs : list (rle_pair TextAttribute)) v :
  Forall (fun p => 0 < run_length p) runs ->
  v ∈ decode runs <-> exists p, p ∈ runs /\ value p = v.
Proof.
  induction 1 as [|p runs Hp Hr IH].
  - split; [intros H; inversion H|intros (? & H & _); inversion H].
  - rewrite decode_cons, elem_of_app, IH. unfold expand. split.
    + intros [Hv|(q & Hq & E)]; [|exists q; split; [by right|done]].
      apply list_elem_of_In, repeat_spec in Hv. exists p. split; [by left|done].
    + intros (q & Hq & E). apply elem_of_cons in Hq as [->|Hq]; [left|right; by exists q].
      subst v. apply list_elem_of_In. destruct (Z.to_nat (run_length p)) eqn:En; [lia|by left].
Qed.

Lemma GetHyperlinks_links r l id : shows r l -> id ∈ GetHyperlinks r <-> id ∈ links l.
Proof.
  intros H. unfold GetHyperlinks, links. rewrite <- (sh_attrs _ _ H). unfold contents.
  assert (Hpos : Forall (fun p => 0 < run_length p) (_runs (_attr r))).
  { destruct (sh_attributed _ _ H) as [_ Hcp _]. destruct Hcp as [Hcp _]. exact Hcp. }
  rewrite !list_elem_of_fmap. split.
  - intros (p & -> & Hp). apply list_elem_of_filter in Hp as [Hh Hp]. exists (value p). split; [done|].
    apply list_elem_of_filter. split; [done|]. apply elem_decode; eauto.
  - intros (v & -> & Hv). apply list_elem_of_filter in Hv as [Hh Hv].
    apply elem_decode in Hv as (p & Hp & <-); [|done].
    exists p. split; [done|]. by apply list_elem_of_filter.
Qed.

(** ** Pruning *)

Lemma prune_refs_spec tb W ls : holds tb W ls -> forall n i refs,
  (i + n <= length ls)%nat ->
  exists kept, prune_refs (Z.of_nat i) n refs tb = Ok kept /\
    forall id, id ∈ kept <-> id ∈ refs /\ Forall (fun l => id ∉ links l) (take n (drop i ls)).
Proof.
  intros H. induction n as [|n IH]; intros i refs Hi.
  { exists refs. split; [done|]. intros id. cbn. split; [intros; split; [done|constructor]|tauto]. }
  destruct (lookup_lt_is_Some_2 ls i) as [l Hl]; [lia|].
  destruct (row_of_line tb W ls H i l Hl) as (r & Hr & Hs).
  cbn [prune_refs]. unfold of_row at 1. rewrite Hr. cbn [mapR bindR]. cbv zeta.
  assert (Hrefs : forall id P,
    (id ∈ filter (fun id => id ∉ GetHyperlinks r) refs /\ P) <-> id ∈ refs /\ (id ∉ links l) /\ P).
  { intros id P. rewrite list_elem_of_filter, (GetHyperlinks_links r l id Hs). tauto. }
  rewrite (drop_S _ _ _ Hl). cbn [take].
  destruct (filter (fun id => id ∉ GetHyperlinks r) refs) as [|id0 refs'].
  - exists []. split; [done|]. intros id. rewrite Forall_cons_iff. rewrite <- Hrefs.
    split; [intros Hn; inversion Hn|intros [Hn _]; inversion Hn].
  - replace (Z.of_nat i + 1) with (Z.of_nat (S i)) by lia.
    destruct (IH (S i) (id0 :: refs')) as (kept & Ek & Hk); [lia|]. exists kept. split; [exact Ek|].
    intros id. rewrite Hk, Forall_cons_iff. apply Hrefs.
Qed.

Lemma remove_links obsolete : forall tb,
  exists m ids, iterM RemoveHyperlinkFromMap obsolete tb = (set_links m ids (_currentHyperlinkId tb) tb, Ok tt) /\
    forall id, m !! id = if decide (id ∈ obsolete) then None else _hyperlinkMap tb !! id.
Proof.
  induction obsolete as [|k obsolete IH]; intros tb.
  { exists (_hyperlinkMap tb), (_hyperlinkCustomIdMap tb). split; [by destruct tb|].
    intros id. by rewrite decide_False by (apply not_elem_of_nil). }
  cbn [iterM]. unfold RemoveHyperlinkFromMap at 1, bind at 1, modify at 1. cbv beta iota.
  match goal with |- context [iterM _ _ (set_links ?m ?d ?n tb)] =>
    destruct (IH (set_links m d n tb)) as (m' & ids & E & Hm) end.
  exists m', ids. rewrite E. split; [by destruct tb|]. intros id. rewrite Hm. cbn [set_links _hyperlinkMap].
  destruct (decide (id ∈ obsolete)) as [Hin|Hin].
  - by rewrite decide_True by (by right).
  - destruct (decide (id = k)) as [->|Hne].
    + rewrite decide_True by left. apply lookup_delete_eq.
    + rewrite decide_False by (rewrite elem_of_cons; tauto). by apply lookup_delete_ne.
Qed.

(** Whether a hyperlink is used by the first of the lines only. *)
Definition only_first (ls : list line) (id : Z) : Prop :=
  match ls with [] => False | l :: ls => id ∈ links l /\ Forall (fun l => id ∉ links l) ls end.

#[export] Instance only_first_dec ls id : Decision (only_first ls id).
Proof. destruct ls; apply _. Defined.

Lemma PruneHyperlinks_holds tb W ls :
  holds tb W ls -> exists m ids, _PruneHyperlinks tb = (set_links m ids (_currentHyperlinkId tb) tb, Ok tt) /\
    forall id, m !! id = if decide (only_first ls id) then None else _hyperlinkMap tb !! id.
Proof.
  intros H. pose proof (holds_length tb W ls H) as Hlen. pose proof (hd_first _ _ _ H) as Hf.
  destruct ls as [|l ls]; [cbn in Hlen; lia|].
  destruct (row_of_line tb W (l :: ls) H 0 l eq_refl) as (r & Hr & Hs). change (Z.of_nat 0) with 0 in Hr.
  unfold _PruneHyperlinks, bind at 1, get_result at 1, of_row at 1. rewrite Hr. cbn [mapR].
  destruct (GetHyperlinks r) as [|h hs] eqn:Eh.
  { exists (_hyperlinkMap tb), (_hyperlinkCustomIdMap tb). split; [by destruct tb|].
    intros id. rewrite decide_False; [done|]. cbn [only_first].
    rewrite <- (GetHyperlinks_links r l id Hs), Eh. intros [Hn _]. inversion Hn. }
  unfold bind at 1, get at 1. rewrite <- Hlen. cbn [length].
  replace (Z.to_nat (Z.of_nat (S (length ls)) - 1)) with (length ls) by lia.
  destruct (prune_refs_spec tb W (l :: ls) H (length ls) 1 (remove_dups (h :: hs))) as (kept & Ek & Hk); [cbn; lia|].
  unfold bind at 1, get_result at 1. change 1 with (Z.of_nat 1). rewrite Ek.
  destruct (remove_links kept tb) as (m & ids & E & Hm). exists m, ids. split; [exact E|].
  intros id. rewrite Hm. apply decide_ext. rewrite Hk. cbn [drop only_first]. rewrite firstn_all.
  by rewrite elem_of_remove_dups, <- Eh, (GetHyperlinks_links r l id Hs).
Qed.

(** ** Turning the ring *)

Lemma ring_next (A : Type) (s : list A) (f : nat) (r' : A) :
  (f < length s)%nat ->
  rotate (if (length s <=? f + 1)%nat then 0 else f + 1) (<[f := r']> s) = drop 1 (rotate f s) ++ [r'].
Proof.
  intros Hf. unfold rotate. rewrite length_insert, (Nat.mod_small f) by done.
  assert (Ed : drop 1 (drop f s ++ take f s) = drop (S f) s ++ take f s).
  { destruct (lookup_lt_is_Some_2 s f Hf) as [v Hv]. by rewrite (drop_S _ _ _ Hv). }
  rewrite Ed, <- app_assoc.
  assert (Et : take (f + 1) (<[f := r']> s) = take f s ++ [r']).
  { rewrite Nat.add_1_r, (take_S_r _ _ r') by (by apply list_lookup_insert_eq).
    by rewrite take_insert_ge by lia. }
  destruct (Nat.leb_spec (length s) (f + 1)).
  - rewrite (drop_ge s (S f)) by lia. rewrite Nat.Div0.mod_0_l. cbn [drop take app].
    rewrite <- Et, app_nil_r, take_ge by (rewrite length_insert; lia). done.
  - rewrite Nat.mod_small by lia. rewrite Et, drop_insert_lt by lia. by rewrite Nat.add_1_r.
Qed.

Lemma IncrementCircularBuffer_holds tb W l ls (inVtMode : bool) :
  holds tb W (l :: ls) ->
  exists tb', IncrementCircularBuffer inVtMode tb = (tb', Ok true) /\
    holds tb' W (ls ++ [blank_line W (if inVtMode then SetStandardErase (_currentAttributes tb) else _currentAttributes tb)]) /\
    (forall id, _hyperlinkMap tb' !! id = if decide (only_first (l :: ls) id) then None else _hyperlinkMap tb !! id) /\
    _cursor tb' = _cursor tb /\ _currentAttributes tb' = _currentAttributes tb /\ _size tb' = _size tb /\
    _isActiveBuffer tb' = _isActiveBuffer tb.
Proof.
  intros H. unfold IncrementCircularBuffer.
  destruct (request_same (FlushFrame true) tb) as (tb1 & E1 & S1). rewrite (bind_Ok _ _ _ _ _ E1).
  pose proof (same_page_holds _ _ _ _ S1 H) as H1.
  destruct (PruneHyperlinks_holds tb1 W (l :: ls) H1) as (m & ids & E2 & Hm). rewrite (bind_Ok _ _ _ _ _ E2).
  set (tb2 := set_links m ids (_currentHyperlinkId tb1) tb1) in *.
  assert (H2 : holds tb2 W (l :: ls)) by (by apply (holds_ext tb1)).
  assert (Ea : _currentAttributes tb2 = _currentAttributes tb) by (unfold tb2; rewrite S1; done).
  unfold bind at 1, get at 1. rewrite Ea. cbv zeta. set (fill := if inVtMode then _ else _).
  destruct (row_of_line tb2 W _ H2 0 l eq_refl) as (r & Hr & Hs). change (Z.of_nat 0) with 0 in Hr.
  assert (Hw : l_width l = W) by (apply (Forall_lookup_1 _ _ 0%nat _ (hd_width _ _ _ H2)); done).
  pose proof (shows_reset r l fill Hs) as Hs'. rewrite Hw in Hs'.
  pose proof (hd_first _ _ _ H2) as Hfirst. pose proof (hd_height _ _ _ H2) as Hheight.
  assert (Hoff : Z.to_nat (offsetIndex 0 tb2) = Z.to_nat (_firstRow tb2)).
  { unfold offsetIndex, TotalRowCount in *. rewrite Z.add_0_r, wrapu_small, Z.mod_small by (eval_ground; lia). done. }
  assert (E3 : on_row 0 (modify (Reset fill)) tb2
    = (set_storage (<[Z.to_nat (_firstRow tb2) := Reset fill r]> (_storage tb2)) tb2, Ok tt)).
  { unfold on_row. rewrite Hr. cbn. by rewrite Hoff. }
  rewrite (bind_Ok _ _ _ _ _ E3). unfold bind, modify, ret. cbn [set_storage set_firstRow _firstRow GetSize _size].
  assert (Hh : Height (_size tb2) = TotalRowCount tb2).
  { rewrite (hd_size _ _ _ H2). unfold Height, BottomExclusive, Top. cbn. lia. }
  unfold TotalRowCount in *.
  eexists. split; [reflexivity|]. split; [|repeat split].
  - assert (Hring : rotate (if (length (_storage tb2) <=? Z.to_nat (_firstRow tb2) + 1)%nat then 0 else Z.to_nat (_firstRow tb2) + 1)
        (<[Z.to_nat (_firstRow tb2) := Reset fill r]> (_storage tb2)) = drop 1 (ring tb2) ++ [Reset fill r])
      by (apply ring_next; lia).
    assert (HF : Forall2 shows (drop 1 (ring tb2) ++ [Reset fill r]) (ls ++ [blank_line W fill])).
    { apply Forall2_app; [|by apply Forall2_cons_2, Forall2_nil_2]. pose proof (hd_rows _ _ _ H2) as HR.
      apply (Forall2_drop _ _ _ 1) in HR. exact HR. }
    assert (Hwd : Forall (fun l => l_width l = W) (ls ++ [blank_line W fill])).
    { apply Forall_app_2; [pose proof (hd_width _ _ _ H2) as Hwd; by inversion Hwd|].
      constructor; [|constructor]. apply cols_spaces. }
    destruct (Z.leb_spec (Height (_size tb2)) (_firstRow tb2 + 1)) as [Hle|Hgt];
      cbn [set_firstRow set_storage _storage _firstRow _size];
      (split; unfold ring, TotalRowCount in *; cbn [set_firstRow set_storage _storage _firstRow _size];
       rewrite ?length_insert; try done; try lia).
    + rewrite (proj2 (Nat.leb_le _ _)) in Hring by lia. change (Z.to_nat 0) with 0%nat. by rewrite Hring.
    + apply (hd_size _ _ _ H2).
    + apply (hd_columns _ _ _ H2).
    + rewrite (proj2 (Nat.leb_gt _ _)) in Hring by lia.
      replace (Z.to_nat (_firstRow tb2 + 1)) with (Z.to_nat (_firstRow tb2) + 1)%nat by lia. by rewrite Hring.
    + apply (hd_size _ _ _ H2).
    + apply (hd_columns _ _ _ H2).
  - intros id. destruct (_ <=? _); cbn [_hyperlinkMap set_firstRow]; rewrite Hm, S1; done.
  - destruct (_ <=? _); cbn; rewrite S1; done.
  - destruct (_ <=? _); cbn; rewrite S1; done.
  - destruct (_ <=? _); cbn; rewrite S1; done.
  - destruct (_ <=? _); cbn; rewrite S1; done.
Qed.

(** C19. When the ring turns, the buffer loses its oldest line and gains a blank one at the
    end (with the current attributes, or the standard erase attributes for a VT sequence),
    wherever the oldest line is stored; the hyperlinks that only the lost line used are
    removed from the table and no others; the cursor, the current attributes and the size
    stay as they are. *)
Theorem circular_buffer_scrolls (tb : TextBuffer) (W : nat) (l : line) (ls : list line) (inVtMode : bool) :
  holds tb W (l :: ls) ->
  exists tb', IncrementCircularBuffer inVtMode tb = (tb', Ok true) /\
    holds tb' W (ls ++ [blank_line W (if inVtMode then SetStandardErase (_currentAttributes tb) else _currentAttributes tb)]) /\
    (forall id, _hyperlinkMap tb' !! id = if decide (only_first (l :: ls) id) then None else _hyperlinkMap tb !! id) /\
    _cursor tb' = _cursor tb /\ _currentAttributes tb' = _currentAttributes tb /\ _size tb' = _size tb.
Proof.
  intros H. destruct (IncrementCircularBuffer_holds tb W l ls inVtMode H) as (tb' & E & H' & Hm & Hc & Ha & Hs & _).
  by exists tb'.
Qed.
