(* ===== verification/TextBufferPage.v ===== *)
(** * The text buffer refines a page

    A [page] is a list of lines of one width with a cursor and the current attributes.
    [page_of] says that a buffer is a page; every operation of the buffer is a function
    on pages, and the theorem at the end is the simulation. *)

From stdpp Require Import gmap.
From S2P Require Import Prelude Effects Geometry LineRendition Viewport TextColor TextAttribute Rle RleLaws RleSpec Row RowLayout RowSpec RowTheorems CodepointWidth OutputCells RowWrite OutputText Cursor TextBuffer TextBufferSpec TextBufferRing.

Local Open Scope Z_scope.

Record page := mkPage {
  pg_width : nat;
  pg_lines : list line;
  pg_cursor : point;
  pg_attrs : TextAttribute
}.

Definition set_pg_lines ls pg := mkPage (pg_width pg) ls (pg_cursor pg) (pg_attrs pg).
Definition set_pg_cursor p pg := mkPage (pg_width pg) (pg_lines pg) p (pg_attrs pg).
Definition set_pg_attrs a pg := mkPage (pg_width pg) (pg_lines pg) (pg_cursor pg) a.

Record page_of (tb : TextBuffer) (pg : page) : Prop := {
  po_holds : holds tb (pg_width pg) (pg_lines pg);
  po_cursor : _cPosition (_cursor tb) = pg_cursor pg;
  po_attrs : _currentAttributes tb = pg_attrs pg
}.

(** The line of the cursor, and its index. *)
Definition row_of (pg : page) : nat := Z.to_nat (y (pg_cursor pg)).
Definition on_page (pg : page) : Prop := 0 <= y (pg_cursor pg) < Z.of_nat (length (pg_lines pg)).

Lemma on_page_line pg : on_page pg -> exists l, pg_lines pg !! row_of pg = Some l /\ Z.of_nat (row_of pg) = y (pg_cursor pg).
Proof.
  unfold on_page, row_of. intros Hy. destruct (lookup_lt_is_Some_2 (pg_lines pg) (Z.to_nat (y (pg_cursor pg)))) as [l Hl]; [lia|].
  exists l. split; [done|lia].
Qed.

(** ** Moving the cursor *)

Lemma page_same tb tb' pg : page_of tb pg -> same_page tb tb' -> page_of tb' pg.
Proof. intros [H1 H2 H3] S. split; [by eapply same_page_holds|by rewrite S..]. Qed.

Lemma page_request r tb pg : page_of tb pg -> exists tb', request r tb = (tb', Ok tt) /\ page_of tb' pg.
Proof. intros H. destruct (request_same r tb) as (tb' & E & S). exists tb'. split; [done|]. by eapply page_same. Qed.

Lemma page_move f tb pg :
  page_of tb pg ->
  exists tb', with_cursor (moving f) tb = (tb', Ok tt) /\ page_of tb' (set_pg_cursor (f (pg_cursor pg)) pg).
Proof.
  intros [H1 H2 H3]. destruct (with_cursor_same (moving f) tb) as (tb' & E & S). exists tb'. split; [done|].
  eapply page_same; [|exact S]. split; [by apply set_cursor_holds| |done].
  cbn [set_cursor _cursor set_pg_cursor pg_cursor]. pose proof (moving_spec f (_cursor tb)) as Hm.
  destruct (moving f (_cursor tb)) as [c asked]. destruct Hm as [Hp _]. cbn [fst]. by rewrite Hp, H2.
Qed.

Lemma page_storage tb pg ls s' :
  page_of tb pg -> holds (set_storage s' tb) (pg_width pg) ls -> page_of (set_storage s' tb) (set_pg_lines ls pg).
Proof. intros [H1 H2 H3] H. by split. Qed.

(** An operation on the row of the cursor. *)
Lemma page_on_row {A} tb pg i l l' (m : M ROW A) v :
  page_of tb pg -> pg_lines pg !! i = Some l ->
  (forall r, shows r l -> exists r', m r = (r', Ok v) /\ shows r' l') -> l_width l' = l_width l ->
  exists tb', on_row (Z.of_nat i) m tb = (tb', Ok v) /\ page_of tb' (set_pg_lines (<[i := l']> (pg_lines pg)) pg).
Proof.
  intros H Hl Hm Hw.
  destruct (on_row_holds tb _ _ (po_holds _ _ H) i l l' m v Hl Hm Hw) as (s' & E & H').
  eexists. split; [exact E|]. by apply page_storage.
Qed.

(** ** New lines *)

Definition bottom (pg : page) : Z := Z.of_nat (length (pg_lines pg)) - 1.

Definition newline (pg : page) : page :=
  if y (pg_cursor pg) + 1 <=? bottom pg
  then set_pg_cursor (Point 0 (y (pg_cursor pg) + 1)) pg
  else mkPage (pg_width pg) (tail (pg_lines pg) ++ [blank_line (pg_width pg) (pg_attrs pg)])
         (Point 0 (bottom pg)) (pg_attrs pg).

Lemma BottomInclusive_holds tb W ls : holds tb W ls -> BottomInclusive (GetSize tb) = Z.of_nat (length ls) - 1.
Proof.
  intros H. rewrite (holds_length tb W ls H). unfold BottomInclusive, GetSize. rewrite (hd_size _ _ _ H).
  cbn [FromDimensions FromDimensionsSize _sr ir_bottom y height]. lia.
Qed.

Lemma NewlineCursor_page tb pg :
  page_of tb pg -> exists tb', NewlineCursor tb = (tb', Ok true) /\ page_of tb' (newline pg).
Proof.
  intros H. unfold NewlineCursor, bind at 1, get at 1.
  rewrite (BottomInclusive_holds tb _ _ (po_holds _ _ H)). cbv zeta. unfold SetXPosition, IncrementYPosition.
  destruct (page_move (fun p => Point 0 (y p)) tb pg H) as (tb1 & E1 & H1). rewrite (bind_Ok _ _ _ _ _ E1).
  destruct (page_move (fun p => Point (x p) (y p + 1)) tb1 _ H1) as (tb2 & E2 & H2). rewrite (bind_Ok _ _ _ _ _ E2).
  unfold bind at 1, GetPosition, get. rewrite (po_cursor _ _ H2). cbn [set_pg_cursor pg_cursor y x] in *.
  unfold newline. fold (bottom pg). destruct (Z.ltb_spec (bottom pg) (y (pg_cursor pg) + 1)) as [Hlt|Hge].
  - rewrite (proj2 (Z.leb_gt _ _)) by lia. unfold SetYPosition.
    destruct (page_move (fun p => Point (x p) (bottom pg)) tb2 _ H2) as (tb3 & E3 & H3).
    rewrite (bind_Ok _ _ _ _ _ E3). cbn [set_pg_cursor pg_cursor pg_width pg_lines pg_attrs x] in *.
    destruct H3 as [H3 Hc Ha]. cbn [set_pg_cursor pg_cursor pg_width pg_lines pg_attrs x] in *.
    destruct (pg_lines pg) as [|l ls] eqn:El.
    { pose proof (holds_length _ _ _ H3) as Hl. pose proof (hd_first _ _ _ H3). cbn in Hl. lia. }
    destruct (IncrementCircularBuffer_holds tb3 _ l ls false H3) as (tb4 & E4 & H4 & _ & Hc4 & Ha4 & _).
    exists tb4. split; [exact E4|]. split; cbn [pg_width pg_lines pg_cursor pg_attrs tail].
    + by rewrite <- Ha.
    + by rewrite Hc4.
    + by rewrite Ha4.
  - rewrite (proj2 (Z.leb_le _ _)) by lia. by exists tb2.
Qed.

Definition increment (pg : page) : page :=
  match pg_lines pg !! row_of pg with
  | None => pg
  | Some l =>
      let pg' := set_pg_cursor (Point (x (pg_cursor pg) + 1) (y (pg_cursor pg))) pg in
      if x (pg_cursor pg) + 1 <? Z.of_nat (line_width (pg_width pg) l) then pg'
      else newline (set_pg_lines (<[row_of pg := set_l_wrap true l]> (pg_lines pg)) pg')
  end.

Lemma IncrementCursor_page tb pg :
  page_of tb pg -> on_page pg -> exists tb', IncrementCursor tb = (tb', Ok true) /\ page_of tb' (increment pg).
Proof.
  intros H Hon. destruct (on_page_line pg Hon) as (l & Hl & Hy).
  unfold IncrementCursor, bind at 1, GetPosition at 1, get at 1. rewrite (po_cursor _ _ H), <- Hy.
  unfold bind at 1, get_result at 1. rewrite (GetLineWidth_holds tb _ _ (po_holds _ _ H) _ l Hl). cbv zeta.
  unfold IncrementXPosition.
  destruct (page_move (fun p => Point (x p + 1) (y p)) tb pg H) as (tb1 & E1 & H1). rewrite (bind_Ok _ _ _ _ _ E1).
  unfold bind at 1, GetPosition at 1, get at 1. rewrite (po_cursor _ _ H1). unfold increment. rewrite Hl.
  cbn [set_pg_cursor pg_cursor x y]. cbv zeta.
  set (lw := Z.of_nat (line_width (pg_width pg) l)).
  destruct (Z.ltb_spec (lw - 1) (x (pg_cursor pg) + 1)) as [Ha|Ha], (Z.ltb_spec (x (pg_cursor pg) + 1) lw) as [Hb|Hb]; try lia.
  - unfold _SetWrapOnCurrentRow, _AdjustWrapOnCurrentRow. rewrite bind_assoc.
    unfold bind at 1, GetPosition at 1, get at 1. rewrite (po_cursor _ _ H1). cbn [set_pg_cursor pg_cursor y].
    rewrite <- Hy.
    destruct (page_on_row tb1 _ (row_of pg) l (set_l_wrap true l) (modify (SetWrapForced true)) tt H1)
      as (tb2 & E2 & H2); [done| |done|].
    { intros r Hs. eexists. split; [done|]. by apply shows_wrap. }
    rewrite (bind_Ok _ _ _ _ _ E2). rewrite Hy. by apply NewlineCursor_page.
  - by exists tb1.
Qed.

(** A page whose cursor is on one of its lines, within the width of the line. *)
Definition cursor_ok (pg : page) : Prop :=
  on_page pg /\ forall l, pg_lines pg !! row_of pg = Some l -> 0 <= x (pg_cursor pg) < Z.of_nat (line_width (pg_width pg) l).

(** ** Moving rows *)

Lemma std_rotate_Forall2 {A B} (R : A -> B -> Prop) first middle last l k k' :
  Forall2 R l k -> std_rotate first middle last k = Ok k' ->
  exists l', std_rotate first middle last l = Ok l' /\ Forall2 R l' k'.
Proof.
  intros HR. unfold std_rotate. rewrite (Forall2_length HR). case_if; [|done]. intros [= <-].
  eexists. split; [done|]. repeat apply Forall2_app; auto using Forall2_take, Forall2_drop.
Qed.

Lemma std_rotate_Forall {A} (P : A -> Prop) first middle last l l' :
  Forall P l -> std_rotate first middle last l = Ok l' -> Forall P l'.
Proof.
  intros HP. unfold std_rotate. case_if; [|done]. intros [= <-].
  repeat apply Forall_app_2; auto using Forall_take, Forall_drop.
Qed.

Lemma std_rotate_length {A} first middle last (l l' : list A) :
  std_rotate first middle last l = Ok l' -> length l' = length l.
Proof.
  unfold std_rotate. case_if; [|done]. bool_prop. intros [= <-].
  rewrite !length_app, !length_take, !length_drop. lia.
Qed.

(** What is where after a rotation. *)
Lemma std_rotate_lookup {A} (f m e : nat) (l l' : list A) (i : nat) :
  std_rotate (Z.of_nat f) (Z.of_nat m) (Z.of_nat e) l = Ok l' ->
  l' !! i = l !! (if (f <=? i) && (i <? f + (e - m)) then i + (m - f)
                  else if (f + (e - m) <=? i) && (i <? e) then i - (e - m) else i)%nat.
Proof.
  unfold std_rotate. case_if; [|done]. bool_prop. rewrite !Nat2Z.id. intros [= <-].
  destruct (Nat.leb_spec f i) as [K1|K1]; cbn [andb].
  2: { destruct (Nat.leb_spec (f + (e - m)) i); [lia|]. cbn [andb].
       rewrite lookup_app_l by (rewrite length_take; lia). by rewrite lookup_take_lt by lia. }
  rewrite lookup_app_r, length_take, Nat.min_l by (rewrite ?length_take; lia).
  destruct (Nat.ltb_spec i (f + (e - m))) as [K2|K2].
  { rewrite lookup_app_l by (rewrite length_take, length_drop; lia).
    rewrite lookup_take_lt, lookup_drop by lia. f_equal. lia. }
  rewrite (proj2 (Nat.leb_le (f + (e - m)) i)) by lia. cbn [andb].
  rewrite lookup_app_r, length_take, length_drop, Nat.min_l by (rewrite ?length_take, ?length_drop; lia).
  destruct (Nat.ltb_spec i e) as [K3|K3].
  - rewrite lookup_app_l by (rewrite length_take, length_drop; lia).
    rewrite lookup_take_lt, lookup_drop by lia. f_equal. lia.
  - rewrite lookup_app_r, length_take, length_drop, Nat.min_l by (rewrite ?length_take, ?length_drop; lia).
    rewrite lookup_drop. f_equal. lia.
Qed.

(** The first row is brought to the front of the vector. *)
Lemma straighten tb W ls :
  holds tb W ls -> exists tb',
    (first <- get _firstRow ;;
     if negb (first =? 0) then
       rows <- get_result (fun tb => std_rotate 0 first (TotalRowCount tb) (_storage tb)) ;;
       modify (set_storage rows) ;; modify (set_firstRow 0)
     else ret tt) tb = (tb', Ok tt) /\ holds tb' W ls /\ _firstRow tb' = 0 /\
    tb' = set_firstRow 0 (set_storage (_storage tb') tb).
Proof.
  intros H. pose proof (hd_first _ _ _ H) as Hf. unfold bind at 1, get at 1.
  destruct (Z.eqb_spec (_firstRow tb) 0) as [E0|E0]; cbn [negb].
  - exists tb. split_and!; try done. destruct tb; cbn in *; by subst.
  - assert (Er : std_rotate 0 (_firstRow tb) (TotalRowCount tb) (_storage tb) = Ok (ring tb)).
    { unfold std_rotate, ring, rotate, TotalRowCount in *.
      rewrite !(proj2 (Z.leb_le _ _)) by lia. cbn [andb]. change (Z.to_nat 0) with 0%nat. cbn [take app drop].
      rewrite Nat2Z.id, Nat.mod_small, Nat.sub_0_r by lia.
      rewrite (drop_ge (_storage tb) (length (_storage tb))), app_nil_r by lia.
      rewrite (take_ge (drop _ _)) by (rewrite length_drop; lia). done. }
    unfold bind at 1, get_result at 1. rewrite Er. unfold bind, modify.
    eexists. split; [reflexivity|]. split; [|split; [done|by destruct tb]].
    assert (El : length (ring tb) = length (_storage tb)) by apply length_rotate.
    destruct H as [H1 H2 H3 H4 H5 H6]. unfold TotalRowCount in *.
    split; unfold TotalRowCount; cbn [set_storage set_firstRow _storage _firstRow _size]; rewrite ?El; try done; [|lia].
    unfold ring at 1. cbn [set_storage set_firstRow _storage _firstRow]. change (Z.to_nat 0) with 0%nat.
    unfold rotate. rewrite Nat.Div0.mod_0_l. cbn [drop take]. by rewrite app_nil_r.
Qed.

(** The lines between the two places exchange with the lines that move. *)
Definition scroll_lines (firstRow size delta : Z) (ls : list line) : Result (list line) :=
  if delta =? 0 then Ok ls
  else if delta <? 0 then std_rotate (firstRow + delta) firstRow (firstRow + size) ls
  else std_rotate firstRow (firstRow + size) (firstRow + size + delta) ls.

Lemma holds_storage tb W ls rows' ls' :
  holds tb W ls -> _firstRow tb = 0 -> Forall2 shows rows' ls' -> length rows' = length (_storage tb) ->
  Forall (fun l => l_width l = W) ls' -> holds (set_storage rows' tb) W ls'.
Proof.
  intros [H1 H2 H3 H4 H5 H6] H0 HR Hlen HW. unfold TotalRowCount in *.
  split; unfold TotalRowCount; cbn [set_storage _storage _firstRow _size]; rewrite ?Hlen; try done.
  unfold ring. cbn [set_storage _storage _firstRow]. rewrite H0. change (Z.to_nat 0) with 0%nat.
  unfold rotate. rewrite Nat.Div0.mod_0_l. cbn [drop take]. by rewrite app_nil_r.
Qed.

Lemma ScrollRows_page tb pg firstRow size delta ls' :
  page_of tb pg -> scroll_lines firstRow size delta (pg_lines pg) = Ok ls' ->
  exists tb', ScrollRows firstRow size delta tb = (tb', Ok tt) /\ page_of tb' (set_pg_lines ls' pg).
Proof.
  intros H. unfold scroll_lines, ScrollRows. destruct (Z.eqb_spec delta 0) as [Ed|Ed].
  { intros [= <-]. exists tb. split; [done|]. by destruct pg. }
  intros Hsc. destruct (straighten tb _ _ (po_holds _ _ H)) as (tb1 & E1 & H1 & H0 & F1).
  rewrite <- bind_assoc. rewrite (bind_Ok _ _ _ _ _ E1).
  pose proof (hd_rows _ _ _ H1) as HR. unfold ring in HR. rewrite H0 in HR. change (Z.to_nat 0) with 0%nat in HR.
  unfold rotate in HR. rewrite Nat.Div0.mod_0_l in HR. cbn [drop take] in HR. rewrite app_nil_r in HR.
  assert (Hrot : exists rows', (if delta <? 0 then std_rotate (firstRow + delta) firstRow (firstRow + size) (_storage tb1)
     else std_rotate firstRow (firstRow + size) (firstRow + size + delta) (_storage tb1)) = Ok rows' /\
     Forall2 shows rows' ls' /\ length rows' = length (_storage tb1)).
  { destruct (delta <? 0); destruct (std_rotate_Forall2 shows _ _ _ _ _ _ HR Hsc) as (rows' & E & HF);
      exists rows'; (split; [done|]; split; [done|]; by apply std_rotate_length in E). }
  destruct Hrot as (rows' & Erot & HF & Hlen).
  unfold bind at 1, get_result. rewrite Erot. eexists. split; [reflexivity|].
  split; cbn [set_pg_lines pg_width pg_lines pg_cursor pg_attrs].
  - eapply holds_storage; try done. destruct (delta <? 0); by apply (std_rotate_Forall _ _ _ _ _ _ (hd_width _ _ _ H1) Hsc).
  - rewrite F1. apply (po_cursor _ _ H).
  - rewrite F1. apply (po_attrs _ _ H).
Qed.

(** ** Line renditions *)

Lemma page_cursor_set p tb pg :
  page_of tb pg -> exists tb', with_cursor (SetPosition p) tb = (tb', Ok tt) /\ page_of tb' (set_pg_cursor p pg).
Proof. intros H. apply (page_move (fun _ => p) tb pg H). Qed.

(** The line after its rendition was changed: a line that is not single width loses its
    right half. *)
Definition rendered (W : nat) (a : TextAttribute) (x : LineRendition) (l : line) : line :=
  let l' := set_l_wrap false (set_l_rendition x l) in
  if bool_decide (x = SingleWidth) then l'
  else written_line (SetStandardErase a) (W / 2) (W - W / 2) (repeat space (W - W / 2)) (Some false) l'.

Definition set_rendition (x : LineRendition) (pg : page) : page :=
  match pg_lines pg !! row_of pg with
  | None => pg
  | Some l =>
      if bool_decide (l_rendition l = x) then pg
      else
        let pg' := set_pg_lines (<[row_of pg := rendered (pg_width pg) (pg_attrs pg) x l]> (pg_lines pg)) pg in
        if bool_decide (x = SingleWidth) then pg'
        else set_pg_cursor (Point (Z.min (Geometry.x (pg_cursor pg)) (Z.of_nat (pg_width pg / 2) - 1)) (y (pg_cursor pg))) pg'
  end.

Section Rendition.
Context {GW : GlyphWidth} (statics : Statics) (garbage : wchar).

Lemma fill_space : fill_glyph 0x20 = space.
Proof. done. Qed.

Lemma rendered_width W a x r l : shows r l -> l_width l = W -> (0 < W)%nat -> l_width (rendered W a x l) = l_width l.
Proof.
  intros Hs Hw HW. unfold rendered. cbv zeta. destruct (bool_decide _); [done|].
  assert (W / 2 < W)%nat by (apply Nat.div_lt; lia).
  unfold written_line. unfold l_width at 1. cbn [set_l_attrs l_glyphs].
  apply (write_line_width _ _ _ _ (set_l_wrap false (set_l_rendition x l))).
  - apply (shows_glyphs_ok r l Hs).
  - apply (fill_cells 0x20).
  - change (l_width (set_l_wrap false (set_l_rendition x l))) with (l_width l). lia.
Qed.

Lemma SetCurrentLineRendition_page x tb pg :
  page_of tb pg -> on_page pg ->
  exists tb', SetCurrentLineRendition statics garbage x tb = (tb', Ok tt) /\ page_of tb' (set_rendition x pg).
Proof.
  intros H Hon. destruct (on_page_line pg Hon) as (l & Hl & Hy). pose proof (po_holds _ _ H) as Hh.
  assert (Hw : l_width l = pg_width pg) by (by apply (Forall_lookup_1 _ _ _ _ (hd_width _ _ _ Hh) Hl)).
  pose proof (hd_columns _ _ _ Hh) as HW.
  destruct (row_of_line tb _ _ Hh _ l Hl) as (r & _ & Hsr).
  unfold SetCurrentLineRendition, bind at 1, GetPosition at 1, get at 1. rewrite (po_cursor _ _ H), <- Hy.
  unfold bind at 1, get_result at 1, GetLineRendition.
  rewrite (of_row_holds tb _ _ Hh _ l _ (l_rendition l) Hl) by (intros r' Hs; apply (sh_rendition _ _ Hs)).
  unfold set_rendition. rewrite Hl. destruct (decide (l_rendition l = x)) as [Ex|Ex].
  { rewrite (bool_decide_eq_false_2 (l_rendition l <> x)), (bool_decide_eq_true_2 (l_rendition l = x)) by tauto. by exists tb. }
  rewrite (bool_decide_eq_true_2 (l_rendition l <> x)), (bool_decide_eq_false_2 (l_rendition l = x)) by tauto.
  destruct (page_on_row tb pg (row_of pg) l (set_l_rendition x l) (modify (SetLineRendition x)) tt H Hl) as (tb1 & E1 & H1);
    [intros r' Hs; eexists; split; [done|]; by apply shows_rendition|done|].
  rewrite (bind_Ok _ _ _ _ _ E1). set (l1 := set_l_rendition x l) in *.
  assert (Hlt : (row_of pg < length (pg_lines pg))%nat) by (by eapply lookup_lt_Some).
  destruct (page_on_row tb1 _ (row_of pg) l1 (set_l_wrap false l1) (modify (SetWrapForced false)) tt H1) as (tb2 & E2 & H2);
    [by apply list_lookup_insert_eq|intros r' Hs; eexists; split; [done|]; by apply shows_wrap|done|].
  rewrite (bind_Ok _ _ _ _ _ E2). cbn [set_pg_lines pg_lines] in H2. rewrite list_insert_insert_eq in H2.
  set (l2 := set_l_wrap false l1) in *. unfold bind at 1, get at 1.
  rewrite (Width_holds tb2 _ _ (po_holds _ _ H2)). cbn [set_pg_lines pg_width]. unfold TriggerRedraw.
  unfold rendered. fold l1 l2. cbv zeta. destruct (decide (x = SingleWidth)) as [E|E].
  { rewrite (bool_decide_eq_false_2 (x <> SingleWidth)), (bool_decide_eq_true_2 (x = SingleWidth)) by tauto.
    rewrite bind_ret_l. by apply page_request. }
  rewrite (bool_decide_eq_true_2 (x <> SingleWidth)), (bool_decide_eq_false_2 (x = SingleWidth)) by tauto.
  assert (Hl2 : <[row_of pg := l2]> (pg_lines pg) !! row_of pg = Some l2) by (by apply list_lookup_insert_eq).
  rewrite !bind_assoc. unfold bind at 1, get at 1. unfold GetCurrentAttributes. rewrite (po_attrs _ _ H2). cbn [set_pg_lines pg_attrs].
  rewrite bind_assoc. unfold bind at 1, get_result at 1. rewrite (GetLineWidth_holds tb2 _ _ (po_holds _ _ H2) _ l2 Hl2).
  assert (Elw : line_width (pg_width pg) l2 = (pg_width pg / 2)%nat).
  { unfold line_width, l2, l1. cbn [set_l_wrap set_l_rendition l_rendition]. by rewrite bool_decide_eq_false_2 by done. }
  cbn [set_pg_lines pg_width]. rewrite Elw. set (W := pg_width pg) in *.
  assert (Hlt2 : (W / 2 < W)%nat) by (apply Nat.div_lt; lia).
  replace (Z.of_nat W - Z.of_nat (W / 2)) with (Z.of_nat (W - W / 2)) by lia.
  set (l3 := written_line (SetStandardErase (pg_attrs pg)) (W / 2) (W - W / 2) (repeat space (W - W / 2)) (Some false) l2).
  assert (Ew3 : l_width l3 = l_width l2).
  { pose proof (rendered_width W (pg_attrs pg) x r l Hsr Hw HW) as Er. unfold rendered in Er. cbv zeta in Er.
    rewrite bool_decide_eq_false_2 in Er by done. fold l1 l2 l3 in Er. by rewrite Er. }
  rewrite bind_assoc.
  match goal with |- context [on_row ?i (WriteCells _ _ ?it ?c ?wr ?lim)] =>
    assert (Hon3 : exists tb3 it', on_row i (WriteCells statics garbage it c wr lim) tb2 = (tb3, Ok it') /\
      page_of tb3 (set_pg_lines (<[row_of pg := l3]> (pg_lines pg)) pg)) end.
  { destruct (row_of_line tb2 _ _ (po_holds _ _ H2) _ l2 Hl2) as (r2 & Hr2 & Hs2).
    destruct (WriteCells_spec statics garbage (SetStandardErase (pg_attrs pg)) one_each (repeat (fill_glyph 0x20) (W - W / 2))
      (iterator_of_char_attr 0x20 (SetStandardErase (pg_attrs pg)) (Z.of_nat (W - W / 2))) (Some false) None (W / 2) (W - W / 2) r2 l2)
      as (r3 & it' & E3 & Hs3 & _); try done.
    - apply presents_char_fill. lia.
    - apply fill_cells.
    - change (l_width l2) with (l_width l). lia.
    - change (l_width l2) with (l_width l). lia.
    - change (l_width l2) with (l_width l). rewrite Hw. unfold default. lia.
    - rewrite fill_space in Hs3. unfold on_row. rewrite Hr2, E3. eexists _, it'. split; [done|].
      assert (Hset := holds_set tb2 _ _ (po_holds _ _ H2) _ r3 l2 l3 Hl2 Hs3 Ew3).
      cbn [set_pg_lines pg_lines pg_width] in Hset. rewrite list_insert_insert_eq in Hset.
      destruct H2 as [_ Hc2 Ha2]. by split. }
  destruct Hon3 as (tb3 & it' & E3 & H3). rewrite (bind_Ok _ _ _ _ _ E3).
  rewrite bind_assoc. unfold bind at 1, get_result at 1, ClampPositionWithinLine. rewrite <- Hy.
  assert (Hl3 : <[row_of pg := l3]> (pg_lines pg) !! row_of pg = Some l3) by (by apply list_lookup_insert_eq).
  rewrite (GetLineWidth_holds tb3 _ _ (po_holds _ _ H3) _ l3 Hl3). cbn [bindR].
  assert (Elw3 : line_width (pg_width pg) l3 = (W / 2)%nat).
  { unfold line_width, l3. cbn. by rewrite bool_decide_eq_false_2 by done. }
  cbn [set_pg_lines pg_width]. rewrite Elw3.
  destruct (page_cursor_set (Point (Z.min (Geometry.x (pg_cursor pg)) (Z.of_nat (W / 2) - 1)) (Z.of_nat (row_of pg))) tb3 _ H3) as (tb4 & E4 & H4).
  rewrite (bind_Ok _ _ _ _ _ E4).
  match goal with |- exists tb', request ?r tb4 = _ /\ _ => destruct (page_request r tb4 _ H4) as (tb5 & E5 & H5) end.
  exists tb5. split; [exact E5|exact H5].
Qed.

Lemma ResetLineRenditionRange_page n : forall (i : nat) tb pg,
  page_of tb pg -> (i + n <= length (pg_lines pg))%nat ->
  exists tb', iterM (fun row => on_row row (modify (SetLineRendition SingleWidth)))
      (map (fun k => Z.of_nat i + Z.of_nat k) (seq 0 n)) tb = (tb', Ok tt) /\
    page_of tb' (set_pg_lines (take i (pg_lines pg) ++ map (set_l_rendition SingleWidth) (take n (drop i (pg_lines pg)))
                               ++ drop (i + n) (pg_lines pg)) pg).
Proof.
  induction n as [|n IH]; intros i tb pg H Hi.
  { exists tb. split; [done|]. rewrite take_0, Nat.add_0_r. cbn [map app]. rewrite take_drop. by destruct pg. }
  destruct (lookup_lt_is_Some_2 (pg_lines pg) i) as [l Hl]; [lia|].
  cbn [seq map iterM]. rewrite Z.add_0_r.
  destruct (page_on_row tb pg i l (set_l_rendition SingleWidth l) (modify (SetLineRendition SingleWidth)) tt H Hl) as (tb1 & E1 & H1);
    [intros r' Hs; eexists; split; [done|]; by apply shows_rendition|done|].
  rewrite (bind_Ok _ _ _ _ _ E1).
  destruct (IH (S i) tb1 _ H1) as (tb2 & E2 & H2); [cbn [set_pg_lines pg_lines]; rewrite length_insert; lia|].
  exists tb2. split.
  - rewrite <- E2. f_equal. rewrite <- seq_shift, map_map. apply map_ext. intros k. lia.
  - cbn [set_pg_lines pg_lines pg_width pg_cursor pg_attrs] in H2.
    rewrite (take_S_r _ i (set_l_rendition SingleWidth l)) in H2 by (apply list_lookup_insert_eq; lia).
    rewrite take_insert_ge, !drop_insert_lt in H2 by lia. rewrite (drop_S _ _ _ Hl). cbn [take map].
    rewrite <- app_assoc in H2. by replace (i + S n)%nat with (S i + n)%nat by lia.
Qed.

End Rendition.

(** ** Erasing everything *)

Lemma Reset_page tb pg :
  page_of tb pg -> exists tb', TextBuffer_Reset tb = (tb', Ok tt) /\
    page_of tb' (set_pg_lines (repeat (blank_line (pg_width pg) (pg_attrs pg)) (length (pg_lines pg))) pg).
Proof.
  intros [[H1 H2 H3 H4 H5 H6] Hc Ha]. eexists. split; [reflexivity|].
  split; cbn [set_storage set_pg_lines pg_lines pg_width pg_cursor pg_attrs _cursor _currentAttributes]; try done.
  unfold TotalRowCount in *.
  split; unfold TotalRowCount; cbn [set_storage _storage _firstRow _size]; rewrite ?length_map; try done.
  - assert (E : ring (set_storage (map (Reset (GetCurrentAttributes tb)) (_storage tb)) tb) = map (Reset (pg_attrs pg)) (ring tb)).
    { unfold ring, rotate, GetCurrentAttributes. cbn [set_storage _storage _firstRow]. rewrite length_map, Ha.
      by rewrite map_app, <- firstn_map, <- skipn_map. }
    rewrite E. clear -H1 H5. revert H5. induction H1 as [|r l rows ls Hs HR IH]; intros H5; [by constructor|].
    inversion H5 as [|? ? Hw H5']; subst. cbn [map length repeat]. constructor; [|by apply IH].
    rewrite <- Hw. by apply shows_reset.
  - apply Forall_forall. intros l Hl%repeat_spec. subst l. apply cols_spaces.
Qed.

(** * Creating and resizing a text buffer

    [ResizeTraditional] keeps the line of the cursor: the lines above it go if there is no
    room for them, lines are cut or padded at their right end, new lines are appended
    blank.  The theorem at the end collects the operations of the buffer into a simulation
    of the page. *)

(** ** Rows *)

Definition resized_line (W : nat) (a : TextAttribute) (l : line) : line :=
  mkLine (resized_glyphs W (l_glyphs l))
    (if bool_decide (l_attrs l = []) then repeat a W else resized W (l_attrs l))
    (l_rendition l) (l_wrap l) (l_padded l).

Definition same_flags (r r' : ROW) : Prop :=
  _lineRendition r' = _lineRendition r /\ _wrapForced r' = _wrapForced r /\
  _doubleBytePadded r' = _doubleBytePadded r.

#[local] Instance same_flags_preorder : PreOrder same_flags.
Proof. split; [by intros r|intros r1 r2 r3 (?&?&?) (?&?&?); repeat split; congruence]. Qed.

Section Rows.
Context (garbage : wchar).

Lemma keeps_on_attr {A} (m : M (basic_rle TextAttribute) A) : keeps same_flags (on_attr m).
Proof. intros r. unfold on_attr. destruct (m (_attr r)) as [a v]. by destruct r. Qed.

Lemma keeps_reads {A} (f : ROW -> Result A) : keeps same_flags (reads f).
Proof. by intros r. Qed.

Lemma Resize_flags n a : keeps same_flags (Resize garbage n a).
Proof.
  unfold Resize. repeat first
    [ apply keeps_on_attr | apply keeps_reads | apply keeps_get; apply _ | apply keeps_ret; apply _
    | apply keeps_undefined; apply _ | apply keeps_if | by (apply keeps_modify; intros [])
    | progress cbv zeta
    | match goal with |- keeps _ (match ?p with (_, _) => _ end) => destruct p end
    | apply keeps_bind; [apply _| |intros ?] ].
Qed.

Lemma shows_resize r l W a :
  shows r l -> Z.of_nat W <= MAX_COLUMNS ->
  exists r', Resize garbage (Z.of_nat W) a r = (r', Ok tt) /\ shows r' (resized_line W a l).
Proof.
  intros Hs HW. unfold MAX_COLUMNS in HW. pose proof (shows_glyphs_ok _ _ Hs) as Hok.
  destruct (cols_resized W _ Hok) as [Hcr Hor].
  assert (Hn : narrow (resized_glyphs W (l_glyphs l)))
    by (apply Forall_app_2; [by apply narrow_take_cols, (sh_narrow _ _ Hs)|apply narrow_spaces]).
  pose proof (narrow_text _ Hor Hn) as Ht.
  destruct (Resize_ok garbage r (l_glyphs l) (Z.of_nat W) a (sh_glyphs _ _ Hs) (sh_attributed _ _ Hs) (sh_buffer _ _ Hs))
    as (r' & E & Hr & Ha & Hb & Hc); [eval_ground; lia|rewrite Nat2Z.id; eval_ground; lia|].
  rewrite Nat2Z.id in *. exists r'. split; [done|].
  pose proof (Resize_flags (Z.of_nat W) a r) as Hf. rewrite E in Hf. cbn [fst] in Hf. destruct Hf as (F1 & F2 & F3).
  constructor; cbn [resized_line l_glyphs l_attrs l_rendition l_wrap l_padded]; try done.
  - rewrite Hc. rewrite <- (sh_attrs _ _ Hs).
    destruct (sh_attributed _ _ Hs) as [Hwf _ _].
    pose proof (length_decode _ (wf_unsigned _ _ Hwf)) as Hld.
    assert (Ee : rle_is_empty (_attr r) = bool_decide (contents (_attr r) = [])).
    { unfold rle_is_empty. rewrite (wf_total _ _ Hwf), <- Hld. fold (contents (_attr r)).
      destruct (contents (_attr r)) as [|v vs]; [done|]. rewrite bool_decide_eq_false_2 by done. apply Z.eqb_neq. cbn. lia. }
    by rewrite Ee.
  - rewrite F1. apply (sh_rendition _ _ Hs).
  - rewrite F2. apply (sh_wrap _ _ Hs).
  - rewrite F3. apply (sh_padded _ _ Hs).
  - rewrite (rp_columns _ _ Hr), Hcr. unfold MAX_COLUMNS. lia.
Qed.

Lemma resize_default W a :
  Z.of_nat W <= MAX_COLUMNS -> Resize garbage (Z.of_nat W) a ROW_default = (ROW_new (Z.of_nat W) a, Ok tt).
Proof.
  unfold MAX_COLUMNS. intros HW. unfold Resize, ROW_default.
  unfold bind at 1 2, get. cbn [_charsBuffer _columnCount]. rewrite bind_ret_l. cbv zeta.
  rewrite Z.sub_0_r, Z.add_0_l, (wrapu_small 16 (Z.of_nat W)) by (eval_ground; lia).
  rewrite (wrapu_small 16 (Z.of_nat W)) by (eval_ground; lia). rewrite Z.ltb_irrefl.
  unfold bind, modify, ret, get. cbn [_chars _charOffsets length].
  rewrite ?Z.add_0_l, ?Z.ltb_irrefl. change (0 <? 0)%nat with false.
  cbn [orb rle_is_empty _attr rle_empty _total_length Z.eqb set_attr].
  replace (Z.of_nat W - 0 - Z.of_nat W) with 0 by lia. cbn [repeat Z.to_nat take app].
  rewrite ?app_nil_r, !Nat2Z.id, iota16_small by (eval_ground; lia).
  unfold ROW_new, init_chars, init_offsets. rewrite Nat2Z.id. reflexivity.
Qed.

End Rows.

(** ** Resizing *)

Lemma rotate_rotate {A} (m n : nat) (l : list A) :
  rotate m (rotate n l) = rotate ((n + m) mod length l) l.
Proof.
  destruct l as [|a0 l0]; [unfold rotate; cbn [length]; rewrite !drop_nil, !take_nil; cbn [app length]; by rewrite !drop_nil, !take_nil|]. set (l := a0 :: l0). assert (Hl : (0 < length l)%nat) by (cbn; lia).
  clearbody l. clear a0 l0.
  apply list_eq_same_length with (n := length l); [by rewrite !length_rotate..|].
  intros i v w Hi. rewrite lookup_rotate_r by (rewrite length_rotate; lia). rewrite length_rotate.
  assert (Hlt : (rotate_nat_add m i (length l) < length l)%nat).
  { unfold rotate_nat_add. pose proof (Z.mod_pos_bound (Z.of_nat m + Z.of_nat i) (Z.of_nat (length l))). lia. }
  rewrite !lookup_rotate_r by lia.
  assert (E : rotate_nat_add n (rotate_nat_add m i (length l)) (length l)
    = rotate_nat_add ((n + m) mod length l) i (length l)).
  { unfold rotate_nat_add. f_equal.
    pose proof (Z.mod_pos_bound (Z.of_nat m + Z.of_nat i) (Z.of_nat (length l)) ltac:(lia)).
    rewrite Z2Nat.id by lia. rewrite Z.add_mod_idemp_r by lia.
    rewrite Nat2Z.inj_mod, Nat2Z.inj_add. rewrite Z.add_mod_idemp_l by lia. f_equal. lia. }
  rewrite E. congruence.
Qed.

Definition resize_page (W h : nat) (pg : page) : page :=
  let cy := y (pg_cursor pg) in
  let top := if Z.of_nat h <=? cy then cy - Z.of_nat h + 1 else 0 in
  mkPage W
    (map (resized_line W (pg_attrs pg)) (take h (rotate (Z.to_nat top) (pg_lines pg))) ++
     repeat (blank_line W (pg_attrs pg)) (h - length (pg_lines pg)))
    (pg_cursor pg) (pg_attrs pg).

Lemma holds_glyphs_ok tb W ls : holds tb W ls -> Forall (fun l => Forall glyph_ok (l_glyphs l)) ls.
Proof.
  intros H. apply Forall_lookup. intros i l Hl. destruct (row_of_line tb W ls H i l Hl) as (r & _ & Hs).
  by apply (shows_glyphs_ok r).
Qed.

Section Resize.
Context (garbage : wchar).

Lemma resize_rows_ok w a todo ls' : forall done dls tb,
  _storage tb = done ++ todo -> Forall2 shows done dls ->
  Forall2 (fun r l' => exists r', Resize garbage w a r = (r', Ok tt) /\ shows r' l') todo ls' ->
  exists rows', iterM (fun i => on_storage i (Resize garbage w a)) (seq (length done) (length todo)) tb
      = (set_storage rows' tb, Ok tt) /\ Forall2 shows rows' (dls ++ ls').
Proof.
  revert ls'. induction todo as [|r todo IH]; intros ls' dn dls tb Hst Hd HF.
  { inversion HF; subst. exists dn. rewrite app_nil_r in *. split; [|done]. cbn. rewrite <- Hst. by destruct tb. }
  inversion HF as [|? l' ? ls0 (r' & E & Hs) HF']; subst. cbn [length seq iterM].
  assert (Eo : on_storage (length dn) (Resize garbage w a) tb = (set_storage ((dn ++ [r']) ++ todo) tb, Ok tt)).
  { unfold on_storage. rewrite Hst, lookup_app_r, Nat.sub_diag by done. cbn [lookup list_lookup].
    rewrite E. rewrite insert_app_r_alt, Nat.sub_diag by done. by rewrite <- app_assoc. }
  rewrite (bind_Ok _ _ _ _ _ Eo).
  destruct (IH ls0 (dn ++ [r']) (dls ++ [l']) (set_storage ((dn ++ [r']) ++ todo) tb)) as (rows' & E' & HF2); try done.
  { apply Forall2_app; [done|]. by constructor. }
  rewrite length_app in E'. cbn [length] in E'. rewrite Nat.add_1_r in E'. exists rows'. rewrite E'.
  split; [by destruct tb|]. by rewrite <- app_assoc in HF2.
Qed.

Lemma ResizeTraditional_page tb pg (w h : Z) :
  page_of tb pg -> on_page pg -> Z.max w 1 <= MAX_COLUMNS -> Z.max h 1 < 2 ^ 16 ->
  exists tb', ResizeTraditional garbage (Size w h) tb = (tb', Ok true) /\
    page_of tb' (resize_page (Z.to_nat (Z.max w 1)) (Z.to_nat (Z.max h 1)) pg).
Proof.
  intros H Hon Hw Hh. unfold ResizeTraditional. cbn [width height]. unfold on_page in Hon.
  set (W := Z.to_nat (Z.max w 1)). set (h' := Z.to_nat (Z.max h 1)).
  assert (EW : Z.max w 1 = Z.of_nat W) by lia. assert (Eh : Z.max h 1 = Z.of_nat h') by lia.
  assert (HW : (0 < W)%nat) by lia. assert (Hh' : (0 < h')%nat) by lia.
  rewrite EW, Eh in *. clearbody W h'. unfold MAX_COLUMNS in Hw.
  pose proof H as [Hho Hc Ha]. pose proof (holds_length tb _ _ Hho) as Hlen.
  pose proof (hd_first _ _ _ Hho) as Hfirst. pose proof (hd_height _ _ _ Hho) as Hheight. unfold TotalRowCount in Hlen, Hfirst, Hheight.
  unfold try_catch, bind at 1, get_result at 1, allocator_size. cbn [width height].
  rewrite (proj2 (Z.ltb_lt (Z.of_nat W) (2 ^ 16))), (proj2 (Z.ltb_lt (Z.of_nat h') (2 ^ 16))) by (eval_ground; lia).
  rewrite !(proj2 (Z.leb_le 0 _)) by lia. cbn [andb fst snd].
  unfold bind at 1, get at 1. unfold bind at 1, get at 1. unfold bind at 1, GetPosition at 1, get at 1.
  unfold bind at 1, get at 1. cbn [Dimensions height]. rewrite (Height_holds tb _ _ Hho), Hc.
  unfold GetFirstRowIndex, GetCurrentAttributes. rewrite Ha.
  set (cy := y (pg_cursor pg)) in *.
  set (top := if Z.of_nat h' <=? cy then cy - Z.of_nat h' + 1 else 0).
  assert (Htop : 0 <= top < Z.of_nat (length (pg_lines pg))).
  { unfold top. destruct (Z.leb_spec (Z.of_nat h') cy); lia. }
  rewrite Z.rem_mod_nonneg by lia.
  set (n := length (_storage tb)) in *.
  assert (En : length (pg_lines pg) = n) by lia. rewrite En.
  set (idx := (_firstRow tb + top) mod Z.of_nat n).
  assert (Hidx : 0 <= idx < Z.of_nat n) by (apply Z.mod_pos_bound; lia).
  assert (Er : std_rotate 0 idx (TotalRowCount tb) (_storage tb) = Ok (rotate (Z.to_nat top) (ring tb))).
  { unfold ring. rewrite rotate_rotate. fold n.
    assert (Eidx : ((Z.to_nat (_firstRow tb) + Z.to_nat top) mod n)%nat = Z.to_nat idx).
    { unfold idx. rewrite <- Z2Nat.inj_add by lia. rewrite <- (Nat2Z.id n) at 1.
      symmetry. apply Z2Nat.inj_mod; lia. }
    rewrite Eidx. unfold std_rotate, rotate, TotalRowCount. fold n.
    rewrite !(proj2 (Z.leb_le _ _)) by lia. cbn [andb]. change (Z.to_nat 0) with 0%nat. cbn [take app drop].
    rewrite Nat2Z.id, Nat.mod_small, Nat.sub_0_r by lia.
    rewrite (drop_ge (_storage tb) n), app_nil_r by lia.
    rewrite (take_ge (drop _ _)) by (rewrite length_drop; lia). done. }
  unfold bind at 1, get_result at 1. rewrite Er. unfold bind at 1, modify at 1. unfold bind at 1, modify at 1.
  unfold bind at 1, modify at 1. cbn [set_storage set_firstRow _storage].
  set (rows := rotate (Z.to_nat top) (ring tb)).
  assert (Erows : length rows = n) by (unfold rows; rewrite length_rotate; apply length_rotate).
  rewrite Erows, !Nat2Z.id.
  set (tb1 := set_storage (take h' rows ++ repeat ROW_default (h' - n)) (set_firstRow 0 (set_storage rows tb))).
  set (ls' := map (resized_line W (pg_attrs pg)) (take h' (rotate (Z.to_nat top) (pg_lines pg))) ++
     repeat (blank_line W (pg_attrs pg)) (h' - n)).
  destruct (resize_rows_ok (Z.of_nat W) (pg_attrs pg) (take h' rows ++ repeat ROW_default (h' - n)) ls' [] [] tb1)
    as (rows' & E & HF); [done|constructor| |].
  { unfold ls'. apply Forall2_app.
    - assert (HR : Forall2 shows (take h' rows) (take h' (rotate (Z.to_nat top) (pg_lines pg))))
        by (apply Forall2_take, Forall2_rotate, (hd_rows _ _ _ Hho)).
      apply Forall2_fmap_r. eapply Forall2_impl; [|exact HR]. cbn. intros r l Hs. by apply shows_resize.
    - clear -Hw. induction (h' - n)%nat as [|k IH]; [constructor|]. cbn [repeat]. constructor; [|exact IH].
      exists (ROW_new (Z.of_nat W) (pg_attrs pg)). split; [by apply resize_default|by apply shows_new]. }
  assert (Elen : length rows' = h').
  { rewrite (Forall2_length HF). unfold ls'. cbn [app]. rewrite length_app, length_map, length_take, length_rotate, repeat_length. lia. }
  unfold resize_rows. rewrite bind_assoc. unfold bind at 1, get at 1.
  change (length (_storage tb1)) with (length (take h' rows ++ repeat ROW_default (h' - n))).
  cbn [length] in E. rewrite (bind_Ok _ _ _ _ _ E). unfold _UpdateSize. rewrite bind_assoc. unfold bind at 1, get at 1.
  cbn [set_storage _storage tb1]. cbn [app] in HF.
  destruct rows' as [|r0 rest] eqn:Erest; [cbn in Elen; lia|]. rewrite <- Erest in *.
  unfold bind at 1, modify at 1, ret. eexists. split; [reflexivity|].
  assert (Hwid : Forall (fun l => l_width l = W) ls').
  { unfold ls'. apply Forall_app_2.
    - apply Forall_fmap. assert (HG : Forall (fun l => Forall glyph_ok (l_glyphs l)) (take h' (rotate (Z.to_nat top) (pg_lines pg)))).
      { apply Forall_take. unfold rotate.
        pose proof (holds_glyphs_ok _ _ _ Hho).
        apply Forall_app_2; auto using Forall_take, Forall_drop. }
      eapply Forall_impl; [|exact HG]. cbn. intros l Hl. unfold l_width. cbn. by apply cols_resized.
    - apply Forall_forall. intros l Hl%repeat_spec. subst l. apply cols_spaces. }
  assert (Hr0 : _columnCount r0 = Z.of_nat W).
  { pose proof HF as HF0. rewrite Erest in HF0. apply Forall2_cons_inv_l in HF0 as (l0 & ls0 & Hs0 & _ & El0).
    rewrite (shows_width _ _ Hs0). rewrite El0 in Hwid. apply Forall_cons_iff in Hwid as [Hw0 _]. by rewrite Hw0. }
  split; cbn [resize_page pg_width pg_lines pg_cursor pg_attrs set_size set_storage _cursor _currentAttributes]; try done.
  rewrite En. fold cy top ls'.
  split; unfold TotalRowCount; cbn [set_size set_storage _storage _firstRow _size]; try done.
  - unfold ring. cbn [set_size set_storage _storage _firstRow]. change (Z.to_nat 0) with 0%nat.
    unfold rotate. rewrite Nat.Div0.mod_0_l. cbn [drop take]. by rewrite app_nil_r.
  - cbn. lia.
  - lia.
  - by rewrite Hr0.
Qed.

End Resize.
