(* ===== verification/TextBufferRefine.v ===== *)
(** * The text buffer refines a page: histories

    Every history of operations of a new text buffer is a history of the page: the
    operations succeed, and the buffer is what the page says.  Also the bounds the
    operations keep: the cursor stays on the page. *)

From stdpp Require Import gmap.
From S2P Require Import Prelude Effects Geometry LineRendition Viewport TextColor TextAttribute Rle RleLaws RleSpec Row RowLayout RowSpec RowTheorems CodepointWidth OutputCells RowWrite OutputText Cursor TextBuffer TextBufferSpec TextBufferRing TextBufferPage.

Local Open Scope Z_scope.

Lemma repeat_shows W a n :
  Z.of_nat W <= MAX_COLUMNS -> Forall2 shows (repeat (ROW_new (Z.of_nat W) a) n) (repeat (blank_line W a) n).
Proof. intros HW. induction n as [|n IH]; cbn [repeat]; constructor; [by apply shows_new|exact IH]. Qed.

(** A new page: at least one line of at least one column. *)
Definition new_page (w h : Z) (a : TextAttribute) : page :=
  let W := Z.to_nat (Z.max w 1) in
  mkPage W (repeat (blank_line W a) (Z.to_nat (Z.max h 1))) (Point 0 0) a.

Lemma TextBuffer_new_page w h a cursorSize active :
  Z.max w 1 <= MAX_COLUMNS -> Z.max h 1 < 2 ^ 16 ->
  exists tb, TextBuffer_new (Size w h) a cursorSize active = Ok tb /\ page_of tb (new_page w h a).
Proof.
  intros Hw Hh. unfold TextBuffer_new. cbn [width height]. unfold new_page.
  set (W := Z.to_nat (Z.max w 1)). set (h' := Z.to_nat (Z.max h 1)).
  assert (EW : Z.max w 1 = Z.of_nat W) by lia. assert (Eh : Z.max h 1 = Z.of_nat h') by lia.
  assert (HW : (0 < W)%nat) by lia. assert (Hh' : (0 < h')%nat) by lia.
  rewrite EW, Eh in *. clearbody W h'. unfold MAX_COLUMNS in Hw.
  unfold allocator_size. cbn [width height].
  rewrite (proj2 (Z.ltb_lt (Z.of_nat W) (2 ^ 16))), (proj2 (Z.ltb_lt (Z.of_nat h') (2 ^ 16))) by (eval_ground; lia).
  rewrite !(proj2 (Z.leb_le 0 _)) by lia. cbn [andb bindR fst snd height].
  cbv zeta. unfold _UpdateSize, bind, get, modify. cbn [_storage].
  destruct (repeat (ROW_new (Z.of_nat W) a) h') as [|r0 rest] eqn:Er; [destruct h'; [lia|done]|].
  cbn [bindR]. eexists. split; [reflexivity|]. rewrite <- Er.
  assert (E0 : r0 = ROW_new (Z.of_nat W) a) by (destruct h'; [lia|]; by injection Er).
  split; try done. split; unfold TotalRowCount; cbn [set_size _storage _firstRow _size pg_width pg_lines];
    rewrite ?repeat_length; try done; try lia.
  - unfold ring. cbn [set_size _storage _firstRow]. change (Z.to_nat 0) with 0%nat.
    unfold rotate. rewrite Nat.Div0.mod_0_l. cbn [drop take]. rewrite app_nil_r. by apply repeat_shows.
  - by rewrite E0.
  - apply Forall_forall. intros l Hl%repeat_spec. subst l. apply cols_spaces.
Qed.

(** ** Histories *)

Inductive buffer_op :=
| BWrite (text : wstring) (attr : TextAttribute) (column row : nat) (wrap : option bool)
| BIncrementCursor
| BNewline
| BCircular (inVtMode : bool)
| BScrollRows (firstRow size delta : Z)
| BRendition (rendition : LineRendition)
| BResetRenditions (startRow count : nat)
| BReset
| BResize (w h : Z)
| BSetPosition (p : point)
| BSetAttributes (attr : TextAttribute).

Section Histories.
Context {GW : GlyphWidth} (statics : Statics) (garbage : wchar).

Definition buffer_run (o : buffer_op) : M TextBuffer unit :=
  match o with
  | BWrite text attr c i wrap =>
      Write statics garbage (iterator_of_text_attr text attr 0) (Point (Z.of_nat c) (Z.of_nat i)) wrap ;; ret tt
  | BIncrementCursor => IncrementCursor ;; ret tt
  | BNewline => NewlineCursor ;; ret tt
  | BCircular vt => IncrementCircularBuffer vt ;; ret tt
  | BScrollRows f n d => ScrollRows f n d
  | BRendition x => SetCurrentLineRendition statics garbage x
  | BResetRenditions s n => ResetLineRenditionRange (Z.of_nat s) (Z.of_nat (s + n))
  | BReset => TextBuffer_Reset
  | BResize w h => ResizeTraditional garbage (Size w h) ;; ret tt
  | BSetPosition p => with_cursor (SetPosition p)
  | BSetAttributes a => SetCurrentAttributes a
  end.

(** The same on a page; [None] outside of the operation's domain. *)
Definition page_run (o : buffer_op) (pg : page) : option page :=
  match o with
  | BWrite text attr c i wrap =>
      if (c <? pg_width pg)%nat && (i <=? length (pg_lines pg))%nat
      then Some (set_pg_lines (take i (pg_lines pg) ++ (flow attr (pg_width pg) c wrap (glyphs_of text) (drop i (pg_lines pg))).1) pg)
      else None
  | BIncrementCursor => if bool_decide (on_page pg) then Some (increment pg) else None
  | BNewline => Some (newline pg)
  | BCircular vt =>
      Some (set_pg_lines (tail (pg_lines pg) ++
              [blank_line (pg_width pg) (if vt then SetStandardErase (pg_attrs pg) else pg_attrs pg)]) pg)
  | BScrollRows f n d =>
      match scroll_lines f n d (pg_lines pg) with Ok ls => Some (set_pg_lines ls pg) | _ => None end
  | BRendition x => if bool_decide (on_page pg) then Some (set_rendition x pg) else None
  | BResetRenditions s n =>
      if (s + n <=? length (pg_lines pg))%nat
      then Some (set_pg_lines (take s (pg_lines pg) ++ map (set_l_rendition SingleWidth) (take n (drop s (pg_lines pg)))
                               ++ drop (s + n) (pg_lines pg)) pg)
      else None
  | BReset => Some (set_pg_lines (repeat (blank_line (pg_width pg) (pg_attrs pg)) (length (pg_lines pg))) pg)
  | BResize w h =>
      if bool_decide (on_page pg) && (Z.max w 1 <=? MAX_COLUMNS) && (Z.max h 1 <? 2 ^ 16)
      then Some (resize_page (Z.to_nat (Z.max w 1)) (Z.to_nat (Z.max h 1)) pg) else None
  | BSetPosition p => Some (set_pg_cursor p pg)
  | BSetAttributes a => Some (set_pg_attrs a pg)
  end.

Lemma page_step o tb pg pg' :
  page_of tb pg -> page_run o pg = Some pg' ->
  exists tb', buffer_run o tb = (tb', Ok tt) /\ page_of tb' pg'.
Proof.
  intros H. destruct o as [text attr c i wrap| | |vt|f n d|x|s n| |w h|p|a]; cbn [buffer_run page_run].
  - case_if; [|done]. intros [= <-]. bool_prop.
    destruct (Nat.ltb_spec c (pg_width pg)); [|done]. destruct (Nat.leb_spec i (length (pg_lines pg))); [|done].
    destruct (Write_holds statics garbage attr text_size tb _ _ (glyphs_of text) (iterator_of_text_attr text attr 0) wrap c i
      (po_holds _ _ H)) as (tb' & it' & E & F & H' & _); try done; [apply presents_string|apply glyphs_of_cells|].
    exists tb'. rewrite (bind_Ok _ _ _ _ _ E). split; [done|]. split; [done| |]; rewrite F; apply H.
  - case_bool_decide as Hon; [|done]. intros [= <-]. destruct (IncrementCursor_page tb pg H Hon) as (tb' & E & H').
    exists tb'. by rewrite (bind_Ok _ _ _ _ _ E).
  - intros [= <-]. destruct (NewlineCursor_page tb pg H) as (tb' & E & H').
    exists tb'. by rewrite (bind_Ok _ _ _ _ _ E).
  - intros [= <-]. pose proof (po_holds _ _ H) as Hh. destruct (pg_lines pg) as [|l ls] eqn:El.
    { pose proof (holds_length _ _ _ Hh) as Hl. pose proof (hd_first _ _ _ Hh). cbn in Hl. lia. }
    destruct (IncrementCircularBuffer_holds tb _ l ls vt Hh) as (tb' & E & H' & _ & Hc & Ha & _).
    exists tb'. rewrite (bind_Ok _ _ _ _ _ E). split; [done|]. rewrite (po_attrs _ _ H) in H'.
    split; [done|rewrite Hc; apply H|rewrite Ha; apply H].
  - destruct (scroll_lines f n d (pg_lines pg)) as [ls| | |] eqn:Es; [|done..]. intros [= <-].
    by apply ScrollRows_page.
  - case_bool_decide as Hon; [|done]. intros [= <-]. by apply SetCurrentLineRendition_page.
  - destruct (Nat.leb_spec (s + n) (length (pg_lines pg))); [|done]. intros [= <-]. unfold ResetLineRenditionRange.
    replace (Z.to_nat (Z.of_nat (s + n) - Z.of_nat s)) with n by lia. by apply ResetLineRenditionRange_page.
  - intros [= <-]. by apply Reset_page.
  - case_if; [|done]. bool_prop. intros [= <-]. apply bool_decide_eq_true in H0.
    destruct (ResizeTraditional_page garbage tb pg w h H) as (tb' & E & H'); try done.
    exists tb'. by rewrite (bind_Ok _ _ _ _ _ E).
  - intros [= <-]. by apply page_cursor_set.
  - intros [= <-]. eexists. split; [done|]. destruct H as [H1 H2 H3]. split; try done. by apply (holds_ext tb).
Qed.

Fixpoint page_history (os : list buffer_op) (pg : page) : option page :=
  match os with [] => Some pg | o :: os => page_run o pg ≫= page_history os end.

Lemma page_steps os : forall tb pg pg',
  page_of tb pg -> page_history os pg = Some pg' ->
  exists tb', iterM buffer_run os tb = (tb', Ok tt) /\ page_of tb' pg'.
Proof.
  induction os as [|o os IH]; intros tb pg pg' H.
  - intros [= <-]. by exists tb.
  - cbn [page_history]. intros (pg1 & E1 & E2)%bind_Some.
    destruct (page_step o tb pg pg1 H E1) as (tb1 & R1 & H1).
    destruct (IH tb1 pg1 pg' H1 E2) as (tb' & R & H'). exists tb'. split; [|done].
    cbn [iterM]. by rewrite (bind_Ok _ _ _ _ _ R1).
Qed.

End Histories.

(** C18. The text buffer refines a page of lines: from a new buffer, every sequence of writes
    (which flow over the lines and wrap), moves of the cursor, new lines, turns of the ring,
    moves of rows, changes of line renditions, erasures and resizes that is in the domain of
    the page succeeds, without an exception, undefined behaviour or an endless loop, and
    leaves a buffer that shows the lines, the cursor and the attributes of the page. *)
Theorem text_buffer_refines_page (GW : GlyphWidth) (statics : Statics) (garbage : wchar) (w h : Z)
    (a : TextAttribute) (cursorSize : Z) (active : bool) (os : list buffer_op) (pg : page) :
  Z.max w 1 <= MAX_COLUMNS -> Z.max h 1 < 2 ^ 16 ->
  page_history os (new_page w h a) = Some pg ->
  exists tb tb', TextBuffer_new (Size w h) a cursorSize active = Ok tb /\
    iterM (buffer_run statics garbage) os tb = (tb', Ok tt) /\ page_of tb' pg.
Proof.
  intros Hw Hh E. destruct (TextBuffer_new_page w h a cursorSize active Hw Hh) as (tb & En & Hp).
  destruct (page_steps statics garbage os tb _ pg Hp E) as (tb' & Er & Hp').
  by exists tb, tb'.
Qed.

Definition sample_history : list buffer_op :=
  [BWrite [0x61; 0xD83D; 0xDE00; 0x62; 0x63] TextAttribute_default 2 0 (Some true); BSetPosition (Point 3 1);
   BIncrementCursor; BNewline; BScrollRows 1 1 (-1); BRendition DoubleWidth; BResize 5 3; BResetRenditions 0 2;
   BCircular true; BReset].

Lemma text_buffer_refines_page_witness :
  let GW := pairs_wide in
  exists pg tb tb', page_history (take 7 sample_history) (new_page 4 2 TextAttribute_default) = Some pg /\
    TextBuffer_new (Size 4 2) TextAttribute_default 25 true = Ok tb /\
    iterM (buffer_run Statics_init 0) (take 7 sample_history) tb = (tb', Ok tt) /\ page_of tb' pg.
Proof.
  intros GW. destruct (page_history (take 7 sample_history) (new_page 4 2 TextAttribute_default)) as [pg|] eqn:E.
  - destruct (text_buffer_refines_page pairs_wide Statics_init 0 4 2 TextAttribute_default 25 true (take 7 sample_history) pg)
      as (tb & tb' & H); [done|done|exact E|].
    by exists pg, tb, tb'.
  - exfalso. revert E. by vm_compute.
Defined.

(** ** Bounds *)

Lemma line_width_pos W l : (1 < W)%nat -> (0 < line_width W l)%nat.
Proof.
  intros HW. unfold line_width. case_bool_decide; [lia|]. apply Nat.div_str_pos. lia.
Qed.

Lemma newline_cursor_ok pg : (1 < pg_width pg)%nat -> on_page pg -> cursor_ok (newline pg).
Proof.
  unfold on_page, cursor_ok, newline, on_page, bottom. intros HW Hy.
  destruct (Z.leb_spec (y (pg_cursor pg) + 1) (Z.of_nat (length (pg_lines pg)) - 1)); cbn [set_pg_cursor pg_cursor pg_lines pg_width x y].
  - split; [lia|]. intros l _. pose proof (line_width_pos _ l HW). lia.
  - rewrite length_app, length_tl. cbn [length]. split; [lia|]. intros l _. pose proof (line_width_pos _ l HW). lia.
Qed.

Lemma increment_cursor_ok pg : (1 < pg_width pg)%nat -> cursor_ok pg -> cursor_ok (increment pg).
Proof.
  intros HW [Hon Hx]. destruct (on_page_line pg Hon) as (l & Hl & Hy). specialize (Hx l Hl).
  unfold increment. rewrite Hl. cbv zeta. case_if; bool_prop.
  - split; [done|]. intros l' Hl'. assert (l' = l) as -> by (cbn in Hl'; unfold row_of in *; cbn in Hl'; congruence).
    cbn [set_pg_cursor pg_cursor pg_width x]. lia.
  - apply newline_cursor_ok; [done|]. unfold on_page in *.
    cbn [set_pg_lines set_pg_cursor pg_lines pg_cursor y]. rewrite length_insert. done.
Qed.

(** C21. Typing keeps the cursor on the page: in a buffer of at least two columns, a cursor
    that is on a line and within the width of the line stays so over any number of steps
    forward; each step succeeds, marks the line as wrapped at its end, and turns the ring at
    the end of the last line. *)
Theorem cursor_stays_on_page (tb : TextBuffer) (pg : page) (n : nat) :
  page_of tb pg -> (1 < pg_width pg)%nat -> cursor_ok pg ->
  exists tb' pg', iterM (fun _ => IncrementCursor ;; ret tt) (repeat tt n) tb = (tb', Ok tt) /\
    page_of tb' pg' /\ cursor_ok pg' /\ pg' = Nat.iter n increment pg /\
    pg_width pg' = pg_width pg /\ length (pg_lines pg') = length (pg_lines pg).
Proof.
  intros H HW Hc.
  assert (Hsize : forall pg, on_page pg -> pg_width (increment pg) = pg_width pg /\
    length (pg_lines (increment pg)) = length (pg_lines pg)).
  { intros p Hon. destruct (on_page_line p Hon) as (l & Hl & _). unfold increment. rewrite Hl. cbv zeta.
    case_if; [done|]. unfold newline. case_if; cbn [set_pg_lines set_pg_cursor pg_lines pg_width].
    - by rewrite length_insert.
    - rewrite length_app, length_tl, length_insert. unfold on_page in Hon. cbn. split; [done|lia]. }
  revert tb pg H HW Hc. induction n as [|n IH]; intros tb pg H HW Hc; [by exists tb, pg|].
  cbn [repeat iterM]. destruct (IncrementCursor_page tb pg H (proj1 Hc)) as (tb1 & E1 & H1).
  destruct (Hsize pg (proj1 Hc)) as [Ew El].
  destruct (IH tb1 (increment pg) H1) as (tb' & pg' & E & H' & Hc' & Ei & Ew' & El');
    [by rewrite Ew|by apply increment_cursor_ok|].
  exists tb', pg'. rewrite bind_assoc, (bind_Ok _ _ _ _ _ E1). split; [exact E|].
  split_and!; try done; try congruence. rewrite Ei. by rewrite <- Nat.iter_succ_r.
Qed.

Lemma cursor_stays_on_page_witness :
  exists tb tb' pg', TextBuffer_new (Size 4 2) TextAttribute_default 25 true = Ok tb /\
    iterM (fun _ => IncrementCursor ;; ret tt) (repeat tt 11) tb = (tb', Ok tt) /\
    page_of tb' pg' /\ cursor_ok pg' /\ pg' = Nat.iter 11 increment (new_page 4 2 TextAttribute_default) /\
    pg_cursor pg' = Point 3 1.
Proof.
  destruct (TextBuffer_new_page 4 2 TextAttribute_default 25 true) as (tb & E & H); [done|done|].
  destruct (cursor_stays_on_page tb (new_page 4 2 TextAttribute_default) 11 H) as (tb' & pg' & Er & H' & Hc & Ei & _).
  - vm_compute. lia.
  - split; [vm_compute; split; congruence|]. intros l Hl. vm_compute in Hl. injection Hl as <-. vm_compute. split; congruence.
  - exists tb, tb', pg'. split; [exact E|]. split; [exact Er|]. split; [exact H'|]. split; [exact Hc|]. split; [exact Ei|].
    rewrite Ei. vm_compute. reflexivity.
Defined.

(** On a page one column wide, a double-width line has no column: the cursor is clamped
    to the column before the first. *)
Example double_width_one_column :
  option_map pg_cursor (page_run (GW := pairs_wide) (BRendition DoubleWidth) (new_page 1 1 TextAttribute_default))
  = Some (Point (-1) 0).
Proof. reflexivity. Qed.

Lemma circular_buffer_scrolls_witness :
  exists tb tb', TextBuffer_new (Size 4 2) TextAttribute_default 25 true = Ok tb /\
    IncrementCircularBuffer true tb = (tb', Ok true) /\
    holds tb' 4 [blank_line 4 TextAttribute_default; blank_line 4 (SetStandardErase TextAttribute_default)].
Proof.
  destruct (TextBuffer_new_page 4 2 TextAttribute_default 25 true) as (tb & E & H); [done|done|].
  destruct (circular_buffer_scrolls tb 4 (blank_line 4 TextAttribute_default) [blank_line 4 TextAttribute_default] true)
    as (tb' & Er & H' & _); [exact (po_holds _ _ H)|].
  exists tb, tb'. split; [exact E|]. split; [exact Er|]. pose proof (po_attrs _ _ H) as Ha.
  rewrite Ha in H'. exact H'.
Defined.

(** A hyperlink that is still current is forgotten with the last line that shows it: the
    text written next refers to a link that is not in the table. *)
Example current_hyperlink_is_pruned :
  let a := SetHyperlinkId 1 TextAttribute_default in
  exists tb tb',
    TextBuffer_new (Size 3 1) a 25 true = Ok tb /\
    (AddHyperlinkToMap (L "http://x") 1 ;; IncrementCircularBuffer false) tb = (tb', Ok true) /\
    _hyperlinkId (_currentAttributes tb') = 1 /\ GetHyperlinkUriFromId 1 tb' = Throw StdException.
Proof.
  eexists _, _. split; [vm_compute; reflexivity|]. split; [vm_compute; reflexivity|]. split; vm_compute; reflexivity.
Qed.
