(* ===== verification/FontBuffer.v ===== *)
(** * Soft fonts

    Models src/src/terminal/adapter/FontBuffer.{hpp,cpp}: the buffer into which DECDLD
    downloads a character set as sixels.

    The buffer is an array of 96 characters of up to 32 scanlines of 16 bits.  The iterator
    [_currentCharBuffer] is its offset in the array: it may be moved past the end (the code
    does so for a character beyond the last), and following it is checked.  Members that
    the constructor leaves uninitialised are arguments of the model's constructor. *)

From S2P Require Import Prelude Effects DispatchTypes Geometry TextBuffer.

Local Open Scope Z_scope.

Definition MAX_WIDTH : Z := 16.
Definition MAX_HEIGHT : Z := 32.
Definition MAX_CHARS : Z := 96.

(** [DrcsCellMatrix]. *)
Definition Matrix_Invalid : VTInt := 1.
Definition Matrix_Size5x10 : VTInt := 2.
Definition Matrix_Size6x10 : VTInt := 3.
Definition Matrix_Size7x10 : VTInt := 4.

(** The attributes that decide whether a download replaces the font or adds to it. *)
Record FontAttributes := mkFontAttributes {
  fa_cellMatrix : VTInt;
  fa_cellHeight : VTInt;
  fa_fontSet : VTInt;
  fa_fontUsage : VTInt;
  fa_charsetSize : VTInt;
  fa_charsetId : VTID
}.

#[export] Instance FontAttributes_eq_dec : EqDecision FontAttributes.
Proof. solve_decision. Defined.

(** What a sequence declares of the font. *)
Record FontDeclaration := mkFontDeclaration {
  _sizeDeclaredAsMatrix : bool;
  _declaredWidth : VTInt;
  _declaredHeight : VTInt;
  _linesPerPage : VTInt;
  _columnsPerPage : VTInt;
  _isTextFont : bool
}.

(** The size of the cells of the font. *)
Record FontDimensions := mkFontDimensions {
  _fullWidth : VTInt;
  _fullHeight : VTInt;
  _textWidth : VTInt;
  _textOffset : VTInt
}.

Record FontBuffer := mkFontBuffer {
  fb_current : FontAttributes;
  fb_pending : FontAttributes;
  fb_declared : FontDeclaration;
  fb_dims : FontDimensions;
  _usedWidth : VTInt;
  _usedHeight : VTInt;
  _textCenteringHint : Z;
  _charsetIdInitialized : bool;
  _charsetIdBuilder : VTIDBuilder;
  _startChar : VTInt;
  _lastChar : VTInt;
  _currentChar : VTInt;
  _buffer : list Z;
  _currentCharBuffer : Z;
  _bufferCleared : bool;
  _sixelColumn : VTInt;
  _sixelRow : VTInt
}.

Module Font.

Definition set_current c b := mkFontBuffer c (fb_pending b) (fb_declared b) (fb_dims b) (_usedWidth b) (_usedHeight b) (_textCenteringHint b) (_charsetIdInitialized b) (_charsetIdBuilder b) (_startChar b) (_lastChar b) (_currentChar b) (_buffer b) (_currentCharBuffer b) (_bufferCleared b) (_sixelColumn b) (_sixelRow b).
Definition set_pending p b := mkFontBuffer (fb_current b) p (fb_declared b) (fb_dims b) (_usedWidth b) (_usedHeight b) (_textCenteringHint b) (_charsetIdInitialized b) (_charsetIdBuilder b) (_startChar b) (_lastChar b) (_currentChar b) (_buffer b) (_currentCharBuffer b) (_bufferCleared b) (_sixelColumn b) (_sixelRow b).
Definition set_declared d b := mkFontBuffer (fb_current b) (fb_pending b) d (fb_dims b) (_usedWidth b) (_usedHeight b) (_textCenteringHint b) (_charsetIdInitialized b) (_charsetIdBuilder b) (_startChar b) (_lastChar b) (_currentChar b) (_buffer b) (_currentCharBuffer b) (_bufferCleared b) (_sixelColumn b) (_sixelRow b).
Definition set_dims d b := mkFontBuffer (fb_current b) (fb_pending b) (fb_declared b) d (_usedWidth b) (_usedHeight b) (_textCenteringHint b) (_charsetIdInitialized b) (_charsetIdBuilder b) (_startChar b) (_lastChar b) (_currentChar b) (_buffer b) (_currentCharBuffer b) (_bufferCleared b) (_sixelColumn b) (_sixelRow b).
Definition set_used w h b := mkFontBuffer (fb_current b) (fb_pending b) (fb_declared b) (fb_dims b) w h (_textCenteringHint b) (_charsetIdInitialized b) (_charsetIdBuilder b) (_startChar b) (_lastChar b) (_currentChar b) (_buffer b) (_currentCharBuffer b) (_bufferCleared b) (_sixelColumn b) (_sixelRow b).
Definition set_hint h b := mkFontBuffer (fb_current b) (fb_pending b) (fb_declared b) (fb_dims b) (_usedWidth b) (_usedHeight b) h (_charsetIdInitialized b) (_charsetIdBuilder b) (_startChar b) (_lastChar b) (_currentChar b) (_buffer b) (_currentCharBuffer b) (_bufferCleared b) (_sixelColumn b) (_sixelRow b).
Definition set_id i bu b := mkFontBuffer (fb_current b) (fb_pending b) (fb_declared b) (fb_dims b) (_usedWidth b) (_usedHeight b) (_textCenteringHint b) i bu (_startChar b) (_lastChar b) (_currentChar b) (_buffer b) (_currentCharBuffer b) (_bufferCleared b) (_sixelColumn b) (_sixelRow b).
Definition set_chars s l c b := mkFontBuffer (fb_current b) (fb_pending b) (fb_declared b) (fb_dims b) (_usedWidth b) (_usedHeight b) (_textCenteringHint b) (_charsetIdInitialized b) (_charsetIdBuilder b) s l c (_buffer b) (_currentCharBuffer b) (_bufferCleared b) (_sixelColumn b) (_sixelRow b).
Definition set_buffer u b := mkFontBuffer (fb_current b) (fb_pending b) (fb_declared b) (fb_dims b) (_usedWidth b) (_usedHeight b) (_textCenteringHint b) (_charsetIdInitialized b) (_charsetIdBuilder b) (_startChar b) (_lastChar b) (_currentChar b) u (_currentCharBuffer b) (_bufferCleared b) (_sixelColumn b) (_sixelRow b).
Definition set_cleared c b := mkFontBuffer (fb_current b) (fb_pending b) (fb_declared b) (fb_dims b) (_usedWidth b) (_usedHeight b) (_textCenteringHint b) (_charsetIdInitialized b) (_charsetIdBuilder b) (_startChar b) (_lastChar b) (_currentChar b) (_buffer b) (_currentCharBuffer b) c (_sixelColumn b) (_sixelRow b).
Definition set_position i c r b := mkFontBuffer (fb_current b) (fb_pending b) (fb_declared b) (fb_dims b) (_usedWidth b) (_usedHeight b) (_textCenteringHint b) (_charsetIdInitialized b) (_charsetIdBuilder b) (_startChar b) (_lastChar b) (_currentChar b) (_buffer b) i (_bufferCleared b) c r.

Definition with_matrix (m : VTInt) (a : FontAttributes) : FontAttributes :=
  mkFontAttributes m (fa_cellHeight a) (fa_fontSet a) (fa_fontUsage a) (fa_charsetSize a) (fa_charsetId a).

(** [DrcsEraseControl]: 0 (all characters), 1 (reloaded characters), 2 (all renditions). *)
Definition SetEraseControl (eraseControl : VTInt) : M FontBuffer bool :=
  if (eraseControl =? 0) || (eraseControl =? 2) then
    modify (fun b => set_current (with_matrix Matrix_Invalid (fb_current b)) b) ;; ret true
  else ret (eraseControl =? 1).

Definition FontBuffer_new (uninitialised : FontBuffer) : FontBuffer := (SetEraseControl 2 uninitialised).1.

(** The columns and lines of a page, by [DrcsFontSet]. *)
Definition page_of_set (fontSet : VTInt) : option (VTInt * VTInt) :=
  if (fontSet =? 0) || (fontSet =? 1) then Some (80, 24)
  else if fontSet =? 11 then Some (80, 36)
  else if fontSet =? 21 then Some (80, 48)
  else if fontSet =? 2 then Some (132, 24)
  else if fontSet =? 12 then Some (132, 36)
  else if fontSet =? 22 then Some (132, 48)
  else None.

(** The three steps of [SetAttributes], each of which runs while the parameters are valid. *)
Definition declare_page (fontSet : VTInt) (d : FontDeclaration) : FontDeclaration * bool :=
  match page_of_set fontSet with
  | Some (columns, lines) =>
      (mkFontDeclaration (_sizeDeclaredAsMatrix d) (_declaredWidth d) (_declaredHeight d) lines columns (_isTextFont d), true)
  | None => (d, false)
  end.

Definition declare_usage (fontUsage : VTInt) (d : FontDeclaration) : FontDeclaration * bool :=
  let with_text t := mkFontDeclaration (_sizeDeclaredAsMatrix d) (_declaredWidth d) (_declaredHeight d) (_linesPerPage d) (_columnsPerPage d) t in
  if (fontUsage =? 0) || (fontUsage =? 1) then (with_text true, true)
  else if fontUsage =? 2 then (with_text false, true)
  else (d, false).

Definition declare_size (cellMatrix : VTInt) (cellHeight : VTParameter) (d : FontDeclaration) : FontDeclaration * bool :=
  let sized m w h := mkFontDeclaration m w h (_linesPerPage d) (_columnsPerPage d) (_isTextFont d) in
  if cellMatrix =? Matrix_Invalid then (d, false)
  else if cellMatrix =? Matrix_Size5x10 then (sized true 5 10, _isTextFont d)
  else if cellMatrix =? Matrix_Size6x10 then (sized true 6 10, _isTextFont d || (_columnsPerPage d =? 132))
  else if cellMatrix =? Matrix_Size7x10 then (sized true 7 10, _isTextFont d)
  else
    let height := value_or cellHeight 0 in
    (sized false cellMatrix height, (cellMatrix <=? MAX_WIDTH) && (height <=? MAX_HEIGHT)).

Definition andThen (step : FontDeclaration -> FontDeclaration * bool) (r : FontDeclaration * bool) : FontDeclaration * bool :=
  if r.2 then step r.1 else r.

Definition SetAttributes (cellMatrix : VTInt) (cellHeight : VTParameter) (fontSet fontUsage : VTInt) : M FontBuffer bool := fun b =>
  let '(declared, valid) :=
    andThen (declare_size cellMatrix cellHeight) (andThen (declare_usage fontUsage) (declare_page fontSet (fb_declared b))) in
  let p := fb_pending b in
  (set_used 0 0 (set_pending
     (mkFontAttributes cellMatrix (value_or cellHeight 0) fontSet fontUsage (fa_charsetSize p) (fa_charsetId p))
     (set_declared declared b)), Ok valid).

(** [DrcsCharsetSize]: 0 (94 characters), 1 (96 characters). *)
Definition SetStartChar (startChar : VTParameter) (charsetSize : VTInt) : M FontBuffer bool := fun b =>
  if (charsetSize =? 0) || (charsetSize =? 1) then
    let start := value_or startChar (if charsetSize =? 0 then 1 else 0) in
    let p := fb_pending b in
    (set_id false VTIDBuilder_Clear
       (set_pending (mkFontAttributes (fa_cellMatrix p) (fa_cellHeight p) (fa_fontSet p) (fa_fontUsage p) charsetSize (fa_charsetId p))
          (set_chars start (_lastChar b) start b)), Ok true)
  else (b, Ok false).

(** [std::fill_n(_buffer.begin() + from, count, value)] and [std::copy_n]. *)
Definition copy_at (from : Z) (l : list Z) : M FontBuffer unit := fun b =>
  if (0 <=? from) && (from + Z.of_nat (length l) <=? Z.of_nat (length (_buffer b))) then
    (set_buffer (take (Z.to_nat from) (_buffer b) ++ l ++ drop (Z.to_nat from + length l) (_buffer b)) b, Ok tt)
  else (b, Undefined).

Definition _prepareNextCharacter : M FontBuffer unit :=
  modify (fun b => set_position (_currentChar b * _fullHeight (fb_dims b)) 0 0
    (set_chars (_startChar b) (_currentChar b) (_currentChar b) b)) ;;
  b <- get id ;;
  if negb (_bufferCleared b) && (_currentChar b <? MAX_CHARS)
  then copy_at (_currentCharBuffer b) (repeat 0 (Z.to_nat (_fullHeight (fb_dims b))))
  else ret tt.

Definition _prepareCharacterBuffer : M FontBuffer unit :=
  modify (fun b =>
    if bool_decide (fb_current b = fb_pending b) then set_cleared false b
    else
      set_cleared true (set_buffer (repeat 0 (Z.to_nat (MAX_HEIGHT * MAX_CHARS)))
        (set_dims (mkFontDimensions MAX_WIDTH MAX_HEIGHT MAX_WIDTH 0) (set_current (fb_pending b) b)))) ;;
  _prepareNextCharacter.

Definition _buildCharsetId (ch : wchar) : M FontBuffer unit :=
  if (0x20 <=? ch) && (ch <=? 0x2F) then
    modify (fun b => set_id (_charsetIdInitialized b) (AddIntermediate (_charsetIdBuilder b) ch) b)
  else if (0x30 <=? ch) && (ch <=? 0x7E) then
    modify (fun b =>
      let p := fb_pending b in
      set_id true (_charsetIdBuilder b)
        (set_pending (mkFontAttributes (fa_cellMatrix p) (fa_cellHeight p) (fa_fontSet p) (fa_fontUsage p) (fa_charsetSize p)
           (Finalize (_charsetIdBuilder b) ch)) b)) ;;
    _prepareCharacterBuffer
  else ret tt.

(** The loop of [_addSixelValue] over the bits that are left. *)
Fixpoint sixel_bits (n : nat) (i value columnBit it row height : Z) : M FontBuffer unit :=
  match n with
  | O => ret tt
  | S n =>
      if row + i <? height then fun b =>
        if it <? 0 then (b, Undefined)
        else match _buffer b !! Z.to_nat it with
             | None => (b, Undefined)
             | Some line =>
                 sixel_bits n (i + 1) value columnBit (it + 1) row height
                   (set_buffer (<[Z.to_nat it := Z.lor line (if Z.testbit value i then columnBit else 0)]> (_buffer b)) b)
             end
      else ret tt
  end.

Definition _addSixelValue (value : VTInt) : M FontBuffer unit :=
  b <- get id ;;
  (if (_currentChar b <? MAX_CHARS) && (_sixelColumn b <? _textWidth (fb_dims b)) then
     let outputColumnBit := Z.shiftr 0x8000 (_sixelColumn b + _textOffset (fb_dims b)) in
     sixel_bits 6 0 value outputColumnBit (_currentCharBuffer b) (_sixelRow b) (_fullHeight (fb_dims b))
   else ret tt) ;;
  modify (fun b => set_position (_currentCharBuffer b) (_sixelColumn b + 1) (_sixelRow b) b).

Definition _endOfSixelLine : M FontBuffer unit :=
  modify (fun b =>
    let row := _sixelRow b + 6 in
    set_position (_currentCharBuffer b + 6) 0 row
      (set_used (Z.max (_usedWidth b) (_sixelColumn b)) (Z.max (_usedHeight b) row) b)).

Definition _endOfCharacter : M FontBuffer unit :=
  _endOfSixelLine ;;
  modify (fun b => set_chars (_startChar b) (_lastChar b) (_currentChar b + 1) b) ;;
  _prepareNextCharacter.

Definition AddSixelData (ch : wchar) : M FontBuffer unit :=
  initialized <- get _charsetIdInitialized ;;
  if negb initialized then _buildCharsetId ch
  else if (0x3F <=? ch) && (ch <=? 0x7E) then _addSixelValue (ch - 0x3F)
  else if ch =? 0x2F then _endOfSixelLine
  else if ch =? 0x3B then _endOfCharacter
  else ret tt.

(** [inRange] of [_calculateDimensions]. *)
Definition inRange (b : FontBuffer) (cellWidth cellHeight : VTInt) : bool :=
  let d := fb_declared b in
  let sixelHeight := Z.quot (cellHeight + 5) 6 * 6 in
  (if negb (_declaredHeight d =? 0) then _declaredHeight d <=? cellHeight else _usedHeight b <=? sixelHeight)
  && (if negb (_declaredWidth d =? 0) then _declaredWidth d <=? cellWidth else _usedWidth b <=? cellWidth).

Definition _calculateDimensions (b : FontBuffer) : VTInt * VTInt * VTInt :=
  let d := fb_declared b in
  if _sizeDeclaredAsMatrix d then
    if (_columnsPerPage d =? 132) && (_declaredWidth d <=? 6) then (6, 10, 0) else (10, 10, 8)
  else if negb (_declaredWidth d =? 0) && negb (_declaredHeight d =? 0) && negb (_isTextFont d) then
    (_declaredWidth d, _declaredHeight d, 0)
  else
    let textWidth := if _isTextFont d then _declaredWidth d else 0 in
    if negb (_linesPerPage d =? 24) then
      ((if _columnsPerPage d =? 132 then 6 else 10), (if _linesPerPage d =? 48 then 8 else 10), textWidth)
    else
      let noDeclaredSize := (_declaredWidth d =? 0) && (_declaredHeight d =? 0) in
      if _columnsPerPage d =? 80 then
        if inRange b 8 10 && noDeclaredSize then (10, 10, 8)
        else if inRange b 15 12 then (15, 12, textWidth)
        else if inRange b 10 16 then (10, 16, textWidth)
        else if inRange b 10 20 then (10, 20, textWidth)
        else if inRange b 12 30 then (12, 30, textWidth)
        else (MAX_WIDTH, MAX_HEIGHT, textWidth)
      else
        if inRange b 6 10 && noDeclaredSize then (6, 10, 0)
        else if inRange b 9 12 then (9, 12, textWidth)
        else if inRange b 6 16 then (6, 16, textWidth)
        else if inRange b 6 20 then (6, 20, textWidth)
        else if inRange b 7 30 then (7, 30, textWidth)
        else (MAX_WIDTH, MAX_HEIGHT, textWidth).

(** The loop of [_packAndCenterBitPatterns], with [dstLine]. *)
Definition pack_line (mask offset height : Z) (st : list Z * nat) (srcLine : nat) : list Z * nat :=
  let '(buffer, dstLine) := st in
  if Z.of_nat srcLine mod MAX_HEIGHT <? height then
    let scanline := default 0 (buffer !! srcLine) in
    (<[dstLine := Z.shiftr (Z.land scanline mask) offset]> buffer, S dstLine)
  else (buffer, dstLine).

Definition pack_lines (mask offset height : Z) (buffer : list Z) : list Z :=
  (foldl (pack_line mask offset height) (buffer, 0%nat) (seq 0 (length buffer))).1.

Definition _packAndCenterBitPatterns (b : FontBuffer) : FontBuffer :=
  let d := fb_dims b in
  let textWidth := if negb (_textWidth d =? 0) then _textWidth d else _fullWidth d in
  let textWidth := Z.min textWidth (_fullWidth d) in
  let textOffset := Z.quot (_fullWidth d - textWidth) 2 in
  let textClippingMask := Z.lnot (Z.shiftr 0xFFFF textWidth) in
  let declaredWidth := _declaredWidth (fb_declared b) in
  let hint := if negb (declaredWidth =? 0) then u64 (_fullWidth d - (declaredWidth + textOffset * 2)) else 0 in
  set_buffer (pack_lines textClippingMask textOffset (_fullHeight d) (_buffer b))
    (set_hint hint (set_dims (mkFontDimensions (_fullWidth d) (_fullHeight d) textWidth textOffset) b)).

Definition inputBitPattern : list Z :=
  [0; 0; 0; 0; 0; 0;
   0x1FF0; 0x3FF8; 0x701C; 0x701C; 0x7000; 0x7000;
   0x7800; 0x3E00; 0x0780; 0x0380; 0x0380; 0x0380;
   0x0380; 0x0000; 0x0380; 0x0380; 0x0380;
   0; 0; 0; 0; 0; 0; 0; 0; 0].

Definition widthMasks : list Z :=
  [0; 1; 3; 32771; 8457; 9481; 9545; 9673; 42441; 26061; 58829; 28141; 60909; 63453; 63485; 65533; 65535].

Definition heightMasks : list Z :=
  [0; 1; 3; 7; 15; 1613952; 10002560; 10002816; 10068352; 10068353; 26845569; 26847617; 26847619; 26864003; 28961155; 28961219;
   28961731; 62516163; 62516167; 129625031; 129625039; 129756111; 263973839; 263974863; 268169167; 536604623; 536608719; 536608735;
   536870879; 1073741791; 2147483615; 2147483647; 4294967295].

(** One scanline of the error glyph: the columns of the mask, from the left. *)
Definition scaled_line (widthMask fullWidth inputScanline : Z) : Z :=
  let line := foldl (fun acc k =>
    let x := 15 - Z.of_nat k in
    if Z.testbit widthMask x then Z.lor (u16 (Z.shiftl acc 1)) (if Z.testbit inputScanline x then 1 else 0) else acc)
    0 (seq 0 16) in
  u16 (Z.shiftl line (MAX_WIDTH - fullWidth)).

Definition _generateErrorGlyph (b : FontBuffer) : Result (list Z) :=
  let d := fb_dims b in
  if (_fullWidth d <? 0) || (_fullHeight d <? 0) then Throw StdException
  else match widthMasks !! Z.to_nat (_fullWidth d), heightMasks !! Z.to_nat (_fullHeight d) with
       | Some widthMask, Some heightMask =>
           let rows := List.filter (fun y => Z.testbit heightMask (Z.of_nat y)) (seq 0 32) in
           let lines := map (fun y => scaled_line widthMask (_fullWidth d) (default 0 (inputBitPattern !! y))) rows in
           Ok (lines ++ repeat 0 (32 - length lines))
       | _, _ => Throw StdException
       end.

Definition _fillUnusedCharacters : M FontBuffer unit :=
  errorPattern <- get_result _generateErrorGlyph ;;
  iterM (fun ch =>
    b <- get id ;;
    if (ch <? _startChar b) || (_lastChar b <? ch)
    then copy_at (ch * _fullHeight (fb_dims b)) (take (Z.to_nat (_fullHeight (fb_dims b))) errorPattern)
    else ret tt) (map Z.of_nat (seq 0 (Z.to_nat MAX_CHARS))).

Definition FinalizeSixelData : M FontBuffer bool :=
  initialized <- get _charsetIdInitialized ;;
  if negb initialized then ret false
  else
    _endOfSixelLine ;;
    cleared <- get _bufferCleared ;;
    (if cleared : bool then
       modify (fun b =>
         let '(fullWidth, fullHeight, textWidth) := _calculateDimensions b in
         set_dims (mkFontDimensions fullWidth fullHeight textWidth (_textOffset (fb_dims b))) b) ;;
       modify _packAndCenterBitPatterns ;;
       _fillUnusedCharacters
     else ret tt) ;;
    ret true.

Definition GetBitPattern (b : FontBuffer) : list Z := take (Z.to_nat (MAX_CHARS * _fullHeight (fb_dims b))) (_buffer b).
Definition GetCellSize (b : FontBuffer) : size := Size (_fullWidth (fb_dims b)) (_fullHeight (fb_dims b)).
Definition GetTextCenteringHint (b : FontBuffer) : Z := _textCenteringHint b.
Definition GetDesignation (b : FontBuffer) : VTID := fa_charsetId (fb_current b).

End Font.
