(* ===== verification/RenderSettings.v ===== *)
(** * Render settings

    Models src/src/renderer/base/RenderSettings.cpp: the colour table, the aliases of its
    entries, the cache of adjusted colours, the modes and the blink cycle.

    [ColorFix::GetPerceivableColor] (src/src/types/ColorFix.cpp) computes in floating point
    with [pow], [atan2] and [exp]; it is the parameter [GetPerceivableColor].  The build
    feature [Feature_AdjustIndistinguishableText] is the parameter [adjust].  The theorems
    hold for any value of both. *)

From S2P Require Import Prelude Effects EnumSet Utils ColorTable TextColor TextAttribute TermDispatch.

Local Open Scope Z_scope.

(** [RenderSettings::Mode]. *)
Inductive RenderMode :=
| BlinkAllowed | IndexedDistinguishableColors | AlwaysDistinguishableColors | IntenseIsBold | IntenseIsBright | ScreenReversed.

#[export] Instance RenderMode_eq_dec : EqDecision RenderMode.
Proof. solve_decision. Defined.

#[export] Instance RenderMode_position : EnumPos RenderMode := fun m =>
  match m with
  | BlinkAllowed => 0 | IndexedDistinguishableColors => 1 | AlwaysDistinguishableColors => 2
  | IntenseIsBold => 3 | IntenseIsBright => 4 | ScreenReversed => 5
  end.

Inductive ColorAlias := DefaultForeground | DefaultBackground | FrameForeground | FrameBackground.

#[export] Instance ColorAlias_eq_dec : EqDecision ColorAlias.
Proof. solve_decision. Defined.

Definition alias_position (a : ColorAlias) : nat :=
  match a with DefaultForeground => 0 | DefaultBackground => 1 | FrameForeground => 2 | FrameBackground => 3 end.

Definition DEFAULT_FOREGROUND : Z := 261.
Definition DEFAULT_BACKGROUND : Z := 262.
Definition FRAME_FOREGROUND : Z := 263.
Definition FRAME_BACKGROUND : Z := 264.
Definition CURSOR_COLOR : Z := 265.

Definition AdjustedFgIndex : Z := 16.
Definition AdjustedBgIndex : Z := 17.
Definition AdjustedBrightFgIndex : Z := 18.

Record RenderSettings := mkRenderSettings {
  _renderMode : enumset;
  _colorTable : list Z;
  _colorAliasIndices : list Z;
  _adjustedForegroundColors : list (list Z);
  _blinkCycle : Z;
  _blinkIsInUse : bool;
  _blinkShouldBeFaint : bool
}.

Module Render.

Definition set_modes m (s : RenderSettings) := mkRenderSettings m (_colorTable s) (_colorAliasIndices s) (_adjustedForegroundColors s) (_blinkCycle s) (_blinkIsInUse s) (_blinkShouldBeFaint s).
Definition set_table t (s : RenderSettings) := mkRenderSettings (_renderMode s) t (_colorAliasIndices s) (_adjustedForegroundColors s) (_blinkCycle s) (_blinkIsInUse s) (_blinkShouldBeFaint s).
Definition set_aliases i (s : RenderSettings) := mkRenderSettings (_renderMode s) (_colorTable s) i (_adjustedForegroundColors s) (_blinkCycle s) (_blinkIsInUse s) (_blinkShouldBeFaint s).
Definition set_adjusted a (s : RenderSettings) := mkRenderSettings (_renderMode s) (_colorTable s) (_colorAliasIndices s) a (_blinkCycle s) (_blinkIsInUse s) (_blinkShouldBeFaint s).
Definition set_blink c u f (s : RenderSettings) := mkRenderSettings (_renderMode s) (_colorTable s) (_colorAliasIndices s) (_adjustedForegroundColors s) c u f.

Definition GetRenderMode (mode : RenderMode) (s : RenderSettings) : bool := enumset_test (_renderMode s) mode.

Definition SetRenderMode (mode : RenderMode) (enabled : bool) (s : RenderSettings) : RenderSettings :=
  let s := set_modes (enumset_set_to (_renderMode s) mode enabled) s in
  if bool_decide (mode = BlinkAllowed) && negb enabled
  then set_blink (_blinkCycle s) (_blinkIsInUse s) false s else s.

Definition GetColorTable (s : RenderSettings) : list Z := _colorTable s.

Definition ResetColorTable (s : RenderSettings) : RenderSettings :=
  set_table (InitializeColorTable (take 16 (_colorTable s)) ++ drop 16 (_colorTable s)) s.

(** [_colorTable.at(tableIndex) = color]. *)
Definition SetColorTableEntry (tableIndex color : Z) : M RenderSettings unit := fun s =>
  if (0 <=? tableIndex) && (tableIndex <? Z.of_nat (length (_colorTable s)))
  then (set_table (<[Z.to_nat tableIndex := color]> (_colorTable s)) s, Ok tt)
  else (s, Throw StdException).

Definition GetColorTableEntry (tableIndex : Z) (s : RenderSettings) : Result Z :=
  if tableIndex <? 0 then Throw StdException
  else match _colorTable s !! Z.to_nat tableIndex with Some c => Ok c | None => Throw StdException end.

(** [tableIndex] is a [size_t]: a negative argument is converted to a large one. *)
Definition SetColorAliasIndex (alias : ColorAlias) (tableIndex : Z) (s : RenderSettings) : RenderSettings :=
  if (0 <=? tableIndex) && (tableIndex <? Z.of_nat TABLE_SIZE)
  then set_aliases (<[alias_position alias := tableIndex]> (_colorAliasIndices s)) s else s.

Definition GetColorAliasIndex (alias : ColorAlias) (s : RenderSettings) : Z :=
  at_ (_colorAliasIndices s) (Z.of_nat (alias_position alias)).

Definition SetColorAlias (alias : ColorAlias) (tableIndex color : Z) : M RenderSettings unit :=
  modify (SetColorAliasIndex alias tableIndex) ;; SetColorTableEntry tableIndex color.

Definition GetColorAlias (alias : ColorAlias) (s : RenderSettings) : Result Z :=
  GetColorTableEntry (GetColorAliasIndex alias s) s.

(** The constructor; the arrays start out with arbitrary contents. *)
Definition RenderSettings_new (table0 aliases0 : list Z) (adjusted0 : list (list Z)) : RenderSettings * Result unit :=
  (SetColorTableEntry DEFAULT_FOREGROUND INVALID_COLOR ;;
   SetColorTableEntry DEFAULT_BACKGROUND INVALID_COLOR ;;
   SetColorTableEntry FRAME_FOREGROUND INVALID_COLOR ;;
   SetColorTableEntry FRAME_BACKGROUND INVALID_COLOR ;;
   SetColorTableEntry CURSOR_COLOR INVALID_COLOR ;;
   modify (SetColorAliasIndex DefaultForeground DARK_WHITE) ;;
   modify (SetColorAliasIndex DefaultBackground DARK_BLACK) ;;
   modify (SetColorAliasIndex FrameForeground FRAME_FOREGROUND) ;;
   modify (SetColorAliasIndex FrameBackground FRAME_BACKGROUND))
    (mkRenderSettings (enumset_new [BlinkAllowed; IntenseIsBright]) (InitializeColorTable table0) aliases0 adjusted0 0 false false).

(** [ToggleBlinkRendition]; the result says whether a redraw is triggered. *)
Definition ToggleBlinkRendition (s : RenderSettings) : RenderSettings * bool :=
  if GetRenderMode BlinkAllowed s then
    let blinkCycle := (_blinkCycle s + 1) mod 4 in
    let faint := 2 <=? blinkCycle in
    let redraw := _blinkIsInUse s && (blinkCycle mod 2 =? 0) in
    (set_blink blinkCycle (if redraw then false else _blinkIsInUse s) faint s, redraw)
  else (s, false).

Section Colors.
Context (adjust : bool) (GetPerceivableColor : Z -> Z -> Z).

(** The sixteen colours, the default foreground and background and the bright default
    foreground. *)
Definition colorTableWithDefaults (s : RenderSettings) : Result (list Z) :=
  let? fg := GetColorAlias DefaultForeground s in
  let? bg := GetColorAlias DefaultBackground s in
  Ok (take 16 (_colorTable s) ++
      [fg; bg; GetColor TextColor_default (_colorTable s) (GetColorAliasIndex DefaultForeground s) true]).

(** One entry of the table of adjusted colours. *)
Definition adjusted_entry (colors : list Z) (bgIndex fgIndex : nat) : Z :=
  let fg := at_ colors (Z.of_nat fgIndex) in
  if (fgIndex =? bgIndex)%nat then fg else GetPerceivableColor fg (at_ colors (Z.of_nat bgIndex)).

Definition adjusted_table (colors : list Z) : list (list Z) :=
  map (fun bgIndex => map (adjusted_entry colors bgIndex) (seq 0 19)) (seq 0 19).

(** [noexcept]: an exception of [GetColorAlias] ends the program. *)
Definition MakeAdjustedColorArray : M RenderSettings unit := fun s =>
  match colorTableWithDefaults s with
  | Ok colors => (set_adjusted (adjusted_table colors) s, Ok tt)
  | Throw _ => (s, Undefined)
  | Undefined => (s, Undefined)
  | OutOfFuel => (s, OutOfFuel)
  end.

Definition adjusted_at (row col : Z) (s : RenderSettings) : Result Z :=
  match _adjustedForegroundColors s !! Z.to_nat row with
  | Some l => match l !! Z.to_nat col with Some c => Ok c | None => Undefined end
  | None => Undefined
  end.

(** Whether the pair of colours is one of those the table has. *)
Definition in_adjusted_table (attr : TextAttribute) (dimFg : bool) (s : RenderSettings) : bool :=
  adjust && GetRenderMode IndexedDistinguishableColors s && negb dimFg && negb (IsInvisible attr)
  && (is_type IsDefault (_foreground attr) || IsLegacy (_foreground attr))
  && (is_type IsDefault (_background attr) || IsLegacy (_background attr)).

Definition brightenFg (attr : TextAttribute) (s : RenderSettings) : bool := IsIntense attr && GetRenderMode IntenseIsBright s.
Definition dimFg (attr : TextAttribute) (s : RenderSettings) : bool :=
  IsFaint attr || (_blinkShouldBeFaint s && IsBlinking attr).
Definition swapFgAndBg (attr : TextAttribute) (s : RenderSettings) : bool :=
  xorb (IsReverseVideo attr) (GetRenderMode ScreenReversed s).

(** The indices into the table of adjusted colours. *)
Definition adjusted_bg_index (attr : TextAttribute) : Z :=
  if is_type IsDefault (_background attr) then AdjustedBgIndex else GetIndex (_background attr).
Definition adjusted_fg_index (attr : TextAttribute) (brighten : bool) : Z :=
  let fgIndex := if is_type IsDefault (_foreground attr) then AdjustedFgIndex else GetIndex (_foreground attr) in
  if brighten then
    if is_type IsIndex16 (_foreground attr) && (fgIndex <? 8) then fgIndex + 8
    else if is_type IsDefault (_foreground attr) then AdjustedBrightFgIndex else fgIndex
  else fgIndex.

Definition GetAttributeColors (attr : TextAttribute) : M RenderSettings (Z * Z) := fun s =>
  let s := set_blink (_blinkCycle s) (_blinkIsInUse s || IsBlinking attr) (_blinkShouldBeFaint s) s in
  let fg := GetColor (_foreground attr) (_colorTable s) (GetColorAliasIndex DefaultForeground s) (brightenFg attr s) in
  let bg := GetColor (_background attr) (_colorTable s) (GetColorAliasIndex DefaultBackground s) false in
  if in_adjusted_table attr (dimFg attr s) s then
    let bgIndex := adjusted_bg_index attr in
    let fgIndex := adjusted_fg_index attr (brightenFg attr s) in
    if swapFgAndBg attr s then
      (s, let? c := adjusted_at fgIndex bgIndex s in Ok (c, fg))
    else
      (s, let? c := adjusted_at bgIndex fgIndex s in Ok (c, bg))
  else
    let fg := if dimFg attr s then Z.land (Z.shiftr fg 1) 0x7F7F7F else fg in
    let '(fg, bg) := if swapFgAndBg attr s then (bg, fg) else (fg, bg) in
    let fg := if IsInvisible attr then bg else fg in
    let fg :=
      if adjust && negb (fg =? bg) && GetRenderMode AlwaysDistinguishableColors s
      then GetPerceivableColor fg bg else fg in
    (s, Ok (fg, bg)).

Definition GetAttributeColorsWithAlpha (attr : TextAttribute) : M RenderSettings (Z * Z) :=
  c <- GetAttributeColors attr ;;
  reversed <- get (GetRenderMode ScreenReversed) ;;
  let '(fg, bg) := c in
  let fg := Z.lor fg 0xff000000 in
  ret (fg,
    if negb (is_type IsDefault (_background attr)) || xorb (IsReverseVideo attr) reversed || IsInvisible attr
    then Z.lor bg 0xff000000 else bg).

End Colors.
End Render.

(** ** Theorems *)

(** The tables have their sizes and the aliases point into the colour table. *)
Record RenderSettings_ok (s : RenderSettings) : Prop := {
  ok_table : length (_colorTable s) = TABLE_SIZE;
  ok_aliases : length (_colorAliasIndices s) = 4%nat;
  ok_alias_range : Forall (fun i => 0 <= i < Z.of_nat TABLE_SIZE) (_colorAliasIndices s)
}.

(** The cache of adjusted colours is the one the colour table and the aliases give. *)
Definition in_sync (GetPerceivableColor : Z -> Z -> Z) (s : RenderSettings) : Prop :=
  exists colors, Render.colorTableWithDefaults s = Ok colors /\
    _adjustedForegroundColors s = Render.adjusted_table GetPerceivableColor colors.

(** The tests of the type of a colour that is known. *)
Ltac decide_types :=
  repeat match goal with
  | |- context [bool_decide (?a = ?b :> ColorType)] =>
      let v := eval vm_compute in (bool_decide (a = b :> ColorType)) in change (bool_decide (a = b)) with v
  end; cbn [andb orb].

Section Facts.
Context (adjust : bool) (GetPerceivableColor : Z -> Z -> Z).

Lemma alias_in_range a s : RenderSettings_ok s -> 0 <= Render.GetColorAliasIndex a s < Z.of_nat TABLE_SIZE.
Proof.
  intros [_ Hl Hr]. unfold Render.GetColorAliasIndex, at_. rewrite Nat2Z.id.
  assert (Ha : (alias_position a < length (_colorAliasIndices s))%nat) by (rewrite Hl; destruct a; cbn; lia).
  destruct (lookup_lt_is_Some_2 _ _ Ha) as [i Hi]. rewrite Hi. cbn.
  by apply (proj1 (Forall_lookup _ _) Hr _ _ Hi).
Qed.

Lemma GetColorAlias_Ok a s : RenderSettings_ok s ->
  Render.GetColorAlias a s = Ok (at_ (_colorTable s) (Render.GetColorAliasIndex a s)).
Proof.
  intros Hs. pose proof (alias_in_range a s Hs) as Hr. destruct Hs as [Hl _ _].
  unfold Render.GetColorAlias, Render.GetColorTableEntry, at_.
  destruct (Z.ltb_spec (Render.GetColorAliasIndex a s) 0); [lia|].
  destruct (lookup_lt_is_Some_2 (_colorTable s) (Z.to_nat (Render.GetColorAliasIndex a s))) as [c Hc]; [lia|].
  by rewrite Hc.
Qed.

Lemma colors_with_defaults s : RenderSettings_ok s ->
  Render.colorTableWithDefaults s = Ok (take 16 (_colorTable s) ++
    [at_ (_colorTable s) (Render.GetColorAliasIndex DefaultForeground s);
     at_ (_colorTable s) (Render.GetColorAliasIndex DefaultBackground s);
     GetColor TextColor_default (_colorTable s) (Render.GetColorAliasIndex DefaultForeground s) true]).
Proof. intros Hs. unfold Render.colorTableWithDefaults. by rewrite !GetColorAlias_Ok. Qed.

(** Rebuilding the cache always succeeds and brings it up to date. *)
Lemma MakeAdjustedColorArray_sync s : RenderSettings_ok s ->
  exists s', Render.MakeAdjustedColorArray GetPerceivableColor s = (s', Ok tt) /\
    in_sync GetPerceivableColor s' /\ RenderSettings_ok s' /\
    _renderMode s' = _renderMode s /\ _colorTable s' = _colorTable s /\ _colorAliasIndices s' = _colorAliasIndices s.
Proof.
  intros Hs. unfold Render.MakeAdjustedColorArray. rewrite (colors_with_defaults s Hs).
  eexists; split; [reflexivity|]. split; [|by destruct Hs].
  eexists; split; [|reflexivity]. destruct Hs. by rewrite colors_with_defaults.
Qed.

Lemma adjusted_table_lookup colors bg fg : 0 <= bg < 19 -> 0 <= fg < 19 ->
  (Render.adjusted_table GetPerceivableColor colors !! Z.to_nat bg) ≫= (.!! Z.to_nat fg) =
    Some (Render.adjusted_entry GetPerceivableColor colors (Z.to_nat bg) (Z.to_nat fg)).
Proof.
  intros Hb Hf. unfold Render.adjusted_table.
  do 2 change (map ?f ?l) with (f <$> l).
  rewrite list_lookup_fmap, lookup_seq_lt by lia. cbn [fmap option_fmap option_map mbind option_bind].
  change (map ?f ?l) with (f <$> l). by rewrite list_lookup_fmap, lookup_seq_lt by lia.
Qed.

Lemma adjusted_at_sync colors s bg fg : _adjustedForegroundColors s = Render.adjusted_table GetPerceivableColor colors ->
  0 <= bg < 19 -> 0 <= fg < 19 ->
  Render.adjusted_at bg fg s = Ok (Render.adjusted_entry GetPerceivableColor colors (Z.to_nat bg) (Z.to_nat fg)).
Proof.
  intros E Hb Hf. pose proof (adjusted_table_lookup colors bg fg Hb Hf) as Hl.
  unfold Render.adjusted_at. rewrite E.
  destruct (Render.adjusted_table _ _ !! Z.to_nat bg) as [l|]; [|done]. cbn in Hl. by rewrite Hl.
Qed.

Lemma at_app_l l l' i : 0 <= i < Z.of_nat (length l) -> at_ (l ++ l') i = at_ l i.
Proof. intros. unfold at_. by rewrite lookup_app_l by lia. Qed.

Lemma at_take n l i : 0 <= i < Z.of_nat n -> at_ (take n l) i = at_ l i.
Proof. intros. unfold at_. by rewrite lookup_take_lt by lia. Qed.

Lemma at_defaults table a b c i : length table = TABLE_SIZE ->
  at_ (take 16 table ++ [a; b; c]) i =
    if i =? 16 then a else if i =? 17 then b else if i =? 18 then c
    else at_ (take 16 table ++ [a; b; c]) i.
Proof.
  intros Hl. assert (H16 : length (take 16 table) = 16%nat) by (rewrite length_take, Hl; reflexivity).
  repeat match goal with |- context [i =? ?k] => destruct (Z.eqb_spec i k); [subst; unfold at_; by rewrite lookup_app_r, H16 by (rewrite H16; lia)|] end.
  done.
Qed.

(** The slots of the cache hold the colours of the attribute. *)
Lemma slot_of_color (c : TextColor) table a b d i j brighten :
  length table = TABLE_SIZE -> TextColor_wf c -> is_type IsDefault c || IsLegacy c = true ->
  let colors := take 16 table ++ [a; b; d] in
  (if is_type IsDefault c then at_ colors j = GetColor c table i brighten
   else j = if brighten && is_type IsIndex16 c && (GetIndex c <? 8) then GetIndex c + 8 else GetIndex c) ->
  at_ colors j = GetColor c table i brighten.
Proof.
  intros Hl (Hred & _ & _ & H16) Hleg colors. unfold IsLegacy, GetColor, GetColor_with, is_type, is_byte, GetIndex in *.
  assert (H16' : length (take 16 table) = 16%nat) by (rewrite length_take, Hl; reflexivity).
  assert (Hat : forall k, 0 <= k < 16 -> at_ colors k = at_ table k).
  { intros k Hk. unfold colors. rewrite at_app_l by (rewrite H16'; lia). by apply at_take. }
  destruct (_meta c); cbn in *; try done; intros ->.
  - apply Z.ltb_lt in Hleg. rewrite andb_false_r. cbn. apply Hat. lia.
  - specialize (H16 eq_refl). rewrite andb_true_r.
    destruct brighten; cbn; [|apply Hat; lia].
    rewrite Hat by (destruct (Z.ltb_spec (_red c) 8); lia). f_equal.
    assert (Hc : forall k, (k < 16)%nat -> (if Z.of_nat k <? 8 then Z.of_nat k + 8 else Z.of_nat k) = Z.lor (Z.of_nat k) 8).
    { intros k Hk. do 16 (destruct k as [|k]; [reflexivity|]). lia. }
    specialize (Hc (Z.to_nat (_red c))). rewrite Z2Nat.id in Hc by lia. apply Hc. lia.
Qed.

Lemma slot_range attr brighten :
  TextColor_wf (_foreground attr) -> TextColor_wf (_background attr) ->
  is_type IsDefault (_foreground attr) || IsLegacy (_foreground attr) = true ->
  is_type IsDefault (_background attr) || IsLegacy (_background attr) = true ->
  0 <= Render.adjusted_fg_index attr brighten < 19 /\ 0 <= Render.adjusted_bg_index attr < 19.
Proof.
  intros (Hf & _ & _ & Hf16) (Hb & _ & _ & Hb16) Lf Lb.
  unfold Render.adjusted_fg_index, Render.adjusted_bg_index, IsLegacy, is_type, GetIndex, is_byte, AdjustedFgIndex, AdjustedBgIndex, AdjustedBrightFgIndex in *.
  destruct (_meta (_foreground attr)); destruct (_meta (_background attr)); destruct brighten; cbn in *; try done;
    decide_types; try apply Z.ltb_lt in Lf; try apply Z.ltb_lt in Lb; try specialize (Hf16 eq_refl); try specialize (Hb16 eq_refl);
    repeat match goal with |- context [?x <? 8] => destruct (Z.ltb_spec x 8) end; lia.
Qed.

(** The colours of an attribute before anything is done to them. *)
Definition plain_fg (attr : TextAttribute) (s : RenderSettings) : Z :=
  GetColor (_foreground attr) (_colorTable s) (Render.GetColorAliasIndex DefaultForeground s) (Render.brightenFg attr s).
Definition plain_bg (attr : TextAttribute) (s : RenderSettings) : Z :=
  GetColor (_background attr) (_colorTable s) (Render.GetColorAliasIndex DefaultBackground s) false.

Lemma slots_hold attr s : RenderSettings_ok s ->
  TextColor_wf (_foreground attr) -> TextColor_wf (_background attr) ->
  is_type IsDefault (_foreground attr) || IsLegacy (_foreground attr) = true ->
  is_type IsDefault (_background attr) || IsLegacy (_background attr) = true ->
  exists colors, Render.colorTableWithDefaults s = Ok colors /\
    at_ colors (Render.adjusted_fg_index attr (Render.brightenFg attr s)) = plain_fg attr s /\
    at_ colors (Render.adjusted_bg_index attr) = plain_bg attr s.
Proof.
  intros Hs Wf Wb Lf Lb. eexists; split; [by apply colors_with_defaults|].
  destruct Hs as [Hl _ _]. split; unfold plain_fg, plain_bg.
  - apply slot_of_color; [done..|]. unfold Render.adjusted_fg_index.
    destruct (is_type IsDefault (_foreground attr)) eqn:E.
    + assert (E16 : is_type IsIndex16 (_foreground attr) = false) by (unfold is_type in *; by destruct (_meta (_foreground attr))).
      rewrite E16. unfold GetColor, GetColor_with. rewrite E.
      destruct (Render.brightenFg attr s); cbn [andb]; by rewrite at_defaults by done.
    + by destruct (Render.brightenFg attr s).
  - apply slot_of_color; [done..|]. unfold Render.adjusted_bg_index.
    destruct (is_type IsDefault (_background attr)) eqn:E; [|done].
    unfold GetColor, GetColor_with. rewrite E. by rewrite at_defaults by done.
Qed.

(** C39. When the cache was rebuilt after the last change of the settings ([in_sync]) and the
    pair of colours is one of those it has, the colours read from the cache are the ones a direct computation gives: the colour in front (the foreground, or
    the background where video is reversed) made perceivable against the one behind it,
    unless both are the same entry of the palette, and the one behind it as it is.  No
    index runs out of the cache. *)
Theorem cached_colors_are_computed attr s : RenderSettings_ok s -> in_sync GetPerceivableColor s ->
  TextColor_wf (_foreground attr) -> TextColor_wf (_background attr) ->
  Render.in_adjusted_table adjust attr (Render.dimFg attr s) s = true ->
  (Render.GetAttributeColors adjust GetPerceivableColor attr s).2 =
    let '(front, back) := if Render.swapFgAndBg attr s then (plain_bg attr s, plain_fg attr s) else (plain_fg attr s, plain_bg attr s) in
    Ok (if Render.adjusted_fg_index attr (Render.brightenFg attr s) =? Render.adjusted_bg_index attr then front
        else GetPerceivableColor front back, back).
Proof.
  intros Hs (colors & Hc & Hadj) Wf Wb Hin.
  assert (HL : is_type IsDefault (_foreground attr) || IsLegacy (_foreground attr) = true /\
               is_type IsDefault (_background attr) || IsLegacy (_background attr) = true).
  { unfold Render.in_adjusted_table in Hin. apply andb_true_iff in Hin as [Hin Lb]. by apply andb_true_iff in Hin as [_ Lf]. }
  destruct HL as [Lf Lb].
  destruct (slots_hold attr s Hs Wf Wb Lf Lb) as (colors' & Hc' & Hf & Hb). rewrite Hc in Hc'. injection Hc' as <-.
  destruct (slot_range attr (Render.brightenFg attr s) Wf Wb Lf Lb) as [Rf Rb].
  set (s1 := Render.set_blink (_blinkCycle s) (_blinkIsInUse s || IsBlinking attr) (_blinkShouldBeFaint s) s).
  unfold Render.GetAttributeColors. fold s1.
  change (Render.in_adjusted_table adjust attr (Render.dimFg attr s1) s1) with (Render.in_adjusted_table adjust attr (Render.dimFg attr s) s).
  change (Render.swapFgAndBg attr s1) with (Render.swapFgAndBg attr s).
  change (Render.brightenFg attr s1) with (Render.brightenFg attr s).
  change (_colorTable s1) with (_colorTable s).
  change (Render.GetColorAliasIndex ?a s1) with (Render.GetColorAliasIndex a s).
  fold (plain_fg attr s) (plain_bg attr s). rewrite Hin.
  destruct (Render.swapFgAndBg attr s); cbn [snd]; rewrite (adjusted_at_sync colors s1) by done;
    unfold Render.adjusted_entry; cbn [bindR]; rewrite !Z2Nat.id by lia; rewrite Hf, Hb; do 2 f_equal.
  - destruct (Z.eqb_spec (Render.adjusted_fg_index attr (Render.brightenFg attr s)) (Render.adjusted_bg_index attr)) as [->|];
      [by rewrite Nat.eqb_refl|]. by rewrite (proj2 (Nat.eqb_neq _ _)) by lia.
  - destruct (Z.eqb_spec (Render.adjusted_fg_index attr (Render.brightenFg attr s)) (Render.adjusted_bg_index attr)) as [->|];
      [by rewrite Nat.eqb_refl|]. by rewrite (proj2 (Nat.eqb_neq _ _)) by lia.
Qed.

(** The attribute with its video reversed, and the settings with the screen reversed. *)
Definition reversed (attr : TextAttribute) : TextAttribute := SetReverseVideo (negb (IsReverseVideo attr)) attr.
Definition screen_reversed (s : RenderSettings) : RenderSettings :=
  Render.SetRenderMode ScreenReversed (negb (Render.GetRenderMode ScreenReversed s)) s.

Lemma RenderMode_fits (m : RenderMode) : fits m.
Proof. unfold fits, position. destruct m; cbn; lia. Qed.

Lemma GetRenderMode_set m m' b s :
  Render.GetRenderMode m (Render.SetRenderMode m' b s) = if bool_decide (m' = m) then b else Render.GetRenderMode m s.
Proof.
  unfold Render.SetRenderMode, Render.GetRenderMode.
  destruct (bool_decide (m' = BlinkAllowed) && negb b); cbn [_renderMode Render.set_modes Render.set_blink];
    rewrite enumset_test_set_to by apply RenderMode_fits; by destruct m', m.
Qed.

Lemma reversed_flags attr f : Z.land ReverseVideo f = 0 -> has_attr f (reversed attr) = has_attr f attr.
Proof. apply has_update_other. Qed.

Lemma reversed_reverse attr : IsReverseVideo (reversed attr) = negb (IsReverseVideo attr).
Proof. by apply has_update_same. Qed.

Lemma reversed_colors attr : _foreground (reversed attr) = _foreground attr /\ _background (reversed attr) = _background attr.
Proof. done. Qed.

(** Reversing the screen shows an attribute in the colours of the attribute reversed,
    and away from the cached pairs, where the text is not invisible and nothing is made
    perceivable, reversing exchanges the two colours: faint text stays faint. *)
Theorem reversing_exchanges_colors attr s :
  (Render.GetAttributeColors adjust GetPerceivableColor attr (screen_reversed s)).2 =
    (Render.GetAttributeColors adjust GetPerceivableColor (reversed attr) s).2 /\
  (Render.in_adjusted_table adjust attr (Render.dimFg attr s) s = false -> IsInvisible attr = false ->
   adjust && Render.GetRenderMode AlwaysDistinguishableColors s = false ->
   exists fg bg, (Render.GetAttributeColors adjust GetPerceivableColor attr s).2 = Ok (fg, bg) /\
     (Render.GetAttributeColors adjust GetPerceivableColor (reversed attr) s).2 = Ok (bg, fg)).
Proof.
  assert (Hf : forall f, Z.land ReverseVideo f = 0 -> has_attr f (reversed attr) = has_attr f attr) by apply reversed_flags.
  assert (HB : IsBlinking (reversed attr) = IsBlinking attr) by (by apply Hf).
  assert (HI : IsInvisible (reversed attr) = IsInvisible attr) by (by apply Hf).
  assert (HN : IsIntense (reversed attr) = IsIntense attr) by (by apply Hf).
  assert (HF : IsFaint (reversed attr) = IsFaint attr) by (by apply Hf).
  destruct (reversed_colors attr) as [EF EB].
  assert (Hm : forall m, m <> ScreenReversed -> Render.GetRenderMode m (screen_reversed s) = Render.GetRenderMode m s).
  { intros m Hm. unfold screen_reversed. rewrite GetRenderMode_set. by rewrite bool_decide_eq_false_2 by congruence. }
  assert (Hs : Render.GetRenderMode ScreenReversed (screen_reversed s) = negb (Render.GetRenderMode ScreenReversed s)).
  { unfold screen_reversed. by rewrite GetRenderMode_set, bool_decide_eq_true_2. }
  unfold Render.GetAttributeColors, Render.in_adjusted_table, Render.adjusted_bg_index, Render.adjusted_fg_index,
    Render.brightenFg, Render.dimFg, Render.swapFgAndBg.
  set (u := fun s' b => Render.set_blink (_blinkCycle s') (_blinkIsInUse s' || b) (_blinkShouldBeFaint s') s').
  change (Render.set_blink _ (_ || ?b) _ s) with (u s b).
  change (Render.set_blink _ (_ || ?b) _ (screen_reversed s)) with (u (screen_reversed s) b).
  change (Render.GetRenderMode ?m (u ?s' ?b)) with (Render.GetRenderMode m s').
  change (Render.adjusted_at ?i ?j (u ?s' ?b)) with (Render.adjusted_at i j s').
  change (Render.adjusted_at ?i ?j (screen_reversed s)) with (Render.adjusted_at i j s).
  change (_colorTable (u ?s' ?b)) with (_colorTable s). change (_blinkShouldBeFaint (u ?s' ?b)) with (_blinkShouldBeFaint s).
  change (Render.GetColorAliasIndex ?a (u ?s' ?b)) with (Render.GetColorAliasIndex a s).
  rewrite HB, HI, HN, HF, EF, EB, reversed_reverse, Hs,
    (Hm IntenseIsBright), (Hm IndexedDistinguishableColors), (Hm AlwaysDistinguishableColors) by done. rewrite <- !negb_xorb_l, <- !negb_xorb_r.
  split.
  - destruct (_ && _ && _ && _ && _ && _); [by destruct (xorb _ _)|]. destruct (xorb _ _); cbn; by destruct (IsInvisible attr).
  - intros -> -> Hd.
    assert (Hn : forall b, adjust && b && Render.GetRenderMode AlwaysDistinguishableColors s = false).
    { intros b. destruct adjust; [|done]. cbn in *. by rewrite Hd, andb_false_r. }
    destruct (xorb _ _); cbn; rewrite !Hn; eauto.
Qed.

End Facts.

(** Settings with the cache filled, made by the constructor. *)
Definition settings_ex : RenderSettings :=
  (Render.MakeAdjustedColorArray (fun fg bg => Z.lxor fg 0xFFFFFF)
    (Render.SetRenderMode IndexedDistinguishableColors true
      (Render.RenderSettings_new (repeat 0 266) (repeat 0 4) []).1)).1.

Lemma settings_ex_ok : RenderSettings_ok settings_ex.
Proof. split; [vm_compute; reflexivity..|]. vm_compute. repeat constructor; discriminate. Qed.

Lemma cached_colors_are_computed_witness :
  let attr := SetIntense true (SetIndexedForeground 1 TextAttribute_default) in
  (Render.GetAttributeColors true (fun fg bg => Z.lxor fg 0xFFFFFF) attr settings_ex).2 =
    Ok (Z.lxor (RGB 0xE7 0x48 0x56) 0xFFFFFF, RGB 0x0C 0x0C 0x0C).
Proof.
  intros attr.
  rewrite (cached_colors_are_computed true (fun fg bg => Z.lxor fg 0xFFFFFF) attr settings_ex).
  - vm_compute. reflexivity.
  - apply settings_ex_ok.
  - eexists; split; vm_compute; reflexivity.
  - apply TextColor_index_wf; lia.
  - apply TextColor_default_wf.
  - vm_compute. reflexivity.
Defined.

Lemma reversing_exchanges_colors_witness :
  let attr := SetFaint true (SetIndexedForeground 1 TextAttribute_default) in
  let colors := (Render.GetAttributeColors true (fun fg bg => fg) attr settings_ex).2 in
  colors = Ok (RGB 0x62 0x07 0x0F, RGB 0x0C 0x0C 0x0C) /\
  (Render.GetAttributeColors true (fun fg bg => fg) (reversed attr) settings_ex).2 = Ok (RGB 0x0C 0x0C 0x0C, RGB 0x62 0x07 0x0F).
Proof.
  intros attr colors.
  destruct (reversing_exchanges_colors true (fun fg bg => fg) attr settings_ex) as [_ H2].
  destruct H2 as (fg & bg & H1 & H2); [vm_compute; reflexivity..|].
  assert (E : colors = Ok (RGB 0x62 0x07 0x0F, RGB 0x0C 0x0C 0x0C)) by (vm_compute; reflexivity).
  split; [exact E|]. unfold colors in E. rewrite H1 in E. rewrite H2. by injection E as -> ->.
Defined.
