(* ===== verification/TerminalApi.v ===== *)
(** * The interface between the adapter and the terminal

    Models src/src/terminal/adapter/ITerminalApi.hpp: what [AdaptDispatch] asks of the
    console host or of the terminal it runs in.  The adapter also has references to the
    terminal input, to the render settings and to the renderer, and reaches the modes of
    the parser and its pass-through through the terminal; they are parts of the same world
    [W], since the terminal changes them too.

    A reference to an object is a pair of a reading and an assignment.  [view] is what the
    adapter can read of a world, and [ApiLaws] says what each operation does to it; the
    operations that replace the text buffer or move the viewport have no law here. *)

From S2P Require Import Prelude Effects EnumSet DispatchTypes StateMachine Geometry LineRendition TextColor TextAttribute Cursor TextBuffer TerminalInput RenderSettings.

Local Open Scope Z_scope.

Class ITerminalApi (W : Type) := {
  GetTextBuffer : W -> TextBuffer;
  PutTextBuffer : TextBuffer -> W -> W;
  GetTerminalInput : W -> TerminalInput.TerminalInput;
  PutTerminalInput : TerminalInput.TerminalInput -> W -> W;
  GetRenderSettings : W -> RenderSettings;
  PutRenderSettings : RenderSettings -> W -> W;
  GetParserModes : W -> enumset;
  PutParserModes : enumset -> W -> W;
  RendererTriggerRedrawAll : forall (backgroundChanged frameChanged : bool), M W unit;
  RendererTriggerFlush : bool -> M W unit;
  RendererUpdateSoftFont : list Z -> size -> Z -> M W unit;
  FlushToTerminal : M W bool;
  IsProcessingLastCharacter : W -> bool;
  ActionPassThroughString : wstring -> M W unit;
  ReturnResponse : wstring -> M W unit;
  GetViewport : W -> rect;
  SetViewportPosition : point -> M W unit;
  IsVtInputEnabled : W -> bool;
  SetTextAttributes : TextAttribute -> M W unit;
  SetAutoWrapMode : bool -> M W unit;
  GetAutoWrapMode : W -> bool;
  SetScrollingRegion : inclusive_rect -> M W unit;
  api_WarningBell : M W unit;
  GetLineFeedMode : W -> bool;
  api_LineFeed : forall (withReturn wrapForced : bool), M W unit;
  api_SetWindowTitle : wstring -> M W unit;
  UseAlternateScreenBuffer : M W unit;
  UseMainScreenBuffer : M W unit;
  GetUserDefaultCursorStyle : W -> CursorType;
  api_ShowWindow : bool -> M W unit;
  SetConsoleOutputCP : Z -> M W unit;
  GetConsoleOutputCP : W -> Z;
  SetBracketedPasteMode : bool -> M W unit;
  GetBracketedPasteMode : W -> option bool;
  CopyToClipboard : wstring -> M W unit;
  SetTaskbarProgress : Z -> Z -> M W unit;
  SetWorkingDirectory : wstring -> M W unit;
  PlayMidiNote : forall (noteNumber velocity duration : Z), M W unit;
  ResizeWindow : Z -> Z -> M W bool;
  IsConsolePty : W -> bool;
  NotifyAccessibilityChange : rect -> M W unit;
  api_MarkPrompt : M W unit;
  api_MarkCommandStart : M W unit;
  api_MarkOutputStart : M W unit;
  api_MarkCommandFinish : option Z -> M W unit
}.

(** What the adapter can read. *)
Record View := mkView {
  v_buffer : TextBuffer;
  v_input : TerminalInput.TerminalInput;
  v_render : RenderSettings;
  v_parser : enumset;
  v_viewport : rect;
  v_wrap : bool;
  v_cp : Z;
  v_paste : option bool;
  v_pty : bool;
  v_vt : bool
}.

Definition view {W} `{ITerminalApi W} (w : W) : View :=
  mkView (GetTextBuffer w) (GetTerminalInput w) (GetRenderSettings w) (GetParserModes w) (GetViewport w)
    (GetAutoWrapMode w) (GetConsoleOutputCP w) (GetBracketedPasteMode w) (IsConsolePty w) (IsVtInputEnabled w).

Definition vset_buffer b (v : View) := mkView b (v_input v) (v_render v) (v_parser v) (v_viewport v) (v_wrap v) (v_cp v) (v_paste v) (v_pty v) (v_vt v).
Definition vset_input t (v : View) := mkView (v_buffer v) t (v_render v) (v_parser v) (v_viewport v) (v_wrap v) (v_cp v) (v_paste v) (v_pty v) (v_vt v).
Definition vset_render r (v : View) := mkView (v_buffer v) (v_input v) r (v_parser v) (v_viewport v) (v_wrap v) (v_cp v) (v_paste v) (v_pty v) (v_vt v).
Definition vset_parser p (v : View) := mkView (v_buffer v) (v_input v) (v_render v) p (v_viewport v) (v_wrap v) (v_cp v) (v_paste v) (v_pty v) (v_vt v).
Definition vset_viewport r (v : View) := mkView (v_buffer v) (v_input v) (v_render v) (v_parser v) r (v_wrap v) (v_cp v) (v_paste v) (v_pty v) (v_vt v).
Definition vset_wrap b (v : View) := mkView (v_buffer v) (v_input v) (v_render v) (v_parser v) (v_viewport v) b (v_cp v) (v_paste v) (v_pty v) (v_vt v).
Definition vset_cp c (v : View) := mkView (v_buffer v) (v_input v) (v_render v) (v_parser v) (v_viewport v) (v_wrap v) c (v_paste v) (v_pty v) (v_vt v).
Definition vset_paste p (v : View) := mkView (v_buffer v) (v_input v) (v_render v) (v_parser v) (v_viewport v) (v_wrap v) (v_cp v) p (v_pty v) (v_vt v).

(** An operation that succeeds and changes the view by [f]. *)
Definition effect {W} `{ITerminalApi W} (m : M W unit) (f : View -> View) : Prop :=
  forall w, exists w', m w = (w', Ok tt) /\ view w' = f (view w).

(** A terminal that cannot tell whether bracketed paste is on never can; whether lines wrap
    and the code page may be for the terminal to choose. *)
Class ApiLaws (W : Type) `{ITerminalApi W} := {
  buffer_put tb w : view (PutTextBuffer tb w) = vset_buffer tb (view w);
  input_put t w : view (PutTerminalInput t w) = vset_input t (view w);
  render_put r w : view (PutRenderSettings r w) = vset_render r (view w);
  parser_put p w : view (PutParserModes p w) = vset_parser p (view w);
  region_quiet r : effect (SetScrollingRegion r) id;
  notify_quiet r : effect (NotifyAccessibilityChange r) id;
  response_quiet s : effect (ReturnResponse s) id;
  redraw_quiet b f : effect (RendererTriggerRedrawAll b f) id;
  softfont_quiet p c h : effect (RendererUpdateSoftFont p c h) id;
  attributes_set a : effect (SetTextAttributes a) (fun v => vset_buffer (TextBuffer.set_attributes a (v_buffer v)) v);
  wrap_set b : forall w, exists w' b', SetAutoWrapMode b w = (w', Ok tt) /\ view w' = vset_wrap b' (view w);
  cp_set c : forall w, exists w' c', SetConsoleOutputCP c w = (w', Ok tt) /\ view w' = vset_cp c' (view w);
  paste_set b : effect (SetBracketedPasteMode b) (fun v => vset_paste (match v_paste v with Some _ => Some b | None => None end) v)
}.
