(* ===== verification/AdaptDispatch.v ===== *)
(** * The adapter: text, cursor, scrolling and erasing

    Models the first half of src/src/terminal/adapter/adaptDispatch.cpp: printing, the
    movements of the cursor, saving and restoring it, scrolling, inserting, deleting,
    erasing and the rectangular operations.  The state of the adapter is the record
    [Adapter]; the world it acts on is any implementation of [ITerminalApi].

    The loop of [_WriteToBuffer] does not end when a wide glyph is to be printed in a buffer
    of one column with automatic wrapping.  A wide glyph takes a turn for each line that is
    too narrow for it, and in a buffer of two columns or more only lines of double width
    are; they scroll away after as many turns as there are rows.  So there is fuel for two
    turns more than the buffer has rows, for each code unit. *)

From S2P Require Import Prelude Effects EnumSet DispatchTypes StateMachine Geometry LineRendition Viewport ViewportSpec TextColor TextAttribute SgrStack AdaptGraphics MacroBuffer Rle Row TerminalOutput CodepointWidth OutputCells RowWrite Cursor TextBuffer FontBuffer TerminalInput RenderSettings TerminalApi TermDispatch.

Local Open Scope Z_scope.

(** [AdaptDispatch::Mode]. *)
Inductive AdaptMode := InsertReplace | Origin | Column | AllowDECCOLM | RectangularChangeExtent.

#[export] Instance AdaptMode_eq_dec : EqDecision AdaptMode.
Proof. solve_decision. Defined.

#[export] Instance AdaptMode_position : EnumPos AdaptMode := fun m =>
  match m with
  | InsertReplace => 0 | Origin => 1 | Column => 2 | AllowDECCOLM => 3 | RectangularChangeExtent => 4
  end.

Record CursorState := mkCursorState {
  cs_Row : VTInt;
  cs_Column : VTInt;
  cs_IsOriginModeRelative : bool;
  cs_Attributes : TextAttribute;
  cs_TermOutput : TerminalOutput;
  cs_C1ControlsAccepted : bool;
  cs_CodePage : Z
}.

Definition CursorState_default : CursorState := mkCursorState 1 1 false TextAttribute_default TermOut.init false 0.

(** An offset of a cursor movement; the origin of VT is (1, 1). *)
Record MoveOffset := mkOffset {
  off_Value : VTInt;
  off_IsAbsolute : bool
}.

Definition Absolute (value : VTInt) : MoveOffset := mkOffset (value - 1) true.
Definition Forward (value : VTInt) : MoveOffset := mkOffset value false.
Definition Backward (value : VTInt) : MoveOffset := mkOffset (- value) false.
Definition Unchanged : MoveOffset := Forward 0.

Record ChangeOps := mkChangeOps {
  andAttrMask : CharacterAttributes;
  xorAttrMask : CharacterAttributes;
  co_foreground : option TextColor;
  co_background : option TextColor
}.

(** The variables captured by the handler of the string being received: the identifier of
    [RequestSetting], the parameters of [_RestoreColorTable] and the text of
    [_CreatePassthroughHandler]. *)
Record HandlerState := mkHandlerState {
  h_idBuilder : VTIDBuilder;
  h_parameter : VTInt;
  h_parameters : list VTParameter;
  h_buffer : wstring
}.

Definition HandlerState_new : HandlerState := mkHandlerState VTIDBuilder_Clear 0 [] [].

(** ** The state *)

Record Adapter (W : Type) := mkAdapter {
  world : W;
  _termOutput : TerminalOutput;
  _savedMain : CursorState;
  _savedAlt : CursorState;
  _usingAltBuffer : bool;
  _scrollMargins : inclusive_rect;
  _modes : enumset;
  _adapterSgrStack : SgrStack;
  _macroBuffer : option MacroBuffer;
  _tabStopColumns : list bool;
  _initDefaultTabStops : bool;
  _initialCodePage : option Z;
  _handler : HandlerState;
  _fontBuffer : option FontBuffer
}.
Arguments mkAdapter {W}.
Arguments world {W}.
Arguments _termOutput {W}.
Arguments _savedMain {W}.
Arguments _savedAlt {W}.
Arguments _usingAltBuffer {W}.
Arguments _scrollMargins {W}.
Arguments _modes {W}.
Arguments _adapterSgrStack {W}.
Arguments _macroBuffer {W}.
Arguments _tabStopColumns {W}.
Arguments _initDefaultTabStops {W}.
Arguments _initialCodePage {W}.
Arguments _handler {W}.
Arguments _fontBuffer {W}.

Definition AdaptDispatch_new {W} (w : W) : Adapter W :=
  mkAdapter w TermOut.init CursorState_default CursorState_default false (InclusiveRect 0 0 0 0) 0 SgrStack_new None [] true None HandlerState_new None.

Section Members.
Context {W : Type}.

Definition set_world (w : W) (a : Adapter W) := mkAdapter w (_termOutput a) (_savedMain a) (_savedAlt a) (_usingAltBuffer a) (_scrollMargins a) (_modes a) (_adapterSgrStack a) (_macroBuffer a) (_tabStopColumns a) (_initDefaultTabStops a) (_initialCodePage a) (_handler a) (_fontBuffer a).
Definition set_termOutput t (a : Adapter W) := mkAdapter (world a) t (_savedMain a) (_savedAlt a) (_usingAltBuffer a) (_scrollMargins a) (_modes a) (_adapterSgrStack a) (_macroBuffer a) (_tabStopColumns a) (_initDefaultTabStops a) (_initialCodePage a) (_handler a) (_fontBuffer a).
Definition set_saved m l (a : Adapter W) := mkAdapter (world a) (_termOutput a) m l (_usingAltBuffer a) (_scrollMargins a) (_modes a) (_adapterSgrStack a) (_macroBuffer a) (_tabStopColumns a) (_initDefaultTabStops a) (_initialCodePage a) (_handler a) (_fontBuffer a).
Definition set_usingAlt b (a : Adapter W) := mkAdapter (world a) (_termOutput a) (_savedMain a) (_savedAlt a) b (_scrollMargins a) (_modes a) (_adapterSgrStack a) (_macroBuffer a) (_tabStopColumns a) (_initDefaultTabStops a) (_initialCodePage a) (_handler a) (_fontBuffer a).
Definition set_margins r (a : Adapter W) := mkAdapter (world a) (_termOutput a) (_savedMain a) (_savedAlt a) (_usingAltBuffer a) r (_modes a) (_adapterSgrStack a) (_macroBuffer a) (_tabStopColumns a) (_initDefaultTabStops a) (_initialCodePage a) (_handler a) (_fontBuffer a).
Definition set_adapt_modes m (a : Adapter W) := mkAdapter (world a) (_termOutput a) (_savedMain a) (_savedAlt a) (_usingAltBuffer a) (_scrollMargins a) m (_adapterSgrStack a) (_macroBuffer a) (_tabStopColumns a) (_initDefaultTabStops a) (_initialCodePage a) (_handler a) (_fontBuffer a).
Definition set_sgrStack s (a : Adapter W) := mkAdapter (world a) (_termOutput a) (_savedMain a) (_savedAlt a) (_usingAltBuffer a) (_scrollMargins a) (_modes a) s (_macroBuffer a) (_tabStopColumns a) (_initDefaultTabStops a) (_initialCodePage a) (_handler a) (_fontBuffer a).
Definition set_macroBuffer m (a : Adapter W) := mkAdapter (world a) (_termOutput a) (_savedMain a) (_savedAlt a) (_usingAltBuffer a) (_scrollMargins a) (_modes a) (_adapterSgrStack a) m (_tabStopColumns a) (_initDefaultTabStops a) (_initialCodePage a) (_handler a) (_fontBuffer a).
Definition set_tabs t b (a : Adapter W) := mkAdapter (world a) (_termOutput a) (_savedMain a) (_savedAlt a) (_usingAltBuffer a) (_scrollMargins a) (_modes a) (_adapterSgrStack a) (_macroBuffer a) t b (_initialCodePage a) (_handler a) (_fontBuffer a).
Definition set_initialCodePage c (a : Adapter W) := mkAdapter (world a) (_termOutput a) (_savedMain a) (_savedAlt a) (_usingAltBuffer a) (_scrollMargins a) (_modes a) (_adapterSgrStack a) (_macroBuffer a) (_tabStopColumns a) (_initDefaultTabStops a) c (_handler a) (_fontBuffer a).
Definition set_handler h (a : Adapter W) := mkAdapter (world a) (_termOutput a) (_savedMain a) (_savedAlt a) (_usingAltBuffer a) (_scrollMargins a) (_modes a) (_adapterSgrStack a) (_macroBuffer a) (_tabStopColumns a) (_initDefaultTabStops a) (_initialCodePage a) h (_fontBuffer a).
Definition set_fontBuffer f (a : Adapter W) := mkAdapter (world a) (_termOutput a) (_savedMain a) (_savedAlt a) (_usingAltBuffer a) (_scrollMargins a) (_modes a) (_adapterSgrStack a) (_macroBuffer a) (_tabStopColumns a) (_initDefaultTabStops a) (_initialCodePage a) (_handler a) f.

End Members.

Module Adapt.
Section Adapt.
Context {W : Type} `{ITerminalApi W} {GW : GlyphWidth} (statics : Statics) (garbage : wchar).

#[local] Abbreviation D := (M (Adapter W)).

(** A call of the terminal. *)
Definition api {A} (m : M W A) : D A := fun a =>
  let '(w, r) := m (world a) in (set_world w a, r).

Definition ask {A} (f : W -> A) : D A := get (fun a => f (world a)).

(** A call of the text buffer, and a reading of it that may fail. *)
Definition buf {A} (m : M TextBuffer A) : D A := fun a =>
  let '(tb, r) := m (GetTextBuffer (world a)) in (set_world (PutTextBuffer tb (world a)) a, r).

Definition buf_read {A} (f : TextBuffer -> Result A) : D A := get_result (fun a => f (GetTextBuffer (world a))).
Definition buf_get {A} (f : TextBuffer -> A) : D A := ask (fun w => f (GetTextBuffer w)).

Definition cursor (op : CursorOp) : D unit := buf (with_cursor op).
Definition cursor_get {A} (f : Cursor -> A) : D A := buf_get (fun tb => f (_cursor tb)).

Definition test_mode (m : AdaptMode) : D bool := get (fun a => enumset_test (_modes a) m).
Definition set_mode (m : AdaptMode) (b : bool) : D unit :=
  modify (fun a => set_adapt_modes (enumset_set_to (_modes a) m b) a).
Definition reset_modes (ms : list AdaptMode) : D unit :=
  modify (fun a => set_adapt_modes (enumset_reset (_modes a) ms) a).

(** ** The cursor *)

Definition _ApplyCursorMovementFlags : D unit :=
  cursor (SetDelay false) ;; cursor (SetIsOn true) ;; cursor (SetHasMoved true).

Definition _GetVerticalMargins (viewport : rect) (absolute : bool) : D (Z * Z) :=
  let bottommostRow := bottom viewport - top viewport - 1 in
  margins <- get _scrollMargins ;;
  (if bottommostRow <=? ir_top margins then
     let margins := InclusiveRect (ir_left margins) 0 (ir_right margins) 0 in
     modify (set_margins margins) ;; api (SetScrollingRegion margins)
   else ret tt) ;;
  margins <- get _scrollMargins ;;
  let marginsSet := ir_top margins <? ir_bottom margins in
  let topMargin := if marginsSet then ir_top margins else 0 in
  let bottomMargin := if marginsSet then ir_bottom margins else bottommostRow in
  let bottomMargin := Z.min bottomMargin bottommostRow in
  ret (if absolute then (topMargin + top viewport, bottomMargin + top viewport) else (topMargin, bottomMargin)).

(** [std::clamp], which needs its bounds in order. *)
Definition std_clamp (v lo hi : Z) : D Z :=
  if hi <? lo then undefined else ret (Z.max lo (Z.min v hi)).

Definition _CursorMovePosition (rowOffset colOffset : MoveOffset) (clampInMargins : bool) : D bool :=
  viewport <- ask GetViewport ;;
  cursorPosition <- cursor_get _cPosition ;;
  margins <- _GetVerticalMargins viewport true ;;
  let '(topMargin, bottomMargin) := margins in
  origin <- test_mode Origin ;;
  let row := if off_IsAbsolute rowOffset then (if origin : bool then topMargin else top viewport) else y cursorPosition in
  let col := if off_IsAbsolute colOffset then 0 else x cursorPosition in
  w <- buf_get (fun tb => Width (GetSize tb)) ;;
  row <- std_clamp (row + off_Value rowOffset) (top viewport) (bottom viewport - 1) ;;
  col <- std_clamp (col + off_Value colOffset) 0 (w - 1) ;;
  let row :=
    if clampInMargins || origin then
      let row := if topMargin <=? y cursorPosition then Z.max row topMargin else row in
      if y cursorPosition <=? bottomMargin then Z.min row bottomMargin else row
    else row in
  p <- buf_read (ClampPositionWithinLine (Point col row)) ;;
  cursor (SetPosition p) ;;
  _ApplyCursorMovementFlags ;;
  ret true.

Definition CursorUp (distance : VTInt) := _CursorMovePosition (Backward distance) Unchanged true.
Definition CursorDown (distance : VTInt) := _CursorMovePosition (Forward distance) Unchanged true.
Definition CursorForward (distance : VTInt) := _CursorMovePosition Unchanged (Forward distance) true.
Definition CursorBackward (distance : VTInt) := _CursorMovePosition Unchanged (Backward distance) true.
Definition CursorNextLine (distance : VTInt) := _CursorMovePosition (Forward distance) (Absolute 1) true.
Definition CursorPrevLine (distance : VTInt) := _CursorMovePosition (Backward distance) (Absolute 1) true.
Definition CursorHorizontalPositionAbsolute (column : VTInt) := _CursorMovePosition Unchanged (Absolute column) false.
Definition VerticalLinePositionAbsolute (line : VTInt) := _CursorMovePosition (Absolute line) Unchanged false.
Definition HorizontalPositionRelative (distance : VTInt) := _CursorMovePosition Unchanged (Forward distance) false.
Definition VerticalPositionRelative (distance : VTInt) := _CursorMovePosition (Forward distance) Unchanged false.
Definition CursorPosition (line column : VTInt) := _CursorMovePosition (Absolute line) (Absolute column) false.
Definition CarriageReturn := _CursorMovePosition Unchanged (Absolute 1) true.

(** [_api.GetStateMachine().SetParserMode]. *)
Definition set_parser_mode (mode : StateMachine.Mode) (enabled : bool) : D unit :=
  api (modify (fun w => PutParserModes (enumset_set_to (GetParserModes w) mode enabled) w)).
Definition get_parser_mode (mode : StateMachine.Mode) : D bool := ask (fun w => enumset_test (GetParserModes w) mode).

Definition AcceptC1Controls (enabled : bool) : D bool :=
  set_parser_mode AcceptC1 enabled ;; ret true.

(** The state saved for the buffer in use. *)
Definition saved_state (a : Adapter W) : CursorState := if _usingAltBuffer a then _savedAlt a else _savedMain a.
Definition set_saved_state (s : CursorState) (a : Adapter W) : Adapter W :=
  if _usingAltBuffer a then set_saved (_savedMain a) s a else set_saved s (_savedAlt a) a.

Definition CursorSaveState : D bool :=
  viewport <- ask GetViewport ;;
  attributes <- buf_get GetCurrentAttributes ;;
  p <- cursor_get _cPosition ;;
  origin <- test_mode Origin ;;
  termOutput <- get _termOutput ;;
  c1 <- get_parser_mode AcceptC1 ;;
  cp <- ask GetConsoleOutputCP ;;
  modify (set_saved_state (mkCursorState (y p - top viewport + 1) (x p + 1) origin attributes termOutput c1 cp)) ;;
  ret true.

Definition CursorRestoreState : D bool :=
  saved <- get saved_state ;;
  row <-
    (if cs_IsOriginModeRelative saved then
       viewport <- ask GetViewport ;;
       margins <- _GetVerticalMargins viewport false ;;
       std_clamp (cs_Row saved) (fst margins + 1) (snd margins + 1)
     else ret (cs_Row saved)) ;;
  reset_modes [Origin] ;;
  CursorPosition row (cs_Column saved) ;;
  set_mode Origin (cs_IsOriginModeRelative saved) ;;
  api (SetTextAttributes (cs_Attributes saved)) ;;
  modify (set_termOutput (cs_TermOutput saved)) ;;
  AcceptC1Controls (cs_C1ControlsAccepted saved) ;;
  (if negb (cs_CodePage saved =? 0) then api (SetConsoleOutputCP (cs_CodePage saved)) else ret tt) ;;
  ret true.

(** ** Filling and scrolling *)

Definition buf_WriteLine (it : OutputCellIterator) (target : point) (wrap : option bool) (limitRight : option Z)
  : D OutputCellIterator := buf (WriteLine statics garbage it target wrap limitRight).

(** The rows of a rectangle, from the top. *)
Definition rows_of (first last : Z) : list Z := map (fun k => first + Z.of_nat k) (seq 0 (Z.to_nat (last - first))).

Definition _FillRect (fillRect : rect) (fillChar : wchar) (fillAttrs : TextAttribute) : D unit :=
  if (left fillRect <? right fillRect) && (top fillRect <? bottom fillRect) then
    let fillWidth := right fillRect - left fillRect in
    let fillData := iterator_of_char_attr fillChar fillAttrs fillWidth in
    iterM (fun row => buf_WriteLine fillData (Point (left fillRect) row) (Some false) None ;; ret tt)
      (rows_of (top fillRect) (bottom fillRect)) ;;
    api (NotifyAccessibilityChange fillRect)
  else ret tt.

(** The current attributes, as a standard erase leaves them. *)
Definition eraseAttributes : D TextAttribute := buf_get (fun tb => SetStandardErase (GetCurrentAttributes tb)).

Definition _ScrollRectVertically (scrollRect : rect) (delta : Z) : D unit :=
  h <- get_result (fun _ => rect_height scrollRect) ;;
  let absoluteDelta := Z.min (Z.abs delta) h in
  (if absoluteDelta <? h then
     let top_ := if 0 <? delta then top scrollRect else top scrollRect + absoluteDelta in
     let height := h - absoluteDelta in
     let actualDelta := if 0 <? delta then absoluteDelta else - absoluteDelta in
     buf (ScrollRows top_ height actualDelta) ;;
     buf (TriggerRedraw (FromExclusive scrollRect))
   else ret tt) ;;
  let eraseTop := if 0 <? delta then top scrollRect else bottom scrollRect - absoluteDelta in
  let eraseBottom := eraseTop + absoluteDelta in
  attrs <- eraseAttributes ;;
  _FillRect (Rect (left scrollRect) eraseTop (right scrollRect) eraseBottom) 0x20 attrs ;;
  buf (ResetLineRenditionRange eraseTop eraseBottom).

(** [OutputCell( *textBuffer.GetCellDataAt(pos))]. *)
Definition cell_at (pos : point) : D OutputCell :=
  v <- buf_read (GetCellDataAt pos) ;; ret (OutputCell_of_view (ci_view v)).

(** [textBuffer.WriteLine(OutputCellIterator({ &current, 1 }), targetPos)]. *)
Definition write_one (current : OutputCell) (targetPos : point) : D unit :=
  it <- get_result (fun _ => iterator_of_cells [current]) ;;
  buf_WriteLine it targetPos None None ;; ret tt.

(** [do ... while (target.WalkInBounds(targetPos, walkDirection))]: one turn for each cell
    of the target.  [test] is the condition on the source position. *)
Fixpoint move_cells (fuel : nat) (test : point -> D bool) (source target : Viewport) (walkDirection : WalkDir)
    (sourcePos targetPos : point) (next : OutputCell) : D unit :=
  match fuel with
  | O => outOfFuel
  | S fuel =>
      let current := next in
      let sourcePos := (WalkInBounds source sourcePos walkDirection false).1 in
      next <- cell_at sourcePos ;;
      ok <- test sourcePos ;;
      (if ok : bool then write_one current targetPos else ret tt) ;;
      let '(targetPos, more) := WalkInBounds target targetPos walkDirection false in
      if more : bool then move_cells fuel test source target walkDirection sourcePos targetPos next else ret tt
  end.

Definition move_view (test : point -> D bool) (source target : Viewport) : D unit :=
  let walkDirection := DetermineWalkDirection source target in
  let sourcePos := GetWalkOrigin source walkDirection in
  let targetPos := GetWalkOrigin target walkDirection in
  next <- cell_at sourcePos ;;
  move_cells (Z.to_nat (cells target)) test source target walkDirection sourcePos targetPos next.

Definition _ScrollRectHorizontally (scrollRect : rect) (delta : Z) : D unit :=
  w <- get_result (fun _ => rect_width scrollRect) ;;
  h <- get_result (fun _ => rect_height scrollRect) ;;
  let absoluteDelta := Z.min (Z.abs delta) w in
  (if absoluteDelta <? w then
     let left_ := if 0 <? delta then left scrollRect else left scrollRect + absoluteDelta in
     let width := w - absoluteDelta in
     let actualDelta := if 0 <? delta then absoluteDelta else - absoluteDelta in
     let source := FromDimensionsAt (Point left_ (top scrollRect)) width h in
     let target := Offset source (Point actualDelta 0) in
     move_view (fun _ => ret true) source target
   else ret tt) ;;
  let eraseLeft := if 0 <? delta then left scrollRect else right scrollRect - absoluteDelta in
  attrs <- eraseAttributes ;;
  _FillRect (Rect eraseLeft (top scrollRect) (eraseLeft + absoluteDelta) (bottom scrollRect)) 0x20 attrs.

Definition _InsertDeleteCharacterHelper (delta : VTInt) : D unit :=
  p <- cursor_get _cPosition ;;
  endCol <- buf_read (GetLineWidth (y p)) ;;
  _ScrollRectHorizontally (Rect (x p) (y p) endCol (y p + 1)) delta.

Definition InsertCharacter (count : VTInt) : D bool := _InsertDeleteCharacterHelper count ;; ret true.
Definition DeleteCharacter (count : VTInt) : D bool := _InsertDeleteCharacterHelper (- count) ;; ret true.

Definition _ScrollMovement (delta : VTInt) : D unit :=
  viewport <- ask GetViewport ;;
  bufferWidth <- buf_get (fun tb => Width (GetSize tb)) ;;
  margins <- _GetVerticalMargins viewport true ;;
  _ScrollRectVertically (Rect 0 (fst margins) bufferWidth (snd margins + 1)) delta.

Definition ScrollUp (distance : VTInt) : D bool := _ScrollMovement (- distance) ;; ret true.
Definition ScrollDown (distance : VTInt) : D bool := _ScrollMovement distance ;; ret true.

Definition _InsertDeleteLineHelper (delta : Z) : D unit :=
  viewport <- ask GetViewport ;;
  bufferWidth <- buf_get (fun tb => Width (GetSize tb)) ;;
  p <- cursor_get _cPosition ;;
  let row := y p in
  margins <- _GetVerticalMargins viewport true ;;
  if (fst margins <=? row) && (row <=? snd margins) then
    _ScrollRectVertically (Rect 0 row bufferWidth (snd margins + 1)) delta ;;
    cursor (SetXPosition 0) ;;
    _ApplyCursorMovementFlags
  else ret tt.

Definition InsertLine (distance : VTInt) : D bool := _InsertDeleteLineHelper distance ;; ret true.
Definition DeleteLine (distance : VTInt) : D bool := _InsertDeleteLineHelper (- distance) ;; ret true.

Definition ReverseLineFeed : D bool :=
  viewport <- ask GetViewport ;;
  p <- cursor_get _cPosition ;;
  margins <- _GetVerticalMargins viewport true ;;
  (if y p =? fst margins then
     bufferWidth <- buf_get (fun tb => Width (GetSize tb)) ;;
     _ScrollRectVertically (Rect 0 (fst margins) bufferWidth (snd margins + 1)) 1
   else if top viewport <? y p then
     q <- buf_read (ClampPositionWithinLine (Point (x p) (y p - 1))) ;;
     cursor (SetPosition q) ;;
     _ApplyCursorMovementFlags
   else ret tt) ;;
  ret true.

(** ** Printing *)

(** [while (measureIt && measureIt.GetCellDistance(it) < lineWidth) measureIt++]. *)
Fixpoint measure (fuel : nat) (lineWidth : Z) (it measureIt : OutputCellIterator) : OutputCellIterator :=
  match fuel with
  | O => measureIt
  | S fuel =>
      if iterator_valid measureIt && (GetCellDistance measureIt it <? lineWidth)
      then measure fuel lineWidth it (iterator_next statics measureIt) else measureIt
  end.

(** The loop of [_WriteToBuffer] over what is left of the string. *)
Fixpoint write_text (fuel : nat) (wrapAtEOL : bool) (attributes : TextAttribute) (string : wstring)
    (cursorPosition : point) (lineWidth : Z) : D unit :=
  match string with
  | [] => ret tt
  | _ =>
      match fuel with
      | O => outOfFuel
      | S fuel =>
          delayed <- cursor_get _fDelayedEolWrap ;;
          pos <-
            (if delayed && wrapAtEOL then
               delayedCursorPosition <- cursor_get _coordDelayedAt ;;
               cursor ResetDelayEOLWrap ;;
               if bool_decide (delayedCursorPosition = cursorPosition) then
                 api (api_LineFeed true true) ;;
                 cursorPosition <- cursor_get _cPosition ;;
                 lineWidth <- buf_read (GetLineWidth (y cursorPosition)) ;;
                 ret (cursorPosition, lineWidth)
               else ret (cursorPosition, lineWidth)
             else ret (cursorPosition, lineWidth)) ;;
          let '(cursorPosition, lineWidth) := pos in
          let it := iterator_of_text_attr string attributes 0 in
          insert <- test_mode InsertReplace ;;
          (if insert : bool then
             let measureIt := measure (Z.to_nat lineWidth) lineWidth it it in
             let row := y cursorPosition in
             let cellCount := GetCellDistance measureIt it in
             _ScrollRectHorizontally (Rect (x cursorPosition) row lineWidth (row + 1)) cellCount
           else ret tt) ;;
          itEnd <- buf_WriteLine it cursorPosition (Some wrapAtEOL) (Some (lineWidth - 1)) ;;
          res <-
            (if GetInputDistance itEnd it =? 0 then
               ret (Point lineWidth (y cursorPosition), if wrapAtEOL then string else drop 1 string)
             else
               let cellCount := GetCellDistance itEnd it in
               changedRect <- get_result (fun _ => rect_at cursorPosition (Size cellCount 1)) ;;
               api (NotifyAccessibilityChange changedRect) ;;
               ret (Point (x cursorPosition + cellCount) (y cursorPosition),
                    drop (Z.to_nat (GetInputDistance itEnd it)) string)) ;;
          let '(cursorPosition, string) := res in
          (if lineWidth <=? x cursorPosition then
             let cursorPosition := Point (lineWidth - 1) (y cursorPosition) in
             cursor (SetPosition cursorPosition) ;;
             (if wrapAtEOL then cursor (DelayEOLWrap cursorPosition) else ret tt) ;;
             write_text fuel wrapAtEOL attributes string cursorPosition lineWidth
           else
             cursor (SetPosition cursorPosition) ;;
             write_text fuel wrapAtEOL attributes string cursorPosition lineWidth)
      end
  end.

Definition _WriteToBuffer (string : wstring) : D unit :=
  cursorPosition <- cursor_get _cPosition ;;
  wrapAtEOL <- ask GetAutoWrapMode ;;
  attributes <- buf_get GetCurrentAttributes ;;
  cursor (SetIsOn false) ;;
  lineWidth <- buf_read (GetLineWidth (y cursorPosition)) ;;
  rows <- buf_get TotalRowCount ;;
  write_text (length string * (Z.to_nat rows + 2)) wrapAtEOL attributes string cursorPosition lineWidth ;;
  _ApplyCursorMovementFlags ;;
  buf (TriggerNewTextNotification string).

(** A call of the object that translates characters. *)
Definition termOut {A} (m : M TerminalOutput A) : D A := fun a =>
  let '(t, r) := m (_termOutput a) in (set_termOutput t a, r).

Definition Print (wchPrintable : wchar) : D unit :=
  wchTranslated <- termOut (TermOut.TranslateKey wchPrintable) ;;
  if negb (wchTranslated =? AsciiChars.DEL) then _WriteToBuffer [wchTranslated] else ret tt.

Fixpoint translate (string : wstring) : D wstring :=
  match string with
  | [] => ret []
  | wch :: string =>
      c <- termOut (TermOut.TranslateKey wch) ;;
      rest <- translate string ;;
      ret (c :: rest)
  end.

Definition PrintString (string : wstring) : D unit :=
  need <- get (fun a => TermOut.NeedToTranslate (_termOutput a)) ;;
  if need : bool then
    buffer <- translate string ;;
    _WriteToBuffer buffer
  else _WriteToBuffer string.

End Adapt.
End Adapt.
