(* ===== verification/AdaptScreen.v ===== *)
(** * The adapter on a screen

    The reasoning principles for the adapter over any terminal that satisfies the laws of
    the interface: a [screen] is the page the text buffer shows with the place at which a
    wrap is pending, [on_screen] relates an adapter to it, [quiet] is what an operation on
    the screen leaves alone, and [does] is the triple that composes. *)

From S2P Require Import Prelude Effects EnumSet DispatchTypes StateMachine Geometry LineRendition Viewport TextColor TextAttribute Row RowWrite CodepointWidth OutputCells Cursor TextBuffer TextBufferSpec TextBufferPage TerminalOutput TerminalInput RenderSettings TerminalApi AdaptDispatch.

Local Open Scope Z_scope.

Record screen := mkScreen {
  sc_page : page;
  sc_delay : option point
}.

Definition delay_of (c : Cursor) : option point := if _fDelayedEolWrap c then Some (_coordDelayedAt c) else None.

Record screen_of (tb : TextBuffer) (s : screen) : Prop := {
  so_page : page_of tb (sc_page s);
  so_delay : delay_of (_cursor tb) = sc_delay s
}.

(** The cursor moved, which forgets a pending wrap. *)
Definition move_to (p : point) (s : screen) : screen := mkScreen (set_pg_cursor p (sc_page s)) None.

(** ** The cursor of the buffer *)

(** Operations on the cursor that neither move it nor touch a pending wrap. *)
Definition stays (op : CursorOp) : Prop :=
  forall c, _cPosition (op c).1 = _cPosition c /\ delay_of (op c).1 = delay_of c.

Lemma stays_flag op tb s : stays op -> screen_of tb s -> exists tb', with_cursor op tb = (tb', Ok tt) /\ screen_of tb' s.
Proof.
  intros Hop [[H1 H2 H3] Hd]. destruct (with_cursor_same op tb) as (tb' & E & S). exists tb'. split; [done|].
  destruct (Hop (_cursor tb)) as [Hp Hq]. split.
  - eapply page_same; [|exact S]. split; [by apply set_cursor_holds|by rewrite <- H2|done].
  - unfold same_page in S. rewrite S. cbn. by rewrite Hq.
Qed.

Lemma move_screen f tb s :
  screen_of tb s ->
  exists tb', with_cursor (moving f) tb = (tb', Ok tt) /\ screen_of tb' (move_to (f (pg_cursor (sc_page s))) s).
Proof.
  intros [Hpg Hd]. destruct (page_move f tb _ Hpg) as (tb' & E & H'). exists tb'. split; [done|]. split; [done|].
  destruct (with_cursor_same (moving f) tb) as (tb2 & E2 & S). rewrite E in E2. simplify_eq.
  unfold same_page in S. rewrite S. cbn [set_requests set_cursor _cursor move_to sc_delay].
  unfold moving. generalize (cursor_seq (cursor_seq _RedrawCursor (cursor_pure (fun c => set_cPosition (f (_cPosition c)) c))) _RedrawCursor).
  intros op. unfold cursor_seq. destruct (op (_cursor tb)) as [c l]. by destruct c.
Qed.

Lemma request_screen r tb s : screen_of tb s -> exists tb', request r tb = (tb', Ok tt) /\ screen_of tb' s.
Proof.
  intros [Hp Hd]. destruct (request_same r tb) as (tb' & E & Hs). exists tb'. split; [done|]. split; [by eapply page_same|].
  unfold same_page in Hs. by rewrite Hs.
Qed.

Lemma stays_SetDelay b : stays (SetDelay b).
Proof. by intros c. Qed.

Lemma stays_SetIsOn b : stays (SetIsOn b).
Proof. by intros c. Qed.

Lemma stays_SetHasMoved b : stays (SetHasMoved b).
Proof. by intros c. Qed.

Create HintDb screen.
#[export] Hint Resolve stays_SetDelay stays_SetIsOn stays_SetHasMoved : screen.

(** ** The adapter *)

Section Screen.
Context {W : Type} `{ApiLaws W}.

#[local] Abbreviation D := (M (Adapter W)).

Definition buffer_of (a : Adapter W) : TextBuffer := GetTextBuffer (world a).
Definition viewport_of (a : Adapter W) : rect := GetViewport (world a).
Definition on_screen (a : Adapter W) (s : screen) : Prop := screen_of (buffer_of a) s.

(** The margins the adapter works with: those that do not fit the viewport are dropped. *)
Definition effective (vp : rect) (m : inclusive_rect) : inclusive_rect :=
  if Geometry.bottom vp - top vp - 1 <=? ir_top m then InclusiveRect (ir_left m) 0 (ir_right m) 0 else m.

(** What an operation on the screen leaves alone: everything but the text buffer, and the
    margins, which it may drop when they do not fit. *)
Definition quiet (a a' : Adapter W) : Prop :=
  exists w tb m, a' = set_margins m (set_world w a) /\ TerminalApi.view w = vset_buffer tb (TerminalApi.view (world a)) /\
    (m = _scrollMargins a \/ m = effective (viewport_of a) (_scrollMargins a)).

Lemma view_viewport w w' tb : TerminalApi.view w' = vset_buffer tb (TerminalApi.view w) -> GetViewport w' = GetViewport w.
Proof. intros E. apply (f_equal v_viewport) in E. exact E. Qed.

Lemma effective_idem vp m : effective vp (effective vp m) = effective vp m.
Proof. unfold effective. destruct (Z.leb_spec (Geometry.bottom vp - top vp - 1) (ir_top m)); cbn; repeat (case_match; try done); lia. Qed.

#[global] Instance quiet_preorder : PreOrder quiet.
Proof.
  split.
  - intros a. exists (world a), (buffer_of a), (_scrollMargins a). split_and!; [by destruct a|done|by left].
  - intros a1 a2 a3 (w1 & tb1 & m1 & -> & V1 & M1) (w2 & tb2 & m2 & -> & V2 & M2).
    exists w2, tb2, m2. split_and!; [by destruct a1|by rewrite V2; cbn; rewrite V1|].
    cbn in M2. unfold viewport_of in *. cbn in M2. rewrite (view_viewport _ _ _ V1) in M2.
    destruct M1 as [-> | ->], M2 as [-> | ->]; rewrite ?effective_idem; auto.
Qed.

(** Only the text buffer changes. *)
Definition only_buffer (a a' : Adapter W) : Prop :=
  exists w tb, a' = set_world w a /\ TerminalApi.view w = vset_buffer tb (TerminalApi.view (world a)).

(** A relation that says what an operation may change, the text buffer at least. *)
Class Frame (R : Adapter W -> Adapter W -> Prop) := {
  frame_preorder :: PreOrder R;
  frame_buffer a a' : only_buffer a a' -> R a a'
}.

#[global] Instance only_buffer_frame : Frame only_buffer.
Proof.
  split; [split|done].
  - intros a. exists (world a), (buffer_of a). by destruct a.
  - intros a1 a2 a3 (w1 & tb1 & -> & V1) (w2 & tb2 & -> & V2). exists w2, tb2. split; [by destruct a1|]. by rewrite V2; cbn; rewrite V1.
Qed.

#[global] Instance quiet_frame : Frame quiet.
Proof.
  split; [apply _|]. intros a a' (w & tb & -> & V). exists w, tb, (_scrollMargins a). split_and!; [by destruct a|done|by left].
Qed.

(** The computation succeeds with a value, on a screen, and changes what [R] allows. *)
Definition does_in {A} (R : Adapter W -> Adapter W -> Prop) (m : D A) (a : Adapter W) (v : A) (s : screen) : Prop :=
  exists a', m a = (a', Ok v) /\ on_screen a' s /\ R a a'.

Section Does.
Context {R : Adapter W -> Adapter W -> Prop} `{!Frame R}.

#[local] Abbreviation does := (does_in R).

Lemma does_ret {A} a (v : A) s : on_screen a s -> does (ret v) a v s.
Proof. intros Hs. exists a. by split_and!. Qed.

Lemma does_bind {A B} (m : D A) (k : A -> D B) a v s u s' :
  does m a v s -> (forall a1, on_screen a1 s -> R a a1 -> does (k v) a1 u s') -> does (bind m k) a u s'.
Proof.
  intros (a1 & E & Hs & Hq) Hk. destruct (Hk a1 Hs Hq) as (a2 & E2 & Hs2 & Hq2).
  exists a2. split_and!; [by rewrite (bind_Ok _ _ _ _ _ E)|done|by etrans].
Qed.

Lemma does_get {A B} (f : Adapter W -> A) (k : A -> D B) a u s' :
  does (k (f a)) a u s' -> does (bind (get f) k) a u s'.
Proof. done. Qed.

Lemma does_result {A B} (f : Adapter W -> Result A) (k : A -> D B) a v u s' :
  f a = Ok v -> does (k v) a u s' -> does (bind (get_result f) k) a u s'.
Proof. intros E Hk. unfold bind, get_result, does_in. rewrite E. exact Hk. Qed.

Lemma does_buf {A} (m : M TextBuffer A) a v s :
  (exists tb, m (buffer_of a) = (tb, Ok v) /\ screen_of tb s) -> does (Adapt.buf m) a v s.
Proof.
  intros (tb & E & Hs). exists (set_world (PutTextBuffer tb (world a)) a). unfold Adapt.buf. fold (buffer_of a). rewrite E.
  pose proof (buffer_put tb (world a)) as V. split_and!; [done| |].
  - unfold on_screen, buffer_of. cbn. apply (f_equal v_buffer) in V. cbn in V. by rewrite V.
  - apply frame_buffer. by exists (PutTextBuffer tb (world a)), tb.
Qed.

Lemma does_api m a s : effect m id -> on_screen a s -> does (Adapt.api m) a tt s.
Proof.
  intros He Hs. destruct (He (world a)) as (w & E & V). exists (set_world w a). unfold Adapt.api. rewrite E.
  split_and!; [done| |].
  - unfold on_screen, buffer_of in *. apply (f_equal v_buffer) in V. cbn in V. cbn. by rewrite V.
  - apply frame_buffer. exists w, (buffer_of a). by rewrite V.
Qed.

Lemma does_flag op a s : stays op -> on_screen a s -> does (Adapt.cursor op) a tt s.
Proof. intros Hop Hs. apply does_buf. by apply stays_flag. Qed.

Lemma does_move f a s :
  on_screen a s -> does (Adapt.cursor (moving f)) a tt (move_to (f (pg_cursor (sc_page s))) s).
Proof. intros Hs. apply does_buf. by apply move_screen. Qed.

Lemma does_set_position p a s : on_screen a s -> does (Adapt.cursor (SetPosition p)) a tt (move_to p s).
Proof. intros Hs. by apply (does_move (fun _ => p)). Qed.

Lemma does_movement_flags a s : on_screen a s -> does Adapt._ApplyCursorMovementFlags a tt s.
Proof.
  intros Hs. unfold Adapt._ApplyCursorMovementFlags.
  eapply does_bind; [apply does_flag; [auto with screen|exact Hs]|intros a1 H1 _].
  eapply does_bind; [apply does_flag; [auto with screen|exact H1]|intros a2 H2 _].
  apply does_flag; [auto with screen|exact H2].
Qed.

End Does.

(** ** What the adapter reads *)

Lemma quiet_viewport a a' : quiet a a' -> viewport_of a' = viewport_of a.
Proof. intros (w & tb & m & -> & V & _). exact (view_viewport _ _ _ V). Qed.

Lemma quiet_modes a a' : quiet a a' -> _modes a' = _modes a.
Proof. by intros (w & tb & m & -> & V & _). Qed.

Lemma screen_cursor a s : on_screen a s -> _cPosition (_cursor (GetTextBuffer (world a))) = pg_cursor (sc_page s).
Proof. intros [Hp _]. apply (po_cursor _ _ Hp). Qed.

Lemma screen_width a s : on_screen a s -> Width (GetSize (GetTextBuffer (world a))) = Z.of_nat (pg_width (sc_page s)).
Proof. intros [Hp _]. apply (Width_holds _ _ _ (po_holds _ _ Hp)). Qed.

Lemma screen_attributes a s : on_screen a s -> GetCurrentAttributes (GetTextBuffer (world a)) = pg_attrs (sc_page s).
Proof. intros [Hp _]. apply (po_attrs _ _ Hp). Qed.

(** The width of a line of the page, in columns. *)
Definition width_at (pg : page) (row : Z) : Z :=
  match pg_lines pg !! Z.to_nat row with Some l => Z.of_nat (line_width (pg_width pg) l) | None => 0 end.

Lemma screen_line_width a s row :
  on_screen a s -> 0 <= row < Z.of_nat (length (pg_lines (sc_page s))) ->
  GetLineWidth row (GetTextBuffer (world a)) = Ok (width_at (sc_page s) row).
Proof.
  intros [Hp _] Hr. destruct (lookup_lt_is_Some_2 (pg_lines (sc_page s)) (Z.to_nat row)) as [l Hl]; [lia|].
  unfold width_at. rewrite Hl. rewrite <- (Z2Nat.id row) at 1 by lia. by apply (GetLineWidth_holds _ _ _ (po_holds _ _ Hp)).
Qed.

(** ** Margins *)

#[local] Abbreviation does := (does_in quiet).

Definition vertical_margins (vp : rect) (m : inclusive_rect) : Z * Z :=
  let m := effective vp m in
  let bottommost := Geometry.bottom vp - top vp - 1 in
  if ir_top m <? ir_bottom m then (ir_top m, Z.min (ir_bottom m) bottommost) else (0, bottommost).

Definition margins_of (a : Adapter W) : Z * Z := vertical_margins (viewport_of a) (_scrollMargins a).

Lemma margins_ordered a : 0 <= ir_top (_scrollMargins a) -> top (viewport_of a) < Geometry.bottom (viewport_of a) ->
  0 <= fst (margins_of a) <= snd (margins_of a) /\
  snd (margins_of a) <= Geometry.bottom (viewport_of a) - top (viewport_of a) - 1.
Proof.
  intros Ht Hv. unfold margins_of, vertical_margins, effective.
  destruct (Z.leb_spec (Geometry.bottom (viewport_of a) - top (viewport_of a) - 1) (ir_top (_scrollMargins a))); cbn [ir_top ir_bottom].
  - cbn. lia.
  - case_match eqn:E; cbn [fst snd]; [apply Z.ltb_lt in E|]; lia.
Qed.

Lemma quiet_margins a a' : quiet a a' -> margins_of a' = margins_of a.
Proof.
  intros Hq. unfold margins_of. rewrite (quiet_viewport _ _ Hq). destruct Hq as (w & tb & m & -> & V & [-> | ->]); [done|].
  cbn. unfold vertical_margins. by rewrite effective_idem.
Qed.

Lemma does_margins a s absolute :
  on_screen a s ->
  does (Adapt._GetVerticalMargins (viewport_of a) absolute) a
    (if absolute then (fst (margins_of a) + top (viewport_of a), snd (margins_of a) + top (viewport_of a)) else margins_of a) s.
Proof.
  intros Hs. unfold Adapt._GetVerticalMargins. cbv zeta. apply does_get.
  set (bm := Geometry.bottom (viewport_of a) - top (viewport_of a) - 1).
  assert (Hb : exists a1, (if bm <=? ir_top (_scrollMargins a)
     then modify (set_margins (InclusiveRect (ir_left (_scrollMargins a)) 0 (ir_right (_scrollMargins a)) 0)) ;;
          Adapt.api (SetScrollingRegion (InclusiveRect (ir_left (_scrollMargins a)) 0 (ir_right (_scrollMargins a)) 0))
     else ret tt) a = (a1, Ok tt) /\ on_screen a1 s /\ quiet a a1 /\
       _scrollMargins a1 = effective (viewport_of a) (_scrollMargins a)).
  { unfold effective. fold bm. destruct (bm <=? ir_top (_scrollMargins a)) eqn:E; [|by exists a].
    match goal with |- context [set_margins ?m] => set (m0 := m) end.
    assert (Hq : quiet a (set_margins m0 a)).
    { exists (world a), (buffer_of a), m0. split_and!; [by destruct a|done|]. right. unfold effective. fold bm. by rewrite E. }
    destruct (does_api (SetScrollingRegion m0) (set_margins m0 a) s (region_quiet m0) Hs) as (a1 & E1 & H1 & Q1).
    exists a1. split_and!; [exact E1|done|by etrans|].
    unfold Adapt.api in E1. destruct (SetScrollingRegion m0 _) as [w r]. by simplify_eq/=. }
  destruct Hb as (a1 & E1 & H1 & Q1 & M1). exists a1. rewrite (bind_Ok _ _ _ _ _ E1).
  split_and!; [|done..]. unfold bind, get. rewrite M1. unfold ret, margins_of, vertical_margins. cbv zeta. fold bm.
  destruct (ir_top _ <? ir_bottom _) eqn:E; cbn [fst snd]; rewrite ?Z.min_id; by destruct absolute.
Qed.

End Screen.
