(* ===== verification/AdaptCursor.v ===== *)
(** * The adapter: movements of the cursor

    The movements of src/src/terminal/adapter/adaptDispatch.cpp against a reference that
    moves the cursor one step at a time, as the manuals the code quotes describe it: "The
    cursor stops at the top margin. If the cursor is already above the top margin, then the
    cursor stops at the top line." *)

From S2P Require Import Prelude Effects EnumSet DispatchTypes StateMachine Geometry LineRendition Viewport TerminalInput TextColor TextAttribute Row TerminalOutput CodepointWidth OutputCells RowWrite Cursor TextBuffer TextBufferSpec TextBufferPage TextBufferRefine RenderSettings TerminalApi AdaptDispatch AdaptScreen.

Local Open Scope Z_scope.

(** Distances count from 0, positions from the first row and column, which is 0 here and 1
    in a sequence. *)
Inductive cursor_move :=
| CUU (n : nat) | CUD (n : nat) | CUF (n : nat) | CUB (n : nat) | CNL (n : nat) | CPL (n : nat)
| CHA (column : nat) | VPA (line : nat) | HPR (n : nat) | VPR (n : nat) | CUP (line column : nat) | CR.

Definition cursor_move_run {W} `{ITerminalApi W} (mv : cursor_move) : M (Adapter W) bool :=
  let param k := Z.of_nat (S k) in
  match mv with
  | CUU n => Adapt.CursorUp (Z.of_nat n)
  | CUD n => Adapt.CursorDown (Z.of_nat n)
  | CUF n => Adapt.CursorForward (Z.of_nat n)
  | CUB n => Adapt.CursorBackward (Z.of_nat n)
  | CNL n => Adapt.CursorNextLine (Z.of_nat n)
  | CPL n => Adapt.CursorPrevLine (Z.of_nat n)
  | CHA c => Adapt.CursorHorizontalPositionAbsolute (param c)
  | VPA l => Adapt.VerticalLinePositionAbsolute (param l)
  | HPR n => Adapt.HorizontalPositionRelative (Z.of_nat n)
  | VPR n => Adapt.VerticalPositionRelative (Z.of_nat n)
  | CUP l c => Adapt.CursorPosition (param l) (param c)
  | CR => Adapt.CarriageReturn
  end.

(** ** The reference *)

(** The rows that matter: the first and last of the viewport, and the margins. *)
Record rows := mkRows {
  first_row : Z;
  last_row : Z;
  top_margin : Z;
  bottom_margin : Z;
  origin_mode : bool
}.

Definition step_up (g : rows) (row : Z) : Z := if (row =? top_margin g) || (row =? first_row g) then row else row - 1.
Definition step_down (g : rows) (row : Z) : Z := if (row =? bottom_margin g) || (row =? last_row g) then row else row + 1.
Definition step_down_freely (g : rows) (row : Z) : Z := if row =? last_row g then row else row + 1.
Definition step_right (w : Z) (col : Z) : Z := if col =? w - 1 then col else col + 1.
Definition step_left (col : Z) : Z := if col =? 0 then col else col - 1.

(** The row of an absolute line: counted from the viewport, or in origin mode from the top
    margin, and then no further than the bottom margin. *)
Definition absolute_row (g : rows) (row : Z) (line : nat) : Z :=
  if origin_mode g then Z.min (top_margin g + Z.of_nat line) (if row <=? bottom_margin g then bottom_margin g else last_row g)
  else Z.min (first_row g + Z.of_nat line) (last_row g).

Definition target_row (g : rows) (mv : cursor_move) (row : Z) : Z :=
  match mv with
  | CUU n | CPL n => Nat.iter n (step_up g) row
  | CUD n | CNL n => Nat.iter n (step_down g) row
  | VPR n => Nat.iter n (if origin_mode g then step_down g else step_down_freely g) row
  | VPA l | CUP l _ => absolute_row g row l
  | _ => row
  end.

(** The column, on a line of [w] columns. *)
Definition target_column (w : Z) (mv : cursor_move) (col : Z) : Z :=
  match mv with
  | CUF n | HPR n => Nat.iter n (step_right w) col
  | CUB n => Nat.iter n step_left col
  | CNL _ | CPL _ | CR => 0
  | CHA c | CUP _ c => Z.min (Z.of_nat c) (w - 1)
  | _ => Z.min col (w - 1)
  end.

Definition target (g : rows) (pg : page) (mv : cursor_move) : point :=
  let row := target_row g mv (y (pg_cursor pg)) in
  Point (target_column (width_at pg row) mv (x (pg_cursor pg))) row.

(** Where the cursor is at home: in the viewport and within its line. *)
Definition in_view (g : rows) (pg : page) : Prop :=
  first_row g <= y (pg_cursor pg) <= last_row g /\ 0 <= x (pg_cursor pg) < width_at pg (y (pg_cursor pg)).

Definition rows_ok (g : rows) (pg : page) : Prop :=
  0 <= first_row g <= last_row g /\ last_row g < Z.of_nat (length (pg_lines pg)) /\
  first_row g <= top_margin g <= bottom_margin g /\ bottom_margin g <= last_row g /\ (1 < pg_width pg)%nat.

(** ** Steps *)

Lemma iter_up g row n : first_row g <= row <= last_row g -> first_row g <= top_margin g ->
  Nat.iter n (step_up g) row =
    (if top_margin g <=? row then Z.max (row - Z.of_nat n) (top_margin g) else Z.max (row - Z.of_nat n) (first_row g)).
Proof.
  intros Hr Hm. induction n as [|n IH]; [cbn; destruct (Z.leb_spec (top_margin g) row); lia|].
  change (Nat.iter (S n) (step_up g) row) with (step_up g (Nat.iter n (step_up g) row)). rewrite IH. unfold step_up.
  destruct (Z.leb_spec (top_margin g) row); repeat match goal with |- context [?a =? ?b] => destruct (Z.eqb_spec a b) end; cbn; lia.
Qed.

Lemma iter_down g row n : first_row g <= row <= last_row g -> bottom_margin g <= last_row g ->
  Nat.iter n (step_down g) row =
    (if row <=? bottom_margin g then Z.min (row + Z.of_nat n) (bottom_margin g) else Z.min (row + Z.of_nat n) (last_row g)).
Proof.
  intros Hr Hm. induction n as [|n IH]; [cbn; destruct (Z.leb_spec row (bottom_margin g)); lia|].
  change (Nat.iter (S n) (step_down g) row) with (step_down g (Nat.iter n (step_down g) row)). rewrite IH. unfold step_down.
  destruct (Z.leb_spec row (bottom_margin g)); repeat match goal with |- context [?a =? ?b] => destruct (Z.eqb_spec a b) end; cbn; lia.
Qed.

Lemma iter_down_freely g row n : first_row g <= row <= last_row g ->
  Nat.iter n (step_down_freely g) row = Z.min (row + Z.of_nat n) (last_row g).
Proof.
  intros Hr. induction n as [|n IH]; [cbn; lia|].
  change (Nat.iter (S n) (step_down_freely g) row) with (step_down_freely g (Nat.iter n (step_down_freely g) row)).
  rewrite IH. unfold step_down_freely. destruct (Z.eqb_spec (Z.min (row + Z.of_nat n) (last_row g)) (last_row g)); lia.
Qed.

Lemma iter_right w col n : 0 <= col < w -> Nat.iter n (step_right w) col = Z.min (col + Z.of_nat n) (w - 1).
Proof.
  intros Hc. induction n as [|n IH]; [cbn; lia|].
  change (Nat.iter (S n) (step_right w) col) with (step_right w (Nat.iter n (step_right w) col)). rewrite IH. unfold step_right.
  destruct (Z.eqb_spec (Z.min (col + Z.of_nat n) (w - 1)) (w - 1)); lia.
Qed.

Lemma iter_left col n : 0 <= col -> Nat.iter n step_left col = Z.max (col - Z.of_nat n) 0.
Proof.
  intros Hc. induction n as [|n IH]; [cbn; lia|].
  change (Nat.iter (S n) step_left col) with (step_left (Nat.iter n step_left col)). rewrite IH. unfold step_left.
  destruct (Z.eqb_spec (Z.max (col - Z.of_nat n) 0) 0); lia.
Qed.

Lemma target_row_range g pg mv : rows_ok g pg -> in_view g pg -> first_row g <= target_row g mv (y (pg_cursor pg)) <= last_row g.
Proof.
  intros (Hf & Hl & Ht & Hb & _) [Hy _].
  destruct mv; cbn [target_row]; unfold absolute_row; try destruct (origin_mode g);
    rewrite ?iter_up, ?iter_down, ?iter_down_freely by lia; repeat case_match; lia.
Qed.

Lemma width_at_bounds pg row : (1 < pg_width pg)%nat -> 0 <= row < Z.of_nat (length (pg_lines pg)) ->
  1 <= width_at pg row <= Z.of_nat (pg_width pg).
Proof.
  intros Hw Hr. unfold width_at. destruct (lookup_lt_is_Some_2 (pg_lines pg) (Z.to_nat row)) as [l Hl]; [lia|]. rewrite Hl.
  pose proof (line_width_pos (pg_width pg) l Hw). split; [lia|]. unfold line_width. destruct (bool_decide _); [done|].
  apply inj_le, Nat.lt_le_incl, Nat.div_lt; lia.
Qed.

Lemma target_in_view g pg mv : rows_ok g pg -> in_view g pg -> in_view g (set_pg_cursor (target g pg mv) pg).
Proof.
  intros Hok Hin. pose proof (target_row_range g pg mv Hok Hin) as Hr. destruct Hok as (Hf & Hl & _ & _ & Hw), Hin as [Hy Hx].
  split; [done|]. cbn [set_pg_cursor pg_cursor x y target]. set (row := target_row g mv (y (pg_cursor pg))) in *.
  change (width_at (set_pg_cursor (target g pg mv) pg)) with (width_at pg).
  pose proof (width_at_bounds pg row Hw) as Hb.
  assert (E : match mv with CUF _ | HPR _ | CUB _ => row = y (pg_cursor pg) | _ => True end) by (by destruct mv).
  destruct mv; cbn [target_column]; rewrite ?E in *; rewrite ?iter_right, ?iter_left by lia; lia.
Qed.

(** ** The code *)

Section Moves.
Context {W : Type} `{ApiLaws W}.

#[local] Abbreviation does := (does_in quiet).

(** The rows as the adapter sees them. *)
Definition rows_of_adapter (a : Adapter W) : rows :=
  let vp := viewport_of a in
  mkRows (top vp) (Geometry.bottom vp - 1) (fst (margins_of a) + top vp) (snd (margins_of a) + top vp)
    (enumset_test (_modes a) Origin).

Lemma quiet_rows a a' : quiet a a' -> rows_of_adapter a' = rows_of_adapter a.
Proof.
  intros Hq. unfold rows_of_adapter. by rewrite (quiet_viewport _ _ Hq), (quiet_margins _ _ Hq), (quiet_modes _ _ Hq).
Qed.

Lemma does_clamp {B} v lo hi (k : Z -> M (Adapter W) B) a u s :
  lo <= hi -> does (k (Z.max lo (Z.min v hi))) a u s -> does (bind (Adapt.std_clamp v lo hi) k) a u s.
Proof. intros Hle Hd. unfold Adapt.std_clamp. by rewrite (proj2 (Z.ltb_ge hi lo)). Qed.

(** The arithmetic of a movement. *)
Definition offset_row (g : rows) (off : MoveOffset) (clamp : bool) (row : Z) : Z :=
  let base := if off_IsAbsolute off then (if origin_mode g then top_margin g else first_row g) else row in
  let r := Z.max (first_row g) (Z.min (base + off_Value off) (last_row g)) in
  if clamp || origin_mode g then
    let r := if top_margin g <=? row then Z.max r (top_margin g) else r in
    if row <=? bottom_margin g then Z.min r (bottom_margin g) else r
  else r.

Definition offset_column (w : Z) (off : MoveOffset) (col : Z) : Z :=
  Z.max 0 (Z.min ((if off_IsAbsolute off then 0 else col) + off_Value off) (w - 1)).

Lemma CursorMovePosition_does rowOffset colOffset clamp a s :
  on_screen a s -> let g := rows_of_adapter a in let pg := sc_page s in
  rows_ok g pg -> in_view g pg ->
  let row := offset_row g rowOffset clamp (y (pg_cursor pg)) in
  does (Adapt._CursorMovePosition rowOffset colOffset clamp) a true
    (move_to (Point (Z.min (offset_column (Z.of_nat (pg_width pg)) colOffset (x (pg_cursor pg))) (width_at pg row - 1)) row) s).
Proof.
  intros Hs g pg Hok Hin row. destruct Hok as (Hf & Hl & Ht & Hb & Hw). unfold Adapt._CursorMovePosition.
  apply does_get. fold (viewport_of a). apply does_get. rewrite (screen_cursor a s Hs). fold pg.
  eapply does_bind; [apply (does_margins a s true Hs)|intros a1 H1 Q1].
  apply does_get. rewrite (quiet_modes _ _ Q1). cbv zeta. apply does_get. rewrite (screen_width a1 s H1). fold pg.
  subst g. cbn [rows_of_adapter first_row last_row top_margin bottom_margin] in *.
  apply does_clamp; [lia|]. apply does_clamp; [lia|].
  match goal with |- context [ClampPositionWithinLine (Point _ ?r)] => assert (Hr : r = row) end.
  { unfold row, offset_row, rows_of_adapter. cbn [origin_mode first_row last_row top_margin bottom_margin].
    by destruct (off_IsAbsolute rowOffset), (enumset_test (_modes a) Origin), clamp. }
  rewrite Hr. assert (Hrow : 0 <= row < Z.of_nat (length (pg_lines pg))).
  { rewrite <- Hr. destruct Hin as [Hy _]. cbn [rows_of_adapter first_row last_row] in Hy. repeat case_match; lia. }
  eapply does_bind.
  { exists a1. unfold Adapt.buf_read, get_result, ClampPositionWithinLine. cbn [x y].
    rewrite (screen_line_width a1 s row H1 Hrow). fold pg. cbn [bindR]. by split_and!. }
  intros a2 H2 Q2. eapply does_bind; [apply (does_set_position _ a2 s H2)|intros a3 H3 Q3].
  eapply does_bind; [apply (does_movement_flags a3 _ H3)|intros a4 H4 Q4].
  unfold offset_column. fold pg in H4 |- *. by apply does_ret.
Qed.

Lemma cursor_move_does mv a s :
  on_screen a s -> rows_ok (rows_of_adapter a) (sc_page s) -> in_view (rows_of_adapter a) (sc_page s) ->
  does (cursor_move_run mv) a true (move_to (target (rows_of_adapter a) (sc_page s) mv) s).
Proof.
  intros Hs Hok Hin.
  assert (Hgo : forall r c clamp,
     cursor_move_run mv = Adapt._CursorMovePosition r c clamp ->
     offset_row (rows_of_adapter a) r clamp (y (pg_cursor (sc_page s))) = target_row (rows_of_adapter a) mv (y (pg_cursor (sc_page s))) ->
     (let w := width_at (sc_page s) (target_row (rows_of_adapter a) mv (y (pg_cursor (sc_page s)))) in
      Z.min (offset_column (Z.of_nat (pg_width (sc_page s))) c (x (pg_cursor (sc_page s)))) (w - 1) =
      target_column w mv (x (pg_cursor (sc_page s)))) ->
     does (cursor_move_run mv) a true (move_to (target (rows_of_adapter a) (sc_page s) mv) s)).
  { intros r c clamp -> Er Ec. pose proof (CursorMovePosition_does r c clamp a s Hs Hok Hin) as Hd. cbv zeta in Hd, Ec.
    by rewrite Er, Ec in Hd. }
  pose proof (target_row_range _ _ mv Hok Hin) as Hr.
  destruct Hok as (Hf & Hl & Ht & Hb & Hw), Hin as [Hy Hx].
  set (g := rows_of_adapter a) in *. set (pg := sc_page s) in *.
  pose proof (width_at_bounds pg (target_row g mv (y (pg_cursor pg))) Hw ltac:(lia)) as Hw1.
  pose proof (width_at_bounds pg (y (pg_cursor pg)) Hw ltac:(lia)) as Hw2.
  destruct mv; eapply Hgo; try reflexivity; cbn [target_row target_column] in *; unfold absolute_row in *;
    unfold offset_row, offset_column; cbn [off_IsAbsolute off_Value Backward Forward Unchanged Absolute]; cbv zeta; cbn [orb].
  all: rewrite ?iter_up, ?iter_down, ?iter_right, ?iter_left in * by lia; try lia.
  all: try (destruct (origin_mode g); rewrite ?iter_down, ?iter_down_freely in * by lia).
  all: repeat match goal with |- context [?u <=? ?v] => destruct (Z.leb_spec u v) end; try lia.
Qed.

Definition moves_on (g : rows) (ms : list cursor_move) (s : screen) : screen :=
  fold_left (fun s mv => move_to (target g (sc_page s) mv) s) ms s.

Lemma moves_does ms : forall a s,
  on_screen a s -> rows_ok (rows_of_adapter a) (sc_page s) -> in_view (rows_of_adapter a) (sc_page s) ->
  does (iterM (fun mv => cursor_move_run mv ;; ret tt) ms) a tt (moves_on (rows_of_adapter a) ms s) /\
  in_view (rows_of_adapter a) (sc_page (moves_on (rows_of_adapter a) ms s)).
Proof.
  induction ms as [|mv ms IH]; intros a s Hs Hok Hin; [split; [by apply does_ret|done]|].
  cbn [iterM]. destruct (cursor_move_does mv a s Hs Hok Hin) as (a1 & E1 & H1 & Q1).
  pose proof (target_in_view _ _ mv Hok Hin) as Hin1.
  rewrite <- (quiet_rows _ _ Q1) in Hok, Hin1 at 1.
  destruct (IH a1 _ H1 Hok Hin1) as [(a2 & E2 & H2 & Q2) Hin2]. rewrite (quiet_rows _ _ Q1) in H2, Hin2.
  split; [|exact Hin2]. exists a2. split_and!; [|exact H2|by etrans].
  rewrite bind_assoc. by rewrite (bind_Ok _ _ _ _ _ E1).
Qed.

End Moves.

(** C12. Every sequence of cursor movements, over any terminal that satisfies the laws of the
    interface, succeeds and leaves the cursor where single steps would: up and down stop at
    the margin when they start inside it and at the edge of the viewport when they start
    outside, left and right stop at the ends of the line, absolute rows count from the
    viewport or in origin mode from the top margin; the cursor stays in the viewport and
    within its line, a pending wrap is forgotten, and nothing else changes. *)
Theorem cursor_moves_step_by_step (W : Type) (api : ITerminalApi W) (laws : ApiLaws W)
    (a : Adapter W) (s : screen) (ms : list cursor_move) :
  on_screen a s -> rows_ok (rows_of_adapter a) (sc_page s) -> in_view (rows_of_adapter a) (sc_page s) ->
  exists a', iterM (fun mv => cursor_move_run mv ;; ret tt) ms a = (a', Ok tt) /\
    on_screen a' (moves_on (rows_of_adapter a) ms s) /\ quiet a a' /\
    in_view (rows_of_adapter a') (sc_page (moves_on (rows_of_adapter a) ms s)).
Proof.
  intros Hs Hok Hin. destruct (moves_does ms a s Hs Hok Hin) as [(a' & E & H' & Q) Hin'].
  exists a'. split_and!; [done..|]. by rewrite (quiet_rows _ _ Q).
Qed.

(** * The adapter: saved state and modes

    DECSC and DECRC, and the modes of src/src/terminal/adapter/adaptDispatch.cpp. *)

#[export] Instance ParserMode_eq_dec : EqDecision StateMachine.Mode.
Proof. solve_decision. Defined.

Section Saved.
Context {W : Type} `{ApiLaws W}.

(** What DECSC records of an adapter that shows a screen. *)
Definition recorded (a : Adapter W) (s : screen) : CursorState :=
  let p := pg_cursor (sc_page s) in
  mkCursorState (y p - top (viewport_of a) + 1) (x p + 1) (enumset_test (_modes a) Origin) (pg_attrs (sc_page s))
    (_termOutput a) (enumset_test (GetParserModes (world a)) AcceptC1) (GetConsoleOutputCP (world a)).

Lemma CursorSaveState_does a s : on_screen a s ->
  Adapt.CursorSaveState a = (Adapt.set_saved_state (recorded a s) a, Ok true).
Proof.
  intros Hs. unfold Adapt.CursorSaveState, bind, Adapt.ask, Adapt.buf_get, Adapt.cursor_get, Adapt.test_mode, Adapt.get_parser_mode,
    Adapt.buf_get, Adapt.ask, get, modify, ret, recorded, viewport_of.
  by rewrite (screen_cursor a s Hs), (screen_attributes a s Hs).
Qed.

(** The row in which a saved cursor comes back: relative to the viewport, and in origin mode
    between the margins. *)
Definition restored_row (g : rows) (saved : CursorState) : Z :=
  let row := cs_Row saved - 1 in
  if cs_IsOriginModeRelative saved then first_row g + Z.max (top_margin g - first_row g) (Z.min row (bottom_margin g - first_row g))
  else Z.min (first_row g + row) (last_row g).

Definition restored_position (g : rows) (pg : page) (saved : CursorState) : point :=
  let row := restored_row g saved in
  Point (Z.min (cs_Column saved - 1) (width_at pg row - 1)) row.

Definition set_attrs (attrs : TextAttribute) (s : screen) : screen := mkScreen (set_pg_attrs attrs (sc_page s)) (sc_delay s).

(** ** Restoring *)

Lemma bind_prefix {S A B C D} (m1 : M S A) (m2 : A -> M S B) (m3 : A -> B -> M S C) (k : C -> M S D) s s' c :
  (x <- m1 ;; y <- m2 x ;; m3 x y) s = (s', Ok c) -> (x <- m1 ;; y <- m2 x ;; z <- m3 x y ;; k z) s = k c s'.
Proof.
  unfold bind. destruct (m1 s) as [s1 []]; try done. destruct (m2 a s1) as [s2 []]; try done. by intros ->.
Qed.

Lemma adapter_mode_fits (m : AdaptMode) : fits m.
Proof. unfold fits. destruct m; cbn; lia. Qed.

Lemma mode_position_inj (m n : AdaptMode) : position m = position n -> m = n.
Proof. by destruct m, n. Qed.

Lemma parser_fits (m : StateMachine.Mode) : fits m.
Proof. unfold fits. destruct m; cbn; lia. Qed.

(** The cursor part of DECRC. *)
Lemma restore_cursor_does a s saved :
  on_screen a s -> rows_ok (rows_of_adapter a) (sc_page s) -> in_view (rows_of_adapter a) (sc_page s) ->
  1 <= cs_Row saved -> 1 <= cs_Column saved ->
  exists a', (row <- (if cs_IsOriginModeRelative saved then
        viewport <- Adapt.ask GetViewport ;;
        margins <- Adapt._GetVerticalMargins viewport false ;;
        Adapt.std_clamp (cs_Row saved) (fst margins + 1) (snd margins + 1)
      else ret (cs_Row saved)) ;;
      Adapt.reset_modes [Origin] ;;
      Adapt.CursorPosition row (cs_Column saved)) a = (a', Ok true) /\
    on_screen a' (move_to (restored_position (rows_of_adapter a) (sc_page s) saved) s) /\
    quiet (set_adapt_modes (enumset_reset (_modes a) [Origin]) a) a'.
Proof.
  intros Hs Hok Hin Hrow Hcol. set (g := rows_of_adapter a) in *.
  set (row := restored_row g saved - first_row g + 1).
  assert (Hr : exists a1, (if cs_IsOriginModeRelative saved then
        viewport <- Adapt.ask GetViewport ;;
        margins <- Adapt._GetVerticalMargins viewport false ;;
        Adapt.std_clamp (cs_Row saved) (fst margins + 1) (snd margins + 1)
      else ret (cs_Row saved)) a = (a1, Ok (if cs_IsOriginModeRelative saved then row else cs_Row saved)) /\ on_screen a1 s /\ quiet a a1).
  { destruct (cs_IsOriginModeRelative saved) eqn:Eo; [|exists a; by split_and!].
    assert (Hd : does_in quiet (viewport <- Adapt.ask GetViewport ;; margins <- Adapt._GetVerticalMargins viewport false ;;
        Adapt.std_clamp (cs_Row saved) (fst margins + 1) (snd margins + 1)) a row s).
    { apply does_get. fold (viewport_of a). eapply does_bind; [apply (does_margins a s false Hs)|intros a1 S1 _].
      destruct Hok as (_ & _ & Ht & _). cbn [g rows_of_adapter first_row top_margin bottom_margin] in Ht.
      unfold Adapt.std_clamp. rewrite (proj2 (Z.ltb_ge _ _)) by lia. unfold row, restored_row. rewrite Eo.
      cbn [g rows_of_adapter first_row top_margin bottom_margin].
      match goal with |- does_in _ (ret ?u) _ ?v _ => replace v with u by lia end. by apply does_ret. }
    destruct Hd as (a1 & E1 & S1 & Q1). by exists a1. }
  destruct Hr as (a1 & E1 & S1 & Q1). rewrite (bind_Ok _ _ _ _ _ E1). clear E1.
  unfold Adapt.reset_modes, bind at 1, modify. rewrite (quiet_modes _ _ Q1).
  set (off := enumset_reset (_modes a) [Origin]). set (a2 := set_adapt_modes off a1).
  assert (Eg : rows_of_adapter a2 = mkRows (first_row g) (last_row g) (top_margin g) (bottom_margin g) false).
  { unfold rows_of_adapter. change (viewport_of a2) with (viewport_of a1). change (margins_of a2) with (margins_of a1).
    rewrite (quiet_viewport _ _ Q1), (quiet_margins _ _ Q1). unfold g, rows_of_adapter. cbn [first_row last_row top_margin bottom_margin].
    f_equal. change (_modes a2) with off. unfold off. rewrite enumset_test_reset by (repeat constructor; apply adapter_mode_fits).
    cbn. apply andb_false_r. }
  set (l := Z.to_nat ((if cs_IsOriginModeRelative saved then row else cs_Row saved) - 1)).
  destruct (cursor_move_does (CUP l (Z.to_nat (cs_Column saved - 1))) a2 s S1) as (a3 & E3 & S3 & Q3).
  { rewrite Eg. exact Hok. }
  { rewrite Eg. exact Hin. }
  assert (Hl : Z.of_nat (S l) = if cs_IsOriginModeRelative saved then row else cs_Row saved).
  { unfold l. destruct Hok as (? & ? & ? & ? & _). unfold row, restored_row. destruct (cs_IsOriginModeRelative saved); lia. }
  cbn [cursor_move_run] in E3. rewrite Hl in E3. replace (Z.of_nat (S (Z.to_nat (cs_Column saved - 1)))) with (cs_Column saved) in E3 by lia.
  exists a3. split_and!; [exact E3| |].
  - rewrite Eg in S3. replace (restored_position g (sc_page s) saved) with
      (target (mkRows (first_row g) (last_row g) (top_margin g) (bottom_margin g) false) (sc_page s) (CUP l (Z.to_nat (cs_Column saved - 1)))); [done|].
    unfold target, restored_position. cbn [target_row target_column]. unfold absolute_row. cbn [origin_mode first_row last_row].
    replace (Z.min (first_row g + Z.of_nat l) (last_row g)) with (restored_row g saved); [f_equal; lia|].
    destruct Hok as (? & ? & ? & ? & _). unfold l, row, restored_row. destruct (cs_IsOriginModeRelative saved); lia.
  - etrans; [|exact Q3]. destruct Q1 as (w & tb & m & -> & V & M). exists w, tb, m. by split_and!.
Qed.

(** ** Restoring the rest *)

Lemma view_buffer w tb v : TerminalApi.view w = vset_buffer tb v -> GetTextBuffer w = tb.
Proof. intros E. apply (f_equal v_buffer) in E. exact E. Qed.

Lemma CursorRestoreState_does a s :
  on_screen a s -> rows_ok (rows_of_adapter a) (sc_page s) -> in_view (rows_of_adapter a) (sc_page s) ->
  let saved := Adapt.saved_state a in
  1 <= cs_Row saved -> 1 <= cs_Column saved ->
  exists a', Adapt.CursorRestoreState a = (a', Ok true) /\
    on_screen a' (set_attrs (cs_Attributes saved) (move_to (restored_position (rows_of_adapter a) (sc_page s) saved) s)) /\
    _termOutput a' = cs_TermOutput saved /\
    (forall m, enumset_test (_modes a') m = if decide (m = Origin) then cs_IsOriginModeRelative saved else enumset_test (_modes a) m) /\
    (forall m, enumset_test (GetParserModes (world a')) m = if decide (m = AcceptC1) then cs_C1ControlsAccepted saved else enumset_test (GetParserModes (world a)) m) /\
    viewport_of a' = viewport_of a.
Proof.
  intros Hs Hok Hin saved Hrow Hcol. unfold Adapt.CursorRestoreState, bind at 1, get. fold saved.
  destruct (restore_cursor_does a s saved Hs Hok Hin Hrow Hcol) as (a1 & E1 & S1 & Q1).
  set (s1 := move_to _ s) in *.
  rewrite (bind_prefix _ _ _ _ _ _ _ E1). clear E1.
  destruct Q1 as (w1 & tb1 & m1 & -> & V1 & _).
  unfold Adapt.set_mode, bind at 1, modify at 1. cbn [_modes set_margins set_world set_adapt_modes].
  destruct (attributes_set (cs_Attributes saved) w1) as (w2 & E2 & V2).
  unfold bind at 1, Adapt.api at 1. cbn [world set_adapt_modes set_margins set_world]. rewrite E2.
  unfold bind at 1, modify at 1.
  unfold Adapt.AcceptC1Controls, Adapt.set_parser_mode. rewrite bind_assoc.
  unfold bind at 1, Adapt.api at 1. cbn [world set_termOutput set_adapt_modes set_margins set_world]. unfold modify at 1.
  rewrite bind_ret_l. cbv beta.
  set (w3 := PutParserModes _ w2). pose proof (parser_put (enumset_set_to (GetParserModes w2) AcceptC1 (cs_C1ControlsAccepted saved)) w2) as V3.
  fold w3 in V3.
  assert (H4 : exists w4 cp, (if negb (cs_CodePage saved =? 0) then SetConsoleOutputCP (cs_CodePage saved) else ret tt) w3 = (w4, Ok tt) /\
    TerminalApi.view w4 = vset_cp cp (TerminalApi.view w3)).
  { destruct (negb _); [apply cp_set|]. by exists w3, (GetConsoleOutputCP w3). }
  destruct H4 as (w4 & cp & E4 & V4).
  set (a3 := set_world w3 _).
  assert (E5 : (if negb (cs_CodePage saved =? 0) then Adapt.api (SetConsoleOutputCP (cs_CodePage saved)) else ret tt) a3
    = (set_world w4 a3, Ok tt)).
  { destruct (negb _); [unfold Adapt.api; change (world a3) with w3; by rewrite E4|]. by injection E4 as <-. }
  rewrite (bind_Ok _ _ _ _ _ E5). rewrite V2, V1 in V3. cbn [vset_buffer v_buffer] in V3. rewrite V3 in V4.
  exists (set_world w4 a3). split_and!; [done|..].
  - unfold on_screen, buffer_of. cbn [world set_world]. apply (f_equal v_buffer) in V4. cbn in V4. rewrite V4.
    unfold on_screen, buffer_of in S1. cbn [world set_world set_margins] in S1. rewrite (view_buffer _ _ _ V1) in S1.
    destruct S1 as [[S1a S1b S1c] S1d]. split; [split|]; try done. by apply (holds_ext tb1).
  - done.
  - intros m. cbn [_modes a3 set_world set_termOutput set_adapt_modes]. rewrite enumset_test_set_to by apply adapter_mode_fits.
    rewrite enumset_test_reset by (repeat constructor; apply adapter_mode_fits).
    destruct (decide (m = Origin)) as [->|Hne]; [done|].
    destruct (Z.eqb_spec (position Origin) (position m)) as [E|_]; [by apply mode_position_inj in E|].
    destruct m; try done; apply andb_true_r.
  - intros m. cbn [world set_world]. apply (f_equal v_parser) in V4. cbn in V4. rewrite V4.
    apply (f_equal v_parser) in V1, V2. cbn in V1, V2. rewrite V2, V1. rewrite enumset_test_set_to by apply parser_fits.
    destruct (decide (m = AcceptC1)) as [->|Hne]; [done|]. by destruct m.
  - unfold viewport_of. cbn [world set_world]. apply (f_equal v_viewport) in V4. exact V4.
Qed.
End Saved.

(** C14. DECRC restores what DECSC saved, whatever happened in between as long as nothing else
    was saved for the same buffer: the attributes, the character sets, the origin mode and
    the acceptance of C1 controls are the saved ones, the other modes stay, and the cursor
    is in the saved row of the viewport (in origin mode brought between the margins) and the
    saved column, as far as viewport and line reach.  With the same viewport and margins and
    a line as wide, a cursor inside of the margins comes back to its very position. *)
Theorem saved_cursor_restored (W : Type) (api : ITerminalApi W) (laws : ApiLaws W) (a : Adapter W) (s : screen) :
  on_screen a s -> in_view (rows_of_adapter a) (sc_page s) ->
  exists a1, Adapt.CursorSaveState a = (a1, Ok true) /\ on_screen a1 s /\
    forall a2 s2, on_screen a2 s2 -> rows_ok (rows_of_adapter a2) (sc_page s2) -> in_view (rows_of_adapter a2) (sc_page s2) ->
      Adapt.saved_state a2 = Adapt.saved_state a1 ->
      exists a3 p, Adapt.CursorRestoreState a2 = (a3, Ok true) /\
        on_screen a3 (set_attrs (pg_attrs (sc_page s)) (move_to p s2)) /\
        _termOutput a3 = _termOutput a /\
        (forall m, enumset_test (_modes a3) m = enumset_test (_modes (if decide (m = Origin) then a else a2)) m) /\
        (forall m, enumset_test (GetParserModes (world a3)) m = enumset_test (GetParserModes (world (if decide (m = AcceptC1) then a else a2))) m) /\
        p = restored_position (rows_of_adapter a2) (sc_page s2) (recorded a s) /\
        (viewport_of a2 = viewport_of a -> margins_of a2 = margins_of a ->
         width_at (sc_page s) (y (pg_cursor (sc_page s))) <= width_at (sc_page s2) (y (pg_cursor (sc_page s))) ->
         (origin_mode (rows_of_adapter a) = true ->
          top_margin (rows_of_adapter a) <= y (pg_cursor (sc_page s)) <= bottom_margin (rows_of_adapter a)) ->
         p = pg_cursor (sc_page s)).
Proof.
  intros Hs Hin. exists (Adapt.set_saved_state (recorded a s) a). split; [by apply CursorSaveState_does|].
  split; [unfold on_screen, buffer_of, Adapt.set_saved_state in *; by destruct (_usingAltBuffer a)|].
  intros a2 s2 Hs2 Hok2 Hin2 Hsaved.
  assert (Er : Adapt.saved_state a2 = recorded a s).
  { rewrite Hsaved. unfold Adapt.saved_state, Adapt.set_saved_state. destruct (_usingAltBuffer a) eqn:E; cbn; by rewrite E. }
  destruct Hin as [[Hy1 Hy2] [Hx1 Hx2]]. cbn [rows_of_adapter first_row last_row] in Hy1, Hy2.
  destruct (CursorRestoreState_does a2 s2 Hs2 Hok2 Hin2) as (a3 & E3 & S3 & T3 & M3 & P3 & _);
    try (rewrite Er; cbn [recorded cs_Row cs_Column]; lia).
  rewrite Er in *. exists a3, (restored_position (rows_of_adapter a2) (sc_page s2) (recorded a s)).
  split_and!; [done|done|done|..].
  - intros m. rewrite M3. by destruct (decide (m = Origin)) as [->|].
  - intros m. rewrite P3. by destruct (decide (m = AcceptC1)) as [->|].
  - done.
  - intros Ev Em Hw Horig. unfold restored_position, restored_row. cbn [recorded cs_Row cs_Column cs_IsOriginModeRelative].
    cbn [rows_of_adapter origin_mode top_margin bottom_margin first_row last_row] in *. rewrite Ev, Em in *.
    set (p := pg_cursor (sc_page s)) in *.
    match goal with |- context [width_at (sc_page s2) ?r] => replace r with (y p) end.
    + destruct p as [px py]. cbn [x y] in *. f_equal. lia.
    + destruct (enumset_test (_modes a) Origin); [specialize (Horig eq_refl)|]; lia.
Qed.
