(* ===== verification/AdaptPrint.v ===== *)
(** * The adapter: printing text

    [_WriteToBuffer] of src/src/terminal/adapter/adaptDispatch.cpp writes as much of the text
    as fits on the line in one piece.  The reference prints one glyph at a time: a pending
    wrap is performed first, a wide glyph that does not fit leaves a blank and goes to the
    next line, and a glyph in the last column leaves a wrap pending. *)

From S2P Require Import Prelude Effects EnumSet DispatchTypes StateMachine Geometry LineRendition Viewport TextColor TextAttribute Rle RleLaws RleSpec Row RowLayout RowSpec RowTheorems CodepointWidth OutputCells RowWrite OutputText Cursor TextBuffer TextBufferSpec TextBufferRing TextBufferPage TextBufferRefine TerminalOutput TerminalInput RenderSettings TerminalApi AdaptDispatch AdaptScreen AdaptCursor.

Local Open Scope Z_scope.

(** ** Writing in two steps *)

Lemma splice_attrs_twice a c m n attrs :
  (c + m + n <= length attrs)%nat -> splice_attrs (c + m) n a (splice_attrs c m a attrs) = splice_attrs c (m + n) a attrs.
Proof.
  intros Hl. unfold splice_attrs. rewrite repeat_app.
  assert (Ht : length (take c attrs ++ repeat a m) = (c + m)%nat) by (rewrite length_app, length_take, repeat_length; lia).
  rewrite (app_assoc (take c attrs)), take_app_le, (take_ge (take c attrs ++ repeat a m)) by lia.
  rewrite drop_app_ge, Ht, drop_drop by lia. rewrite <- !app_assoc. do 4 f_equal. lia.
Qed.

Lemma splice_attrs_again a c n attrs :
  (c + n <= length attrs)%nat -> splice_attrs c n a (splice_attrs c n a attrs) = splice_attrs c n a attrs.
Proof.
  intros Hl. unfold splice_attrs.
  assert (Ht : length (take c attrs) = c) by (rewrite length_take; lia).
  rewrite take_app_le, take_take, Nat.min_id by lia. do 2 f_equal.
  rewrite drop_app_ge, Ht, drop_app_ge, repeat_length, drop_drop by (rewrite ?repeat_length; lia). f_equal. lia.
Qed.

Section Lines.
Context (a : TextAttribute).

Lemma written_one n g : (g_cols g <= n)%nat -> written n [g] = [g] /\ cut n [g] = false.
Proof. intros Hle. destruct (written_cons_fits n g [] Hle) as [-> ->]. by rewrite (proj1 (written_nil _)), (proj2 (written_nil _)). Qed.

Lemma cols_one g : cols [g] = g_cols g.
Proof. rewrite cols_cons. cbn. lia. Qed.

Lemma written_line_step c n g G wrap l :
  Forall glyph_ok (l_glyphs l) -> length (l_attrs l) = l_width l -> cell_glyphs (g :: G) ->
  (c + n <= l_width l)%nat -> (g_cols g <= n)%nat ->
  written_line a (c + g_cols g) (n - g_cols g) G wrap (written_line a c n [g] wrap l) = written_line a c n (g :: G) wrap l.
Proof.
  intros Hok Hla HG Hc Hle. pose proof (cell_glyphs_ok _ HG) as HGo. apply Forall_cons_iff in HG as [_ HG].
  apply Forall_cons_iff in HGo as [Hg _]. destruct (written_one n g Hle) as [W1 C1].
  unfold written_line at 1 3.
  replace (l_attrs (written_line a c n [g] wrap l)) with (splice_attrs c (g_cols g) a (l_attrs l))
    by (unfold written_line; rewrite W1, cols_one; done).
  destruct (written_cons_fits n g G Hle) as [Hw _]. rewrite Hw, cols_cons.
  pose proof (written_cols (n - g_cols g) G).
  rewrite splice_attrs_twice by lia.
  rewrite <- (write_line_step c n g G wrap l (write_line c n [g] wrap l)); try done.
  - unfold write_line. by rewrite W1.
  - unfold write_line. by rewrite C1.
  - unfold write_line. cbn [l_wrap]. rewrite W1, cols_one.
    destruct (Nat.eqb_spec (g_cols g) n), (Nat.eqb_spec n (g_cols g)), (Nat.ltb_spec 0 n); try done; try lia.
    destruct Hg; lia.
Qed.

(** A wide glyph before the last column: a blank, however often it is tried. *)
Lemma blank_twice c g G wrap l :
  Forall glyph_ok (l_glyphs l) -> length (l_attrs l) = l_width l -> (c + 1 <= l_width l)%nat -> g_cols g = 2%nat ->
  written_line a c 1 [g] wrap (written_line a c 1 (g :: G) wrap l) = written_line a c 1 [g] wrap l.
Proof.
  intros Hok Hla Hc Hg. destruct (written_cut g G Hg) as [W1 C1], (written_cut g [] Hg) as [W2 C2].
  unfold written_line, write_line. rewrite W1, C1, W2, C2. unfold set_l_attrs. cbn [l_glyphs l_attrs l_rendition l_wrap l_padded].
  change (cols [space]) with 1%nat. rewrite splice_again, splice_attrs_again by (done || lia). by destruct wrap.
Qed.

(** ** Lines of a page *)

Definition line_ok (W : nat) (l : line) : Prop :=
  l_width l = W /\ Forall glyph_ok (l_glyphs l) /\ length (l_attrs l) = W.

Lemma written_line_ok W c n G wrap l :
  cell_glyphs G -> (c + n <= W)%nat -> line_ok W l -> line_ok W (written_line a c n G wrap l).
Proof.
  intros HG Hc (Hw & Hok & Hla). pose proof (written_cols n G). destruct (written_ok n G HG) as [Hwo _].
  split_and!.
  - unfold l_width at 1, written_line. cbn [set_l_attrs l_glyphs]. rewrite <- Hw in *. by apply (write_line_width c n G wrap l).
  - cbn. unfold l_width in Hw. apply splice_ok; [done..|lia].
  - cbn. unfold splice_attrs. rewrite !length_app, length_take, repeat_length, length_drop. lia.
Qed.

End Lines.

(** ** The reference *)

(** The line feed of a full line: the next line, or a new one at the end. *)
Definition feed (withReturn wrapForced : bool) (s : screen) : screen :=
  let pg := sc_page s in
  match pg_lines pg !! row_of pg with
  | None => s
  | Some l =>
      let pg' := newline (set_pg_lines (<[row_of pg := set_l_wrap wrapForced l]> (pg_lines pg)) pg) in
      mkScreen (set_pg_cursor (Point (if withReturn then 0 else x (pg_cursor pg)) (y (pg_cursor pg'))) pg') None
  end.

Definition wrap_pending (s : screen) : screen :=
  match sc_delay s with
  | None => s
  | Some p => if bool_decide (p = pg_cursor (sc_page s)) then feed true true (mkScreen (sc_page s) None) else mkScreen (sc_page s) None
  end.

Definition column (s : screen) : nat := Z.to_nat (x (pg_cursor (sc_page s))).
Definition current_width (s : screen) : nat :=
  match pg_lines (sc_page s) !! row_of (sc_page s) with Some l => line_width (pg_width (sc_page s)) l | None => 0%nat end.
Definition room (s : screen) : nat := (current_width s - column s)%nat.

(** The glyphs [G], as far as they fit, in the line of the cursor, and the cursor at column
    [c], or in the last one with a wrap pending. *)
Definition put_at (c : nat) (a : TextAttribute) (G : list glyph) (s : screen) : screen :=
  let pg := sc_page s in
  match pg_lines pg !! row_of pg with
  | None => s
  | Some l =>
      let pg' := set_pg_lines (<[row_of pg := written_line a (column s) (room s) G (Some true) l]> (pg_lines pg)) pg in
      if (current_width s <=? c)%nat
      then let p := Point (Z.of_nat (current_width s) - 1) (y (pg_cursor pg)) in mkScreen (set_pg_cursor p pg') (Some p)
      else mkScreen (set_pg_cursor (Point (Z.of_nat c) (y (pg_cursor pg))) pg') None
  end.

Definition put (a : TextAttribute) (G : list glyph) (s : screen) : screen :=
  put_at (column s + cols (fitting (room s) G).1) a G s.

Definition print_glyph (a : TextAttribute) (s : screen) (g : glyph) : screen :=
  let s := wrap_pending s in
  if (g_cols g <=? room s)%nat then put a [g] s
  else put a [g] (wrap_pending (put_at (current_width s) a [g] s)).

Definition print_glyphs (a : TextAttribute) (G : list glyph) (s : screen) : screen := fold_left (print_glyph a) G s.

(** ** Printing in one piece *)

Record valid (s : screen) : Prop := {
  va_lines : Forall (line_ok (pg_width (sc_page s))) (pg_lines (sc_page s));
  va_row : on_page (sc_page s);
  va_column : 0 <= x (pg_cursor (sc_page s)) < Z.of_nat (current_width s)
}.

Lemma valid_line s : valid s -> exists l, pg_lines (sc_page s) !! row_of (sc_page s) = Some l /\ line_ok (pg_width (sc_page s)) l.
Proof.
  intros [Hl Hr _]. destruct (on_page_line _ Hr) as (l & El & _). exists l. split; [done|].
  by apply (Forall_lookup_1 _ _ _ _ Hl El).
Qed.

Lemma line_width_le W l : (line_width W l <= W)%nat.
Proof. unfold line_width. case_bool_decide; [done|]. apply Nat.Div0.div_le_upper_bound. lia. Qed.

Lemma fitting_0 G : Forall glyph_ok G -> fitting 0 G = ([], G).
Proof. destruct 1 as [|g G [_ Hg]]; [done|]. cbn [fitting]. by rewrite (proj2 (Nat.leb_gt _ _)) by lia. Qed.

Section Batch.
Context (a : TextAttribute).

(** What a line written at the cursor leaves: the same width and row, and the line. *)
Lemma put_at_frame c G s l :
  pg_lines (sc_page s) !! row_of (sc_page s) = Some l ->
  let s' := put_at c a G s in
  pg_width (sc_page s') = pg_width (sc_page s) /\ row_of (sc_page s') = row_of (sc_page s) /\
  y (pg_cursor (sc_page s')) = y (pg_cursor (sc_page s)) /\ pg_attrs (sc_page s') = pg_attrs (sc_page s) /\
  pg_lines (sc_page s') = <[row_of (sc_page s) := written_line a (column s) (room s) G (Some true) l]> (pg_lines (sc_page s)) /\
  current_width s' = current_width s.
Proof.
  intros Hl. pose proof (lookup_lt_Some _ _ _ Hl) as Hi. unfold put_at. rewrite Hl. cbv zeta.
  assert (Hc : forall p d, y p = y (pg_cursor (sc_page s)) ->
    current_width (mkScreen (set_pg_cursor p (set_pg_lines
      (<[row_of (sc_page s) := written_line a (column s) (room s) G (Some true) l]> (pg_lines (sc_page s))) (sc_page s))) d)
    = current_width s).
  { intros p d Hp. unfold current_width. cbn [sc_page].
    assert (Hrow : forall ls, row_of (set_pg_cursor p (set_pg_lines ls (sc_page s))) = row_of (sc_page s))
      by (intros ls; unfold row_of; cbn [set_pg_cursor pg_cursor]; by rewrite Hp).
    rewrite Hrow. cbn [set_pg_cursor set_pg_lines pg_lines pg_width]. by rewrite list_lookup_insert_eq, Hl. }
  destruct (_ <=? _)%nat; split_and!; try done; by apply Hc.
Qed.

Lemma valid_put_at c G s : valid s -> cell_glyphs G -> (0 < c)%nat -> valid (put_at c a G s).
Proof.
  intros Hv HG Hc. destruct (valid_line s Hv) as (l & Hl & Hok). destruct Hv as [H1 H2 H3].
  destruct (put_at_frame c G s l Hl) as (Ew & Er & Ey & _ & El & Ec). split.
  - rewrite Ew, El. apply Forall_insert; [done|]. apply written_line_ok; [done| |done].
    unfold room, current_width. rewrite Hl. pose proof (line_width_le (pg_width (sc_page s)) l).
    unfold current_width in H3. rewrite Hl in H3. unfold column. lia.
  - unfold on_page. rewrite Ey, El, length_insert. exact H2.
  - rewrite Ec. unfold put_at. rewrite Hl. cbv zeta. destruct (Nat.leb_spec (current_width s) c); cbn [sc_page set_pg_cursor pg_cursor x]; lia.
Qed.

Lemma wrap_now s : sc_delay s = None -> wrap_pending s = s.
Proof. unfold wrap_pending. by intros ->. Qed.

Lemma put_step s g G :
  valid s -> sc_delay s = None -> cell_glyphs (g :: G) -> (column s + g_cols g < current_width s)%nat ->
  print_glyph a s g = put a [g] s /\ put a (g :: G) s = put a G (put a [g] s) /\
  (fitting (room s) (g :: G)).2 = (fitting (room (put a [g] s)) G).2 /\
  valid (put a [g] s) /\ sc_delay (put a [g] s) = None.
Proof.
  intros Hv Hd HG Hlt. destruct (valid_line s Hv) as (l & Hl & Hok).
  assert (Hr : (g_cols g <= room s)%nat) by (unfold room; lia).
  assert (Hf : fitting (room s) [g] = ([g], [])) by (cbn [fitting]; by rewrite (proj2 (Nat.leb_le _ _))).
  pose proof (cell_glyphs_ok _ HG) as HGo. apply Forall_cons_iff in HGo as [[_ Hg1] _].
  assert (Hg : cell_glyphs [g]) by (constructor; [by apply Forall_cons_iff in HG as [? _]|constructor]).
  split; [unfold print_glyph, wrap_pending; rewrite Hd; by rewrite (proj2 (Nat.leb_le _ _))|].
  pose proof (put_at_frame (column s + cols (fitting (room s) [g]).1) [g] s l Hl) as Fr. fold (put a [g] s) in Fr.
  pose proof (valid_put_at (column s + cols (fitting (room s) [g]).1) [g] s Hv Hg) as V1. fold (put a [g] s) in V1.
  rewrite Hf in V1. cbn [fst] in V1. rewrite cols_one in V1.
  assert (Ep : put a [g] s = mkScreen (set_pg_cursor (Point (Z.of_nat (column s + g_cols g)) (y (pg_cursor (sc_page s))))
     (set_pg_lines (<[row_of (sc_page s) := written_line a (column s) (room s) [g] (Some true) l]> (pg_lines (sc_page s))) (sc_page s))) None).
  { unfold put, put_at. rewrite Hl, Hf. cbn [fst]. rewrite cols_one. cbv zeta. by rewrite (proj2 (Nat.leb_gt _ _)) by lia. }
  destruct Fr as (Ew & Er & Ey & _ & El & Ec).
  assert (Ecol : column (put a [g] s) = (column s + g_cols g)%nat) by (rewrite Ep; unfold column at 1; cbn; lia).
  assert (Eroom : room (put a [g] s) = (room s - g_cols g)%nat) by (unfold room; rewrite Ec, Ecol; lia).
  split_and!.
  - unfold put at 1 2. rewrite Ecol, Eroom. cbn [fitting]. rewrite (proj2 (Nat.leb_le _ _)) by done.
    destruct (fitting (room s - g_cols g) G) as [P R]. cbn [fst]. rewrite cols_cons.
    unfold put_at. rewrite Hl. rewrite El, Er. rewrite list_lookup_insert_eq by (by apply lookup_lt_Some in Hl).
    cbv zeta. rewrite Ec, Ecol, Eroom, Ey, list_insert_insert_eq.
    destruct Hok as (Hw & Hgo & Hla). rewrite <- Hw in Hla.
    rewrite written_line_step; [|done..| |done].
    2:{ unfold room, current_width. rewrite Hl. pose proof (line_width_le (pg_width (sc_page s)) l).
        destruct Hv as [_ _ H3]. unfold current_width in H3. rewrite Hl in H3. unfold column. lia. }
    rewrite Nat.add_assoc, Ep. by destruct (_ <=? _)%nat.
  - rewrite Eroom. cbn [fitting]. rewrite (proj2 (Nat.leb_le _ _)) by done. by destruct (fitting (room s - g_cols g) G).
  - apply V1. lia.
  - by rewrite Ep.
Qed.

Lemma put_nothing s : valid s -> sc_delay s = None -> put a [] s = s.
Proof.
  intros Hv Hd. destruct (valid_line s Hv) as (l & Hl & _). destruct Hv as [_ _ H3]. unfold put, put_at. rewrite Hl.
  cbn [fitting fst cols map list_sum]. cbv zeta. rewrite Nat.add_0_r.
  rewrite (proj2 (Nat.leb_gt _ _)) by (unfold column; lia).
  assert (El : written_line a (column s) (room s) [] (Some true) l = l).
  { unfold written_line, write_line. rewrite (proj1 (written_nil _)), (proj2 (written_nil _)). cbn [cols map list_sum foldr splice].
    rewrite splice_attrs_0. destruct l, (room s); done. }
  rewrite El, list_insert_id by done. unfold column. rewrite Z2Nat.id by lia.
  destruct s as [[w ls [cx cy] at_] d]. cbn in *. by subst.
Qed.

(** Writing all at once is printing one by one, as far as the line goes. *)
Lemma print_batch G : forall s, valid s -> sc_delay s = None -> cell_glyphs G ->
  print_glyphs a G s = print_glyphs a (fitting (room s) G).2 (put a G s).
Proof.
  induction G as [|g G IH]; intros s Hv Hd HG; [by rewrite put_nothing|].
  destruct (decide (column s + g_cols g < current_width s)%nat) as [Hlt|Hge].
  - destruct (put_step s g G Hv Hd HG Hlt) as (E1 & E2 & E3 & V1 & D1).
    unfold print_glyphs at 1. cbn [fold_left]. rewrite E1, E2, E3. apply IH; [done..|]. by apply Forall_cons_iff in HG as [_ ?].
  - destruct (valid_line s Hv) as (l & Hl & Hok & Hgo & Hla). pose proof (va_column _ Hv) as Hcol.
    pose proof (cell_glyphs_ok _ HG) as HGo. apply Forall_cons_iff in HGo as [[_ Hg1] HGo].
    apply Forall_cons_iff in HG as [(Hg2 & _ & _) HG].
    assert (Hroom : (0 < room s)%nat) by (unfold room, column; lia).
    destruct (decide (g_cols g <= room s)%nat) as [Hfit|Hcut].
    + assert (Er : room s = g_cols g) by (unfold room in *; lia).
      assert (Hf : forall H, Forall glyph_ok H -> fitting (room s) (g :: H) = ([g], H)).
      { intros H HH. cbn [fitting]. rewrite (proj2 (Nat.leb_le _ _)) by done. by rewrite Er, Nat.sub_diag, fitting_0. }
      assert (Hw : forall H, Forall glyph_ok H -> written_line a (column s) (room s) (g :: H) (Some true) l
                                               = written_line a (column s) (room s) [g] (Some true) l).
      { intros H HH. unfold written_line, write_line. destruct (written_cons_fits (room s) g H Hfit) as [-> ->].
        destruct (written_cons_fits (room s) g [] Hfit) as [-> ->]. rewrite Er, Nat.sub_diag.
        rewrite (proj1 (written_0 H HH)), (proj2 (written_0 H HH)). done. }
      rewrite Hf by done. cbn [snd]. unfold print_glyphs at 1. cbn [fold_left]. fold (print_glyphs a G). f_equal.
      unfold print_glyph, wrap_pending. rewrite Hd, (proj2 (Nat.leb_le _ _)) by done.
      unfold put. rewrite !Hf by (done || constructor). unfold put_at. rewrite Hl. cbv zeta. by rewrite (Hw G).
    + assert (Er : room s = 1%nat) by lia. assert (Eg : g_cols g = 2%nat) by lia.
      assert (Hf : forall H, fitting (room s) (g :: H) = ([], g :: H)) by (intros H; cbn [fitting]; by rewrite (proj2 (Nat.leb_gt _ _)) by lia).
      rewrite Hf. cbn [snd]. unfold print_glyphs. cbn [fold_left]. f_equal.
      unfold put at 1. rewrite Hf. cbn [fst cols map list_sum foldr]. rewrite Nat.add_0_r.
      assert (Es : put_at (column s) a (g :: G) s = mkScreen (set_pg_lines
        (<[row_of (sc_page s) := written_line a (column s) 1 (g :: G) (Some true) l]> (pg_lines (sc_page s))) (sc_page s)) None).
      { unfold put_at. rewrite Hl. cbv zeta. rewrite (proj2 (Nat.leb_gt _ _)) by (unfold column; lia). rewrite Er.
        assert (Ez : Z.of_nat (column s) = x (pg_cursor (sc_page s))) by (unfold column; lia). rewrite Ez. by destruct (sc_page s) as [? ? [] ?]. }
      destruct (put_at_frame (column s) (g :: G) s l Hl) as (Fw & Fr & Fy & _ & Fl & Fc).
      set (s' := put_at (column s) a (g :: G) s) in *.
      assert (Ecol : column s' = column s) by (rewrite Es; done).
      assert (Eroom : room s' = room s) by (unfold room; by rewrite Fc, Ecol).
      unfold print_glyph. rewrite (wrap_now s Hd), (wrap_now s') by (by rewrite Es). cbv zeta.
      rewrite Eroom, (proj2 (Nat.leb_gt _ _)) by lia. do 2 f_equal.
      unfold put_at. rewrite Hl, Fl, Fr, Fc, Ecol, Eroom, Fy, Er.
      rewrite list_lookup_insert_eq by (by apply lookup_lt_Some in Hl). rewrite list_insert_insert_eq.
      rewrite blank_twice; [|done|by rewrite Hok|unfold room, current_width in Er; rewrite Hl in Er; pose proof (line_width_le (pg_width (sc_page s)) l); rewrite Hok; lia|done].
      rewrite Es. by destruct (_ <=? _)%nat.
Qed.

End Batch.

(** ** Wrapping *)

Lemma blank_line_ok W a : line_ok W (blank_line W a).
Proof. split_and!; [apply cols_spaces|apply spaces_ok|apply repeat_length]. Qed.

(** Every line has two columns, also one of double width. *)
Definition roomy (s : screen) : Prop := (4 <= pg_width (sc_page s))%nat.

Lemma line_width_two W l : (4 <= W)%nat -> (2 <= line_width W l)%nat.
Proof. intros HW. unfold line_width. case_bool_decide; [lia|]. apply Nat.div_le_lower_bound; lia. Qed.

Lemma newline_frame pg : on_page pg ->
  pg_width (newline pg) = pg_width pg /\ length (pg_lines (newline pg)) = length (pg_lines pg) /\ on_page (newline pg) /\
  pg_attrs (newline pg) = pg_attrs pg.
Proof.
  unfold on_page, newline, TextBufferPage.bottom. intros Hon.
  destruct (Z.leb_spec (y (pg_cursor pg) + 1) (Z.of_nat (length (pg_lines pg)) - 1)); cbn; [split_and!; try done; lia|].
  rewrite length_app. cbn. destruct (pg_lines pg); cbn in *; [lia|]. split_and!; try done; lia.
Qed.

Lemma newline_lines pg (P : line -> Prop) :
  Forall P (pg_lines pg) -> P (blank_line (pg_width pg) (pg_attrs pg)) -> Forall P (pg_lines (newline pg)).
Proof.
  intros HP Hb. unfold newline. case_match; [done|]. cbn. apply Forall_app_2; [|by constructor].
  destruct HP; [constructor|done].
Qed.

Lemma feed_facts b f s :
  Forall (line_ok (pg_width (sc_page s))) (pg_lines (sc_page s)) -> on_page (sc_page s) ->
  let s' := feed b f s in
  pg_width (sc_page s') = pg_width (sc_page s) /\ length (pg_lines (sc_page s')) = length (pg_lines (sc_page s)) /\
  pg_attrs (sc_page s') = pg_attrs (sc_page s) /\ sc_delay s' = None /\
  x (pg_cursor (sc_page s')) = (if b then 0 else x (pg_cursor (sc_page s))) /\
  Forall (line_ok (pg_width (sc_page s'))) (pg_lines (sc_page s')) /\ on_page (sc_page s').
Proof.
  intros Hl Hon. destruct (on_page_line _ Hon) as (l & El & _). unfold feed. rewrite El. cbv zeta.
  set (pg1 := set_pg_lines _ _).
  assert (Hon1 : on_page pg1) by (unfold on_page, pg1; cbn; by rewrite length_insert).
  destruct (newline_frame pg1 Hon1) as (Ew & Elen & Hon2 & Ea). unfold pg1 in Elen. cbn in Elen. rewrite length_insert in Elen. fold pg1 in Elen.
  cbn [sc_page sc_delay set_pg_cursor pg_width pg_lines pg_attrs pg_cursor x]. split_and!; try done.
  rewrite Ew. apply newline_lines; [|apply blank_line_ok].
  apply Forall_insert; [done|]. pose proof (Forall_lookup_1 _ _ _ _ Hl El) as (? & ? & ?). by split_and!.
Qed.

Lemma wrap_valid s : valid s -> roomy s ->
  valid (wrap_pending s) /\ roomy (wrap_pending s) /\ sc_delay (wrap_pending s) = None /\
  pg_attrs (sc_page (wrap_pending s)) = pg_attrs (sc_page s) /\
  length (pg_lines (sc_page (wrap_pending s))) = length (pg_lines (sc_page s)).
Proof.
  intros Hv Hr. unfold wrap_pending. destruct (sc_delay s) as [p|] eqn:Ed; [|done].
  case_bool_decide; [|destruct Hv as [H1 H2 H3]; by split_and!].
  destruct (feed_facts true true (mkScreen (sc_page s) None) (va_lines _ Hv) (va_row _ Hv)) as (Ew & El & Ea & Hd & Hx & Hl & Hon).
  split_and!; [|unfold roomy; by rewrite Ew|done..]. split; [done..|]. rewrite Hx. split; [done|].
  destruct (on_page_line _ Hon) as (l & Hll & _). unfold current_width. rewrite Hll.
  pose proof (line_width_two (pg_width (sc_page (feed true true (mkScreen (sc_page s) None)))) l). rewrite Ew in *. cbn in *.
  unfold roomy in Hr. lia.
Qed.

Lemma wrap_idem s : valid s -> roomy s -> wrap_pending (wrap_pending s) = wrap_pending s.
Proof. intros Hv Hr. apply wrap_now, (wrap_valid s Hv Hr). Qed.

Lemma print_after_wrap a G s : valid s -> roomy s -> G <> [] -> print_glyphs a G s = print_glyphs a G (wrap_pending s).
Proof.
  intros Hv Hr HG. destruct G as [|g G]; [done|]. unfold print_glyphs. cbn [fold_left]. unfold print_glyph at 2 4.
  by rewrite wrap_idem.
Qed.

(** A glyph that does not fit: the blank leaves the wrap pending, and the next line has room. *)
Lemma print_overflow a g G s :
  valid s -> roomy s -> sc_delay s = None -> cell_glyphs (g :: G) -> (room s < g_cols g)%nat ->
  let s' := put_at (current_width s) a [g] s in
  valid s' /\ roomy s' /\ (2 <= room (wrap_pending s'))%nat /\ print_glyphs a (g :: G) s = print_glyphs a (g :: G) s'.
Proof.
  intros Hv Hr Hd HG Hlt s'. destruct (valid_line s Hv) as (l & Hl & _). pose proof (va_column _ Hv) as Hcol.
  apply Forall_cons_iff in HG as [Hg _]. pose proof Hg as (Hg2 & _).
  assert (Hv' : valid s') by (apply valid_put_at; [done|by constructor|unfold column in *; lia]).
  destruct (put_at_frame a (current_width s) [g] s l Hl) as (Ew & Er & Ey & _ & El & Ec). fold s' in Ew, Er, Ey, El, Ec.
  assert (Hr' : roomy s') by (unfold roomy; by rewrite Ew).
  assert (Hroom : (2 <= room (wrap_pending s'))%nat).
  { assert (Ed : sc_delay s' = Some (pg_cursor (sc_page s'))).
    { unfold s', put_at. rewrite Hl. cbv zeta. by rewrite (proj2 (Nat.leb_le _ _)) by lia. }
    unfold wrap_pending. rewrite Ed. rewrite bool_decide_eq_true_2 by done.
    destruct (feed_facts true true (mkScreen (sc_page s') None) (va_lines _ Hv') (va_row _ Hv')) as (Fw & _ & _ & _ & Fx & _ & Fon).
    destruct (on_page_line _ Fon) as (l' & Hl' & _). unfold room, column, current_width. rewrite Fx, Hl'. cbn [Z.to_nat].
    rewrite Fw. cbn [sc_page]. pose proof (line_width_two _ l' Hr'). lia. }
  split_and!; [done..|]. unfold print_glyphs. cbn [fold_left]. f_equal.
  unfold print_glyph. rewrite (wrap_now s Hd). cbv zeta. rewrite (proj2 (Nat.leb_gt _ _)) by lia. fold s'.
  by rewrite (proj2 (Nat.leb_le _ _)) by lia.
Qed.

(** The same in the terms of the loop, which writes the whole text. *)
Lemma overflow_facts a s G :
  valid s -> roomy s -> sc_delay s = None -> cell_glyphs G -> G <> [] -> (fitting (room s) G).1 = [] ->
  let s' := put_at (current_width s) a G s in
  valid s' /\ roomy s' /\ (room s < 2)%nat /\ (2 <= room (wrap_pending s'))%nat /\
  print_glyphs a G s = print_glyphs a G s' /\ length (pg_lines (sc_page s')) = length (pg_lines (sc_page s)) /\
  current_width s' = current_width s.
Proof.
  intros Hv Hr Hd HG Hne EP. destruct G as [|g G]; [done|]. cbn [fitting] in EP.
  destruct (Nat.leb_spec (g_cols g) (room s)) as [|Hlt]; [by destruct (fitting _ G)|].
  destruct (valid_line s Hv) as (l & Hl & _). pose proof (va_column _ Hv) as Hcol.
  pose proof HG as [(Hg & _) _]%Forall_cons_iff.
  assert (Er : room s = 1%nat) by (unfold room, column in *; lia).
  assert (Es : put_at (current_width s) a (g :: G) s = put_at (current_width s) a [g] s).
  { unfold put_at. rewrite Hl. unfold written_line, write_line. rewrite Er.
    destruct (written_cut g G) as [-> ->]; [lia|]. by destruct (written_cut g []) as [-> ->]; [lia|]. }
  destruct (print_overflow a g G s Hv Hr Hd HG Hlt) as (Hv' & Hr' & Hroom & E).
  destruct (put_at_frame a (current_width s) [g] s l Hl) as (_ & _ & _ & _ & El & Ec).
  rewrite Es. split_and!; try done; [lia|]. by rewrite El, length_insert.
Qed.

(** ** The text that is left *)

Lemma glyphs_of_rest {GW : GlyphWidth} string n :
  glyphs_of (drop (length (text (fitting n (glyphs_of string)).1)) string) = (fitting n (glyphs_of string)).2.
Proof.
  revert n. induction string as [string IH] using (induction_ltof1 _ (@length Z)). unfold ltof in IH. intros n.
  destruct (decide (string = [])) as [->|Hs]; [by destruct n|]. rewrite (glyphs_of_cons string Hs).
  destruct (utf16_next_length string Hs) as [Hn Hl]. cbn [fitting g_cols].
  destruct (glyph_columns (utf16_next string) <=? n)%nat; [|cbn; by rewrite drop_0, <- glyphs_of_cons].
  set (rest := drop (length (utf16_next string)) string).
  specialize (IH rest ltac:(unfold rest; rewrite length_drop; lia) (n - glyph_columns (utf16_next string))%nat).
  destruct (fitting _ (glyphs_of rest)) as [P R]. cbn [fst snd] in *. rewrite text_cons, length_app. cbn [g_text].
  rewrite <- IH. unfold rest. by rewrite drop_drop.
Qed.

Lemma text_nonempty P : cell_glyphs P -> P <> [] -> (0 < length (text P))%nat.
Proof.
  intros HP Hne. destruct P as [|g P]; [done|]. rewrite text_cons, length_app.
  apply Forall_cons_iff in HP as [(_ & Ht & _) _]. destruct (g_text g); [done|cbn; lia].
Qed.

Lemma cols_nonempty P : cell_glyphs P -> P <> [] -> (0 < cols P)%nat.
Proof.
  intros HP Hne. destruct P as [|g P]; [done|]. rewrite cols_cons. apply Forall_cons_iff in HP as [(Hg & _) _]. lia.
Qed.

Lemma rect_at_small p sz :
  - 2 ^ 30 <= x p < 2 ^ 30 -> - 2 ^ 30 <= y p < 2 ^ 30 -> 0 <= width sz < 2 ^ 30 -> 0 <= height sz < 2 ^ 30 ->
  exists r, rect_at p sz = Ok r.
Proof.
  intros. eexists. unfold rect_at, point_add_size, point_add, on_both, point_of_size. cbn [x y].
  unfold CheckAdd, checked, INT_MIN, INT_MAX. rewrite !(proj2 (Z.leb_le _ _)) by lia. reflexivity.
Qed.

(** ** The code *)

(** The viewport lies in the buffer. *)
Definition fits_viewport (vp : rect) (pg : page) : Prop :=
  0 <= top vp < Geometry.bottom vp /\ Geometry.bottom vp <= Z.of_nat (length (pg_lines pg)).

(** What a terminal promises of its line feed: it acts on the screen as [feed] does and may
    move the viewport, which keeps its height and stays in the buffer, and stays where it is
    while the cursor is above its last row. *)
Class FeedLaws (W : Type) `{ApiLaws W} :=
  feed_law : forall w s withReturn wrapForced,
    screen_of (GetTextBuffer w) s -> on_page (sc_page s) -> fits_viewport (GetViewport w) (sc_page s) ->
    exists w' tb vp, api_LineFeed withReturn wrapForced w = (w', Ok tt) /\
      TerminalApi.view w' = vset_viewport vp (vset_buffer tb (TerminalApi.view w)) /\
      screen_of tb (feed withReturn wrapForced s) /\ fits_viewport vp (sc_page s) /\
      Geometry.bottom vp - top vp = Geometry.bottom (GetViewport w) - top (GetViewport w) /\
      (y (pg_cursor (sc_page s)) + 1 < Geometry.bottom (GetViewport w) -> top vp = top (GetViewport w)).

(** Setting and clearing the pending wrap. *)
Lemma delay_screen op d tb s :
  (forall c, _cPosition (op c).1 = _cPosition c /\ delay_of (op c).1 = d) -> screen_of tb s ->
  exists tb', with_cursor op tb = (tb', Ok tt) /\ screen_of tb' (mkScreen (sc_page s) d).
Proof.
  intros Hop [[H1 H2 H3] Hd]. destruct (with_cursor_same op tb) as (tb' & E & S). exists tb'. split; [done|].
  destruct (Hop (_cursor tb)) as [Hp Hq]. split.
  - eapply page_same; [|exact S]. split; [by apply set_cursor_holds|exact (eq_trans Hp H2)|done].
  - unfold same_page in S. by rewrite S.
Qed.

Section Code.
Context {W : Type} `{FeedLaws W} {GW : GlyphWidth} (statics : Statics) (garbage : wchar).

(** What printing may change: the text buffer, and the viewport, but not its height. *)
Definition scrolls (a a' : Adapter W) : Prop :=
  exists w tb vp, a' = set_world w a /\
    TerminalApi.view w = vset_viewport vp (vset_buffer tb (TerminalApi.view (world a))) /\
    Geometry.bottom vp - top vp = Geometry.bottom (viewport_of a) - top (viewport_of a).

#[global] Instance scrolls_preorder : PreOrder scrolls.
Proof.
  split.
  - intros a. exists (world a), (buffer_of a), (viewport_of a). split_and!; [by destruct a|done|done].
  - intros a1 a2 a3 (w1 & tb1 & vp1 & -> & V1 & M1) (w2 & tb2 & vp2 & -> & V2 & M2).
    exists w2, tb2, vp2. split_and!; [by destruct a1|by rewrite V2; cbn; rewrite V1|].
    unfold viewport_of in M2 at 1 2. cbn in M2. apply (f_equal v_viewport) in V1. cbn in V1. rewrite V1 in M2. lia.
Qed.

#[global] Instance scrolls_frame : Frame scrolls.
Proof.
  split; [apply _|]. intros a a' (w & tb & -> & V). exists w, tb, (viewport_of a). split_and!; [done|by rewrite V|done].
Qed.

(** The state in which text is printed. *)
Record ready (a : Adapter W) (s : screen) : Prop := {
  re_screen : on_screen a s;
  re_valid : valid s;
  re_roomy : roomy s;
  re_viewport : fits_viewport (viewport_of a) (sc_page s)
}.

Lemma only_buffer_viewport a a' : only_buffer a a' -> viewport_of a' = viewport_of a.
Proof. intros (w & tb & -> & V). exact (view_viewport _ _ _ V). Qed.

Lemma screen_delay a s : on_screen a s -> delay_of (_cursor (GetTextBuffer (world a))) = sc_delay s.
Proof. by intros [_ ?]. Qed.

Lemma does_reset_delay a s : on_screen a s -> does_in only_buffer (Adapt.cursor ResetDelayEOLWrap) a tt (mkScreen (sc_page s) None).
Proof. intros Hs. apply does_buf, (delay_screen _ None); [by intros []|done]. Qed.

Lemma does_delay p a s : on_screen a s -> does_in only_buffer (Adapt.cursor (DelayEOLWrap p)) a tt (mkScreen (sc_page s) (Some p)).
Proof. intros Hs. apply does_buf, (delay_screen _ (Some p)); [by intros []|done]. Qed.

Lemma ready_width a s : ready a s ->
  GetLineWidth (y (pg_cursor (sc_page s))) (GetTextBuffer (world a)) = Ok (Z.of_nat (current_width s)).
Proof.
  intros [Hs [_ Hon _] _ _]. rewrite (screen_line_width a s _ Hs Hon). unfold width_at, current_width, row_of. by case_match.
Qed.

Lemma ready_only_buffer a a' s s' :
  ready a s -> only_buffer a a' -> on_screen a' s' -> valid s' -> roomy s' ->
  length (pg_lines (sc_page s')) = length (pg_lines (sc_page s)) -> ready a' s'.
Proof.
  intros Hr Ho Hs Hv Hm Hl. split; [done..|]. rewrite (only_buffer_viewport _ _ Ho). unfold fits_viewport. rewrite Hl. apply Hr.
Qed.

Lemma only_buffer_scrolls a a' : only_buffer a a' -> scrolls a a'.
Proof. apply frame_buffer. Qed.

Lemma line_feed_does a s b f :
  on_screen a s -> on_page (sc_page s) -> fits_viewport (viewport_of a) (sc_page s) ->
  exists a', Adapt.api (api_LineFeed b f) a = (a', Ok tt) /\ on_screen a' (feed b f s) /\
    fits_viewport (viewport_of a') (sc_page s) /\ scrolls a a' /\
    (y (pg_cursor (sc_page s)) + 1 < Geometry.bottom (viewport_of a) -> top (viewport_of a') = top (viewport_of a)).
Proof.
  intros Hs Hon Hf. destruct (feed_law (world a) s b f Hs Hon Hf) as (w & tb & vp & E & V & Hs' & Hf' & Hh & Hv).
  exists (set_world w a). unfold Adapt.api. rewrite E. split_and!; [done| | |by exists w, tb, vp|].
  - unfold on_screen, buffer_of. cbn. apply (f_equal v_buffer) in V. cbn in V. by rewrite V.
  - unfold viewport_of. cbn. apply (f_equal v_viewport) in V. cbn in V. by rewrite V.
  - unfold viewport_of in *. cbn. apply (f_equal v_viewport) in V. cbn in V. by rewrite V.
Qed.

(** The first part of a turn performs the pending wrap. *)
Lemma wrap_turn a s :
  ready a s ->
  exists a1, (delayed <- Adapt.cursor_get _fDelayedEolWrap ;;
     if delayed && true then
       delayedCursorPosition <- Adapt.cursor_get _coordDelayedAt ;;
       Adapt.cursor ResetDelayEOLWrap ;;
       if bool_decide (delayedCursorPosition = pg_cursor (sc_page s)) then
         Adapt.api (api_LineFeed true true) ;;
         cursorPosition <- Adapt.cursor_get _cPosition ;;
         lineWidth <- Adapt.buf_read (GetLineWidth (y cursorPosition)) ;;
         ret (cursorPosition, lineWidth)
       else ret (pg_cursor (sc_page s), Z.of_nat (current_width s))
     else ret (pg_cursor (sc_page s), Z.of_nat (current_width s))) a
    = (a1, Ok (pg_cursor (sc_page (wrap_pending s)), Z.of_nat (current_width (wrap_pending s)))) /\
    ready a1 (wrap_pending s) /\ scrolls a a1.
Proof.
  intros Hr. pose proof (screen_delay a s (re_screen _ _ Hr)) as Hd. unfold delay_of in Hd.
  destruct (wrap_valid s (re_valid _ _ Hr) (re_roomy _ _ Hr)) as (Wv & Wr & _ & _ & Wl).
  unfold bind at 1, Adapt.cursor_get at 1, Adapt.buf_get, Adapt.ask, get. rewrite andb_true_r. unfold wrap_pending in *.
  destruct (_fDelayedEolWrap _); rewrite <- Hd in *; [|exists a; by split_and!].
  unfold bind at 1, Adapt.cursor_get at 1, Adapt.buf_get, Adapt.ask, get.
  destruct (does_reset_delay a s (re_screen _ _ Hr)) as (a1 & E1 & H1' & Q1). rewrite (bind_Ok _ _ _ _ _ E1).
  set (dp := _coordDelayedAt _) in *. destruct (bool_decide (dp = pg_cursor (sc_page s))) eqn:Ep.
  - destruct (line_feed_does a1 _ true true H1' (va_row _ (re_valid _ _ Hr))) as (a2 & E2 & H2' & F2 & Q2 & _).
    { rewrite (only_buffer_viewport _ _ Q1). apply Hr. }
    rewrite (bind_Ok _ _ _ _ _ E2). unfold bind at 1, Adapt.cursor_get, Adapt.buf_get, Adapt.ask, get.
    rewrite (screen_cursor a2 _ H2').
    assert (Hr2 : ready a2 (feed true true (mkScreen (sc_page s) None))).
    { split; [done..|]. unfold fits_viewport in *. by rewrite Wl. }
    unfold bind, Adapt.buf_read, get_result. rewrite (ready_width _ _ Hr2). exists a2. split_and!; [done..|].
    etrans; [by apply only_buffer_scrolls|done].
  - exists a1. split_and!; [done| |by apply only_buffer_scrolls]. by eapply ready_only_buffer.
Qed.

(** The line of the cursor after a write, and what the iterator reports. *)
Lemma write_does a s attrs string (l : line) :
  ready a s -> pg_lines (sc_page s) !! row_of (sc_page s) = Some l ->
  let it := iterator_of_text_attr string attrs 0 in
  let P := (fitting (room s) (glyphs_of string)).1 in
  exists itEnd, does_in only_buffer
      (Adapt.buf_WriteLine statics garbage it (pg_cursor (sc_page s)) (Some true) (Some (Z.of_nat (current_width s) - 1))) a itEnd
      (mkScreen (set_pg_lines (<[row_of (sc_page s) := written_line attrs (column s) (room s) (glyphs_of string) (Some true) l]>
         (pg_lines (sc_page s))) (sc_page s)) (sc_delay s)) /\
    GetInputDistance itEnd it = len (text P) /\ GetCellDistance itEnd it = Z.of_nat (cols P).
Proof.
  intros [Hs [Hlo Hon Hcol] Hm _] Hl it P. destruct Hs as [[Hh Hp Ha] Hd].
  assert (Ecur : pg_cursor (sc_page s) = Point (Z.of_nat (column s)) (Z.of_nat (row_of (sc_page s)))).
  { unfold column, row_of, on_page in *. destruct (pg_cursor (sc_page s)) as [cx cy]. cbn in *. f_equal; lia. }
  assert (Hcw : (current_width s <= pg_width (sc_page s))%nat) by (unfold current_width; rewrite Hl; apply line_width_le).
  assert (Hc : (column s < current_width s)%nat) by (unfold column; lia).
  destruct (WriteLine_holds statics garbage attrs text_size (buffer_of a) _ _ (glyphs_of string) it (Some true)
    (Some (Z.of_nat (current_width s) - 1)) (column s) (room s) (row_of (sc_page s)) l Hh) as (tb & it' & E & F & H' & _ & Epos & Edist);
    [apply presents_string|apply glyphs_of_cells|done|lia|unfold room; lia|cbn; unfold room; lia|].
  exists it'. split_and!.
  - apply does_buf. exists tb. rewrite Ecur. split; [exact E|]. unfold only_rows in F.
    split; [split|]; cbn [sc_page sc_delay set_pg_lines pg_width pg_lines pg_cursor pg_attrs]; [exact H'|by rewrite F..].
  - unfold GetInputDistance. rewrite Epos, psizes_text. fold P. lia.
  - unfold GetCellDistance. rewrite Edist. fold P. lia.
Qed.

(** The end of a turn: the cursor is put at column [c], or a wrap is left pending. *)
Lemma settle_does a s t c attrs G (l : line) {B} (k : point -> M (Adapter W) B) :
  pg_lines (sc_page s) !! row_of (sc_page s) = Some l ->
  sc_page t = set_pg_lines (<[row_of (sc_page s) := written_line attrs (column s) (room s) G (Some true) l]> (pg_lines (sc_page s))) (sc_page s) ->
  on_screen a t ->
  let p := Point (Z.of_nat (current_width s) - 1) (y (pg_cursor (sc_page s))) in
  exists a', (if Z.of_nat (current_width s) <=? Z.of_nat c
     then Adapt.cursor (SetPosition p) ;; Adapt.cursor (DelayEOLWrap p) ;; k p
     else Adapt.cursor (SetPosition (Point (Z.of_nat c) (y (pg_cursor (sc_page s))))) ;; k (Point (Z.of_nat c) (y (pg_cursor (sc_page s))))) a
      = k (pg_cursor (sc_page (put_at c attrs G s))) a' /\
    on_screen a' (put_at c attrs G s) /\ only_buffer a a'.
Proof.
  intros Hl Et Ht p. unfold put_at. rewrite Hl, <- Et. cbv zeta. fold p.
  destruct (Z.leb_spec (Z.of_nat (current_width s)) (Z.of_nat c)), (Nat.leb_spec (current_width s) c); try lia.
  - destruct (does_set_position (R := only_buffer) p a t Ht) as (a1 & E1 & S1 & Q1). rewrite (bind_Ok _ _ _ _ _ E1).
    destruct (does_delay p a1 _ S1) as (a2 & E2 & S2 & Q2). rewrite (bind_Ok _ _ _ _ _ E2).
    exists a2. split_and!; [done|exact S2|by etrans].
  - destruct (does_set_position (R := only_buffer) (Point (Z.of_nat c) (y (pg_cursor (sc_page s)))) a t Ht) as (a1 & E1 & S1 & Q1).
    rewrite (bind_Ok _ _ _ _ _ E1). by exists a1.
Qed.

Lemma valid_columns tb s w : holds tb w (pg_lines (sc_page s)) -> valid s -> Z.of_nat (current_width s) <= MAX_COLUMNS.
Proof.
  intros Hh Hv. destruct (valid_line s Hv) as (l & Hl & Hw & _). unfold current_width. rewrite Hl.
  pose proof (line_width_le (pg_width (sc_page s)) l).
  destruct (row_of_line _ _ _ Hh _ l Hl) as (r & _ & Hsh). pose proof (shows_width_bound _ _ Hsh). lia.
Qed.

(** One turn of the loop: the glyphs that fit, or a pending wrap for one that does not. *)
Lemma print_turn fuel a s attrs string :
  ready a s -> enumset_test (_modes a) InsertReplace = false -> string <> [] ->
  exists a2 s2 string2,
    Adapt.write_text statics garbage (S fuel) true attrs string (pg_cursor (sc_page s)) (Z.of_nat (current_width s)) a
    = Adapt.write_text statics garbage fuel true attrs string2 (pg_cursor (sc_page s2)) (Z.of_nat (current_width s2)) a2 /\
    ready a2 s2 /\ scrolls a a2 /\
    print_glyphs attrs (glyphs_of string) s = print_glyphs attrs (glyphs_of string2) s2 /\
    ((length string2 < length string)%nat \/
     string2 = string /\ (room (wrap_pending s) < 2)%nat /\ (2 <= room (wrap_pending s2))%nat).
Proof.
  intros Hr Hmode Hne.
  destruct (wrap_valid s (re_valid _ _ Hr) (re_roomy _ _ Hr)) as (_ & _ & Wd & _ & _).
  assert (HG : glyphs_of string <> []) by (rewrite glyphs_of_cons by done; done).
  pose proof (glyphs_of_cells string) as HGc.
  rewrite (print_after_wrap attrs _ s (re_valid _ _ Hr) (re_roomy _ _ Hr) HG).
  destruct (wrap_turn a s Hr) as (a1 & E1 & Hr1 & Q1).
  assert (Hmode1 : enumset_test (_modes a1) InsertReplace = false) by (destruct Q1 as (w & tb & vp & -> & _); exact Hmode).
  set (s1 := wrap_pending s) in *. clearbody s1.
  destruct (valid_line s1 (re_valid _ _ Hr1)) as (l & Hl & _).
  destruct (write_does a1 s1 attrs string l Hr1 Hl) as (itEnd & (a2 & E2 & S2 & Q2) & Ei & Ec).
  set (P := (fitting (room s1) (glyphs_of string)).1) in *. set (t := mkScreen _ _) in S2.
  destruct string as [|ch str]; [done|]. cbn [Adapt.write_text]. set (string := ch :: str) in *.
  rewrite <- bind_assoc, (bind_Ok _ _ _ _ _ E1). unfold bind at 1, Adapt.test_mode, get. rewrite Hmode1.
  rewrite bind_ret_l, (bind_Ok _ _ _ _ _ E2), Ei.
  pose proof (re_valid _ _ Hr1) as Hv1. pose proof (va_column _ Hv1) as Hcol.
  destruct (decide (P = [])) as [EP|HP].
  - rewrite EP. change (len (text []) =? 0) with true. cbv iota. rewrite bind_ret_l. cbn [x y].
    destruct (settle_does a2 s1 t (current_width s1) attrs (glyphs_of string) l
      (fun p => Adapt.write_text statics garbage fuel true attrs string p (Z.of_nat (current_width s1))) Hl eq_refl S2)
      as (a3 & E3 & S3 & Q3).
    rewrite E3. destruct (overflow_facts attrs s1 (glyphs_of string) Hv1 (re_roomy _ _ Hr1) Wd HGc HG EP) as (Hv & Hm & Hroom & Hroom2 & Epr & Elen & Ecw).
    exists a3, (put_at (current_width s1) attrs (glyphs_of string) s1), string. rewrite Ecw. split_and!; [done| | |done|by right].
    + eapply ready_only_buffer; [exact Hr1|by etrans|done..].
    + etrans; [exact Q1|]. apply only_buffer_scrolls. by etrans.
  - assert (HPc : cell_glyphs P).
    { pose proof (fitting_app (room s1) (glyphs_of string)) as Ea. fold P in Ea. rewrite <- Ea in HGc. by apply Forall_app in HGc as [? _]. }
    pose proof (text_nonempty P HPc HP) as Hlen.
    assert (El : len (text P) = Z.of_nat (length (text P))) by done.
    destruct (Z.eqb_spec (len (text P)) 0) as [E0|_]; [lia|]. rewrite Ec.
    assert (Hrect : exists r, rect_at (pg_cursor (sc_page s1)) (Size (Z.of_nat (cols P)) 1) = Ok r).
    { pose proof (fitting_cols (room s1) (glyphs_of string)) as Hfc. fold P in Hfc.
      pose proof (po_holds _ _ (so_page _ _ (re_screen _ _ Hr1))) as Hh.
      pose proof (va_row _ Hv1) as Hrow. unfold on_page in Hrow. rewrite (holds_length _ _ _ Hh) in Hrow.
      pose proof (hd_height _ _ _ Hh) as Hh16. pose proof (valid_columns _ _ _ Hh Hv1) as Hcw.
      unfold room, column, MAX_COLUMNS in *. apply rect_at_small; cbn [width height]; lia. }
    destruct Hrect as [r Hrect]. rewrite bind_assoc. unfold bind at 1, get_result. rewrite Hrect.
    destruct (does_api (R := only_buffer) _ a2 t (notify_quiet r) S2) as (a3 & E3 & S3 & Q3).
    rewrite bind_assoc, (bind_Ok _ _ _ _ _ E3), bind_ret_l. cbn [x y]. rewrite El, Nat2Z.id.
    replace (x (pg_cursor (sc_page s1)) + Z.of_nat (cols P)) with (Z.of_nat (column s1 + cols P)) by (unfold column; lia).
    set (string2 := drop (length (text P)) string).
    destruct (settle_does a3 s1 t (column s1 + cols P) attrs (glyphs_of string) l
      (fun p => Adapt.write_text statics garbage fuel true attrs string2 p (Z.of_nat (current_width s1))) Hl eq_refl S3)
      as (a4 & E4 & S4 & Q4).
    rewrite E4. fold (put attrs (glyphs_of string) s1) in S4 |- *.
    destruct (put_at_frame attrs (column s1 + cols P) (glyphs_of string) s1 l Hl) as (Fw & _ & _ & _ & Fl & Fc).
    change (put_at (column s1 + cols P) attrs (glyphs_of string) s1) with (put attrs (glyphs_of string) s1) in *.
    assert (HP1 : (0 < cols P)%nat) by (by apply cols_nonempty).
    exists a4, (put attrs (glyphs_of string) s1), string2. rewrite Fc.
    assert (Q : only_buffer a1 a4) by (etrans; [exact Q2|]; by etrans).
    split_and!; [done| | | |].
    + eapply ready_only_buffer; [exact Hr1|exact Q|done|apply valid_put_at; [done|done|fold P; lia]|unfold roomy; rewrite Fw; apply Hr1|by rewrite Fl, length_insert].
    + etrans; [exact Q1|by apply only_buffer_scrolls].
    + rewrite (print_batch attrs (glyphs_of string) s1 Hv1 Wd HGc). unfold string2, P. by rewrite glyphs_of_rest.
    + left. unfold string2. rewrite length_drop. cbn [string length]. lia.
Qed.

(** Enough fuel prints the whole text. *)
Lemma write_text_does attrs : forall n fuel string a s,
  (length string <= n)%nat -> (2 * length string <= fuel)%nat -> ready a s -> enumset_test (_modes a) InsertReplace = false ->
  exists a', Adapt.write_text statics garbage fuel true attrs string (pg_cursor (sc_page s)) (Z.of_nat (current_width s)) a = (a', Ok tt) /\
    ready a' (print_glyphs attrs (glyphs_of string) s) /\ scrolls a a'.
Proof.
  induction n as [|n IH]; intros fuel string a s Hn Hf Hr Hmode.
  { destruct string; [|cbn in Hn; lia]. exists a. destruct fuel; by split_and!. }
  destruct (decide (string = [])) as [->|Hne]; [exists a; destruct fuel; by split_and!|].
  assert (Hlen : (0 < length string)%nat) by (destruct string; [done|cbn; lia]).
  destruct fuel as [|[|fuel]]; [lia..|].
  assert (Hkeep : forall b, scrolls a b -> enumset_test (_modes b) InsertReplace = false)
    by (intros b (w & tb & vp & -> & _); exact Hmode).
  destruct (print_turn (S fuel) a s attrs string Hr Hmode Hne) as (a1 & s1 & string1 & E1 & R1 & Q1 & P1 & Prog).
  rewrite E1, P1. destruct Prog as [Hlt|(-> & _ & Hroom)].
  - destruct (IH (S fuel) string1 a1 s1 ltac:(lia) ltac:(lia) R1 (Hkeep _ Q1)) as (a2 & E2 & R2 & Q2).
    exists a2. split_and!; [done..|by etrans].
  - destruct (print_turn fuel a1 s1 attrs string R1 (Hkeep _ Q1) Hne) as (a2 & s2 & string2 & E2 & R2 & Q2 & P2 & Prog2).
    destruct Prog2 as [Hlt|(_ & ? & _)]; [|lia]. rewrite E2, P2.
    assert (Q12 : scrolls a a2) by (by etrans).
    destruct (IH fuel string2 a2 s2 ltac:(lia) ltac:(lia) R2 (Hkeep _ Q12)) as (a3 & E3 & R3 & Q3).
    exists a3. split_and!; [done..|by etrans].
Qed.

Lemma ready_step {A} (m : M (Adapter W) A) a s v : ready a s -> does_in only_buffer m a v s ->
  exists a', m a = (a', Ok v) /\ ready a' s /\ only_buffer a a'.
Proof.
  intros Hr (a' & E & S' & Q'). exists a'. split_and!; [done| |done].
  eapply ready_only_buffer; [exact Hr|done|done|apply Hr|apply Hr|done].
Qed.

Lemma WriteToBuffer_does a s string :
  ready a s -> enumset_test (_modes a) InsertReplace = false -> GetAutoWrapMode (world a) = true ->
  exists a', Adapt._WriteToBuffer statics garbage string a = (a', Ok tt) /\
    ready a' (print_glyphs (pg_attrs (sc_page s)) (glyphs_of string) s) /\ scrolls a a'.
Proof.
  intros Hr Hmode Hwrap. unfold Adapt._WriteToBuffer.
  unfold bind at 1, Adapt.cursor_get, Adapt.buf_get, Adapt.ask, get. rewrite (screen_cursor a s (re_screen _ _ Hr)).
  unfold bind at 1, get. rewrite Hwrap. unfold bind at 1, get. rewrite (screen_attributes a s (re_screen _ _ Hr)).
  destruct (ready_step (Adapt.cursor (SetIsOn false)) a s tt Hr) as (a1 & E1 & R1 & Q1).
  { apply does_flag; [auto with screen|apply Hr]. }
  rewrite (bind_Ok _ _ _ _ _ E1). unfold bind at 1, Adapt.buf_read, get_result. rewrite (ready_width a1 s R1).
  unfold bind at 1, get.
  assert (Hm1 : enumset_test (_modes a1) InsertReplace = false) by (destruct Q1 as (w & tb & -> & _); exact Hmode).
  destruct (write_text_does (pg_attrs (sc_page s)) (length string)
    (length string * (Z.to_nat (TotalRowCount (GetTextBuffer (world a1))) + 2)) string a1 s) as (a2 & E2 & R2 & Q2); [done|nia|done..|].
  rewrite (bind_Ok _ _ _ _ _ E2). set (s2 := print_glyphs _ _ s) in *.
  destruct (ready_step Adapt._ApplyCursorMovementFlags a2 s2 tt R2) as (a3 & E3 & R3 & Q3); [apply does_movement_flags, R2|].
  rewrite (bind_Ok _ _ _ _ _ E3).
  destruct (ready_step (Adapt.buf (TriggerNewTextNotification string)) a3 s2 tt R3) as (a4 & E4 & R4 & Q4).
  { apply does_buf, request_screen, R3. }
  exists a4. split_and!; [exact E4|done|].
  etrans; [by apply only_buffer_scrolls|]. etrans; [exact Q2|]. apply only_buffer_scrolls. by etrans.
Qed.

End Code.

(** C11. Printing a text in pieces is printing it glyph by glyph.  Over any terminal with
    automatic wrapping that satisfies the laws of the interface, in replace mode and with at
    least four columns, [PrintString] of a text that needs no translation ends, without an
    exception or undefined behaviour, on the screen of the reference, in which every glyph
    first performs a pending wrap, a wide glyph that does not fit leaves a blank and goes to
    the next line, and one that fills the line leaves a wrap pending; the cursor stays in
    its line, the viewport in the buffer, and nothing but the two changes. *)
Theorem text_printed_glyph_by_glyph (W : Type) (api : ITerminalApi W) (laws : ApiLaws W) (feeds : FeedLaws W)
    (GW : GlyphWidth) (statics : Statics) (garbage : wchar) (a : Adapter W) (s : screen) (string : wstring) :
  ready a s -> enumset_test (_modes a) InsertReplace = false -> GetAutoWrapMode (world a) = true ->
  TermOut.NeedToTranslate (_termOutput a) = false ->
  exists a', Adapt.PrintString statics garbage string a = (a', Ok tt) /\
    ready a' (print_glyphs (pg_attrs (sc_page s)) (glyphs_of string) s) /\ scrolls a a'.
Proof.
  intros Hr Hmode Hwrap Hneed. unfold Adapt.PrintString, bind at 1, get. rewrite Hneed. by apply WriteToBuffer_does.
Qed.
