(* ===== verification/AdaptScroll.v ===== *)
(** * The adapter: filling and scrolling

    [_FillRect] and [_ScrollRectVertically] of src/src/terminal/adapter/adaptDispatch.cpp and
    the sequences built on them (SU, SD, IL, DL, RI), on the lines of a screen. *)

From S2P Require Import Prelude Effects EnumSet DispatchTypes StateMachine Geometry LineRendition Viewport TextColor TextAttribute Rle RleLaws RleSpec Row RowLayout RowSpec RowTheorems CodepointWidth OutputCells RowWrite OutputText Cursor TextBuffer TextBufferSpec TextBufferRing TextBufferPage TextBufferRefine TerminalOutput TerminalInput RenderSettings TerminalApi AdaptDispatch AdaptScreen AdaptCursor AdaptPrint.

Local Open Scope Z_scope.

(** ** Rows of a page *)

(** [f] on the [k] elements from [i] on. *)
Definition map_rows {A} (i k : nat) (f : A -> A) (ls : list A) : list A :=
  take i ls ++ map f (take k (drop i ls)) ++ drop (i + k) ls.

Lemma map_rows_0 {A} i (f : A -> A) ls : map_rows i 0 f ls = ls.
Proof. unfold map_rows. rewrite take_0, Nat.add_0_r. cbn. apply take_drop. Qed.

Lemma map_rows_S {A} i k (f : A -> A) ls l :
  ls !! i = Some l -> map_rows (S i) k f (<[i := f l]> ls) = map_rows i (S k) f ls.
Proof.
  intros Hl. pose proof (lookup_lt_Some _ _ _ Hl). unfold map_rows.
  rewrite (take_S_r _ i (f l)) by (by apply list_lookup_insert_eq).
  rewrite take_insert_ge, !drop_insert_lt by lia. rewrite (drop_S _ _ _ Hl). cbn [take map].
  rewrite <- app_assoc. by replace (i + S k)%nat with (S i + k)%nat by lia.
Qed.

Lemma map_rows_length {A} i k (f : A -> A) ls : (i + k <= length ls)%nat -> length (map_rows i k f ls) = length ls.
Proof. intros Hi. unfold map_rows. rewrite !length_app, length_map, !length_take, !length_drop. lia. Qed.

Lemma map_rows_map_rows {A} i k (f g : A -> A) ls :
  (i + k <= length ls)%nat -> map_rows i k g (map_rows i k f ls) = map_rows i k (fun l => g (f l)) ls.
Proof.
  intros Hi. unfold map_rows.
  assert (H1 : length (take i ls) = i) by (rewrite length_take; lia).
  assert (H2 : length (map f (take k (drop i ls))) = k) by (rewrite length_map, length_take, length_drop; lia).
  rewrite take_app_le, (take_ge (take i ls)) by lia. f_equal.
  rewrite (drop_app_ge (take i ls)), H1, Nat.sub_diag, drop_0 by lia.
  rewrite take_app_le, (take_ge (map _ _)) by lia. rewrite map_map. f_equal.
  rewrite (drop_app_ge (take i ls)), H1, drop_app_ge, H2, drop_drop by lia. f_equal. lia.
Qed.

Lemma map_rows_parts {A} (f : A -> A) (X Y Z : list A) :
  map_rows (length X) (length Y) f (X ++ Y ++ Z) = X ++ map f Y ++ Z.
Proof.
  unfold map_rows. rewrite take_app_length, drop_app_length, take_app_length. do 2 f_equal.
  rewrite drop_app_add, drop_app_length. done.
Qed.

Lemma std_rotate_parts {A} (X Y Z T : list A) f m e :
  f = Z.of_nat (length X) -> m = f + Z.of_nat (length Y) -> e = m + Z.of_nat (length Z) ->
  std_rotate f m e (X ++ Y ++ Z ++ T) = Ok (X ++ Z ++ Y ++ T).
Proof.
  intros -> -> ->. unfold std_rotate. rewrite !length_app, !(proj2 (Z.leb_le _ _)) by lia. cbn [andb]. cbv zeta. f_equal.
  assert (Em : Z.to_nat (Z.of_nat (length X) + Z.of_nat (length Y)) = length (X ++ Y)) by (rewrite length_app; lia).
  assert (Ee : Z.to_nat (Z.of_nat (length X) + Z.of_nat (length Y) + Z.of_nat (length Z)) = length (X ++ Y ++ Z)) by (rewrite !length_app; lia).
  rewrite Nat2Z.id, Em, Ee, take_app_length. f_equal.
  replace (length (X ++ Y ++ Z) - length (X ++ Y))%nat with (length Z) by (rewrite !length_app; lia).
  replace (length (X ++ Y) - length X)%nat with (length Y) by (rewrite length_app; lia).
  rewrite drop_app_length, take_app_length.
  rewrite (app_assoc X Y (Z ++ T)), drop_app_length, take_app_length. f_equal. f_equal.
  rewrite <- (app_assoc X Y (Z ++ T)), (app_assoc Y Z T), (app_assoc X (Y ++ Z) T), drop_app_length. done.
Qed.

(** ** Erased lines *)

(** A line erased from end to end: blank, of single width and not wrapped. *)
Definition erased (columns : nat) (attr : TextAttribute) (l : line) : line :=
  mkLine (spaces columns) (repeat attr columns) SingleWidth false (l_padded l).

Definition set_lines (ls : list line) (s : screen) : screen := mkScreen (set_pg_lines ls (sc_page s)) (sc_delay s).

Definition lines_of (s : screen) : list line := pg_lines (sc_page s).

(** ** Operations on rows keep the cursor *)

Definition same_cursor (tb tb' : TextBuffer) : Prop := _cursor tb' = _cursor tb.

#[export] Instance same_cursor_preorder : PreOrder same_cursor.
Proof. split; [done|]. unfold same_cursor. intros ? ? ? -> ->. done. Qed.

Lemma keeps_get_result {S A} (R : S -> S -> Prop) `{!PreOrder R} (f : S -> Result A) : keeps R (get_result f).
Proof. intros s. reflexivity. Qed.

Lemma ScrollRows_cursor f n d : keeps same_cursor (ScrollRows f n d).
Proof.
  unfold ScrollRows. repeat first [apply keeps_if | apply keeps_bind; [apply _| |intros ?] | apply keeps_get_result; apply _
    | apply keeps_ret | apply keeps_get | apply keeps_modify; done]; try apply _.
Qed.

Lemma on_row_cursor {A} i (m : M ROW A) : keeps same_cursor (on_row i m).
Proof. intros tb. unfold on_row. destruct (GetRowByOffset i tb); [destruct (m _)|..]; done. Qed.

Lemma ResetLineRenditionRange_cursor i j : keeps same_cursor (ResetLineRenditionRange i j).
Proof. apply keeps_iterM; [apply _|]. intros k. apply on_row_cursor. Qed.

(** An operation that is a function on lines and keeps the cursor. *)
Lemma rows_screen {A} (m : M TextBuffer A) v tb s ls :
  keeps same_cursor m -> (exists tb', m tb = (tb', Ok v) /\ page_of tb' (set_pg_lines ls (sc_page s))) ->
  screen_of tb s -> exists tb', m tb = (tb', Ok v) /\ screen_of tb' (set_lines ls s).
Proof.
  intros Hk (tb' & E & Hp) [_ Hd]. exists tb'. split; [done|]. split; [done|].
  specialize (Hk tb). rewrite E in Hk. cbn in Hk. by rewrite Hk.
Qed.

Section Scroll.
Context {W : Type} `{ApiLaws W} {R : Adapter W -> Adapter W -> Prop} `{!Frame R} {GW : GlyphWidth} (statics : Statics) (garbage : wchar).

#[local] Abbreviation does := (does_in R).

Lemma does_rows_op (m : Z -> M (Adapter W) unit) (f : line -> line) (columns : nat) k : forall (i : nat) a s,
  (forall (j : nat) a s l, on_screen a s -> pg_width (sc_page s) = columns -> lines_of s !! j = Some l -> does (m (Z.of_nat j)) a tt (set_lines (<[j := f l]> (lines_of s)) s)) ->
  on_screen a s -> pg_width (sc_page s) = columns -> (i + k <= length (lines_of s))%nat ->
  does (iterM m (map (fun j => Z.of_nat i + Z.of_nat j) (seq 0 k))) a tt (set_lines (map_rows i k f (lines_of s)) s).
Proof.
  induction k as [|k IH]; intros i a s Hm Hs Hcol Hi.
  { rewrite map_rows_0. apply does_ret. by destruct s as [[] ?]. }
  destruct (lookup_lt_is_Some_2 (lines_of s) i) as [l Hl]; [lia|].
  cbn [seq map iterM]. rewrite Z.add_0_r. eapply does_bind; [by apply Hm|]. intros a1 H1 _.
  rewrite <- seq_shift, map_map.
  replace (map (fun x => Z.of_nat i + Z.of_nat (S x)) (seq 0 k)) with (map (fun j => Z.of_nat (S i) + Z.of_nat j) (seq 0 k))
    by (apply map_ext; intros; lia).
  rewrite <- (map_rows_S i k f (lines_of s) l Hl).
  apply (IH (S i) a1 _ Hm H1 Hcol). cbn. rewrite length_insert. fold (lines_of s). lia.
Qed.

(** A line in which [w] columns from [c] on are filled. *)
Definition filled (ch : wchar) (attr : TextAttribute) (columns c w : nat) (l : line) : line :=
  written_line attr c (columns - c) (repeat (fill_glyph ch) w) (Some false) l.

Lemma FillRect_does a s ch attr (c w i k : nat) :
  on_screen a s -> (0 < w)%nat -> (c + w <= pg_width (sc_page s))%nat -> (i + k <= length (lines_of s))%nat ->
  does (Adapt._FillRect statics garbage (Rect (Z.of_nat c) (Z.of_nat i) (Z.of_nat (c + w)) (Z.of_nat (i + k))) ch attr) a tt
    (set_lines (map_rows i k (filled ch attr (pg_width (sc_page s)) c w) (lines_of s)) s).
Proof.
  intros Hs Hw Hc Hi. unfold Adapt._FillRect. cbn [left right top Geometry.bottom].
  destruct (Nat.eq_dec k 0%nat) as [->|Hk].
  { rewrite (proj2 (Z.ltb_ge (Z.of_nat i) (Z.of_nat (i + 0)))), andb_false_r by lia. rewrite map_rows_0.
    apply does_ret. by destruct s as [[] ?]. }
  rewrite !(proj2 (Z.ltb_lt _ _)) by lia. cbn [andb]. cbv zeta.
  replace (Z.of_nat (c + w) - Z.of_nat c) with (Z.of_nat w) by lia.
  eapply does_bind; [|intros a1 H1 _; apply does_api; [apply notify_quiet|exact H1]].
  unfold Adapt.rows_of. replace (Z.to_nat (Z.of_nat (i + k) - Z.of_nat i)) with k by lia.
  apply (does_rows_op _ _ (pg_width (sc_page s))); [|done..]. 
  intros j a2 s2 l Hs2 Hcol Hl. rewrite <- Hcol in *. destruct Hs2 as [[Hh Hp Ha] Hd].
  destruct (WriteLine_holds statics garbage attr one_each (buffer_of a2) _ _ (repeat (fill_glyph ch) w)
    (iterator_of_char_attr ch attr (Z.of_nat w)) (Some false) None c (pg_width (sc_page s2) - c) j l Hh)
    as (tb & it' & E & F & H' & _); [by apply presents_char_fill|apply fill_cells|done|lia|lia|cbn; lia|].
  eapply does_bind; [|intros a3 H3 _; apply does_ret, H3]. apply does_buf. exists tb. split; [exact E|].
  unfold only_rows in F. split; [split|]; [exact H'|by rewrite F..].
Qed.
Lemma drop_all_cols gs : Forall glyph_ok gs -> drop_cols (cols gs) gs = [].
Proof. intros Hg. pose proof (drop_cols_app gs [] 0 Hg) as E. rewrite Nat.add_0_r, app_nil_r in E. exact E. Qed.

Lemma fitting_spaces n : fitting n (spaces n) = (spaces n, []).
Proof. induction n as [|n IH]; [done|]. cbn [spaces repeat fitting g_cols space Nat.leb]. rewrite Nat.sub_succ, Nat.sub_0_r. fold (spaces n). by rewrite IH. Qed.

Lemma filled_erased columns attr l : (0 < columns)%nat -> line_ok columns l ->
  set_l_rendition SingleWidth (filled 0x20 attr columns 0 columns l) = erased columns attr l.
Proof.
  intros Hc (Hw & Hg & Ha). unfold filled. rewrite fill_space, Nat.sub_0_r. fold (spaces columns).
  unfold written_line, write_line, written, cut. rewrite fitting_spaces, cols_spaces, Nat.ltb_irrefl. cbn [andb app].
  rewrite app_nil_r, cols_spaces, Nat.eqb_refl, (proj2 (Nat.ltb_lt 0 columns)) by done. cbn [andb default].
  unfold set_l_attrs, set_l_rendition, erased. cbn [l_glyphs l_attrs l_rendition l_wrap l_padded]. f_equal.
  - unfold l_width in Hw. rewrite splice_eq by (destruct columns; [lia|done]). rewrite cols_spaces. cbn [Nat.add].
    replace (drop_cols columns (l_glyphs l)) with (@nil glyph) by (rewrite <- Hw; by rewrite drop_all_cols).
    rewrite app_nil_r. clear Hw. destruct Hg as [|g gs [_ Hg] _]; [done|]. cbn [take_cols]. by rewrite (proj2 (Nat.leb_gt _ _)).
  - unfold splice_attrs. cbn [take Nat.add]. rewrite (drop_ge (l_attrs l)) by lia. by rewrite app_nil_r.
Qed.

Lemma screen_lines_ok a s : on_screen a s -> Forall (line_ok (pg_width (sc_page s))) (lines_of s).
Proof.
  intros [[Hh _ _] _]. apply Forall_lookup. intros i l Hl. destruct (row_of_line _ _ _ Hh i l Hl) as (r & _ & Hs).
  pose proof (Forall_lookup_1 _ _ _ _ (hd_width _ _ _ Hh) Hl) as Hw. cbn in Hw.
  split_and!; [done|by apply (shows_glyphs_ok r)|by rewrite (shows_attrs_length r l Hs)].
Qed.

Lemma screen_columns a s : on_screen a s -> (0 < pg_width (sc_page s))%nat.
Proof. intros [[Hh _ _] _]. apply (hd_columns _ _ _ Hh). Qed.

Lemma does_erase_attributes a s : on_screen a s -> does Adapt.eraseAttributes a (SetStandardErase (pg_attrs (sc_page s))) s.
Proof. intros Hs. unfold Adapt.eraseAttributes. exists a. split_and!; [|done..]. unfold Adapt.buf_get, Adapt.ask, get. by rewrite (screen_attributes a s Hs). Qed.

(** The erasure at the end of a scroll. *)
Lemma erase_rows_does a s X Y Z :
  on_screen a s -> lines_of s = X ++ Y ++ Z ->
  let i := Z.of_nat (length X) in let j := i + Z.of_nat (length Y) in
  does (attrs <- Adapt.eraseAttributes ;;
        Adapt._FillRect statics garbage (Rect 0 i (Z.of_nat (pg_width (sc_page s))) j) 0x20 attrs ;;
        Adapt.buf (ResetLineRenditionRange i j)) a tt
    (set_lines (X ++ map (erased (pg_width (sc_page s)) (SetStandardErase (pg_attrs (sc_page s)))) Y ++ Z) s).
Proof.
  intros Hs El i j. pose proof (screen_columns a s Hs) as Hw. pose proof (screen_lines_ok a s Hs) as Hok.
  eapply does_bind; [by apply does_erase_attributes|intros a1 H1 _].
  set (attr := SetStandardErase _). set (n := pg_width (sc_page s)) in *.
  assert (Hlen : (length X + length Y <= length (lines_of s))%nat) by (rewrite El, !length_app; lia).
  eapply does_bind.
  { replace j with (Z.of_nat (length X + length Y)) by lia. apply (FillRect_does a1 s 0x20 attr 0 n (length X) (length Y)); [done|lia|done|done]. }
  intros a2 H2 _. apply does_buf.
  assert (Hp : exists tb', ResetLineRenditionRange i j (buffer_of a2) = (tb', Ok tt) /\
    page_of tb' (set_pg_lines (map_rows (length X) (length Y) (set_l_rendition SingleWidth)
      (map_rows (length X) (length Y) (filled 0x20 attr n 0 n) (lines_of s))) (sc_page s))).
  { unfold ResetLineRenditionRange. replace (Z.to_nat (j - i)) with (length Y) by lia.
    apply (ResetLineRenditionRange_page (length Y) (length X) _ _ (so_page _ _ H2)).
    cbn. rewrite map_rows_length by done. exact Hlen. }
  rewrite map_rows_map_rows, El, map_rows_parts in Hp by done.
  assert (Em : map (fun l => set_l_rendition SingleWidth (filled 0x20 attr n 0 n l)) Y = map (erased n attr) Y).
  { apply map_ext_in. intros l Hl. apply filled_erased; [done|]. rewrite El in Hok.
    apply (proj1 (Forall_forall _ _) Hok). rewrite !in_app_iff. auto. }
  rewrite Em in Hp.
  destruct (rows_screen (ResetLineRenditionRange i j) tt (buffer_of a2)
    (set_lines (map_rows (length X) (length Y) (filled 0x20 attr n 0 n) (lines_of s)) s) _ (ResetLineRenditionRange_cursor i j) Hp H2) as (tb' & E & Hs').
  exists tb'. split; [done|exact Hs'].
Qed.

(** Two neighbouring groups of rows exchange: the upper one moves down by the height of the
    lower one, or the lower one up by the height of the upper one. *)
Lemma exchange_rows_does a s X Y Z T first n delta :
  on_screen a s -> lines_of s = X ++ Y ++ Z ++ T ->
  first = Z.of_nat (length X) /\ n = Z.of_nat (length Y) /\ delta = Z.of_nat (length Z) \/
  first = Z.of_nat (length X + length Y) /\ n = Z.of_nat (length Z) /\ delta = - Z.of_nat (length Y) ->
  does (Adapt.buf (ScrollRows first n delta)) a tt (set_lines (X ++ Z ++ Y ++ T) s).
Proof.
  intros Hs El Hcase. apply does_buf, rows_screen; [apply ScrollRows_cursor| |exact Hs].
  apply ScrollRows_page; [apply Hs|]. fold (lines_of s). rewrite El. unfold scroll_lines.
  destruct Hcase as [(-> & -> & ->)|(-> & -> & ->)].
  - destruct (Z.eqb_spec (Z.of_nat (length Z)) 0) as [E|_]; [by destruct Z|].
    rewrite (proj2 (Z.ltb_ge _ _)) by lia. apply std_rotate_parts; lia.
  - destruct (Z.eqb_spec (- Z.of_nat (length Y)) 0) as [E|E]; [by destruct Y; [|cbn in E; lia]|].
    rewrite (proj2 (Z.ltb_lt _ _)) by lia. apply std_rotate_parts; lia.
Qed.

(** ** Scrolling a region of whole lines *)

(** The lines of a region after a scroll by [delta], downwards when it is positive. *)
Definition scrolled (columns : nat) (attr : TextAttribute) (delta : Z) (Y : list line) : list line :=
  let k := Z.to_nat (Z.min (Z.abs delta) (Z.of_nat (length Y))) in
  if 0 <? delta then map (erased columns attr) (drop (length Y - k) Y) ++ take (length Y - k) Y
  else drop k Y ++ map (erased columns attr) (take k Y).

Lemma ScrollRectVertically_does a s X Y Z delta :
  on_screen a s -> lines_of s = X ++ Y ++ Z ->
  let i := Z.of_nat (length X) in
  does (Adapt._ScrollRectVertically statics garbage (Rect 0 i (Z.of_nat (pg_width (sc_page s))) (i + Z.of_nat (length Y))) delta) a tt
    (set_lines (X ++ scrolled (pg_width (sc_page s)) (SetStandardErase (pg_attrs (sc_page s))) delta Y ++ Z) s).
Proof.
  intros Hs El i. unfold Adapt._ScrollRectVertically. set (W0 := pg_width (sc_page s)).
  set (h := Z.of_nat (length Y)). cbn [left right top Geometry.bottom].
  assert (Hbound : h < 2 ^ 16 /\ i < 2 ^ 16).
  { pose proof (po_holds _ _ (so_page _ _ Hs)) as Hh. pose proof (hd_height _ _ _ Hh). pose proof (holds_length _ _ _ Hh) as Hl.
    fold (lines_of s) in Hl. rewrite El, !length_app in Hl. lia. }
  eapply (does_result _ _ _ h).
  { unfold rect_height, CheckSub, checked, INT_MIN, INT_MAX. cbn [Geometry.bottom top]. replace (i + h - i) with h by lia.
    by rewrite !(proj2 (Z.leb_le _ _)) by lia. }
  cbv zeta. set (k := Z.min (Z.abs delta) h).
  set (down := 0 <? delta). set (m := Z.to_nat (if down then h - k else k)).
  assert (EY : Y = take m Y ++ drop m Y) by (by rewrite take_drop).
  assert (Hm : (m <= length Y)%nat) by (unfold m; destruct down; lia).
  assert (H1 : length (take m Y) = m) by (rewrite length_take; lia).
  assert (H2 : length (drop m Y) = (length Y - m)%nat) by apply length_drop.
  set (Y1 := take m Y) in *. set (Y2 := drop m Y) in *.
  eapply (does_bind _ _ _ tt (set_lines (X ++ Y2 ++ Y1 ++ Z) s)).
  { assert (Et : X ++ Y1 ++ Y2 ++ Z = lines_of s) by (rewrite El, EY, <- app_assoc; done).
    destruct (Z.ltb_spec k h) as [Hlt|Hge].
    - eapply does_bind.
      + apply (exchange_rows_does a s X Y1 Y2 Z); [done|done|]. unfold down in *. destruct (0 <? delta); [left|right]; lia.
      + intros a1 S1 _. by apply does_buf, request_screen.
    - apply does_ret. replace (X ++ Y2 ++ Y1 ++ Z) with (lines_of s); [by destruct s as [[] ?]|]. rewrite <- Et. f_equal.
      clearbody Y1 Y2. destruct down; [destruct Y1; [done|cbn in H1; lia]|destruct Y2; [done|cbn in H2; lia]]. }
  intros a1 S1 _.
  unfold scrolled. fold h down k. destruct down eqn:Ed.
  - replace (length Y - Z.to_nat k)%nat with m by lia. fold Y1 Y2. rewrite <- app_assoc.
    replace (i + k) with (i + Z.of_nat (length Y2)) by lia.
    apply (erase_rows_does a1 _ X Y2 (Y1 ++ Z) S1). done.
  - replace (Z.to_nat k) with m by lia. fold Y1 Y2.
    replace (i + h - k + k) with (i + h - k + Z.of_nat (length Y1)) by lia.
    replace (i + h - k) with (Z.of_nat (length (X ++ Y2))) by (rewrite length_app; lia).
    replace (X ++ (Y2 ++ map (erased W0 (SetStandardErase (pg_attrs (sc_page s)))) Y1) ++ Z)
      with ((X ++ Y2) ++ map (erased W0 (SetStandardErase (pg_attrs (sc_page s)))) Y1 ++ Z) by (by rewrite <- !app_assoc).
    apply (erase_rows_does a1 _ (X ++ Y2) Y1 Z S1). cbn. by rewrite <- app_assoc.
Qed.

End Scroll.

(** ** The sequences *)

Inductive scroll_op := SU (n : nat) | SD (n : nat) | IL (n : nat) | DL (n : nat) | RI.

Definition scroll_run {W} `{ITerminalApi W} {GW : GlyphWidth} (statics : Statics) (garbage : wchar) (op : scroll_op) : M (Adapter W) bool :=
  match op with
  | SU n => Adapt.ScrollUp statics garbage (Z.of_nat n)
  | SD n => Adapt.ScrollDown statics garbage (Z.of_nat n)
  | IL n => Adapt.InsertLine statics garbage (Z.of_nat n)
  | DL n => Adapt.DeleteLine statics garbage (Z.of_nat n)
  | RI => Adapt.ReverseLineFeed statics garbage
  end.

(** The lines from one row to another, both included, scrolled; the others stay. *)
Definition scroll_region (first last delta : Z) (s : screen) : screen :=
  let t := Z.to_nat first in let h := Z.to_nat (last + 1 - first) in
  set_lines (take t (lines_of s) ++
    scrolled (pg_width (sc_page s)) (SetStandardErase (pg_attrs (sc_page s))) delta (take h (drop t (lines_of s))) ++
    drop (t + h) (lines_of s)) s.

(** IL and DL act between the cursor and the bottom margin, and only inside of the margins. *)
Definition scroll_lines_here (g : rows) (delta : Z) (s : screen) : screen :=
  let p := pg_cursor (sc_page s) in
  if (top_margin g <=? y p) && (y p <=? bottom_margin g)
  then move_to (Point 0 (y p)) (scroll_region (y p) (bottom_margin g) delta s) else s.

Definition scroll_target (g : rows) (s : screen) (op : scroll_op) : screen :=
  let p := pg_cursor (sc_page s) in
  match op with
  | SU n => scroll_region (top_margin g) (bottom_margin g) (- Z.of_nat n) s
  | SD n => scroll_region (top_margin g) (bottom_margin g) (Z.of_nat n) s
  | IL n => scroll_lines_here g (Z.of_nat n) s
  | DL n => scroll_lines_here g (- Z.of_nat n) s
  | RI => if y p =? top_margin g then scroll_region (top_margin g) (bottom_margin g) 1 s
          else if first_row g <? y p then move_to (Point (Z.min (x p) (width_at (sc_page s) (y p - 1) - 1)) (y p - 1)) s
          else s
  end.

Section Sequences.
Context {W : Type} `{ApiLaws W} {GW : GlyphWidth} (statics : Statics) (garbage : wchar).

#[local] Abbreviation does := (does_in quiet).

Lemma region_does a s first last delta :
  on_screen a s -> 0 <= first <= last + 1 -> last < Z.of_nat (length (lines_of s)) ->
  does (Adapt._ScrollRectVertically statics garbage (Rect 0 first (Z.of_nat (pg_width (sc_page s))) (last + 1)) delta) a tt
    (scroll_region first last delta s).
Proof.
  intros Hs Hf Hl. unfold scroll_region. cbv zeta. set (t := Z.to_nat first). set (h := Z.to_nat (last + 1 - first)).
  assert (Ht : length (take t (lines_of s)) = t) by (rewrite length_take; lia).
  assert (Hh : length (take h (drop t (lines_of s))) = h) by (rewrite length_take, length_drop; lia).
  pose proof (ScrollRectVertically_does (R := quiet) statics garbage a s (take t (lines_of s)) (take h (drop t (lines_of s)))
    (drop (t + h) (lines_of s)) delta Hs) as Hd. cbv zeta in Hd. rewrite Ht, Hh in Hd.
  replace (Z.of_nat t) with first in Hd by lia. replace (first + Z.of_nat h) with (last + 1) in Hd by lia. apply Hd.
  by rewrite <- drop_drop, !take_drop.
Qed.

Lemma does_width {B} (k : Z -> M (Adapter W) B) a s u s' :
  on_screen a s -> does (k (Z.of_nat (pg_width (sc_page s)))) a u s' ->
  does (bind (Adapt.buf_get (fun tb => Width (GetSize tb))) k) a u s'.
Proof. intros Hs Hk. apply does_get. by rewrite (screen_width a s Hs). Qed.

Lemma does_cursor {B} (k : point -> M (Adapter W) B) a s u s' :
  on_screen a s -> does (k (pg_cursor (sc_page s))) a u s' -> does (bind (Adapt.cursor_get _cPosition) k) a u s'.
Proof. intros Hs Hk. apply does_get. by rewrite (screen_cursor a s Hs). Qed.

Lemma ScrollMovement_does a s delta :
  on_screen a s -> rows_ok (rows_of_adapter a) (sc_page s) ->
  does (Adapt._ScrollMovement statics garbage delta) a tt
    (scroll_region (top_margin (rows_of_adapter a)) (bottom_margin (rows_of_adapter a)) delta s).
Proof.
  intros Hs (Hf & Hl & Ht & Hb & _). unfold Adapt._ScrollMovement. apply does_get. fold (viewport_of a).
  apply (does_width _ a s); [done|].
  eapply does_bind; [apply (does_margins a s true Hs)|intros a1 H1 _]. cbn [fst snd].
  apply region_does; [done|..]; cbn [rows_of_adapter first_row last_row top_margin bottom_margin] in *; unfold lines_of; lia.
Qed.

Lemma InsertDeleteLine_does a s delta :
  on_screen a s -> rows_ok (rows_of_adapter a) (sc_page s) ->
  does (Adapt._InsertDeleteLineHelper statics garbage delta) a tt (scroll_lines_here (rows_of_adapter a) delta s).
Proof.
  intros Hs (Hf & Hl & Ht & Hb & _). unfold Adapt._InsertDeleteLineHelper. apply does_get. fold (viewport_of a).
  apply (does_width _ a s); [done|]. apply (does_cursor _ a s); [done|]. cbv zeta.
  eapply does_bind; [apply (does_margins a s true Hs)|intros a1 H1 _]. cbn [fst snd].
  unfold scroll_lines_here. cbv zeta. set (p := pg_cursor (sc_page s)). cbn [rows_of_adapter top_margin bottom_margin first_row last_row] in *.
  destruct (Z.leb_spec (fst (margins_of a) + top (viewport_of a)) (y p)), (Z.leb_spec (y p) (snd (margins_of a) + top (viewport_of a)));
    cbn [andb]; try (by apply does_ret).
  eapply does_bind; [apply (region_does a1 s); [done|lia|unfold lines_of; lia]|intros a2 S2 _].
  eapply does_bind; [apply (does_move (fun q => Point 0 (y q)) a2 _ S2)|intros a3 S3 _].
  by apply does_movement_flags.
Qed.

Lemma scroll_op_does op a s :
  on_screen a s -> rows_ok (rows_of_adapter a) (sc_page s) -> in_view (rows_of_adapter a) (sc_page s) ->
  does (scroll_run statics garbage op) a true (scroll_target (rows_of_adapter a) s op).
Proof.
  intros Hs Hok Hin.
  destruct op; cbn [scroll_run scroll_target]; unfold Adapt.ScrollUp, Adapt.ScrollDown, Adapt.InsertLine, Adapt.DeleteLine;
    try (eapply does_bind; [first [by apply ScrollMovement_does|by apply InsertDeleteLine_does]|intros a1 H1 _; by apply does_ret]).
  pose proof Hok as (Hf & Hl & Ht & Hb & _). destruct Hin as [Hy _].
  unfold Adapt.ReverseLineFeed. apply does_get. fold (viewport_of a). apply (does_cursor _ a s); [done|].
  eapply does_bind; [apply (does_margins a s true Hs)|intros a1 H1 _]. cbn [fst snd].
  cbn [rows_of_adapter top_margin bottom_margin first_row last_row] in *. set (p := pg_cursor (sc_page s)) in *.
  eapply does_bind; [|intros a2 S2 _; by apply does_ret].
  destruct (y p =? fst (margins_of a) + top (viewport_of a)).
  { apply (does_width _ a1 s); [done|]. apply region_does; [done|lia|unfold lines_of; lia]. }
  destruct (Z.ltb_spec (top (viewport_of a)) (y p)); [|by apply does_ret].
  eapply does_result.
  { unfold ClampPositionWithinLine. cbn [y]. rewrite (screen_line_width a1 s (y p - 1) H1) by lia. reflexivity. }
  eapply does_bind; [apply (does_set_position _ a1 s H1)|intros a2 S2 _]. by apply does_movement_flags.
Qed.

End Sequences.

(** C13. The sequences that scroll (SU, SD, IL, DL, RI), over any terminal that satisfies the
    laws of the interface, move whole lines between the margins (for IL and DL from the line
    of the cursor on, and only when it is inside of them): the lines scrolled in are blank,
    of single width and have the erase attributes, the lines scrolled out are lost, all
    others keep their order and their contents; RI above or below the top margin moves the
    cursor instead. *)
Theorem lines_scroll_in_margins (W : Type) (api : ITerminalApi W) (laws : ApiLaws W) (GW : GlyphWidth)
    (statics : Statics) (garbage : wchar) (a : Adapter W) (s : screen) (op : scroll_op) :
  on_screen a s -> rows_ok (rows_of_adapter a) (sc_page s) -> in_view (rows_of_adapter a) (sc_page s) ->
  exists a', scroll_run statics garbage op a = (a', Ok true) /\
    on_screen a' (scroll_target (rows_of_adapter a) s op) /\ quiet a a'.
Proof. intros Hs Hok Hin. by apply scroll_op_does. Qed.
