(* ===== verification/AdaptOps.v ===== *)
(** * The adapter: erasing and rectangles

    Models the erasure of lines and of the screen, selective erasure, the operations on
    rectangular areas and line renditions of src/src/terminal/adapter/adaptDispatch.cpp, and
    the numbers of the modes (src/src/terminal/adapter/DispatchTypes.hpp). *)

From S2P Require Import Prelude Effects EnumSet DispatchTypes StateMachine Geometry LineRendition Viewport ViewportSpec TextColor TextAttribute SgrStack AdaptGraphics MacroBuffer Rle Row TerminalOutput CodepointWidth OutputCells RowWrite Cursor TextBuffer InputEvents TerminalInput RenderSettings TerminalApi TermDispatch AdaptDispatch.

Local Open Scope Z_scope.

(** ** Constants *)

Module ModeParams.
Definition IRM_InsertReplaceMode : VTInt := ANSIStandardMode 4.
Definition DECCKM_CursorKeysMode : VTInt := DECPrivateMode 1.
Definition DECCOLM_SetNumberOfColumns : VTInt := DECPrivateMode 3.
Definition DECSCNM_ScreenMode : VTInt := DECPrivateMode 5.
Definition DECOM_OriginMode : VTInt := DECPrivateMode 6.
Definition DECAWM_AutoWrapMode : VTInt := DECPrivateMode 7.
Definition DECARM_AutoRepeatMode : VTInt := DECPrivateMode 8.
Definition ATT610_StartCursorBlink : VTInt := DECPrivateMode 12.
Definition DECTCEM_TextCursorEnableMode : VTInt := DECPrivateMode 25.
Definition XTERM_EnableDECCOLMSupport : VTInt := DECPrivateMode 40.
Definition DECNKM_NumericKeypadMode : VTInt := DECPrivateMode 66.
Definition DECBKM_BackarrowKeyMode : VTInt := DECPrivateMode 67.
Definition VT200_MOUSE_MODE : VTInt := DECPrivateMode 1000.
Definition BUTTON_EVENT_MOUSE_MODE : VTInt := DECPrivateMode 1002.
Definition ANY_EVENT_MOUSE_MODE : VTInt := DECPrivateMode 1003.
Definition FOCUS_EVENT_MODE : VTInt := DECPrivateMode 1004.
Definition UTF8_EXTENDED_MODE : VTInt := DECPrivateMode 1005.
Definition SGR_EXTENDED_MODE : VTInt := DECPrivateMode 1006.
Definition ALTERNATE_SCROLL : VTInt := DECPrivateMode 1007.
Definition ASB_AlternateScreenBuffer : VTInt := DECPrivateMode 1049.
Definition XTERM_BracketedPasteMode : VTInt := DECPrivateMode 2004.
Definition W32IM_Win32InputMode : VTInt := DECPrivateMode 9001.
End ModeParams.

(** The modes that are a mode of the terminal input. *)
Definition input_modes : list (VTInt * TerminalInput.Mode) :=
  [(ModeParams.DECCKM_CursorKeysMode, TerminalInput.CursorKey);
   (ModeParams.DECARM_AutoRepeatMode, TerminalInput.AutoRepeat);
   (ModeParams.DECNKM_NumericKeypadMode, TerminalInput.Keypad);
   (ModeParams.DECBKM_BackarrowKeyMode, TerminalInput.BackarrowKey);
   (ModeParams.VT200_MOUSE_MODE, TerminalInput.DefaultMouseTracking);
   (ModeParams.BUTTON_EVENT_MOUSE_MODE, TerminalInput.ButtonEventMouseTracking);
   (ModeParams.ANY_EVENT_MOUSE_MODE, TerminalInput.AnyEventMouseTracking);
   (ModeParams.UTF8_EXTENDED_MODE, TerminalInput.Utf8MouseEncoding);
   (ModeParams.SGR_EXTENDED_MODE, TerminalInput.SgrMouseEncoding);
   (ModeParams.FOCUS_EVENT_MODE, TerminalInput.FocusEvent);
   (ModeParams.ALTERNATE_SCROLL, TerminalInput.AlternateScroll);
   (ModeParams.W32IM_Win32InputMode, TerminalInput.Win32)].

Definition input_mode (param : VTInt) : option TerminalInput.Mode :=
  snd <$> List.find (fun p => fst p =? param) input_modes.

Definition CP_UTF8 : Z := 65001.

Definition s_sDECCOLMSetColumns : VTInt := 132.
Definition s_sDECCOLMResetColumns : VTInt := 80.

(** [%04X] of a [uint16_t]. *)
Definition hex_digit (n : Z) : wchar := if n <? 10 then 0x30 + n else 0x41 + (n - 10).
Definition format_hex4 (n : Z) : wstring :=
  map (fun k => hex_digit (Z.land (Z.shiftr n k) 0xf)) [12; 8; 4; 0].

Definition ESC (s : wstring) : wstring := 0x1B :: s.
Definition ST : wstring := [0x1B; 0x5C].

Module AdaptOps.
Section AdaptOps.
Context {W : Type} `{ITerminalApi W} {GW : GlyphWidth} (statics : Statics) (garbage : wchar).

#[local] Abbreviation D := (M (Adapter W)).
#[local] Abbreviation FillRect := (Adapt._FillRect statics garbage).
Import Adapt.

(** ** Erasing *)

Definition EraseCharacters (numChars : VTInt) : D bool :=
  p <- cursor_get _cPosition ;;
  w <- buf_read (GetLineWidth (y p)) ;;
  let endCol := Z.min (x p + numChars) w in
  attrs <- eraseAttributes ;;
  FillRect (Rect (x p) (y p) endCol (y p + 1)) 0x20 attrs ;;
  ret true.

Definition _EraseScrollback : D unit :=
  viewport <- ask GetViewport ;;
  let top_ := top viewport in
  let height_ := bottom viewport - top viewport in
  bufferSize <- buf_get (fun tb => Dimensions (GetSize tb)) ;;
  p <- cursor_get _cPosition ;;
  buf (ScrollRows top_ height_ (- top_)) ;;
  FillRect (Rect 0 height_ (width bufferSize) (height bufferSize)) 0x20 TextAttribute_default ;;
  buf (ResetLineRenditionRange height_ (height bufferSize)) ;;
  api (SetViewportPosition (Point (left viewport) 0)) ;;
  cursor (SetYPosition (y p - top_)) ;;
  cursor (SetHasMoved true).

Definition _EraseAll : D unit :=
  viewport <- ask GetViewport ;;
  let viewportHeight := bottom viewport - top viewport in
  bufferSize <- buf_get GetSize ;;
  p <- cursor_get _cPosition ;;
  let row := y p - top viewport in
  lastChar <- buf_read (GetLastNonSpaceCharacter None) ;;
  let newViewportTop := if bool_decide (lastChar = Point 0 0) then 0 else y lastChar + 1 in
  let newViewportBottom := newViewportTop + viewportHeight in
  let delta := newViewportBottom - Height bufferSize in
  iterM (fun _ => buf (IncrementCircularBuffer false) ;; ret tt) (repeat tt (Z.to_nat delta)) ;;
  let newViewportTop := newViewportTop - Z.max 0 delta in
  api (SetViewportPosition (Point (left viewport) newViewportTop)) ;;
  cursor (SetYPosition (row + newViewportTop)) ;;
  cursor (SetHasMoved true) ;;
  attrs <- eraseAttributes ;;
  FillRect (Rect 0 newViewportTop (Width bufferSize) newViewportBottom) 0x20 attrs ;;
  buf (ResetLineRenditionRange newViewportTop newViewportBottom).

Definition EraseInDisplay (eraseType : VTInt) : D bool :=
  if EraseType.Scrollback <? eraseType then ret false
  else if eraseType =? EraseType.Scrollback then
    _EraseScrollback ;; pty <- ask IsConsolePty ;; ret (negb pty)
  else if eraseType =? EraseType.All then
    _EraseAll ;; pty <- ask IsConsolePty ;; ret (negb pty)
  else
    viewport <- ask GetViewport ;;
    bufferWidth <- buf_get (fun tb => Width (GetSize tb)) ;;
    p <- cursor_get _cPosition ;;
    let row := y p in
    let col := x p in
    attrs <- eraseAttributes ;;
    (if eraseType =? EraseType.FromBeginning then
       buf (ResetLineRenditionRange (top viewport) row) ;;
       FillRect (Rect 0 (top viewport) bufferWidth row) 0x20 attrs ;;
       FillRect (Rect 0 row (col + 1) (row + 1)) 0x20 attrs
     else ret tt) ;;
    (if eraseType =? EraseType.ToEnd then
       buf (ResetLineRenditionRange (if 0 <? col then row + 1 else row) (bottom viewport)) ;;
       FillRect (Rect col row bufferWidth (row + 1)) 0x20 attrs ;;
       FillRect (Rect 0 (row + 1) bufferWidth (bottom viewport)) 0x20 attrs
     else ret tt) ;;
    ret true.

Definition EraseInLine (eraseType : VTInt) : D bool :=
  p <- cursor_get _cPosition ;;
  let row := y p in
  let col := x p in
  attrs <- eraseAttributes ;;
  if eraseType =? EraseType.FromBeginning then
    FillRect (Rect 0 row (col + 1) (row + 1)) 0x20 attrs ;; ret true
  else if eraseType =? EraseType.ToEnd then
    w <- buf_read (GetLineWidth row) ;;
    FillRect (Rect col row w (row + 1)) 0x20 attrs ;; ret true
  else if eraseType =? EraseType.All then
    w <- buf_read (GetLineWidth row) ;;
    FillRect (Rect 0 row w (row + 1)) 0x20 attrs ;; ret true
  else ret false.

(** Every cell of a rectangle, row by row. *)
Definition each_cell (r : rect) (f : Z -> Z -> D unit) : D unit :=
  iterM (fun row => iterM (fun col => f row col) (rows_of (left r) (right r))) (rows_of (top r) (bottom r)).

Definition _SelectiveEraseRect (eraseRect : rect) : D unit :=
  if rect_bool eraseRect then
    each_cell eraseRect (fun row col =>
      r <- buf_read (GetRowByOffset row) ;;
      attr <- get_result (fun _ => GetAttrByColumn col r) ;;
      if negb (IsProtected attr) then
        buf (on_row row (ClearCell garbage col)) ;;
        buf (TriggerRedraw (FromCoord (Point col row)))
      else ret tt) ;;
    api (NotifyAccessibilityChange eraseRect)
  else ret tt.

Definition SelectiveEraseInDisplay (eraseType : VTInt) : D bool :=
  viewport <- ask GetViewport ;;
  bufferWidth <- buf_get (fun tb => Width (GetSize tb)) ;;
  p <- cursor_get _cPosition ;;
  let row := y p in
  let col := x p in
  if eraseType =? EraseType.FromBeginning then
    _SelectiveEraseRect (Rect 0 (top viewport) bufferWidth row) ;;
    _SelectiveEraseRect (Rect 0 row (col + 1) (row + 1)) ;; ret true
  else if eraseType =? EraseType.ToEnd then
    _SelectiveEraseRect (Rect col row bufferWidth (row + 1)) ;;
    _SelectiveEraseRect (Rect 0 (row + 1) bufferWidth (bottom viewport)) ;; ret true
  else if eraseType =? EraseType.All then
    _SelectiveEraseRect (Rect 0 (top viewport) bufferWidth (bottom viewport)) ;; ret true
  else ret false.

Definition SelectiveEraseInLine (eraseType : VTInt) : D bool :=
  p <- cursor_get _cPosition ;;
  let row := y p in
  let col := x p in
  if eraseType =? EraseType.FromBeginning then
    _SelectiveEraseRect (Rect 0 row (col + 1) (row + 1)) ;; ret true
  else if eraseType =? EraseType.ToEnd then
    w <- buf_read (GetLineWidth row) ;;
    _SelectiveEraseRect (Rect col row w (row + 1)) ;; ret true
  else if eraseType =? EraseType.All then
    w <- buf_read (GetLineWidth row) ;;
    _SelectiveEraseRect (Rect 0 row w (row + 1)) ;; ret true
  else ret false.

(** ** Rectangles *)

(** What the operations do to the attribute of one cell. *)
Definition change_attr (ops : ChangeOps) (attr : TextAttribute) : TextAttribute :=
  let characterAttributes := Z.lxor (Z.land (_attrs attr) (andAttrMask ops)) (xorAttrMask ops) in
  let attr := set_attrs characterAttributes attr in
  let attr := match co_foreground ops with Some c => SetForeground c attr | None => attr end in
  match co_background ops with Some c => SetBackground c attr | None => attr end.

Definition _ChangeRectAttributes (changeRect : rect) (ops : ChangeOps) : D unit :=
  if rect_bool changeRect then
    each_cell changeRect (fun row col =>
      r <- buf_read (GetRowByOffset row) ;;
      attr <- get_result (fun _ => GetAttrByColumn col r) ;;
      buf (on_row row (ReplaceAttributes col (col + 1) (change_attr ops attr)))) ;;
    buf (TriggerRedraw (FromExclusive changeRect)) ;;
    api (NotifyAccessibilityChange changeRect)
  else ret tt.

Definition _CalculateRectArea (top_ left_ bottom_ right_ : VTInt) (bufferSize : Geometry.size) : D rect :=
  viewport <- ask GetViewport ;;
  margins <- _GetVerticalMargins viewport false ;;
  let '(topMargin, bottomMargin) := margins in
  origin <- test_mode Origin ;;
  h <- get_result (fun _ => rect_height viewport) ;;
  let yOffset := if origin : bool then topMargin else 0 in
  let yMaximum := if origin : bool then bottomMargin + 1 else h in
  let xMaximum := width bufferSize in
  let right_ := if right_ =? 0 then xMaximum else right_ in
  let bottom_ := if bottom_ =? 0 then yMaximum else bottom_ + yOffset in
  ret (rect_of_inclusive (InclusiveRect
    (Z.min left_ xMaximum - 1) (Z.min (top_ + yOffset) yMaximum - 1 + top viewport)
    (Z.min right_ xMaximum - 1) (Z.min bottom_ yMaximum - 1 + top viewport))).

Definition calculate_area (top_ left_ bottom_ right_ : VTInt) : D rect :=
  bufferSize <- buf_get (fun tb => Dimensions (GetSize tb)) ;;
  _CalculateRectArea top_ left_ bottom_ right_ bufferSize.

Definition _ChangeRectOrStreamAttributes (changeArea : rect) (ops : ChangeOps) : D unit :=
  bufferSize <- buf_get (fun tb => Dimensions (GetSize tb)) ;;
  changeRect <- _CalculateRectArea (top changeArea) (left changeArea) (bottom changeArea) (right changeArea) bufferSize ;;
  lineCount <- get_result (fun _ => rect_height changeRect) ;;
  rectangle <- test_mode RectangularChangeExtent ;;
  if rectangle || (lineCount =? 1) then _ChangeRectAttributes changeRect ops
  else if (1 <? lineCount) && (left changeRect <? right changeRect) then
    let bufferWidth := width bufferSize in
    r1 <- get_result (fun _ => rect_at (origin changeRect) (Size (bufferWidth - left changeRect) 1)) ;;
    _ChangeRectAttributes r1 ops ;;
    r2 <- get_result (fun _ => rect_at (Point 0 (top changeRect + 1)) (Size bufferWidth (lineCount - 2))) ;;
    _ChangeRectAttributes r2 ops ;;
    r3 <- get_result (fun _ => rect_at (Point 0 (bottom changeRect - 1)) (Size (right changeRect) 1)) ;;
    _ChangeRectAttributes r3 ops
  else ret tt.

(** The effect of a list of options, found by applying them to two attributes. *)
Definition change_ops (attrs : VTParameters) : Result ChangeOps :=
  let? allAttrsOff := _ApplyGraphicsOptions attrs TextAttribute_default in
  let? allAttrsOn := _ApplyGraphicsOptions attrs (set_attrs All (TextAttribute_rgb 0 0)) in
  let orAttrMask := _attrs allAttrsOff in
  let andAttrMask := _attrs allAttrsOn in
  let foreground := _foreground allAttrsOff in
  let background := _background allAttrsOff in
  let foregroundChanged := negb (is_type IsDefault foreground) || is_type IsDefault (_foreground allAttrsOn) in
  let backgroundChanged := negb (is_type IsDefault background) || is_type IsDefault (_background allAttrsOn) in
  Ok (mkChangeOps (Z.ldiff andAttrMask orAttrMask) orAttrMask
        (if foregroundChanged then Some foreground else None)
        (if backgroundChanged then Some background else None)).

Definition ChangeAttributesRectangularArea (top_ left_ bottom_ right_ : VTInt) (attrs : VTParameters) : D bool :=
  ops <- get_result (fun _ => change_ops attrs) ;;
  _ChangeRectOrStreamAttributes (Rect left_ top_ right_ bottom_) ops ;;
  ret true.

(** [for (size_t i = 0; i < attrs.size();)]: every turn takes at least one parameter. *)
Fixpoint reverse_mask_loop (fuel : nat) (attrs : VTParameters) (i : nat) (reverseMask : Z) : Result Z :=
  if params_size attrs <=? Z.of_nat i then Ok reverseMask
  else
    match fuel with
    | O => OutOfFuel
    | S fuel =>
        if value_or (params_at attrs i) 0 =? 0
        then reverse_mask_loop fuel attrs (i + 1) (Z.lxor reverseMask Rendition)
        else
          match _ApplyGraphicsOption attrs i TextAttribute_default with
          | None => Undefined
          | Some (a, n) => reverse_mask_loop fuel attrs (i + n) (Z.lxor reverseMask (_attrs a))
          end
    end.

Definition reverse_mask (attrs : VTParameters) : Result Z :=
  match attrs with [] => Ok Normal | _ => reverse_mask_loop (length attrs) attrs 0 Normal end.

Definition ReverseAttributesRectangularArea (top_ left_ bottom_ right_ : VTInt) (attrs : VTParameters) : D bool :=
  reverseMask <- get_result (fun _ => reverse_mask attrs) ;;
  (if negb (reverseMask =? Normal)
   then _ChangeRectOrStreamAttributes (Rect left_ top_ right_ bottom_) (mkChangeOps All reverseMask None None)
   else ret tt) ;;
  ret true.

Definition CopyRectangularArea (top_ left_ bottom_ right_ page dstTop dstLeft dstPage : VTInt) : D bool :=
  bufferSize <- buf_get (fun tb => Dimensions (GetSize tb)) ;;
  srcRect <- _CalculateRectArea top_ left_ bottom_ right_ bufferSize ;;
  h <- get_result (fun _ => rect_height srcRect) ;;
  w <- get_result (fun _ => rect_width srcRect) ;;
  dstRect <- _CalculateRectArea dstTop dstLeft (dstTop + h - 1) (dstLeft + w - 1) bufferSize ;;
  (if rect_bool dstRect && negb (bool_decide (origin dstRect = origin srcRect)) then
     dh <- get_result (fun _ => rect_height dstRect) ;;
     dw <- get_result (fun _ => rect_width dstRect) ;;
     let srcView := FromDimensionsSize (origin srcRect) (Size dw dh) in
     let dstView := FromDimensionsSize (origin dstRect) (Size dw dh) in
     move_view statics garbage (fun p => lw <- buf_read (GetLineWidth (y p)) ;; ret (x p <? lw)) srcView dstView ;;
     api (NotifyAccessibilityChange dstRect)
   else ret tt) ;;
  ret true.

Definition FillRectangularArea (ch : VTParameter) (top_ left_ bottom_ right_ : VTInt) : D bool :=
  fillRect <- calculate_area top_ left_ bottom_ right_ ;;
  let charValue := if value_or ch 0 =? 0 then 32 else ch in
  let glChar := (32 <=? charValue) && (charValue <=? 126) in
  let grChar := (160 <=? charValue) && (charValue <=? 255) in
  cp <- ask GetConsoleOutputCP ;;
  let unicodeChar := (256 <=? charValue) && (charValue <=? 65535) && (cp =? CP_UTF8) in
  (if glChar || grChar || unicodeChar then
     fillChar <- termOut (TermOut.TranslateKey charValue) ;;
     fillAttributes <- buf_get GetCurrentAttributes ;;
     w <- get_result (fun _ => rect_width fillRect) ;;
     let fillRect :=
       if bool_decide (char_width_attr fillChar = Leading)
       then Rect (left fillRect) (top fillRect) (left fillRect + Z.quot w 2) (bottom fillRect) else fillRect in
     FillRect fillRect fillChar fillAttributes
   else ret tt) ;;
  ret true.

Definition EraseRectangularArea (top_ left_ bottom_ right_ : VTInt) : D bool :=
  eraseRect <- calculate_area top_ left_ bottom_ right_ ;;
  attrs <- eraseAttributes ;;
  FillRect eraseRect 0x20 attrs ;;
  ret true.

Definition SelectiveEraseRectangularArea (top_ left_ bottom_ right_ : VTInt) : D bool :=
  eraseRect <- calculate_area top_ left_ bottom_ right_ ;;
  _SelectiveEraseRect eraseRect ;;
  ret true.

(** [ChangeExtent]: 0 (default), 1 (stream), 2 (rectangle). *)
Definition SelectAttributeChangeExtent (changeExtent : VTInt) : D bool :=
  if (changeExtent =? 0) || (changeExtent =? 1) then reset_modes [RectangularChangeExtent] ;; ret true
  else if changeExtent =? 2 then set_mode RectangularChangeExtent true ;; ret true
  else ret false.

Definition SetLineRendition (rendition : LineRendition) : D bool :=
  buf (SetCurrentLineRendition statics garbage rendition) ;; ret true.

End AdaptOps.
End AdaptOps.
