(* ===== verification/AdaptCopy.v ===== *)
(** * The adapter: copies within the buffer

    The loops of src/src/terminal/adapter/adaptDispatch.cpp that move the cells of a
    rectangle to another place of the same buffer, one cell at a time: the insertion and
    deletion of characters ([_ScrollRectHorizontally]) and the copy of a rectangle
    ([CopyRectangularArea]).  The buffer is the text buffer; on lines that hold glyphs of
    one column only, a cell is read and written as a whole, and the copy is a simultaneous
    one however source and target overlap. *)

From Stdlib Require Import ZifyBool.
From S2P Require Import Prelude Effects EnumSet DispatchTypes StateMachine Geometry LineRendition Viewport ViewportSpec TextColor TextAttribute Rle RleLaws RleSpec Row RowLayout RowSpec RowTheorems CodepointWidth OutputCells RowWrite OutputText Cursor TextBuffer TextBufferSpec TextBufferRing TextBufferPage TextBufferRefine TerminalOutput TerminalInput RenderSettings TerminalApi AdaptDispatch AdaptScreen AdaptCursor AdaptPrint AdaptScroll AdaptOps.

Local Open Scope Z_scope.

(** ** The target of a copy *)

Lemma FromDimensions_offset source (targetOrigin : point) :
  FromDimensionsSize targetOrigin (Dimensions source) =
  Offset source (Point (x targetOrigin - Left source) (y targetOrigin - Top source)).
Proof.
  destruct source as [[l t r b]], targetOrigin as [tx ty]. unfold FromDimensionsSize, Offset, Dimensions.
  unfold_viewport. cbn. do 2 f_equal; lia.
Qed.

Lemma walk_origin v dir : GetWalkOrigin v dir = walk_cell v dir 0 0.
Proof. unfold GetWalkOrigin, walk_cell. destruct (dir_x dir), (dir_y dir); f_equal; lia. Qed.

Section Moved.
Context (source : Viewport) (delta : point).

Definition moved : Viewport := Offset source delta.
Definition shifted (p : point) : point := Point (x p + x delta) (y p + y delta).
Definition unshifted (p : point) : point := Point (x p - x delta) (y p - y delta).

Lemma shifted_unshifted p : shifted (unshifted p) = p.
Proof. destruct p. unfold shifted, unshifted; cbn. f_equal; lia. Qed.

Lemma unshifted_shifted p : unshifted (shifted p) = p.
Proof. destruct p. unfold shifted, unshifted; cbn. f_equal; lia. Qed.

Lemma moved_size : Width moved = Width source /\ Height moved = Height source /\ cells moved = cells source.
Proof. unfold cells, moved, Offset. unfold_viewport. cbn. split; [lia|]. split; [lia|]. f_equal; lia. Qed.

Lemma moved_cell dir q c : walk_cell moved dir q c = shifted (walk_cell source dir q c).
Proof.
  unfold walk_cell, moved, shifted, Offset. unfold_viewport.
  destruct (dir_x dir), (dir_y dir); cbn; f_equal; lia.
Qed.

Lemma moved_inside p : IsInBounds moved (shifted p) false = IsInBounds source p false.
Proof.
  apply eq_true_iff_eq. rewrite !inside_spec. unfold moved, shifted, Offset. unfold_viewport. cbn. lia.
Qed.

Lemma moved_index dir p : walk_index moved dir (shifted p) = walk_index source dir p.
Proof.
  unfold walk_index, walk_row, walk_column, moved, shifted, Offset. unfold_viewport.
  destruct (dir_x dir), (dir_y dir); cbn; f_equal; try lia; f_equal; lia.
Qed.

(** In the direction chosen, a cell that is overwritten comes no later than the cell
    whose contents it receives. *)
Lemma overwritten_later p :
  IsInBounds source p false = true -> IsInBounds source (shifted p) false = true ->
  walk_index source (DetermineWalkDirection source moved) (shifted p) <=
  walk_index source (DetermineWalkDirection source moved) p.
Proof.
  rewrite !inside_spec. unfold walk_index, walk_row, walk_column, DetermineWalkDirection, moved, shifted, Offset, Viewport.Origin.
  unfold_viewport. cbn [_sr ir_left ir_top ir_right ir_bottom x y dir_x dir_y]. intros H1 H2.
  set (w := _ + 1 - _). assert (0 < w) by (unfold w; lia).
  destruct (Z.ltb_spec (ir_left (_sr source) + x delta) (ir_left (_sr source))),
    (Z.ltb_spec (ir_top (_sr source) + y delta) (ir_top (_sr source))); try nia.
Qed.

Lemma moved_walk dir p :
  IsInBounds source p false = true ->
  WalkInBounds moved (shifted p) dir false =
  (shifted (WalkInBounds source p dir false).1, (WalkInBounds source p dir false).2).
Proof.
  intros Hp. destruct (inside_cell source dir p Hp) as (q & c & Hq & Hc & -> & _).
  destruct moved_size as (Hw & Hh & _). rewrite <- moved_cell. unfold WalkInBounds.
  rewrite !walk_step, Hw, Hh by lia. by repeat case_if; cbn; rewrite ?moved_cell.
Qed.

Lemma index_inj dir p q :
  IsInBounds source p false = true -> IsInBounds source q false = true ->
  walk_index source dir p = walk_index source dir q -> p = q.
Proof.
  intros Hp Hq. destruct (inside_cell source dir p Hp) as (i & c & Hi & Hc & -> & ->).
  destruct (inside_cell source dir q Hq) as (i' & c' & Hi' & Hc' & -> & ->).
  intros E. assert (i = i') by nia. assert (c = c') by nia. by subst.
Qed.

End Moved.

(** ** Cells of lines *)

(** Every glyph of the line takes one column. *)
Definition narrow_line (l : line) : Prop := Forall (fun g => g_cols g = 1%nat) (l_glyphs l).

(** A cell: its glyph and its attribute. *)
Definition cell : Type := glyph * TextAttribute.

Definition line_cell (l : line) (c : nat) : cell :=
  (default space (l_glyphs l !! c), default TextAttribute_default (l_attrs l !! c)).

Definition cell_of (ls : list line) (p : point) : cell :=
  match ls !! Z.to_nat (y p) with Some l => line_cell l (Z.to_nat (x p)) | None => (space, TextAttribute_default) end.

(** The lines with some of the cells replaced. *)
Definition update_line (upd : nat -> option cell) (l : line) : line :=
  mkLine (imap (fun c g => from_option fst g (upd c)) (l_glyphs l))
    (imap (fun c a => from_option snd a (upd c)) (l_attrs l)) (l_rendition l) (l_wrap l) (l_padded l).

Definition update_cells (upd : point -> option cell) (ls : list line) : list line :=
  imap (fun row l => update_line (fun c => upd (Point (Z.of_nat c) (Z.of_nat row))) l) ls.

Lemma update_cells_lookup upd ls i :
  update_cells upd ls !! i = update_line (fun c => upd (Point (Z.of_nat c) (Z.of_nat i))) <$> ls !! i.
Proof. unfold update_cells. by rewrite list_lookup_imap. Qed.

Lemma update_line_ext u u' l : (forall c, u c = u' c) -> update_line u l = update_line u' l.
Proof. intros E. unfold update_line. f_equal; apply imap_ext; intros; by rewrite E. Qed.

Lemma update_cells_ext u u' ls : (forall p, u p = u' p) -> update_cells u ls = update_cells u' ls.
Proof. intros E. apply imap_ext. intros. apply update_line_ext. intros. apply E. Qed.

Lemma update_line_none u l : (forall c, u c = None) -> update_line u l = l.
Proof.
  intros E. destruct l as [gs ats r w p]. unfold update_line. cbn [l_glyphs l_attrs l_rendition l_wrap l_padded].
  f_equal; apply list_eq; intros i; rewrite list_lookup_imap, E; cbn [from_option];
    match goal with |- _ = ?x => by destruct x end.
Qed.

Lemma update_cells_none u ls : (forall p, u p = None) -> update_cells u ls = ls.
Proof.
  intros E. apply list_eq. intros i. rewrite update_cells_lookup. destruct (ls !! i); [|done]. cbn. f_equal.
  by apply update_line_none.
Qed.

Lemma update_cells_twice u u' ls :
  update_cells u' (update_cells u ls) = update_cells (fun p => match u' p with Some c => Some c | None => u p end) ls.
Proof.
  apply list_eq. intros i. rewrite !update_cells_lookup. destruct (ls !! i) as [l|]; [|done]. cbn. f_equal.
  unfold update_line. cbn [l_glyphs l_attrs l_rendition l_wrap l_padded].
  f_equal; apply list_eq; intros j; rewrite !list_lookup_imap;
    match goal with |- context [?l !! j] => destruct (l !! j); [|done] end; cbn; f_equal; by destruct (u' _).
Qed.

(** A position of the lines that holds a whole cell. *)
Record has_cell (columns : nat) (ls : list line) (p : point) (l : line) : Prop := {
  hc_x : 0 <= x p < Z.of_nat columns;
  hc_y : 0 <= y p;
  hc_line : ls !! Z.to_nat (y p) = Some l;
  hc_narrow : narrow_line l
}.

Lemma narrow_line_test l : forallb (fun g => (g_cols g =? 1)%nat) (l_glyphs l) = true -> narrow_line l.
Proof. rewrite forallb_forall. intros H. apply List.Forall_forall. intros g Hg. by apply Nat.eqb_eq, H. Qed.

Lemma narrow_cols gs : Forall (fun g => g_cols g = 1%nat) gs -> cols gs = length gs.
Proof. induction 1 as [|g gs Hg _ IH]; [done|]. rewrite cols_cons, IH, Hg. done. Qed.

Lemma take_cols_narrow c gs : Forall (fun g => g_cols g = 1%nat) gs -> take_cols c gs = take c gs.
Proof.
  intros H. revert c. induction H as [|g gs Hg _ IH]; intros c; [by destruct c|]. cbn [take_cols]. rewrite Hg.
  destruct c as [|c]; [done|]. cbn [Nat.leb take]. by rewrite Nat.sub_succ, Nat.sub_0_r, IH.
Qed.

Lemma drop_cols_narrow c gs : Forall (fun g => g_cols g = 1%nat) gs -> drop_cols c gs = drop c gs.
Proof.
  intros H. revert c. induction H as [|g gs Hg _ IH]; intros c; [by destruct c|]. cbn [drop_cols]. rewrite Hg.
  destruct c as [|c]; [done|]. cbn [Nat.leb drop]. by rewrite Nat.sub_succ, Nat.sub_0_r, IH.
Qed.

(** ** A write of one cell *)

Section Lines.
Context (columns : nat).

Lemma cell_of_update u ls p l :
  has_cell columns ls p l -> line_ok columns l -> cell_of (update_cells u ls) p = default (cell_of ls p) (u p).
Proof.
  intros [Hx Hy Hl Hn] (Hw & _ & Ha). unfold cell_of. rewrite update_cells_lookup, Hl. cbn [fmap option_fmap option_map].
  unfold l_width in Hw. rewrite narrow_cols in Hw by done. rewrite !Z2Nat.id by lia.
  unfold line_cell, update_line. cbn [l_glyphs l_attrs]. rewrite !list_lookup_imap, !Z2Nat.id by lia.
  destruct (lookup_lt_is_Some_2 (l_glyphs l) (Z.to_nat (x p))) as [g ->]; [lia|].
  destruct (lookup_lt_is_Some_2 (l_attrs l) (Z.to_nat (x p))) as [at' ->]; [lia|].
  destruct p as [px py]. cbn. by destruct (u _) as [[]|].
Qed.

Lemma update_line_ok u l :
  narrow_line l -> line_ok columns l ->
  (forall c g a, u c = Some (g, a) -> g_cols g = 1%nat /\ glyph_ok g) ->
  narrow_line (update_line u l) /\ line_ok columns (update_line u l).
Proof.
  intros Hn (Hw & Hg & Ha) Hu. unfold l_width in Hw. rewrite narrow_cols in Hw by done.
  assert (Hall : Forall (fun g => g_cols g = 1%nat /\ glyph_ok g) (l_glyphs (update_line u l))).
  { apply Forall_lookup. intros i g. cbn. rewrite list_lookup_imap. destruct (l_glyphs l !! i) as [g0|] eqn:E; [|done].
    cbn. intros [= <-]. destruct (u i) as [[g1 a1]|] eqn:Eu; cbn; [by eapply Hu|].
    split; [by apply (Forall_lookup_1 _ _ _ _ Hn E)|by apply (Forall_lookup_1 _ _ _ _ Hg E)]. }
  assert (H1 : narrow_line (update_line u l)) by (eapply List.Forall_impl; [|exact Hall]; by intros ? []).
  assert (H2 : Forall glyph_ok (l_glyphs (update_line u l))) by (eapply List.Forall_impl; [|exact Hall]; by intros ? []).
  split; [done|]. split_and!; [|done|].
  - unfold l_width. rewrite narrow_cols by done. cbn. by rewrite length_imap.
  - cbn. by rewrite length_imap.
Qed.

Lemma imap_insert {A} (f : nat -> option A) c (y : A) l :
  (forall i, f i = if (i =? c)%nat then Some y else None) -> imap (fun i z => default z (f i)) l = <[c := y]> l.
Proof.
  intros Hf. apply list_eq. intros i. rewrite list_lookup_imap, Hf. destruct (Nat.eqb_spec i c) as [->|Hne].
  - destruct (decide (c < length l)%nat) as [Hc|Hc].
    + rewrite list_lookup_insert_eq by done. by destruct (lookup_lt_is_Some_2 l c Hc) as [z ->].
    + by rewrite list_insert_ge, (lookup_ge_None_2 l c) by lia.
  - rewrite list_lookup_insert_ne by done. by destruct (l !! i).
Qed.

Lemma written_line_one a c g l :
  narrow_line l -> line_ok columns l -> g_cols g = 1%nat -> (c < columns)%nat ->
  written_line a c (columns - c) [g] None l = update_line (fun k => if (k =? c)%nat then Some (g, a) else None) l.
Proof.
  intros Hn (Hw & _ & Ha) Hg Hc. unfold l_width in Hw. rewrite narrow_cols in Hw by done.
  destruct (written_cons_fits (columns - c) g []) as [E1 E2]; [lia|].
  destruct (written_nil (columns - c - g_cols g)) as [E3 E4]. rewrite E3 in E1. rewrite E4 in E2.
  unfold written_line, write_line, set_l_attrs, update_line. cbn [l_glyphs l_attrs l_rendition l_wrap l_padded].
  rewrite E1, E2. assert (Ec : cols [g] = 1%nat) by (by rewrite cols_cons, Hg). rewrite Ec. cbn [default].
  f_equal; [| |by case_if].
  - rewrite splice_eq by done. rewrite Ec, take_cols_narrow, drop_cols_narrow by done.
    transitivity (<[c := g]> (l_glyphs l)); [rewrite insert_take_drop by lia; by rewrite Nat.add_1_r|].
    symmetry. rewrite <- (imap_insert (fun i => if (i =? c)%nat then Some g else None)) by done.
    apply imap_ext. intros i z _. by case_if.
  - transitivity (<[c := a]> (l_attrs l)).
    + unfold splice_attrs. rewrite insert_take_drop by lia. by rewrite Nat.add_1_r.
    + symmetry. rewrite <- (imap_insert (fun i => if (i =? c)%nat then Some a else None)) by done.
      apply imap_ext. intros i z _. by case_if.
Qed.

End Lines.

(** The screen with the cells of lines replaced. *)
Definition updated (u : point -> option cell) (ls : list line) (s : screen) : screen := set_lines (update_cells u ls) s.

Lemma updated_updated u u' s :
  updated u' (lines_of (updated u (lines_of s) s)) (updated u (lines_of s) s) =
  updated (fun p => match u' p with Some c => Some c | None => u p end) (lines_of s) s.
Proof. unfold updated, set_lines, lines_of. cbn [sc_page set_pg_lines pg_lines sc_delay]. by rewrite update_cells_twice. Qed.

(** ** Reading and writing a cell *)

(** The cell as [OutputCell] holds it. *)
Definition output_cell (c : cell) : OutputCell := mkCell (g_text c.1) Single c.2 Stored.

(** Text of at most two code units in one column. *)
Definition cell_ok (c : cell) : Prop := g_cols c.1 = 1%nat /\ g_text c.1 <> [] /\ (length (g_text c.1) <= 2)%nat.

Lemma glyph_of_narrow gs c g :
  Forall (fun g => g_cols g = 1%nat) gs -> gs !! c = Some g -> glyph_of gs c = Some (g, 0%nat).
Proof.
  intros H. revert c. induction H as [|g0 gs Hg _ IH]; intros c; [done|]. cbn [glyph_of]. rewrite Hg.
  destruct c as [|c]; [by intros [= ->]|]. cbn [lookup list_lookup Nat.ltb Nat.leb]. intros E.
  rewrite Nat.sub_succ, Nat.sub_0_r. by apply IH.
Qed.

Lemma presents_cell {GW : GlyphWidth} statics c : cell_ok c ->
  exists it, iterator_of_cells [output_cell c] = Ok it /\ presents statics c.2 one_each it [c.1].
Proof.
  intros (Hg & Ht & Hl). eexists. split; [done|]. cbn [presents]. split_and!; [done..|].
  eexists. split; [|split; [|split; [|left; split; [done|]; split; [done|reflexivity]]]].
  - reflexivity.
  - reflexivity.
  - rewrite Hg. reflexivity.
Qed.

Section Cells.
Context {W : Type} `{ApiLaws W} {R : Adapter W -> Adapter W -> Prop} `{!Frame R} {GW : GlyphWidth} (statics : Statics) (garbage : wchar).

#[local] Abbreviation does := (does_in R).

Lemma screen_line a s i l :
  on_screen a s -> lines_of s !! i = Some l -> line_ok (pg_width (sc_page s)) l /\ Forall (fun g => (length (g_text g) <= 2)%nat) (l_glyphs l).
Proof.
  intros Hs Hl. split; [exact (Forall_lookup_1 _ _ _ _ (screen_lines_ok a s Hs) Hl)|].
  destruct (row_of_line _ _ _ (po_holds _ _ (so_page _ _ Hs)) i l Hl) as (r & _ & Hr). apply (sh_narrow _ _ Hr).
Qed.

Lemma screen_cell_ok a s p l :
  on_screen a s -> has_cell (pg_width (sc_page s)) (lines_of s) p l -> cell_ok (cell_of (lines_of s) p).
Proof.
  intros Hs [Hx Hy Hl Hn]. destruct (screen_line a s _ l Hs Hl) as [(Hw & Hg & Ha) Ht].
  unfold cell_of. rewrite Hl. unfold line_cell, cell_ok. cbn [fst].
  unfold l_width in Hw. rewrite narrow_cols in Hw by done.
  destruct (lookup_lt_is_Some_2 (l_glyphs l) (Z.to_nat (x p))) as [g E]; [lia|]. rewrite E. cbn [default].
  split_and!; [exact (Forall_lookup_1 _ _ _ _ Hn E)|apply (Forall_lookup_1 _ _ _ _ Hg E)|exact (Forall_lookup_1 _ _ _ _ Ht E)].
Qed.

Lemma cell_at_does a s p l :
  on_screen a s -> has_cell (pg_width (sc_page s)) (lines_of s) p l ->
  does (Adapt.cell_at p) a (output_cell (cell_of (lines_of s) p)) s.
Proof.
  intros Hs Hp. pose proof Hp as [Hx Hy Hl Hn]. destruct (screen_line a s _ l Hs Hl) as [(Hw & Hg & Ha) Ht].
  unfold l_width in Hw. rewrite narrow_cols in Hw by done.
  pose proof (po_holds _ _ (so_page _ _ Hs)) as Hh. pose proof (lookup_lt_Some _ _ _ Hl) as Hi.
  destruct (row_of_line _ _ _ Hh _ l Hl) as (r & Hr & Hsh). rewrite Z2Nat.id in Hr by done.
  assert (E : GetCellDataAt p (GetTextBuffer (world a)) =
    Ok (mkCellIterator p (GetSize (buffer_of a)) false (OutputCells.mkView (g_text (cell_of (lines_of s) p).1) Single (cell_of (lines_of s) p).2 Stored))).
  { unfold GetCellDataAt, CellIterator_new. fold (buffer_of a).
    assert (Hb : IsInBounds (GetSize (buffer_of a)) p false = true)
      by (apply (in_bounds_holds _ _ _ Hh); fold (lines_of s); lia).
    assert (Hv : IsInBoundsViewport (GetSize (buffer_of a)) (GetSize (buffer_of a)) = true).
    { apply inside_spec in Hb. unfold IsInBoundsViewport. lia. }
    rewrite Hv, Hb. cbn [negb]. unfold _GenerateView. rewrite Hr. cbn [bindR].
    unfold cell_of. rewrite Hl. unfold line_cell. cbn [fst snd].
    destruct (lookup_lt_is_Some_2 (l_glyphs l) (Z.to_nat (x p))) as [g Eg]; [lia|].
    destruct (lookup_lt_is_Some_2 (l_attrs l) (Z.to_nat (x p))) as [at' Ea]; [lia|]. rewrite Eg, Ea. cbn [default].
    pose proof (glyph_of_narrow _ _ _ Hn Eg) as Ego.
    pose proof (GlyphAt_spec r _ (sh_glyphs _ _ Hsh) _ _ _ Ego) as E1. rewrite Z2Nat.id in E1 by lia.
    pose proof (DbcsAttrAt_spec r _ (sh_glyphs _ _ Hsh) _ _ _ Ego) as E2. rewrite Z2Nat.id in E2 by lia.
    rewrite E1, E2. cbn [bindR]. rewrite (at_spec 16 (_attr r) (x p)); [|apply (sh_attributed _ _ Hsh)|lia].
    rewrite (sh_attrs _ _ Hsh), Ea. cbn [bindR mapR]. unfold dbcs_of. cbn [fst snd].
    by rewrite (Forall_lookup_1 _ _ _ _ Hn Eg). }
  unfold Adapt.cell_at. eapply does_result; [exact E|]. by apply does_ret.
Qed.

Lemma write_one_does a s c p l :
  on_screen a s -> has_cell (pg_width (sc_page s)) (lines_of s) p l -> cell_ok c ->
  does (Adapt.write_one statics garbage (output_cell c) p) a tt
    (updated (fun q => if bool_decide (q = p) then Some c else None) (lines_of s) s).
Proof.
  intros Hs [Hx Hy Hl Hn] Hc. destruct (screen_line a s _ l Hs Hl) as [Hok _]. destruct Hs as [[Hh Hp Ha] Hd].
  destruct (presents_cell statics c Hc) as (it & Eit & Hit). unfold Adapt.write_one.
  eapply does_result; [exact Eit|]. destruct c as [g at']. cbn [fst snd] in *.
  destruct (WriteLine_holds statics garbage at' one_each (buffer_of a) _ _ [g] it None None (Z.to_nat (x p))
    (pg_width (sc_page s) - Z.to_nat (x p)) (Z.to_nat (y p)) l Hh)
    as (tb & it' & E & F & H' & _); [done| |done|lia|lia|cbn; lia|].
  { constructor; [|constructor]. destruct Hc as (H1 & H2 & H3). cbn in *. auto. }
  eapply does_bind; [|intros a3 H3 _; apply does_ret, H3]. apply does_buf. exists tb. split.
  { rewrite !Z2Nat.id in E by lia. destruct p. exact E. }
  unfold only_rows in F. split; [split|]; [|by rewrite F..].
  cbn [updated set_lines sc_page set_pg_lines pg_lines pg_width].
  replace (update_cells _ _) with (<[Z.to_nat (y p):=written_line at' (Z.to_nat (x p)) (pg_width (sc_page s) - Z.to_nat (x p)) [g] None l]> (pg_lines (sc_page s))); [exact H'|].
  rewrite (written_line_one (pg_width (sc_page s))) by (done || apply Hc || lia).
  apply list_eq. intros i. rewrite update_cells_lookup. fold (lines_of s). destruct (decide (i = Z.to_nat (y p))) as [->|Hne].
  - rewrite list_lookup_insert_eq by (by eapply lookup_lt_Some). rewrite Hl. cbn. f_equal. apply update_line_ext. intros k.
    destruct p as [px py]. cbn [x y] in *. destruct (Nat.eqb_spec k (Z.to_nat px)); case_bool_decide as Hb; simplify_eq/=; try done; exfalso; [apply Hb; f_equal; lia|lia].
  - rewrite list_lookup_insert_ne by done. destruct (lines_of s !! i) as [l'|]; [|done]. cbn. f_equal. symmetry.
    apply update_line_none. intros k. rewrite bool_decide_eq_false_2; [done|]. intros <-. cbn in Hne. lia.
Qed.

End Cells.

(** ** The loop *)

(** The cells of the target that a copy replaces. *)
Definition copied (source : Viewport) (delta : point) (ls : list line) (p : point) : option cell :=
  if IsInBounds (Offset source delta) p false then Some (cell_of ls (unshifted delta p)) else None.

(** Those of the first [k] turns. *)
Definition copied_first (source : Viewport) (delta : point) (ls : list line) (k : Z) (p : point) : option cell :=
  if walk_index (moved source delta) (DetermineWalkDirection source (moved source delta)) p <? k
  then copied source delta ls p else None.

Lemma copied_first_0 source delta ls p : copied_first source delta ls 0 p = None.
Proof.
  unfold copied_first, copied. case_if; [|done]. case_if; [|done]. exfalso.
  match goal with Hi : IsInBounds _ _ _ = true |- _ =>
    pose proof (index_range _ (DetermineWalkDirection source (moved source delta)) p Hi) end.
  fold (moved source delta) in *. lia.
Qed.

Lemma copied_first_all source delta ls p : copied_first source delta ls (cells source) p = copied source delta ls p.
Proof.
  unfold copied_first, copied. fold (moved source delta). destruct (IsInBounds _ p false) eqn:Hi; [|by case_if].
  pose proof (index_range _ (DetermineWalkDirection source (moved source delta)) p Hi) as Hr.
  destruct (moved_size source delta) as (_ & _ & E). rewrite E in Hr. by rewrite (proj2 (Z.ltb_lt _ _)) by lia.
Qed.

(** One turn more. *)
Lemma copied_first_S source delta ls k p q :
  IsInBounds source p false = true -> walk_index source (DetermineWalkDirection source (moved source delta)) p = k ->
  match (if bool_decide (q = shifted delta p) then Some (cell_of ls p) else None) with
  | Some c => Some c | None => copied_first source delta ls k q
  end = copied_first source delta ls (k + 1) q.
Proof.
  intros Hp Hk. unfold copied_first, copied. fold (moved source delta). case_bool_decide as Eq.
  - subst q. rewrite moved_inside, moved_index, Hp, Hk, unshifted_shifted.
    by rewrite (proj2 (Z.ltb_lt k (k + 1))) by lia.
  - destruct (IsInBounds (moved source delta) q false) eqn:Hq; [|by repeat case_if].
    rewrite <- (shifted_unshifted delta q) in Hq |- *. rewrite moved_inside in Hq. rewrite moved_index.
    set (d := DetermineWalkDirection source (moved source delta)) in *.
    assert (walk_index source d (unshifted delta q) <> k).
    { intros E. apply Eq. rewrite <- (shifted_unshifted delta q). f_equal.
      apply (index_inj source d); [done|done|lia]. }
    by replace (walk_index source d (unshifted delta q) <? k + 1)
      with (walk_index source d (unshifted delta q) <? k) by lia.
Qed.

(** A cell of the source whose turn has not come yet is still as it was. *)
Lemma source_unread source delta ls k p :
  IsInBounds source p false = true -> k <= walk_index source (DetermineWalkDirection source (moved source delta)) p ->
  copied_first source delta ls k p = None.
Proof.
  intros Hp Hk. unfold copied_first, copied. fold (moved source delta). case_if; [|done]. destruct (IsInBounds (moved source delta) p false) eqn:Hi; [|done]. exfalso.
  rewrite <- (shifted_unshifted delta p) in *. rewrite moved_inside, moved_index in *.
  pose proof (overwritten_later source delta (unshifted delta p)). lia.
Qed.

Section Loop.
Context {W : Type} `{ApiLaws W} {R : Adapter W -> Adapter W -> Prop} `{!Frame R} {GW : GlyphWidth} (statics : Statics) (garbage : wchar).
Context (source : Viewport) (delta : point) (s : screen).

#[local] Abbreviation does := (does_in R).
#[local] Abbreviation columns := (pg_width (sc_page s)).
#[local] Abbreviation ls := (lines_of s).
#[local] Abbreviation dir := (DetermineWalkDirection source (moved source delta)).

(** Source and target lie on lines of narrow glyphs. *)
Definition on_cells (v : Viewport) : Prop :=
  forall p, IsInBounds v p false = true -> exists l, has_cell columns ls p l.

Context (Hsource : on_cells source) (Htarget : on_cells (moved source delta)).

(** The screen after [k] turns. *)
Definition after (k : Z) : screen := updated (copied_first source delta ls k) ls s.

Lemma copied_cell_ok a k p c : on_screen a s -> copied_first source delta ls k p = Some c -> cell_ok c.
Proof.
  intros Hs. unfold copied_first, copied. fold (moved source delta). case_if; [|done]. destruct (IsInBounds (moved source delta) p false) eqn:Hi; [|done]. intros [= <-].
  rewrite <- (shifted_unshifted delta p), moved_inside in Hi. destruct (Hsource _ Hi) as [l Hl].
  by apply (screen_cell_ok a s _ l).
Qed.

Lemma cell_ok_glyph c : cell_ok c -> g_cols c.1 = 1%nat /\ glyph_ok c.1.
Proof. intros (H1 & H2 & _). split; [done|]. split; [done|lia]. Qed.

Lemma has_cell_after a0 k p l : on_screen a0 s -> has_cell columns ls p l ->
  exists l', has_cell (pg_width (sc_page (after k))) (lines_of (after k)) p l'.
Proof.
  intros Hs [Hx Hy Hl Hn]. destruct (screen_line a0 s _ l Hs Hl) as [Hok _].
  eexists. split; [done|done| |].
  - change (lines_of (after k)) with (update_cells (copied_first source delta ls k) ls). rewrite update_cells_lookup, Hl. reflexivity.
  - apply (update_line_ok columns); [done|done|]. intros c g at' E.
    apply (cell_ok_glyph (g, at')). by eapply (copied_cell_ok a0).
Qed.

Context (test : point -> M (Adapter W) bool).
Context (Htest : forall a p k, IsInBounds source p false = true -> on_screen a (after k) -> test p a = (a, Ok true)).

Lemma move_cells_does a0 n : on_screen a0 s -> forall k a p,
  on_screen a (after k) -> IsInBounds source p false = true -> walk_index source dir p = k -> k + Z.of_nat n = cells source ->
  does (Adapt.move_cells statics garbage n test source (moved source delta) dir p (shifted delta p) (output_cell (cell_of ls p))) a tt
    (updated (copied source delta ls) ls s).
Proof.
  intros Hs0. induction n as [|n IH]; intros k a p Hs Hp Hk Hn.
  { pose proof (index_range source dir p Hp). lia. }
  cbn [Adapt.move_cells]. rewrite moved_walk by done.
  destruct (Hsource p Hp) as [l Hl]. destruct (Htarget (shifted delta p)) as [lt Hlt]; [by rewrite moved_inside|].
  pose proof (screen_cell_ok a0 s p l Hs0 Hl) as Hc. destruct (has_cell_after a0 k _ _ Hs0 Hlt) as [lt' Hlt'].
  assert (Hw : forall a1, on_screen a1 (after k) -> does (Adapt.write_one statics garbage (output_cell (cell_of ls p)) (shifted delta p)) a1 tt (after (k + 1))).
  { intros a1 H1. replace (after (k + 1)) with (updated (fun q => if bool_decide (q = shifted delta p) then Some (cell_of ls p) else None) (lines_of (after k)) (after k)).
    - by apply (write_one_does statics garbage a1 (after k) (cell_of ls p) (shifted delta p) lt').
    - unfold after. rewrite updated_updated. unfold updated. f_equal. apply update_cells_ext. intros q. by apply copied_first_S. }
  set (next := (WalkInBounds source p dir false).1).
  assert (Hnext : IsInBounds source next false = true).
  { unfold next. destruct (walk_in_bounds source dir p Hp) as [(_ & p' & -> & ? & _)|(_ & ->)]; done. }
  destruct (Hsource next Hnext) as [ln Hln]. destruct (has_cell_after a0 k _ _ Hs0 Hln) as [ln' Hln'].
  eapply does_bind; [by apply (cell_at_does a (after k) next ln')|intros a1 H1 _].
  eapply does_bind; [exists a1; split_and!; [by apply (Htest a1 next k)|exact H1|reflexivity]|intros a2 H2 _].
  eapply does_bind; [by apply Hw|intros a3 H3 _]. unfold next.
  destruct (walk_in_bounds source dir p Hp) as [(H4 & p' & E & Hp' & Ei)|(H4 & E)]; rewrite E; cbn [fst snd].
  - replace (cell_of (lines_of (after k)) p') with (cell_of ls p'); [by apply (IH (k + 1)); (done || lia)|].
    destruct (Hsource p' Hp') as [l' Hl']. destruct (screen_line a0 s _ l' Hs0 (hc_line _ _ _ _ Hl')) as [Hok _].
    symmetry. etransitivity; [by apply (cell_of_update columns _ ls p' l')|].
    rewrite source_unread by (done || lia). done.
  - apply does_ret. replace (updated (copied source delta ls) ls s) with (after (k + 1)); [done|].
    unfold after, updated. f_equal. apply update_cells_ext. intros q.
    replace (k + 1) with (cells source) by lia. apply copied_first_all.
Qed.

Lemma move_view_does a :
  on_screen a s -> 0 < Height source -> 0 < Width source ->
  does (Adapt.move_view statics garbage test source (Offset source delta)) a tt (updated (copied source delta ls) ls s).
Proof.
  intros Hs Hh Hw. unfold Adapt.move_view. cbv zeta. fold (moved source delta).
  destruct (moved_size source delta) as (_ & _ & Hc). rewrite Hc, !walk_origin, moved_cell.
  destruct (cell_inside source dir 0 0) as [Hp Hi]; [lia|lia|]. rewrite Z.mul_0_l, Z.add_0_l in Hi.
  assert (Ha : s = after 0).
  { unfold after, updated. rewrite update_cells_none by (intros; apply copied_first_0). by destruct s as [[] ?]. }
  destruct (Hsource _ Hp) as [l Hl].
  eapply does_bind; [by apply (cell_at_does a s _ l)|intros a1 H1 _].
  assert (0 <= cells source) by (unfold cells; nia).
  apply (move_cells_does a _ Hs 0); [by rewrite <- Ha|done|done|lia].
Qed.

End Loop.

(** ** Within a line *)

(** [n] elements from [b] on copied to [t]. *)
Definition move_range {A} (b t n : nat) (l : list A) : list A := take t l ++ take n (drop b l) ++ drop (t + n) l.

Lemma imap_overlay {A} (f : nat -> option A) (b t n : nat) (l : list A) :
  (b + n <= length l)%nat -> (t + n <= length l)%nat ->
  (forall j, (t <= j < t + n)%nat -> f j = l !! (b + (j - t))%nat) ->
  (forall j, ~ (t <= j < t + n)%nat -> f j = None) ->
  imap (fun j z => default z (f j)) l = move_range b t n l.
Proof.
  intros Hb Ht Hin Hout. unfold move_range.
  assert (Hlt : length (take t l) = t) by (rewrite length_take; lia).
  assert (Hlm : length (take n (drop b l)) = n) by (rewrite length_take, length_drop; lia).
  apply list_eq. intros j. rewrite list_lookup_imap.
  destruct (decide (j < t)%nat) as [H1|H1].
  { rewrite lookup_app_l, lookup_take_lt, Hout by lia. by destruct (l !! j). }
  rewrite lookup_app_r by lia. rewrite Hlt. destruct (decide (j < t + n)%nat) as [H2|H2].
  - rewrite lookup_app_l, lookup_take_lt, lookup_drop, Hin by lia.
    destruct (lookup_lt_is_Some_2 l j) as [z ->]; [lia|].
    by destruct (lookup_lt_is_Some_2 l (b + (j - t))) as [z' ->]; [lia|].
  - rewrite lookup_app_r, lookup_drop, Hlm, Hout by lia. replace (t + n + (j - t - n))%nat with j by lia. by destruct (l !! j).
Qed.

Lemma move_range_length {A} b t n (l : list A) :
  (b + n <= length l)%nat -> (t + n <= length l)%nat -> length (move_range b t n l) = length l.
Proof. intros. unfold move_range. rewrite !length_app, !length_take, !length_drop. lia. Qed.

Definition move_in_line (b t n : nat) (l : line) : line :=
  mkLine (move_range b t n (l_glyphs l)) (move_range b t n (l_attrs l)) (l_rendition l) (l_wrap l) (l_padded l).

(** A copy within one line. *)
Lemma copied_line columns ls (i b t n : nat) l :
  ls !! i = Some l -> narrow_line l -> line_ok columns l -> (0 < n)%nat -> (b + n <= columns)%nat -> (t + n <= columns)%nat ->
  let source := FromDimensionsAt (Point (Z.of_nat b) (Z.of_nat i)) (Z.of_nat n) 1 in
  update_cells (copied source (Point (Z.of_nat t - Z.of_nat b) 0) ls) ls = <[i := move_in_line b t n l]> ls.
Proof.
  intros Hl Hn (Hw & _ & Ha) Hpos Hb Ht source. unfold l_width in Hw. rewrite narrow_cols in Hw by done.
  assert (Hin : forall j r, IsInBounds (Offset source (Point (Z.of_nat t - Z.of_nat b) 0)) (Point (Z.of_nat j) (Z.of_nat r)) false = true
    <-> (t <= j < t + n)%nat /\ r = i).
  { intros j r. rewrite inside_spec. unfold Offset, source, FromDimensionsAt. unfold_viewport. cbn. lia. }
  apply list_eq. intros r. rewrite update_cells_lookup. destruct (decide (r = i)) as [->|Hne].
  - rewrite Hl, list_lookup_insert_eq by (by eapply lookup_lt_Some). cbn [fmap option_fmap option_map]. f_equal.
    unfold update_line, move_in_line.
    assert (Hc : forall j, copied source (Point (Z.of_nat t - Z.of_nat b) 0) ls (Point (Z.of_nat j) (Z.of_nat i)) =
      if bool_decide (t <= j < t + n)%nat then Some (line_cell l (b + (j - t))) else None).
    { intros j. unfold copied. case_bool_decide as Hj.
      - rewrite (proj2 (Hin j i)) by done. f_equal. unfold cell_of, unshifted. cbn [x y].
        rewrite Z.sub_0_r, Nat2Z.id, Hl. f_equal. lia.
      - destruct (IsInBounds _ _ _) eqn:E; [|done]. exfalso. apply Hj. by apply Hin in E as [? _]. }
    f_equal.
    + rewrite <- (imap_overlay (fun j => if bool_decide (t <= j < t + n)%nat then l_glyphs l !! (b + (j - t))%nat else None));
        [|lia|lia|intros j Hj; by rewrite bool_decide_eq_true_2|intros j Hj; by rewrite bool_decide_eq_false_2].
      apply imap_ext. intros j z Hz. cbn. rewrite Hc. case_bool_decide as Hj; [|done]. cbn.
      by destruct (lookup_lt_is_Some_2 (l_glyphs l) (b + (j - t))) as [g ->]; [lia|].
    + rewrite <- (imap_overlay (fun j => if bool_decide (t <= j < t + n)%nat then l_attrs l !! (b + (j - t))%nat else None));
        [|lia|lia|intros j Hj; by rewrite bool_decide_eq_true_2|intros j Hj; by rewrite bool_decide_eq_false_2].
      apply imap_ext. intros j z Hz. cbn. rewrite Hc. case_bool_decide as Hj; [|done]. cbn.
      by destruct (lookup_lt_is_Some_2 (l_attrs l) (b + (j - t))) as [g ->]; [lia|].
  - rewrite list_lookup_insert_ne by done. destruct (ls !! r) as [l'|]; [|done]. cbn. f_equal. apply update_line_none.
    intros j. unfold copied. destruct (IsInBounds _ _ _) eqn:E; [|done]. by apply Hin in E as [_ ?].
Qed.

(** [k] elements from [c] on replaced by [v]. *)
Definition blank_range {A} (c k : nat) (v : A) (l : list A) : list A := take c l ++ repeat v k ++ drop (c + k) l.

(** The elements from [c] to [e] moved up by [n] places, or down, and the places freed
    filled with [v]; what is moved out is lost. *)
Definition insert_range {A} (c e n : nat) (v : A) (l : list A) : list A :=
  let k := Nat.min n (e - c) in take c l ++ repeat v k ++ take (e - c - k) (drop c l) ++ drop e l.
Definition delete_range {A} (c e n : nat) (v : A) (l : list A) : list A :=
  let k := Nat.min n (e - c) in take c l ++ take (e - c - k) (drop (c + k) l) ++ repeat v k ++ drop e l.

Lemma blank_move_insert {A} (c e n : nat) (v : A) l :
  (c <= e <= length l)%nat -> let k := Nat.min n (e - c) in
  blank_range c k v (move_range c (c + k) (e - c - k) l) = insert_range c e n v l.
Proof.
  intros He k. unfold blank_range, move_range, insert_range. fold k.
  assert (Hk : length (take (c + k) l) = (c + k)%nat) by (rewrite length_take; unfold k; lia).
  rewrite take_app_le, take_take, Nat.min_l by lia. do 2 f_equal. rewrite drop_app_ge, Hk, Nat.sub_diag, drop_0 by lia.
  do 2 f_equal. unfold k in *; lia.
Qed.

Lemma blank_move_delete {A} (c e n : nat) (v : A) l :
  (c <= e <= length l)%nat -> let k := Nat.min n (e - c) in
  blank_range (e - k) k v (move_range (c + k) c (e - c - k) l) = delete_range c e n v l.
Proof.
  intros He k. unfold blank_range, move_range, delete_range. fold k.
  assert (Hc : length (take c l) = c) by (rewrite length_take; lia).
  assert (Hm : length (take (e - c - k) (drop (c + k) l)) = (e - c - k)%nat) by (rewrite length_take, length_drop; unfold k in *; lia).
  rewrite take_app_ge, take_app_le, (take_ge (take (e - c - k) _)) by (unfold k in *; lia). rewrite <- app_assoc. do 3 f_equal.
  rewrite drop_app_ge, drop_app_ge, drop_drop by (unfold k in *; lia). f_equal. unfold k in *; lia.
Qed.

(** The erasure of columns of a line of narrow glyphs; the line is no longer wrapped when
    its last column is erased. *)
Definition blank_line_range (columns c k : nat) (attr : TextAttribute) (l : line) : line :=
  mkLine (blank_range c k space (l_glyphs l)) (blank_range c k attr (l_attrs l)) (l_rendition l)
    (if (c + k =? columns)%nat then false else l_wrap l) (l_padded l).

Lemma fitting_more_spaces n k : (k <= n)%nat -> fitting n (spaces k) = (spaces k, []).
Proof.
  revert n. induction k as [|k IH]; intros n Hn; [done|]. cbn [spaces repeat fitting g_cols space].
  rewrite (proj2 (Nat.leb_le 1 n)) by lia. fold (spaces k). by rewrite IH by lia.
Qed.

Lemma filled_narrow {GW : GlyphWidth} attr columns c k l :
  narrow_line l -> line_ok columns l -> (0 < k)%nat -> (c + k <= columns)%nat ->
  filled 0x20 attr columns c k l = blank_line_range columns c k attr l.
Proof.
  intros Hn (Hw & _ & Ha) Hk Hc. unfold l_width in Hw. rewrite narrow_cols in Hw by done. unfold filled. rewrite fill_space. fold (spaces k).
  unfold written_line, write_line, set_l_attrs, blank_line_range, written, cut. rewrite fitting_more_spaces by lia.
  cbn [l_glyphs l_attrs l_rendition l_wrap l_padded]. rewrite bool_decide_eq_true_2 by done. cbn [negb].
  rewrite andb_false_r, app_nil_r, cols_spaces, (proj2 (Nat.ltb_lt 0 (columns - c))) by lia. cbn [andb default]. f_equal.
  - rewrite splice_eq by (destruct k; [lia|done]). by rewrite cols_spaces, take_cols_narrow, drop_cols_narrow by done.
  - destruct (Nat.eqb_spec k (columns - c)), (Nat.eqb_spec (c + k) columns); (done || lia).
Qed.

Lemma move_in_line_ok columns b t n l :
  narrow_line l -> line_ok columns l -> (b + n <= columns)%nat -> (t + n <= columns)%nat ->
  narrow_line (move_in_line b t n l) /\ line_ok columns (move_in_line b t n l).
Proof.
  intros Hn (Hw & Hg & Ha) Hb Ht. pose proof Hw as Hw'. unfold l_width in Hw'. rewrite narrow_cols in Hw' by done.
  assert (Hall : forall P : glyph -> Prop, List.Forall P (l_glyphs l) -> List.Forall P (move_range b t n (l_glyphs l))).
  { intros P HP. unfold move_range. rewrite !Forall_app. split_and!; [by apply Forall_take|by apply Forall_take, Forall_drop|by apply Forall_drop]. }
  assert (Hn' : narrow_line (move_in_line b t n l)) by (by apply Hall). split; [done|]. split_and!.
  - unfold l_width. rewrite narrow_cols by done. cbn. by rewrite move_range_length by lia.
  - by apply Hall.
  - cbn. by rewrite move_range_length by lia.
Qed.

(** ** Insertion and deletion of characters *)

(** A line whose columns from [c] to [e] are scrolled by [delta], to the right when it is
    positive. *)
Definition scroll_in_line (columns : nat) (attr : TextAttribute) (c e : nat) (delta : Z) (l : line) : line :=
  let n := Z.to_nat (Z.abs delta) in
  let k := Nat.min n (e - c) in
  if 0 <? delta then
    mkLine (insert_range c e n space (l_glyphs l)) (insert_range c e n attr (l_attrs l)) (l_rendition l)
      (if (0 <? k)%nat && (c + k =? columns)%nat then false else l_wrap l) (l_padded l)
  else
    mkLine (delete_range c e n space (l_glyphs l)) (delete_range c e n attr (l_attrs l)) (l_rendition l)
      (if (0 <? k)%nat && (e =? columns)%nat then false else l_wrap l) (l_padded l).

(** It is a move and an erasure. *)
Lemma scroll_in_line_eq columns attr (c e : nat) delta l :
  narrow_line l -> line_ok columns l -> (c < e)%nat -> (e <= columns)%nat ->
  let k := Nat.min (Z.to_nat (Z.abs delta)) (e - c) in
  let moved := if 0 <? delta then move_in_line c (c + k) (e - c - k) l else move_in_line (c + k) c (e - c - k) l in
  let el := if 0 <? delta then c else (e - k)%nat in
  (if (0 <? k)%nat then blank_line_range columns el k attr moved else moved) = scroll_in_line columns attr c e delta l.
Proof.
  intros Hn (Hw & _ & Ha) Hc He k. unfold l_width in Hw. rewrite narrow_cols in Hw by done. cbv zeta.
  unfold scroll_in_line. fold k. assert (Hk : (k <= e - c)%nat) by (unfold k; lia).
  destruct (Nat.ltb_spec 0 k) as [Hpos|Hz].
  - destruct (0 <? delta); unfold blank_line_range, move_in_line; cbn [l_glyphs l_attrs l_rendition l_wrap l_padded andb].
    + unfold k. by rewrite !blank_move_insert by lia.
    + replace (e - k + k =? columns)%nat with (e =? columns)%nat by (f_equal; lia). unfold k. by rewrite !blank_move_delete by lia.
  - assert (Hk0 : k = 0%nat) by lia. cbn [andb].
    assert (E : forall {A} (v : A) x, (e <= length x)%nat -> move_range (c + k) c (e - c - k) x = move_range c (c + k) (e - c - k) x /\
      move_range c (c + k) (e - c - k) x = insert_range c e (Z.to_nat (Z.abs delta)) v x /\
      move_range c (c + k) (e - c - k) x = delete_range c e (Z.to_nat (Z.abs delta)) v x).
    { intros A v x Hx. rewrite <- blank_move_insert, <- blank_move_delete by lia. fold k. rewrite Hk0, Nat.add_0_r, !Nat.sub_0_r.
      split; [done|]. unfold blank_range. cbn [repeat]. by rewrite !app_nil_l, !Nat.add_0_r, !take_drop. }
    destruct (E _ space (l_glyphs l)) as (E1 & E2 & E3); [lia|]. destruct (E _ attr (l_attrs l)) as (F1 & F2 & F3); [lia|].
    unfold move_in_line. destruct (0 <? delta); f_equal; congruence.
Qed.

Section Horizontal.
Context {W : Type} `{ApiLaws W} {R : Adapter W -> Adapter W -> Prop} `{!Frame R} {GW : GlyphWidth} (statics : Statics) (garbage : wchar).

#[local] Abbreviation does := (does_in R).

Lemma screen_columns_bound a s i l : on_screen a s -> lines_of s !! i = Some l -> Z.of_nat (pg_width (sc_page s)) <= MAX_COLUMNS /\ Z.of_nat i < 2 ^ 16.
Proof.
  intros Hs Hl. pose proof (po_holds _ _ (so_page _ _ Hs)) as Hh. destruct (row_of_line _ _ _ Hh i l Hl) as (r & _ & Hr).
  pose proof (shows_width_bound _ _ Hr). destruct (screen_line a s i l Hs Hl) as [[Hw _] _]. split; [lia|].
  pose proof (hd_height _ _ _ Hh). pose proof (holds_length _ _ _ Hh) as Hlen. pose proof (lookup_lt_Some _ _ _ Hl). fold (lines_of s) in Hlen. lia.
Qed.

(** An erasure within a line of narrow glyphs. *)
Lemma erase_in_line_does a s i l attr (c k : nat) :
  on_screen a s -> lines_of s !! i = Some l -> narrow_line l -> (c + k <= pg_width (sc_page s))%nat ->
  does (Adapt._FillRect statics garbage (Rect (Z.of_nat c) (Z.of_nat i) (Z.of_nat (c + k)) (Z.of_nat i + 1)) 0x20 attr) a tt
    (set_lines (<[i := if (0 <? k)%nat then blank_line_range (pg_width (sc_page s)) c k attr l else l]> (lines_of s)) s).
Proof.
  intros Hs Hl Hn Hc. destruct (screen_line a s i l Hs Hl) as [Hok _]. pose proof (lookup_lt_Some _ _ _ Hl) as Hi.
  destruct (Nat.ltb_spec 0 k) as [Hk|Hk].
  - replace (Z.of_nat i + 1) with (Z.of_nat (i + 1)) by lia.
    rewrite <- (filled_narrow attr _ c k l) by done.
    replace (<[i := _]> (lines_of s)) with (map_rows i 1 (filled 0x20 attr (pg_width (sc_page s)) c k) (lines_of s))
      by (by rewrite <- (map_rows_S i 0 _ _ l Hl), map_rows_0).
    apply FillRect_does; (done || lia).
  - unfold Adapt._FillRect. cbn [left right]. rewrite (proj2 (Z.ltb_ge _ _)) by lia. cbn [andb]. apply does_ret.
    rewrite list_insert_id by done. by destruct s as [[] ?].
Qed.

(** A copy within a line of narrow glyphs. *)
Lemma move_in_line_does a s (i b t n : nat) l :
  on_screen a s -> lines_of s !! i = Some l -> narrow_line l -> (0 < n)%nat ->
  (b + n <= pg_width (sc_page s))%nat -> (t + n <= pg_width (sc_page s))%nat ->
  let source := FromDimensionsAt (Point (Z.of_nat b) (Z.of_nat i)) (Z.of_nat n) 1 in
  does (Adapt.move_view statics garbage (fun _ => ret true) source (Offset source (Point (Z.of_nat t - Z.of_nat b) 0))) a tt
    (set_lines (<[i := move_in_line b t n l]> (lines_of s)) s).
Proof.
  intros Hs Hl Hn Hpos Hb Ht source. destruct (screen_line a s i l Hs Hl) as [Hok _].
  rewrite <- (copied_line (pg_width (sc_page s)) (lines_of s) i b t n l) by done. fold source.
  assert (Hcells : forall j, (j + n <= pg_width (sc_page s))%nat ->
    on_cells s (FromDimensionsAt (Point (Z.of_nat j) (Z.of_nat i)) (Z.of_nat n) 1)).
  { intros j Hj p. rewrite inside_spec. unfold FromDimensionsAt. unfold_viewport. cbn. intros [Hx Hy]. exists l.
    split; [lia|lia|by replace (Z.to_nat (y p)) with i by lia|done]. }
  apply move_view_does; try done.
  - by apply Hcells.
  - unfold moved. replace (Offset source _) with (FromDimensionsAt (Point (Z.of_nat t) (Z.of_nat i)) (Z.of_nat n) 1);
      [by apply Hcells|]. unfold Offset, source, FromDimensionsAt. unfold_viewport. cbn. do 2 f_equal; lia.
  - unfold source, FromDimensionsAt. unfold_viewport. cbn. lia.
  - unfold source, FromDimensionsAt. unfold_viewport. cbn. lia.
Qed.

Lemma ScrollRectHorizontally_does a s (i c e : nat) delta l :
  on_screen a s -> lines_of s !! i = Some l -> narrow_line l -> (c < e)%nat -> (e <= pg_width (sc_page s))%nat ->
  does (Adapt._ScrollRectHorizontally statics garbage (Rect (Z.of_nat c) (Z.of_nat i) (Z.of_nat e) (Z.of_nat i + 1)) delta) a tt
    (set_lines (<[i := scroll_in_line (pg_width (sc_page s)) (SetStandardErase (pg_attrs (sc_page s))) c e delta l]> (lines_of s)) s).
Proof.
  intros Hs Hl Hn Hc He. set (columns := pg_width (sc_page s)) in *. set (attr := SetStandardErase _).
  destruct (screen_line a s i l Hs Hl) as [Hok _]. destruct (screen_columns_bound a s i l Hs Hl) as [Hcb Hib]. fold columns in Hok, Hcb.
  pose proof (lookup_lt_Some _ _ _ Hl) as Hi. unfold MAX_COLUMNS in Hcb.
  unfold Adapt._ScrollRectHorizontally. cbn [left right top Geometry.bottom].
  eapply (does_result _ _ _ (Z.of_nat (e - c))).
  { unfold rect_width, CheckSub, checked, INT_MIN, INT_MAX. cbn [left right]. replace (Z.of_nat e - Z.of_nat c) with (Z.of_nat (e - c)) by lia.
    by rewrite !(proj2 (Z.leb_le _ _)) by lia. }
  eapply (does_result _ _ _ 1).
  { unfold rect_height, CheckSub, checked, INT_MIN, INT_MAX. cbn [Geometry.bottom top]. by replace (Z.of_nat i + 1 - Z.of_nat i) with 1 by lia. }
  cbv zeta. set (k := Nat.min (Z.to_nat (Z.abs delta)) (e - c)).
  replace (Z.min (Z.abs delta) (Z.of_nat (e - c))) with (Z.of_nat k) by (unfold k; lia).
  set (b := if 0 <? delta then c else (c + k)%nat). set (t := if 0 <? delta then (c + k)%nat else c). set (n := (e - c - k)%nat).
  assert (Hk : (k <= e - c)%nat) by (unfold k; lia).
  assert (Hbt : (b + n <= columns)%nat /\ (t + n <= columns)%nat) by (unfold b, t, n; destruct (0 <? delta); lia).
  set (s1 := set_lines (<[i := move_in_line b t n l]> (lines_of s)) s).
  eapply (does_bind _ _ _ tt s1).
  { destruct (Z.ltb_spec (Z.of_nat k) (Z.of_nat (e - c))) as [Hlt|Hge].
    - replace (Z.of_nat (e - c) - Z.of_nat k) with (Z.of_nat n) by (unfold n; lia).
      replace (if 0 <? delta then Z.of_nat c else Z.of_nat c + Z.of_nat k) with (Z.of_nat b) by (unfold b; destruct (0 <? delta); lia).
      replace (if 0 <? delta then Z.of_nat k else - Z.of_nat k) with (Z.of_nat t - Z.of_nat b) by (unfold b, t; destruct (0 <? delta); lia).
      apply move_in_line_does; (done || unfold n; lia).
    - apply does_ret. assert (Hn0 : n = 0%nat) by (unfold n; lia). unfold s1.
      replace (move_in_line b t n l) with l; [rewrite list_insert_id by done; by destruct s as [[] ?]|].
      rewrite Hn0. unfold move_in_line, move_range. rewrite !take_0, !app_nil_l, !Nat.add_0_r, !take_drop. by destruct l. }
  intros a1 H1 _. eapply does_bind; [by apply (does_erase_attributes a1 s1)|intros a2 H2 _]. fold attr.
  set (el := if 0 <? delta then c else (e - k)%nat).
  replace (if 0 <? delta then Z.of_nat c else Z.of_nat e - Z.of_nat k) with (Z.of_nat el) by (unfold el; destruct (0 <? delta); lia).
  replace (Z.of_nat el + Z.of_nat k) with (Z.of_nat (el + k)) by lia.
  destruct (move_in_line_ok columns b t n l Hn Hok) as [Hn' _]; [lia|lia|].
  replace (set_lines _ s) with (set_lines (<[i := if (0 <? k)%nat then blank_line_range columns el k attr (move_in_line b t n l) else move_in_line b t n l]> (lines_of s1)) s1).
  { apply (erase_in_line_does a2 s1); [done|by apply list_lookup_insert_eq|done|]. cbn. fold columns. unfold el. destruct (0 <? delta); lia. }
  rewrite <- (scroll_in_line_eq columns attr c e delta l) by done. fold k n el. unfold s1, set_lines, lines_of. cbn [sc_page set_pg_lines pg_lines sc_delay].
  rewrite list_insert_insert_eq. unfold b, t. by destruct (0 <? delta).
Qed.

End Horizontal.

Section Characters.
Context {W : Type} `{ApiLaws W} {R : Adapter W -> Adapter W -> Prop} `{!Frame R} {GW : GlyphWidth} (statics : Statics) (garbage : wchar).

#[local] Abbreviation does := (does_in R).

(** The line of the cursor, from the cursor to the end of the line, scrolled. *)
Definition scroll_at_cursor (delta : Z) (s : screen) : screen :=
  let pg := sc_page s in
  let row := Z.to_nat (y (pg_cursor pg)) in
  set_lines (alter (fun l => scroll_in_line (pg_width pg) (SetStandardErase (pg_attrs pg)) (Z.to_nat (x (pg_cursor pg)))
    (line_width (pg_width pg) l) delta l) row (lines_of s)) s.

(** The cursor stands on a line of narrow glyphs. *)
Definition on_narrow_line (s : screen) : Prop :=
  let p := pg_cursor (sc_page s) in
  0 <= y p /\ exists l, lines_of s !! Z.to_nat (y p) = Some l /\ narrow_line l /\
    0 <= x p < Z.of_nat (line_width (pg_width (sc_page s)) l).

Lemma InsertDeleteCharacter_does a s delta :
  on_screen a s -> on_narrow_line s ->
  does (Adapt._InsertDeleteCharacterHelper statics garbage delta) a tt (scroll_at_cursor delta s).
Proof.
  intros Hs (Hy & l & Hl & Hn & Hx). unfold Adapt._InsertDeleteCharacterHelper. pose proof (lookup_lt_Some _ _ _ Hl) as Hi.
  apply (does_get (fun a => _cPosition (_cursor (GetTextBuffer (world a))))). rewrite (screen_cursor a s Hs).
  set (p := pg_cursor (sc_page s)) in *. set (e := line_width (pg_width (sc_page s)) l) in *.
  eapply (does_result _ _ _ (Z.of_nat e)).
  { rewrite (screen_line_width a s (y p) Hs) by (fold (lines_of s); lia). unfold width_at. fold (lines_of s). by rewrite Hl. }
  unfold scroll_at_cursor. fold p. 
  replace (alter _ _ (lines_of s)) with (<[Z.to_nat (y p) := scroll_in_line (pg_width (sc_page s)) (SetStandardErase (pg_attrs (sc_page s)))
    (Z.to_nat (x p)) e delta l]> (lines_of s)).
  - pose proof (ScrollRectHorizontally_does (R := R) statics garbage a s (Z.to_nat (y p)) (Z.to_nat (x p)) e delta l Hs Hl Hn) as Hd.
    rewrite !Z2Nat.id in Hd by lia. apply Hd; [lia|]. apply line_width_le.
  - apply list_eq. intros j. destruct (decide (j = Z.to_nat (y p))) as [->|Hne].
    + by rewrite list_lookup_insert_eq, list_lookup_alter_eq, Hl by done.
    + by rewrite list_lookup_insert_ne, list_lookup_alter_ne by done.
Qed.

End Characters.

(** C16. On a line of glyphs of one column, over any terminal that satisfies the laws of the
    interface, ICH moves the cells from the cursor to the end of the line to the right by
    the number of characters given and DCH moves them to the left, cell by cell over each
    other: every cell arrives whole, with its glyph and its attribute, those moved over
    the end or under the cursor are lost, the places freed are blank with the erase
    attributes, and nothing else changes, neither the other lines nor the columns of a
    double width line beyond its end nor the cursor; the line is not wrapped any more when
    its last column was erased. *)
Theorem characters_inserted_and_deleted (W : Type) (api : ITerminalApi W) (laws : ApiLaws W) (GW : GlyphWidth)
    (statics : Statics) (garbage : wchar) (a : Adapter W) (s : screen) (n : nat) :
  on_screen a s -> on_narrow_line s ->
  (exists a', Adapt.InsertCharacter statics garbage (Z.of_nat n) a = (a', Ok true) /\
     on_screen a' (scroll_at_cursor (Z.of_nat n) s) /\ only_buffer a a') /\
  (exists a', Adapt.DeleteCharacter statics garbage (Z.of_nat n) a = (a', Ok true) /\
     on_screen a' (scroll_at_cursor (- Z.of_nat n) s) /\ only_buffer a a').
Proof.
  intros Hs Hn. split.
  - eapply (does_bind (R := only_buffer)); [by apply InsertDeleteCharacter_does|intros a1 H1 _; by apply does_ret].
  - eapply (does_bind (R := only_buffer)); [by apply InsertDeleteCharacter_does|intros a1 H1 _; by apply does_ret].
Qed.

(** ** The copy of a rectangle *)

(** The rectangle that the parameters of an operation on an area stand for: rows count
    from the top margin in origin mode and from the first row of the viewport otherwise,
    no bottom or right is the last one, and what is outside is cut. *)
Definition selected_area (g : rows) (columns top_ left_ bottom_ right_ : Z) : rect :=
  let base := if origin_mode g then top_margin g else first_row g in
  let limit := if origin_mode g then bottom_margin g + 1 else last_row g + 1 in
  Rect (Z.min left_ columns - 1) (Z.min (base + top_ - 1) (limit - 1))
    (if right_ =? 0 then columns else Z.min right_ columns) (if bottom_ =? 0 then limit else Z.min (base + bottom_) limit).

(** The cells of a rectangle replaced by those of the one that begins at [p]. *)
Definition copy_rect (dst : rect) (p : point) (ls : list line) : list line :=
  update_cells (fun q => if contains dst q then Some (cell_of ls (Point (x q - left dst + x p) (y q - top dst + y p))) else None) ls.

(** The rows of a rectangle hold glyphs of one column, and are of single width. *)
Definition narrow_rows (r : rect) (ls : list line) : Prop :=
  forall row, top r <= row < Geometry.bottom r -> exists l, ls !! Z.to_nat row = Some l /\ narrow_line l /\ l_rendition l = SingleWidth.

Lemma copy_rect_self dst ls : copy_rect dst (Geometry.origin dst) ls = ls.
Proof.
  apply list_eq. intros i. unfold copy_rect. rewrite update_cells_lookup. destruct (ls !! i) as [l|] eqn:Hl; [|done]. cbn. f_equal.
  destruct l as [gs ats r w p]. unfold update_line. cbn [l_glyphs l_attrs l_rendition l_wrap l_padded].
  assert (E : forall j, cell_of ls (Point (Z.of_nat j - left dst + left dst) (Z.of_nat i - top dst + top dst)) = line_cell (mkLine gs ats r w p) j).
  { intros j. unfold cell_of. cbn [x y]. rewrite !Z.sub_add, !Nat2Z.id. by rewrite Hl. }
  f_equal; apply list_eq; intros j; rewrite list_lookup_imap; match goal with |- context [?l !! j] => destruct (l !! j) eqn:Ej; [|done] end;
    cbn [fmap option_fmap option_map]; f_equal; cbn [Geometry.origin x y]; destruct (contains _ _); cbn [from_option]; try done;
    rewrite E; unfold line_cell; cbn [l_glyphs l_attrs fst snd]; by rewrite Ej.
Qed.

Section Rectangle.
Context {W : Type} `{ApiLaws W} {GW : GlyphWidth} (statics : Statics) (garbage : wchar).

#[local] Abbreviation does := (does_in quiet).

Lemma CalculateRectArea_does a s top_ left_ bottom_ right_ bufferSize :
  on_screen a s -> rows_ok (rows_of_adapter a) (sc_page s) -> width bufferSize = Z.of_nat (pg_width (sc_page s)) ->
  does (AdaptOps._CalculateRectArea top_ left_ bottom_ right_ bufferSize) a
    (selected_area (rows_of_adapter a) (Z.of_nat (pg_width (sc_page s))) top_ left_ bottom_ right_) s.
Proof.
  intros Hs (Hf & Hl & Ht & Hb & _) Hw. unfold AdaptOps._CalculateRectArea. apply does_get. fold (viewport_of a).
  pose proof (po_holds _ _ (so_page _ _ Hs)) as Hh. pose proof (hd_height _ _ _ Hh) as Hht. pose proof (holds_length _ _ _ Hh) as Hlen.
  cbn [rows_of_adapter first_row last_row top_margin bottom_margin] in *.
  eapply does_bind; [apply (does_margins a s false Hs)|intros a1 H1 Q1]. destruct (margins_of a) as [tm bm] eqn:Em. cbn [fst snd] in *.
  apply does_get. rewrite (quiet_modes _ _ Q1).
  eapply (does_result _ _ _ (Geometry.bottom (viewport_of a) - top (viewport_of a))).
  { unfold rect_height, CheckSub. apply checked_ok. unfold is_int, INT_MIN, INT_MAX. lia. }
  cbv zeta. rewrite Hw. unfold selected_area, rows_of_adapter. rewrite Em. cbn [fst snd first_row last_row top_margin bottom_margin origin_mode].
  match goal with |- does (ret ?u) _ ?v _ => replace u with v; [by apply does_ret|] end.
  unfold rect_of_inclusive. cbn [ir_left ir_top ir_right ir_bottom].
  destruct (enumset_test (_modes a) Origin); f_equal; repeat case_match; lia.
Qed.

Lemma area_bounds a s top_ left_ bottom_ right_ :
  rows_ok (rows_of_adapter a) (sc_page s) -> 1 <= top_ -> 1 <= left_ ->
  let r := selected_area (rows_of_adapter a) (Z.of_nat (pg_width (sc_page s))) top_ left_ bottom_ right_ in
  0 <= left r /\ right r <= Z.of_nat (pg_width (sc_page s)) /\ 0 <= top r /\ Geometry.bottom r <= Z.of_nat (length (lines_of s)).
Proof.
  intros (Hf & Hl & Ht & Hb & Hw) Htop Hleft. cbv zeta. unfold selected_area, lines_of. cbn [left right top Geometry.bottom].
  destruct (origin_mode _); repeat case_match; lia.
Qed.

Lemma rows_on_cells s (r : rect) : narrow_rows r (lines_of s) -> 0 <= left r -> right r <= Z.of_nat (pg_width (sc_page s)) -> 0 <= top r ->
  on_cells s (FromExclusive r).
Proof.
  intros Hn Hl Hr Ht p. rewrite inside_spec. unfold FromExclusive. unfold_viewport. cbn. intros [Hx Hy].
  destruct (Hn (y p)) as (l & E & Hnl & _); [lia|]. exists l. split; (done || lia).
Qed.

(** The destination of a copy: as large as the source, but for what the page cuts. *)
Definition copy_destination (g : rows) (columns : Z) (src : rect) (dstTop dstLeft : Z) : rect :=
  selected_area g columns dstTop dstLeft (dstTop + (Geometry.bottom src - top src) - 1) (dstLeft + (right src - left src) - 1).

(** A source without rows: the bottom of the destination comes out as 0, which stands for
    the last row, so the destination is the whole page and not empty. *)
Example empty_source_copies_page :
  let g := mkRows 0 23 0 23 false in
  let src := selected_area g 80 5 1 4 80 in
  (top src <? Geometry.bottom src) = false /\ copy_destination g 80 src 1 1 = Rect 0 0 80 24.
Proof. split; reflexivity. Qed.

Lemma copy_destination_size a s src dstTop dstLeft :
  rows_ok (rows_of_adapter a) (sc_page s) -> 1 <= dstTop -> 1 <= dstLeft -> left src < right src -> top src < Geometry.bottom src ->
  let dst := copy_destination (rows_of_adapter a) (Z.of_nat (pg_width (sc_page s))) src dstTop dstLeft in
  0 < right dst - left dst <= right src - left src /\ 0 < Geometry.bottom dst - top dst <= Geometry.bottom src - top src.
Proof.
  intros (Hf & Hl & Ht & Hb & Hw) Hdt Hdl Hx Hy. cbv zeta. unfold copy_destination, selected_area. cbn [left right top Geometry.bottom].
  rewrite !(proj2 (Z.eqb_neq _ 0)) by lia. destruct (origin_mode _); lia.
Qed.

(** The loop of the copy. *)
Lemma copy_view_does a s (src dst : rect) :
  on_screen a s -> 0 <= left src -> right src <= Z.of_nat (pg_width (sc_page s)) -> 0 <= top src ->
  0 <= left dst -> right dst <= Z.of_nat (pg_width (sc_page s)) -> 0 <= top dst ->
  narrow_rows src (lines_of s) -> narrow_rows dst (lines_of s) ->
  0 < right dst - left dst <= right src - left src -> 0 < Geometry.bottom dst - top dst <= Geometry.bottom src - top src ->
  let view p := FromDimensionsSize p (Size (right dst - left dst) (Geometry.bottom dst - top dst)) in
  does (Adapt.move_view statics garbage (fun p => lw <- Adapt.buf_read (GetLineWidth (y p)) ;; ret (x p <? lw))
    (view (Geometry.origin src)) (view (Geometry.origin dst))) a tt (set_lines (copy_rect dst (Geometry.origin src) (lines_of s)) s).
Proof.
  intros Hs Hsl Hsr Hst Hdl Hdr Hdt Hns Hnd Hw Hh view. set (delta := Point (left dst - left src) (top dst - top src)).
  assert (Ev : view (Geometry.origin dst) = Offset (view (Geometry.origin src)) delta).
  { unfold view, Offset, FromDimensionsSize, delta. unfold_viewport. cbn. do 2 f_equal; lia. }
  assert (Hin : forall p q, IsInBounds (view p) q false = true <-> x p <= x q < x p + (right dst - left dst) /\ y p <= y q < y p + (Geometry.bottom dst - top dst)).
  { intros p q. rewrite inside_spec. unfold view, FromDimensionsSize. unfold_viewport. cbn. lia. }
  assert (Hcells : forall r, narrow_rows r (lines_of s) -> 0 <= left r -> 0 <= top r -> right r <= Z.of_nat (pg_width (sc_page s)) ->
    right dst - left dst <= right r - left r -> Geometry.bottom dst - top dst <= Geometry.bottom r - top r -> on_cells s (view (Geometry.origin r))).
  { intros r Hn Hl Ht Hr H1 H2 p Hp. apply Hin in Hp. cbn [Geometry.origin x y] in Hp. destruct (Hn (y p)) as (l & El & Hnl & _); [lia|].
    exists l. split; (done || lia). }
  assert (Eu : copy_rect dst (Geometry.origin src) (lines_of s) = update_cells (copied (view (Geometry.origin src)) delta (lines_of s)) (lines_of s)).
  { apply update_cells_ext. intros q. unfold copied. rewrite <- Ev. unfold unshifted, delta. cbn [x y Geometry.origin].
    replace (contains dst q) with (IsInBounds (view (Geometry.origin dst)) q false).
    - destruct (IsInBounds _ _ _); [|done]. do 3 f_equal; lia.
    - apply eq_true_iff_eq. rewrite Hin. cbn [Geometry.origin x y]. unfold contains. lia. }
  rewrite Eu, Ev. apply move_view_does; try done.
  - apply Hcells; (done || lia).
  - unfold moved. rewrite <- Ev. apply Hcells; (done || lia).
  - intros a1 p k Hp H1. apply Hin in Hp. cbn [Geometry.origin x y] in Hp. destruct (Hns (y p)) as (l & El & _ & Hsw); [lia|].
    pose proof (lookup_lt_Some _ _ _ El) as Hi. unfold bind, Adapt.buf_read, get_result.
    rewrite (screen_line_width a1 _ (y p) H1) by (cbn; unfold update_cells; rewrite length_imap; fold (lines_of s); lia).
    unfold width_at. cbn [after updated set_lines sc_page set_pg_lines pg_lines pg_width]. rewrite update_cells_lookup, El. cbn [fmap option_fmap option_map].
    unfold line_width. cbn [update_line l_rendition]. rewrite bool_decide_eq_true_2 by done. unfold ret. do 2 f_equal. lia.
  - unfold view, FromDimensionsSize. unfold_viewport. cbn. lia.
  - unfold view, FromDimensionsSize. unfold_viewport. cbn. lia.
Qed.

Lemma CopyRectangularArea_does a s top_ left_ bottom_ right_ page dstTop dstLeft dstPage :
  on_screen a s -> rows_ok (rows_of_adapter a) (sc_page s) -> 1 <= top_ -> 1 <= left_ -> 1 <= dstTop -> 1 <= dstLeft ->
  let columns := Z.of_nat (pg_width (sc_page s)) in
  let src := selected_area (rows_of_adapter a) columns top_ left_ bottom_ right_ in
  let dst := copy_destination (rows_of_adapter a) columns src dstTop dstLeft in
  left src < right src -> top src < Geometry.bottom src -> narrow_rows src (lines_of s) -> narrow_rows dst (lines_of s) ->
  does (AdaptOps.CopyRectangularArea statics garbage top_ left_ bottom_ right_ page dstTop dstLeft dstPage) a true
    (set_lines (copy_rect dst (Geometry.origin src) (lines_of s)) s).
Proof.
  intros Hs Hok Ht Hl Hdt Hdl columns src dst Hsx Hsy Hns Hnd.
  destruct (copy_destination_size a s src dstTop dstLeft Hok Hdt Hdl Hsx Hsy) as [Hw Hh]. fold columns in Hw, Hh. fold dst in Hw, Hh.
  destruct (area_bounds a s top_ left_ bottom_ right_ Hok Ht Hl) as (Sl & Sr & St & Sb). fold columns in Sl, Sr, St, Sb. fold src in Sl, Sr, St, Sb.
  assert (HD : 0 <= left dst /\ right dst <= columns /\ 0 <= top dst /\ Geometry.bottom dst <= Z.of_nat (length (lines_of s)))
    by (by apply (area_bounds a s)).
  destruct HD as (Dl & Dr & Dt & Db).
  destruct (Hns (top src)) as (l0 & El0 & _); [lia|]. destruct (screen_columns_bound a s _ l0 Hs El0) as [Hcb _]. unfold MAX_COLUMNS in Hcb. fold columns in Hcb.
  pose proof (po_holds _ _ (so_page _ _ Hs)) as Hho. pose proof (hd_height _ _ _ Hho) as Hht. pose proof (holds_length _ _ _ Hho) as Hlen. fold (lines_of s) in Hlen.
  unfold AdaptOps.CopyRectangularArea.
  apply (does_get (fun a => Dimensions (GetSize (GetTextBuffer (world a))))).
  assert (Ew : width (Dimensions (GetSize (GetTextBuffer (world a)))) = columns) by exact (screen_width a s Hs).
  eapply does_bind; [by apply CalculateRectArea_does|intros a1 H1 Q1]. fold columns. fold src.
  assert (Hdim : forall z, 0 < z < 2 ^ 17 -> checked z = Ok z) by (intros; apply checked_ok; unfold is_int, INT_MIN, INT_MAX; lia).
  eapply does_result; [by apply Hdim; lia|]. eapply does_result; [by apply Hdim; lia|].
  eapply does_bind; [apply CalculateRectArea_does; [exact H1|by rewrite (quiet_rows _ _ Q1)|exact Ew]|intros a2 H2 Q2]. rewrite (quiet_rows _ _ Q1).
  fold columns. change (selected_area (rows_of_adapter a) columns dstTop dstLeft _ _) with dst.
  assert (Hb : rect_bool dst = true) by (unfold rect_bool; lia). rewrite Hb. cbn [andb].
  eapply does_bind; [|intros a3 H3 _; by apply does_ret]. case_bool_decide as Ho; cbn [negb].
  { apply does_ret. rewrite <- Ho, copy_rect_self. by destruct s as [[] ?]. }
  eapply does_result; [by apply Hdim; lia|]. eapply does_result; [by apply Hdim; lia|]. cbv zeta.
  eapply does_bind; [by apply copy_view_does|intros a3 H3 _]. by apply does_api; [apply notify_quiet|].
Qed.

End Rectangle.

(** C17. DECCRA on lines of glyphs of one column and single width, over any terminal that
    satisfies the laws of the interface: the cells of the rectangle the parameters select
    arrive at the destination all at once, however the two overlap, although the code
    moves one cell at a time and writes it after it has read the next; what the page has
    no room for at the destination is cut, the page parameters are ignored, and no other
    cell, no other line and no flag of a line changes. *)
Theorem rectangle_copied (W : Type) (api : ITerminalApi W) (laws : ApiLaws W) (GW : GlyphWidth) (statics : Statics)
    (garbage : wchar) (a : Adapter W) (s : screen) (top_ left_ bottom_ right_ page dstTop dstLeft dstPage : VTInt) :
  on_screen a s -> rows_ok (rows_of_adapter a) (sc_page s) -> 1 <= top_ -> 1 <= left_ -> 1 <= dstTop -> 1 <= dstLeft ->
  let columns := Z.of_nat (pg_width (sc_page s)) in
  let src := selected_area (rows_of_adapter a) columns top_ left_ bottom_ right_ in
  let dst := copy_destination (rows_of_adapter a) columns src dstTop dstLeft in
  left src < right src -> top src < Geometry.bottom src -> narrow_rows src (lines_of s) -> narrow_rows dst (lines_of s) ->
  exists a', AdaptOps.CopyRectangularArea statics garbage top_ left_ bottom_ right_ page dstTop dstLeft dstPage a = (a', Ok true) /\
    on_screen a' (set_lines (copy_rect dst (Geometry.origin src) (lines_of s)) s) /\ quiet a a'.
Proof. intros. by apply CopyRectangularArea_does. Qed.
