(* ===== verification/AdaptModes.v ===== *)
(** * The adapter: modes, margins, tabs, reports and resets

    Models the part of src/src/terminal/adapter/adaptDispatch.cpp that changes the settings
    of the terminal and reports them, with the operations of adaptDispatchGraphics.cpp on
    the state of the whole adapter.

    [GetPerceivableColor] is the parameter of the render settings.  The loops over the
    columns of the tab stops have fuel for one turn per column. *)

From S2P Require Import Prelude Effects EnumSet DispatchTypes StateMachine Geometry LineRendition Viewport ViewportSpec TextColor TextAttribute SgrStack AdaptGraphics MacroBuffer Rle Row TerminalOutput CodepointWidth OutputCells RowWrite Cursor TextBuffer InputEvents TerminalInput RenderSettings TerminalApi TermDispatch AdaptDispatch AdaptOps.

Local Open Scope Z_scope.

(** ** Constants *)

Module StatusType.
Definition OS_OperatingStatus : VTInt := ANSIStandardStatus 5.
Definition CPR_CursorPositionReport : VTInt := ANSIStandardStatus 6.
Definition ExCPR_ExtendedCursorPositionReport : VTInt := DECPrivateStatus 6.
Definition MSR_MacroSpaceReport : VTInt := DECPrivateStatus 62.
Definition MEM_MemoryChecksum : VTInt := DECPrivateStatus 63.
End StatusType.

(** The text between the introducer [ESC \[] and the end of a report. *)
Definition CSI (s : wstring) : wstring := 0x1B :: 0x5B :: s.
Definition DCS (s : wstring) : wstring := 0x1B :: 0x50 :: s ++ ST.

Definition ISO2022 : VTID := VTID_FromString (L"@").
Definition CodingUTF8 : VTID := VTID_FromString (L"G").

Module AdaptModes.
Section AdaptModes.
Context {W : Type} `{ITerminalApi W} {GW : GlyphWidth} (statics : Statics) (garbage : wchar) (GetPerceivableColor : Z -> Z -> Z).

#[local] Abbreviation D := (M (Adapter W)).
Import Adapt AdaptOps.

Definition respond (s : wstring) : D unit := api (ReturnResponse s).

(** [_terminalInput] and [_renderSettings]. *)
Definition input (f : TerminalInput.TerminalInput -> TerminalInput.TerminalInput) : D unit :=
  api (modify (fun w => PutTerminalInput (f (GetTerminalInput w)) w)).
Definition input_get {A} (f : TerminalInput.TerminalInput -> A) : D A := ask (fun w => f (GetTerminalInput w)).
Definition render {A} (m : M RenderSettings A) : D A :=
  api (fun w => let '(r, x) := m (GetRenderSettings w) in (PutRenderSettings r w, x)).
Definition render_get {A} (f : RenderSettings -> A) : D A := ask (fun w => f (GetRenderSettings w)).

(** ** Graphic renditions *)

Definition SetGraphicsRendition (options : VTParameters) : D bool :=
  attr <- buf_get GetCurrentAttributes ;;
  attr <- get_result (fun _ => _ApplyGraphicsOptions options attr) ;;
  api (SetTextAttributes attr) ;;
  ret true.

Definition SetCharacterProtectionAttribute (options : VTParameters) : D bool :=
  attr <- buf_get GetCurrentAttributes ;;
  buf (TextBuffer.SetCurrentAttributes (protection_loop options (Z.to_nat (params_size options)) 0 attr)) ;;
  ret true.

Definition PushGraphicsRendition (options : VTParameters) : D bool :=
  currentAttributes <- buf_get GetCurrentAttributes ;;
  stack <- get _adapterSgrStack ;;
  match Push currentAttributes options stack with
  | Some st => modify (set_sgrStack st) ;; ret true
  | None => undefined
  end.

Definition PopGraphicsRendition : D bool :=
  currentAttributes <- buf_get GetCurrentAttributes ;;
  stack <- get _adapterSgrStack ;;
  match Pop currentAttributes stack with
  | Some (st, attr) => modify (set_sgrStack st) ;; api (SetTextAttributes attr) ;; ret true
  | None => undefined
  end.

(** ** Reports *)

Definition _OperatingStatus : D unit := respond (CSI (L"0n")).

Definition _CursorPositionReport (extendedReport : bool) : D unit :=
  viewport <- ask GetViewport ;;
  p <- cursor_get _cPosition ;;
  let y0 := y p - top viewport + 1 in
  let x0 := x p + 1 in
  origin <- test_mode Origin ;;
  y0 <- (if origin : bool then margins <- _GetVerticalMargins viewport false ;; ret (y0 - fst margins) else ret y0) ;;
  if extendedReport
  then respond (CSI (L"?" ++ format_int y0 ++ L";" ++ format_int x0 ++ L";" ++ format_int 1 ++ L"R"))
  else respond (CSI (format_int y0 ++ L";" ++ format_int x0 ++ L"R")).

Definition _MacroSpaceReport : D unit :=
  mb <- get _macroBuffer ;;
  let spaceInBytes := match mb with Some b => GetSpaceAvailable b | None => MAX_SPACE end in
  respond (CSI (format_int (spaceInBytes / 16) ++ L"*{")).

Definition _MacroChecksumReport (id : VTParameter) : D unit :=
  mb <- get _macroBuffer ;;
  let checksum := match mb with Some b => CalculateChecksum b | None => 0 end in
  respond (DCS (format_int (value_or id 0) ++ L"!~" ++ format_hex4 checksum)).

Definition DeviceStatusReport (statusType : VTInt) (id : VTParameter) : D bool :=
  if statusType =? StatusType.OS_OperatingStatus then _OperatingStatus ;; ret true
  else if statusType =? StatusType.CPR_CursorPositionReport then _CursorPositionReport false ;; ret true
  else if statusType =? StatusType.ExCPR_ExtendedCursorPositionReport then _CursorPositionReport true ;; ret true
  else if statusType =? StatusType.MSR_MacroSpaceReport then _MacroSpaceReport ;; ret true
  else if statusType =? StatusType.MEM_MemoryChecksum then _MacroChecksumReport id ;; ret true
  else ret false.

Definition DeviceAttributes : D bool := respond (CSI (L"?1;0c")) ;; ret true.
Definition SecondaryDeviceAttributes : D bool := respond (CSI (L">0;10;1c")) ;; ret true.
Definition TertiaryDeviceAttributes : D bool := respond (DCS (L"!|00000000")) ;; ret true.
Definition Vt52DeviceAttributes : D bool := respond (ESC (L"/Z")) ;; ret true.

Definition RequestTerminalParameters (permission : VTInt) : D bool :=
  if permission =? 0 then respond (CSI (L"2;1;1;128;128;1;0x")) ;; ret true
  else if permission =? 1 then respond (CSI (L"3;1;1;128;128;1;0x")) ;; ret true
  else ret false.

(** ** Margins *)

Definition _DoSetTopBottomScrollingMargins (topMargin bottomMargin : VTInt) : D unit :=
  viewport <- ask GetViewport ;;
  let screenHeight := bottom viewport - top viewport in
  let actualTop := if topMargin =? 0 then 1 else topMargin in
  let actualBottom := if bottomMargin =? 0 then screenHeight else bottomMargin in
  if (actualTop <? actualBottom) && (actualBottom <=? screenHeight) then
    let '(actualTop, actualBottom) :=
      if (actualTop =? 1) && (actualBottom =? screenHeight) then (0, 0) else (actualTop - 1, actualBottom - 1) in
    modify (fun a => set_margins (InclusiveRect (ir_left (_scrollMargins a)) actualTop (ir_right (_scrollMargins a)) actualBottom) a) ;;
    margins <- get _scrollMargins ;;
    api (SetScrollingRegion margins)
  else ret tt.

Definition SetTopBottomScrollingMargins (topMargin bottomMargin : VTInt) : D bool :=
  _DoSetTopBottomScrollingMargins topMargin bottomMargin ;;
  CursorPosition 1 1 ;;
  ret true.

(** ** Modes *)

Definition _SetColumnMode (enable : bool) : D unit :=
  allowed <- test_mode AllowDECCOLM ;;
  pty <- ask IsConsolePty ;;
  if allowed && negb pty then
    viewport <- ask GetViewport ;;
    let viewportHeight := bottom viewport - top viewport in
    let viewportWidth := if enable then s_sDECCOLMSetColumns else s_sDECCOLMResetColumns in
    api (ResizeWindow viewportWidth viewportHeight) ;;
    set_mode Column enable ;;
    reset_modes [Origin] ;;
    CursorPosition 1 1 ;;
    EraseInDisplay statics garbage EraseType.All ;;
    _DoSetTopBottomScrollingMargins 0 0
  else ret tt.

Definition _SetAlternateScreenBufferMode (enable : bool) : D unit :=
  if enable then
    CursorSaveState ;; api UseAlternateScreenBuffer ;; modify (set_usingAlt true)
  else
    api UseMainScreenBuffer ;; modify (set_usingAlt false) ;; CursorRestoreState ;; ret tt.

Definition _PassThroughInputModes : D bool := ask (fun w => IsConsolePty w && IsVtInputEnabled w).

Definition SetAnsiMode (ansiMode : bool) : D bool :=
  modify (set_termOutput TermOut.init) ;;
  set_parser_mode StateMachine.Ansi ansiMode ;;
  input (TerminalInput.SetInputMode TerminalInput.Ansi ansiMode) ;;
  ret true.

(** The modes of the terminal input are one case of [_ModeParamsHelper] each; a request to
    turn off the focus events is the one that is not passed through. *)
Definition set_input_mode (m : TerminalInput.Mode) (enable : bool) : D bool :=
  input (TerminalInput.SetInputMode m enable) ;;
  passThrough <- _PassThroughInputModes ;;
  ret (negb passThrough || (bool_decide (m = TerminalInput.FocusEvent) && negb enable)).

Definition _ModeParamsHelper (param : VTInt) (enable : bool) : D bool :=
  match input_mode param with
  | Some m => set_input_mode m enable
  | None =>
      if param =? ModeParams.IRM_InsertReplaceMode then set_mode InsertReplace enable ;; ret true
      else if param =? DECANM_AnsiMode then SetAnsiMode enable
      else if param =? ModeParams.DECCOLM_SetNumberOfColumns then _SetColumnMode enable ;; ret true
      else if param =? ModeParams.DECSCNM_ScreenMode then
        render (modify (Render.SetRenderMode ScreenReversed enable)) ;;
        pty <- ask IsConsolePty ;;
        if pty : bool then ret false
        else api (RendererTriggerRedrawAll false false) ;; ret true
      else if param =? ModeParams.DECOM_OriginMode then
        set_mode Origin enable ;; CursorPosition 1 1 ;; ret true
      else if param =? ModeParams.DECAWM_AutoWrapMode then api (SetAutoWrapMode enable) ;; ret true
      else if param =? ModeParams.ATT610_StartCursorBlink then
        cursor (SetBlinkingAllowed enable) ;; pty <- ask IsConsolePty ;; ret (negb pty)
      else if param =? ModeParams.DECTCEM_TextCursorEnableMode then cursor (SetIsVisible enable) ;; ret true
      else if param =? ModeParams.XTERM_EnableDECCOLMSupport then set_mode AllowDECCOLM enable ;; ret true
      else if param =? ModeParams.ASB_AlternateScreenBuffer then _SetAlternateScreenBufferMode enable ;; ret true
      else if param =? ModeParams.XTERM_BracketedPasteMode then
        api (SetBracketedPasteMode enable) ;; pty <- ask IsConsolePty ;; ret (negb pty)
      else ret false
  end.

Definition SetMode (param : VTInt) : D bool := _ModeParamsHelper param true.
Definition ResetMode (param : VTInt) : D bool := _ModeParamsHelper param false.

(** Whether a mode is on; [None] is a mode that is not supported. *)
Definition mode_enabled (param : VTInt) : D (option bool) :=
  match input_mode param with
  | Some m => b <- input_get (TerminalInput.GetInputMode m) ;; ret (Some b)
  | None =>
      if param =? ModeParams.IRM_InsertReplaceMode then b <- test_mode InsertReplace ;; ret (Some b)
      else if param =? DECANM_AnsiMode then b <- get_parser_mode StateMachine.Ansi ;; ret (Some b)
      else if param =? ModeParams.DECCOLM_SetNumberOfColumns then
        pty <- ask IsConsolePty ;; b <- test_mode Column ;; ret (if pty : bool then None else Some b)
      else if param =? ModeParams.DECSCNM_ScreenMode then b <- render_get (Render.GetRenderMode ScreenReversed) ;; ret (Some b)
      else if param =? ModeParams.DECOM_OriginMode then b <- test_mode Origin ;; ret (Some b)
      else if param =? ModeParams.DECAWM_AutoWrapMode then b <- ask GetAutoWrapMode ;; ret (Some b)
      else if param =? ModeParams.ATT610_StartCursorBlink then b <- cursor_get _fBlinkingAllowed ;; ret (Some b)
      else if param =? ModeParams.DECTCEM_TextCursorEnableMode then b <- cursor_get _fIsVisible ;; ret (Some b)
      else if param =? ModeParams.XTERM_EnableDECCOLMSupport then
        pty <- ask IsConsolePty ;; b <- test_mode AllowDECCOLM ;; ret (if pty : bool then None else Some b)
      else if param =? ModeParams.ASB_AlternateScreenBuffer then b <- get _usingAltBuffer ;; ret (Some b)
      else if param =? ModeParams.XTERM_BracketedPasteMode then ask GetBracketedPasteMode
      else ret None
  end.

Definition mode_report (param : VTInt) (enabled : option bool) : wstring :=
  let state := match enabled with Some true => 1 | Some false => 2 | None => 0 end in
  let isPrivate := DECPrivateMode 0 <=? param in
  let prefix := if isPrivate then L"?" else [] in
  let mode := if isPrivate then param - DECPrivateMode 0 else param in
  CSI (prefix ++ format_int mode ++ L";" ++ format_int state ++ L"$y").

Definition RequestMode (param : VTInt) : D bool :=
  enabled <- mode_enabled param ;;
  respond (mode_report param enabled) ;;
  ret true.

Definition SetKeypadMode (fApplicationMode : bool) : D bool :=
  input (TerminalInput.SetInputMode TerminalInput.Keypad fApplicationMode) ;;
  passThrough <- _PassThroughInputModes ;;
  ret (negb passThrough).

(** ** Lines *)

Definition WarningBell : D bool := api api_WarningBell ;; ret true.

Definition LineFeed (lineFeedType : LineFeedType) : D bool :=
  match lineFeedType with
  | DependsOnMode => withReturn <- ask GetLineFeedMode ;; api (api_LineFeed withReturn false) ;; ret true
  | WithoutReturn => api (api_LineFeed false false) ;; ret true
  | WithReturn => api (api_LineFeed true false) ;; ret true
  end.

Definition SetWindowTitle (title : wstring) : D bool := api (api_SetWindowTitle title) ;; ret true.

(** ** Tab stops *)

(** [for (auto column = 8u; column < _tabStopColumns.size(); column += 8)]. *)
Definition default_stops (initialWidth : nat) (stops : list bool) : list bool :=
  foldl (fun t k =>
    let column := (8 * (k + 1))%nat in
    if (column <? length t)%nat && (initialWidth <=? column)%nat then <[column := true]> t else t)
    stops (seq 0 (length stops / 8)).

Definition _InitTabStopsForWidth (width : VTInt) : D unit :=
  if width <? 0 then throw StdException
  else
    let screenWidth := Z.to_nat width in
    modify (fun a =>
      let initialWidth := length (_tabStopColumns a) in
      if (initialWidth <? screenWidth)%nat then
        let stops := _tabStopColumns a ++ repeat false (screenWidth - initialWidth) in
        set_tabs (if _initDefaultTabStops a then default_stops initialWidth stops else stops) (_initDefaultTabStops a) a
      else a).

(** [_tabStopColumns.at(column) = stop]. *)
Definition set_tab_stop (column : Z) (stop : bool) : D unit :=
  stops <- get _tabStopColumns ;;
  if (0 <=? column) && (column <? Z.of_nat (length stops))
  then modify (fun a => set_tabs (<[Z.to_nat column := stop]> stops) (_initDefaultTabStops a) a)
  else throw StdException.

Definition at_cursor_column (stop : bool) : D unit :=
  width <- buf_get (fun tb => Width (GetSize tb)) ;;
  column <- cursor_get (fun c => x (_cPosition c)) ;;
  _InitTabStopsForWidth width ;;
  set_tab_stop column stop.

Definition HorizontalTabSet : D bool := at_cursor_column true ;; ret true.
Definition _ClearSingleTabStop : D unit := at_cursor_column false.
Definition _ClearAllTabStops : D unit := modify (set_tabs [] false).
Definition _ResetTabStops : D unit := modify (set_tabs [] true).

Definition TabClear (clearType : VTInt) : D bool :=
  if clearType =? 0 then _ClearSingleTabStop ;; ret true
  else if clearType =? 3 then _ClearAllTabStops ;; ret true
  else ret false.

(** The loops of [ForwardTab] and [BackwardsTab]; [til::at] does not check its index. *)
Fixpoint forward_column (fuel : nat) (stops : list bool) (width numTabs column tabsPerformed : Z) : Result Z :=
  if (column + 1 <? width) && (tabsPerformed <? numTabs) then
    match fuel with
    | O => OutOfFuel
    | S fuel =>
        let column := column + 1 in
        if column <? 0 then Undefined
        else match stops !! Z.to_nat column with
             | None => Undefined
             | Some stop => forward_column fuel stops width numTabs column (if stop : bool then tabsPerformed + 1 else tabsPerformed)
             end
    end
  else Ok column.

Fixpoint backward_column (fuel : nat) (stops : list bool) (numTabs column tabsPerformed : Z) : Result Z :=
  if (0 <? column) && (tabsPerformed <? numTabs) then
    match fuel with
    | O => OutOfFuel
    | S fuel =>
        let column := column - 1 in
        match stops !! Z.to_nat column with
        | None => Undefined
        | Some stop => backward_column fuel stops numTabs column (if stop : bool then tabsPerformed + 1 else tabsPerformed)
        end
    end
  else Ok column.

Definition ForwardTab (numTabs : VTInt) : D bool :=
  p <- cursor_get _cPosition ;;
  width <- buf_read (GetLineWidth (y p)) ;;
  _InitTabStopsForWidth width ;;
  stops <- get _tabStopColumns ;;
  column <- get_result (fun _ => forward_column (Z.to_nat (width - x p)) stops width numTabs (x p) 0) ;;
  cursor (SetXPosition column) ;;
  _ApplyCursorMovementFlags ;;
  ret true.

Definition BackwardsTab (numTabs : VTInt) : D bool :=
  p <- cursor_get _cPosition ;;
  width <- buf_read (GetLineWidth (y p)) ;;
  _InitTabStopsForWidth width ;;
  stops <- get _tabStopColumns ;;
  column <- get_result (fun _ => backward_column (Z.to_nat (x p)) stops numTabs (x p) 0) ;;
  cursor (SetXPosition column) ;;
  _ApplyCursorMovementFlags ;;
  ret true.

(** ** Character sets *)

Definition DesignateCodingSystem (codingSystem : VTID) : D bool :=
  initial <- get _initialCodePage ;;
  cp <- ask GetConsoleOutputCP ;;
  (match initial with None => modify (set_initialCodePage (Some cp)) | Some _ => ret tt end) ;;
  if codingSystem =? ISO2022 then
    api (SetConsoleOutputCP 28591) ;; AcceptC1Controls true ;; termOut (TermOut.EnableGrTranslation true) ;; ret true
  else if codingSystem =? CodingUTF8 then
    api (SetConsoleOutputCP CP_UTF8) ;; AcceptC1Controls false ;; termOut (TermOut.EnableGrTranslation false) ;; ret true
  else ret false.

Definition Designate94Charset (gsetNumber : VTInt) (charset : VTID) : D bool := termOut (TermOut.Designate94Charset gsetNumber charset).
Definition Designate96Charset (gsetNumber : VTInt) (charset : VTID) : D bool := termOut (TermOut.Designate96Charset gsetNumber charset).
Definition LockingShift (gsetNumber : VTInt) : D bool := termOut (TermOut.LockingShift gsetNumber).
Definition LockingShiftRight (gsetNumber : VTInt) : D bool := termOut (TermOut.LockingShiftRight gsetNumber).
Definition SingleShift (gsetNumber : VTInt) : D bool := termOut (TermOut.SingleShift gsetNumber).

(** ** Resets *)

Definition SoftReset : D bool :=
  cursor (SetIsVisible true) ;;
  reset_modes [InsertReplace; Origin] ;;
  api (SetAutoWrapMode true) ;;
  input (TerminalInput.SetInputMode TerminalInput.CursorKey false) ;;
  input (TerminalInput.SetInputMode TerminalInput.Keypad false) ;;
  _DoSetTopBottomScrollingMargins 0 0 ;;
  modify (set_termOutput TermOut.init) ;;
  initial <- get _initialCodePage ;;
  (match initial with Some cp => api (SetConsoleOutputCP cp) | None => ret tt end) ;;
  AcceptC1Controls false ;;
  SetGraphicsRendition [] ;;
  SetCharacterProtectionAttribute [] ;;
  modify (set_saved CursorState_default CursorState_default) ;;
  pty <- ask IsConsolePty ;;
  ret (negb pty).

(** The macros are also wiped ([ClearMacrosIfInUse]) for an invocation that still runs; the
    adapter itself forgets them. *)
Definition HardReset : D bool :=
  alt <- get _usingAltBuffer ;;
  (if alt : bool then api UseMainScreenBuffer ;; modify (set_usingAlt false) else ret tt) ;;
  SoftReset ;;
  EraseInDisplay statics garbage EraseType.All ;;
  EraseInDisplay statics garbage EraseType.Scrollback ;;
  render (modify (Render.SetRenderMode ScreenReversed false)) ;;
  CursorPosition 1 1 ;;
  input TerminalInput.ResetInputModes ;;
  api (SetBracketedPasteMode false) ;;
  cursor (SetBlinkingAllowed true) ;;
  _ResetTabStops ;;
  api (RendererUpdateSoftFont [] (Size 0 0) 0) ;;
  modify (set_fontBuffer None) ;;
  modify (set_adapt_modes 0) ;;
  modify (set_macroBuffer None) ;;
  pty <- ask IsConsolePty ;;
  ret (negb pty).

Definition ScreenAlignmentPattern : D bool :=
  viewport <- ask GetViewport ;;
  bufferWidth <- buf_get (fun tb => Width (GetSize tb)) ;;
  _FillRect statics garbage (Rect 0 (top viewport) bufferWidth (bottom viewport)) 0x45 TextAttribute_default ;;
  buf (ResetLineRenditionRange (top viewport) (bottom viewport)) ;;
  attr <- eraseAttributes ;;
  api (SetTextAttributes attr) ;;
  reset_modes [Origin] ;;
  _DoSetTopBottomScrollingMargins 0 0 ;;
  CursorPosition 1 1 ;;
  ret true.

(** ** Cursor style, clipboard, window, links *)

Definition cursor_style (cursorStyle : VTInt) (userDefault : CursorType) : option (CursorType * bool) :=
  if cursorStyle =? 0 then Some (userDefault, true)
  else if cursorStyle =? 1 then Some (FullBox, true)
  else if cursorStyle =? 2 then Some (FullBox, false)
  else if cursorStyle =? 3 then Some (Underscore, true)
  else if cursorStyle =? 4 then Some (Underscore, false)
  else if cursorStyle =? 5 then Some (VerticalBar, true)
  else if cursorStyle =? 6 then Some (VerticalBar, false)
  else None.

Definition SetCursorStyle (cursorStyle : VTInt) : D bool :=
  userDefault <- ask GetUserDefaultCursorStyle ;;
  match cursor_style cursorStyle userDefault with
  | None => ret false
  | Some (actualType, fEnableBlinking) =>
      cursor (SetType actualType) ;;
      cursor (SetBlinkingAllowed fEnableBlinking) ;;
      pty <- ask IsConsolePty ;;
      ret (negb pty)
  end.

Definition SetClipboard (content : wstring) : D bool :=
  pty <- ask IsConsolePty ;;
  if pty : bool then ret false else api (CopyToClipboard content) ;; ret true.

Definition WindowManipulation (function : VTInt) (parameter1 parameter2 : VTParameter) : D bool :=
  if function =? 1 then api (api_ShowWindow true) ;; ret true
  else if function =? 2 then api (api_ShowWindow false) ;; ret true
  else if function =? 7 then buf TriggerRedrawAll ;; ret true
  else if function =? 8 then api (ResizeWindow (value_or parameter2 0) (value_or parameter1 0)) ;; ret true
  else ret false.

Definition AddHyperlink (uri params : wstring) : D bool :=
  attr <- buf_get GetCurrentAttributes ;;
  id <- buf (GetHyperlinkId uri params) ;;
  buf (TextBuffer.SetCurrentAttributes (SetHyperlinkId id attr)) ;;
  buf (AddHyperlinkToMap uri id) ;;
  ret true.

Definition EndHyperlink : D bool :=
  attr <- buf_get GetCurrentAttributes ;;
  buf (TextBuffer.SetCurrentAttributes (SetHyperlinkId 0 attr)) ;;
  ret true.

(** ** Colours *)

Definition SetColorTableEntry (tableIndex dwColor : Z) : D bool :=
  render (Render.SetColorTableEntry tableIndex dwColor) ;;
  distinguishable <- render_get (Render.GetRenderMode IndexedDistinguishableColors) ;;
  (if distinguishable : bool then render (Render.MakeAdjustedColorArray GetPerceivableColor) else ret tt) ;;
  pty <- ask IsConsolePty ;;
  if pty : bool then ret false
  else
    backgroundIndex <- render_get (Render.GetColorAliasIndex DefaultBackground) ;;
    frameIndex <- render_get (Render.GetColorAliasIndex FrameBackground) ;;
    api (RendererTriggerRedrawAll (tableIndex =? backgroundIndex) (tableIndex =? frameIndex)) ;;
    ret true.

Definition SetCursorColor (cursorColor : Z) : D bool := SetColorTableEntry CURSOR_COLOR cursorColor.

Definition SetDefaultForeground (dwColor : Z) : D bool :=
  render (modify (Render.SetColorAliasIndex DefaultForeground DEFAULT_FOREGROUND)) ;;
  SetColorTableEntry DEFAULT_FOREGROUND dwColor.

Definition SetDefaultBackground (dwColor : Z) : D bool :=
  render (modify (Render.SetColorAliasIndex DefaultBackground DEFAULT_BACKGROUND)) ;;
  SetColorTableEntry DEFAULT_BACKGROUND dwColor.

(** [ColorItem]: 1 (normal text), 2 (window frame). *)
Definition AssignColor (item fgIndex bgIndex : VTInt) : D bool :=
  if (item =? 1) || (item =? 2) then
    (if item =? 1 then
       render (modify (Render.SetColorAliasIndex DefaultForeground fgIndex)) ;;
       render (modify (Render.SetColorAliasIndex DefaultBackground bgIndex)) ;;
       distinguishable <- render_get (Render.GetRenderMode IndexedDistinguishableColors) ;;
       if distinguishable : bool then render (Render.MakeAdjustedColorArray GetPerceivableColor) else ret tt
     else
       render (modify (Render.SetColorAliasIndex FrameForeground fgIndex)) ;;
       render (modify (Render.SetColorAliasIndex FrameBackground bgIndex))) ;;
    inPtyMode <- ask IsConsolePty ;;
    (if inPtyMode : bool then ret tt else api (RendererTriggerRedrawAll (item =? 1) (item =? 2))) ;;
    ret (negb inPtyMode)
  else ret false.

End AdaptModes.
End AdaptModes.
