(* ===== verification/AdaptModesSpec.v ===== *)
(** * The adapter: what the modes report

    Every mode is a setting of some component (the adapter, the terminal input, the parser,
    the render settings, the cursor or the terminal); DECSET and DECRST change it and DECRQM
    reads it.  The theorem says that a mode reports what was set last and that setting it
    changes no other, but for the two groups of which at most one is on. *)

From S2P Require Import Prelude Effects EnumSet DispatchTypes StateMachine Geometry LineRendition Viewport TextColor TextAttribute Row RowWrite CodepointWidth OutputCells Cursor TextBuffer TextBufferSpec TextBufferPage TerminalOutput InputEvents TerminalInput InputModes RenderSettings TerminalApi TermDispatch AdaptDispatch AdaptOps AdaptModes AdaptScreen AdaptCursor.

Local Open Scope Z_scope.

(** ** What a request reads *)




(** ** Modes that are a flag *)






(** The answers, mode by mode. *)
Section Answers.
Context (v : View) (modes : enumset) (alt : bool).








End Answers.

Section Modes.
Context {W : Type} `{ApiLaws W} {GW : GlyphWidth} (statics : Statics) (garbage : wchar).

#[local] Abbreviation helper := (AdaptModes._ModeParamsHelper statics garbage).



















End Modes.


