(* ===== verification/VtRenderer.v ===== *)
(** * The VT renderer

    Models the renderer of the pseudoconsole (src/src/renderer/vt): the sequences it writes
    ([VtSequences.cpp]), the state it keeps of the terminal on the other end ([state.cpp],
    [vtrenderer.hpp]), what is invalid ([invalidate.cpp], [math.cpp]), painting ([paint.cpp]),
    and the engines for xterm and xterm-256color ([XtermEngine.cpp], [Xterm256Engine.cpp]).

    Characters written are numbers below 256.  A [HRESULT] that failed is an error of
    [failure]; exceptions inside of a [try] block become one, others end the program and are
    kept.  The pipe is the list of what has been written to it.  What Windows does is given as
    arguments: whether [WriteFile] succeeds, the conversion to UTF-8, the identifier of the
    process.  The data to render (hyperlinks) are arguments too.  Tracing is not
    modelled, nor the callback of the unit tests. *)

From S2P Require Import Prelude Effects Utils Geometry Bitmap LineRendition Viewport InputEvents TextColor TextAttribute.

Local Open Scope Z_scope.

Inductive failure := E_INVALIDARG | E_INVALID_STATE | E_EXCEPTION | E_CONVERSION | E_WRITE.

Inductive HRESULT := S_OK | S_FALSE | Failure (f : failure).

Definition FAILED (hr : HRESULT) : bool := match hr with Failure _ => true | _ => false end.
Definition SUCCEEDED (hr : HRESULT) : bool := negb (FAILED hr).

Inductive Tribool := False_ | True_ | Invalid.

#[export] Instance Tribool_eq_dec : EqDecision Tribool.
Proof. solve_decision. Defined.

Definition Tribool_of (b : bool) : Tribool := if b then True_ else False_.

(** [hFile] is whether the pipe is open, [pipe] what was written to it, [_lookingForDSR] the
    calls of the callback [_pfnSetLookingForDSR] if there is one, [_ownerClosed] whether
    [CloseOutput] of the owner was called if there is one.  The last four are members of
    [XtermEngine]. *)
Record VtEngine := mkVtEngine {
  hFile : bool;
  pipe : list Z;
  _buffer : list Z;
  _usingLineRenditions : bool;
  _stopUsingLineRenditions : bool;
  _usingSoftFont : bool;
  _lastTextAttributes : TextAttribute;
  _lookingForDSR : option (list bool);
  _lastViewport : Viewport;
  _invalidMap : bitmap;
  _lastText : point;
  _scrollDelta : point;
  _quickReturn : bool;
  _clearedAllThisFrame : bool;
  _cursorMoved : bool;
  _resized : bool;
  _suppressResizeRepaint : bool;
  _virtualTop : Z;
  _circled : bool;
  _firstPaint : bool;
  _skipCursor : bool;
  _newBottomLine : bool;
  _deferredCursorPos : point;
  _exitResult : HRESULT;
  _ownerClosed : option bool;
  _inResizeRequest : bool;
  _wrappedRow : option Z;
  _delayedEolWrap : bool;
  _resizeQuirk : bool;
  _passthrough : bool;
  _newBottomLineBG : option TextColor;
  _fUseAsciiOnly : bool;
  _needToDisableCursor : bool;
  _lastCursorIsVisible : Tribool;
  _nextCursorIsVisible : bool
}.

Definition put_hFile (v : bool) (e : VtEngine) : VtEngine := mkVtEngine v (pipe e) (_buffer e) (_usingLineRenditions e) (_stopUsingLineRenditions e) (_usingSoftFont e) (_lastTextAttributes e) (_lookingForDSR e) (_lastViewport e) (_invalidMap e) (_lastText e) (_scrollDelta e) (_quickReturn e) (_clearedAllThisFrame e) (_cursorMoved e) (_resized e) (_suppressResizeRepaint e) (_virtualTop e) (_circled e) (_firstPaint e) (_skipCursor e) (_newBottomLine e) (_deferredCursorPos e) (_exitResult e) (_ownerClosed e) (_inResizeRequest e) (_wrappedRow e) (_delayedEolWrap e) (_resizeQuirk e) (_passthrough e) (_newBottomLineBG e) (_fUseAsciiOnly e) (_needToDisableCursor e) (_lastCursorIsVisible e) (_nextCursorIsVisible e).
Definition put_pipe (v : list Z) (e : VtEngine) : VtEngine := mkVtEngine (hFile e) v (_buffer e) (_usingLineRenditions e) (_stopUsingLineRenditions e) (_usingSoftFont e) (_lastTextAttributes e) (_lookingForDSR e) (_lastViewport e) (_invalidMap e) (_lastText e) (_scrollDelta e) (_quickReturn e) (_clearedAllThisFrame e) (_cursorMoved e) (_resized e) (_suppressResizeRepaint e) (_virtualTop e) (_circled e) (_firstPaint e) (_skipCursor e) (_newBottomLine e) (_deferredCursorPos e) (_exitResult e) (_ownerClosed e) (_inResizeRequest e) (_wrappedRow e) (_delayedEolWrap e) (_resizeQuirk e) (_passthrough e) (_newBottomLineBG e) (_fUseAsciiOnly e) (_needToDisableCursor e) (_lastCursorIsVisible e) (_nextCursorIsVisible e).
Definition put_buffer (v : list Z) (e : VtEngine) : VtEngine := mkVtEngine (hFile e) (pipe e) v (_usingLineRenditions e) (_stopUsingLineRenditions e) (_usingSoftFont e) (_lastTextAttributes e) (_lookingForDSR e) (_lastViewport e) (_invalidMap e) (_lastText e) (_scrollDelta e) (_quickReturn e) (_clearedAllThisFrame e) (_cursorMoved e) (_resized e) (_suppressResizeRepaint e) (_virtualTop e) (_circled e) (_firstPaint e) (_skipCursor e) (_newBottomLine e) (_deferredCursorPos e) (_exitResult e) (_ownerClosed e) (_inResizeRequest e) (_wrappedRow e) (_delayedEolWrap e) (_resizeQuirk e) (_passthrough e) (_newBottomLineBG e) (_fUseAsciiOnly e) (_needToDisableCursor e) (_lastCursorIsVisible e) (_nextCursorIsVisible e).
Definition put_usingLineRenditions (v : bool) (e : VtEngine) : VtEngine := mkVtEngine (hFile e) (pipe e) (_buffer e) v (_stopUsingLineRenditions e) (_usingSoftFont e) (_lastTextAttributes e) (_lookingForDSR e) (_lastViewport e) (_invalidMap e) (_lastText e) (_scrollDelta e) (_quickReturn e) (_clearedAllThisFrame e) (_cursorMoved e) (_resized e) (_suppressResizeRepaint e) (_virtualTop e) (_circled e) (_firstPaint e) (_skipCursor e) (_newBottomLine e) (_deferredCursorPos e) (_exitResult e) (_ownerClosed e) (_inResizeRequest e) (_wrappedRow e) (_delayedEolWrap e) (_resizeQuirk e) (_passthrough e) (_newBottomLineBG e) (_fUseAsciiOnly e) (_needToDisableCursor e) (_lastCursorIsVisible e) (_nextCursorIsVisible e).
Definition put_stopUsingLineRenditions (v : bool) (e : VtEngine) : VtEngine := mkVtEngine (hFile e) (pipe e) (_buffer e) (_usingLineRenditions e) v (_usingSoftFont e) (_lastTextAttributes e) (_lookingForDSR e) (_lastViewport e) (_invalidMap e) (_lastText e) (_scrollDelta e) (_quickReturn e) (_clearedAllThisFrame e) (_cursorMoved e) (_resized e) (_suppressResizeRepaint e) (_virtualTop e) (_circled e) (_firstPaint e) (_skipCursor e) (_newBottomLine e) (_deferredCursorPos e) (_exitResult e) (_ownerClosed e) (_inResizeRequest e) (_wrappedRow e) (_delayedEolWrap e) (_resizeQuirk e) (_passthrough e) (_newBottomLineBG e) (_fUseAsciiOnly e) (_needToDisableCursor e) (_lastCursorIsVisible e) (_nextCursorIsVisible e).
Definition put_usingSoftFont (v : bool) (e : VtEngine) : VtEngine := mkVtEngine (hFile e) (pipe e) (_buffer e) (_usingLineRenditions e) (_stopUsingLineRenditions e) v (_lastTextAttributes e) (_lookingForDSR e) (_lastViewport e) (_invalidMap e) (_lastText e) (_scrollDelta e) (_quickReturn e) (_clearedAllThisFrame e) (_cursorMoved e) (_resized e) (_suppressResizeRepaint e) (_virtualTop e) (_circled e) (_firstPaint e) (_skipCursor e) (_newBottomLine e) (_deferredCursorPos e) (_exitResult e) (_ownerClosed e) (_inResizeRequest e) (_wrappedRow e) (_delayedEolWrap e) (_resizeQuirk e) (_passthrough e) (_newBottomLineBG e) (_fUseAsciiOnly e) (_needToDisableCursor e) (_lastCursorIsVisible e) (_nextCursorIsVisible e).
Definition put_lastTextAttributes (v : TextAttribute) (e : VtEngine) : VtEngine := mkVtEngine (hFile e) (pipe e) (_buffer e) (_usingLineRenditions e) (_stopUsingLineRenditions e) (_usingSoftFont e) v (_lookingForDSR e) (_lastViewport e) (_invalidMap e) (_lastText e) (_scrollDelta e) (_quickReturn e) (_clearedAllThisFrame e) (_cursorMoved e) (_resized e) (_suppressResizeRepaint e) (_virtualTop e) (_circled e) (_firstPaint e) (_skipCursor e) (_newBottomLine e) (_deferredCursorPos e) (_exitResult e) (_ownerClosed e) (_inResizeRequest e) (_wrappedRow e) (_delayedEolWrap e) (_resizeQuirk e) (_passthrough e) (_newBottomLineBG e) (_fUseAsciiOnly e) (_needToDisableCursor e) (_lastCursorIsVisible e) (_nextCursorIsVisible e).
Definition put_lookingForDSR (v : option (list bool)) (e : VtEngine) : VtEngine := mkVtEngine (hFile e) (pipe e) (_buffer e) (_usingLineRenditions e) (_stopUsingLineRenditions e) (_usingSoftFont e) (_lastTextAttributes e) v (_lastViewport e) (_invalidMap e) (_lastText e) (_scrollDelta e) (_quickReturn e) (_clearedAllThisFrame e) (_cursorMoved e) (_resized e) (_suppressResizeRepaint e) (_virtualTop e) (_circled e) (_firstPaint e) (_skipCursor e) (_newBottomLine e) (_deferredCursorPos e) (_exitResult e) (_ownerClosed e) (_inResizeRequest e) (_wrappedRow e) (_delayedEolWrap e) (_resizeQuirk e) (_passthrough e) (_newBottomLineBG e) (_fUseAsciiOnly e) (_needToDisableCursor e) (_lastCursorIsVisible e) (_nextCursorIsVisible e).
Definition put_lastViewport (v : Viewport) (e : VtEngine) : VtEngine := mkVtEngine (hFile e) (pipe e) (_buffer e) (_usingLineRenditions e) (_stopUsingLineRenditions e) (_usingSoftFont e) (_lastTextAttributes e) (_lookingForDSR e) v (_invalidMap e) (_lastText e) (_scrollDelta e) (_quickReturn e) (_clearedAllThisFrame e) (_cursorMoved e) (_resized e) (_suppressResizeRepaint e) (_virtualTop e) (_circled e) (_firstPaint e) (_skipCursor e) (_newBottomLine e) (_deferredCursorPos e) (_exitResult e) (_ownerClosed e) (_inResizeRequest e) (_wrappedRow e) (_delayedEolWrap e) (_resizeQuirk e) (_passthrough e) (_newBottomLineBG e) (_fUseAsciiOnly e) (_needToDisableCursor e) (_lastCursorIsVisible e) (_nextCursorIsVisible e).
Definition put_invalidMap (v : bitmap) (e : VtEngine) : VtEngine := mkVtEngine (hFile e) (pipe e) (_buffer e) (_usingLineRenditions e) (_stopUsingLineRenditions e) (_usingSoftFont e) (_lastTextAttributes e) (_lookingForDSR e) (_lastViewport e) v (_lastText e) (_scrollDelta e) (_quickReturn e) (_clearedAllThisFrame e) (_cursorMoved e) (_resized e) (_suppressResizeRepaint e) (_virtualTop e) (_circled e) (_firstPaint e) (_skipCursor e) (_newBottomLine e) (_deferredCursorPos e) (_exitResult e) (_ownerClosed e) (_inResizeRequest e) (_wrappedRow e) (_delayedEolWrap e) (_resizeQuirk e) (_passthrough e) (_newBottomLineBG e) (_fUseAsciiOnly e) (_needToDisableCursor e) (_lastCursorIsVisible e) (_nextCursorIsVisible e).
Definition put_lastText (v : point) (e : VtEngine) : VtEngine := mkVtEngine (hFile e) (pipe e) (_buffer e) (_usingLineRenditions e) (_stopUsingLineRenditions e) (_usingSoftFont e) (_lastTextAttributes e) (_lookingForDSR e) (_lastViewport e) (_invalidMap e) v (_scrollDelta e) (_quickReturn e) (_clearedAllThisFrame e) (_cursorMoved e) (_resized e) (_suppressResizeRepaint e) (_virtualTop e) (_circled e) (_firstPaint e) (_skipCursor e) (_newBottomLine e) (_deferredCursorPos e) (_exitResult e) (_ownerClosed e) (_inResizeRequest e) (_wrappedRow e) (_delayedEolWrap e) (_resizeQuirk e) (_passthrough e) (_newBottomLineBG e) (_fUseAsciiOnly e) (_needToDisableCursor e) (_lastCursorIsVisible e) (_nextCursorIsVisible e).
Definition put_scrollDelta (v : point) (e : VtEngine) : VtEngine := mkVtEngine (hFile e) (pipe e) (_buffer e) (_usingLineRenditions e) (_stopUsingLineRenditions e) (_usingSoftFont e) (_lastTextAttributes e) (_lookingForDSR e) (_lastViewport e) (_invalidMap e) (_lastText e) v (_quickReturn e) (_clearedAllThisFrame e) (_cursorMoved e) (_resized e) (_suppressResizeRepaint e) (_virtualTop e) (_circled e) (_firstPaint e) (_skipCursor e) (_newBottomLine e) (_deferredCursorPos e) (_exitResult e) (_ownerClosed e) (_inResizeRequest e) (_wrappedRow e) (_delayedEolWrap e) (_resizeQuirk e) (_passthrough e) (_newBottomLineBG e) (_fUseAsciiOnly e) (_needToDisableCursor e) (_lastCursorIsVisible e) (_nextCursorIsVisible e).
Definition put_quickReturn (v : bool) (e : VtEngine) : VtEngine := mkVtEngine (hFile e) (pipe e) (_buffer e) (_usingLineRenditions e) (_stopUsingLineRenditions e) (_usingSoftFont e) (_lastTextAttributes e) (_lookingForDSR e) (_lastViewport e) (_invalidMap e) (_lastText e) (_scrollDelta e) v (_clearedAllThisFrame e) (_cursorMoved e) (_resized e) (_suppressResizeRepaint e) (_virtualTop e) (_circled e) (_firstPaint e) (_skipCursor e) (_newBottomLine e) (_deferredCursorPos e) (_exitResult e) (_ownerClosed e) (_inResizeRequest e) (_wrappedRow e) (_delayedEolWrap e) (_resizeQuirk e) (_passthrough e) (_newBottomLineBG e) (_fUseAsciiOnly e) (_needToDisableCursor e) (_lastCursorIsVisible e) (_nextCursorIsVisible e).
Definition put_clearedAllThisFrame (v : bool) (e : VtEngine) : VtEngine := mkVtEngine (hFile e) (pipe e) (_buffer e) (_usingLineRenditions e) (_stopUsingLineRenditions e) (_usingSoftFont e) (_lastTextAttributes e) (_lookingForDSR e) (_lastViewport e) (_invalidMap e) (_lastText e) (_scrollDelta e) (_quickReturn e) v (_cursorMoved e) (_resized e) (_suppressResizeRepaint e) (_virtualTop e) (_circled e) (_firstPaint e) (_skipCursor e) (_newBottomLine e) (_deferredCursorPos e) (_exitResult e) (_ownerClosed e) (_inResizeRequest e) (_wrappedRow e) (_delayedEolWrap e) (_resizeQuirk e) (_passthrough e) (_newBottomLineBG e) (_fUseAsciiOnly e) (_needToDisableCursor e) (_lastCursorIsVisible e) (_nextCursorIsVisible e).
Definition put_cursorMoved (v : bool) (e : VtEngine) : VtEngine := mkVtEngine (hFile e) (pipe e) (_buffer e) (_usingLineRenditions e) (_stopUsingLineRenditions e) (_usingSoftFont e) (_lastTextAttributes e) (_lookingForDSR e) (_lastViewport e) (_invalidMap e) (_lastText e) (_scrollDelta e) (_quickReturn e) (_clearedAllThisFrame e) v (_resized e) (_suppressResizeRepaint e) (_virtualTop e) (_circled e) (_firstPaint e) (_skipCursor e) (_newBottomLine e) (_deferredCursorPos e) (_exitResult e) (_ownerClosed e) (_inResizeRequest e) (_wrappedRow e) (_delayedEolWrap e) (_resizeQuirk e) (_passthrough e) (_newBottomLineBG e) (_fUseAsciiOnly e) (_needToDisableCursor e) (_lastCursorIsVisible e) (_nextCursorIsVisible e).
Definition put_resized (v : bool) (e : VtEngine) : VtEngine := mkVtEngine (hFile e) (pipe e) (_buffer e) (_usingLineRenditions e) (_stopUsingLineRenditions e) (_usingSoftFont e) (_lastTextAttributes e) (_lookingForDSR e) (_lastViewport e) (_invalidMap e) (_lastText e) (_scrollDelta e) (_quickReturn e) (_clearedAllThisFrame e) (_cursorMoved e) v (_suppressResizeRepaint e) (_virtualTop e) (_circled e) (_firstPaint e) (_skipCursor e) (_newBottomLine e) (_deferredCursorPos e) (_exitResult e) (_ownerClosed e) (_inResizeRequest e) (_wrappedRow e) (_delayedEolWrap e) (_resizeQuirk e) (_passthrough e) (_newBottomLineBG e) (_fUseAsciiOnly e) (_needToDisableCursor e) (_lastCursorIsVisible e) (_nextCursorIsVisible e).
Definition put_suppressResizeRepaint (v : bool) (e : VtEngine) : VtEngine := mkVtEngine (hFile e) (pipe e) (_buffer e) (_usingLineRenditions e) (_stopUsingLineRenditions e) (_usingSoftFont e) (_lastTextAttributes e) (_lookingForDSR e) (_lastViewport e) (_invalidMap e) (_lastText e) (_scrollDelta e) (_quickReturn e) (_clearedAllThisFrame e) (_cursorMoved e) (_resized e) v (_virtualTop e) (_circled e) (_firstPaint e) (_skipCursor e) (_newBottomLine e) (_deferredCursorPos e) (_exitResult e) (_ownerClosed e) (_inResizeRequest e) (_wrappedRow e) (_delayedEolWrap e) (_resizeQuirk e) (_passthrough e) (_newBottomLineBG e) (_fUseAsciiOnly e) (_needToDisableCursor e) (_lastCursorIsVisible e) (_nextCursorIsVisible e).
Definition put_virtualTop (v : Z) (e : VtEngine) : VtEngine := mkVtEngine (hFile e) (pipe e) (_buffer e) (_usingLineRenditions e) (_stopUsingLineRenditions e) (_usingSoftFont e) (_lastTextAttributes e) (_lookingForDSR e) (_lastViewport e) (_invalidMap e) (_lastText e) (_scrollDelta e) (_quickReturn e) (_clearedAllThisFrame e) (_cursorMoved e) (_resized e) (_suppressResizeRepaint e) v (_circled e) (_firstPaint e) (_skipCursor e) (_newBottomLine e) (_deferredCursorPos e) (_exitResult e) (_ownerClosed e) (_inResizeRequest e) (_wrappedRow e) (_delayedEolWrap e) (_resizeQuirk e) (_passthrough e) (_newBottomLineBG e) (_fUseAsciiOnly e) (_needToDisableCursor e) (_lastCursorIsVisible e) (_nextCursorIsVisible e).
Definition put_circled (v : bool) (e : VtEngine) : VtEngine := mkVtEngine (hFile e) (pipe e) (_buffer e) (_usingLineRenditions e) (_stopUsingLineRenditions e) (_usingSoftFont e) (_lastTextAttributes e) (_lookingForDSR e) (_lastViewport e) (_invalidMap e) (_lastText e) (_scrollDelta e) (_quickReturn e) (_clearedAllThisFrame e) (_cursorMoved e) (_resized e) (_suppressResizeRepaint e) (_virtualTop e) v (_firstPaint e) (_skipCursor e) (_newBottomLine e) (_deferredCursorPos e) (_exitResult e) (_ownerClosed e) (_inResizeRequest e) (_wrappedRow e) (_delayedEolWrap e) (_resizeQuirk e) (_passthrough e) (_newBottomLineBG e) (_fUseAsciiOnly e) (_needToDisableCursor e) (_lastCursorIsVisible e) (_nextCursorIsVisible e).
Definition put_firstPaint (v : bool) (e : VtEngine) : VtEngine := mkVtEngine (hFile e) (pipe e) (_buffer e) (_usingLineRenditions e) (_stopUsingLineRenditions e) (_usingSoftFont e) (_lastTextAttributes e) (_lookingForDSR e) (_lastViewport e) (_invalidMap e) (_lastText e) (_scrollDelta e) (_quickReturn e) (_clearedAllThisFrame e) (_cursorMoved e) (_resized e) (_suppressResizeRepaint e) (_virtualTop e) (_circled e) v (_skipCursor e) (_newBottomLine e) (_deferredCursorPos e) (_exitResult e) (_ownerClosed e) (_inResizeRequest e) (_wrappedRow e) (_delayedEolWrap e) (_resizeQuirk e) (_passthrough e) (_newBottomLineBG e) (_fUseAsciiOnly e) (_needToDisableCursor e) (_lastCursorIsVisible e) (_nextCursorIsVisible e).
Definition put_skipCursor (v : bool) (e : VtEngine) : VtEngine := mkVtEngine (hFile e) (pipe e) (_buffer e) (_usingLineRenditions e) (_stopUsingLineRenditions e) (_usingSoftFont e) (_lastTextAttributes e) (_lookingForDSR e) (_lastViewport e) (_invalidMap e) (_lastText e) (_scrollDelta e) (_quickReturn e) (_clearedAllThisFrame e) (_cursorMoved e) (_resized e) (_suppressResizeRepaint e) (_virtualTop e) (_circled e) (_firstPaint e) v (_newBottomLine e) (_deferredCursorPos e) (_exitResult e) (_ownerClosed e) (_inResizeRequest e) (_wrappedRow e) (_delayedEolWrap e) (_resizeQuirk e) (_passthrough e) (_newBottomLineBG e) (_fUseAsciiOnly e) (_needToDisableCursor e) (_lastCursorIsVisible e) (_nextCursorIsVisible e).
Definition put_newBottomLine (v : bool) (e : VtEngine) : VtEngine := mkVtEngine (hFile e) (pipe e) (_buffer e) (_usingLineRenditions e) (_stopUsingLineRenditions e) (_usingSoftFont e) (_lastTextAttributes e) (_lookingForDSR e) (_lastViewport e) (_invalidMap e) (_lastText e) (_scrollDelta e) (_quickReturn e) (_clearedAllThisFrame e) (_cursorMoved e) (_resized e) (_suppressResizeRepaint e) (_virtualTop e) (_circled e) (_firstPaint e) (_skipCursor e) v (_deferredCursorPos e) (_exitResult e) (_ownerClosed e) (_inResizeRequest e) (_wrappedRow e) (_delayedEolWrap e) (_resizeQuirk e) (_passthrough e) (_newBottomLineBG e) (_fUseAsciiOnly e) (_needToDisableCursor e) (_lastCursorIsVisible e) (_nextCursorIsVisible e).
Definition put_deferredCursorPos (v : point) (e : VtEngine) : VtEngine := mkVtEngine (hFile e) (pipe e) (_buffer e) (_usingLineRenditions e) (_stopUsingLineRenditions e) (_usingSoftFont e) (_lastTextAttributes e) (_lookingForDSR e) (_lastViewport e) (_invalidMap e) (_lastText e) (_scrollDelta e) (_quickReturn e) (_clearedAllThisFrame e) (_cursorMoved e) (_resized e) (_suppressResizeRepaint e) (_virtualTop e) (_circled e) (_firstPaint e) (_skipCursor e) (_newBottomLine e) v (_exitResult e) (_ownerClosed e) (_inResizeRequest e) (_wrappedRow e) (_delayedEolWrap e) (_resizeQuirk e) (_passthrough e) (_newBottomLineBG e) (_fUseAsciiOnly e) (_needToDisableCursor e) (_lastCursorIsVisible e) (_nextCursorIsVisible e).
Definition put_exitResult (v : HRESULT) (e : VtEngine) : VtEngine := mkVtEngine (hFile e) (pipe e) (_buffer e) (_usingLineRenditions e) (_stopUsingLineRenditions e) (_usingSoftFont e) (_lastTextAttributes e) (_lookingForDSR e) (_lastViewport e) (_invalidMap e) (_lastText e) (_scrollDelta e) (_quickReturn e) (_clearedAllThisFrame e) (_cursorMoved e) (_resized e) (_suppressResizeRepaint e) (_virtualTop e) (_circled e) (_firstPaint e) (_skipCursor e) (_newBottomLine e) (_deferredCursorPos e) v (_ownerClosed e) (_inResizeRequest e) (_wrappedRow e) (_delayedEolWrap e) (_resizeQuirk e) (_passthrough e) (_newBottomLineBG e) (_fUseAsciiOnly e) (_needToDisableCursor e) (_lastCursorIsVisible e) (_nextCursorIsVisible e).
Definition put_ownerClosed (v : option bool) (e : VtEngine) : VtEngine := mkVtEngine (hFile e) (pipe e) (_buffer e) (_usingLineRenditions e) (_stopUsingLineRenditions e) (_usingSoftFont e) (_lastTextAttributes e) (_lookingForDSR e) (_lastViewport e) (_invalidMap e) (_lastText e) (_scrollDelta e) (_quickReturn e) (_clearedAllThisFrame e) (_cursorMoved e) (_resized e) (_suppressResizeRepaint e) (_virtualTop e) (_circled e) (_firstPaint e) (_skipCursor e) (_newBottomLine e) (_deferredCursorPos e) (_exitResult e) v (_inResizeRequest e) (_wrappedRow e) (_delayedEolWrap e) (_resizeQuirk e) (_passthrough e) (_newBottomLineBG e) (_fUseAsciiOnly e) (_needToDisableCursor e) (_lastCursorIsVisible e) (_nextCursorIsVisible e).
Definition put_inResizeRequest (v : bool) (e : VtEngine) : VtEngine := mkVtEngine (hFile e) (pipe e) (_buffer e) (_usingLineRenditions e) (_stopUsingLineRenditions e) (_usingSoftFont e) (_lastTextAttributes e) (_lookingForDSR e) (_lastViewport e) (_invalidMap e) (_lastText e) (_scrollDelta e) (_quickReturn e) (_clearedAllThisFrame e) (_cursorMoved e) (_resized e) (_suppressResizeRepaint e) (_virtualTop e) (_circled e) (_firstPaint e) (_skipCursor e) (_newBottomLine e) (_deferredCursorPos e) (_exitResult e) (_ownerClosed e) v (_wrappedRow e) (_delayedEolWrap e) (_resizeQuirk e) (_passthrough e) (_newBottomLineBG e) (_fUseAsciiOnly e) (_needToDisableCursor e) (_lastCursorIsVisible e) (_nextCursorIsVisible e).
Definition put_wrappedRow (v : option Z) (e : VtEngine) : VtEngine := mkVtEngine (hFile e) (pipe e) (_buffer e) (_usingLineRenditions e) (_stopUsingLineRenditions e) (_usingSoftFont e) (_lastTextAttributes e) (_lookingForDSR e) (_lastViewport e) (_invalidMap e) (_lastText e) (_scrollDelta e) (_quickReturn e) (_clearedAllThisFrame e) (_cursorMoved e) (_resized e) (_suppressResizeRepaint e) (_virtualTop e) (_circled e) (_firstPaint e) (_skipCursor e) (_newBottomLine e) (_deferredCursorPos e) (_exitResult e) (_ownerClosed e) (_inResizeRequest e) v (_delayedEolWrap e) (_resizeQuirk e) (_passthrough e) (_newBottomLineBG e) (_fUseAsciiOnly e) (_needToDisableCursor e) (_lastCursorIsVisible e) (_nextCursorIsVisible e).
Definition put_delayedEolWrap (v : bool) (e : VtEngine) : VtEngine := mkVtEngine (hFile e) (pipe e) (_buffer e) (_usingLineRenditions e) (_stopUsingLineRenditions e) (_usingSoftFont e) (_lastTextAttributes e) (_lookingForDSR e) (_lastViewport e) (_invalidMap e) (_lastText e) (_scrollDelta e) (_quickReturn e) (_clearedAllThisFrame e) (_cursorMoved e) (_resized e) (_suppressResizeRepaint e) (_virtualTop e) (_circled e) (_firstPaint e) (_skipCursor e) (_newBottomLine e) (_deferredCursorPos e) (_exitResult e) (_ownerClosed e) (_inResizeRequest e) (_wrappedRow e) v (_resizeQuirk e) (_passthrough e) (_newBottomLineBG e) (_fUseAsciiOnly e) (_needToDisableCursor e) (_lastCursorIsVisible e) (_nextCursorIsVisible e).
Definition put_resizeQuirk (v : bool) (e : VtEngine) : VtEngine := mkVtEngine (hFile e) (pipe e) (_buffer e) (_usingLineRenditions e) (_stopUsingLineRenditions e) (_usingSoftFont e) (_lastTextAttributes e) (_lookingForDSR e) (_lastViewport e) (_invalidMap e) (_lastText e) (_scrollDelta e) (_quickReturn e) (_clearedAllThisFrame e) (_cursorMoved e) (_resized e) (_suppressResizeRepaint e) (_virtualTop e) (_circled e) (_firstPaint e) (_skipCursor e) (_newBottomLine e) (_deferredCursorPos e) (_exitResult e) (_ownerClosed e) (_inResizeRequest e) (_wrappedRow e) (_delayedEolWrap e) v (_passthrough e) (_newBottomLineBG e) (_fUseAsciiOnly e) (_needToDisableCursor e) (_lastCursorIsVisible e) (_nextCursorIsVisible e).
Definition put_passthrough (v : bool) (e : VtEngine) : VtEngine := mkVtEngine (hFile e) (pipe e) (_buffer e) (_usingLineRenditions e) (_stopUsingLineRenditions e) (_usingSoftFont e) (_lastTextAttributes e) (_lookingForDSR e) (_lastViewport e) (_invalidMap e) (_lastText e) (_scrollDelta e) (_quickReturn e) (_clearedAllThisFrame e) (_cursorMoved e) (_resized e) (_suppressResizeRepaint e) (_virtualTop e) (_circled e) (_firstPaint e) (_skipCursor e) (_newBottomLine e) (_deferredCursorPos e) (_exitResult e) (_ownerClosed e) (_inResizeRequest e) (_wrappedRow e) (_delayedEolWrap e) (_resizeQuirk e) v (_newBottomLineBG e) (_fUseAsciiOnly e) (_needToDisableCursor e) (_lastCursorIsVisible e) (_nextCursorIsVisible e).
Definition put_newBottomLineBG (v : option TextColor) (e : VtEngine) : VtEngine := mkVtEngine (hFile e) (pipe e) (_buffer e) (_usingLineRenditions e) (_stopUsingLineRenditions e) (_usingSoftFont e) (_lastTextAttributes e) (_lookingForDSR e) (_lastViewport e) (_invalidMap e) (_lastText e) (_scrollDelta e) (_quickReturn e) (_clearedAllThisFrame e) (_cursorMoved e) (_resized e) (_suppressResizeRepaint e) (_virtualTop e) (_circled e) (_firstPaint e) (_skipCursor e) (_newBottomLine e) (_deferredCursorPos e) (_exitResult e) (_ownerClosed e) (_inResizeRequest e) (_wrappedRow e) (_delayedEolWrap e) (_resizeQuirk e) (_passthrough e) v (_fUseAsciiOnly e) (_needToDisableCursor e) (_lastCursorIsVisible e) (_nextCursorIsVisible e).
Definition put_fUseAsciiOnly (v : bool) (e : VtEngine) : VtEngine := mkVtEngine (hFile e) (pipe e) (_buffer e) (_usingLineRenditions e) (_stopUsingLineRenditions e) (_usingSoftFont e) (_lastTextAttributes e) (_lookingForDSR e) (_lastViewport e) (_invalidMap e) (_lastText e) (_scrollDelta e) (_quickReturn e) (_clearedAllThisFrame e) (_cursorMoved e) (_resized e) (_suppressResizeRepaint e) (_virtualTop e) (_circled e) (_firstPaint e) (_skipCursor e) (_newBottomLine e) (_deferredCursorPos e) (_exitResult e) (_ownerClosed e) (_inResizeRequest e) (_wrappedRow e) (_delayedEolWrap e) (_resizeQuirk e) (_passthrough e) (_newBottomLineBG e) v (_needToDisableCursor e) (_lastCursorIsVisible e) (_nextCursorIsVisible e).
Definition put_needToDisableCursor (v : bool) (e : VtEngine) : VtEngine := mkVtEngine (hFile e) (pipe e) (_buffer e) (_usingLineRenditions e) (_stopUsingLineRenditions e) (_usingSoftFont e) (_lastTextAttributes e) (_lookingForDSR e) (_lastViewport e) (_invalidMap e) (_lastText e) (_scrollDelta e) (_quickReturn e) (_clearedAllThisFrame e) (_cursorMoved e) (_resized e) (_suppressResizeRepaint e) (_virtualTop e) (_circled e) (_firstPaint e) (_skipCursor e) (_newBottomLine e) (_deferredCursorPos e) (_exitResult e) (_ownerClosed e) (_inResizeRequest e) (_wrappedRow e) (_delayedEolWrap e) (_resizeQuirk e) (_passthrough e) (_newBottomLineBG e) (_fUseAsciiOnly e) v (_lastCursorIsVisible e) (_nextCursorIsVisible e).
Definition put_lastCursorIsVisible (v : Tribool) (e : VtEngine) : VtEngine := mkVtEngine (hFile e) (pipe e) (_buffer e) (_usingLineRenditions e) (_stopUsingLineRenditions e) (_usingSoftFont e) (_lastTextAttributes e) (_lookingForDSR e) (_lastViewport e) (_invalidMap e) (_lastText e) (_scrollDelta e) (_quickReturn e) (_clearedAllThisFrame e) (_cursorMoved e) (_resized e) (_suppressResizeRepaint e) (_virtualTop e) (_circled e) (_firstPaint e) (_skipCursor e) (_newBottomLine e) (_deferredCursorPos e) (_exitResult e) (_ownerClosed e) (_inResizeRequest e) (_wrappedRow e) (_delayedEolWrap e) (_resizeQuirk e) (_passthrough e) (_newBottomLineBG e) (_fUseAsciiOnly e) (_needToDisableCursor e) v (_nextCursorIsVisible e).
Definition put_nextCursorIsVisible (v : bool) (e : VtEngine) : VtEngine := mkVtEngine (hFile e) (pipe e) (_buffer e) (_usingLineRenditions e) (_stopUsingLineRenditions e) (_usingSoftFont e) (_lastTextAttributes e) (_lookingForDSR e) (_lastViewport e) (_invalidMap e) (_lastText e) (_scrollDelta e) (_quickReturn e) (_clearedAllThisFrame e) (_cursorMoved e) (_resized e) (_suppressResizeRepaint e) (_virtualTop e) (_circled e) (_firstPaint e) (_skipCursor e) (_newBottomLine e) (_deferredCursorPos e) (_exitResult e) (_ownerClosed e) (_inResizeRequest e) (_wrappedRow e) (_delayedEolWrap e) (_resizeQuirk e) (_passthrough e) (_newBottomLineBG e) (_fUseAsciiOnly e) (_needToDisableCursor e) (_lastCursorIsVisible e) v.

Abbreviation V := (M VtEngine).

(** [RETURN_IF_FAILED(m); k]. *)
Definition return_if_failed (m k : V HRESULT) : V HRESULT :=
  hr <- m ;; if FAILED hr then ret hr else k.
Notation "m ?; k" := (return_if_failed m k) (at level 100, right associativity) : eff_scope.

(** [try { m } CATCH_RETURN()]. *)
Definition catch_return (m : V HRESULT) : V HRESULT := fun e =>
  match m e with
  | (e', Throw _) => (e', Ok (Failure E_EXCEPTION))
  | r => r
  end.

Definition ok (m : V unit) : V HRESULT := m ;; ret S_OK.

(** An operation on the bitmap of what is invalid. *)
Definition invalid {A} (m : M bitmap A) : V A := fun e =>
  let '(b, r) := m (_invalidMap e) in (put_invalidMap b e, r).
Definition ask_invalid {A} (f : bitmap -> Result A) : V A := fun e => (e, f (_invalidMap e)).

Definition INVALID_COORDS : point := Point (-1) (-1).
Definition ERASE_CHARACTER_STRING_LENGTH : Z := 8.

Definition ESC : Z := 0x1B.
Definition CSI (s : wstring) : wstring := ESC :: 0x5B :: s.

(** A run of text with the columns it takes. *)
Record Cluster := mkCluster {
  _text : wstring;
  _columns : Z
}.

Module Vt.
Section Vt.
Context (WriteFile : list Z -> bool) (u16u8 : wstring -> option (list Z)) (GetCurrentProcessId : Z).

(** ** Writing *)

Definition _Write (str : wstring) : V HRESULT := ok (modify (fun e => put_buffer (_buffer e ++ str) e)).
Definition _WriteFill (n : nat) (c : Z) : V HRESULT := ok (modify (fun e => put_buffer (_buffer e ++ repeat c n) e)).

Definition _Flush : V HRESULT := fun e =>
  if hFile e then
    let buf := _buffer e in
    let e := put_buffer [] e in
    if WriteFile buf then (put_pipe (pipe e ++ buf) e, Ok S_OK)
    else
      let e := put_hFile false (put_exitResult (Failure E_WRITE) e) in
      (put_ownerClosed (match _ownerClosed e with Some _ => Some true | None => None end) e, Ok (_exitResult e))
  else (e, Ok S_OK).

Definition WriteTerminalUtf8 (str : wstring) : V HRESULT := _Write str.

Definition _WriteTerminalUtf8 (wstr : wstring) : V HRESULT :=
  match u16u8 wstr with Some s => _Write s | None => ret (Failure E_CONVERSION) end.

Definition _WriteTerminalAscii (wstr : wstring) : V HRESULT :=
  _Write (map (fun wch => if 0x7F <? wch then 0x3F else wch) wstr).

Definition _WriteTerminalDrcs (wstr : wstring) : V HRESULT := _Write (map (fun wch => Z.land wch 0x7F) wstr).

(** ** Sequences *)

Definition _StopCursorBlinking := _Write (CSI (L"?12l")).
Definition _StartCursorBlinking := _Write (CSI (L"?12h")).
Definition _HideCursor := _Write (CSI (L"?25l")).
Definition _ShowCursor := _Write (CSI (L"?25h")).
Definition _EraseLine := _Write (CSI (L"K")).
Definition _EraseCharacter (chars : Z) := _Write (CSI (format_int chars ++ L"X")).
Definition _CursorForward (chars : Z) := _Write (CSI (format_int chars ++ L"C")).
Definition _ClearScreen := _Write (CSI (L"2J")).
Definition _ClearScrollback := _Write (CSI (L"3J")).

Definition _InsertDeleteLine (sLines : Z) (fInsertLine : bool) : V HRESULT :=
  if sLines <=? 0 then ret S_OK
  else if sLines =? 1 then _Write (CSI (if fInsertLine then L"L" else L"M"))
  else _Write (CSI (format_int sLines ++ (if fInsertLine then L"L" else L"M"))).
Definition _DeleteLine (sLines : Z) := _InsertDeleteLine sLines false.
Definition _InsertLine (sLines : Z) := _InsertDeleteLine sLines true.

Definition _CursorPosition (coord : point) : V HRESULT :=
  let coordVt := Point (x coord + 1) (y coord + 1) in
  _Write (CSI (format_int (y coordVt) ++ L";" ++ format_int (x coordVt) ++ L"H")).
Definition _CursorHome := _Write (CSI (L"H")).
Definition _SetGraphicsDefault := _Write (CSI (L"m")).

Definition _SetGraphicsRendition16Color (index : Z) (fIsForeground : bool) : V HRESULT :=
  let prefix :=
    if negb (Z.land index FOREGROUND_INTENSITY =? 0) then (if fIsForeground then 90 else 100)
    else (if fIsForeground then 30 else 40) in
  _Write (CSI (format_int (prefix + Z.land index 7) ++ L"m")).
Definition _SetGraphicsRendition256Color (index : Z) (fIsForeground : bool) : V HRESULT :=
  _Write (CSI ((if fIsForeground then L"3" else L"4") ++ L"8;5;" ++ format_int index ++ L"m")).
Definition _SetGraphicsRenditionRGBColor (color : Z) (fIsForeground : bool) : V HRESULT :=
  let r := GetRValue color in
  let g := GetGValue color in
  let b := GetBValue color in
  _Write (CSI ((if fIsForeground then L"3" else L"4") ++ L"8;2;" ++ format_int r ++ L";" ++ format_int g ++ L";" ++ format_int b ++ L"m")).
Definition _SetGraphicsRenditionDefaultColor (fIsForeground : bool) : V HRESULT :=
  _Write (if fIsForeground then CSI (L"39m") else CSI (L"49m")).

Definition _ResizeWindow (sWidth sHeight : Z) : V HRESULT :=
  if (sWidth <? 0) || (sHeight <? 0) then ret (Failure E_INVALIDARG)
  else _Write (CSI (L"8;" ++ format_int sHeight ++ L";" ++ format_int sWidth ++ L"t")).
Definition _RequestCursor := _Write (CSI (L"6n")).
Definition _ChangeTitle (title : wstring) := _Write (ESC :: L"]0;" ++ title ++ [0x07]).

Definition _SetIntense (isIntense : bool) := _Write (if isIntense then CSI (L"1m") else CSI (L"22m")).
Definition _SetFaint (isFaint : bool) := _Write (if isFaint then CSI (L"2m") else CSI (L"22m")).
Definition _SetUnderlined (isUnderlined : bool) := _Write (if isUnderlined then CSI (L"4m") else CSI (L"24m")).
Definition _SetDoublyUnderlined (isUnderlined : bool) := _Write (if isUnderlined then CSI (L"21m") else CSI (L"24m")).
Definition _SetOverlined (isOverlined : bool) := _Write (if isOverlined then CSI (L"53m") else CSI (L"55m")).
Definition _SetItalic (isItalic : bool) := _Write (if isItalic then CSI (L"3m") else CSI (L"23m")).
Definition _SetBlinking (isBlinking : bool) := _Write (if isBlinking then CSI (L"5m") else CSI (L"25m")).
Definition _SetInvisible (isInvisible : bool) := _Write (if isInvisible then CSI (L"8m") else CSI (L"28m")).
Definition _SetCrossedOut (isCrossedOut : bool) := _Write (if isCrossedOut then CSI (L"9m") else CSI (L"29m")).
Definition _SetReverseVideo (isReversed : bool) := _Write (if isReversed then CSI (L"7m") else CSI (L"27m")).

Definition _RequestWin32Input := _Write (CSI (L"?9001h")).
Definition _RequestFocusEventMode := _Write (CSI (L"?1004h")).
Definition _SwitchScreenBuffer (useAltBuffer : bool) := _Write (if useAltBuffer then CSI (L"?1049h") else CSI (L"?1049l")).

(** [til::u16u8] without an error code throws. *)
Definition utf8 (s : wstring) : V wstring := match u16u8 s with Some s => ret s | None => throw StdException end.

Definition _SetHyperlink (uri customId : wstring) (numberId : Z) : V HRESULT :=
  if bool_decide (customId = []) then
    uriStr <- utf8 uri ;;
    _Write (ESC :: L"]8;id=" ++ format_int GetCurrentProcessId ++ L"-" ++ format_int numberId ++ L";" ++ uriStr ++ [ESC; 0x5C])
  else
    uriStr <- utf8 uri ;;
    customIdStr <- utf8 customId ;;
    _Write (ESC :: L"]8;id=u-" ++ customIdStr ++ L";" ++ uriStr ++ [ESC; 0x5C]).
Definition _EndHyperlink := _Write (ESC :: L"]8;;" ++ [ESC; 0x5C]).

(** ** The state of the terminal *)

Definition _AllIsInvalid : V bool := ask_invalid all.

(** [XtermEngine::_MoveCursor]. *)
Definition move_sequence (coord lastText : point) : V HRESULT :=
  resized <- get _resized ;; resizeQuirk <- get _resizeQuirk ;; delayedEolWrap <- get _delayedEolWrap ;;
  if (x coord =? 0) && (y coord =? 0) then modify (put_needToDisableCursor true) ;; _CursorHome
  else if resized && resizeQuirk then _CursorPosition coord
  else if (x coord =? 0) && (y coord =? y lastText + 1) then
    wrappedRow <- get _wrappedRow ;;
    let previousLineWrapped := match wrappedRow with Some r => y coord =? r + 1 | None => false end in
    if previousLineWrapped then ret S_OK else _Write [0x0D; 0x0A]
  else if delayedEolWrap : bool then _CursorPosition coord
  else if (x coord =? 0) && (y coord =? y lastText) then _Write [0x0D]
  else if (x coord =? x lastText) && (y coord =? y lastText + 1) then _Write [0x0A]
  else if (x coord =? x lastText - 1) && (y coord =? y lastText) then _Write [0x08]
  else if (y coord =? y lastText) && (x lastText <? x coord) then _CursorForward (x coord - x lastText)
  else modify (put_needToDisableCursor true) ;; _CursorPosition coord.

Definition _MoveCursor (coord : point) : V HRESULT :=
  lastText <- get _lastText ;;
  hr <- (if bool_decide (coord <> lastText) then
           hr <- move_sequence coord lastText ;;
           (if SUCCEEDED hr then modify (put_lastText coord) else ret tt) ;;
           ret hr
         else ret S_OK) ;;
  modify (put_deferredCursorPos INVALID_COORDS) ;;
  modify (put_wrappedRow None) ;;
  modify (put_delayedEolWrap false) ;;
  ret hr.

Definition last_attr (f : TextAttribute -> TextAttribute) : V unit := modify (fun e => put_lastTextAttributes (f (_lastTextAttributes e)) e).

(** ** Colours and renditions *)

Definition set_color (c : TextColor) (fIsForeground : bool) : V HRESULT :=
  if is_type IsDefault c then _SetGraphicsRenditionDefaultColor fIsForeground
  else if is_type IsIndex16 c then _SetGraphicsRendition16Color (GetIndex c) fIsForeground
  else if is_type IsIndex256 c then _SetGraphicsRendition256Color (GetIndex c) fIsForeground
  else if is_type IsRgb c then _SetGraphicsRenditionRGBColor (GetRGB c) fIsForeground
  else ret S_OK.

(** SGR reset clears all attributes except the hyperlink. *)
Definition reset_last : V unit :=
  last_attr SetDefaultBackground ;; last_attr SetDefaultForeground ;; last_attr SetDefaultRenditionAttributes.

Definition _RgbUpdateDrawingBrushes (textAttributes : TextAttribute) : V HRESULT :=
  let fg := _foreground textAttributes in
  let bg := _background textAttributes in
  last <- get _lastTextAttributes ;;
  let lastFg := _foreground last in
  let lastBg := _background last in
  let reset := is_type IsDefault fg && is_type IsDefault bg && negb (is_type IsDefault lastFg && is_type IsDefault lastBg) in
  (if reset then _SetGraphicsDefault ?; ok reset_last else ret S_OK) ?;
  let lastFg := if reset then TextColor_default else lastFg in
  let lastBg := if reset then TextColor_default else lastBg in
  (if bool_decide (fg <> lastFg) then set_color fg true ?; ok (last_attr (SetForeground fg)) else ret S_OK) ?;
  (if bool_decide (bg <> lastBg) then set_color bg false ?; ok (last_attr (SetBackground bg)) else ret S_OK) ?;
  ret S_OK.

Definition _16ColorUpdateDrawingBrushes (textAttributes : TextAttribute) : V HRESULT :=
  let fg := _foreground textAttributes in
  let bg := _background textAttributes in
  last <- get _lastTextAttributes ;;
  let lastFg := _foreground last in
  let lastBg := _background last in
  let reset := (is_type IsDefault fg && negb (is_type IsDefault lastFg)) || (is_type IsDefault bg && negb (is_type IsDefault lastBg)) in
  (if reset then _SetGraphicsDefault ?; ok reset_last else ret S_OK) ?;
  let lastFg := if reset then TextColor_default else lastFg in
  let lastBg := if reset then TextColor_default else lastBg in
  let fgIndex := TransposeLegacyIndex (GetLegacyIndex fg 0) in
  let bgIndex := TransposeLegacyIndex (GetLegacyIndex bg 0) in
  let brighten := IsIntense textAttributes && CanBeBrightened fg in
  let fgIndex := Z.lor fgIndex (if brighten then FOREGROUND_INTENSITY else 0) in
  let needIntense := 7 <? fgIndex in
  last <- get _lastTextAttributes ;;
  (if negb (Bool.eqb needIntense (IsIntense last)) then _SetIntense needIntense ?; ok (last_attr (SetIntense needIntense)) else ret S_OK) ?;
  let fgIndex := Z.land fgIndex 7 in
  let bgIndex := Z.land bgIndex 7 in
  (if negb (is_type IsDefault fg) && (is_type IsDefault lastFg || negb (fgIndex =? GetIndex lastFg)) then
     _SetGraphicsRendition16Color fgIndex true ?; ok (last_attr (SetIndexedForeground fgIndex)) else ret S_OK) ?;
  (if negb (is_type IsDefault bg) && (is_type IsDefault lastBg || negb (bgIndex =? GetIndex lastBg)) then
     _SetGraphicsRendition16Color bgIndex false ?; ok (last_attr (SetIndexedBackground bgIndex)) else ret S_OK) ?;
  ret S_OK.

(** One rendition that has its own sequences for on and off. *)
Definition update_flag (has : TextAttribute -> bool) (set : bool -> TextAttribute -> TextAttribute) (write : bool -> V HRESULT)
    (textAttributes : TextAttribute) : V HRESULT :=
  last <- get _lastTextAttributes ;;
  if negb (Bool.eqb (has textAttributes) (has last)) then write (has textAttributes) ?; ok (last_attr (set (has textAttributes)))
  else ret S_OK.

(** A rendition that is off and has to be turned on. *)
Definition turn_on (has : TextAttribute -> bool) (set : bool -> TextAttribute -> TextAttribute) (write : bool -> V HRESULT)
    (textAttributes : TextAttribute) : V HRESULT :=
  last <- get _lastTextAttributes ;;
  if has textAttributes && negb (has last) then write true ?; ok (last_attr (set true)) else ret S_OK.

(** Two renditions that one sequence turns off. *)
Definition turn_off (is1 is2 : TextAttribute -> bool) (set1 set2 : bool -> TextAttribute -> TextAttribute) (write : bool -> V HRESULT)
    (textAttributes : TextAttribute) : V HRESULT :=
  last <- get _lastTextAttributes ;;
  let firstTurnedOff := negb (is1 textAttributes) && is1 last in
  let secondTurnedOff := negb (is2 textAttributes) && is2 last in
  if firstTurnedOff || secondTurnedOff then
    write false ?; ok (last_attr (set1 false) ;; last_attr (set2 false))
  else ret S_OK.

Definition _UpdateExtendedAttrs (textAttributes : TextAttribute) : V HRESULT :=
  turn_off IsIntense IsFaint SetIntense SetFaint _SetIntense textAttributes ?;
  turn_on IsIntense SetIntense _SetIntense textAttributes ?;
  turn_on IsFaint SetFaint _SetFaint textAttributes ?;
  turn_off IsUnderlined IsDoublyUnderlined SetUnderlined SetDoublyUnderlined _SetUnderlined textAttributes ?;
  turn_on IsUnderlined SetUnderlined _SetUnderlined textAttributes ?;
  turn_on IsDoublyUnderlined SetDoublyUnderlined _SetDoublyUnderlined textAttributes ?;
  update_flag IsOverlined SetOverlined _SetOverlined textAttributes ?;
  update_flag IsItalic SetItalic _SetItalic textAttributes ?;
  update_flag IsBlinking SetBlinking _SetBlinking textAttributes ?;
  update_flag IsInvisible SetInvisible _SetInvisible textAttributes ?;
  update_flag IsCrossedOut SetCrossedOut _SetCrossedOut textAttributes ?;
  update_flag IsReverseVideo SetReverseVideo _SetReverseVideo textAttributes ?;
  ret S_OK.

(** The address and the custom identifier of a hyperlink, of the data to render. *)
Context (GetHyperlinkUri GetHyperlinkCustomId : Z -> wstring).

Definition _UpdateHyperlinkAttr (textAttributes : TextAttribute) : V HRESULT :=
  last <- get _lastTextAttributes ;;
  if negb (_hyperlinkId textAttributes =? _hyperlinkId last) then
    (if IsHyperlink textAttributes then
       let id := _hyperlinkId textAttributes in
       _SetHyperlink (GetHyperlinkUri id) (GetHyperlinkCustomId id) id
     else _EndHyperlink) ?;
    ok (last_attr (SetHyperlinkId (_hyperlinkId textAttributes)))
  else ret S_OK.

(** [Xterm256Engine::UpdateDrawingBrushes]. *)
Definition UpdateDrawingBrushes (textAttributes : TextAttribute) (usingSoftFont isSettingDefaultBrushes : bool) : V HRESULT :=
  passthrough <- get _passthrough ;;
  if passthrough && isSettingDefaultBrushes then ret S_FALSE
  else
    _RgbUpdateDrawingBrushes textAttributes ?;
    _UpdateHyperlinkAttr textAttributes ?;
    current <- get _usingSoftFont ;;
    (if negb (Bool.eqb usingSoftFont current) && negb isSettingDefaultBrushes then
       _Write (if usingSoftFont then [0x0E] else [0x0F]) ?; ok (modify (put_usingSoftFont usingSoftFont))
     else ret S_OK) ?;
    _UpdateExtendedAttrs textAttributes.

(** [XtermEngine::UpdateDrawingBrushes]. *)
Definition Xterm_UpdateDrawingBrushes (textAttributes : TextAttribute) : V HRESULT :=
  _16ColorUpdateDrawingBrushes textAttributes ?;
  update_flag IsReverseVideo SetReverseVideo _SetReverseVideo textAttributes ?;
  update_flag IsUnderlined SetUnderlined _SetUnderlined textAttributes ?;
  ret S_OK.

(** ** What is invalid *)

Definition InvalidateSystem : V HRESULT := ret S_OK.
Definition InvalidateSelection : V HRESULT := ret S_OK.

Definition Invalidate (psrRegion : rect) : V HRESULT := catch_return (ok (invalid (set_rect psrRegion))).

Definition InvalidateCursor (psrRegion : rect) : V HRESULT :=
  skipCursor <- get _skipCursor ;; virtualTop <- get _virtualTop ;;
  (if negb skipCursor && (top psrRegion <? virtualTop) then modify (put_virtualTop (top psrRegion)) else ret tt) ;;
  modify (put_skipCursor false) ;;
  modify (put_cursorMoved true) ;;
  ret S_OK.

Definition InvalidateAll : V HRESULT := catch_return (ok (invalid set_all)).

(** The answer whether to force a paint, with the result. *)
Definition InvalidateFlush (circled : bool) : V (bool * HRESULT) :=
  inResizeRequest <- get _inResizeRequest ;;
  if inResizeRequest : bool then ret (false, S_OK)
  else modify (put_circled circled) ;; ret (true, S_OK).

Definition PrepareForTeardown : V (bool * HRESULT) := ret (true, S_OK).

Definition InvalidateScroll (delta : point) : V HRESULT :=
  catch_return (
    (if bool_decide (delta <> Point 0 0) then
       invalid (translate delta true) ;;
       scrollDelta <- get _scrollDelta ;;
       sum <- (fun e => (e, point_add scrollDelta delta)) ;;
       modify (put_scrollDelta sum)
     else ret tt) ;;
    ret S_OK).

Definition GetDirtyArea : V (list rect) := invalid runs.

Definition _WillWriteSingleChar : V bool :=
  scrollDelta <- get _scrollDelta ;;
  if bool_decide (Point 0 0 <> scrollDelta) then ret false
  else
    single <- ask_invalid one ;;
    if negb single then ret false
    else
      rs <- invalid runs ;;
      match rs with
      | [] => undefined
      | r :: _ =>
          lastText <- get _lastText ;;
          let invalidPoint := origin r in
          let invalidIsNext := bool_decide (invalidPoint = lastText) in
          let invalidIsLast := bool_decide (invalidPoint = Point (x lastText - 1) (y lastText)) in
          ret (invalidIsNext || invalidIsLast)
      end.

(** ** Frames *)

(** [VtEngine::StartPaint].  Whether the title changed is a member of the base class. *)
Definition Vt_StartPaint (titleChanged : bool) : V HRESULT :=
  h <- get hFile ;;
  if negb h then ret S_FALSE
  else
    usingLineRenditions <- get _usingLineRenditions ;;
    allInvalid <- (if usingLineRenditions : bool then _AllIsInvalid else ret false) ;;
    modify (put_stopUsingLineRenditions (usingLineRenditions && allInvalid)) ;;
    somethingToDo <- get (fun e => any (_invalidMap e) || bool_decide (_scrollDelta e <> Point 0 0) || _cursorMoved e) ;;
    let somethingToDo := somethingToDo || titleChanged in
    modify (put_quickReturn (negb somethingToDo)) ;;
    ret (if negb somethingToDo then S_FALSE else S_OK).

(** [XtermEngine::StartPaint].  The union of the dirty pieces that it computes is not used. *)
Definition StartPaint (titleChanged : bool) : V HRESULT :=
  Vt_StartPaint titleChanged ?;
  modify (put_nextCursorIsVisible false) ;;
  passthrough <- get _passthrough ;;
  (if passthrough : bool then modify (put_firstPaint false) else ret tt) ;;
  firstPaint <- get _firstPaint ;;
  (if firstPaint : bool then
     _ClearScreen ?;
     ok (modify (put_clearedAllThisFrame true) ;; modify (put_firstPaint false))
   else ok (GetDirtyArea ;; ret tt)) ?;
  quickReturn <- get _quickReturn ;;
  (if negb quickReturn then
     single <- _WillWriteSingleChar ;;
     if single : bool then modify (put_quickReturn true) else ret tt
   else ret tt) ;;
  ret S_OK.

(** [VtEngine::EndPaint]. *)
Definition Vt_EndPaint : V HRESULT :=
  invalid reset_all ;;
  modify (put_scrollDelta (Point 0 0)) ;;
  modify (put_clearedAllThisFrame false) ;;
  modify (put_cursorMoved false) ;;
  modify (put_firstPaint false) ;;
  modify (put_skipCursor false) ;;
  modify (put_resized false) ;;
  modify (fun e => if _circled e && (0 <? _virtualTop e) then put_virtualTop (_virtualTop e - 1) e else e) ;;
  modify (put_circled false) ;;
  modify (fun e => if _stopUsingLineRenditions e then put_usingLineRenditions false e else e) ;;
  deferredCursorPos <- get _deferredCursorPos ;;
  (if bool_decide (deferredCursorPos <> INVALID_COORDS) then _MoveCursor deferredCursorPos else ret S_OK) ?;
  _Flush ?;
  ret S_OK.

(** [XtermEngine::EndPaint]. *)
Definition EndPaint : V HRESULT :=
  modify (fun e =>
    if _needToDisableCursor e && negb (bool_decide (_lastCursorIsVisible e = False_))
    then put_lastCursorIsVisible False_ (put_buffer (CSI (L"?25l") ++ _buffer e) e) else e) ;;
  lastCursorIsVisible <- get _lastCursorIsVisible ;; nextCursorIsVisible <- get _nextCursorIsVisible ;;
  (if negb (bool_decide (lastCursorIsVisible = Tribool_of nextCursorIsVisible)) then
     (if nextCursorIsVisible : bool then _ShowCursor else _HideCursor) ?;
     ok (modify (put_lastCursorIsVisible (Tribool_of nextCursorIsVisible)))
   else ret S_OK) ?;
  Vt_EndPaint ?;
  modify (put_needToDisableCursor false) ;;
  ret S_OK.

Definition Present : V HRESULT := ret S_FALSE.
Definition ResetLineTransform : V HRESULT := ret S_FALSE.
Definition PaintBackground : V HRESULT := ret S_OK.
Definition PaintBufferGridLines : V HRESULT := ret S_OK.
Definition PaintSelection : V HRESULT := ret S_OK.

Definition PrepareLineTransform (lineRendition : LineRendition) (targetRow : Z) : V HRESULT :=
  modify (fun e =>
    match lineRendition with
    | SingleWidth => e
    | _ => put_usingLineRenditions true (put_stopUsingLineRenditions false e)
    end) ;;
  usingLineRenditions <- get _usingLineRenditions ;; quickReturn <- get _quickReturn ;; lastText <- get _lastText ;;
  if usingLineRenditions && negb quickReturn then
    _MoveCursor (Point (x lastText) targetRow) ?;
    match lineRendition with
    | SingleWidth => _Write (ESC :: L"#5")
    | DoubleWidth => _Write (ESC :: L"#6")
    | DoubleHeightTop => _Write (ESC :: L"#3")
    | DoubleHeightBottom => _Write (ESC :: L"#4")
    end
  else ret S_OK.

(** [VtEngine::PaintCursor]; a failure is logged and dropped. *)
Definition Vt_PaintCursor (coordCursor : point) : V HRESULT := _MoveCursor coordCursor ;; ret S_OK.

(** [XtermEngine::PaintCursor]. *)
Definition PaintCursor (coordCursor : point) : V HRESULT :=
  modify (put_nextCursorIsVisible true) ;;
  lastText <- get _lastText ;; circled <- get _circled ;; delayedEolWrap <- get _delayedEolWrap ;; wrappedRow <- get _wrappedRow ;;
  let cursorIsInDeferredWrap := (x coordCursor =? x lastText - 1) && (y coordCursor =? y lastText) in
  if negb ((cursorIsInDeferredWrap || circled) && delayedEolWrap && bool_decide (is_Some wrappedRow))
  then Vt_PaintCursor coordCursor
  else ret S_OK.

(** ** Text *)

Definition clusters_text (clusters : list Cluster) : wstring := concat (map _text clusters).
Definition clusters_width (clusters : list Cluster) : Z := foldr Z.add 0 (map _columns clusters).

Definition _PaintAsciiBufferLine (clusters : list Cluster) (coord : point) : V HRESULT :=
  catch_return (
    _MoveCursor coord ?;
    _WriteTerminalAscii (clusters_text clusters) ?;
    modify (fun e => put_lastText (Point (x (_lastText e) + clusters_width clusters) (y (_lastText e))) e) ;;
    ret S_OK).

(** [find_last_not_of(L' ')] and one more, or 0. *)
Fixpoint non_space_length (str : wstring) : Z :=
  match str with
  | [] => 0
  | c :: str => let n := non_space_length str in
                if 0 <? n then n + 1 else if c =? 0x20 then 0 else 1
  end.

Definition _PaintUtf8BufferLine (clusters : list Cluster) (coord : point) (lineWrapped : bool) : V HRESULT :=
  virtualTop <- get _virtualTop ;;
  if y coord <? virtualTop then ret S_OK
  else
    let bufferLine := clusters_text clusters in
    let totalWidth := clusters_width clusters in
    let cchLine := len bufferLine in
    let nonSpaceLength := non_space_length bufferLine in
    let numSpaces := cchLine - nonSpaceLength in
    let optimalToUseECH := ERASE_CHARACTER_STRING_LENGTH <? numSpaces in
    newBottomLine <- get _newBottomLine ;; cleared <- get _clearedAllThisFrame ;; last <- get _lastTextAttributes ;;
    lastViewport <- get _lastViewport ;; newBottomLineBG <- get _newBottomLineBG ;;
    let useEraseChar := optimalToUseECH && negb newBottomLine && negb cleared && negb (HasAnyVisualAttributes last) in
    let printingBottomLine := y coord =? BottomInclusive lastViewport in
    let bgMatched := match newBottomLineBG with Some bg => bool_decide (bg = _background last) | None => true end in
    let removeSpaces := negb lineWrapped && (useEraseChar || (cleared && bool_decide (last = TextAttribute_default))
                                             || (newBottomLine && printingBottomLine && bgMatched)) in
    let cchActual := if removeSpaces then nonSpaceLength else cchLine in
    let columnsActual := if removeSpaces then totalWidth - numSpaces else totalWidth in
    (if cchActual =? 0 then modify (put_wrappedRow None) else ret tt) ;;
    _MoveCursor coord ?;
    usingSoftFont <- get _usingSoftFont ;;
    (if usingSoftFont : bool then _WriteTerminalDrcs (take (Z.to_nat cchActual) bufferLine)
     else _WriteTerminalUtf8 (take (Z.to_nat cchActual) bufferLine)) ?;
    (if lineWrapped then modify (put_wrappedRow (Some (y coord))) else ret tt) ;;
    modify (fun e => if x (_lastText e) <? RightExclusive lastViewport
                     then put_lastText (Point (x (_lastText e) + columnsActual) (y (_lastText e))) e else e) ;;
    modify (fun e => if RightInclusive lastViewport <=? x (_lastText e) then put_delayedEolWrap true e else e) ;;
    lastText <- get _lastText ;;
    (if useEraseChar then
       let deferred := Point (x lastText + numSpaces) (y lastText) in
       modify (put_deferredCursorPos deferred) ;;
       if x deferred <=? RightInclusive lastViewport then _EraseCharacter numSpaces else _EraseLine
     else if newBottomLine && printingBottomLine then
       (if optimalToUseECH then ok (modify (put_deferredCursorPos (Point (x lastText + numSpaces) (y lastText))))
        else if (0 <? numSpaces) && removeSpaces then
          _WriteTerminalUtf8 (repeat 0x20 (Z.to_nat numSpaces)) ?;
          ok (modify (put_lastText (Point (x lastText + numSpaces) (y lastText))))
        else ret S_OK)
     else ret S_OK) ?;
    (if printingBottomLine then modify (put_newBottomLine false) ;; modify (put_newBottomLineBG None) else ret tt) ;;
    ret S_OK.

(** [XtermEngine::PaintBufferLine]. *)
Definition PaintBufferLine (clusters : list Cluster) (coord : point) (lineWrapped : bool) : V HRESULT :=
  useAsciiOnly <- get _fUseAsciiOnly ;;
  if useAsciiOnly : bool then _PaintAsciiBufferLine clusters coord else _PaintUtf8BufferLine clusters coord lineWrapped.

(** [XtermEngine::ScrollFrame]. *)
Definition ScrollFrame : V HRESULT :=
  catch_return (
    scrollDelta <- get _scrollDelta ;;
    if negb (x scrollDelta =? 0) then InvalidateAll
    else if y scrollDelta =? 0 then ret S_OK
    else
      let dy := y scrollDelta in
      let absDy := Z.abs dy in
      oldWrappedRow <- get _wrappedRow ;; oldDelayedEolWrap <- get _delayedEolWrap ;;
      modify (put_delayedEolWrap false) ;;
      modify (put_wrappedRow None) ;;
      lastViewport <- get _lastViewport ;;
      (if dy <? 0 then
         _MoveCursor (Point 0 (BottomInclusive lastViewport)) ?;
         _Write (repeat 0x0A (Z.to_nat absDy))
       else if 0 <? dy then
         _MoveCursor (Point 0 0) ?;
         _InsertLine absDy
       else ret S_OK) ?;
      modify (put_wrappedRow ((fun r => r + dy) <$> oldWrappedRow)) ;;
      modify (put_delayedEolWrap oldDelayedEolWrap) ;;
      wrappedRow <- get _wrappedRow ;;
      (match wrappedRow with
       | Some r =>
           if oldDelayedEolWrap : bool then
             lastCell <- (fun e => (e, rect_at (Point (RightInclusive lastViewport) r) (Size 1 1))) ;;
             invalid (set_rect lastCell)
           else ret tt
       | None => ret tt
       end) ;;
      allInvalidated <- _AllIsInvalid ;;
      modify (put_newBottomLine (negb allInvalidated)) ;;
      modify (fun e => if _newBottomLine e then put_newBottomLineBG (Some (_background (_lastTextAttributes e))) e else e) ;;
      ret S_OK).

(** [XtermEngine::WriteTerminalW]. *)
Definition WriteTerminalW (wstr : wstring) : V HRESULT :=
  useAsciiOnly <- get _fUseAsciiOnly ;;
  (if useAsciiOnly : bool then _WriteTerminalAscii wstr else _WriteTerminalUtf8 wstr) ?;
  _Flush.

Definition SetWindowVisibility (showOrHide : bool) : V HRESULT :=
  (if showOrHide then _Write (CSI (L"1t")) else _Write (CSI (L"2t"))) ?;
  _Flush.

(** [XtermEngine::_DoUpdateTitle]. *)
Definition _DoUpdateTitle (newTitle : wstring) : V HRESULT :=
  useAsciiOnly <- get _fUseAsciiOnly ;;
  if useAsciiOnly : bool then ret S_OK
  else catch_return (converted <- utf8 newTitle ;; _ChangeTitle converted).

(** ** The rest of the state *)

Definition UpdateViewport (srNewViewport : inclusive_rect) : V HRESULT :=
  let newView := FromInclusive srNewViewport in
  lastViewport <- get _lastViewport ;;
  let oldSize := Dimensions lastViewport in
  let newSize := Dimensions newView in
  hr <- (if bool_decide (oldSize <> newSize) then
           suppress <- get _suppressResizeRepaint ;;
           hr <- (if negb suppress then _ResizeWindow (width newSize) (height newSize) else ret S_OK) ;;
           resizeQuirk <- get _resizeQuirk ;;
           hr <- (if resizeQuirk : bool then invalid (resize newSize false) ;; ret hr
                  else if SUCCEEDED hr then
                    invalid (resize newSize true) ;;
                    if (height newSize <? height oldSize) || (width newSize <? width oldSize) then InvalidateAll else ret hr
                  else ret hr) ;;
           modify (put_resized true) ;;
           ret hr
         else ret S_OK) ;;
  modify (put_suppressResizeRepaint false) ;;
  modify (put_lastViewport newView) ;;
  ret hr.

Definition SuppressResizeRepaint : V HRESULT := ok (modify (put_suppressResizeRepaint true)).

Definition InheritCursor (coordCursor : point) : V HRESULT :=
  modify (put_virtualTop (y coordCursor)) ;;
  modify (put_lastText coordCursor) ;;
  modify (put_skipCursor true) ;;
  modify (put_firstPaint false) ;;
  ret S_OK.

Definition RequestCursor : V HRESULT := _RequestCursor ?; _Flush ?; ret S_OK.

Definition _ListenForDSR : V HRESULT :=
  looking <- get _lookingForDSR ;;
  match looking with
  | None => ret (Failure E_INVALID_STATE)
  | Some calls => ok (modify (put_lookingForDSR (Some (calls ++ [true]))))
  end.

Definition BeginResizeRequest : V unit := modify (put_inResizeRequest true).
Definition EndResizeRequest : V unit := modify (put_inResizeRequest false).
Definition SetResizeQuirk (resizeQuirk : bool) : V unit := modify (put_resizeQuirk resizeQuirk).
Definition SetPassthroughMode (passthrough : bool) : V unit := modify (put_passthrough passthrough).
Definition SetTerminalCursorTextPosition (cursor : point) : V unit := modify (put_lastText cursor).
Definition SetTerminalOwner (closed : bool) : V unit := modify (put_ownerClosed (Some closed)).
Definition SetLookingForDSRCallback : V unit := modify (put_lookingForDSR (Some [])).

(** What this engine leaves to others. *)
Definition UpdateFont : V HRESULT := ret S_OK.
Definition UpdateDpi : V HRESULT := ret S_OK.
Definition GetProposedFont : V HRESULT := ret S_FALSE.
Definition GetFontSize : V (size * HRESULT) := ret (Size 1 1, S_FALSE).
Definition IsGlyphWideByFont : V (bool * HRESULT) := ret (false, S_FALSE).
Definition _OrRect (existing toOr : inclusive_rect) : inclusive_rect :=
  InclusiveRect (Z.min (ir_left existing) (ir_left toOr)) (Z.min (ir_top existing) (ir_top toOr))
    (Z.max (ir_right existing) (ir_right toOr)) (Z.max (ir_bottom existing) (ir_bottom toOr)).

Definition ManuallyClearScrollback : V HRESULT := _ClearScrollback.
Definition RequestWin32Input : V HRESULT := _RequestWin32Input ?; _RequestFocusEventMode ?; _Flush ?; ret S_OK.
Definition SwitchScreenBuffer (useAltBuffer : bool) : V HRESULT := _SwitchScreenBuffer useAltBuffer ?; _Flush ?; ret S_OK.

End Vt.

(** The constructors of [VtEngine], [XtermEngine] and [Xterm256Engine]. *)
Definition VtEngine_new (initialViewport : Viewport) (fUseAsciiOnly : bool) : Result VtEngine :=
  let? map := bitmap_new (Dimensions initialViewport) false in
  Ok (mkVtEngine true [] [] false false false (TextAttribute_rgb INVALID_COLOR INVALID_COLOR) None initialViewport map
        INVALID_COORDS (Point 0 0) false false false false true 0 false true false false INVALID_COORDS S_OK None false None false
        false false None fUseAsciiOnly false Invalid true).
End Vt.
