(* ===== verification/TerminalCore.v ===== *)
(** * The terminal core

    Models src/src/cascadia/TerminalCore/TerminalApi.cpp, the terminal's implementation of
    [ITerminalApi], with the parts of Terminal.cpp it uses: the two buffers, the viewport,
    the scroll offset, the selection and the scroll marks.

    The callbacks of the control ([_pfnWriteInput], [_pfnWarningBell] and so on) are events
    in the order in which they are called.  [GetPatterns] of the text buffer matches regular
    expressions and [UserResize] reflows the buffer: they are parameters.  The pattern tree
    is the list of its intervals.  Telemetry, locks and the renderer are left out. *)

From S2P Require Import Prelude Effects EnumSet DispatchTypes StateMachine Geometry LineRendition Viewport TextColor TextAttribute Row CodepointWidth OutputCells RowWrite Cursor TextBuffer TerminalInput RenderSettings TerminalApi AdaptOps.

Local Open Scope Z_scope.

(** [DispatchTypes::MarkCategory] and [ScrollMark]; the colour is only set by the control. *)
Inductive MarkCategory := MarkPrompt | MarkError | MarkWarning | MarkSuccess | MarkInfo.

Record ScrollMark := mkScrollMark {
  m_start : point;
  m_end : point;
  m_commandEnd : option point;
  m_outputEnd : option point;
  m_category : MarkCategory
}.

Inductive PromptState := NoPrompt | InPrompt | InCommand | InOutput.

#[export] Instance PromptState_eq_dec : EqDecision PromptState.
Proof. solve_decision. Defined.

Record SelectionAnchors := mkSelection {
  sel_start : point;
  sel_end : point;
  sel_pivot : point
}.

(** What the control is told. *)
Inductive CoreEvent :=
| WriteInput (s : wstring)
| BellRang
| TitleChanged (s : wstring)
| Copied (s : wstring)
| ScrollPositionChanged (top height bottom : Z)
| TaskbarProgressChanged
| ShowWindowChanged (show : bool)
| MidiNote (noteNumber velocity duration : Z)
| RedrawAllRequested (backgroundChanged frameChanged : bool)
| SoftFontUpdated (bitPattern : list Z) (cellSize : size) (centeringHint : Z).

Record CoreTerminal := mkCore {
  _mainBuffer : TextBuffer;
  _altBuffer : option TextBuffer;
  _altBufferSize : size;
  _deferredResize : option size;
  _mutableViewport : Viewport;
  _scrollOffset : Z;
  _selection : option SelectionAnchors;
  _scrollMarks : list ScrollMark;
  _currentPromptState : PromptState;
  _patternIntervalTree : list (point * point);
  _detectURLs : bool;
  _terminalInput : TerminalInput.TerminalInput;
  _renderSettings : RenderSettings;
  _coreParserModes : enumset;
  _title : option wstring;
  _suppressApplicationTitle : bool;
  _defaultCursorShape : CursorType;
  _bracketedPasteMode : bool;
  _taskbarState : Z;
  _taskbarProgress : Z;
  _workingDirectory : wstring;
  _events : list CoreEvent
}.

Module Core.

Definition set_main b t := mkCore b (_altBuffer t) (_altBufferSize t) (_deferredResize t) (_mutableViewport t) (_scrollOffset t) (_selection t) (_scrollMarks t) (_currentPromptState t) (_patternIntervalTree t) (_detectURLs t) (_terminalInput t) (_renderSettings t) (_coreParserModes t) (_title t) (_suppressApplicationTitle t) (_defaultCursorShape t) (_bracketedPasteMode t) (_taskbarState t) (_taskbarProgress t) (_workingDirectory t) (_events t).
Definition set_alt b sz d t := mkCore (_mainBuffer t) b sz d (_mutableViewport t) (_scrollOffset t) (_selection t) (_scrollMarks t) (_currentPromptState t) (_patternIntervalTree t) (_detectURLs t) (_terminalInput t) (_renderSettings t) (_coreParserModes t) (_title t) (_suppressApplicationTitle t) (_defaultCursorShape t) (_bracketedPasteMode t) (_taskbarState t) (_taskbarProgress t) (_workingDirectory t) (_events t).
Definition set_viewport v o t := mkCore (_mainBuffer t) (_altBuffer t) (_altBufferSize t) (_deferredResize t) v o (_selection t) (_scrollMarks t) (_currentPromptState t) (_patternIntervalTree t) (_detectURLs t) (_terminalInput t) (_renderSettings t) (_coreParserModes t) (_title t) (_suppressApplicationTitle t) (_defaultCursorShape t) (_bracketedPasteMode t) (_taskbarState t) (_taskbarProgress t) (_workingDirectory t) (_events t).
Definition set_selection s t := mkCore (_mainBuffer t) (_altBuffer t) (_altBufferSize t) (_deferredResize t) (_mutableViewport t) (_scrollOffset t) s (_scrollMarks t) (_currentPromptState t) (_patternIntervalTree t) (_detectURLs t) (_terminalInput t) (_renderSettings t) (_coreParserModes t) (_title t) (_suppressApplicationTitle t) (_defaultCursorShape t) (_bracketedPasteMode t) (_taskbarState t) (_taskbarProgress t) (_workingDirectory t) (_events t).
Definition set_marks m p t := mkCore (_mainBuffer t) (_altBuffer t) (_altBufferSize t) (_deferredResize t) (_mutableViewport t) (_scrollOffset t) (_selection t) m p (_patternIntervalTree t) (_detectURLs t) (_terminalInput t) (_renderSettings t) (_coreParserModes t) (_title t) (_suppressApplicationTitle t) (_defaultCursorShape t) (_bracketedPasteMode t) (_taskbarState t) (_taskbarProgress t) (_workingDirectory t) (_events t).
Definition set_tree p t := mkCore (_mainBuffer t) (_altBuffer t) (_altBufferSize t) (_deferredResize t) (_mutableViewport t) (_scrollOffset t) (_selection t) (_scrollMarks t) (_currentPromptState t) p (_detectURLs t) (_terminalInput t) (_renderSettings t) (_coreParserModes t) (_title t) (_suppressApplicationTitle t) (_defaultCursorShape t) (_bracketedPasteMode t) (_taskbarState t) (_taskbarProgress t) (_workingDirectory t) (_events t).
Definition set_input i t := mkCore (_mainBuffer t) (_altBuffer t) (_altBufferSize t) (_deferredResize t) (_mutableViewport t) (_scrollOffset t) (_selection t) (_scrollMarks t) (_currentPromptState t) (_patternIntervalTree t) (_detectURLs t) i (_renderSettings t) (_coreParserModes t) (_title t) (_suppressApplicationTitle t) (_defaultCursorShape t) (_bracketedPasteMode t) (_taskbarState t) (_taskbarProgress t) (_workingDirectory t) (_events t).
Definition set_render r t := mkCore (_mainBuffer t) (_altBuffer t) (_altBufferSize t) (_deferredResize t) (_mutableViewport t) (_scrollOffset t) (_selection t) (_scrollMarks t) (_currentPromptState t) (_patternIntervalTree t) (_detectURLs t) (_terminalInput t) r (_coreParserModes t) (_title t) (_suppressApplicationTitle t) (_defaultCursorShape t) (_bracketedPasteMode t) (_taskbarState t) (_taskbarProgress t) (_workingDirectory t) (_events t).
Definition set_parser p t := mkCore (_mainBuffer t) (_altBuffer t) (_altBufferSize t) (_deferredResize t) (_mutableViewport t) (_scrollOffset t) (_selection t) (_scrollMarks t) (_currentPromptState t) (_patternIntervalTree t) (_detectURLs t) (_terminalInput t) (_renderSettings t) p (_title t) (_suppressApplicationTitle t) (_defaultCursorShape t) (_bracketedPasteMode t) (_taskbarState t) (_taskbarProgress t) (_workingDirectory t) (_events t).
Definition set_title s t := mkCore (_mainBuffer t) (_altBuffer t) (_altBufferSize t) (_deferredResize t) (_mutableViewport t) (_scrollOffset t) (_selection t) (_scrollMarks t) (_currentPromptState t) (_patternIntervalTree t) (_detectURLs t) (_terminalInput t) (_renderSettings t) (_coreParserModes t) s (_suppressApplicationTitle t) (_defaultCursorShape t) (_bracketedPasteMode t) (_taskbarState t) (_taskbarProgress t) (_workingDirectory t) (_events t).
Definition set_paste b t := mkCore (_mainBuffer t) (_altBuffer t) (_altBufferSize t) (_deferredResize t) (_mutableViewport t) (_scrollOffset t) (_selection t) (_scrollMarks t) (_currentPromptState t) (_patternIntervalTree t) (_detectURLs t) (_terminalInput t) (_renderSettings t) (_coreParserModes t) (_title t) (_suppressApplicationTitle t) (_defaultCursorShape t) b (_taskbarState t) (_taskbarProgress t) (_workingDirectory t) (_events t).
Definition set_taskbar s p t := mkCore (_mainBuffer t) (_altBuffer t) (_altBufferSize t) (_deferredResize t) (_mutableViewport t) (_scrollOffset t) (_selection t) (_scrollMarks t) (_currentPromptState t) (_patternIntervalTree t) (_detectURLs t) (_terminalInput t) (_renderSettings t) (_coreParserModes t) (_title t) (_suppressApplicationTitle t) (_defaultCursorShape t) (_bracketedPasteMode t) s p (_workingDirectory t) (_events t).
Definition set_directory d t := mkCore (_mainBuffer t) (_altBuffer t) (_altBufferSize t) (_deferredResize t) (_mutableViewport t) (_scrollOffset t) (_selection t) (_scrollMarks t) (_currentPromptState t) (_patternIntervalTree t) (_detectURLs t) (_terminalInput t) (_renderSettings t) (_coreParserModes t) (_title t) (_suppressApplicationTitle t) (_defaultCursorShape t) (_bracketedPasteMode t) (_taskbarState t) (_taskbarProgress t) d (_events t).
Definition add_event e t := mkCore (_mainBuffer t) (_altBuffer t) (_altBufferSize t) (_deferredResize t) (_mutableViewport t) (_scrollOffset t) (_selection t) (_scrollMarks t) (_currentPromptState t) (_patternIntervalTree t) (_detectURLs t) (_terminalInput t) (_renderSettings t) (_coreParserModes t) (_title t) (_suppressApplicationTitle t) (_defaultCursorShape t) (_bracketedPasteMode t) (_taskbarState t) (_taskbarProgress t) (_workingDirectory t) (_events t ++ [e]).

#[local] Abbreviation T := (M CoreTerminal).

Definition event (e : CoreEvent) : T unit := modify (add_event e).

(** ** Buffers and viewports *)

Definition _inAltBuffer (t : CoreTerminal) : bool := match _altBuffer t with Some _ => true | None => false end.
Definition _activeBuffer (t : CoreTerminal) : TextBuffer := match _altBuffer t with Some b => b | None => _mainBuffer t end.
Definition put_active (tb : TextBuffer) (t : CoreTerminal) : CoreTerminal :=
  match _altBuffer t with
  | Some _ => set_alt (Some tb) (_altBufferSize t) (_deferredResize t) t
  | None => set_main tb t
  end.

Definition active {A} (m : M TextBuffer A) : T A := fun t =>
  let '(tb, r) := m (_activeBuffer t) in (put_active tb t, r).
Definition main {A} (m : M TextBuffer A) : T A := fun t =>
  let '(tb, r) := m (_mainBuffer t) in (set_main tb t, r).

Definition _GetMutableViewport (t : CoreTerminal) : Viewport :=
  if _inAltBuffer t then FromDimensions (_altBufferSize t) else _mutableViewport t.

Definition GetBufferHeight (t : CoreTerminal) : Z := BottomExclusive (_GetMutableViewport t).
Definition ViewStartIndex (t : CoreTerminal) : Z := if _inAltBuffer t then 0 else Top (_mutableViewport t).
Definition ViewEndIndex (t : CoreTerminal) : Z :=
  if _inAltBuffer t then height (_altBufferSize t) - 1 else BottomInclusive (_mutableViewport t).
Definition _VisibleStartIndex (t : CoreTerminal) : Z :=
  if _inAltBuffer t then ViewStartIndex t else Z.max 0 (ViewStartIndex t - _scrollOffset t).
Definition _VisibleEndIndex (t : CoreTerminal) : Z :=
  if _inAltBuffer t then ViewEndIndex t else Z.max 0 (ViewEndIndex t - _scrollOffset t).
Definition _GetVisibleViewport (t : CoreTerminal) : Viewport :=
  FromDimensionsSize (Point 0 (_VisibleStartIndex t))
    (if _inAltBuffer t then _altBufferSize t else Dimensions (_mutableViewport t)).

Definition _NotifyScrollEvent : T unit :=
  visible <- get _GetVisibleViewport ;;
  bottom <- get GetBufferHeight ;;
  event (ScrollPositionChanged (Top visible) (Height visible) bottom).

Definition UserScrollViewport (viewTop : Z) : T unit :=
  alt <- get _inAltBuffer ;;
  if alt : bool then ret tt
  else
    let clampedNewTop := Z.max 0 viewTop in
    realTop <- get ViewStartIndex ;;
    modify (fun t => set_viewport (_mutableViewport t) (Z.max 0 (realTop - clampedNewTop)) t) ;;
    active TriggerScroll.

Definition GetViewport (t : CoreTerminal) : rect := rect_of_inclusive (ToInclusive (_GetMutableViewport t)).

Definition SetViewportPosition (position : point) : T unit :=
  alt <- get _inAltBuffer ;;
  if alt : bool then ret tt
  else
    modify (fun t => set_viewport (FromDimensionsSize position (Dimensions (_GetMutableViewport t))) (_scrollOffset t) t) ;;
    _NotifyScrollEvent.

(** ** The cursor *)

(** The selection, when the buffer loses its first row. *)
Definition shift_selection (s : SelectionAnchors) : option SelectionAnchors :=
  let pivotWasStart := bool_decide (sel_start s = sel_pivot s) in
  let moved :=
    if 0 <? y (sel_start s) then
      Some (Point (x (sel_start s)) (y (sel_start s) - 1), Point (x (sel_end s)) (y (sel_end s) - 1))
    else if 0 <? y (sel_end s) then
      Some (Point 0 (y (sel_start s)), Point (x (sel_end s)) (y (sel_end s) - 1))
    else None in
  match moved with
  | Some (st, e) => Some (mkSelection st e (if pivotWasStart then st else e))
  | None => None
  end.

Definition up_by (n : Z) (p : point) : point := Point (x p) (y p - n).

(** A scroll mark, when the buffer loses its first rows. *)
Definition shift_mark (rows : Z) (m : ScrollMark) : ScrollMark :=
  mkScrollMark (up_by rows (m_start m)) (m_end m) (up_by rows <$> m_commandEnd m) (up_by rows <$> m_outputEnd m) (m_category m).

(** The part of [_AdjustCursorPosition] that moves the viewport and the scroll offset. *)
Definition follow_cursor (proposed : point) (newRows : Z) : T unit :=
  v <- get _mutableViewport ;;
  let scrollAmount := Z.max 0 (y proposed - BottomInclusive v) in
  let newViewTop := Z.max 0 (y proposed - (Height v - 1)) in
  let updatedViewport := (0 <? scrollAmount) && negb (newViewTop =? Top v) in
  (if updatedViewport then
     modify (fun t => set_viewport (FromDimensionsSize (Point 0 newViewTop) (Dimensions v)) (_scrollOffset t) t)
   else ret tt) ;;
  updatedViewport <-
    (if updatedViewport || negb (newRows =? 0) then
       oldScrollOffset <- get _scrollOffset ;;
       selectionActive <- get (fun t => bool_decide (is_Some (_selection t))) ;;
       let scrollToOutput := negb selectionActive && (oldScrollOffset =? 0) in
       let offset := if scrollToOutput then 0 else oldScrollOffset + scrollAmount + newRows in
       hi <- get (fun t => Height (GetSize (_activeBuffer t)) - Height (_mutableViewport t)) ;;
       if hi <? 0 then undefined
       else
         let offset := Z.max 0 (Z.min offset hi) in
         modify (fun t => set_viewport (_mutableViewport t) offset t) ;;
         ret (updatedViewport || negb (oldScrollOffset =? offset))
     else ret updatedViewport) ;;
  if updatedViewport : bool then _NotifyScrollEvent else ret tt.

Definition _AdjustCursorPosition (proposedPosition : point) : T unit :=
  h <- get (fun t => Height (GetSize (_activeBuffer t))) ;;
  let newRows := Z.max 0 (y proposedPosition - h + 1) in
  iterM (fun _ =>
    active (IncrementCircularBuffer false) ;;
    modify (fun t => set_selection (match _selection t with Some s => shift_selection s | None => None end) t))
    (repeat tt (Z.to_nat newRows)) ;;
  (if h <=? y proposedPosition then modify (set_tree []) else ret tt) ;;
  let proposed := Point (x proposedPosition) (y proposedPosition - newRows) in
  active (with_cursor (SetPosition proposed)) ;;
  alt <- get _inAltBuffer ;;
  (if alt : bool then ret tt else follow_cursor proposed newRows) ;;
  if negb (newRows =? 0) then
    modify (fun t => set_marks (List.filter (fun m => 0 <=? y (m_start m)) (map (shift_mark newRows) (_scrollMarks t))) (_currentPromptState t) t) ;;
    active (TriggerScrollBy (Point 0 (- newRows)))
  else ret tt.

Definition LineFeed (withReturn wrapForced : bool) : T unit :=
  cursorPos <- get (fun t => _cPosition (_cursor (_activeBuffer t))) ;;
  active (on_row (y cursorPos) (modify (SetWrapForced wrapForced))) ;;
  _AdjustCursorPosition (Point (if withReturn then 0 else x cursorPos) (y cursorPos + 1)).

(** ** Titles, progress, the working directory *)

Definition SetWindowTitle (title : wstring) : T unit :=
  suppress <- get _suppressApplicationTitle ;;
  if suppress : bool then ret tt
  else modify (set_title (Some title)) ;; event (TitleChanged title).

Definition TaskbarMinProgress : Z := 10.

(** [TaskbarState]: 0 (clear), 1 (set), 2 (error), 3 (indeterminate), 4 (paused). *)
Definition taskbar_progress (state progress current : Z) : Z :=
  if state =? 0 then 0
  else if state =? 1 then progress
  else if (state =? 2) || (state =? 4) then
    if progress =? 0 then (if current =? 0 then TaskbarMinProgress else current) else progress
  else current.

Definition SetTaskbarProgress (state progress : Z) : T unit :=
  modify (fun t => set_taskbar state (taskbar_progress state progress (_taskbarProgress t)) t) ;;
  event TaskbarProgressChanged.

(** ** Marks *)

Definition AddMark (category : MarkCategory) (st e : point) (fromUi : bool) : T unit :=
  alt <- get _inAltBuffer ;;
  if alt : bool then ret tt
  else
    let m := mkScrollMark st e None None category in
    modify (fun t => set_marks (if fromUi then m :: _scrollMarks t else _scrollMarks t ++ [m]) (_currentPromptState t) t) ;;
    _NotifyScrollEvent.

(** [_scrollMarks.back()], which must exist. *)
Definition change_last (f : ScrollMark -> ScrollMark) : T unit := fun t =>
  match _scrollMarks t !! (length (_scrollMarks t) - 1)%nat with
  | Some m => (set_marks (take (length (_scrollMarks t) - 1) (_scrollMarks t) ++ [f m]) (_currentPromptState t) t, Ok tt)
  | None => (t, Undefined)
  end.

Definition set_prompt_state (p : PromptState) : T unit := modify (fun t => set_marks (_scrollMarks t) p t).

Definition core_cursor (t : CoreTerminal) : point := _cPosition (_cursor (_activeBuffer t)).

Definition in_state (p : PromptState) (t : CoreTerminal) : bool :=
  bool_decide (_currentPromptState t = p) && (0 <? Z.of_nat (length (_scrollMarks t))).

Definition api_MarkPrompt : T unit :=
  p <- get core_cursor ;;
  AddMark MarkPrompt p p false ;;
  set_prompt_state InPrompt.

Definition MarkCommandStart : T unit :=
  p <- get core_cursor ;;
  ok <- get (in_state InPrompt) ;;
  (if ok : bool then ret tt else AddMark MarkPrompt p p false) ;;
  change_last (fun m => mkScrollMark (m_start m) p (m_commandEnd m) (m_outputEnd m) (m_category m)) ;;
  set_prompt_state InCommand.

Definition MarkOutputStart : T unit :=
  p <- get core_cursor ;;
  ok <- get (in_state InCommand) ;;
  (if ok : bool then ret tt else AddMark MarkPrompt p p false) ;;
  change_last (fun m => mkScrollMark (m_start m) (m_end m) (Some p) (m_outputEnd m) (m_category m)) ;;
  set_prompt_state InOutput.

Definition MarkCommandFinish (error : option Z) : T unit :=
  p <- get core_cursor ;;
  let category := match error with Some e => if e =? 0 then MarkSuccess else MarkError | None => MarkPrompt end in
  ok <- get (in_state InOutput) ;;
  (if ok : bool then ret tt
   else
     AddMark MarkPrompt p p false ;;
     change_last (fun m => mkScrollMark (m_start m) (m_end m) (Some p) (m_outputEnd m) (m_category m))) ;;
  change_last (fun m => mkScrollMark (m_start m) (m_end m) (m_commandEnd m) (Some p) category) ;;
  set_prompt_state NoPrompt.

Section Buffers.
Context (GetPatterns : TextBuffer -> Z -> Z -> list (point * point)) (linkPattern : wstring) (UserResize : size -> T unit).

(** ** Patterns *)

Definition redraw_region (r : inclusive_rect) : T unit := active (TriggerRedraw (FromInclusive r)).

Definition _InvalidateFromCoords (st e : point) : T unit :=
  if y st =? y e then redraw_region (InclusiveRect (x st) (y st) (x e) (y e))
  else
    row <- get_result (fun t => GetRowByOffset 0 (_activeBuffer t)) ;;
    let rowSize := Row._columnCount row in
    redraw_region (InclusiveRect (x st) (y st) (rowSize - 1) (y st)) ;;
    (if 1 <? y e - y st then redraw_region (InclusiveRect 0 (y st + 1) (rowSize - 1) (y e - 1)) else ret tt) ;;
    redraw_region (InclusiveRect 0 (y e) (x e) (y e)).

Definition _InvalidatePatternTree (tree : list (point * point)) : T unit :=
  vis <- get _VisibleStartIndex ;;
  iterM (fun i => _InvalidateFromCoords (up_by (- vis) (fst i)) (up_by (- vis) (snd i))) tree.

Definition UpdatePatternsUnderLock : T unit :=
  oldTree <- get _patternIntervalTree ;;
  modify (fun t => set_tree (GetPatterns (_activeBuffer t) (_VisibleStartIndex t) (_VisibleEndIndex t)) t) ;;
  _InvalidatePatternTree oldTree ;;
  newTree <- get _patternIntervalTree ;;
  _InvalidatePatternTree newTree.

Definition ClearPatternTree : T unit :=
  oldTree <- get _patternIntervalTree ;;
  modify (set_tree []) ;;
  _InvalidatePatternTree oldTree.

Definition _updateUrlDetection : T unit :=
  detect <- get _detectURLs ;;
  if detect : bool then active (AddPatternRecognizer linkPattern) ;; UpdatePatternsUnderLock
  else ClearPatternTree.

(** ** The alternate buffer *)

(** The style, visibility and blinking of another cursor, and a position. *)
Definition adopt_cursor (c : Cursor) (p : point) : M TextBuffer unit :=
  with_cursor (SetStyle (_ulSize c) (_cursorType c)) ;;
  with_cursor (SetIsVisible (_fIsVisible c)) ;;
  with_cursor (SetBlinkingAllowed (_fBlinkingAllowed c)) ;;
  with_cursor (SetPosition p).

Definition UseAlternateScreenBuffer : T unit :=
  dims <- get (fun t => Dimensions (_mutableViewport t)) ;;
  myCursor <- get (fun t => _cursor (_mainBuffer t)) ;;
  modify (set_selection None) ;;
  main ClearPatternRecognizers ;;
  tb <- get_result (fun _ => TextBuffer_new dims TextAttribute_default (_ulSize myCursor) true) ;;
  modify (fun t => set_alt (Some tb) dims (_deferredResize t) t) ;;
  main (SetAsActiveBuffer false) ;;
  viewTop <- get (fun t => Top (_mutableViewport t)) ;;
  active (adopt_cursor myCursor (up_by viewTop (_cPosition myCursor))) ;;
  _updateUrlDetection ;;
  modify (fun t => set_input (TerminalInput.UseAlternateScreenBuffer (_terminalInput t)) t) ;;
  _NotifyScrollEvent ;;
  active TriggerRedrawAll.

Definition UseMainScreenBuffer : T unit :=
  alt <- get _altBuffer ;;
  match alt with
  | None => ret tt
  | Some altBuffer =>
      modify (set_selection None) ;;
      viewTop <- get (fun t => Top (_mutableViewport t)) ;;
      main (adopt_cursor (_cursor altBuffer) (up_by (- viewTop) (_cPosition (_cursor altBuffer)))) ;;
      main (SetAsActiveBuffer true) ;;
      modify (fun t => set_alt None (_altBufferSize t) (_deferredResize t) t) ;;
      deferred <- get _deferredResize ;;
      (match deferred with
       | Some sz => UserResize sz ;; modify (fun t => set_alt (_altBuffer t) (_altBufferSize t) None t)
       | None => ret tt
       end) ;;
      main ClearPatternRecognizers ;;
      _updateUrlDetection ;;
      modify (fun t => set_input (TerminalInput.UseMainScreenBuffer (_terminalInput t)) t) ;;
      _NotifyScrollEvent ;;
      active TriggerRedrawAll
  end.

(** ** The interface *)

(** The pass-through to another terminal is only used when there is one. *)
#[global] Instance Core_api : ITerminalApi CoreTerminal := {
  GetTextBuffer := _activeBuffer;
  PutTextBuffer := put_active;
  GetTerminalInput := _terminalInput;
  PutTerminalInput := set_input;
  GetRenderSettings := _renderSettings;
  PutRenderSettings := set_render;
  GetParserModes := _coreParserModes;
  PutParserModes := set_parser;
  RendererTriggerRedrawAll b f := event (RedrawAllRequested b f);
  RendererTriggerFlush _ := ret tt;
  RendererUpdateSoftFont p c h := event (SoftFontUpdated p c h);
  FlushToTerminal := ret false;
  IsProcessingLastCharacter _ := false;
  ActionPassThroughString _ := ret tt;
  ReturnResponse s := event (WriteInput s);
  TerminalApi.GetViewport := GetViewport;
  TerminalApi.SetViewportPosition := SetViewportPosition;
  IsVtInputEnabled _ := false;
  SetTextAttributes attrs := active (SetCurrentAttributes attrs);
  SetAutoWrapMode _ := ret tt;
  GetAutoWrapMode _ := true;
  SetScrollingRegion _ := ret tt;
  api_WarningBell := event BellRang;
  GetLineFeedMode _ := false;
  api_LineFeed := LineFeed;
  api_SetWindowTitle := SetWindowTitle;
  TerminalApi.UseAlternateScreenBuffer := UseAlternateScreenBuffer;
  TerminalApi.UseMainScreenBuffer := UseMainScreenBuffer;
  GetUserDefaultCursorStyle := _defaultCursorShape;
  api_ShowWindow b := event (ShowWindowChanged b);
  SetConsoleOutputCP _ := ret tt;
  GetConsoleOutputCP _ := CP_UTF8;
  SetBracketedPasteMode b := modify (set_paste b);
  GetBracketedPasteMode t := Some (_bracketedPasteMode t);
  CopyToClipboard s := event (Copied s);
  TerminalApi.SetTaskbarProgress := SetTaskbarProgress;
  SetWorkingDirectory d := modify (set_directory d);
  PlayMidiNote n v d := event (MidiNote n v d);
  ResizeWindow _ _ := ret false;
  IsConsolePty _ := false;
  NotifyAccessibilityChange _ := ret tt;
  TerminalApi.api_MarkPrompt := api_MarkPrompt;
  api_MarkCommandStart := MarkCommandStart;
  api_MarkOutputStart := MarkOutputStart;
  api_MarkCommandFinish := MarkCommandFinish
}.

End Buffers.

(** ** Construction *)

(** The constructor and [Create]; [render0] is the state of new render settings. *)
Definition Create (render0 : RenderSettings) (viewportSize : size) (scrollbackLines : Z) : Result CoreTerminal :=
  let '(render, r) :=
    (Render.SetColorAlias DefaultForeground DEFAULT_FOREGROUND (RGB 255 255 255) ;;
     Render.SetColorAlias DefaultBackground DEFAULT_BACKGROUND (RGB 0 0 0)) render0 in
  let? _ := r in
  let bufferHeight := Z.min (Z.max (height viewportSize + scrollbackLines) 1) 32767 in
  let? tb := TextBuffer_new (Size (width viewportSize) bufferHeight) TextAttribute_default 12 true in
  Ok (mkCore tb None (Size 0 0) None (FromDimensionsSize (Point 0 0) viewportSize) 0 None [] NoPrompt [] false
        TerminalInput.TerminalInput_new render (enumset_set_to (enumset_new [StateMachine.Ansi]) AlwaysAcceptC1 true)
        None false Legacy false 0 0 [] []).

End Core.
