(* ===== verification/AdaptStrings.v ===== *)
(** * The adapter: actions and strings

    Models the rest of src/src/terminal/adapter/adaptDispatch.cpp: the actions of ConEmu,
    iTerm2 and FinalTerm, sounds, and the handlers of the strings that follow a DCS
    sequence (settings, colour tables, soft fonts, macros and pass-through).

    A handler is a value of [Handler]; the variables its closure captured are in the
    [_handler] field of the adapter.  [Feature_ScrollbarMarks] is a build feature,
    [ColorFromHLS] (src/src/types/utils.cpp) computes in floating point, and [fontMemory]
    is what the memory of a new font buffer holds: parameters. *)

From S2P Require Import Prelude Effects EnumSet DispatchTypes StateMachine Utils Geometry LineRendition Viewport TextColor TextAttribute SgrStack AdaptGraphics MacroBuffer Row TerminalOutput CodepointWidth OutputCells RowWrite Cursor TextBuffer FontBuffer InputEvents TerminalInput RenderSettings TerminalApi TermDispatch AdaptDispatch AdaptOps AdaptModes.

Local Open Scope Z_scope.

(** [til::is_legal_path]: the characters that the filter marks with [_P]. *)
Definition illegal_in_path : list wchar := [0x22; 0x2A; 0x3C; 0x3E; 0x3F; 0x7C].
Definition is_legal_path (str : wstring) : bool := negb (existsb (fun ch => existsb (Z.eqb ch) illegal_in_path) str).

(** The handlers of strings.  That of [DownloadDRCS] may also pass the string through,
    [gotId] telling whether the identifier of the character set went by. *)
Inductive Handler :=
| DrcsHandler (charsetSize : VTInt) (passthrough : bool)
| MacroHandler
| ColorTableHandler
| PassthroughHandler
| SettingHandler.

(** Parts of the report of [_ReportSGRSetting]. *)
Definition addAttribute (parameter : wstring) (enabled : bool) : wstring := if enabled then parameter else [].

Definition addColor (base : Z) (color : TextColor) : wstring :=
  if is_type IsIndex16 color then
    let index := GetIndex color in
    L";" ++ format_int (base + (if 8 <=? index then 60 else 0) + index mod 8)
  else if is_type IsIndex256 color then
    L";" ++ format_int (base + 8) ++ L";5;" ++ format_int (GetIndex color)
  else if is_type IsRgb color then
    L";" ++ format_int (base + 8) ++ L";2;" ++ format_int (GetRValue (GetRGB color)) ++ L";"
      ++ format_int (GetGValue (GetRGB color)) ++ L";" ++ format_int (GetBValue (GetRGB color))
  else [].

Definition sgr_report (attr : TextAttribute) : wstring :=
  ESC (L"P1$r0") ++
  addAttribute (L";1") (IsIntense attr) ++
  addAttribute (L";2") (IsFaint attr) ++
  addAttribute (L";3") (IsItalic attr) ++
  addAttribute (L";4") (IsUnderlined attr) ++
  addAttribute (L";5") (IsBlinking attr) ++
  addAttribute (L";7") (IsReverseVideo attr) ++
  addAttribute (L";8") (IsInvisible attr) ++
  addAttribute (L";9") (IsCrossedOut attr) ++
  addAttribute (L";21") (IsDoublyUnderlined attr) ++
  addAttribute (L";53") (IsOverlined attr) ++
  addColor 30 (_foreground attr) ++
  addColor 40 (_background attr) ++
  L"m" ++ ST.

Module AdaptStrings.
Section AdaptStrings.
Context {W : Type} `{ITerminalApi W} {GW : GlyphWidth} (statics : Statics) (garbage : wchar) (GetPerceivableColor : Z -> Z -> Z).
Context (Feature_ScrollbarMarks : bool) (ColorFromHLS : Z -> Z -> Z -> color) (fontMemory : FontBuffer).

#[local] Abbreviation D := (M (Adapter W)).
Import Adapt AdaptOps AdaptModes.

(** ** Actions *)

(** A part that may be missing or empty; [None] is a part that is not a number. *)
Definition optional_uint (parts : list wstring) (i : nat) : option Z :=
  match parts !! i with
  | None => Some 0
  | Some part => match StringToUint part with
                 | Some v => Some v
                 | None => match part with [] => Some 0 | _ => None end
                 end
  end.

Definition unquote (path : wstring) : wstring :=
  if (3 <=? Z.of_nat (length path)) && bool_decide (path !! 0%nat = Some 0x22) && bool_decide (path !! (length path - 1)%nat = Some 0x22)
  then take (length path - 2) (drop 1 path) else path.

Definition DoConEmuAction (string : wstring) : D bool :=
  pty <- ask IsConsolePty ;;
  if pty : bool then ret false
  else
    let parts := SplitString string 0x3B in
    match parts with
    | [] => ret false
    | first :: _ =>
        match StringToUint first with
        | None => ret false
        | Some subParam =>
            if subParam =? 4 then
              match optional_uint parts 1, optional_uint parts 2 with
              | Some state, Some progress =>
                  if 4 <? state then ret false
                  else api (SetTaskbarProgress state (Z.min progress 100)) ;; ret true
              | _, _ => ret false
              end
            else if subParam =? 9 then
              match parts !! 1%nat with
              | Some path =>
                  let path := unquote path in
                  if is_legal_path path then api (SetWorkingDirectory path) ;; ret true else ret false
              | None => ret false
              end
            else ret false
        end
    end.

Definition DoITerm2Action (string : wstring) : D bool :=
  pty <- ask IsConsolePty ;;
  if pty : bool then api (RendererTriggerFlush false) ;; ret false
  else if negb Feature_ScrollbarMarks then ret false
  else match SplitString string 0x3B with
       | [] => ret false
       | action :: _ => if bool_decide (action = L"SetMark") then api api_MarkPrompt ;; ret true else ret false
       end.

Definition UINT_MAX : Z := 0xFFFFFFFF.

Definition DoFinalTermAction (string : wstring) : D bool :=
  pty <- ask IsConsolePty ;;
  if pty : bool then api (RendererTriggerFlush false) ;; ret false
  else if negb Feature_ScrollbarMarks then ret false
  else
    let parts := SplitString string 0x3B in
    match parts with
    | [c] :: _ =>
        if c =? 0x41 then api api_MarkPrompt ;; ret true
        else if c =? 0x42 then api api_MarkCommandStart ;; ret true
        else if c =? 0x43 then api api_MarkOutputStart ;; ret true
        else if c =? 0x44 then
          let error := match parts !! 1%nat with
                       | Some errorString => Some (default UINT_MAX (StringToUint errorString))
                       | None => None
                       end in
          api (api_MarkCommandFinish error) ;; ret true
        else ret false
    | _ => ret false
    end.

(** [parameters.subspan(2).for_each]: every note is played, and one is when there are none. *)
Definition PlaySounds (parameters : VTParameters) : D bool :=
  pty <- ask IsConsolePty ;;
  if pty : bool then api (RendererTriggerFlush false) ;; ret false
  else
    let velocity := Z.quot (Z.min (value_or (params_at parameters 0) 0) 7 * 127) 7 in
    let duration := Z.quot (Z.min (value_or (params_at parameters 1) 0) 255 * 1000000) 32 in
    let notes := drop 2 parameters in
    iterM (fun param =>
      let noteNumber := Z.min (value_or param 0) 25 + 71 in
      api (PlayMidiNote noteNumber (if noteNumber =? 71 then 0 else velocity) duration))
      (match notes with [] => [-1] | _ => notes end) ;;
    ret true.

(** ** Handlers *)

Definition set_handler_state (f : HandlerState -> HandlerState) : D unit := modify (fun a => set_handler (f (_handler a)) a).

(** [_CreatePassthroughHandler]: whether a handler was made. *)
Definition _CreatePassthroughHandler : D bool :=
  api (RendererTriggerFlush false) ;;
  flushed <- api FlushToTerminal ;;
  (if flushed : bool then
     set_handler_state (fun h => mkHandlerState (h_idBuilder h) (h_parameter h) (h_parameters h) [])
   else ret tt) ;;
  ret flushed.

Definition passthrough (ch : wchar) : D bool :=
  let endOfString := ch =? AsciiChars.ESC in
  set_handler_state (fun h => mkHandlerState (h_idBuilder h) (h_parameter h) (h_parameters h) (h_buffer h ++ [ch])) ;;
  buffer <- get (fun a => h_buffer (_handler a)) ;;
  last <- ask IsProcessingLastCharacter ;;
  (if (4096 <=? Z.of_nat (length buffer)) || last || endOfString then
     api (ActionPassThroughString (if endOfString then buffer ++ [0x5C] else buffer)) ;;
     set_handler_state (fun h => mkHandlerState (h_idBuilder h) (h_parameter h) (h_parameters h) [])
   else ret tt) ;;
  ret (negb endOfString).

(** *** Settings *)

Definition _ReportSGRSetting : D unit :=
  attr <- buf_get GetCurrentAttributes ;; respond (sgr_report attr).

Definition _ReportDECSTBMSetting : D unit :=
  viewport <- ask GetViewport ;;
  margins <- _GetVerticalMargins viewport false ;;
  respond (ESC (L"P1$r") ++ format_int (fst margins + 1) ++ L";" ++ format_int (snd margins + 1) ++ L"r" ++ ST).

Definition _ReportDECSCASetting : D unit :=
  attr <- buf_get GetCurrentAttributes ;;
  respond (ESC (L"P1$r") ++ (if IsProtected attr then L"1" else L"0") ++ [0x22; 0x71] ++ ST).

Definition _ReportDECSACESetting : D unit :=
  rectangle <- test_mode RectangularChangeExtent ;;
  respond (ESC (L"P1$r") ++ (if rectangle : bool then L"2" else L"1") ++ L"*x" ++ ST).

(** [RequestSetting] makes a new builder. *)
Definition RequestSetting : D (option Handler) :=
  set_handler_state (fun h => mkHandlerState VTIDBuilder_Clear (h_parameter h) (h_parameters h) (h_buffer h)) ;;
  ret (Some SettingHandler).

Definition report_setting (id : VTID) : D unit :=
  if id =? VTID_FromString (L"m") then _ReportSGRSetting
  else if id =? VTID_FromString (L"r") then _ReportDECSTBMSetting
  else if id =? VTID_FromString [0x22; 0x71] then _ReportDECSCASetting
  else if id =? VTID_FromString (L"*x") then _ReportDECSACESetting
  else respond (ESC (L"P0$r") ++ ST).

Definition setting_handler (ch : wchar) : D bool :=
  if (0x40 <=? ch) && (ch <=? 0x7e) then
    id <- get (fun a => Finalize (h_idBuilder (_handler a)) ch) ;;
    report_setting id ;;
    ret false
  else
    (if (0x20 <=? ch) && (ch <=? 0x2f) then
       set_handler_state (fun h => mkHandlerState (AddIntermediate (h_idBuilder h) ch) (h_parameter h) (h_parameters h) (h_buffer h))
     else ret tt) ;;
    ret true.

(** *** Colour tables *)

Definition _RestoreColorTable : D (option Handler) :=
  pty <- ask IsConsolePty ;;
  if pty : bool then made <- _CreatePassthroughHandler ;; ret (if made : bool then Some PassthroughHandler else None)
  else
    set_handler_state (fun h => mkHandlerState (h_idBuilder h) 0 [] (h_buffer h)) ;;
    ret (Some ColorTableHandler).

(** [ReportFormat]: 2 (colour table). *)
Definition RestoreTerminalState (format : VTInt) : D (option Handler) :=
  if format =? 2 then _RestoreColorTable else ret None.

Definition set_parameters (parameter : VTInt) (parameters : list VTParameter) : D unit :=
  set_handler_state (fun h => mkHandlerState (h_idBuilder h) parameter parameters (h_buffer h)).

(** [ColorModel]: 1 (HLS), 2 (RGB). *)
Definition restore_color (colorParameters : VTParameters) : D unit :=
  let colorNumber := value_or (params_at colorParameters 0) 0 in
  if colorNumber <? Z.of_nat TABLE_SIZE then
    let colorModel := param_enum (params_at colorParameters 1) in
    let x := value_or (params_at colorParameters 2) 0 in
    let y := value_or (params_at colorParameters 3) 0 in
    let z := value_or (params_at colorParameters 4) 0 in
    if colorModel =? 1 then SetColorTableEntry GetPerceivableColor colorNumber (to_COLORREF (ColorFromHLS x y z)) ;; ret tt
    else if colorModel =? 2 then SetColorTableEntry GetPerceivableColor colorNumber (to_COLORREF (ColorFromRGB100 x y z)) ;; ret tt
    else ret tt
  else ret tt.

Definition color_table_handler (ch : wchar) : D bool :=
  parameter <- get (fun a => h_parameter (_handler a)) ;;
  parameters <- get (fun a => h_parameters (_handler a)) ;;
  (if (0x30 <=? ch) && (ch <=? 0x39) then
     set_parameters (Z.min (parameter * 10 + (ch - 0x30)) MAX_PARAMETER_VALUE) parameters
   else if ch =? 0x3B then
     set_parameters 0 (if (length parameters <? 5)%nat then parameters ++ [parameter] else parameters)
   else if (ch =? 0x2F) || (ch =? AsciiChars.ESC) then
     restore_color (parameters ++ [parameter]) ;;
     set_parameters 0 []
   else ret tt) ;;
  ret (negb (ch =? AsciiChars.ESC)).

(** *** Macros *)

Definition macro {A} (m : M MacroBuffer A) : D A := fun a =>
  let '(b, r) := m (default MacroBuffer_new (_macroBuffer a)) in (set_macroBuffer (Some b) a, r).

Definition DefineMacro (macroId deleteControl encoding : VTInt) : D (option Handler) :=
  ok <- macro (InitParser (Z.to_nat macroId) deleteControl encoding) ;;
  ret (if ok : bool then Some MacroHandler else None).

(** *** Soft fonts *)

Definition font {A} (m : M FontBuffer A) : D A := fun a =>
  let '(b, r) := m (default (Font.FontBuffer_new fontMemory) (_fontBuffer a)) in (set_fontBuffer (Some b) a, r).
Definition font_get {A} (f : FontBuffer -> A) : D A := font (get f).

Definition andM {S} (m1 m2 : M S bool) : M S bool := b <- m1 ;; if b : bool then m2 else ret false.

Definition DownloadDRCS (fontNumber : VTInt) (startChar : VTParameter) (eraseControl cellMatrix fontSet fontUsage : VTInt)
    (cellHeight : VTParameter) (charsetSize : VTInt) : D (option Handler) :=
  success <- font (andM (ret (fontNumber <=? 1)) (andM (Font.SetEraseControl eraseControl)
    (andM (Font.SetAttributes cellMatrix cellHeight fontSet fontUsage) (Font.SetStartChar startChar charsetSize)))) ;;
  if negb success then ret None
  else
    pty <- ask IsConsolePty ;;
    made <- (if pty : bool then
               m <- _CreatePassthroughHandler ;;
               set_parameters 0 [] ;; ret m
             else ret false) ;;
    ret (Some (DrcsHandler charsetSize made)).

(** The handler that [_CreateDrcsPassthroughHandler] makes; [gotId] is kept in the
    captured parameter. *)
Definition drcs_passthrough (charsetSize : VTInt) (ch : wchar) : D unit :=
  gotId <- get (fun a => h_parameter (_handler a)) ;;
  if gotId =? 0 then
    if (0x30 <=? ch) && (ch <=? 0x7E) then set_parameters 1 [] ;; passthrough 0x40 ;; ret tt else ret tt
  else
    more <- passthrough ch ;;
    if more : bool then ret tt
    else api (ActionPassThroughString (if charsetSize =? 1 then [0x1B; 0x2D; 0x40] else [0x1B; 0x29; 0x40])).

Definition drcs_handler (charsetSize : VTInt) (conptyPassthrough : bool) (ch : wchar) : D bool :=
  (if conptyPassthrough then drcs_passthrough charsetSize ch else ret tt) ;;
  (if negb (ch =? AsciiChars.ESC) then font (Font.AddSixelData ch)
   else
     done <- font Font.FinalizeSixelData ;;
     if done : bool then
       designation <- font_get Font.GetDesignation ;;
       (if charsetSize =? 1 then termOut (TermOut.SetDrcs96Designation designation)
        else termOut (TermOut.SetDrcs94Designation designation)) ;;
       bitPattern <- font_get Font.GetBitPattern ;;
       cellSize <- font_get Font.GetCellSize ;;
       centeringHint <- font_get Font.GetTextCenteringHint ;;
       api (RendererUpdateSoftFont bitPattern cellSize centeringHint)
     else ret tt) ;;
  ret true.

(** ** Dispatch *)

Definition run_handler (h : Handler) (ch : wchar) : D bool :=
  match h with
  | DrcsHandler charsetSize passthrough => drcs_handler charsetSize passthrough ch
  | MacroHandler => macro (ParseDefinition ch)
  | ColorTableHandler => color_table_handler ch
  | PassthroughHandler => passthrough ch
  | SettingHandler => setting_handler ch
  end.

Definition handlerCall (c : HandlerCall) : D (option Handler) :=
  match c with
  | TermDispatch.DownloadDRCS fontNumber startChar eraseControl cellMatrix fontSet fontUsage cellHeight charsetSize =>
      DownloadDRCS fontNumber startChar eraseControl cellMatrix fontSet fontUsage cellHeight charsetSize
  | TermDispatch.DefineMacro macroId deleteControl encoding => DefineMacro macroId deleteControl encoding
  | TermDispatch.RestoreTerminalState format => RestoreTerminalState format
  | TermDispatch.RequestSetting => RequestSetting
  end.

End AdaptStrings.
End AdaptStrings.
