(* ===== verification/AdaptTerminal.v ===== *)
(** * The adapter behind the output engine

    The adapter is an implementation of the dispatch interface
    (src/src/terminal/adapter/ITermDispatch.hpp), so the parser, the output engine, the
    adapter and a terminal make one machine.  The modes of the parser, which the adapter
    reaches through the terminal, are those of the machine itself.

    What the completion callback of [InvokeMacro] does, a nested call of [ProcessString],
    and the connection to another terminal are parameters; the macro buffer has its own
    theorems. *)

From S2P Require Import Prelude Effects EnumSet DispatchTypes StateMachine StateMachineLaws Utils OutputEngine OutputEngineLaws Geometry LineRendition Viewport TextColor TextAttribute MacroBuffer Row CodepointWidth OutputCells RowWrite Cursor TextBuffer FontBuffer TerminalInput RenderSettings TerminalApi AdaptDispatch AdaptOps AdaptModes AdaptStrings TermDispatch.

Local Open Scope Z_scope.

Module Terminal.
Section Terminal.
Context {W : Type} `{ITerminalApi W} {GW : GlyphWidth} (statics : Statics) (garbage : wchar) (GetPerceivableColor : Z -> Z -> Z).
Context (Feature_ScrollbarMarks : bool) (ColorFromHLS : Z -> Z -> Z -> color) (fontMemory : FontBuffer).

#[local] Abbreviation D := (M (Adapter W)).

(** The methods of [ITermDispatch]; [InvokeMacro] needs the machine. *)
Definition adapter_call (c : TermCall) : D bool :=
  match c with
  | Print ch => Adapt.Print statics garbage ch ;; ret true
  | PrintString s => Adapt.PrintString statics garbage s ;; ret true
  | CursorUp n => Adapt.CursorUp n
  | CursorDown n => Adapt.CursorDown n
  | CursorForward n => Adapt.CursorForward n
  | CursorBackward n => Adapt.CursorBackward n
  | CursorNextLine n => Adapt.CursorNextLine n
  | CursorPrevLine n => Adapt.CursorPrevLine n
  | CursorHorizontalPositionAbsolute n => Adapt.CursorHorizontalPositionAbsolute n
  | VerticalLinePositionAbsolute n => Adapt.VerticalLinePositionAbsolute n
  | HorizontalPositionRelative n => Adapt.HorizontalPositionRelative n
  | VerticalPositionRelative n => Adapt.VerticalPositionRelative n
  | CursorPosition l c => Adapt.CursorPosition l c
  | CursorSaveState => Adapt.CursorSaveState
  | CursorRestoreState => Adapt.CursorRestoreState
  | InsertCharacter n => Adapt.InsertCharacter statics garbage n
  | DeleteCharacter n => Adapt.DeleteCharacter statics garbage n
  | ScrollUp n => Adapt.ScrollUp statics garbage n
  | ScrollDown n => Adapt.ScrollDown statics garbage n
  | InsertLine n => Adapt.InsertLine statics garbage n
  | DeleteLine n => Adapt.DeleteLine statics garbage n
  | SetKeypadMode b => AdaptModes.SetKeypadMode b
  | SetAnsiMode b => AdaptModes.SetAnsiMode b
  | SetTopBottomScrollingMargins t b => AdaptModes.SetTopBottomScrollingMargins t b
  | WarningBell => AdaptModes.WarningBell
  | CarriageReturn => Adapt.CarriageReturn
  | LineFeed t => AdaptModes.LineFeed t
  | ReverseLineFeed => Adapt.ReverseLineFeed statics garbage
  | SetWindowTitle t => AdaptModes.SetWindowTitle t
  | HorizontalTabSet => AdaptModes.HorizontalTabSet
  | ForwardTab n => AdaptModes.ForwardTab n
  | BackwardsTab n => AdaptModes.BackwardsTab n
  | TabClear t => AdaptModes.TabClear t
  | SetColorTableEntry i c => AdaptModes.SetColorTableEntry GetPerceivableColor i c
  | SetDefaultForeground c => AdaptModes.SetDefaultForeground GetPerceivableColor c
  | SetDefaultBackground c => AdaptModes.SetDefaultBackground GetPerceivableColor c
  | AssignColor i f b => AdaptModes.AssignColor GetPerceivableColor i f b
  | EraseInDisplay t => AdaptOps.EraseInDisplay statics garbage t
  | EraseInLine t => AdaptOps.EraseInLine statics garbage t
  | EraseCharacters n => AdaptOps.EraseCharacters statics garbage n
  | SelectiveEraseInDisplay t => AdaptOps.SelectiveEraseInDisplay garbage t
  | SelectiveEraseInLine t => AdaptOps.SelectiveEraseInLine garbage t
  | ChangeAttributesRectangularArea t l b r a => AdaptOps.ChangeAttributesRectangularArea t l b r a
  | ReverseAttributesRectangularArea t l b r a => AdaptOps.ReverseAttributesRectangularArea t l b r a
  | CopyRectangularArea t l b r p dt dl dp => AdaptOps.CopyRectangularArea statics garbage t l b r p dt dl dp
  | FillRectangularArea ch t l b r => AdaptOps.FillRectangularArea statics garbage ch t l b r
  | EraseRectangularArea t l b r => AdaptOps.EraseRectangularArea statics garbage t l b r
  | SelectiveEraseRectangularArea t l b r => AdaptOps.SelectiveEraseRectangularArea garbage t l b r
  | SelectAttributeChangeExtent e => AdaptOps.SelectAttributeChangeExtent e
  | SetGraphicsRendition o => AdaptModes.SetGraphicsRendition o
  | SetLineRendition r => AdaptOps.SetLineRendition statics garbage r
  | SetCharacterProtectionAttribute o => AdaptModes.SetCharacterProtectionAttribute o
  | PushGraphicsRendition o => AdaptModes.PushGraphicsRendition o
  | PopGraphicsRendition => AdaptModes.PopGraphicsRendition
  | SetMode p => AdaptModes.SetMode statics garbage p
  | ResetMode p => AdaptModes.ResetMode statics garbage p
  | RequestMode p => AdaptModes.RequestMode p
  | DeviceStatusReport t id => AdaptModes.DeviceStatusReport t id
  | DeviceAttributes => AdaptModes.DeviceAttributes
  | SecondaryDeviceAttributes => AdaptModes.SecondaryDeviceAttributes
  | TertiaryDeviceAttributes => AdaptModes.TertiaryDeviceAttributes
  | Vt52DeviceAttributes => AdaptModes.Vt52DeviceAttributes
  | RequestTerminalParameters p => AdaptModes.RequestTerminalParameters p
  | DesignateCodingSystem c => AdaptModes.DesignateCodingSystem c
  | Designate94Charset g c => AdaptModes.Designate94Charset g c
  | Designate96Charset g c => AdaptModes.Designate96Charset g c
  | LockingShift g => AdaptModes.LockingShift g
  | LockingShiftRight g => AdaptModes.LockingShiftRight g
  | SingleShift g => AdaptModes.SingleShift g
  | AcceptC1Controls b => Adapt.AcceptC1Controls b
  | SoftReset => AdaptModes.SoftReset
  | HardReset => AdaptModes.HardReset statics garbage
  | ScreenAlignmentPattern => AdaptModes.ScreenAlignmentPattern statics garbage
  | SetCursorStyle s => AdaptModes.SetCursorStyle s
  | SetCursorColor c => AdaptModes.SetCursorColor GetPerceivableColor c
  | SetClipboard s => AdaptModes.SetClipboard s
  | WindowManipulation f p1 p2 => AdaptModes.WindowManipulation f p1 p2
  | AddHyperlink u p => AdaptModes.AddHyperlink u p
  | EndHyperlink => AdaptModes.EndHyperlink
  | DoConEmuAction s => AdaptStrings.DoConEmuAction s
  | DoITerm2Action s => AdaptStrings.DoITerm2Action Feature_ScrollbarMarks s
  | DoFinalTermAction s => AdaptStrings.DoFinalTermAction Feature_ScrollbarMarks s
  | InvokeMacro _ => ret true
  | PlaySounds p => AdaptStrings.PlaySounds p
  end.

(** ** The machine *)

Context {connected : bool}.
#[local] Abbreviation SM := (StateMachine (OutputStateMachineEngine connected (Adapter W)) Handler VTInt).
Context (run_macro : VTInt -> M SM unit) (write_terminal : wstring -> M (Adapter W) bool).

(** A method of the adapter, called by the machine. *)
Definition lift {A} (m : D A) : M SM A := fun s =>
  let e := _engine s in
  let a := _dispatch e in
  let '(a', r) := m (set_world (PutParserModes (_parserMode s) (world a)) a) in
  (set_parserMode (GetParserModes (world a')) (set_engine (mkEngine a' (_lastPrintedChar e)) s), r).

Definition machine_call (c : TermCall) : M SM bool :=
  match c with
  | InvokeMacro macroId =>
      hasMacros <- get (fun s => bool_decide (is_Some (_macroBuffer (_dispatch (_engine s))))) ;;
      (if hasMacros : bool then OnCsiComplete macroId else ret tt) ;;
      ret true
  | _ => lift (adapter_call c)
  end.

#[global] Instance adapter_dispatch : ITermDispatch connected (Adapter W) Handler VTInt := {
  call := machine_call;
  handler_call c := lift (AdaptStrings.handlerCall fontMemory c);
  StringHandler_run h ch := lift (AdaptStrings.run_handler GetPerceivableColor ColorFromHLS fontMemory h ch);
  Callback_run := run_macro;
  WriteTerminalW str := lift (write_terminal str)
}.

Lemma lift_frame {A} (m : D A) : keeps frame (lift m).
Proof. intros s. unfold lift. by destruct (m _) as [a' r]. Qed.

(** The adapter honours the contract of the output engine: whatever it is asked, it leaves
    the parser alone but for its modes and the completion callback. *)
#[global] Instance adapter_framed : FramedDispatch connected (Adapter W) Handler VTInt.
Proof.
  split; intros; cbn [call handler_call StringHandler_run WriteTerminalW adapter_dispatch]; try apply lift_frame.
  destruct x; try apply lift_frame. cbn [machine_call].
  apply keeps_bind; [exact _|intros s; by split|]. intros hasMacros.
  apply keeps_bind; [exact _|destruct hasMacros; intros s; by split|intros ? s; by split].
Qed.

End Terminal.
End Terminal.
