(* ===== verification/TerminalCoreLaws.v ===== *)
(** * The terminal core satisfies the laws of the interface

    Discharges [ApiLaws] for the terminal of TerminalCore.v, so that what is proved of the
    adapter over any lawful terminal holds over this one. *)

From S2P Require Import Prelude Effects EnumSet DispatchTypes StateMachine Geometry LineRendition Viewport TextColor TextAttribute Rle RleLaws RleSpec Row RowLayout RowSpec RowTheorems CodepointWidth OutputCells RowWrite OutputText Cursor TextBuffer TextBufferSpec TextBufferRing TextBufferPage TerminalInput RenderSettings TerminalApi AdaptDispatch AdaptScreen AdaptPrint AdaptOps TerminalCore.

Local Open Scope Z_scope.

Section Laws.
Context (GetPatterns : TextBuffer -> Z -> Z -> list (point * point)) (linkPattern : wstring)
  (UserResize : size -> M CoreTerminal unit).

#[local] Existing Instance Core.Core_api.
#[local] Abbreviation api := (Core.Core_api GetPatterns linkPattern UserResize).

Lemma view_put_active tb t : TerminalApi.view (H := api) (Core.put_active tb t) = vset_buffer tb (TerminalApi.view (H := api) t).
Proof.
  destruct t. unfold Core.put_active, TerminalApi.view, vset_buffer. cbn.
  unfold Core.GetViewport, Core._GetMutableViewport, Core._activeBuffer, Core._inAltBuffer. cbn. by destruct _altBuffer.
Qed.

#[global] Instance Core_laws : ApiLaws CoreTerminal (H := api).
Proof.
  split; try (intros; unfold effect; intros; eexists; split; reflexivity); try done.
  - intros. apply view_put_active.
  - intros a w. eexists. split; [reflexivity|]. apply view_put_active.
  - intros b w. exists w, true. split; [done|]. by destruct w.
  - intros c w. exists w, CP_UTF8. split; [done|]. by destruct w.
Qed.

#[local] Abbreviation view := (TerminalApi.view (H := api)).

(** ** The line feed *)

(** What the steps of a line feed leave alone, but for the one that moves the viewport. *)
Record same_core (t t' : CoreTerminal) : Prop := {
  sm_view : view t' = vset_buffer (Core._activeBuffer t') (view t);
  sm_alt : Core._inAltBuffer t' = Core._inAltBuffer t;
  sm_viewport : _mutableViewport t' = _mutableViewport t
}.

#[local] Instance same_core_preorder : PreOrder same_core.
Proof.
  split; [by intros []|]. intros t1 t2 t3 [V1 A1 M1] [V2 A2 M2]. split; [by rewrite V2, V1|congruence..].
Qed.

Definition core_does {A} (m : M CoreTerminal A) (t : CoreTerminal) (v : A) (s : screen) : Prop :=
  exists t', m t = (t', Ok v) /\ screen_of (Core._activeBuffer t') s /\ same_core t t'.

Lemma core_does_bind {A B} (m : M CoreTerminal A) (k : A -> M CoreTerminal B) t v s u s' :
  core_does m t v s -> (forall t1, screen_of (Core._activeBuffer t1) s -> same_core t t1 -> core_does (k v) t1 u s') ->
  core_does (bind m k) t u s'.
Proof.
  intros (t1 & E & Hs & Hq) Hk. destruct (Hk t1 Hs Hq) as (t2 & E2 & Hs2 & Hq2).
  exists t2. split_and!; [by rewrite (bind_Ok _ _ _ _ _ E)|done|by etrans].
Qed.

Lemma core_does_active {A} (m : M TextBuffer A) t v s :
  (exists tb, m (Core._activeBuffer t) = (tb, Ok v) /\ screen_of tb s) -> core_does (Core.active m) t v s.
Proof.
  intros (tb & E & Hs). exists (Core.put_active tb t). unfold Core.active. rewrite E.
  assert (Ea : Core._activeBuffer (Core.put_active tb t) = tb).
  { unfold Core._activeBuffer, Core.put_active. destruct t as [? []]; done. }
  split_and!; [done|by rewrite Ea|]. split; [by rewrite view_put_active, Ea| |].
  - unfold Core._inAltBuffer, Core.put_active. by destruct t as [? []].
  - unfold Core.put_active. by destruct (_altBuffer t).
Qed.

(** A change of what the adapter does not see. *)
Lemma core_does_modify f t s :
  screen_of (Core._activeBuffer t) s -> same_core t (f t) -> Core._activeBuffer (f t) = Core._activeBuffer t ->
  core_does (modify f) t tt s.
Proof. intros Hs Hf Ea. exists (f t). by split_and!; [|rewrite Ea|]. Qed.

(** The ring turns: a line is lost and a blank one gained. *)
Definition turn (s : screen) : screen :=
  mkScreen (set_pg_lines (tail (pg_lines (sc_page s)) ++ [blank_line (pg_width (sc_page s)) (pg_attrs (sc_page s))]) (sc_page s)) (sc_delay s).

Lemma circle_screen tb s : screen_of tb s ->
  exists tb', IncrementCircularBuffer false tb = (tb', Ok true) /\ screen_of tb' (turn s).
Proof.
  intros [[Hh Hc Ha] Hd]. destruct (pg_lines (sc_page s)) as [|l ls] eqn:El.
  { pose proof (holds_length _ _ _ Hh) as Hl. pose proof (hd_first _ _ _ Hh). cbn in Hl. lia. }
  destruct (IncrementCircularBuffer_holds tb _ l ls false Hh) as (tb' & E & H' & _ & Hc' & Ha' & _).
  exists tb'. split; [done|]. unfold turn. rewrite El. cbn [tail]. split; [split|]; cbn [sc_page sc_delay set_pg_lines pg_width pg_lines pg_cursor pg_attrs].
  - by rewrite <- Ha.
  - by rewrite Hc'.
  - by rewrite Ha'.
  - by rewrite Hc'.
Qed.

Lemma wrap_flag_screen tb s l f : screen_of tb s -> pg_lines (sc_page s) !! row_of (sc_page s) = Some l -> on_page (sc_page s) ->
  exists tb', on_row (y (pg_cursor (sc_page s))) (modify (SetWrapForced f)) tb = (tb', Ok tt) /\
    screen_of tb' (mkScreen (set_pg_lines (<[row_of (sc_page s) := set_l_wrap f l]> (pg_lines (sc_page s))) (sc_page s)) (sc_delay s)).
Proof.
  intros [Hp Hd] Hl Hon. replace (y (pg_cursor (sc_page s))) with (Z.of_nat (row_of (sc_page s))) by (unfold row_of, on_page in *; lia).
  destruct (on_row_holds tb _ _ (po_holds _ _ Hp) (row_of (sc_page s)) l (set_l_wrap f l) (modify (SetWrapForced f)) tt Hl) as (rows & E & H').
  { intros r Hs. eexists. split; [done|]. by apply shows_wrap. }
  { done. }
  eexists. split; [exact E|]. split; [by apply page_storage|done].
Qed.

(** The viewport follows the cursor. *)
Lemma follow_cursor_does p newRows t :
  Core._inAltBuffer t = false -> Height (_mutableViewport t) <= Height (GetSize (Core._activeBuffer t)) ->
  exists t', Core.follow_cursor p newRows t = (t', Ok tt) /\ Core._activeBuffer t' = Core._activeBuffer t /\
    view t' = vset_viewport (Core.GetViewport t') (view t) /\ Core._inAltBuffer t' = false /\
    Top (_mutableViewport t') =
      (if BottomInclusive (_mutableViewport t) <? y p then Z.max 0 (y p - (Height (_mutableViewport t) - 1)) else Top (_mutableViewport t)) /\
    Height (_mutableViewport t') = Height (_mutableViewport t).
Proof.
  intros Halt Hfit. unfold Core.follow_cursor, bind at 1, get at 1. cbv zeta. set (v := _mutableViewport t) in *.
  set (newTop := Z.max 0 (y p - (Height v - 1))).
  set (amount := Z.max 0 (y p - BottomInclusive v)).
  set (updated := (0 <? amount) && negb (newTop =? Top v)).
  set (vp := if updated then FromDimensionsSize (Point 0 newTop) (Dimensions v) else v).
  assert (Htop : Top vp = (if BottomInclusive v <? y p then newTop else Top v)).
  { unfold vp, updated, amount. destruct (Z.ltb_spec (BottomInclusive v) (y p)), (Z.ltb_spec 0 (Z.max 0 (y p - BottomInclusive v))); try lia; cbn [andb].
    - by destruct (Z.eqb_spec newTop (Top v)).
    - done. }
  assert (Hh : Height vp = Height v).
  { unfold vp. destruct updated; [|done]. clearbody newTop. unfold Height, BottomExclusive, Viewport.Top, FromDimensionsSize, Dimensions. cbn. unfold Height, BottomExclusive, Viewport.Top. lia. }
  assert (Hstep : (if updated then modify (fun t => Core.set_viewport (FromDimensionsSize (Point 0 newTop) (Dimensions v)) (_scrollOffset t) t)
     else ret tt) t = (Core.set_viewport vp (_scrollOffset t) t, Ok tt)) by (unfold vp; destruct updated; [done|by destruct t]).
  rewrite (bind_Ok _ _ _ _ _ Hstep). set (t1 := Core.set_viewport vp (_scrollOffset t) t).
  assert (Hoff : forall o, view (Core.set_viewport vp o t) = vset_viewport (Core.GetViewport (Core.set_viewport vp o t)) (view t) /\
     Core._activeBuffer (Core.set_viewport vp o t) = Core._activeBuffer t /\ Core._inAltBuffer (Core.set_viewport vp o t) = false)
    by (intros o; split_and!; [done|done|exact Halt]).
  assert (Hsecond : exists o b, (if updated || negb (newRows =? 0) then
       oldScrollOffset <- get _scrollOffset ;;
       selectionActive <- get (fun t => bool_decide (is_Some (_selection t))) ;;
       let scrollToOutput := negb selectionActive && (oldScrollOffset =? 0) in
       let offset := if scrollToOutput then 0 else oldScrollOffset + amount + newRows in
       hi <- get (fun t => Height (GetSize (Core._activeBuffer t)) - Height (_mutableViewport t)) ;;
       if hi <? 0 then undefined
       else
         let offset := Z.max 0 (Z.min offset hi) in
         modify (fun t => Core.set_viewport (_mutableViewport t) offset t) ;;
         ret (updated || negb (oldScrollOffset =? offset))
     else ret updated) t1 = (Core.set_viewport vp o t, Ok b)).
  { destruct (updated || negb (newRows =? 0)); [|by exists (_scrollOffset t), updated]. unfold bind, get. cbv zeta.
    change (Core._activeBuffer t1) with (Core._activeBuffer t). change (_mutableViewport t1) with vp. rewrite Hh.
    rewrite (proj2 (Z.ltb_ge _ 0)) by lia. do 2 eexists. done. }
  destruct Hsecond as (o & b & E2). rewrite (bind_Ok _ _ _ _ _ E2). destruct (Hoff o) as (V & Ea & Al).
  destruct b; (eexists; split_and!; [done|exact Ea|exact V|exact Al|exact Htop|exact Hh]).
Qed.

Lemma core_viewport t : Core._inAltBuffer t = false ->
  top (Core.GetViewport t) = Top (_mutableViewport t) /\ Geometry.bottom (Core.GetViewport t) = BottomInclusive (_mutableViewport t) + 1.
Proof. intros E. unfold Core.GetViewport, Core._GetMutableViewport. by rewrite E. Qed.

(** The rows that are pushed out at the top, when the cursor moves below the last one. *)
Lemma push_rows_does t s (b : bool) :
  screen_of (Core._activeBuffer t) s ->
  core_does (iterM (fun _ =>
    Core.active (IncrementCircularBuffer false) ;;
    modify (fun t => Core.set_selection (match _selection t with Some s => Core.shift_selection s | None => None end) t))
    (repeat tt (if b then 1 else 0)) ;;
    (if b then modify (Core.set_tree []) else ret tt)) t tt (if b then turn s else s).
Proof.
  intros Hs. destruct b; [|by exists t].
  eapply core_does_bind; [|intros t1 H1 _; by apply core_does_modify].
  cbn [repeat iterM]. eapply core_does_bind; [|intros t1 H1 _; exists t1; by split_and!].
  eapply core_does_bind; [apply core_does_active, circle_screen, Hs|intros t1 H1 _]. by apply core_does_modify.
Qed.

(** The last part: the cursor, the viewport and the marks. *)
Lemma settle_cursor_does t s p newRows :
  screen_of (Core._activeBuffer t) s -> 0 <= y p < Z.of_nat (length (pg_lines (sc_page s))) ->
  fits_viewport (Core.GetViewport t) (sc_page s) ->
  exists t', (Core.active (with_cursor (SetPosition p)) ;;
     alt <- get Core._inAltBuffer ;;
     (if alt : bool then ret tt else Core.follow_cursor p newRows) ;;
     if negb (newRows =? 0) then
       modify (fun t => Core.set_marks (List.filter (fun m => 0 <=? y (m_start m)) (map (Core.shift_mark newRows) (_scrollMarks t))) (_currentPromptState t) t) ;;
       Core.active (TriggerScrollBy (Point 0 (- newRows)))
     else ret tt) t = (t', Ok tt) /\
    view t' = vset_viewport (Core.GetViewport t') (vset_buffer (Core._activeBuffer t') (view t)) /\
    screen_of (Core._activeBuffer t') (move_to p s) /\ fits_viewport (Core.GetViewport t') (sc_page s) /\
    Geometry.bottom (Core.GetViewport t') - top (Core.GetViewport t') = Geometry.bottom (Core.GetViewport t) - top (Core.GetViewport t) /\
    (y p < Geometry.bottom (Core.GetViewport t) -> top (Core.GetViewport t') = top (Core.GetViewport t)).
Proof.
  intros Hs Hy Hfit.
  destruct (core_does_active (with_cursor (SetPosition p)) t tt (move_to p s)) as (t1 & E1 & S1 & [V1 A1 M1]).
  { apply (move_screen (fun _ => p)), Hs. }
  assert (G1 : Core.GetViewport t1 = Core.GetViewport t) by (apply (f_equal v_viewport) in V1; exact V1).
  rewrite (bind_Ok _ _ _ _ _ E1). unfold bind at 1, get.
  assert (H2 : exists t2, (if Core._inAltBuffer t1 then ret tt else Core.follow_cursor p newRows) t1 = (t2, Ok tt) /\
     Core._activeBuffer t2 = Core._activeBuffer t1 /\ view t2 = vset_viewport (Core.GetViewport t2) (view t1) /\
     fits_viewport (Core.GetViewport t2) (sc_page s) /\
     Geometry.bottom (Core.GetViewport t2) - top (Core.GetViewport t2) = Geometry.bottom (Core.GetViewport t) - top (Core.GetViewport t) /\
     (y p < Geometry.bottom (Core.GetViewport t) -> top (Core.GetViewport t2) = top (Core.GetViewport t))).
  { destruct (Core._inAltBuffer t1) eqn:Ea.
    { exists t1. rewrite G1. split_and!; [done|done|by rewrite <- G1|done..]. }
    destruct (core_viewport t1 Ea) as [Et Eb]. rewrite <- G1 in *. unfold fits_viewport in Hfit. rewrite Et, Eb in Hfit.
    destruct (follow_cursor_does p newRows t1 Ea) as (t2 & E2 & B2 & V2 & A2 & T2 & H2).
    { pose proof (po_holds _ _ (so_page _ _ S1)) as Hh. rewrite (Height_holds _ _ _ Hh). cbn [move_to sc_page set_pg_cursor pg_lines].
      unfold Height, BottomExclusive, BottomInclusive, Viewport.Top in *. lia. }
    destruct (core_viewport t2 A2) as [Et2 Eb2]. exists t2. split_and!; [done..| | |];
      unfold fits_viewport; rewrite ?Et2, ?Eb2, ?Et, ?Eb; rewrite T2 in *;
      unfold Height, BottomExclusive, BottomInclusive, Viewport.Top in *;
      match goal with |- context [?u <? ?v] => destruct (Z.ltb_spec u v) end; lia. }
  destruct H2 as (t2 & E2 & B2 & V2 & F2 & H2 & K2). rewrite (bind_Ok _ _ _ _ _ E2).
  assert (V : view t2 = vset_viewport (Core.GetViewport t2) (vset_buffer (Core._activeBuffer t2) (view t))) by (rewrite V2, V1, B2; done).
  destruct (negb (newRows =? 0)); [|exists t2; rewrite B2 in *; by split_and!].
  match goal with |- context [modify ?f] => set (marks := f) end.
  destruct (core_does_bind (modify marks) (fun _ => Core.active (TriggerScrollBy (Point 0 (- newRows)))) t2 tt (move_to p s) tt (move_to p s))
    as (t3 & E3 & S3 & [V3 A3 M3]).
  { apply core_does_modify; [by rewrite B2|done|done]. }
  { intros t3 H3 _. apply core_does_active, request_screen, H3. }
  assert (G3 : Core.GetViewport t3 = Core.GetViewport t2) by (apply (f_equal v_viewport) in V3; exact V3).
  exists t3. rewrite G3. split_and!; [exact E3|rewrite V3, V; done|done..].
Qed.

#[global] Instance Core_feeds : FeedLaws CoreTerminal (H := api).
Proof.
  intros t s b f Hs Hon Hfit. cbn [api_LineFeed GetTextBuffer Core.Core_api TerminalApi.GetViewport] in *.
  destruct (on_page_line _ Hon) as (l & Hl & Hrow).
  unfold Core.LineFeed, bind at 1, get. rewrite (po_cursor _ _ (so_page _ _ Hs)).
  set (s1 := mkScreen (set_pg_lines (<[row_of (sc_page s) := set_l_wrap f l]> (pg_lines (sc_page s))) (sc_page s)) (sc_delay s)).
  destruct (core_does_active (on_row (y (pg_cursor (sc_page s))) (modify (SetWrapForced f))) t tt s1) as (t1 & E1 & S1 & C1).
  { by apply wrap_flag_screen. }
  rewrite (bind_Ok _ _ _ _ _ E1).
  unfold Core._AdjustCursorPosition, bind at 1, get. rewrite (Height_holds _ _ _ (po_holds _ _ (so_page _ _ S1))).
  replace (length (pg_lines (sc_page s1))) with (length (pg_lines (sc_page s))) by (cbn; by rewrite length_insert).
  cbn [x y]. set (n := Z.of_nat (length (pg_lines (sc_page s)))). set (yy := y (pg_cursor (sc_page s))).
  set (full := n <=? yy + 1). set (newRows := Z.max 0 (yy + 1 - n + 1)). unfold on_page in Hon. fold n yy in Hon.
  assert (En : newRows = if full then 1 else 0) by (unfold newRows, full; destruct (Z.leb_spec n (yy + 1)); lia).
  replace (Z.to_nat newRows) with (if full then 1%nat else 0%nat) by (rewrite En; by destruct full).
  rewrite <- bind_assoc.
  destruct (push_rows_does t1 s1 full S1) as (t2 & E2 & S2 & C2). rewrite (bind_Ok _ _ _ _ _ E2).
  assert (Elen : length (pg_lines (sc_page (if full then turn s1 else s1))) = length (pg_lines (sc_page s))).
  { destruct full; cbn [turn s1 sc_page set_pg_lines pg_lines]; [|apply length_insert].
    rewrite length_app, length_tl, length_insert. apply lookup_lt_Some in Hl. cbn. lia. }
  assert (C12 : same_core t t2) by (by etrans). destruct C12 as [V12 _ _].
  assert (G12 : Core.GetViewport t2 = Core.GetViewport t) by (apply (f_equal v_viewport) in V12; exact V12).
  set (p := Point (if b then 0 else x (pg_cursor (sc_page s))) (yy + 1 - newRows)).
  destruct (settle_cursor_does t2 (if full then turn s1 else s1) p newRows S2) as (t3 & E3 & V3 & S3 & F3 & H3 & K3).
  { rewrite Elen. fold n. cbn [p y]. rewrite En. unfold full. destruct (Z.leb_spec n (yy + 1)); lia. }
  { unfold fits_viewport in *. rewrite Elen, G12. exact Hfit. }
  exists t3, (Core._activeBuffer t3), (Core.GetViewport t3). unfold fits_viewport in *. rewrite Elen in F3. rewrite G12 in H3.
  split; [exact E3|]. split; [by rewrite V3, V12|]. split; [|split; [exact F3|split; [exact H3|]]].
  2: { rewrite G12 in K3. intros Hlow. apply K3. cbn [p y]. fold yy in Hlow. rewrite En. destruct full; lia. }
  replace (feed b f s) with (move_to p (if full then turn s1 else s1)); [exact S3|].
  unfold feed. rewrite Hl. cbv zeta. change (set_pg_lines _ _) with (sc_page s1). unfold newline, move_to, TextBufferPage.bottom.
  replace (length (pg_lines (sc_page s1))) with (length (pg_lines (sc_page s))) by (cbn; by rewrite length_insert).
  change (y (pg_cursor (sc_page s1))) with yy. fold n. unfold p, full in *. rewrite En.
  destruct (Z.leb_spec n (yy + 1)), (Z.leb_spec (yy + 1) (n - 1)); try lia; cbn; unfold set_pg_cursor; cbn; repeat f_equal; lia.
Qed.
End Laws.
