(* ===== verification/VtRendererSpec.v ===== *)
(** * The VT renderer and the terminal it draws on

    The renderer keeps the attributes it last asked the other terminal for and writes only
    the SGR sequences for what differs ([Vt.UpdateDrawingBrushes]).  The theorems compose it
    with the machine that reads what it writes: as long as the two agree on the attributes
    that are shown, they agree after every change of the brushes, on the attributes asked
    for. *)

From S2P Require Import Prelude Effects EnumSet DispatchTypes StateMachine StateMachineLaws StateMachineSeq Utils OutputEngine OutputEngineLaws Geometry LineRendition Viewport InputEvents TermDispatch AdaptCursor TextColor TextAttribute Bitset Bitmap MacroBuffer AdaptGraphics Row CodepointWidth OutputCells RowWrite Cursor TextBuffer FontBuffer TerminalInput RenderSettings TerminalApi AdaptDispatch AdaptScreen TextBufferPage TextBufferSpec AdaptPrint AdaptOps AdaptModes AdaptStrings AdaptTerminal VtRenderer.

Local Open Scope Z_scope.

(** ** What is shown of an attribute *)

(** The flags for which the renderer has a sequence; grid lines but the top one, which is
    the overline, have none. *)
Definition Shown : CharacterAttributes :=
  Z.lor Intense (Z.lor Faint (Z.lor Italics (Z.lor Blinking (Z.lor Invisible (Z.lor CrossedOut
    (Z.lor Underlined (Z.lor DoublyUnderlined (Z.lor TopGridline ReverseVideo)))))))).

Definition agrees (a b : TextAttribute) : Prop :=
  _foreground a = _foreground b /\ _background a = _background b /\ Z.land (_attrs a) Shown = Z.land (_attrs b) Shown.

#[export] Instance agrees_equivalence : Equivalence agrees.
Proof.
  split.
  - by intros a.
  - intros a b (Hf & Hb & Ha). by split_and!.
  - intros a b c (Hf & Hb & Ha) (Hf' & Hb' & Ha'). split_and!; by etrans.
Qed.

#[export] Instance SetForeground_agrees c : Proper (agrees ==> agrees) (SetForeground c).
Proof. intros a b (Hf & Hb & Ha). by split_and!. Qed.

#[export] Instance SetBackground_agrees c : Proper (agrees ==> agrees) (SetBackground c).
Proof. intros a b (Hf & Hb & Ha). by split_and!. Qed.

Lemma UpdateFlag_land x f b m : Z.land (UpdateFlag x f b) m = UpdateFlag (Z.land x m) (Z.land f m) b.
Proof.
  apply Z.bits_inj'. intros i _. unfold UpdateFlag.
  destruct b; rewrite ?Z.land_spec, ?Z.lor_spec, ?Z.ldiff_spec, ?Z.land_spec;
    by destruct (Z.testbit x i), (Z.testbit f i), (Z.testbit m i).
Qed.

#[export] Instance update_attr_agrees f b : Proper (agrees ==> agrees) (update_attr f b).
Proof.
  intros x y (Hf & Hb & Ha). split_and!; [done..|]. cbn [update_attr set_attrs _attrs].
  by rewrite !UpdateFlag_land, Ha.
Qed.

(** After a reset every two attributes agree. *)
Definition reset_attr (a : TextAttribute) : TextAttribute :=
  SetDefaultRenditionAttributes (SetDefaultForeground (SetDefaultBackground a)).

Lemma land_ldiff_subset x s r : Z.land s r = s -> Z.land (Z.ldiff x r) s = 0.
Proof.
  intros Hs. apply Z.bits_inj'. intros i _.
  assert (Hi : Z.testbit s i && Z.testbit r i = Z.testbit s i) by (by rewrite <- Z.land_spec, Hs).
  rewrite Z.land_spec, Z.ldiff_spec, Z.testbit_0_l.
  by destruct (Z.testbit x i), (Z.testbit r i), (Z.testbit s i).
Qed.

Lemma reset_agrees a b : agrees (reset_attr a) (reset_attr b).
Proof. split_and!; [done..|]. cbn. by rewrite !land_ldiff_subset. Qed.

(** The flags, as powers of two. *)
Definition is_flag (f : Z) : Prop := exists k, f = 2 ^ k /\ 0 <= k.

Lemma update_same f a : is_flag f -> update_attr f (has_attr f a) a = a.
Proof. intros (k & E & Hk). by eapply update_has. Qed.

Lemma update_comm f g b c a :
  Z.land f g = 0 -> update_attr f b (update_attr g c a) = update_attr g c (update_attr f b a).
Proof.
  intros Hfg. unfold update_attr, set_attrs, UpdateFlag; cbn. f_equal. apply Z.bits_inj'. intros i _.
  assert (Hi : Z.testbit f i && Z.testbit g i = false) by (by rewrite <- Z.land_spec, Hfg, Z.testbit_0_l).
  destruct b, c; rewrite ?Z.lor_spec, ?Z.ldiff_spec, ?Z.lor_spec, ?Z.ldiff_spec;
    by destruct (Z.testbit (_attrs a) i), (Z.testbit f i), (Z.testbit g i).
Qed.

(** The flags of a list copied from one attribute to another. *)
Definition copy_flags (fs : list Z) (from : TextAttribute) (a : TextAttribute) : TextAttribute :=
  foldl (fun a f => update_attr f (has_attr f from) a) a fs.

Definition shown_flags : list Z :=
  [Intense; Faint; Underlined; DoublyUnderlined; TopGridline; Italics; Blinking; Invisible; CrossedOut; ReverseVideo].

Lemma copy_flags_colors fs from a :
  _foreground (copy_flags fs from a) = _foreground a /\ _background (copy_flags fs from a) = _background a /\
  _hyperlinkId (copy_flags fs from a) = _hyperlinkId a.
Proof. revert a; induction fs as [|f fs IH]; intros a; [done|]. apply (IH (update_attr f (has_attr f from) a)). Qed.

Lemma copy_bit fs from a i :
  Forall is_flag fs -> 0 <= i ->
  Z.testbit (_attrs (copy_flags fs from a)) i =
  if bool_decide (2 ^ i ∈ fs) then Z.testbit (_attrs from) i else Z.testbit (_attrs a) i.
Proof.
  intros Hfs Hi. revert a; induction Hfs as [|f fs (k & -> & Hk) Hfs IH]; intros a; [done|].
  change (copy_flags (2 ^ k :: fs) from a) with (copy_flags fs from (update_attr (2 ^ k) (has_attr (2 ^ k) from) a)).
  rewrite IH. destruct (decide (2 ^ i ∈ fs)) as [Hin|Hin].
  { rewrite !bool_decide_true; [done|by apply elem_of_cons; right|done]. }
  rewrite (bool_decide_false _ Hin). cbn [update_attr set_attrs _attrs]. unfold has_attr, UpdateFlag. rewrite IsFlagSet_pow2 by done.
  destruct (decide (i = k)) as [->|Hne].
  - rewrite bool_decide_true by (by apply elem_of_cons; left).
    destruct (Z.testbit (_attrs from) k); rewrite ?Z.lor_spec, ?Z.ldiff_spec, Z.pow2_bits_true by done;
      by destruct (Z.testbit (_attrs a) k).
  - rewrite bool_decide_false.
    + destruct (Z.testbit (_attrs from) k); rewrite ?Z.lor_spec, ?Z.ldiff_spec, Z.pow2_bits_false by done;
        by destruct (Z.testbit (_attrs a) i).
    + rewrite elem_of_cons. intros [E|]; [|done]. apply Hne. by apply (Z.pow_inj_r 2).
Qed.

Lemma shown_are_flags : Forall is_flag shown_flags.
Proof.
  repeat constructor; [exists 0|exists 7|exists 5|exists 6|exists 10|exists 1|exists 2|exists 3|exists 4|exists 14]; done.
Qed.

Lemma Shown_bits i : 0 <= i -> Z.testbit Shown i = bool_decide (2 ^ i ∈ shown_flags).
Proof.
  intros Hi. destruct (Z.ltb_spec i 16).
  - assert (Hall : forallb (fun n => Bool.eqb (Z.testbit Shown (Z.of_nat n)) (bool_decide (2 ^ Z.of_nat n ∈ shown_flags))) (seq 0 16) = true)
      by (by vm_compute).
    rewrite forallb_forall in Hall. specialize (Hall (Z.to_nat i) ltac:(apply in_seq; lia)).
    rewrite Z2Nat.id in Hall by done. by apply Bool.eqb_prop.
  - rewrite Z.bits_above_log2 by (try done; change (Z.log2 Shown) with 14; lia).
    rewrite bool_decide_false; [done|]. intros Hin.
    assert (Hlt : Forall (fun f => f < 2 ^ 16) shown_flags) by (repeat constructor).
    apply list_elem_of_In in Hin. rewrite List.Forall_forall in Hlt. apply Hlt in Hin.
    apply Z.pow_lt_mono_r_iff in Hin; lia.
Qed.

(** With its flags and colours copied, an attribute agrees. *)
Lemma copied_agrees from a :
  _foreground a = _foreground from -> _background a = _background from -> agrees (copy_flags shown_flags from a) from.
Proof.
  intros Hf Hb. destruct (copy_flags_colors shown_flags from a) as (Ef & Eb & _).
  split_and!; [by rewrite Ef|by rewrite Eb|]. apply Z.bits_inj'. intros i Hi.
  rewrite !Z.land_spec, copy_bit, Shown_bits by (done || apply shown_are_flags).
  case_bool_decide; [done|by rewrite !andb_false_r].
Qed.

(** ** Control sequences with numbers *)

(** The sequence with the numbers as its parameters. *)
Definition csi_of (final : wchar) (ns : list Z) : csi := mkCsi None (map format_unsigned ns) [] final.
Definition sgr (ns : list Z) : csi := csi_of 0x6D ns.
Definition sgr_text (ns : list Z) : wstring := csi_text (sgr ns).

Definition sgr_numbers (ns : list Z) : Prop := (length ns <= 32)%nat /\ Forall (fun n => 0 <= n <= MAX_PARAMETER_VALUE) ns.

Lemma format_unsigned_digits n : 0 <= n -> Forall is_digit (format_unsigned n) /\ decimal (format_unsigned n) = n.
Proof. intros Hn. destruct (format_unsigned_spec n Hn) as (_ & Hd & Hv). by split. Qed.

Lemma csi_of_valid final ns : is_final final -> sgr_numbers ns -> csi_valid (csi_of final ns).
Proof.
  intros Hfin [_ Hns]. split; cbn; [constructor| |constructor|lia|done].
  induction Hns as [|n ns Hn _ IH]; cbn [map]; [constructor|]. constructor; [apply format_unsigned_digits; lia|done].
Qed.

Lemma csi_of_params final ns : sgr_numbers ns -> params_of (csi_params (csi_of final ns)) = ns.
Proof.
  intros [Hl Hns]. unfold params_of. cbn [csi_of csi_params].
  assert (Hmap : param_of <$> map format_unsigned ns = ns).
  { clear Hl. induction Hns as [|n ns Hn _ IH]; [done|]. cbn [map fmap list_fmap]. f_equal; [|exact IH].
    destruct (format_unsigned_spec n ltac:(lia)) as (Hne & _ & Hv). unfold param_of.
    destruct (format_unsigned n); [done|]. change decimal with digits_value. rewrite Hv. lia. }
  rewrite Hmap, take_ge by (unfold MAX_PARAMETER_COUNT; lia).
  case_bool_decide as Ht; [|done]. destruct ns as [|n ns]; [done|]. exfalso. cbn [map params_text] in Ht.
  assert (Hn : 0 <= n) by (inversion_clear Hns; lia).
  destruct (format_unsigned_spec n Hn) as (Hne & _). destruct ns; cbn [map] in Ht; [done|].
  apply app_eq_nil in Ht. by destruct Ht.
Qed.

(** Several SGR sequences applied to an attribute. *)
Fixpoint apply_all (nss : list (list Z)) (ta : TextAttribute) : Result TextAttribute :=
  match nss with
  | [] => Ok ta
  | ns :: nss => let? ta := _ApplyGraphicsOptions ns ta in apply_all nss ta
  end.

Lemma apply_all_app nss1 nss2 ta :
  apply_all (nss1 ++ nss2) ta = bindR (apply_all nss1 ta) (apply_all nss2).
Proof.
  revert ta; induction nss1 as [|ns nss1 IH]; intros ta; [done|]. cbn [app apply_all].
  destruct (_ApplyGraphicsOptions ns ta); cbn [bindR]; [apply IH|done..].
Qed.

(** ** The triple *)

(** The engine that has written sequences and remembers an attribute. *)
Definition drawn (la : TextAttribute) (nss : list (list Z)) (e : VtEngine) : VtEngine :=
  put_lastTextAttributes la (put_buffer (_buffer e ++ concat (map sgr_text nss)) e).

(** The computation succeeds, writes SGR sequences, and what it remembers then is what they
    make of every attribute of [P]. *)
Definition draws (P : TextAttribute -> Prop) (m : V HRESULT) (e : VtEngine) (la : TextAttribute) : Prop :=
  exists nss, Forall sgr_numbers nss /\ m e = (drawn la nss e, Ok S_OK) /\
    forall ta, P ta -> exists ta', apply_all nss ta = Ok ta' /\ agrees la ta'.

Lemma drawn_nothing e : drawn (_lastTextAttributes e) [] e = e.
Proof. unfold drawn. cbn. rewrite app_nil_r. by destruct e. Qed.

Lemma drawn_drawn la1 nss1 la2 nss2 e : drawn la2 nss2 (drawn la1 nss1 e) = drawn la2 (nss1 ++ nss2) e.
Proof. unfold drawn. cbn. by rewrite map_app, concat_app, app_assoc. Qed.

Lemma draws_done e : draws (agrees (_lastTextAttributes e)) (ret S_OK) e (_lastTextAttributes e).
Proof. exists []. split_and!; [done|by rewrite drawn_nothing|]. intros ta Hta. by exists ta. Qed.

Lemma draws_get {A} P (f : VtEngine -> A) (k : A -> V HRESULT) e la : draws P (k (f e)) e la -> draws P (bind (get f) k) e la.
Proof. done. Qed.

(** What is written does not change how the engine goes on, but for what it remembers. *)
Lemma draws_seq P m k e la la' :
  draws P m e la ->
  (forall e1, _lastTextAttributes e1 = la -> _usingSoftFont e1 = _usingSoftFont e -> draws (agrees la) k e1 la') ->
  draws P (m ?; k) e la'.
Proof.
  intros (nss1 & H1 & E1 & S1) Hk.
  destruct (Hk (drawn la nss1 e) eq_refl eq_refl) as (nss2 & H2 & E2 & S2).
  exists (nss1 ++ nss2). split_and!; [by apply Forall_app| |].
  - unfold return_if_failed, bind. rewrite E1. cbn [FAILED]. by rewrite E2, drawn_drawn.
  - intros ta Hta. destruct (S1 ta Hta) as (ta1 & A1 & G1). destruct (S2 ta1 G1) as (ta2 & A2 & G2).
    exists ta2. split; [|done]. by rewrite apply_all_app, A1.
Qed.

(** One sequence and the change it stands for. *)
Lemma draws_one (P : TextAttribute -> Prop) str ns la e (g : TextAttribute -> TextAttribute) (k : V unit) :
  sgr_numbers ns -> str = sgr_text ns -> (forall ta, _ApplyGraphicsOptions ns ta = Ok (g ta)) ->
  (forall e1, _lastTextAttributes e1 = _lastTextAttributes e -> k e1 = (put_lastTextAttributes la e1, Ok tt)) -> (forall ta, P ta -> agrees la (g ta)) ->
  draws P (Vt._Write str ?; ok k) e la.
Proof.
  intros Hns -> Hg Hk HP. exists [ns]. split_and!; [by apply Forall_singleton| |].
  - unfold return_if_failed, Vt._Write, ok, bind, modify, ret. cbn [FAILED]. rewrite Hk by done. unfold drawn. cbn. by rewrite app_nil_r.
  - intros ta Hta. exists (g ta). cbn [apply_all]. rewrite Hg. cbn. split; [done|by apply HP].
Qed.

(** The same change on both sides. *)
Lemma draws_change str ns e (f : TextAttribute -> TextAttribute) :
  sgr_numbers ns -> str = sgr_text ns -> (forall ta, _ApplyGraphicsOptions ns ta = Ok (f ta)) -> Proper (agrees ==> agrees) f ->
  draws (agrees (_lastTextAttributes e)) (Vt._Write str ?; ok (Vt.last_attr f)) e (f (_lastTextAttributes e)).
Proof.
  intros Hns Hstr Hf Hp. apply (draws_one _ _ ns _ _ f); [done..| |].
  - intros e1 E1. unfold Vt.last_attr, modify. by rewrite E1.
  - intros ta Hta. by apply Hp.
Qed.

(** ** Colours *)

(** The colours there are. *)
Definition TextColor_proper (c : TextColor) : Prop :=
  c = TextColor_default \/ (exists n, 0 <= n < 16 /\ c = TextColor_index n false) \/
  (exists n, 0 <= n < 256 /\ c = TextColor_index n true) \/
  (exists r g b, is_byte r /\ is_byte g /\ is_byte b /\ c = mkTextColor IsRgb r g b).

Definition set_ground (fg : bool) (c : TextColor) : TextAttribute -> TextAttribute := if fg then SetForeground c else SetBackground c.

Lemma sgr_numbers_of ns : (length ns <=? 32)%nat && forallb (fun n => (0 <=? n) && (n <=? MAX_PARAMETER_VALUE)) ns = true -> sgr_numbers ns.
Proof.
  intros [Hl Hn]%andb_true_iff. split; [by apply Nat.leb_le|]. apply List.Forall_forall. intros n Hin.
  rewrite forallb_forall in Hn. specialize (Hn n Hin). lia.
Qed.

(** Palette entries: 30 to 37 and 90 to 97, 40 to 47 and 100 to 107. *)
Lemma sixteen_draws n fg e :
  0 <= n < 16 ->
  draws (agrees (_lastTextAttributes e))
    (Vt._SetGraphicsRendition16Color n fg ?; ok (Vt.last_attr (set_ground fg (TextColor_index n false)))) e
    (set_ground fg (TextColor_index n false) (_lastTextAttributes e)).
Proof.
  intros Hn.
  set (code := (if 8 <=? n then (if fg then 90 else 100) else if fg then 30 else 40) + n mod 8).
  assert (Hcode : (if negb (Z.land n FOREGROUND_INTENSITY =? 0) then (if fg then 90 else 100) else if fg then 30 else 40) + Z.land n 7 = code).
  { rewrite (below_forall 16 (fun n => negb (Z.land n FOREGROUND_INTENSITY =? 0) = (8 <=? n))) by (by vm_compute || lia).
    change 7 with (Z.ones 3). by rewrite Z.land_ones. }
  assert (Hm : 30 <= code <= 107) by (pose proof (Z.mod_pos_bound n 8); unfold code; destruct fg, (8 <=? n); lia).
  apply (draws_change _ [code]).
  - split; [cbn; lia|]. unfold MAX_PARAMETER_VALUE. repeat constructor; lia.
  - cbv zeta. by rewrite Hcode, format_int_unsigned by lia.
  - intros ta. unfold code. destruct (Z.leb_spec 8 n).
    + destruct (palette_options ta (n - 8) ltac:(lia)) as (_ & _ & E1 & E2).
      replace (n mod 8) with (n - 8) by (apply (Z.mod_unique n 8 1); lia). replace (8 + (n - 8)) with n in * by lia. by destruct fg.
    + destruct (palette_options ta n ltac:(lia)) as (E1 & E2 & _). rewrite Z.mod_small by lia. by destruct fg.
  - destruct fg; apply _.
Qed.

Lemma indexed_draws n fg e :
  0 <= n < 256 ->
  draws (agrees (_lastTextAttributes e))
    (Vt._SetGraphicsRendition256Color n fg ?; ok (Vt.last_attr (set_ground fg (TextColor_index n true)))) e
    (set_ground fg (TextColor_index n true) (_lastTextAttributes e)).
Proof.
  intros Hn. apply (draws_change _ [if fg then 38 else 48; 5; n]).
  - split; [cbn; lia|]. unfold MAX_PARAMETER_VALUE. destruct fg; repeat constructor; lia.
  - rewrite format_int_unsigned by lia. by destruct fg.
  - intros ta. destruct (indexed_options ta n Hn). by destruct fg.
  - destruct fg; apply _.
Qed.

Lemma rgb_draws r g b fg e :
  is_byte r -> is_byte g -> is_byte b ->
  draws (agrees (_lastTextAttributes e))
    (Vt._SetGraphicsRenditionRGBColor (RGB r g b) fg ?; ok (Vt.last_attr (set_ground fg (mkTextColor IsRgb r g b)))) e
    (set_ground fg (mkTextColor IsRgb r g b) (_lastTextAttributes e)).
Proof.
  intros Hr Hg Hb. pose proof (TextColor_rgb_RGB r g b Hr Hg Hb) as Hrgb. unfold TextColor_rgb in Hrgb. injection Hrgb as Er Eg Eb.
  unfold is_byte in *.
  apply (draws_change _ [if fg then 38 else 48; 2; r; g; b]).
  - split; [cbn; lia|]. unfold MAX_PARAMETER_VALUE. destruct fg; repeat constructor; lia.
  - cbv zeta. rewrite Er, Eg, Eb, !format_int_unsigned by lia.
    unfold sgr_text, csi_text. cbn [sgr csi_of csi_prefix csi_marker csi_params map params_text csi_intermediates_of csi_final].
    generalize (format_unsigned r) (format_unsigned g) (format_unsigned b). intros dr dg db.
    destruct fg; repeat (cbn; rewrite <- !app_assoc); reflexivity.
  - intros ta. destruct (rgb_options ta r g b Hr Hg Hb). by destruct fg.
  - destruct fg; apply _.
Qed.

Lemma default_draws fg e :
  draws (agrees (_lastTextAttributes e))
    (Vt._SetGraphicsRenditionDefaultColor fg ?; ok (Vt.last_attr (set_ground fg TextColor_default))) e
    (set_ground fg TextColor_default (_lastTextAttributes e)).
Proof.
  apply (draws_change _ [if fg then 39 else 49]).
  - by destruct fg; apply sgr_numbers_of.
  - by destruct fg.
  - intros ta. by destruct fg.
  - destruct fg; apply _.
Qed.

Lemma color_draws c fg e :
  TextColor_proper c ->
  draws (agrees (_lastTextAttributes e)) (Vt.set_color c fg ?; ok (Vt.last_attr (set_ground fg c))) e
    (set_ground fg c (_lastTextAttributes e)).
Proof.
  intros [-> |[(n & Hn & ->)|[(n & Hn & ->)|(r & g & b & Hr & Hg & Hb & ->)]]].
  - apply default_draws.
  - by apply sixteen_draws.
  - by apply indexed_draws.
  - by apply rgb_draws.
Qed.

(** A colour is set when it is not the one remembered. *)
Lemma color_update_draws c (fg : bool) e :
  TextColor_proper c ->
  draws (agrees (_lastTextAttributes e))
    (if bool_decide (c <> (if fg then _foreground else _background) (_lastTextAttributes e))
     then Vt.set_color c fg ?; ok (Vt.last_attr (set_ground fg c)) else ret S_OK) e
    (set_ground fg c (_lastTextAttributes e)).
Proof.
  intros Hc. case_bool_decide as Hd; [by apply color_draws|].
  assert (E : set_ground fg c (_lastTextAttributes e) = _lastTextAttributes e).
  { rewrite Hd. destruct (_lastTextAttributes e). by destruct fg. }
  rewrite E. apply draws_done.
Qed.

(** ** Renditions *)

(** A rendition whose two sequences set and clear one flag. *)
Lemma flag_draws f (write : bool -> V HRESULT) (on off : Z) ta e :
  is_flag f -> sgr_numbers [on] -> sgr_numbers [off] ->
  (forall b : bool, write b = Vt._Write (sgr_text [if b then on else off])) ->
  (forall (b : bool) a, _ApplyGraphicsOptions [if b then on else off] a = Ok (update_attr f b a)) ->
  draws (agrees (_lastTextAttributes e)) (Vt.update_flag (has_attr f) (update_attr f) write ta) e
    (update_attr f (has_attr f ta) (_lastTextAttributes e)).
Proof.
  intros Hf H1 H0 Hw Ha. apply draws_get.
  destruct (Bool.eqb (has_attr f ta) (has_attr f (_lastTextAttributes e))) eqn:E.
  - apply Bool.eqb_prop in E. rewrite E, update_same by done. apply draws_done.
  - cbn [negb]. rewrite Hw.
    apply (draws_change _ [if has_attr f ta then on else off]); [by destruct (has_attr f ta)|done|intros a; apply Ha|apply _].
Qed.

(** A rendition that is turned on when it is off, and already on only if it has to be. *)
Lemma on_draws f (write : bool -> V HRESULT) (on : Z) ta e :
  is_flag f -> sgr_numbers [on] -> write true = Vt._Write (sgr_text [on]) ->
  (forall a, _ApplyGraphicsOptions [on] a = Ok (update_attr f true a)) ->
  (has_attr f (_lastTextAttributes e) = true -> has_attr f ta = true) ->
  draws (agrees (_lastTextAttributes e)) (Vt.turn_on (has_attr f) (update_attr f) write ta) e
    (update_attr f (has_attr f ta) (_lastTextAttributes e)).
Proof.
  intros Hf H1 Hw Ha Hon. apply draws_get.
  destruct (has_attr f ta) eqn:Et, (has_attr f (_lastTextAttributes e)) eqn:El; cbn [andb negb].
  - rewrite <- El, update_same by done. apply draws_done.
  - rewrite Hw. apply (draws_change _ [on]); [done..|apply _].
  - by specialize (Hon eq_refl).
  - rewrite <- El, update_same by done. apply draws_done.
Qed.

Definition turned_off (f g : Z) (ta la : TextAttribute) : TextAttribute :=
  if (negb (has_attr f ta) && has_attr f la) || (negb (has_attr g ta) && has_attr g la)
  then update_attr g false (update_attr f false la) else la.

Lemma off_draws f g (write : bool -> V HRESULT) (off : Z) ta e :
  sgr_numbers [off] -> write false = Vt._Write (sgr_text [off]) ->
  (forall a, _ApplyGraphicsOptions [off] a = Ok (update_attr g false (update_attr f false a))) ->
  draws (agrees (_lastTextAttributes e)) (Vt.turn_off (has_attr f) (has_attr g) (update_attr f) (update_attr g) write ta) e
    (turned_off f g ta (_lastTextAttributes e)).
Proof.
  intros H0 Hw Ha. apply draws_get. cbv zeta. unfold turned_off.
  destruct (_ || _); [|apply draws_done]. rewrite Hw.
  apply (draws_one _ _ [off] _ _ (fun a => update_attr g false (update_attr f false a))); [done..| |].
  - intros e1 E1. unfold Vt.last_attr, bind, modify. cbn. by rewrite E1.
  - intros a E. by rewrite E.
Qed.

(** Two renditions that share the sequence that turns them off. *)
Lemma pair_draws f g (write_off write_f write_g : bool -> V HRESULT) (off on_f on_g : Z) ta e k la :
  is_flag f -> is_flag g -> Z.land f g = 0 -> Z.land g f = 0 -> sgr_numbers [off] -> sgr_numbers [on_f] -> sgr_numbers [on_g] ->
  write_off false = Vt._Write (sgr_text [off]) -> write_f true = Vt._Write (sgr_text [on_f]) -> write_g true = Vt._Write (sgr_text [on_g]) ->
  (forall a, _ApplyGraphicsOptions [off] a = Ok (update_attr g false (update_attr f false a))) ->
  (forall a, _ApplyGraphicsOptions [on_f] a = Ok (update_attr f true a)) ->
  (forall a, _ApplyGraphicsOptions [on_g] a = Ok (update_attr g true a)) ->
  (forall e1, _lastTextAttributes e1 = copy_flags [f; g] ta (_lastTextAttributes e) -> draws (agrees (_lastTextAttributes e1)) k e1 la) ->
  draws (agrees (_lastTextAttributes e))
    (Vt.turn_off (has_attr f) (has_attr g) (update_attr f) (update_attr g) write_off ta ?;
     Vt.turn_on (has_attr f) (update_attr f) write_f ta ?; Vt.turn_on (has_attr g) (update_attr g) write_g ta ?; k) e la.
Proof.
  intros Hf Hg Hfg Hgf H0 H1 H2 W0 W1 W2 A0 A1 A2 Hk. set (la0 := _lastTextAttributes e).
  assert (Hn : forall h, is_flag h -> h <> 0) by (intros h (i & -> & Hi); pose proof (Z.pow_pos_nonneg 2 i); lia).
  pose proof (Hn f Hf) as Nf. pose proof (Hn g Hg) as Ng.
  assert (Hoff : (has_attr f (turned_off f g ta la0) = true -> has_attr f ta = true) /\
                 (has_attr g (turned_off f g ta la0) = true -> has_attr g ta = true)).
  { unfold turned_off. destruct (has_attr f ta) eqn:Q1, (has_attr f la0) eqn:Q2, (has_attr g ta) eqn:Q3, (has_attr g la0) eqn:Q4;
      cbn [andb orb negb]; rewrite ?has_update_same, ?has_update_other, ?has_update_same by done; split; congruence. }
  assert (Hcopy : copy_flags [f; g] ta (turned_off f g ta la0) = copy_flags [f; g] ta la0).
  { unfold turned_off. destruct (_ || _); [|done]. cbn [copy_flags foldl].
    by rewrite (update_comm f g), !update_update. }
  eapply draws_seq; [by apply (off_draws f g write_off off)|]. fold la0. intros e1 E1 _. rewrite <- E1.
  eapply draws_seq; [apply on_draws with (on := on_f); try done; rewrite E1; apply Hoff|]. intros e2 E2 _. rewrite <- E2.
  eapply draws_seq; [apply on_draws with (on := on_g); try done; rewrite E2, has_update_other, E1 by done; apply Hoff|].
  intros e3 E3 _. rewrite <- E3. apply Hk. rewrite E3, E2, E1. exact Hcopy.
Qed.

(** The side conditions about concrete flags and numbers. *)
Ltac solve_sgr :=
  match goal with
  | |- is_flag _ => apply (proj1 (List.Forall_forall is_flag shown_flags) shown_are_flags); repeat first [by left | right]
  | |- sgr_numbers _ => by apply sgr_numbers_of
  | |- forall _, _ => intros; repeat match goal with b : bool |- _ => destruct b end; by vm_compute
  | |- _ => by vm_compute
  end.

Lemma extended_draws ta e :
  draws (agrees (_lastTextAttributes e)) (Vt._UpdateExtendedAttrs ta) e (copy_flags shown_flags ta (_lastTextAttributes e)).
Proof.
  unfold Vt._UpdateExtendedAttrs.
  apply (pair_draws Intense Faint _ _ _ 22 1 2); [solve_sgr..|]. intros e1 E1.
  apply (pair_draws Underlined DoublyUnderlined _ _ _ 24 4 21); [solve_sgr..|]. intros e2 E2. rewrite E1 in E2. clear E1.
  eapply draws_seq; [apply (flag_draws TopGridline _ 53 55); solve_sgr|]. intros e3 E3 _. rewrite <- E3.
  eapply draws_seq; [apply (flag_draws Italics _ 3 23); solve_sgr|]. intros e4 E4 _. rewrite <- E4.
  eapply draws_seq; [apply (flag_draws Blinking _ 5 25); solve_sgr|]. intros e5 E5 _. rewrite <- E5.
  eapply draws_seq; [apply (flag_draws Invisible _ 8 28); solve_sgr|]. intros e6 E6 _. rewrite <- E6.
  eapply draws_seq; [apply (flag_draws CrossedOut _ 9 29); solve_sgr|]. intros e7 E7 _. rewrite <- E7.
  eapply draws_seq; [apply (flag_draws ReverseVideo _ 7 27); solve_sgr|]. intros e8 E8 _. rewrite <- E8.
  assert (E : copy_flags shown_flags ta (_lastTextAttributes e) = _lastTextAttributes e8) by (by rewrite E8, E7, E6, E5, E4, E3, E2).
  rewrite E. apply draws_done.
Qed.

(** ** Brushes *)

Definition both_default (a : TextAttribute) : bool := is_type IsDefault (_foreground a) && is_type IsDefault (_background a).

(** The terminal is in step, or the brushes start with a reset. *)
Definition in_step (ta : TextAttribute) (e : VtEngine) (t : TextAttribute) : Prop :=
  agrees (_lastTextAttributes e) t \/ (both_default ta = true /\ both_default (_lastTextAttributes e) = false).

Lemma reset_draws (P : TextAttribute -> Prop) e :
  draws P (Vt._SetGraphicsDefault ?; ok Vt.reset_last) e (reset_attr (_lastTextAttributes e)).
Proof.
  apply (draws_one _ _ [] _ _ (fun a => SetDefaultRenditionAttributes (SetDefaultBackground (SetDefaultForeground a)))).
  - by apply sgr_numbers_of.
  - done.
  - done.
  - intros e1 E1. unfold Vt.reset_last, Vt.last_attr, bind, modify. cbn. by rewrite E1.
  - intros t _. by apply (reset_agrees _ t).
Qed.

Lemma proper_default c : TextColor_proper c -> is_type IsDefault c = true -> c = TextColor_default.
Proof. intros [-> |[(n & Hn & ->)|[(n & Hn & ->)|(r & g & b & Hr & Hg & Hb & ->)]]]; done. Qed.

Lemma colors_draw ta e :
  TextColor_proper (_foreground ta) -> TextColor_proper (_background ta) ->
  exists la, draws (in_step ta e) (Vt._RgbUpdateDrawingBrushes ta) e la /\
    _foreground la = _foreground ta /\ _background la = _background ta /\ _hyperlinkId la = _hyperlinkId (_lastTextAttributes e).
Proof.
  intros Hf Hb. set (last := _lastTextAttributes e).
  set (reset := both_default ta && negb (both_default last)).
  set (la0 := if reset then reset_attr last else last).
  exists (set_ground false (_background ta) (set_ground true (_foreground ta) la0)).
  split; [|split_and!; [done|done|by unfold la0; destruct reset]].
  apply draws_get. cbv zeta. fold last. fold (both_default ta) (both_default last) reset.
  eapply (draws_seq _ _ _ _ la0).
  { unfold la0. destruct reset eqn:Er; [apply reset_draws|].
    destruct (draws_done e) as (nss & H & E & S). exists nss. split_and!; [done..|]. intros t [Ht|[H1 H2]]; [by apply S|].
    exfalso. unfold reset, last in Er. by rewrite H1, H2 in Er. }
  intros e1 E1 _.
  assert (Hlf : (if reset then TextColor_default else _foreground last) = _foreground (_lastTextAttributes e1)) by (rewrite E1; unfold la0; by destruct reset).
  assert (Hlb : (if reset then TextColor_default else _background last) = _background (_lastTextAttributes e1)) by (rewrite E1; unfold la0; by destruct reset).
  rewrite Hlf, Hlb, <- E1. eapply draws_seq; [by apply (color_update_draws _ true)|]. intros e2 E2 _.
  assert (Hb2 : _background (_lastTextAttributes e1) = _background (_lastTextAttributes e2)) by (by rewrite E2).
  rewrite Hb2, <- E2. eapply draws_seq; [by apply (color_update_draws _ false)|]. intros e3 E3 _.
  rewrite <- E3. apply draws_done.
Qed.

(** The brushes of the engine for 256 colours, of a hyperlink that is already set and a font
    that is already chosen. *)
Lemma brushes_draw u16u8 pid uri customId ta e usingSoftFont isSettingDefaultBrushes :
  TextColor_proper (_foreground ta) -> TextColor_proper (_background ta) ->
  _hyperlinkId ta = _hyperlinkId (_lastTextAttributes e) ->
  usingSoftFont = _usingSoftFont e \/ isSettingDefaultBrushes = true ->
  _passthrough e && isSettingDefaultBrushes = false ->
  exists la, draws (in_step ta e) (Vt.UpdateDrawingBrushes u16u8 pid uri customId ta usingSoftFont isSettingDefaultBrushes) e la /\
    agrees la ta /\ _hyperlinkId la = _hyperlinkId ta.
Proof.
  intros Hf Hb Hh Hs Hp. destruct (colors_draw ta e Hf Hb) as (la & Hd & Ef & Eb & Eh).
  exists (copy_flags shown_flags ta la). split_and!.
  - apply draws_get. rewrite Hp. eapply draws_seq; [exact Hd|]. intros e1 E1 S1. rewrite <- E1.
    eapply draws_seq.
    { apply draws_get. rewrite Hh, E1, Eh, Z.eqb_refl. cbn [negb]. rewrite <- E1. apply draws_done. }
    intros e2 E2 S2. rewrite <- E2. apply draws_get.
    assert (Hno : negb (Bool.eqb usingSoftFont (_usingSoftFont e2)) && negb isSettingDefaultBrushes = false).
    { destruct Hs as [-> | ->]; [|by rewrite andb_false_r]. by rewrite S2, S1, Bool.eqb_reflx. }
    rewrite Hno. eapply draws_seq; [apply draws_done|]. intros e3 E3 _. rewrite <- E3. apply extended_draws.
  - by apply copied_agrees.
  - destruct (copy_flags_colors shown_flags ta la) as (_ & _ & ->). by rewrite Eh.
Qed.

(** ** The machine that reads *)

Section Machine.
Context {W : Type} `{ApiLaws W} {GW : GlyphWidth} `{!Win32} (statics : Statics) (garbage : wchar) (GetPerceivableColor : Z -> Z -> Z).
Context (Feature_ScrollbarMarks : bool) (ColorFromHLS : Z -> Z -> Z -> color) (fontMemory : FontBuffer) {connected : bool}.

#[local] Abbreviation SM := (StateMachine (OutputStateMachineEngine connected (Adapter W)) Handler VTInt).
Context (run_macro : VTInt -> M SM unit) (write_terminal : wstring -> M (Adapter W) bool).

#[local] Instance machine_dispatch : ITermDispatch connected (Adapter W) Handler VTInt :=
  Terminal.adapter_dispatch statics garbage GetPerceivableColor Feature_ScrollbarMarks ColorFromHLS fontMemory run_macro write_terminal.

Definition adapter_of (s : SM) : Adapter W := _dispatch (_engine s).

(** The machine takes ANSI sequences and waits for none of its callbacks. *)
Record reading (s : SM) : Prop := {
  rd_ansi : enumset_test (_parserMode s) Ansi = true;
  rd_state : _state s <> DcsPassThrough;
  rd_callback : _onCsiCompleteCallback s = None
}.

(** The adapter as an operation finds it, with the modes of the parser. *)
Definition called (s : SM) : Adapter W := set_world (PutParserModes (_parserMode s) (world (adapter_of s))) (adapter_of s).

(** A control sequence that calls one operation of the adapter. *)
Lemma csi_runs q c (s : SM) a' :
  csi_valid q -> reading s ->
  csi_switch (csi_id q) (params_of (csi_params q)) = (call c : M SM bool) ->
  Terminal.machine_call statics garbage GetPerceivableColor Feature_ScrollbarMarks c =
    (Terminal.lift (Terminal.adapter_call statics garbage GetPerceivableColor Feature_ScrollbarMarks c) : M SM bool) ->
  Terminal.adapter_call statics garbage GetPerceivableColor Feature_ScrollbarMarks c (called s) = (a', Ok true) ->
  GetParserModes (world a') = _parserMode s ->
  exists s', iterM ProcessCharacter (csi_text q) s = (s', Ok tt) /\ reading s' /\ adapter_of s' = a' /\ _state s' = Ground.
Proof.
  intros Hq [Ha Hst Hcb] Hsw Hcall Hrun Hmodes.
  rewrite csi_text_dispatch by done. set (s1 := csi_collected q s).
  assert (E : _SafeExecute (ActionCsiDispatch (csi_id q) (params_of (csi_params q))) s1 =
    (set_lastPrintedChar AsciiChars.NUL (set_parserMode (_parserMode s) (set_engine (mkEngine a' (_lastPrintedChar (_engine s1))) s1)), Ok true)).
  { unfold _SafeExecute. cbn [ActionCsiDispatch OutputEngine]. unfold OutputEngine_ActionCsiDispatch. rewrite Hsw.
    cbn [call machine_dispatch Terminal.adapter_dispatch]. rewrite Hcall. unfold bind at 1, Terminal.lift.
    change (set_world _ _) with (called s). rewrite Hrun, Hmodes. unfold flush_if_unknown. cbn [negb]. by rewrite andb_false_r. }
  rewrite (bind_Ok _ _ _ _ _ E). eexists. split_and!.
  - unfold bind at 1, _EnterGround, modify at 1 2, bind at 1, _ExecuteCsiCompleteCallback, bind, get. cbn. rewrite Hcb. reflexivity.
  - split; cbn; [done|discriminate|done].
  - done.
  - done.
Qed.

Lemma called_view (s : SM) : TerminalApi.view (world (called s)) = vset_parser (_parserMode s) (TerminalApi.view (world (adapter_of s))).
Proof. apply parser_put. Qed.

Lemma sgr_read ns (s : SM) sc ta :
  sgr_numbers ns -> reading s -> on_screen (adapter_of s) sc -> _ApplyGraphicsOptions ns (pg_attrs (sc_page sc)) = Ok ta ->
  exists s', iterM ProcessCharacter (sgr_text ns) s = (s', Ok tt) /\ reading s' /\ on_screen (adapter_of s') (AdaptCursor.set_attrs ta sc).
Proof.
  intros Hns Hrd [[Hh Hc Ha] Hd] Happ. pose proof (called_view s) as V.
  destruct (attributes_set ta (world (called s))) as (w' & Ew & Vw).
  rewrite V in Vw. cbn [v_buffer vset_parser TerminalApi.view] in Vw.
  destruct (csi_runs (sgr ns) (TermDispatch.SetGraphicsRendition ns) s (set_world w' (called s))) as (s' & E & Hr & Had & _).
  - by apply csi_of_valid; [unfold is_final; lia|].
  - done.
  - unfold sgr. by rewrite csi_of_params.
  - done.
  - cbn [Terminal.adapter_call]. unfold AdaptModes.SetGraphicsRendition, Adapt.buf_get, Adapt.ask, bind at 1, get.
    assert (Hb : GetTextBuffer (world (called s)) = buffer_of (adapter_of s)) by exact (f_equal v_buffer V).
    rewrite Hb. unfold GetCurrentAttributes. rewrite Ha. unfold bind at 1, get_result. rewrite Happ.
    unfold bind, Adapt.api. by rewrite Ew.
  - exact (f_equal v_parser Vw).
  - exists s'. split_and!; [exact E|done|]. rewrite Had. unfold on_screen, buffer_of. cbn [world set_world].
    rewrite (f_equal v_buffer Vw : GetTextBuffer w' = _). cbn [v_buffer vset_buffer].
    split; [split|]; try done. by apply (holds_ext (buffer_of (adapter_of s))).
Qed.

Lemma sgrs_read nss (s : SM) sc ta :
  Forall sgr_numbers nss -> reading s -> on_screen (adapter_of s) sc -> apply_all nss (pg_attrs (sc_page sc)) = Ok ta ->
  exists s', iterM ProcessCharacter (concat (map sgr_text nss)) s = (s', Ok tt) /\ reading s' /\
    on_screen (adapter_of s') (AdaptCursor.set_attrs ta sc).
Proof.
  intros Hns. revert s sc. induction Hns as [|ns nss Hn _ IH]; intros s sc Hrd Hs Happ.
  - exists s. injection Happ as <-. by destruct sc as [[]].
  - cbn [apply_all] in Happ. destruct (_ApplyGraphicsOptions ns _) as [ta1| | |] eqn:E1; try done. cbn [bindR] in Happ.
    destruct (sgr_read ns s sc ta1 Hn Hrd Hs E1) as (s1 & R1 & Hr1 & Hs1).
    destruct (IH s1 _ Hr1 Hs1 Happ) as (s2 & R2 & Hr2 & Hs2).
    exists s2. split_and!; [|done|exact Hs2]. cbn [map concat]. by rewrite iterM_app, (bind_Ok _ _ _ _ _ R1).
Qed.

(** A control character that calls one operation of the adapter. *)
Definition control_call (wch : wchar) : option TermCall :=
  if wch =? AsciiChars.BS then Some (CursorBackward 1)
  else if wch =? AsciiChars.CR then Some CarriageReturn
  else if wch =? AsciiChars.LF then Some (LineFeed DependsOnMode)
  else None.

Lemma control_runs wch c (s : SM) a' b :
  control_call wch = Some c -> reading s -> _state s = Ground ->
  Terminal.adapter_call statics garbage GetPerceivableColor Feature_ScrollbarMarks c (called s) = (a', Ok b) ->
  GetParserModes (world a') = _parserMode s ->
  exists s', iterM ProcessCharacter [wch] s = (s', Ok tt) /\ reading s' /\ adapter_of s' = a' /\ _state s' = Ground.
Proof.
  intros Hc [Ha Hst Hcb] Hg Hrun Hmodes.
  assert (Hw : (wch = 0x08 /\ c = CursorBackward 1) \/ (wch = 0x0D /\ c = CarriageReturn) \/ (wch = 0x0A /\ c = LineFeed DependsOnMode)).
  { unfold control_call in Hc. destruct (Z.eqb_spec wch AsciiChars.BS), (Z.eqb_spec wch AsciiChars.CR), (Z.eqb_spec wch AsciiChars.LF);
      simplify_eq; auto. }
  assert (E : _SafeExecute (ActionExecute wch) s =
    (set_lastPrintedChar AsciiChars.NUL (set_parserMode (_parserMode s) (set_engine (mkEngine a' (_lastPrintedChar (_engine s))) s)), Ok true)).
  { assert (Hx : ActionExecute wch = ((_ <- Terminal.lift (Terminal.adapter_call statics garbage GetPerceivableColor Feature_ScrollbarMarks c) ;; ret tt) ;;
      _ClearLastChar ;; ret true : M SM bool)) by (by destruct Hw as [[-> ->]|[[-> ->]|[-> ->]]]).
    rewrite Hx. unfold _SafeExecute, bind, Terminal.lift. change (set_world _ _) with (called s). by rewrite Hrun, Hmodes. }
  assert (P : iterM ProcessCharacter [wch] s = _ActionExecute wch s).
  { cbn [iterM]. rewrite bind_ret_r. unfold ProcessCharacter. cbn [ProcessCharacter_fuel]. unfold ProcessCharacter_body, bind at 1 2 3, get.
    rewrite Hg. by destruct Hw as [[-> ->]|[[-> ->]|[-> ->]]]. }
  eexists. split_and!.
  - rewrite P. unfold _ActionExecute. rewrite (bind_Ok _ _ _ _ _ E). reflexivity.
  - split; cbn; [done|congruence|done].
  - done.
  - done.
Qed.

(** ** The cursor of the machine that reads *)

(** Only the cursor moved, and lines may have lost their wrap flag. *)
Definition moved (p : point) (sc sc' : screen) : Prop :=
  pg_cursor (sc_page sc') = p /\ pg_width (sc_page sc') = pg_width (sc_page sc) /\ pg_attrs (sc_page sc') = pg_attrs (sc_page sc) /\
  set_l_wrap false <$> pg_lines (sc_page sc') = set_l_wrap false <$> pg_lines (sc_page sc).

Lemma moved_trans p q sc sc1 sc2 : moved p sc sc1 -> moved q sc1 sc2 -> moved q sc sc2.
Proof. intros (_ & W1 & A1 & L1) (C2 & W2 & A2 & L2). split_and!; congruence. Qed.

Lemma moved_to p sc : moved p sc (move_to p sc).
Proof. by split_and!. Qed.

(** Reading the text moves the cursor there. *)
Definition reaches (text : wstring) (s : SM) (sc : screen) (p : point) : Prop :=
  exists s' sc', iterM ProcessCharacter text s = (s', Ok tt) /\ reading s' /\ _state s' = Ground /\ on_screen (adapter_of s') sc' /\
    moved p sc sc' /\ rows_of_adapter (adapter_of s') = rows_of_adapter (adapter_of s).

Lemma called_facts (s : SM) sc :
  on_screen (adapter_of s) sc ->
  on_screen (called s) sc /\ rows_of_adapter (called s) = rows_of_adapter (adapter_of s) /\
  viewport_of (called s) = viewport_of (adapter_of s) /\ GetParserModes (world (called s)) = _parserMode s.
Proof.
  intros Hs. pose proof (called_view s) as V.
  assert (Hvp : viewport_of (called s) = viewport_of (adapter_of s)) by exact (f_equal v_viewport V).
  split_and!; [|unfold rows_of_adapter, margins_of; by rewrite Hvp|done|exact (f_equal v_parser V)].
  unfold on_screen, buffer_of. by rewrite (f_equal v_buffer V : GetTextBuffer (world (called s)) = _).
Qed.

Lemma quiet_parser (a a' : Adapter W) : quiet a a' -> GetParserModes (world a') = GetParserModes (world a).
Proof. intros (w & tb & m & -> & V & _). exact (f_equal v_parser V). Qed.

(** A movement of the cursor, as a control sequence or as a control character. *)
Lemma move_runs mv (s : SM) sc :
  on_screen (adapter_of s) sc -> rows_ok (rows_of_adapter (adapter_of s)) (sc_page sc) -> in_view (rows_of_adapter (adapter_of s)) (sc_page sc) ->
  exists a', cursor_move_run mv (called s) = (a', Ok true) /\ GetParserModes (world a') = _parserMode s /\
    on_screen a' (move_to (target (rows_of_adapter (adapter_of s)) (sc_page sc) mv) sc) /\
    rows_of_adapter a' = rows_of_adapter (adapter_of s).
Proof.
  intros Hs Hok Hin. destruct (called_facts s sc Hs) as (Hs' & Hr & _ & Hp).
  destruct (cursor_move_does mv (called s) sc Hs' ltac:(by rewrite Hr) ltac:(by rewrite Hr)) as (a' & E & S' & Q).
  rewrite Hr in S'. exists a'. split_and!; [done|by rewrite (quiet_parser _ _ Q)|done|by rewrite (quiet_rows _ _ Q)].
Qed.

Lemma csi_moves q c mv (s : SM) sc :
  csi_valid q -> reading s -> on_screen (adapter_of s) sc ->
  rows_ok (rows_of_adapter (adapter_of s)) (sc_page sc) -> in_view (rows_of_adapter (adapter_of s)) (sc_page sc) ->
  csi_switch (csi_id q) (params_of (csi_params q)) = (call c : M SM bool) ->
  Terminal.machine_call statics garbage GetPerceivableColor Feature_ScrollbarMarks c =
    (Terminal.lift (Terminal.adapter_call statics garbage GetPerceivableColor Feature_ScrollbarMarks c) : M SM bool) ->
  Terminal.adapter_call statics garbage GetPerceivableColor Feature_ScrollbarMarks c = cursor_move_run mv ->
  reaches (csi_text q) s sc (target (rows_of_adapter (adapter_of s)) (sc_page sc) mv).
Proof.
  intros Hq Hrd Hs Hok Hin Hsw Hcall Hmv. destruct (move_runs mv s sc Hs Hok Hin) as (a' & E & Hp & S' & R').
  destruct (csi_runs q c s a') as (s' & Es & Hrd' & Had & Hg); [done|done|done|done|by rewrite Hmv|done|].
  exists s', (move_to (target (rows_of_adapter (adapter_of s)) (sc_page sc) mv) sc). rewrite Had. split_and!; try done; apply moved_to.
Qed.

Lemma control_moves wch c mv (s : SM) sc :
  control_call wch = Some c -> reading s -> _state s = Ground -> on_screen (adapter_of s) sc ->
  rows_ok (rows_of_adapter (adapter_of s)) (sc_page sc) -> in_view (rows_of_adapter (adapter_of s)) (sc_page sc) ->
  Terminal.adapter_call statics garbage GetPerceivableColor Feature_ScrollbarMarks c = cursor_move_run mv ->
  reaches [wch] s sc (target (rows_of_adapter (adapter_of s)) (sc_page sc) mv).
Proof.
  intros Hc Hrd Hg Hs Hok Hin Hmv. destruct (move_runs mv s sc Hs Hok Hin) as (a' & E & Hp & S' & R').
  destruct (control_runs wch c s a' true) as (s' & Es & Hrd' & Had & Hg'); [done|done|done|by rewrite Hmv|done|].
  exists s', (move_to (target (rows_of_adapter (adapter_of s)) (sc_page sc) mv) sc). rewrite Had. split_and!; try done; apply moved_to.
Qed.

Lemma reaches_app t1 t2 (s : SM) sc p q :
  reaches t1 s sc p ->
  (forall s1 sc1, reading s1 -> _state s1 = Ground -> on_screen (adapter_of s1) sc1 -> moved p sc sc1 ->
     rows_of_adapter (adapter_of s1) = rows_of_adapter (adapter_of s) -> reaches t2 s1 sc1 q) ->
  reaches (t1 ++ t2) s sc q.
Proof.
  intros (s1 & sc1 & E1 & Hr1 & Hg1 & S1 & M1 & R1) Hk. destruct (Hk s1 sc1 Hr1 Hg1 S1 M1 R1) as (s2 & sc2 & E2 & Hr2 & Hg2 & S2 & M2 & R2).
  exists s2, sc2. split_and!; [by rewrite iterM_app, (bind_Ok _ _ _ _ _ E1)|done|done|done|by eapply moved_trans|congruence].
Qed.

Context `{!FeedLaws W}.

Lemma rows_fit (a : Adapter W) pg : rows_ok (rows_of_adapter a) pg -> fits_viewport (viewport_of a) pg.
Proof. unfold rows_ok, fits_viewport, rows_of_adapter. cbn. lia. Qed.

Lemma feed_moves (b : bool) sc :
  0 <= y (pg_cursor (sc_page sc)) -> y (pg_cursor (sc_page sc)) + 1 < Z.of_nat (length (pg_lines (sc_page sc))) ->
  moved (Point (if b then 0 else x (pg_cursor (sc_page sc))) (y (pg_cursor (sc_page sc)) + 1)) sc (feed b false sc).
Proof.
  intros H0' Hy. unfold feed. destruct (on_page_line (sc_page sc)) as (l & Hl & _); [unfold on_page; lia|]. rewrite Hl. cbv zeta.
  unfold newline, TextBufferPage.bottom. cbn [set_pg_lines pg_cursor pg_lines]. rewrite length_insert.
  destruct (Z.leb_spec (y (pg_cursor (sc_page sc)) + 1) (Z.of_nat (length (pg_lines (sc_page sc))) - 1)); [|lia].
  split_and!; [done..|]. cbn. rewrite list_fmap_insert. apply list_insert_id. by rewrite list_lookup_fmap, Hl.
Qed.

(** The line feed above the last row of the viewport. *)
Lemma line_feed_moves (s : SM) sc (b : bool) :
  reading s -> _state s = Ground -> on_screen (adapter_of s) sc -> rows_ok (rows_of_adapter (adapter_of s)) (sc_page sc) ->
  first_row (rows_of_adapter (adapter_of s)) <= y (pg_cursor (sc_page sc)) < last_row (rows_of_adapter (adapter_of s)) ->
  GetLineFeedMode (world (called s)) = b ->
  reaches [0x0A] s sc (Point (if b then 0 else x (pg_cursor (sc_page sc))) (y (pg_cursor (sc_page sc)) + 1)).
Proof.
  intros Hrd Hg Hs Hok Hy Hb. destruct (called_facts s sc Hs) as (Hs' & Hr & Hv & Hp).
  pose proof (rows_fit (adapter_of s) _ Hok) as Hfit. rewrite <- Hv in Hfit. unfold rows_ok in Hok.
  destruct (line_feed_does (called s) sc b false Hs') as (a' & E & S' & F' & (w & tb & vp & -> & V & Hh) & Ht).
  { unfold on_page. lia. }
  { done. }
  destruct (control_runs 0x0A (LineFeed DependsOnMode) s (set_world w (called s)) true) as (s' & Es & Hrd' & Had & Hg'); [done|done|done| | |].
  - cbn [Terminal.adapter_call]. unfold AdaptModes.LineFeed, Adapt.ask, bind at 1, get. rewrite Hb. by rewrite (bind_Ok _ _ _ _ _ E).
  - rewrite <- Hp. exact (f_equal v_parser V).
  - exists s', (feed b false sc). split_and!; [done|done|done|by rewrite Had| |].
    + apply feed_moves; lia.
    + rewrite Had, <- Hr. assert (Hvp : viewport_of (set_world w (called s)) = vp) by exact (f_equal v_viewport V).
      rewrite Hvp in Ht. assert (Htop : top vp = top (viewport_of (called s))).
      { apply Ht. rewrite Hv. unfold rows_of_adapter in Hy. cbn in Hy. lia. }
      unfold rows_of_adapter, margins_of, vertical_margins, effective. rewrite Hvp.
      replace (Geometry.bottom vp) with (Geometry.bottom (viewport_of (called s))) by lia. by rewrite Htop.
Qed.

(** The sequences of the renderer, and where they move the cursor of the viewport. *)
Section Sequences.
Context (s : SM) (sc : screen) (coord last : point).

#[local] Abbreviation g := (rows_of_adapter (adapter_of s)).
#[local] Abbreviation in_viewport p := (Point (x p) (first_row g + y p)).

Context (Hrd : reading s) (Hground : _state s = Ground) (Hs : on_screen (adapter_of s) sc).
Context (Hok : rows_ok g (sc_page sc)) (Hin : in_view g (sc_page sc)) (Horigin : origin_mode g = false).
Context (Hlast : pg_cursor (sc_page sc) = in_viewport last).
Context (Hy : 0 <= y coord /\ first_row g + y coord <= last_row g) (Hx : 0 <= x coord < width_at (sc_page sc) (first_row g + y coord)).
Context (Hlimit : x coord < MAX_PARAMETER_VALUE /\ y coord < MAX_PARAMETER_VALUE).

Lemma target_position : target g (sc_page sc) (CUP (Z.to_nat (y coord)) (Z.to_nat (x coord))) = in_viewport coord.
Proof.
  unfold target, target_row, absolute_row, target_column. rewrite Horigin, !Z2Nat.id by lia.
  rewrite (Z.min_l (first_row g + y coord)) by lia. f_equal; lia.
Qed.

Lemma position_reaches : reaches (CSI (format_int (y coord + 1) ++ L";" ++ format_int (x coord + 1) ++ L"H")) s sc (in_viewport coord).
Proof.
  rewrite !format_int_unsigned by lia. rewrite <- target_position.
  assert (Hns : sgr_numbers [y coord + 1; x coord + 1]) by (split; [cbn; lia|]; repeat constructor; lia).
  replace (CSI _) with (csi_text (csi_of 0x48 [y coord + 1; x coord + 1])).
  - apply (csi_moves _ (CursorPosition (y coord + 1) (x coord + 1))); try done.
    + apply csi_of_valid; [unfold is_final; lia|done].
    + rewrite csi_of_params by done. transitivity (call (CursorPosition (param_int (y coord + 1)) (param_int (x coord + 1))) : M SM bool); [done|].
      unfold param_int. by rewrite !(proj2 (Z.leb_gt _ 0)) by lia.
    + cbn [Terminal.adapter_call cursor_move_run]. f_equal; lia.
  - unfold csi_text. cbn [csi_of csi_prefix csi_marker csi_params map params_text csi_intermediates_of csi_final].
    generalize (format_unsigned (y coord + 1)) (format_unsigned (x coord + 1)). intros dy dx.
    repeat (cbn; rewrite <- !app_assoc); reflexivity.
Qed.

Lemma home_reaches : x coord = 0 -> y coord = 0 -> reaches (CSI (L"H")) s sc (in_viewport coord).
Proof.
  intros Hx0 Hy0. rewrite <- target_position, Hx0, Hy0.
  apply (csi_moves (csi_of 0x48 []) (CursorPosition 1 1)); try done.
  apply csi_of_valid; [unfold is_final; lia|by apply sgr_numbers_of].
Qed.

Lemma forward_reaches : y coord = y last -> x last < x coord -> reaches (CSI (format_int (x coord - x last) ++ L"C")) s sc (in_viewport coord).
Proof.
  intros Hrow Hcol. destruct Hin as [Hiny Hinx]. rewrite Hlast in Hinx, Hiny. cbn [x y] in Hinx, Hiny.
  assert (Ht : target g (sc_page sc) (CUF (Z.to_nat (x coord - x last))) = in_viewport coord).
  { unfold target, target_row, target_column. rewrite Hlast. cbn [x y]. rewrite <- Hrow in *.
    rewrite iter_right by lia. rewrite Z2Nat.id by lia. f_equal. lia. }
  rewrite <- Ht, format_int_unsigned by lia.
  assert (Hns : sgr_numbers [x coord - x last]) by (split; [cbn; lia|]; repeat constructor; lia).
  apply (csi_moves (csi_of 0x43 [x coord - x last]) (CursorForward (x coord - x last))); try done.
  - apply csi_of_valid; [unfold is_final; lia|done].
  - rewrite csi_of_params by done. transitivity (call (CursorForward (param_int (x coord - x last))) : M SM bool); [done|].
    unfold param_int. by rewrite (proj2 (Z.leb_gt _ 0)) by lia.
  - cbn [Terminal.adapter_call cursor_move_run]. f_equal. lia.
Qed.

Lemma return_reaches p : x p = 0 -> y p = y last -> reaches [0x0D] s sc (in_viewport p).
Proof.
  intros Hx0 Hrow. assert (Ht : target g (sc_page sc) CR = in_viewport p).
  { unfold target, target_row, target_column. rewrite Hlast. cbn [x y]. by rewrite Hx0, Hrow. }
  rewrite <- Ht. by apply (control_moves 0x0D CarriageReturn).
Qed.

Lemma back_reaches : x coord = x last - 1 -> y coord = y last -> reaches [0x08] s sc (in_viewport coord).
Proof.
  intros Hcol Hrow. destruct Hin as [Hiny Hinx]. rewrite Hlast in Hinx. cbn [x y] in Hinx.
  assert (Ht : target g (sc_page sc) (CUB 1) = in_viewport coord).
  { unfold target, target_row, target_column. rewrite Hlast. cbn [x y]. rewrite iter_left by lia. rewrite Hrow. f_equal. lia. }
  rewrite <- Ht. by apply (control_moves 0x08 (CursorBackward 1)).
Qed.

Context (Hmode : forall w : W, GetLineFeedMode w = false).

Lemma down_reaches : x coord = x last -> y coord = y last + 1 -> reaches [0x0A] s sc (in_viewport coord).
Proof.
  intros Hcol Hrow. destruct Hin as [Hiny _]. rewrite Hlast in Hiny. cbn [y] in Hiny.
  pose proof (line_feed_moves s sc false Hrd Hground Hs Hok) as Hf. rewrite Hlast in Hf. cbn [x y] in Hf.
  rewrite Hcol, Hrow, Z.add_assoc. apply Hf; [lia|apply Hmode].
Qed.

Lemma next_line_reaches : x coord = 0 -> y coord = y last + 1 -> reaches [0x0D; 0x0A] s sc (in_viewport coord).
Proof.
  intros Hcol Hrow. destruct Hin as [Hiny _]. rewrite Hlast in Hiny. cbn [y] in Hiny.
  apply (reaches_app [0x0D] [0x0A] s sc (in_viewport (Point 0 (y last)))); [by apply return_reaches|].
  intros s1 sc1 Hrd1 Hg1 Hs1 (Hc1 & Hw1 & _ & Hl1) Hr1.
  assert (Hlen : length (pg_lines (sc_page sc1)) = length (pg_lines (sc_page sc))) by (apply (f_equal length) in Hl1; by rewrite !length_fmap in Hl1).
  pose proof (line_feed_moves s1 sc1 false Hrd1 Hg1 Hs1) as Hf. rewrite Hr1, Hc1 in Hf. cbn [x y] in Hf.
  rewrite Hcol, Hrow, Z.add_assoc. apply Hf; [|lia|apply Hmode]. unfold rows_ok in *. by rewrite Hlen, Hw1.
Qed.

(** Every way to move: what is written moves the cursor of the terminal there. *)
Lemma move_sequence_reaches e :
  coord <> last -> _wrappedRow e <> Some (y coord - 1) ->
  exists e' text, Vt.move_sequence coord last e = (e', Ok S_OK) /\ _buffer e' = _buffer e ++ text /\
    reaches text s sc (in_viewport coord).
Proof.
  intros Hne Hwrap.
  assert (Hw : forall (b : bool) str, reaches str s sc (in_viewport coord) ->
    exists e' text, (if b then modify (put_needToDisableCursor true) ;; Vt._Write str else Vt._Write str) e = (e', Ok S_OK) /\
      _buffer e' = _buffer e ++ text /\ reaches text s sc (in_viewport coord)).
  { intros b str Hr. destruct b; do 2 eexists; split_and!; [done|done|exact Hr|done|done|exact Hr]. }
  unfold Vt.move_sequence, bind at 1 2 3, get at 1 2 3.
  destruct ((x coord =? 0) && (y coord =? 0)) eqn:E1; [bool_prop; apply (Hw true), home_reaches; done|].
  destruct (_resized e && _resizeQuirk e); [apply (Hw false), position_reaches|].
  destruct ((x coord =? 0) && (y coord =? y last + 1)) eqn:E2.
  { bool_prop. unfold bind, get. replace (match _wrappedRow e with Some r => _ | None => _ end) with false.
    - apply (Hw false), next_line_reaches; done.
    - destruct (_wrappedRow e) as [r|]; [|done]. symmetry. apply Z.eqb_neq. intros Hr. apply Hwrap. f_equal. lia. }
  destruct (_delayedEolWrap e); [apply (Hw false), position_reaches|].
  destruct ((x coord =? 0) && (y coord =? y last)) eqn:E3; [bool_prop; apply (Hw false), return_reaches; done|].
  destruct ((x coord =? x last) && (y coord =? y last + 1)) eqn:E4; [bool_prop; apply (Hw false), down_reaches; done|].
  destruct ((x coord =? x last - 1) && (y coord =? y last)) eqn:E5; [bool_prop; apply (Hw false), back_reaches; done|].
  destruct ((y coord =? y last) && (x last <? x coord)) eqn:E6; [bool_prop; apply (Hw false), forward_reaches; done|].
  apply (Hw true), position_reaches.
Qed.
End Sequences.

Lemma nothing_reaches (s : SM) sc p :
  reading s -> _state s = Ground -> on_screen (adapter_of s) sc -> pg_cursor (sc_page sc) = p -> reaches [] s sc p.
Proof. intros Hrd Hg Hs Hp. exists s, sc. by split_and!. Qed.
End Machine.

(** C8. The renderer and the terminal stay in step: when the attributes the renderer remembers
    are those of the terminal, or a reset starts the brushes, it writes a text that the
    terminal, reading it character by character, turns into attributes that agree with the
    ones asked for in the colours and in every rendition, and nothing else on the screen
    changes; the renderer then remembers those attributes, so the next brushes start in step
    again. *)
Theorem brushes_reach_terminal (W : Type) `{ApiLaws W} (GW : GlyphWidth) `{!Win32} (statics : Statics) (garbage : wchar)
    (GetPerceivableColor : Z -> Z -> Z) (Feature_ScrollbarMarks : bool) (ColorFromHLS : Z -> Z -> Z -> color) (fontMemory : FontBuffer)
    (connected : bool) (run_macro : VTInt -> M (StateMachine (OutputStateMachineEngine connected (Adapter W)) Handler VTInt) unit)
    (write_terminal : wstring -> M (Adapter W) bool) (u16u8 : wstring -> option (list Z)) (pid : Z) (uri customId : Z -> wstring)
    (e : VtEngine) (ta : TextAttribute) (usingSoftFont isSettingDefaultBrushes : bool)
    (s : StateMachine (OutputStateMachineEngine connected (Adapter W)) Handler VTInt) (sc : screen) :
  TextColor_proper (_foreground ta) -> TextColor_proper (_background ta) ->
  _hyperlinkId ta = _hyperlinkId (_lastTextAttributes e) ->
  usingSoftFont = _usingSoftFont e \/ isSettingDefaultBrushes = true ->
  _passthrough e && isSettingDefaultBrushes = false ->
  reading s -> on_screen (adapter_of s) sc -> in_step ta e (pg_attrs (sc_page sc)) ->
  exists e' text s' ta',
    Vt.UpdateDrawingBrushes u16u8 pid uri customId ta usingSoftFont isSettingDefaultBrushes e = (e', Ok S_OK) /\
    e' = put_lastTextAttributes (_lastTextAttributes e') (put_buffer (_buffer e ++ text) e) /\
    @iterM _ _ (@ProcessCharacter _ _ _ (@OutputEngine _ _ _ _
      (machine_dispatch statics garbage GetPerceivableColor Feature_ScrollbarMarks ColorFromHLS fontMemory run_macro write_terminal) _)) text s
      = (s', Ok tt) /\
    reading s' /\ on_screen (adapter_of s') (AdaptCursor.set_attrs ta' sc) /\
    agrees ta' ta /\ agrees (_lastTextAttributes e') ta' /\ _hyperlinkId (_lastTextAttributes e') = _hyperlinkId ta.
Proof.
  intros Hf Hb Hh Hsf Hp Hrd Hs Hin.
  destruct (brushes_draw u16u8 pid uri customId ta e usingSoftFont isSettingDefaultBrushes Hf Hb Hh Hsf Hp) as (la & (nss & Hns & E & Hsync) & Hag & Hlh).
  destruct (Hsync _ Hin) as (ta' & Happ & Hag').
  destruct (sgrs_read statics garbage GetPerceivableColor Feature_ScrollbarMarks ColorFromHLS fontMemory run_macro write_terminal
    nss s sc ta' Hns Hrd Hs Happ) as (s' & R & Hrd' & Hs').
  exists (drawn la nss e), (concat (map sgr_text nss)), s', ta'.
  split_and!; [done|done|done|done|done| |done|done]. by rewrite <- Hag'.
Qed.

(** C9. The renderer moves the cursor of the terminal to where it wants to write: when the place
    it remembers is the one of the terminal's cursor, in a viewport without origin mode, line feeds do not return to the
    first column, and the line above does not wrap into the one aimed at, it writes one of its sequences (home,
    a position, return and line feed, return, line feed, backspace, forward) and the
    terminal, reading it character by character, has its cursor at the place aimed at;
    of the screen nothing else changes but the wrap flag of a line that is left; the renderer
    then remembers that place. *)
Theorem cursor_reaches_terminal (W : Type) (api : ITerminalApi W) (laws : ApiLaws W) (feeds : FeedLaws W) (GW : GlyphWidth) (win32 : Win32)
    (statics : Statics) (garbage : wchar) (GetPerceivableColor : Z -> Z -> Z) (Feature_ScrollbarMarks : bool) (ColorFromHLS : Z -> Z -> Z -> color)
    (fontMemory : FontBuffer) (connected : bool)
    (run_macro : VTInt -> M (StateMachine (OutputStateMachineEngine connected (Adapter W)) Handler VTInt) unit)
    (write_terminal : wstring -> M (Adapter W) bool) (e : VtEngine) (coord : point)
    (s : StateMachine (OutputStateMachineEngine connected (Adapter W)) Handler VTInt) (sc : screen) :
  let g := rows_of_adapter (adapter_of s) in
  let in_viewport p := Point (x p) (first_row g + y p) in
  reading s -> _state s = Ground -> on_screen (adapter_of s) sc -> rows_ok g (sc_page sc) -> in_view g (sc_page sc) -> origin_mode g = false ->
  (forall w : W, GetLineFeedMode w = false) ->
  pg_cursor (sc_page sc) = in_viewport (_lastText e) -> _wrappedRow e <> Some (y coord - 1) ->
  0 <= y coord /\ first_row g + y coord <= last_row g -> 0 <= x coord < width_at (sc_page sc) (first_row g + y coord) ->
  x coord < MAX_PARAMETER_VALUE /\ y coord < MAX_PARAMETER_VALUE ->
  exists e' text, Vt._MoveCursor coord e = (e', Ok S_OK) /\ _buffer e' = _buffer e ++ text /\ _lastText e' = coord /\
    reaches statics garbage GetPerceivableColor Feature_ScrollbarMarks ColorFromHLS fontMemory run_macro write_terminal text s sc (in_viewport coord).
Proof.
  intros g in_viewport Hrd Hg Hs Hok Hin Ho Hmode Hlast Hwrap Hy Hx Hlim.
  unfold Vt._MoveCursor, bind at 1, get at 1. destruct (decide (coord = _lastText e)) as [Heq|Hne].
  - rewrite bool_decide_false by tauto. do 2 eexists. split_and!; [done|by rewrite app_nil_r|by rewrite Heq|].
    apply nothing_reaches; [done..|]. by rewrite Heq.
  - rewrite bool_decide_true by done.
    destruct (move_sequence_reaches statics garbage GetPerceivableColor Feature_ScrollbarMarks ColorFromHLS fontMemory run_macro write_terminal
      s sc coord (_lastText e) Hrd Hg Hs Hok Hin Ho Hlast Hy Hx Hlim Hmode e Hne Hwrap) as (e1 & text & E & Eb & Hr).
    exists (put_delayedEolWrap false (put_wrappedRow None (put_deferredCursorPos INVALID_COORDS (put_lastText coord e1)))), text.
    split_and!; [|exact Eb|done|exact Hr]. unfold bind. rewrite E. done.
Qed.
