(* ===== verification/TerminalRun.v ===== *)
(** * The terminal, run

    A new terminal on a screen, concrete terminals for the witnesses, and runs of the whole
    program: the parser, the output engine, the adapter, the terminal core and the text
    buffer on the output of an application. *)

From S2P Require Import Prelude Effects EnumSet DispatchTypes StateMachine Utils OutputEngine OutputEngineLaws Geometry LineRendition Viewport TextColor TextAttribute MacroBuffer Row RowLayout RowSpec RowTheorems CodepointWidth OutputCells RowWrite OutputText Cursor TextBuffer TextBufferSpec TextBufferPage TextBufferRefine FontBuffer TerminalInput RenderSettings TerminalApi AdaptDispatch AdaptScreen AdaptCursor AdaptPrint AdaptScroll AdaptOps AdaptCopy AdaptModes AdaptModesSpec AdaptStrings TerminalCore AdaptTerminal TerminalCoreLaws TermDispatch TermRecorder Bitmap VtRenderer VtRendererSpec.

Local Open Scope Z_scope.

(** ** A new terminal *)

Definition buffer_height (viewportSize : size) (scrollbackLines : Z) : Z :=
  Z.min (Z.max (height viewportSize + scrollbackLines) 1) 32767.

Lemma TextBuffer_new_cursor sz a n active tb : TextBuffer_new sz a n active = Ok tb -> _cursor tb = Cursor_new n.
Proof.
  unfold TextBuffer_new. destruct (allocator_size _) as [[? ?]| | |]; cbn [bindR]; try done.
  unfold _UpdateSize, bind, get. cbn [_storage]. destruct (repeat _ _); cbn; intros; by simplify_eq.
Qed.

Lemma Create_screen render0 vs sb core :
  Z.max (width vs) 1 <= MAX_COLUMNS -> Core.Create render0 vs sb = Ok core ->
  screen_of (Core._activeBuffer core) (mkScreen (new_page (width vs) (buffer_height vs sb) TextAttribute_default) None) /\
  _altBuffer core = None /\ _mutableViewport core = FromDimensionsSize (Point 0 0) vs.
Proof.
  intros Hw Hc. unfold Core.Create in Hc.
  destruct ((Render.SetColorAlias _ _ _ ;; _) render0) as [render [[]| | |]]; try done. cbn [bindR] in Hc. cbv zeta in Hc.
  fold (buffer_height vs sb) in Hc.
  destruct (TextBuffer_new_page (width vs) (buffer_height vs sb) TextAttribute_default 12 true Hw) as (tb & E & Hp).
  { unfold buffer_height. lia. }
  rewrite E in Hc. simplify_eq/=. split_and!; [|done..]. split; [exact Hp|].
  change (Core._activeBuffer _) with tb. by rewrite (TextBuffer_new_cursor _ _ _ _ _ E).
Qed.

(** ** Concrete terminals *)

#[local] Instance gw : GlyphWidth := pairs_wide.
#[local] Instance core_api : ITerminalApi CoreTerminal := Core.Core_api (fun _ _ _ => []) [] (fun _ => ret tt).

Definition render0 : RenderSettings := (Render.RenderSettings_new (repeat 0 266) (repeat 0 4) []).1.

Lemma core_exists vs sb : Z.max (width vs) 1 <= MAX_COLUMNS -> exists core, Core.Create render0 vs sb = Ok core.
Proof.
  intros Hw. unfold Core.Create. fold (buffer_height vs sb).
  destruct (TextBuffer_new_page (width vs) (buffer_height vs sb) TextAttribute_default 12 true Hw) as (tb & E & _).
  { unfold buffer_height. lia. }
  destruct ((Render.SetColorAlias _ _ _ ;; _) render0) as [render r] eqn:Er.
  assert (Hr : r = Ok tt) by (change r with (render, r).2; rewrite <- Er; by vm_compute). subst r.
  cbn [bindR]. rewrite E. cbn. by eexists.
Qed.

(** A terminal of eight columns and three rows, with two lines of scrollback. *)
Lemma small_terminal :
  exists core, Core.Create render0 (Size 8 3) 2 = Ok core /\
    let a := AdaptDispatch_new core in let s := mkScreen (new_page 8 5 TextAttribute_default) None in
    on_screen a s /\ rows_of_adapter a = mkRows 0 2 0 2 false /\ rows_ok (rows_of_adapter a) (sc_page s) /\
    in_view (rows_of_adapter a) (sc_page s) /\ ready a s.
Proof.
  destruct (core_exists (Size 8 3) 2 ltac:(by vm_compute)) as [core E]. exists core. split; [exact E|].
  destruct (Create_screen render0 (Size 8 3) 2 core ltac:(by vm_compute) E) as (Hs & Ha & Hv). cbv zeta.
  assert (Hr : rows_of_adapter (AdaptDispatch_new core) = mkRows 0 2 0 2 false).
  { clear E. unfold rows_of_adapter, margins_of, viewport_of. cbn -[vertical_margins].
    unfold Core.GetViewport, Core._GetMutableViewport, Core._inAltBuffer. rewrite Ha, Hv. by vm_compute. }
  split; [exact Hs|]. split; [exact Hr|]. rewrite Hr. clear E. split; [unfold rows_ok; split_and!; vm_compute; first [done|lia]|].
  split; [unfold in_view; split_and!; by vm_compute|].
  split; [exact Hs| |vm_compute; lia|].
  - split; [repeat constructor; vm_compute; done|by vm_compute|by vm_compute].
  - unfold viewport_of. cbn. unfold Core.GetViewport, Core._GetMutableViewport, Core._inAltBuffer. rewrite Ha, Hv. by vm_compute.
Qed.

Lemma cursor_moves_step_by_step_witness :
  exists core a', Core.Create render0 (Size 8 3) 2 = Ok core /\
    iterM (fun mv => cursor_move_run mv ;; ret tt) [CUP 1 5; CUF 7; CUU 9; CUD 1] (AdaptDispatch_new core) = (a', Ok tt) /\
    on_screen a' (mkScreen (set_pg_cursor (Point 7 1) (new_page 8 5 TextAttribute_default)) None).
Proof.
  destruct small_terminal as (core & E & Hs & Hr & Hok & Hin & _).
  destruct (cursor_moves_step_by_step CoreTerminal _ _ _ _ [CUP 1 5; CUF 7; CUU 9; CUD 1] Hs Hok Hin) as (a' & E' & H' & _).
  exists core, a'. split_and!; [done..|]. rewrite Hr in H'. exact H'.
Defined.

(** A text with a wide glyph that does not fit in the last column. *)
Lemma text_printed_glyph_by_glyph_witness :
  exists core a', Core.Create render0 (Size 8 3) 2 = Ok core /\
    Adapt.PrintString Statics_init 0 (L"1234567" ++ [0xD83D; 0xDE00] ++ L"x") (AdaptDispatch_new core) = (a', Ok tt) /\
    on_screen a' (print_glyphs TextAttribute_default (glyphs_of (L"1234567" ++ [0xD83D; 0xDE00] ++ L"x"))
      (mkScreen (new_page 8 5 TextAttribute_default) None)) /\
    _cPosition (_cursor (buffer_of a')) = Point 3 1.
Proof.
  destruct small_terminal as (core & E & _ & _ & _ & _ & Hr).
  destruct (text_printed_glyph_by_glyph CoreTerminal _ _ _ gw Statics_init 0 _ _ (L"1234567" ++ [0xD83D; 0xDE00] ++ L"x") Hr)
    as (a' & E' & R' & _); [by vm_compute|done|by vm_compute|].
  exists core, a'. split_and!; [done..|exact (re_screen _ _ R')|]. unfold buffer_of. rewrite (screen_cursor a' _ (re_screen _ _ R')). by vm_compute.
Defined.

Lemma lines_scroll_in_margins_witness :
  exists core a', Core.Create render0 (Size 8 3) 2 = Ok core /\
    scroll_run Statics_init 0 (SD 2) (AdaptDispatch_new core) = (a', Ok true) /\
    on_screen a' (scroll_region 0 2 2 (mkScreen (new_page 8 5 TextAttribute_default) None)).
Proof.
  destruct small_terminal as (core & E & Hs & Hr & Hok & Hin & _).
  destruct (lines_scroll_in_margins CoreTerminal _ _ gw Statics_init 0 _ _ (SD 2) Hs Hok Hin) as (a' & E' & H' & _).
  exists core, a'. split_and!; [done..|]. rewrite Hr in H'. exact H'.
Defined.

(** The letters [a] and [b] in the first columns of a new terminal. *)
Definition lettered : screen :=
  let fill ch c s := set_lines (map_rows 0 1 (filled ch TextAttribute_default 8 c 1) (lines_of s)) s in
  fill 0x62 1%nat (fill 0x61 0%nat (mkScreen (new_page 8 5 TextAttribute_default) None)).

Definition letters (s : screen) : option wstring := (fun l => concat (map g_text (l_glyphs l))) <$> lines_of s !! 0%nat.

Lemma lettered_terminal :
  exists core a, Core.Create render0 (Size 8 3) 2 = Ok core /\
    (Adapt._FillRect Statics_init 0 (Rect 0 0 1 1) 0x61 TextAttribute_default ;;
     Adapt._FillRect Statics_init 0 (Rect 1 0 2 1) 0x62 TextAttribute_default) (AdaptDispatch_new core) = (a, Ok tt) /\
    on_screen a lettered /\ rows_of_adapter a = mkRows 0 2 0 2 false.
Proof.
  destruct small_terminal as (core & E & Hs & Hr & _). exists core.
  destruct (FillRect_does (R := quiet) Statics_init 0 (AdaptDispatch_new core) _ 0x61 TextAttribute_default 0 1 0 1 Hs) as (a1 & E1 & H1 & Q1);
    [lia|vm_compute; lia|vm_compute; lia|].
  destruct (FillRect_does (R := quiet) Statics_init 0 a1 _ 0x62 TextAttribute_default 1 1 0 1 H1) as (a2 & E2 & H2 & Q2);
    [lia|vm_compute; lia|vm_compute; lia|].
  exists a2. split_and!; [done|by rewrite (bind_Ok _ _ _ _ _ E1)|exact H2|]. by rewrite (quiet_rows _ _ Q2), (quiet_rows _ _ Q1).
Qed.

(** Two places are inserted before the letters, and one letter is deleted. *)
Lemma characters_inserted_and_deleted_witness :
  exists core a a1 a2, Core.Create render0 (Size 8 3) 2 = Ok core /\ on_screen a lettered /\ letters lettered = Some (L"ab      ") /\
    Adapt.InsertCharacter Statics_init 0 2 a = (a1, Ok true) /\ on_screen a1 (scroll_at_cursor 2 lettered) /\
    letters (scroll_at_cursor 2 lettered) = Some (L"  ab    ") /\
    Adapt.DeleteCharacter Statics_init 0 1 a = (a2, Ok true) /\ on_screen a2 (scroll_at_cursor (-1) lettered) /\
    letters (scroll_at_cursor (-1) lettered) = Some (L"b       ").
Proof.
  destruct lettered_terminal as (core & a & E & _ & Hs & _).
  assert (Hn : on_narrow_line lettered).
  { split; [done|]. eexists. split; [by vm_compute|]. split; [by apply narrow_line_test; vm_compute|]. split; by vm_compute. }
  destruct (characters_inserted_and_deleted CoreTerminal _ _ gw Statics_init 0 a lettered 2 Hs Hn) as [(a1 & E1 & H1 & _) _].
  destruct (characters_inserted_and_deleted CoreTerminal _ _ gw Statics_init 0 a lettered 1 Hs Hn) as [_ (a2 & E2 & H2 & _)].
  exists core, a, a1, a2. split_and!; [done|done|by vm_compute|done|done|by vm_compute|done|done|by vm_compute].
Defined.

Lemma one_row row first : first <= row < first + 1 -> row = first.
Proof. lia. Qed.

(** The two letters copied one column to the right, over themselves. *)
Lemma rectangle_copied_witness :
  exists core a a', Core.Create render0 (Size 8 3) 2 = Ok core /\ on_screen a lettered /\
    AdaptOps.CopyRectangularArea Statics_init 0 1 1 1 2 1 1 2 1 a = (a', Ok true) /\
    on_screen a' (set_lines (copy_rect (Rect 1 0 3 1) (Point 0 0) (lines_of lettered)) lettered) /\
    letters (set_lines (copy_rect (Rect 1 0 3 1) (Point 0 0) (lines_of lettered)) lettered) = Some (L"aab     ").
Proof.
  destruct lettered_terminal as (core & a & E & _ & Hs & Hr).
  assert (Hl : length (pg_lines (sc_page lettered)) = 5%nat) by (vm_compute; reflexivity).
  assert (Hw : pg_width (sc_page lettered) = 8%nat) by (vm_compute; reflexivity).
  destruct (rectangle_copied CoreTerminal _ _ gw Statics_init 0 a lettered 1 1 1 2 1 1 2 1 Hs) as (a' & E' & H' & _); rewrite ?Hr, ?Hw.
  - unfold rows_ok. rewrite Hl, Hw. cbn. lia.
  - lia.
  - lia.
  - lia.
  - lia.
  - by vm_compute.
  - by vm_compute.
  - intros row Hrow. assert (row = 0) as -> by exact (one_row _ 0 Hrow). eexists. split; [by vm_compute|]. split; [by apply narrow_line_test|done].
  - intros row Hrow. assert (row = 0) as -> by exact (one_row _ 0 Hrow). eexists. split; [by vm_compute|]. split; [by apply narrow_line_test|done].
  - exists core, a, a'. split_and!; [done|done|done| |by vm_compute]. rewrite Hr, Hw in H'. exact H'.
Defined.

(** DECSC at the home position, then DECRC. *)
Lemma saved_cursor_restored_witness :
  exists core a1 a3, Core.Create render0 (Size 8 3) 2 = Ok core /\
    Adapt.CursorSaveState (AdaptDispatch_new core) = (a1, Ok true) /\ Adapt.CursorRestoreState a1 = (a3, Ok true) /\
    _termOutput a3 = _termOutput (AdaptDispatch_new core).
Proof.
  destruct small_terminal as (core & E & Hs & Hr & Hok & Hin & _).
  destruct (saved_cursor_restored CoreTerminal _ _ _ _ Hs Hin) as (a1 & E1 & H1 & Hrest).
  assert (Hr1 : rows_of_adapter a1 = rows_of_adapter (AdaptDispatch_new core)).
  { clear E. rewrite (CursorSaveState_does _ _ Hs) in E1 by done. by simplify_eq. }
  destruct (Hrest a1 _ H1 ltac:(by rewrite Hr1) ltac:(by rewrite Hr1) eq_refl) as (a3 & p & E3 & _ & T3 & _).
  exists core, a1, a3. by split_and!.
Defined.


(** ** The renderer of a pseudoconsole and the terminal *)

#[local] Abbreviation Machine := (StateMachine (OutputStateMachineEngine false (Adapter CoreTerminal)) Handler VTInt).

Definition no_font : FontBuffer :=
  mkFontBuffer (mkFontAttributes 0 0 0 0 0 0) (mkFontAttributes 0 0 0 0 0 0) (mkFontDeclaration false 0 0 0 0 false) (mkFontDimensions 0 0 0 0)
    0 0 0 false VTIDBuilder_Clear 0 0 0 [] 0 false 0 0.

Definition black (_ _ _ : Z) : color := mkColor 0 0 0 255.

#[local] Instance terminal_dispatch : ITermDispatch false (Adapter CoreTerminal) Handler VTInt :=
  machine_dispatch Statics_init 0 (fun fg _ => fg) true black no_font (fun _ => ret tt) (fun _ => ret true).

(** The parser and the output engine in front of a terminal. *)
Definition machine_on (core : CoreTerminal) : Machine :=
  (StateMachine_new (OutputStateMachineEngine_new (AdaptDispatch_new core)) false 0 0 false).1.

Definition underlined_bold : TextAttribute := SetUnderlined true (SetIntense true TextAttribute_default).

(** The first brushes of a new renderer: a reset, then underlined and bold. *)
Lemma brushes_reach_terminal_witness :
  exists core e e' text s' ta',
    Core.Create render0 (Size 8 3) 2 = Ok core /\ Vt.VtEngine_new (FromDimensionsSize (Point 0 0) (Size 8 3)) false = Ok e /\
    Vt.UpdateDrawingBrushes (fun _ => None) 0 (fun _ => []) (fun _ => []) underlined_bold false false e = (e', Ok S_OK) /\
    _buffer e' = text /\ iterM ProcessCharacter text (machine_on core) = (s', Ok tt) /\
    _currentAttributes (buffer_of (adapter_of s')) = ta' /\ agrees ta' underlined_bold.
Proof.
  destruct small_terminal as (core & E & Hs & _).
  destruct (Vt.VtEngine_new (FromDimensionsSize (Point 0 0) (Size 8 3)) false) as [e| | |] eqn:Ee; try by vm_compute in Ee.
  assert (He : _lastTextAttributes e = TextAttribute_rgb INVALID_COLOR INVALID_COLOR /\ _usingSoftFont e = false /\ _passthrough e = false /\ _buffer e = [])
    by (vm_compute in Ee; injection Ee as <-; by vm_compute).
  destruct He as (H1 & H2 & H3 & H4).
  destruct (brushes_reach_terminal CoreTerminal gw Statics_init 0 (fun fg _ => fg) true black no_font false (fun _ => ret tt) (fun _ => ret true)
    (fun _ => None) 0 (fun _ => []) (fun _ => []) e underlined_bold false false (machine_on core) (mkScreen (new_page 8 5 TextAttribute_default) None))
    as (e' & text & s' & ta' & E1 & E2 & E3 & _ & [[_ _ Ha] _] & Hag & _).
  - by left.
  - by left.
  - by rewrite H1.
  - rewrite H2. by left.
  - by rewrite H3.
  - split; [by vm_compute|discriminate|done].
  - exact Hs.
  - right. rewrite H1. split; by vm_compute.
  - exists core, e, e', text, s', ta'. split_and!; [exact E|done|exact E1| |exact E3|exact Ha|exact Hag].
    rewrite E2. cbn. by rewrite H4.
Defined.

(** From the first cell to the sixth column of the third row. *)
Lemma cursor_reaches_terminal_witness :
  exists core e e' s', Core.Create render0 (Size 8 3) 2 = Ok core /\
    Vt.VtEngine_new (FromDimensionsSize (Point 0 0) (Size 8 3)) false = Ok e /\
    Vt._MoveCursor (Point 5 2) (put_lastText (Point 0 0) e) = (e', Ok S_OK) /\ _buffer e' = ESC :: L"[3;6H" /\
    iterM ProcessCharacter (_buffer e') (machine_on core) = (s', Ok tt) /\ _cPosition (_cursor (buffer_of (adapter_of s'))) = Point 5 2.
Proof.
  destruct small_terminal as (core & E & Hs & Hr & Hok & Hin & _).
  destruct (Vt.VtEngine_new (FromDimensionsSize (Point 0 0) (Size 8 3)) false) as [e| | |] eqn:Ee; try by vm_compute in Ee.
  destruct (cursor_reaches_terminal CoreTerminal _ _ _ gw _ Statics_init 0 (fun fg _ => fg) true black no_font false (fun _ => ret tt) (fun _ => ret true)
    (put_lastText (Point 0 0) e) (Point 5 2) (machine_on core) (mkScreen (new_page 8 5 TextAttribute_default) None))
    as (e' & text & E1 & E2 & _ & s' & sc' & E3 & _ & _ & S' & (Hc & _) & _).
  - split; [by vm_compute|discriminate|done].
  - done.
  - exact Hs.
  - exact Hok.
  - exact Hin.
  - by change (adapter_of (machine_on core)) with (AdaptDispatch_new core); rewrite Hr.
  - done.
  - by change (adapter_of (machine_on core)) with (AdaptDispatch_new core); rewrite Hr.
  - vm_compute in Ee. injection Ee as <-. done.
  - change (adapter_of (machine_on core)) with (AdaptDispatch_new core). rewrite Hr. cbn. lia.
  - change (adapter_of (machine_on core)) with (AdaptDispatch_new core). rewrite Hr. clear E. by vm_compute.
  - unfold MAX_PARAMETER_VALUE. cbn. lia.
  - assert (Eb : _buffer e = []) by (vm_compute in Ee; by injection Ee as <-).
    exists core, e, e', s'. cbn [put_lastText _buffer] in E2. rewrite Eb in E2. cbn [app] in E2.
    assert (Et : _buffer e' = ESC :: L"[3;6H").
    { clear -Ee E1. vm_compute in Ee. injection Ee as <-. vm_compute in E1. by injection E1 as <-. }
    split_and!; [exact E|done|exact E1|exact Et|by rewrite E2|]. rewrite (po_cursor _ _ (so_page _ _ S')), Hc.
    change (adapter_of (machine_on core)) with (AdaptDispatch_new core). by rewrite Hr.
Defined.
